(* ===== verification/_CoqProject ===== *)
-Q . S2P
Prelude.v
CLib.v
Bytes.v
Fsm.v
IpRange.v
PppChan.v
Lcp.v
LcpProps.v
LcpNeg.v
Session.v
SessionInv.v
SessionProps.v
PppLayers.v
PppProps.v
RadDict.v
RadPacket.v
RadProps.v
RadCoa.v
RadServ.v
RadServProps.v
IpPool.v
IpPoolProps.v
Hash.v
Des.v
DesProps.v
PppoeDisc.v
PppoeProps.v
PppoeConns.v
PppoeRun.v
L2tpPacket.v
L2tpDict.v
L2tpWire.v
L2tpChan.v
L2tpDelivery.v
L2tpTunnel.v
L2tpView.v
L2tpLife.v
L2tpSafe.v
L2tpRun.v
L2tpSteps.v
L2tpAuth.v
Triton.v
TritonSched.v
TritonMem.v
TritonSafe.v
TritonWork.v
TritonProps.v
TritonLive.v
TritonWake.v
TritonLeak.v
TritonThms.v
