(* ===== verification/Prelude.v ===== *)
(** * micro-bngd: a verification library

    micro-bngd is a broadband network gateway, a fork of accel-ppp: a daemon that accepts
    subscribers over PPPoE, L2TP, PPTP, SSTP and IPoE, negotiates PPP with them, asks RADIUS
    who they are, gives them an address and keeps account of their sessions.  This library
    models the parts of the daemon (the C sources below [src/micro-bngd/] and [src/crypto/])
    whose behaviour is decided by the daemon itself and proves what makes them correct.

    ** How the code is read

    A C function is a Gallina function, with the names of the sources.  The integers of the
    machine are [Z] with the wrap-around of their width written out ([u8], [u16], [u32], [u64],
    [s32] below); a buffer is a list of bytes; a struct is a record; a linked list is a list,
    or a list of positions in a heap where objects are shared; a hash table is a finite map
    with the insertion rule of the sources.  State is threaded explicitly, or by the small
    state monad of this file.  [None] stands for what C leaves undefined (an access outside of
    a buffer, a null dereference, an undefined shift) and for a loop that does not end: a
    theorem that a function returns [Some] is therefore a safety or termination theorem.
    What is not in the sources (the kernel, the C library's environment, random bytes, the
    clock, memory that runs out) is an argument of the definitions.  Runs of the daemon are
    sequences of calls, given by a step relation, with the calls in any order.

    ** Parts and files

    - [CLib]: the parsing helpers of [utils.c] and the string functions they use.
    - [Fsm]: the option negotiation automaton [ppp/ppp_fsm.c], generic in the host structure
      and its callbacks ([fsm_ops]), and the transition table of RFC 1661 (section 4.1).
    - [IpRange]: the client and tunnel address ranges of [iprange.c].
    - [PppChan]: the receive path of a PPP channel ([ppp/ppp.c], [ctrl/pppoe/disc.c]), its
      handlers and the pooled buffer of [triton/mempool.c].
    - [Lcp], [LcpProps], [LcpNeg]: LCP ([ppp/ppp_lcp.c]) with its options ([ppp/lcp_opt_*.c],
      [ppp/ppp_auth.c]) over the automaton of [Fsm].
    - [Session], [SessionInv], [SessionProps]: the sessions of [session.c], the counters, the
      shutdown and the single-session rules.
    - [PppLayers], [PppProps]: the layers of a PPP session ([ppp/ppp.c]): registration, start,
      teardown, over the sessions of [Session].
    - [RadDict], [RadPacket], [RadProps], [RadCoa], [RadServ], [RadServProps]: RADIUS: the
      dictionary ([radius/dict.c]), packets ([radius/packet.c]), the disconnect and CoA server
      ([radius/dm_coa.c]), servers and requests ([radius/serv.c], [radius/req.c]).
    - [IpPool], [IpPoolProps]: the address pools of [extra/ippool.c].
    - [Hash], [Des], [DesProps]: MD4, MD5, SHA-1 and DES of [src/crypto/].
    - [PppoeDisc], [PppoeProps], [PppoeConns], [PppoeRun]: PPPoE discovery
      ([ctrl/pppoe/pppoe.c], [ctrl/pppoe/disc.c]): cookies, tags, packets, session ids,
      connections.
    - [L2tpPacket], [L2tpDict], [L2tpWire]: the control messages of L2TP
      ([ctrl/l2tp/packet.c]), the dictionary ([ctrl/l2tp/dict.c] with the files it ships) and
      the theorems on both.
    - [L2tpChan], [L2tpDelivery]: the sequence numbers and queues of a tunnel
      ([ctrl/l2tp/l2tp.c]), alone and between two ends over a network.
    - [L2tpTunnel]: the rest of [ctrl/l2tp/l2tp.c] for one tunnel: its sessions, their data
      channels, every message sent and received, timers, references and counters.  The state
      is [world], with the tunnel, a heap of sessions, the counters and the flags [uaf] and
      [dfree] that record a use of freed memory and a second free.
    - [L2tpView], [L2tpLife], [L2tpSafe], [L2tpRun], [L2tpSteps]: the life of a tunnel: the
      part of the state that matters for it, the invariant, one specification per function
      and per event, and the theorems on runs.  [L2tpAuth]: who can establish a tunnel.
    - [Bytes]: machine words in buffers, shared by the packet formats.
    - [Triton]: the event loop ([triton/triton.c], [triton/md.c], [triton/timer.c]): contexts,
      workers, timers, descriptor handlers, calls, sleeping and reloading, as an executable
      machine ([run]) whose steps are the sections of code between two lock operations; the
      flag [uaf] records an access to a freed object.  [TritonSched] and [TritonMem] are the
      invariants of the scheduler and of the memory, [TritonSafe], [TritonWork] and
      [TritonProps] show that every step keeps them, [TritonLive], [TritonWake] and
      [TritonLeak] are about what is served, woken and left over, [TritonThms] has the
      theorems on runs.

    [PppoeDisc] uses [Hash] and [Des]; [RadCoa] takes the hash function as an argument; [Lcp]
    uses the automaton of [Fsm] through its record of callbacks, and the layers of [PppLayers]
    are the control of the sessions of [Session].

    ** What the theorems show

    - Automata.  [fsm_refines_rfc1661] and [fsm_deviations_exact] compare every handler with
      the table of the RFC, and [fsm_host_simulation] carries this to any structure that
      contains the automaton; [fsm_negotiation_ends] bounds a negotiation with a silent peer;
      [fsm_layer_alternation] orders the callbacks.
    - Packets.  [lcp_recv_memory_safe], [session_frame_delivery], [recv_returns],
      [padi_memory] give the exact conditions under which received bytes are read inside
      their buffers; [conf_req_roundtrip], [build_recv_roundtrip], [cookie_exact] are round
      trips; [conf_ack_discloses_buffer], [coa_trailing_obeyed], [long_value_injects],
      [sid_release] say what happens outside of these conditions.
    - Registries.  [session_counters], [session_ends_once], [ppp_sessions_exact],
      [server_admission], [addresses_exclusive], [pppoe_registry] are invariants of all runs:
      the counters are the numbers of what they count, an object is ended once, an address or
      a session id has one holder.
    - Order.  [layers_start_in_order], [teardown_orderly], [shutdown_drains],
      [coa_requests_answered] are about the order of calls.
    - Progress.  [echo_drops_dead_peer], [get_ip_serves], [handshake], [retry_loop_ends] are
      about what is reached.
    - Types.  [loaded_dict_typed]: every dictionary RADIUS loads is well typed.
    - Reference definitions.  [hashes_exact] and [des_exact] show that the routines compute
      the functions of the standards, written beside them in the form of the standards.
    - L2TP.  [message_roundtrip] and [recv_memory_safe] are about control messages,
      [hide_cipher] about hidden attributes and [shipped_dictionary] about the files;
      [delivery_exactly_once], [retransmission_progress] and [retransmission_gives_up] about
      the transport; [no_use_after_free], [references_exact] and [counters_exact] about every
      interleaving of datagrams, timers, queued calls, operator and data channels;
      [establishment_authenticated] about the secret.  [call_before_authentication],
      [closed_tunnel_raised], [empty_challenge_freed_twice] and [idle_window] are runs in
      which the code does not do what it means to.
    - Event loop.  For every interleaving, [loop_memory_safe] and [context_references] are about
      memory, [one_worker] about the exclusion the handlers rely on, [calls_in_order] and
      [no_lost_wakeup] about what is run; [idle_unregistered_stays] and [reload_overlaps] are
      about a leak and a reload that runs beside a handler.

    ** Bounds and fuel

    Loops that are not structural run with fuel, and each has a theorem or a bound that the
    fuel is enough: the option walks of LCP and the attribute walk of RADIUS run at most once
    per byte, the tag walk of PPPoE at most once per byte of the frame, the hash functions
    once per input byte; the draw of a magic number takes the fuel of the environment, since
    it ends only with a non-zero draw; the calls between layers nest to the depth of the
    environment; dictionary files include each other to a given depth; the search of a server
    takes as many turns as there are servers ([retry_loop_ends]); the shuffle of a pool takes
    11 turns per address; the search of a pool one turn per pool; the search of a session id
    one turn per word of the bitmap.
    The loops of L2TP: the attributes of a message take one turn per byte, the replies one per
    slot of the reception queue, the search for an identifier the 65535 tries of the sources.
    The runs of [L2tpSteps] assume that the call that sends the first message is run before
    the tunnel is closed ([start_ok]; [closed_tunnel_raised] shows what happens otherwise) and
    that fewer than 2^31 sessions are allocated ([memory_left]), since the counters of the
    sources have 32 bits.
    The machine of [Triton] needs no fuel: a run is a list of steps.  The users of the loop
    are taken to keep two rules the sources rely on: contexts, timers and handlers are taken
    down by the context they belong to, or while it is idle ([owns]), and a handler that
    unregistered its own descriptor returns non-zero.

    ** Not modelled

    Logging and printing of packets; the command line; netlink, VPP and kernel interfaces,
    which are system calls; the modules, events and configuration files of [triton], and its
    start; the Net-SNMP module; the Lua binding; the licence check.  The threads of the event
    loop interleave between any two lock operations in [Triton]; the other models take a
    handler as atomic, since the handlers of one context run one after the other
    ([one_worker]).  IPCP, IPV6CP and CCP are further instances of the negotiation modelled
    for LCP; IPoE, DHCP, PPTP and SSTP, the pools of IPv6 prefixes, the shaper and the
    attributes of RADIUS accounting are not modelled.  The manifest lists each part with the
    reason. *)

From stdpp Require Import base tactics list numbers option strings.
From coqutil Require Export Datatypes.RecordSetters.
From Stdlib Require Import ZArith Lia.

Export TriangleBracketNotations.

#[global] Arguments constant {_} _ _ /.

(** * Machine integers

    C integers are kept as [Z] and every conversion to a fixed width is written
    out.  [uN] is the conversion to an unsigned N-bit type, [s32] the conversion
    to [int] (two's complement, as the compilers the program targets do). *)

Declare Scope bng_scope.
Delimit Scope bng_scope with bng.

Definition u8 (z : Z) : Z := (z mod 2 ^ 8)%Z.
Definition u16 (z : Z) : Z := (z mod 2 ^ 16)%Z.
Definition u32 (z : Z) : Z := (z mod 2 ^ 32)%Z.
Definition u64 (z : Z) : Z := (z mod 2 ^ 64)%Z.
Definition s32 (z : Z) : Z := ((z + 2 ^ 31) mod 2 ^ 32 - 2 ^ 31)%Z.

Definition is_u8 (z : Z) : Prop := (0 <= z < 2 ^ 8)%Z.
Definition is_u16 (z : Z) : Prop := (0 <= z < 2 ^ 16)%Z.
Definition is_u32 (z : Z) : Prop := (0 <= z < 2 ^ 32)%Z.
Definition is_s32 (z : Z) : Prop := (- 2 ^ 31 <= z < 2 ^ 31)%Z.

Arguments u8 : simpl never. Arguments u16 : simpl never.
Arguments u32 : simpl never. Arguments u64 : simpl never.
Arguments s32 : simpl never.
Arguments is_u8 : simpl never. Arguments is_u16 : simpl never.
Arguments is_u32 : simpl never. Arguments is_s32 : simpl never.

Create HintDb bng discriminated.
Create Rewrite HintDb bng_rw.

(** [width_lia] decides goals that mix the width conversions with linear arithmetic. *)
Ltac width_unfold :=
  unfold u8, u16, u32, u64, s32, is_u8, is_u16, is_u32, is_s32 in *;
  change (2 ^ 8)%Z with 256%Z in *; change (2 ^ 16)%Z with 65536%Z in *;
  change (2 ^ 32)%Z with 4294967296%Z in *; change (2 ^ 31)%Z with 2147483648%Z in *;
  change (2 ^ 64)%Z with 18446744073709551616%Z in *.
Ltac width_lia := width_unfold; Z.div_mod_to_equations; lia.

Lemma u8_range z : is_u8 (u8 z).
Proof. width_lia. Qed.
Lemma u16_range z : is_u16 (u16 z).
Proof. width_lia. Qed.
Lemma u32_range z : is_u32 (u32 z).
Proof. width_lia. Qed.
Lemma s32_range z : is_s32 (s32 z).
Proof. width_lia. Qed.
Lemma u8_small z : is_u8 z -> u8 z = z.
Proof. intros. width_lia. Qed.
Lemma u16_small z : is_u16 z -> u16 z = z.
Proof. intros. width_lia. Qed.
Lemma u32_small z : is_u32 z -> u32 z = z.
Proof. intros. width_lia. Qed.
Lemma s32_small z : is_s32 z -> s32 z = z.
Proof. intros. width_lia. Qed.
Lemma u32_u32 z : u32 (u32 z) = u32 z.
Proof. apply u32_small, u32_range. Qed.
Lemma u32_add_l a b : u32 (u32 a + b) = u32 (a + b).
Proof. unfold u32. by rewrite Zplus_mod_idemp_l. Qed.

#[export] Hint Resolve u8_range u16_range u32_range s32_range : bng.
#[export] Hint Rewrite u32_u32 u32_add_l : bng_rw.

(** * Bytes and network order

    A byte is a [Z] below 256; a packet is a list of them.  Multi-byte fields are
    read and written at their network-order position. *)

Definition bytes_ok (l : list Z) : Prop := Forall is_u8 l.

Definition be16 (z : Z) : list Z := [u8 (Z.shiftr z 8); u8 z].
Definition be32 (z : Z) : list Z :=
  [u8 (Z.shiftr z 24); u8 (Z.shiftr z 16); u8 (Z.shiftr z 8); u8 z].

Definition of_be16 (a b : Z) : Z := (a * 256 + b)%Z.
Definition of_be32 (a b c d : Z) : Z := (((a * 256 + b) * 256 + c) * 256 + d)%Z.

Lemma shiftr_div z n : (0 <= n)%Z -> Z.shiftr z n = (z / 2 ^ n)%Z.
Proof. apply Z.shiftr_div_pow2. Qed.

Ltac be_unfold :=
  unfold be16, be32, of_be16, of_be32 in *; rewrite ?shiftr_div by lia;
  change (2 ^ 24)%Z with 16777216%Z in *; width_unfold.

Lemma of_be16_be16 z :
  is_u16 z -> of_be16 (u8 (Z.shiftr z 8)) (u8 z) = z.
Proof. intros. be_unfold. Z.div_mod_to_equations. lia. Qed.

Lemma of_be32_be32 z :
  is_u32 z ->
  of_be32 (u8 (Z.shiftr z 24)) (u8 (Z.shiftr z 16)) (u8 (Z.shiftr z 8)) (u8 z) = z.
Proof. intros. be_unfold. Z.div_mod_to_equations. lia. Qed.

Lemma be16_ok z : bytes_ok (be16 z).
Proof. repeat constructor; apply u8_range. Qed.
Lemma be32_ok z : bytes_ok (be32 z).
Proof. repeat constructor; apply u8_range. Qed.

Lemma of_be16_range a b : is_u8 a -> is_u8 b -> is_u16 (of_be16 a b).
Proof. intros. be_unfold. lia. Qed.
Lemma of_be32_range a b c d :
  is_u8 a -> is_u8 b -> is_u8 c -> is_u8 d -> is_u32 (of_be32 a b c d).
Proof. intros. be_unfold. lia. Qed.

#[export] Hint Resolve be16_ok be32_ok of_be16_range of_be32_range : bng.

(** [htonl]/[ntohl] on the little-endian hosts the daemon runs on. *)
Definition bswap32 (z : Z) : Z :=
  of_be32 (u8 z) (u8 (Z.shiftr z 8)) (u8 (Z.shiftr z 16)) (u8 (Z.shiftr z 24)).
Abbreviation htonl := bswap32.
Abbreviation ntohl := bswap32.

Lemma bswap32_range z : is_u32 (bswap32 z).
Proof. apply of_be32_range; apply u8_range. Qed.

Lemma bswap32_involutive z : is_u32 z -> bswap32 (bswap32 z) = z.
Proof.
  intros Hz. unfold bswap32, of_be32 at 1.
  assert (forall a b c d, is_u8 a -> is_u8 b -> is_u8 c -> is_u8 d ->
    let w := of_be32 a b c d in
    u8 w = d /\ u8 (Z.shiftr w 8) = c /\ u8 (Z.shiftr w 16) = b /\ u8 (Z.shiftr w 24) = a) as Hw.
  { intros a b c d Ha Hb Hc Hd. cbv zeta. be_unfold. Z.div_mod_to_equations. lia. }
  specialize (Hw _ _ _ _ (u8_range z) (u8_range (Z.shiftr z 8)) (u8_range (Z.shiftr z 16))
    (u8_range (Z.shiftr z 24))) as (-> & -> & -> & ->).
  exact (of_be32_be32 z Hz).
Qed.

Lemma bswap32_inj a b : is_u32 a -> is_u32 b -> bswap32 a = bswap32 b -> a = b.
Proof.
  intros Ha Hb E. rewrite <- (bswap32_involutive a Ha), <- (bswap32_involutive b Hb).
  by rewrite E.
Qed.

#[export] Hint Resolve bswap32_range : bng.

(** * A state monad

    Stateful code is written in [st S A], with stdpp's monadic notations
    ([x ← m; k] and [m ;; k]).  A C function pointer that may be NULL is an
    [option] of an action; [call] is the [if (p) p(...)] idiom. *)

Definition st (S A : Type) : Type := S -> A * S.

#[export] Instance st_ret {S} : MRet (st S) := fun A a s => (a, s).
#[export] Instance st_bind {S} : MBind (st S) :=
  fun A B k m s => let '(a, s') := m s in k a s'.

Definition gets {S A} (f : S -> A) : st S A := fun s => (f s, s).
Definition modify {S} (f : S -> S) : st S unit := fun s => (tt, f s).
Definition skip {S} : st S unit := mret tt.
Definition when {S} (b : bool) (m : st S unit) : st S unit := if b then m else skip.
Definition call {S} (p : option (st S unit)) : st S unit :=
  match p with Some f => f | None => skip end.
Definition exec {S A} (m : st S A) (s : S) : S := (m s).2.
Definition val {S A} (m : st S A) (s : S) : A := (m s).1.

(** [iter_st l f] is a [list_for_each_entry] loop whose body is [f]. *)
Fixpoint iter_st {S A} (l : list A) (f : A -> st S unit) : st S unit :=
  match l with
  | [] => skip
  | x :: l => f x ;; iter_st l f
  end.

Lemma exec_bind {S A B} (m : st S A) (k : A -> st S B) s :
  exec (m ≫= k) s = exec (k (val m s)) (exec m s).
Proof. unfold exec, val, mbind, st_bind. by destruct (m s). Qed.
Lemma val_bind {S A B} (m : st S A) (k : A -> st S B) s :
  val (m ≫= k) s = val (k (val m s)) (exec m s).
Proof. unfold exec, val, mbind, st_bind. by destruct (m s). Qed.

Lemma exec_ret {S A} (a : A) (s : S) : exec (mret a) s = s.
Proof. done. Qed.
Lemma val_ret {S A} (a : A) (s : S) : val (mret a) s = a.
Proof. done. Qed.

Lemma unit_eq (a b : unit) : a = b.
Proof. by destruct a, b. Qed.

(** Hoare-style closure: an action that keeps a predicate of the state. *)
Definition keeps {S A} (P : S -> Prop) (m : st S A) : Prop :=
  forall s, P s -> P (exec m s).

Lemma keeps_ret {S A} (P : S -> Prop) (a : A) : keeps P (mret a : st S A).
Proof. by intros s. Qed.
Lemma keeps_bind {S A B} (P : S -> Prop) (m : st S A) (k : A -> st S B) :
  keeps P m -> (forall a, keeps P (k a)) -> keeps P (m ≫= k).
Proof. intros Hm Hk s Hs. rewrite exec_bind. by apply Hk, Hm. Qed.
Lemma keeps_gets {S A} (P : S -> Prop) (f : S -> A) : keeps P (gets f).
Proof. by intros s. Qed.
Lemma keeps_skip {S} (P : S -> Prop) : keeps P (skip (S := S)).
Proof. by intros s. Qed.
Lemma keeps_iter {S A} (P : S -> Prop) (l : list A) (f : A -> st S unit) :
  (forall x, keeps P (f x)) -> keeps P (iter_st l f).
Proof.
  intros Hf. induction l as [|x l IH]; [apply keeps_skip|].
  apply keeps_bind; auto.
Qed.

#[export] Hint Resolve keeps_ret keeps_bind keeps_gets keeps_skip keeps_iter : bng.

(** Triples, for actions whose result matters. *)
Definition triple {S A} (P : S -> Prop) (m : st S A) (Q : A -> S -> Prop) : Prop :=
  forall s, P s -> Q (val m s) (exec m s).

Lemma triple_bind {S A B} (P : S -> Prop) (m : st S A) (R : A -> S -> Prop) (k : A -> st S B) Q :
  triple P m R -> (forall a, triple (R a) (k a) Q) -> triple P (m ≫= k) Q.
Proof. intros Hm Hk s Hs. rewrite exec_bind, val_bind. by apply Hk, Hm. Qed.
Lemma triple_ret {S A} (P : S -> Prop) (a : A) (Q : A -> S -> Prop) :
  (forall s, P s -> Q a s) -> triple P (mret a) Q.
Proof. intros H s Hs. by apply H. Qed.
Lemma triple_conseq {S A} (P P' : S -> Prop) (m : st S A) (Q Q' : A -> S -> Prop) :
  triple P' m Q' -> (forall s, P s -> P' s) -> (forall a s, Q' a s -> Q a s) -> triple P m Q.
Proof. intros Hm HP HQ s Hs. by apply HQ, Hm, HP. Qed.
Lemma triple_gets {S A} (P : S -> Prop) (f : S -> A) :
  triple P (gets f) (fun a s => P s /\ a = f s).
Proof. by intros s Hs. Qed.
Lemma triple_modify {S} (P : S -> Prop) (f : S -> S) (Q : unit -> S -> Prop) :
  (forall s, P s -> Q tt (f s)) -> triple P (modify f) Q.
Proof. intros H s Hs. by apply H. Qed.
Lemma triple_keeps {S A} (P : S -> Prop) (m : st S A) : keeps P m <-> triple P m (fun _ => P).
Proof. done. Qed.
Lemma keeps_weaken {S A} (P : S -> Prop) (m : st S A) Q :
  triple P m Q -> (forall a s, Q a s -> P s) -> keeps P m.
Proof. intros Hm HQ s Hs. eapply HQ, Hm, Hs. Qed.
Lemma keeps_when {S} (P : S -> Prop) (b : bool) (m : st S unit) : keeps P m -> keeps P (when b m).
Proof. intros Hm. destruct b; [done|apply keeps_skip]. Qed.
Lemma keeps_call {S} (P : S -> Prop) (p : option (st S unit)) :
  (forall m, p = Some m -> keeps P m) -> keeps P (call p).
Proof. intros Hm. destruct p; [by apply Hm|apply keeps_skip]. Qed.
#[export] Hint Resolve keeps_when : bng.

(** * Counting

    The number of indices below a bound that satisfy a test. *)

Section Tally.
#[local] Open Scope Z_scope.

Fixpoint tally (p : nat -> bool) (n : nat) : Z :=
  match n with O => 0 | S n => Z.b2z (p n) + tally p n end.

Lemma tally_ext p q n : (forall i, (i < n)%nat -> p i = q i) -> tally p n = tally q n.
Proof. induction n as [|n IH]; intros H; [done|]. cbn [tally]. rewrite (H n), IH by auto with lia. done. Qed.

Lemma tally_upd p q i n :
  (i < n)%nat -> (forall j, j <> i -> p j = q j) -> tally q n = tally p n - Z.b2z (p i) + Z.b2z (q i).
Proof.
  intros Hi H. induction n as [|n IH]; [lia|]. cbn [tally]. destruct (decide (i = n)) as [->|Hn].
  - rewrite (tally_ext q p) by (intros j Hj; symmetry; apply H; lia). lia.
  - rewrite IH, (H n) by lia. lia.
Qed.

Lemma tally_nonneg p n : 0 <= tally p n.
Proof. induction n as [|n IH]; cbn [tally]; [done|]. destruct (p n); cbn [Z.b2z]; lia. Qed.

Lemma tally_mono p q n : (forall i, p i = true -> q i = true) -> tally p n <= tally q n.
Proof.
  intros H. induction n as [|n IH]; [done|]. cbn [tally]. specialize (H n).
  destruct (p n); [rewrite H by done|destruct (q n)]; cbn [Z.b2z]; lia.
Qed.

Lemma tally_pos q i n : (i < n)%nat -> q i = true -> 1 <= tally q n.
Proof.
  intros Hi Hq. induction n as [|n IH]; [lia|]. cbn [tally]. pose proof (tally_nonneg q n).
  destruct (decide (i = n)) as [->|]; [rewrite Hq; cbn [Z.b2z]; lia|]. specialize (IH ltac:(lia)).
  destruct (q n); cbn [Z.b2z]; lia.
Qed.

Lemma tally_filter p n : tally p n = Z.of_nat (length (List.filter p (List.seq 0 n))).
Proof.
  induction n as [|n IH]; [done|]. rewrite List.seq_S, List.filter_app, length_app. cbn [tally List.filter].
  cbn [Nat.add]. destruct (p n); cbn [length Z.b2z]; lia.
Qed.

(** Numbers that are different and below a bound are few. *)
Lemma tally_bound p n (f : nat -> Z) (B : Z) :
  0 <= B -> (forall i, p i = true -> 0 < f i < B) -> (forall i j, p i = true -> p j = true -> f i = f j -> i = j) ->
  tally p n <= B.
Proof.
  intros HB Hr Hinj. rewrite tally_filter.
  assert (Hnd : List.NoDup (List.map f (List.filter p (List.seq 0 n)))).
  { apply List.NoDup_map_NoDup_ForallPairs; [|apply List.NoDup_filter, List.seq_NoDup].
    intros i j Hi Hj Hij. apply List.filter_In in Hi as [_ Hi]. apply List.filter_In in Hj as [_ Hj]. by apply Hinj. }
  assert (Hincl : List.incl (List.map f (List.filter p (List.seq 0 n))) (List.map Z.of_nat (List.seq 0 (Z.to_nat B)))).
  { intros z Hz. apply List.in_map_iff in Hz as (i & <- & Hi). apply List.filter_In in Hi as [_ Hi]. specialize (Hr i Hi).
    apply List.in_map_iff. exists (Z.to_nat (f i)). split; [lia|]. apply List.in_seq. lia. }
  pose proof (List.NoDup_incl_length Hnd Hincl) as Hlen. rewrite !List.length_map, List.length_seq in Hlen. lia.
Qed.

End Tally.

(** * Shared tactics *)

(** Case analysis on every [if]/[match] scrutinee of the goal. *)
Ltac case_all :=
  repeat match goal with
  | |- context [match ?x with _ => _ end] =>
      lazymatch x with
      | context [match _ with _ => _ end] => fail
      | _ => destruct x eqn:?
      end
  end.

(** Turn boolean comparisons of the context into propositions. *)
Ltac to_prop :=
  repeat match goal with
  | H : (_ && _)%bool = true |- _ => apply andb_true_iff in H; destruct H
  | H : (_ || _)%bool = false |- _ => apply orb_false_iff in H; destruct H
  | H : negb _ = true |- _ => apply negb_true_iff in H
  | H : negb _ = false |- _ => apply negb_false_iff in H
  | H : (_ =? _)%Z = true |- _ => apply Z.eqb_eq in H
  | H : (_ =? _)%Z = false |- _ => apply Z.eqb_neq in H
  | H : (_ <? _)%Z = true |- _ => apply Z.ltb_lt in H
  | H : (_ <? _)%Z = false |- _ => apply Z.ltb_ge in H
  | H : (_ <=? _)%Z = true |- _ => apply Z.leb_le in H
  | H : (_ <=? _)%Z = false |- _ => apply Z.leb_gt in H
  end.
