(* ===== verification/CLib.v ===== *)
(** The parts of the C library the parsers use.

    A [const char *] is a [string] (the terminating NUL is the end of the string);
    advancing the pointer by [n] is [sdrop n].  Each function follows the C standard
    (glibc for [inet_pton]) on the inputs the sources give it: base 10, the "C" locale,
    64-bit [long]. *)

From stdpp Require Import base tactics list numbers option strings.
From Stdlib Require Import ZArith Lia Ascii String.
From S2P Require Import Prelude.

Open Scope Z_scope.

#[global] Arguments String.append : simpl nomatch.

(** ** Characters *)

Definition code (c : ascii) : Z := Z.of_N (N_of_ascii c).
Definition isdigit (c : ascii) : bool := (48 <=? code c) && (code c <=? 57).
Definition digit (c : ascii) : Z := code c - 48.
Definition isspace (c : ascii) : bool :=
  (code c =? 32) || ((9 <=? code c) && (code c <=? 13)).

(** ** Pointer arithmetic on a string *)

Fixpoint sdrop (n : nat) (s : string) : string :=
  match n, s with
  | O, _ => s
  | S n, String _ s => sdrop n s
  | S _, EmptyString => EmptyString
  end.

Fixpoint stake (n : nat) (s : string) : string :=
  match n, s with
  | S n, String c s => String c (stake n s)
  | _, _ => EmptyString
  end.

(** [*s == c] *)
Definition starts_with (c : ascii) (s : string) : bool :=
  match s with String d _ => bool_decide (c = d) | EmptyString => false end.

Fixpoint strspn (p : ascii -> bool) (s : string) : nat :=
  match s with
  | String c s => if p c then S (strspn p s) else 0
  | EmptyString => 0
  end.

Fixpoint all_chars (p : ascii -> bool) (s : string) : bool :=
  match s with
  | String c s => p c && all_chars p s
  | EmptyString => true
  end.

Lemma strspn_app p s t :
  all_chars p s = true -> (match t with String c _ => p c | EmptyString => false end) = false ->
  strspn p (s +:+ t) = String.length s.
Proof.
  intros Hs Ht. induction s as [|c s IH]; cbn in *.
  - destruct t; [done|]. cbn. by rewrite Ht.
  - apply andb_true_iff in Hs as [-> Hs]. by rewrite IH.
Qed.

Lemma append_nil_r (s : string) : s +:+ "" = s.
Proof. induction s as [|c s IH]; cbn; [done|by rewrite IH]. Qed.

Lemma append_assoc (s t u : string) : (s +:+ t) +:+ u = s +:+ t +:+ u.
Proof. induction s as [|c s IH]; cbn; [done|by rewrite IH]. Qed.

Lemma length_append (s t : string) :
  String.length (s +:+ t) = (String.length s + String.length t)%nat.
Proof. induction s as [|c s IH]; cbn; [done|by rewrite IH]. Qed.

Lemma all_chars_app p s t : all_chars p (s +:+ t) = all_chars p s && all_chars p t.
Proof. induction s as [|c s IH]; cbn; [done|]. rewrite IH. by rewrite andb_assoc. Qed.

Lemma sdrop_app s t : sdrop (String.length s) (s +:+ t) = t.
Proof. induction s; cbn; done. Qed.

Lemma stake_app s t : stake (String.length s) (s +:+ t) = s.
Proof. induction s as [|c s IH]; cbn; [by destruct t|by rewrite IH]. Qed.

Lemma strspn_le p s : (strspn p s <= String.length s)%nat.
Proof. induction s as [|c s IH]; cbn; [lia|]. destruct (p c); lia. Qed.

(** ** Numbers *)

(** The value of the leading digits of [s], read after [acc], and how many there are. *)
Fixpoint digits (acc : Z) (s : string) : Z * nat :=
  match s with
  | String c s' =>
      if isdigit c then let '(v, n) := digits (acc * 10 + digit c) s' in (v, S n)
      else (acc, O)
  | EmptyString => (acc, O)
  end.

Definition ULONG_MAX : Z := 2 ^ 64 - 1.
Definition LONG_MAX : Z := 2 ^ 63 - 1.
Definition LONG_MIN : Z := - 2 ^ 63.

(** [strtoul(s, &end, 10)] on a string that starts with a digit: the value, saturated,
    and [end - s]. *)
Definition strtoul (s : string) : Z * nat :=
  let '(v, n) := digits 0 s in (Z.min v ULONG_MAX, n).

(** [strtol(s, &end, 10)]: blanks, a sign, digits; [end = s] when there is no digit. *)
Definition strtol (s : string) : Z * nat :=
  let b := strspn isspace s in
  let s1 := sdrop b s in
  let '(neg, sg) :=
    match s1 with
    | String c _ => if code c =? 45 then (true, 1%nat) else if code c =? 43 then (false, 1%nat) else (false, 0%nat)
    | EmptyString => (false, 0%nat)
    end in
  let '(v, n) := digits 0 (sdrop sg s1) in
  if (n =? 0)%nat then (0, 0%nat)
  else (Z.max LONG_MIN (Z.min LONG_MAX (if neg : bool then - v else v)), (b + sg + n)%nat).

Definition atoi (s : string) : Z := s32 (strtol s).1.

(** The blanks and the sign [strtol] and [strtoul] skip: is it negative, how many
    characters are skipped. *)
Definition strto_sign (s : string) : bool * nat :=
  let b := strspn isspace s in
  match sdrop b s with
  | String c _ => if code c =? 45 then (true, S b) else if code c =? 43 then (false, S b) else (false, b)
  | EmptyString => (false, b)
  end.

(** [strtoul(s, &end, 10)] on any string: a sign negates in the unsigned type. *)
Definition strtoul10 (s : string) : Z * nat :=
  let '(neg, b) := strto_sign s in
  let '(v, n) := digits 0 (sdrop b s) in
  if (n =? 0)%nat then (0, 0%nat)
  else if ULONG_MAX <? v then (ULONG_MAX, (b + n)%nat)
  else (u64 (if neg : bool then - v else v), (b + n)%nat).

(** [strtol(s, &end, 16)], with its optional [0x]. *)
Definition xdigit (c : ascii) : option Z :=
  if isdigit c then Some (digit c)
  else if (97 <=? code c) && (code c <=? 102) then Some (code c - 87)
  else if (65 <=? code c) && (code c <=? 70) then Some (code c - 55)
  else None.
Fixpoint xdigits (acc : Z) (s : string) : Z * nat :=
  match s with
  | String c s' =>
      match xdigit c with
      | Some x => let '(v, n) := xdigits (acc * 16 + x) s' in (v, S n)
      | None => (acc, O)
      end
  | EmptyString => (acc, O)
  end.
Definition xprefix (s : string) : nat :=
  match s with
  | String z (String x (String c _)) =>
      if (code z =? 48) && ((code x =? 120) || (code x =? 88)) && bool_decide (is_Some (xdigit c))
      then 2%nat else 0%nat
  | _ => 0%nat
  end.
Definition strtol16 (s : string) : Z * nat :=
  let '(neg, b) := strto_sign s in
  let p := xprefix (sdrop b s) in
  let '(v, n) := xdigits 0 (sdrop (b + p) s) in
  if (n =? 0)%nat then (0, 0%nat)
  else (Z.max LONG_MIN (Z.min LONG_MAX (if neg : bool then - v else v)), (b + p + n)%nat).

(** [strtoul(s, &end, 0)] on a string that starts with a digit: hexadecimal after [0x],
    octal after [0], decimal otherwise. *)
Fixpoint odigits (acc : Z) (s : string) : Z * nat :=
  match s with
  | String c s' =>
      if isdigit c && (code c <=? 55) then let '(v, n) := odigits (acc * 8 + digit c) s' in (v, S n)
      else (acc, O)
  | EmptyString => (acc, O)
  end.
Definition strtoul0 (s : string) : Z * nat :=
  let p := xprefix s in
  if (p =? 2)%nat then let '(v, n) := xdigits 0 (sdrop p s) in (v, (p + n)%nat)
  else if starts_with "0" s then odigits 0 s
  else digits 0 s.

(** [inet_addr]: one to four numbers; all but the last are octets, the last fills the rest
    of the address.  The result is in host order, all ones for a text that is none. *)
Fixpoint aton (k : nat) (acc : Z) (s : string) : option Z :=
  if match s with String c _ => isdigit c | EmptyString => false end then
    let '(v, n) := strtoul0 s in
    let rest := sdrop n s in
    match k, rest with
    | S k', String c rest' =>
        if code c =? 46 then if 255 <? v then None else aton k' (acc + v * 2 ^ (8 * Z.of_nat k)) rest'
        else if isspace c && negb (2 ^ (8 * (Z.of_nat k + 1)) <=? v) then Some (acc + v) else None
    | _, String c _ => if isspace c && negb (2 ^ (8 * (Z.of_nat k + 1)) <=? v) then Some (acc + v) else None
    | _, EmptyString => if 2 ^ (8 * (Z.of_nat k + 1)) <=? v then None else Some (acc + v)
    end
  else None.
Definition INADDR_NONE : Z := 2 ^ 32 - 1.
Definition inet_addr (s : string) : Z := default INADDR_NONE (aton 3 0 s).

Lemma digits_strspn acc s : (digits acc s).2 = strspn isdigit s.
Proof.
  revert acc. induction s as [|c s IH]; intros acc; cbn; [done|].
  destruct (isdigit c); [|done]. specialize (IH (acc * 10 + digit c)).
  destruct (digits _ s). cbn in *. by rewrite IH.
Qed.

Lemma digit_range c : isdigit c = true -> 0 <= digit c <= 9.
Proof. unfold isdigit, digit. intros. to_prop. lia. Qed.

Lemma digits_ge acc s : 0 <= acc -> acc <= (digits acc s).1.
Proof.
  revert acc. induction s as [|c s IH]; intros acc Hacc; cbn; [lia|].
  destruct (isdigit c) eqn:Hc; [|cbn; lia]. apply digit_range in Hc.
  specialize (IH (acc * 10 + digit c)). destruct (digits _ s). cbn in *. lia.
Qed.

Lemma digits_app acc s t :
  all_chars isdigit s = true -> (match t with String c _ => isdigit c | EmptyString => false end) = false ->
  digits acc (s +:+ t) = ((digits acc s).1, String.length s).
Proof.
  intros Hs Ht. revert acc. induction s as [|c s IH]; intros acc; cbn in *.
  - destruct t; cbn; [done|]. by rewrite Ht.
  - apply andb_true_iff in Hs as [-> Hs]. rewrite (IH Hs). by destruct (digits _ s).
Qed.

(** ** [inet_pton(AF_INET, ...)], as glibc scans it

    [oct] counts the octets begun, [cur] is the octet being read, [done] the finished
    ones (latest first), [saw] whether the current octet has a digit. *)
Fixpoint pton_scan (s : string) (oct : nat) (done : list Z) (cur : Z) (saw : bool) : option (list Z) :=
  match s with
  | EmptyString => if (oct <? 4)%nat then None else Some (rev (cur :: done))
  | String c s =>
      if isdigit c then
        let new := cur * 10 + digit c in
        if saw && (cur =? 0) then None
        else if 255 <? new then None
        else if saw then pton_scan s oct done new true
        else if (4 <? S oct)%nat then None
        else pton_scan s (S oct) done new true
      else if (code c =? 46) && saw then
        if (oct =? 4)%nat then None
        else pton_scan s oct (cur :: done) 0 false
      else None
  end.

Definition inet_pton4 (s : string) : option (list Z) := pton_scan s 0 [] 0 false.

(** ** [sprintf("%i")] of an octet and the dotted-quad form *)

Definition dchar (d : Z) : ascii := ascii_of_N (Z.to_N (48 + d)).
Definition show_octet (b : Z) : string :=
  if b <? 10 then String (dchar b) ""
  else if b <? 100 then String (dchar (b / 10)) (String (dchar (b mod 10)) "")
  else String (dchar (b / 100)) (String (dchar (b / 10 mod 10)) (String (dchar (b mod 10)) "")).

Definition dotted (a b c d : Z) : string :=
  show_octet a +:+ "." +:+ show_octet b +:+ "." +:+ show_octet c +:+ "." +:+ show_octet d.

Lemma dchar_digit d : 0 <= d <= 9 -> isdigit (dchar d) = true /\ digit (dchar d) = d.
Proof.
  intros Hd.
  assert (d = 0 \/ d = 1 \/ d = 2 \/ d = 3 \/ d = 4 \/ d = 5 \/ d = 6 \/ d = 7 \/ d = 8 \/ d = 9)
    as Hc by lia.
  repeat destruct Hc as [->|Hc]; try subst d; by vm_compute.
Qed.

Lemma isdigit_dchar d : 0 <= d <= 9 -> isdigit (dchar d) = true.
Proof. intros. by apply dchar_digit. Qed.

Lemma pton_digit d s oct don cur saw :
  0 <= d <= 9 ->
  pton_scan (String (dchar d) s) oct don cur saw =
  if saw && (cur =? 0) then None
  else if 255 <? cur * 10 + d then None
  else if saw then pton_scan s oct don (cur * 10 + d) true
  else if (4 <? S oct)%nat then None
  else pton_scan s (S oct) don (cur * 10 + d) true.
Proof. intros Hd. cbn [pton_scan]. destruct (dchar_digit d Hd) as [-> ->]. done. Qed.

(** Reading the text of an octet. *)
Lemma pton_octet b s oct don :
  is_u8 b -> (oct < 4)%nat ->
  pton_scan (show_octet b +:+ s) oct don 0 false = pton_scan s (S oct) don b true.
Proof.
  intros Hb Ho. assert ((4 <? S oct)%nat = false) as Ho' by (apply Nat.ltb_ge; lia).
  unfold show_octet. width_unfold.
  destruct (b <? 10) eqn:H10; [|destruct (b <? 100) eqn:H100]; to_prop; cbn [String.append].
  - rewrite pton_digit by lia. cbn [andb]. rewrite Ho'.
    by rewrite (proj2 (Z.ltb_ge 255 (0 * 10 + b))) by lia.
  - assert (b = b / 10 * 10 + b mod 10 /\ 1 <= b / 10 <= 9 /\ 0 <= b mod 10 <= 9) as (Hm & Hd & Hr)
      by (Z.div_mod_to_equations; lia).
    rewrite !pton_digit by lia. cbn [andb]. rewrite Ho'.
    rewrite (proj2 (Z.ltb_ge 255 (0 * 10 + b / 10))) by lia.
    rewrite (proj2 (Z.eqb_neq (0 * 10 + b / 10) 0)) by lia.
    rewrite (proj2 (Z.ltb_ge 255 _)) by lia. f_equal. lia.
  - assert (b = (b / 100 * 10 + b / 10 mod 10) * 10 + b mod 10 /\ 1 <= b / 100 <= 9 /\
      0 <= b / 10 mod 10 <= 9 /\ 0 <= b mod 10 <= 9) as (Hm & Hd & Hc & Hr)
      by (Z.div_mod_to_equations; lia).
    rewrite !pton_digit by lia. cbn [andb]. rewrite Ho'.
    rewrite (proj2 (Z.ltb_ge 255 (0 * 10 + b / 100))) by lia.
    rewrite (proj2 (Z.eqb_neq (0 * 10 + b / 100) 0)) by lia.
    rewrite (proj2 (Z.ltb_ge 255 ((0 * 10 + b / 100) * 10 + b / 10 mod 10))) by lia.
    rewrite (proj2 (Z.eqb_neq ((0 * 10 + b / 100) * 10 + b / 10 mod 10) 0)) by lia.
    rewrite (proj2 (Z.ltb_ge 255 _)) by lia. f_equal. lia.
Qed.

Lemma pton_dot s oct don cur :
  (oct < 4)%nat -> pton_scan (String "." s) oct don cur true = pton_scan s oct (cur :: don) 0 false.
Proof.
  intros Ho. cbn. by rewrite (proj2 (Nat.eqb_neq oct 4)) by lia.
Qed.

Lemma inet_pton4_dotted a b c d :
  is_u8 a -> is_u8 b -> is_u8 c -> is_u8 d -> inet_pton4 (dotted a b c d) = Some [a; b; c; d].
Proof.
  intros Ha Hb Hc Hd. unfold inet_pton4, dotted.
  rewrite pton_octet by (done || lia). cbn [String.append]. rewrite pton_dot by lia.
  rewrite pton_octet by (done || lia). cbn [String.append]. rewrite pton_dot by lia.
  rewrite pton_octet by (done || lia). cbn [String.append]. rewrite pton_dot by lia.
  rewrite <- (append_nil_r (show_octet d)), pton_octet by (done || lia).
  done.
Qed.

Lemma show_octet_digits b : is_u8 b -> all_chars isdigit (show_octet b) = true.
Proof.
  intros Hb. unfold show_octet. width_unfold.
  destruct (b <? 10) eqn:H10; [|destruct (b <? 100) eqn:H100]; to_prop; cbn [all_chars];
    rewrite !isdigit_dchar by (Z.div_mod_to_equations; lia); done.
Qed.

Lemma show_octet_length b : (1 <= String.length (show_octet b) <= 3)%nat.
Proof. unfold show_octet. destruct (b <? 10), (b <? 100); cbn; lia. Qed.

(** The decimal text of an octet reads back. *)
Lemma digits_octet b : is_u8 b -> (digits 0 (show_octet b)).1 = b.
Proof.
  intros Hb. unfold show_octet. width_unfold.
  assert (forall d acc s, 0 <= d <= 9 ->
    digits acc (String (dchar d) s) = let '(v, n) := digits (acc * 10 + d) s in (v, S n)) as Hd.
  { intros d acc s H. cbn [digits]. by destruct (dchar_digit d H) as [-> ->]. }
  destruct (b <? 10) eqn:H10; [|destruct (b <? 100) eqn:H100]; to_prop;
    rewrite !Hd by (Z.div_mod_to_equations; lia); cbn [digits fst];
    Z.div_mod_to_equations; lia.
Qed.
