(* ===== verification/Bytes.v ===== *)
(** Blocks of memory as lists of bytes.

    A position or a length is a [Z], as in the sources; a read or a write that leaves the
    block is [None].  Shared by the models of packets (RadPacket, L2tpPacket). *)

From stdpp Require Import base tactics list numbers option.
From Stdlib Require Import ZArith Lia.
From S2P Require Import Prelude.

Open Scope Z_scope.

Definition len {A} (l : list A) : Z := Z.of_nat (length l).
Definition zdrop {A} (n : Z) (l : list A) : list A := drop (Z.to_nat n) l.
Definition ztake {A} (n : Z) (l : list A) : list A := take (Z.to_nat n) l.

Definition peek (m : list Z) (off : Z) : option Z :=
  if off <? 0 then None else m !! Z.to_nat off.
Definition peek16 (m : list Z) (off : Z) : option Z :=
  a ← peek m off; b ← peek m (off + 1); Some (of_be16 a b).
Definition peek32 (m : list Z) (off : Z) : option Z :=
  a ← peek m off; b ← peek m (off + 1); c ← peek m (off + 2); d ← peek m (off + 3);
  Some (of_be32 a b c d).

(** [memcpy] from and to a block. *)
Definition slice (m : list Z) (off n : Z) : option (list Z) :=
  if (0 <=? off) && (0 <=? n) && (off + n <=? len m) then Some (ztake n (zdrop off m)) else None.
Definition poke (m : list Z) (off : Z) (bs : list Z) : option (list Z) :=
  if (0 <=? off) && (off + len bs <=? len m)
  then Some (ztake off m ++ bs ++ zdrop (off + len bs) m) else None.

(** ** Reads and writes *)

Lemma len_app {A} (l1 l2 : list A) : len (l1 ++ l2) = len l1 + len l2.
Proof. unfold len. rewrite length_app. lia. Qed.
Lemma len_nonneg {A} (l : list A) : 0 <= len l.
Proof. unfold len. lia. Qed.
Lemma len_ztake {A} n (l : list A) : 0 <= n <= len l -> len (ztake n l) = n.
Proof. unfold len, ztake. intros. rewrite length_take. lia. Qed.
Lemma len_zdrop {A} n (l : list A) : 0 <= n <= len l -> len (zdrop n l) = len l - n.
Proof. unfold len, zdrop. intros. rewrite length_drop. lia. Qed.
Lemma ztake_app {A} (l1 l2 : list A) : ztake (len l1) (l1 ++ l2) = l1.
Proof. unfold ztake, len. rewrite Nat2Z.id. by rewrite take_app_length. Qed.
Lemma zdrop_app {A} (l1 l2 : list A) : zdrop (len l1) (l1 ++ l2) = l2.
Proof. unfold zdrop, len. rewrite Nat2Z.id. by rewrite drop_app_length. Qed.

Lemma peek_Some m off : 0 <= off < len m -> exists b, peek m off = Some b.
Proof.
  intros H. unfold peek. rewrite (proj2 (Z.ltb_ge off 0)) by lia.
  destruct (lookup_lt_is_Some_2 m (Z.to_nat off)) as [b Hb]; [unfold len in H; lia|eauto].
Qed.

Lemma peek_end m off : len m <= off -> peek m off = None.
Proof.
  intros H. unfold peek. destruct (off <? 0); [done|]. apply lookup_ge_None. unfold len in H. lia.
Qed.

Lemma peek_u8 m off b : bytes_ok m -> peek m off = Some b -> is_u8 b.
Proof.
  intros Hm. unfold peek. destruct (off <? 0); [done|]. intros Hb.
  by apply (Forall_lookup_1 _ _ _ _ Hm Hb).
Qed.

Lemma peek16_Some m off : 0 <= off -> off + 1 < len m -> exists b, peek16 m off = Some b.
Proof.
  intros. unfold peek16. destruct (peek_Some m off) as [a ->]; [lia|].
  destruct (peek_Some m (off + 1)) as [b ->]; [lia|]. eexists. reflexivity.
Qed.

Lemma peek32_Some m off : 0 <= off -> off + 3 < len m -> exists b, peek32 m off = Some b.
Proof.
  intros. unfold peek32. destruct (peek_Some m off) as [a ->]; [lia|].
  destruct (peek_Some m (off + 1)) as [b ->]; [lia|]. destruct (peek_Some m (off + 2)) as [c ->]; [lia|].
  destruct (peek_Some m (off + 3)) as [e ->]; [lia|]. eexists. reflexivity.
Qed.

Lemma slice_Some m off n :
  0 <= off -> 0 <= n -> off + n <= len m -> exists b, slice m off n = Some b /\ len b = n.
Proof.
  intros. unfold slice. rewrite !(proj2 (Z.leb_le _ _)) by lia. cbn [andb].
  eexists. split; [done|]. rewrite len_ztake; [done|]. rewrite len_zdrop; lia.
Qed.

Lemma peek_app_l pre x i : 0 <= i -> peek (pre ++ x) (len pre + i) = peek x i.
Proof.
  intros Hi. unfold peek. pose proof (len_nonneg pre).
  rewrite !(proj2 (Z.ltb_ge _ 0)) by lia. unfold len.
  rewrite lookup_app_r by lia. f_equal. lia.
Qed.
Lemma peek_0 x l : peek (x :: l) 0 = Some x.
Proof. done. Qed.
Lemma peek_cons x l i : 0 < i -> peek (x :: l) i = peek l (i - 1).
Proof.
  intros Hi. unfold peek. rewrite !(proj2 (Z.ltb_ge _ 0)) by lia.
  replace (Z.to_nat i) with (S (Z.to_nat (i - 1))) by lia. done.
Qed.
Lemma slice_app pre b post : slice (pre ++ b ++ post) (len pre) (len b) = Some b.
Proof.
  unfold slice. pose proof (len_nonneg pre). pose proof (len_nonneg b). pose proof (len_nonneg post).
  rewrite !(proj2 (Z.leb_le _ _)) by (rewrite ?len_app; lia). cbn [andb].
  by rewrite zdrop_app, ztake_app.
Qed.
Lemma slice_prefix a b off n : 0 <= off -> 0 <= n -> off + n <= len a -> slice (a ++ b) off n = slice a off n.
Proof.
  intros. unfold slice. pose proof (len_nonneg b).
  rewrite !(proj2 (Z.leb_le _ _)) by (rewrite ?len_app; lia). cbn [andb]. f_equal.
  unfold ztake, zdrop, len in *. rewrite drop_app_le by lia. rewrite take_app_le; [done|].
  rewrite length_drop. lia.
Qed.
Lemma poke_app a x z y : len x = len y -> poke (a ++ x ++ z) (len a) y = Some (a ++ y ++ z).
Proof.
  intros Hxy. unfold poke. pose proof (len_nonneg a). pose proof (len_nonneg z).
  rewrite !(proj2 (Z.leb_le _ _)) by (rewrite ?len_app; lia). cbn [andb].
  rewrite ztake_app. do 3 f_equal. rewrite <- Hxy, <- len_app, app_assoc. apply zdrop_app.
Qed.
Lemma split_at {A} (m : list A) n : 0 <= n <= len m -> exists a b, m = a ++ b /\ len a = n.
Proof.
  intros Hn. exists (ztake n m), (zdrop n m). split; [|by apply len_ztake].
  symmetry. apply take_drop.
Qed.

Lemma slice_whole b n : len b = n -> slice b 0 n = Some b.
Proof.
  intros <-. rewrite <- (app_nil_r b) at 1. apply (slice_app [] b []).
Qed.
Lemma slice_front b z n : len b = n -> slice (b ++ z) 0 n = Some b.
Proof. intros <-. apply (slice_app [] b z). Qed.

(** ** Lengths *)

Lemma len_cons {A} (x : A) l : len (x :: l) = 1 + len l.
Proof. unfold len. cbn [length]. lia. Qed.
Lemma len_nil {A} : len (@nil A) = 0.
Proof. done. Qed.
Lemma len_be16 z : len (be16 z) = 2.
Proof. done. Qed.
Lemma len_be32 z : len (be32 z) = 4.
Proof. done. Qed.

Create Rewrite HintDb len_rw.
#[export] Hint Rewrite @len_app @len_cons @len_nil len_be16 len_be32 : len_rw.
Ltac len_lia :=
  autorewrite with len_rw in *;
  repeat match goal with
  | |- context [len ?l] => lazymatch goal with
      | _ : 0 <= len l |- _ => fail | _ => pose proof (len_nonneg l) end
  end; lia.

(** ** Numbers in network order *)

Lemma peek16_app pre a b post : peek16 (pre ++ a :: b :: post) (len pre) = Some (of_be16 a b).
Proof.
  unfold peek16. rewrite <- (Z.add_0_r (len pre)) at 1. rewrite !peek_app_l by lia.
  rewrite peek_0, peek_cons by lia. done.
Qed.
Lemma peek32_app pre a b c e post :
  peek32 (pre ++ a :: b :: c :: e :: post) (len pre) = Some (of_be32 a b c e).
Proof.
  unfold peek32. rewrite <- (Z.add_0_r (len pre)) at 1. rewrite !peek_app_l by lia.
  rewrite peek_0, !peek_cons by lia. done.
Qed.

Lemma peek16_be16 pre z post : is_u16 z -> peek16 (pre ++ be16 z ++ post) (len pre) = Some z.
Proof. intros Hz. unfold be16. cbn [app]. by rewrite peek16_app, of_be16_be16. Qed.
Lemma peek32_be32 pre z post : is_u32 z -> peek32 (pre ++ be32 z ++ post) (len pre) = Some z.
Proof. intros Hz. unfold be32. cbn [app]. by rewrite peek32_app, of_be32_be32. Qed.
