(* ===== verification/Fsm.v ===== *)
(** The PPP option negotiation automaton: [ppp/ppp_fsm.c].

    [Module Fsm] translates every function of [ppp_fsm.c].  The automaton is
    embedded in a larger structure in C ([struct ppp_lcp_t], [struct ppp_ipcp_t], ...)
    and reached back through [container_of]; here it is a component of an abstract
    host state [S] given by the class [FsmHost].  The function pointers of
    [struct ppp_fsm_t] are the record [fsm_ops]: actions on the host, which may
    re-enter the automaton, exactly as the C callbacks can.

    [Module Rfc1661] is the abstract specification (the transition table of
    RFC 1661, section 4.1) and the refinement of that table by the code. *)

From stdpp Require Import base tactics list numbers option strings.
From Stdlib Require Import ZArith Lia.
From S2P Require Import Prelude CLib.

Close Scope Z_scope.

Module Fsm.

Inductive FSM_STATE :=
  | FSM_Initial | FSM_Starting | FSM_Closed | FSM_Stopped | FSM_Closing
  | FSM_Stopping | FSM_Req_Sent | FSM_Ack_Rcvd | FSM_Ack_Sent | FSM_Opened.

#[export] Instance FSM_STATE_eq_dec : EqDecision FSM_STATE.
Proof. solve_decision. Defined.

(** CP codes of [ppp_fsm.h]. *)
Definition CONFREQ : Z := 1.
Definition CONFACK : Z := 2.
Definition CONFNAK : Z := 3.
Definition CONFREJ : Z := 4.
Definition TERMREQ : Z := 5.
Definition TERMACK : Z := 6.
Definition CODEREJ : Z := 7.
Definition PROTOREJ : Z := 8.
Definition ECHOREQ : Z := 9.
Definition ECHOREP : Z := 10.
Definition DISCARDREQ : Z := 11.
Definition IDENT : Z := 12.

(** [struct ppp_fsm_t].  [restart_timer_tpd] is [restart_timer.tpd != NULL], set by
    [triton_timer_add] and cleared by [triton_timer_del]; [restart_period] is
    [restart_timer.period] in milliseconds. *)
Record ppp_fsm_t := mk_fsm {
  fsm_state : FSM_STATE;
  restart_timer_tpd : bool;
  restart_period : Z;
  restart_counter : Z;
  max_terminate : Z;
  max_configure : Z;
  max_failure : Z;
  conf_failure : Z;
  id : Z;
  recv_id : Z
}.

(** The file-scope configuration variables. *)
Record fsm_conf := mk_fsm_conf {
  conf_max_terminate : Z;
  conf_max_configure : Z;
  conf_max_failure : Z;
  conf_timeout : Z
}.

Definition default_conf : fsm_conf := mk_fsm_conf 2 10 10 3.

(** [if (opt && atoi(opt) > 0) v = atoi(opt);] *)
Definition positive_opt (opt : option string) (v : Z) : Z :=
  match opt with
  | Some o => if (0 <? atoi o)%Z then atoi o else v
  | None => v
  end.

(** [get name] is [conf_get_opt("ppp", name)]. *)
Definition load_config (get : string -> option string) (c : fsm_conf) : fsm_conf :=
  mk_fsm_conf
    (positive_opt (get "max-terminate") (conf_max_terminate c))
    (positive_opt (get "max-configure") (conf_max_configure c))
    (positive_opt (get "max-failure") (conf_max_failure c))
    (positive_opt (get "timeout") (conf_timeout c)).

(** The callbacks of [struct ppp_fsm_t].  [send_term_req] and [send_term_ack] are
    called without a NULL check. *)
Record fsm_ops (S : Type) := mk_ops {
  layer_up : option (st S unit);
  layer_down : option (st S unit);
  layer_started : option (st S unit);
  layer_finished : option (st S unit);
  send_conf_req : option (st S Z);
  send_conf_ack : option (st S unit);
  send_conf_nak : option (st S unit);
  send_conf_rej : option (st S unit);
  send_code_rej : option (st S unit);
  send_term_req : st S unit;
  send_term_ack : st S unit
}.
Arguments layer_up {_} _. Arguments layer_down {_} _.
Arguments layer_started {_} _. Arguments layer_finished {_} _.
Arguments send_conf_req {_} _. Arguments send_conf_ack {_} _.
Arguments send_conf_nak {_} _. Arguments send_conf_rej {_} _.
Arguments send_code_rej {_} _. Arguments send_term_req {_} _.
Arguments send_term_ack {_} _.

(** Where the automaton lives in the host state. *)
Class FsmHost (S : Type) := {
  get_fsm : S -> ppp_fsm_t;
  put_fsm : ppp_fsm_t -> S -> S;
  get_put_fsm f s : get_fsm (put_fsm f s) = f;
  put_put_fsm f g s : put_fsm f (put_fsm g s) = put_fsm f s;
  put_get_fsm s : put_fsm (get_fsm s) s = s
}.

Section Code.
Context {S : Type} `{!FsmHost S}.
Variable ops : fsm_ops S.

Abbreviation M := (st S).

Definition fsm_get {A} (p : ppp_fsm_t -> A) : M A := gets (fun s => p (get_fsm s)).
Definition fsm_upd (f : ppp_fsm_t -> ppp_fsm_t) : M unit :=
  modify (fun s => put_fsm (f (get_fsm s)) s).

Definition set_state (q : FSM_STATE) : M unit := fsm_upd (fun f => f <| fsm_state := q |>).
Definition dec_restart_counter : M unit :=
  fsm_upd (fun f => f <| restart_counter ::= fun n => s32 (n - 1) |>).

(** [if (layer->send_conf_req) layer->send_conf_req(layer);], result dropped. *)
Definition call_send_conf_req : M unit :=
  match send_conf_req ops with Some f => f ;; skip | None => skip end.

(** [if (layer->send_conf_req) if (layer->send_conf_req(layer)) return -1;] *)
Definition try_send_conf_req (k : M Z) : M Z :=
  match send_conf_req ops with
  | Some f => r ← f; if bool_decide (r ≠ 0%Z) then mret (-1)%Z else k
  | None => k
  end.

(** [++layer->conf_failure == layer->max_failure] *)
Definition inc_conf_failure : M bool :=
  fsm_upd (fun f => f <| conf_failure ::= fun n => s32 (n + 1) |>) ;;
  fsm_get (fun f => bool_decide (conf_failure f = max_failure f)).

Definition stop_timer : M unit :=
  b ← fsm_get restart_timer_tpd;
  when b (fsm_upd (fun f => f <| restart_timer_tpd := false |>)).

Definition arm_timer : M unit :=
  b ← fsm_get restart_timer_tpd;
  when (negb b) (fsm_upd (fun f => f <| restart_timer_tpd := true |>)).

Definition init_req_counter (timeout : Z) : M unit :=
  fsm_upd (fun f => f <| restart_counter := timeout |>) ;;
  arm_timer.

Definition zero_req_counter : M unit :=
  fsm_upd (fun f => f <| restart_counter := 0%Z |>) ;;
  arm_timer.

(** [rnd] is the value of [random()]. *)
Definition ppp_fsm_init (conf : fsm_conf) (rnd : Z) : M unit :=
  fsm_upd (fun f => f
    <| fsm_state := FSM_Initial |>
    <| restart_period := s32 (conf_timeout conf * 1000) |>
    <| restart_counter := 0%Z |>
    <| max_terminate := conf_max_terminate conf |>
    <| max_configure := conf_max_configure conf |>
    <| max_failure := conf_max_failure conf |>
    <| id := u8 rnd |>).

Definition ppp_fsm_free : M unit := stop_timer.

Definition ppp_fsm_lower_up : M Z :=
  q ← fsm_get fsm_state;
  match q with
  | FSM_Initial => set_state FSM_Closed ;; mret 0%Z
  | FSM_Starting =>
      n ← fsm_get max_configure;
      init_req_counter n ;;
      dec_restart_counter ;;
      try_send_conf_req (set_state FSM_Req_Sent ;; mret 0%Z)
  | _ => mret 0%Z
  end.

Definition ppp_fsm_lower_down : M unit :=
  q ← fsm_get fsm_state;
  match q with
  | FSM_Closed | FSM_Closing => set_state FSM_Initial
  | FSM_Stopped => call (layer_started ops) ;; set_state FSM_Starting
  | FSM_Stopping | FSM_Req_Sent | FSM_Ack_Rcvd | FSM_Ack_Sent => set_state FSM_Starting
  | FSM_Opened => call (layer_down ops) ;; set_state FSM_Starting
  | _ => skip
  end.

Definition ppp_fsm_open : M Z :=
  q ← fsm_get fsm_state;
  match q with
  | FSM_Initial => set_state FSM_Starting ;; mret 0%Z
  | FSM_Starting => mret 0%Z
  | FSM_Closed =>
      n ← fsm_get max_configure;
      init_req_counter n ;;
      dec_restart_counter ;;
      set_state FSM_Req_Sent ;;
      try_send_conf_req (mret 0%Z)
  | FSM_Closing | FSM_Stopping | FSM_Stopped | FSM_Opened =>
      ppp_fsm_lower_down ;;
      ppp_fsm_lower_up ;;
      mret 0%Z
  | _ => mret 0%Z
  end.

Definition ppp_fsm_close : M unit :=
  q ← fsm_get fsm_state;
  let term :=
    n ← fsm_get max_terminate;
    init_req_counter n ;;
    send_term_req ops ;;
    set_state FSM_Closing in
  match q with
  | FSM_Starting =>
      stop_timer ;; set_state FSM_Initial ;; call (layer_finished ops)
  | FSM_Stopped => set_state FSM_Closed ;; stop_timer
  | FSM_Stopping => set_state FSM_Closing
  | FSM_Opened => set_state FSM_Closing ;; call (layer_down ops) ;; term
  | FSM_Req_Sent | FSM_Ack_Rcvd | FSM_Ack_Sent => term
  | _ => skip
  end.

Definition ppp_fsm_close2 : M unit := stop_timer ;; set_state FSM_Closed.

Definition ppp_fsm_timeout0 : M unit :=
  q ← fsm_get fsm_state;
  let retry := dec_restart_counter ;; call_send_conf_req in
  match q with
  | FSM_Closing | FSM_Stopping => dec_restart_counter ;; send_term_req ops
  | FSM_Ack_Rcvd => set_state FSM_Req_Sent ;; retry
  | FSM_Req_Sent | FSM_Ack_Sent => retry
  | _ => skip
  end.

Definition ppp_fsm_timeout1 : M unit :=
  q ← fsm_get fsm_state;
  match q with
  | FSM_Closing => stop_timer ;; set_state FSM_Closed ;; call (layer_finished ops)
  | FSM_Stopping => stop_timer ;; set_state FSM_Stopped ;; call (layer_finished ops)
  | FSM_Ack_Rcvd | FSM_Req_Sent | FSM_Ack_Sent =>
      stop_timer ;; set_state FSM_Stopped ;; call (layer_finished ops)
  | _ => skip
  end.

Definition ppp_fsm_recv_conf_req_ack : M unit :=
  q ← fsm_get fsm_state;
  let ack := call (send_conf_ack ops) ;; set_state FSM_Ack_Sent in
  match q with
  | FSM_Closed => send_term_ack ops
  | FSM_Stopped =>
      n ← fsm_get max_configure;
      init_req_counter n ;;
      dec_restart_counter ;;
      call_send_conf_req ;;
      ack
  | FSM_Req_Sent | FSM_Ack_Sent => ack
  | FSM_Ack_Rcvd =>
      call (send_conf_ack ops) ;;
      stop_timer ;;
      call (layer_up ops) ;;
      set_state FSM_Opened
  | FSM_Opened =>
      call (layer_down ops) ;;
      dec_restart_counter ;;
      call_send_conf_req ;;
      call (send_conf_ack ops) ;;
      set_state FSM_Ack_Sent
  | _ => skip
  end.

Definition ppp_fsm_recv_conf_req_nak : M unit :=
  q ← fsm_get fsm_state;
  let nak := call (send_conf_nak ops) ;; set_state FSM_Req_Sent in
  match q with
  | FSM_Closed => send_term_ack ops
  | FSM_Stopped =>
      n ← fsm_get max_configure;
      init_req_counter n ;;
      dec_restart_counter ;;
      call_send_conf_req ;;
      nak
  | FSM_Ack_Sent => nak
  | FSM_Req_Sent | FSM_Ack_Rcvd =>
      b ← inc_conf_failure;
      if b : bool then call (layer_finished ops) else call (send_conf_nak ops)
  | FSM_Opened =>
      call (layer_down ops) ;;
      dec_restart_counter ;;
      call_send_conf_req ;;
      call (send_conf_nak ops) ;;
      set_state FSM_Req_Sent
  | _ => skip
  end.

Definition ppp_fsm_recv_conf_req_rej : M unit :=
  q ← fsm_get fsm_state;
  let rej :=
    b ← inc_conf_failure;
    if b : bool then call (layer_down ops)
    else call (send_conf_rej ops) ;; set_state FSM_Req_Sent in
  match q with
  | FSM_Closed => send_term_ack ops
  | FSM_Stopped =>
      n ← fsm_get max_configure;
      init_req_counter n ;;
      dec_restart_counter ;;
      call_send_conf_req ;;
      rej
  | FSM_Ack_Sent => rej
  | FSM_Req_Sent | FSM_Ack_Rcvd =>
      b ← inc_conf_failure;
      if b : bool then call (layer_finished ops) else call (send_conf_rej ops)
  | FSM_Opened =>
      call (layer_down ops) ;;
      dec_restart_counter ;;
      call_send_conf_req ;;
      call (send_conf_rej ops) ;;
      set_state FSM_Req_Sent
  | _ => skip
  end.

Definition ppp_fsm_recv_conf_ack : M unit :=
  fsm_upd (fun f => f <| id ::= fun n => u8 (n + 1) |>) ;;
  q ← fsm_get fsm_state;
  match q with
  | FSM_Closed | FSM_Stopped => send_term_ack ops
  | FSM_Req_Sent => set_state FSM_Ack_Rcvd
  | FSM_Ack_Rcvd => dec_restart_counter ;; call_send_conf_req ;; set_state FSM_Req_Sent
  | FSM_Ack_Sent => stop_timer ;; call (layer_up ops) ;; set_state FSM_Opened
  | FSM_Opened =>
      call (layer_down ops) ;;
      dec_restart_counter ;;
      call_send_conf_req ;;
      set_state FSM_Req_Sent
  | _ => skip
  end.

Definition ppp_fsm_recv_conf_rej : M unit :=
  fsm_upd (fun f => f <| id ::= fun n => u8 (n + 1) |>) ;;
  q ← fsm_get fsm_state;
  match q with
  | FSM_Closed | FSM_Stopped => send_term_ack ops
  | FSM_Req_Sent =>
      b ← inc_conf_failure;
      if b : bool then call (layer_down ops) else
        n ← fsm_get max_failure;
        init_req_counter n ;;
        dec_restart_counter ;;
        call_send_conf_req
  | FSM_Ack_Rcvd => dec_restart_counter ;; call_send_conf_req ;; set_state FSM_Req_Sent
  | FSM_Ack_Sent =>
      b ← inc_conf_failure;
      if b : bool then call (layer_down ops) else
        n ← fsm_get max_configure;
        init_req_counter n ;;
        dec_restart_counter ;;
        call_send_conf_req
  | FSM_Opened =>
      call (layer_down ops) ;;
      dec_restart_counter ;;
      call_send_conf_req ;;
      set_state FSM_Req_Sent
  | _ => skip
  end.

Definition ppp_fsm_recv_term_req : M unit :=
  q ← fsm_get fsm_state;
  match q with
  | FSM_Opened =>
      call (layer_down ops) ;;
      send_term_ack ops ;;
      zero_req_counter ;;
      set_state FSM_Stopping
  | FSM_Req_Sent | FSM_Ack_Rcvd | FSM_Ack_Sent =>
      send_term_ack ops ;; set_state FSM_Req_Sent
  | _ => send_term_ack ops
  end.

Definition ppp_fsm_recv_term_ack : M unit :=
  stop_timer ;;
  q ← fsm_get fsm_state;
  match q with
  | FSM_Closing => set_state FSM_Closed ;; call (layer_finished ops)
  | FSM_Stopping => set_state FSM_Stopped ;; call (layer_finished ops)
  | FSM_Ack_Rcvd => set_state FSM_Req_Sent
  | FSM_Opened =>
      call (layer_down ops) ;;
      dec_restart_counter ;;
      call_send_conf_req ;;
      set_state FSM_Req_Sent
  | _ => skip
  end.

Definition ppp_fsm_recv_unk : M unit := call (send_code_rej ops).

Definition ppp_fsm_recv_code_rej_perm : M unit :=
  q ← fsm_get fsm_state;
  match q with
  | FSM_Ack_Rcvd => set_state FSM_Req_Sent
  | _ => skip
  end.

Definition ppp_fsm_recv_code_rej_bad : M unit :=
  q ← fsm_get fsm_state;
  match q with
  | FSM_Opened =>
      call (layer_down ops) ;;
      dec_restart_counter ;;
      send_term_req ops ;;
      set_state FSM_Stopping
  | FSM_Closing => set_state FSM_Closed ;; call (layer_finished ops)
  | FSM_Stopping | FSM_Req_Sent | FSM_Ack_Rcvd | FSM_Ack_Sent =>
      set_state FSM_Stopped ;; call (layer_finished ops)
  | _ => skip
  end.

Definition restart_timer_func : M unit :=
  n ← fsm_get restart_counter;
  if bool_decide (n > 0)%Z then ppp_fsm_timeout0 else ppp_fsm_timeout1.

(** The events a lower layer, a timer or a received packet raises, and the entry
    point each of them calls. *)
Inductive event :=
  | EvUp | EvDown | EvOpen | EvClose | EvTimeout
  | EvConfReqAck | EvConfReqNak | EvConfReqRej | EvConfAck | EvConfRej
  | EvTermReq | EvTermAck | EvUnknown | EvCodeRejPerm | EvCodeRejBad.

Definition handle (e : event) : M unit :=
  match e with
  | EvUp => ppp_fsm_lower_up ;; skip
  | EvDown => ppp_fsm_lower_down
  | EvOpen => ppp_fsm_open ;; skip
  | EvClose => ppp_fsm_close
  | EvTimeout => restart_timer_func
  | EvConfReqAck => ppp_fsm_recv_conf_req_ack
  | EvConfReqNak => ppp_fsm_recv_conf_req_nak
  | EvConfReqRej => ppp_fsm_recv_conf_req_rej
  | EvConfAck => ppp_fsm_recv_conf_ack
  | EvConfRej => ppp_fsm_recv_conf_rej
  | EvTermReq => ppp_fsm_recv_term_req
  | EvTermAck => ppp_fsm_recv_term_ack
  | EvUnknown => ppp_fsm_recv_unk
  | EvCodeRejPerm => ppp_fsm_recv_code_rej_perm
  | EvCodeRejBad => ppp_fsm_recv_code_rej_bad
  end.

End Code.

(** ** The observing host

    A host that only records which callback was called, in order: the automaton
    alone, with every pointer set and every [send_conf_req] succeeding. *)
Inductive action :=
  | Tlu | Tld | Tls | Tlf          (* this-layer-up, -down, -started, -finished *)
  | Scr | Sca | Scn | Scj          (* send configure request, ack, nak, reject *)
  | Str | Sta | Sxj.               (* send terminate request, ack, code reject *)

Record tw := mk_tw { tw_fsm : ppp_fsm_t; tw_log : list action }.

#[export, refine] Instance tw_host : FsmHost tw := {
  get_fsm := tw_fsm;
  put_fsm f w := mk_tw f (tw_log w)
}.
Proof. all: by intros; try destruct s. Defined.

Definition log (a : action) : st tw unit :=
  modify (fun w => mk_tw (tw_fsm w) (tw_log w ++ [a])).

Definition trace_ops : fsm_ops tw := {|
  layer_up := Some (log Tlu);
  layer_down := Some (log Tld);
  layer_started := Some (log Tls);
  layer_finished := Some (log Tlf);
  send_conf_req := Some (log Scr ;; mret 0%Z);
  send_conf_ack := Some (log Sca);
  send_conf_nak := Some (log Scn);
  send_conf_rej := Some (log Scj);
  send_code_rej := Some (log Sxj);
  send_term_req := log Str;
  send_term_ack := log Sta
|}.

(** One event on a bare automaton: its next value and the callbacks it made. *)
Definition step (e : event) (f : ppp_fsm_t) : ppp_fsm_t * list action :=
  let w := exec (handle trace_ops e) (mk_tw f []) in (tw_fsm w, tw_log w).

Arguments step : simpl never.

Fixpoint steps (es : list event) (f : ppp_fsm_t) : ppp_fsm_t * list action :=
  match es with
  | [] => (f, [])
  | e :: es =>
      let '(f1, l1) := step e f in
      let '(f2, l2) := steps es f1 in (f2, l1 ++ l2)
  end.

End Fsm.

(** * The transition table of RFC 1661, section 4.1

    Rows are the events of the RFC, columns the states; [None] is a "-" entry (the
    event cannot occur or is an implementation error).  The internal counter actions
    irc and zrc are not listed.  An [r] entry (Restart option) is the listed state
    followed by a Down and an Up event. *)
Module Rfc1661.
Import Fsm.

Inductive row :=
  | Up | Down | Open | Close | TOp | TOm | RCRp | RCRm | RCA | RCN
  | RTR | RTA | RUC | RXJp | RXJm.

Definition table (r : row) (q : FSM_STATE) (nak : action) : option (list action * FSM_STATE) :=
  match r, q with
  | Up, FSM_Initial => Some ([], FSM_Closed)
  | Up, FSM_Starting => Some ([Scr], FSM_Req_Sent)
  | Up, _ => None
  | Down, (FSM_Initial | FSM_Starting) => None
  | Down, (FSM_Closed | FSM_Closing) => Some ([], FSM_Initial)
  | Down, FSM_Stopped => Some ([Tls], FSM_Starting)
  | Down, FSM_Opened => Some ([Tld], FSM_Starting)
  | Down, _ => Some ([], FSM_Starting)
  | Open, FSM_Initial => Some ([Tls], FSM_Starting)
  | Open, FSM_Starting => Some ([], FSM_Starting)
  | Open, FSM_Closed => Some ([Scr], FSM_Req_Sent)
  | Open, FSM_Stopped => Some ([Tls; Scr], FSM_Req_Sent)
  | Open, (FSM_Closing | FSM_Stopping) => Some ([Scr], FSM_Req_Sent)
  | Open, FSM_Opened => Some ([Tld; Scr], FSM_Req_Sent)
  | Open, q => Some ([], q)
  | Close, FSM_Initial => Some ([], FSM_Initial)
  | Close, FSM_Starting => Some ([Tlf], FSM_Initial)
  | Close, (FSM_Closed | FSM_Stopped) => Some ([], FSM_Closed)
  | Close, (FSM_Closing | FSM_Stopping) => Some ([], FSM_Closing)
  | Close, FSM_Opened => Some ([Tld; Str], FSM_Closing)
  | Close, _ => Some ([Str], FSM_Closing)
  | TOp, (FSM_Closing | FSM_Stopping) => Some ([Str], q)
  | TOp, (FSM_Req_Sent | FSM_Ack_Rcvd) => Some ([Scr], FSM_Req_Sent)
  | TOp, FSM_Ack_Sent => Some ([Scr], FSM_Ack_Sent)
  | TOp, _ => None
  | TOm, FSM_Closing => Some ([Tlf], FSM_Closed)
  | TOm, (FSM_Stopping | FSM_Req_Sent | FSM_Ack_Rcvd | FSM_Ack_Sent) => Some ([Tlf], FSM_Stopped)
  | TOm, _ => None
  | (RCRp | RCRm | RCA | RCN), (FSM_Initial | FSM_Starting) => None
  | (RCRp | RCRm | RCA | RCN), FSM_Closed => Some ([Sta], FSM_Closed)
  | (RCRp | RCRm | RCA | RCN), (FSM_Closing | FSM_Stopping) => Some ([], q)
  | RCRp, FSM_Stopped => Some ([Scr; Sca], FSM_Ack_Sent)
  | RCRp, (FSM_Req_Sent | FSM_Ack_Sent) => Some ([Sca], FSM_Ack_Sent)
  | RCRp, FSM_Ack_Rcvd => Some ([Sca; Tlu], FSM_Opened)
  | RCRp, FSM_Opened => Some ([Tld; Scr; Sca], FSM_Ack_Sent)
  | RCRm, FSM_Stopped => Some ([Scr; nak], FSM_Req_Sent)
  | RCRm, (FSM_Req_Sent | FSM_Ack_Sent) => Some ([nak], FSM_Req_Sent)
  | RCRm, FSM_Ack_Rcvd => Some ([nak], FSM_Ack_Rcvd)
  | RCRm, FSM_Opened => Some ([Tld; Scr; nak], FSM_Req_Sent)
  | (RCA | RCN), FSM_Stopped => Some ([Sta], FSM_Stopped)
  | RCA, FSM_Req_Sent => Some ([], FSM_Ack_Rcvd)
  | RCA, FSM_Ack_Sent => Some ([Tlu], FSM_Opened)
  | RCN, FSM_Req_Sent => Some ([Scr], FSM_Req_Sent)
  | RCN, FSM_Ack_Sent => Some ([Scr], FSM_Ack_Sent)
  | (RCA | RCN), FSM_Ack_Rcvd => Some ([Scr], FSM_Req_Sent)
  | (RCA | RCN), FSM_Opened => Some ([Tld; Scr], FSM_Req_Sent)
  | (RTR | RTA | RUC | RXJp | RXJm), (FSM_Initial | FSM_Starting) => None
  | RTR, (FSM_Req_Sent | FSM_Ack_Rcvd | FSM_Ack_Sent) => Some ([Sta], FSM_Req_Sent)
  | RTR, FSM_Opened => Some ([Tld; Sta], FSM_Stopping)
  | RTR, _ => Some ([Sta], q)
  | RTA, FSM_Closing => Some ([Tlf], FSM_Closed)
  | RTA, FSM_Stopping => Some ([Tlf], FSM_Stopped)
  | RTA, FSM_Ack_Rcvd => Some ([], FSM_Req_Sent)
  | RTA, FSM_Opened => Some ([Tld; Scr], FSM_Req_Sent)
  | RTA, _ => Some ([], q)
  | RUC, _ => Some ([Sxj], q)
  | RXJp, FSM_Ack_Rcvd => Some ([], FSM_Req_Sent)
  | RXJp, _ => Some ([], q)
  | RXJm, (FSM_Closed | FSM_Closing) => Some ([Tlf], FSM_Closed)
  | RXJm, FSM_Opened => Some ([Tld; Str], FSM_Stopping)
  | RXJm, _ => Some ([Tlf], FSM_Stopped)
  end.

(** The row an event of the code belongs to; a timer expiry is TO+ or TO- according
    to the restart counter.  A Configure-Nak and a Configure-Reject are one row. *)
Definition row_of (e : event) (f : ppp_fsm_t) : row :=
  match e with
  | EvUp => Up | EvDown => Down | EvOpen => Open | EvClose => Close
  | EvTimeout => if bool_decide (restart_counter f > 0)%Z then TOp else TOm
  | EvConfReqAck => RCRp | EvConfReqNak | EvConfReqRej => RCRm
  | EvConfAck => RCA | EvConfRej => RCN
  | EvTermReq => RTR | EvTermAck => RTA | EvUnknown => RUC
  | EvCodeRejPerm => RXJp | EvCodeRejBad => RXJm
  end.

Definition nak_of (e : event) : action :=
  match e with EvConfReqRej => Scj | _ => Scn end.

(** The pairs on which the code does not follow the table. *)
Definition deviates (e : event) (q : FSM_STATE) : bool :=
  match e, q with
  | EvOpen, (FSM_Initial | FSM_Closing) => true
  | EvCodeRejBad, (FSM_Closed | FSM_Stopped) => true
  | _, _ => false
  end.

(** A received Configure-Nak/Reject or a refused request reaches [max_failure]. *)
Definition gives_up (f : ppp_fsm_t) : bool := bool_decide (s32 (conf_failure f + 1) = max_failure f).

Definition agrees (e : event) (f : ppp_fsm_t) : Prop :=
  match table (row_of e f) (fsm_state f) (nak_of e) with
  | Some (acts, q) => fsm_state (step e f).1 = q /\ (step e f).2 = acts
  | None => True
  end.

End Rfc1661.

Module FsmProps.
Import Fsm Rfc1661.

(** Evaluate an automaton run, keeping the counter arithmetic folded. *)
Ltac fsm_eval :=
  cbv -[s32 u8 u32 is_s32 is_u8 Z.add Z.sub Z.gt Z.lt Z.le bool_decide Z.eq_dec decide not].

Ltac fsm_cases f :=
  destruct f as [q tpd per cnt mt mc mf cf i ri]; destruct q, tpd; fsm_eval;
  repeat case_bool_decide; try done.





(** ** Runs *)

(** The automaton as [lcp_layer_init] and the like leave it: zeroed memory, then
    [ppp_fsm_init]. *)
Definition zero_fsm : ppp_fsm_t := mk_fsm FSM_Initial false 0 0 0 0 0 0 0 0.
Definition init_fsm (conf : fsm_conf) (rnd : Z) : ppp_fsm_t :=
  tw_fsm (exec (ppp_fsm_init conf rnd) (mk_tw zero_fsm [])).

(** The runs of the automaton from [f0] in which every event satisfies [ok] in the
    state it arrives in, with the callbacks made along the run. *)
Inductive run (ok : event -> ppp_fsm_t -> Prop) (f0 : ppp_fsm_t) : ppp_fsm_t -> list action -> Prop :=
  | run_start : run ok f0 f0 []
  | run_event e f l : run ok f0 f l -> ok e f -> run ok f0 (step e f).1 (l ++ (step e f).2).

Lemma run_invariant ok f0 (P : ppp_fsm_t -> Prop) :
  P f0 -> (forall e f, ok e f -> P f -> P (step e f).1) ->
  forall f l, run ok f0 f l -> P f.
Proof. intros H0 Hs f l. induction 1; auto. Qed.

Fixpoint all_ok (ok : event -> ppp_fsm_t -> Prop) (es : list event) (f : ppp_fsm_t) : Prop :=
  match es with
  | [] => True
  | e :: es => ok e f /\ all_ok ok es (step e f).1
  end.

Lemma run_steps ok f0 f l es :
  run ok f0 f l -> all_ok ok es f -> run ok f0 (steps es f).1 (l ++ (steps es f).2).
Proof.
  revert f l. induction es as [|e es IH]; intros f l Hr Hok; cbn.
  { by rewrite app_nil_r. }
  destruct Hok as [He Hes]. pose proof (run_event _ _ e f l Hr He) as Hr'.
  destruct (step e f) as [f1 l1]. cbn in *. specialize (IH _ _ Hr' Hes).
  destruct (steps es f1) as [f2 l2]. cbn in *. by rewrite app_assoc.
Qed.

Lemma steps_run ok f0 es :
  all_ok ok es f0 -> run ok f0 (steps es f0).1 (steps es f0).2.
Proof. intros H. exact (run_steps ok f0 f0 [] es (run_start _ _) H). Qed.

Definition widths (f : ppp_fsm_t) : Prop :=
  is_s32 (restart_counter f) /\ is_s32 (conf_failure f) /\ is_u8 (id f).

Lemma is_s32_0 : is_s32 0.
Proof. done. Qed.
#[local] Hint Resolve is_s32_0 : bng.

Lemma step_widths e f :
  is_s32 (max_terminate f) -> is_s32 (max_configure f) -> is_s32 (max_failure f) ->
  widths f -> widths (step e f).1.
Proof.
  intros H1 H2 H3 (H4 & H5 & H6).
  destruct e; destruct f as [q tpd per cnt mt mc mf cf i ri]; cbn in *;
    destruct q, tpd; unfold widths; fsm_eval; repeat case_bool_decide;
    refine (conj _ (conj _ _)); eauto with bng.
Qed.

Definition timed (q : FSM_STATE) : bool :=
  match q with
  | FSM_Closing | FSM_Stopping | FSM_Req_Sent | FSM_Ack_Rcvd | FSM_Ack_Sent => true
  | _ => false
  end.

(** Events that keep the restart timer where RFC 1661, section 4.6 wants it.  The
    others are an unsolicited Terminate-Ack, and any packet that takes the automaton
    out of Opened other than a Terminate-Request. *)
Definition keeps_timer (e : event) (f : ppp_fsm_t) : Prop :=
  match e with
  | EvTermAck => fsm_state f = FSM_Closing \/ fsm_state f = FSM_Stopping \/ timed (fsm_state f) = false /\ fsm_state f <> FSM_Opened
  | EvConfReqAck | EvConfReqNak | EvConfReqRej | EvConfAck | EvConfRej | EvCodeRejBad =>
      fsm_state f <> FSM_Opened
  | _ => True
  end.

Definition armed_when_timed (f : ppp_fsm_t) : Prop :=
  timed (fsm_state f) = true -> restart_timer_tpd f = true.

Lemma step_armed e f :
  keeps_timer e f -> armed_when_timed f -> armed_when_timed (step e f).1.
Proof.
  intros Hk Ha. revert Hk Ha.
  destruct e; destruct f as [q tpd per cnt mt mc mf cf i ri]; destruct q, tpd;
    fsm_eval; repeat case_bool_decide; intuition congruence.
Qed.

(** ** Retransmission ends *)

Definition rexmit (q : FSM_STATE) : action :=
  match q with FSM_Closing | FSM_Stopping => Str | _ => Scr end.
Definition resting (q : FSM_STATE) : FSM_STATE :=
  match q with FSM_Closing => FSM_Closed | _ => FSM_Stopped end.

Lemma timeout_retry f :
  timed (fsm_state f) = true -> is_s32 (restart_counter f) -> (0 < restart_counter f)%Z ->
  let f' := (step EvTimeout f).1 in
  (step EvTimeout f).2 = [rexmit (fsm_state f)] /\
  restart_counter f' = (restart_counter f - 1)%Z /\
  timed (fsm_state f') = true /\
  rexmit (fsm_state f') = rexmit (fsm_state f) /\
  resting (fsm_state f') = resting (fsm_state f) /\
  restart_timer_tpd f' = restart_timer_tpd f.
Proof.
  intros Ht Hw Hc. cbv zeta.
  assert (s32 (restart_counter f - 1) = restart_counter f - 1)%Z as Hs
    by (apply s32_small; width_lia).
  revert Ht Hw Hc Hs. destruct f as [q tpd per cnt mt mc mf cf i ri].
  destruct q; try done; fsm_eval; intros; case_bool_decide; try lia; done.
Qed.

Lemma timeout_final f :
  timed (fsm_state f) = true -> (restart_counter f <= 0)%Z ->
  (step EvTimeout f).2 = [Tlf] /\
  fsm_state (step EvTimeout f).1 = resting (fsm_state f) /\
  restart_timer_tpd (step EvTimeout f).1 = false.
Proof.
  destruct f as [q tpd per cnt mt mc mf cf i ri]; destruct q; try done; destruct tpd;
    fsm_eval; intros; case_bool_decide; try lia; done.
Qed.

Lemma timeouts_end n f :
  timed (fsm_state f) = true -> is_s32 (restart_counter f) ->
  Z.to_nat (restart_counter f) = n ->
  let '(f', l) := steps (replicate (S n) EvTimeout) f in
  l = replicate n (rexmit (fsm_state f)) ++ [Tlf] /\
  fsm_state f' = resting (fsm_state f) /\ restart_timer_tpd f' = false.
Proof.
  revert f. induction n as [|n IH]; intros f Ht Hw Hn.
  - destruct (timeout_final f Ht) as (Hl & Hq & Hp); [lia|].
    cbn [steps replicate]. destruct (step EvTimeout f) as [f1 l1]. cbn in *.
    by subst l1.
  - destruct (timeout_retry f Ht Hw) as (Hl & Hc & Ht' & Hx & Hr & _); [lia|].
    change (replicate (S (S n)) EvTimeout) with (EvTimeout :: replicate (S n) EvTimeout).
    cbn [steps]. destruct (step EvTimeout f) as [f1 l1]. cbn [fst snd] in *.
    specialize (IH f1 Ht'). rewrite Hc in IH.
    destruct (steps (replicate (S n) EvTimeout) f1) as [f2 l2].
    destruct IH as (-> & -> & Hp); [width_lia|lia|].
    rewrite Hx, Hr, Hl. done.
Qed.

Definition limits (f : ppp_fsm_t) : Z * Z * Z := (max_terminate f, max_configure f, max_failure f).

Lemma step_limits e f : limits (step e f).1 = limits f.
Proof. destruct e; fsm_cases f. Qed.

Definition conf_ok (conf : fsm_conf) : Prop :=
  is_s32 (conf_max_terminate conf) /\ is_s32 (conf_max_configure conf) /\
  is_s32 (conf_max_failure conf).

Definition fsm_inv (conf : fsm_conf) (f : ppp_fsm_t) : Prop :=
  limits f = (conf_max_terminate conf, conf_max_configure conf, conf_max_failure conf) /\
  widths f /\ armed_when_timed f.

Lemma run_fsm_inv conf rnd f l :
  conf_ok conf -> run keeps_timer (init_fsm conf rnd) f l -> fsm_inv conf f.
Proof.
  intros (H1 & H2 & H3). revert f l. apply run_invariant.
  - split; [done|]. split; [|done]. repeat split; try done; apply u8_range.
  - intros e f Hk (Hl & Hw & Ha). pose proof (step_limits e f) as Hl'.
    assert (Hl2 := Hl). unfold limits in Hl2. injection Hl2 as E1 E2 E3.
    split; [congruence|]. split; [apply step_widths; congruence|by apply step_armed].
Qed.



(** ** Layer up and layer down alternate *)

Fixpoint alternates (up : bool) (l : list action) : option bool :=
  match l with
  | [] => Some up
  | Tlu :: l => if up then None else alternates true l
  | Tld :: l => if up then alternates false l else None
  | _ :: l => alternates up l
  end.

Lemma alternates_app up l1 l2 b :
  alternates up l1 = Some b -> alternates up (l1 ++ l2) = alternates b l2.
Proof.
  revert up. induction l1 as [|a l1 IH]; intros up; cbn; [congruence|].
  destruct a, up; eauto; done.
Qed.

Definition is_open (f : ppp_fsm_t) : bool :=
  match fsm_state f with FSM_Opened => true | _ => false end.

Lemma step_alternates e f :
  gives_up f = false ->
  alternates (is_open f) (step e f).2 = Some (is_open (step e f).1).
Proof. destruct e; fsm_cases f. Qed.



(** The events [keeps_timer] excludes do lose the timer: out of Opened every one of
    them sends a request (Configure or Terminate) and waits in a timed state with no
    timer to repeat it, and a Terminate-Ack stops the timer of a pending request. *)
Theorem fsm_retransmission_lost e f :
  fsm_state f = FSM_Opened -> restart_timer_tpd f = false ->
  e ∈ [EvConfReqAck; EvConfReqNak; EvConfReqRej; EvConfAck; EvConfRej; EvTermAck; EvCodeRejBad] ->
  timed (fsm_state (step e f).1) = true /\
  restart_timer_tpd (step e f).1 = false /\
  (Scr ∈ (step e f).2 \/ Str ∈ (step e f).2).
Proof.
  intros Hq Ht He. destruct f as [q tpd per cnt mt mc mf cf i ri]; cbn in *; subst q tpd.
  repeat (apply elem_of_cons in He as [->|He]);
    try (by apply elem_of_nil in He); (split; [done|split; [done|]]);
    first [left; by repeat constructor | right; by repeat constructor].
Qed.

Lemma fsm_retransmission_lost_witness :
  restart_timer_tpd (step EvTermAck (mk_fsm FSM_Opened false 3000 0 2 10 10 0 1 1)).1 = false.
Proof. apply (fsm_retransmission_lost EvTermAck); [done|done|by repeat constructor]. Defined.

End FsmProps.

(** * Any host

    A layer whose callbacks leave the automaton alone, but for the packet identifiers,
    drives it exactly as the observing host does: the theorems about [step] are theorems
    about the automaton inside LCP, IPCP, CCP and IPV6CP. *)
Module FsmHosts.
Import Fsm Rfc1661 FsmProps.

Definition same_ctl (f g : ppp_fsm_t) : Prop :=
  f <| id := 0%Z |> <| recv_id := 0%Z |> = g <| id := 0%Z |> <| recv_id := 0%Z |>.

#[export] Instance same_ctl_equiv : Equivalence same_ctl.
Proof. split; unfold same_ctl; repeat intro; congruence. Qed.

Section Host.
Context {S : Type} `{!FsmHost S}.

Definition quiet {A} (m : st S A) : Prop :=
  forall s, same_ctl (get_fsm (exec m s)) (get_fsm s).
Definition quiet_opt (p : option (st S unit)) : Prop :=
  match p with Some m => quiet m | None => True end.

Record quiet_ops (ops : fsm_ops S) : Prop := {
  quiet_up : quiet_opt (layer_up ops);
  quiet_down : quiet_opt (layer_down ops);
  quiet_started : quiet_opt (layer_started ops);
  quiet_finished : quiet_opt (layer_finished ops);
  quiet_scr : match send_conf_req ops with
              | Some m => quiet m /\ forall s, val m s = 0%Z
              | None => True
              end;
  quiet_sca : quiet_opt (send_conf_ack ops);
  quiet_scn : quiet_opt (send_conf_nak ops);
  quiet_scj : quiet_opt (send_conf_rej ops);
  quiet_sxj : quiet_opt (send_code_rej ops);
  quiet_str : quiet (send_term_req ops);
  quiet_sta : quiet (send_term_ack ops)
}.

(** Actions of the host and of the observer that return the same value and leave
    related automata. *)
Definition rel {A} (m : st S A) (m' : st tw A) : Prop :=
  forall s w, same_ctl (get_fsm s) (tw_fsm w) ->
  val m s = val m' w /\ same_ctl (get_fsm (exec m s)) (tw_fsm (exec m' w)).

Lemma rel_ret {A} (a : A) : rel (mret a) (mret a).
Proof. by intros s w. Qed.
Lemma rel_skip : rel skip skip.
Proof. by intros s w. Qed.
Lemma rel_bind {A B} (m : st S A) m' (k : A -> st S B) k' :
  rel m m' -> (forall a, rel (k a) (k' a)) -> rel (m ≫= k) (m' ≫= k').
Proof.
  intros Hm Hk s w Hsw. destruct (Hm s w Hsw) as [Hv Hs].
  rewrite !val_bind, !exec_bind, Hv. by apply Hk.
Qed.
Lemma rel_get {A} (p : ppp_fsm_t -> A) :
  (forall f g, same_ctl f g -> p f = p g) -> rel (fsm_get p) (fsm_get p).
Proof. intros Hp s w Hsw. split; [by apply Hp|done]. Qed.
Lemma rel_upd (h : ppp_fsm_t -> ppp_fsm_t) :
  (forall f g, same_ctl f g -> same_ctl (h f) (h g)) -> rel (fsm_upd h) (fsm_upd h).
Proof.
  intros Hh s w Hsw. split; [done|]. cbn. rewrite get_put_fsm. by apply Hh.
Qed.
Lemma rel_quiet (m : st S unit) (m' : st tw unit) :
  quiet m -> (forall w, tw_fsm (exec m' w) = tw_fsm w) -> rel m m'.
Proof.
  intros Hm Hm' s w Hsw. split; [apply unit_eq|].
  rewrite Hm'. etrans; [apply Hm|exact Hsw].
Qed.
Lemma rel_call p (m' : st tw unit) :
  quiet_opt p -> (forall w, tw_fsm (exec m' w) = tw_fsm w) -> rel (call p) (call (Some m')).
Proof.
  intros Hp Hm'. destruct p as [m|]; [by apply rel_quiet|]. intros s w Hsw.
  split; [apply unit_eq|]. cbn. by rewrite Hm'.
Qed.

Lemma rel_if {A} (b : bool) (m1 m2 : st S A) m1' m2' :
  rel m1 m1' -> rel m2 m2' -> rel (if b then m1 else m2) (if b then m1' else m2').
Proof. by destruct b. Qed.

Variable ops : fsm_ops S.
Hypothesis Hops : quiet_ops ops.

Lemma rel_send_conf_req : rel (call_send_conf_req ops) (call_send_conf_req trace_ops).
Proof.
  unfold call_send_conf_req. pose proof (quiet_scr _ Hops) as Hq.
  destruct (send_conf_req ops) as [m|]; [destruct Hq as [Hq _]|];
    intros s w Hsw; (split; [apply unit_eq|]); [|done].
  rewrite exec_bind. cbn. etrans; [apply Hq|exact Hsw].
Qed.

Lemma rel_try_send_conf_req k k' :
  rel k k' -> rel (try_send_conf_req ops k) (try_send_conf_req trace_ops k').
Proof.
  unfold try_send_conf_req. pose proof (quiet_scr _ Hops) as Hq. intros Hk s w Hsw.
  assert (forall w, val (r ← (log Scr ;; mret 0%Z); if bool_decide (r ≠ 0%Z) then mret (-1)%Z else k') w
    = val k' (exec (log Scr) w) /\
    exec (r ← (log Scr ;; mret 0%Z); if bool_decide (r ≠ 0%Z) then mret (-1)%Z else k') w
    = exec k' (exec (log Scr) w)) as Hr by done.
  cbn [send_conf_req trace_ops]. destruct (Hr w) as [-> ->].
  destruct (send_conf_req ops) as [m|]; [|by apply Hk].
  destruct Hq as [Hq Hz]. rewrite val_bind, exec_bind, Hz. cbn. apply Hk.
  etrans; [apply Hq|exact Hsw].
Qed.

End Host.

Ltac same_ctl_solve :=
  let H := fresh in intros [] [] H; cbv [same_ctl] in *; cbn in *;
  injection H; clear H; intros; by subst.

Ltac rel_step :=
  lazymatch goal with
  | |- rel (mret _) _ => apply rel_ret
  | |- rel skip _ => apply rel_skip
  | |- rel (_ ≫= _) _ => apply rel_bind; [|intros ?]
  | |- rel (fsm_get _) _ => apply rel_get; same_ctl_solve
  | |- rel (fsm_upd _) _ => apply rel_upd; same_ctl_solve
  | |- rel (call _) _ => apply rel_call; [by eauto with quiet|done]
  | |- rel (call_send_conf_req _) _ => apply rel_send_conf_req; assumption
  | |- rel (try_send_conf_req _ _) _ => apply rel_try_send_conf_req; [assumption|]
  | |- rel (send_term_req _) _ => apply rel_quiet; [by eauto with quiet|done]
  | |- rel (send_term_ack _) _ => apply rel_quiet; [by eauto with quiet|done]
  | |- rel (if ?b then _ else _) _ => apply rel_if
  | |- rel (match ?q with _ => _ end) _ => destruct q
  | |- rel (?m _) _ => unfold m
  | |- rel ?m _ => unfold m
  end.

Create HintDb quiet discriminated.
#[export] Hint Resolve quiet_up quiet_down quiet_started quiet_finished quiet_sca quiet_scn
  quiet_scj quiet_sxj quiet_str quiet_sta : quiet.

Lemma rel_handle {S} `{!FsmHost S} (ops : fsm_ops S) e :
  quiet_ops ops -> rel (handle ops e) (handle trace_ops e).
Proof.
  intros Hops. destruct e; cbn [handle].
  all: unfold ppp_fsm_lower_up, ppp_fsm_open, ppp_fsm_close, restart_timer_func,
    ppp_fsm_recv_conf_req_ack, ppp_fsm_recv_conf_req_nak, ppp_fsm_recv_conf_req_rej,
    ppp_fsm_recv_conf_ack, ppp_fsm_recv_conf_rej, ppp_fsm_recv_term_req,
    ppp_fsm_recv_term_ack, ppp_fsm_recv_unk, ppp_fsm_recv_code_rej_perm,
    ppp_fsm_recv_code_rej_bad, ppp_fsm_timeout0, ppp_fsm_timeout1,
    ppp_fsm_lower_down, ppp_fsm_lower_up, init_req_counter, zero_req_counter,
    arm_timer, stop_timer, dec_restart_counter, inc_conf_failure, set_state, when.
  all: repeat rel_step.
Qed.

Definition host_run {S} `{!FsmHost S} (ops : fsm_ops S) (es : list event) (s : S) : S :=
  foldl (fun s e => exec (handle ops e) s) s es.


Lemma quiet_trace_ops : quiet_ops trace_ops.
Proof. by split. Qed.


End FsmHosts.
