(* ===== verification/IpRange.v ===== *)
(** Text parsing helpers ([utils.c]) and the client address ranges ([iprange.c]).

    [Module Utils] translates the [u_parse_*] family; a parser that returns a length and
    writes its results through pointers returns an [option] here, [None] for length 0.
    [Module IpRange] is the [client-ip-range] check used before an address is given to a
    tunnelled client.  Allocation is assumed to succeed and the logging is dropped. *)

From stdpp Require Import base tactics list numbers option strings.
From Stdlib Require Import ZArith Lia Ascii String.
From S2P Require Import Prelude CLib.

Open Scope Z_scope.

Module Utils.

Definition u_parse_spaces (str : string) : nat :=
  strspn (fun c => bool_decide (c = " "%char)) str.

Definition u_parse_endstr (str : string) : nat :=
  let n := u_parse_spaces str in
  match sdrop n str with
  | EmptyString => S n
  | String _ _ => O
  end.

(** [if (!isdigit( *str)) return 0; ul = strtoul(str, &endptr, 10); if (ul > max) ...] *)
Definition parse_uint (max : Z) (str : string) : option (nat * Z) :=
  match str with
  | String c _ =>
      if isdigit c then
        let '(ul, n) := strtoul str in
        if max <? ul then None else Some (n, ul)
      else None
  | EmptyString => None
  end.

Definition u_parse_u8 (str : string) : option (nat * Z) := parse_uint 255 str.
Definition u_parse_u16 (str : string) : option (nat * Z) := parse_uint 65535 str.

(** With 64-bit [unsigned long] an overflow ([ERANGE]) saturates above [UINT32_MAX]. *)
Definition u_parse_u32 (str : string) : option (nat * Z) := parse_uint 4294967295 str.

Definition is_ip4char (c : ascii) : bool := bool_decide (c = "."%char) || isdigit c.

Definition INET_ADDRSTRLEN : nat := 16.

(** The result is the length and [addr->s_addr] (network order). *)
Definition u_parse_ip4addr (str : string) : option (nat * Z) :=
  let len := strspn is_ip4char str in
  if (len =? 0)%nat || (INET_ADDRSTRLEN <=? len)%nat then None
  else
    match inet_pton4 (stake len str) with
    | Some [a; b; c; d] => Some (len, htonl (of_be32 a b c d))
    | _ => None
    end.

Definition u_parse_ip4cidr (str : string) : option (nat * Z * Z) :=
  match u_parse_ip4addr str with
  | None => None
  | Some (len, netp) =>
      let ptr := sdrop len str in
      if negb (starts_with "/" ptr) then None
      else
        match u_parse_u8 (sdrop 1 ptr) with
        | None => None
        | Some (len2, plen) =>
            if 32 <? plen then None else Some ((len + 1 + len2)%nat, netp, plen)
        end
  end.

Definition u_parse_ip4range (str : string) : option (nat * Z * Z) :=
  match u_parse_ip4addr str with
  | None => None
  | Some (len, base_ip) =>
      let ptr := sdrop len str in
      if negb (starts_with "-" ptr) then None
      else
        match u_parse_u8 (sdrop 1 ptr) with
        | None => None
        | Some (len2, max) =>
            if max <? Z.land (ntohl base_ip) 255 then None
            else Some ((len + 1 + len2)%nat, base_ip, max)
        end
  end.

Definition u_inet_ntoa (addr : Z) : string :=
  let addr := ntohl addr in
  dotted (Z.land (Z.shiftr addr 24) 255) (Z.land (Z.shiftr addr 16) 255)
         (Z.land (Z.shiftr addr 8) 255) (Z.land addr 255).

End Utils.

Module IpRange.
Import Utils.

Record iprange_t := mk_iprange { begin : Z; end_ : Z }.

Definition INADDR_ANY : Z := 0.
Definition INADDR_BROADCAST : Z := 4294967295.

(** [None] is the error return, [Some None] the "disable" result ([*range = NULL]). *)
Definition parse_iprange (str : string) : option (option iprange_t) :=
  let addrange (len : nat) (ip_min ip_max : Z) : option (option iprange_t) :=
    if (u_parse_endstr (sdrop len str) =? 0)%nat then None
    else if (ip_min =? INADDR_ANY) && (ip_max =? INADDR_BROADCAST) then Some None
    else Some (Some (mk_iprange ip_min ip_max)) in
  if String.eqb str "disable" then Some None
  else
    match u_parse_ip4cidr str with
    | Some (len, base_addr, suffix) =>
        let mask := u32 (u64 (Z.shiftl 4294967295 (32 - suffix))) in
        let addr_hbo := ntohl base_addr in
        let ip_min := Z.land addr_hbo mask in
        let ip_max := Z.lor addr_hbo (u32 (Z.lnot mask)) in
        addrange len ip_min ip_max
    | None =>
        match u_parse_ip4range str with
        | Some (len, base_addr, suffix) =>
            let ip_min := ntohl base_addr in
            let ip_max := Z.lor (Z.land ip_min 4294967040) suffix in
            addrange len ip_min ip_max
        | None => None
        end
    end.

(** [s] is the list of option names of the configuration section, [None] without it. *)
Fixpoint load_items (items : list string) (l : list iprange_t) : bool * list iprange_t :=
  match items with
  | [] => (false, l)
  | name :: items =>
      match parse_iprange name with
      | None => load_items items l
      | Some None => (true, [])
      | Some (Some r) => load_items items (l ++ [r])
      end
  end.

Definition load_ranges (s : option (list string)) : bool * list iprange_t :=
  match s with
  | None => (false, [])
  | Some items => load_items items []
  end.

Fixpoint check_range (l : list iprange_t) (ipaddr : Z) : Z :=
  match l with
  | [] => -1
  | r :: l =>
      let a := ntohl ipaddr in
      if (begin r <=? a) && (a <=? end_ r) then 0 else check_range l ipaddr
  end.

(** The module's variables: [conf_disable] and [client_ranges]. *)
Record iprange_state := mk_state { conf_disable : bool; client_ranges : list iprange_t }.

Inductive iprange_status := IPRANGE_DISABLED | IPRANGE_NO_RANGE | IPRANGE_ACTIVE.

Definition iprange_check_activation (st : iprange_state) : iprange_status :=
  if conf_disable st then IPRANGE_DISABLED
  else match client_ranges st with [] => IPRANGE_NO_RANGE | _ => IPRANGE_ACTIVE end.

Definition iprange_client_check (st : iprange_state) (ipaddr : Z) : Z :=
  if conf_disable st then 0 else check_range (client_ranges st) ipaddr.

Definition iprange_tunnel_check (st : iprange_state) (ipaddr : Z) : Z :=
  if conf_disable st then 0
  else if check_range (client_ranges st) ipaddr =? 0 then 1 else 0.

Definition iprange_load_config (s : option (list string)) (st : iprange_state) : iprange_state :=
  let '(disable, new_ranges) := load_ranges s in mk_state disable new_ranges.

End IpRange.

(** * Masks *)
Module Masks.

Definition netmask (k : Z) : Z := u32 (u64 (Z.shiftl 4294967295 k)).

Lemma netmask_bits k i :
  0 <= k <= 32 -> 0 <= i -> Z.testbit (netmask k) i = (k <=? i) && (i <? 32).
Proof.
  intros Hk Hi. unfold netmask, u32, u64. change 4294967295 with (Z.ones 32).
  destruct (Z.ltb_spec i 32).
  - rewrite !Z.mod_pow2_bits_low by lia. rewrite Z.shiftl_spec by lia.
    destruct (Z.leb_spec k i).
    + by rewrite Z.ones_spec_low by lia.
    + by rewrite Z.testbit_neg_r by lia.
  - rewrite Z.mod_pow2_bits_high by lia. by rewrite andb_false_r.
Qed.

Lemma u32_bits_high x i : is_u32 x -> 32 <= i -> Z.testbit x i = false.
Proof. intros Hx Hi. rewrite <- (u32_small x Hx). apply Z.mod_pow2_bits_high. lia. Qed.

Lemma land_netmask x k : is_u32 x -> 0 <= k <= 32 -> Z.land x (netmask k) = x / 2 ^ k * 2 ^ k.
Proof.
  intros Hx Hk. rewrite <- Z.shiftr_div_pow2, <- Z.shiftl_mul_pow2 by lia.
  apply Z.bits_inj'. intros i Hi. rewrite Z.land_spec, netmask_bits, Z.shiftl_spec by lia.
  destruct (Z.leb_spec k i); cbn.
  - rewrite Z.shiftr_spec by lia. replace (i - k + k) with i by lia.
    destruct (Z.ltb_spec i 32); [by rewrite andb_true_r|].
    by rewrite u32_bits_high by (done || lia).
  - by rewrite andb_false_r, Z.testbit_neg_r by lia.
Qed.

Lemma lnot_netmask k : 0 <= k <= 32 -> u32 (Z.lnot (netmask k)) = Z.ones k.
Proof.
  intros Hk. apply Z.bits_inj'. intros i Hi. unfold u32.
  destruct (Z.ltb_spec i 32).
  - rewrite Z.mod_pow2_bits_low, Z.lnot_spec, netmask_bits by lia.
    rewrite (proj2 (Z.ltb_lt i 32)) by lia.
    destruct (Z.leb_spec k i); cbn; [by rewrite Z.ones_spec_high by lia|by rewrite Z.ones_spec_low by lia].
  - rewrite Z.mod_pow2_bits_high by lia. by rewrite Z.ones_spec_high by lia.
Qed.

Lemma lor_ones x k : 0 <= k -> Z.lor x (Z.ones k) = x / 2 ^ k * 2 ^ k + (2 ^ k - 1).
Proof.
  intros Hk.
  assert (Z.lor x (Z.ones k) = Z.lor (Z.shiftl (Z.shiftr x k) k) (Z.ones k)) as ->.
  { apply Z.bits_inj'. intros i Hi. rewrite !Z.lor_spec, Z.shiftl_spec by lia.
    destruct (Z.ltb_spec i k).
    - by rewrite Z.ones_spec_low, !orb_true_r by lia.
    - rewrite Z.ones_spec_high, !orb_false_r, Z.shiftr_spec by lia. f_equal. lia. }
  assert (Z.land (Z.shiftl (Z.shiftr x k) k) (Z.ones k) = 0) as Hd.
  { apply Z.bits_inj'. intros i Hi. rewrite Z.land_spec, Z.bits_0, Z.shiftl_spec by lia.
    destruct (Z.ltb_spec i k); [by rewrite Z.testbit_neg_r by lia|].
    by rewrite Z.ones_spec_high, andb_false_r by lia. }
  rewrite <- Z.lxor_lor, <- Z.add_nocarry_lxor by done.
  rewrite Z.shiftl_mul_pow2, Z.shiftr_div_pow2, Z.ones_equiv by lia. lia.
Qed.

Lemma land_255 x : Z.land x 255 = u8 x.
Proof. change 255 with (Z.ones 8). by rewrite Z.land_ones by lia. Qed.

End Masks.

Module IpRangeProps.
Import Utils IpRange Masks.

(** The next character stops the scan of an address. *)
Definition stops (s : string) : Prop :=
  match s with String c _ => is_ip4char c | EmptyString => false end = false.

Lemma all_chars_impl (p q : ascii -> bool) s :
  (forall c, p c = true -> q c = true) -> all_chars p s = true -> all_chars q s = true.
Proof.
  intros Hpq. induction s as [|c s IH]; cbn; [done|]. intros H. to_prop.
  by rewrite Hpq, IH.
Qed.

Lemma octet_ip4chars b : is_u8 b -> all_chars is_ip4char (show_octet b) = true.
Proof.
  intros Hb. apply (all_chars_impl isdigit); [|by apply show_octet_digits].
  intros c Hc. unfold is_ip4char. by rewrite Hc, orb_true_r.
Qed.

Lemma dotted_ip4chars a b c d :
  is_u8 a -> is_u8 b -> is_u8 c -> is_u8 d -> all_chars is_ip4char (dotted a b c d) = true.
Proof.
  intros. unfold dotted. rewrite !all_chars_app, !octet_ip4chars by done. done.
Qed.

Lemma dotted_length a b c d :
  (7 <= String.length (dotted a b c d) <= 15)%nat.
Proof.
  unfold dotted. rewrite !length_append. cbn [String.length].
  pose proof (show_octet_length a). pose proof (show_octet_length b).
  pose proof (show_octet_length c). pose proof (show_octet_length d). lia.
Qed.

Lemma parse_dotted a b c d rest :
  is_u8 a -> is_u8 b -> is_u8 c -> is_u8 d -> stops rest ->
  u_parse_ip4addr (dotted a b c d +:+ rest) =
  Some (String.length (dotted a b c d), htonl (of_be32 a b c d)).
Proof.
  intros Ha Hb Hc Hd Hr. unfold u_parse_ip4addr.
  rewrite strspn_app by (done || by apply dotted_ip4chars).
  rewrite stake_app, inet_pton4_dotted by done.
  pose proof (dotted_length a b c d). unfold INET_ADDRSTRLEN.
  rewrite (proj2 (Nat.eqb_neq _ 0)), (proj2 (Nat.leb_gt 16 _)) by lia. done.
Qed.

Lemma u_inet_ntoa_dotted addr :
  let h := ntohl addr in
  u_inet_ntoa addr = dotted (u8 (Z.shiftr h 24)) (u8 (Z.shiftr h 16)) (u8 (Z.shiftr h 8)) (u8 h).
Proof. unfold u_inet_ntoa. by rewrite !land_255. Qed.

Lemma parse_ntoa addr rest :
  is_u32 addr -> stops rest ->
  u_parse_ip4addr (u_inet_ntoa addr +:+ rest) = Some (String.length (u_inet_ntoa addr), addr).
Proof.
  intros Ha Hr. rewrite !u_inet_ntoa_dotted. cbv zeta.
  rewrite parse_dotted by (done || apply u8_range).
  rewrite of_be32_be32 by apply bswap32_range. by rewrite bswap32_involutive.
Qed.

(** The address printer and the address parser are inverse: the text of any IPv4
    address, followed by anything that is not a digit or a dot, is read back as that
    address, consuming exactly the text. *)
Theorem ip4addr_roundtrip addr rest :
  is_u32 addr -> stops rest ->
  u_parse_ip4addr (u_inet_ntoa addr +:+ rest) = Some (String.length (u_inet_ntoa addr), addr).
Proof. apply parse_ntoa. Qed.

Lemma ip4addr_roundtrip_witness :
  u_parse_ip4addr "192.0.2.1/24" = Some (9%nat, htonl 3221225985).
Proof. apply (ip4addr_roundtrip (htonl 3221225985) "/24"); done. Defined.

Lemma parse_u8_octet b : is_u8 b -> u_parse_u8 (show_octet b) = Some (String.length (show_octet b), b).
Proof.
  intros Hb. pose proof (show_octet_digits b Hb) as Hd. pose proof (digits_octet b Hb) as Hv.
  pose proof (digits_app 0 _ "" Hd eq_refl) as Ha. rewrite append_nil_r, Hv in Ha.
  pose proof (show_octet_length b) as Hl. unfold u_parse_u8, parse_uint.
  destruct (show_octet b) as [|c s] eqn:E; [cbn in Hl; lia|].
  cbn [all_chars] in Hd. apply andb_true_iff in Hd as [-> _].
  unfold strtoul. rewrite Ha.
  rewrite Z.min_l by (unfold ULONG_MAX; width_unfold; lia).
  by rewrite (proj2 (Z.ltb_ge 255 b)) by (width_unfold; lia).
Qed.

Lemma parse_cidr_text addr p :
  is_u32 addr -> 0 <= p <= 32 ->
  u_parse_ip4cidr (u_inet_ntoa addr +:+ "/" +:+ show_octet p) =
  Some ((String.length (u_inet_ntoa addr) + 1 + String.length (show_octet p))%nat, addr, p).
Proof.
  intros Ha Hp. unfold u_parse_ip4cidr. rewrite parse_ntoa by done.
  rewrite sdrop_app. cbn [String.append starts_with sdrop].
  rewrite bool_decide_eq_true_2 by done. cbn [negb].
  rewrite parse_u8_octet by (width_unfold; lia).
  by rewrite (proj2 (Z.ltb_ge 32 p)) by lia.
Qed.

Lemma sdrop_all s : sdrop (String.length s) s = EmptyString.
Proof. induction s; cbn; done. Qed.

Lemma cidr_not_disable addr p :
  String.eqb (u_inet_ntoa addr +:+ "/" +:+ show_octet p) "disable" = false.
Proof.
  apply String.eqb_neq. intros E. rewrite u_inet_ntoa_dotted in E. cbv zeta in E.
  set (h := ntohl addr) in *. pose proof (show_octet_length (u8 (Z.shiftr h 24))) as Hl.
  pose proof (show_octet_digits _ (u8_range (Z.shiftr h 24))) as Hd.
  unfold dotted in E. destruct (show_octet (u8 (Z.shiftr h 24))) as [|c s]; [cbn in Hl; lia|].
  apply (f_equal (fun t => match t with String c _ => isdigit c | _ => true end)) in E.
  cbn [String.append all_chars] in E, Hd. rewrite E in Hd. discriminate Hd.
Qed.

(** The bounds the code computes from a prefix, as arithmetic. *)
Definition prefix_min (h p : Z) : Z := h / 2 ^ (32 - p) * 2 ^ (32 - p).
Definition prefix_max (h p : Z) : Z := prefix_min h p + (2 ^ (32 - p) - 1).

Lemma parse_iprange_cidr addr p :
  is_u32 addr -> 0 <= p <= 32 ->
  let h := ntohl addr in
  parse_iprange (u_inet_ntoa addr +:+ "/" +:+ show_octet p) =
  Some (if (prefix_min h p =? INADDR_ANY) && (prefix_max h p =? INADDR_BROADCAST) then None
        else Some (mk_iprange (prefix_min h p) (prefix_max h p))).
Proof.
  intros Ha Hp h. unfold parse_iprange. rewrite cidr_not_disable, parse_cidr_text by done.
  fold (netmask (32 - p)). fold h.
  rewrite land_netmask, lnot_netmask, lor_ones by (lia || apply bswap32_range).
  replace (_ + 1 + _)%nat with (String.length (u_inet_ntoa addr +:+ "/" +:+ show_octet p))
    by (rewrite !length_append; cbn; lia).
  rewrite sdrop_all. cbn [u_parse_endstr]. fold (prefix_min h p). fold (prefix_max h p).
  cbn. by destruct (_ && _).
Qed.

Lemma same_prefix h g p :
  is_u32 h -> is_u32 g -> 0 <= p <= 32 ->
  prefix_min h p <= g <= prefix_max h p <-> g / 2 ^ (32 - p) = h / 2 ^ (32 - p).
Proof.
  intros Hh Hg Hp. unfold prefix_max, prefix_min.
  assert (0 < 2 ^ (32 - p)) by (apply Z.pow_pos_nonneg; lia).
  generalize dependent (2 ^ (32 - p)). intros m Hm. generalize (h / m). intros q.
  split; [intros; symmetry; apply Z.div_unique with (g - q * m); lia|intros <-].
  pose proof (Z.mul_div_le g m Hm). pose proof (Z.mul_succ_div_gt g m Hm). lia.
Qed.

Lemma in_range b e l a :
  check_range (mk_iprange b e :: l) a = 0 <-> b <= ntohl a <= e \/ check_range l a = 0.
Proof.
  cbn. destruct (_ && _) eqn:E; to_prop; [intuition lia|].
  apply andb_false_iff in E. rewrite !Z.leb_gt in E. intuition lia.
Qed.

Lemma prefix_all h p :
  is_u32 h -> 0 <= p <= 32 ->
  (prefix_min h p =? INADDR_ANY) && (prefix_max h p =? INADDR_BROADCAST) = (p =? 0).
Proof.
  intros Hh Hp. unfold prefix_max, prefix_min, INADDR_ANY, INADDR_BROADCAST.
  destruct (Z.eqb_spec p 0) as [->|].
  - rewrite Z.div_small by exact Hh. done.
  - apply andb_false_iff. rewrite !Z.eqb_neq.
    assert (2 ^ (32 - p) <= 2 ^ 31) by (apply Z.pow_le_mono_r; lia).
    change (2 ^ 31) with 2147483648 in *. lia.
Qed.

(** Configuring [A.B.C.D/p] with p > 0 accepts exactly the client addresses that
    agree with A.B.C.D on their first p bits; /0 covers every address and is turned
    into "checks disabled". *)
Theorem cidr_range_exact addr p :
  is_u32 addr -> 0 <= p <= 32 ->
  exists r, parse_iprange (u_inet_ntoa addr +:+ "/" +:+ show_octet p) = Some r /\
    match r with
    | None => p = 0
    | Some r => 0 < p /\ forall ip, is_u32 ip ->
        (check_range [r] ip = 0 <->
         ntohl ip / 2 ^ (32 - p) = ntohl addr / 2 ^ (32 - p))
    end.
Proof.
  intros Ha Hp. rewrite parse_iprange_cidr by done. cbv zeta. eexists. split; [done|].
  rewrite prefix_all by (done || apply bswap32_range).
  destruct (Z.eqb_spec p 0); [done|]. split; [lia|]. intros ip Hip. rewrite in_range.
  rewrite <- same_prefix by (lia || apply bswap32_range). cbn. intuition lia.
Qed.

Lemma cidr_range_exact_witness :
  exists r, parse_iprange "192.0.2.1/24" = Some (Some r) /\
    check_range [r] (htonl 3221226000) = 0 /\ check_range [r] (htonl 3221226300) <> 0.
Proof.
  destruct (cidr_range_exact (htonl 3221225985) 24) as (r & Hr & Hm); [by vm_compute|lia|].
  destruct r as [r|]; [|discriminate Hm]. exists r.
  replace "192.0.2.1/24" with (u_inet_ntoa (htonl 3221225985) +:+ "/" +:+ show_octet 24)
    by (by vm_compute).
  split; [exact Hr|]. destruct Hm as [_ Hm]. clear Hr.
  pose proof (Hm (htonl 3221226000)) as H1. pose proof (Hm (htonl 3221226300)) as H2. clear Hm.
  split.
  - apply H1; [apply bswap32_range|]. vm_compute. reflexivity.
  - intros E. apply H2 in E; [|apply bswap32_range]. vm_compute in E. discriminate E.
Defined.

(** An entry of the section that turns the checks off, and one that covers [ip]. *)
Definition disables (name : string) : Prop := parse_iprange name = Some None.
Definition covers (ip : Z) (name : string) : Prop :=
  exists r, parse_iprange name = Some (Some r) /\ begin r <= ntohl ip <= end_ r.

Lemma load_items_disable items l :
  (load_items items l).1 = true <-> Exists disables items.
Proof.
  revert l. induction items as [|name items IH]; intros l; cbn; rewrite ?Exists_nil, ?Exists_cons;
    [done|]. unfold disables at 1.
  destruct (parse_iprange name) as [[r|]|]; rewrite ?IH; naive_solver.
Qed.

Lemma check_range_app l l' ip :
  check_range (l ++ l') ip = 0 <-> check_range l ip = 0 \/ check_range l' ip = 0.
Proof. induction l as [|[b e] l IH]; cbn [app]; [cbn; naive_solver lia|]. rewrite !in_range, IH. tauto. Qed.

Lemma load_items_covers items l ip :
  ~ Exists disables items ->
  check_range (load_items items l).2 ip = 0 <-> check_range l ip = 0 \/ Exists (covers ip) items.
Proof.
  revert l. induction items as [|name items IH]; intros l; cbn; rewrite ?Exists_nil, ?Exists_cons;
    [tauto|]. intros Hd. unfold disables at 1 in Hd. unfold covers at 1.
  destruct (parse_iprange name) as [[[b e]|]|]; [|tauto|]; rewrite IH by tauto.
  - rewrite check_range_app, in_range. cbn. naive_solver lia.
  - naive_solver.
Qed.

Lemma check_range_dec l ip : check_range l ip = 0 \/ check_range l ip = -1.
Proof. induction l as [|r l IH]; cbn; [by right|]. destruct (_ && _); auto. Qed.

(** After (re)loading the section, whatever was loaded before, a client address is
    accepted exactly when an entry disables the checks or a well-formed entry covers it,
    and a tunnel endpoint is accepted exactly when an entry disables the checks or no
    entry covers it; malformed entries change nothing. *)
Theorem iprange_checks_exact items old ip :
  let st := iprange_load_config (Some items) old in
  (iprange_client_check st ip = 0 <-> Exists disables items \/ Exists (covers ip) items) /\
  (iprange_tunnel_check st ip = 0 <-> Exists disables items \/ ~ Exists (covers ip) items).
Proof.
  cbv zeta. unfold iprange_load_config, load_ranges, iprange_client_check, iprange_tunnel_check.
  pose proof (load_items_disable items []) as Hd. pose proof (load_items_covers items [] ip) as Hc.
  destruct (load_items items []) as [d l]. cbn in *.
  destruct d; [naive_solver|]. assert (~ Exists disables items) as Hn by naive_solver.
  specialize (Hc Hn). destruct (check_range_dec l ip) as [E|E]; rewrite E in *; cbn; naive_solver lia.
Qed.

(** ** Ranges are intervals of 32-bit addresses *)

Lemma parse_u8_range s n v : u_parse_u8 s = Some (n, v) -> is_u8 v.
Proof.
  unfold u_parse_u8, parse_uint. destruct s as [|c s]; [done|]. destruct (isdigit c); [|done].
  unfold strtoul. pose proof (digits_ge 0 (String c s) ltac:(lia)).
  destruct (digits _ _) as [v' n']. cbn in *. case_all; [done|]. intros [= _ <-]. to_prop.
  unfold ULONG_MAX in *. width_lia.
Qed.

Lemma last_octet_split x s :
  is_u32 x -> is_u8 s -> Z.lor (Z.land x 4294967040) s = x / 256 * 256 + s.
Proof.
  intros Hx Hs. change 4294967040 with (netmask 8). rewrite land_netmask by (done || lia).
  change (2 ^ 8) with 256. rewrite <- Z.lxor_lor, <- Z.add_nocarry_lxor; [done|..];
  (apply Z.bits_inj'; intros i Hi; rewrite Z.land_spec, Z.bits_0;
   change 256 with (2 ^ 8); destruct (Z.ltb_spec i 8);
   [by rewrite Z.mul_pow2_bits_low by lia|];
   rewrite <- (u8_small s Hs); unfold u8; by rewrite Z.mod_pow2_bits_high, andb_false_r by lia).
Qed.

(** Every entry the parser accepts yields a non-empty interval of 32-bit
    addresses. *)
Theorem parse_iprange_wf str r :
  parse_iprange str = Some (Some r) ->
  is_u32 (begin r) /\ is_u32 (end_ r) /\ begin r <= end_ r.
Proof.
  unfold parse_iprange. destruct (String.eqb _ _); [done|].
  destruct (u_parse_ip4cidr str) as [[[len a] p]|] eqn:Ec.
  - assert (0 <= p <= 32) as Hp.
    { revert Ec. unfold u_parse_ip4cidr. case_all; try done. intros [= _ _ <-]. to_prop.
      match goal with H : u_parse_u8 _ = _ |- _ => apply parse_u8_range in H end. width_lia. }
    fold (netmask (32 - p)).
    rewrite land_netmask, lnot_netmask, lor_ones by (lia || apply bswap32_range).
    assert (0 < 2 ^ (32 - p) /\ 2 ^ 32 = 2 ^ p * 2 ^ (32 - p)) as [Hm Hmul].
    { split; [apply Z.pow_pos_nonneg; lia|]. rewrite <- Z.pow_add_r by lia. f_equal. lia. }
    pose proof (bswap32_range a) as Ha. set (h := ntohl a) in *. unfold is_u32 in *.
    generalize dependent (2 ^ (32 - p)). intros m Hm Hmul.
    assert (0 <= h / m < 2 ^ p).
    { split; [apply Z.div_pos; lia|]. apply Z.div_lt_upper_bound; lia. }
    case_all; try done. intros [= <-]. cbn. nia.
  - destruct (u_parse_ip4range str) as [[[len a] v]|] eqn:Er; [|done].
    assert (is_u8 v /\ u8 (ntohl a) <= v) as [Hv Hle].
    { revert Er. unfold u_parse_ip4range. case_all; try done. intros [= _ <- <-]. to_prop.
      rewrite land_255 in *. split; [by eapply parse_u8_range|done]. }
    pose proof (bswap32_range a) as Ha. rewrite last_octet_split by done.
    case_all; try done. intros [= <-]. cbn. width_lia.
Qed.

Lemma parse_iprange_wf_witness :
  parse_iprange "192.0.2.16-47" = Some (Some (mk_iprange 3221226000 3221226031)) /\
  3221226000 <= 3221226031.
Proof.
  assert (parse_iprange "192.0.2.16-47" = Some (Some (mk_iprange 3221226000 3221226031))) as E
    by (vm_compute; reflexivity).
  split; [exact E|]. exact (proj2 (proj2 (parse_iprange_wf _ _ E))).
Defined.
End IpRangeProps.
