(* ===== verification/PppChan.v ===== *)
(** The PPP channel: receive buffer, PPPoE session framing and packet dispatch
    ([ppp/ppp.c], the receive side of [ctrl/pppoe/disc.c] and [pppoe.c], and the buffer
    pool of [triton/mempool.c]).

    The receive buffer is memory: a block of [PPP_BUF_SIZE] bytes that keeps what earlier
    packets left in it.  Every access the code makes through a pointer into it is a read or
    write at an offset; an access outside the block sets the ghost flag [fault], which
    stands for the undefined behaviour C gives it.  Theorems show when [fault] stays
    false. *)

From stdpp Require Import base tactics list numbers option.
From Stdlib Require Import ZArith Lia.
From S2P Require Import Prelude.

Open Scope Z_scope.

Module PppChan.

Definition PPP_HEADERLEN : Z := 4.
Definition PPP_HDRLEN : Z := 4.
Definition PPP_MTU : Z := 1500.
Definition PPP_BUF_SIZE : nat := Z.to_nat 8192.
Definition ETHER_MAX_LEN : nat := 1518.
Definition ETH_ALEN : nat := 6.
Definition ETH_HLEN : nat := 14.
Definition sizeof_pppoe_hdr : nat := 6.
Definition ETH_P_PPP_SES : Z := 34916. (* 0x8864 *)

Definition PPP_IPV6 : Z := 87.      (* 0x57 *)
Definition PPP_IPCP : Z := 32801.   (* 0x8021 *)
Definition PPP_IPV6CP : Z := 32855. (* 0x8057 *)
Definition PPP_CCP : Z := 33021.    (* 0x80fd *)
Definition PPP_LCP : Z := 49185.    (* 0xc021 *)
Definition PPP_PAP : Z := 49187.    (* 0xc023 *)
Definition PPP_CHAP : Z := 49699.   (* 0xc223 *)

(** ** Memory blocks *)

Abbreviation block := (list Z).

Definition byte_at (b : block) (i : nat) : Z := nth i b 0.

(** [memcpy(b + off, src, length src)] inside [b]. *)
Definition overwrite (b : block) (off : nat) (src : list Z) : block :=
  take off b ++ src ++ drop (off + length src) b.

(** ** [triton/mempool.c]: a FIFO of freed blocks, at most [conf_mempool_min] of them *)

Record mempool := mk_pool { items : list block; objects : Z }.

Definition conf_mempool_min : Z := 128.

(** [fresh] is what [_malloc] returns. *)
Definition mempool_alloc (fresh : block) (p : mempool) : block * mempool :=
  match items p with
  | it :: rest => (it, mk_pool rest (s32 (objects p - 1)))
  | [] => (fresh, p)
  end.

Definition mempool_free (b : block) (p : mempool) : mempool :=
  if objects p <? conf_mempool_min then mk_pool (items p ++ [b]) (s32 (objects p + 1)) else p.

(** ** The channel part of [struct ppp_t] *)

Record ppp_io := mk_io {
  hwaddr : list Z;             (* our MAC *)
  addr : list Z;               (* client MAC *)
  pppoe_sid : Z;
  mtu : Z;
  mru : Z;
  buf : option block;          (* NULL outside packet processing *)
  buf_size : Z;
  pack : block;                (* the last received Ethernet frame *)
  is_processing : bool;
  chan_handlers : list Z;      (* protocol of each registered handler *)
  unit_handlers : list Z;
  buf_pool : mempool;
  sent : list (list Z);        (* frames given to sendto(), latest last *)
  fault : bool
}.

Class IoHost (S : Type) := {
  get_io : S -> ppp_io;
  put_io : ppp_io -> S -> S;
  get_put_io x s : get_io (put_io x s) = x;
  put_put_io x y s : put_io x (put_io y s) = put_io x s;
  put_get_io s : put_io (get_io s) s = s
}.

(** The Ethernet and PPPoE headers [ppp_chan_send] builds around [data]. *)
Definition pppoe_frame (io : ppp_io) (data : list Z) : list Z :=
  addr io ++ hwaddr io ++ be16 ETH_P_PPP_SES ++
  [17; 0] ++ be16 (pppoe_sid io) ++ be16 (Z.of_nat (length data)) ++ data.

(** [ETHER_MAX_LEN - ETH_HLEN - sizeof(struct pppoe_hdr)] *)
Definition max_payload : nat := ETHER_MAX_LEN - ETH_HLEN - sizeof_pppoe_hdr.

Section Code.
Context {S : Type} `{!IoHost S}.

Abbreviation M := (st S).

Definition io_get {A} (p : ppp_io -> A) : M A := gets (fun s => p (get_io s)).
Definition io_upd (f : ppp_io -> ppp_io) : M unit := modify (fun s => put_io (f (get_io s)) s).

Definition set_fault : M unit := io_upd (fun io => io <| fault := true |>).

Definition the_buf (io : ppp_io) : block := default [] (buf io).

(** [buf[off]] *)
Definition rd8 (off : nat) : M Z :=
  b ← io_get the_buf;
  when (length b <=? off)%nat set_fault ;;
  mret (byte_at b off).
Definition rd16 (off : nat) : M Z :=
  a ← rd8 off; b ← rd8 (off + 1); mret (of_be16 a b).
Definition rd32 (off : nat) : M Z :=
  a ← rd8 off; b ← rd8 (off + 1); c ← rd8 (off + 2); d ← rd8 (off + 3);
  mret (of_be32 a b c d).

(** The [n] bytes at [buf + off]. *)
Definition rd_bytes (off n : nat) : M (list Z) :=
  b ← io_get the_buf;
  when (length b <? off + n)%nat set_fault ;;
  mret (take n (drop off b)).

Definition wr_bytes (off : nat) (l : list Z) : M unit :=
  b ← io_get the_buf;
  when (length b <? off + length l)%nat set_fault ;;
  io_upd (fun io => io <| buf := Some (overwrite b off l) |>).

(** [size <= 0 || size > (ETHER_MAX_LEN - ETH_HLEN - sizeof(struct pppoe_hdr))] *)
Definition bad_size (size : Z) : bool := (size <=? 0) || (Z.of_nat max_payload <? size).

(** [ppp_chan_send(ppp, data, size)] with [data] a local object of [size] bytes.  A failing
    [sendto] is only logged. *)
Definition ppp_chan_send (data : list Z) : M unit :=
  if bad_size (Z.of_nat (length data)) then skip
  else io_upd (fun io => io <| sent ::= fun l => l ++ [pppoe_frame io data] |>).

(** [ppp_chan_send(ppp, ppp->buf, size)] *)
Definition ppp_chan_send_buf (size : Z) : M unit :=
  if bad_size size then skip
  else data ← rd_bytes 0 (Z.to_nat size); ppp_chan_send data.

(** [ppp_unit_send] has the same body. *)
Definition ppp_unit_send (data : list Z) : M unit :=
  if bad_size (Z.of_nat (length data)) then skip
  else io_upd (fun io => io <| sent ::= fun l => l ++ [pppoe_frame io data] |>).
Definition ppp_unit_send_buf (size : Z) : M unit :=
  if bad_size size then skip
  else data ← rd_bytes 0 (Z.to_nat size); ppp_unit_send data.

Definition ppp_register_chan_handler (proto : Z) : M unit :=
  io_upd (fun io => io <| chan_handlers ::= fun l => l ++ [proto] |>).
Definition ppp_register_unit_handler (proto : Z) : M unit :=
  io_upd (fun io => io <| unit_handlers ::= fun l => l ++ [proto] |>).

Definition remove1 (p : Z) (l : list Z) : list Z :=
  match list_find (eq p) l with Some (i, _) => delete i l | None => l end.

Definition ppp_unregister_handler (proto : Z) : M unit :=
  io_upd (fun io => if bool_decide (proto ∈ chan_handlers io)
                    then io <| chan_handlers ::= remove1 proto |>
                    else io <| unit_handlers ::= remove1 proto |>).

(** What the layers give the channel: the [recv] and [recv_proto_rej] handlers of each
    registered protocol, [lcp_send_proto_rej], and the IPv6 data path. *)
Record chan_env := mk_chan_env {
  h_recv : Z -> M unit;
  h_recv_proto_rej : Z -> option (M unit);
  send_proto_rej : Z -> M unit;
  dhcpv6_read : M unit;
  ipv6_nd_read : M unit
}.
Variable env : chan_env.
Variable fresh : block.

Definition ppp_recv_proto_rej (proto : Z) : M unit :=
  cs ← io_get chan_handlers;
  us ← io_get unit_handlers;
  if bool_decide (proto ∈ cs) || bool_decide (proto ∈ us)
  then call (h_recv_proto_rej env proto)
  else skip.

(** [if (!ppp->buf) ppp->buf = mempool_alloc(buf_pool);] *)
Definition take_buf : M unit :=
  io_upd (fun io =>
    match buf io with
    | Some _ => io
    | None => let '(b, pool) := mempool_alloc fresh (buf_pool io) in
              io <| buf := Some b |> <| buf_pool := pool |>
    end).

(** [ppp->buf_size = size; memcpy(ppp->buf, pack + off, ppp->buf_size);] *)
Definition copy_in (p : block) (off : nat) (size : Z) : M unit :=
  io_upd (fun io => io <| buf_size := size |>) ;;
  when (length p <? off + Z.to_nat size)%nat set_fault ;;
  wr_bytes 0 (take (Z.to_nat size) (drop off p)).

(** The two handler loops. *)
Definition dispatch (proto : Z) : M unit :=
  cs ← io_get chan_handlers;
  us ← io_get unit_handlers;
  if bool_decide (proto ∈ cs) then h_recv env proto
  else if bool_decide (proto ∈ us) then h_recv env proto
  else send_proto_rej env proto.

(** [if (ppp->buf) { mempool_free(ppp->buf); ppp->buf = NULL; } ppp->is_processing = 0;] *)
Definition release : M unit :=
  io_upd (fun io =>
    match buf io with
    | Some b => io <| buf := None |> <| buf_pool ::= mempool_free b |>
    | None => io
    end) ;;
  io_upd (fun io => io <| is_processing := false |>).

(** [ppp_packet_read], run in the session's context on the frame left in [ppp->pack];
    [htons] of the length field is its value, so [buf_size] is never negative. *)
Definition ppp_packet_read : M unit :=
  p ← io_get pack;
  let off := (sizeof_pppoe_hdr + ETH_HLEN)%nat in
  let proto := of_be16 (byte_at p off) (byte_at p (off + 1)) in
  if proto =? PPP_IPV6 then
    let nxt := byte_at p (off + 2 + 6) in
    (if nxt =? 17 then dhcpv6_read env
     else if nxt =? 58 then ipv6_nd_read env else skip) ;;
    io_upd (fun io => io <| is_processing := false |>)
  else
    take_buf ;;
    let size := of_be16 (byte_at p (ETH_HLEN + 4)) (byte_at p (ETH_HLEN + 5)) in
    copy_in p off size ;;
    (if size <? 2 then skip else dispatch proto) ;;
    release.

End Code.

(** ** From the socket to the session: [ctrl/pppoe/disc.c] and [pppoe.c] *)

(** One iteration of the loop of [ppp_ses_read] (and of [disc_read]): the frame received
    ([n] bytes at most [ETHER_MAX_LEN]) is forwarded or dropped.  [mac_filtered] is
    [mac_filter_check]. *)
Definition ses_frame_ok (mac_filtered : list Z -> bool) (f : list Z) : bool :=
  let n := Z.of_nat (length f) in
  let h_source := take ETH_ALEN (drop ETH_ALEN f) in
  let hlen := Z.of_nat (ETH_HLEN + sizeof_pppoe_hdr) in
  let vt := byte_at f ETH_HLEN in
  let length_ := of_be16 (byte_at f (ETH_HLEN + 4)) (byte_at f (ETH_HLEN + 5)) in
  if n <? hlen then false
  else if mac_filtered h_source then false
  else if bool_decide (h_source = repeat 255 ETH_ALEN) then false
  else if negb (Z.land (byte_at f ETH_ALEN) 1 =? 0) then false
  else if n <? hlen + length_ then false
  else if negb (Z.shiftr vt 4 =? 1) then false
  else Z.land vt 15 =? 1.

(** [pppoe_recv_PPP], for the connection the session id selects: the frame is copied into
    [ppp->pack] and [ppp_packet_read] is queued on the session's context. *)
Definition pppoe_recv_PPP {S} `{!IoHost S} (f : list Z) (queue : st S unit) : st S unit :=
  let n := Z.of_nat (length f) in
  let length_ := of_be16 (byte_at f (ETH_HLEN + 4)) (byte_at f (ETH_HLEN + 5)) in
  if n <? Z.of_nat (ETH_HLEN + sizeof_pppoe_hdr) + 2 then skip
  else if length_ <? 2 then skip
  else
    io_upd (fun io => io <| is_processing := true |>) ;;
    p ← io_get pack;
    when (length p <? length f)%nat set_fault ;;
    io_upd (fun io => io <| pack := overwrite p 0 f |>) ;;
    queue.

End PppChan.

Module PppChanProps.
Import PppChan.

Section Host.
Context {S : Type} `{!IoHost S}.

Lemma exec_io_upd f s : exec (io_upd f) s = put_io (f (get_io s)) s.
Proof. done. Qed.
Lemma exec_io_get {A} (p : ppp_io -> A) s : exec (io_get p) s = s.
Proof. done. Qed.
Lemma val_io_get {A} (p : ppp_io -> A) s : val (io_get p) s = p (get_io s).
Proof. done. Qed.

(** Blocks of the size the pool hands out. *)
Definition io_wf (io : ppp_io) : Prop :=
  length (pack io) = ETHER_MAX_LEN /\ buf io = None /\
  Forall (fun b => length b = PPP_BUF_SIZE) (items (buf_pool io)).

Definition frame_len (f : list Z) : nat :=
  Z.to_nat (of_be16 (byte_at f (ETH_HLEN + 4)) (byte_at f (ETH_HLEN + 5))).
Definition payload (f : list Z) : list Z :=
  take (frame_len f) (drop (sizeof_pppoe_hdr + ETH_HLEN) f).
Definition frame_proto (f : list Z) : Z := of_be16 (byte_at f 20) (byte_at f 21).

Lemma byte_at_overwrite (p f : list Z) i :
  (i < length f)%nat -> byte_at (overwrite p 0 f) i = byte_at f i.
Proof. intros Hi. unfold byte_at, overwrite. rewrite take_0. cbn [app]. by apply app_nth1. Qed.

Lemma ses_frame_ok_len mf f :
  bytes_ok f -> ses_frame_ok mf f = true ->
  (ETH_HLEN + sizeof_pppoe_hdr + frame_len f <= length f)%nat.
Proof.
  intros Hb. unfold ses_frame_ok, frame_len. cbv zeta. destruct (_ <? _); [done|].
  destruct (mf _); [done|]. destruct (bool_decide _); [done|]. destruct (negb _); [done|].
  destruct (_ <? _) eqn:E; [done|]. intros _. to_prop. unfold of_be16, byte_at in *.
  assert (forall i, 0 <= nth i f 0) as Hnn.
  { intros i. destruct (nth_in_or_default i f 0) as [Hi| ->]; [|done].
    apply (proj1 (Forall_forall _ _) Hb) in Hi. width_lia. }
  pose proof (Hnn (ETH_HLEN + 4)%nat). pose proof (Hnn (ETH_HLEN + 5)%nat). lia.
Qed.

Lemma alloc_length fresh pool b pool' :
  length fresh = PPP_BUF_SIZE -> Forall (fun b => length b = PPP_BUF_SIZE) (items pool) ->
  mempool_alloc fresh pool = (b, pool') -> length b = PPP_BUF_SIZE.
Proof.
  intros Hf Hp. unfold mempool_alloc. destruct (items pool) as [|x l].
  - by intros [= <- <-].
  - intros [= <- <-]. by inversion Hp.
Qed.

(** The state in which the protocol handler runs. *)
Definition delivered (fresh : block) (f : list Z) (s : S) : S :=
  let io := get_io s in
  let '(b, pool) := mempool_alloc fresh (buf_pool io) in
  put_io (io <| is_processing := true |> <| pack := overwrite (pack io) 0 f |>
             <| buf := Some (overwrite b 0 (payload f)) |> <| buf_pool := pool |>
             <| buf_size := Z.of_nat (frame_len f) |>) s.

Definition registered (io : ppp_io) (proto : Z) : bool :=
  bool_decide (proto ∈ chan_handlers io) || bool_decide (proto ∈ unit_handlers io).

Lemma payload_length f :
  (ETH_HLEN + sizeof_pppoe_hdr + frame_len f <= length f)%nat -> length (payload f) = frame_len f.
Proof. intros. unfold payload. rewrite length_take, length_drop. lia. Qed.

Lemma payload_overwrite p f :
  (ETH_HLEN + sizeof_pppoe_hdr + frame_len f <= length f)%nat ->
  take (frame_len f) (drop (sizeof_pppoe_hdr + ETH_HLEN) (overwrite p 0 f)) = payload f.
Proof.
  intros H. unfold overwrite. rewrite take_0. cbn [app].
  rewrite drop_app_le by lia. rewrite take_app_le by (rewrite length_drop; lia). done.
Qed.

Lemma overwrite_length b l : (length l <= length b)%nat -> length (overwrite b 0 l) = length b.
Proof. intros. unfold overwrite. rewrite take_0. cbn. rewrite length_app, length_drop. lia. Qed.

Ltac io_proj := cbn [apply_update constant hwaddr addr pppoe_sid mtu mru buf buf_size pack is_processing
  chan_handlers unit_handlers buf_pool sent fault].
Ltac io_step := rewrite ?exec_bind, ?exec_io_upd, ?exec_io_get, ?val_io_get, ?get_put_io, ?put_put_io.

(** The socket filter and the copy into [ppp->pack]. *)
Lemma recv_PPP_exec mf f (q : st S unit) s :
  bytes_ok f -> (length f <= ETHER_MAX_LEN)%nat -> length (pack (get_io s)) = ETHER_MAX_LEN ->
  ses_frame_ok mf f = true -> (2 <= frame_len f)%nat ->
  exec (pppoe_recv_PPP f q) s =
  exec q (put_io ((get_io s) <| is_processing := true |> <| pack := overwrite (pack (get_io s)) 0 f |>) s).
Proof.
  intros Hb Hl Hp Hok H2. pose proof (ses_frame_ok_len mf f Hb Hok) as Hlen.
  unfold pppoe_recv_PPP. fold (frame_len f) in *. unfold frame_len in H2, Hlen.
  rewrite (proj2 (Z.ltb_ge (Z.of_nat (length f)) _)) by lia.
  rewrite (proj2 (Z.ltb_ge (of_be16 _ _) 2)) by lia.
  io_step. cbn [pack]. rewrite (proj2 (Nat.ltb_ge _ (length f))) by (rewrite <- Hp in Hl; exact Hl).
  cbn [when]. change (exec skip ?x) with x. io_step. done.
Qed.

Lemma exec_take_buf fresh s b pool :
  buf (get_io s) = None -> mempool_alloc fresh (buf_pool (get_io s)) = (b, pool) ->
  exec (take_buf fresh) s = put_io ((get_io s) <| buf := Some b |> <| buf_pool := pool |>) s.
Proof. intros Hb Ha. unfold take_buf. by rewrite exec_io_upd, Hb, Ha. Qed.

Lemma exec_copy_in p off size s b :
  (off + Z.to_nat size <= length p)%nat -> buf (get_io s) = Some b -> (Z.to_nat size <= length b)%nat ->
  exec (copy_in p off size) s =
  put_io ((get_io s) <| buf_size := size |>
            <| buf := Some (overwrite b 0 (take (Z.to_nat size) (drop off p))) |>) s.
Proof.
  intros Hp Hb Hl. unfold copy_in, wr_bytes. io_step. unfold the_buf.
  rewrite (proj2 (Nat.ltb_ge (length p) _)) by lia.
  change (exec (when false _) ?x) with x. rewrite get_put_io.
  change (buf (apply_update _ ?x)) with (buf x). rewrite Hb. cbn [default]. rewrite length_take, length_drop.
  rewrite (proj2 (Nat.ltb_ge (length b) _)) by lia.
  change (exec (when false _) ?x) with x. io_step. done.
Qed.

Lemma exec_dispatch env proto s :
  registered (get_io s) proto = true -> exec (dispatch env proto) s = exec (h_recv env proto) s.
Proof.
  unfold registered, dispatch. io_step. intros H.
  destruct (bool_decide _); [done|]. cbn in H. by rewrite H.
Qed.

Lemma packet_read_exec env fresh f s b pool :
  (ETH_HLEN + sizeof_pppoe_hdr + frame_len f <= length f)%nat ->
  length (pack (get_io s)) = ETHER_MAX_LEN -> (length f <= ETHER_MAX_LEN)%nat ->
  buf (get_io s) = None -> length b = PPP_BUF_SIZE ->
  mempool_alloc fresh (buf_pool (get_io s)) = (b, pool) -> (2 <= frame_len f)%nat ->
  frame_proto f <> PPP_IPV6 -> registered (get_io s) (frame_proto f) = true ->
  exec (ppp_packet_read env fresh)
    (put_io ((get_io s) <| is_processing := true |> <| pack := overwrite (pack (get_io s)) 0 f |>) s) =
  exec release (exec (h_recv env (frame_proto f)) (delivered fresh f s)).
Proof.
  intros Hlen Hp Hl Hbuf Hbl Ha H2 Hv6 Hreg. unfold ppp_packet_read. rewrite exec_bind, val_io_get.
  set (s0 := put_io _ s).
  assert (pack (get_io s0) = overwrite (pack (get_io s)) 0 f) as -> by (subst s0; by rewrite get_put_io).
  cbv zeta. change (exec (io_get _) ?x) with x.
  assert (forall i, (i < 22)%nat -> byte_at (overwrite (pack (get_io s)) 0 f) i = byte_at f i) as Hby.
  { intros i Hi. apply byte_at_overwrite. unfold ETH_HLEN, sizeof_pppoe_hdr in *. lia. }
  rewrite (Hby (sizeof_pppoe_hdr + ETH_HLEN)%nat), (Hby (sizeof_pppoe_hdr + ETH_HLEN + 1)%nat),
    (Hby (ETH_HLEN + 4)%nat), (Hby (ETH_HLEN + 5)%nat) by (unfold ETH_HLEN, sizeof_pppoe_hdr; lia).
  change (of_be16 (byte_at f (_ + ETH_HLEN)) ?x) with (frame_proto f).
  rewrite (proj2 (Z.eqb_neq (frame_proto f) _)) by done.
  set (size := of_be16 (byte_at f (ETH_HLEN + 4)) (byte_at f (ETH_HLEN + 5))). change (Z.to_nat size) with (frame_len f).
  assert (frame_len f = Z.to_nat size) as Hsz by done. clearbody size.
  rewrite exec_bind, (exec_take_buf fresh s0 b pool) by (subst s0; by rewrite get_put_io).
  rewrite exec_bind, (exec_copy_in _ _ _ _ b).
  2:{ rewrite overwrite_length; rewrite Hp; [|done]. unfold ETH_HLEN, sizeof_pppoe_hdr in *. lia. }
  2:{ by rewrite get_put_io. }
  2:{ rewrite Hbl, <- Hsz. unfold ETH_HLEN, ETHER_MAX_LEN, PPP_BUF_SIZE in *. lia. }
  rewrite <- Hsz, payload_overwrite by done. subst s0. rewrite !get_put_io, !put_put_io.
  rewrite (proj2 (Z.ltb_ge size 2)) by lia.
  rewrite exec_bind, exec_dispatch by (rewrite get_put_io; exact Hreg).
  unfold delivered. rewrite Ha. replace size with (Z.of_nat (frame_len f)) by lia. reflexivity.
Qed.

Lemma delivered_safe fresh f s b pool :
  (ETH_HLEN + sizeof_pppoe_hdr + frame_len f <= length f <= ETHER_MAX_LEN)%nat ->
  length b = PPP_BUF_SIZE -> mempool_alloc fresh (buf_pool (get_io s)) = (b, pool) ->
  let io := get_io (delivered fresh f s) in
  fault io = fault (get_io s) /\ buf_size io = Z.of_nat (length (payload f)) /\
  exists stale, buf io = Some (payload f ++ stale) /\ length (payload f ++ stale) = PPP_BUF_SIZE.
Proof.
  intros Hf Hb Ha. unfold delivered. rewrite Ha. cbv zeta. rewrite get_put_io.
  rewrite payload_length by lia. split; [done|]. split; [done|].
  exists (drop (frame_len f) b). cbn [buf]. unfold overwrite. rewrite take_0. cbn [app Nat.add].
  rewrite payload_length by lia. split; [done|].
  rewrite length_app, length_drop, payload_length, Hb by lia.
  unfold ETH_HLEN, ETHER_MAX_LEN, PPP_BUF_SIZE in *. lia.
Qed.

(** Every session frame that passes the socket filter reaches the handler of its
    protocol with no access outside a buffer, and the handler finds exactly the PPPoE
    payload at the start of [ppp->buf]; the buffer is returned to the pool afterwards. *)
Theorem session_frame_delivery mf env fresh f s :
  bytes_ok f -> (length f <= ETHER_MAX_LEN)%nat -> length fresh = PPP_BUF_SIZE ->
  io_wf (get_io s) -> ses_frame_ok mf f = true -> (2 <= frame_len f)%nat ->
  frame_proto f <> PPP_IPV6 -> registered (get_io s) (frame_proto f) = true ->
  let s1 := delivered fresh f s in
  exec (pppoe_recv_PPP f (ppp_packet_read env fresh)) s =
    exec release (exec (h_recv env (frame_proto f)) s1) /\
  fault (get_io s1) = fault (get_io s) /\
  buf_size (get_io s1) = Z.of_nat (length (payload f)) /\
  exists stale, buf (get_io s1) = Some (payload f ++ stale) /\
    length (payload f ++ stale) = PPP_BUF_SIZE.
Proof.
  intros Hb Hl Hfresh (Hp & Hbuf & Hpool) Hok H2 Hv6 Hreg s1.
  pose proof (ses_frame_ok_len mf f Hb Hok) as Hlen.
  destruct (mempool_alloc fresh (buf_pool (get_io s))) as [b pool] eqn:Ha.
  pose proof (alloc_length _ _ _ _ Hfresh Hpool Ha) as Hbl.
  split; [|by apply (delivered_safe fresh f s b pool); [lia|..]].
  rewrite (recv_PPP_exec mf) by done. eapply packet_read_exec; done.
Qed.
End Host.

(** The channel by itself. *)
#[export, refine] Instance io_self : IoHost ppp_io := {| get_io x := x; put_io x _ := x |}.
Proof. all: done. Defined.

Definition demo_io : ppp_io :=
  mk_io [2;0;0;0;0;1] [2;0;0;0;0;9] 7 1492 1500 None 0 (repeat 0 ETHER_MAX_LEN) false
    [PPP_LCP] [] (mk_pool [] 0) [] false.
Definition demo_env : chan_env (S := ppp_io) :=
  mk_chan_env (fun _ => skip) (fun _ => None) (fun _ => skip) skip skip.
(** An LCP Echo-Request. *)
Definition demo_frame : list Z :=
  pppoe_frame (demo_io <| hwaddr := [2;0;0;0;0;9] |> <| addr := [2;0;0;0;0;1] |>)
    [192;33;9;1;0;8;0;0;0;0].

Lemma session_frame_delivery_witness :
  exec (pppoe_recv_PPP demo_frame (ppp_packet_read demo_env (repeat 0 PPP_BUF_SIZE))) demo_io =
  exec release (delivered (repeat 0 PPP_BUF_SIZE) demo_frame demo_io).
Proof.
  refine (proj1 (session_frame_delivery (fun _ => false) demo_env (repeat 0 PPP_BUF_SIZE)
    demo_frame demo_io _ _ _ _ _ _ _ _)).
  - unfold bytes_ok. vm_compute. repeat constructor; discriminate.
  - vm_compute. lia.
  - apply repeat_length.
  - split; [apply repeat_length|]. split; [done|constructor].
  - by vm_compute.
  - vm_compute. lia.
  - vm_compute. discriminate.
  - by vm_compute.
Defined.

(** Framing round trip: a payload of 2 to 1498 bytes sent on a channel fits an
    Ethernet frame, is accepted by the socket filter of the same program at the other end,
    and is recovered unchanged from it. *)
Theorem pppoe_frame_roundtrip io data :
  length (addr io) = ETH_ALEN -> length (hwaddr io) = ETH_ALEN ->
  hwaddr io <> repeat 255 ETH_ALEN -> Z.land (byte_at (hwaddr io) 0) 1 = 0 ->
  bad_size (Z.of_nat (length data)) = false ->
  let f := pppoe_frame io data in
  (length f <= ETHER_MAX_LEN)%nat /\ ses_frame_ok (fun _ => false) f = true /\ payload f = data.
Proof.
  intros Ha Hh Hbc Huni Hsz. unfold bad_size in Hsz. apply orb_false_iff in Hsz as [H0 H1].
  apply Z.leb_gt in H0. apply Z.ltb_ge in H1.
  assert (Z.of_nat max_payload = 1498) as Hmax by (by vm_compute). rewrite Hmax in H1.
  set (n := Z.of_nat (length data)) in *.
  assert (Hlen : of_be16 (u8 (Z.shiftr n 8)) (u8 n) = n) by (apply of_be16_be16; width_lia).
  unfold pppoe_frame. fold n.
  destruct (addr io) as [|a0 [|a1 [|a2 [|a3 [|a4 [|a5 [|]]]]]]]; try discriminate Ha.
  destruct (hwaddr io) as [|h0 [|h1 [|h2 [|h3 [|h4 [|h5 [|]]]]]]]; try discriminate Hh.
  cbn [byte_at nth] in Huni. unfold ses_frame_ok, payload, frame_len, ETH_HLEN, sizeof_pppoe_hdr, ETH_ALEN in *.
  cbn [app be16 length take drop byte_at nth Nat.add]. rewrite Hlen.
  split; [unfold ETHER_MAX_LEN; lia|]. split.
  - rewrite (proj2 (Z.ltb_ge _ _)) by lia. rewrite bool_decide_eq_false_2 by done.
    rewrite Huni. cbn [Z.eqb negb]. by rewrite (proj2 (Z.ltb_ge _ _)) by lia.
  - subst n. rewrite Nat2Z.id. apply take_ge. done.
Qed.

Lemma pppoe_frame_roundtrip_witness :
  payload (pppoe_frame demo_io [192;33;9;1;0;8;0;0;0;0]) = [192;33;9;1;0;8;0;0;0;0].
Proof.
  refine (proj2 (proj2 (pppoe_frame_roundtrip demo_io [192;33;9;1;0;8;0;0;0;0] _ _ _ _ _))); by vm_compute.
Defined.

End PppChanProps.
