(* ===== verification/Lcp.v ===== *)
(** The Link Control Protocol: [ppp/ppp_lcp.c] and its options ([lcp_opt_mru.c],
    [lcp_opt_magic.c], [lcp_opt_accomp.c], [lcp_opt_pcomp.c], the LCP side of [ppp_auth.c]).

    The [ppp_lcp_t] structure is a record; the option objects, which C reaches through a
    table of function pointers, are an inductive type with one constructor per option, and
    each table slot is a function by cases on it.  Received options are offsets into
    [ppp->buf], as the C pointers are.  The layers above and below ([session.c], the layer
    code of [ppp.c]) and the system are the record [lcp_env]: the automaton and LCP call
    them, and they may call back.  Logging is dropped and allocation succeeds. *)

From stdpp Require Import base tactics list numbers option strings.
From Stdlib Require Import ZArith Lia.
From S2P Require Import Prelude CLib Fsm PppChan.

Open Scope Z_scope.

Module Lcp.
Import Fsm PppChan.

Definition CI_MRU : Z := 1.
Definition CI_AUTH : Z := 3.
Definition CI_MAGIC : Z := 5.
Definition CI_PCOMP : Z := 7.
Definition CI_ACCOMP : Z := 8.

Definition LCP_OPT_NONE : Z := 0.
Definition LCP_OPT_ACK : Z := 1.
Definition LCP_OPT_NAK : Z := -1.
Definition LCP_OPT_REJ : Z := -2.
Definition LCP_OPT_FAIL : Z := -3.

Definition TERM_USER_REQUEST : Z := 1.
Definition TERM_USER_ERROR : Z := 4.
Definition TERM_NAS_ERROR : Z := 5.
Definition TERM_LOST_CARRIER : Z := 9.

Definition SC_COMP_PROT : Z := 1.
Definition SC_COMP_AC : Z := 2.

(** ** Data *)

(** The static part of a [struct ppp_auth_handler_t]: what [init] puts in [auth_data_t]
    ([proto], [len]), whether it registers the channel handler, and the bytes
    [send_conf_req] writes after the protocol number. *)
Record auth_handler := mk_ah { ah_proto : Z; ah_len : Z; ah_register : bool; ah_conf : list Z }.

Definition pap : auth_handler := mk_ah PPP_PAP 0 true [].
Definition chap_md5 : auth_handler := mk_ah PPP_CHAP 1 false [5].
Definition mschap_v1 : auth_handler := mk_ah PPP_CHAP 1 false [128].
Definition mschap_v2 : auth_handler := mk_ah PPP_CHAP 1 false [129].

(** [struct auth_data_t] *)
Record auth_data := mk_ad { ad_h : auth_handler; ad_proto : Z; ad_state : Z; ad_len : Z }.

(** [struct auth_option_t], which lives in the data of the authentication layer and is
    shared with it; [auth] points into [auth_list]. *)
Record auth_option := mk_ao { auth_list : list auth_data; auth : option nat; auth_started : bool }.

Inductive opt_data :=
  | Mru (mru mtu : Z) (naked rejected : bool)
  | Magic (magic : Z)
  | Accomp (accomp : Z)
  | Pcomp (pcomp : Z)
  | Auth.                       (* the object is [lcp_auth] *)

(** [struct lcp_option_t]; [print], which only drives the log, is dropped. *)
Record lcp_option_t := mk_opt { opt_id : Z; opt_len : Z; opt_state : Z; opt_obj : opt_data }.

(** [struct recv_opt_t]: [hdr] is an offset into [ppp->buf]. *)
Record recv_opt_t := mk_ropt { ropt_hdr : nat; ropt_olen : Z; ropt_state : Z; ropt_known : bool }.

Record ppp_lcp_t := mk_lcp {
  fsm : ppp_fsm_t;
  options : list lcp_option_t;
  lcp_auth : auth_option;
  echo_tpd : bool;
  echo_period : Z;
  echo_sent : Z;
  lcp_magic : Z;
  last_ipackets : Z;
  last_echo_ts : Z;
  ropt_list : list recv_opt_t;
  ropt_len : Z;
  conf_req_len : Z;
  started : bool
}.

(** The kinds of option handler, in the order they were registered. *)
Inductive opt_kind := KMru | KMagic | KAccomp | KPcomp | KAuth.

(** The configuration variables of the six files. *)
Record lcp_conf := mk_lcp_conf {
  conf_echo_interval : Z;
  conf_echo_failure : Z;
  conf_echo_timeout : Z;
  conf_mtu : Z;
  conf_mru : Z;
  conf_min_mtu : Z;
  conf_max_mtu : Z;
  conf_accomp : Z;
  conf_pcomp : Z;
  conf_noauth : bool;
  auth_handlers : list auth_handler;
  option_handlers : list opt_kind;
  conf_fsm : fsm_conf
}.

Class LcpHost (S : Type) := {
  lcp_io :: IoHost S;
  get_lcp : S -> ppp_lcp_t;
  put_lcp : ppp_lcp_t -> S -> S;
  get_put_lcp x s : get_lcp (put_lcp x s) = x;
  put_put_lcp x y s : put_lcp x (put_lcp y s) = put_lcp x s;
  put_get_lcp s : put_lcp (get_lcp s) s = s;
  get_lcp_put_io x s : get_lcp (put_io x s) = get_lcp s;
  get_io_put_lcp x s : get_io (put_lcp x s) = get_io s;
  put_io_put_lcp x y s : put_io x (put_lcp y s) = put_lcp y (put_io x s)
}.

(** The automaton is the [fsm] field of [struct ppp_lcp_t]. *)
#[export, refine] Instance lcp_fsm {S} `{!LcpHost S} : FsmHost S := {|
  get_fsm s := fsm (get_lcp s);
  put_fsm f s := put_lcp ((get_lcp s) <| fsm := f |>) s
|}.
Proof.
  - intros. by rewrite get_put_lcp.
  - intros. by rewrite get_put_lcp, put_put_lcp.
  - intros s. etrans; [|apply put_get_lcp]. f_equal. by destruct (get_lcp s).
Defined.

(** What LCP calls outside its files. *)
Record lcp_env (S : Type) := mk_lcp_env {
  ses_terminate : Z -> Z -> st S unit;      (* ap_session_terminate(ses, cause, hard) *)
  layer_started_ : st S unit;               (* ppp_layer_started(ppp, &lcp->ld) *)
  layer_finished_ : st S unit;              (* ppp_layer_finished(ppp, &lcp->ld) *)
  defer_finished : st S unit;               (* triton_context_call(_lcp_layer_finished) *)
  cancel_finished : st S unit;              (* triton_cancel_call *)
  proto_rej : Z -> st S unit;               (* ppp_recv_proto_rej *)
  auth_finish : auth_data -> st S unit;     (* auth->h->finish *)
  terminating : S -> bool;                  (* ses.terminating *)
  lcp_present : S -> bool;                  (* ppp_find_layer_data(ppp, &lcp_layer) *)
  max_mtu : S -> Z;                         (* ses.ctrl->max_mtu *)
  read_stats : st S Z;                      (* ap_session_read_stats: rx_packets *)
  time : S -> Z;                            (* _time() *)
  random : st S Z;                          (* random() *)
  get_flags : st S (option Z);              (* ioctl(PPPIOCGFLAGS) *)
  set_flags : Z -> st S bool                (* ioctl(PPPIOCSFLAGS) succeeds *)
}.
Arguments ses_terminate {_} _. Arguments layer_started_ {_} _. Arguments layer_finished_ {_} _.
Arguments defer_finished {_} _. Arguments cancel_finished {_} _. Arguments proto_rej {_} _.
Arguments auth_finish {_} _.
Arguments terminating {_} _. Arguments lcp_present {_} _. Arguments max_mtu {_} _.
Arguments read_stats {_} _. Arguments time {_} _. Arguments random {_} _.
Arguments get_flags {_} _. Arguments set_flags {_} _.

Section Code.
Context {S : Type} `{!LcpHost S}.
Variable env : lcp_env S.
Variable conf : lcp_conf.
(** How often [nzmagic] retries before the model stops drawing. *)
Variable rand_fuel : nat.

Abbreviation M := (st S).

Definition lcp_get {A} (p : ppp_lcp_t -> A) : M A := gets (fun s => p (get_lcp s)).
Definition lcp_upd (f : ppp_lcp_t -> ppp_lcp_t) : M unit :=
  modify (fun s => put_lcp (f (get_lcp s)) s).

(** ** Options *)

(** [do magic = random(); while (magic == old || !magic);] *)
Fixpoint nzmagic_loop (fuel : nat) (old : Z) : M Z :=
  r ← random env;
  let magic := s32 r in
  if (magic =? old) || (magic =? 0) then
    match fuel with
    | O => mret magic
    | Datatypes.S fuel => nzmagic_loop fuel old
    end
  else mret magic.
Definition nzmagic (old : Z) : M Z := nzmagic_loop rand_fuel old.

Definition mru_init : M lcp_option_t :=
  m ← gets (max_mtu env);
  let pick c := if negb (c =? 0) && (c <=? m) then c else m in
  let clip v := if conf_max_mtu conf <? v then conf_max_mtu conf else v in
  let mru_ := clip (pick (conf_mru conf)) in
  let mtu_ := clip (pick (conf_mtu conf)) in
  io_upd (fun io => io <| mru := PPP_MTU |> <| mtu := mtu_ |>) ;;
  mret (mk_opt CI_MRU 4 0 (Mru mru_ mtu_ false false)).

Definition magic_init : M lcp_option_t :=
  m ← nzmagic 0;
  lcp_upd (fun l => l <| lcp_magic := m |>) ;;
  mret (mk_opt CI_MAGIC 6 0 (Magic m)).

Definition accomp_init : M lcp_option_t :=
  mret (mk_opt CI_ACCOMP 2 0 (Accomp (conf_accomp conf))).

Definition pcomp_init : M lcp_option_t :=
  mret (mk_opt CI_PCOMP 2 0 (Pcomp (conf_pcomp conf))).

(** [auth] and [started] of the shared object keep their values. *)
Definition auth_init : M lcp_option_t :=
  if conf_noauth conf then
    lcp_upd (fun l => l <| lcp_auth ::= fun a => a <| auth_list := [] |> |>) ;;
    mret (mk_opt CI_AUTH 4 0 Auth)
  else
    iter_st (auth_handlers conf) (fun h => when (ah_register h) (ppp_register_chan_handler (ah_proto h))) ;;
    lcp_upd (fun l => l <| lcp_auth ::= fun a =>
      a <| auth_list := map (fun h => mk_ad h (ah_proto h) 0 (ah_len h)) (auth_handlers conf) |> |>) ;;
    let auth_data_len := foldl (fun n h => if n <? ah_len h then ah_len h else n) 0 (auth_handlers conf) in
    mret (mk_opt CI_AUTH (4 + auth_data_len) 0 Auth).

(** [h->init(lcp)] *)
Definition opt_init (k : opt_kind) : M lcp_option_t :=
  match k with
  | KMru => mru_init
  | KMagic => magic_init
  | KAccomp => accomp_init
  | KPcomp => pcomp_init
  | KAuth => auth_init
  end.

Definition find_auth (l : list auth_data) : option nat :=
  fst <$> list_find (fun d => ad_state d <> LCP_OPT_NAK /\ ad_state d <> LCP_OPT_REJ) l.

(** The [i]th element of [auth_list], which [auth] points to. *)
Definition cur_auth (a : auth_option) : option auth_data := i ← auth a; auth_list a !! i.

Definition auth_send_conf_req : M (list Z) :=
  a ← lcp_get lcp_auth;
  if bool_decide (auth_list a = []) || conf_noauth conf then mret []
  else
    let pick :=
      match cur_auth a with
      | None => true
      | Some d => ad_state d =? LCP_OPT_NAK
      end in
    when pick
      (match find_auth (auth_list a) with
       | Some i => lcp_upd (fun l => l <| lcp_auth ::= fun a => a <| auth := Some i |> |>)
       | None => skip
       end) ;;
    a ← lcp_get lcp_auth;
    match cur_auth a with
    | Some d =>
        mret ([CI_AUTH; u8 (4 + Z.of_nat (length (ah_conf (ad_h d))))] ++
              be16 (ad_proto d) ++ ah_conf (ad_h d))
    | None => set_fault ;; mret []       (* auth_opt->auth->proto with auth NULL *)
    end.

(** [h->send_conf_req(lcp, lopt, ptr)]: the bytes written; [None] is a negative result. *)
Definition opt_send_conf_req (o : lcp_option_t) : M (option (list Z)) :=
  match opt_obj o with
  | Mru m _ naked rejected =>
      if naked || rejected then mret (Some []) else mret (Some ([CI_MRU; 4] ++ be16 m))
  | Magic m => if m =? 0 then mret (Some []) else mret (Some ([CI_MAGIC; 6] ++ be32 m))
  | Accomp a => mret (Some (if negb (Z.land a 1 =? 0) then [CI_ACCOMP; 2] else []))
  | Pcomp a => mret (Some (if negb (Z.land a 1 =? 0) then [CI_PCOMP; 2] else []))
  | Auth => b ← auth_send_conf_req; mret (Some b)
  end.

(** [h->send_conf_nak(lcp, lopt, ptr)]; [None] is a NULL slot of the table. *)
Definition opt_send_conf_nak (o : lcp_option_t) : option (M (list Z)) :=
  match opt_obj o with
  | Mru _ t _ _ => Some (mret ([CI_MRU; 4] ++ be16 t))
  | Magic m => Some (n ← nzmagic m; mret ([CI_MAGIC; 6] ++ be32 n))
  | Auth => Some auth_send_conf_req
  | Accomp _ | Pcomp _ => None
  end.

(** [h->recv_conf_req(lcp, lopt, ptr)] on the option at [buf + off]. *)
Definition mru_recv_conf_req (m t : Z) (naked rejected : bool) (off : nat) : M (Z * opt_data) :=
  len ← rd8 (off + 1);
  if negb (len =? 4) then mret (LCP_OPT_REJ, Mru m t naked rejected)
  else
    val ← rd16 (off + 2);
    cm ← gets (max_mtu env);
    if (val <? conf_min_mtu conf) || (cm <? val) || (conf_max_mtu conf <? val)
    then mret (LCP_OPT_NAK, Mru m t naked rejected)
    else
      io_upd (fun io => io <| mtu := val |>) ;;
      mret (LCP_OPT_ACK, Mru m val naked rejected).

Definition magic_recv_conf_req (m : Z) (off : nat) : M (Z * opt_data) :=
  len ← rd8 (off + 1);
  if negb (len =? 6) then mret (LCP_OPT_REJ, Magic m)
  else
    val ← rd32 (off + 2);
    if negb (m =? 0) && (u32 m =? val) then mret (LCP_OPT_NAK, Magic m)
    else mret (LCP_OPT_ACK, Magic m).

(** [accomp_recv_conf_req] and [pcomp_recv_conf_req]. *)
Definition comp_recv_conf_req (a : Z) (off : nat) : M Z :=
  len ← rd8 (off + 1);
  mret (if negb (len =? 2) then LCP_OPT_REJ
        else if negb (Z.land a 2 =? 0) then LCP_OPT_ACK else LCP_OPT_REJ).

Definition opt_recv_conf_req (o : lcp_option_t) (off : nat) : M (Z * opt_data) :=
  match opt_obj o with
  | Mru m t naked rejected => mru_recv_conf_req m t naked rejected off
  | Magic m => magic_recv_conf_req m off
  | Accomp a => r ← comp_recv_conf_req a off; mret (r, Accomp a)
  | Pcomp a => r ← comp_recv_conf_req a off; mret (r, Pcomp a)
  | Auth => mret (LCP_OPT_REJ, Auth)
  end.

(** [auth_recv_conf_nak] and [auth_recv_conf_rej], which have the same body. *)
Definition auth_recv_conf_nak : M Z :=
  a ← lcp_get lcp_auth;
  match auth a with
  | None => mret (-1)
  | Some i =>
      let l := alter (fun d => d <| ad_state := LCP_OPT_NAK |>) i (auth_list a) in
      lcp_upd (fun lcp => lcp <| lcp_auth ::= fun a => a <| auth_list := l |> |>) ;;
      mret (if existsb (fun d => negb (ad_state d =? LCP_OPT_NAK)) l then 0 else -1)
  end.
Definition auth_recv_conf_rej : M Z :=
  a ← lcp_get lcp_auth;
  match auth a with
  | None => mret (-1)
  | Some i =>
      let l := alter (fun d => d <| ad_state := LCP_OPT_NAK |>) i (auth_list a) in
      lcp_upd (fun lcp => lcp <| lcp_auth ::= fun a => a <| auth_list := l |> |>) ;;
      mret (if existsb (fun d => negb (ad_state d =? LCP_OPT_NAK)) l then 0 else -1)
  end.

(** [h->recv_conf_rej(lcp, lopt, ptr)]; every option has the slot. *)
Definition opt_recv_conf_rej (o : lcp_option_t) : M (Z * opt_data) :=
  match opt_obj o with
  | Mru m t naked _ => mret (0, Mru m t naked true)
  | Magic _ => lcp_upd (fun l => l <| lcp_magic := 0 |>) ;; mret (0, Magic 0)
  | Accomp a => mret (0, Accomp (Z.land a (Z.lnot 1)))
  | Pcomp a => mret (0, Pcomp (Z.land a (Z.lnot 1)))
  | Auth => r ← auth_recv_conf_rej; mret (r, Auth)
  end.

Definition magic_recv_conf_nak (m : Z) (off : nat) : M (Z * opt_data) :=
  len ← rd8 (off + 1);
  if negb (len =? 6) then mret (-1, Magic m)
  else
    val ← rd32 (off + 2);
    if negb (m =? 0) && (u32 m =? val) then mret (-1, Magic m)
    else
      m' ← (if val =? 0 then nzmagic m else mret (s32 val));
      lcp_upd (fun l => l <| lcp_magic := m' |>) ;;
      mret (0, Magic m').

(** [accomp_recv_conf_nak] and [pcomp_recv_conf_nak]: treated as a reject. *)
Definition comp_recv_conf_nak (a : Z) (off : nat) : M (Z * Z) :=
  len ← rd8 (off + 1);
  mret (if negb (len =? 2) then (-1, a) else (0, Z.land a (Z.lnot 1))).

(** [h->recv_conf_nak(lcp, lopt, ptr)]; every option has the slot. *)
Definition opt_recv_conf_nak (o : lcp_option_t) (off : nat) : M (Z * opt_data) :=
  match opt_obj o with
  | Mru m t _ rejected => mret (0, Mru m t true rejected)
  | Magic m => magic_recv_conf_nak m off
  | Accomp a => x ← comp_recv_conf_nak a off; mret (x.1, Accomp x.2)
  | Pcomp a => x ← comp_recv_conf_nak a off; mret (x.1, Pcomp x.2)
  | Auth => r ← auth_recv_conf_nak; mret (r, Auth)
  end.

(** The flag update of [accomp_recv_conf_ack] and [pcomp_recv_conf_ack]. *)
Definition set_comp_flag (flag : Z) (on : bool) : M Z :=
  f ← get_flags env;
  match f with
  | None => mret (-1)
  | Some flags =>
      let flags := Z.land flags (Z.lnot flag) in
      let flags := if on then Z.lor flags flag else flags in
      ok ← set_flags env flags;
      mret (if ok : bool then 0 else -1)
  end.

(** [h->recv_conf_ack(lcp, lopt, ptr)]; [None] is a NULL slot. *)
Definition opt_recv_conf_ack (o : lcp_option_t) : option (M Z) :=
  match opt_obj o with
  | Mru m _ _ _ => Some (io_upd (fun io => io <| mru := m |>) ;; mret 0)
  | Magic _ => None
  | Accomp a => Some (set_comp_flag SC_COMP_AC (negb (Z.land a 1 =? 0)))
  | Pcomp a => Some (set_comp_flag SC_COMP_PROT (negb (Z.land a 1 =? 0)))
  | Auth => Some (mret 0)
  end.

(** ** Packets *)

(** [struct lcp_hdr_t] followed by [data], the length field set as the code sets it. *)
Definition lcp_packet (code id_ : Z) (data : list Z) : list Z :=
  be16 PPP_LCP ++ [code; id_] ++ be16 (Z.of_nat (length data) + 4) ++ data.
Definition HDR : nat := 6.       (* sizeof(struct lcp_hdr_t) *)

(** The packet was built in a block of [cap] bytes. *)
Definition built_in (cap : Z) (pkt : list Z) : M unit :=
  when (cap <? Z.of_nat (length pkt)) set_fault.

Definition stop_echo : M unit :=
  b ← lcp_get echo_tpd;
  when b (lcp_upd (fun l => l <| echo_tpd := false |>)).

Definition start_echo : M unit :=
  lcp_upd (fun l => l <| echo_period := s32 (conf_echo_interval conf * 1000) |>) ;;
  p ← lcp_get echo_period;
  b ← lcp_get echo_tpd;
  when (negb (p =? 0) && negb b) (lcp_upd (fun l => l <| echo_tpd := true |>)).

Definition lcp_layer_up : M unit :=
  b ← lcp_get started;
  when (negb b) (lcp_upd (fun l => l <| started := true |>) ;; layer_started_ env) ;;
  start_echo.

Definition lcp_layer_down : M unit := skip.

Definition lcp_layer_finished : M unit :=
  stop_echo ;;
  b ← lcp_get started;
  if b : bool then
    lcp_upd (fun l => l <| started := false |>) ;;
    t ← gets (terminating env);
    if t : bool then layer_finished_ env else ses_terminate env TERM_NAS_ERROR 0
  else ses_terminate env TERM_NAS_ERROR 0.

(** The option loop of [send_conf_req]; [None] when an option gives up. *)
Fixpoint gather_req (l : list lcp_option_t) : M (option (list Z)) :=
  match l with
  | [] => mret (Some [])
  | o :: l =>
      b ← opt_send_conf_req o;
      match b with
      | None => mret None
      | Some b => r ← gather_req l; mret (r' ← r; Some (b ++ r'))
      end
  end.

Definition send_conf_req : M Z :=
  cap ← lcp_get conf_req_len;
  i ← fsm_get id;
  os ← lcp_get options;
  r ← gather_req os;
  match r with
  | None => mret (-1)
  | Some data =>
      let pkt := lcp_packet CONFREQ i data in
      built_in cap pkt ;; ppp_chan_send pkt ;; mret 0
  end.

(** [hdr->code = code; ppp_chan_send(ppp, hdr, ntohs(hdr->len) + 2);] *)
Definition resend_buf (code : Z) : M unit :=
  wr_bytes 2 [code] ;;
  len ← rd16 4;
  ppp_chan_send_buf (len + 2).

Definition send_conf_ack : M unit := resend_buf CONFACK.
Definition send_code_rej : M unit := resend_buf CODEREJ.

Fixpoint gather_nak (l : list lcp_option_t) : M (list Z) :=
  match l with
  | [] => mret []
  | o :: l =>
      b ← (if opt_state o =? LCP_OPT_NAK then
             match opt_send_conf_nak o with
             | Some f => f
             | None => set_fault ;; mret []
             end
           else mret []);
      r ← gather_nak l;
      mret (b ++ r)
  end.

Definition send_conf_nak : M unit :=
  cap ← lcp_get conf_req_len;
  i ← fsm_get recv_id;
  os ← lcp_get options;
  data ← gather_nak os;
  let pkt := lcp_packet CONFNAK i data in
  built_in cap pkt ;; ppp_chan_send pkt.

Fixpoint gather_rej (l : list recv_opt_t) : M (list Z) :=
  match l with
  | [] => mret []
  | ro :: l =>
      b ← (if ropt_state ro =? LCP_OPT_REJ then rd_bytes (ropt_hdr ro) (Z.to_nat (ropt_olen ro))
           else mret []);
      r ← gather_rej l;
      mret (b ++ r)
  end.

Definition send_conf_rej : M unit :=
  n ← lcp_get ropt_len;
  i ← fsm_get recv_id;
  rs ← lcp_get ropt_list;
  data ← gather_rej rs;
  let pkt := lcp_packet CONFREJ i data in
  built_in (n + Z.of_nat HDR) pkt ;; ppp_chan_send pkt.

Definition send_term_req : M unit :=
  fsm_upd (fun f => f <| id ::= fun n => u8 (n + 1) |>) ;;
  i ← fsm_get id;
  ppp_chan_send (lcp_packet TERMREQ i []).

Definition send_term_ack : M unit :=
  i ← fsm_get recv_id;
  ppp_chan_send (lcp_packet TERMACK i []).

Definition lcp_send_proto_rej (proto : Z) : M unit :=
  b ← gets (lcp_present env);
  if b : bool then
    fsm_upd (fun f => f <| id ::= fun n => u8 (n + 1) |>) ;;
    i ← fsm_get id;
    ppp_chan_send (lcp_packet PROTOREJ i (be16 proto))
  else skip.

(** The callbacks [lcp_layer_init] installs. *)
Definition lcp_ops : fsm_ops S :=
  mk_ops S (Some lcp_layer_up) (Some lcp_layer_down) None (Some lcp_layer_finished)
    (Some send_conf_req) (Some send_conf_ack) (Some send_conf_nak) (Some send_conf_rej)
    (Some send_code_rej) send_term_req send_term_ack.

(** ** Receiving options

    [fuel] bounds the number of options; each takes at least one byte, so [Z.to_nat size]
    is enough. *)
Fixpoint scan_ropts (fuel : nat) (off : nat) (size : Z) : M (list recv_opt_t) :=
  if size <=? 0 then mret []
  else
    match fuel with
    | O => mret []
    | Datatypes.S fuel =>
        len ← rd8 (off + 1);
        if (len =? 0) || (size <? len) then mret []
        else
          r ← scan_ropts fuel (off + Z.to_nat len) (size - len);
          mret (mk_ropt off len LCP_OPT_NONE false :: r)
    end.

(** The option with the id at [buf + off], and its position. *)
Definition find_option (off : nat) : M (option (nat * lcp_option_t)) :=
  i ← rd8 off;
  os ← lcp_get options;
  mret (list_find (fun o => opt_id o = i) os).

Definition set_option (n : nat) (o : lcp_option_t) : M unit :=
  lcp_upd (fun l => l <| options ::= fun os => <[n := o]> os |>).

(** The body of the answering loop: the new state of the received option and the result. *)
Definition answer_ropt (ro : recv_opt_t) (ret : Z) : M (recv_opt_t * Z) :=
  f ← find_option (ropt_hdr ro);
  match f with
  | Some (n, o) =>
      x ← opt_recv_conf_req o (ropt_hdr ro);
      let r := x.1 in
      set_option n (mk_opt (opt_id o) (opt_len o) r x.2) ;;
      mret (mk_ropt (ropt_hdr ro) (ropt_olen ro) r true, if r <? ret then r else ret)
  | None =>
      if ropt_known ro then mret (ro, ret)
      else mret (mk_ropt (ropt_hdr ro) (ropt_olen ro) LCP_OPT_REJ false, LCP_OPT_REJ)
  end.

Fixpoint answer_ropts (l : list recv_opt_t) (ret : Z) : M (list recv_opt_t * Z) :=
  match l with
  | [] => mret ([], ret)
  | ro :: l =>
      x ← answer_ropt ro ret;
      y ← answer_ropts l x.2;
      mret (x.1 :: y.1, y.2)
  end.

Definition lcp_recv_conf_req (off : nat) (size : Z) : M Z :=
  lcp_upd (fun l => l <| ropt_len := size |>) ;;
  new ← scan_ropts (Z.to_nat size) off size;
  old ← lcp_get ropt_list;
  lcp_upd (fun l => l <| options ::= map (fun o => o <| opt_state := LCP_OPT_NONE |>) |>) ;;
  x ← answer_ropts (old ++ new) LCP_OPT_ACK;
  lcp_upd (fun l => l <| ropt_list := x.1 |>) ;;
  mret x.2.

Definition lcp_free_conf_req : M unit := lcp_upd (fun l => l <| ropt_list := [] |>).

(** The walk shared by [lcp_recv_conf_rej], [lcp_recv_conf_nak] and [lcp_recv_conf_ack]:
    [f n o off] handles a known option. *)
Fixpoint walk_opts (f : nat -> lcp_option_t -> nat -> M Z) (fuel off : nat) (size res : Z) : M Z :=
  if size <=? 0 then mret res
  else
    match fuel with
    | O => mret res
    | Datatypes.S fuel =>
        len ← rd8 (off + 1);
        if (len =? 0) || (size <? len) then mret res
        else
          x ← find_option off;
          r ← (match x with
               | Some (n, o) => f n o off
               | None => mret 0
               end);
          walk_opts f fuel (off + Z.to_nat len) (size - len) (if r =? 0 then res else -1)
    end.

(** [if (lcp->fsm.recv_id != lcp->fsm.id) return 0;] *)
Definition if_current_id (m : M Z) : M Z :=
  a ← fsm_get recv_id;
  b ← fsm_get id;
  if negb (a =? b) then mret 0 else m.

Definition lcp_recv_conf_rej (off : nat) (size : Z) : M Z :=
  if_current_id (walk_opts (fun n o _ =>
    x ← opt_recv_conf_rej o;
    set_option n (o <| opt_obj := x.2 |>) ;; mret x.1) (Z.to_nat size) off size 0).

Definition lcp_recv_conf_nak (off : nat) (size : Z) : M Z :=
  if_current_id (walk_opts (fun n o off =>
    x ← opt_recv_conf_nak o off;
    set_option n (o <| opt_obj := x.2 |>) ;; mret x.1) (Z.to_nat size) off size 0).

Definition lcp_recv_conf_ack (off : nat) (size : Z) : M Z :=
  if_current_id (walk_opts (fun n o _ =>
    match opt_recv_conf_ack o with
    | None => mret 0
    | Some f => f
    end) (Z.to_nat size) off size 0).

(** ** Echo *)

Definition note_echo : M unit :=
  now ← gets (time env);
  lcp_upd (fun l => l <| echo_sent := 0 |> <| last_echo_ts := now |>).

Definition lcp_recv_echo_repl (off : nat) (size : Z) : M unit :=
  (if negb (size =? 4) then skip
   else
     magic ← rd32 off;
     m ← lcp_get lcp_magic;
     when (negb (m =? 0) && (magic =? u32 m)) (ses_terminate env TERM_NAS_ERROR 0)) ;;
  note_echo.

Definition send_echo_reply : M unit :=
  note_echo ;;
  wr_bytes 2 [ECHOREP] ;;
  m ← lcp_get lcp_magic;
  wr_bytes HDR (be32 m) ;;
  len ← rd16 4;
  t ← io_get mtu;
  ppp_chan_send_buf ((if len <? t then len else t) + 2).

Definition send_echo_request : M unit :=
  let send :=
    n ← lcp_get echo_sent;
    if conf_echo_failure conf <? n then ses_terminate env TERM_LOST_CARRIER 1
    else
      i ← fsm_get id;
      fsm_upd (fun f => f <| id := u8 (i + 1) |>) ;;
      m ← lcp_get lcp_magic;
      lcp_upd (fun l => l <| echo_sent ::= fun n => s32 (n + 1) |>) ;;
      ppp_chan_send (lcp_packet ECHOREQ i (be32 m)) in
  if negb (conf_echo_timeout conf =? 0) then
    rx ← read_stats env;
    last ← lcp_get last_ipackets;
    if negb (last =? rx) then
      now ← gets (time env);
      lcp_upd (fun l => l <| last_ipackets := rx |> <| last_echo_ts := now |> <| echo_sent := 0 |>)
    else
      now ← gets (time env);
      ts ← lcp_get last_echo_ts;
      if now - ts <? conf_echo_timeout conf then skip else send
  else send.

(** ** The protocol handler *)

Definition is_conf_reply (code : Z) : bool :=
  (code =? CONFACK) || (code =? CONFNAK) || (code =? CONFREJ).

Definition recv_confreq (size : Z) : M unit :=
  r ← lcp_recv_conf_req HDR size;
  up ← lcp_get started;
  if up && (r =? LCP_OPT_ACK) then send_conf_ack ;; lcp_free_conf_req
  else
    let r := if up : bool then LCP_OPT_FAIL else r in
    (if r =? LCP_OPT_ACK then ppp_fsm_recv_conf_req_ack lcp_ops
     else if r =? LCP_OPT_NAK then ppp_fsm_recv_conf_req_nak lcp_ops
     else if r =? LCP_OPT_REJ then ppp_fsm_recv_conf_req_rej lcp_ops
     else skip) ;;
    lcp_free_conf_req ;;
    when (r =? LCP_OPT_FAIL) (ses_terminate env TERM_USER_ERROR 0).

(** [if (lcp->fsm.recv_id != lcp->fsm.id) break; m] *)
Definition unless_stale (m : M unit) : M unit :=
  a ← fsm_get recv_id;
  b ← fsm_get id;
  if negb (a =? b) then skip else m.

Definition recv_dispatch (code size : Z) : M unit :=
  if code =? CONFREQ then recv_confreq size
  else if code =? CONFACK then
    r ← lcp_recv_conf_ack HDR size;
    if negb (r =? 0) then ses_terminate env TERM_USER_ERROR 0
    else unless_stale (ppp_fsm_recv_conf_ack lcp_ops)
  else if code =? CONFNAK then
    lcp_recv_conf_nak HDR size ;;
    unless_stale (ppp_fsm_recv_conf_rej lcp_ops)
  else if code =? CONFREJ then
    r ← lcp_recv_conf_rej HDR size;
    if negb (r =? 0) then ses_terminate env TERM_USER_ERROR 0
    else unless_stale (ppp_fsm_recv_conf_rej lcp_ops)
  else if code =? TERMREQ then
    ppp_fsm_recv_term_req lcp_ops ;; ses_terminate env TERM_USER_REQUEST 0
  else if code =? TERMACK then ppp_fsm_recv_term_ack lcp_ops
  else if code =? CODEREJ then ppp_fsm_recv_code_rej_bad lcp_ops
  else if code =? ECHOREQ then send_echo_reply
  else if code =? ECHOREP then lcp_recv_echo_repl HDR size
  else if code =? PROTOREJ then p ← rd16 HDR; proto_rej env p
  else if (code =? DISCARDREQ) || (code =? IDENT) then skip
  else ppp_fsm_recv_unk lcp_ops.

Definition lcp_recv : M unit :=
  n ← io_get buf_size;
  if n <? PPP_HEADERLEN + 2 then skip
  else
    len ← rd16 4;
    if len <? PPP_HEADERLEN then skip
    else
      code ← rd8 2;
      hid ← rd8 3;
      cur ← fsm_get id;
      up ← lcp_get started;
      q ← fsm_get fsm_state;
      t ← gets (terminating env);
      if is_conf_reply code && negb (hid =? cur) then skip
      else if is_conf_reply code && up then skip
      else if bool_decide (q = FSM_Initial) || bool_decide (q = FSM_Closed) ||
              (t && (negb (code =? TERMACK) && negb (code =? TERMREQ))) then skip
      else
        fsm_upd (fun f => f <| recv_id := hid |>) ;;
        recv_dispatch code (len - PPP_HDRLEN).

(** ** The layer *)

Fixpoint options_init (ks : list opt_kind) : M unit :=
  match ks with
  | [] => skip
  | k :: ks =>
      o ← opt_init k;
      lcp_upd (fun l => l <| options ::= fun os => os ++ [o] |>
                          <| conf_req_len ::= fun n => n + opt_len o |>) ;;
      options_init ks
  end.

Definition lcp_options_init : M unit :=
  lcp_upd (fun l => l <| options := [] |> <| conf_req_len := Z.of_nat HDR |>) ;;
  options_init (option_handlers conf).

(** [auth_free]; the other options only free memory. *)
Definition auth_free : M unit :=
  a ← lcp_get lcp_auth;
  (match cur_auth a with
   | Some d => when (auth_started a)
       (auth_finish env d ;; lcp_upd (fun l => l <| lcp_auth ::= fun a => a <| auth_started := false |> |>))
   | None => skip
   end) ;;
  iter_st (auth_list a) (fun d => when (ah_register (ad_h d)) (ppp_unregister_handler (ad_proto d))) ;;
  lcp_upd (fun l => l <| lcp_auth ::= fun a => a <| auth_list := [] |> |>).

Definition lcp_options_free : M unit :=
  os ← lcp_get options;
  iter_st os (fun o =>
    lcp_upd (fun l => l <| options ::= tail |>) ;;
    match opt_obj o with Auth => auth_free | _ => skip end).

Definition empty_fsm : ppp_fsm_t := mk_fsm FSM_Initial false 0 0 0 0 0 0 0 0.

(** [memset] of the structure; [lcp_auth] belongs to the authentication layer. *)
Definition lcp_layer_init : M unit :=
  lcp_upd (fun l => mk_lcp empty_fsm [] (lcp_auth l) false 0 0 0 0 0 [] 0 0 false) ;;
  ppp_register_chan_handler PPP_LCP ;;
  r ← random env;
  ppp_fsm_init (conf_fsm conf) r.

Definition lcp_layer_start : M Z :=
  lcp_options_init ;;
  ppp_fsm_lower_up lcp_ops ;;
  r ← ppp_fsm_open lcp_ops;
  mret (if r =? 0 then 0 else -1).

Definition lcp_layer_finish : M unit :=
  b ← lcp_get started;
  if b : bool then stop_echo ;; ppp_fsm_close lcp_ops else defer_finished env.

Definition lcp_layer_free : M unit :=
  stop_echo ;;
  ppp_unregister_handler PPP_LCP ;;
  lcp_options_free ;;
  ppp_fsm_free ;;
  cancel_finished env.

End Code.

(** ** Configuration *)

(** [get sect name] is [conf_get_opt]. *)
Definition atoi_opt (o : option string) (dflt : Z) : Z :=
  match o with Some v => atoi v | None => dflt end.

(** [load_config] of [lcp_opt_mru.c]: the variables [conf_mtu], [conf_mru], [conf_min_mtu],
    [conf_max_mtu]. *)
Definition mru_load_config (get : string -> option string) (c : lcp_conf) : lcp_conf :=
  let c := c <| conf_mtu ::= positive_opt (get "mtu") |>
             <| conf_mru ::= positive_opt (get "mru") |>
             <| conf_min_mtu ::= positive_opt (get "min-mtu") |>
             <| conf_max_mtu ::= positive_opt (get "max-mtu") |> in
  if negb (conf_mru c =? 0) && (conf_mru c <? conf_min_mtu c)
  then c <| conf_min_mtu := conf_mru c |> else c.

(** [load_config] of [lcp_opt_accomp.c] and [lcp_opt_pcomp.c]. *)
Definition comp_opt (o : option string) (old : Z) : Z :=
  match o with
  | None => old
  | Some v => if String.eqb v "deny" then 0
              else if String.eqb v "allow" then Z.lor 1 2 else atoi v
  end.

(** [load_config] of [ppp_lcp.c] with those of the options and of [ppp_auth.c]. *)
Definition lcp_load_config (get : string -> option string) (c : lcp_conf) : lcp_conf :=
  c <| conf_echo_interval := atoi_opt (get "lcp-echo-interval") 0 |>
    <| conf_echo_failure := atoi_opt (get "lcp-echo-failure") 0 |>
    <| conf_echo_timeout := atoi_opt (get "lcp-echo-timeout") 0 |>.
Definition accomp_load_config (get : string -> option string) (c : lcp_conf) : lcp_conf :=
  c <| conf_accomp ::= comp_opt (get "accomp") |>.
Definition pcomp_load_config (get : string -> option string) (c : lcp_conf) : lcp_conf :=
  c <| conf_pcomp ::= comp_opt (get "pcomp") |>.
Definition auth_load_config (get : string -> option string) (c : lcp_conf) : lcp_conf :=
  c <| conf_noauth := negb (atoi_opt (get "noauth") 0 =? 0) |>.

End Lcp.
