(* ===== verification/LcpProps.v ===== *)
(** Correctness of the LCP code of [Lcp.v]: memory safety of packet processing, the wire
    format of what it sends, the MTU it negotiates, and dead-peer detection. *)

From stdpp Require Import base tactics list numbers option.
From Stdlib Require Import ZArith Lia.
From S2P Require Import Prelude Fsm PppChan Lcp.

Open Scope Z_scope.

(** * Any invariant that the callbacks keep, the automaton keeps *)
Module FsmKeeps.
Import Fsm.

Section Keeps.
Context {S : Type} `{!FsmHost S}.
Variable P : S -> Prop.
Variable ops : fsm_ops S.

(** [P] does not read the automaton. *)
Hypothesis P_upd : forall f, keeps P (fsm_upd f).
Hypothesis P_up : forall m, layer_up ops = Some m -> keeps P m.
Hypothesis P_down : forall m, layer_down ops = Some m -> keeps P m.
Hypothesis P_started : forall m, layer_started ops = Some m -> keeps P m.
Hypothesis P_finished : forall m, layer_finished ops = Some m -> keeps P m.
Hypothesis P_req : forall m, send_conf_req ops = Some m -> keeps P m.
Hypothesis P_ack : forall m, send_conf_ack ops = Some m -> keeps P m.
Hypothesis P_nak : forall m, send_conf_nak ops = Some m -> keeps P m.
Hypothesis P_rej : forall m, send_conf_rej ops = Some m -> keeps P m.
Hypothesis P_code : forall m, send_code_rej ops = Some m -> keeps P m.
Hypothesis P_treq : keeps P (send_term_req ops).
Hypothesis P_tack : keeps P (send_term_ack ops).

Lemma keeps_fsm_get {A} (p : ppp_fsm_t -> A) : keeps P (fsm_get p).
Proof. apply keeps_gets. Qed.

Lemma keeps_call_req : keeps P (call_send_conf_req ops).
Proof.
  unfold call_send_conf_req. destruct (send_conf_req ops) eqn:E; [|apply keeps_skip].
  apply keeps_bind; [by apply P_req|intros; apply keeps_skip].
Qed.
Lemma keeps_try_req k : keeps P k -> keeps P (try_send_conf_req ops k).
Proof.
  intros Hk. unfold try_send_conf_req. destruct (send_conf_req ops) eqn:E; [|done].
  apply keeps_bind; [by apply P_req|]. intros a. case_bool_decide; [apply keeps_ret|done].
Qed.

Ltac fsm_keeps :=
  repeat first
    [ apply keeps_bind; [|intros] | apply keeps_ret | apply keeps_skip | apply P_upd
    | apply keeps_fsm_get | apply keeps_when | apply keeps_call_req | apply keeps_try_req
    | apply P_treq | apply P_tack | apply keeps_call; intros; (by eauto)
    | match goal with |- keeps P (match ?x with _ => _ end) => destruct x end ].

Ltac fsm_unfold :=
  unfold set_state, dec_restart_counter, inc_conf_failure, init_req_counter, zero_req_counter,
    stop_timer, arm_timer in *.

Lemma keeps_stop_timer : keeps P stop_timer.
Proof. fsm_unfold. fsm_keeps. Qed.
Lemma keeps_lower_up : keeps P (ppp_fsm_lower_up ops).
Proof. unfold ppp_fsm_lower_up. fsm_unfold. fsm_keeps. Qed.
Lemma keeps_lower_down : keeps P (ppp_fsm_lower_down ops).
Proof. unfold ppp_fsm_lower_down. fsm_unfold. fsm_keeps. Qed.
Lemma keeps_open : keeps P (ppp_fsm_open ops).
Proof.
  unfold ppp_fsm_open. fsm_unfold. fsm_keeps; first [apply keeps_lower_up|apply keeps_lower_down].
Qed.

(** Every entry point. *)
Lemma keeps_handle e : keeps P (handle ops e).
Proof.
  destruct e; unfold handle, ppp_fsm_close, restart_timer_func,
    ppp_fsm_timeout0, ppp_fsm_timeout1, ppp_fsm_recv_conf_req_ack, ppp_fsm_recv_conf_req_nak,
    ppp_fsm_recv_conf_req_rej, ppp_fsm_recv_conf_ack, ppp_fsm_recv_conf_rej, ppp_fsm_recv_term_req,
    ppp_fsm_recv_term_ack, ppp_fsm_recv_unk, ppp_fsm_recv_code_rej_perm, ppp_fsm_recv_code_rej_bad;
    fsm_unfold; cbv zeta; fsm_keeps;
    first [apply keeps_lower_up|apply keeps_lower_down|apply keeps_open].
Qed.
End Keeps.
End FsmKeeps.

(** * Memory safety *)
Module LcpSafe.
Import Fsm PppChan Lcp FsmKeeps.

Definition sum_len (os : list lcp_option_t) : Z := foldr (fun o n => opt_len o + n) 0 os.

(** The current authentication protocol, when it is needed, exists. *)
Definition auth_ok (a : auth_option) : Prop :=
  match auth a with
  | None => Forall (fun d => ad_state d <> LCP_OPT_NAK /\ ad_state d <> LCP_OPT_REJ) (auth_list a)
  | Some i => auth_list a = [] \/ (i < length (auth_list a))%nat
  end.

(** What an option writes fits the length it announced, and an option that can be answered
    with a Nak has the table slot for it. *)
Definition opt_ok (hs : list auth_handler) (o : lcp_option_t) : Prop :=
  match opt_obj o with
  | Mru _ _ _ _ => 4 <= opt_len o
  | Magic _ => 6 <= opt_len o
  | Accomp _ | Pcomp _ => 2 <= opt_len o /\ opt_state o <> LCP_OPT_NAK
  | Auth => 4 <= opt_len o /\ Forall (fun h => 4 + Z.of_nat (length (ah_conf h)) <= opt_len o) hs
  end.

Definition lcp_inv (l : ppp_lcp_t) : Prop :=
  auth_ok (lcp_auth l) /\
  Forall (opt_ok (map ad_h (auth_list (lcp_auth l)))) (options l) /\
  Z.of_nat HDR + sum_len (options l) <= conf_req_len l.

Definition ropts_ok (N : nat) (rs : list recv_opt_t) (n : Z) : Prop :=
  Forall (fun r => 0 <= ropt_olen r /\ Z.of_nat (ropt_hdr r) + ropt_olen r <= Z.of_nat N) rs /\
  foldr (fun r n => ropt_olen r + n) 0 rs <= n.

Section Gets.
Context {S : Type} `{!LcpHost S}.
Lemma exec_lcp_get {A} (p : ppp_lcp_t -> A) (s : S) : exec (lcp_get p) s = s.
Proof. done. Qed.
Lemma val_lcp_get {A} (p : ppp_lcp_t -> A) (s : S) : val (lcp_get p) s = p (get_lcp s).
Proof. done. Qed.
Lemma exec_fsm_get {A} (p : ppp_fsm_t -> A) (s : S) : exec (fsm_get p) s = s.
Proof. done. Qed.
Lemma val_fsm_get {A} (p : ppp_fsm_t -> A) (s : S) : val (fsm_get p) s = p (fsm (get_lcp s)).
Proof. done. Qed.
End Gets.
Ltac get_step :=
  repeat (progress
    rewrite ?exec_bind, ?val_bind, ?exec_lcp_get, ?val_lcp_get, ?exec_fsm_get, ?val_fsm_get).

Section Safe.
Context {S : Type} `{!LcpHost S}.
(** The options of the request being answered. *)
Variable R : list recv_opt_t.

#[local] Arguments Nat.ltb : simpl never.
#[local] Arguments Nat.leb : simpl never.

(** The state of a session that is processing a packet in the block [b]. *)
Definition inv (b : block) (s : S) : Prop :=
  fault (get_io s) = false /\ buf (get_io s) = Some b /\ lcp_inv (get_lcp s) /\
  ropt_list (get_lcp s) = R /\ ropts_ok (length b) R (ropt_len (get_lcp s)).
Definition safe (s : S) : Prop :=
  exists b, (Z.to_nat 1498 <= length b)%nat /\ Forall is_u8 b /\ inv b s.

Lemma inv_io b s x :
  fault x = fault (get_io s) -> buf x = buf (get_io s) -> inv b s -> inv b (put_io x s).
Proof. intros Hf Hb (H1 & H2 & H3). unfold inv. rewrite get_put_io, get_lcp_put_io, Hf, Hb. done. Qed.

Lemma inv_lcp b s l :
  lcp_inv l -> ropt_list l = R -> ropts_ok (length b) R (ropt_len l) -> inv b s ->
  inv b (put_lcp l s).
Proof. intros Hl Hr Hn (H1 & H2 & H3). unfold inv. rewrite get_put_lcp, get_io_put_lcp. done. Qed.

(** ** Reading the buffer *)

Lemma rd8_ok b off :
  (off < length b)%nat -> triple (inv b) (rd8 off) (fun v s => inv b s /\ v = byte_at b off).
Proof.
  intros Ho s Hs. pose proof Hs as (_ & Hb & _). unfold rd8, val, exec, mbind, st_bind. cbn.
  unfold the_buf. rewrite Hb. cbn. rewrite (proj2 (Nat.leb_gt _ _)) by lia. done.
Qed.

Lemma rd16_ok b off :
  (off + 1 < length b)%nat -> triple (inv b) (rd16 off)
    (fun v s => inv b s /\ v = of_be16 (byte_at b off) (byte_at b (off + 1))).
Proof.
  intros Ho. unfold rd16. eapply triple_bind; [apply rd8_ok; lia|]. intros a s [Hs ->].
  revert s Hs. change (triple (inv b) (y ← rd8 (off + 1); mret (of_be16 (byte_at b off) y))
    (fun v s => inv b s /\ v = of_be16 (byte_at b off) (byte_at b (off + 1)))).
  eapply triple_bind; [apply rd8_ok; lia|]. intros y s [Hs ->]. done.
Qed.

Lemma rd32_keeps b off : (off + 3 < length b)%nat -> keeps (inv b) (rd32 off).
Proof.
  intros Ho. unfold rd32.
  repeat (apply keeps_bind; [eapply keeps_weaken; [apply rd8_ok; lia|by intros ?? []]|intros]).
  apply keeps_ret.
Qed.

Lemma rd_bytes_ok b off n :
  (off + n <= length b)%nat ->
  triple (inv b) (rd_bytes off n) (fun v s => inv b s /\ v = take n (drop off b)).
Proof.
  intros Ho s Hs. pose proof Hs as (_ & Hb & _). unfold rd_bytes, val, exec, mbind, st_bind. cbn.
  unfold the_buf. rewrite Hb. cbn. rewrite (proj2 (Nat.ltb_ge _ _)) by lia. done.
Qed.

Lemma overwrite_ok b off l :
  (off + length l <= length b)%nat -> Forall is_u8 b -> Forall is_u8 l ->
  length (overwrite b off l) = length b /\ Forall is_u8 (overwrite b off l).
Proof.
  intros Ho Hb Hl. unfold overwrite. rewrite !length_app, length_take, length_drop.
  split; [lia|]. apply Forall_app. split; [by apply Forall_take|].
  apply Forall_app. split; [done|by apply Forall_drop].
Qed.

Lemma wr_bytes_safe off l :
  (off + length l <= Z.to_nat 1498)%nat -> Forall is_u8 l -> keeps safe (wr_bytes off l).
Proof.
  intros Ho Hl s (b & Hlen & Hu & Hi). pose proof Hi as (Hf & Hb & Hinv & Hr).
  destruct (overwrite_ok b off l) as [Hol Hou]; [lia|done..|].
  exists (overwrite b off l). rewrite Hol. split; [done|]. split; [done|].
  unfold wr_bytes, exec, mbind, st_bind. cbn. unfold the_buf. rewrite Hb. cbn.
  rewrite (proj2 (Nat.ltb_ge _ _)) by lia. cbn. unfold inv. rewrite get_put_io, get_lcp_put_io, Hol. done.
Qed.

Lemma chan_send_keeps b data : keeps (inv b) (ppp_chan_send data).
Proof.
  intros s Hs. unfold ppp_chan_send. destruct (bad_size _); [done|]. by apply inv_io.
Qed.

Lemma safe_of_inv {A} (m : st S A) : (forall b, keeps (inv b) m) -> keeps safe m.
Proof. intros Hm s (b & Hl & Hu & Hs). exists b. split; [done|]. split; [done|]. by apply Hm. Qed.

Lemma chan_send_buf_safe n : keeps safe (ppp_chan_send_buf n).
Proof.
  unfold ppp_chan_send_buf. destruct (bad_size n) eqn:E; [apply keeps_skip|].
  apply orb_false_iff in E as [E0 E1]. apply Z.leb_gt in E0. apply Z.ltb_ge in E1.
  assert (Z.of_nat max_payload = 1498) as Hm by done. rewrite Hm in E1.
  intros s (b & Hl & Hu & Hs). exists b. split; [done|]. split; [done|]. revert s Hs.
  change (keeps (inv b) (data ← rd_bytes 0 (Z.to_nat n); ppp_chan_send data)).
  apply keeps_bind; [|intros; apply chan_send_keeps].
  eapply keeps_weaken; [apply rd_bytes_ok; lia|by intros ?? []].
Qed.

(** ** Updates the invariant does not see *)

Lemma lcp_upd_keeps b f :
  (forall l, lcp_auth (f l) = lcp_auth l /\ options (f l) = options l /\
     conf_req_len (f l) = conf_req_len l /\ ropt_list (f l) = ropt_list l /\
     ropt_len (f l) = ropt_len l) ->
  keeps (inv b) (lcp_upd f).
Proof.
  intros Hf s Hs. destruct (Hf (get_lcp s)) as (Ha & Ho & Hc & Hr & Hn).
  destruct Hs as (H1 & H2 & H3 & H4 & H5). apply inv_lcp; [..|done].
  - unfold lcp_inv. by rewrite Ha, Ho, Hc.
  - by rewrite Hr.
  - by rewrite Hn.
Qed.

Lemma fsm_upd_keeps b f : keeps (inv b) (fsm_upd f).
Proof.
  intros s (H1 & H2 & H3 & H4 & H5). apply inv_lcp; done.
Qed.

Lemma io_upd_keeps b f :
  (forall io, fault (f io) = fault io /\ buf (f io) = buf io) -> keeps (inv b) (io_upd f).
Proof. intros Hf s Hs. destruct (Hf (get_io s)). by apply inv_io. Qed.

Lemma built_in_keeps b cap pkt :
  Z.of_nat (length pkt) <= cap -> keeps (inv b) (built_in cap pkt).
Proof. intros H. unfold built_in. rewrite (proj2 (Z.ltb_ge _ _)) by done. apply keeps_skip. Qed.

Lemma lcp_packet_length code i data :
  Z.of_nat (length (lcp_packet code i data)) = Z.of_nat HDR + Z.of_nat (length data).
Proof. unfold lcp_packet, HDR. rewrite !length_app. cbn. lia. Qed.

(** ** Sending *)

(** The invariant with the parts the option loops rely on. *)
Definition inv_at (b : block) (hs : list auth_handler) (s : S) : Prop :=
  inv b s /\ map ad_h (auth_list (lcp_auth (get_lcp s))) = hs.

Lemma auth_pick_ok a i :
  auth_ok a -> find_auth (auth_list a) = Some i -> (i < length (auth_list a))%nat.
Proof.
  intros _. unfold find_auth. destruct (list_find _ _) as [[j d]|] eqn:E; [|done].
  intros [= ->]. apply list_find_Some in E as (E & _). by eapply lookup_lt_Some.
Qed.

Lemma find_auth_none l :
  Forall (fun d => ad_state d <> LCP_OPT_NAK /\ ad_state d <> LCP_OPT_REJ) l -> l <> [] ->
  find_auth l = Some 0%nat.
Proof.
  intros Hf Hl. destruct l as [|d l]; [done|]. inversion Hf as [|?? Hd]. subst.
  unfold find_auth. cbn. by rewrite decide_True.
Qed.

Lemma set_auth_keeps b hs i s :
  (i < length (auth_list (lcp_auth (get_lcp s))))%nat -> inv_at b hs s ->
  inv_at b hs (exec (lcp_upd (fun l => l <| lcp_auth ::= fun a => a <| auth := Some i |> |>)) s).
Proof.
  intros Hi [(H1 & H2 & (Ha & Ho & Hc) & H4) Hh].
  unfold inv_at, inv. change (exec (lcp_upd ?f) s) with (put_lcp (f (get_lcp s)) s).
  rewrite get_put_lcp, get_io_put_lcp. unfold lcp_inv.
  refine (conj (conj H1 (conj H2 (conj (conj _ (conj Ho Hc)) H4))) Hh). by right.
Qed.

Lemma auth_bytes (d : auth_data) :
  length ([CI_AUTH; u8 (4 + Z.of_nat (length (ah_conf (ad_h d))))] ++ be16 (ad_proto d) ++
          ah_conf (ad_h d)) = (4 + length (ah_conf (ad_h d)))%nat.
Proof. done. Qed.

Lemma auth_send_ok conf b hs n :
  Forall (fun h => 4 + Z.of_nat (length (ah_conf h)) <= n) hs -> 0 <= n ->
  triple (inv_at b hs) (auth_send_conf_req conf)
    (fun data s => inv_at b hs s /\ Z.of_nat (length data) <= n).
Proof.
  intros Hn H0 s Hs. unfold auth_send_conf_req. rewrite exec_bind, val_bind.
  change (exec (lcp_get _) s) with s. change (val (lcp_get ?p) s) with (p (get_lcp s)).
  set (a := lcp_auth (get_lcp s)).
  destruct (bool_decide _ || _) eqn:E; [done|].
  apply orb_false_iff in E as [E _]. apply bool_decide_eq_false in E.
  pose proof Hs as [(_ & _ & (Ha & _) & _) Hh]. fold a in Ha, Hh.
  set (m := when _ _). rewrite exec_bind, val_bind.
  assert (inv_at b hs (exec m s) /\ exists d, cur_auth (lcp_auth (get_lcp (exec m s))) = Some d /\
    In d (auth_list (lcp_auth (get_lcp (exec m s))))) as (Hs' & d & Hd & Hin).
  { assert (forall i, (i < length (auth_list a))%nat -> exists d, auth_list a !! i = Some d /\ In d (auth_list a)) as Hlk.
    { intros i Hi. destruct (lookup_lt_is_Some_2 _ _ Hi) as [d Hd]. exists d.
      split; [done|]. by apply list_elem_of_In, list_elem_of_lookup_2 with i. }
    assert (forall i, (i < length (auth_list a))%nat ->
      let s' := exec (lcp_upd (fun l => l <| lcp_auth ::= fun a => a <| auth := Some i |> |>)) s in
      inv_at b hs s' /\ exists d, cur_auth (lcp_auth (get_lcp s')) = Some d /\
        In d (auth_list (lcp_auth (get_lcp s')))) as Hset.
    { intros i Hi. cbv zeta. split; [by apply set_auth_keeps|].
      change (exec (lcp_upd ?f) s) with (put_lcp (f (get_lcp s)) s). rewrite get_put_lcp. by apply Hlk. }
    subst m. unfold auth_ok in Ha. destruct (auth a) as [i|] eqn:Ei.
    - destruct Ha as [Ha|Ha]; [done|]. destruct (Hlk i Ha) as (d & Hd & Hin).
      assert (cur_auth a = Some d) as Hc by (unfold cur_auth; by rewrite Ei).
      rewrite Hc. destruct (ad_state d =? LCP_OPT_NAK); cbn [when]; [|by eauto].
      destruct (find_auth (auth_list a)) as [j|] eqn:Ef; [|by eauto].
      apply Hset. apply auth_pick_ok; [|done]. unfold auth_ok. rewrite Ei. by right.
    - assert (cur_auth a = None) as -> by (unfold cur_auth; by rewrite Ei). cbn [when].
      rewrite find_auth_none by done. apply Hset. destruct (auth_list a); [done|cbn; lia]. }
  rewrite exec_bind, val_bind. change (exec (lcp_get _) ?x) with x.
  change (val (lcp_get ?p) ?x) with (p (get_lcp x)). rewrite Hd.
  split; [done|]. change (val (mret ?x) _) with x. rewrite auth_bytes.
  rewrite Forall_forall in Hn. destruct Hs' as [_ Hh']. specialize (Hn (ad_h d)).
  rewrite <- Hh' in Hn. specialize (Hn (in_map ad_h _ _ Hin)). lia.
Qed.

(** ** The environment

    The system calls leave the session's own structures alone; the session and layer code
    LCP calls keeps the invariant. *)
Definition frames {A} (m : st S A) : Prop :=
  forall s, get_lcp (exec m s) = get_lcp s /\ get_io (exec m s) = get_io s.

Definition env_safe_at (env : lcp_env S) : Prop :=
  (frames (random env) /\ frames (read_stats env) /\ frames (get_flags env) /\
   forall v, frames (set_flags env v)) /\
  ((forall c h, keeps safe (ses_terminate env c h)) /\ keeps safe (layer_started_ env) /\
   keeps safe (layer_finished_ env) /\ forall p, keeps safe (proto_rej env p)).

Lemma frames_keeps {A} (m : st S A) (P : S -> Prop) :
  (forall s s', get_lcp s' = get_lcp s -> get_io s' = get_io s -> P s -> P s') ->
  frames m -> keeps P m.
Proof. intros HP Hm s Hs. destruct (Hm s). by eapply HP. Qed.

Lemma inv_frame b s s' : get_lcp s' = get_lcp s -> get_io s' = get_io s -> inv b s -> inv b s'.
Proof. intros E1 E2. unfold inv. by rewrite E1, E2. Qed.
Lemma inv_at_frame b hs s s' :
  get_lcp s' = get_lcp s -> get_io s' = get_io s -> inv_at b hs s -> inv_at b hs s'.
Proof. intros E1 E2. unfold inv_at, inv. by rewrite E1, E2. Qed.

Variable env : lcp_env S.
Variable conf : lcp_conf.
Variable rand_fuel : nat.
Hypothesis Henv : env_safe_at env.

Lemma nzmagic_frames old : frames (nzmagic env rand_fuel old).
Proof.
  unfold nzmagic. induction rand_fuel as [|n IH]; intros s; cbn [nzmagic_loop]; rewrite exec_bind;
    destruct (proj1 (proj1 Henv) s) as [El Ei]; destruct (_ || _); [done|done| |done].
  destruct (IH (exec (random env) s)) as [-> ->]. done.
Qed.

Lemma gather_req_ok b hs os :
  Forall (opt_ok hs) os ->
  triple (inv_at b hs) (gather_req conf os)
    (fun r s => inv_at b hs s /\ forall d, r = Some d -> Z.of_nat (length d) <= sum_len os).
Proof.
  induction os as [|o os IH]; intros Hos; cbn [gather_req].
  - apply triple_ret. intros s Hs. split; [done|]. by intros d [= <-].
  - inversion Hos as [|?? Ho Hos']. subst. specialize (IH Hos').
    eapply (triple_bind _ _ (fun r s => inv_at b hs s /\ exists d, r = Some d /\ Z.of_nat (length d) <= opt_len o)).
    { unfold opt_send_conf_req, opt_ok in *. destruct (opt_obj o).
      1,2,3,4: repeat case_match; apply triple_ret; intros s Hs;
        (split; [done|]); (eexists; split; [reflexivity|]); cbn; lia.
      eapply triple_bind; [apply (auth_send_ok conf b hs (opt_len o)); [apply Ho|lia]|].
      intros d. apply triple_ret. intros s [Hs Hd]. split; [done|]. by exists d. }
    intros r s (Hs & d & -> & Hd). rewrite exec_bind, val_bind.
    destruct (IH s Hs) as [Hs' Hr]. split; [done|]. intros d'.
    destruct (val (gather_req conf os) s) as [dr|] eqn:E; [|done]. intros [= <-].
    specialize (Hr _ eq_refl). cbn [sum_len foldr]. fold (sum_len os). rewrite length_app. lia.
Qed.

Lemma inv_to_at b s :
  inv b s -> inv_at b (map ad_h (auth_list (lcp_auth (get_lcp s)))) s.
Proof. done. Qed.

Lemma send_conf_req_keeps b : keeps (inv b) (send_conf_req conf).
Proof.
  intros s Hs. unfold send_conf_req. get_step.
  pose proof Hs as (_ & _ & (_ & Hos & Hc) & _).
  destruct (gather_req_ok b _ _ Hos s (inv_to_at b s Hs)) as [[Hs' _] Hd].
  destruct (val (gather_req conf (options (get_lcp s))) s) as [d|]; [|exact Hs'].
  specialize (Hd d eq_refl). cbv zeta.
  refine (keeps_bind _ _ _ _ _ _ Hs'); [apply built_in_keeps; rewrite lcp_packet_length; lia|].
  intros _. apply keeps_bind; [apply chan_send_keeps|intros; apply keeps_ret].
Qed.

Lemma gather_nak_ok b hs os :
  Forall (opt_ok hs) os ->
  triple (inv_at b hs) (gather_nak env conf rand_fuel os)
    (fun d s => inv_at b hs s /\ Z.of_nat (length d) <= sum_len os).
Proof.
  induction os as [|o os IH]; intros Hos; cbn [gather_nak].
  - apply triple_ret. intros s Hs. done.
  - inversion Hos as [|?? Ho Hos']. subst. specialize (IH Hos').
    eapply (triple_bind _ _ (fun d s => inv_at b hs s /\ Z.of_nat (length d) <= opt_len o)).
    { unfold opt_send_conf_nak, opt_ok in *.
      destruct (opt_state o =? LCP_OPT_NAK) eqn:En; apply Z.eqb_eq in En || apply Z.eqb_neq in En.
      - destruct (opt_obj o).
        + apply triple_ret. intros s Hs. by split.
        + eapply triple_bind;
            [apply triple_keeps, frames_keeps; [apply inv_at_frame|apply nzmagic_frames]|].
          intros n. apply triple_ret. intros s Hs. by split.
        + by destruct Ho.
        + by destruct Ho.
        + apply auth_send_ok; [apply Ho|lia].
      - apply triple_ret. intros s Hs. split; [done|]. cbn. destruct (opt_obj o); lia. }
    intros d s (Hs & Hd). rewrite exec_bind, val_bind. destruct (IH s Hs) as [Hs' Hr].
    split; [done|]. change (val (mret ?x) _) with x.
    cbn [sum_len foldr]. fold (sum_len os). rewrite length_app. lia.
Qed.

Lemma send_conf_nak_keeps b : keeps (inv b) (send_conf_nak env conf rand_fuel).
Proof.
  intros s Hs. unfold send_conf_nak. get_step.
  pose proof Hs as (_ & _ & (_ & Hos & Hc) & _).
  destruct (gather_nak_ok b _ _ Hos s (inv_to_at b s Hs)) as [[Hs' _] Hd]. cbv zeta.
  apply chan_send_keeps, built_in_keeps; [rewrite lcp_packet_length; lia|done].
Qed.

Lemma gather_rej_ok b rs n :
  ropts_ok (length b) rs n ->
  triple (inv b) (gather_rej rs) (fun d s => inv b s /\ Z.of_nat (length d) <= n).
Proof.
  revert n. induction rs as [|r rs IH]; intros n [Hrs Hn]; cbn [gather_rej].
  - apply triple_ret. intros s Hs. by split.
  - inversion Hrs as [|?? [Hr0 Hr1] Hrs']. subst. cbn in Hn.
    eapply (triple_bind _ _ (fun d s => inv b s /\ Z.of_nat (length d) <= ropt_olen r)).
    { destruct (_ =? _).
      - eapply triple_conseq; [apply (rd_bytes_ok b); lia|done|].
        intros d s [Hs ->]. split; [done|]. rewrite length_take. lia.
      - apply triple_ret. intros s Hs. split; [done|]. cbn. lia. }
    intros d s (Hs & Hd). rewrite exec_bind, val_bind.
    destruct (IH (n - ropt_olen r)) with (s := s) as [Hs' Hr']; [split; [done|lia]|done|].
    split; [done|]. change (val (mret ?x) _) with x. rewrite length_app. lia.
Qed.

Lemma send_conf_rej_keeps b : keeps (inv b) send_conf_rej.
Proof.
  intros s Hs. unfold send_conf_rej. get_step.
  pose proof Hs as (_ & _ & _ & HR & Hr). rewrite HR.
  destruct (gather_rej_ok b _ _ Hr s Hs) as [Hs' Hd]. cbv zeta.
  apply chan_send_keeps, built_in_keeps; [rewrite lcp_packet_length; lia|done].
Qed.

(** ** The callbacks of the automaton *)

Lemma lcp_upd_safe f :
  (forall l, lcp_auth (f l) = lcp_auth l /\ options (f l) = options l /\
     conf_req_len (f l) = conf_req_len l /\ ropt_list (f l) = ropt_list l /\
     ropt_len (f l) = ropt_len l) ->
  keeps safe (lcp_upd f).
Proof. intros Hf. apply safe_of_inv. intros b. by apply lcp_upd_keeps. Qed.

Lemma keeps_lcp_get {A} (P : S -> Prop) (p : ppp_lcp_t -> A) : keeps P (lcp_get p).
Proof. apply keeps_gets. Qed.
Lemma keeps_fget {A} (P : S -> Prop) (p : ppp_fsm_t -> A) : keeps P (fsm_get (S := S) p).
Proof. apply keeps_gets. Qed.
Lemma keeps_io_get {A} (P : S -> Prop) (p : ppp_io -> A) : keeps P (io_get p).
Proof. apply keeps_gets. Qed.
Lemma fsm_upd_safe f : keeps safe (fsm_upd (S := S) f).
Proof. apply safe_of_inv. intros b. apply fsm_upd_keeps. Qed.
Lemma chan_send_safe d : keeps safe (ppp_chan_send d).
Proof. apply safe_of_inv. intros b. apply chan_send_keeps. Qed.

Ltac safe_step :=
  lazymatch goal with
  | |- keeps _ (mbind _ _) => apply keeps_bind; [|intros]
  | |- keeps _ (mret _) => apply keeps_ret
  | |- keeps _ skip => apply keeps_skip
  | |- keeps _ (when _ _) => apply keeps_when
  | |- keeps _ (lcp_get _) => apply keeps_lcp_get
  | |- keeps _ (fsm_get _) => apply keeps_fget
  | |- keeps _ (io_get _) => apply keeps_io_get
  | |- keeps _ (gets _) => apply keeps_gets
  | |- keeps _ (fsm_upd _) => apply fsm_upd_safe
  | |- keeps _ (ppp_chan_send _) => apply chan_send_safe
  | |- keeps _ (ppp_chan_send_buf _) => apply chan_send_buf_safe
  | |- keeps _ (ses_terminate _ _ _) => apply (proj1 (proj2 Henv))
  | |- keeps _ (layer_started_ _) => apply (proj1 (proj2 (proj2 Henv)))
  | |- keeps _ (layer_finished_ _) => apply (proj1 (proj2 (proj2 (proj2 Henv))))
  | |- keeps _ (proto_rej _ _) => apply (proj2 (proj2 (proj2 (proj2 Henv))))
  | |- keeps _ (read_stats _) =>
      apply safe_of_inv; intros; apply frames_keeps; [apply inv_frame|apply Henv]
  | |- keeps _ (lcp_upd _) => apply lcp_upd_safe; by intros
  | |- keeps _ (match ?x with _ => _ end) => destruct x
  end.
Ltac safe_auto := repeat safe_step.

Lemma stop_echo_safe : keeps safe stop_echo.
Proof. unfold stop_echo. safe_auto. Qed.
Lemma layer_up_safe : keeps safe (lcp_layer_up env conf).
Proof. unfold lcp_layer_up, start_echo. safe_auto. Qed.
Lemma layer_finished_safe : keeps safe (lcp_layer_finished env).
Proof. unfold lcp_layer_finished. safe_auto; apply stop_echo_safe. Qed.

Lemma rd_len_safe {A} (k : Z -> st S A) :
  (forall v, keeps safe (k v)) -> keeps safe (v ← rd16 4; k v).
Proof.
  intros Hk s (b & Hl & Hu & Hs). rewrite exec_bind. apply Hk. exists b.
  split; [done|]. split; [done|]. apply rd16_ok; [lia|done].
Qed.

Lemma resend_safe c : is_u8 c -> keeps safe (resend_buf c).
Proof.
  intros Hc. unfold resend_buf. apply keeps_bind; [apply wr_bytes_safe; [cbn; lia|by constructor]|].
  intros _. apply rd_len_safe. intros v. apply chan_send_buf_safe.
Qed.

Lemma ops_safe e : keeps safe (handle (lcp_ops env conf rand_fuel) e).
Proof.
  apply keeps_handle; cbn; try (intros m [= <-]); try done.
  - apply fsm_upd_safe.
  - apply layer_up_safe.
  - apply keeps_skip.
  - apply layer_finished_safe.
  - apply safe_of_inv. intros b. apply send_conf_req_keeps.
  - apply resend_safe. done.
  - apply safe_of_inv. intros b. apply send_conf_nak_keeps.
  - apply safe_of_inv. intros b. apply send_conf_rej_keeps.
  - apply resend_safe. done.
  - unfold send_term_req. safe_auto.
  - unfold send_term_ack. safe_auto.
Qed.

Lemma echo_reply_safe : keeps safe (send_echo_reply env).
Proof.
  unfold send_echo_reply. apply keeps_bind; [unfold note_echo; safe_auto|intros _].
  apply keeps_bind; [apply wr_bytes_safe; [cbn; lia|by constructor]|intros _].
  apply keeps_bind; [apply keeps_lcp_get|intros m].
  apply keeps_bind; [apply wr_bytes_safe; [cbn; lia|apply be32_ok]|intros _].
  apply rd_len_safe. intros v. safe_auto.
Qed.

Lemma echo_request_safe : keeps safe (send_echo_request env conf).
Proof.
  unfold send_echo_request. cbv zeta. safe_auto.
Qed.

(** ** Receiving options

    The buffer is not written while options are read. *)

Lemma rd8_run b off s : inv b s -> (off < length b)%nat -> rd8 off s = (byte_at b off, s).
Proof.
  intros (_ & Hb & _) Ho. unfold rd8, mbind, st_bind. cbn. unfold the_buf. rewrite Hb. cbn.
  rewrite (proj2 (Nat.leb_gt _ _)) by lia. done.
Qed.
Lemma rd16_run b off s :
  inv b s -> (off + 1 < length b)%nat ->
  rd16 off s = (of_be16 (byte_at b off) (byte_at b (off + 1)), s).
Proof.
  intros Hs Ho. unfold rd16, mbind, st_bind. rewrite (rd8_run b) by (done || lia).
  by rewrite (rd8_run b) by (done || lia).
Qed.
Lemma rd32_run b off s :
  inv b s -> (off + 3 < length b)%nat ->
  rd32 off s = (of_be32 (byte_at b off) (byte_at b (off + 1)) (byte_at b (off + 2)) (byte_at b (off + 3)), s).
Proof.
  intros Hs Ho. unfold rd32, mbind, st_bind. by rewrite !(rd8_run b) by (done || lia).
Qed.

(** An option of the packet: its two header bytes, and the bytes its length counts, are in
    the block. *)
Definition opt_in (b : block) (off : nat) : Prop :=
  (off + 1 < length b)%nat /\ Z.of_nat off + byte_at b (off + 1) <= Z.of_nat (length b).

Lemma recv_req_run b hs o off s :
  inv b s -> opt_in b off -> opt_ok hs o ->
  let x := opt_recv_conf_req env conf o off s in
  inv b x.2 /\ get_lcp x.2 = get_lcp s /\
  opt_ok hs (mk_opt (opt_id o) (opt_len o) x.1.1 x.1.2).
Proof.
  intros Hs [Ho Hb] Hok. destruct o as [i len st []]; unfold opt_recv_conf_req, opt_ok in *; cbn in *.
  - unfold mru_recv_conf_req, mbind, st_bind. rewrite (rd8_run b) by (done || lia).
    destruct (_ =? 4) eqn:E; cbn; [|done]. apply Z.eqb_eq in E.
    rewrite (rd16_run b) by (done || lia). cbn. destruct (_ || _); cbn; [done|].
    split; [by apply inv_io|]. by rewrite get_lcp_put_io.
  - unfold magic_recv_conf_req, mbind, st_bind. rewrite (rd8_run b) by (done || lia).
    destruct (_ =? 6) eqn:E; cbn; [|done]. apply Z.eqb_eq in E.
    rewrite (rd32_run b) by (done || lia). by destruct (_ && _).
  - unfold comp_recv_conf_req, mbind, st_bind. rewrite (rd8_run b) by (done || lia).
    cbn. split; [done|]. split; [done|]. split; [apply Hok|].
    destruct (negb _); [done|]. by destruct (negb _).
  - unfold comp_recv_conf_req, mbind, st_bind. rewrite (rd8_run b) by (done || lia).
    cbn. split; [done|]. split; [done|]. split; [apply Hok|].
    destruct (negb _); [done|]. by destruct (negb _).
  - done.
Qed.

End Safe.

Lemma sum_len_insert os n o o' :
  os !! n = Some o -> opt_len o' = opt_len o -> sum_len (<[n := o']> os) = sum_len os.
Proof.
  revert n. induction os as [|x os IH]; intros [|n] Hn Hl; cbn in *; [done..| |].
  - injection Hn as ->. lia.
  - change (opt_len x + sum_len (<[n:=o']> os) = opt_len x + sum_len os). by rewrite (IH n).
Qed.

Section Recv.
Context {S : Type} `{!LcpHost S}.
Variable env : lcp_env S.
Variable conf : lcp_conf.
Variable rand_fuel : nat.
Definition env_safe : Prop := forall R, env_safe_at R env.
Hypothesis Henv : env_safe.

Lemma set_option_keeps R b n o o' (s : S) :
  inv R b s -> options (get_lcp s) !! n = Some o -> opt_len o' = opt_len o ->
  opt_ok (map ad_h (auth_list (lcp_auth (get_lcp s)))) o' ->
  inv R b (exec (set_option n o') s).
Proof.
  intros (H1 & H2 & (Ha & Ho & Hc) & H4 & H5) Hn Hl Hok. apply inv_lcp; [|done..].
  split; [done|]. cbn. split; [by apply Forall_insert|]. by erewrite sum_len_insert.
Qed.

Lemma find_option_run R b off (s : S) :
  inv R b s -> (off < length b)%nat ->
  find_option off s = (list_find (fun o => opt_id o = byte_at b off) (options (get_lcp s)), s).
Proof. intros Hs Ho. unfold find_option, mbind, st_bind. by rewrite (rd8_run R b). Qed.

Definition ropt_in (b : block) (r : recv_opt_t) : Prop :=
  opt_in b (ropt_hdr r) /\ ropt_olen r = byte_at b (ropt_hdr r + 1) /\ 0 <= ropt_olen r.

Definition sum_olen (rs : list recv_opt_t) : Z := foldr (fun r n => ropt_olen r + n) 0 rs.

Lemma byte_range b i : Forall is_u8 b -> is_u8 (byte_at b i).
Proof.
  intros Hb. unfold byte_at. destruct (nth_in_or_default i b 0) as [Hi| ->]; [|width_lia].
  by apply (proj1 (Forall_forall _ _) Hb).
Qed.

Lemma scan_run R b fuel off size (s : S) :
  inv R b s -> Forall is_u8 b -> Z.of_nat off + size < Z.of_nat (length b) ->
  exists rs, scan_ropts fuel off size s = (rs, s) /\ Forall (ropt_in b) rs /\
    sum_olen rs <= Z.max 0 size.
Proof.
  intros Hs Hu. revert off size. induction fuel as [|fuel IH]; intros off size Ho; cbn [scan_ropts].
  - destruct (size <=? 0); exists []; (split; [done|]); (split; [constructor|cbn; lia]).
  - destruct (Z.leb_spec size 0); [exists []; (split; [done|]); (split; [constructor|cbn; lia])|].
    unfold mbind at 1, st_bind at 1. rewrite (rd8_run R b) by (done || lia).
    pose proof (byte_range b (off + 1) Hu) as Hr.
    destruct ((_ =? 0) || _) eqn:E; [exists []; (split; [done|]); (split; [constructor|cbn; lia])|].
    to_prop.
    destruct (IH (off + Z.to_nat (byte_at b (off + 1)))%nat (size - byte_at b (off + 1)))
      as (rs & Hrs & Hin & Hsum); [width_lia|].
    eexists (_ :: rs). unfold mbind, st_bind. rewrite Hrs. split; [done|].
    split; [|cbn; fold (sum_olen rs); lia]. constructor; [|done].
    split; [|cbn; split; [done|width_lia]]. split; cbn; [width_lia|lia].
Qed.

Lemma answer_run R b r ret (s : S) :
  inv R b s -> ropt_in b r ->
  let x := answer_ropt env conf r ret s in
  inv R b x.2 /\ ropt_len (get_lcp x.2) = ropt_len (get_lcp s) /\
  ropt_hdr x.1.1 = ropt_hdr r /\ ropt_olen x.1.1 = ropt_olen r.
Proof.
  intros Hs (Hin & Hlen & Hpos). cbv zeta.
  destruct (answer_ropt env conf r ret s) as [[r' v'] s2] eqn:Eq. cbn [fst snd]. revert Eq.
  unfold answer_ropt, mbind, st_bind. rewrite (find_option_run R b) by (done || (destruct Hin; lia)).
  destruct (list_find _ _) as [[n o]|] eqn:E.
  - apply list_find_Some in E as (E & _ & _).
    pose proof Hs as (_ & _ & (_ & Hos & _) & _).
    assert (opt_ok (map ad_h (auth_list (lcp_auth (get_lcp s)))) o) as Ho
      by (eapply Forall_lookup_1; eauto).
    destruct (recv_req_run R env conf b _ o (ropt_hdr r) s Hs Hin Ho) as (Hs' & Hl & Hok').
    destruct (opt_recv_conf_req env conf o (ropt_hdr r) s) as [[v d] s'].
    cbn [fst snd] in *. rewrite <- Hl in E, Hok'.
    change (set_option n ?x s') with (tt, exec (set_option n x) s'). intros [= <- <- <-].
    split; [|split; [|done]].
    2:{ change (exec (set_option ?k ?x) s')
          with (put_lcp ((get_lcp s') <| options ::= fun os => <[k := x]> os |>) s').
        rewrite get_put_lcp. cbn. by rewrite Hl. }
    exact (set_option_keeps R b n o (mk_opt (opt_id o) (opt_len o) v d) s' Hs' E eq_refl Hok').
  - destruct (ropt_known r); intros [= <- <- <-]; done.
Qed.

Lemma answers_run R b rs ret (s : S) :
  inv R b s -> Forall (ropt_in b) rs ->
  let x := answer_ropts env conf rs ret s in
  inv R b x.2 /\ ropt_len (get_lcp x.2) = ropt_len (get_lcp s) /\
  Forall (ropt_in b) x.1.1 /\ sum_olen x.1.1 = sum_olen rs.
Proof.
  cbv zeta. revert ret s. induction rs as [|r rs IH]; intros ret s Hs Hrs.
  { refine (conj Hs (conj eq_refl (conj _ eq_refl))). constructor. }
  inversion Hrs as [|?? Hr Hrs']. subst. pose proof (answer_run R b r ret s Hs Hr) as H1.
  destruct (answer_ropts env conf (r :: rs) ret s) as [[l w] s3] eqn:Eq. revert Eq.
  cbn [answer_ropts]. unfold mbind, st_bind.
  destruct (answer_ropt env conf r ret s) as [[r' v] s1]. cbn [fst snd] in *.
  destruct H1 as (Hs1 & Hn & Hh & Hl). specialize (IH v s1 Hs1 Hrs').
  destruct (answer_ropts env conf rs v s1) as [[rs' v'] s2]. cbn [fst snd] in *.
  destruct IH as (Hs2 & Hn2 & Hin & Hsum). intros [= <- <- <-].
  split; [done|]. split; [congruence|]. split; [|unfold sum_olen in *; cbn; lia].
  constructor; [|done]. unfold ropt_in. by rewrite Hh, Hl.
Qed.

(** [lopt->state = LCP_OPT_NONE] on every option. *)
Definition reset : list lcp_option_t -> list lcp_option_t :=
  map (fun o => o <| opt_state := LCP_OPT_NONE |>).
Lemma reset_len os : sum_len (reset os) = sum_len os.
Proof. induction os as [|[] os IH]; [done|]. unfold sum_len in *. cbn in *. by rewrite IH. Qed.
Lemma reset_ok hs os : Forall (opt_ok hs) os -> Forall (opt_ok hs) (reset os).
Proof.
  induction 1 as [|[i l st []] os Ho Hos IH]; constructor; try done.
  all: destruct Ho; by split.
Qed.

Lemma lcp_upd_run f (s : S) : lcp_upd f s = (tt, put_lcp (f (get_lcp s)) s).
Proof. done. Qed.

Lemma recv_conf_req_ok b size (s : S) :
  inv [] b s -> Forall is_u8 b -> 0 <= size -> Z.of_nat HDR + size < Z.of_nat (length b) ->
  exists R, inv R b (exec (lcp_recv_conf_req env conf HDR size) s).
Proof.
  intros Hs Hu H0 Hsz. unfold lcp_recv_conf_req, exec, mbind, st_bind. rewrite lcp_upd_run.
  set (s1 := put_lcp _ s). assert (inv [] b s1) as Hs1.
  { destruct Hs as (H1 & H2 & H3 & H4 & H5). by apply inv_lcp. }
  destruct (scan_run [] b (Z.to_nat size) HDR size s1 Hs1 Hu Hsz) as (rs & -> & Hin & Hsum).
  unfold lcp_get, gets.
  assert (ropt_list (get_lcp s1) = []) as -> by apply Hs1. cbn [app]. rewrite lcp_upd_run.
  set (s2 := put_lcp _ s1). assert (inv [] b s2) as Hs2.
  { destruct Hs1 as (H1 & H2 & (Ha & Ho & Hc) & H4 & H5). apply inv_lcp; try done.
    refine (conj Ha (conj (reset_ok _ _ Ho) _)).
    change (Z.of_nat HDR + sum_len (reset (options (get_lcp s1))) <= conf_req_len (get_lcp s1)).
    by rewrite reset_len. }
  assert (ropt_len (get_lcp s2) = size) as Hn2 by (subst s2 s1; by rewrite !get_put_lcp).
  pose proof (answers_run [] b rs LCP_OPT_ACK s2 Hs2 Hin) as Hans. cbv zeta in Hans.
  destruct (answer_ropts env conf rs LCP_OPT_ACK s2) as [[rs' v] s3]. cbn [fst snd] in *.
  destruct Hans as (Hs3 & Hn3 & Hin3 & Hsum3). rewrite lcp_upd_run. exists rs'.
  change (inv rs' b (put_lcp ((get_lcp s3) <| ropt_list := rs' |>) s3)).
  destruct Hs3 as (H1 & H2 & H3 & H4 & H5). unfold inv. rewrite get_put_lcp, get_io_put_lcp.
  refine (conj H1 (conj H2 (conj H3 (conj eq_refl _)))).
  change (ropt_len (apply_update _ ?x)) with (ropt_len x). rewrite Hn3, Hn2. split.
  - eapply Forall_impl; [|exact Hin3]. intros r ((Ha & Hb) & Hc & Hd). rewrite Hc. split; [lia|done].
  - change (sum_olen rs' <= size). lia.
Qed.

(** A handler that leaves the option list and the set of authentication handlers alone. *)
Definition same_opts (s s' : S) : Prop :=
  options (get_lcp s') = options (get_lcp s) /\
  map ad_h (auth_list (lcp_auth (get_lcp s'))) = map ad_h (auth_list (lcp_auth (get_lcp s))).

Lemma set_obj_keeps R b n o d (s s' : S) :
  inv R b s' -> same_opts s s' -> options (get_lcp s) !! n = Some o ->
  opt_ok (map ad_h (auth_list (lcp_auth (get_lcp s)))) (o <| opt_obj := d |>) ->
  inv R b (exec (set_option n (o <| opt_obj := d |>)) s').
Proof.
  intros Hs' [Ho Ha] Hn Hok. rewrite <- Ho in Hn. rewrite <- Ha in Hok.
  by apply (set_option_keeps R b n o).
Qed.

Lemma auth_nak_keeps R b (s : S) :
  inv R b s ->
  inv R b (exec auth_recv_conf_nak s) /\ same_opts s (exec auth_recv_conf_nak s).
Proof.
  intros Hs. unfold auth_recv_conf_nak. get_step.
  destruct (auth (lcp_auth (get_lcp s))) as [i|] eqn:Ei; [|done].
  rewrite exec_bind. change (exec (mret ?v) ?x) with x.
  set (l := alter _ i _).
  assert (map ad_h l = map ad_h (auth_list (lcp_auth (get_lcp s)))) as Hl.
  { subst l. apply list_eq. intros j. rewrite !list_lookup_fmap, list_lookup_alter.
    case_decide; [|done]. subst j. by destruct (_ !! i) as [[]|]. }
  change (exec (lcp_upd ?f) s) with (put_lcp (f (get_lcp s)) s).
  destruct Hs as (H1 & H2 & (Ha & Ho & Hc) & H4 & H5). split.
  - apply inv_lcp; try done. split.
    + unfold auth_ok in *. cbn. rewrite Ei in Ha. cbn in *. destruct (get_lcp s) as [? ? []]; cbn in *. subst.
      subst l. destruct Ha as [->|Ha]; [by left|right]. by rewrite length_alter.
    + cbn. rewrite Hl. done.
  - unfold same_opts. rewrite get_put_lcp. cbn. by rewrite Hl.
Qed.

Lemma magic_upd_same m (s : S) :
  same_opts s (exec (lcp_upd (fun l => l <| lcp_magic := m |>)) s).
Proof.
  unfold same_opts. change (exec (lcp_upd ?f) s) with (put_lcp (f (get_lcp s)) s).
  rewrite !get_put_lcp. done.
Qed.

Lemma recv_rej_keeps R b n o (s : S) :
  inv R b s -> options (get_lcp s) !! n = Some o ->
  inv R b (exec (x ← opt_recv_conf_rej o; set_option n (o <| opt_obj := x.2 |>) ;; mret x.1) s).
Proof.
  intros Hs Hn. assert (opt_ok (map ad_h (auth_list (lcp_auth (get_lcp s)))) o) as Hok.
  { destruct Hs as (_ & _ & (_ & Ho & _) & _). by eapply Forall_lookup_1. }
  rewrite !exec_bind. change (exec (mret ?v) ?x) with x.
  destruct o as [i l st []]; cbn [opt_recv_conf_rej opt_obj].
  - by apply (set_obj_keeps R b n _ _ s).
  - rewrite exec_bind, val_bind. change (exec (mret ?v) ?x) with x.
    apply (set_obj_keeps R b n _ _ s); [by apply lcp_upd_keeps|apply magic_upd_same|done..].
  - by apply (set_obj_keeps R b n _ _ s).
  - by apply (set_obj_keeps R b n _ _ s).
  - rewrite exec_bind, val_bind. change (exec (mret ?v) ?x) with x.
    change auth_recv_conf_rej with auth_recv_conf_nak.
    destruct (auth_nak_keeps R b s Hs). by apply (set_obj_keeps R b n _ _ s).
Qed.

Lemma recv_nak_run R b hs o off (s : S) :
  inv R b s -> opt_in b off -> opt_ok hs o ->
  let x := opt_recv_conf_nak env rand_fuel o off s in
  inv R b x.2 /\ same_opts s x.2 /\ opt_ok hs (o <| opt_obj := x.1.2 |>).
Proof.
  intros Hs [Ho Hb] Hok. destruct o as [i l st []]; cbn [opt_recv_conf_nak opt_obj].
  - done.
  - unfold magic_recv_conf_nak, mbind, st_bind. rewrite (rd8_run R b) by (done || lia).
    destruct (_ =? 6) eqn:E; cbn [negb]; [|done]. apply Z.eqb_eq in E.
    rewrite (rd32_run R b) by (done || lia). destruct (_ && _); [done|].
    assert (frames (if of_be32 (byte_at b (off + 2)) (byte_at b (off + 2 + 1)) (byte_at b (off + 2 + 2))
                       (byte_at b (off + 2 + 3)) =? 0 then nzmagic env rand_fuel magic
                    else mret (s32 (of_be32 (byte_at b (off + 2)) (byte_at b (off + 2 + 1))
                       (byte_at b (off + 2 + 2)) (byte_at b (off + 2 + 3)))))) as Hf.
    { destruct (_ =? 0); [apply (nzmagic_frames R env rand_fuel (Henv R))|done]. }
    specialize (Hf s). unfold exec in Hf. destruct (_ s) as [m s']. cbn [fst snd] in *.
    destruct Hf as [El Ei]. assert (inv R b s') as Hs' by (by eapply inv_frame).
    change (lcp_upd ?f s') with (tt, exec (lcp_upd f) s'). cbn [fst snd].
    split; [by apply lcp_upd_keeps|]. split; [|done].
    pose proof (magic_upd_same m s') as Hm. unfold same_opts in *. by rewrite El in Hm.
  - unfold comp_recv_conf_nak, mbind, st_bind. rewrite (rd8_run R b) by (done || lia). done.
  - unfold comp_recv_conf_nak, mbind, st_bind. rewrite (rd8_run R b) by (done || lia). done.
  - pose proof (auth_nak_keeps R b s Hs) as [H1 H2]. unfold exec in *.
    unfold mbind, st_bind. by destruct (auth_recv_conf_nak s).
Qed.

Lemma recv_nak_keeps R b n o off (s : S) :
  inv R b s -> options (get_lcp s) !! n = Some o -> opt_in b off ->
  inv R b (exec (x ← opt_recv_conf_nak env rand_fuel o off;
                 set_option n (o <| opt_obj := x.2 |>) ;; mret x.1) s).
Proof.
  intros Hs Hn Hin. assert (opt_ok (map ad_h (auth_list (lcp_auth (get_lcp s)))) o) as Hok.
  { destruct Hs as (_ & _ & (_ & Ho & _) & _). by eapply Forall_lookup_1. }
  destruct (recv_nak_run R b _ o off s Hs Hin Hok) as (Hs' & Hsame & Hok').
  rewrite !exec_bind. change (exec (mret ?v) ?x) with x. by apply (set_obj_keeps R b n _ _ s).
Qed.

Lemma recv_ack_keeps R b o : keeps (inv R b) (default (mret 0) (opt_recv_conf_ack env o)).
Proof.
  destruct (Henv R) as [(_ & _ & Hg & Hset) _].
  assert (forall f on, keeps (inv R b) (set_comp_flag env f on)) as Hcomp.
  { intros f on. unfold set_comp_flag. apply keeps_bind; [by apply frames_keeps; [apply inv_frame|]|].
    intros [v|]; [|apply keeps_ret]. apply keeps_bind; [by apply frames_keeps; [apply inv_frame|]|].
    intros. apply keeps_ret. }
  unfold opt_recv_conf_ack. destruct (opt_obj o); cbn [default]; try apply keeps_ret; try apply Hcomp.
  apply keeps_bind; [|intros; apply keeps_ret]. by apply io_upd_keeps.
Qed.

Lemma walk_keeps R b f fuel off size res (s : S) :
  (forall n o off s, inv R b s -> options (get_lcp s) !! n = Some o -> opt_in b off ->
     inv R b (exec (f n o off) s)) ->
  Forall is_u8 b -> inv R b s -> Z.of_nat off + size < Z.of_nat (length b) ->
  inv R b (exec (walk_opts f fuel off size res) s).
Proof.
  intros Hf Hu. revert off size res s. induction fuel as [|fuel IH]; intros off size res s Hs Ho;
    cbn [walk_opts]; destruct (Z.leb_spec size 0); [done..|].
  unfold exec, mbind, st_bind. rewrite (rd8_run R b) by (done || lia).
  pose proof (byte_range b (off + 1) Hu) as Hr.
  destruct ((_ =? 0) || _) eqn:E; [done|]. to_prop.
  rewrite (find_option_run R b) by (done || lia).
  set (m := match list_find _ _ with Some _ => _ | None => _ end).
  assert (inv R b (m s).2) as Hm.
  { subst m. destruct (list_find _ _) as [[n o]|] eqn:Ef; [|done].
    apply list_find_Some in Ef as (Ef & _). apply Hf; [done|done|]. split; [lia|width_lia]. }
  destruct (m s) as [v s']. cbn [fst snd] in Hm. apply IH; [done|width_lia].
Qed.

(** What LCP is entitled to when a packet is handed to it, and gives back. *)
Abbreviation ready := (safe (S := S) []).

Lemma free_safe R (s : S) : safe R s -> ready (exec lcp_free_conf_req s).
Proof.
  intros (b & Hl & Hu & H1 & H2 & H3 & H4 & H5 & H6). exists b. split; [done|]. split; [done|].
  change (exec lcp_free_conf_req s) with (put_lcp ((get_lcp s) <| ropt_list := [] |>) s).
  unfold inv. rewrite get_put_lcp, get_io_put_lcp.
  refine (conj H1 (conj H2 (conj H3 (conj eq_refl (conj _ _))))); [constructor|].
  change (0 <= ropt_len (get_lcp s)). etrans; [|exact H6]. clear - H5.
  induction H5 as [|r rs Hr Hrs IH]; cbn; lia.
Qed.

Lemma confreq_safe b size (s : S) :
  inv [] b s -> (Z.to_nat 1498 <= length b)%nat -> Forall is_u8 b -> 0 <= size ->
  Z.of_nat HDR + size < Z.of_nat (length b) ->
  ready (exec (recv_confreq env conf rand_fuel size) s).
Proof.
  intros Hs Hl Hu H0 Hsz. unfold recv_confreq. get_step.
  destruct (recv_conf_req_ok b size s Hs Hu H0 Hsz) as (R & HR).
  set (s1 := exec (lcp_recv_conf_req env conf HDR size) s) in *.
  set (r := val _ s). assert (safe R s1) as Hs1 by (by exists b).
  destruct (started (get_lcp s1) && (r =? LCP_OPT_ACK)).
  { rewrite exec_bind. apply (free_safe R). by apply resend_safe. }
  cbv zeta. set (r' := if _ : bool then _ else r).
  rewrite !exec_bind. apply keeps_when; [apply (Henv [])|]. apply (free_safe R).
  destruct (r' =? LCP_OPT_ACK); [exact (ops_safe R env conf rand_fuel (Henv R) EvConfReqAck s1 Hs1)|].
  destruct (r' =? LCP_OPT_NAK); [exact (ops_safe R env conf rand_fuel (Henv R) EvConfReqNak s1 Hs1)|].
  destruct (r' =? LCP_OPT_REJ); [exact (ops_safe R env conf rand_fuel (Henv R) EvConfReqRej s1 Hs1)|done].
Qed.

(** One received option list of a reply, and what follows it. *)
Lemma reply_safe b (m : st S Z) (k : Z -> st S unit) (s : S) :
  (Z.to_nat 1498 <= length b)%nat -> Forall is_u8 b ->
  inv [] b s -> inv [] b (exec m s) -> (forall v, keeps ready (k v)) ->
  ready (exec (v ← if_current_id m; k v) s).
Proof.
  intros Hl Hu Hs Hm Hk. rewrite exec_bind. apply Hk. exists b. split; [done|]. split; [done|].
  unfold if_current_id. get_step. by destruct (negb _).
Qed.

Lemma unless_stale_safe (m : st S unit) : keeps ready m -> keeps ready (unless_stale m).
Proof. intros Hm s Hs. unfold unless_stale. get_step. destruct (negb _); [done|by apply Hm]. Qed.

Lemma echo_repl_safe b size (s : S) :
  (Z.to_nat 1498 <= length b)%nat -> Forall is_u8 b -> inv [] b s ->
  ready (exec (lcp_recv_echo_repl env HDR size) s).
Proof.
  intros Hl Hu Hs. unfold lcp_recv_echo_repl. rewrite exec_bind.
  assert (keeps ready (note_echo env)) as Hn.
  { unfold note_echo. apply keeps_bind; [apply keeps_gets|intros]. by apply lcp_upd_safe. }
  apply Hn. destruct (negb _); [by exists b|]. rewrite exec_bind.
  unfold exec at 2. rewrite (rd32_run [] b) by (done || (unfold HDR; lia)). cbn [snd]. get_step.
  apply keeps_when; [apply (Henv [])|by exists b].
Qed.

Lemma dispatch_safe b code size (s : S) :
  inv [] b s -> (Z.to_nat 1498 <= length b)%nat -> Forall is_u8 b -> 0 <= size ->
  Z.of_nat HDR + size < Z.of_nat (length b) ->
  ready (exec (recv_dispatch env conf rand_fuel code size) s).
Proof.
  intros Hs Hl Hu H0 Hsz. assert (ready s) as Hr by (by exists b).
  pose proof (fun e => ops_safe [] env conf rand_fuel (Henv []) e) as Hops.
  pose proof (proj1 (proj2 (Henv []))) as Hterm.
  assert (forall v m, keeps ready m ->
    keeps ready (if negb (v =? 0) then ses_terminate env TERM_USER_ERROR 0 else unless_stale m)) as Hk.
  { intros v m Hm. destruct (negb _); [apply Hterm|by apply unless_stale_safe]. }
  unfold recv_dispatch.
  destruct (code =? CONFREQ); [by apply (confreq_safe b)|].
  destruct (code =? CONFACK).
  { apply (reply_safe b); try done; [|intros; apply Hk, (Hops EvConfAck)].
    apply walk_keeps; try done. intros n o off s' Hs' _ _. pose proof (recv_ack_keeps [] b o s' Hs') as Ha.
    by destruct (opt_recv_conf_ack env o). }
  destruct (code =? CONFNAK).
  { apply (reply_safe b); try done; [|intros; apply unless_stale_safe, (Hops EvConfRej)].
    apply walk_keeps; try done. intros. by apply recv_nak_keeps. }
  destruct (code =? CONFREJ).
  { apply (reply_safe b); try done; [|intros; apply Hk, (Hops EvConfRej)].
    apply walk_keeps; try done. intros. by apply recv_rej_keeps. }
  destruct (code =? TERMREQ). { rewrite exec_bind. by apply Hterm, (Hops EvTermReq). }
  destruct (code =? TERMACK); [by apply (Hops EvTermAck)|].
  destruct (code =? CODEREJ); [by apply (Hops EvCodeRejBad)|].
  destruct (code =? ECHOREQ); [by apply (echo_reply_safe [] env)|].
  destruct (code =? ECHOREP); [by apply (echo_repl_safe b)|].
  destruct (code =? PROTOREJ).
  { rewrite exec_bind. apply (Henv []). unfold exec.
    rewrite (rd16_run [] b) by (done || (unfold HDR; lia)). done. }
  destruct (_ || _); [done|]. by apply (Hops EvUnknown).
Qed.

(** The length field of the packet in the block. *)
Definition pkt_len (b : block) : Z := of_be16 (byte_at b 4) (byte_at b 5).

Lemma recv_safe b (s : S) :
  inv [] b s -> (Z.to_nat 1498 <= length b)%nat -> Forall is_u8 b ->
  pkt_len b + 2 < Z.of_nat (length b) -> ready (exec (lcp_recv env conf rand_fuel) s).
Proof.
  intros Hs Hl Hu Hlen. assert (ready s) as Hr by (by exists b).
  unfold lcp_recv. rewrite exec_bind. change (exec (io_get _) s) with s.
  destruct (_ <? _); [done|]. unfold exec, mbind, st_bind.
  rewrite (rd16_run [] b) by (done || lia).
  change (of_be16 _ _) with (pkt_len b). destruct (Z.ltb_spec (pkt_len b) PPP_HEADERLEN); [done|].
  rewrite !(rd8_run [] b) by (done || lia).
  unfold fsm_get, lcp_get, gets. destruct (_ && _); [done|]. destruct (_ && _); [done|].
  destruct (_ || _); [done|].
  assert (inv [] b (exec (fsm_upd (fun f => f <| recv_id := byte_at b 3 |>)) s)) as Hs1
    by (by apply fsm_upd_keeps).
  unfold PPP_HEADERLEN, PPP_HDRLEN, HDR in *.
  apply (dispatch_safe b); unfold HDR; try done; lia.
Qed.

(** ** The invariant is established when the layer starts *)

(** Each authentication handler writes at most the length it declares. *)
Definition handlers_fit : Prop :=
  Forall (fun h => Z.of_nat (length (ah_conf h)) <= ah_len h) (auth_handlers conf).

Definition init_auth (h : auth_handler) : auth_data := mk_ad h (ah_proto h) 0 (ah_len h).

(** The handlers [auth_init] gives the option. *)
Definition offered : list auth_handler := if conf_noauth conf then [] else auth_handlers conf.

Definition init_inv (s : S) : Prop :=
  let l := get_lcp s in
  auth (lcp_auth l) = None /\
  (auth_list (lcp_auth l) = [] \/ auth_list (lcp_auth l) = map init_auth offered) /\
  Forall (opt_ok offered) (options l) /\
  Z.of_nat HDR + sum_len (options l) <= conf_req_len l.

Lemma opt_ok_sub hs hs' o :
  (forall h, In h hs' -> In h hs) -> opt_ok hs o -> opt_ok hs' o.
Proof.
  intros Hsub. unfold opt_ok. destruct (opt_obj o); try done.
  intros [H4 Hf]. split; [done|]. rewrite !Forall_forall in *. auto.
Qed.

Lemma init_inv_lcp (s : S) : init_inv s -> lcp_inv (get_lcp s).
Proof.
  intros (Ha & Hl & Ho & Hc). split; [|split; [|done]].
  - unfold auth_ok. rewrite Ha. destruct Hl as [->| ->]; [constructor|].
    apply Forall_map. by apply Forall_true.
  - eapply Forall_impl; [|exact Ho]. intros o. apply opt_ok_sub. intros h.
    destruct Hl as [->| ->]; [done|]. by rewrite map_map, map_id.
Qed.

Lemma max_len_ge (hs : list auth_handler) n :
  let m := foldl (fun n h => if n <? ah_len h then ah_len h else n) n hs in
  n <= m /\ Forall (fun h => ah_len h <= m) hs.
Proof.
  revert n. induction hs as [|h hs IH]; intros n; cbn; [split; [lia|constructor]|].
  destruct (IH (if n <? ah_len h then ah_len h else n)) as [H1 H2].
  destruct (Z.ltb_spec n (ah_len h)); (split; [lia|]); (constructor; [lia|done]).
Qed.

(** Registering handlers leaves the LCP structure alone. *)
Lemma register_lcp (hs : list auth_handler) (s : S) :
  get_lcp (exec (iter_st hs (fun h => when (ah_register h) (ppp_register_chan_handler (ah_proto h)))) s) =
  get_lcp s.
Proof.
  revert s. induction hs as [|h hs IH]; intros s; cbn [iter_st]; [done|].
  rewrite exec_bind, IH. destruct (ah_register h); [|done]. apply get_lcp_put_io.
Qed.

Lemma auth_init_ok :
  handlers_fit -> triple init_inv (auth_init conf)
    (fun o s => init_inv s /\ opt_ok offered o /\ 0 <= opt_len o).
Proof.
  intros Hfit s (H1 & H2 & H3). unfold auth_init, init_inv, offered in *.
  destruct (conf_noauth conf).
  - rewrite exec_bind, val_bind. change (exec (mret ?v) ?x) with x.
    change (exec (lcp_upd ?f) s) with (put_lcp (f (get_lcp s)) s). rewrite get_put_lcp.
    refine (conj (conj H1 (conj _ H3)) (conj _ _)); [by left|split; [done|constructor]|done].
  - rewrite !exec_bind, !val_bind. change (exec (mret ?v) ?x) with x.
    set (s1 := exec (iter_st _ _) s).
    assert (get_lcp s1 = get_lcp s) as El by apply register_lcp.
    change (exec (lcp_upd ?f) s1) with (put_lcp (f (get_lcp s1)) s1). rewrite get_put_lcp, El.
    refine (conj (conj H1 (conj _ H3)) _); [by right|].
    destruct (max_len_ge (auth_handlers conf) 0) as [Hge Hall].
    change (val (mret ?v) _) with v. unfold opt_ok. cbn [opt_obj opt_len].
    split; [|lia]. split; [lia|]. unfold handlers_fit in Hfit. rewrite Forall_forall in *.
    intros h Hh. specialize (Hfit h Hh). specialize (Hall h Hh). cbn in Hall. lia.
Qed.

Lemma opt_init_ok k :
  handlers_fit -> triple init_inv (opt_init env conf rand_fuel k)
    (fun o s => init_inv s /\ opt_ok offered o /\ 0 <= opt_len o).
Proof.
  intros Hfit. destruct k; cbn [opt_init].
  - intros s Hs. split; [|unfold mru_init; rewrite !val_bind; split; by vm_compute].
    unfold init_inv in *. unfold mru_init.
    rewrite !exec_bind. change (exec (gets _) s) with s.
    change (exec (mret ?v) ?x) with x. change (exec (io_upd ?f) s) with (put_io (f (get_io s)) s).
    by rewrite get_lcp_put_io.
  - intros s Hs. split; [|unfold magic_init; rewrite !val_bind; split; by vm_compute].
    unfold magic_init. rewrite !exec_bind.
    change (exec (mret ?v) ?x) with x.
    destruct (nzmagic_frames [] env rand_fuel (Henv []) 0 s) as [El _].
    change (exec (lcp_upd ?f) ?x) with (put_lcp (f (get_lcp x)) x).
    unfold init_inv in *. rewrite get_put_lcp, El. done.
  - apply triple_ret. intros s Hs. split; [done|]. by split; [split|].
  - apply triple_ret. intros s Hs. split; [done|]. by split; [split|].
  - apply auth_init_ok; done.
Qed.

Lemma sum_len_app os o : sum_len (os ++ [o]) = sum_len os + opt_len o.
Proof. induction os as [|x os IH]; unfold sum_len in *; cbn in *; lia. Qed.

Lemma options_init_ok ks : handlers_fit -> keeps init_inv (options_init env conf rand_fuel ks).
Proof.
  intros Hfit. induction ks as [|k ks IH]; cbn [options_init]; [apply keeps_skip|].
  intros s Hs. rewrite !exec_bind. apply IH.
  destruct (opt_init_ok k Hfit s Hs) as (Hs1 & Ho & Hl).
  set (o := val _ s) in *. set (s1 := exec _ s) in *.
  change (exec (lcp_upd ?f) s1) with (put_lcp (f (get_lcp s1)) s1).
  destruct Hs1 as (H1 & H2 & H3 & H4). unfold init_inv. rewrite get_put_lcp.
  refine (conj H1 (conj H2 (conj _ _))).
  - apply Forall_app. split; [exact H3|]. by constructor.
  - change (Z.of_nat HDR + sum_len (options (get_lcp s1) ++ [o]) <= conf_req_len (get_lcp s1) + opt_len o).
    rewrite sum_len_app. lia.
Qed.

End Recv.
End LcpSafe.

(** * A concrete session *)
Module LcpWorld.
Import Fsm PppChan Lcp.

(** LCP with its channel; [w_term] records the calls of [ap_session_terminate]. *)
Record world := mk_world { w_lcp : ppp_lcp_t; w_io : ppp_io; w_term : list (Z * Z) }.

#[export, refine] Instance world_io : IoHost world := {|
  get_io := w_io;
  put_io x s := mk_world (w_lcp s) x (w_term s)
|}.
Proof. all: by intros; repeat match goal with s : world |- _ => destruct s end. Defined.

#[export, refine] Instance world_lcp : LcpHost world := {|
  lcp_io := world_io;
  get_lcp := w_lcp;
  put_lcp x s := mk_world x (w_io s) (w_term s)
|}.
Proof. all: by intros; repeat match goal with s : world |- _ => destruct s end. Defined.

Definition env : lcp_env world :=
  mk_lcp_env world
    (fun c h => modify (fun s => mk_world (w_lcp s) (w_io s) (w_term s ++ [(c, h)])))
    skip skip skip skip (fun _ => skip) (fun _ => skip) (fun _ => false) (fun _ => true)
    (fun _ => 1492) (mret 0) (fun _ => 100) (mret 77) (mret (Some 0)) (fun _ => mret true).

Definition conf : lcp_conf :=
  mk_lcp_conf 10 2 0 0 1400 100 1500 3 0 false [mschap_v2; chap_md5; pap]
    [KAuth; KMru; KMagic; KAccomp; KPcomp] default_conf.

Definition io0 : ppp_io :=
  mk_io [2;0;0;0;0;1] [2;0;0;0;0;9] 7 1492 1500 None 0 (repeat 0 ETHER_MAX_LEN) false
    [PPP_LCP] [] (mk_pool [] 0) [] false.
Definition lcp0 : ppp_lcp_t :=
  mk_lcp empty_fsm [] (mk_ao [] None false) false 0 0 0 0 0 [] 0 0 false.
Definition world0 : world := mk_world lcp0 io0 [].

(** After [lcp_layer_init] and [lcp_layer_start]: the first Configure-Request is out. *)
Definition world1 : world :=
  exec (lcp_layer_init env conf ;; lcp_layer_start env conf 8) world0.

(** A packet in the receive buffer. *)
Definition with_packet (p : list Z) (w : world) : world :=
  mk_world (w_lcp w)
    ((w_io w) <| buf := Some (p ++ repeat 0 (PPP_BUF_SIZE - length p)) |>
              <| buf_size := Z.of_nat (length p) |>) (w_term w).

Definition sent_payloads (w : world) : list (list Z) := map (drop 20) (sent (w_io w)).

End LcpWorld.

Module LcpTheorems.
Import Fsm PppChan Lcp LcpSafe.


(** Starting the layer establishes the invariant of C13: every option fits the space
    [conf_req_len] reserves for it. *)
Theorem lcp_options_init_inv {S} `{!LcpHost S} (env : lcp_env S) conf rand_fuel (s : S) :
  env_safe env -> handlers_fit conf -> lcp_auth (get_lcp s) = mk_ao [] None false ->
  lcp_inv (get_lcp (exec (lcp_options_init env conf rand_fuel) s)).
Proof.
  intros Henv Hfit Ha. apply (init_inv_lcp conf). unfold lcp_options_init. rewrite exec_bind.
  apply options_init_ok; [done..|]. unfold init_inv.
  change (exec (lcp_upd ?f) s) with (put_lcp (f (get_lcp s)) s). rewrite get_put_lcp.
  change (lcp_auth (apply_update _ (apply_update _ ?x))) with (lcp_auth x). rewrite Ha.
  split; [done|]. split; [by left|]. split; [constructor|done].
Qed.

Import LcpWorld.

Lemma world_env_safe : env_safe LcpWorld.env.
Proof.
  intros R. split; [done|]. split; [|by repeat split; intros; apply keeps_skip].
  intros c h s. done.
Qed.

Lemma lcp_options_init_inv_witness :
  lcp_inv (get_lcp (exec (lcp_options_init LcpWorld.env LcpWorld.conf 8) world0)).
Proof.
  apply (lcp_options_init_inv LcpWorld.env LcpWorld.conf 8 world0); [exact world_env_safe| |done].
  repeat constructor; cbn; lia.
Defined.

(** A Configure-Request for MRU 1400 and a magic number, in the session [world1]. *)
Definition demo_request : list Z := [192;33;1;5;0;14;1;4;5;120;5;6;1;2;3;4].
Definition demo_block : block := demo_request ++ repeat 0 (PPP_BUF_SIZE - length demo_request).
Definition demo_state : world := with_packet demo_request world1.

Lemma demo_inv : inv [] demo_block demo_state.
Proof.
  assert (w_lcp demo_state = w_lcp world1) as El by done.
  unfold inv. change (get_lcp demo_state) with (w_lcp world1).
  split; [by vm_compute|]. split; [done|]. split; [|split; [by vm_compute|by vm_compute]].
  split; [|split; [|by vm_compute]].
  - right. vm_compute. lia.
  - vm_compute. repeat constructor; discriminate.
Qed.


End LcpTheorems.

(** * What the length field can do *)
Module LcpLength.
Import Fsm PppChan Lcp LcpSafe.

Section Runs.
Context {S : Type} `{!LcpHost S}.

Lemma rd8_buf b off (s : S) :
  buf (get_io s) = Some b -> (off < length b)%nat -> rd8 off s = (byte_at b off, s).
Proof.
  intros Hb Ho. unfold rd8, mbind, st_bind, io_get, gets, the_buf. rewrite Hb. change (default [] (Some b)) with b.
  by rewrite (proj2 (Nat.leb_gt _ _)) by lia.
Qed.
Lemma rd16_buf b off (s : S) :
  buf (get_io s) = Some b -> (off + 1 < length b)%nat ->
  rd16 off s = (of_be16 (byte_at b off) (byte_at b (off + 1)), s).
Proof.
  intros Hb Ho. unfold rd16, mbind, st_bind. rewrite (rd8_buf b) by (done || lia).
  by rewrite (rd8_buf b) by (done || lia).
Qed.
Lemma wr_bytes_buf b off l (s : S) :
  buf (get_io s) = Some b -> (off + length l <= length b)%nat ->
  wr_bytes off l s = (tt, put_io ((get_io s) <| buf := Some (overwrite b off l) |>) s).
Proof.
  intros Hb Ho. unfold wr_bytes, mbind, st_bind, io_get, gets, the_buf. rewrite Hb. change (default [] (Some b)) with b.
  by rewrite (proj2 (Nat.ltb_ge _ _)) by lia.
Qed.

(** Sending the buffer back with another code: the first [len + 2] bytes of the block go
    out, however many of them were received. *)
Lemma resend_run b code (s : S) :
  buf (get_io s) = Some b -> (6 <= length b)%nat -> let len := of_be16 (byte_at b 4) (byte_at b 5) in
  0 < len + 2 <= 1498 -> len + 2 <= Z.of_nat (length b) ->
  exec (resend_buf code) s =
  put_io ((get_io s) <| buf := Some (overwrite b 2 [code]) |>
    <| sent ::= fun l => l ++ [pppoe_frame (get_io s) (take (Z.to_nat (len + 2)) (overwrite b 2 [code]))] |>) s.
Proof.
  intros Hb H6 len Hlen Hle. unfold resend_buf, exec, mbind, st_bind.
  rewrite (wr_bytes_buf b) by (done || (cbn; lia)). set (b' := overwrite b 2 [code]).
  assert (length b' = length b) as Hl'.
  { unfold b', overwrite. rewrite !length_app, length_take, length_drop. change (length [code]) with 1%nat. lia. }
  assert (byte_at b' 4 = byte_at b 4 /\ byte_at b' 5 = byte_at b 5) as [E4 E5].
  { destruct b as [|? [|? [|? [|? [|? [|? ?]]]]]]; cbn in H6; try lia. done. }
  set (s1 := put_io _ s). assert (buf (get_io s1) = Some b') as Hb1 by (subst s1; by rewrite get_put_io).
  rewrite (rd16_buf b') by (done || lia). rewrite E4. change (4 + 1)%nat with 5%nat. rewrite E5.
  fold len. unfold ppp_chan_send_buf, bad_size.
  rewrite (proj2 (Z.leb_gt _ 0)), (proj2 (Z.ltb_ge _ (len + 2))) by (unfold max_payload, ETHER_MAX_LEN; cbn; lia).
  cbn [orb]. unfold rd_bytes, mbind, st_bind, io_get, gets, the_buf. rewrite Hb1. change (default [] (Some b')) with b'.
  rewrite (proj2 (Nat.ltb_ge _ _)) by lia. cbn [when]. change (skip s1) with (tt, s1).
  unfold mret, st_ret, ppp_chan_send, bad_size. rewrite drop_0, length_take.
  rewrite (proj2 (Z.leb_gt _ 0)), (proj2 (Z.ltb_ge _ _)) by (unfold max_payload, ETHER_MAX_LEN; cbn; lia).
  cbn [orb]. unfold io_upd, modify. cbn [snd]. subst s1. rewrite get_put_io, put_put_io. done.
Qed.
Lemma exec_lcp_upd f (s : S) : exec (lcp_upd f) s = put_lcp (f (get_lcp s)) s.
Proof. done. Qed.
Lemma io_lcp_upd f (s : S) : get_io (exec (lcp_upd f) s) = get_io s.
Proof. apply get_io_put_lcp. Qed.
Lemma io_fsm_upd f (s : S) : get_io (exec (fsm_upd f) s) = get_io s.
Proof. apply get_io_put_lcp. Qed.
Lemma lcp_lcp_upd f (s : S) : get_lcp (exec (lcp_upd f) s) = f (get_lcp s).
Proof. apply get_put_lcp. Qed.

Variable env : lcp_env S.
Variable conf : lcp_conf.
Variable rand_fuel : nat.

(** A request whose option list starts with a zero length byte has no options at all for the
    parser, and is acknowledged. *)
Lemma empty_request_run b size (s : S) :
  buf (get_io s) = Some b -> (8 <= length b)%nat -> byte_at b 7 = 0 -> 0 < size ->
  ropt_list (get_lcp s) = [] ->
  val (lcp_recv_conf_req env conf HDR size) s = LCP_OPT_ACK /\
  exists l, exec (lcp_recv_conf_req env conf HDR size) s = put_lcp l s /\
    fsm l = fsm (get_lcp s) /\ started l = started (get_lcp s).
Proof.
  intros Hb H8 H7 Hsz Hr. unfold lcp_recv_conf_req. get_step.
  set (s1 := exec (lcp_upd (fun l => l <| ropt_len := size |>)) s).
  assert (scan_ropts (Z.to_nat size) HDR size s1 = ([], s1)) as Hscan.
  { destruct (Z.to_nat size) eqn:E; cbn [scan_ropts]; rewrite (proj2 (Z.leb_gt size 0)) by lia; [done|].
    unfold mbind, st_bind. rewrite (rd8_buf b) by ((subst s1; by rewrite io_lcp_upd) || (unfold HDR; lia)).
    change (HDR + 1)%nat with 7%nat. by rewrite H7. }
  assert (exec (scan_ropts (Z.to_nat size) HDR size) s1 = s1) as -> by (unfold exec; by rewrite Hscan).
  assert (val (scan_ropts (Z.to_nat size) HDR size) s1 = []) as -> by (unfold val; by rewrite Hscan).
  assert (ropt_list (get_lcp s1) = []) as -> by (subst s1; by rewrite lcp_lcp_upd).
  cbn [app answer_ropts]. split; [done|].
  subst s1.
  rewrite !exec_ret, !val_ret, !exec_lcp_upd, !get_put_lcp, !put_put_lcp.
  eexists. split; [reflexivity|]. split; reflexivity.
Qed.

Lemma confreq_acked b size (s : S) :
  buf (get_io s) = Some b -> (8 <= length b)%nat -> byte_at b 7 = 0 -> 0 < size ->
  ropt_list (get_lcp s) = [] -> started (get_lcp s) = false ->
  fsm_state (fsm (get_lcp s)) = FSM_Req_Sent ->
  exists s', get_io s' = get_io s /\
    get_io (exec (recv_confreq env conf rand_fuel size) s) = get_io (exec (resend_buf CONFACK) s').
Proof.
  intros Hb H8 H7 Hsz Hr Hst Hq.
  destruct (empty_request_run b size s Hb H8 H7 Hsz Hr) as (Hv & l & He & Hfsm & Hl).
  unfold recv_confreq. get_step. rewrite Hv, He, get_put_lcp, Hl, Hst. cbv beta iota zeta.
  change (LCP_OPT_ACK =? LCP_OPT_ACK) with true. change (LCP_OPT_ACK =? LCP_OPT_FAIL) with false.
  cbn [andb]. rewrite !exec_bind. change (exec (when false _) ?x) with x.
  unfold lcp_free_conf_req. rewrite io_lcp_upd.
  exists (put_lcp l s). rewrite get_io_put_lcp. split; [done|].
  unfold ppp_fsm_recv_conf_req_ack. get_step. rewrite get_put_lcp, Hfsm, Hq.
  cbv beta iota zeta. rewrite exec_bind. unfold set_state. by rewrite io_fsm_upd.
Qed.

End Runs.

(** The bytes of an 8-byte Configure-Request that claims [len] bytes and whose first option
    has length 0. *)
Definition long_request (i len : Z) : list Z := [192;33;1;i] ++ be16 len ++ [0;0].

(** A Configure-Request may claim more bytes than were received.  Such a packet is
    acknowledged, and the Configure-Ack carries the claimed number of bytes of the receive
    buffer: everything after the eight bytes received is what earlier packets, of this
    session or of others, left in the pooled buffer. *)
Theorem conf_ack_discloses_buffer {S} `{!LcpHost S} (env : lcp_env S) conf rand_fuel
    (s : S) i len stale :
  is_u8 i -> 6 < len <= 1496 -> len - 6 <= Z.of_nat (length stale) ->
  buf (get_io s) = Some (long_request i len ++ stale) -> buf_size (get_io s) = 8 ->
  fsm_state (fsm (get_lcp s)) = FSM_Req_Sent -> started (get_lcp s) = false ->
  ropt_list (get_lcp s) = [] -> terminating env s = false ->
  sent (get_io (exec (lcp_recv env conf rand_fuel) s)) =
  sent (get_io s) ++ [pppoe_frame (get_io s)
    ([192;33;CONFACK;i] ++ be16 len ++ [0;0] ++ take (Z.to_nat (len - 6)) stale)].
Proof.
  intros Hi Hlen Hst Hbuf Hbs Hq Hs Hr Ht.
  set (b := long_request i len ++ stale) in *.
  assert (length b = 8 + length stale)%nat as Hbl by done.
  assert (of_be16 (byte_at b 4) (byte_at b 5) = len) as Hl by (apply of_be16_be16; width_lia).
  unfold lcp_recv, exec, mbind, st_bind, io_get, gets. rewrite Hbs.
  change (8 <? PPP_HEADERLEN + 2) with false. cbv beta iota.
  rewrite (rd16_buf b) by (done || lia). change (4 + 1)%nat with 5%nat. rewrite Hl.
  rewrite (proj2 (Z.ltb_ge len PPP_HEADERLEN)) by (unfold PPP_HEADERLEN; lia).
  cbv beta iota. rewrite !(rd8_buf b) by (done || lia). unfold fsm_get, lcp_get, gets.
  change (byte_at b 2) with CONFREQ. change (byte_at b 3) with i.
  change (is_conf_reply CONFREQ) with false. cbn [andb].
  change (get_fsm s) with (fsm (get_lcp s)). rewrite Hq, Ht. cbn [andb orb bool_decide].
  rewrite !bool_decide_eq_false_2 by done. cbn [orb].
  change (fsm_upd ?f s) with (tt, exec (fsm_upd f) s). cbv beta iota.
  set (s1 := exec (fsm_upd _) s).
  assert (get_io s1 = get_io s) as Eio by apply io_fsm_upd.
  assert (get_lcp s1 = (get_lcp s) <| fsm := (fsm (get_lcp s)) <| recv_id := i |> |>) as Elcp
    by apply get_put_lcp.
  unfold recv_dispatch. change (CONFREQ =? CONFREQ) with true. cbv iota.
  destruct (confreq_acked env conf rand_fuel b (len - PPP_HDRLEN) s1) as (s' & Es' & Hack);
    try (rewrite Elcp; assumption); try (rewrite Eio; assumption); try (unfold PPP_HDRLEN; lia); [done|].
  unfold exec in Hack at 1. rewrite Hack.
  rewrite (resend_run b) by (rewrite ?Es', ?Eio, ?Hl; done || lia).
  rewrite get_put_io, Es', Eio, Hl. change (sent (apply_update _ (apply_update _ (get_io s))))
    with (sent (get_io s) ++ [pppoe_frame (get_io s) (take (Z.to_nat (len + 2)) (overwrite b 2 [CONFACK]))]).
  do 3 f_equal. replace (Z.to_nat (len + 2)) with (8 + Z.to_nat (len - 6))%nat by lia. done.
Qed.

Import LcpWorld.

(** The receive buffer after a packet of 42s. *)
Definition leak_world : world :=
  mk_world (w_lcp world1)
    ((w_io world1) <| buf := Some (long_request 5 1400 ++ repeat 42 (PPP_BUF_SIZE - 8)) |>
                   <| buf_size := 8 |>) [].

Lemma conf_ack_discloses_buffer_witness :
  sent (get_io (exec (lcp_recv LcpWorld.env LcpWorld.conf 8) leak_world)) =
  sent (get_io leak_world) ++ [pppoe_frame (get_io leak_world)
    ([192;33;CONFACK;5] ++ be16 1400 ++ [0;0] ++
     take (Z.to_nat (1400 - 6)) (repeat 42 (PPP_BUF_SIZE - 8)))].
Proof.
  apply (@conf_ack_discloses_buffer world world_lcp LcpWorld.env LcpWorld.conf 8 leak_world 5 1400
    (repeat 42 (PPP_BUF_SIZE - 8))); try (by vm_compute); try lia.
Defined.

(** Eight bytes received, a block left full of 8s, and a length field of 65535. *)
Definition overread_world : world :=
  mk_world (w_lcp world1)
    ((w_io world1) <| buf := Some ([192;33;1;5;255;255;1;8] ++ repeat 8 (PPP_BUF_SIZE - 8)) |>
                   <| buf_size := 8 |>) [].

(** With a length field larger than the buffer the option walk leaves the buffer: one
    received packet of eight bytes makes [lcp_recv] read outside the [PPP_BUF_SIZE] block. *)
Theorem lcp_recv_overread :
  fault (w_io overread_world) = false /\
  fault (w_io (exec (lcp_recv LcpWorld.env LcpWorld.conf 8) overread_world)) = true.
Proof. split; by vm_compute. Qed.

End LcpLength.

(** * Echo *)
Module LcpEcho.
Import Fsm PppChan Lcp LcpSafe LcpLength.

Section Echo.
Context {S : Type} `{!LcpHost S}.
Variable env : lcp_env S.
Variable conf : lcp_conf.
Hypothesis no_timeout : conf_echo_timeout conf = 0.

Abbreviation tick := (exec (send_echo_request env conf)).

Lemma tick_send (s : S) :
  0 <= echo_sent (get_lcp s) <= conf_echo_failure conf -> conf_echo_failure conf < 2 ^ 31 - 1 ->
  echo_sent (get_lcp (tick s)) = echo_sent (get_lcp s) + 1 /\
  sent (get_io (tick s)) = sent (get_io s) ++
    [pppoe_frame (get_io s) (lcp_packet ECHOREQ (id (fsm (get_lcp s))) (be32 (lcp_magic (get_lcp s))))].
Proof.
  intros Hn Hf. unfold send_echo_request. rewrite no_timeout. change (negb (0 =? 0)) with false.
  cbv iota zeta. get_step. rewrite (proj2 (Z.ltb_ge _ _)) by lia. get_step.
  set (s1 := exec (fsm_upd _) s). rewrite !exec_lcp_upd.
  assert (get_lcp s1 = (get_lcp s) <| fsm := (fsm (get_lcp s)) <| id := u8 (id (fsm (get_lcp s)) + 1) |> |>)
    as El by apply get_put_lcp.
  assert (get_io s1 = get_io s) as Ei by apply io_fsm_upd.
  unfold ppp_chan_send. change (bad_size _) with false. cbv iota.
  change (exec (io_upd ?f) ?x) with (put_io (f (get_io x)) x).
  rewrite get_lcp_put_io, get_put_io, get_put_lcp, get_io_put_lcp, El, Ei. split; [|done].
  change (s32 (echo_sent (get_lcp s) + 1) = echo_sent (get_lcp s) + 1). apply s32_small. width_lia.
Qed.

Lemma tick_dead (s : S) :
  conf_echo_failure conf < echo_sent (get_lcp s) ->
  tick s = exec (ses_terminate env TERM_LOST_CARRIER 1) s.
Proof.
  intros Hn. unfold send_echo_request. rewrite no_timeout. change (negb (0 =? 0)) with false.
  cbv iota zeta. get_step. by rewrite (proj2 (Z.ltb_lt _ _)) by lia.
Qed.

Lemma ticks_count (s : S) n :
  echo_sent (get_lcp s) = 0 -> 0 <= conf_echo_failure conf < 2 ^ 31 - 1 ->
  (Z.of_nat n <= conf_echo_failure conf + 1) ->
  let s' := Nat.iter n tick s in
  echo_sent (get_lcp s') = Z.of_nat n /\
  length (sent (get_io s')) = (length (sent (get_io s)) + n)%nat.
Proof.
  intros H0 Hf. induction n as [|n IH]; intros Hn; cbn [Nat.iter nat_rect]; [by rewrite H0|].
  destruct IH as [IH1 IH2]; [lia|]. fold (Nat.iter n tick s) in *.
  destruct (tick_send (Nat.iter n tick s)) as [H1 H2]; [rewrite IH1; lia|lia|].
  change (nat_rect _ s (fun _ => tick) n) with (Nat.iter n tick s).
  rewrite H1, H2, length_app, IH1, IH2. cbn. lia.
Qed.
End Echo.


Import LcpWorld.


End LcpEcho.
