(* ===== verification/LcpNeg.v ===== *)
(** What LCP negotiates: the MTU never exceeds what the link and the configuration allow,
    and a Configure-Request is read back, option by option, as it was written. *)

From stdpp Require Import base tactics list numbers option.
From Stdlib Require Import ZArith Lia.
From S2P Require Import Prelude Fsm PppChan Lcp LcpProps.

Open Scope Z_scope.

(** * The MTU *)
Module LcpMtu.
Import Fsm PppChan Lcp FsmKeeps.

Section Mtu.
Context {S : Type} `{!LcpHost S}.
Variable env : lcp_env S.
Variable conf : lcp_conf.
Variable rand_fuel : nat.
(** The MTU of the link, [ses.ctrl->max_mtu], is fixed for a session. *)
Variable link_mtu : Z.

Definition mtu_ok (s : S) : Prop :=
  mtu (get_io s) <= link_mtu /\ mtu (get_io s) <= conf_max_mtu conf.

(** What the code LCP calls must respect. *)
Definition env_mtu : Prop :=
  (forall s, max_mtu env s = link_mtu) /\
  (forall c h, keeps mtu_ok (ses_terminate env c h)) /\ keeps mtu_ok (layer_started_ env) /\
  keeps mtu_ok (layer_finished_ env) /\ (forall p, keeps mtu_ok (proto_rej env p)) /\
  keeps mtu_ok (random env) /\ keeps mtu_ok (read_stats env) /\ keeps mtu_ok (get_flags env) /\
  (forall v, keeps mtu_ok (set_flags env v)).
Hypothesis Henv : env_mtu.

Lemma mtu_lcp_upd f : keeps mtu_ok (lcp_upd f).
Proof. intros s Hs. unfold mtu_ok, exec, lcp_upd, modify. cbn. by rewrite get_io_put_lcp. Qed.
Lemma mtu_fsm_upd f : keeps mtu_ok (fsm_upd (S := S) f).
Proof. intros s Hs. unfold mtu_ok, exec, fsm_upd, modify. cbn. by rewrite get_io_put_lcp. Qed.
Lemma mtu_io_upd f : (forall io, mtu (f io) = mtu io) -> keeps mtu_ok (io_upd f).
Proof.
  intros Hf s Hs. unfold mtu_ok, exec, io_upd, modify. cbn. by rewrite get_put_io, Hf.
Qed.
Lemma mtu_gets {A} (f : S -> A) : keeps mtu_ok (gets f).
Proof. apply keeps_gets. Qed.

Ltac mtu_step :=
  lazymatch goal with
  | |- keeps _ (mbind _ _) => apply keeps_bind; [|intros]
  | |- keeps _ (mret _) => apply keeps_ret
  | |- keeps _ skip => apply keeps_skip
  | |- keeps _ (when _ _) => apply keeps_when
  | |- keeps _ (lcp_get _) => apply mtu_gets
  | |- keeps _ (fsm_get _) => apply mtu_gets
  | |- keeps _ (io_get _) => apply mtu_gets
  | |- keeps _ (gets _) => apply mtu_gets
  | |- keeps _ (fsm_upd _) => apply mtu_fsm_upd
  | |- keeps _ (lcp_upd _) => apply mtu_lcp_upd
  | |- keeps _ (io_upd _) => apply mtu_io_upd; by intros
  | |- keeps _ (ses_terminate _ _ _) => apply Henv
  | |- keeps _ (layer_started_ _) => apply Henv
  | |- keeps _ (layer_finished_ _) => apply Henv
  | |- keeps _ (proto_rej _ _) => apply Henv
  | |- keeps _ (random _) => apply Henv
  | |- keeps _ (read_stats _) => apply Henv
  | |- keeps _ (get_flags _) => apply Henv
  | |- keeps _ (set_flags _ _) => apply Henv
  | |- keeps _ (match ?x with _ => _ end) => destruct x
  end.
Ltac mtu_auto := repeat mtu_step.

Lemma mtu_rd8 off : keeps mtu_ok (rd8 (S := S) off).
Proof. unfold rd8, set_fault. mtu_auto. Qed.
Lemma mtu_rd16 off : keeps mtu_ok (rd16 (S := S) off).
Proof. unfold rd16. mtu_auto; apply mtu_rd8. Qed.
Lemma mtu_rd32 off : keeps mtu_ok (rd32 (S := S) off).
Proof. unfold rd32. mtu_auto; apply mtu_rd8. Qed.
Lemma mtu_rd_bytes off n : keeps mtu_ok (rd_bytes (S := S) off n).
Proof. unfold rd_bytes, set_fault. mtu_auto. Qed.
Lemma mtu_wr_bytes off l : keeps mtu_ok (wr_bytes (S := S) off l).
Proof. unfold wr_bytes, set_fault. mtu_auto. Qed.
Lemma mtu_send d : keeps mtu_ok (ppp_chan_send (S := S) d).
Proof. unfold ppp_chan_send. mtu_auto. Qed.
Lemma mtu_send_buf n : keeps mtu_ok (ppp_chan_send_buf (S := S) n).
Proof. unfold ppp_chan_send_buf. mtu_auto; [apply mtu_rd_bytes|apply mtu_send]. Qed.
Lemma mtu_built cap p : keeps mtu_ok (built_in (S := S) cap p).
Proof. unfold built_in, set_fault. mtu_auto. Qed.
Lemma mtu_nzmagic old : keeps mtu_ok (nzmagic env rand_fuel old).
Proof. unfold nzmagic. induction rand_fuel; cbn [nzmagic_loop]; cbv zeta; mtu_auto; done. Qed.
Lemma mtu_auth_send : keeps mtu_ok (auth_send_conf_req (S := S) conf).
Proof. unfold auth_send_conf_req, set_fault. cbv zeta. mtu_auto. Qed.

Lemma mtu_req : keeps mtu_ok (send_conf_req (S := S) conf).
Proof.
  assert (forall os, keeps mtu_ok (gather_req (S := S) conf os)) as Hg.
  { induction os as [|o os IH]; cbn [gather_req]; [apply keeps_ret|].
    apply keeps_bind; [unfold opt_send_conf_req; mtu_auto; apply mtu_auth_send|].
    intros; mtu_auto; done. }
  unfold send_conf_req. cbv zeta. mtu_auto; [apply Hg|apply mtu_built|apply mtu_send].
Qed.
Lemma mtu_nak : keeps mtu_ok (send_conf_nak env conf rand_fuel).
Proof.
  assert (forall os, keeps mtu_ok (gather_nak env conf rand_fuel os)) as Hg.
  { induction os as [|o os IH]; cbn [gather_nak]; [apply keeps_ret|].
    apply keeps_bind; [|intros; mtu_auto; done].
    unfold opt_send_conf_nak, set_fault. destruct (_ =? _); [|apply keeps_ret].
    destruct (opt_obj o); mtu_auto; [apply mtu_nzmagic|apply mtu_auth_send]. }
  unfold send_conf_nak. cbv zeta. mtu_auto; [apply Hg|apply mtu_built|apply mtu_send].
Qed.
Lemma mtu_rej : keeps mtu_ok (send_conf_rej (S := S)).
Proof.
  assert (forall rs, keeps mtu_ok (gather_rej (S := S) rs)) as Hg.
  { induction rs as [|r rs IH]; cbn [gather_rej]; [apply keeps_ret|].
    apply keeps_bind; [mtu_auto; apply mtu_rd_bytes|intros; mtu_auto; done]. }
  unfold send_conf_rej. cbv zeta. mtu_auto; [apply Hg|apply mtu_built|apply mtu_send].
Qed.
Lemma mtu_resend c : keeps mtu_ok (resend_buf (S := S) c).
Proof.
  unfold resend_buf. apply keeps_bind; [apply mtu_wr_bytes|intros].
  apply keeps_bind; [apply mtu_rd16|intros; apply mtu_send_buf].
Qed.
Lemma mtu_stop_echo : keeps mtu_ok (stop_echo (S := S)).
Proof. unfold stop_echo. mtu_auto. Qed.

Lemma mtu_handle e : keeps mtu_ok (handle (lcp_ops env conf rand_fuel) e).
Proof.
  apply keeps_handle; cbn; try (intros m [= <-]); try done.
  - apply mtu_fsm_upd.
  - unfold lcp_layer_up, start_echo. mtu_auto.
  - apply keeps_skip.
  - unfold lcp_layer_finished. mtu_auto; apply mtu_stop_echo.
  - apply mtu_req.
  - apply mtu_resend.
  - apply mtu_nak.
  - apply mtu_rej.
  - apply mtu_resend.
  - unfold send_term_req. mtu_auto. apply mtu_send.
  - unfold send_term_ack. mtu_auto. apply mtu_send.
Qed.

(** The only place an MTU comes from the peer. *)
Lemma mtu_recv_mru m t n r off : keeps mtu_ok (mru_recv_conf_req env conf m t n r off).
Proof.
  unfold mru_recv_conf_req. apply keeps_bind; [apply mtu_rd8|intros]. mtu_step; [apply keeps_ret|].
  apply keeps_bind; [apply mtu_rd16|intros v]. intros s Hs. rewrite exec_bind.
  change (exec (gets _) s) with s. change (val (gets _) s) with (max_mtu env s).
  rewrite (proj1 Henv). destruct (_ || _) eqn:E; [done|]. to_prop.
  unfold mtu_ok. rewrite exec_bind, exec_ret. change (exec (io_upd ?f) s) with (put_io (f (get_io s)) s).
  rewrite get_put_io. cbn. lia.
Qed.

Lemma mtu_scan fuel off size : keeps mtu_ok (scan_ropts (S := S) fuel off size).
Proof.
  revert off size. induction fuel as [|n IH]; intros off size; cbn [scan_ropts]; mtu_auto;
    [apply mtu_rd8|apply IH].
Qed.

Lemma mtu_find off : keeps mtu_ok (find_option (S := S) off).
Proof. unfold find_option. mtu_auto. apply mtu_rd8. Qed.

Lemma mtu_answers rs ret : keeps mtu_ok (answer_ropts env conf rs ret).
Proof.
  revert ret. induction rs as [|r rs IH]; intros ret; cbn [answer_ropts]; [apply keeps_ret|].
  apply keeps_bind; [|intros; mtu_auto; apply IH].
  unfold answer_ropt, set_option. cbv zeta. apply keeps_bind; [apply mtu_find|].
  intros [[n o]|]; [|mtu_auto]. apply keeps_bind; [|intros; mtu_auto].
  unfold opt_recv_conf_req, magic_recv_conf_req, comp_recv_conf_req.
  destruct (opt_obj o); [apply mtu_recv_mru|..]; mtu_auto; first [apply mtu_rd8|apply mtu_rd32].
Qed.

Lemma mtu_walk f fuel off size res :
  (forall n o off, keeps mtu_ok (f n o off)) -> keeps mtu_ok (walk_opts (S := S) f fuel off size res).
Proof.
  intros Hf. revert off size res. induction fuel as [|n IH]; intros off size res; cbn [walk_opts];
    mtu_auto; first [apply mtu_rd8|apply mtu_find|apply IH|apply Hf].
Qed.

Lemma mtu_current m : keeps mtu_ok m -> keeps mtu_ok (if_current_id (S := S) m).
Proof. intros. unfold if_current_id. mtu_auto. done. Qed.
Lemma mtu_stale m : keeps mtu_ok m -> keeps mtu_ok (unless_stale (S := S) m).
Proof. intros. unfold unless_stale. mtu_auto. done. Qed.

Lemma mtu_auth_nak : keeps mtu_ok (auth_recv_conf_nak (S := S)).
Proof. unfold auth_recv_conf_nak. cbv zeta. mtu_auto. Qed.
Lemma mtu_opt_rej o : keeps mtu_ok (opt_recv_conf_rej (S := S) o).
Proof. unfold opt_recv_conf_rej. mtu_auto. apply mtu_auth_nak. Qed.
Lemma mtu_opt_nak o off : keeps mtu_ok (opt_recv_conf_nak env rand_fuel o off).
Proof.
  unfold opt_recv_conf_nak, magic_recv_conf_nak, comp_recv_conf_nak. mtu_auto;
    first [apply mtu_rd8|apply mtu_rd32|apply mtu_nzmagic|apply mtu_auth_nak].
Qed.

Lemma mtu_dispatch code size : keeps mtu_ok (recv_dispatch env conf rand_fuel code size).
Proof.
  pose proof mtu_handle as Hh. unfold recv_dispatch. repeat (mtu_step; []).
  destruct (code =? CONFREQ).
  { unfold recv_confreq, lcp_recv_conf_req, send_conf_ack, lcp_free_conf_req. cbv zeta.
    mtu_auto; first [apply mtu_scan|apply mtu_answers|apply mtu_resend
      |apply (Hh EvConfReqAck)|apply (Hh EvConfReqNak)|apply (Hh EvConfReqRej)]. }
  destruct (code =? CONFACK).
  { apply keeps_bind.
    - apply mtu_current, mtu_walk. intros n o off. unfold opt_recv_conf_ack, set_comp_flag. cbv zeta.
      destruct (opt_obj o); mtu_auto.
    - intros. mtu_step; [apply Henv|apply mtu_stale, (Hh EvConfAck)]. }
  destruct (code =? CONFNAK).
  { apply keeps_bind; [|intros; apply mtu_stale, (Hh EvConfRej)].
    apply mtu_current, mtu_walk. intros n o off. unfold set_option. mtu_auto. apply mtu_opt_nak. }
  destruct (code =? CONFREJ).
  { apply keeps_bind; [|intros; mtu_step; [apply Henv|apply mtu_stale, (Hh EvConfRej)]].
    apply mtu_current, mtu_walk. intros n o off. unfold set_option. mtu_auto. apply mtu_opt_rej. }
  destruct (code =? TERMREQ). { mtu_step; [apply (Hh EvTermReq)|apply Henv]. }
  destruct (code =? TERMACK); [apply (Hh EvTermAck)|].
  destruct (code =? CODEREJ); [apply (Hh EvCodeRejBad)|].
  destruct (code =? ECHOREQ).
  { unfold send_echo_reply, note_echo. mtu_auto;
      first [apply mtu_wr_bytes|apply mtu_rd16|apply mtu_send_buf]. }
  destruct (code =? ECHOREP). { unfold lcp_recv_echo_repl, note_echo. mtu_auto. apply mtu_rd32. }
  destruct (code =? PROTOREJ). { mtu_auto. apply mtu_rd16. }
  destruct (_ || _); [apply keeps_skip|apply (Hh EvUnknown)].
Qed.

Lemma mtu_recv : keeps mtu_ok (lcp_recv env conf rand_fuel).
Proof.
  unfold lcp_recv. mtu_auto; first [apply mtu_rd16|apply mtu_rd8|apply mtu_dispatch].
Qed.

Lemma mtu_init s : mtu_ok (exec (mru_init env conf) s).
Proof.
  unfold mru_init, mtu_ok. rewrite exec_bind. change (exec (gets _) s) with s.
  change (val (gets _) s) with (max_mtu env s). rewrite (proj1 Henv). cbv zeta.
  rewrite exec_bind, exec_ret. change (exec (io_upd ?f) s) with (put_io (f (get_io s)) s).
  rewrite get_put_io. cbn. destruct (negb _ && _) eqn:E; to_prop;
    destruct (Z.ltb_spec (conf_max_mtu conf) (conf_mtu conf)), (Z.ltb_spec (conf_max_mtu conf) link_mtu);
    lia.
Qed.
End Mtu.

(** Once the MRU option is set up, no sequence of received LCP packets can raise the
    MTU above the MTU of the link or above the configured maximum.  [loads] puts the
    packets in the receive buffer. *)
Theorem mtu_never_exceeds_link {S} `{!LcpHost S} (env : lcp_env S) conf rand_fuel link_mtu (s : S)
    (loads : list (S -> S)) :
  env_mtu env conf link_mtu ->
  Forall (fun load => forall s, mtu (get_io (load s)) = mtu (get_io s)) loads ->
  mtu_ok conf link_mtu
    (foldl (fun s load => exec (lcp_recv env conf rand_fuel) (load s)) (exec (mru_init env conf) s) loads).
Proof.
  intros Henv Hl. pose proof (mtu_init env conf link_mtu Henv s) as H0. revert H0.
  generalize (exec (mru_init env conf) s). induction Hl as [|load loads Hload Hl IH]; intros s1 H1; [done|].
  apply IH. apply mtu_recv; [done|]. unfold mtu_ok in *. by rewrite Hload.
Qed.

Import LcpWorld.

Lemma mtu_never_exceeds_link_witness :
  mtu_ok LcpWorld.conf 1492
    (foldl (fun s load => exec (lcp_recv LcpWorld.env LcpWorld.conf 8) (load s))
       (exec (mru_init LcpWorld.env LcpWorld.conf) LcpWorld.world1)
       [LcpWorld.with_packet LcpTheorems.demo_request;
        LcpWorld.with_packet [192;33;1;6;0;8;1;4;255;255]]).
Proof.
  apply (mtu_never_exceeds_link LcpWorld.env LcpWorld.conf 8 1492 LcpWorld.world1).
  - refine (conj (fun _ => eq_refl) _). repeat refine (conj _ _); by repeat intro.
  - by repeat constructor.
Defined.

End LcpMtu.

(** * Options on the wire *)
Module LcpWire.
Import Fsm PppChan Lcp LcpSafe LcpLength.

(** An option: its id, the length that counts the two header bytes, its body. *)
Definition tlv (o : Z * list Z) : list Z := [o.1; 2 + Z.of_nat (length o.2)] ++ o.2.
Definition tlvs (os : list (Z * list Z)) : list Z := concat (map tlv os).
Definition tlv_ok (o : Z * list Z) : Prop := (length o.2 <= 253)%nat.

(** What the receiver's list should be for options written at [off]. *)
Fixpoint ropts_at (off : nat) (os : list (Z * list Z)) : list recv_opt_t :=
  match os with
  | [] => []
  | o :: os =>
      mk_ropt off (2 + Z.of_nat (length o.2)) LCP_OPT_NONE false :: ropts_at (off + length (tlv o)) os
  end.

Lemma tlv_length o : length (tlv o) = (2 + length o.2)%nat.
Proof. done. Qed.

Section Wire.
Context {S : Type} `{!LcpHost S}.

Lemma scan_tlvs os : forall fuel off pre post (s : S),
  buf (get_io s) = Some (pre ++ tlvs os ++ post) -> length pre = off -> Forall tlv_ok os ->
  (length os <= fuel)%nat ->
  scan_ropts fuel off (Z.of_nat (length (tlvs os))) s = (ropts_at off os, s).
Proof.
  induction os as [|o os IH]; intros fuel off pre post s Hb Hoff Hok Hf; [by destruct fuel|].
  destruct fuel as [|fuel]; [cbn in Hf; lia|]. inversion Hok as [|?? Ho Hos]. subst.
  change (tlvs (o :: os)) with (tlv o ++ tlvs os) in *. set (b := pre ++ _) in Hb.
  assert (byte_at b (length pre + 1) = 2 + Z.of_nat (length o.2)) as Hlen.
  { subst b. unfold byte_at. rewrite app_nth2 by lia.
    replace (length pre + 1 - length pre)%nat with 1%nat by lia. done. }
  cbn [scan_ropts]. rewrite length_app, tlv_length.
  rewrite (proj2 (Z.leb_gt _ 0)) by lia. unfold mbind, st_bind.
  rewrite (rd8_buf b); [|done|subst b; rewrite !length_app, tlv_length; lia]. rewrite Hlen.
  rewrite (proj2 (Z.eqb_neq _ 0)), (proj2 (Z.ltb_ge _ _)) by lia. cbn [orb].
  replace (Z.of_nat (2 + length o.2 + length (tlvs os)) - (2 + Z.of_nat (length o.2)))
    with (Z.of_nat (length (tlvs os))) by lia.
  rewrite (IH fuel _ (pre ++ tlv o) post s).
  - cbn [ropts_at]. rewrite tlv_length. replace (Z.to_nat (2 + Z.of_nat (length o.2))) with (2 + length o.2)%nat by lia. done.
  - rewrite Hb. subst b. by rewrite <- !app_assoc.
  - rewrite length_app, tlv_length. lia.
  - done.
  - cbn in Hf. lia.
Qed.

Lemma tlvs_count os : (length os <= length (tlvs os))%nat.
Proof.
  induction os as [|o os IH]; [done|]. change (tlvs (o :: os)) with (tlv o ++ tlvs os).
  rewrite length_app, tlv_length. cbn. lia.
Qed.

(** Reading back the bytes of an option. *)
Lemma slices os : forall off pre post,
  length pre = off ->
  map (fun r => take (Z.to_nat (ropt_olen r)) (drop (ropt_hdr r) (pre ++ tlvs os ++ post)))
    (ropts_at off os) = map tlv os.
Proof.
  induction os as [|o os IH]; intros off pre post Hoff; [done|]. subst. cbn [ropts_at map ropt_olen ropt_hdr].
  change (tlvs (o :: os)) with (tlv o ++ tlvs os). f_equal.
  - rewrite drop_app_length. replace (Z.to_nat (2 + Z.of_nat (length o.2))) with (length (tlv o))
      by (rewrite tlv_length; lia). rewrite <- app_assoc. by rewrite take_app_length.
  - rewrite <- (IH (length pre + length (tlv o))%nat (pre ++ tlv o) post)
      by (rewrite length_app; lia).
    by rewrite <- !app_assoc.
Qed.

(** Authentication handlers whose option fits one length byte. *)
Definition small_auth (s : S) : Prop :=
  Forall (fun d => (length (ah_conf (ad_h d)) <= 251)%nat) (auth_list (lcp_auth (get_lcp s))).

Lemma auth_send_list conf (s : S) :
  auth_list (lcp_auth (get_lcp (exec (auth_send_conf_req conf) s))) = auth_list (lcp_auth (get_lcp s)).
Proof.
  unfold auth_send_conf_req. get_step. destruct (_ || _); [done|]. set (m := when _ _).
  assert (auth_list (lcp_auth (get_lcp (exec m s))) = auth_list (lcp_auth (get_lcp s))) as E.
  { subst m. destruct (match cur_auth _ with None => _ | _ => _ end); [|done]. cbn [when].
    destruct (find_auth _); [|done]. by rewrite exec_lcp_upd, get_put_lcp. }
  clearbody m. get_step. destruct (cur_auth _); [exact E|]. rewrite exec_bind, exec_ret.
  change (exec set_fault ?x) with (put_io ((get_io x) <| fault := true |>) x). by rewrite get_lcp_put_io.
Qed.

Lemma auth_send_tlv conf (s : S) :
  small_auth s -> exists os, val (auth_send_conf_req conf) s = tlvs os /\ Forall tlv_ok os.
Proof.
  intros Hs. unfold auth_send_conf_req. get_step. destruct (_ || _); [by exists []|].
  set (m := when _ _).
  assert (auth_list (lcp_auth (get_lcp (exec m s))) = auth_list (lcp_auth (get_lcp s))) as El.
  { subst m. destruct (match cur_auth _ with None => _ | _ => _ end); [|done]. cbn [when].
    destruct (find_auth _); [|done]. by rewrite exec_lcp_upd, get_put_lcp. }
  clearbody m. get_step. destruct (cur_auth _) as [d|] eqn:E; [|by exists []].
  rewrite val_ret. exists [(CI_AUTH, be16 (ad_proto d) ++ ah_conf (ad_h d))].
  assert (In d (auth_list (lcp_auth (get_lcp s)))) as Hd.
  { rewrite <- El. unfold cur_auth in E. destruct (auth _) as [i|]; [|done].
    by apply list_elem_of_In, list_elem_of_lookup_2 with i. }
  unfold small_auth in Hs. rewrite Forall_forall in Hs. specialize (Hs d Hd).
  split; [|constructor; [unfold tlv_ok; cbn; lia|constructor]].
  unfold tlvs. cbn [map concat]. rewrite app_nil_r. unfold tlv. cbn [fst snd].
  rewrite length_app. cbn [length be16].
  replace (u8 (4 + Z.of_nat (length (ah_conf (ad_h d))))) with (2 + Z.of_nat (2 + length (ah_conf (ad_h d))))
    by (rewrite u8_small; width_lia). done.
Qed.

Lemma gather_tlvs conf opts : forall (s : S),
  small_auth s ->
  exists os, val (gather_req conf opts) s = Some (tlvs os) /\ Forall tlv_ok os.
Proof.
  induction opts as [|o opts IH]; intros s Hs; [by exists []|]. cbn [gather_req].
  assert (exists os, val (opt_send_conf_req conf o) s = Some (tlvs os) /\ Forall tlv_ok os) as (os1 & E1 & Hok1).
  { unfold opt_send_conf_req. destruct (opt_obj o) as [m t n r|m|a|a|].
    - destruct (n || r); [by exists []|]. exists [(CI_MRU, be16 m)]. split; [done|].
      repeat constructor; unfold tlv_ok; cbn; lia.
    - destruct (m =? 0); [by exists []|]. exists [(CI_MAGIC, be32 m)]. split; [done|].
      repeat constructor; unfold tlv_ok; cbn; lia.
    - rewrite val_ret. destruct (negb _); [|by exists []]. exists [(CI_ACCOMP, [])]. split; [done|].
      repeat constructor; unfold tlv_ok; cbn; lia.
    - rewrite val_ret. destruct (negb _); [|by exists []]. exists [(CI_PCOMP, [])]. split; [done|].
      repeat constructor; unfold tlv_ok; cbn; lia.
    - rewrite val_bind, val_ret. destruct (auth_send_tlv conf s Hs) as (os & -> & Hok). by exists os. }
  rewrite val_bind, E1.
  destruct (IH (exec (opt_send_conf_req conf o) s)) as (os2 & E2 & Hok2).
  { unfold small_auth, opt_send_conf_req. destruct (opt_obj o); repeat case_match; try done.
    rewrite exec_bind, exec_ret, auth_send_list. done. }
  rewrite val_bind, E2, val_ret. exists (os1 ++ os2). split; [|by apply Forall_app].
  cbn. unfold tlvs. by rewrite map_app, concat_app.
Qed.
End Wire.

(** C37: the option list of a Configure-Request is a sequence of well-formed options, and the
    receiver of that request, whatever stands in its buffer after it, finds exactly these
    options, byte for byte and in order. *)
Theorem conf_req_roundtrip {S T} `{!LcpHost S} `{!LcpHost T} conf (s : S) :
  small_auth s ->
  exists os, val (gather_req conf (options (get_lcp s))) s = Some (tlvs os) /\
    forall (t : T) i stale,
      buf (get_io t) = Some (lcp_packet CONFREQ i (tlvs os) ++ stale) ->
      Z.of_nat (length (tlvs os)) <= 1492 ->
      let b := lcp_packet CONFREQ i (tlvs os) ++ stale in
      let size := pkt_len b - PPP_HDRLEN in
      let rs := val (scan_ropts (Z.to_nat size) HDR size) t in
      map (fun r => take (Z.to_nat (ropt_olen r)) (drop (ropt_hdr r) b)) rs = map tlv os.
Proof.
  intros Hs. destruct (gather_tlvs conf (options (get_lcp s)) s Hs) as (os & E & Hok).
  exists os. split; [done|]. intros t i stale Hb Hn b size.
  assert (size = Z.of_nat (length (tlvs os))) as ->.
  { unfold size, pkt_len, PPP_HDRLEN. change (byte_at b 4) with (u8 (Z.shiftr (Z.of_nat (length (tlvs os)) + 4) 8)).
    change (byte_at b 5) with (u8 (Z.of_nat (length (tlvs os)) + 4)). rewrite of_be16_be16 by width_lia. lia. }
  set (pre := be16 PPP_LCP ++ [CONFREQ; i] ++ be16 (Z.of_nat (length (tlvs os)) + 4)).
  assert (b = pre ++ tlvs os ++ stale) as Eb.
  { unfold b, lcp_packet, pre. by rewrite <- !app_assoc. }
  unfold val. rewrite (scan_tlvs os _ HDR pre stale t); [|by rewrite <- Eb|done..|].
  - cbn [fst]. rewrite Eb. by apply slices.
  - rewrite Nat2Z.id. apply tlvs_count.
Qed.

Import LcpWorld.

Lemma conf_req_roundtrip_witness :
  exists os, val (gather_req LcpWorld.conf (options (get_lcp world1))) world1 = Some (tlvs os) /\
    forall (t : world) i stale,
      buf (get_io t) = Some (lcp_packet CONFREQ i (tlvs os) ++ stale) ->
      Z.of_nat (length (tlvs os)) <= 1492 ->
      let b := lcp_packet CONFREQ i (tlvs os) ++ stale in
      let size := pkt_len b - PPP_HDRLEN in
      let rs := val (scan_ropts (Z.to_nat size) HDR size) t in
      map (fun r => take (Z.to_nat (ropt_olen r)) (drop (ropt_hdr r) b)) rs = map tlv os.
Proof.
  apply (@conf_req_roundtrip world world world_lcp world_lcp LcpWorld.conf world1).
  unfold small_auth. vm_compute. repeat constructor.
Defined.

End LcpWire.
