(* ===== verification/Session.v ===== *)
(** Sessions: [session.c] and the session part of [ifcfg.c].

    [Module Session] holds the shared store of [struct ap_session] objects (a pointer is a
    number, [heap] gives the object), the list [ses_list], the counters [ap_session_stat] and
    one definition per function.  Everything a session calls outside these two files - the
    event handlers behind [triton_event_fire], the control's function pointers, the interface
    ioctls, the address pools, the clock - is a field of [ses_env].  Two ghost fields record
    what happened: [trace], the events fired, and [fault], set when [list_del] unlinks an
    entry that is not linked.  The build modelled is the one without [USE_BACKUP] (disabled in
    CMakeLists.txt) and without [HAVE_VRF] (a probe of the kernel headers). *)

From stdpp Require Import base tactics list numbers option strings.
From Stdlib Require Import ZArith Lia Ascii.
From S2P Require Import Prelude CLib.

Close Scope Z_scope.

Module Session.

Definition AP_STATE_STARTING : Z := 1.
Definition AP_STATE_ACTIVE : Z := 2.
Definition AP_STATE_FINISHING : Z := 3.
Definition AP_STATE_RESTORE : Z := 4.

Definition TERM_SESSION_TIMEOUT : Z := 2.
Definition TERM_NAS_ERROR : Z := 5.
Definition TERM_NAS_REQUEST : Z := 6.
Definition TERM_NAS_REBOOT : Z := 7.
Definition TERM_AUTH_ERROR : Z := 8.

Definition AP_SESSIONID_LEN : nat := 16.

(** The events of [events.h] that the two files fire. *)
Inductive event :=
  | EV_SES_STARTING | EV_SES_STARTED | EV_SES_FINISHING | EV_SES_FINISHED | EV_SES_PRE_UP
  | EV_SES_ACCT_START | EV_SES_PRE_FINISHED | EV_SES_POST_STARTED.
#[export] Instance event_eq_dec : EqDecision event.
Proof. solve_decision. Defined.

(** [struct ipv4db_item_t] and the part of [struct ipv6db_item_t] read here; [owner] is
    [owner != NULL]. *)
Record ipv4db_item_t := mk_ipv4 { ip_owner : bool; ip_addr : Z; ip_peer_addr : Z; ip_mask : Z }.
Record ipv6db_item_t := mk_ipv6 { ip6_owner : bool }.

(** The part of [struct ap_ctrl] the files read; [ctx] and [terminate] may be NULL. *)
Record ap_ctrl := mk_ctrl {
  ctx : option nat;
  has_terminate : bool;
  ctrl_ifname : string
}.

(** [struct rtnl_link_stats64], the counters of a session. *)
Record link_stats := mk_stats {
  rx_packets : Z; tx_packets : Z; rx_bytes : Z; tx_bytes : Z
}.

(** [pppoe_session_accounting_t]. *)
Record pppoe_session_accounting_t := mk_accounting {
  acct_input_packets : Z; acct_output_packets : Z;
  acct_input_octets : Z; acct_output_octets : Z;
  acct_input_packets_ipv6 : Z; acct_output_packets_ipv6 : Z;
  acct_input_octets_ipv6 : Z; acct_output_octets_ipv6 : Z
}.

(** [struct ap_session]; [timer_tpd] is [timer.tpd != NULL]. *)
Record ap_session := mk_session {
  state : Z;
  ifname : string;
  ifname_rename : option string;
  ifindex : Z;
  unit_idx : Z;
  sessionid : string;
  start_time : Z;
  stop_time : Z;
  idle_time : Z;
  username : option string;
  ipv4 : option ipv4db_item_t;
  ipv6 : option ipv6db_item_t;
  ipv4_pool_name : option string;
  ipv6_pool_name : option string;
  dpv6_pool_name : option string;
  ses_net : bool;
  ctrl : option ap_ctrl;
  wakeup : option nat;
  terminating : bool;
  terminated : bool;
  down : bool;
  finish_started : bool;
  terminate_cause : Z;
  idle_timeout : Z;
  session_timeout : Z;
  timer_tpd : bool;
  timer_period : Z;
  timer_sec : Z;
  acct : link_stats;
  acct_i : link_stats;
  acct_start : Z;
  clientip : Z;
  is_ipoe : bool;
  peer_mac : list Z;
  ipv6_started : bool
}.

(** [struct ap_session_stat]: unsigned ints. *)
Record ap_session_stat := mk_stat {
  active : Z; incoming : Z; starting : Z; finishing : Z
}.

(** The functions posted with [triton_context_call]. *)
Inductive deferred := terminate_sec | terminate_soft_reboot.

Record ses_core := mk_core {
  heap : nat -> ap_session;
  ses_list : list nat;
  stat : ap_session_stat;
  ap_shutdown : bool;
  shutdown_cb : bool;
  seq : Z;
  seq_ts : Z;
  calls : list (deferred * nat);
  trace : list (event * nat);
  fault : bool
}.

(** The configuration variables. *)
Record ses_conf := mk_ses_conf {
  conf_session_timeout : Z;
  conf_single_session : Z;
  conf_single_session_ignore_case : Z;
  conf_sid_seq : bool;
  conf_sid_ucase : bool;
  conf_seq_save_timeout : Z;
  conf_max_starting : Z
}.

Definition no_stats : link_stats := mk_stats 0 0 0 0.

(** [ap_session_init]: what [memset] and the assignments leave.  [peer_mac] is
    [ppp_info.addr]; the fields no function here reads are left out. *)
Definition ap_session_init : ap_session :=
  mk_session 0 EmptyString None (-1) (-1) EmptyString 0 0 0 None None None None None None true None
    None false false false false 0 0 0 false 0 0 no_stats no_stats 0 0 false
    (repeat 0%Z 6) false.

Class SesHost (S : Type) := {
  get_ses : S -> ses_core;
  put_ses : ses_core -> S -> S;
  get_put_ses c s : get_ses (put_ses c s) = c;
  put_put_ses c d s : put_ses c (put_ses d s) = put_ses c s;
  put_get_ses s : put_ses (get_ses s) s = s
}.

(** What a session calls outside [session.c] and [ifcfg.c]. *)
Record ses_env (S : Type) := mk_ses_env {
  now : S -> Z;                                      (* _time() *)
  get_ifindex : string -> st S Z;                    (* net->get_ifindex *)
  urandom : st S (list Z);                           (* read(urandom_fd) *)
  save_seq : st S unit;
  accounting : list Z -> Z -> bool -> st S pppoe_session_accounting_t;
  fire : event -> nat -> st S unit;                  (* the registered handlers *)
  ctrl_started : nat -> st S unit;                   (* ses->ctrl->started *)
  ctrl_finished : nat -> st S unit;                  (* ses->ctrl->finished *)
  ctrl_terminate : nat -> Z -> st S Z;               (* ses->ctrl->terminate *)
  rename : nat -> string -> st S Z;                  (* ap_session_rename *)
  if_configure : nat -> st S unit;                   (* the ioctls that bring the link up *)
  if_deconfigure : nat -> st S unit;                 (* the ioctls that bring it down *)
  put_ipv4 : nat -> st S unit;                       (* ipdb_put_ipv4 *)
  put_ipv6 : nat -> st S unit;                       (* ipdb_put_ipv6 *)
  net_release : st S unit;
  set_priority : option nat -> Z -> st S unit;       (* triton_context_set_priority *)
  context_wakeup : nat -> st S unit;
  context_schedule : st S unit;                      (* the caller sleeps until woken *)
  shutdown_done : bool -> st S unit                  (* shutdown_cb(), or SIGTERM *)
}.
Arguments now {_} _. Arguments get_ifindex {_} _. Arguments urandom {_} _.
Arguments save_seq {_} _. Arguments accounting {_} _. Arguments fire {_} _.
Arguments ctrl_started {_} _. Arguments ctrl_finished {_} _. Arguments ctrl_terminate {_} _.
Arguments rename {_} _. Arguments if_configure {_} _. Arguments if_deconfigure {_} _.
Arguments put_ipv4 {_} _. Arguments put_ipv6 {_} _. Arguments net_release {_} _.
Arguments set_priority {_} _. Arguments context_wakeup {_} _. Arguments context_schedule {_} _.
Arguments shutdown_done {_} _.

(** ** Strings *)

(** [printf]'s hexadecimal digits, upper or lower case. *)
Definition hex_digit (ucase : bool) (d : Z) : ascii :=
  Ascii.ascii_of_N (Z.to_N (if d <? 10 then 48 + d else (if ucase then 55 else 87) + d)%Z).

(** ["%0<n>llx"] of a value below 16^n. *)
Fixpoint hex_pad (ucase : bool) (n : nat) (z : Z) : string :=
  match n with
  | O => EmptyString
  | S n => String (hex_digit ucase ((z / 16 ^ Z.of_nat n) mod 16)) (hex_pad ucase n z)
  end.

(** [tolower] in the C locale. *)
Definition tolower (c : ascii) : ascii :=
  let n := Ascii.N_of_ascii c in
  if ((65 <=? n) && (n <=? 90))%N then Ascii.ascii_of_N (n + 32)%N else c.
Fixpoint lower (s : string) : string :=
  match s with
  | EmptyString => EmptyString
  | String c s => String (tolower c) (lower s)
  end.

(** [!(conf_single_session_ignore_case == 1 ? strcasecmp(a, b) : strcmp(a, b))] *)
Definition same_name (conf : ses_conf) (a b : string) : bool :=
  if (conf_single_session_ignore_case conf =? 1)%Z
  then bool_decide (lower a = lower b)
  else bool_decide (a = b).

Section Code.
Context {S : Type} `{!SesHost S}.
Variable env : ses_env S.
Variable conf : ses_conf.

Abbreviation M := (st S).

Definition core_get {A} (p : ses_core -> A) : M A := gets (fun s => p (get_ses s)).
Definition core_upd (f : ses_core -> ses_core) : M unit :=
  modify (fun s => put_ses (f (get_ses s)) s).

(** [ses->field] and [ses->field = ...] through a pointer. *)
Definition ses_get {A} (i : nat) (p : ap_session -> A) : M A := core_get (fun c => p (heap c i)).
Definition ses_upd (i : nat) (f : ap_session -> ap_session) : M unit :=
  core_upd (fun c => c <| heap ::= fun h j => if decide (j = i) then f (h j) else h j |>).

Definition stat_upd (f : ap_session_stat -> ap_session_stat) : M unit :=
  core_upd (fun c => c <| stat ::= f |>).
Definition inc (z : Z) : Z := u32 (z + 1).
Definition dec (z : Z) : Z := u32 (z - 1).

(** [triton_event_fire]: the event is recorded, then its handlers run. *)
Definition fire_event (ev : event) (i : nat) : M unit :=
  core_upd (fun c => c <| trace ::= fun t => (ev, i) :: t |>) ;; fire env ev i.

(** [list_del(&ses->entry)]: unlinking an entry that is not linked dereferences NULL. *)
Definition list_del (i : nat) : M unit :=
  core_upd (fun c =>
    if decide (i ∈ ses_list c)
    then c <| ses_list ::= List.filter (fun j => negb (Nat.eqb j i)) |>
    else c <| fault := true |>).

Definition ap_session_set_ifindex (i : nat) : M unit :=
  ses_upd i (fun x => x <| acct_i := no_stats |>
                        <| acct ::= fun a => a <| rx_bytes := 0%Z |> <| tx_bytes := 0%Z |> |>).

Definition generate_sessionid (i : nat) : M unit :=
  if conf_sid_seq conf then
    core_upd (fun c => c <| seq ::= fun n => u64 (n + 1) |>) ;;
    sid ← core_get seq;
    t ← gets (now env);
    t0 ← core_get seq_ts;
    when (conf_seq_save_timeout conf <? t - t0)%Z (save_seq env) ;;
    ses_upd i (fun x => x <| sessionid := hex_pad (conf_sid_ucase conf) 16 sid |>)
  else
    sid ← urandom env;
    ses_upd i (fun x => x <| sessionid :=
      String.concat EmptyString (map (hex_pad (conf_sid_ucase conf) 2)
        (firstn (AP_SESSIONID_LEN / 2) sid)) |>).

Definition ap_session_read_stats (i : nat) : M Z :=
  x ← ses_get i id;
  let peer_addr :=
    if (negb (clientip x =? 0)%Z || terminating x || terminated x || finish_started x)%bool
    then clientip x
    else match ipv4 x with Some a => ip_peer_addr a | None => clientip x end in
  a ← accounting env (peer_mac x) peer_addr (is_ipoe x);
  let stats := mk_stats
    (u64 (acct_input_packets a + acct_input_packets_ipv6 a))
    (u64 (acct_output_packets a + acct_output_packets_ipv6 a))
    (u64 (acct_input_octets a + acct_input_octets_ipv6 a))
    (u64 (acct_output_octets a + acct_output_octets_ipv6 a)) in
  old ← ses_get i acct;
  t ← gets (now env);
  when (negb (rx_bytes stats =? rx_bytes old)%Z) (ses_upd i (fun x => x <| idle_time := t |>)) ;;
  ses_upd i (fun x => x <| acct := stats |>) ;;
  mret 0%Z.

(** [ap_session_ifdown] of [ifcfg.c]. *)
Definition ap_session_ifdown (i : nat) : M unit :=
  n ← ses_get i ifindex;
  when (negb (n =? -1)%Z) (if_deconfigure env i).

(** [if (ses->timer.tpd) triton_timer_del(&ses->timer);] *)
Definition timer_del (i : nat) : M unit :=
  b ← ses_get i timer_tpd;
  when b (ses_upd i (fun x => x <| timer_tpd := false |>)).

Definition ctrl_ctx (x : ap_session) : option nat :=
  match ctrl x with Some c => ctx c | None => None end.
Definition ctrl_ok (x : ap_session) : bool :=
  match ctrl x with
  | Some c => (match ctx c with Some _ => true | None => false end && has_terminate c)%bool
  | None => false
  end.

Definition ap_session_terminate (i : nat) (cause hard : Z) : M unit :=
  x ← ses_get i id;
  if (terminated x || finish_started x)%bool then skip
  else if negb (ctrl_ok x) then skip
  else
    set_priority env (ctrl_ctx x) 3 ;;
    t ← gets (now env);
    ses_upd i (fun x => if (stop_time x =? 0)%Z then x <| stop_time := t |> else x) ;;
    ses_upd i (fun x => if (terminate_cause x =? 0)%Z then x <| terminate_cause := cause |> else x) ;;
    timer_del i ;;
    b ← ses_get i terminating;
    f ← ses_get i finish_started;
    if b : bool then
      when (negb (hard =? 0)%Z && negb f)%bool (ctrl_terminate env i hard ;; skip)
    else
      q ← ses_get i state;
      stat_upd (fun c => if (q =? AP_STATE_ACTIVE)%Z then c <| active ::= dec |>
                         else c <| starting ::= dec |> <| incoming ::= dec |>) ;;
      stat_upd (fun c => c <| finishing ::= inc |>) ;;
      ses_upd i (fun x => x <| terminating := true |> <| state := AP_STATE_FINISHING |>) ;;
      r ← ctrl_terminate env i hard;
      when (negb (r =? 0)%Z)
        (ap_session_ifdown i ;; ap_session_read_stats i ;;
         fire_event EV_SES_FINISHING i ;;
         ses_upd i (fun x => x <| down := true |>)).

(** [ap_session_accounting_started] and [ap_session_ifup] of [ifcfg.c]. *)
Definition ap_session_accounting_started (i : nat) : M unit :=
  t ← ses_get i stop_time;
  if negb (t =? 0)%Z then skip
  else
    ses_upd i (fun x => x <| acct_start ::= fun n => s32 (n - 1) |>) ;;
    n ← ses_get i acct_start;
    if negb (n =? 0)%Z then skip
    else
      fire_event EV_SES_PRE_UP i ;;
      t ← ses_get i stop_time;
      if negb (t =? 0)%Z then skip
      else
        if_configure env i ;; ctrl_started env i ;;
        fire_event EV_SES_STARTED i ;; fire_event EV_SES_POST_STARTED i.

Definition ifup_acct (i : nat) : M unit :=
  fire_event EV_SES_ACCT_START i ;;
  t ← ses_get i stop_time;
  a ← ses_get i acct_start;
  if (negb (t =? 0) || negb (a =? 0))%Z%bool then skip
  else ses_upd i (fun x => x <| acct_start := 1%Z |>) ;; ap_session_accounting_started i.

Definition ap_session_ifup (i : nat) : M unit :=
  n ← ses_get i ifname_rename;
  match n with
  | Some name =>
      r ← rename env i name;
      if negb (r =? 0)%Z then ap_session_terminate i TERM_NAS_ERROR 0
      else ses_upd i (fun x => x <| ifname_rename := None |>) ;; ifup_acct i
  | None => ifup_acct i
  end.

Definition ap_session_starting (i : nat) : M Z :=
  b ← core_get ap_shutdown;
  if b : bool then mret (-1)%Z
  else
    x ← ses_get i id;
    when ((ifindex x =? -1)%Z && negb (bool_decide (ifname x = EmptyString)))%bool
      (n ← get_ifindex env (ifname x); ses_upd i (fun x => x <| ifindex := n |>)) ;;
    n ← ses_get i ifindex;
    when (negb (n =? -1)%Z) (ap_session_set_ifindex i) ;;
    q ← ses_get i state;
    when (negb (q =? AP_STATE_RESTORE)%Z)
      (t ← gets (now env);
       ses_upd i (fun x => x <| start_time := t |> <| idle_time := t |>) ;;
       generate_sessionid i ;;
       ses_upd i (fun x => x <| state := AP_STATE_STARTING |>)) ;;
    stat_upd (fun c => c <| starting ::= inc |>) ;;
    core_upd (fun c => c <| ses_list ::= fun l => l ++ [i] |>) ;;
    fire_event EV_SES_STARTING i ;;
    mret 0%Z.

Definition ap_session_timer (i : nat) : M unit :=
  r ← ap_session_read_stats i;
  when (negb (r =? 0)%Z) (ap_session_terminate i TERM_NAS_ERROR 0) ;;
  t ← gets (now env);
  x ← ses_get i id;
  if (negb (idle_timeout x =? 0) && (idle_timeout x <=? t - idle_time x))%Z%bool
  then ap_session_terminate i TERM_SESSION_TIMEOUT 0
  else when (negb (session_timeout x =? 0) && (session_timeout x <=? t - start_time x))%Z%bool
    (ap_session_terminate i TERM_SESSION_TIMEOUT 0).

(** The timer of an activated session: the idle check every minute, or one expiry. *)
Definition arm_timer (x : ap_session) : ap_session :=
  if negb (idle_timeout x =? 0)%Z then
    x <| timer_period := 60000%Z |> <| timer_tpd := true |>
  else if negb (session_timeout x =? 0)%Z then
    x <| timer_sec := session_timeout x |> <| timer_tpd := true |>
  else x.

Definition ap_session_activate (i : nat) : M unit :=
  b ← core_get ap_shutdown;
  if b : bool then skip
  else
    ap_session_ifup i ;;
    t ← ses_get i stop_time;
    if negb (t =? 0)%Z then skip
    else
      ses_upd i (fun x => x <| state := AP_STATE_ACTIVE |>) ;;
      stat_upd (fun c => c <| starting ::= dec |> <| incoming ::= dec |> <| active ::= inc |>) ;;
      ses_upd i (fun x => if (session_timeout x =? 0)%Z
                          then x <| session_timeout := conf_session_timeout conf |> else x) ;;
      ses_upd i arm_timer ;;
      x ← ses_get i id;
      set_priority env (ctrl_ctx x) 2.

(** No session is left: the condition under which a shutdown completes. *)
Definition no_session : M bool :=
  c ← core_get stat;
  mret ((starting c =? 0) && (active c =? 0) && (finishing c =? 0))%Z%bool.

Definition release_ip (i : nat) : M unit :=
  a ← ses_get i ipv4;
  when (match a with Some a => ip_owner a | None => false end)
    (put_ipv4 env i ;; ses_upd i (fun x => x <| ipv4 := None |>)) ;;
  a ← ses_get i ipv6;
  when (match a with Some a => ip6_owner a | None => false end)
    (put_ipv6 env i ;; ses_upd i (fun x => x <| ipv6 := None |>)).

(** The counter of the state the session finishes in. *)
Definition uncount (q : Z) (c : ap_session_stat) : ap_session_stat :=
  if (q =? AP_STATE_ACTIVE)%Z then c <| active ::= dec |>
  else if ((q =? AP_STATE_RESTORE) || (q =? AP_STATE_STARTING))%Z%bool
  then c <| starting ::= dec |> <| incoming ::= dec |>
  else if (q =? AP_STATE_FINISHING)%Z then c <| finishing ::= dec |>
  else c.

(** The tail of [ap_session_finished]: the waiting context and the owned strings. *)
Definition free_session (i : nat) : M unit :=
  w ← ses_get i wakeup;
  match w with
  | Some w => ses_upd i (fun x => x <| wakeup := None |>) ;; context_wakeup env w
  | None => skip
  end ;;
  ses_upd i (fun x => x <| username := None |> <| ipv4_pool_name := None |>
    <| ipv6_pool_name := None |> <| dpv6_pool_name := None |> <| ifname_rename := None |>) ;;
  b ← ses_get i ses_net;
  when b (net_release env) ;;
  timer_del i.

Definition ap_session_finished (i : nat) : M unit :=
  b ← ses_get i finish_started;
  ses_upd i (fun x => x <| finish_started := true |>) ;;
  if b : bool then skip
  else
    ses_upd i (fun x => x <| terminated := true |>) ;;
    d ← ses_get i down;
    when (negb d)
      (ap_session_ifdown i ;; ap_session_read_stats i ;; fire_event EV_SES_FINISHING i) ;;
    fire_event EV_SES_PRE_FINISHED i ;;
    list_del i ;;
    q ← ses_get i state;
    stat_upd (uncount q) ;;
    release_ip i ;;
    fire_event EV_SES_FINISHED i ;;
    ctrl_finished env i ;;
    free_session i ;;
    b ← core_get ap_shutdown;
    z ← no_session;
    cb ← core_get shutdown_cb;
    when (b && z)%bool (shutdown_done env cb).

Definition ap_shutdown_soft (cb term : bool) : M Z :=
  core_upd (fun c => c <| ap_shutdown := true |> <| shutdown_cb := cb |>) ;;
  z ← no_session;
  if z : bool then shutdown_done env cb ;; mret 1%Z
  else
    l ← core_get ses_list;
    when term (core_upd (fun c => c <| calls ::= fun q =>
                 q ++ map (fun j => (terminate_soft_reboot, j)) l |>)) ;;
    mret 0%Z.

(** The loop of [ap_session_set_username]: [None] when the name is refused, otherwise whether
    a session was armed to wake the caller. *)
Fixpoint claim_name (i : nat) (name : string) (l : list nat) (wait : bool) : M (option bool) :=
  match l with
  | [] => mret (Some wait)
  | j :: l =>
      x ← ses_get j id;
      if (match username x with Some n => same_name conf n name | None => false end
          && negb (terminate_cause x =? TERM_AUTH_ERROR)%Z)%bool then
        if (conf_single_session conf =? 0)%Z then mret None
        else
          let arm := (negb wait && match wakeup x with Some _ => false | None => true end)%bool in
          y ← ses_get i id;
          when arm (ses_upd j (fun x => x <| wakeup := ctrl_ctx y |>)) ;;
          ap_session_ifdown j ;;
          core_upd (fun c => c <| calls ::= fun q => q ++ [(terminate_sec, j)] |>) ;;
          claim_name i name l (wait || arm)%bool
      else claim_name i name l wait
  end.

Definition ap_session_set_username (i : nat) (name : string) : M Z :=
  l ← core_get ses_list;
  r ← (if (0 <=? conf_single_session conf)%Z then claim_name i name l false
       else mret (Some false));
  match r with
  | None => mret (-1)%Z
  | Some wait =>
      ses_upd i (fun x => x <| username := Some name |>) ;;
      when wait (context_schedule env) ;;
      mret 0%Z
  end.

Definition ap_check_username (name : string) : M Z :=
  if negb (conf_single_session conf =? 0)%Z then mret 0%Z
  else
    c ← core_get id;
    mret (if existsb (fun j => match username (heap c j) with
                               | Some n => same_name conf n name
                               | None => false
                               end) (ses_list c) then 1 else 0)%Z.

(** [triton] runs a posted call in the context of its session. *)
Definition run_call (d : deferred) (i : nat) : M unit :=
  match d with
  | terminate_sec => ap_session_terminate i TERM_NAS_REQUEST 0
  | terminate_soft_reboot => ap_session_terminate i TERM_NAS_REBOOT 0
  end.

End Code.

(** [load_config]: the options of section [common]. *)
Definition load_config (get : string -> option string) (c : ses_conf) : ses_conf :=
  mk_ses_conf
    (match get "session-timeout" with Some o => atoi o | None => 0%Z end)
    (match get "single-session" with
     | Some o => if bool_decide (o = "deny") then 0%Z
                 else if bool_decide (o = "replace") then 1%Z else conf_single_session c
     | None => (-1)%Z
     end)
    (match get "single-session-ignore-case" with Some o => atoi o | None => 0%Z end)
    (match get "sid-source" with
     | Some o => if bool_decide (o = "seq") then true
                 else if bool_decide (o = "urandom") then false else conf_sid_seq c
     | None => true
     end)
    (match get "sid-case" with
     | Some o => if bool_decide (o = "upper") then true else conf_sid_ucase c
     | None => conf_sid_ucase c
     end)
    (conf_seq_save_timeout c)
    (match get "max-starting" with Some o => atoi o | None => 0%Z end).

End Session.
