(* ===== verification/SessionInv.v ===== *)
(** The invariant of the sessions.

    The counters [ap_session_stat] are the numbers of linked sessions in each state, a session
    is announced and ended alternately, and nothing is unlinked twice.  [env_ok] states what
    the rest of the program owes the sessions, [safe] is the program logic, and every operation
    of [Session.v] is shown to keep the invariant and to let the sessions evolve ([evolves])
    as other code may rely on. *)

From stdpp Require Import base tactics list sets numbers option strings.
From Stdlib Require Import ZArith Lia.
From S2P Require Import Prelude CLib Session.

Close Scope Z_scope.

Module SessionInv.
Import Session.

Definition starting_like (q : Z) : bool :=
  ((q =? AP_STATE_STARTING) || (q =? AP_STATE_RESTORE))%Z%bool.

(** The number of listed sessions whose state satisfies [p]. *)
Definition n_of (p : Z -> bool) (c : ses_core) : Z :=
  Z.of_nat (length (List.filter (fun i => p (state (heap c i))) (ses_list c))).

Definition count_ev (ev : event) (i : nat) (t : list (event * nat)) : nat :=
  length (List.filter (fun e => bool_decide (e = (ev, i))) t).

Definition known_state (q : Z) : bool :=
  (starting_like q || (q =? AP_STATE_ACTIVE)%Z || (q =? AP_STATE_FINISHING)%Z)%bool.

(** The invariant.  [k] is the number of connections already counted in [incoming] whose
    session is not started yet; [d] is a session between its unlinking and its
    [EV_SES_FINISHED]. *)
Record invd (d : option nat) (k : Z) (c : ses_core) : Prop := {
  inv_nodup : NoDup (ses_list c);
  inv_state i : i ∈ ses_list c -> known_state (state (heap c i)) = true;
  inv_term i : i ∈ ses_list c ->
    terminating (heap c i) = (state (heap c i) =? AP_STATE_FINISHING)%Z;
  inv_starting : starting (stat c) = u32 (n_of starting_like c);
  inv_incoming : incoming (stat c) = u32 (n_of starting_like c + k);
  inv_active : active (stat c) = u32 (n_of (Z.eqb AP_STATE_ACTIVE) c);
  inv_finishing : finishing (stat c) = u32 (n_of (Z.eqb AP_STATE_FINISHING) c);
  inv_fault : fault c = false;
  inv_trace i : count_ev EV_SES_STARTING i (trace c)
    = count_ev EV_SES_FINISHED i (trace c) + (if decide (i ∈ ses_list c) then 1 else 0)
      + (if decide (d = Some i) then 1 else 0);
  inv_gone i : d = Some i -> i ∉ ses_list c
}.
Abbreviation inv := (invd None).

(** The session has been started: it is linked, or its end has begun. *)
Definition reach (i : nat) (c : ses_core) : Prop :=
  i ∈ ses_list c \/ finish_started (heap c i) = true.

(** What any code that runs between two steps of an operation guarantees: a session that is
    being finished stays linked until its finisher unlinks it, a stop time stays set and a
    session once started stays so.  [e] is a session whose finisher is running. *)
Record evolves (e : option nat) (c c' : ses_core) : Prop := {
  ev_listed i : e <> Some i -> i ∈ ses_list c -> finish_started (heap c i) = true ->
    i ∈ ses_list c' /\ finish_started (heap c' i) = true;
  ev_stop i : stop_time (heap c i) <> 0%Z -> stop_time (heap c' i) <> 0%Z;
  ev_reach i : reach i c -> reach i c'
}.

(** In addition, a starting session [i] keeps starting unless it is stopped. *)
Definition pending (i : nat) (c : ses_core) : Prop :=
  (i ∈ ses_list c /\ starting_like (state (heap c i)) = true) \/ stop_time (heap c i) <> 0%Z.

#[export] Instance evolves_preorder e : PreOrder (evolves e).
Proof.
  split.
  - intros c. by split.
  - intros a b c [H1 H2 H5] [H3 H4 H6]. split; [|auto|auto].
    intros i He Hl Hf. destruct (H1 i He Hl Hf). by apply H3.
Qed.

Lemma evolves_weaken e c c' : evolves None c c' -> evolves e c c'.
Proof. intros [H1 H2 H3]. split; [|auto|auto]. intros i _. by apply H1. Qed.

Lemma evolves_finish i c c' :
  finish_started (heap c i) = false -> evolves (Some i) c c' -> evolves None c c'.
Proof.
  intros Hf [H1 H2 H3]. split; [|auto|auto]. intros j _ Hj Hfj. apply H1; [|done..].
  intros [= ->]. congruence.
Qed.

(** ** Changes of the core that keep the invariant *)

(** Two cores that agree on everything the invariant reads. *)
Record similar (c c' : ses_core) : Prop := {
  sim_list : ses_list c' = ses_list c;
  sim_stat : stat c' = stat c;
  sim_fault : fault c' = fault c;
  sim_count ev i : ev = EV_SES_STARTING \/ ev = EV_SES_FINISHED ->
    count_ev ev i (trace c') = count_ev ev i (trace c);
  sim_state i : state (heap c' i) = state (heap c i);
  sim_term i : terminating (heap c' i) = terminating (heap c i);
  sim_fin i : finish_started (heap c i) = true -> finish_started (heap c' i) = true;
  sim_stop i : stop_time (heap c i) <> 0%Z -> stop_time (heap c' i) <> 0%Z
}.

Lemma filter_ext_in {A} (p q : A -> bool) (l : list A) :
  (forall x, x ∈ l -> p x = q x) -> List.filter p l = List.filter q l.
Proof.
  induction l as [|x l IH]; intros H; [done|]. simpl.
  rewrite (H x), IH; [done| |]; intros; [apply H|]; set_solver.
Qed.

Lemma n_of_ext p c c' :
  ses_list c' = ses_list c ->
  (forall i, i ∈ ses_list c -> p (state (heap c' i)) = p (state (heap c i))) ->
  n_of p c' = n_of p c.
Proof. intros Hl Hs. unfold n_of. rewrite Hl. do 2 f_equal. by apply filter_ext_in. Qed.

Lemma invd_similar d k c c' : similar c c' -> invd d k c -> invd d k c'.
Proof.
  intros [Hl Hst Hf Ht Hs Htm _ _] [].
  assert (forall p, n_of p c' = n_of p c) as Hn
    by (intros p; apply n_of_ext; [done|]; intros; by rewrite Hs).
  split; intros; rewrite ?Hl, ?Hst, ?Hf, ?Hs, ?Htm, ?Hn in *; auto.
  rewrite !Ht by auto. auto.
Qed.

Lemma evolves_similar e c c' : similar c c' -> evolves e c c'.
Proof.
  intros [Hl _ _ _ _ _ Hf Hs]. split; [|done|]; unfold reach; rewrite Hl; naive_solver.
Qed.

Lemma pending_similar i c c' : similar c c' -> pending i c -> pending i c'.
Proof.
  intros [Hl _ _ _ Hq _ _ Hs] [[Hi Hst]|Hst]; [left|right; auto].
  by rewrite Hl, Hq.
Qed.

(** Adding to and removing from the list. *)
Lemma filter_remove {A} (p : A -> bool) (i : A) (l : list A) (eqb : A -> A -> bool) :
  (forall x y, eqb x y = true <-> x = y) -> NoDup l -> i ∈ l ->
  Z.of_nat (length (List.filter p (List.filter (fun j => negb (eqb j i)) l)))
  = (Z.of_nat (length (List.filter p l)) - (if p i then 1 else 0))%Z.
Proof.
  intros Heq. induction l as [|x l IH]; intros Hnd Hi; [set_solver|].
  apply NoDup_cons in Hnd as [Hx Hnd]. simpl.
  destruct (eqb x i) eqn:E; simpl.
  - apply Heq in E as ->.
    assert (List.filter (fun j => negb (eqb j i)) l = l) as ->.
    { rewrite <- (List.forallb_filter_id (fun _ => true) l) at 2 by (by apply forallb_forall).
      apply filter_ext_in. intros y Hy. destruct (eqb y i) eqn:E; [|done].
      apply Heq in E as ->. set_solver. }
    destruct (p i); simpl; lia.
  - assert (i ∈ l) as Hil.
    { apply elem_of_cons in Hi as [->|]; [|done].
      rewrite (proj2 (Heq x x) eq_refl) in E. done. }
    specialize (IH Hnd Hil). destruct (p x); simpl; rewrite ?Nat2Z.inj_succ; lia.
Qed.

(** Changing the state of one session moves it from one count to another. *)
Lemma filter_change {A} (p q : A -> bool) (i : A) (l : list A) :
  NoDup l -> i ∈ l -> (forall j, j ∈ l -> j <> i -> q j = p j) ->
  Z.of_nat (length (List.filter q l))
  = (Z.of_nat (length (List.filter p l)) - (if p i then 1 else 0) + (if q i then 1 else 0))%Z.
Proof.
  induction l as [|x l IH]; intros Hnd Hi Hpq; [set_solver|].
  apply NoDup_cons in Hnd as [Hx Hnd]. apply elem_of_cons in Hi as [->|Hi]; simpl.
  - rewrite (filter_ext_in q p l).
    + destruct (p x), (q x); simpl; lia.
    + intros y Hy. apply Hpq; [set_solver|]. intros ->. done.
  - assert (x <> i) by (by intros ->).
    rewrite (Hpq x) by (done || set_solver).
    specialize (IH Hnd Hi). destruct (p x); simpl; rewrite ?Nat2Z.inj_succ, IH; try lia;
      intros; apply Hpq; set_solver.
Qed.

Lemma inc_u32 z : inc (u32 z) = u32 (z + 1).
Proof. unfold inc. by rewrite u32_add_l. Qed.
Lemma dec_u32 z : dec (u32 z) = u32 (z - 1).
Proof. unfold dec, Z.sub. by rewrite u32_add_l. Qed.

(** ** The transitions of the invariant *)

Definition hset (i : nat) (f : ap_session -> ap_session) (c : ses_core) : ses_core :=
  c <| heap ::= fun h j => if decide (j = i) then f (h j) else h j |>.

Lemma heap_hset i f c j :
  heap (hset i f c) j = if decide (j = i) then f (heap c j) else heap c j.
Proof. done. Qed.

(** A session changes state: it moves from one count to another. *)
Lemma n_of_hset p i f c :
  NoDup (ses_list c) -> i ∈ ses_list c ->
  n_of p (hset i f c) = (n_of p c - (if p (state (heap c i)) then 1 else 0)
                         + (if p (state (f (heap c i))) then 1 else 0))%Z.
Proof.
  intros Hnd Hi. unfold n_of. change (ses_list (hset i f c)) with (ses_list c).
  rewrite (filter_change (fun j => p (state (heap c j))) _ i) by
    (done || (intros j _ Hj; rewrite heap_hset; by rewrite decide_False)).
  rewrite heap_hset, decide_True by done. done.
Qed.

(** The counters after a state change of a linked session. *)
Lemma invd_move d k c i f (g : ap_session_stat -> ap_session_stat) :
  let q := state (heap c i) in let q' := state (f (heap c i)) in
  let delta (p : Z -> bool) := ((if p q' then 1 else 0) - (if p q then 1 else 0))%Z in
  invd d k c -> i ∈ ses_list c ->
  known_state q' = true ->
  terminating (f (heap c i)) = (q' =? AP_STATE_FINISHING)%Z ->
  starting (g (stat c)) = u32 (starting (stat c) + delta starting_like) ->
  incoming (g (stat c)) = u32 (incoming (stat c) + delta starting_like) ->
  active (g (stat c)) = u32 (active (stat c) + delta (Z.eqb AP_STATE_ACTIVE)) ->
  finishing (g (stat c)) = u32 (finishing (stat c) + delta (Z.eqb AP_STATE_FINISHING)) ->
  invd d k (hset i f (c <| stat ::= g |>)).
Proof.
  intros q q' delta [Hnd Hst Htm Hs Hin Ha Hf Hft Htr Hg] Hi Hk Hterm Gs Gi Ga Gf.
  assert (forall p, n_of p (hset i f (c <| stat ::= g |>)) = (n_of p c + delta p)%Z) as Hn.
  { intros p. rewrite (n_of_hset p i f (c <| stat ::= g |>)) by done.
    unfold delta, q', q. change (n_of p (c <| stat ::= g |>)) with (n_of p c).
    change (heap (c <| stat ::= g |>)) with (heap c). lia. }
  split; try done.
  - intros j Hj. rewrite heap_hset. case_decide; subst; [done|by apply Hst].
  - intros j Hj. rewrite heap_hset. case_decide; subst; [done|by apply Htm].
  - rewrite Hn. transitivity (starting (g (stat c))); [done|]. by rewrite Gs, Hs, u32_add_l.
  - rewrite Hn. transitivity (incoming (g (stat c))); [done|]. rewrite Gi, Hin, u32_add_l.
    f_equal. lia.
  - rewrite Hn. transitivity (active (g (stat c))); [done|]. by rewrite Ga, Ha, u32_add_l.
  - rewrite Hn. transitivity (finishing (g (stat c))); [done|]. by rewrite Gf, Hf, u32_add_l.
Qed.

(** Changing a session and the counters lets the sessions evolve. *)
Lemma evolves_hset e i f (g : ap_session_stat -> ap_session_stat) c :
  (forall x, finish_started x = true -> finish_started (f x) = true) ->
  (forall x, stop_time x <> 0%Z -> stop_time (f x) <> 0%Z) ->
  evolves e c (hset i f (c <| stat ::= g |>)).
Proof.
  intros Hf Hs.
  split; intros j; unfold reach; rewrite (heap_hset i f (c <| stat ::= g |>));
    change (ses_list (hset i f (c <| stat ::= g |>))) with (ses_list c);
    change (heap (c <| stat ::= g |>)) with (heap c); case_decide; naive_solver.
Qed.

Lemma known_cases q : known_state q = true ->
  (q = 1 \/ q = 4 \/ q = 2 \/ q = 3)%Z.
Proof.
  unfold known_state, starting_like, AP_STATE_STARTING, AP_STATE_RESTORE, AP_STATE_ACTIVE,
    AP_STATE_FINISHING.
  rewrite !orb_true_iff, !Z.eqb_eq. lia.
Qed.

(** [ap_session_terminate] moves the session to FINISHING. *)
Lemma invd_terminate k c i :
  invd None k c -> i ∈ ses_list c -> terminating (heap c i) = false ->
  let q := state (heap c i) in
  invd None k (hset i (fun x => x <| terminating := true |> <| state := AP_STATE_FINISHING |>)
    (c <| stat ::= fun x =>
       (if (q =? AP_STATE_ACTIVE)%Z then x <| active ::= dec |>
        else x <| starting ::= dec |> <| incoming ::= dec |>) <| finishing ::= inc |> |>)).
Proof.
  intros Hinv Hi Ht q.
  pose proof (inv_state _ _ _ Hinv i Hi) as Hk. pose proof (inv_term _ _ _ Hinv i Hi) as Htm.
  rewrite Ht in Htm. fold q in Hk, Htm.
  apply invd_move; try done; change (state (heap c i)) with q;
    destruct (known_cases q Hk) as [E|[E|[E|E]]]; rewrite E in *; try done;
    unfold inc, dec; simpl; rewrite ?(inv_starting _ _ _ Hinv), ?(inv_incoming _ _ _ Hinv),
      ?(inv_active _ _ _ Hinv), ?(inv_finishing _ _ _ Hinv), ?Z.add_0_r, ?u32_u32;
    done || apply Hinv.
Qed.

(** [ap_session_activate] moves it to ACTIVE. *)
Lemma invd_activate k c i :
  invd None k c -> i ∈ ses_list c -> starting_like (state (heap c i)) = true ->
  invd None k (hset i (fun x => x <| state := AP_STATE_ACTIVE |>)
    (c <| stat ::= fun x => x <| starting ::= dec |> <| incoming ::= dec |> <| active ::= inc |> |>)).
Proof.
  intros Hinv Hi Hs.
  pose proof (inv_term _ _ _ Hinv i Hi) as Htm.
  assert (state (heap c i) = 1 \/ state (heap c i) = 4)%Z as Hq.
  { unfold starting_like, AP_STATE_STARTING, AP_STATE_RESTORE in Hs.
    rewrite orb_true_iff, !Z.eqb_eq in Hs. lia. }
  apply invd_move; try done; destruct Hq as [E|E]; rewrite E in *; try done;
    unfold inc, dec; simpl; rewrite ?(inv_finishing _ _ _ Hinv), ?Z.add_0_r, ?u32_u32;
    done || apply Hinv.
Qed.

Lemma count_cons ev i e t :
  count_ev ev i (e :: t) = (if decide (e = (ev, i)) then 1 else 0) + count_ev ev i t.
Proof. unfold count_ev. simpl. case_decide as E; [by rewrite bool_decide_true|by rewrite bool_decide_false]. Qed.

Lemma length_filter_app {A} (p : A -> bool) l x :
  Z.of_nat (length (List.filter p (l ++ [x])))
  = (Z.of_nat (length (List.filter p l)) + (if p x then 1 else 0))%Z.
Proof. rewrite List.filter_app, length_app. simpl. destruct (p x); simpl; lia. Qed.

(** [ap_session_starting] links the session and announces it. *)
Lemma invd_link k c i :
  invd None (k + 1) c -> i ∉ ses_list c -> starting_like (state (heap c i)) = true ->
  terminating (heap c i) = false ->
  invd None k (c <| stat ::= fun x => x <| starting ::= inc |> |>
                 <| ses_list ::= fun l => l ++ [i] |>
                 <| trace ::= fun t => (EV_SES_STARTING, i) :: t |>).
Proof.
  intros [Hnd Hst Htm Hs Hin Ha Hf Hft Htr Hg] Hi Hq Ht.
  set (c' := _ <| trace ::= _ |>).
  assert (forall p, n_of p c' = (n_of p c + (if p (state (heap c i)) then 1 else 0))%Z) as Hn
    by (intros p; exact (length_filter_app (fun j => p (state (heap c j))) (ses_list c) i)).
  assert (state (heap c i) = 1 \/ state (heap c i) = 4)%Z as Hq'.
  { unfold starting_like, AP_STATE_STARTING, AP_STATE_RESTORE in Hq.
    rewrite orb_true_iff, !Z.eqb_eq in Hq. lia. }
  assert (forall j, j ∈ ses_list c ++ [i] <-> j ∈ ses_list c \/ j = i) as Hin'
    by (intros j; rewrite elem_of_app, list_elem_of_singleton; done).
  split; try done.
  - apply NoDup_app. split_and!; [done| |apply NoDup_singleton].
    intros x Hx ->%list_elem_of_singleton. done.
  - intros j [Hj| ->]%Hin'; [by apply Hst|]. destruct Hq' as [E|E];
      change (heap c' i) with (heap c i); by rewrite E.
  - intros j [Hj| ->]%Hin'; [by apply Htm|]. change (heap c' i) with (heap c i).
    rewrite Ht. by destruct Hq' as [->| ->].
  - rewrite Hn, Hq. change (starting (stat c')) with (inc (starting (stat c))).
    by rewrite Hs, inc_u32.
  - rewrite Hn, Hq. change (incoming (stat c')) with (incoming (stat c)). rewrite Hin. f_equal. lia.
  - rewrite Hn. change (active (stat c')) with (active (stat c)). rewrite Ha.
    f_equal. destruct Hq' as [->| ->]; simpl; lia.
  - rewrite Hn. change (finishing (stat c')) with (finishing (stat c)). rewrite Hf.
    f_equal. destruct Hq' as [->| ->]; simpl; lia.
  - intros j. change (trace c') with ((EV_SES_STARTING, i) :: trace c).
    change (ses_list c') with (ses_list c ++ [i]). rewrite !count_cons, (Htr j).
    rewrite (decide_False (P := (EV_SES_STARTING, i) = (EV_SES_FINISHED, j))) by done.
    rewrite (decide_False (P := None = Some j)) by done.
    pose proof (Hin' j).
    repeat case_decide; simplify_eq; try lia; naive_solver.
Qed.

Lemma uncount_counts q x : known_state q = true ->
  starting (uncount q x) = (if starting_like q then dec (starting x) else starting x) /\
  incoming (uncount q x) = (if starting_like q then dec (incoming x) else incoming x) /\
  active (uncount q x) = (if (AP_STATE_ACTIVE =? q)%Z then dec (active x) else active x) /\
  finishing (uncount q x) = (if (AP_STATE_FINISHING =? q)%Z then dec (finishing x) else finishing x).
Proof. intros [->|[->|[->| ->]]]%known_cases; done. Qed.

(** [ap_session_finished] unlinks it... *)
Lemma invd_unlink k c i :
  invd None k c -> i ∈ ses_list c ->
  invd (Some i) k (c <| ses_list ::= List.filter (fun j => negb (Nat.eqb j i)) |>
                     <| stat ::= uncount (state (heap c i)) |>).
Proof.
  intros [Hnd Hst Htm Hs Hin Ha Hf Hft Htr Hg] Hi.
  set (c' := _ <| stat ::= _ |>).
  assert (forall p, n_of p c' = (n_of p c - (if p (state (heap c i)) then 1 else 0))%Z) as Hn
    by (intros p; apply (filter_remove (fun j => p (state (heap c j))) i _ Nat.eqb);
        [apply Nat.eqb_eq|done|done]).
  assert (forall j, j ∈ ses_list c' <-> j ∈ ses_list c /\ j <> i) as Hin'.
  { intros j. change (ses_list c') with (List.filter (fun j => negb (Nat.eqb j i)) (ses_list c)).
    rewrite !list_elem_of_In, filter_In, negb_true_iff, Nat.eqb_neq. done. }
  pose proof (Hst i Hi) as Hk.
  split; try done.
  - apply NoDup_ListNoDup, List.NoDup_filter, NoDup_ListNoDup. done.
  - intros j [Hj _]%Hin'. by apply Hst.
  - intros j [Hj _]%Hin'. by apply Htm.
  - rewrite Hn. etrans; [apply (uncount_counts _ (stat c) Hk)|]. rewrite Hs.
    case_match; rewrite ?dec_u32; f_equal; lia.
  - rewrite Hn. etrans; [apply (uncount_counts _ (stat c) Hk)|]. rewrite Hin.
    case_match; rewrite ?dec_u32; f_equal; lia.
  - rewrite Hn. etrans; [apply (uncount_counts _ (stat c) Hk)|]. rewrite Ha.
    case_match; rewrite ?dec_u32; f_equal; lia.
  - rewrite Hn. etrans; [apply (uncount_counts _ (stat c) Hk)|]. rewrite Hf.
    case_match; rewrite ?dec_u32; f_equal; lia.
  - intros j. change (trace c') with (trace c). rewrite (Htr j).
    pose proof (Hin' j). repeat case_decide; simplify_eq; try lia; naive_solver.
  - intros j [= <-]. rewrite Hin'. naive_solver.
Qed.

(** ... and announces its end. *)
Lemma invd_announce k c i :
  invd (Some i) k c ->
  invd None k (c <| trace ::= fun t => (EV_SES_FINISHED, i) :: t |>).
Proof.
  intros [Hnd Hst Htm Hs Hin Ha Hf Hft Htr Hg]. split; try done.
  intros j. change (trace (c <| trace ::= fun t => (EV_SES_FINISHED, i) :: t |>))
    with ((EV_SES_FINISHED, i) :: trace c).
  change (ses_list (c <| trace ::= _ |>)) with (ses_list c).
  rewrite !count_cons, (Htr j).
  rewrite (decide_False (P := (EV_SES_FINISHED, i) = (EV_SES_STARTING, j))) by done.
  repeat case_decide; simplify_eq; lia.
Qed.

(** A session that is not linked may change in any way. *)
Lemma invd_unlisted d k c i f : invd d k c -> i ∉ ses_list c -> invd d k (hset i f c).
Proof.
  intros [Hnd Hst Htm Hs Hin Ha Hf Hft Htr Hg] Hi.
  assert (forall j, j ∈ ses_list c -> heap (hset i f c) j = heap c j) as Hh.
  { intros j Hj. rewrite heap_hset. apply decide_False. by intros ->. }
  assert (forall p, n_of p (hset i f c) = n_of p c) as Hn
    by (intros p; apply n_of_ext; [done|]; intros j Hj; by rewrite Hh).
  split; try done; rewrite ?Hn; try done; intros j Hj; rewrite Hh by done; auto.
Qed.

(** ** Operations *)

Section Safe.
Context {S : Type} `{!SesHost S}.

(** [m], started with the invariant and [P], ends with the invariant and [Q]; on the way the
    sessions evolve, [e] being the one its finisher may unlink. *)
Definition safe {A} (e d d' : option nat) (P : ses_core -> Prop) (m : st S A)
    (Q : A -> ses_core -> Prop) : Prop :=
  forall k s, invd d k (get_ses s) -> P (get_ses s) ->
    invd d' k (get_ses (exec m s)) /\ evolves e (get_ses s) (get_ses (exec m s))
    /\ Q (val m s) (get_ses (exec m s)).

(** An action that does not touch the sessions. *)
Definition frame {A} (m : st S A) : Prop := forall s, get_ses (exec m s) = get_ses s.

(** The rely condition on other code. *)
Definition calls_ok {A} (m : st S A) : Prop :=
  safe None None None (fun _ => True) m (fun _ _ => True).
(** Facts no other code can undo. *)
Definition stable (e : option nat) (P : ses_core -> Prop) : Prop :=
  forall c c', evolves e c c' -> P c -> P c'.

Lemma safe_bind {A B} e d d' d'' P (m : st S A) R (k : A -> st S B) Q :
  safe e d d' P m R -> (forall a, safe e d' d'' (R a) (k a) Q) -> safe e d d'' P (m ≫= k) Q.
Proof.
  intros Hm Hk n s Hi Hp. rewrite exec_bind, val_bind.
  destruct (Hm n s Hi Hp) as (H1 & H2 & H3).
  destruct (Hk _ n _ H1 H3) as (H4 & H5 & H6).
  split_and!; [done|by etrans|done].
Qed.

Lemma safe_ret {A} e d P (a : A) : safe e d d P (mret a) (fun b c => b = a /\ P c).
Proof. intros k s Hi Hp. split_and!; try done. Qed.

Lemma safe_conseq {A} e d d' (P P' : ses_core -> Prop) (m : st S A) (Q Q' : A -> ses_core -> Prop) :
  safe e d d' P' m Q' -> (forall c, P c -> P' c) -> (forall a c, Q' a c -> Q a c) ->
  safe e d d' P m Q.
Proof.
  intros Hm HP HQ k s Hi Hp. destruct (Hm k s Hi (HP _ Hp)) as (? & ? & ?). auto.
Qed.

Lemma safe_gets {A} e d P (f : S -> A) : safe e d d P (gets f) (fun _ => P).
Proof. intros k s Hi Hp. split_and!; try done. Qed.

Lemma safe_core_get {A} e d P (p : ses_core -> A) :
  safe e d d P (core_get p) (fun a c => P c /\ a = p c).
Proof. intros k s Hi Hp. split_and!; try done. Qed.

Lemma safe_ses_get {A} e d P i (p : ap_session -> A) :
  safe e d d P (ses_get i p) (fun a c => P c /\ a = p (heap c i)).
Proof. apply safe_core_get. Qed.

(** The same rules when the value does not matter. *)
Lemma safe_read {A} e d P (p : ses_core -> A) : safe e d d P (core_get p) (fun _ => P).
Proof. intros k s Hi Hp. split_and!; try done. Qed.
Lemma safe_sread {A} e d P i (p : ap_session -> A) : safe e d d P (ses_get i p) (fun _ => P).
Proof. apply safe_read. Qed.
Lemma safe_mret {A} e d P (a : A) : safe e d d P (mret a) (fun _ => P).
Proof. intros k s Hi Hp. split_and!; try done. Qed.

Lemma exec_core_upd f s : exec (core_upd f) s = put_ses (f (get_ses s)) s.
Proof. done. Qed.

Lemma safe_core_upd e d d' (P Q : ses_core -> Prop) f :
  (forall k c, invd d k c -> P c -> invd d' k (f c) /\ evolves e c (f c) /\ Q (f c)) ->
  safe e d d' P (core_upd f) (fun _ => Q).
Proof. intros H k s Hi Hp. rewrite exec_core_upd, get_put_ses. by apply H. Qed.

Lemma safe_similar e d (P Q : ses_core -> Prop) f :
  (forall c, P c -> similar c (f c) /\ Q (f c)) -> safe e d d P (core_upd f) (fun _ => Q).
Proof.
  intros H. apply safe_core_upd. intros k c Hi Hp. destruct (H c Hp) as [Hs Hq].
  split_and!; [by eapply invd_similar|by apply evolves_similar|done].
Qed.

(** Two updates in a row act as one. *)
Lemma safe_fuse {A} e d d' P f g (k : unit -> st S A) Q :
  safe e d d' P (core_upd (fun c => g (f c)) ≫= k) Q ->
  safe e d d' P (core_upd f ≫= fun _ => core_upd g ≫= k) Q.
Proof.
  intros H n s Hi Hp. specialize (H n s Hi Hp).
  rewrite !exec_bind, !val_bind, !exec_core_upd, get_put_ses, put_put_ses in *. exact H.
Qed.

Lemma safe_frame {A} e d P (m : st S A) : frame m -> safe e d d P m (fun _ => P).
Proof. intros Hm k s Hi Hp. rewrite (Hm s). split_and!; try done. Qed.

Lemma safe_calls {A} e P (m : st S A) :
  calls_ok m -> stable None P -> safe e None None P m (fun _ => P).
Proof.
  intros Hm HP k s Hi Hp. destruct (Hm k s Hi I) as (H1 & H2 & _).
  split_and!; [done|by apply evolves_weaken|by eapply HP].
Qed.

(** The same for code that may only be called in some states. *)
Lemma safe_calls_at {A} e (P R : ses_core -> Prop) (m : st S A) :
  safe None None None R m (fun _ _ => True) -> (forall c, P c -> R c) -> stable None P ->
  safe e None None P m (fun _ => P).
Proof.
  intros Hm HR HP k s Hi Hp. destruct (Hm k s Hi (HR _ Hp)) as (H1 & H2 & _).
  split_and!; [done|by apply evolves_weaken|by eapply HP].
Qed.

Lemma safe_when e d (P : ses_core -> Prop) (b : bool) (m : st S unit) (Q : ses_core -> Prop) :
  (b = true -> safe e d d P m (fun _ => Q)) -> (forall c, b = false -> P c -> Q c) ->
  safe e d d P (when b m) (fun _ => Q).
Proof.
  intros Hm HQ. destruct b; [by apply Hm|]. intros k s Hi Hp.
  split_and!; try done. by apply HQ.
Qed.

End Safe.

(** Case analysis on the condition of a program. *)
Ltac case_if :=
  match goal with |- safe _ _ _ _ (if ?b then _ else _) _ => destruct b eqn:? end.

(** The fields of a session the invariant does not read. *)
Record inert (f : ap_session -> ap_session) : Prop := {
  inert_state x : state (f x) = state x;
  inert_term x : terminating (f x) = terminating x;
  inert_fin x : finish_started x = true -> finish_started (f x) = true;
  inert_stop x : stop_time x <> 0%Z -> stop_time (f x) <> 0%Z
}.

Lemma similar_hset i f c : inert f -> similar c (hset i f c).
Proof.
  intros [Hq Ht Hf Hs]. split; try done; intros j; rewrite heap_hset; case_decide; auto.
Qed.

Lemma safe_ses_upd {S} `{!SesHost S} e d (P Q : ses_core -> Prop) i f :
  inert f -> (forall c, P c -> Q (hset i f c)) ->
  safe e d d P (ses_upd i f) (fun _ => Q).
Proof. intros Hf HQ. apply safe_similar. intros c Hp. split; [by apply similar_hset|by apply HQ]. Qed.

Lemma safe_fire {S} `{!SesHost S} (env : ses_env S) e P ev i :
  ev <> EV_SES_STARTING -> ev <> EV_SES_FINISHED -> calls_ok (fire env ev i) -> stable None P ->
  safe e None None P (fire_event env ev i) (fun _ => P).
Proof.
  intros H1 H2 Hf HP. unfold fire_event. eapply safe_bind; [|intros; by apply safe_calls].
  apply (safe_similar e None P P). intros c Hp.
  assert (similar c (c <| trace ::= fun t => (ev, i) :: t |>)) as Hs.
  { split; try done. intros ev' j Hev.
    change (trace (c <| trace ::= fun t => (ev, i) :: t |>)) with ((ev, i) :: trace c).
    rewrite count_cons, decide_False; [done|]. intros [= -> ->]. naive_solver. }
  split; [done|]. eapply HP, Hp. by apply evolves_similar.
Qed.

Lemma stable_true e : stable e (fun _ => True).
Proof. done. Qed.
Lemma stable_stop e i : stable e (fun c => stop_time (heap c i) <> 0%Z).
Proof. intros c c' [_ H _]. apply H. Qed.
Lemma stable_reach e i : stable e (reach i).
Proof. intros c c' [_ _ H]. apply H. Qed.
Lemma stable_and e P Q : stable e P -> stable e Q -> stable e (fun c => P c /\ Q c).
Proof. intros HP HQ c c' He [??]. split; [by eapply HP|by eapply HQ]. Qed.
#[local] Hint Resolve stable_true stable_stop stable_reach stable_and : core.

(** What the rest of the program owes the sessions.  The calls of the first group do not touch
    them; those of the second group touch them only through the operations of this file
    ([calls_ok]); the calls that bring an interface up, in addition, do not activate or finish
    the session they are called for without stopping it. *)
Record env_ok {S} `{!SesHost S} (env : ses_env S) : Prop := {
  ok_now s : now env s <> 0%Z;
  ok_get_ifindex n : frame (get_ifindex env n);
  ok_urandom : frame (urandom env);
  ok_save_seq : frame (save_seq env);
  ok_accounting m p b : frame (accounting env m p b);
  ok_if_configure i : frame (if_configure env i);
  ok_if_deconfigure i : frame (if_deconfigure env i);
  ok_put_ipv4 i : frame (put_ipv4 env i);
  ok_put_ipv6 i : frame (put_ipv6 env i);
  ok_net_release : frame (net_release env);
  ok_set_priority x p : frame (set_priority env x p);
  ok_context_wakeup x : frame (context_wakeup env x);
  ok_shutdown_done b : frame (shutdown_done env b);
  ok_fire ev i : calls_ok (fire env ev i);
  ok_ctrl_finished i : calls_ok (ctrl_finished env i);
  ok_ctrl_terminate i h :
    safe None None None (reach i) (ctrl_terminate env i h) (fun _ _ => True);
  ok_context_schedule : calls_ok (context_schedule env);
  ok_up_fire ev i :
    ev ∈ [EV_SES_ACCT_START; EV_SES_PRE_UP; EV_SES_STARTED; EV_SES_POST_STARTED] ->
    safe None None None (pending i) (fire env ev i) (fun _ => pending i);
  ok_ctrl_started i : safe None None None (pending i) (ctrl_started env i) (fun _ => pending i);
  ok_rename i n : safe None None None (pending i) (rename env i n) (fun _ => pending i)
}.

Section Ops.
Context {S : Type} `{!SesHost S}.
Variable env : ses_env S.
Variable conf : ses_conf.
Hypothesis Henv : env_ok env.

Lemma inert_weak f :
  (forall x, state (f x) = state x /\ terminating (f x) = terminating x /\
     finish_started (f x) = finish_started x /\
     stop_time (f x) = stop_time x) -> inert f.
Proof.
  intros H. split; intros x; destruct (H x) as (H1 & H2 & H3 & H4); congruence.
Qed.

(** A fact that only reads the fields of [inert_weak], through any change of other fields. *)
Definition reads (P : ses_core -> Prop) : Prop :=
  forall c i f,
    (forall x, state (f x) = state x /\ terminating (f x) = terminating x /\
       finish_started (f x) = finish_started x /\
       stop_time (f x) = stop_time x) -> P c -> P (hset i f c).

Lemma safe_plain e d P i f :
  (forall x, state (f x) = state x /\ terminating (f x) = terminating x /\
     finish_started (f x) = finish_started x /\
     stop_time (f x) = stop_time x) ->
  reads P -> safe e d d P (ses_upd i f) (fun _ => P).
Proof.
  intros Hf HP. apply safe_ses_upd; [by apply inert_weak|]. intros c Hp. by apply HP.
Qed.

Ltac reads_tac :=
  let c := fresh in let j := fresh in let f := fresh in let Hf := fresh "Hf" in
  intros c j f Hf; unfold reach, pending; rewrite ?heap_hset;
  change (ses_list (hset j f c)) with (ses_list c); case_decide; [|done];
  match goal with |- context [f ?x] =>
    let E1 := fresh in let E2 := fresh in let E3 := fresh in let E4 := fresh in
    destruct (Hf x) as (E1 & E2 & E3 & E4); rewrite ?E1, ?E2, ?E3, ?E4; done
  end.

Lemma reads_true : reads (fun _ => True).
Proof. by intros c i f _. Qed.
Lemma reads_list i : reads (fun c => i ∈ ses_list c).
Proof. intros c j f _ H. exact H. Qed.
Lemma reads_stop i : reads (fun c => stop_time (heap c i) <> 0%Z).
Proof. reads_tac. Qed.
Lemma reads_term i b : reads (fun c => b = terminating (heap c i)).
Proof. reads_tac. Qed.
Lemma reads_fin i b : reads (fun c => finish_started (heap c i) = b).
Proof. reads_tac. Qed.
Lemma reads_state i (p : Z -> bool) b : reads (fun c => p (state (heap c i)) = b).
Proof. reads_tac. Qed.
Lemma reads_reach i : reads (reach i).
Proof. reads_tac. Qed.
Lemma reads_pending i : reads (pending i).
Proof. reads_tac. Qed.
Lemma reads_and P Q : reads P -> reads Q -> reads (fun c => P c /\ Q c).
Proof. intros HP HQ c i f Hf [??]. split; [by apply HP|by apply HQ]. Qed.
#[local] Hint Resolve reads_true reads_list reads_stop reads_term reads_fin reads_state
  reads_reach reads_pending reads_and : core.

Lemma safe_timer_del e d P i : reads P -> safe e d d P (timer_del i) (fun _ => P).
Proof.
  intros HP. unfold timer_del. eapply safe_bind; [apply safe_ses_get|intros b].
  eapply safe_conseq; [|intros c [Hp _]; exact Hp|intros ? c H; exact H].
  apply safe_when; [|done]. intros _. by apply safe_plain.
Qed.

Lemma safe_ifdown e d P i : safe e d d P (ap_session_ifdown env i) (fun _ => P).
Proof.
  unfold ap_session_ifdown. eapply safe_bind; [apply safe_ses_get|intros n].
  eapply safe_conseq; [|intros c [Hp _]; exact Hp|intros ? c H; exact H].
  apply safe_when; [|done]. intros _. apply safe_frame, Henv.
Qed.

Lemma safe_read_stats e d P i :
  reads P -> safe e d d P (ap_session_read_stats env i) (fun r c => r = 0%Z /\ P c).
Proof.
  intros HP. unfold ap_session_read_stats.
  eapply safe_bind; [apply safe_ses_get|intros x]. cbv zeta.
  eapply safe_bind; [apply safe_frame, Henv|intros a].
  eapply safe_bind; [apply safe_ses_get|intros old].
  eapply safe_bind; [apply safe_gets|intros t].
  eapply safe_conseq; [|intros c [[Hp _] _]; exact Hp|intros ? c H; exact H].
  eapply (safe_bind _ _ d _ _ _ (fun _ => P)).
  { apply safe_when; [|done]. intros _. by apply safe_plain. }
  intros _. eapply (safe_bind _ _ d _ _ _ (fun _ => P)); [by apply safe_plain|].
  intros _. apply safe_ret.
Qed.

Lemma safe_skip e d (P Q : ses_core -> Prop) :
  (forall c, P c -> Q c) -> safe e d d P (skip (S := S)) (fun _ => Q).
Proof. intros H. eapply safe_conseq; [apply safe_ret|done|]. intros _ c [_ Hp]. auto. Qed.

Lemma safe_now e d P : safe e d d P (gets (now env)) (fun t c => P c /\ t <> 0%Z).
Proof. intros k s Hi Hp. split_and!; try done. apply Henv. Qed.

(** The state change of [ap_session_terminate]. *)
Lemma safe_to_finishing i {A} (k : st S A) Q :
  let g q := fun c : ap_session_stat => if (q =? AP_STATE_ACTIVE)%Z then c <| active ::= dec |>
                         else c <| starting ::= dec |> <| incoming ::= dec |> in
  safe None None None (fun c => reach i c /\ stop_time (heap c i) <> 0%Z) k Q ->
  safe None None None
    (fun c => (i ∈ ses_list c /\ stop_time (heap c i) <> 0%Z) /\ false = terminating (heap c i))
    (q ← ses_get i state; stat_upd (g q) ;;
     stat_upd (fun c => c <| finishing ::= inc |>) ;;
     ses_upd i (fun x => x <| terminating := true |> <| state := AP_STATE_FINISHING |>) ;; k) Q.
Proof.
  intros g Hk. eapply safe_bind; [apply safe_ses_get|intros q].
  do 2 apply safe_fuse.
  apply (safe_bind _ _ None _ _ _ (fun _ c => reach i c /\ stop_time (heap c i) <> 0%Z));
    [|intros _; exact Hk].
  apply safe_core_upd. intros n c Hi [[[Hl Hs] Ht] ->]. split_and!.
  - by apply (invd_terminate n c i).
  - by apply (evolves_hset None i
      (fun x => x <| terminating := true |> <| state := AP_STATE_FINISHING |>) (fun x => (g (state (heap c i)) x) <| finishing ::= inc |>) c).
  - by left.
  - intros H. apply Hs. cbn in H. by destruct (decide (i = i)).
Qed.

Lemma safe_terminate (Q : ses_core -> Prop) i cause hard :
  (forall c, stop_time (heap c i) <> 0%Z -> Q c) ->
  safe None None None (fun c => reach i c /\ Q c) (ap_session_terminate env i cause hard)
    (fun _ => Q).
Proof.
  intros HQ. unfold ap_session_terminate.
  eapply safe_bind; [apply safe_ses_get|intros x].
  destruct (terminated x || finish_started x)%bool eqn:Eg; [apply safe_skip; naive_solver|].
  destruct (negb (ctrl_ok x)); [apply safe_skip; naive_solver|].
  apply orb_false_iff in Eg as [Et Ef].
  apply (safe_conseq _ _ _ _ (fun c => i ∈ ses_list c) _ _ (fun _ => Q)); [|clear -Et Ef|done].
  2:{ intros c [[[H|H] _] ->]; [done|]; unfold id in *; congruence. }
  eapply safe_bind; [apply safe_frame, Henv|intros ?].
  eapply safe_bind; [apply safe_now|intros t].
  eapply (safe_bind _ _ None _ _ _
    (fun _ c => i ∈ ses_list c /\ stop_time (heap c i) <> 0%Z)).
  { apply safe_ses_upd.
    - split; intros y; case_match eqn:E; try done. apply Z.eqb_eq in E. done.
    - intros c [Hl Ht]. split; [done|]. rewrite heap_hset, decide_True by done.
      case_match eqn:E; [done|by apply Z.eqb_neq]. }
  intros ?. eapply (safe_bind _ _ None); [apply safe_plain; [|auto]|intros ?].
  { intros y. by case_match. }
  eapply safe_bind; [apply safe_timer_del; auto|intros ?].
  eapply safe_bind; [apply safe_ses_get|intros b].
  eapply safe_bind; [apply safe_ses_get|intros f].
  destruct b.
  - eapply (safe_conseq _ _ _ _ (fun c => reach i c /\ stop_time (heap c i) <> 0%Z) _ _
      (fun _ c => reach i c /\ stop_time (heap c i) <> 0%Z));
      [|intros c [[[H1 H2] _] _]; split; [by left|done]|intros ? c [_ H]; by apply HQ].
    apply safe_when; [|done]. intros _.
    eapply safe_bind; [|intros ?; apply safe_skip; intros c H; exact H].
    eapply safe_calls_at; [apply Henv|naive_solver|auto].
  - eapply (safe_conseq _ _ _ _ _ _ _ (fun _ c => reach i c /\ stop_time (heap c i) <> 0%Z));
      [|intros c [H _]; exact H|intros ? c [_ H]; by apply HQ].
    apply (safe_to_finishing i).
    eapply safe_bind; [eapply safe_calls_at; [apply Henv|naive_solver|auto]|intros r].
    apply safe_when; [|done]. intros _.
    eapply safe_bind; [apply safe_ifdown|intros ?].
    eapply safe_bind; [apply safe_read_stats; auto|intros r'].
    eapply safe_conseq; [|intros c [_ H]; exact H|intros ? c H; exact H].
    eapply safe_bind; [apply safe_fire; [done|done|apply Henv|auto]|intros ?].
    apply safe_plain; auto.
Qed.

(** Bringing the interface up leaves a starting session starting, or stopped. *)
Definition rising (i : nat) (c : ses_core) : Prop := reach i c /\ pending i c.

Lemma safe_rising {A} i (m : st S A) :
  safe None None None (pending i) m (fun _ => pending i) ->
  safe None None None (rising i) m (fun _ => rising i).
Proof.
  intros Hm k s Hi [Hr Hp]. destruct (Hm k s Hi Hp) as (H1 & H2 & H3).
  split_and!; [done|done|]. split; [by apply H2|done].
Qed.

Lemma safe_rising_fire i ev :
  ev ∈ [EV_SES_ACCT_START; EV_SES_PRE_UP; EV_SES_STARTED; EV_SES_POST_STARTED] ->
  safe None None None (rising i) (fire_event env ev i) (fun _ => rising i).
Proof.
  intros Hev. unfold fire_event.
  eapply (safe_bind _ _ None _ _ _ (fun _ => rising i));
    [|intros ?; by apply safe_rising, Henv].
  apply safe_similar. intros c [Hr Hp].
  assert (similar c (c <| trace ::= fun t => (ev, i) :: t |>)) as Hs.
  { split; try done. intros ev' j Hev'.
    change (trace (c <| trace ::= fun t => (ev, i) :: t |>)) with ((ev, i) :: trace c).
    rewrite count_cons, decide_False; [done|]. intros [= -> ->].
    destruct Hev' as [-> | ->]; revert Hev; rewrite !elem_of_cons, elem_of_nil; naive_solver. }
  split; [done|]. split; [by eapply (evolves_similar None)|by eapply pending_similar].
Qed.

Lemma reads_rising i : reads (rising i).
Proof. apply reads_and; auto. Qed.

Lemma safe_accounting_started i :
  safe None None None (rising i) (ap_session_accounting_started env i) (fun _ => rising i).
Proof.
  unfold ap_session_accounting_started.
  eapply safe_bind; [apply safe_ses_get|intros t].
  eapply safe_conseq; [|intros c [H _]; exact H|intros ? c H; exact H].
  destruct (negb (t =? 0)%Z); [by apply safe_skip|].
  eapply (safe_bind _ _ None _ _ _ (fun _ => rising i)); [by apply safe_plain, reads_rising|intros _].
  eapply safe_bind; [apply safe_ses_get|intros n].
  eapply safe_conseq; [|intros c [H _]; exact H|intros ? c H; exact H].
  destruct (negb (n =? 0)%Z); [by apply safe_skip|].
  eapply (safe_bind _ _ None _ _ _ (fun _ => rising i));
    [apply safe_rising_fire; set_solver|intros _].
  eapply safe_bind; [apply safe_ses_get|intros t'].
  eapply safe_conseq; [|intros c [H _]; exact H|intros ? c H; exact H].
  destruct (negb (t' =? 0)%Z); [by apply safe_skip|].
  eapply (safe_bind _ _ None _ _ _ (fun _ => rising i)); [apply safe_frame, Henv|intros _].
  eapply (safe_bind _ _ None _ _ _ (fun _ => rising i)); [apply safe_rising, Henv|intros _].
  eapply (safe_bind _ _ None _ _ _ (fun _ => rising i));
    [|intros _]; apply safe_rising_fire; set_solver.
Qed.

Lemma safe_ifup_acct i :
  safe None None None (rising i) (ifup_acct env i) (fun _ => rising i).
Proof.
  unfold ifup_acct.
  eapply (safe_bind _ _ None _ _ _ (fun _ => rising i));
    [apply safe_rising_fire; set_solver|intros _].
  eapply safe_bind; [apply safe_ses_get|intros t].
  eapply safe_bind; [apply safe_ses_get|intros a].
  eapply safe_conseq; [|intros c [[H _] _]; exact H|intros ? c H; exact H].
  case_match; [by apply safe_skip|].
  eapply (safe_bind _ _ None _ _ _ (fun _ => rising i)); [by apply safe_plain, reads_rising|intros _].
  apply safe_accounting_started.
Qed.

Lemma safe_ifup i : safe None None None (rising i) (ap_session_ifup env i) (fun _ => rising i).
Proof.
  unfold ap_session_ifup. eapply safe_bind; [apply safe_ses_get|intros n].
  eapply safe_conseq; [|intros c [H _]; exact H|intros ? c H; exact H].
  destruct n; [|apply safe_ifup_acct].
  eapply (safe_bind _ _ None _ _ _ (fun _ => rising i)); [apply safe_rising, Henv|intros r].
  destruct (negb (r =? 0)%Z).
  - intros k x Hi [Hr Hp].
    destruct (safe_terminate (pending i) i TERM_NAS_ERROR 0 (fun c H => or_intror H) k x Hi (conj Hr Hp))
      as (H1 & H2 & H3).
    split_and!; [done|done|]. split; [by apply H2|done].
  - eapply (safe_bind _ _ None _ _ _ (fun _ => rising i));
      [by apply safe_plain, reads_rising|intros _; apply safe_ifup_acct].
Qed.

(** ** Activation *)

Lemma safe_to_active i {A} (k : st S A) Q :
  safe None None None (fun _ => True) k Q ->
  safe None None None (fun c => i ∈ ses_list c /\ starting_like (state (heap c i)) = true)
    (ses_upd i (fun x => x <| state := AP_STATE_ACTIVE |>) ;;
     stat_upd (fun c => c <| starting ::= dec |> <| incoming ::= dec |> <| active ::= inc |>) ;; k) Q.
Proof.
  intros Hk. apply safe_fuse.
  apply (safe_bind _ _ None _ _ _ (fun _ _ => True)); [|intros _; exact Hk].
  apply safe_core_upd. intros n c Hi [Hl Hs]. split_and!; [|by apply (evolves_hset None i
    (fun x => x <| state := AP_STATE_ACTIVE |>)
    (fun c => c <| starting ::= dec |> <| incoming ::= dec |> <| active ::= inc |>) c)|done].
  by apply (invd_activate n c i).
Qed.

Lemma safe_activate i :
  safe None None None (fun c => i ∈ ses_list c /\ starting_like (state (heap c i)) = true)
    (ap_session_activate env conf i) (fun _ _ => True).
Proof.
  unfold ap_session_activate. eapply safe_bind; [apply safe_core_get|intros b].
  destruct b; [by apply safe_skip|].
  eapply (safe_bind _ _ None _ _ _ (fun _ => rising i)).
  { eapply safe_conseq; [apply safe_ifup| |done]. intros c [[Hl Hs] _].
    split; [by left|by left]. }
  intros _. eapply safe_bind; [apply safe_ses_get|intros t].
  destruct (negb (t =? 0)%Z) eqn:Et; [by apply safe_skip|].
  apply negb_false_iff, Z.eqb_eq in Et as ->.
  eapply safe_conseq; [apply safe_to_active| |done].
  2:{ intros c [[_ [Hp|Hp]] Hs]; [done|by rewrite <- Hs in Hp]. }
  eapply (safe_bind _ _ None _ _ _ (fun _ _ => True));
    [apply safe_plain; [|auto]; intros x; by case_match|intros _].
  eapply (safe_bind _ _ None _ _ _ (fun _ _ => True));
    [apply safe_plain; [|auto]; intros x; unfold arm_timer; by repeat case_match|intros _].
  eapply safe_bind; [apply safe_ses_get|intros x].
  eapply (safe_conseq _ _ _ _ (fun _ => True)); [apply safe_frame, Henv|done|done].
Qed.

(** ** The end of a session *)

Lemma safe_release_ip e i (P : ses_core -> Prop) :
  reads P -> safe e (Some i) (Some i) P (release_ip env i) (fun _ => P).
Proof.
  intros HP. unfold release_ip.
  assert (forall (m : st S unit) f, frame m ->
    (forall x, state (f x) = state x /\ terminating (f x) = terminating x /\
       finish_started (f x) = finish_started x /\
       stop_time (f x) = stop_time x) -> forall b : bool,
    safe e (Some i) (Some i) P (when b (m ;; ses_upd i f)) (fun _ => P)) as Hw.
  { intros m f Hm Hf b. apply safe_when; [|done]. intros _.
    eapply safe_bind; [by apply safe_frame|intros ?]. by apply safe_plain. }
  eapply safe_bind; [apply safe_ses_get|intros a].
  eapply safe_conseq; [|intros c [H _]; exact H|intros ? c H; exact H].
  eapply safe_bind; [apply Hw; [apply Henv|done]|intros ?].
  eapply safe_bind; [apply safe_ses_get|intros a'].
  eapply safe_conseq; [|intros c [H _]; exact H|intros ? c H; exact H].
  apply Hw; [apply Henv|done].
Qed.

Lemma safe_free_session e i : safe e None None (fun _ => True) (free_session env i) (fun _ _ => True).
Proof.
  unfold free_session. eapply safe_bind; [apply safe_ses_get|intros w].
  eapply (safe_bind _ _ None _ _ _ (fun _ _ => True)).
  { destruct w; [|by apply safe_skip].
    eapply (safe_bind _ _ None _ _ _ (fun _ _ => True)).
    - eapply (safe_conseq _ _ _ _ (fun _ => True)); [apply safe_plain|..]; auto.
    - intros _. apply safe_frame, Henv. }
  intros _. eapply (safe_bind _ _ None _ _ _ (fun _ _ => True)); [apply safe_plain; auto|intros _].
  eapply safe_bind; [apply safe_ses_get|intros b].
  eapply (safe_bind _ _ None _ _ _ (fun _ _ => True)).
  { apply safe_when; [|done]. intros _.
    eapply (safe_conseq _ _ _ _ (fun _ => True)); [apply safe_frame, Henv|done|done]. }
  intros _. apply safe_timer_del; auto.
Qed.

(** Unlinking, as the two updates between which nothing else runs. *)
Lemma safe_unlink i {A} (k : st S A) Q :
  safe (Some i) (Some i) None (fun _ => True) k Q ->
  safe (Some i) None None
    (fun c => i ∈ ses_list c /\ finish_started (heap c i) = true)
    (list_del i ;; q ← ses_get i state; stat_upd (uncount q) ;; k) Q.
Proof.
  intros Hk.
  apply (safe_conseq (Some i) None None
    (fun c => i ∈ ses_list c /\ finish_started (heap c i) = true)
    (fun c => i ∈ ses_list c /\ finish_started (heap c i) = true) _ Q Q);
    [|done|done].
  assert (forall s, i ∈ ses_list (get_ses s) ->
    exec (list_del i ;; q ← ses_get i state; stat_upd (uncount q) ;; k) s
    = exec (core_upd (fun c => c <| ses_list ::= List.filter (fun j => negb (Nat.eqb j i)) |>
                     <| stat ::= uncount (state (heap c i)) |>) ;; k) s /\
    val (list_del i ;; q ← ses_get i state; stat_upd (uncount q) ;; k) s
    = val (core_upd (fun c => c <| ses_list ::= List.filter (fun j => negb (Nat.eqb j i)) |>
                     <| stat ::= uncount (state (heap c i)) |>) ;; k) s) as E.
  { intros s Hi. unfold list_del, stat_upd. rewrite !exec_bind, !val_bind.
    rewrite !exec_core_upd, !decide_True by done.
    assert (exec (ses_get i state) = id (A := S)) as -> by done. unfold id.
    rewrite !get_put_ses, !put_put_ses.
    assert (forall s, val (ses_get i state) s = state (heap (get_ses s) i)) as Hv by done.
    rewrite !Hv, !get_put_ses. done. }
  assert (safe (Some i) None None (fun c => i ∈ ses_list c /\ finish_started (heap c i) = true)
    (core_upd (fun c => c <| ses_list ::= List.filter (fun j => negb (Nat.eqb j i)) |>
                     <| stat ::= uncount (state (heap c i)) |>) ;; k) Q) as H.
  { apply (safe_bind _ _ (Some i) _ _ _ (fun _ _ => True)); [|intros _; exact Hk].
    apply safe_core_upd. intros n c Hi [Hl Hf].
    split_and!; [by apply (invd_unlink n c i)| |done].
    split; try done.
    - intros j Hj Hlj Hfj. split; [|done]. apply list_elem_of_In, filter_In.
      split; [by apply list_elem_of_In|]. apply negb_true_iff, Nat.eqb_neq. congruence.
    - intros j [Hj|Hj]; [|by right]. destruct (decide (j = i)) as [->|Hne]; [by right|].
      left. apply list_elem_of_In, filter_In.
      split; [by apply list_elem_of_In|]. by apply negb_true_iff, Nat.eqb_neq. }
  intros n s Hi [Hl Hf]. destruct (E s Hl) as [-> ->]. by apply H.
Qed.

Lemma stable_finishing i :
  stable None (fun c => i ∈ ses_list c /\ finish_started (heap c i) = true).
Proof. intros c c' [H _ _] [Hl Hf]. by apply H. Qed.

Lemma safe_no_session e d : safe e d d (fun _ => True) (no_session (S := S)) (fun _ _ => True).
Proof.
  unfold no_session. eapply safe_bind; [apply safe_read|intros x]. apply safe_mret.
Qed.

(** The work of the first caller of [ap_session_finished]. *)
Lemma safe_finish_body i :
  safe (Some i) None None (fun c => i ∈ ses_list c) (ap_session_finished env i) (fun _ _ => True).
Proof.
  unfold ap_session_finished. eapply safe_bind; [apply safe_ses_get|intros b].
  eapply (safe_bind _ _ None _ _ _
    (fun _ c => i ∈ ses_list c /\ finish_started (heap c i) = true)).
  { apply safe_ses_upd; [by split|]. intros c [Hl _]. split; [done|].
    rewrite heap_hset, decide_True by done. done. }
  intros _. destruct b; [by apply safe_skip|].
  eapply (safe_bind _ _ None _ _ _
    (fun _ c => i ∈ ses_list c /\ finish_started (heap c i) = true)).
  { apply safe_ses_upd; [by split|]. intros c [Hl Hf]. split; [done|].
    rewrite heap_hset, decide_True by done. done. }
  intros _. eapply safe_bind; [apply safe_ses_get|intros d].
  eapply safe_conseq; [|intros c [H _]; exact H|intros ? c H; exact H].
  eapply (safe_bind _ _ None _ _ _
    (fun _ c => i ∈ ses_list c /\ finish_started (heap c i) = true)).
  { apply safe_when; [|done]. intros _.
    eapply safe_bind; [apply safe_ifdown|intros ?].
    eapply safe_bind; [apply safe_read_stats; auto|intros r].
    eapply safe_conseq; [|intros c [_ H]; exact H|intros ? c H; exact H].
    apply safe_fire; [done|done|apply Henv|apply stable_finishing]. }
  intros _. eapply safe_bind;
    [apply safe_fire; [done|done|apply Henv|apply stable_finishing]|intros ?].
  apply safe_unlink.
  eapply (safe_bind _ _ (Some i) _ _ _ (fun _ _ => True)); [apply safe_release_ip; auto|intros _].
  eapply (safe_bind _ _ None _ _ _ (fun _ _ => True)).
  { unfold fire_event. eapply (safe_bind _ _ None _ _ _ (fun _ _ => True)).
    - apply safe_core_upd. intros k c Hi _. split_and!; [by apply invd_announce|by split|done].
    - intros _. apply safe_calls; [apply Henv|auto]. }
  intros _. eapply safe_bind; [apply safe_calls; [apply Henv|auto]|intros ?].
  eapply safe_bind; [apply safe_free_session|intros ?].
  eapply (safe_bind _ _ None _ _ _ (fun _ _ => True));
    [apply safe_read|intros sd].
  eapply safe_bind; [apply safe_no_session|intros z].
  eapply safe_bind; [apply safe_read|intros cb].
  apply (safe_when _ _ (fun _ => True)); [|done]. intros _. apply safe_frame, Henv.
Qed.

Lemma safe_finished i :
  safe None None None (fun c => i ∈ ses_list c \/ finish_started (heap c i) = true)
    (ap_session_finished env i) (fun _ _ => True).
Proof.
  intros k s Hi Hp. destruct (finish_started (heap (get_ses s) i)) eqn:Ef.
  - assert (exec (ap_session_finished env i) s
      = exec (ses_upd i (fun x => x <| finish_started := true |>)) s) as ->.
    { unfold ap_session_finished. rewrite exec_bind.
      replace (val (ses_get i finish_started) s) with true by (by rewrite <- Ef).
      by rewrite exec_bind. }
    apply (safe_ses_upd None None (fun _ => True) (fun _ => True)); [by split|done|done|done].
  - assert (i ∈ ses_list (get_ses s)) as Hl by naive_solver.
    destruct (safe_finish_body i k s Hi Hl) as (H1 & H2 & _).
    split_and!; [done|by eapply evolves_finish|done].
Qed.

(** ** The remaining operations *)

Lemma safe_timer i : safe None None None (reach i) (ap_session_timer env i) (fun _ _ => True).
Proof.
  assert (forall cause, safe None None None (reach i) (ap_session_terminate env i cause 0)
    (fun _ => reach i)) as Ht.
  { intros cause k s Hi Hr.
    destruct (safe_terminate (fun _ => True) i cause 0 (fun _ _ => I) k s Hi (conj Hr I))
      as (H1 & H2 & _). split_and!; [done|done|by apply H2]. }
  unfold ap_session_timer. eapply safe_bind; [apply safe_read_stats; auto|intros r].
  eapply (safe_bind _ _ None _ _ _ (fun _ => reach i)).
  { apply safe_when; [|intros c _ [_ H]; exact H].
    intros _. eapply safe_conseq; [apply Ht|intros c [_ H]; exact H|done]. }
  intros _. eapply safe_bind; [apply safe_gets|intros t].
  eapply safe_bind; [apply safe_ses_get|intros x].
  eapply (safe_conseq _ _ _ _ (reach i) _ _ (fun _ => reach i)); [|intros c [H _]; exact H|done].
  case_match; [apply Ht|]. apply safe_when; [|done]. intros _. apply Ht.
Qed.

Lemma safe_run_call d i : safe None None None (reach i) (run_call env d i) (fun _ _ => True).
Proof.
  intros k s Hi Hr. destruct d; apply (safe_terminate (fun _ => True)); done.
Qed.

Lemma safe_claim_name i name l wait :
  safe None None None (fun _ => True) (claim_name env conf i name l wait) (fun _ _ => True).
Proof.
  revert wait. induction l as [|j l IH]; intros wait; cbn [claim_name].
  - apply safe_mret.
  - eapply (safe_bind _ _ None _ _ _ (fun _ _ => True));
      [apply safe_sread|intros x].
    case_if; [|apply IH]. case_if; [apply safe_mret|]. cbv zeta.
    eapply (safe_bind _ _ None _ _ _ (fun _ _ => True));
      [apply safe_sread|intros y].
    eapply (safe_bind _ _ None _ _ _ (fun _ _ => True)).
    { apply safe_when; [|done]. intros _. apply safe_plain; auto. }
    intros _. eapply (safe_bind _ _ None _ _ _ (fun _ _ => True)); [apply safe_ifdown|intros _].
    eapply (safe_bind _ _ None _ _ _ (fun _ _ => True)); [|intros _; apply IH].
    apply (safe_similar None None (fun _ => True) (fun _ => True)). intros c _.
    by split; [split|].
Qed.

Lemma safe_set_username i name :
  safe None None None (fun _ => True) (ap_session_set_username env conf i name) (fun _ _ => True).
Proof.
  unfold ap_session_set_username. eapply safe_bind; [apply safe_core_get|intros l].
  eapply (safe_conseq _ _ _ _ (fun _ => True) _ _ (fun _ _ => True)); [|done|done].
  eapply (safe_bind _ _ None _ _ _ (fun _ _ => True)).
  { case_match; [apply safe_claim_name|].
    apply safe_mret. }
  intros [w|]; [|apply safe_mret].
  eapply (safe_bind _ _ None _ _ _ (fun _ _ => True)); [apply safe_plain; auto|intros _].
  eapply (safe_bind _ _ None _ _ _ (fun _ _ => True)).
  { apply safe_when; [|done]. intros _. apply safe_calls; [apply Henv|auto]. }
  intros _. apply safe_mret.
Qed.

Lemma safe_shutdown_soft cb term :
  safe None None None (fun _ => True) (ap_shutdown_soft env cb term) (fun _ _ => True).
Proof.
  unfold ap_shutdown_soft.
  assert (forall z, safe None None None (fun _ => True) (mret z : st S Z) (fun _ _ => True)) as Hr
    by (intros z; apply safe_mret).
  assert (forall f, (forall c, similar c (f c)) ->
    safe None None None (fun _ => True) (core_upd f) (fun _ _ => True)) as Hs
    by (intros f Hf; by apply (safe_similar None None (fun _ => True) (fun _ => True))).
  eapply (safe_bind _ _ None _ _ _ (fun _ _ => True)); [by apply Hs|intros _].
  eapply safe_bind; [apply safe_no_session|intros []].
  - eapply (safe_bind _ _ None _ _ _ (fun _ _ => True)); [apply safe_frame, Henv|intros _; apply Hr].
  - eapply (safe_bind _ _ None _ _ _ (fun _ _ => True));
      [apply safe_read|intros l].
    eapply (safe_bind _ _ None _ _ _ (fun _ _ => True)); [|intros _; apply Hr].
    apply safe_when; [|done]. intros _. by apply Hs.
Qed.

(** ** Starting *)

(** [m] turns one connection counted in [incoming] into a linked session. *)
Definition starts (P : ses_core -> Prop) (m : st S Z) : Prop :=
  forall k s, invd None (k + 1) (get_ses s) -> P (get_ses s) ->
    inv k (get_ses (exec m s)) /\ val m s = 0%Z.

Lemma starts_bind {A} P (m : st S A) R k :
  safe None None None P m R -> (forall a, starts (R a) (k a)) -> starts P (m ≫= k).
Proof.
  intros Hm Hk n s Hi Hp. rewrite exec_bind, val_bind.
  destruct (Hm _ s Hi Hp) as (H1 & _ & H3). by apply (Hk _ n).
Qed.

Definition fresh (i : nat) (c : ses_core) : Prop :=
  (i ∉ ses_list c) /\ terminating (heap c i) = false.

Lemma safe_fresh e i (R : ap_session -> Prop) (P : ses_core -> Prop) f :
  (forall x, terminating (f x) = terminating x) ->
  (forall x, finish_started x = true -> finish_started (f x) = true) ->
  (forall x, stop_time x <> 0%Z -> stop_time (f x) <> 0%Z) ->
  (forall x, R (f x)) -> (forall c, P c -> fresh i c) ->
  safe e None None P (ses_upd i f) (fun _ c => fresh i c /\ R (heap c i)).
Proof.
  intros Ht Hf Hs HR HP. apply safe_core_upd. intros k c Hi Hp.
  destruct (HP c Hp) as [Hl Htm]. split_and!.
  - by apply (invd_unlisted None k c i f).
  - exact (evolves_hset e i f (fun x => x) c Hf Hs).
  - split; [done|]. change (terminating (heap (hset i f c) i) = false).
    rewrite heap_hset, decide_True, Ht by done. done.
  - change (R (heap (hset i f c) i)). rewrite heap_hset, decide_True by done. apply HR.
Qed.

Lemma safe_fresh' e i f :
  (forall x, terminating (f x) = terminating x) ->
  (forall x, finish_started x = true -> finish_started (f x) = true) ->
  (forall x, stop_time x <> 0%Z -> stop_time (f x) <> 0%Z) ->
  safe e None None (fresh i) (ses_upd i f) (fun _ => fresh i).
Proof.
  intros. eapply safe_conseq; [apply (safe_fresh e i (fun _ => True) (fresh i))|done|]; auto.
  intros ? c [H' _]. exact H'.
Qed.

Lemma safe_generate_sessionid i :
  safe None None None (fresh i) (generate_sessionid env conf i) (fun _ => fresh i).
Proof.
  unfold generate_sessionid. case_if.
  - eapply (safe_bind _ _ None _ _ _ (fun _ => fresh i)).
    { apply safe_similar. intros c Hf. split; [by split|done]. }
    intros _. eapply safe_bind; [apply safe_read|intros sid].
    eapply safe_bind; [apply safe_gets|intros t].
    eapply safe_bind; [apply safe_read|intros t0].
    eapply (safe_bind _ _ None _ _ _ (fun _ => fresh i)).
    { apply safe_when; [|done]. intros _. apply safe_frame, Henv. }
    intros _. by apply safe_fresh'.
  - eapply safe_bind; [apply safe_frame, Henv|intros sid]. by apply safe_fresh'.
Qed.

Lemma starts_link i :
  starts (fun c => fresh i c /\ starting_like (state (heap c i)) = true)
    (stat_upd (fun c => c <| starting ::= inc |>) ;;
     core_upd (fun c => c <| ses_list ::= fun l => l ++ [i] |>) ;;
     fire_event env EV_SES_STARTING i ;; mret 0%Z).
Proof.
  intros k s Hi [[Hl Ht] Hq]. unfold fire_event, stat_upd.
  rewrite !exec_bind, !val_bind, !exec_core_upd, !get_put_ses, !put_put_ses.
  split; [|done].
  apply (ok_fire env Henv EV_SES_STARTING i k); [|done]. rewrite get_put_ses.
  by apply (invd_link k (get_ses s) i).
Qed.

Lemma starts_starting i :
  starts (fun c => fresh i c /\ ap_shutdown c = false) (ap_session_starting env conf i).
Proof.
  unfold ap_session_starting. eapply starts_bind; [apply safe_core_get|intros b].
  destruct b; [intros k s Hi [[_ H1] H2]; congruence|].
  eapply (starts_bind _ _ (fun _ => fresh i)); [|intros x].
  { eapply (safe_conseq _ _ _ _ (fresh i)); [apply safe_sread|naive_solver|done]. }
  eapply (starts_bind _ _ (fun _ => fresh i)); [|intros _].
  { apply safe_when; [|done]. intros _.
    eapply safe_bind; [apply safe_frame, Henv|intros n]. by apply safe_fresh'. }
  eapply starts_bind; [apply safe_sread|intros n].
  eapply (starts_bind _ _ (fun _ => fresh i)); [|intros _].
  { apply safe_when; [|done]. intros _. by apply safe_fresh'. }
  eapply starts_bind; [apply safe_ses_get|intros q].
  eapply starts_bind; [|intros ?; apply starts_link].
  apply safe_when.
  - intros _. eapply safe_bind; [apply safe_gets|intros t].
    eapply (safe_conseq _ _ _ _ (fresh i)); [|intros c [H _]; exact H|intros ? c H; exact H].
    eapply (safe_bind _ _ None _ _ _ (fun _ => fresh i)); [by apply safe_fresh'|intros _].
    eapply safe_bind; [apply safe_generate_sessionid|intros ?].
    by apply (safe_fresh None i (fun x => starting_like (state x) = true)).
  - intros c Hq [Hf ->]. split; [done|]. apply negb_false_iff, Z.eqb_eq in Hq as ->. done.
Qed.

End Ops.

End SessionInv.
