(* ===== verification/SessionProps.v ===== *)
(** What the sessions guarantee.

    [Module SessionRuns] is the transition system of the sessions: what the controls (PPPoE,
    IPoE) and the event loop may do, one step per operation.  Its theorems: the counters are
    exact and every session is announced and ended exactly once along every run; a shutdown
    completes exactly when no session is left; the session identifiers differ; a user name is
    granted according to the single-session policy; and what becomes of [incoming] when a
    control starts sessions without counting them in it. *)

From stdpp Require Import base tactics list sets numbers option strings relations.
From Stdlib Require Import ZArith Lia Ascii.
From S2P Require Import Prelude CLib Session SessionInv.

Close Scope Z_scope.

Module SessionRuns.
Import Session SessionInv.

(** A new object as a control prepares it: [ap_session_init], then [ctrl], the interface name
    and the peer's address. *)
Definition new_session (c : ap_ctrl) (name : string) (mac : list Z) : ap_session :=
  ap_session_init <| ctrl := Some c |> <| ifname := name |> <| peer_mac := mac |>.

Section Steps.
Context {S : Type} `{!SesHost S}.
Variable env : ses_env S.
Variable conf : ses_conf.

(** [k] counts the connections a control has admitted ([incoming] incremented) whose session
    is not started yet. *)
Inductive ses_step : Z * S -> Z * S -> Prop :=
  | step_alloc k s i c n m : (i ∉ ses_list (get_ses s)) ->
      ses_step (k, s) (k, exec (ses_upd i (fun _ => new_session c n m)) s)
  | step_admit k s :
      ses_step (k, s) ((k + 1)%Z, exec (stat_upd (fun x => x <| incoming ::= inc |>)) s)
  | step_start k s i : fresh i (get_ses s) -> ap_shutdown (get_ses s) = false ->
      ses_step ((k + 1)%Z, s) (k, exec (ap_session_starting env conf i) s)
  | step_activate k s i : i ∈ ses_list (get_ses s) ->
      state (heap (get_ses s) i) = AP_STATE_STARTING ->
      ses_step (k, s) (k, exec (ap_session_activate env conf i) s)
  | step_terminate k s i cause hard : reach i (get_ses s) ->
      ses_step (k, s) (k, exec (ap_session_terminate env i cause hard) s)
  | step_finished k s i : reach i (get_ses s) ->
      ses_step (k, s) (k, exec (ap_session_finished env i) s)
  | step_timer k s i : reach i (get_ses s) ->
      ses_step (k, s) (k, exec (ap_session_timer env i) s)
  | step_call k s d i : (d, i) ∈ calls (get_ses s) -> reach i (get_ses s) ->
      ses_step (k, s) (k, exec (run_call env d i) s)
  | step_username k s i name :
      ses_step (k, s) (k, exec (ap_session_set_username env conf i name) s)
  | step_shutdown k s cb term :
      ses_step (k, s) (k, exec (ap_shutdown_soft env cb term) s).

(** No session, no counter. *)
Definition idle (c : ses_core) : Prop :=
  ses_list c = [] /\ stat c = mk_stat 0 0 0 0 /\ trace c = [] /\ fault c = false.

Lemma invd_idle c : idle c -> inv 0 c.
Proof.
  intros (Hl & Hst & Htr & Hf). unfold n_of.
  split; intros; rewrite ?Hl, ?Hst, ?Htr in *; unfold n_of; rewrite ?Hl; try done.
  all: try (by constructor). all: try set_solver.
Qed.

Lemma invd_admit k c :
  inv k c -> inv (k + 1) (c <| stat ::= fun x => x <| incoming ::= inc |> |>).
Proof.
  intros [Hnd Hst Htm Hs Hin Ha Hf Hft Htr Hg]. split; try done.
  change (inc (incoming (stat c)) = u32 (n_of starting_like c + (k + 1))).
  rewrite Hin, inc_u32. f_equal. lia.
Qed.

Hypothesis Henv : env_ok env.

Lemma step_inv x y : ses_step x y -> inv x.1 (get_ses x.2) -> inv y.1 (get_ses y.2).
Proof.
  intros Hstep Hi. destruct Hstep; simpl in *.
  - unfold ses_upd. rewrite exec_core_upd, get_put_ses. by apply (invd_unlisted None k _ i (fun _ => new_session c n m)).
  - unfold stat_upd. rewrite exec_core_upd, get_put_ses. by apply invd_admit.
  - by apply (starts_starting env conf Henv i k s Hi).
  - apply (safe_activate env conf Henv i k s Hi). split; [done|]. by rewrite H0.
  - by apply (safe_terminate env Henv (fun _ => True) i cause hard (fun _ _ => I) k s Hi).
  - by apply (safe_finished env Henv i k s Hi).
  - by apply (safe_timer env Henv i k s Hi).
  - by apply (safe_run_call env Henv d i k s Hi).
  - by apply (safe_set_username env conf Henv i name k s Hi).
  - by apply (safe_shutdown_soft env Henv cb term k s Hi).
Qed.

Lemma run_inv s0 k s : idle (get_ses s0) -> rtc ses_step (0%Z, s0) (k, s) -> inv k (get_ses s).
Proof.
  intros H0 Hr. apply invd_idle in H0.
  change (inv (k, s).1 (get_ses (k, s).2)). change (inv (0%Z, s0).1 (get_ses (0%Z, s0).2)) in H0.
  revert H0. induction Hr as [|x y z Hxy _ IH]; [done|]. intros Hx. by apply IH, (step_inv x y).
Qed.

End Steps.


(** C14: Along every run each session is announced ([EV_SES_STARTING]) and ended
    ([EV_SES_FINISHED]) alternately, one end per start, whichever teardown paths race for it;
    it is linked exactly in between, no entry is linked twice and none is unlinked twice. *)
Theorem session_ends_once {S} `{!SesHost S} (env : ses_env S) (conf : ses_conf) s0 k s :
  env_ok env -> idle (get_ses s0) -> rtc (ses_step env conf) (0%Z, s0) (k, s) ->
  let c := get_ses s in
  fault c = false /\ NoDup (ses_list c) /\
  forall i, count_ev EV_SES_STARTING i (trace c)
            = count_ev EV_SES_FINISHED i (trace c) + (if decide (i ∈ ses_list c) then 1 else 0).
Proof.
  intros Henv H0 Hr c. destruct (run_inv env conf Henv s0 k s H0 Hr) as [? _ _ _ _ _ _ ? Htr _].
  split_and!; [done|done|]. intros i. unfold c. rewrite (Htr i), (decide_False (P := None = Some i)) by done.
  lia.
Qed.

(** ** A concrete daemon *)

#[export, refine] Instance core_host : SesHost ses_core := {|
  get_ses c := c; put_ses c _ := c |}.
Proof. all: done. Defined.

(** Nobody listens to the events; [term] is the control's [terminate]. *)
Definition quiet_env {S} (term : nat -> Z -> st S Z) : ses_env S := {|
  now _ := 100%Z; get_ifindex _ := mret 7%Z; urandom := mret [1;2;3;4;5;6;7;8]%Z;
  save_seq := skip; accounting _ _ _ := mret (mk_accounting 1 2 300 400 0 0 0 0);
  fire _ _ := skip; ctrl_started _ := skip; ctrl_finished _ := skip; ctrl_terminate := term;
  rename _ _ := mret 0%Z; if_configure _ := skip; if_deconfigure _ := skip;
  put_ipv4 _ := skip; put_ipv6 _ := skip; net_release := skip; set_priority _ _ := skip;
  context_wakeup _ := skip; context_schedule := skip; shutdown_done _ := skip |}.

Lemma skip_safe {S A} `{!SesHost S} (a : A) P Q :
  (forall c : ses_core, P c -> Q c) -> safe (S := S) None None None P (mret a) (fun _ => Q).
Proof. intros H. eapply safe_conseq; [apply safe_mret|intros c Hc; exact (H c Hc)|done]. Qed.

Lemma quiet_env_ok {S} `{!SesHost S} (term : nat -> Z -> st S Z) :
  (forall i h, safe None None None (reach i) (term i h) (fun _ _ => True)) ->
  env_ok (quiet_env term).
Proof.
  intros Ht. split; try done; intros; try apply Ht; by apply skip_safe.
Qed.

(** A control that waits for its peer, and one that ends the session at once, as
    [ppp_terminate] does when no layer is up. *)
Definition waiting_env : ses_env ses_core := quiet_env (fun _ _ => mret 1%Z).
Definition demo_env : ses_env ses_core :=
  quiet_env (fun i h => ap_session_finished waiting_env i ;; mret 0%Z).

Lemma waiting_env_ok : env_ok waiting_env.
Proof. apply quiet_env_ok. intros. by apply skip_safe. Qed.
Lemma demo_env_ok : env_ok demo_env.
Proof.
  apply quiet_env_ok. intros i h. eapply safe_bind; [apply safe_finished, waiting_env_ok|intros ?].
  by apply skip_safe.
Qed.

Definition demo_conf : ses_conf := mk_ses_conf 3600 0 0 true false 10 0.
Definition demo_ctrl : ap_ctrl := mk_ctrl (Some 5) true "eth0".
Definition core0 : ses_core :=
  mk_core (fun _ => ap_session_init) [] (mk_stat 0 0 0 0) false false 41 100 [] [] false.

Lemma core0_idle : idle (get_ses core0).
Proof. done. Qed.

(** Two sessions come up, one of them is then terminated. *)
Definition demo1 : ses_core :=
  exec (ses_upd 1 (fun _ => new_session demo_ctrl "eth0" [2;0;0;0;0;1]%Z)) core0.
Definition demo2 : ses_core := exec (stat_upd (fun x => x <| incoming ::= inc |>)) demo1.
Definition demo3 : ses_core := exec (ap_session_starting demo_env demo_conf 1) demo2.
Definition demo4 : ses_core :=
  exec (ses_upd 2 (fun _ => new_session demo_ctrl "eth0" [2;0;0;0;0;2]%Z)) demo3.
Definition demo5 : ses_core := exec (stat_upd (fun x => x <| incoming ::= inc |>)) demo4.
Definition demo6 : ses_core := exec (ap_session_starting demo_env demo_conf 2) demo5.
Definition demo7 : ses_core := exec (ap_session_activate demo_env demo_conf 1) demo6.
Definition demo_final : ses_core :=
  exec (ap_session_terminate demo_env 2 TERM_NAS_REQUEST 0) demo7.

(** The facts about the intermediate states that the steps need. *)
Lemma demo_facts :
  (ses_list core0 = [] /\ ses_list demo2 = [] /\ ses_list demo3 = [1] /\
   ses_list demo5 = [1] /\ ses_list demo6 = [1; 2] /\ ses_list demo7 = [1; 2]) /\
  (terminating (heap demo2 1) = false /\ terminating (heap demo5 2) = false) /\
  (ap_shutdown demo2 = false /\ ap_shutdown demo5 = false /\
   state (heap demo6 1) = AP_STATE_STARTING).
Proof. split_and!; vm_compute; reflexivity. Qed.

Lemma demo_run : rtc (ses_step demo_env demo_conf) (0%Z, core0) (0%Z, demo_final).
Proof.
  destruct demo_facts as ((L0 & L2 & L3 & L5 & L6 & L7) & (T2 & T5) & (S2 & S5 & Q6)).
  assert (1 ∉ ses_list core0) as N0 by (rewrite L0; set_solver).
  assert (1 ∉ ses_list demo2) as N2 by (rewrite L2; set_solver).
  assert (2 ∉ ses_list demo3) as N3 by (rewrite L3; set_solver).
  assert (2 ∉ ses_list demo5) as N5 by (rewrite L5; set_solver).
  assert (1 ∈ ses_list demo6) as N6 by (rewrite L6; set_solver).
  assert (2 ∈ ses_list demo7) as N7 by (rewrite L7; set_solver).
  refine (rtc_l _ _ (0%Z, demo1) _ (step_alloc demo_env demo_conf 0 core0 1 _ _ _ N0) _).
  refine (rtc_l _ _ ((0 + 1)%Z, demo2) _ (step_admit demo_env demo_conf 0 demo1) _).
  refine (rtc_l _ _ (0%Z, demo3) _ (step_start demo_env demo_conf 0 demo2 1 (conj N2 T2) S2) _).
  refine (rtc_l _ _ (0%Z, demo4) _ (step_alloc demo_env demo_conf 0 demo3 2 _ _ _ N3) _).
  refine (rtc_l _ _ ((0 + 1)%Z, demo5) _ (step_admit demo_env demo_conf 0 demo4) _).
  refine (rtc_l _ _ (0%Z, demo6) _ (step_start demo_env demo_conf 0 demo5 2 (conj N5 T5) S5) _).
  refine (rtc_l _ _ (0%Z, demo7) _ (step_activate demo_env demo_conf 0 demo6 1 N6 Q6) _).
  refine (rtc_once _ _ (step_terminate demo_env demo_conf 0 demo7 2 TERM_NAS_REQUEST 0 _)).
  left. exact N7.
Qed.


Lemma session_ends_once_witness :
  count_ev EV_SES_FINISHED 2 (trace demo_final) = 1 /\ fault (get_ses demo_final) = false.
Proof.
  split; [vm_compute; reflexivity|].
  exact (proj1
    (session_ends_once demo_env demo_conf core0 0 demo_final demo_env_ok core0_idle demo_run)).
Defined.

End SessionRuns.

(** * Shutdown *)

Module SessionShutdown.
Import Session SessionInv SessionRuns.

(** Three predicates of which exactly one holds split a list. *)
Lemma count_split {A} (p q r : A -> bool) l :
  (forall x, x ∈ l -> (p x, q x, r x) ∈ [(true, false, false); (false, true, false);
     (false, false, true)]) ->
  length l = length (List.filter p l) + length (List.filter q l) + length (List.filter r l).
Proof.
  induction l as [|x l IH]; intros H; [done|].
  specialize (IH (fun y Hy => H y (list_elem_of_further y x l Hy))).
  specialize (H x (list_elem_of_here x l)). simpl.
  destruct (p x), (q x), (r x); simpl; try lia; set_solver.
Qed.

Lemma count_states (h : nat -> ap_session) l :
  (forall i, i ∈ l -> known_state (state (h i)) = true) ->
  length l = length (List.filter (fun i => starting_like (state (h i))) l)
             + length (List.filter (fun i => (AP_STATE_ACTIVE =? state (h i))%Z) l)
             + length (List.filter (fun i => (AP_STATE_FINISHING =? state (h i))%Z) l).
Proof.
  intros Hk. apply count_split. intros x Hx.
  destruct (known_cases _ (Hk x Hx)) as [-> |[-> |[-> | ->]]]; set_solver.
Qed.

Lemma no_session_iff k c :
  inv k c -> (Z.of_nat (length (ses_list c)) < 2 ^ 32)%Z ->
  ((starting (stat c) =? 0) && (active (stat c) =? 0) && (finishing (stat c) =? 0))%Z%bool = true
  <-> ses_list c = [].
Proof.
  intros [Hnd Hst Htm Hs Hin Ha Hf _ _ _] Hlen.
  pose proof (count_states (heap c) (ses_list c) Hst) as Hc.
  rewrite Hs, Ha, Hf, !andb_true_iff, !Z.eqb_eq. unfold n_of.
  rewrite !u32_small by (unfold is_u32; lia).
  split; [|by intros ->]. intros [[H1 H2] H3]. apply length_zero_iff_nil. lia.
Qed.



(** A control that starts a session without first counting the connection in [incoming]
    (PPTP, L2TP and SSTP do) leaves that counter below zero: once no session is starting any
    more it reads 4294967295, above every [max-starting] limit. *)
Theorem unadmitted_session_wraps {S} `{!SesHost S} (env : ses_env S) (conf : ses_conf) s0 s i s' :
  env_ok env -> idle (get_ses s0) -> rtc (ses_step env conf) (0%Z, s0) (0%Z, s) ->
  fresh i (get_ses s) -> ap_shutdown (get_ses s) = false ->
  rtc (ses_step env conf) ((-1)%Z, exec (ap_session_starting env conf i) s) ((-1)%Z, s') ->
  n_of starting_like (get_ses s') = 0%Z ->
  incoming (stat (get_ses s')) = 4294967295%Z.
Proof.
  intros Henv H0 Hr Hf Hs Hr' Hn.
  pose proof (run_inv env conf Henv s0 0 s H0 Hr) as Hi.
  destruct (starts_starting env conf Henv i (-1)%Z s Hi (conj Hf Hs)) as [Hi' _].
  assert (forall x y, rtc (ses_step env conf) x y -> inv x.1 (get_ses x.2) -> inv y.1 (get_ses y.2))
    as Hrun.
  { intros x y Hxy. induction Hxy as [|x y z Hxy _ IH]; [done|].
    intros Hx. by apply IH, (step_inv env conf Henv x y). }
  specialize (Hrun _ _ Hr' Hi'). simpl in Hrun.
  rewrite (inv_incoming _ _ _ Hrun), Hn. done.
Qed.

(** The second connection of the demonstration, started without being admitted. *)
Definition stray1 : ses_core :=
  exec (ap_session_starting demo_env demo_conf 1) demo1.
Definition stray2 : ses_core := exec (ap_session_activate demo_env demo_conf 1) stray1.

Lemma unadmitted_session_wraps_witness :
  active (stat stray2) = 1%Z /\ incoming (stat (get_ses stray2)) = 4294967295%Z.
Proof.
  split; [vm_compute; reflexivity|].
  assert (ses_list core0 = [] /\ ses_list demo1 = [] /\ ses_list stray1 = [1]) as (L0 & L1 & L2)
    by (split_and!; vm_compute; reflexivity).
  assert (1 ∉ ses_list core0) as N0 by (rewrite L0; set_solver).
  assert (1 ∉ ses_list demo1) as N1 by (rewrite L1; set_solver).
  assert (1 ∈ ses_list stray1) as N2 by (rewrite L2; set_solver).
  assert (state (heap stray1 1) = AP_STATE_STARTING) as Q by (vm_compute; reflexivity).
  assert (terminating (heap demo1 1) = false) as T by (vm_compute; reflexivity).
  refine (unadmitted_session_wraps demo_env demo_conf core0 demo1 1 stray2 demo_env_ok core0_idle
    (rtc_once _ _ (step_alloc demo_env demo_conf 0 core0 1 _ _ _ N0)) (conj N1 T) _
    (rtc_once _ _ (step_activate demo_env demo_conf (-1)%Z stray1 1 N2 Q)) _);
    vm_compute; reflexivity.
Defined.

End SessionShutdown.

(** * User names and session identifiers *)

Module SessionNames.
Import Session SessionInv SessionRuns.

(** Session [j] holds [name]: it is linked, bears a name the policy takes for [name] and was
    not ended by a failed authentication. *)
Definition holds (conf : ses_conf) (c : ses_core) (name : string) (j : nat) : bool :=
  let x := heap c j in
  (match username x with Some n => same_name conf n name | None => false end
   && negb (terminate_cause x =? TERM_AUTH_ERROR)%Z)%bool.

Definition unique_names (conf : ses_conf) (c : ses_core) : Prop :=
  forall i j n, i ∈ ses_list c -> j ∈ ses_list c -> username (heap c i) = Some n ->
    terminate_cause (heap c i) <> TERM_AUTH_ERROR -> holds conf c n j = true -> j = i.

Lemma same_name_sym conf a b : same_name conf a b = same_name conf b a.
Proof. unfold same_name. case_match; apply bool_decide_ext; split; congruence. Qed.

Section Names.
Context {S : Type} `{!SesHost S}.
Variable env : ses_env S.
Variable conf : ses_conf.

(** With the policy [deny] the loop only looks. *)
Lemma claim_name_deny i name l wait s :
  conf_single_session conf = 0%Z ->
  claim_name env conf i name l wait s
  = (if existsb (holds conf (get_ses s) name) l then None else Some wait, s).
Proof.
  intros Hc. revert wait. induction l as [|j l IH]; intros wait; [done|].
  cbn [claim_name existsb].
  match goal with |- (?m ≫= ?k) s = _ => change ((m ≫= k) s) with (k (heap (get_ses s) j) s) end.
  cbv beta. rewrite Hc. unfold holds at 1. cbv zeta. rewrite Z.eqb_refl.
  match goal with |- (if ?b then _ else _) s = _ => destruct b end; [done|].
  cbn [orb]. apply IH.
Qed.

Lemma set_username_deny i name s :
  conf_single_session conf = 0%Z ->
  ap_session_set_username env conf i name s
  = if existsb (holds conf (get_ses s) name) (ses_list (get_ses s)) then ((-1)%Z, s)
    else (0%Z, exec (ses_upd i (fun x => x <| username := Some name |>)) s).
Proof.
  intros Hc. unfold ap_session_set_username.
  match goal with |- (?m ≫= ?k) s = _ =>
    change ((m ≫= k) s) with (k (ses_list (get_ses s)) s) end.
  cbv beta. rewrite Hc.
  change (if (0 <=? 0)%Z then ?a else ?b) with a.
  unfold mbind at 1, st_bind at 1. rewrite claim_name_deny by done.
  destruct (existsb _ _); reflexivity.
Qed.

Lemma holds_other c i name n j :
  j <> i -> holds conf (hset i (fun x => x <| username := Some name |>) c) n j = holds conf c n j.
Proof. intros Hj. unfold holds. rewrite heap_hset, decide_False by done. done. Qed.

End Names.

(** With [single-session=deny], a session is given a user name exactly when no other
    linked session holds it, a refusal changes nothing, and so no two sessions ever hold the
    same name. *)
Theorem single_session_deny {S} `{!SesHost S} (env : ses_env S) (conf : ses_conf) i name s :
  conf_single_session conf = 0%Z -> i ∈ ses_list (get_ses s) ->
  username (heap (get_ses s) i) = None ->
  unique_names conf (get_ses s) ->
  let r := val (ap_session_set_username env conf i name) s in
  let s' := exec (ap_session_set_username env conf i name) s in
  (r = (-1)%Z /\ s' = s /\ exists j, j ∈ ses_list (get_ses s) /\ holds conf (get_ses s) name j = true)
  \/ (r = 0%Z /\ username (heap (get_ses s') i) = Some name /\
      (forall j, j ∈ ses_list (get_ses s) -> holds conf (get_ses s) name j = false) /\
      unique_names conf (get_ses s')).
Proof.
  intros Hc Hi Hn Hu. unfold val, exec. rewrite set_username_deny by done.
  destruct (existsb _ _) eqn:Ex; cbn [fst snd].
  - left. apply existsb_exists in Ex as (j & Hj & Hh). split_and!; [done|done|].
    exists j. by rewrite list_elem_of_In.
  - right. unfold ses_upd. rewrite exec_core_upd, get_put_ses.
    set (c := get_ses s) in *.
    change (c <| heap ::= _ |>) with (hset i (fun x => x <| username := Some name |>) c).
    assert (forall j, j ∈ ses_list c -> holds conf c name j = false) as Hno.
    { intros j Hj. apply not_true_iff_false. intros Ht. apply not_true_iff_false in Ex. apply Ex.
      apply existsb_exists. exists j. by rewrite <- list_elem_of_In. }
    split_and!; [done|by rewrite heap_hset, decide_True|done|].
    intros a b n Ha Hb Hna Hca Hh. rewrite heap_hset in Hna, Hca. destruct (decide (b = i)) as [->|Hbi].
    + case_decide as Hai; [done|]. exfalso.
      assert (same_name conf n name = true) as Hs.
      { rewrite same_name_sym. unfold holds in Hh. rewrite heap_hset, decide_True in Hh by done.
        apply andb_true_iff in Hh as [Hh _]. exact Hh. }
      specialize (Hno a Ha). unfold holds in Hno. rewrite Hna, Hs in Hno.
      apply andb_false_iff in Hno as [?|?]; [done|].
      apply negb_false_iff, Z.eqb_eq in H. done.
    + rewrite holds_other in Hh by done. case_decide as Hai.
      * injection Hna as <-. by rewrite (Hno b Hb) in Hh.
      * by apply (Hu a b n).
Qed.

(** Session 1 of the demonstration takes a name; session 2 is then refused it. *)
Lemma single_session_deny_witness :
  let s := exec (ap_session_set_username demo_env demo_conf 1 "alice") demo6 in
  let r := val (ap_session_set_username demo_env demo_conf 2 "alice") s in
  r = (-1)%Z /\
  ((r = (-1)%Z /\ exec (ap_session_set_username demo_env demo_conf 2 "alice") s = s /\
     exists j, j ∈ ses_list (get_ses s) /\ holds demo_conf (get_ses s) "alice" j = true)
   \/ (r = 0%Z /\
       username (heap (get_ses (exec (ap_session_set_username demo_env demo_conf 2 "alice") s)) 2)
         = Some "alice" /\
       (forall j, j ∈ ses_list (get_ses s) -> holds demo_conf (get_ses s) "alice" j = false) /\
       unique_names demo_conf
         (get_ses (exec (ap_session_set_username demo_env demo_conf 2 "alice") s)))).
Proof.
  intros s r. split; [vm_compute; reflexivity|].
  assert (ses_list (get_ses s) = [1; 2]) as L by (vm_compute; reflexivity).
  apply (single_session_deny demo_env demo_conf 2 "alice" s).
  - reflexivity.
  - rewrite L. set_solver.
  - vm_compute. reflexivity.
  - intros i j n Hi Hj Hn _ Hh. rewrite L in Hi, Hj.
    assert (username (heap (get_ses s) 2) = None) as U2 by (vm_compute; reflexivity).
    apply elem_of_cons in Hi as [->|Hi]; [|apply list_elem_of_singleton in Hi as ->; congruence].
    apply elem_of_cons in Hj as [->|Hj]; [done|apply list_elem_of_singleton in Hj as ->].
    unfold holds in Hh. by rewrite U2 in Hh.
Defined.

(** ** Replacement *)

Definition unarmed (c : ses_core) (j : nat) : bool :=
  match wakeup (heap c j) with Some _ => false | None => true end.

(** The session the loop arms: the first holder nobody waits for yet. *)
Definition armed_one (conf : ses_conf) (c : ses_core) (name : string) (l : list nat) : option nat :=
  head (List.filter (fun j => (holds conf c name j && unarmed c j)%bool) l).

(** What the loop leaves when the policy is [replace]. *)
Definition claimed (conf : ses_conf) (c : ses_core) (i : nat) (name : string) (l : list nat)
    (wait : bool) (c' : ses_core) : Prop :=
  calls c' = calls c ++ map (fun j => (terminate_sec, j)) (List.filter (holds conf c name) l) /\
  forall j, heap c' j =
    if decide (wait = false /\ armed_one conf c name l = Some j)
    then (heap c j) <| wakeup := ctrl_ctx (heap c i) |> else heap c j.

(** One turn of the loop on a session [j] that holds the name. *)
Definition turn (i j : nat) (arm : bool) (c : ses_core) : ses_core :=
  (if arm then hset j (fun x => x <| wakeup := ctrl_ctx (heap c i) |>) c else c)
    <| calls ::= fun q => q ++ [(terminate_sec, j)] |>.

Lemma heap_turn i j arm c k :
  heap (turn i j arm c) k
  = if decide (arm = true /\ k = j) then (heap c k) <| wakeup := ctrl_ctx (heap c i) |> else heap c k.
Proof.
  unfold turn. destruct arm.
  - transitivity (heap (hset j (fun x => x <| wakeup := ctrl_ctx (heap c i) |>) c) k); [done|].
    rewrite heap_hset. repeat case_decide; naive_solver.
  - rewrite decide_False by naive_solver. done.
Qed.
Lemma calls_turn i j arm c : calls (turn i j arm c) = calls c ++ [(terminate_sec, j)].
Proof. unfold turn. by destruct arm. Qed.
Lemma holds_turn conf i j arm c name k : holds conf (turn i j arm c) name k = holds conf c name k.
Proof. unfold holds. rewrite heap_turn. by case_decide. Qed.
Lemma unarmed_turn i j arm c k : k <> j -> unarmed (turn i j arm c) k = unarmed c k.
Proof. intros Hk. unfold unarmed. rewrite heap_turn, decide_False by naive_solver. done. Qed.
Lemma ctx_turn i j arm c : ctrl_ctx (heap (turn i j arm c) i) = ctrl_ctx (heap c i).
Proof. rewrite heap_turn. by case_decide. Qed.
Lemma armed_turn conf i j arm c name l :
  j ∉ l -> armed_one conf (turn i j arm c) name l = armed_one conf c name l.
Proof.
  intros Hj. unfold armed_one. f_equal. apply filter_ext_in. intros k Hk.
  rewrite holds_turn, unarmed_turn; [done|]. by intros ->.
Qed.
Lemma armed_cons conf c name j l :
  armed_one conf c name (j :: l)
  = if (holds conf c name j && unarmed c j)%bool then Some j else armed_one conf c name l.
Proof. unfold armed_one. cbn [List.filter]. by destruct (_ && _)%bool. Qed.
Lemma holders_turn conf i j arm c name l :
  List.filter (holds conf (turn i j arm c) name) l = List.filter (holds conf c name) l.
Proof. apply filter_ext_in. intros k _. apply holds_turn. Qed.

Lemma claimed_turn conf c i name j l wait c' :
  let arm := (negb wait && unarmed c j)%bool in
  j ∉ l -> holds conf c name j = true ->
  claimed conf (turn i j arm c) i name l (wait || arm)%bool c' ->
  claimed conf c i name (j :: l) wait c'.
Proof.
  intros arm Hj Hh [Hc Hp]. split.
  - rewrite Hc, holders_turn, calls_turn, <- app_assoc. cbn [List.filter]. by rewrite Hh.
  - intros k. rewrite Hp, ctx_turn, armed_turn, heap_turn by done.
    rewrite armed_cons, Hh. cbn [andb].
    assert (armed_one conf c name l = Some k -> k <> j) as Hkj.
    { intros Hk ->. apply Hj. unfold armed_one in Hk. apply head_Some_elem_of in Hk.
      apply list_elem_of_In, filter_In in Hk as [Hk _]. by apply list_elem_of_In. }
    unfold arm. destruct wait, (unarmed c j); cbn [negb andb orb head];
      repeat case_decide; try done; naive_solver.
Qed.

Lemma claimed_skip conf c i name j l wait c' :
  holds conf c name j = false ->
  claimed conf c i name l wait c' -> claimed conf c i name (j :: l) wait c'.
Proof.
  intros Hh [Hc Hp]. split.
  - rewrite Hc. cbn [List.filter]. by rewrite Hh.
  - intros k. rewrite Hp, armed_cons. by rewrite Hh.
Qed.

Section Replace.
Context {S : Type} `{!SesHost S}.
Variable env : ses_env S.
Variable conf : ses_conf.
Hypothesis Hframe : forall i, frame (if_deconfigure env i).
Hypothesis Hreplace : conf_single_session conf = 1%Z.

Lemma ifdown_frame i : frame (ap_session_ifdown env i).
Proof.
  intros s. unfold ap_session_ifdown. rewrite exec_bind.
  change (exec (ses_get i ifindex) s) with s. unfold when. case_match; [apply Hframe|done].
Qed.

Lemma claim_step i name j l wait s :
  holds conf (get_ses s) name j = true ->
  let arm := (negb wait && unarmed (get_ses s) j)%bool in
  exists s', get_ses s' = turn i j arm (get_ses s) /\
    claim_name env conf i name (j :: l) wait s = claim_name env conf i name l (wait || arm)%bool s'.
Proof.
  intros Hh arm. cbn [claim_name].
  match goal with |- exists _, _ /\ (?m ≫= ?k) s = _ =>
    change ((m ≫= k) s) with (k (heap (get_ses s) j) s) end.
  cbv beta. unfold holds in Hh. cbv zeta in Hh. rewrite Hh, Hreplace.
  change (if (1 =? 0)%Z then ?a else ?b) with b. cbv zeta.
  fold (unarmed (get_ses s) j). fold arm.
  match goal with |- exists _, _ /\ (?m ≫= ?k) s = _ =>
    change ((m ≫= k) s) with (k (heap (get_ses s) i) s) end.
  cbv beta. set (s1 := exec (when arm (ses_upd j
    (fun x => x <| wakeup := ctrl_ctx (heap (get_ses s) i) |>))) s).
  set (s2 := exec (ap_session_ifdown env j) s1).
  exists (exec (core_upd (fun c => c <| calls ::= fun q => q ++ [(terminate_sec, j)] |>)) s2).
  split.
  - rewrite exec_core_upd, get_put_ses. unfold s2. rewrite (ifdown_frame j s1).
    unfold s1. destruct arm; cbn [when]; [|done].
    unfold ses_upd. by rewrite exec_core_upd, get_put_ses.
  - unfold s2, s1. unfold exec, mbind, st_bind.
    destruct (when arm _ s) as [[] x]; cbn [snd].
    by destruct (ap_session_ifdown env j x) as [[] y].
Qed.

(** The loop. *)
Lemma claim_replace i name l wait s :
  NoDup l ->
  let c := get_ses s in
  val (claim_name env conf i name l wait) s
    = Some (wait || bool_decide (is_Some (armed_one conf c name l)))%bool /\
  claimed conf c i name l wait (get_ses (exec (claim_name env conf i name l wait) s)).
Proof.
  revert wait s. induction l as [|j l IH]; intros wait s Hnd c.
  - split; [cbn; by rewrite orb_false_r|]. split; [cbn; by rewrite app_nil_r|].
    intros k. rewrite decide_False; [done|]. by intros [_ ?].
  - apply NoDup_cons in Hnd as [Hj Hnd]. unfold val, exec.
    destruct (holds conf c name j) eqn:Hh.
    + destruct (claim_step i name j l wait s Hh) as (s1 & E1 & ->). fold c in E1 |- *.
      destruct (IH (wait || (negb wait && unarmed c j))%bool s1 Hnd) as [Hv Hcl].
      rewrite E1 in Hv, Hcl. split; [|by apply claimed_turn].
      unfold val in Hv. rewrite Hv, armed_turn by done. f_equal.
      rewrite armed_cons, Hh. cbn [andb]. destruct wait, (unarmed c j); done.
    + assert (claim_name env conf i name (j :: l) wait s = claim_name env conf i name l wait s) as ->.
      { cbn [claim_name]. match goal with |- (?m ≫= ?k) s = _ =>
          change ((m ≫= k) s) with (k (heap (get_ses s) j) s) end.
        cbv beta. unfold holds in Hh. cbv zeta in Hh. fold c. by rewrite Hh. }
      destruct (IH wait s Hnd) as [Hv Hcl]. split; [|by apply claimed_skip].
      unfold val in Hv. rewrite Hv. fold c. by rewrite armed_cons, Hh.
Qed.

End Replace.

(** With [single-session=replace], a session that takes a name never is refused: every
    linked holder of the name, and no other session, is asked to terminate; the caller goes to
    sleep exactly when there is a holder nobody waits for yet, and then exactly one session
    (the first such holder) is armed to wake it, and no other session changes. *)
Theorem single_session_replace {S} `{!SesHost S} (env : ses_env S) (conf : ses_conf) i name s :
  (forall j, frame (if_deconfigure env j)) -> conf_single_session conf = 1%Z ->
  NoDup (ses_list (get_ses s)) ->
  let c := get_ses s in
  let waiter := armed_one conf c name (ses_list c) in
  let s' := exec (claim_name env conf i name (ses_list c) false) s in
  val (claim_name env conf i name (ses_list c) false) s = Some (bool_decide (is_Some waiter)) /\
  calls (get_ses s')
    = calls c ++ map (fun j => (terminate_sec, j)) (List.filter (holds conf c name) (ses_list c)) /\
  forall j, heap (get_ses s') j
    = if decide (waiter = Some j) then (heap c j) <| wakeup := ctrl_ctx (heap c i) |> else heap c j.
Proof.
  intros Hf Hr Hnd c waiter s'.
  destruct (claim_replace env conf Hf Hr i name (ses_list c) false s Hnd) as [Hv [Hc Hp]].
  fold c in Hv, Hc, Hp. fold waiter in Hv, Hp. fold s' in Hc, Hp.
  split_and!; [done|done|]. intros j. rewrite Hp. repeat case_decide; naive_solver.
Qed.

Definition replace_conf : ses_conf := mk_ses_conf 3600 1 1 true false 10 0.

Lemma single_session_replace_witness :
  let s := exec (ap_session_set_username demo_env replace_conf 1 "alice") demo6 in
  armed_one replace_conf (get_ses s) "ALICE" (ses_list (get_ses s)) = Some 1 /\
  val (claim_name demo_env replace_conf 2 "ALICE" (ses_list (get_ses s)) false) s
  = Some (bool_decide (is_Some
      (armed_one replace_conf (get_ses s) "ALICE" (ses_list (get_ses s))))).
Proof.
  intros s. split; [vm_compute; reflexivity|].
  assert (ses_list (get_ses s) = [1; 2]) as L by (vm_compute; reflexivity).
  refine (proj1 (single_session_replace demo_env replace_conf 2 "ALICE" s _ _ _)).
  - intros j. apply demo_env_ok.
  - reflexivity.
  - rewrite L. apply NoDup_cons. split; [set_solver|apply NoDup_singleton].
Defined.

(** ** Session identifiers *)

Lemma hex_digit_inj u a b :
  (0 <= a < 16)%Z -> (0 <= b < 16)%Z -> hex_digit u a = hex_digit u b -> a = b.
Proof.
  intros Ha Hb. unfold hex_digit. intros E. apply (f_equal Ascii.N_of_ascii) in E.
  rewrite !Ascii.N_ascii_embedding in E by (repeat case_match; lia).
  destruct (Z.ltb_spec a 10), (Z.ltb_spec b 10), u; lia.
Qed.

Lemma hex_pad_mod u n a b :
  hex_pad u n a = hex_pad u n b -> (a mod 16 ^ Z.of_nat n = b mod 16 ^ Z.of_nat n)%Z.
Proof.
  induction n as [|n IH]; [intros _; by rewrite !Z.mod_1_r|].
  cbn [hex_pad]. intros [= Hd Ht]. specialize (IH Ht).
  apply hex_digit_inj in Hd; [|by apply Z.mod_pos_bound..].
  assert (0 < 16 ^ Z.of_nat n)%Z by (apply Z.pow_pos_nonneg; lia).
  rewrite Nat2Z.inj_succ, Z.pow_succ_r, (Z.mul_comm 16), !Z.rem_mul_r by lia.
  by rewrite Hd, IH.
Qed.

(** With [sid-source=seq], two sessions started with different values of the 64-bit
    sequence number get different identifiers, and each start advances the number. *)
Theorem sessionid_distinct {S} `{!SesHost S} (env : ses_env S) (conf : ses_conf) i j s s' :
  env_ok env -> conf_sid_seq conf = true ->
  (0 <= seq (get_ses s) < 2 ^ 64)%Z -> (0 <= seq (get_ses s') < 2 ^ 64)%Z ->
  seq (get_ses s) <> seq (get_ses s') ->
  let t := exec (generate_sessionid env conf i) s in
  let t' := exec (generate_sessionid env conf j) s' in
  sessionid (heap (get_ses t) i) <> sessionid (heap (get_ses t') j) /\
  seq (get_ses t) = u64 (seq (get_ses s) + 1).
Proof.
  intros Henv Hc Hr Hr' Hne.
  assert (forall k x, sessionid (heap (get_ses (exec (generate_sessionid env conf k) x)) k)
      = hex_pad (conf_sid_ucase conf) 16 (u64 (seq (get_ses x) + 1)) /\
    seq (get_ses (exec (generate_sessionid env conf k) x)) = u64 (seq (get_ses x) + 1)) as Hg.
  { intros k x. unfold generate_sessionid. rewrite Hc, exec_bind.
    set (x1 := exec (core_upd _) x).
    assert (get_ses x1 = (get_ses x) <| seq ::= fun n => u64 (n + 1) |>) as E1
      by (unfold x1; by rewrite exec_core_upd, get_put_ses).
    assert (forall (b : bool), get_ses (exec (when b (save_seq env)) x1) = get_ses x1) as E2
      by (intros []; [apply Henv|done]).
    do 4 rewrite exec_bind. unfold ses_upd. rewrite exec_core_upd, get_put_ses.
    change (exec (core_get ?p) ?y) with y. change (exec (gets ?p) ?y) with y.
    rewrite E2. change (val (core_get seq) x1) with (seq (get_ses x1)). rewrite E1.
    split; [|done].
    change (sessionid (if decide (k = k) then (heap (get_ses x) k) <| sessionid := hex_pad
      (conf_sid_ucase conf) 16 (u64 (seq (get_ses x) + 1)) |> else heap (get_ses x) k)
      = hex_pad (conf_sid_ucase conf) 16 (u64 (seq (get_ses x) + 1))).
    by rewrite decide_True. }
  intros t t'. destruct (Hg i s) as [E1 E2], (Hg j s') as [E1' _].
  split; [|done]. unfold t, t'. rewrite E1, E1'. intros E. apply hex_pad_mod in E.
  change (16 ^ Z.of_nat 16)%Z with (2 ^ 64)%Z in E. unfold u64 in E.
  rewrite !Z.mod_mod in E by done. apply Hne.
  change (2 ^ 64)%Z with 18446744073709551616%Z in *. Z.div_mod_to_equations. lia.
Qed.

Lemma sessionid_distinct_witness :
  (sessionid (heap demo_final 1), sessionid (heap demo_final 2))
    = ("000000000000002a", "000000000000002b")%string /\
  let t := exec (generate_sessionid demo_env demo_conf 1) demo2 in
  let t' := exec (generate_sessionid demo_env demo_conf 2) demo5 in
  sessionid (heap (get_ses t) 1) <> sessionid (heap (get_ses t') 2) /\
  seq (get_ses t) = u64 (seq (get_ses demo2) + 1).
Proof.
  split; [vm_compute; reflexivity|].
  assert (seq (get_ses demo2) = 41%Z /\ seq (get_ses demo5) = 42%Z) as [E E']
    by (split; vm_compute; reflexivity).
  apply (sessionid_distinct demo_env demo_conf 1 2 demo2 demo5 demo_env_ok); [reflexivity|..];
    rewrite ?E, ?E'; lia.
Defined.

End SessionNames.
