(* ===== verification/PppLayers.v ===== *)
(** The layers of a PPP session: the layer part of [ppp/ppp.c].

    A PPP session is a list of nodes, each a list of layers that come up together: LCP, then
    authentication, then the network protocols.  [Module PppLayers] translates the registration
    of layers, the start of one node after the other, the orderly and the forced end, and the
    release of the layers.  A layer's data is addressed by its position (node, item), which is
    stable as long as the layers live; a loop that goes on after its list has been freed is
    recorded in the ghost flag [uaf].  The layers themselves (LCP, IPCP, ...) are the fields
    of [layer_env].

    [Module PppControl] makes [ppp_terminate] the [terminate] function of the sessions and
    discharges the contract [SessionInv.env_ok] for it; [Module PppTeardown] proves the
    orderly teardown; [Module PppOrder] the order in which layers are started. *)

From stdpp Require Import base tactics list sets numbers option strings relations.
From Stdlib Require Import ZArith Lia.
From S2P Require Import Prelude CLib Session SessionInv.

Close Scope Z_scope.

Module PppLayers.
Import Session.

(** [struct ppp_layer_data_t]; [ld_layer] names the [struct ppp_layer_t]. *)
Record layer_data := mk_ld {
  ld_layer : nat;
  passive : bool;
  optional : bool;
  ld_starting : bool;
  ld_started : bool;
  ld_finished : bool
}.

(** The part of [struct ppp_t] that concerns the layers. *)
Record ppp_t := mk_ppp {
  layers : list (list layer_data);
  fd : Z;
  chan_fd : Z;
  unit_fd : Z;
  has_buf : bool;
  freed : bool;
  uaf : bool
}.

Abbreviation pos := (nat * nat)%type.

(** ** Registration *)

Definition get_layer_order (name : string) : Z :=
  if bool_decide (name = "lcp") then 0
  else if bool_decide (name = "auth") then 1
  else if bool_decide (name = "ccp") then 2
  else if bool_decide (name = "ipcp") then 2
  else if bool_decide (name = "ipv6cp") then 2
  else -1.

(** [struct layer_node_t] of the registry. *)
Record layer_node := mk_node { order : Z; items : list nat }.

(** The loop of [ppp_register_layer]. *)
Fixpoint insert_layer (o : Z) (l : nat) (ns : list layer_node) : list layer_node :=
  match ns with
  | [] => [mk_node o [l]]
  | n :: ns =>
      if (order n <? o)%Z then n :: insert_layer o l ns
      else if (o <? order n)%Z then mk_node o [l] :: n :: ns
      else mk_node (order n) (items n ++ [l]) :: ns
  end.

Definition ppp_register_layer (name : string) (l : nat) (ns : list layer_node) : Z * list layer_node :=
  let o := get_layer_order name in
  if (o <? 0)%Z then (o, ns) else (0%Z, insert_layer o l ns).

Definition ppp_unregister_layer (l : nat) (ns : list layer_node) : list layer_node :=
  map (fun n => mk_node (order n) (List.filter (fun x => negb (Nat.eqb x l)) (items n))) ns.

(** ** A session's layers *)

Class PppHost (S : Type) := {
  ppp_ses :: SesHost S;
  get_ppp : S -> nat -> ppp_t;
  put_ppp : nat -> ppp_t -> S -> S;
  get_put_ppp i j p s : get_ppp (put_ppp i p s) j = if decide (j = i) then p else get_ppp s j;
  get_ses_put_ppp i p s : get_ses (put_ppp i p s) = get_ses s;
  get_ppp_put_ses c s : get_ppp (put_ses c s) = get_ppp s
}.

(** What the layers provide, and what [ppp.c] calls besides the session. *)
Record layer_env (S : Type) := mk_layer_env {
  l_init : nat -> nat -> st S layer_data;            (* layer, session *)
  l_start : nat -> nat -> pos -> st S Z;
  l_finish : nat -> nat -> pos -> st S unit;
  l_free : nat -> nat -> st S unit;
  ipv6_teardown : nat -> st S unit;                  (* the VPP calls of destablish_ppp *)
  unit_teardown : nat -> st S unit;                  (* the kernel unit of destablish_ppp *)
  unit_cache : nat -> st S unit;
  close_fd : Z -> st S unit
}.
Arguments l_init {_} _. Arguments l_start {_} _. Arguments l_finish {_} _.
Arguments l_free {_} _. Arguments ipv6_teardown {_} _. Arguments unit_teardown {_} _.
Arguments unit_cache {_} _. Arguments close_fd {_} _.

(** Every position of a list of nodes, in the order of the nested loops. *)
Fixpoint positions_from (n : nat) (ls : list (list layer_data)) : list pos :=
  match ls with
  | [] => []
  | its :: ls => map (fun m => (n, m)) (List.seq 0 (length its)) ++ positions_from (S n) ls
  end.
Definition positions (ls : list (list layer_data)) : list pos := positions_from 0 ls.

Definition ld_at (ls : list (list layer_data)) (p : pos) : option layer_data :=
  its ← ls !! p.1; its !! p.2.
Definition ld_alter (f : layer_data -> layer_data) (p : pos) (ls : list (list layer_data)) :
    list (list layer_data) := alter (alter f p.2) p.1 ls.

(** [d->started || d->passive] for every item, [d->started && !d->optional] for one. *)
Definition node_up (its : list layer_data) : bool :=
  (forallb (fun d => ld_started d || passive d) its
   && existsb (fun d => ld_started d && negb (optional d)) its)%bool.

(** [d->starting && !d->finished] *)
Definition busy (d : layer_data) : bool := (ld_starting d && negb (ld_finished d))%bool.

Section Code.
Context {S : Type} `{!PppHost S}.
Variable env : ses_env S.
Variable conf : ses_conf.
Variable lay : layer_env S.
(** [conf_unit_preallocate] and the registry. *)
Variable conf_unit_preallocate : bool.
Variable registry : list layer_node.

Abbreviation M := (st S).

Definition ppp_get {A} (i : nat) (p : ppp_t -> A) : M A := gets (fun s => p (get_ppp s i)).
Definition ppp_upd (i : nat) (f : ppp_t -> ppp_t) : M unit :=
  modify (fun s => put_ppp i (f (get_ppp s i)) s).

(** The loop goes on from an entry: an entry that has been freed is a use after free. *)
Definition touch (i : nat) : M unit :=
  ppp_upd i (fun x => if freed x then x <| uaf := true |> else x).

Definition ld_upd (i : nat) (p : pos) (f : layer_data -> layer_data) : M unit :=
  ppp_upd i (fun x => match ld_at (layers x) p with
                      | Some _ => x <| layers ::= ld_alter f p |>
                      | None => x <| uaf := true |>
                      end).

Definition ppp_init (i : nat) : M unit :=
  ppp_upd i (fun _ => mk_ppp [] (-1) (-1) (-1) false false false) ;;
  ses_upd i (fun _ => ap_session_init).

(** [connect_ppp_channel]: what is left of it once the kernel unit is commented out. *)
Definition connect_ppp_channel (i : nat) : M Z :=
  x ← ses_get i ctrl;
  ses_upd i (fun y => y <| ifname := match x with Some c => ctrl_ifname c | None => EmptyString end |>) ;;
  ap_session_set_ifindex i ;;
  mret 0%Z.

(** [init_layers] *)
Fixpoint init_items (i : nat) (ls : list nat) : M (list layer_data) :=
  match ls with
  | [] => mret []
  | l :: ls =>
      d ← l_init lay l i;
      ds ← init_items i ls;
      mret (d <| ld_layer := l |> <| ld_started := false |> :: ds)
  end.
Fixpoint init_nodes (i : nat) (ns : list layer_node) : M unit :=
  match ns with
  | [] => skip
  | n :: ns =>
      its ← init_items i (items n);
      ppp_upd i (fun x => x <| layers ::= fun ls => ls ++ [its] |>) ;;
      init_nodes i ns
  end.
Definition init_layers (i : nat) : M unit := init_nodes i registry.

(** [_free_layers] *)
Fixpoint free_items (i : nat) (its : list layer_data) : M unit :=
  match its with
  | [] => skip
  | d :: its =>
      ppp_upd i (fun x => x <| layers ::= fun ls => alter tail 0 ls |>) ;;
      l_free lay (ld_layer d) i ;;
      free_items i its
  end.
Fixpoint free_nodes (i : nat) (ls : list (list layer_data)) : M unit :=
  match ls with
  | [] => skip
  | its :: ls =>
      free_items i its ;;
      ppp_upd i (fun x => x <| layers ::= tail |>) ;;
      free_nodes i ls
  end.
Definition _free_layers (i : nat) : M unit :=
  ls ← ppp_get i layers;
  ppp_upd i (fun x => x <| freed := true |>) ;;
  free_nodes i ls.

Definition destroy_ppp_channel (i : nat) : M unit :=
  f ← ppp_get i fd;
  when (0 <=? f)%Z (close_fd lay f) ;;
  ppp_upd i (fun x => x <| fd := (-1)%Z |> <| chan_fd := (-1)%Z |>) ;;
  _free_layers i ;;
  ppp_upd i (fun x => x <| has_buf := false |>).

Definition destablish_ppp (i : nat) : M unit :=
  x ← ses_get i id;
  if (finish_started x || terminated x)%bool then skip
  else
    when (ipv6_started x) (ipv6_teardown lay i) ;;
    u ← ppp_get i unit_fd;
    if (u <? 0)%Z then ap_session_finished env i ;; destroy_ppp_channel i
    else
      unit_teardown lay i ;;
      ap_session_finished env i ;;
      ppp_upd i (fun x => x <| unit_fd := (-1)%Z |>) ;;
      destroy_ppp_channel i ;;
      unit_cache lay i.

(** The loop that starts the layers of a node, of [__ppp_layer_started] and
    [start_first_layer]. *)
Fixpoint start_items (i n : nat) (ms : list nat) : M unit :=
  match ms with
  | [] => skip
  | m :: ms =>
      d ← ppp_get i (fun x => ld_at (layers x) (n, m));
      ld_upd i (n, m) (fun d => d <| ld_starting := true |>) ;;
      match d with
      | None => skip
      | Some d =>
          r ← l_start lay (ld_layer d) i (n, m);
          if negb (r =? 0)%Z then ap_session_terminate env i TERM_NAS_ERROR 0
          else touch i ;; start_items i n ms
      end
  end.
Definition start_node (i n : nat) : M unit :=
  its ← ppp_get i (fun x => default [] (layers x !! n));
  start_items i n (List.seq 0 (length its)).

Definition start_first_layer (i : nat) : M unit := start_node i 0.

Definition __ppp_layer_started (i : nat) (p : pos) : M unit :=
  x ← ppp_get i id;
  if negb (node_up (default [] (layers x !! p.1))) then skip
  else if Nat.eqb (p.1 + 1) (length (layers x)) then
    q ← ses_get i state;
    when (q =? AP_STATE_STARTING)%Z (ap_session_activate env conf i)
  else start_node i (p.1 + 1).

(** [if (d->started) return;], reading the data of the layer that calls. *)
Definition ppp_layer_started (i : nat) (p : pos) : M unit :=
  d ← ppp_get i (fun x => ld_at (layers x) p);
  if match d with Some d => ld_started d | None => false end then skip
  else ld_upd i p (fun d => d <| ld_started := true |>) ;; __ppp_layer_started i p.

Definition ppp_layer_passive (i : nat) (p : pos) : M unit :=
  d ← ppp_get i (fun x => ld_at (layers x) p);
  if match d with Some d => ld_started d | None => false end then skip
  else ld_upd i p (fun d => d <| passive := true |>) ;; __ppp_layer_started i p.

Definition ppp_layer_finished (i : nat) (p : pos) : M unit :=
  x ← ses_get i id;
  if (finish_started x || terminated x)%bool then skip
  else
    ld_upd i p (fun d => d <| ld_finished := true |> <| ld_starting := false |>) ;;
    ls ← ppp_get i layers;
    if existsb (existsb busy) ls then skip else destablish_ppp i.

(** The nested loop of [ppp_terminate]; whether a layer was asked to finish. *)
Fixpoint finish_all (i : nat) (ps : list pos) (s : bool) : M bool :=
  match ps with
  | [] => mret s
  | p :: ps =>
      d ← ppp_get i (fun x => ld_at (layers x) p);
      match d with
      | None => touch i ;; mret s
      | Some d =>
          if ld_starting d then l_finish lay (ld_layer d) i p ;; touch i ;; finish_all i ps true
          else finish_all i ps s
      end
  end.

Definition ppp_terminate (i : nat) (hard : Z) : M Z :=
  x ← ses_get i id;
  if (finish_started x || terminated x)%bool then mret 0%Z
  else if negb (hard =? 0)%Z then destablish_ppp i ;; mret 0%Z
  else
    ls ← ppp_get i layers;
    s ← finish_all i (positions ls) false;
    if s : bool then mret 1%Z else destablish_ppp i ;; mret 0%Z.

Definition establish_ppp (i : nat) : M Z :=
  b ← core_get ap_shutdown;
  if b : bool then mret (-1)%Z
  else
    init_layers i ;;
    ls ← ppp_get i layers;
    f ← ppp_get i chan_fd;
    match ls with
    | [] => close_fd lay f ;; mret (-1)%Z
    | _ =>
        r ← (if conf_unit_preallocate then connect_ppp_channel i else mret 0%Z);
        if negb (r =? 0)%Z then close_fd lay f ;; mret (-1)%Z
        else
          r ← ap_session_starting env conf i;
          if negb (r =? 0)%Z then close_fd lay f ;; mret (-1)%Z
          else start_first_layer i ;; mret 0%Z
    end.

Definition ppp_find_layer_data (i l : nat) : M (option pos) :=
  ls ← ppp_get i layers;
  mret (head (List.filter (fun p => match ld_at ls p with
                                    | Some d => Nat.eqb (ld_layer d) l
                                    | None => false
                                    end) (positions ls))).

End Code.

End PppLayers.
