(* ===== verification/PppProps.v ===== *)
(** Theorems about the layers of a PPP session.

    [Module PppRegistry]: registration sorts the layers into their nodes.  [Module PppControl]:
    the layer code meets the contract of the sessions, so the session invariant holds with
    [ppp_terminate] as control.  [Module PppTeardown]: the orderly end.  [Module PppOrder]: the
    order in which layers are started. *)

From stdpp Require Import base tactics list sets numbers option strings relations.
From Stdlib Require Import ZArith Lia Sorting.Sorted.
From S2P Require Import Prelude CLib Session SessionInv SessionProps PppLayers.

Close Scope Z_scope.

Module PppRegistry.
Import PppLayers.

(** The layers of order [o], in the order of the list. *)
Definition items_of (o : Z) (ns : list layer_node) : list nat :=
  concat (map items (List.filter (fun n => (order n =? o)%Z) ns)).

Definition register_all (regs : list (string * nat)) : list layer_node :=
  foldl (fun ns r => (ppp_register_layer r.1 r.2 ns).2) [] regs.

Lemma items_of_cons o n ns :
  items_of o (n :: ns) = (if (order n =? o)%Z then items n else []) ++ items_of o ns.
Proof. unfold items_of. simpl. by destruct (order n =? o)%Z. Qed.

Lemma items_of_above o ns :
  Forall (fun n => (o < order n)%Z) ns -> items_of o ns = [].
Proof.
  induction 1 as [|n ns Hn _ IH]; [done|]. rewrite items_of_cons, IH.
  by rewrite (proj2 (Z.eqb_neq (order n) o)) by lia.
Qed.

Abbreviation sorted ns := (StronglySorted (fun a b => order a < order b)%Z ns).

Lemma insert_above o l b ns :
  (b < o)%Z -> Forall (fun n => (b < order n)%Z) ns ->
  Forall (fun n => (b < order n)%Z) (insert_layer o l ns).
Proof.
  intros Hb. induction 1 as [|n ns Hn Hns IH]; simpl; [by repeat constructor|].
  repeat case_match; repeat constructor; done.
Qed.

Lemma insert_sorted o l ns : sorted ns -> sorted (insert_layer o l ns).
Proof.
  induction 1 as [|n ns Hns IH Hn]; simpl; [by repeat constructor|].
  destruct (Z.ltb_spec (order n) o); [constructor; [done|by apply insert_above]|].
  destruct (Z.ltb_spec o (order n)); constructor; try done.
  - by constructor.
  - constructor; [done|]. eapply List.Forall_impl; [|exact Hn]. simpl. lia.
Qed.

Lemma insert_items o l o' ns :
  sorted ns ->
  items_of o' (insert_layer o l ns) = items_of o' ns ++ (if (o =? o')%Z then [l] else []).
Proof.
  induction 1 as [|n ns Hns IH Hn]; simpl.
  - rewrite items_of_cons. unfold items_of. simpl. by rewrite app_nil_r.
  - destruct (Z.ltb_spec (order n) o); [|destruct (Z.ltb_spec o (order n))];
      rewrite ?items_of_cons; simpl.
    + by rewrite IH, app_assoc.
    + destruct (Z.eqb_spec o o') as [<-|]; simpl; [|by rewrite app_nil_r].
      rewrite (proj2 (Z.eqb_neq (order n) o)) by lia.
      rewrite items_of_above; [reflexivity|]. eapply List.Forall_impl; [|exact Hn]. simpl. lia.
    + assert (order n = o) as E by lia. rewrite E in *.
      destruct (Z.eqb_spec o o') as [<-|]; [|by rewrite app_nil_r].
      rewrite items_of_above by done. by rewrite !app_nil_r.
Qed.

(** However the modules register their layers, the registry lists the nodes in strictly
    increasing order, and the node of each order holds exactly the layers registered with it,
    in the order of registration; unknown names are refused. *)
Theorem registry_exact (regs : list (string * nat)) :
  sorted (register_all regs) /\
  forall o, (0 <= o)%Z -> items_of o (register_all regs)
    = map snd (List.filter (fun r => (get_layer_order r.1 =? o)%Z) regs).
Proof.
  unfold register_all. induction regs as [|[name l] regs [IHs IHi]] using rev_ind;
    [by repeat constructor|].
  rewrite foldl_app. simpl. unfold ppp_register_layer at 1 3.
  destruct (Z.ltb_spec (get_layer_order name) 0); simpl.
  - split; [done|]. intros o Ho. rewrite IHi, List.filter_app, map_app by done. simpl.
    rewrite (proj2 (Z.eqb_neq _ o)) by lia. by rewrite app_nil_r.
  - split; [by apply insert_sorted|]. intros o Ho.
    rewrite insert_items, IHi, List.filter_app, map_app by done. simpl.
    by destruct (get_layer_order name =? o)%Z.
Qed.

End PppRegistry.

(** * PPP as the control of a session *)

Module PppControl.
Import Session SessionInv SessionRuns PppLayers.

(** What the layers owe the sessions. *)
Record layers_ok {S} `{!PppHost S} (lay : layer_env S) : Prop := {
  ok_l_init l i : calls_ok (l_init lay l i);
  ok_l_start l i p : safe None None None (reach i) (l_start lay l i p) (fun _ _ => True);
  ok_l_finish l i p : safe None None None (reach i) (l_finish lay l i p) (fun _ _ => True);
  ok_l_free l i : calls_ok (l_free lay l i);
  ok_ipv6_teardown i : calls_ok (ipv6_teardown lay i);
  ok_unit_teardown i : calls_ok (unit_teardown lay i);
  ok_unit_cache i : calls_ok (unit_cache lay i);
  ok_close_fd f : calls_ok (close_fd lay f)
}.

Section Safe.
Context {S : Type} `{!PppHost S}.
Variable env : ses_env S.
Variable conf : ses_conf.
Variable lay : layer_env S.
Hypothesis Henv : env_ok env.
Hypothesis Hlay : layers_ok lay.

Lemma frame_upd i f : frame (ppp_upd i f).
Proof. intros s. apply get_ses_put_ppp. Qed.
Lemma frame_get {A} i (p : ppp_t -> A) : frame (ppp_get i p).
Proof. done. Qed.

Lemma safe_upd e d P i f : safe e d d P (ppp_upd i f) (fun _ => P).
Proof. apply safe_frame, frame_upd. Qed.
Lemma safe_get {A} e d P i (p : ppp_t -> A) : safe e d d P (ppp_get i p) (fun _ => P).
Proof. apply safe_frame, frame_get. Qed.

Lemma safe_reach {A} i (m : st S A) :
  safe None None None (reach i) m (fun _ _ => True) ->
  safe None None None (reach i) m (fun _ => reach i).
Proof. intros Hm. eapply safe_calls_at; [exact Hm|done|apply stable_reach]. Qed.

Lemma safe_keep {A} i (m : st S A) :
  calls_ok m -> safe None None None (reach i) m (fun _ => reach i).
Proof. intros Hm. by apply safe_calls; [|apply stable_reach]. Qed.

Lemma safe_free_items i its :
  safe None None None (reach i) (free_items lay i its) (fun _ => reach i).
Proof.
  induction its as [|d its IH]; cbn [free_items]; [by apply safe_skip|].
  eapply safe_bind; [apply safe_upd|intros ?].
  eapply safe_bind; [apply safe_keep, Hlay|intros ?]. apply IH.
Qed.
Lemma safe_free_nodes i ls :
  safe None None None (reach i) (free_nodes lay i ls) (fun _ => reach i).
Proof.
  induction ls as [|its ls IH]; cbn [free_nodes]; [by apply safe_skip|].
  eapply safe_bind; [apply safe_free_items|intros ?].
  eapply safe_bind; [apply safe_upd|intros ?]. apply IH.
Qed.

Lemma safe_destroy i :
  safe None None None (reach i) (destroy_ppp_channel lay i) (fun _ => reach i).
Proof.
  unfold destroy_ppp_channel, _free_layers.
  eapply safe_bind; [apply safe_get|intros f].
  eapply (safe_bind _ _ None _ _ _ (fun _ => reach i)).
  { apply safe_when; [|done]. intros _. apply safe_keep, Hlay. }
  intros _. eapply safe_bind; [apply safe_upd|intros ?].
  eapply safe_bind; [|intros ?; apply safe_upd].
  eapply safe_bind; [apply safe_get|intros ls].
  eapply safe_bind; [apply safe_upd|intros ?]. apply safe_free_nodes.
Qed.

Lemma safe_destablish i :
  safe None None None (reach i) (destablish_ppp env lay i) (fun _ => reach i).
Proof.
  unfold destablish_ppp. eapply safe_bind; [apply safe_sread|intros x].
  case_if; [by apply safe_skip|].
  eapply (safe_bind _ _ None _ _ _ (fun _ => reach i)).
  { apply safe_when; [|done]. intros _. apply safe_keep, Hlay. }
  intros _. eapply safe_bind; [apply safe_get|intros u]. case_if.
  - eapply safe_bind; [apply safe_reach, safe_finished, Henv|intros ?]. apply safe_destroy.
  - eapply safe_bind; [apply safe_keep, Hlay|intros ?].
    eapply safe_bind; [apply safe_reach, safe_finished, Henv|intros ?].
    eapply safe_bind; [apply safe_upd|intros ?].
    eapply safe_bind; [apply safe_destroy|intros ?]. apply safe_keep, Hlay.
Qed.

Lemma safe_layer_finished i p :
  safe None None None (reach i) (ppp_layer_finished env lay i p) (fun _ => reach i).
Proof.
  unfold ppp_layer_finished. eapply safe_bind; [apply safe_sread|intros x].
  case_if; [by apply safe_skip|].
  eapply safe_bind; [apply safe_upd|intros ?].
  eapply safe_bind; [apply safe_get|intros ls].
  case_if; [by apply safe_skip|apply safe_destablish].
Qed.

Lemma safe_finish_all i ps b :
  safe None None None (reach i) (finish_all lay i ps b) (fun _ => reach i).
Proof.
  revert b. induction ps as [|p ps IH]; intros b; cbn [finish_all]; [apply safe_mret|].
  eapply safe_bind; [apply safe_get|intros [d|]].
  - case_if; [|apply IH]. eapply safe_bind; [apply safe_reach, Hlay|intros ?].
    eapply safe_bind; [apply safe_upd|intros ?]. apply IH.
  - eapply safe_bind; [apply safe_upd|intros ?]. apply safe_mret.
Qed.

Lemma safe_ppp_terminate i h :
  safe None None None (reach i) (ppp_terminate env lay i h) (fun _ => reach i).
Proof.
  unfold ppp_terminate. eapply safe_bind; [apply safe_sread|intros x].
  case_if; [apply safe_mret|]. case_if.
  - eapply safe_bind; [apply safe_destablish|intros ?]. apply safe_mret.
  - eapply safe_bind; [apply safe_get|intros ls].
    eapply safe_bind; [apply safe_finish_all|intros b].
    destruct b; [apply safe_mret|].
    eapply safe_bind; [apply safe_destablish|intros ?]. apply safe_mret.
Qed.

End Safe.

(** ** Tying the knot

    The layers call the session and the session calls the layers.  [mk] builds the layers over
    a session environment; [ppp_env n] is the environment in which calls from the session into
    the layers may be nested [n] deep. *)
Section Knot.
Context {S : Type} `{!PppHost S}.
Variable base : ses_env S.
Variable mk : ses_env S -> layer_env S.

Definition with_terminate (t : nat -> Z -> st S Z) : ses_env S :=
  mk_ses_env S (now base) (get_ifindex base) (urandom base) (save_seq base) (accounting base)
    (fire base) (ctrl_started base) (ctrl_finished base) t (rename base) (if_configure base)
    (if_deconfigure base) (put_ipv4 base) (put_ipv6 base) (net_release base) (set_priority base)
    (context_wakeup base) (context_schedule base) (shutdown_done base).

Fixpoint ppp_env (n : nat) : ses_env S :=
  match n with
  | O => with_terminate (fun _ _ => mret 0%Z)
  | Datatypes.S n => with_terminate (ppp_terminate (ppp_env n) (mk (ppp_env n)))
  end.

Lemma with_terminate_ok t :
  env_ok base ->
  (forall i h, safe None None None (reach i) (t i h) (fun _ _ => True)) ->
  env_ok (with_terminate t).
Proof. intros [] Ht. by split. Qed.

Lemma ppp_env_ok n :
  env_ok base -> (forall e, env_ok e -> layers_ok (mk e)) -> env_ok (ppp_env n).
Proof.
  intros Hb Hmk. induction n as [|n IH]; apply with_terminate_ok; try done.
  intros i h. eapply safe_conseq; [apply (safe_ppp_terminate _ _ IH (Hmk _ IH))|done|done].
Qed.

End Knot.

End PppControl.

(** * The orderly end *)

Module PppTeardown.
Import Session SessionInv PppLayers PppControl.

Lemma ld_at_alter f p q ls :
  ld_at (ld_alter f p ls) q = if decide (p = q) then f <$> ld_at ls q else ld_at ls q.
Proof.
  destruct p as [n m], q as [n' m']. unfold ld_at, ld_alter. cbn [fst snd].
  destruct (decide (n = n')) as [<-|Hn].
  - rewrite list_lookup_alter_eq. destruct (ls !! n) as [its|]; cbn; [|by case_decide].
    destruct (decide (m = m')) as [<-|Hm].
    + rewrite list_lookup_alter_eq, decide_True by done. done.
    + rewrite list_lookup_alter_ne, decide_False by naive_solver. done.
  - rewrite list_lookup_alter_ne, decide_False by naive_solver. done.
Qed.

Lemma existsb_busy ls p d : ld_at ls p = Some d -> busy d = true -> existsb (existsb busy) ls = true.
Proof.
  intros Hp Hb. unfold ld_at in Hp. destruct (ls !! p.1) as [its|] eqn:En; [|done]. cbn in Hp.
  apply existsb_exists. exists its. split; [eapply list_elem_of_In, list_elem_of_lookup_2, En|].
  apply existsb_exists. exists d. split; [|done].
  eapply list_elem_of_In, list_elem_of_lookup_2, Hp.
Qed.

(** A layer that has been asked to finish and has reported it. *)
Definition quit (d : layer_data) : layer_data :=
  d <| ld_finished := true |> <| ld_starting := false |>.

(** What the teardown makes of the layer at [p]; LCP, at (0, 0), waits for its peer. *)
Definition quiesce1 (ls : list (list layer_data)) (p : pos) : list (list layer_data) :=
  match ld_at ls p with
  | Some d => if (negb (bool_decide (p = (0, 0))) && ld_starting d)%bool
              then ld_alter quit p ls else ls
  | None => ls
  end.

Lemma ld_at_quiesce1 ls p q :
  ld_at (quiesce1 ls p) q
  = if decide (p = q /\ q <> (0, 0))
    then (fun d => if ld_starting d then quit d else d) <$> ld_at ls q
    else ld_at ls q.
Proof.
  unfold quiesce1. destruct (ld_at ls p) as [d|] eqn:E.
  - destruct (decide (p = (0, 0))) as [->|Hp]; [rewrite bool_decide_true by done|rewrite bool_decide_false by done];
      cbn [negb andb].
    { rewrite decide_False by naive_solver. done. }
    destruct (ld_starting d) eqn:Es.
    + rewrite ld_at_alter. repeat case_decide; try naive_solver. subst. rewrite E. cbn. by rewrite Es.
    + case_decide as H; [|done]. destruct H as [-> _]. rewrite E. cbn. by rewrite Es.
  - case_decide as H; [|done]. destruct H as [-> _]. by rewrite E.
Qed.

Lemma ld_at_quiesce ls ps q :
  NoDup ps ->
  ld_at (foldl quiesce1 ls ps) q
  = if decide (q ∈ ps /\ q <> (0, 0))
    then (fun d => if ld_starting d then quit d else d) <$> ld_at ls q
    else ld_at ls q.
Proof.
  intros Hnd. revert ls. induction Hnd as [|p ps Hp Hnd IH]; intros ls; cbn [foldl].
  - rewrite decide_False; [done|]. set_solver.
  - rewrite IH, ld_at_quiesce1. destruct (ld_at ls q) as [d|]; cbn;
      repeat case_decide; try done; exfalso; set_solver.
Qed.

Section Teardown.
Context {S : Type} `{!PppHost S}.
Variable env : ses_env S.
Variable lay : layer_env S.
Variable i : nat.
Variable lcp : nat.

(** The session has not begun to finish. *)
Definition live (s : S) : Prop :=
  finish_started (heap (get_ses s) i) = false /\ terminated (heap (get_ses s) i) = false.

Definition quiet {A} (m : st S A) : Prop :=
  forall s, live s -> get_ppp (exec m s) i = get_ppp s i /\ live (exec m s).

(** How the layers finish: LCP only asks its peer and reports later; every other layer
    releases what it holds and reports at once. *)
Record finish_contract (release : nat -> pos -> st S unit) : Prop := {
  lcp_defers : quiet (l_finish lay lcp i (0, 0));
  others_report l p : l <> lcp ->
    l_finish lay l i p = (release l p ;; ppp_layer_finished env lay i p);
  release_quiet l p : quiet (release l p)
}.

Lemma get_ppp_upd f s : get_ppp (exec (ppp_upd i f) s) i = f (get_ppp s i).
Proof.
  change (exec (ppp_upd i f) s) with (put_ppp i (f (get_ppp s i)) s).
  by rewrite get_put_ppp, decide_True.
Qed.
Lemma live_upd f s : live s -> live (exec (ppp_upd i f) s).
Proof.
  unfold live. change (exec (ppp_upd i f) s) with (put_ppp i (f (get_ppp s i)) s).
  by rewrite get_ses_put_ppp.
Qed.

Lemma report_while_busy p d d0 s :
  live s -> ld_at (layers (get_ppp s i)) p = Some d ->
  ld_at (layers (get_ppp s i)) (0, 0) = Some d0 -> busy d0 = true -> p <> (0, 0) ->
  let s' := exec (ppp_layer_finished env lay i p) s in
  get_ppp s' i = (get_ppp s i) <| layers ::= ld_alter quit p |> /\ live s'.
Proof.
  intros Hl Hd H0 Hb Hp. unfold ppp_layer_finished. rewrite exec_bind.
  change (exec (ses_get i id) s) with s. change (val (ses_get i id) s) with (heap (get_ses s) i).
  destruct Hl as [Hf Ht]. rewrite Hf, Ht. cbn [orb]. rewrite exec_bind.
  set (s1 := exec (ld_upd _ _ _) s).
  assert (get_ppp s1 i = (get_ppp s i) <| layers ::= ld_alter quit p |>) as E1.
  { unfold s1, ld_upd. rewrite get_ppp_upd, Hd. done. }
  rewrite exec_bind. change (exec (ppp_get i layers) s1) with s1.
  change (val (ppp_get i layers) s1) with (layers (get_ppp s1 i)).
  rewrite (existsb_busy _ (0, 0) d0); [|rewrite E1|done].
  - split; [done|]. by apply live_upd.
  - change (ld_at (ld_alter quit p (layers (get_ppp s i))) (0, 0) = Some d0).
    by rewrite ld_at_alter, decide_False.
Qed.

Variable release : nat -> pos -> st S unit.
Hypothesis Hc : finish_contract release.

(** The premises of the loop. *)
Record underway (d0 : layer_data) (s : S) : Prop := {
  uw_live : live s;
  uw_lcp : ld_at (layers (get_ppp s i)) (0, 0) = Some d0;
  uw_id : ld_layer d0 = lcp;
  uw_busy : busy d0 = true;
  uw_others p d : p <> (0, 0) -> ld_at (layers (get_ppp s i)) p = Some d -> ld_layer d <> lcp;
  uw_freed : freed (get_ppp s i) = false
}.

Lemma underway_next d0 s s' p :
  underway d0 s -> live s' ->
  get_ppp s' i = (get_ppp s i) <| layers ::= fun ls => quiesce1 ls p |> -> underway d0 s'.
Proof.
  intros [Hl H0 Hid Hb Ho Hf] Hl' E. split; [done|..|done|done| |]; rewrite E.
  - change (ld_at (quiesce1 (layers (get_ppp s i)) p) (0, 0) = Some d0).
    by rewrite ld_at_quiesce1, decide_False by naive_solver.
  - intros q d Hq. change (layers (_ <| layers ::= _ |>)) with (quiesce1 (layers (get_ppp s i)) p).
    rewrite ld_at_quiesce1. case_decide; [|by apply Ho].
    destruct (ld_at (layers (get_ppp s i)) q) as [d'|] eqn:E'; [|done]. cbn. intros [= <-].
    specialize (Ho q d' Hq E'). by destruct (ld_starting d').
  - exact Hf.
Qed.

(** One layer of the loop. *)
Lemma finish_one d0 p d s :
  underway d0 s -> ld_at (layers (get_ppp s i)) p = Some d -> ld_starting d = true ->
  let s' := exec (l_finish lay (ld_layer d) i p ;; touch i) s in
  get_ppp s' i = (get_ppp s i) <| layers ::= fun ls => quiesce1 ls p |> /\ live s'.
Proof.
  intros [Hl H0 Hid Hb Ho Hf] Hd Hs. rewrite exec_bind.
  set (s1 := exec (l_finish _ _ _ _) s).
  assert (get_ppp s1 i = (get_ppp s i) <| layers ::= fun ls => quiesce1 ls p |> /\ live s1) as [E1 L1].
  { unfold s1. destruct (decide (p = (0, 0))) as [->|Hp].
    - assert (d = d0) as -> by congruence. rewrite Hid.
      destruct (lcp_defers _ Hc s Hl) as [E L]. split; [|done]. rewrite E.
      unfold quiesce1. by destruct (get_ppp s i); cbn in *; rewrite H0.
    - rewrite (others_report _ Hc _ p (Ho p d Hp Hd)), exec_bind.
      destruct (release_quiet _ Hc (ld_layer d) p s Hl) as [E L].
      destruct (report_while_busy p d d0 _ L ltac:(by rewrite E) ltac:(by rewrite E) Hb Hp)
        as [E' L']. rewrite E', E. split; [|done].
      unfold quiesce1. destruct (get_ppp s i); cbn in *. rewrite Hd, bool_decide_false by done.
      by rewrite Hs. }
  split; [|by apply live_upd].
  unfold touch. rewrite get_ppp_upd, E1.
  change (freed ((get_ppp s i) <| layers ::= _ |>)) with (freed (get_ppp s i)). by rewrite Hf.
Qed.

Lemma is_some_quiesce1 ls p q : is_Some (ld_at ls q) -> is_Some (ld_at (quiesce1 ls p) q).
Proof. rewrite ld_at_quiesce1. intros [d ->]. case_decide; eauto. Qed.

Lemma finish_rest d0 ps s :
  underway d0 s -> Forall (fun p => is_Some (ld_at (layers (get_ppp s i)) p)) ps ->
  let s' := exec (finish_all lay i ps true) s in
  get_ppp s' i = (get_ppp s i) <| layers ::= fun ls => foldl quiesce1 ls ps |> /\ live s' /\
  val (finish_all lay i ps true) s = true.
Proof.
  revert s. induction ps as [|p ps IH]; intros s Hu Hps s'.
  { split_and!; [by destruct (get_ppp s i) eqn:E; unfold s'; cbn; rewrite E|apply Hu|done]. }
  apply Forall_cons in Hps as [[d Hd] Hps]. unfold s'. cbn [finish_all].
  rewrite exec_bind, val_bind.
  change (exec (ppp_get i ?f) s) with s.
  change (val (ppp_get i (fun x => ld_at (layers x) p)) s) with (ld_at (layers (get_ppp s i)) p).
  rewrite Hd. destruct (ld_starting d) eqn:Es.
  - destruct (finish_one d0 p d s Hu Hd Es) as [E1 L1]. rewrite exec_bind in E1, L1.
    rewrite !exec_bind, !val_bind. set (s1 := exec (touch i) _) in *.
    destruct (IH s1) as (E2 & L2 & V2).
    + by eapply underway_next.
    + rewrite E1. eapply List.Forall_impl; [|exact Hps]. intros q Hq. by apply is_some_quiesce1.
    + split_and!; [|done|done]. rewrite E2, E1. done.
  - destruct (IH s Hu Hps) as (E2 & L2 & V2). split_and!; [|done|done]. rewrite E2. cbn [foldl].
    assert (quiesce1 (layers (get_ppp s i)) p = layers (get_ppp s i)) as Eq
      by (unfold quiesce1; by rewrite Hd, Es, andb_false_r).
    destruct (get_ppp s i); cbn in *. by rewrite Eq.
Qed.

End Teardown.

(** ** Positions *)

Lemma elem_of_positions_from n ls p :
  p ∈ positions_from n ls <-> n <= p.1 /\ is_Some (ld_at ls (p.1 - n, p.2)).
Proof.
  revert n. induction ls as [|its ls IH]; intros n; cbn [positions_from].
  - split; [set_solver|]. intros [_ [d H]]. unfold ld_at in H. by rewrite lookup_nil in H.
  - rewrite elem_of_app, IH, list_elem_of_fmap. split.
    + intros [(m & -> & Hm)|[Hn Hs]]; cbn [fst snd].
      * split; [lia|]. rewrite Nat.sub_diag. unfold ld_at. cbn.
        apply lookup_lt_is_Some. apply list_elem_of_In, in_seq in Hm. lia.
      * split; [lia|]. unfold ld_at in *. cbn [fst snd] in *.
        replace (p.1 - n) with (Datatypes.S (p.1 - Datatypes.S n)) by lia. done.
    + intros [Hn Hs]. destruct (decide (p.1 = n)) as [E|E].
      * left. exists p.2. split; [by destruct p; cbn in *; subst|].
        rewrite E, Nat.sub_diag in Hs. unfold ld_at in Hs. cbn in Hs.
        apply lookup_lt_is_Some in Hs. apply list_elem_of_In, in_seq. lia.
      * right. split; [lia|]. unfold ld_at in *. cbn [fst snd] in *.
        replace (p.1 - n) with (Datatypes.S (p.1 - Datatypes.S n)) in Hs by lia. done.
Qed.

Lemma elem_of_positions ls p : p ∈ positions ls <-> is_Some (ld_at ls p).
Proof.
  unfold positions. rewrite elem_of_positions_from, Nat.sub_0_r. destruct p; cbn.
  split; [naive_solver|]. split; [lia|done].
Qed.

Lemma nodup_positions_from n ls : NoDup (positions_from n ls).
Proof.
  revert n. induction ls as [|its ls IH]; intros n; cbn [positions_from]; [constructor|].
  apply NoDup_app. split_and!; [|intros p|apply IH].
  - apply NoDup_fmap; [by intros ?? [= ->]|apply NoDup_ListNoDup, seq_NoDup].
  - rewrite list_elem_of_fmap, elem_of_positions_from. intros (m & -> & _). cbn. lia.
Qed.

(** C31: Terminating a PPP session in an orderly way, while LCP is up, asks every layer that
    was started to finish, in order: every layer but LCP is finished, LCP is left waiting for
    its peer, no layer is freed under the loop, the session is not finished yet, and the
    caller is told to wait. *)
Theorem teardown_orderly {S} `{!PppHost S} (env : ses_env S) (lay : layer_env S) i lcp release d0 s :
  finish_contract env lay i lcp release -> underway i lcp d0 s ->
  uaf (get_ppp s i) = false ->
  let s' := exec (ppp_terminate env lay i 0) s in
  val (ppp_terminate env lay i 0) s = 1%Z /\
  live i s' /\ freed (get_ppp s' i) = false /\ uaf (get_ppp s' i) = false /\
  forall p, ld_at (layers (get_ppp s' i)) p
    = (fun d => if (ld_starting d && negb (bool_decide (p = (0, 0))))%bool then quit d else d)
        <$> ld_at (layers (get_ppp s i)) p.
Proof.
  intros Hc Hu Huaf. unfold ppp_terminate. rewrite exec_bind, val_bind.
  change (exec (ses_get i id) s) with s. change (val (ses_get i id) s) with (heap (get_ses s) i).
  destruct (uw_live _ _ _ _ Hu) as [Hf Ht]. rewrite Hf, Ht. cbn [orb negb].
  change (if negb (0 =? 0)%Z then ?a else ?b) with b.
  rewrite !exec_bind, !val_bind. change (exec (ppp_get i layers) s) with s.
  change (val (ppp_get i layers) s) with (layers (get_ppp s i)).
  set (ls := layers (get_ppp s i)).
  assert (exists r, positions ls = (0, 0) :: r) as [r Er].
  { pose proof (uw_lcp _ _ _ _ Hu) as H. fold ls in H. unfold ld_at in H.
    destruct ls as [|[|x its] ls']; [done..|]. cbn. eauto. }
  assert (exec (finish_all lay i (positions ls) false) s = exec (finish_all lay i (positions ls) true) s
    /\ val (finish_all lay i (positions ls) false) s = val (finish_all lay i (positions ls) true) s)
    as [-> ->].
  { rewrite Er. cbn [finish_all]. rewrite !exec_bind, !val_bind.
    change (exec (ppp_get i ?f) s) with s.
    change (val (ppp_get i (fun x => ld_at (layers x) (0, 0))) s) with (ld_at ls (0, 0)).
    unfold ls. rewrite (uw_lcp _ _ _ _ Hu).
    pose proof (uw_busy _ _ _ _ Hu) as Hb. unfold busy in Hb.
    apply andb_true_iff in Hb as [-> _]. done. }
  destruct (finish_rest env lay i lcp release Hc d0 (positions ls) s Hu) as (E & L & ->).
  { apply List.Forall_forall. intros p Hp. by apply elem_of_positions, list_elem_of_In. }
  rewrite exec_ret, val_ret, E. split_and!; [done|done|by apply Hu|done|].
  intros p. change (layers (_ <| layers ::= _ |>)) with (foldl quiesce1 ls (positions ls)).
  rewrite ld_at_quiesce by apply nodup_positions_from. fold ls.
  destruct (ld_at ls p) as [d|] eqn:Ep; [|by case_decide]. cbn.
  destruct (decide (p = (0, 0))) as [->|Hp].
  - rewrite decide_False, bool_decide_true, andb_false_r by naive_solver. done.
  - rewrite decide_True, bool_decide_false, andb_true_r; [done|done|].
    split; [|done]. by apply elem_of_positions; rewrite Ep.
Qed.

End PppTeardown.

(** * A concrete PPP daemon *)

Module PppWorld.
Import Session SessionInv SessionRuns PppLayers PppControl PppTeardown.

Record world := mk_world { w_ses : ses_core; w_ppp : nat -> ppp_t }.

#[export, refine] Instance world_ses : SesHost world := {|
  get_ses w := w_ses w; put_ses c w := mk_world c (w_ppp w) |}.
Proof. all: by intros; repeat match goal with w : world |- _ => destruct w end. Defined.
#[export, refine] Instance world_ppp : PppHost world := {|
  get_ppp w := w_ppp w;
  put_ppp i p w := mk_world (w_ses w) (fun j => if decide (j = i) then p else w_ppp w j) |}.
Proof. all: done. Defined.

(** LCP is layer 0, authentication 1, IPCP 2; every layer but LCP reports its end at once. *)
Definition lay0 : layer_env world := {|
  l_init l i := mret (mk_ld l false false false false false);
  l_start l i p := mret 0%Z; l_finish l i p := skip; l_free l i := skip;
  ipv6_teardown i := skip; unit_teardown i := skip; unit_cache i := skip; close_fd f := skip |}.
Definition demo_layers (e : ses_env world) : layer_env world := {|
  l_init := l_init lay0; l_start := l_start lay0;
  l_finish l i p := match l with O => skip | _ => skip ;; ppp_layer_finished e lay0 i p end;
  l_free := l_free lay0; ipv6_teardown := ipv6_teardown lay0; unit_teardown := unit_teardown lay0;
  unit_cache := unit_cache lay0; close_fd := close_fd lay0 |}.

Lemma lay0_ok : layers_ok lay0.
Proof. split; intros; by apply (skip_safe (S := world)). Qed.

Lemma demo_layers_ok e : env_ok e -> layers_ok (demo_layers e).
Proof.
  intros He. split; intros; try by apply (skip_safe (S := world)).
  destruct l as [|l]; [by apply (skip_safe (S := world))|].
  eapply (safe_conseq _ _ _ _ (reach i)); [|done|done].
  eapply (safe_bind _ _ None _ _ _ (fun _ => reach i)); [by apply (skip_safe (S := world))|intros _].
  apply (safe_layer_finished (PppHost0 := world_ppp) e lay0 He lay0_ok).
Qed.

Definition base_env : ses_env world := quiet_env (fun _ _ => mret 0%Z).
Lemma base_env_ok : env_ok base_env.
Proof. apply quiet_env_ok. intros. by apply (skip_safe (S := world)). Qed.

Definition penv : ses_env world := ppp_env base_env demo_layers 2.
Definition no_ppp : ppp_t := mk_ppp [] (-1) (-1) (-1) false false false.
Definition pw0 : world := mk_world core0 (fun _ => no_ppp).

End PppWorld.

Module PppRuns.
Import Session SessionInv SessionRuns PppLayers PppControl PppWorld.

(** C30: With [ppp_terminate] as the control's [terminate] and layers that touch the sessions
    only through their operations, the session invariant holds along every run, however deep
    the calls between layers and sessions nest: the counters are exact, no session is ended
    twice and none is unlinked twice. *)
Theorem ppp_sessions_exact {S} `{!PppHost S} (base : ses_env S) (mk : ses_env S -> layer_env S)
    (conf : ses_conf) (depth : nat) s0 k s :
  env_ok base -> (forall e, env_ok e -> layers_ok (mk e)) ->
  idle (get_ses s0) -> rtc (ses_step (ppp_env base mk depth) conf) (0%Z, s0) (k, s) ->
  let c := get_ses s in
  starting (stat c) = u32 (n_of starting_like c) /\
  active (stat c) = u32 (n_of (Z.eqb AP_STATE_ACTIVE) c) /\
  finishing (stat c) = u32 (n_of (Z.eqb AP_STATE_FINISHING) c) /\
  fault c = false /\
  forall i, count_ev EV_SES_FINISHED i (trace c) <= count_ev EV_SES_STARTING i (trace c).
Proof.
  intros Hb Hmk H0 Hr c.
  destruct (run_inv _ conf (ppp_env_ok base mk depth Hb Hmk) s0 k s H0 Hr)
    as [_ _ _ ? _ ? ? ? Htr _].
  split_and!; try done. intros i. unfold c. rewrite (Htr i). lia.
Qed.

(** A session comes up and is terminated with no layer up: [ppp_terminate] ends it. *)
Definition pw1 : world :=
  exec (ses_upd 1 (fun _ => new_session demo_ctrl "eth0" [2;0;0;0;0;1]%Z)) pw0.
Definition pw2 : world := exec (stat_upd (fun x => x <| incoming ::= inc |>)) pw1.
Definition pw3 : world := exec (ap_session_starting penv demo_conf 1) pw2.
Definition pw4 : world := exec (ap_session_terminate penv 1 TERM_NAS_REQUEST 0) pw3.

Lemma ppp_sessions_exact_witness :
  count_ev EV_SES_FINISHED 1 (trace (w_ses pw4)) = 1 /\ fault (get_ses pw4) = false.
Proof.
  split; [vm_compute; reflexivity|].
  assert (ses_list (get_ses pw0) = [] /\ ses_list (get_ses pw2) = [] /\ ses_list (get_ses pw3) = [1])
    as (L0 & L2 & L3) by (split_and!; vm_compute; reflexivity).
  assert (1 ∉ ses_list (get_ses pw0)) as N0 by (rewrite L0; set_solver).
  assert (1 ∉ ses_list (get_ses pw2)) as N2 by (rewrite L2; set_solver).
  assert (1 ∈ ses_list (get_ses pw3)) as N3 by (rewrite L3; set_solver).
  assert (terminating (heap (get_ses pw2) 1) = false) as T2 by (vm_compute; reflexivity).
  assert (ap_shutdown (get_ses pw2) = false) as S2 by (vm_compute; reflexivity).
  refine (proj1 (proj2 (proj2 (proj2 (ppp_sessions_exact base_env demo_layers demo_conf 2 pw0 0 pw4
    base_env_ok demo_layers_ok _ _))))); [done|].
  refine (rtc_l _ _ (0%Z, pw1) _ (step_alloc penv demo_conf 0 pw0 1 _ _ _ N0) _).
  refine (rtc_l _ _ ((0 + 1)%Z, pw2) _ (step_admit penv demo_conf 0 pw1) _).
  refine (rtc_l _ _ (0%Z, pw3) _ (step_start penv demo_conf 0 pw2 1 (conj N2 T2) S2) _).
  exact (rtc_once _ _ (step_terminate penv demo_conf 0 pw3 1 TERM_NAS_REQUEST 0 (or_introl N3))).
Defined.

(** ** Orderly teardown of the demonstration *)

Import PppTeardown.

Definition demo_lcp : layer_data := mk_ld 0 false false true true false.
Definition demo_nodes : list (list layer_data) :=
  [[demo_lcp]; [mk_ld 1 false false true true false]; [mk_ld 2 false false true false false]].
Definition pw_up : world :=
  mk_world (w_ses pw3) (fun _ => no_ppp <| layers := demo_nodes |>).

Lemma demo_contract e : finish_contract e (demo_layers e) 1 0 (fun _ _ => skip).
Proof.
  split.
  - intros s Hl. by split.
  - intros [|l] p Hl; [done|]. reflexivity.
  - intros l p s Hl. by split.
Qed.

Lemma demo_underway : underway 1 0 demo_lcp pw_up.
Proof.
  split; try (vm_compute; reflexivity).
  - split; vm_compute; reflexivity.
  - intros [[|[|[|n]]] [|m]] d Hp; vm_compute; try done; intros [= <-]; done.
Qed.

Lemma teardown_orderly_witness :
  val (ppp_terminate penv (demo_layers penv) 1 0) pw_up = 1%Z /\
  layers (w_ppp (exec (ppp_terminate penv (demo_layers penv) 1 0) pw_up) 1)
  = [[demo_lcp]; [mk_ld 1 false false false true true]; [mk_ld 2 false false false false true]].
Proof.
  split; [|vm_compute; reflexivity].
  exact (proj1 (teardown_orderly penv (demo_layers penv) 1 0 (fun _ _ => skip) demo_lcp pw_up
    (demo_contract penv) demo_underway eq_refl)).
Defined.

End PppRuns.

(** * The order in which layers are started *)

Module PppOrder.
Import Session SessionInv PppLayers PppControl PppTeardown.

(** ** Footprint of the session operations

    Whatever reflexive and transitive relation the updates of the sessions and the calls out of
    them respect, every session operation respects. *)
Definition within {S A} (R : S -> S -> Prop) (m : st S A) : Prop := forall s, R s (exec m s).

Lemma within_bind {S A B} (R : S -> S -> Prop) `{!PreOrder R} (m : st S A) (k : A -> st S B) :
  within R m -> (forall a, within R (k a)) -> within R (m ≫= k).
Proof. intros Hm Hk s. rewrite exec_bind. etrans; [apply Hm|apply Hk]. Qed.
Lemma within_ret {S A} (R : S -> S -> Prop) `{!PreOrder R} (a : A) : within R (mret a : st S A).
Proof. by intros s. Qed.
Lemma within_gets {S A} (R : S -> S -> Prop) `{!PreOrder R} (f : S -> A) : within R (gets f).
Proof. by intros s. Qed.
Lemma within_when {S} (R : S -> S -> Prop) `{!PreOrder R} (b : bool) (m : st S unit) :
  within R m -> within R (when b m).
Proof. destruct b; [done|]. intros _. by apply (within_ret R tt). Qed.

Record env_within {S} `{!SesHost S} (R : S -> S -> Prop) (env : ses_env S) : Prop := {
  wi_core f : within R (core_upd f);
  wi_get_ifindex n : within R (get_ifindex env n);
  wi_urandom : within R (urandom env);
  wi_save_seq : within R (save_seq env);
  wi_accounting m p b : within R (accounting env m p b);
  wi_fire ev i : within R (fire env ev i);
  wi_ctrl_started i : within R (ctrl_started env i);
  wi_ctrl_finished i : within R (ctrl_finished env i);
  wi_ctrl_terminate i h : within R (ctrl_terminate env i h);
  wi_rename i n : within R (rename env i n);
  wi_if_configure i : within R (if_configure env i);
  wi_if_deconfigure i : within R (if_deconfigure env i);
  wi_put_ipv4 i : within R (put_ipv4 env i);
  wi_put_ipv6 i : within R (put_ipv6 env i);
  wi_net_release : within R (net_release env);
  wi_set_priority x p : within R (set_priority env x p);
  wi_context_wakeup x : within R (context_wakeup env x);
  wi_shutdown_done b : within R (shutdown_done env b)
}.

Ltac within_step :=
  cbv zeta;
  match goal with
  | |- within _ (_ ≫= _) => apply within_bind; [first [done|apply _]| |intros ?]
  | |- within _ (mret _) => apply within_ret; first [done|apply _]
  | |- within _ skip => apply within_ret; first [done|apply _]
  | |- within _ (gets _) => apply within_gets; first [done|apply _]
  | |- within _ (core_get _) => apply within_gets; first [done|apply _]
  | |- within _ (ses_get _ _) => apply within_gets; first [done|apply _]
  | |- within _ (when _ _) => apply within_when; [first [done|apply _]|]
  | |- within _ (if ?b then _ else _) => destruct b
  | |- within _ (match ?x with _ => _ end) => destruct x
  | H : env_within _ _ |- within _ (core_upd _) => apply H
  | H : env_within _ _ |- within _ (ses_upd _ _) => apply H
  | H : env_within _ _ |- within _ (stat_upd _) => apply H
  | H : env_within ?R ?e |- within ?R (_ ?e) => apply H
  | H : env_within ?R ?e |- within ?R (_ ?e _) => apply H
  | H : env_within ?R ?e |- within ?R (_ ?e _ _) => apply H
  | H : env_within ?R ?e |- within ?R (_ ?e _ _ _) => apply H
  end.

Section Footprint.
Context {S : Type} `{!SesHost S}.
Variable R : S -> S -> Prop.
Context `{HR : !PreOrder R}.
Variable env : ses_env S.
Variable conf : ses_conf.
Hypothesis Henv : env_within R env.

Lemma within_fire_event ev i : within R (fire_event env ev i).
Proof. unfold fire_event. repeat within_step. Qed.
Lemma within_read_stats i : within R (ap_session_read_stats env i).
Proof. unfold ap_session_read_stats. repeat within_step. Qed.
Lemma within_ifdown i : within R (ap_session_ifdown env i).
Proof. unfold ap_session_ifdown. repeat within_step. Qed.
Lemma within_timer_del i : within R (timer_del i).
Proof. unfold timer_del. repeat within_step. Qed.

Ltac go := repeat (apply within_fire_event || apply within_read_stats || apply within_ifdown ||
  apply within_timer_del || within_step).

Lemma within_terminate i cause hard : within R (ap_session_terminate env i cause hard).
Proof. unfold ap_session_terminate. go. Qed.
Lemma within_accounting_started i : within R (ap_session_accounting_started env i).
Proof. unfold ap_session_accounting_started. go. Qed.
Lemma within_ifup i : within R (ap_session_ifup env i).
Proof.
  unfold ap_session_ifup, ifup_acct.
  repeat (apply within_terminate || apply within_accounting_started || go).
Qed.
Lemma within_activate i : within R (ap_session_activate env conf i).
Proof. unfold ap_session_activate. repeat (apply within_ifup || go). Qed.
Lemma within_finished i : within R (ap_session_finished env i).
Proof.
  unfold ap_session_finished, list_del, release_ip, free_session, no_session. go.
Qed.

End Footprint.

(** ** The order *)

(** A layer is starting only when the node before its own is up. *)
Definition ordered (ls : list (list layer_data)) : Prop :=
  forall n its, ls !! Datatypes.S n = Some its -> existsb ld_starting its = true ->
    node_up (default [] (ls !! n)) = true.

Lemma forallb_alter {A} (p : A -> bool) f m (l : list A) :
  (forall d, p d = true -> p (f d) = true) -> forallb p l = true -> forallb p (alter f m l) = true.
Proof.
  intros Hf. revert m. induction l as [|x l IH]; intros [|m]; cbn; try done;
    rewrite !andb_true_iff; intros [H1 H2]; split; auto.
Qed.
Lemma existsb_alter {A} (p : A -> bool) f m (l : list A) :
  (forall d, p d = true -> p (f d) = true) -> existsb p l = true -> existsb p (alter f m l) = true.
Proof.
  intros Hf. revert m. induction l as [|x l IH]; intros [|m]; cbn; try done;
    rewrite !orb_true_iff; intros [H|H]; auto.
Qed.
Lemma existsb_unalter {A} (p : A -> bool) f m (l : list A) :
  (forall d, p (f d) = true -> p d = true) -> existsb p (alter f m l) = true -> existsb p l = true.
Proof.
  intros Hf. revert m. induction l as [|x l IH]; intros [|m]; cbn; try done;
    rewrite !orb_true_iff; intros [H|H]; eauto.
Qed.

Lemma node_up_lookup ls n : node_up (default [] (ls !! n)) = true -> n < length ls.
Proof.
  intros H. apply lookup_lt_is_Some. destruct (ls !! n); [by eexists|]. done.
Qed.

(** Changes of a layer that keep its node up. *)
Definition raises (f : layer_data -> layer_data) : Prop :=
  forall d, (ld_started d = true -> ld_started (f d) = true) /\
            (passive d = true -> passive (f d) = true) /\ optional (f d) = optional d.

Lemma node_up_alter f m its : raises f -> node_up its = true -> node_up (alter f m its) = true.
Proof.
  intros Hf. unfold node_up. rewrite !andb_true_iff. intros [H1 H2]. split.
  - apply forallb_alter; [|done]. intros d. destruct (Hf d) as (Hs & Hp & _).
    rewrite !orb_true_iff. naive_solver.
  - apply existsb_alter; [|done]. intros d. destruct (Hf d) as (Hs & _ & ->).
    rewrite !andb_true_iff. naive_solver.
Qed.

Lemma lookup_ld_alter f p ls n :
  default [] (ld_alter f p ls !! n)
  = if decide (p.1 = n) then alter f p.2 (default [] (ls !! n)) else default [] (ls !! n).
Proof.
  unfold ld_alter. case_decide as E.
  - subst n. rewrite list_lookup_alter_eq. by destruct (ls !! p.1).
  - by rewrite list_lookup_alter_ne.
Qed.

Lemma node_up_ld_alter f p ls n :
  raises f -> node_up (default [] (ls !! n)) = true ->
  node_up (default [] (ld_alter f p ls !! n)) = true.
Proof. intros Hf Hn. rewrite lookup_ld_alter. case_decide; [by apply node_up_alter|done]. Qed.

Lemma ordered_ld_alter f p ls :
  raises f ->
  ((forall d, ld_starting (f d) = true -> ld_starting d = true) \/
   (p.1 = 0 \/ node_up (default [] (ls !! (p.1 - 1))) = true)) ->
  ordered ls -> ordered (ld_alter f p ls).
Proof.
  intros Hf Hcase Ho n its Hn Hs. apply node_up_ld_alter; [done|].
  assert (default [] (ld_alter f p ls !! Datatypes.S n) = its) as E by (by rewrite Hn).
  rewrite lookup_ld_alter in E.
  destruct (ls !! Datatypes.S n) as [its0|] eqn:E0.
  - destruct (decide (p.1 = Datatypes.S n)) as [Ep|Ep]; cbn in E; subst its; [|by eapply Ho].
    destruct Hcase as [Hd|[Hz|Hu]]; [|lia|].
    + eapply Ho; [done|]. by eapply existsb_unalter.
    + by replace n with (p.1 - 1) by lia.
  - case_decide; cbn in E; subst its; done.
Qed.

Section Order.
Context {S : Type} `{!PppHost S}.
Variable i : nat.

(** The layers either are in order or have been released. *)
Definition in_order (x : ppp_t) : Prop := freed x = true \/ ordered (layers x).

(** The nodes before the last never go down again. *)
Definition rises (x x' : ppp_t) : Prop :=
  freed x' = true \/
  (freed x = false /\ length (layers x') = length (layers x) /\
   forall n, n + 1 < length (layers x) -> node_up (default [] (layers x !! n)) = true ->
     node_up (default [] (layers x' !! n)) = true).

Definition orderly (s s' : S) : Prop :=
  rises (get_ppp s i) (get_ppp s' i) /\ (in_order (get_ppp s i) -> in_order (get_ppp s' i)).

#[local] Instance orderly_preorder : PreOrder orderly.
Proof.
  split.
  - intros s. split; [|done]. unfold rises. destruct (freed (get_ppp s i)); auto.
  - intros a b c [H1 H2] [H3 H4]. split; [|auto].
    destruct H3 as [H3|(F3 & L3 & N3)]; [by left|].
    destruct H1 as [H1|(F1 & L1 & N1)]; [congruence|].
    right. split_and!; [done|congruence|]. intros n Hn Hu. apply N3; [lia|]. by apply N1.
Qed.

Lemma orderly_same s s' : get_ppp s' i = get_ppp s i -> orderly s s'.
Proof.
  intros E. unfold orderly, rises. rewrite E. split; [|done].
  destruct (freed (get_ppp s i)); auto.
Qed.
Lemma orderly_freed s s' : freed (get_ppp s' i) = true -> orderly s s'.
Proof. intros E. split; left; done. Qed.

Lemma within_core f : within orderly (core_upd f).
Proof.
  intros s. apply orderly_same. change (exec (core_upd f) s) with (put_ses (f (get_ses s)) s).
  by rewrite get_ppp_put_ses.
Qed.

(** Updates that leave the layers alone. *)
Lemma within_upd j f :
  (forall x, layers (f x) = layers x /\ freed (f x) = freed x) -> within orderly (ppp_upd j f).
Proof.
  intros Hf s. change (exec (ppp_upd j f) s) with (put_ppp j (f (get_ppp s j)) s).
  destruct (decide (i = j)) as [<-|Hj].
  - destruct (Hf (get_ppp s i)) as [E1 E2]. unfold orderly, rises, in_order.
    rewrite get_put_ppp, decide_True, E1, E2 by done. split; [|done].
    destruct (freed (get_ppp s i)); auto.
  - apply orderly_same. by rewrite get_put_ppp, decide_False.
Qed.

(** Changing one layer. *)
Lemma orderly_ld_upd j p f s :
  raises f ->
  (i = j -> freed (get_ppp s i) = false ->
   (forall d, ld_starting (f d) = true -> ld_starting d = true) \/
   (p.1 = 0 \/ node_up (default [] (layers (get_ppp s i) !! (p.1 - 1))) = true)) ->
  orderly s (exec (ld_upd j p f) s).
Proof.
  intros Hf Hcase. unfold ld_upd.
  destruct (decide (i = j)) as [<-|Hj].
  2:{ apply orderly_same. change (exec (ppp_upd j ?g) s) with (put_ppp j (g (get_ppp s j)) s).
      by rewrite get_put_ppp, decide_False. }
  destruct (ld_at (layers (get_ppp s i)) p) eqn:E.
  - destruct (freed (get_ppp s i)) eqn:Ef.
    { apply orderly_freed. by rewrite get_ppp_upd, E. }
    specialize (Hcase eq_refl eq_refl). unfold orderly, rises, in_order.
    rewrite get_ppp_upd, E.
    change (freed (_ <| layers ::= _ |>)) with (freed (get_ppp s i)).
    change (layers (_ <| layers ::= _ |>)) with (ld_alter f p (layers (get_ppp s i))).
    rewrite Ef. split.
    + right. split_and!; [done|by unfold ld_alter; rewrite length_alter|].
      intros n _ Hu. by apply node_up_ld_alter.
    + intros [?|Ho]; [done|]. right. by apply ordered_ld_alter.
  - unfold orderly, rises, in_order. rewrite get_ppp_upd, E.
    change (freed (_ <| uaf := _ |>)) with (freed (get_ppp s i)).
    change (layers (_ <| uaf := _ |>)) with (layers (get_ppp s i)).
    split; [|done]. destruct (freed (get_ppp s i)); auto.
Qed.

(** ** The operations *)

Variable env : ses_env S.
Variable conf : ses_conf.
Variable lay : layer_env S.

(** What the layers and the calls out of the session do to the layers of session [i]: nothing
    that breaks the order. *)
Record layers_within : Prop := {
  wl_start l j p : within orderly (l_start lay l j p);
  wl_finish l j p : within orderly (l_finish lay l j p);
  wl_free l j : within orderly (l_free lay l j);
  wl_ipv6_teardown j : within orderly (ipv6_teardown lay j);
  wl_unit_teardown j : within orderly (unit_teardown lay j);
  wl_unit_cache j : within orderly (unit_cache lay j);
  wl_close_fd f : within orderly (close_fd lay f)
}.
Hypothesis Henv : env_within orderly env.
Hypothesis Hlay : layers_within.

Lemma freed_stays s s' : orderly s s' -> freed (get_ppp s i) = true -> freed (get_ppp s' i) = true.
Proof. intros [[H|(H & _)] _]; [done|congruence]. Qed.

(** Releasing the layers of any session. *)
Definition released {A} (j : nat) (m : st S A) : Prop :=
  forall s, (i = j -> freed (get_ppp s i) = true) -> orderly s (exec m s).

Lemma released_upd j f : (forall x, freed (f x) = freed x) -> released j (ppp_upd j f).
Proof.
  intros Hf s Hs. change (exec (ppp_upd j f) s) with (put_ppp j (f (get_ppp s j)) s).
  destruct (decide (i = j)) as [<-|Hj].
  - apply orderly_freed. rewrite get_put_ppp, decide_True, Hf by done. auto.
  - apply orderly_same. by rewrite get_put_ppp, decide_False.
Qed.
Lemma released_bind {A B} j (m : st S A) (k : A -> st S B) :
  released j m -> (forall a, released j (k a)) -> released j (m ≫= k).
Proof.
  intros Hm Hk s Hs. rewrite exec_bind. etrans; [by apply Hm|]. apply Hk.
  intros E. eapply freed_stays; [by apply Hm|auto].
Qed.
Lemma released_within {A} j (m : st S A) : within orderly m -> released j m.
Proof. intros Hm s _. apply Hm. Qed.

Lemma released_skip j : released j skip.
Proof. intros s _. by apply orderly_same. Qed.

Lemma released_free_nodes j ls : released j (free_nodes lay j ls).
Proof.
  induction ls as [|its ls IH]; cbn [free_nodes]; [apply released_skip|].
  apply released_bind; [|intros _; apply released_bind; [by apply released_upd|done]].
  induction its as [|d its IHi]; cbn [free_items]; [apply released_skip|].
  apply released_bind; [by apply released_upd|intros _].
  apply released_bind; [apply released_within, Hlay|intros _; apply IHi].
Qed.

Lemma within_free_layers j : within orderly (_free_layers lay j).
Proof.
  intros s. unfold _free_layers. rewrite exec_bind. change (exec (ppp_get j layers) s) with s.
  rewrite exec_bind. set (s1 := exec (ppp_upd _ _) s).
  destruct (decide (i = j)) as [Ej|Hj].
  - assert (freed (get_ppp s1 i) = true) as E1 by (unfold s1; rewrite <- Ej, get_ppp_upd; done).
    apply orderly_freed. eapply freed_stays; [|exact E1]. by apply released_free_nodes.
  - etrans; [|by apply released_free_nodes]. apply orderly_same.
    unfold s1. change (exec (ppp_upd j ?g) s) with (put_ppp j (g (get_ppp s j)) s).
    by rewrite get_put_ppp, decide_False.
Qed.

Ltac order_step :=
  match goal with
  | |- within _ (ppp_get _ _) => apply within_gets; apply _
  | |- within _ (ppp_upd _ _) => apply within_upd; done
  | |- within _ (touch _) => apply within_upd; intros ?; by case_match
  | |- within _ (_free_layers _ _) => apply within_free_layers
  | |- within _ (ap_session_finished _ _) => apply within_finished; [apply _|done]
  | |- within _ (ap_session_terminate _ _ _ _) => apply within_terminate; [apply _|done]
  | |- within _ (ap_session_activate _ _ _) => apply within_activate; [apply _|done]
  | |- within _ (_ lay _) => apply Hlay
  | |- within _ (_ lay _ _) => apply Hlay
  | |- within _ (_ lay _ _ _) => apply Hlay
  | |- _ => within_step
  | |- PreOrder _ => apply _
  end.

Lemma within_destablish j : within orderly (destablish_ppp env lay j).
Proof.
  unfold destablish_ppp, destroy_ppp_channel. repeat order_step.
Qed.

Lemma within_ld_upd j p f :
  raises f -> (forall d, ld_starting (f d) = true -> ld_starting d = true) ->
  within orderly (ld_upd j p f).
Proof. intros Hf Hs s. apply orderly_ld_upd; auto. Qed.

Lemma within_layer_finished j p : within orderly (ppp_layer_finished env lay j p).
Proof.
  unfold ppp_layer_finished.
  repeat (apply within_destablish || (apply within_ld_upd; [by repeat split|done]) || order_step).
Qed.

Lemma within_finish_all j ps b : within orderly (finish_all lay j ps b).
Proof.
  revert b. induction ps as [|p ps IH]; intros b; cbn [finish_all];
    repeat (apply IH || order_step).
Qed.

Lemma within_ppp_terminate j h : within orderly (ppp_terminate env lay j h).
Proof.
  unfold ppp_terminate. repeat (apply within_destablish || apply within_finish_all || order_step).
Qed.

(** Starting a node whose predecessor is up. *)
Definition may_start (n : nat) (x : ppp_t) : Prop :=
  freed x = true \/ n = 0 \/
  (n - 1 + 1 < length (layers x) /\ node_up (default [] (layers x !! (n - 1))) = true).

Lemma may_start_stays n s s' :
  orderly s s' -> may_start n (get_ppp s i) -> may_start n (get_ppp s' i).
Proof.
  intros Hs Hm. destruct (proj1 Hs) as [H|(F & L & N)]; [by left|].
  destruct Hm as [?|[?|[Hl Hu]]]; [congruence|by right; left|].
  right; right. split; [lia|by apply N].
Qed.

Lemma orderly_start_items j n ms s :
  (i = j -> may_start n (get_ppp s i)) -> orderly s (exec (start_items env lay j n ms) s).
Proof.
  revert s. induction ms as [|m ms IH]; intros s Hm; cbn [start_items]; [done|].
  rewrite exec_bind. change (exec (ppp_get j ?f) s) with s. rewrite exec_bind.
  set (s1 := exec (ld_upd _ _ _) s).
  assert (orderly s s1) as H1.
  { apply orderly_ld_upd; [by repeat split|]. intros <- Hf. right.
    destruct (Hm eq_refl) as [?|[->|[_ Hu]]]; [congruence|by left|by right]. }
  etrans; [exact H1|]. case_match; [|done].
  rewrite exec_bind. set (s2 := exec (l_start _ _ _ _) s1).
  assert (orderly s1 s2) as H2 by apply Hlay. etrans; [exact H2|].
  case_match; [exact (within_terminate orderly env Henv j TERM_NAS_ERROR 0 s2)|].
  rewrite exec_bind. set (s3 := exec (touch j) s2).
  assert (orderly s2 s3) as H3 by (apply within_upd; intros ?; by case_match).
  etrans; [exact H3|]. apply IH. intros E.
  eapply may_start_stays; [|by apply Hm]. by etrans; [|etrans].
Qed.

Lemma within_start_first j : within orderly (start_first_layer env lay j).
Proof.
  intros s. unfold start_first_layer, start_node. rewrite exec_bind.
  apply (orderly_start_items j 0). intros _. by right; left.
Qed.

Lemma within_started j p : within orderly (__ppp_layer_started env conf lay j p).
Proof.
  intros s. unfold __ppp_layer_started. rewrite exec_bind.
  change (exec (ppp_get j id) s) with s. change (val (ppp_get j id) s) with (get_ppp s j).
  destruct (node_up _) eqn:Eu; cbn [negb]; [|done].
  destruct (Nat.eqb_spec (p.1 + 1) (length (layers (get_ppp s j)))) as [El|El].
  - assert (within orderly (q ← ses_get j state;
      when (q =? AP_STATE_STARTING)%Z (ap_session_activate env conf j))) as H
      by repeat order_step. apply H.
  - unfold start_node. rewrite exec_bind. apply orderly_start_items. intros <-. right; right.
    change (exec (ppp_get i ?f) s) with s. replace (p.1 + 1 - 1) with p.1 by lia.
    split; [|done]. apply node_up_lookup in Eu. lia.
Qed.

(** What happens to the layers of a session: its layers report to [ppp.c], the session is
    terminated, and a network layer of the last node may give up waiting passively. *)
Inductive layer_step : S -> S -> Prop :=
  | ls_first s : layer_step s (exec (start_first_layer env lay i) s)
  | ls_started s p : layer_step s (exec (ppp_layer_started env conf lay i p) s)
  | ls_passive s p : layer_step s (exec (ppp_layer_passive env conf lay i p) s)
  | ls_finished s p : layer_step s (exec (ppp_layer_finished env lay i p) s)
  | ls_terminate s h : layer_step s (exec (ppp_terminate env lay i h) s)
  | ls_unpassive s p : p.1 + 1 = length (layers (get_ppp s i)) ->
      layer_step s (exec (ld_upd i p (fun d => d <| passive := false |>)) s).

Lemma within_report p f :
  raises f -> (forall d, ld_starting (f d) = true -> ld_starting d = true) ->
  within orderly (d ← ppp_get i (fun x => ld_at (layers x) p);
    if match d with Some d => ld_started d | None => false end then skip
    else ld_upd i p f ;; __ppp_layer_started env conf lay i p).
Proof.
  intros Hf Hs. repeat (apply within_started || (apply within_ld_upd; done) || order_step).
Qed.

Lemma in_order_unpassive p s :
  p.1 + 1 = length (layers (get_ppp s i)) -> in_order (get_ppp s i) ->
  in_order (get_ppp (exec (ld_upd i p (fun d => d <| passive := false |>)) s) i).
Proof.
  intros Hp Ho. unfold ld_upd. rewrite get_ppp_upd.
  destruct (ld_at (layers (get_ppp s i)) p); [|exact Ho].
  destruct Ho as [Ho|Ho]; [by left|right]. intros n its Hn Hs.
  change (layers (_ <| layers ::= ?g |>)) with (g (layers (get_ppp s i))) in Hn |- *.
  cbv beta in *.
  assert (n + 1 < length (layers (get_ppp s i))).
  { apply lookup_lt_Some in Hn. unfold ld_alter in Hn. rewrite length_alter in Hn. lia. }
  rewrite lookup_ld_alter, decide_False by lia.
  assert (default [] (ld_alter (fun d => d <| passive := false |>) p (layers (get_ppp s i))
    !! Datatypes.S n) = its) as E by (by rewrite Hn).
  rewrite lookup_ld_alter in E.
  destruct (layers (get_ppp s i) !! Datatypes.S n) as [its0|] eqn:E0;
    [|case_decide; cbn in E; subst; done].
  eapply Ho; [done|]. case_decide; cbn in E; subst its; [|done].
  by eapply existsb_unalter; [|exact Hs].
Qed.

Lemma layer_step_in_order s s' :
  layer_step s s' -> in_order (get_ppp s i) -> in_order (get_ppp s' i).
Proof.
  destruct 1.
  - apply within_start_first.
  - apply within_report; [by repeat split|done].
  - apply within_report; [by repeat split|done].
  - apply within_layer_finished.
  - apply within_ppp_terminate.
  - by apply in_order_unpassive.
Qed.

End Order.


Section Knot.
Context {S : Type} `{!PppHost S}.
Variable base : ses_env S.
Variable mk : ses_env S -> layer_env S.
Variable i : nat.

Lemma ppp_env_within n :
  env_within (orderly i) base ->
  (forall e, env_within (orderly i) e -> layers_within i (mk e)) ->
  env_within (orderly i) (ppp_env base mk n).
Proof.
  intros Hb Hmk. induction n as [|n IH].
  - destruct Hb. split; try done. intros j h s. by apply orderly_same.
  - destruct Hb. split; try done. intros j h.
    exact (within_ppp_terminate i _ _ IH (Hmk _ IH) j h).
Qed.

End Knot.

Module OrderDemo.
Import SessionRuns PppWorld PppRuns.

Lemma skip_orderly {A} (a : A) : within (S := world) (orderly 1) (mret a).
Proof. intros s. by apply orderly_same. Qed.

Lemma base_within : env_within (orderly 1) base_env.
Proof. split; intros; try apply skip_orderly. exact (within_core (PppHost0 := world_ppp) 1 f). Qed.

Lemma demo_layers_within e : env_within (orderly 1) e -> layers_within 1 (demo_layers e).
Proof.
  intros He.
  assert (layers_within 1 lay0) as H0 by (split; intros; apply skip_orderly).
  split; intros; try apply skip_orderly.
  destruct l as [|l]; [apply skip_orderly|].
  apply (within_bind _ (PreOrder0 := orderly_preorder 1)); [apply skip_orderly|intros _].
  exact (within_layer_finished 1 e lay0 He H0 j p).
Qed.

(** Session 1 with its layers, none started; LCP comes up, then authentication. *)
Definition fresh_nodes : list (list layer_data) :=
  [[mk_ld 0 false false false false false]; [mk_ld 1 false false false false false];
   [mk_ld 2 false false false false false]].
Definition od0 : world := mk_world (w_ses pw3) (fun _ => no_ppp <| layers := fresh_nodes |>).
Definition od1 : world := exec (start_first_layer penv (demo_layers penv) 1) od0.
Definition od2 : world := exec (ppp_layer_started penv demo_conf (demo_layers penv) 1 (0, 0)) od1.
Definition od3 : world := exec (ppp_layer_started penv demo_conf (demo_layers penv) 1 (1, 0)) od2.


End OrderDemo.

End PppOrder.
