(* ===== verification/RadDict.v ===== *)
(** The RADIUS dictionary: radius/dict.c and the types of radius/radius.h.

    [rad_dict_t] is the loaded dictionary.  Attribute descriptions live in a heap
    ([d_attrs]) and are pointed to by their address there, so that the vendor lists, the
    TLV lists and the attributes of packets share them as the C lists do; vendors are
    only ever appended, so a vendor's address is its position.  [rad_dict_load] reads a
    file and its includes; [fs] gives the lines [fgets] returns for a file name, [None]
    when [fopen] fails.  [None] as the result of an operation is undefined behaviour of
    the C code (a null list head, an argument vector read before its start).  Memory
    allocation succeeds: the dictionary is read once, at start-up.

    The theorems: every attribute of a dictionary that was loaded without an error has
    the size its type asks for, every address in it is valid, and the lookups return an
    entry of the list they search. *)

From stdpp Require Import base tactics list numbers option strings.
From Stdlib Require Import ZArith Lia Ascii.
From S2P Require Import Prelude CLib.

Open Scope Z_scope.

(** ** Data *)

Inductive attr_type :=
  | ATTR_TYPE_INTEGER | ATTR_TYPE_STRING | ATTR_TYPE_OCTETS | ATTR_TYPE_DATE
  | ATTR_TYPE_IPADDR | ATTR_TYPE_IFID | ATTR_TYPE_IPV6ADDR | ATTR_TYPE_IPV6PREFIX
  | ATTR_TYPE_ETHER | ATTR_TYPE_TLV.

#[export] Instance attr_type_eq_dec : EqDecision attr_type.
Proof. solve_decision. Defined.

(** The union [rad_value_t]: the 24 bytes of its memory, or a pointer member and the
    block it points to.  [VBad] is what a scalar write over a pointer leaves. *)
Inductive rad_value_t :=
  | VMem (mem : list Z)
  | VPtr (block : list Z)
  | VBad.

Definition VALUE_SIZE : nat := 24.
Definition value_zero : rad_value_t := VMem (replicate VALUE_SIZE 0).

Record rad_dict_value_t := {
  dval_val : rad_value_t;
  dval_name : string }.

Record rad_dict_attr_t := {
  da_name : string;
  da_id : Z;
  da_type : attr_type;
  da_array : bool;
  da_size : Z;
  da_values : list rad_dict_value_t;
  da_tlv : list nat }.

Record rad_dict_vendor_t := {
  vd_id : Z;
  vd_tag : Z;
  vd_len : Z;
  vd_name : string;
  vd_items : list nat }.

Record rad_dict_t := {
  d_attrs : list rad_dict_attr_t;
  d_items : list nat;
  d_vendors : list rad_dict_vendor_t }.

Definition empty_dict : rad_dict_t := {| d_attrs := []; d_items := []; d_vendors := [] |}.

(** The bytes of a C string, without its NUL. *)
Fixpoint str_bytes (s : string) : list Z :=
  match s with
  | EmptyString => []
  | String c s => code c :: str_bytes s
  end.

Lemma str_bytes_length s : length (str_bytes s) = String.length s.
Proof. induction s as [|c s IH]; cbn; [done|by rewrite IH]. Qed.

Lemma code_range c : is_u8 (code c).
Proof.
  unfold code. pose proof (N_ascii_bounded c). width_unfold. lia.
Qed.

Lemma str_bytes_ok s : bytes_ok (str_bytes s).
Proof. induction s as [|c s IH]; constructor; [apply code_range|done]. Qed.

#[export] Hint Resolve str_bytes_ok code_range : bng.

(** ** Lookups *)

(** [list_for_each_entry] with a test and an early return. *)
Fixpoint first_match {A} (p : A -> bool) (l : list A) : option A :=
  match l with
  | [] => None
  | x :: l => if p x then Some x else first_match p l
  end.

Definition attr_is (d : rad_dict_t) (p : rad_dict_attr_t -> bool) (a : nat) : bool :=
  match d_attrs d !! a with Some da => p da | None => false end.

Definition find_attr (d : rad_dict_t) (items : list nat) (name : string) : option nat :=
  first_match (attr_is d (fun da => bool_decide (da_name da = name))) items.

Definition rad_dict_find_attr (d : rad_dict_t) (name : string) : option nat :=
  find_attr d (d_items d) name.

Definition vendor_items (d : rad_dict_t) (vendor : nat) : list nat :=
  match d_vendors d !! vendor with Some v => vd_items v | None => [] end.

Definition rad_dict_find_attr_id (d : rad_dict_t) (vendor : option nat) (id : Z) : option nat :=
  let items := match vendor with Some v => vendor_items d v | None => d_items d end in
  first_match (attr_is d (fun da => da_id da =? id)) items.

Definition rad_dict_find_vendor_attr (d : rad_dict_t) (vendor : nat) (name : string) : option nat :=
  find_attr d (vendor_items d vendor) name.

Definition vendor_is (d : rad_dict_t) (p : rad_dict_vendor_t -> bool) (v : nat) : bool :=
  match d_vendors d !! v with Some vd => p vd | None => false end.

Definition vendor_list (d : rad_dict_t) : list nat := List.seq 0 (length (d_vendors d)).

Definition rad_dict_find_vendor_name (d : rad_dict_t) (name : string) : option nat :=
  first_match (vendor_is d (fun v => bool_decide (vd_name v = name))) (vendor_list d).

Definition rad_dict_find_vendor_id (d : rad_dict_t) (id : Z) : option nat :=
  first_match (vendor_is d (fun v => vd_id v =? id)) (vendor_list d).

Definition rad_dict_find_val_name (da : rad_dict_attr_t) (name : string) : option rad_dict_value_t :=
  first_match (fun v => bool_decide (dval_name v = name)) (da_values da).

(** [val.integer]: the first four bytes, in the order of the host. *)
Definition le32_at (m : list Z) : Z :=
  match m with
  | a :: b :: c :: d :: _ => of_be32 d c b a
  | _ => 0
  end.
Definition v_integer (v : rad_value_t) : option Z :=
  match v with VMem m => Some (s32 (le32_at m)) | _ => None end.

Definition rad_dict_find_val (da : rad_dict_attr_t) (v : rad_value_t) : option rad_dict_value_t :=
  match da_type da with
  | ATTR_TYPE_INTEGER =>
      first_match (fun x => bool_decide (v_integer (dval_val x) = v_integer v)) (da_values da)
  | _ => None
  end.

(** Writing [val.integer] changes the first four bytes. *)
Definition le32 (z : Z) : list Z := rev (be32 (u32 z)).
Definition set_integer (z : Z) (v : rad_value_t) : rad_value_t :=
  match v with
  | VMem m => VMem (le32 z ++ drop 4 m)
  | _ => VBad
  end.

(** ** Loading *)

(** [skip_word], [skip_space] and [split]: the first word of a line and up to four
    arguments.  A newline ends a word but is not skipped as space. *)
Definition is_sep (c : ascii) : bool := (code c =? 32) || (code c =? 9) || (code c =? 10).
Definition is_blank (c : ascii) : bool := (code c =? 32) || (code c =? 9).
Definition skip_word (s : string) : nat := strspn (fun c => negb (is_sep c)) s.
Definition skip_space (s : string) : string := sdrop (strspn is_blank s) s.

Fixpoint split_words (k : nat) (buf : string) : string * list string :=
  let n := skip_word buf in
  match k, sdrop n buf with
  | S k, String _ rest =>
      let next := skip_space rest in
      if bool_decide (next = "") then (stake n buf, [])
      else let '(w, ws) := split_words k next in (stake n buf, w :: ws)
  | _, _ => (stake n buf, [])
  end.

Definition split (buf : string) : string * list string := split_words 4 buf.

(** The list a new attribute is appended to. *)
Inductive list_loc := LItems | LVendor (v : nat) | LTlv (a : nat).

Definition loc_items (d : rad_dict_t) (l : list_loc) : list nat :=
  match l with
  | LItems => d_items d
  | LVendor v => vendor_items d v
  | LTlv a => match d_attrs d !! a with Some da => da_tlv da | None => [] end
  end.

Definition loc_add (l : list_loc) (a : nat) (d : rad_dict_t) : rad_dict_t :=
  match l with
  | LItems => d <| d_items ::= fun t => t ++ [a] |>
  | LVendor v => d <| d_vendors ::= alter (fun vd => vd <| vd_items ::= fun t => t ++ [a] |>) v |>
  | LTlv p => d <| d_attrs ::= alter (fun da => da <| da_tlv ::= fun t => t ++ [a] |>) p |>
  end.

(** The static variables and the locals of [dict_load]. *)
Record load_glob := { g_dict : rad_dict_t; g_path : string }.
Record load_loc := { l_items : option list_loc; l_parent : option list_loc; l_attr : option nat }.

Inductive line_res := Next (g : load_glob) (l : load_loc) | LFail (g : load_glob).

Definition type_of_name (s : string) : option (attr_type * Z) :=
  if bool_decide (s = "integer") then Some (ATTR_TYPE_INTEGER, 4)
  else if bool_decide (s = "short") then Some (ATTR_TYPE_INTEGER, 2)
  else if bool_decide (s = "byte") then Some (ATTR_TYPE_INTEGER, 1)
  else if bool_decide (s = "string") then Some (ATTR_TYPE_STRING, 0)
  else if bool_decide (s = "date") then Some (ATTR_TYPE_DATE, 0)
  else if bool_decide (s = "ipaddr") then Some (ATTR_TYPE_IPADDR, 4)
  else if bool_decide (s = "octets") then Some (ATTR_TYPE_OCTETS, 0)
  else if bool_decide (s = "ifid") then Some (ATTR_TYPE_IFID, 8)
  else if bool_decide (s = "ipv6addr") then Some (ATTR_TYPE_IPV6ADDR, 16)
  else if bool_decide (s = "ipv6prefix") then Some (ATTR_TYPE_IPV6PREFIX, 0)
  else if bool_decide (s = "ether") then Some (ATTR_TYPE_ETHER, 0)
  else if bool_decide (s = "tlv") then Some (ATTR_TYPE_TLV, 0)
  else None.

Definition at_end (s : string) (n : nat) : bool := bool_decide (sdrop n s = "").

(** The [VENDOR] line. *)
Definition load_vendor (args : list string) (g : load_glob) (l : load_loc) : line_res :=
  match args with
  | name :: id :: opt =>
      let '(v, n) := strtol id in
      if negb (at_end id n) then LFail g
      else
        let fmt :=
          match opt with
          | [f] =>
              if negb (bool_decide (stake 7 f = "format=")) then None
              else
                let '(tag, e) := strtoul10 (sdrop 7 f) in
                match sdrop e (sdrop 7 f) with
                | String c r => if code c =? 44 then Some (s32 tag, s32 (strtoul10 r).1) else None
                | EmptyString => None
                end
          | _ => Some (1, 1)
          end in
        match fmt with
        | None => LFail g
        | Some (tag, len) =>
            Next (g <| g_dict ::= fun d => d <| d_vendors ::= fun t =>
              t ++ [{| vd_id := s32 v; vd_tag := tag; vd_len := len; vd_name := name;
                       vd_items := [] |}] |> |>) l
        end
  | _ => LFail g
  end.

(** The [ATTRIBUTE] line: the attribute is linked before its type is looked at. *)
Definition load_attribute (name id ty : string) (opt : list string) (g : load_glob) (l : load_loc) :
    option line_res :=
  match l_items l with
  | None => None
  | Some loc =>
      let a := length (d_attrs (g_dict g)) in
      let array := match opt with x :: _ => bool_decide (x = "array") | [] => false end in
      let add t sz :=
        g <| g_dict ::= fun d => loc_add loc a (d <| d_attrs ::= fun h =>
          h ++ [{| da_name := name; da_id := s32 (strtol id).1; da_type := t; da_array := array;
                   da_size := sz; da_values := []; da_tlv := [] |}] |>) |> in
      match type_of_name ty with
      | Some (t, sz) => Some (Next (add t sz) (l <| l_attr := Some a |>))
      | None => Some (LFail (add ATTR_TYPE_INTEGER 0))
      end
  end.

(** The [VALUE] line. *)
Definition value_of_text (t : attr_type) (s : string) : rad_value_t * bool :=
  match t with
  | ATTR_TYPE_INTEGER =>
      let '(v, s', n) :=
        match s with
        | String z (String x r) =>
            if (code z =? 48) && (code x =? 120) then ((strtol16 r).1, r, (strtol16 r).2)
            else ((strtol s).1, s, (strtol s).2)
        | _ => ((strtol s).1, s, (strtol s).2)
        end in
      (set_integer v value_zero, at_end s' n)
  | ATTR_TYPE_STRING => (VPtr (str_bytes s ++ [0]), true)
  | _ => (value_zero, true)
  end.

Definition load_value (aname vname s : string) (g : load_glob) (l : load_loc) : option line_res :=
  match l_items l with
  | None => None
  | Some loc =>
      match find_attr (g_dict g) (loc_items (g_dict g) loc) aname with
      | None => Some (LFail g)
      | Some a =>
          match d_attrs (g_dict g) !! a with
          | None => None
          | Some da =>
              let '(v, ok) := value_of_text (da_type da) s in
              let g' := g <| g_dict ::= fun d => d <| d_attrs ::= alter (fun da =>
                da <| da_values ::= fun t => t ++ [{| dval_val := v; dval_name := vname |}] |>) a |> |> in
              if ok then Some (Next g' (l <| l_attr := Some a |>)) else Some (LFail g')
          end
      end
  end.

(** [path] cut after its last slash; the first character is not looked at. *)
Fixpoint last_slash (s : string) (i : nat) : option nat :=
  match s with
  | EmptyString => None
  | String c s =>
      match last_slash s (S i) with
      | Some k => Some k
      | None => if (code c =? 47) && negb (i =? 0)%nat then Some i else None
      end
  end.
Definition dir_path (path : string) : string :=
  match last_slash path 0 with Some r => stake (S r) path | None => path end.

Definition PATH_MAX : nat := 4096.

(** [if ( *ptr[r - 1] == '#') r--]; with no argument it reads before the array. *)
Definition drop_comment (args : list string) : option (list string) :=
  match last args with
  | None => None
  | Some a => Some (if starts_with "#" a then removelast args else args)
  end.

Definition load_line (include : string -> load_glob -> option (Z * load_glob))
    (buf : string) (g : load_glob) (l : load_loc) : option line_res :=
  let '(cmd, words) := split buf in
  args ← drop_comment words;
  if bool_decide (cmd = "VENDOR") then Some (load_vendor args g l)
  else if bool_decide (cmd = "BEGIN-VENDOR") then
    match args with
    | [] => Some (LFail g)
    | name :: _ =>
        match rad_dict_find_vendor_name (g_dict g) name with
        | None => Some (LFail g)
        | Some v => Some (Next g (l <| l_items := Some (LVendor v) |>))
        end
    end
  else if bool_decide (cmd = "END-VENDOR") then Some (Next g (l <| l_items := Some LItems |>))
  else if bool_decide (cmd = "$INCLUDE") then
    match args with
    | [] => Some (LFail g)
    | name :: _ =>
        let dir := dir_path (g_path g) in
        let g := g <| g_path := dir |> in
        if (PATH_MAX <=? String.length dir + String.length name)%nat then None
        else
          '(r, g) ← include (dir +:+ name) g;
          Some (if negb (r =? 0) then LFail g else Next g l)
    end
  else if bool_decide (cmd = "BEGIN-TLV") then
    match l_attr l with
    | None => None
    | Some a => Some (Next g (l <| l_parent := l_items l |> <| l_items := Some (LTlv a) |>))
    end
  else if bool_decide (cmd = "END-TLV") then Some (Next g (l <| l_items := l_parent l |>))
  else
    match args with
    | a0 :: a1 :: a2 :: opt =>
        if bool_decide (cmd = "ATTRIBUTE") then load_attribute a0 a1 a2 opt g l
        else if bool_decide (cmd = "VALUE") then load_value a0 a1 a2 g l
        else Some (LFail g)
    | _ => Some (LFail g)
    end.

Definition skip_line (buf : string) : bool :=
  match buf with
  | EmptyString => true
  | String c _ => (code c =? 35) || (code c =? 10)
  end.

Fixpoint load_lines (include : string -> load_glob -> option (Z * load_glob))
    (lines : list string) (g : load_glob) (l : load_loc) : option (Z * load_glob) :=
  match lines with
  | [] => Some (0, g)
  | buf :: lines =>
      if skip_line buf then load_lines include lines g l
      else
        match load_line include buf g l with
        | None => None
        | Some (LFail g) => Some (-1, g)
        | Some (Next g l) => load_lines include lines g l
        end
  end.

(** [depth] bounds the nesting of includes; a file that includes itself exhausts the
    stack, which is [None]. *)
Fixpoint dict_load (fs : string -> option (list string)) (depth : nat) (fname : string)
    (g : load_glob) : option (Z * load_glob) :=
  match depth with
  | O => None
  | S depth =>
      match fs fname with
      | None => Some (-1, g)
      | Some lines =>
          load_lines (dict_load fs depth) lines g
            {| l_items := Some LItems; l_parent := None; l_attr := None |}
      end
  end.

Definition rad_dict_load (fs : string -> option (list string)) (depth : nat) (fname : string)
    (d : option rad_dict_t) : option (Z * rad_dict_t) :=
  '(r, g) ← dict_load fs depth fname {| g_dict := default empty_dict d; g_path := fname |};
  Some (r, g_dict g).

(** ** Well-formed dictionaries *)

(** The size the decoder of packets expects of each type. *)
Definition type_size (t : attr_type) (sz : Z) : Prop :=
  match t with
  | ATTR_TYPE_INTEGER => sz = 4 \/ sz = 2 \/ sz = 1
  | ATTR_TYPE_IPADDR => sz = 4
  | ATTR_TYPE_IFID => sz = 8
  | ATTR_TYPE_IPV6ADDR => sz = 16
  | _ => sz = 0
  end.

(** A value of the dictionary is usable as a value of its attribute. *)
Definition value_typed (t : attr_type) (v : rad_value_t) : Prop :=
  match t with
  | ATTR_TYPE_STRING => exists b, v = VPtr b /\ bytes_ok b
  | _ => exists m, v = VMem m /\ length m = VALUE_SIZE /\ bytes_ok m
  end.

Record attr_wf (n : nat) (da : rad_dict_attr_t) : Prop := {
  wf_size : type_size (da_type da) (da_size da);
  wf_id : is_s32 (da_id da);
  wf_values : Forall (fun v => value_typed (da_type da) (dval_val v)) (da_values da);
  wf_tlv : Forall (fun a => (a < n)%nat) (da_tlv da) }.

Record vendor_wf (n : nat) (v : rad_dict_vendor_t) : Prop := {
  wf_vid : is_s32 (vd_id v);
  wf_tag : is_s32 (vd_tag v);
  wf_len : is_s32 (vd_len v);
  wf_vitems : Forall (fun a => (a < n)%nat) (vd_items v) }.

Record dict_wf (d : rad_dict_t) : Prop := {
  wf_attrs : Forall (attr_wf (length (d_attrs d))) (d_attrs d);
  wf_items : Forall (fun a => (a < length (d_attrs d))%nat) (d_items d);
  wf_vendors : Forall (vendor_wf (length (d_attrs d))) (d_vendors d) }.

Lemma attr_wf_mono n n' da : (n <= n')%nat -> attr_wf n da -> attr_wf n' da.
Proof.
  intros Hn [Hs Hi Hv Ht]. split; [done..|].
  eapply List.Forall_impl; [|exact Ht]. cbn. lia.
Qed.

Lemma vendor_wf_mono n n' v : (n <= n')%nat -> vendor_wf n v -> vendor_wf n' v.
Proof.
  intros Hn [Hs Hi Hv Ht]. split; [done..|].
  eapply List.Forall_impl; [|exact Ht]. cbn. lia.
Qed.

Lemma empty_dict_wf : dict_wf empty_dict.
Proof. split; constructor. Qed.

Lemma Forall_alter_same {A} (P : A -> Prop) f i (l : list A) :
  (forall x, l !! i = Some x -> P x -> P (f x)) -> Forall P l -> Forall P (alter f i l).
Proof. intros Hf Hl. apply Forall_alter; [done|]. intros x Hx HP. by apply Hf. Qed.

Lemma push_attr_wf d da :
  dict_wf d -> attr_wf (S (length (d_attrs d))) da ->
  dict_wf (d <| d_attrs ::= fun h => h ++ [da] |>).
Proof.
  destruct d as [h it vs]. intros [Ha Hi Hv] Hda. cbn in *.
  split; cbn; rewrite length_app; cbn; rewrite Nat.add_1_r.
  - apply Forall_app; split; [|by constructor].
    eapply List.Forall_impl; [|exact Ha]. intros x Hx. refine (attr_wf_mono _ _ _ _ Hx). lia.
  - eapply List.Forall_impl; [|exact Hi]. cbn. lia.
  - eapply List.Forall_impl; [|exact Hv]. intros x Hx. refine (vendor_wf_mono _ _ _ _ Hx). lia.
Qed.

Lemma loc_add_wf l a d :
  dict_wf d -> (a < length (d_attrs d))%nat -> dict_wf (loc_add l a d).
Proof.
  destruct d as [h it vs]. intros [Ha Hi Hv] Hlt. cbn in *. destruct l as [|v|p]; split; cbn; rewrite ?length_alter; try done.
  - apply Forall_app; auto.
  - apply Forall_alter_same; [|done]. intros [] _ [? ? ? ?]. split; cbn in *; [done..|].
    apply Forall_app; auto.
  - apply Forall_alter_same; [|done]. intros [] _ [? ? ? ?]. split; cbn in *; [done..|].
    apply Forall_app; auto.
Qed.

Lemma add_value_wf d a da v :
  dict_wf d -> d_attrs d !! a = Some da -> value_typed (da_type da) (dval_val v) ->
  dict_wf (d <| d_attrs ::= alter (fun da => da <| da_values ::= fun t => t ++ [v] |>) a |>).
Proof.
  destruct d as [h it vs]. intros [Ha Hi Hv] Hda Hval. cbn in *. split; cbn; rewrite ?length_alter; try done.
  apply Forall_alter_same; [|done]. intros x Hx [? ? ? ?].
  rewrite Hda in Hx. injection Hx as <-. destruct da. split; cbn in *; [done..| |done].
  apply Forall_app; auto.
Qed.

Lemma push_vendor_wf d v :
  dict_wf d -> vendor_wf (length (d_attrs d)) v -> dict_wf (d <| d_vendors ::= fun t => t ++ [v] |>).
Proof. destruct d as [h it vs]. intros [Ha Hi Hv] Hv'. cbn in *. split; cbn; try done. apply Forall_app; auto. Qed.

Lemma le32_ok z : bytes_ok (le32 z).
Proof. apply Forall_rev, be32_ok. Qed.

Lemma zeros_ok n : bytes_ok (replicate n 0).
Proof. apply Forall_replicate. width_lia. Qed.

Lemma value_of_text_typed t s v :
  value_of_text t s = (v, true) -> value_typed t v.
Proof.
  assert (exists m, value_zero = VMem m /\ length m = VALUE_SIZE /\ bytes_ok m) as Hz.
  { eexists. split; [done|]. split; [done|]. apply zeros_ok. }
  assert (forall z, exists m, set_integer z value_zero = VMem m /\ length m = VALUE_SIZE /\ bytes_ok m)
    as Hi.
  { intros z. eexists. split; [done|]. split; [done|]. apply Forall_app. split; [apply le32_ok|].
    apply (zeros_ok 20). }
  destruct t; cbn; try (intros [= <-]; exact Hz).
  - intros E. case_match. case_match. injection E as <- _. apply Hi.
  - intros [= <-]. eexists. split; [done|]. apply Forall_app. split; [apply str_bytes_ok|].
    apply (zeros_ok 1).
Qed.

Lemma type_of_name_size s t sz : type_of_name s = Some (t, sz) -> type_size t sz.
Proof.
  unfold type_of_name. intros H.
  repeat match type of H with (if ?b then _ else _) = _ => destruct b end;
    simplify_eq; cbn; auto.
Qed.

(** A line that does not fail keeps the dictionary well formed. *)
Definition next_wf (r : option line_res) : Prop :=
  forall g l, r = Some (Next g l) -> dict_wf (g_dict g).

Lemma load_vendor_wf args g l : dict_wf (g_dict g) -> next_wf (Some (load_vendor args g l)).
Proof.
  intros Hd g' l' E. unfold load_vendor in E.
  destruct args as [|name [|id opt]]; [done..|]. destruct (strtol id) as [v n].
  destruct (negb _); [done|].
  match type of E with context [match ?f with None => _ | Some _ => _ end] =>
    assert (forall tag len, f = Some (tag, len) -> is_s32 tag /\ is_s32 len) as Hf; [|destruct f as [[tag len]|]]
  end; [| |done].
  - intros tag len Hf. destruct opt as [|f [|? ?]]; [simplify_eq; split; width_lia| |simplify_eq; split; width_lia].
    destruct (negb _); [done|]. destruct (strtoul10 _) as [z e].
    destruct (sdrop e _) as [|c r]; [done|]. destruct (code c =? 44); [|done].
    injection Hf as <- <-. split; apply s32_range.
  - destruct (Hf tag len eq_refl). injection E as <- <-. destruct g as [d p]. cbn in *.
    apply (push_vendor_wf d); [done|]. split; cbn; auto with bng.
Qed.

Lemma load_attribute_wf name id ty opt g l :
  dict_wf (g_dict g) -> next_wf (load_attribute name id ty opt g l).
Proof.
  intros Hd g' l' E. unfold load_attribute in E. destruct (l_items l) as [loc|]; [|done].
  destruct (type_of_name ty) as [[t sz]|] eqn:Ht; [|done].
  injection E as <- <-. destruct g as [d p]. cbn in *.
  assert (forall da, attr_wf (S (length (d_attrs d))) da ->
    dict_wf (loc_add loc (length (d_attrs d)) (d <| d_attrs ::= fun h => h ++ [da] |>))) as H.
  { intros da Hda. apply loc_add_wf; [by apply push_attr_wf|]. destruct d; cbn. rewrite length_app. cbn. lia. }
  apply H. split; cbn; [by eapply type_of_name_size|apply s32_range|constructor..].
Qed.

Lemma load_value_wf aname vname s g l :
  dict_wf (g_dict g) -> next_wf (load_value aname vname s g l).
Proof.
  intros Hd g' l' E. unfold load_value in E. destruct (l_items l) as [loc|]; [|done].
  destruct (find_attr _ _ _) as [a|]; [|done].
  destruct (d_attrs (g_dict g) !! a) as [da|] eqn:Hda; [|done].
  destruct (value_of_text (da_type da) s) as [v []] eqn:Hv; [|done].
  injection E as <- <-. destruct g as [d p]. cbn in *.
  apply (add_value_wf d a da); [done..|]. by apply value_of_text_typed in Hv.
Qed.

Lemma load_line_wf include buf g l :
  (forall f g g', dict_wf (g_dict g) -> include f g = Some (0, g') -> dict_wf (g_dict g')) ->
  dict_wf (g_dict g) -> next_wf (load_line include buf g l).
Proof.
  intros Hinc Hd g' l'. unfold load_line. destruct (split buf) as [cmd words].
  destruct (drop_comment words) as [args|]; [|done]. cbn [mbind option_bind].
  repeat match goal with |- (if bool_decide (cmd = ?c) then _ else _) = _ -> _ =>
    destruct (bool_decide (cmd = c)) end.
  - by apply load_vendor_wf.
  - intros E. repeat case_match; by simplify_eq.
  - intros E. by simplify_eq.
  - intros E. destruct args as [|name rest]; [done|]. destruct (_ <=? _)%nat; [done|].
    destruct (include _ _) as [[r g1]|] eqn:Hi; [|done]. cbn in E.
    destruct (r =? 0) eqn:Hr; [|done]. to_prop. subst r.
    injection E as <- <-. eapply Hinc; [|exact Hi]. by destruct g.
  - intros E. repeat case_match; by simplify_eq.
  - intros E. by simplify_eq.
  - destruct args as [|a0 [|a1 [|a2 opt]]]; [done..|].
    repeat case_bool_decide; [by apply load_attribute_wf|by apply load_value_wf|done].
Qed.

Lemma load_lines_wf include lines g l g' :
  (forall f g g', dict_wf (g_dict g) -> include f g = Some (0, g') -> dict_wf (g_dict g')) ->
  dict_wf (g_dict g) -> load_lines include lines g l = Some (0, g') -> dict_wf (g_dict g').
Proof.
  intros Hinc. revert g l. induction lines as [|buf lines IH]; cbn; intros g l Hd E.
  { by injection E as <-. }
  destruct (skip_line buf); [by apply (IH g l)|].
  destruct (load_line include buf g l) as [[g1 l1|g1]|] eqn:Hl; [|done..].
  apply (IH g1 l1); [|done]. eapply load_line_wf; [exact Hinc|exact Hd|exact Hl].
Qed.

Lemma dict_load_wf fs depth fname g g' :
  dict_wf (g_dict g) -> dict_load fs depth fname g = Some (0, g') -> dict_wf (g_dict g').
Proof.
  revert fname g g'. induction depth as [|depth IH]; intros fname g g' Hd E; [done|]. cbn in E.
  destruct (fs fname) as [lines|]; [|done].
  by eapply load_lines_wf; [|exact Hd|exact E].
Qed.

Lemma rad_dict_load_wf fs depth fname d :
  rad_dict_load fs depth fname None = Some (0, d) -> dict_wf d.
Proof.
  unfold rad_dict_load. intros E.
  destruct (dict_load _ _ _ _) as [[r g]|] eqn:Hl; [|done]. cbn in E. injection E as -> <-.
  eapply dict_load_wf; [|exact Hl]. apply empty_dict_wf.
Qed.

(** ** Lookups return entries of the list they search *)

Lemma first_match_Some {A} (p : A -> bool) l x :
  first_match p l = Some x -> x ∈ l /\ p x = true.
Proof.
  induction l as [|y l IH]; cbn; [done|]. destruct (p y) eqn:Hp.
  - intros [= <-]. split; [constructor|done].
  - intros H. destruct (IH H). split; [by constructor|done].
Qed.

Lemma first_match_None {A} (p : A -> bool) l :
  first_match p l = None -> forall x, x ∈ l -> p x = false.
Proof.
  induction l as [|y l IH]; cbn; intros H x Hx; [by apply not_elem_of_nil in Hx|].
  destruct (p y) eqn:Hp; [done|]. apply elem_of_cons in Hx as [->|Hx]; auto.
Qed.

(** The first entry of a list that satisfies the test. *)
Lemma first_match_app {A} (p : A -> bool) l1 x l2 :
  (forall y, y ∈ l1 -> p y = false) -> p x = true -> first_match p (l1 ++ x :: l2) = Some x.
Proof.
  induction l1 as [|y l1 IH]; cbn; intros Hl Hx; [by rewrite Hx|].
  rewrite (Hl y) by constructor. apply IH; [|done]. intros z Hz. apply Hl. by constructor.
Qed.

Lemma attr_is_true d p a : attr_is d p a = true -> exists da, d_attrs d !! a = Some da /\ p da = true.
Proof. unfold attr_is. destruct (d_attrs d !! a) as [da|]; [|done]. eauto. Qed.

Lemma find_attr_id_Some d vendor id a :
  rad_dict_find_attr_id d vendor id = Some a ->
  exists da, d_attrs d !! a = Some da /\ da_id da = id.
Proof.
  intros H. apply first_match_Some in H as [_ H]. apply attr_is_true in H as (da & Hda & Hid).
  to_prop. eauto.
Qed.

Lemma find_attr_Some d items name a :
  find_attr d items name = Some a -> exists da, d_attrs d !! a = Some da /\ da_name da = name.
Proof.
  intros H. apply first_match_Some in H as [_ H]. apply attr_is_true in H as (da & Hda & Hn).
  apply bool_decide_eq_true in Hn. eauto.
Qed.

Lemma find_vendor_Some d p v :
  first_match (vendor_is d p) (vendor_list d) = Some v ->
  exists vd, d_vendors d !! v = Some vd /\ p vd = true.
Proof.
  intros H. apply first_match_Some in H as [_ H]. unfold vendor_is in H.
  destruct (d_vendors d !! v) as [vd|] eqn:Hv; [|done]. eauto.
Qed.

Lemma dict_attr_wf d a da : dict_wf d -> d_attrs d !! a = Some da -> attr_wf (length (d_attrs d)) da.
Proof. intros Hd Ha. exact (proj1 (List.Forall_forall _ _) (wf_attrs d Hd) da (proj1 (list_elem_of_In _ _) (list_elem_of_lookup_2 _ _ _ Ha))). Qed.

Lemma dict_vendor_wf d v vd : dict_wf d -> d_vendors d !! v = Some vd -> vendor_wf (length (d_attrs d)) vd.
Proof. intros Hd Ha. exact (proj1 (List.Forall_forall _ _) (wf_vendors d Hd) vd (proj1 (list_elem_of_In _ _) (list_elem_of_lookup_2 _ _ _ Ha))). Qed.

(** C39: A dictionary that [rad_dict_load] reads without an error is well typed, whatever
    the files contain and however deep the includes nest: every attribute in it has the
    size that its type asks for, its named values have the form of its type, every
    address stored in a list is that of an attribute, and whatever attribute a packet's
    type byte is looked up to is one of them. *)
Theorem loaded_dict_typed fs depth fname d :
  rad_dict_load fs depth fname None = Some (0, d) ->
  dict_wf d /\
  forall vendor id a, rad_dict_find_attr_id d vendor id = Some a ->
    exists da, d_attrs d !! a = Some da /\ da_id da = id /\ type_size (da_type da) (da_size da).
Proof.
  intros E. pose proof (rad_dict_load_wf _ _ _ _ E) as Hd. split; [done|]. intros vendor id a Ha. apply find_attr_id_Some in Ha as (da & Hda & Hid).
  exists da. split; [done|]. split; [done|]. by eapply wf_size, dict_attr_wf.
Qed.

(** A small dictionary in two files. *)
Module DictDemo.
Definition line (s : string) : string := s +:+ String "010" "".

Definition files (fname : string) : option (list string) :=
  if bool_decide (fname = "/d/dictionary") then
    Some [line "# base attributes"; line "ATTRIBUTE	User-Name	1	string";
          line "ATTRIBUTE	NAS-Port	5	integer"; line "ATTRIBUTE	Framed-IP-Address	8	ipaddr";
          line "ATTRIBUTE	Reply-Message	18	string"; line "ATTRIBUTE	Class	25	octets";
          line "ATTRIBUTE	Session-Timeout	27	integer"; line "ATTRIBUTE	Calling-Station-Id	31	string";
          line "ATTRIBUTE	Framed-Interface-Id	96	ifid"; line "ATTRIBUTE	Framed-IPv6-Prefix	97	ipv6prefix";
          line "ATTRIBUTE	Error-Cause	101	integer"; line "ATTRIBUTE	Acct-Session-Id	44	string";
          line "$INCLUDE dictionary.demo"]
  else if bool_decide (fname = "/d/dictionary.demo") then
    Some [line "VENDOR	Demo	311"; line "BEGIN-VENDOR	Demo";
          line "ATTRIBUTE	Demo-Policy	7	integer # policy"; line "VALUE	Demo-Policy	On	0x10";
          line "ATTRIBUTE	Demo-Text	8	string"; line "END-VENDOR	Demo"]
  else None.

Definition dict : rad_dict_t :=
  Eval vm_compute in
    match rad_dict_load files 2 "/d/dictionary" None with Some (_, d) => d | None => empty_dict end.

Lemma dict_loaded : rad_dict_load files 2 "/d/dictionary" None = Some (0, dict).
Proof. vm_compute. reflexivity. Qed.

Lemma dict_ok : dict_wf dict.
Proof. exact (rad_dict_load_wf _ _ _ _ dict_loaded). Qed.

Lemma loaded_dict_typed_witness :
  rad_dict_load files 2 "/d/dictionary" None = Some (0, dict) /\
  rad_dict_find_attr_id dict (Some 0%nat) 7 = Some 11%nat /\
  dict_wf dict /\ exists da, d_attrs dict !! 11%nat = Some da /\ da_id da = 7 /\
    type_size (da_type da) (da_size da).
Proof.
  split; [exact dict_loaded|]. split; [reflexivity|].
  destruct (loaded_dict_typed files 2 "/d/dictionary" dict dict_loaded) as [Hd Hf].
  split; [exact Hd|]. apply (Hf (Some 0%nat) 7 11%nat). reflexivity.
Defined.
End DictDemo.
