(* ===== verification/RadPacket.v ===== *)
(** RADIUS packets: radius/packet.c.

    [rad_packet_t] and [rad_attr_t] are the structures of radius/radius.h; an attribute
    points to its dictionary entry and to its vendor by their addresses in the
    dictionary.  The packet buffer is the list of its [REQ_LENGTH_MAX] bytes, a read or
    write outside it is the result [None] ([Crashed] in the receiver), as is the use of
    a union member that was not the one written.  The allocators are the record
    [rad_mem]: each says whether the allocation succeeds.

    Modules: [RadBuild] (assembling and serialising a packet), [RadRecv] (parsing a
    datagram).  The theorems are in RadProps. *)

From stdpp Require Import base tactics list numbers option strings.
From Stdlib Require Import ZArith Lia Ascii.
From S2P Require Import Prelude CLib Bytes RadDict.

Open Scope Z_scope.

Definition REQ_LENGTH_MAX : Z := 4096.

(** Where [raw] points: into the packet buffer, to the union itself, or to the block
    the union points to. *)
Inductive raw_ptr := RawBuf (off : Z) | RawVal | RawBlock.

(** The value of an attribute: the union, or a pointer into the packet buffer. *)
Inductive attr_val := AVal (v : rad_value_t) | ABuf (off : Z).

Record rad_attr_t := {
  ra_attr : nat;
  ra_vendor : option nat;
  ra_len : Z;
  ra_alloc : bool;
  ra_raw : raw_ptr;
  ra_val : attr_val }.

Record rad_packet_t := {
  p_code : Z;
  p_id : Z;
  p_len : Z;
  p_attrs : list rad_attr_t;
  p_buf : option (list Z) }.

Record rad_mem := {
  mem_pack : bool;
  mem_attr : bool;
  mem_malloc : bool;
  mem_buf : option (list Z) }.

Definition rad_packet_alloc (mem : rad_mem) (code : Z) : option rad_packet_t :=
  if mem_pack mem then
    Some {| p_code := code; p_id := 1; p_len := 20; p_attrs := []; p_buf := None |}
  else None.

(** ** Memory *)

(** The scalar members of the union. *)
Definition v_mem (v : attr_val) : option (list Z) :=
  match v with AVal (VMem m) => Some m | _ => None end.

(** The [n] bytes a pointer member points to; a null pointer may be given to [memcpy]
    with length 0. *)
Definition v_bytes (v : attr_val) (n : Z) : option (list Z) :=
  match v with
  | AVal (VPtr b) => slice b 0 n
  | AVal (VMem m) => if bool_decide (take 8 m = replicate 8 0) && (n =? 0) then Some [] else None
  | _ => None
  end.

Module RadBuild.

(** ** Assembling a packet *)

Definition hdr_size (vendor_name : option string) : Z :=
  match vendor_name with Some _ => 8 | None => 2 end.

(** The vendor and attribute look-ups every [rad_packet_add_*] starts with. *)
Definition resolve (d : rad_dict_t) (vendor_name : option string) (name : string) :
    option (option nat * nat) :=
  match vendor_name with
  | Some vn =>
      v ← rad_dict_find_vendor_name d vn;
      a ← rad_dict_find_vendor_attr d v name;
      Some (Some v, a)
  | None => a ← rad_dict_find_attr d name; Some (None, a)
  end.

(** [list_add_tail] of a new attribute of [n] bytes and the new packet length. *)
Definition push_attr (vendor_name : option string) (ra : rad_attr_t) (pack : rad_packet_t) :
    rad_packet_t :=
  pack <| p_attrs ::= fun l => l ++ [ra] |> <| p_len ::= Z.add (hdr_size vendor_name + ra_len ra) |>.

(** The functions that store a scalar of [n] bytes in the union. *)
Definition add_scalar (mem : rad_mem) (d : rad_dict_t) (vendor_name : option string) (name : string)
    (n : Z) (v : rad_dict_attr_t -> option rad_value_t) (pack : rad_packet_t) :
    option (Z * rad_packet_t) :=
  if REQ_LENGTH_MAX <=? p_len pack + hdr_size vendor_name + n then Some (-1, pack)
  else
    match resolve d vendor_name name with
    | None => Some (-1, pack)
    | Some (vendor, a) =>
        match d_attrs d !! a with
        | None => None
        | Some da =>
            match v da with
            | None => Some (-1, pack)
            | Some v =>
                if mem_attr mem then
                  Some (0, push_attr vendor_name
                    {| ra_attr := a; ra_vendor := vendor; ra_len := n; ra_alloc := false;
                       ra_raw := RawVal; ra_val := AVal v |} pack)
                else Some (-1, pack)
            end
        end
    end.

Definition rad_packet_add_int mem d vendor_name name (val : Z) pack :=
  add_scalar mem d vendor_name name 4 (fun _ => Some (set_integer val value_zero)) pack.

Definition rad_packet_add_val mem d vendor_name name (val : string) pack :=
  add_scalar mem d vendor_name name 4
    (fun da => dval_val <$> rad_dict_find_val_name da val) pack.

Definition rad_packet_add_ipaddr mem d vendor_name name (ipaddr : Z) pack :=
  rad_packet_add_int mem d vendor_name name ipaddr pack.

Definition le64 (z : Z) : list Z := le32 z ++ le32 (Z.shiftr z 32).

Definition rad_packet_add_ifid mem d vendor_name name (ifid : Z) pack :=
  add_scalar mem d vendor_name name 8
    (fun _ => Some (VMem (le64 ifid ++ replicate 16 0))) pack.

(** [val.ipv6prefix]: the prefix at offset 0, its length at offset 16. *)
Definition v_prefix (prefix : list Z) (plen : Z) : rad_value_t :=
  VMem (prefix ++ [u8 plen] ++ replicate 7 0).

Definition rad_packet_add_ipv6prefix mem d vendor_name name (prefix : list Z) (plen : Z) pack :=
  add_scalar mem d vendor_name name 18 (fun _ => Some (v_prefix prefix plen)) pack.

(** The functions that copy a block: [_free] of the pool's attribute when [_malloc]
    fails is an invalid free. *)
Definition add_block (mem : rad_mem) (d : rad_dict_t) (vendor_name : option string) (name : string)
    (n : Z) (v : rad_value_t) (alloc : bool) (pack : rad_packet_t) : option (Z * rad_packet_t) :=
  if REQ_LENGTH_MAX <=? p_len pack + hdr_size vendor_name + n then Some (-1, pack)
  else
    match resolve d vendor_name name with
    | None => Some (-1, pack)
    | Some (vendor, a) =>
        if negb (mem_attr mem) then Some (-1, pack)
        else if alloc && negb (mem_malloc mem) then None
        else
          Some (0, push_attr vendor_name
            {| ra_attr := a; ra_vendor := vendor; ra_len := n; ra_alloc := alloc;
               ra_raw := RawBlock; ra_val := AVal v |} pack)
    end.

Definition rad_packet_add_octets mem d vendor_name name (val : list Z) pack :=
  add_block mem d vendor_name name (len val)
    (if len val =? 0 then value_zero else VPtr val) (negb (len val =? 0)) pack.

Definition rad_packet_add_str mem d vendor_name name (val : string) pack :=
  add_block mem d vendor_name name (len (str_bytes val)) (VPtr (str_bytes val ++ [0])) true pack.

(** ** Looking up and changing attributes *)

Fixpoint find_pos (d : rad_dict_t) (vendor : option nat) (name : string) (l : list rad_attr_t)
    (i : nat) : option nat :=
  match l with
  | [] => None
  | ra :: l =>
      if bool_decide (is_Some vendor /\ vendor <> ra_vendor ra) then find_pos d vendor name l (S i)
      else if attr_is d (fun da => bool_decide (da_name da = name)) (ra_attr ra) then Some i
      else find_pos d vendor name l (S i)
  end.

(** The position of the attribute in the packet's list. *)
Definition rad_packet_find_attr (d : rad_dict_t) (pack : rad_packet_t)
    (vendor_name : option string) (name : string) : option nat :=
  match vendor_name with
  | Some vn =>
      match rad_dict_find_vendor_name d vn with
      | None => None
      | Some v => find_pos d (Some v) name (p_attrs pack) 0
      end
  | None => find_pos d None name (p_attrs pack) 0
  end.

Definition put_attr (i : nat) (ra : rad_attr_t) (pack : rad_packet_t) : rad_packet_t :=
  pack <| p_attrs ::= <[i := ra]> |>.

Definition with_attr (d : rad_dict_t) (pack : rad_packet_t) (vendor_name : option string)
    (name : string) (k : nat -> rad_attr_t -> option (Z * rad_packet_t)) : option (Z * rad_packet_t) :=
  match rad_packet_find_attr d pack vendor_name name with
  | None => Some (-1, pack)
  | Some i => match p_attrs pack !! i with Some ra => k i ra | None => None end
  end.

Definition rad_packet_change_int d vendor_name name (val : Z) pack :=
  with_attr d pack vendor_name name (fun i ra =>
    match ra_val ra with
    | AVal v => Some (0, put_attr i (ra <| ra_val := AVal (set_integer val v) |>) pack)
    | ABuf _ => Some (0, put_attr i (ra <| ra_val := AVal VBad |>) pack)
    end).

Definition rad_packet_change_val d vendor_name name (val : string) pack :=
  with_attr d pack vendor_name name (fun i ra =>
    match d_attrs d !! ra_attr ra with
    | None => None
    | Some da =>
        match rad_dict_find_val_name da val with
        | None => Some (-1, pack)
        | Some v => Some (0, put_attr i (ra <| ra_val := AVal (dval_val v) |>) pack)
        end
    end).

(** [_realloc] of the value's block to [n] bytes: [None] when the pointer was not
    returned by an allocation, else the new value; the old block is lost on failure. *)
Definition value_realloc (mem : rad_mem) (v : attr_val) (n : Z) : option rad_value_t :=
  let fresh := if (n =? 0) || negb (mem_malloc mem) then value_zero else VPtr (replicate (Z.to_nat n) 0) in
  match v with
  | AVal (VPtr b) => Some fresh
  | AVal (VMem m) => if bool_decide (take 8 m = replicate 8 0) then Some fresh else None
  | _ => None
  end.

(** [memcpy] into the value's block, at its start. *)
Definition value_fill (i : nat) (ra : rad_attr_t) (bs : list Z) (pack : rad_packet_t) :
    option rad_packet_t :=
  match ra_val ra with
  | AVal (VPtr b) =>
      b' ← poke b 0 bs; Some (put_attr i (ra <| ra_val := AVal (VPtr b') |>) pack)
  | ABuf off =>
      buf ← p_buf pack; buf' ← poke buf off bs; Some (pack <| p_buf := Some buf' |>)
  | AVal _ => None
  end.

(** The body the two functions share: [room] is the size of the block, [bs] what is
    copied into it. *)
Definition change_block (mem : rad_mem) (n room : Z) (bs : list Z) (pack : rad_packet_t)
    (i : nat) (ra : rad_attr_t) : option (Z * rad_packet_t) :=
  if ra_len ra =? n then
    if len bs =? 0 then Some (0, pack)
    else pack ← value_fill i ra bs pack; Some (0, pack)
  else if REQ_LENGTH_MAX <=? p_len pack - ra_len ra + n then Some (-1, pack)
  else
    v ← value_realloc mem (ra_val ra) room;
    if negb (room =? 0) && negb (mem_malloc mem) then
      Some (-1, put_attr i (ra <| ra_val := AVal v |>) pack)
    else
      let ra' := ra <| ra_val := AVal v |> <| ra_raw := RawBlock |> <| ra_len := n |> in
      let pack := put_attr i ra' pack <| p_len ::= Z.add (n - ra_len ra) |> in
      if len bs =? 0 then Some (0, pack)
      else pack ← value_fill i ra' bs pack; Some (0, pack).

Definition rad_packet_change_octets mem d vendor_name name (val : list Z) pack :=
  with_attr d pack vendor_name name (change_block mem (len val) (len val) val pack).

Definition rad_packet_change_str mem d vendor_name name (val : list Z) pack :=
  with_attr d pack vendor_name name (change_block mem (len val) (len val + 1) (val ++ [0]) pack).

(** ** Serialising *)

(** What [rad_packet_build] stores at [ptr] for an attribute: the bytes, or an
    attribute type it cannot store ([inl]). *)
Definition attr_body (da : rad_dict_attr_t) (ra : rad_attr_t) : option (unit + list Z) :=
  match da_type da with
  | ATTR_TYPE_INTEGER | ATTR_TYPE_DATE =>
      m ← v_mem (ra_val ra); Some (inr (be32 (u32 (le32_at m))))
  | ATTR_TYPE_OCTETS | ATTR_TYPE_STRING => b ← v_bytes (ra_val ra) (ra_len ra); Some (inr b)
  | ATTR_TYPE_IPADDR | ATTR_TYPE_IFID | ATTR_TYPE_IPV6ADDR =>
      m ← v_mem (ra_val ra); b ← slice m 0 (ra_len ra); Some (inr b)
  | ATTR_TYPE_IPV6PREFIX =>
      m ← v_mem (ra_val ra); l ← peek m 16; b ← slice m 0 16; Some (inr ([0; l] ++ b))
  | ATTR_TYPE_ETHER | ATTR_TYPE_TLV => Some (inl tt)
  end.

Definition attr_head (d : rad_dict_t) (da : rad_dict_attr_t) (ra : rad_attr_t) : option (list Z) :=
  match ra_vendor ra with
  | Some v =>
      vd ← d_vendors d !! v;
      Some ([26; u8 (ra_len ra + 2 + 6)] ++ be32 (u32 (vd_id vd)) ++ [u8 (da_id da); u8 (ra_len ra + 2)])
  | None => Some [u8 (da_id da); u8 (ra_len ra + 2)]
  end.

(** The loop over the attributes: [Some (r, buf)]. *)
Fixpoint build_attrs (d : rad_dict_t) (l : list rad_attr_t) (ptr : Z) (buf : list Z) :
    option (Z * list Z) :=
  match l with
  | [] => Some (0, buf)
  | ra :: l =>
      da ← d_attrs d !! ra_attr ra;
      h ← attr_head d da ra;
      buf ← poke buf ptr h;
      body ← attr_body da ra;
      match body with
      | inl _ => Some (-1, buf)
      | inr b =>
          buf ← poke buf (ptr + len h) b;
          build_attrs d l (ptr + len h + ra_len ra) buf
      end
  end.

Definition pack_head (pack : rad_packet_t) (RA : list Z) : list Z :=
  [u8 (p_code pack); u8 (p_id pack)] ++ be16 (u16 (p_len pack)) ++ take 16 RA.

Definition rad_packet_build (mem : rad_mem) (d : rad_dict_t) (pack : rad_packet_t) (RA : list Z) :
    option (Z * rad_packet_t) :=
  match (match p_buf pack with Some b => Some b | None => mem_buf mem end) with
  | None => Some (-1, pack)
  | Some buf =>
      buf ← poke buf 0 (pack_head pack RA);
      '(r, buf) ← build_attrs d (p_attrs pack) 20 buf;
      Some (r, pack <| p_buf := Some buf |>)
  end.

(** [rad_packet_send]: the bytes given to [sendto]. *)
Definition rad_packet_send (pack : rad_packet_t) : option (list Z) :=
  buf ← p_buf pack; slice buf 0 (p_len pack).

End RadBuild.

Module RadRecv.

(** ** Parsing a datagram *)

Inductive recv_res :=
  | Accepted (attrs : list rad_attr_t)
  | Dropped
  | Crashed
  | Looping.

(** The header of a vendor attribute, when the vendor is known: [inl] is [goto out_err],
    else the new [ptr], [n], [id] and [len]. *)
Definition vendor_head (vd : rad_dict_vendor_t) (buf : list Z) (ptr n : Z) :
    option (unit + Z * Z * Z * Z) :=
  let ptr := ptr + 4 in
  id ← (if vd_tag vd =? 2 then peek16 buf ptr else peek buf ptr);
  let ptr := ptr + vd_tag vd in
  l ← (if vd_len vd =? 2 then peek16 buf ptr else peek buf ptr);
  let ptr := ptr + vd_len vd in
  let len := l - (vd_tag vd + vd_len vd) in
  let n := n - (4 + vd_tag vd + vd_len vd) in
  if len <? 0 then Some (inl tt)
  else if n <? 2 + len then Some (inl tt)
  else Some (inr (ptr, n, id, len)).

(** [memcpy(&attr->val, ptr, len)] into the cleared union. *)
Definition val_copy (buf : list Z) (ptr len : Z) : option rad_value_t :=
  if Z.of_nat VALUE_SIZE <? len then None
  else b ← slice buf ptr len; Some (VMem (b ++ replicate (VALUE_SIZE - length b) 0)).

Definition recv_int (buf : list Z) (ptr len : Z) : option attr_val :=
  if len =? 4 then v ← peek32 buf ptr; Some (AVal (set_integer (s32 v) value_zero))
  else if len =? 2 then v ← peek16 buf ptr; Some (AVal (set_integer v value_zero))
  else if len =? 1 then v ← peek buf ptr; Some (AVal (set_integer v value_zero))
  else Some (AVal value_zero).

(** The value of an attribute and whether it owns a block. *)
Definition recv_value (mem : rad_mem) (da : rad_dict_attr_t) (buf : list Z) (ptr len : Z) :
    option (attr_val * bool) :=
  if da_array da then Some (AVal value_zero, false)
  else
    match da_type da with
    | ATTR_TYPE_STRING =>
        if mem_malloc mem then b ← slice buf ptr len; Some (AVal (VPtr (b ++ [0])), true) else None
    | ATTR_TYPE_OCTETS | ATTR_TYPE_ETHER | ATTR_TYPE_TLV => Some (ABuf ptr, false)
    | ATTR_TYPE_INTEGER | ATTR_TYPE_DATE => v ← recv_int buf ptr len; Some (v, false)
    | ATTR_TYPE_IPADDR | ATTR_TYPE_IFID | ATTR_TYPE_IPV6ADDR =>
        if len =? da_size da then v ← val_copy buf ptr len; Some (AVal v, false)
        else Some (AVal value_zero, false)
    | ATTR_TYPE_IPV6PREFIX =>
        if (len <? 2) || (18 <? len) then Some (AVal value_zero, false)
        else
          pl ← peek buf (ptr + 1);
          if 128 <? pl then Some (AVal value_zero, false)
          else
            b ← slice buf (ptr + 2) (len - 2);
            Some (AVal (RadBuild.v_prefix (b ++ replicate (16 - length b) 0) pl), false)
    end.

(** The end of the loop body: the attribute is looked up, stored when it is known, and
    skipped. *)
Definition recv_store (mem : rad_mem) (d : rad_dict_t) (buf : list Z) (vendor : option nat)
    (id ptr len : Z) (attrs : list rad_attr_t) : option (unit + list rad_attr_t) :=
  match rad_dict_find_attr_id d vendor id with
  | None => Some (inr attrs)
  | Some a =>
      if negb (mem_attr mem) then Some (inl tt)
      else
        da ← d_attrs d !! a;
        '(v, alloc) ← recv_value mem da buf ptr len;
        Some (inr (attrs ++ [{| ra_attr := a; ra_vendor := vendor; ra_len := len;
          ra_alloc := alloc; ra_raw := RawBuf ptr; ra_val := v |}]))
  end.

(** One turn of the loop: [inl] is [goto out_err], else the new [ptr], [n] and list. *)
Definition recv_one (mem : rad_mem) (d : rad_dict_t) (buf : list Z) (ptr n : Z)
    (attrs : list rad_attr_t) : option (unit + Z * Z * list rad_attr_t) :=
  id ← peek buf ptr;
  l ← peek buf (ptr + 1);
  let len := l - 2 in
  let ptr := ptr + 2 in
  if len <? 0 then Some (inl tt)
  else if n <? 2 + len then Some (inl tt)
  else
    let finish vendor ptr n id len :=
      r ← recv_store mem d buf vendor id ptr len attrs;
      match r with
      | inl _ => Some (inl tt)
      | inr attrs => Some (inr (ptr + len, n - (2 + len), attrs))
      end in
    if id =? 26 then
      vid ← peek32 buf ptr;
      match rad_dict_find_vendor_id d (s32 vid) with
      | Some v =>
          vd ← d_vendors d !! v;
          h ← vendor_head vd buf ptr n;
          match h with
          | inl _ => Some (inl tt)
          | inr (ptr, n, id, len) => finish (Some v) ptr n id len
          end
      | None => finish None ptr n id len
      end
    else finish None ptr n id len.

Fixpoint recv_attrs (mem : rad_mem) (d : rad_dict_t) (fuel : nat) (buf : list Z) (ptr n : Z)
    (attrs : list rad_attr_t) : recv_res :=
  if n <=? 0 then Accepted attrs
  else
    match fuel with
    | O => Looping
    | S fuel =>
        match recv_one mem d buf ptr n attrs with
        | None => Crashed
        | Some (inl _) => Dropped
        | Some (inr (ptr, n, attrs)) => recv_attrs mem d fuel buf ptr n attrs
        end
    end.

(** What [recvfrom] or [read] gives: an error, or a datagram. *)
Inductive rx := RxAgain | RxError | RxData (data : list Z).

Inductive rad_recv_res := RecvDone (r : Z) (pack : option rad_packet_t) | RecvCrash | RecvLoop.

(** [rad_packet_recv]: the result and [*p].  The buffer keeps the bytes its pool block
    had after those that were received.  Each turn of the loop takes at least two bytes,
    so the number of bytes is enough fuel. *)
Definition rad_packet_recv (mem : rad_mem) (d : rad_dict_t) (stale : list Z) (r : rx) :
    rad_recv_res :=
  match rad_packet_alloc mem 0 with
  | None => RecvDone 0 None
  | Some pack =>
      match r with
      | RxAgain => RecvDone 1 None
      | RxError => RecvDone (-1) None
      | RxData data =>
          let data := ztake REQ_LENGTH_MAX data in
          let n := len data in
          let buf := data ++ zdrop n stale in
          if n <? 20 then RecvDone 1 None
          else
            match peek buf 0, peek buf 1, peek16 buf 2 with
            | Some code, Some id, Some l =>
                if n <? l then RecvDone 1 None
                else
                  match recv_attrs mem d (Z.to_nat n) buf 20 (n - 20) [] with
                  | Accepted attrs =>
                      RecvDone 0 (Some {| p_code := code; p_id := id; p_len := l;
                        p_attrs := attrs; p_buf := Some buf |})
                  | Dropped => RecvDone 1 None
                  | Crashed => RecvCrash
                  | Looping => RecvLoop
                  end
            | _, _, _ => RecvCrash
            end
      end
  end.

End RadRecv.
