(* ===== verification/RadProps.v ===== *)
(** Theorems about RADIUS packets (RadPacket).

    [RadSafe]: the receiver returns on every datagram, without reading outside its buffer
    when ten bytes of it are left free; a full datagram can make it read outside.
    [RadWire]: the layout of a list of attributes on the wire and how the receiver reads
    it back.  [RadRoundtrip]: what a request is built to is what the receiver of the same
    code reads, and the length accounting of the assembling functions. *)

From stdpp Require Import base tactics list numbers option strings.
From Stdlib Require Import ZArith Lia Ascii.
From S2P Require Import Prelude CLib Bytes RadDict RadPacket.

Open Scope Z_scope.

Module RadSafe.
Import RadRecv.

(** The vendor formats of dictionary(5): a type of up to four bytes, a length of up to two. *)
Definition fmt_ok (d : rad_dict_t) : Prop :=
  Forall (fun v => 0 <= vd_tag v <= 4 /\ 0 <= vd_len v <= 2) (d_vendors d).

Section Safe.
Context (mem : rad_mem) (d : rad_dict_t).
Hypothesis Hmalloc : mem_malloc mem = true.
Hypothesis Hdict : dict_wf d.
Hypothesis Hfmt : fmt_ok d.

Lemma recv_int_safe buf ptr l :
  0 <= ptr -> 0 <= l -> ptr + l <= len buf -> exists v, recv_int buf ptr l = Some v.
Proof.
  intros Hp Hl Hb. unfold recv_int.
  destruct (l =? 4) eqn:H4; [|destruct (l =? 2) eqn:H2; [|destruct (l =? 1) eqn:H1]]; to_prop.
  - destruct (peek32_Some buf ptr) as [v ->]; [lia..|]. eexists. reflexivity.
  - destruct (peek16_Some buf ptr) as [v ->]; [lia..|]. eexists. reflexivity.
  - destruct (peek_Some buf ptr) as [v ->]; [lia..|]. eexists. reflexivity.
  - eauto.
Qed.

Lemma recv_value_safe n da buf ptr l :
  attr_wf n da -> 0 <= ptr -> 0 <= l -> ptr + l <= len buf ->
  exists v, recv_value mem da buf ptr l = Some v.
Proof.
  intros [Hs _ _ _] Hp Hl Hb. unfold recv_value. rewrite Hmalloc.
  assert (exists v, (if l =? da_size da then v ← val_copy buf ptr l; Some (AVal v, false)
    else Some (AVal value_zero, false)) = Some v \/ ~ (da_size da <= 16)) as Hcopy.
  { destruct (l =? da_size da) eqn:Hls; [|eauto]. to_prop. unfold val_copy.
    destruct (Z.of_nat VALUE_SIZE <? l) eqn:Hv; [exists (AVal value_zero, false); right; change (Z.of_nat VALUE_SIZE) with 24 in Hv; to_prop; lia|].
    destruct (slice_Some buf ptr l) as (b & -> & _); [lia..|]. eexists. left. reflexivity. }
  destruct (recv_int_safe buf ptr l Hp Hl Hb) as [vi Hi].
  destruct (da_array da); [eauto|]. unfold type_size in Hs.
  destruct (da_type da); try rewrite Hi; cbn [mbind option_bind]; eauto;
    try (destruct Hcopy as [v [Hv|Hv]]; [by exists v|lia]).
  - destruct (slice_Some buf ptr l) as (b & -> & _); [lia..|]. eexists. reflexivity.
  - destruct ((l <? 2) || (18 <? l)) eqn:Hl2; [eauto|]. to_prop.
    destruct (peek_Some buf (ptr + 1)) as [pl ->]; [lia|]. cbn [mbind option_bind].
    destruct (128 <? pl); [eauto|].
    destruct (slice_Some buf (ptr + 2) (l - 2)) as (b & -> & _); [lia..|]. eexists. reflexivity.
Qed.

Lemma recv_store_safe buf vendor id ptr l attrs :
  0 <= ptr -> 0 <= l -> ptr + l <= len buf ->
  exists r, recv_store mem d buf vendor id ptr l attrs = Some r /\
    (mem_attr mem = true -> exists attrs', r = inr attrs').
Proof.
  intros Hp Hl Hb. unfold recv_store. destruct (rad_dict_find_attr_id d vendor id) as [a|] eqn:Ha; [|eauto].
  apply find_attr_id_Some in Ha as (da & Hda & _). destruct (mem_attr mem); [|by eexists; split].
  rewrite Hda. cbn [mbind option_bind negb].
  destruct (recv_value_safe (length (d_attrs d)) da buf ptr l) as [[v al] ->]; [by eapply dict_attr_wf|done..|].
  eexists. split; [reflexivity|]. intros _. by eexists.
Qed.

(** What one turn of the loop keeps: the pointer stays at the end minus [n], and [n] drops
    by two at least. *)
Definition advances (ptr n : Z) (r : unit + Z * Z * list rad_attr_t) : Prop :=
  match r with
  | inl _ => True
  | inr (ptr', n', _) => ptr' + n' = ptr + n /\ n' <= n - 2 /\ ptr <= ptr'
  end.

Lemma vendor_head_safe v vd buf ptr n :
  d_vendors d !! v = Some vd -> 0 <= ptr -> ptr + 10 <= len buf ->
  exists r, vendor_head vd buf ptr n = Some r /\
    match r with
    | inl _ => True
    | inr (ptr', n', _, l) => ptr' + n' = ptr + n /\ 0 <= l /\ 2 + l <= n' /\ n' <= n /\ ptr <= ptr'
    end.
Proof.
  intros Hv Hp Hb. unfold vendor_head.
  assert (0 <= vd_tag vd <= 4 /\ 0 <= vd_len vd <= 2) as [Ht Hl] by (by apply (Forall_lookup_1 _ _ _ _ Hfmt Hv)).
  assert (exists id, (if vd_tag vd =? 2 then peek16 buf (ptr + 4) else peek buf (ptr + 4)) = Some id)
    as [id ->] by (destruct (_ =? 2); [apply peek16_Some|apply peek_Some]; lia).
  assert (exists l, (if vd_len vd =? 2 then peek16 buf (ptr + 4 + vd_tag vd)
    else peek buf (ptr + 4 + vd_tag vd)) = Some l) as [l Hl'].
  { destruct (vd_len vd =? 2) eqn:E; to_prop.
    - apply peek16_Some; lia.
    - apply peek_Some; lia. }
  cbn [mbind option_bind]. rewrite Hl'. cbn [mbind option_bind].
  repeat case_match; to_prop; eexists; (split; [reflexivity|]); cbn; lia.
Qed.

Lemma recv_one_safe buf ptr n attrs :
  0 <= ptr -> 0 < n -> ptr + n + 10 <= len buf ->
  exists r, recv_one mem d buf ptr n attrs = Some r /\ advances ptr n r.
Proof.
  intros Hp Hn Hb. unfold recv_one.
  destruct (peek_Some buf ptr) as [id ->]; [lia|]. destruct (peek_Some buf (ptr + 1)) as [l ->]; [lia|].
  cbn [mbind option_bind]. destruct (l - 2 <? 0) eqn:Hl0; [exists (inl tt); by split|].
  destruct (n <? 2 + (l - 2)) eqn:Hl1; [exists (inl tt); by split|]. to_prop.
  assert (forall vendor ptr' n' id len',
    ptr' + n' = ptr + n + 2 -> 0 <= len' -> 2 + len' <= n' -> n' <= n -> ptr + 2 <= ptr' ->
    exists r, (r ← recv_store mem d buf vendor id ptr' len' attrs;
      match r with inl _ => Some (inl tt) | inr attrs => Some (inr (ptr' + len', n' - (2 + len'), attrs)) end)
      = Some r /\ advances ptr n r) as Hfin.
  { intros vendor ptr' n' id' len' H1 H2 H3 H4 H5.
    destruct (recv_store_safe buf vendor id' ptr' len' attrs) as ([[]|l'] & -> & _); [lia..| |].
    - eexists. split; [reflexivity|done].
    - eexists. split; [reflexivity|]. cbn. lia. }
  destruct (id =? 26); [|apply Hfin; lia].
  destruct (peek32_Some buf (ptr + 2)) as [vid ->]; [lia..|]. cbn [mbind option_bind].
  destruct (rad_dict_find_vendor_id d (s32 vid)) as [v|] eqn:Hv; [|apply Hfin; lia].
  apply find_vendor_Some in Hv as (vd & Hvd & _). rewrite Hvd. cbn [mbind option_bind].
  destruct (vendor_head_safe v vd buf (ptr + 2) n Hvd) as ([[]|[[[ptr' n'] id'] l']] & Hh & Hr); [lia..| |].
  - rewrite Hh. by exists (inl tt).
  - rewrite Hh. cbn [mbind option_bind]. apply Hfin; lia.
Qed.

Lemma recv_attrs_safe fuel buf ptr n attrs :
  0 <= ptr -> ptr + n + 10 <= len buf -> n <= Z.of_nat fuel ->
  recv_attrs mem d fuel buf ptr n attrs <> Crashed /\ recv_attrs mem d fuel buf ptr n attrs <> Looping.
Proof.
  revert ptr n attrs. induction fuel as [|fuel IH]; intros ptr n attrs Hp Hb Hf; cbn [recv_attrs];
    (destruct (n <=? 0) eqn:Hn; [done|]); to_prop; [lia|].
  destruct (recv_one_safe buf ptr n attrs) as ([[]|[[ptr' n'] attrs']] & -> & Hr); [lia..|done|].
  cbn in Hr. apply IH; lia.
Qed.

Lemma recv_returns_short stale data :
  len stale = REQ_LENGTH_MAX -> len data + 10 <= REQ_LENGTH_MAX ->
  exists r p, rad_packet_recv mem d stale (RxData data) = RecvDone r p.
Proof.
  intros Hs Hd. unfold rad_packet_recv. destruct (rad_packet_alloc mem 0); [|eauto].
  pose proof (len_nonneg data).
  assert (ztake REQ_LENGTH_MAX data = data) as ->.
  { unfold ztake. apply take_ge. unfold len, REQ_LENGTH_MAX in *. lia. }
  destruct (len data <? 20) eqn:H20; [eauto|]. to_prop.
  set (buf := data ++ zdrop (len data) stale).
  assert (len buf = REQ_LENGTH_MAX) as Hb.
  { unfold buf. rewrite len_app, len_zdrop; lia. }
  unfold REQ_LENGTH_MAX in *.
  destruct (peek_Some buf 0) as [c ->]; [lia|]. destruct (peek_Some buf 1) as [i ->]; [lia|].
  destruct (peek16_Some buf 2) as [l ->]; [lia..|].
  destruct (len data <? l); [eauto|].
  destruct (recv_attrs_safe (Z.to_nat (len data)) buf 20 (len data - 20) []) as [H1 H2]; [lia..|].
  destruct (recv_attrs _ _ _ _ _ _ _); eauto; done.
Qed.

(** A datagram that fills the buffer: attributes of 25 bytes, and one byte that looks like
    the start of another. *)
Definition full_byte (i : nat) : Z :=
  if ((20 <=? i) && ((i - 20) mod 25 =? 1))%nat then 25 else 0.
Definition full_datagram : list Z := full_byte <$> List.seq 0 4096.

Lemma full_len : len full_datagram = 4096.
Proof. unfold full_datagram, len. by rewrite length_fmap, length_seq. Qed.

Lemma full_peek i : 0 <= i < 4096 -> peek full_datagram i = Some (full_byte (Z.to_nat i)).
Proof.
  intros Hi. unfold peek. rewrite (proj2 (Z.ltb_ge i 0)) by lia. unfold full_datagram.
  rewrite list_lookup_fmap, lookup_seq_lt by lia. done.
Qed.

Lemma full_byte_id k : full_byte (20 + 25 * k) = 0.
Proof.
  unfold full_byte. replace (20 + 25 * k - 20)%nat with (k * 25)%nat by lia.
  by rewrite Nat.Div0.mod_mul, andb_false_r.
Qed.
Lemma full_byte_len k : full_byte (20 + 25 * k + 1) = 25.
Proof.
  unfold full_byte. replace (20 + 25 * k + 1 - 20)%nat with (1 + k * 25)%nat by lia.
  rewrite Nat.Div0.mod_add. rewrite (proj2 (Nat.leb_le 20 _)) by lia. done.
Qed.

Lemma full_crashes fuel k attrs :
  mem_attr mem = true -> (k <= 163)%nat -> (163 < fuel + k)%nat ->
  recv_attrs mem d fuel full_datagram (20 + 25 * Z.of_nat k) (4076 - 25 * Z.of_nat k) attrs = Crashed.
Proof.
  intros Hattr. revert k attrs. induction fuel as [|fuel IH]; intros k attrs Hk Hf; [lia|].
  cbn [recv_attrs]. rewrite (proj2 (Z.leb_gt _ 0)) by lia. unfold recv_one.
  rewrite (full_peek (20 + 25 * Z.of_nat k)) by lia.
  replace (Z.to_nat (20 + 25 * Z.of_nat k)) with (20 + 25 * k)%nat by lia. rewrite full_byte_id.
  destruct (decide (k = 163%nat)) as [->|Hne].
  { by rewrite peek_end by (rewrite full_len; lia). }
  rewrite (full_peek (20 + 25 * Z.of_nat k + 1)) by lia.
  replace (Z.to_nat (20 + 25 * Z.of_nat k + 1)) with (20 + 25 * k + 1)%nat by lia. rewrite full_byte_len.
  cbn [mbind option_bind]. change (25 - 2 <? 0) with false. change (0 =? 26) with false.
  rewrite (proj2 (Z.ltb_ge (4076 - 25 * Z.of_nat k) (2 + (25 - 2)))) by lia. cbn iota.
  destruct (recv_store_safe full_datagram None 0 (20 + 25 * Z.of_nat k + 2) (25 - 2) attrs)
    as (r & Hr & Hi); [lia..|rewrite full_len; lia|].
  destruct (Hi Hattr) as [attrs' ->]. rewrite Hr. cbn [mbind option_bind].
  replace (20 + 25 * Z.of_nat k + 2 + (25 - 2)) with (20 + 25 * Z.of_nat (S k)) by lia.
  replace (4076 - 25 * Z.of_nat k - (2 + (25 - 2))) with (4076 - 25 * Z.of_nat (S k)) by lia.
  apply IH; lia.
Qed.

End Safe.

Definition mem_full : rad_mem :=
  {| mem_pack := true; mem_attr := true; mem_malloc := true;
     mem_buf := Some (replicate (Z.to_nat 4096) 0) |}.

Lemma demo_fmt_ok : fmt_ok DictDemo.dict.
Proof. constructor; [cbn; lia|constructor]. Qed.

End RadSafe.

(** ** The layout of attributes *)

(** Reading big-endian words that were stored. *)
Module RadWire.
Import RadRecv.

(** An attribute on the wire: its vendor, its type and its value. *)
Record wattr := { w_vendor : option nat; w_id : Z; w_body : list Z }.

Definition vendor_number (d : rad_dict_t) (v : nat) : Z :=
  match d_vendors d !! v with Some vd => vd_id vd | None => 0 end.

Definition wire_head (d : rad_dict_t) (w : wattr) : list Z :=
  match w_vendor w with
  | None => [w_id w; len (w_body w) + 2]
  | Some v =>
      [26; len (w_body w) + 8] ++ be32 (u32 (vendor_number d v)) ++ [w_id w; len (w_body w) + 2]
  end.
Definition wire (d : rad_dict_t) (w : wattr) : list Z := wire_head d w ++ w_body w.
Definition wires (d : rad_dict_t) (ws : list wattr) : list Z := concat (wire d <$> ws).

Definition vendor_plain (d : rad_dict_t) (v : nat) : Prop :=
  exists vd, d_vendors d !! v = Some vd /\ vd_tag vd = 1 /\ vd_len vd = 1 /\ is_s32 (vd_id vd) /\
    rad_dict_find_vendor_id d (vd_id vd) = Some v.

Definition wire_ok (d : rad_dict_t) (w : wattr) : Prop :=
  is_u8 (w_id w) /\
  match w_vendor w with
  | None => w_id w <> 26 /\ len (w_body w) <= 253
  | Some v => vendor_plain d v /\ len (w_body w) <= 247
  end.

(** The value the receiver stores for a body that begins at offset [off] of the buffer. *)
Definition int_of_body (body : list Z) : Z :=
  match body with
  | [a; b; c; e] => s32 (of_be32 a b c e)
  | [a; b] => of_be16 a b
  | [a] => a
  | _ => 0
  end.

Definition value_of_body (da : rad_dict_attr_t) (off : Z) (body : list Z) : attr_val * bool :=
  if da_array da then (AVal value_zero, false)
  else
    match da_type da with
    | ATTR_TYPE_STRING => (AVal (VPtr (body ++ [0])), true)
    | ATTR_TYPE_OCTETS | ATTR_TYPE_ETHER | ATTR_TYPE_TLV => (ABuf off, false)
    | ATTR_TYPE_INTEGER | ATTR_TYPE_DATE => (AVal (set_integer (int_of_body body) value_zero), false)
    | ATTR_TYPE_IPADDR | ATTR_TYPE_IFID | ATTR_TYPE_IPV6ADDR =>
        if len body =? da_size da
        then (AVal (VMem (body ++ replicate (VALUE_SIZE - length body) 0)), false)
        else (AVal value_zero, false)
    | ATTR_TYPE_IPV6PREFIX =>
        match body with
        | _ :: pl :: b =>
            if (18 <? len body) || (128 <? pl) then (AVal value_zero, false)
            else (AVal (RadBuild.v_prefix (b ++ replicate (16 - length b) 0) pl), false)
        | _ => (AVal value_zero, false)
        end
    end.

Definition stored (d : rad_dict_t) (off : Z) (w : wattr) : list rad_attr_t :=
  let ptr := off + len (wire_head d w) in
  match rad_dict_find_attr_id d (w_vendor w) (w_id w) with
  | None => []
  | Some a =>
      match d_attrs d !! a with
      | None => []
      | Some da =>
          let '(v, alloc) := value_of_body da ptr (w_body w) in
          [{| ra_attr := a; ra_vendor := w_vendor w; ra_len := len (w_body w); ra_alloc := alloc;
              ra_raw := RawBuf ptr; ra_val := v |}]
      end
  end.

Fixpoint stores (d : rad_dict_t) (off : Z) (ws : list wattr) : list rad_attr_t :=
  match ws with
  | [] => []
  | w :: ws => stored d off w ++ stores d (off + len (wire d w)) ws
  end.

Section Wire.
Context (mem : rad_mem) (d : rad_dict_t).
Hypothesis Hmalloc : mem_malloc mem = true.
Hypothesis Hattr : mem_attr mem = true.
Hypothesis Hdict : dict_wf d.

Lemma recv_int_body pre body post :
  recv_int (pre ++ body ++ post) (len pre) (len body) =
  Some (AVal (set_integer (int_of_body body) value_zero)).
Proof.
  unfold recv_int.
  destruct body as [|a [|b [|c [|e [|x body]]]]]; cbn [int_of_body].
  - done.
  - change (len [a] =? 4) with false. change (len [a] =? 2) with false. change (len [a] =? 1) with true.
    cbn iota. rewrite <- (Z.add_0_r (len pre)), peek_app_l by lia. done.
  - change (len [a; b] =? 4) with false. change (len [a; b] =? 2) with true. cbn iota.
    change ([a; b] ++ post) with (a :: b :: post). by rewrite peek16_app.
  - done.
  - change (len [a; b; c; e] =? 4) with true. cbn iota.
    change ([a; b; c; e] ++ post) with (a :: b :: c :: e :: post). by rewrite peek32_app.
  - rewrite !(proj2 (Z.eqb_neq _ _)) by len_lia. done.
Qed.

Lemma recv_value_body n da pre body post :
  attr_wf n da ->
  recv_value mem da (pre ++ body ++ post) (len pre) (len body) = Some (value_of_body da (len pre) body).
Proof.
  intros [Hs _ _ _]. unfold recv_value, value_of_body. rewrite Hmalloc. destruct (da_array da); [done|].
  assert (da_size da <= 16 ->
    (if len body =? da_size da
     then v ← val_copy (pre ++ body ++ post) (len pre) (len body); Some (AVal v, false)
     else Some (AVal value_zero, false)) =
    Some (if len body =? da_size da
      then (AVal (VMem (body ++ replicate (VALUE_SIZE - length body) 0)), false)
      else (AVal value_zero, false))) as Hc.
  { intros Hz. destruct (len body =? da_size da) eqn:E; [|done]. to_prop. unfold val_copy.
    rewrite (proj2 (Z.ltb_ge _ _)) by (change (Z.of_nat VALUE_SIZE) with 24; lia).
    by rewrite slice_app. }
  unfold type_size in Hs.
  destruct (da_type da); rewrite ?recv_int_body, ?slice_app; try done; try (apply Hc; lia).
  destruct body as [|x [|pl b]]; [done..|].
  rewrite (proj2 (Z.ltb_ge (len (x :: pl :: b)) 2)) by len_lia. cbn [orb].
  rewrite peek_app_l by lia. rewrite <- app_comm_cons, peek_cons by lia. change (1 - 1) with 0.
  rewrite <- app_comm_cons, peek_0. cbn [mbind option_bind].
  destruct (18 <? len (x :: pl :: b)); [done|]. cbn [orb]. destruct (128 <? pl); [done|].
  replace (pre ++ x :: pl :: b ++ post) with ((pre ++ [x; pl]) ++ b ++ post) by (by rewrite <- app_assoc).
  replace (len pre + 2) with (len (pre ++ [x; pl])) by len_lia.
  replace (len (x :: pl :: b) - 2) with (len b) by len_lia. by rewrite slice_app.
Qed.

Lemma recv_store_body pre w body post attrs vendor id :
  w_body w = body -> w_vendor w = vendor -> w_id w = id ->
  forall off, off + len (wire_head d w) = len pre ->
  recv_store mem d (pre ++ body ++ post) vendor id (len pre) (len body) attrs =
  Some (inr (attrs ++ stored d off w)).
Proof.
  intros <- <- <- off Hoff. unfold recv_store, stored.
  destruct (rad_dict_find_attr_id d (w_vendor w) (w_id w)) as [a|] eqn:Ha; [|by rewrite app_nil_r].
  apply find_attr_id_Some in Ha as (da & Hda & _). rewrite Hattr, Hda. cbn [negb mbind option_bind].
  rewrite (recv_value_body (length (d_attrs d))) by (by eapply dict_attr_wf).
  rewrite Hoff. by destruct (value_of_body da (len pre) (w_body w)).
Qed.

(** Reading a position that is given by what is before it. *)
Lemma peek_at m pre x post off : m = pre ++ x :: post -> off = len pre -> peek m off = Some x.
Proof. intros -> ->. rewrite <- (Z.add_0_r (len pre)), peek_app_l by lia. apply peek_0. Qed.

Lemma s32_u32 z : is_s32 z -> s32 (u32 z) = z.
Proof. intros. width_lia. Qed.

Lemma peek32_at m pre z post off :
  is_s32 z -> m = pre ++ be32 (u32 z) ++ post -> off = len pre ->
  exists v, peek32 m off = Some v /\ s32 v = z.
Proof.
  intros Hz -> ->. unfold be32 at 1. cbn [app]. rewrite peek32_app. eexists. split; [done|].
  rewrite of_be32_be32 by apply u32_range. by apply s32_u32.
Qed.

Lemma recv_one_plain pre w post n attrs :
  wire_ok d w -> w_vendor w = None -> len (wire d w) <= n ->
  recv_one mem d (pre ++ wire d w ++ post) (len pre) n attrs =
  Some (inr (len pre + len (wire d w), n - len (wire d w), attrs ++ stored d (len pre) w)).
Proof.
  intros [Hid Hok] Hv Hn. rewrite Hv in Hok. destruct Hok as [H26 Hlen].
  assert (wire_head d w = [w_id w; len (w_body w) + 2]) as Hh by (unfold wire_head; by rewrite Hv).
  assert (len (wire d w) = 2 + len (w_body w)) as Hw by (unfold wire; rewrite Hh; len_lia).
  set (m := pre ++ wire d w ++ post).
  assert (m = (pre ++ [w_id w; len (w_body w) + 2]) ++ w_body w ++ post) as Hm
    by (unfold m, wire; rewrite Hh, <- !app_assoc; done).
  unfold recv_one.
  rewrite (peek_at m pre (w_id w) ([len (w_body w) + 2] ++ w_body w ++ post) (len pre));
    [|by rewrite Hm, <- app_assoc|done].
  rewrite (peek_at m (pre ++ [w_id w]) (len (w_body w) + 2) (w_body w ++ post) (len pre + 1));
    [|by rewrite Hm, <- !app_assoc|len_lia].
  cbn [mbind option_bind]. replace (len (w_body w) + 2 - 2) with (len (w_body w)) by lia.
  pose proof (len_nonneg (w_body w)). rewrite !(proj2 (Z.ltb_ge _ _)) by lia.
  rewrite (proj2 (Z.eqb_neq (w_id w) 26)) by done. cbn iota.
  replace (len pre + 2) with (len (pre ++ [w_id w; len (w_body w) + 2])) by len_lia.
  rewrite Hm, (recv_store_body _ w (w_body w) post attrs None (w_id w) eq_refl Hv eq_refl (len pre))
    by (rewrite Hh; len_lia).
  cbn [mbind option_bind]. do 3 f_equal. apply f_equal2; len_lia.
Qed.

Lemma recv_one_vendor pre w v post n attrs :
  wire_ok d w -> w_vendor w = Some v -> len (wire d w) <= n ->
  recv_one mem d (pre ++ wire d w ++ post) (len pre) n attrs =
  Some (inr (len pre + len (wire d w), n - len (wire d w), attrs ++ stored d (len pre) w)).
Proof.
  intros [Hid Hok] Hv Hn. rewrite Hv in Hok. destruct Hok as [(vd & Hvd & Htag & Hvl & Hvid & Hfind) Hlen].
  set (b := w_body w) in *. set (i := w_id w) in *.
  assert (wire_head d w = [26; len b + 8] ++ be32 (u32 (vd_id vd)) ++ [i; len b + 2]) as Hh
    by (unfold wire_head, vendor_number; by rewrite Hv, Hvd).
  assert (len (wire d w) = 8 + len b) as Hw by (unfold wire; rewrite Hh; fold b; len_lia).
  set (m := pre ++ wire d w ++ post).
  assert (m = pre ++ [26; len b + 8] ++ be32 (u32 (vd_id vd)) ++ [i; len b + 2] ++ b ++ post) as Hm
    by (unfold m, wire; rewrite Hh, <- !app_assoc; done).
  pose proof (len_nonneg b). unfold recv_one.
  rewrite (peek_at m pre 26 ([len b + 8] ++ be32 (u32 (vd_id vd)) ++ [i; len b + 2] ++ b ++ post) (len pre));
    [|done..].
  rewrite (peek_at m (pre ++ [26]) (len b + 8) (be32 (u32 (vd_id vd)) ++ [i; len b + 2] ++ b ++ post)
    (len pre + 1)); [|by rewrite Hm, <- !app_assoc|len_lia].
  cbn [mbind option_bind]. replace (len b + 8 - 2) with (len b + 6) by lia.
  rewrite !(proj2 (Z.ltb_ge _ _)) by lia. change (26 =? 26) with true. cbn iota.
  destruct (peek32_at m (pre ++ [26; len b + 8]) (vd_id vd) ([i; len b + 2] ++ b ++ post) (len pre + 2))
    as (z & Hz1 & Hz2); [done|by rewrite Hm, <- !app_assoc|len_lia|].
  rewrite Hz1. cbn [mbind option_bind]. rewrite Hz2, Hfind, Hvd. cbn [mbind option_bind].
  unfold vendor_head. rewrite Htag, Hvl. change (1 =? 2) with false. cbn iota.
  rewrite (peek_at m (pre ++ [26; len b + 8] ++ be32 (u32 (vd_id vd))) i ([len b + 2] ++ b ++ post)
    (len pre + 2 + 4)); [|by rewrite Hm, <- !app_assoc|len_lia].
  rewrite (peek_at m (pre ++ [26; len b + 8] ++ be32 (u32 (vd_id vd)) ++ [i]) (len b + 2) (b ++ post)
    (len pre + 2 + 4 + 1)); [|by rewrite Hm, <- !app_assoc|len_lia].
  cbn [mbind option_bind]. replace (len b + 2 - (1 + 1)) with (len b) by lia.
  rewrite !(proj2 (Z.ltb_ge _ _)) by lia. cbn [mbind option_bind].
  replace (len pre + 2 + 4 + 1 + 1) with (len (pre ++ wire_head d w)) by (rewrite Hh; len_lia).
  assert (m = (pre ++ wire_head d w) ++ b ++ post) as Hm' by (unfold m, wire; by rewrite <- !app_assoc).
  rewrite Hm', (recv_store_body _ w b post attrs (Some v) i eq_refl Hv eq_refl (len pre)) by len_lia.
  cbn [mbind option_bind]. do 3 f_equal. apply f_equal2; rewrite ?Hh; len_lia.
Qed.

Lemma wire_len_pos w : 2 <= len (wire d w).
Proof. unfold wire, wire_head. destruct (w_vendor w); len_lia. Qed.

Lemma wires_cons w ws : wires d (w :: ws) = wire d w ++ wires d ws.
Proof. done. Qed.
Lemma wires_app ws1 ws2 : wires d (ws1 ++ ws2) = wires d ws1 ++ wires d ws2.
Proof. unfold wires. by rewrite fmap_app, concat_app. Qed.

(** The receiver reads a list of attributes as they were written, whatever is around. *)
Lemma recv_wires ws pre post attrs fuel :
  Forall (wire_ok d) ws -> (length ws <= fuel)%nat ->
  recv_attrs mem d fuel (pre ++ wires d ws ++ post) (len pre) (len (wires d ws)) attrs =
  Accepted (attrs ++ stores d (len pre) ws).
Proof.
  revert pre attrs fuel. induction ws as [|w ws IH]; intros pre attrs fuel Hok Hf.
  { destruct fuel; cbn; by rewrite app_nil_r. }
  apply Forall_cons in Hok as [Hw Hok]. destruct fuel as [|fuel]; [cbn in Hf; lia|]. cbn in Hf.
  pose proof (wire_len_pos w). rewrite wires_cons. cbn [recv_attrs].
  rewrite (proj2 (Z.leb_gt _ 0)) by len_lia. rewrite <- app_assoc.
  assert (recv_one mem d (pre ++ wire d w ++ wires d ws ++ post) (len pre) (len (wire d w ++ wires d ws)) attrs
    = Some (inr (len pre + len (wire d w), len (wire d w ++ wires d ws) - len (wire d w),
        attrs ++ stored d (len pre) w))) as ->.
  { destruct (w_vendor w) as [v|] eqn:Hv;
      [apply (recv_one_vendor pre w v)|apply recv_one_plain]; try done; len_lia. }
  replace (len (wire d w ++ wires d ws) - len (wire d w)) with (len (wires d ws)) by len_lia.
  replace (len pre + len (wire d w)) with (len (pre ++ wire d w)) by len_lia.
  replace (pre ++ wire d w ++ wires d ws ++ post) with ((pre ++ wire d w) ++ wires d ws ++ post)
    by (by rewrite <- app_assoc).
  rewrite IH by (done || lia). f_equal. cbn [stores]. rewrite <- app_assoc. do 3 f_equal. len_lia.
Qed.

Lemma wires_length ws : Z.of_nat (length ws) <= len (wires d ws).
Proof.
  induction ws as [|w ws IH]; [done|]. rewrite wires_cons. cbn [length].
  pose proof (wire_len_pos w). len_lia.
Qed.

(** A whole datagram: a header, whose length field [l] covers the header at least, and
    attributes. *)
Lemma recv_datagram stale code id l auth ws :
  mem_pack mem = true -> Forall (wire_ok d) ws -> len auth = 16 -> is_u16 l ->
  l <= 20 + len (wires d ws) <= REQ_LENGTH_MAX ->
  let data := [code; id] ++ be16 l ++ auth ++ wires d ws in
  rad_packet_recv mem d stale (RxData data) =
  RecvDone 0 (Some {| p_code := code; p_id := id; p_len := l; p_attrs := stores d 20 ws;
    p_buf := Some (data ++ zdrop (len data) stale) |}).
Proof.
  intros Hpack Hok Hauth Hl Hlen. cbv zeta. set (data := [code; id] ++ be16 l ++ auth ++ wires d ws).
  assert (len data = 20 + len (wires d ws)) as Hd by (unfold data; len_lia).
  pose proof (wires_length ws).
  unfold rad_packet_recv, rad_packet_alloc. rewrite Hpack.
  assert (ztake REQ_LENGTH_MAX data = data) as ->.
  { unfold ztake. apply take_ge. unfold len, REQ_LENGTH_MAX in *. lia. }
  rewrite (proj2 (Z.ltb_ge (len data) 20)) by len_lia. cbn iota.
  set (buf := data ++ zdrop (len data) stale).
  assert (buf = ([code; id] ++ be16 l ++ auth) ++ wires d ws ++ zdrop (len data) stale) as Hbuf
    by (unfold buf, data; by rewrite <- !app_assoc).
  change (peek buf 0) with (Some code). change (peek buf 1) with (Some id).
  change (peek16 buf 2) with (Some (of_be16 (u8 (Z.shiftr l 8)) (u8 l))).
  rewrite of_be16_be16 by done. rewrite (proj2 (Z.ltb_ge (len data) l)) by lia. cbn iota.
  rewrite Hbuf.
  replace (len data - 20) with (len (wires d ws)) by lia.
  replace (recv_attrs mem d (Z.to_nat (len data)) (([code; id] ++ be16 l ++ auth) ++ wires d ws ++ zdrop (len data) stale) 20)
    with (recv_attrs mem d (Z.to_nat (len data)) (([code; id] ++ be16 l ++ auth) ++ wires d ws ++ zdrop (len data) stale)
      (len ([code; id] ++ be16 l ++ auth))) by (f_equal; len_lia).
  rewrite recv_wires by (done || (unfold len in *; lia)).
  replace (len ([code; id] ++ be16 l ++ auth)) with 20 by len_lia. done.
Qed.

Lemma stores_app off ws1 ws2 :
  stores d off (ws1 ++ ws2) = stores d off ws1 ++ stores d (off + len (wires d ws1)) ws2.
Proof.
  revert off. induction ws1 as [|w ws1 IH]; intros off; cbn [stores app].
  { change (wires d []) with (@nil Z). by rewrite len_nil, Z.add_0_r. }
  rewrite IH, wires_cons, <- app_assoc. do 3 f_equal. len_lia.
Qed.
End Wire.
End RadWire.

(** ** Building and reading back *)

Module RadRoundtrip.
Import RadBuild RadRecv RadWire.

(** What [rad_packet_build] stores for an attribute whose value takes [ra_len] bytes. *)
Definition attr_bytes (d : rad_dict_t) (ra : rad_attr_t) (bs : list Z) : Prop :=
  exists da h b, d_attrs d !! ra_attr ra = Some da /\ attr_head d da ra = Some h /\
    attr_body da ra = Some (inr b) /\ len b = ra_len ra /\ bs = h ++ b.

Section Build.
Context (mem : rad_mem) (d : rad_dict_t).

(** Building overwrites the buffer with the bytes of the attributes, one after another. *)
Lemma build_attrs_bytes l bss pre x z :
  Forall2 (attr_bytes d) l bss -> len x = len (concat bss) ->
  build_attrs d l (len pre) (pre ++ x ++ z) = Some (0, pre ++ concat bss ++ z).
Proof.
  intros HF. revert pre x. induction HF as [|ra bs l bss Hra HF IH]; intros pre x Hx.
  { destruct x; [done|]. rewrite len_cons in Hx. pose proof (len_nonneg x). cbn in Hx. len_lia. }
  destruct Hra as (da & h & b & Hda & Hh & Hb & Hlb & ->). cbn [concat] in Hx |- *.
  cbn [build_attrs]. rewrite Hda. cbn [mbind option_bind]. rewrite Hh. cbn [mbind option_bind].
  rewrite !len_app in Hx. pose proof (len_nonneg b). pose proof (len_nonneg (concat bss)).
  pose proof (len_nonneg h).
  destruct (split_at x (len h)) as (x1 & x' & -> & Hx1); [lia|]. rewrite len_app in Hx.
  destruct (split_at x' (len b)) as (x2 & x3 & -> & Hx2); [lia|]. rewrite len_app in Hx.
  rewrite <- !app_assoc. rewrite (poke_app pre x1 (x2 ++ x3 ++ z) h) by done. cbn [mbind option_bind].
  rewrite Hb. cbn [mbind option_bind]. rewrite <- len_app, (app_assoc pre h).
  rewrite (poke_app (pre ++ h) x2 (x3 ++ z) b) by done. cbn [mbind option_bind].
  replace (len (pre ++ h) + ra_len ra) with (len (pre ++ h ++ b)) by len_lia.
  replace ((pre ++ h) ++ b ++ x3 ++ z) with ((pre ++ h ++ b) ++ x3 ++ z) by (by rewrite <- !app_assoc).
  rewrite IH by lia. by rewrite <- !app_assoc.
Qed.

Lemma send_set_buf pack b : rad_packet_send (pack <| p_buf := Some b |>) = slice b 0 (p_len pack).
Proof. by destruct pack. Qed.

Lemma build_bytes pack RA bss buf :
  p_buf pack = None -> mem_buf mem = Some buf -> len buf = REQ_LENGTH_MAX ->
  Forall2 (attr_bytes d) (p_attrs pack) bss -> len RA = 16 ->
  p_len pack = 20 + len (concat bss) -> p_len pack <= REQ_LENGTH_MAX ->
  exists pack', rad_packet_build mem d pack RA = Some (0, pack') /\
    rad_packet_send pack' = Some (pack_head pack RA ++ concat bss).
Proof.
  intros Hnone Hbuf Hlen HF HRA Hpl Hmax. unfold rad_packet_build. rewrite Hnone, Hbuf.
  assert (len (pack_head pack RA) = 20) as Hh.
  { unfold pack_head. replace (take 16 RA) with RA by (symmetry; apply take_ge; unfold len in HRA; lia). len_lia. }
  pose proof (len_nonneg (concat bss)).
  destruct (split_at buf 20) as (x & y & -> & Hx); [lia|]. rewrite len_app in Hlen.
  destruct (split_at y (len (concat bss))) as (y1 & z & -> & Hy1); [lia|].
  assert (poke (x ++ y1 ++ z) 0 (pack_head pack RA) = Some (pack_head pack RA ++ y1 ++ z)) as ->
    by (apply (poke_app [] x (y1 ++ z)); lia).
  cbn [mbind option_bind].
  replace (build_attrs d (p_attrs pack) 20) with (build_attrs d (p_attrs pack) (len (pack_head pack RA)))
    by (by rewrite Hh).
  rewrite (build_attrs_bytes _ bss _ y1 z HF) by done.
  cbn [mbind option_bind]. eexists. split; [reflexivity|].
  rewrite send_set_buf, Hpl.
  replace (20 + len (concat bss)) with (len (pack_head pack RA ++ concat bss)) by (rewrite len_app; lia).
  rewrite app_assoc. apply (slice_app []).
Qed.
End Build.

(** ** Assembling a packet, as a sequence of additions *)

Inductive add_op :=
  | OpInt (z : Z) | OpIpaddr (z : Z) | OpVal (s : string) | OpIfid (z : Z)
  | OpPrefix (prefix : list Z) (plen : Z) | OpOctets (b : list Z) | OpStr (s : string).

Definition run_add (mem : rad_mem) (d : rad_dict_t) (vn : option string) (name : string) (op : add_op)
    (pack : rad_packet_t) : option (Z * rad_packet_t) :=
  match op with
  | OpInt z => rad_packet_add_int mem d vn name z pack
  | OpIpaddr z => rad_packet_add_ipaddr mem d vn name z pack
  | OpVal s => rad_packet_add_val mem d vn name s pack
  | OpIfid z => rad_packet_add_ifid mem d vn name z pack
  | OpPrefix p l => rad_packet_add_ipv6prefix mem d vn name p l pack
  | OpOctets b => rad_packet_add_octets mem d vn name b pack
  | OpStr s => rad_packet_add_str mem d vn name s pack
  end.

(** A request is given up at the first attribute that is refused. *)
Fixpoint run_adds (mem : rad_mem) (d : rad_dict_t) (ops : list (option string * string * add_op))
    (pack : rad_packet_t) : option (Z * rad_packet_t) :=
  match ops with
  | [] => Some (0, pack)
  | (vn, name, op) :: ops =>
      '(r, pack) ← run_add mem d vn name op pack;
      if r =? 0 then run_adds mem d ops pack else Some (r, pack)
  end.

Definition op_len (op : add_op) : Z :=
  match op with
  | OpInt _ | OpIpaddr _ | OpVal _ => 4
  | OpIfid _ => 8
  | OpPrefix _ _ => 18
  | OpOctets b => len b
  | OpStr s => len (str_bytes s)
  end.

Definition op_value (da : rad_dict_attr_t) (op : add_op) : option rad_value_t :=
  match op with
  | OpInt z | OpIpaddr z => Some (set_integer z value_zero)
  | OpVal s => dval_val <$> rad_dict_find_val_name da s
  | OpIfid z => Some (VMem (le64 z ++ replicate 16 0))
  | OpPrefix p l => Some (v_prefix p l)
  | OpOctets b => Some (if len b =? 0 then value_zero else VPtr b)
  | OpStr s => Some (VPtr (str_bytes s ++ [0]))
  end.

Definition op_alloc (op : add_op) : bool :=
  match op with OpOctets b => negb (len b =? 0) | OpStr _ => true | _ => false end.
Definition op_raw (op : add_op) : raw_ptr :=
  match op with OpOctets _ | OpStr _ => RawBlock | _ => RawVal end.

Definition op_attr (vendor : option nat) (a : nat) (op : add_op) (v : rad_value_t) : rad_attr_t :=
  {| ra_attr := a; ra_vendor := vendor; ra_len := op_len op; ra_alloc := op_alloc op;
     ra_raw := op_raw op; ra_val := AVal v |}.

Lemma resolve_Some d vn name vendor a :
  resolve d vn name = Some (vendor, a) ->
  (exists da, d_attrs d !! a = Some da /\ da_name da = name) /\
  match vn with None => vendor = None | Some n => exists v, vendor = Some v /\ rad_dict_find_vendor_name d n = Some v end.
Proof.
  unfold resolve. destruct vn as [n|].
  - destruct (rad_dict_find_vendor_name d n) as [v|]; [|done]. cbn.
    destruct (rad_dict_find_vendor_attr d v name) as [a'|] eqn:Ha; [|done]. cbn. intros [= <- <-].
    apply find_attr_Some in Ha. eauto.
  - destruct (rad_dict_find_attr d name) as [a'|] eqn:Ha; [|done]. cbn. intros [= <- <-].
    apply find_attr_Some in Ha. eauto.
Qed.

(** All the additions follow one scheme. *)
Lemma run_add_eq mem d vn name op pack :
  mem_malloc mem = true ->
  run_add mem d vn name op pack =
  if REQ_LENGTH_MAX <=? p_len pack + hdr_size vn + op_len op then Some (-1, pack)
  else match resolve d vn name with
       | None => Some (-1, pack)
       | Some (vendor, a) =>
           match d_attrs d !! a with
           | None => None
           | Some da =>
               match op_value da op with
               | None => Some (-1, pack)
               | Some v =>
                   if mem_attr mem then Some (0, push_attr vn (op_attr vendor a op v) pack)
                   else Some (-1, pack)
               end
           end
       end.
Proof.
  intros Hm.
  assert (forall n v al, add_block mem d vn name n v al pack =
    if REQ_LENGTH_MAX <=? p_len pack + hdr_size vn + n then Some (-1, pack)
    else match resolve d vn name with
         | None => Some (-1, pack)
         | Some (vendor, a) =>
             match d_attrs d !! a with
             | None => None
             | Some da => if mem_attr mem then Some (0, push_attr vn
                 {| ra_attr := a; ra_vendor := vendor; ra_len := n; ra_alloc := al; ra_raw := RawBlock;
                    ra_val := AVal v |} pack) else Some (-1, pack)
             end
         end) as Hb.
  { intros n v al. unfold add_block. destruct (_ <=? _); [done|].
    destruct (resolve d vn name) as [[vendor a]|] eqn:Hr; [|done].
    apply resolve_Some in Hr as [(da & -> & _) _]. rewrite Hm, andb_false_r.
    by destruct (mem_attr mem). }
  destruct op; cbn [run_add op_len op_value]; try done; apply Hb.
Qed.

Definition attr_size (ra : rad_attr_t) : Z :=
  (match ra_vendor ra with Some _ => 8 | None => 2 end) + ra_len ra.
Definition attrs_size (l : list rad_attr_t) : Z := foldr (fun ra n => attr_size ra + n) 0 l.

Lemma attrs_size_app l1 l2 : attrs_size (l1 ++ l2) = attrs_size l1 + attrs_size l2.
Proof. unfold attrs_size. induction l1 as [|x l1 IH]; cbn; lia. Qed.

(** The length field counts the bytes of the attributes and fits the buffer. *)
Definition len_ok (pack : rad_packet_t) : Prop :=
  p_len pack = 20 + attrs_size (p_attrs pack) /\ p_len pack < REQ_LENGTH_MAX.

(** Why an addition is refused. *)
Definition refused (mem : rad_mem) (d : rad_dict_t) (vn : option string) (name : string) (op : add_op)
    (pack : rad_packet_t) : Prop :=
  REQ_LENGTH_MAX <= p_len pack + hdr_size vn + op_len op \/
  resolve d vn name = None \/
  (exists vendor a da, resolve d vn name = Some (vendor, a) /\ d_attrs d !! a = Some da /\ op_value da op = None) \/
  mem_attr mem = false.

Lemma run_add_cases mem d vn name op pack :
  mem_malloc mem = true ->
  (run_add mem d vn name op pack = Some (-1, pack) /\ refused mem d vn name op pack) \/
  (exists vendor a da v, resolve d vn name = Some (vendor, a) /\ d_attrs d !! a = Some da /\
    op_value da op = Some v /\ p_len pack + hdr_size vn + op_len op < REQ_LENGTH_MAX /\
    run_add mem d vn name op pack = Some (0, push_attr vn (op_attr vendor a op v) pack)).
Proof.
  intros Hm. rewrite run_add_eq by done. unfold refused.
  destruct (REQ_LENGTH_MAX <=? p_len pack + hdr_size vn + op_len op) eqn:Hl; to_prop;
    [left; by auto|].
  destruct (resolve d vn name) as [[vendor a]|] eqn:Hr; [|left; by auto].
  destruct (resolve_Some _ _ _ _ _ Hr) as [(da & Hda & _) _]. rewrite Hda.
  destruct (op_value da op) as [v|] eqn:Hv; [|left; by eauto 10].
  destruct (mem_attr mem); [|left; by auto 10]. right. by exists vendor, a, da, v.
Qed.

Lemma push_attrs vn ra pack : p_attrs (push_attr vn ra pack) = p_attrs pack ++ [ra].
Proof. by destruct pack. Qed.
Lemma push_len vn ra pack : p_len (push_attr vn ra pack) = hdr_size vn + ra_len ra + p_len pack.
Proof. by destruct pack. Qed.

Lemma push_len_ok d vn name vendor a op v pack :
  resolve d vn name = Some (vendor, a) -> p_len pack + hdr_size vn + op_len op < REQ_LENGTH_MAX ->
  len_ok pack -> len_ok (push_attr vn (op_attr vendor a op v) pack).
Proof.
  intros Hr Hl [Hp _]. apply resolve_Some in Hr as [_ Hvn]. unfold len_ok.
  rewrite push_attrs, push_len, attrs_size_app, Hp.
  assert (attrs_size [op_attr vendor a op v] = hdr_size vn + op_len op) as ->.
  { unfold attrs_size, attr_size. cbn.
    destruct vn as [n|]; [destruct Hvn as (v' & -> & _)|subst vendor]; cbn; lia. }
  cbn [ra_len op_attr]. lia.
Qed.

Lemma adds_len_ok mem d ops p p' :
  mem_malloc mem = true -> run_adds mem d ops p = Some (0, p') -> len_ok p -> len_ok p'.
Proof.
  intros Hm. revert p. induction ops as [|[[vn name] op] ops IH]; intros p H Hp; cbn [run_adds] in H.
  { by injection H as <-. }
  destruct (run_add_cases mem d vn name op p Hm) as [[Hr _]|(vendor & a & da & v & Hr & Hda & Hv & Hl & Hrun)].
  { by rewrite Hr in H. }
  rewrite Hrun in H. cbn [mbind option_bind] in H. change (0 =? 0) with true in H. cbn iota in H.
  eapply (IH _ H). by eapply push_len_ok.
Qed.

(** Requests are assembled without a crash and with exact errors.  However many
    attributes are added, and whichever of them the dictionary knows, the additions
    return; either all succeed, or the first that is refused returns -1, for one of the
    four reasons (no room, unknown vendor or attribute, unknown value name, no memory), and
    leaves the packet as the additions before it made it.  The length field is then the
    number of bytes of header and attributes, below the size of the buffer. *)
Theorem adds_exact mem d code ops p0 :
  mem_malloc mem = true -> rad_packet_alloc mem code = Some p0 ->
  exists r p, run_adds mem d ops p0 = Some (r, p) /\ len_ok p /\
    ((r = 0 /\ length (p_attrs p) = length ops) \/
     (r = -1 /\ exists ops1 vn name op ops2, ops = ops1 ++ (vn, name, op) :: ops2 /\
        run_adds mem d ops1 p0 = Some (0, p) /\ length (p_attrs p) = length ops1 /\
        refused mem d vn name op p)).
Proof.
  intros Hm Halloc. unfold rad_packet_alloc in Halloc. destruct (mem_pack mem); [|done].
  injection Halloc as <-. set (p0 := {| p_code := code; p_id := 1; p_len := 20; p_attrs := []; p_buf := None |}).
  assert (forall p, len_ok p -> exists r p', run_adds mem d ops p = Some (r, p') /\ len_ok p' /\
    ((r = 0 /\ length (p_attrs p') = (length (p_attrs p) + length ops)%nat) \/
     (r = -1 /\ exists ops1 vn name op ops2, ops = ops1 ++ (vn, name, op) :: ops2 /\
        run_adds mem d ops1 p = Some (0, p') /\
        length (p_attrs p') = (length (p_attrs p) + length ops1)%nat /\ refused mem d vn name op p'))) as H.
  { induction ops as [|[[vn name] op] ops IH]; intros p Hp.
    { exists 0, p. split; [done|]. split; [done|]. left. split; [done|]. cbn. lia. }
    cbn [run_adds].
    destruct (run_add_cases mem d vn name op p Hm) as [[-> Href]|(vendor & a & da & v & Hr & Hda & Hv & Hl & Hrun)].
    - cbn. exists (-1), p. split; [done|]. split; [done|]. right. split; [done|].
      exists [], vn, name, op, ops. split; [done|]. split; [done|]. split; [cbn; lia|done].
    - rewrite Hrun. cbn [mbind option_bind]. change (0 =? 0) with true. cbn iota.
      set (p1 := push_attr vn (op_attr vendor a op v) p) in *.
      assert (length (p_attrs p1) = S (length (p_attrs p))) as Hlen.
      { unfold p1. rewrite push_attrs, length_app. cbn. lia. }
      destruct (IH p1) as (r & p' & Hrun' & Hok & Hres); [by eapply push_len_ok|].
      exists r, p'. split; [done|]. split; [done|]. destruct Hres as [[-> Hn]|(-> & ops1 & vn' & name' & op' & ops2 & -> & Hr1 & Hn & Href)].
      + left. split; [done|]. cbn. lia.
      + right. split; [done|]. exists ((vn, name, op) :: ops1), vn', name', op', ops2.
        split; [done|]. split; [|split; [cbn; lia|done]].
        cbn [run_adds]. rewrite Hrun. cbn [mbind option_bind]. change (0 =? 0) with true. done. }
  apply (H p0). split; [done|]. unfold REQ_LENGTH_MAX. cbn. lia.
Qed.

(** ** The round trip *)

(** An attribute both sides find under the same type number: the dictionary entry is the
    first of its number, and its vendor uses the plain format. *)
Definition addressable (d : rad_dict_t) (vendor : option nat) (a : nat) (da : rad_dict_attr_t) : Prop :=
  da_array da = false /\ is_u8 (da_id da) /\ rad_dict_find_attr_id d vendor (da_id da) = Some a /\
  match vendor with None => da_id da <> 26 | Some v => vendor_plain d v end.

(** The addition suits the type of the attribute, and its value fits the length byte. *)
Definition op_fits (vendor : option nat) (da : rad_dict_attr_t) (op : add_op) : Prop :=
  op_len op <= (match vendor with None => 253 | Some _ => 247 end) /\
  match op with
  | OpInt _ => da_type da = ATTR_TYPE_INTEGER \/ da_type da = ATTR_TYPE_DATE
  | OpIpaddr _ => da_type da = ATTR_TYPE_IPADDR
  | OpVal _ => da_type da = ATTR_TYPE_INTEGER
  | OpIfid _ => da_type da = ATTR_TYPE_IFID
  | OpPrefix p l => da_type da = ATTR_TYPE_IPV6PREFIX /\ len p = 16 /\ 0 <= l <= 128
  | OpOctets _ | OpStr _ => da_type da = ATTR_TYPE_OCTETS \/ da_type da = ATTR_TYPE_STRING
  end.

(** The bytes of the value on the wire. *)
Definition op_body (v : rad_value_t) (op : add_op) : list Z :=
  match op with
  | OpInt z => be32 (u32 z)
  | OpIpaddr z => le32 z
  | OpVal _ => match v with VMem m => be32 (u32 (le32_at m)) | _ => [] end
  | OpIfid z => le64 z
  | OpPrefix p l => [0; u8 l] ++ p
  | OpOctets b => b
  | OpStr s => str_bytes s
  end.

(** What a received attribute [ra] holds, when it carries the addition [op]. *)
Definition read_bytes (buf : list Z) (ra : rad_attr_t) : option (list Z) :=
  match ra_val ra with ABuf off => slice buf off (ra_len ra) | v => v_bytes v (ra_len ra) end.

Definition carries (buf : list Z) (v : rad_value_t) (ra : rad_attr_t) (op : add_op) : Prop :=
  match op with
  | OpInt z | OpIpaddr z => v_mem (ra_val ra) = Some (le32 z ++ replicate 20 0)
  | OpVal _ => exists m, ra_val ra = AVal m /\ v_integer m = v_integer v
  | OpIfid z => v_mem (ra_val ra) = Some (le64 z ++ replicate 16 0)
  | OpPrefix p l => v_mem (ra_val ra) = Some (p ++ [l] ++ replicate 7 0)
  | OpOctets b => read_bytes buf ra = Some b
  | OpStr s => read_bytes buf ra = Some (str_bytes s)
  end.

Lemma le32_at_le32 z m : le32_at (le32 z ++ m) = u32 z.
Proof. unfold le32, be32. cbn [rev app le32_at]. apply of_be32_be32, u32_range. Qed.
Lemma u32_s32 z : u32 (s32 z) = u32 z.
Proof. width_lia. Qed.
Lemma u32_s32_u32 z : u32 (s32 (u32 z)) = u32 z.
Proof. width_lia. Qed.
Lemma len_le32 z : len (le32 z) = 4.
Proof. done. Qed.
Lemma len_le64 z : len (le64 z) = 8.
Proof. done. Qed.
Lemma int_of_be32 z : int_of_body (be32 (u32 z)) = s32 (u32 z).
Proof. unfold be32. cbn [int_of_body]. by rewrite of_be32_be32 by apply u32_range. Qed.
Lemma set_integer_zero z : set_integer z value_zero = VMem (le32 z ++ replicate 20 0).
Proof. done. Qed.
Lemma le32_u32 z : le32 (s32 (u32 z)) = le32 z.
Proof. unfold le32. by rewrite u32_s32_u32. Qed.

(** The body an attribute is built to. *)
Lemma op_attr_body vendor a da op v :
  op_fits vendor da op -> op_value da op = Some v ->
  (forall s, op = OpVal s -> exists m, v = VMem m) ->
  attr_body da (op_attr vendor a op v) = Some (inr (op_body v op)) /\ len (op_body v op) = op_len op.
Proof.
  intros [Hlen Hty] Hv Hval. unfold attr_body.
  destruct op as [z|z|s|z|p l|b|s]; cbn [op_value op_fits op_body op_len ra_val ra_len op_attr] in *.
  - assert (v = VMem (le32 z ++ replicate 20 0)) as -> by (injection Hv as <-; reflexivity). split; [|done].
    destruct Hty as [-> | ->]; cbn [v_mem mbind option_bind]; by rewrite le32_at_le32, u32_u32.
  - assert (v = VMem (le32 z ++ replicate 20 0)) as -> by (injection Hv as <-; reflexivity). rewrite Hty. split; [|done].
    cbn [v_mem mbind option_bind]. by rewrite slice_front.
  - destruct (Hval s eq_refl) as [m ->]. by rewrite Hty.
  - assert (v = VMem (le64 z ++ replicate 16 0)) as -> by (injection Hv as <-; reflexivity).
    rewrite Hty. split; [|done]. cbn [v_mem mbind option_bind]. by rewrite slice_front.
  - assert (v = v_prefix p l) as -> by (injection Hv as <-; reflexivity).
    destruct Hty as (Hty & Hp & Hl). rewrite Hty. unfold v_prefix. cbn [v_mem mbind option_bind].
    split; [|len_lia]. rewrite (RadWire.peek_at (p ++ [u8 l] ++ replicate 7 0) p (u8 l) (replicate 7 0) 16) by done.
    cbn [mbind option_bind]. by rewrite slice_front.
  - injection Hv as <-. split; [|done].
    assert (v_bytes (AVal (if len b =? 0 then value_zero else VPtr b)) (len b) = Some b) as Hb.
    { destruct (len b =? 0) eqn:E; to_prop.
      - destruct b; [done|]. rewrite len_cons in E. pose proof (len_nonneg b). lia.
      - by apply slice_whole. }
    destruct Hty as [-> | ->]; by rewrite Hb.
  - injection Hv as <-. split; [|done].
    destruct Hty as [-> | ->]; cbn [v_bytes]; by rewrite slice_front.
Qed.

(** What the receiver stores for that body carries the addition. *)
Lemma op_body_carried n vendor da op v buf off ra :
  attr_wf n da -> da_array da = false -> op_fits vendor da op -> op_value da op = Some v ->
  (forall s, op = OpVal s -> exists m, v = VMem m) ->
  slice buf off (op_len op) = Some (op_body v op) ->
  ra_len ra = op_len op -> ra_val ra = (value_of_body da off (op_body v op)).1 ->
  carries buf v ra op.
Proof.
  intros [Hsz _ _ _] Harr [Hlen Hty] Hv Hval Hslice Hrl Hrv. unfold carries, read_bytes. rewrite Hrl, Hrv.
  unfold value_of_body. rewrite Harr.
  destruct op as [z|z|s|z|p l|b|s]; cbn [op_value op_body op_len] in *.
  - injection Hv as <-. destruct Hty as [-> | ->]; cbn [fst v_mem];
      rewrite int_of_be32, set_integer_zero; cbn [v_mem]; by rewrite le32_u32.
  - rewrite Hty in Hsz |- *. cbn in Hsz. rewrite Hsz. change (len (le32 z) =? 4) with true. done.
  - destruct (Hval s eq_refl) as [m ->]. rewrite Hty. cbn [fst]. eexists. split; [done|].
    rewrite int_of_be32, set_integer_zero. cbn [v_integer]. f_equal. rewrite le32_at_le32. width_lia.
  - rewrite Hty in Hsz |- *. cbn in Hsz. rewrite Hsz. change (len (le64 z) =? 8) with true. done.
  - destruct Hty as (Hty & Hp & Hl). rewrite Hty. cbn [app].
    assert (u8 l = l) as -> by width_lia.
    rewrite (proj2 (Z.ltb_ge 18 (len (0 :: l :: p)))) by len_lia. rewrite (proj2 (Z.ltb_ge 128 l)) by lia.
    cbn [orb fst v_mem v_prefix]. assert (16 - length p = 0)%nat as -> by (unfold len in Hp; lia).
    rewrite app_nil_r. by assert (u8 l = l) as -> by width_lia.
  - destruct Hty as [-> | ->]; cbn [fst]; [done|]. cbn [v_bytes]. by apply slice_front.
  - destruct Hty as [-> | ->]; cbn [fst]; [done|]. cbn [v_bytes]. by apply slice_front.
Qed.

(** An addition [x] and the attribute on the wire it becomes. *)
Definition op_wire (d : rad_dict_t) (x : option string * string * add_op) (w : wattr) : Prop :=
  let '(vn, name, op) := x in
  exists vendor a da v, resolve d vn name = Some (vendor, a) /\ d_attrs d !! a = Some da /\
    op_value da op = Some v /\ addressable d vendor a da /\ op_fits vendor da op /\
    w = {| w_vendor := vendor; w_id := da_id da; w_body := op_body v op |}.

(** An addition and the attribute it puts into the packet. *)
Definition op_built (d : rad_dict_t) (x : option string * string * add_op) (ra : rad_attr_t) : Prop :=
  let '(vn, name, op) := x in
  exists vendor a da v, resolve d vn name = Some (vendor, a) /\ d_attrs d !! a = Some da /\
    op_value da op = Some v /\ ra = op_attr vendor a op v.

Definition op_ok (d : rad_dict_t) (x : option string * string * add_op) : Prop :=
  let '(vn, name, op) := x in
  exists vendor a da, resolve d vn name = Some (vendor, a) /\ d_attrs d !! a = Some da /\
    addressable d vendor a da /\ op_fits vendor da op.

(** An addition and the attribute the receiver reads. *)
Definition op_received (d : rad_dict_t) (buf : list Z) (x : option string * string * add_op)
    (ra : rad_attr_t) : Prop :=
  let '(vn, name, op) := x in
  resolve d vn name = Some (ra_vendor ra, ra_attr ra) /\ ra_len ra = op_len op /\
  exists da v, d_attrs d !! ra_attr ra = Some da /\ op_value da op = Some v /\ carries buf v ra op.

Lemma run_adds_built mem d ops p p' :
  mem_malloc mem = true -> run_adds mem d ops p = Some (0, p') ->
  p_code p' = p_code p /\ p_id p' = p_id p /\ p_buf p' = p_buf p /\
  exists attrs, p_attrs p' = p_attrs p ++ attrs /\ Forall2 (op_built d) ops attrs.
Proof.
  intros Hm. revert p. induction ops as [|[[vn name] op] ops IH]; intros p H; cbn [run_adds] in H.
  { injection H as <-. repeat split. exists []. by rewrite app_nil_r. }
  destruct (run_add_cases mem d vn name op p Hm) as [[Hr _]|(vendor & a & da & v & Hr & Hda & Hv & _ & Hrun)].
  { by rewrite Hr in H. }
  rewrite Hrun in H. cbn [mbind option_bind] in H. change (0 =? 0) with true in H. cbn iota in H.
  destruct (IH _ H) as (H1 & H2 & H3 & attrs & H4 & H5).
  rewrite H1, H2, H3, H4, push_attrs. destruct p. split; [done|]. split; [done|]. split; [done|].
  eexists. rewrite <- app_assoc. split; [done|]. constructor; [|done]. by exists vendor, a, da, v.
Qed.

Lemma value_mem d a da op v :
  dict_wf d -> d_attrs d !! a = Some da -> op_value da op = Some v -> forall vendor, op_fits vendor da op ->
  forall s, op = OpVal s -> exists m, v = VMem m.
Proof.
  intros Hd Hda Hv vendor [_ Hty] s ->. cbn in *.
  destruct (rad_dict_find_val_name da s) as [x|] eqn:Hf; [|done]. cbn in Hv. injection Hv as <-.
  apply first_match_Some in Hf as [Hin _]. pose proof (wf_values _ _ (dict_attr_wf d a da Hd Hda)) as Hw.
  rewrite Hty in Hw. destruct (proj1 (List.Forall_forall _ _) Hw x (proj1 (list_elem_of_In _ _) Hin)) as (m & Hm & _).
  by exists m.
Qed.

Lemma op_wire_bytes d x ra :
  dict_wf d -> op_built d x ra -> op_ok d x ->
  exists w, op_wire d x w /\ wire_ok d w /\ attr_bytes d ra (wire d w).
Proof.
  destruct x as [[vn name] op]. intros Hd (vendor & a & da & v & Hr & Hda & Hv & ->) (vendor' & a' & da' & Hr' & Hda' & Had & Hf).
  rewrite Hr in Hr'. injection Hr' as <- <-. rewrite Hda in Hda'. injection Hda' as <-.
  eexists. split; [by exists vendor, a, da, v|].
  destruct (op_attr_body vendor a da op v Hf Hv) as [Hb Hl]; [by eapply value_mem|].
  destruct Had as (Harr & Hid & Hfind & Hven). pose proof (proj1 Hf) as Hlen.
  pose proof (len_nonneg (op_body v op)). split.
  - split; [done|]. cbn. rewrite Hl. by destruct vendor.
  - exists da, (wire_head d {| w_vendor := vendor; w_id := da_id da; w_body := op_body v op |}), (op_body v op).
    split; [done|]. split; [|by split; [done|split; [done|]]].
    unfold attr_head, wire_head. cbn [ra_vendor ra_len op_attr w_vendor w_id w_body].
    assert (u8 (da_id da) = da_id da) as -> by width_lia.
    assert (u8 (op_len op + 2) = op_len op + 2) as -> by (destruct vendor; width_lia).
    rewrite Hl. destruct vendor as [k|]; [|done]. destruct Hven as (vd & Hvd & _).
    unfold vendor_number. rewrite Hvd. cbn [mbind option_bind].
    by assert (u8 (op_len op + 2 + 6) = op_len op + 8) as -> by width_lia.
Qed.

Lemma attrs_size_bytes d attrs ws :
  Forall2 (attr_bytes d) attrs (wire d <$> ws) -> attrs_size attrs = len (wires d ws).
Proof.
  revert ws. induction attrs as [|ra attrs IH]; intros ws HF; destruct ws as [|w ws]; cbn in HF;
    [done|by apply Forall2_nil_cons_inv in HF|by apply Forall2_cons_nil_inv in HF|].
  apply Forall2_cons in HF as [(da & h & b & Hda & Hh & Hb & Hl & Hw) HF].
  rewrite wires_cons, len_app, <- (IH ws HF), Hw, len_app, Hl. cbn [attrs_size foldr].
  change (foldr (fun ra n => attr_size ra + n) 0 attrs) with (attrs_size attrs).
  assert (len h = match ra_vendor ra with Some _ => 8 | None => 2 end) as ->.
  { unfold attr_head in Hh. destruct (ra_vendor ra) as [v|]; [|by injection Hh as <-].
    destruct (d_vendors d !! v); [|done]. by injection Hh as <-. }
  unfold attr_size. lia.
Qed.

(** The receiver's list, addition by addition. *)
Lemma stores_received d ops ws pre post :
  dict_wf d -> Forall2 (op_wire d) ops ws ->
  Forall2 (op_received d (pre ++ wires d ws ++ post)) ops (stores d (len pre) ws).
Proof.
  intros Hd HF. revert pre. induction HF as [|x w ops ws Hx HF IH]; intros pre; [constructor|].
  rewrite wires_cons. cbn [stores].
  assert (exists ra, stored d (len pre) w = [ra] /\
    op_received d (pre ++ (wire d w ++ wires d ws) ++ post) x ra) as (ra & -> & Hra).
  { destruct x as [[vn name] op]. destruct Hx as (vendor & a & da & v & Hr & Hda & Hv & Had & Hf & ->).
    destruct Had as (Harr & Hid & Hfind & _). set (w := {| w_vendor := vendor |}).
    destruct (op_attr_body vendor a da op v Hf Hv) as [_ Hl]; [by eapply value_mem|].
    unfold stored. cbn [w_vendor w_id w]. rewrite Hfind, Hda.
    destruct (value_of_body da (len pre + len (wire_head d w)) (w_body w)) as [val al] eqn:Hval.
    eexists. split; [reflexivity|]. split; [done|]. split; [done|]. exists da, v. split; [done|]. split; [done|].
    eapply (op_body_carried (length (d_attrs d)) vendor da op v _ (len pre + len (wire_head d w)));
      [by eapply dict_attr_wf|done|done|done|by eapply value_mem| |done|change (op_body v op) with (w_body w); by rewrite Hval].
    rewrite <- Hl, <- len_app. unfold wire. rewrite <- !app_assoc, (app_assoc pre). apply slice_app. }
  cbn [app]. constructor; [done|].
  replace (len pre + len (wire d w)) with (len (pre ++ wire d w)) by len_lia.
  replace (pre ++ (wire d w ++ wires d ws) ++ post) with ((pre ++ wire d w) ++ wires d ws ++ post)
    by (by rewrite <- !app_assoc). apply IH.
Qed.

Lemma built_wires d ops attrs :
  dict_wf d -> Forall2 (op_built d) ops attrs -> Forall (op_ok d) ops ->
  exists ws, Forall2 (op_wire d) ops ws /\ Forall (wire_ok d) ws /\
    Forall2 (attr_bytes d) attrs (wire d <$> ws).
Proof.
  intros Hd HF. induction HF as [|x ra ops attrs Hx HF IH]; intros Hok.
  { exists []. by repeat constructor. }
  apply Forall_cons in Hok as [Hx' Hok]. destruct (IH Hok) as (ws & H1 & H2 & H3).
  destruct (op_wire_bytes d x ra Hd Hx Hx') as (w & Hw & Hwok & Hb).
  exists (w :: ws). by repeat split; constructor.
Qed.


(** A value too long for the length byte smuggles attributes.  Nothing bounds a value
    by the 253 bytes an attribute can hold: the length byte is stored modulo 256.  Add one
    string whose bytes are [x] followed by the wire form of any attributes [ws] of 256
    bytes in all - a Calling-Station-Id or User-Name that a peer chose - to an empty request:
    the addition succeeds, and what is sent is read, by a receiver that follows the same
    format, as the attribute with value [x] followed by all of [ws], although the request
    holds one attribute only. *)
Theorem long_value_injects mem d code name s a da x ws p0 RA buf stale :
  mem_pack mem = true -> mem_attr mem = true -> mem_malloc mem = true ->
  mem_buf mem = Some buf -> len buf = REQ_LENGTH_MAX -> dict_wf d -> is_u8 code -> len RA = 16 ->
  resolve d None name = Some (None, a) -> d_attrs d !! a = Some da ->
  da_type da = ATTR_TYPE_STRING -> addressable d None a da ->
  Forall (wire_ok d) ws -> len (wires d ws) = 256 -> len x <= 253 -> str_bytes s = x ++ wires d ws ->
  rad_packet_alloc mem code = Some p0 ->
  exists p p' data q,
    rad_packet_add_str mem d None name s p0 = Some (0, p) /\ length (p_attrs p) = 1%nat /\
    rad_packet_build mem d p RA = Some (0, p') /\ rad_packet_send p' = Some data /\
    rad_packet_recv mem d stale (RxData data) = RecvDone 0 (Some q) /\
    p_attrs q = stores d 20 ({| w_vendor := None; w_id := da_id da; w_body := x |} :: ws).
Proof.
  intros Hpack Hattr Hmalloc Hbuf Hlen Hd Hcode HRA Hr Hda Hty (_ & Hid & _ & H26) Hok H256 Hx Hs Halloc.
  unfold rad_packet_alloc in Halloc. rewrite Hpack in Halloc. injection Halloc as <-.
  set (p0 := {| p_code := code; p_id := 1; p_len := 20; p_attrs := []; p_buf := None |}).
  set (w := {| w_vendor := None; w_id := da_id da; w_body := x |}).
  pose proof (len_nonneg x). assert (len (str_bytes s) = len x + 256) as Hls by (rewrite Hs; len_lia).
  set (ra := op_attr None a (OpStr s) (VPtr (str_bytes s ++ [0]))).
  exists (push_attr None ra p0).
  assert (rad_packet_add_str mem d None name s p0 = Some (0, push_attr None ra p0)) as Hadd.
  { change (run_add mem d None name (OpStr s) p0 = Some (0, push_attr None ra p0)).
    rewrite run_add_eq by done. cbn [op_len op_value hdr_size p0 p_len].
    rewrite (proj2 (Z.leb_gt _ _)) by (unfold REQ_LENGTH_MAX; lia). by rewrite Hr, Hda, Hattr. }
  assert (attr_bytes d ra (wires d (w :: ws))) as Hb.
  { exists da, (wire_head d w), (str_bytes s). split; [done|]. split; [|split; [|split; [done|]]].
    - unfold attr_head, wire_head. cbn [ra_vendor ra_len op_attr ra w w_vendor w_id w_body op_len].
      rewrite Hls. do 2 f_equal; [width_lia|]. f_equal. width_lia.
    - unfold attr_body. rewrite Hty. cbn [ra_val ra op_attr v_bytes ra_len op_len]. by rewrite slice_front.
    - rewrite wires_cons, Hs. unfold wire. by rewrite <- app_assoc. }
  assert (len (wires d (w :: ws)) = 2 + len x + 256) as Hw.
  { rewrite wires_cons, len_app, H256. unfold wire, wire_head. cbn. len_lia. }
  destruct (build_bytes mem d (push_attr None ra p0) RA [wires d (w :: ws)] buf) as (p' & Hbuild & Hsend);
    [done|done|done|by repeat constructor|done| | |].
  { cbn [concat]. rewrite app_nil_r, Hw, push_len. cbn [hdr_size ra ra_len op_attr op_len p0 p_len]. lia. }
  { rewrite push_len. cbn [hdr_size ra ra_len op_attr op_len p0 p_len]. unfold REQ_LENGTH_MAX. lia. }
  cbn [concat] in Hsend. rewrite app_nil_r in Hsend.
  assert (p_len (push_attr None ra p0) = 20 + len (wires d (w :: ws))) as Hpl.
  { rewrite push_len, Hw. cbn [hdr_size ra ra_len op_attr op_len p0 p_len]. lia. }
  unfold pack_head in Hsend. rewrite Hpl in Hsend.
  replace (take 16 RA) with RA in Hsend by (symmetry; apply take_ge; unfold len in HRA; lia).
  change (p_code (push_attr None ra p0)) with code in Hsend. change (p_id (push_attr None ra p0)) with 1 in Hsend.
  assert (u8 code = code) as Hc8 by width_lia.
  assert (u16 (20 + len (wires d (w :: ws))) = 20 + len (wires d (w :: ws))) as Hl16 by width_lia.
  rewrite Hc8, Hl16, <- !app_assoc in Hsend.
  pose proof (recv_datagram mem d Hmalloc Hattr Hd stale code 1 (20 + len (wires d (w :: ws))) RA (w :: ws) Hpack)
    as Hrecv. cbv zeta in Hrecv.
  eexists p', _, _. split; [exact Hadd|]. split; [done|]. split; [exact Hbuild|]. split; [exact Hsend|].
  split; [apply Hrecv; [|done|width_lia|unfold REQ_LENGTH_MAX; lia]|done].
  constructor; [|done]. by split.
Qed.
End RadRoundtrip.

(** ** Examples *)

Module RadDemo.
Import RadBuild RadRecv RadWire RadRoundtrip.

Definition request0 : rad_packet_t := {| p_code := 1; p_id := 1; p_len := 20; p_attrs := []; p_buf := None |}.
Definition ops : list (option string * string * add_op) :=
  [(None, "User-Name", OpStr "bob"); (None, "NAS-Port", OpInt 7);
   (None, "Framed-IP-Address", OpIpaddr (16777226)); (Some "Demo", "Demo-Policy", OpVal "On");
   (None, "Framed-Interface-Id", OpIfid 81985529216486895);
   (None, "Framed-IPv6-Prefix", OpPrefix ([32; 1; 13; 184] ++ replicate 12 0) 64);
   (None, "Class", OpOctets [1; 0; 255])].
Definition built : rad_packet_t :=
  Eval vm_compute in
    match run_adds RadSafe.mem_full DictDemo.dict ops request0 with Some (_, p) => p | None => request0 end.

Lemma dict_vendor_plain : vendor_plain DictDemo.dict 0.
Proof. eexists. split; [reflexivity|]. split; [reflexivity|]. split; [reflexivity|]. split; [cbn; width_lia|reflexivity]. Qed.

Ltac demo_ok :=
  eexists _, _, _; split; [reflexivity|]; split; [reflexivity|]; split;
  [split; [reflexivity|]; split; [cbn; width_lia|]; split; [reflexivity|];
   first [exact dict_vendor_plain|discriminate]
  |split; [vm_compute; discriminate|cbn; auto]].

Lemma ops_ok : Forall (op_ok DictDemo.dict) ops.
Proof.
  repeat (constructor; [demo_ok|]); [|constructor].
  split; [reflexivity|]. split; [reflexivity|lia].
Qed.


Lemma adds_exact_witness :
  exists r p, run_adds RadSafe.mem_full DictDemo.dict (ops ++ [(None, "No-Such-Attribute", OpInt 1)]) request0 =
    Some (r, p) /\ len_ok p.
Proof.
  destruct (adds_exact RadSafe.mem_full DictDemo.dict 1 (ops ++ [(None, "No-Such-Attribute", OpInt 1)]) request0
    eq_refl eq_refl) as (r & p & H1 & H2 & _).
  exists r, p. split; [exact H1|exact H2].
Defined.

(** A station identifier of 259 characters that carries a user name of its own. *)
Definition smuggled : list wattr :=
  [{| w_vendor := None; w_id := 1; w_body := str_bytes "root" |};
   {| w_vendor := None; w_id := 18; w_body := replicate 248 65 |}].
Fixpoint of_bytes (l : list Z) : string :=
  match l with [] => "" | x :: l => String (ascii_of_N (Z.to_N x)) (of_bytes l) end.
Definition station : string := of_bytes (str_bytes "00:" ++ wires DictDemo.dict smuggled).

Lemma smuggled_ok : Forall (wire_ok DictDemo.dict) smuggled.
Proof.
  constructor; [|constructor; [|constructor]];
    (split; [cbn; width_lia|]; split; [discriminate|vm_compute; discriminate]).
Qed.

Lemma long_value_injects_witness :
  exists p p' data q,
    rad_packet_add_str RadSafe.mem_full DictDemo.dict None "Calling-Station-Id" station request0 = Some (0, p) /\
    length (p_attrs p) = 1%nat /\
    rad_packet_build RadSafe.mem_full DictDemo.dict p (replicate 16 9) = Some (0, p') /\
    rad_packet_send p' = Some data /\
    rad_packet_recv RadSafe.mem_full DictDemo.dict (replicate (Z.to_nat 4096) 0) (RxData data) = RecvDone 0 (Some q) /\
    p_attrs q = stores DictDemo.dict 20
      ({| w_vendor := None; w_id := 31; w_body := str_bytes "00:" |} :: smuggled).
Proof.
  apply (long_value_injects RadSafe.mem_full DictDemo.dict 1 "Calling-Station-Id" station 6
    {| da_name := "Calling-Station-Id"; da_id := 31; da_type := ATTR_TYPE_STRING; da_array := false;
       da_size := 0; da_values := []; da_tlv := [] |} (str_bytes "00:") smuggled request0 (replicate 16 9)
    (replicate (Z.to_nat 4096) 0) (replicate (Z.to_nat 4096) 0)).
  - reflexivity.
  - reflexivity.
  - reflexivity.
  - reflexivity.
  - vm_compute. reflexivity.
  - exact DictDemo.dict_ok.
  - width_lia.
  - reflexivity.
  - reflexivity.
  - reflexivity.
  - reflexivity.
  - split; [reflexivity|]. split; [cbn; width_lia|]. split; [reflexivity|discriminate].
  - exact smuggled_ok.
  - vm_compute. reflexivity.
  - vm_compute. discriminate.
  - vm_compute. reflexivity.
  - reflexivity.
Defined.
End RadDemo.
