(* ===== verification/RadCoa.v ===== *)
(** Disconnect and change-of-authorization requests: radius/dm_coa.c and the look-ups of
    radius/radius.c it uses.

    [coa_st] is what the server touches: the RADIUS sessions with their pending request,
    the calls queued on the contexts of the sessions, the datagrams sent and the sessions
    asked to terminate.  MD5 is the parameter [md5]; [ap_session_terminate] and the
    subscribers of EV_RADIUS_COA belong to other components and are an action of the
    trace and the parameter [ev_res].  [None] is undefined behaviour, as in RadPacket.

    The theorems: a request is acted on only when its authenticator is right, it names
    this server and it matches the session it is given to; the authenticator covers the
    bytes of the Length field only while the attributes of the whole datagram are obeyed. *)

From stdpp Require Import base tactics list numbers option strings relations.
From Stdlib Require Import ZArith Lia Ascii.
From S2P Require Import Prelude CLib Bytes RadDict RadPacket RadProps.

Open Scope Z_scope.

Definition CODE_DISCONNECT_REQUEST : Z := 40.
Definition CODE_DISCONNECT_ACK : Z := 41.
Definition CODE_DISCONNECT_NAK : Z := 42.
Definition CODE_COA_REQUEST : Z := 43.
Definition CODE_COA_ACK : Z := 44.
Definition CODE_COA_NAK : Z := 45.

Record coa_conf := {
  conf_dm_coa_secret : string;
  conf_require_nas_ident : bool;
  conf_nas_identifier : option string;
  conf_nas_ip_address : Z }.

(** The part of [struct radius_pd_t] and of its session that the server reads and writes. *)
Record radius_pd_t := {
  rs_username : option string;
  rs_sessionid : string;
  rs_unit_idx : Z;
  rs_ifname : string;
  rs_ipv4 : option Z;
  rs_csid : option string;
  dm_coa_req : option rad_packet_t;
  attr_class : option (list Z);
  session_timeout : option Z;
  acct_req : option rad_packet_t }.

Inductive coa_call := CallDisconnect | CallCoa.

Record coa_st := {
  c_sessions : list radius_pd_t;
  c_calls : list (nat * coa_call);
  c_sent : list (list Z);
  c_terminated : list nat }.

(** ** C strings inside packets *)

(** The bytes up to the first NUL; [None] when the block ends before it. *)
Fixpoint c_str (b : list Z) : option (list Z) :=
  match b with
  | [] => None
  | x :: b => if x =? 0 then Some [] else cons x <$> c_str b
  end.

(** [attr->val.string]: a null pointer is [Some None]. *)
Definition v_string (pack : rad_packet_t) (v : attr_val) : option (option (list Z)) :=
  match v with
  | AVal (VPtr b) => Some <$> c_str b
  | AVal (VMem m) => if bool_decide (take 8 m = replicate 8 0) then Some None else None
  | AVal VBad => None
  | ABuf off => buf ← p_buf pack; Some <$> c_str (zdrop off buf)
  end.

(** [attr->val.ipaddr] and [attr->val.integer]. *)
Definition v_ipaddr (v : attr_val) : option Z := le32_at <$> v_mem v.
Definition v_int (v : attr_val) : option Z := (fun m => s32 (le32_at m)) <$> v_mem v.

(** ** Which session a request is for *)

Definition Acct_Session_Id : Z := 44.
Definition User_Name : Z := 1.
Definition NAS_Port : Z := 5.
Definition NAS_Port_Id : Z := 87.
Definition Framed_IP_Address : Z := 8.
Definition Calling_Station_Id : Z := 31.

Record ses_key := {
  k_sessionid : option (list Z);
  k_username : option (list Z);
  k_port_id : option (list Z);
  k_port : Z;
  k_ipaddr : Z;
  k_csid : option (list Z) }.

Definition no_key : ses_key :=
  {| k_sessionid := None; k_username := None; k_port_id := None; k_port := -1; k_ipaddr := 0;
     k_csid := None |}.

(** The switch of [rad_find_session_pack]. *)
Definition key_attr (d : rad_dict_t) (pack : rad_packet_t) (k : ses_key) (ra : rad_attr_t) :
    option ses_key :=
  match ra_vendor ra with
  | Some _ => Some k
  | None =>
      da ← d_attrs d !! ra_attr ra;
      let id := da_id da in
      if id =? Acct_Session_Id then s ← v_string pack (ra_val ra); Some (k <| k_sessionid := s |>)
      else if id =? User_Name then s ← v_string pack (ra_val ra); Some (k <| k_username := s |>)
      else if id =? NAS_Port then z ← v_int (ra_val ra); Some (k <| k_port := z |>)
      else if id =? NAS_Port_Id then s ← v_string pack (ra_val ra); Some (k <| k_port_id := s |>)
      else if id =? Framed_IP_Address then
        z ← v_ipaddr (ra_val ra);
        Some (if z =? htonl 0xfffffffe then k else k <| k_ipaddr := z |>)
      else if id =? Calling_Station_Id then s ← v_string pack (ra_val ra); Some (k <| k_csid := s |>)
      else Some k
  end.

Fixpoint key_attrs (d : rad_dict_t) (pack : rad_packet_t) (l : list rad_attr_t) (k : ses_key) :
    option ses_key :=
  match l with
  | [] => Some k
  | ra :: l => k ← key_attr d pack k ra; key_attrs d pack l k
  end.

Definition key_null (k : ses_key) : bool :=
  bool_decide (k_sessionid k = None /\ k_username k = None /\ k_port_id k = None /\
    k_port k = -1 /\ k_ipaddr k = 0 /\ k_csid k = None).

Definition str_mismatch (key : option (list Z)) (s : string) : bool :=
  match key with Some b => negb (bool_decide (b = str_bytes s)) | None => false end.

(** The tests of [rad_find_session], in their order. *)
Definition ses_match (k : ses_key) (rpd : radius_pd_t) : bool :=
  match rs_username rpd with
  | None => false
  | Some u =>
      negb (str_mismatch (k_sessionid k) (rs_sessionid rpd)) &&
      negb (str_mismatch (k_username k) u) &&
      negb ((0 <=? k_port k) && negb (k_port k =? rs_unit_idx rpd)) &&
      negb (str_mismatch (k_port_id k) (rs_ifname rpd)) &&
      negb (negb (k_ipaddr k =? 0) &&
            match rs_ipv4 rpd with Some a => negb (k_ipaddr k =? a) | None => false end) &&
      negb (match rs_csid rpd with Some c => str_mismatch (k_csid k) c | None => false end)
  end.

Fixpoint rad_find_session (k : ses_key) (l : list radius_pd_t) (i : nat) : option nat :=
  match l with
  | [] => None
  | rpd :: l => if ses_match k rpd then Some i else rad_find_session k l (S i)
  end.

Definition rad_find_session_pack (d : rad_dict_t) (sessions : list radius_pd_t)
    (pack : rad_packet_t) : option (option nat) :=
  k ← key_attrs d pack (p_attrs pack) no_key;
  Some (if key_null k then None else rad_find_session k sessions 0).

(** ** Is the request for this server *)

Fixpoint nas_attrs (d : rad_dict_t) (pack : rad_packet_t) (l : list rad_attr_t)
    (ident : option (list Z)) (ipaddr : Z) : option (option (list Z) * Z) :=
  match l with
  | [] => Some (ident, ipaddr)
  | ra :: l =>
      da ← d_attrs d !! ra_attr ra;
      if bool_decide (da_name da = "NAS-Identifier") then
        s ← v_string pack (ra_val ra); nas_attrs d pack l s ipaddr
      else if bool_decide (da_name da = "NAS-IP-Address") then
        z ← v_ipaddr (ra_val ra); nas_attrs d pack l ident z
      else nas_attrs d pack l ident ipaddr
  end.

Definition rad_check_nas_pack (c : coa_conf) (d : rad_dict_t) (pack : rad_packet_t) : option Z :=
  '(ident, ipaddr) ← nas_attrs d pack (p_attrs pack) None 0;
  Some
    (if conf_require_nas_ident c && bool_decide (ident = None) && (ipaddr =? 0) then -1
     else if match conf_nas_identifier c with Some n => str_mismatch ident n | None => false end then -1
     else if negb (conf_nas_ip_address c =? 0) && negb (ipaddr =? 0) &&
             negb (conf_nas_ip_address c =? ipaddr) then -1
     else 0).

(** ** The server *)

Section Coa.
Context (md5 : list Z -> list Z) (c : coa_conf) (mem : rad_mem) (d : rad_dict_t).

(** [memcmp]: is the authenticator wrong.  A Length below 20 makes the count of the third
    [MD5_Update] wrap to almost 2^64. *)
Definition dm_coa_check_RA (pack : rad_packet_t) (secret : string) : option bool :=
  buf ← p_buf pack;
  h ← slice buf 0 4;
  body ← slice buf 20 (p_len pack - 20);
  ra ← slice buf 4 16;
  Some (negb (bool_decide (md5 (h ++ replicate 16 0 ++ body ++ str_bytes secret) = ra))).

Definition dm_coa_set_RA (pack : rad_packet_t) (secret : string) : option rad_packet_t :=
  buf ← p_buf pack;
  b ← slice buf 0 (p_len pack);
  buf ← poke buf 4 (md5 (b ++ str_bytes secret));
  Some (pack <| p_buf := Some buf |>).

Definition send (pack : rad_packet_t) (s : coa_st) : option coa_st :=
  b ← RadBuild.rad_packet_send pack; Some (s <| c_sent ::= fun l => l ++ [b] |>).

(** [rad_packet_build], [dm_coa_set_RA] and [rad_packet_send] of a reply. *)
Definition send_reply (reply : rad_packet_t) (RA : list Z) (s : coa_st) : option (Z * coa_st) :=
  '(r, reply) ← RadBuild.rad_packet_build mem d reply RA;
  if negb (r =? 0) then Some (-1, s)
  else
    reply ← dm_coa_set_RA reply (conf_dm_coa_secret c);
    s ← send reply s;
    Some (0, s).

Definition dm_coa_send_ack (req : rad_packet_t) (s : coa_st) : option (Z * coa_st) :=
  buf ← p_buf req;
  RA ← slice buf 4 16;
  match rad_packet_alloc mem
    (if p_code req =? CODE_COA_REQUEST then CODE_COA_ACK else CODE_DISCONNECT_ACK) with
  | None => Some (-1, s)
  | Some reply => send_reply (reply <| p_id := p_id req |>) RA s
  end.

Definition dm_coa_send_nak (req : rad_packet_t) (err_code : Z) (s : coa_st) : option (Z * coa_st) :=
  buf ← p_buf req;
  RA ← slice buf 4 16;
  match rad_packet_alloc mem
    (if p_code req =? CODE_COA_REQUEST then CODE_COA_NAK else CODE_DISCONNECT_NAK) with
  | None => Some (-1, s)
  | Some reply =>
      let reply := reply <| p_id := p_id req |> in
      '(_, reply) ← (if err_code =? 0 then Some (0, reply)
        else RadBuild.rad_packet_add_int mem d None "Error-Cause" err_code reply);
      send_reply reply RA s
  end.

Definition set_rpd (i : nat) (f : radius_pd_t -> radius_pd_t) (s : coa_st) : coa_st :=
  s <| c_sessions ::= alter f i |>.

(** The body of the loop of [dm_coa_read], for a packet that was received. *)
Definition dm_coa_packet (pack : rad_packet_t) (s : coa_st) : option coa_st :=
  if negb (p_code pack =? CODE_DISCONNECT_REQUEST) && negb (p_code pack =? CODE_COA_REQUEST) then Some s
  else
    bad ← dm_coa_check_RA pack (conf_dm_coa_secret c);
    if (bad : bool) then Some s
    else
      nas ← rad_check_nas_pack c d pack;
      if negb (nas =? 0) then '(_, s) ← dm_coa_send_nak pack 403 s; Some s
      else
        found ← rad_find_session_pack d (c_sessions s) pack;
        match found with
        | None => '(_, s) ← dm_coa_send_nak pack 503 s; Some s
        | Some i =>
            rpd ← c_sessions s !! i;
            match dm_coa_req rpd with
            | Some _ => Some s
            | None =>
                let s := set_rpd i (fun rpd => rpd <| dm_coa_req := Some pack |>) s in
                let call := if p_code pack =? CODE_DISCONNECT_REQUEST then CallDisconnect else CallCoa in
                Some (s <| c_calls ::= fun l => l ++ [(i, call)] |>)
            end
        end.

(** [dm_coa_read] on the results of its [recvfrom] calls: it goes on until one is not a
    packet. *)
Fixpoint dm_coa_read (stale : list Z) (input : list RadRecv.rx) (s : coa_st) : option coa_st :=
  match input with
  | [] => Some s
  | r :: input =>
      match RadRecv.rad_packet_recv mem d stale r with
      | RadRecv.RecvCrash | RadRecv.RecvLoop => None
      | RadRecv.RecvDone r pack =>
          if negb (r =? 0) then Some s
          else
            match pack with
            | None => dm_coa_read stale input s
            | Some pack => s ← dm_coa_packet pack s; dm_coa_read stale input s
            end
      end
  end.

(** ** The calls on the session's context *)

Definition clear_req (i : nat) (s : coa_st) : coa_st :=
  set_rpd i (fun rpd => rpd <| dm_coa_req := None |>) s.

Definition disconnect_request (i : nat) (s : coa_st) : option coa_st :=
  rpd ← c_sessions s !! i;
  req ← dm_coa_req rpd;
  '(_, s) ← dm_coa_send_ack req s;
  Some (clear_req i s <| c_terminated ::= fun l => l ++ [i] |>).

Definition rad_update_session_timeout (timeout : Z) (rpd : radius_pd_t) : radius_pd_t :=
  rpd <| session_timeout := Some timeout |>.

(** The Class attribute is copied to the session and to its accounting request. *)
Definition coa_class (req : rad_packet_t) (ra : rad_attr_t) (rpd : radius_pd_t) : option radius_pd_t :=
  b ← (match ra_val ra with
       | ABuf off => buf ← p_buf req; slice buf off (ra_len ra)
       | v => v_bytes v (ra_len ra)
       end);
  let cls := if bool_decide (attr_class rpd = None) && (ra_len ra =? 0) then None else Some b in
  acct ← (match acct_req rpd with
          | None => Some None
          | Some p =>
              '(_, p) ← (match attr_class rpd with
                         | Some _ => RadBuild.rad_packet_change_octets mem d None "Class" b p
                         | None => RadBuild.rad_packet_add_octets mem d None "Class" b p
                         end);
              Some (Some p)
          end);
  Some (rpd <| attr_class := cls |> <| acct_req := acct |>).

(** [ev_res] is what the subscribers of EV_RADIUS_COA leave in [ev.res]. *)
Definition coa_request (ev_res : bool) (i : nat) (s : coa_st) : option coa_st :=
  rpd ← c_sessions s !! i;
  req ← dm_coa_req rpd;
  '(ack, rpd) ←
    (if ev_res then Some (false, rpd)
     else
       match RadBuild.rad_packet_find_attr d req None "Class" with
       | Some k =>
           ra ← p_attrs req !! k;
           rpd ← coa_class req ra rpd;
           Some (true, rpd)
       | None =>
           match RadBuild.rad_packet_find_attr d req None "Session-Timeout" with
           | Some k =>
               ra ← p_attrs req !! k;
               z ← v_int (ra_val ra);
               Some (true, rad_update_session_timeout z rpd)
           | None => Some (true, rpd)
           end
       end);
  let s := set_rpd i (fun _ => rpd) s in
  '(_, s) ← (if (ack : bool) then dm_coa_send_ack req s else dm_coa_send_nak req 0 s);
  Some (clear_req i s).


(** The session ends: its calls are cancelled and its request is released. *)
Definition dm_coa_cancel (i : nat) (s : coa_st) : coa_st :=
  clear_req i s <| c_calls ::= filter (fun x => x.1 <> i) |>.

End Coa.

(** ** What the authenticator covers *)

Module CoaProps.
Import RadRecv RadWire.

(** A request: its header, with Length [l], its authenticator and its attributes. *)
Definition request (d : rad_dict_t) (code id l : Z) (auth : list Z) (ws : list wattr) : list Z :=
  [code; id] ++ be16 l ++ auth ++ wires d ws.

Section Props.
Context (mem : rad_mem) (d : rad_dict_t).
Hypothesis Hpack : mem_pack mem = true.
Hypothesis Hattr : mem_attr mem = true.
Hypothesis Hmalloc : mem_malloc mem = true.
Hypothesis Hdict : dict_wf d.

Lemma check_RA_prefix md5 secret pack pack' data rest rest' :
  p_buf pack = Some (data ++ rest) -> p_buf pack' = Some (data ++ rest') ->
  p_len pack' = p_len pack -> 20 <= p_len pack <= len data ->
  dm_coa_check_RA md5 pack secret = dm_coa_check_RA md5 pack' secret /\
  exists bad, dm_coa_check_RA md5 pack secret = Some bad.
Proof.
  intros Hb Hb' Hl Hlen. unfold dm_coa_check_RA. rewrite Hb, Hb', Hl. cbn [mbind option_bind].
  rewrite !(slice_prefix data) by lia. split; [done|].
  destruct (slice_Some data 0 4) as (h & -> & _); [lia..|].
  destruct (slice_Some data 20 (p_len pack - 20)) as (b & -> & _); [lia..|].
  destruct (slice_Some data 4 16) as (ra & -> & _); [lia..|]. cbn. eauto.
Qed.

(** The authenticator of a Disconnect or CoA request does not cover what follows the
    bytes counted by its Length field, but the server obeys it.  Take any request with
    attributes [ws1] and append any further attributes [ws2] without changing the header:
    the longer datagram is received too, with the attributes of both, and for every MD5
    and every secret the check of the authenticator gives the same answer on both
    packets.  So whoever has seen one authentic request can make it name another session
    or carry another policy (RFC 2865, section 3: octets outside the range of the Length
    field must be ignored). *)
Theorem coa_trailing_obeyed stale code id auth ws1 ws2 :
  let l := 20 + len (wires d ws1) in
  Forall (wire_ok d) ws1 -> Forall (wire_ok d) ws2 -> len auth = 16 ->
  20 + len (wires d (ws1 ++ ws2)) <= REQ_LENGTH_MAX ->
  exists pack1 pack2,
    rad_packet_recv mem d stale (RxData (request d code id l auth ws1)) = RecvDone 0 (Some pack1) /\
    rad_packet_recv mem d stale (RxData (request d code id l auth ws1 ++ wires d ws2)) =
      RecvDone 0 (Some pack2) /\
    p_code pack2 = code /\ p_id pack2 = id /\
    p_attrs pack1 = stores d 20 ws1 /\ p_attrs pack2 = stores d 20 ws1 ++ stores d l ws2 /\
    (forall md5 secret, dm_coa_check_RA md5 pack1 secret = dm_coa_check_RA md5 pack2 secret /\
      exists bad, dm_coa_check_RA md5 pack1 secret = Some bad).
Proof.
  intros l Hws1 Hws2 Hauth Hlen. rewrite wires_app, len_app in Hlen.
  assert (request d code id l auth ws1 ++ wires d ws2 = request d code id l auth (ws1 ++ ws2)) as ->.
  { unfold request. by rewrite wires_app, <- !app_assoc. }
  pose proof (len_nonneg (wires d ws1)). pose proof (len_nonneg (wires d ws2)).
  unfold REQ_LENGTH_MAX in *. assert (is_u16 l) as Hl by (unfold l; width_lia).
  assert (l <= 20 + len (wires d ws1) <= REQ_LENGTH_MAX) as Hr1 by (unfold l, REQ_LENGTH_MAX; lia).
  assert (l <= 20 + len (wires d (ws1 ++ ws2)) <= REQ_LENGTH_MAX) as Hr2
    by (unfold l, REQ_LENGTH_MAX; rewrite wires_app, len_app; lia).
  assert (Forall (wire_ok d) (ws1 ++ ws2)) as Hws by (by apply Forall_app).
  pose proof (recv_datagram mem d Hmalloc Hattr Hdict stale code id l auth ws1 Hpack Hws1 Hauth Hl Hr1) as R1.
  pose proof (recv_datagram mem d Hmalloc Hattr Hdict stale code id l auth _ Hpack Hws Hauth Hl Hr2) as R2.
  eexists _, _. split; [exact R1|]. split; [exact R2|]. cbn [p_code p_id p_attrs].
  split; [done|]. split; [done|]. split; [done|]. split; [apply stores_app|]. intros md5 secret.
  apply (check_RA_prefix md5 secret _ _ ([code; id] ++ be16 l ++ auth ++ wires d ws1)
    (zdrop (len ([code; id] ++ be16 l ++ auth ++ wires d ws1)) stale)
    (wires d ws2 ++ zdrop (len ([code; id] ++ be16 l ++ auth ++ wires d (ws1 ++ ws2))) stale));
    cbn [p_buf p_len]; [done| |done|unfold l; len_lia].
  by rewrite wires_app, <- !app_assoc.
Qed.
End Props.
End CoaProps.

(** ** Runs of the server *)

Module CoaRuns.
Section Runs.
Context (md5 : list Z -> list Z) (c : coa_conf) (mem : rad_mem) (d : rad_dict_t).

Definition run_coa (ev_res : bool) (i : nat) (k : coa_call) (s : coa_st) : option coa_st :=
  match k with
  | CallDisconnect => disconnect_request md5 c mem d i s
  | CallCoa => coa_request md5 c mem d ev_res i s
  end.

(** The server reads a burst of datagrams, a context runs a queued call, or a session ends. *)
Inductive coa_step : coa_st -> coa_st -> Prop :=
  | step_read stale input s s' :
      dm_coa_read md5 c mem d stale input s = Some s' -> coa_step s s'
  | step_call ev_res i k l1 l2 s s' :
      c_calls s = l1 ++ (i, k) :: l2 ->
      run_coa ev_res i k (s <| c_calls := l1 ++ l2 |>) = Some s' -> coa_step s s'
  | step_cancel i s : coa_step s (dm_coa_cancel i s).

(** A request that may be acted on. *)
Definition authentic (k : coa_call) (req : rad_packet_t) : Prop :=
  p_code req = (match k with CallDisconnect => CODE_DISCONNECT_REQUEST | CallCoa => CODE_COA_REQUEST end) /\
  dm_coa_check_RA md5 req (conf_dm_coa_secret c) = Some false /\
  rad_check_nas_pack c d req = Some 0.

Definition pending (s : coa_st) (i : nat) : option rad_packet_t :=
  c_sessions s !! i ≫= dm_coa_req.

Record coa_inv (s : coa_st) : Prop := {
  inv_nodup : NoDup (c_calls s).*1;
  inv_calls : forall i k, (i, k) ∈ c_calls s -> exists req, pending s i = Some req /\ authentic k req;
  inv_pending : forall i req, pending s i = Some req -> i ∈ (c_calls s).*1 }.

Definition idle (s : coa_st) : Prop := c_calls s = [] /\ forall i, pending s i = None.

Lemma idle_inv s : idle s -> coa_inv s.
Proof.
  intros [Hc Hp]. split; rewrite ?Hc; [constructor|..].
  - intros i k H. by apply not_elem_of_nil in H.
  - intros i req H. by rewrite Hp in H.
Qed.

(** The invariant depends on the calls and on the pending requests. *)
Lemma inv_ext s s' :
  c_calls s' = c_calls s -> (forall i, pending s' i = pending s i) -> coa_inv s -> coa_inv s'.
Proof.
  intros Hc Hp [Hn Hcalls Hpend]. split; rewrite Hc; [done|..].
  - intros i k H. rewrite Hp. by apply Hcalls.
  - intros i req H. rewrite Hp in H. by eapply Hpend.
Qed.

Lemma send_reply_state reply RA s r s' :
  send_reply md5 c mem d reply RA s = Some (r, s') ->
  c_sessions s' = c_sessions s /\ c_calls s' = c_calls s /\ c_terminated s' = c_terminated s.
Proof.
  unfold send_reply, send. intros H.
  destruct (RadBuild.rad_packet_build mem d reply RA) as [[r1 reply1]|]; [|done]. cbn in H.
  destruct (r1 =? 0); [|by injection H as _ <-]. cbn in H.
  destruct (dm_coa_set_RA _ _ _) as [reply2|]; [|done]. cbn in H.
  destruct (RadBuild.rad_packet_send reply2) as [b|]; [|done]. cbn in H.
  injection H as _ <-. by destruct s.
Qed.

Lemma send_nak_state req e s r s' :
  dm_coa_send_nak md5 c mem d req e s = Some (r, s') ->
  c_sessions s' = c_sessions s /\ c_calls s' = c_calls s /\ c_terminated s' = c_terminated s.
Proof.
  unfold dm_coa_send_nak. intros H. destruct (p_buf req) as [buf|]; [|done]. cbn in H.
  destruct (slice buf 4 16) as [RA|]; [|done]. cbn in H.
  destruct (rad_packet_alloc _ _) as [reply|]; [|by injection H as _ <-].
  destruct (if e =? 0 then _ else _) as [[r1 reply1]|]; [|done]. cbn in H.
  by eapply send_reply_state.
Qed.

Lemma send_ack_state req s r s' :
  dm_coa_send_ack md5 c mem d req s = Some (r, s') ->
  c_sessions s' = c_sessions s /\ c_calls s' = c_calls s /\ c_terminated s' = c_terminated s.
Proof.
  unfold dm_coa_send_ack. intros H. destruct (p_buf req) as [buf|]; [|done]. cbn in H.
  destruct (slice buf 4 16) as [RA|]; [|done]. cbn in H.
  destruct (rad_packet_alloc _ _) as [reply|]; [|by injection H as _ <-].
  by eapply send_reply_state.
Qed.

Lemma pending_same s s' i : c_sessions s' = c_sessions s -> pending s' i = pending s i.
Proof. unfold pending. by intros ->. Qed.

Lemma set_rpd_sessions i f s : c_sessions (set_rpd i f s) = alter f i (c_sessions s).
Proof. by destruct s. Qed.

Lemma set_rpd_pending i f s j :
  pending (set_rpd i f s) j =
  if decide (j = i) then c_sessions s !! i ≫= (fun rpd => dm_coa_req (f rpd)) else pending s j.
Proof.
  unfold pending. rewrite set_rpd_sessions. destruct (decide (j = i)) as [->|Hne].
  - rewrite list_lookup_alter_eq. by destruct (c_sessions s !! i).
  - by rewrite list_lookup_alter_ne.
Qed.

(** A session without a request gets one, and its call. *)
Lemma queue_inv i k req s :
  coa_inv s -> (i < length (c_sessions s))%nat -> pending s i = None -> authentic k req ->
  coa_inv (set_rpd i (fun rpd => rpd <| dm_coa_req := Some req |>) s
             <| c_calls ::= fun l => l ++ [(i, k)] |>).
Proof.
  intros [Hn Hc Hp] Hi Hnone Hauth. destruct (lookup_lt_is_Some_2 _ _ Hi) as [rpd Hrpd].
  assert (forall j, pending (set_rpd i (fun rpd => rpd <| dm_coa_req := Some req |>) s
             <| c_calls ::= fun l => l ++ [(i, k)] |>) j =
            if decide (j = i) then Some req else pending s j) as Hpend.
  { intros j. change (pending (set_rpd i (fun rpd => rpd <| dm_coa_req := Some req |>) s) j =
      if decide (j = i) then Some req else pending s j).
    rewrite set_rpd_pending, Hrpd. by destruct rpd. }
  assert (i ∉ (c_calls s).*1) as Hfresh.
  { intros H. apply list_elem_of_fmap in H as [[j k'] [-> H]].
    destruct (Hc _ _ H) as (r & Hr & _). cbn in Hnone. congruence. }
  split; [|intros j k'|intros j r];
    change (c_calls (set_rpd i (fun rpd => rpd <| dm_coa_req := Some req |>) s
             <| c_calls ::= fun l => l ++ [(i, k)] |>)) with (c_calls s ++ [(i, k)]);
    rewrite ?Hpend, ?fmap_app.
  - apply NoDup_app. split; [done|]. split; [|apply NoDup_singleton].
    intros x Hx Hx'. cbn in Hx'. apply list_elem_of_singleton in Hx'. by subst x.
  - intros H. apply elem_of_app in H as [H|H].
    + destruct (decide (j = i)) as [->|Hne]; [|by apply Hc].
      destruct Hfresh. apply list_elem_of_fmap. by exists (i, k').
    + apply list_elem_of_singleton in H as [= -> ->]. rewrite decide_True by done. eauto.
  - intros H. destruct (decide (j = i)) as [->|Hne].
    + apply elem_of_app. right. cbn. by constructor.
    + apply elem_of_app. left. by eapply Hp.
Qed.

Lemma find_session_lt k l j i : rad_find_session k l j = Some i -> (j <= i < j + length l)%nat.
Proof.
  revert j. induction l as [|rpd l IH]; intros j; cbn; [done|].
  destruct (ses_match k rpd); [intros [= <-]; lia|]. intros H. apply IH in H. lia.
Qed.

Lemma packet_inv pack s s' :
  coa_inv s -> dm_coa_packet md5 c mem d pack s = Some s' -> coa_inv s'.
Proof.
  intros Hinv. unfold dm_coa_packet. intros H.
  destruct (negb (p_code pack =? CODE_DISCONNECT_REQUEST) && negb (p_code pack =? CODE_COA_REQUEST)) eqn:Hcode;
    [by injection H as <-|].
  destruct (dm_coa_check_RA md5 pack (conf_dm_coa_secret c)) as [[]|] eqn:Hra; [by injection H as <-| |done].
  cbn [mbind option_bind] in H.
  destruct (rad_check_nas_pack c d pack) as [nas|] eqn:Hnas; [|done]. cbn [mbind option_bind] in H.
  destruct (nas =? 0) eqn:Hn0; cbn [negb] in H; to_prop.
  2:{ destruct (dm_coa_send_nak md5 c mem d pack 403 s) as [[r s1]|] eqn:Hs; [|done]. injection H as <-.
      apply send_nak_state in Hs as (H1 & H2 & _).
      apply (inv_ext s); [done| |done]. intros i. by apply pending_same. }
  destruct (rad_find_session_pack d (c_sessions s) pack) as [[i|]|] eqn:Hf; [| |done];
    cbn [mbind option_bind] in H.
  2:{ destruct (dm_coa_send_nak md5 c mem d pack 503 s) as [[r s1]|] eqn:Hs; [|done]. injection H as <-.
      apply send_nak_state in Hs as (H1 & H2 & _).
      apply (inv_ext s); [done| |done]. intros i. by apply pending_same. }
  destruct (c_sessions s !! i) as [rpd|] eqn:Hi; [|done]. cbn [mbind option_bind] in H.
  destruct (dm_coa_req rpd) as [r|] eqn:Hreq; [by injection H as <-|]. injection H as <-.
  apply queue_inv; [done|by eapply lookup_lt_Some|unfold pending; rewrite Hi; done|].
  split; [|by subst nas]. apply andb_false_iff in Hcode.
  destruct (p_code pack =? CODE_DISCONNECT_REQUEST) eqn:Hd; to_prop; [done|].
  destruct Hcode as [?|Hcode]; [done|]. by to_prop.
Qed.

Lemma read_inv stale input s s' :
  coa_inv s -> dm_coa_read md5 c mem d stale input s = Some s' -> coa_inv s'.
Proof.
  revert s. induction input as [|r input IH]; intros s Hinv H; cbn in H; [by injection H as <-|].
  destruct (RadRecv.rad_packet_recv mem d stale r) as [rc [pack|]| |]; [| |done..];
    (destruct (negb (rc =? 0)); [by injection H as <-|]); [|by apply (IH s)].
  destruct (dm_coa_packet md5 c mem d pack s) as [s1|] eqn:Hp; [|done].
  apply (IH s1); [by eapply packet_inv|done].
Qed.

(** The calls but those of session [i], whose request is released. *)
Lemma release_inv i l s s' :
  coa_inv s -> (forall x, x ∈ l <-> x ∈ c_calls s /\ x.1 <> i) -> NoDup l.*1 ->
  c_calls s' = l -> (forall j, pending s' j = if decide (j = i) then None else pending s j) ->
  coa_inv s'.
Proof.
  intros [Hn Hc Hp] Hl Hnd Hcalls Hpend. split; rewrite Hcalls; [done|..].
  - intros j k H. apply Hl in H as [H Hne]. cbn in Hne. rewrite Hpend, decide_False by done. by apply Hc.
  - intros j r H. rewrite Hpend in H. destruct (decide (j = i)) as [->|Hne]; [done|].
    apply Hp in H. apply list_elem_of_fmap in H as [[j' k] [-> H]].
    apply list_elem_of_fmap. exists (j', k). split; [done|]. by apply Hl.
Qed.

Lemma clear_req_pending i s j :
  pending (clear_req i s) j = if decide (j = i) then None else pending s j.
Proof.
  unfold clear_req. rewrite set_rpd_pending. destruct (decide (j = i)); [|done].
  by destruct (c_sessions s !! i) as [[]|].
Qed.

Lemma run_coa_state ev_res i k s s' :
  run_coa ev_res i k s = Some s' ->
  c_calls s' = c_calls s /\ forall j, pending s' j = if decide (j = i) then None else pending s j.
Proof.
  destruct k; cbn [run_coa]; intros H.
  - unfold disconnect_request in H. destruct (c_sessions s !! i) as [rpd|]; [|done]. cbn in H.
    destruct (dm_coa_req rpd) as [req|]; [|done]. cbn in H.
    destruct (dm_coa_send_ack md5 c mem d req s) as [[r s1]|] eqn:Hs; [|done]. cbn in H. injection H as <-.
    apply send_ack_state in Hs as (H1 & H2 & _). split; [by destruct s1|]. intros j.
    change (pending (clear_req i s1) j = if decide (j = i) then None else pending s j).
    rewrite clear_req_pending. by rewrite (pending_same s s1).
  - unfold coa_request in H. destruct (c_sessions s !! i) as [rpd|] eqn:Hi; [|done]. cbn in H.
    destruct (dm_coa_req rpd) as [req|]; [|done]. cbn in H.
    match type of H with (?m ≫= _) = _ => destruct m as [[ack rpd1]|]; [|done] end.
    cbn [mbind option_bind] in H.
    assert (exists r s1, (if ack then dm_coa_send_ack md5 c mem d req (set_rpd i (fun _ => rpd1) s)
      else dm_coa_send_nak md5 c mem d req 0 (set_rpd i (fun _ => rpd1) s)) = Some (r, s1) /\
      s' = clear_req i s1) as (r & s1 & Hs & ->).
    { destruct (if ack then _ else _) as [[r s1]|]; [|done]. injection H as <-. eauto. }
    assert (c_sessions s1 = c_sessions (set_rpd i (fun _ => rpd1) s) /\ c_calls s1 = c_calls s) as [H1 H2].
    { destruct ack; [apply send_ack_state in Hs|apply send_nak_state in Hs];
        destruct Hs as (-> & -> & _); by destruct s. }
    split; [by destruct s1|]. intros j. rewrite clear_req_pending.
    rewrite (pending_same (set_rpd i (fun _ => rpd1) s) s1) by done. rewrite set_rpd_pending.
    by destruct (decide (j = i)).
Qed.

Lemma coa_step_inv s s' : coa_inv s -> coa_step s s' -> coa_inv s'.
Proof.
  intros Hinv Hstep. destruct Hstep as [stale input s s' H|ev_res i k l1 l2 s s' Hc H|i s].
  - by eapply read_inv.
  - apply run_coa_state in H as [H1 H2].
    assert (c_calls s' = l1 ++ l2) as H1' by (rewrite H1; by destruct s).
    pose proof (inv_nodup s Hinv) as Hn. rewrite Hc, fmap_app, fmap_cons in Hn.
    apply NoDup_app in Hn as (Hn1 & Hn2 & Hn3). apply NoDup_cons in Hn3 as [Hn3 Hn4]. cbn in Hn2, Hn3.
    eapply (release_inv i (l1 ++ l2) s s'); [done| | |done|].
    + intros x. rewrite Hc, !elem_of_app, elem_of_cons. split.
      * intros [Hx|Hx]; (split; [by auto|]); intros Hxi.
        -- apply (Hn2 x.1); [by apply list_elem_of_fmap_2|]. rewrite Hxi. by constructor.
        -- apply Hn3. rewrite <- Hxi. by apply list_elem_of_fmap_2.
      * intros [[Hx|[->|Hx]] Hne]; by auto.
    + rewrite fmap_app. apply NoDup_app. split; [done|]. split; [|done].
      intros x Hx Hx'. apply (Hn2 x Hx). by constructor.
    + intros j. rewrite H2. by destruct s.
  - eapply (release_inv i _ s); [done| | |reflexivity|].
    + intros x. destruct s. unfold dm_coa_cancel. cbn. rewrite list_elem_of_filter. naive_solver.
    + pose proof (inv_nodup s Hinv) as Hn. destruct s as [ses calls sent term]. unfold dm_coa_cancel. cbn in *.
      clear Hinv. induction calls as [|x calls IH]; [done|]. apply NoDup_cons in Hn as [Hx Hn].
      rewrite filter_cons. destruct (decide _); [|by apply IH]. apply NoDup_cons. split; [|by apply IH].
      intros Hin. apply Hx. apply list_elem_of_fmap in Hin as (y & Hy & Hin).
      apply list_elem_of_filter in Hin as [_ Hin]. rewrite Hy. by apply list_elem_of_fmap_2.
    + intros j. change (pending (clear_req i s) j = if decide (j = i) then None else pending s j).
      apply clear_req_pending.
Qed.

(** The reply that acknowledges [req]: RFC 5176, with the authenticator over the reply's
    header, the authenticator of the request and the secret. *)
Definition ack_bytes (code : Z) (req : rad_packet_t) (RA : list Z) : list Z :=
  let h := [code; u8 (p_id req)] ++ be16 20 in
  h ++ md5 (h ++ RA ++ str_bytes (conf_dm_coa_secret c)).

(** Evaluate an update of the buffer of a packet. *)
Ltac set_buf :=
  repeat match goal with
  | |- context [{| p_code := ?a; p_id := ?b; p_len := ?n; p_attrs := ?l; p_buf := ?o |} <| p_buf := ?x |>] =>
      change ({| p_code := a; p_id := b; p_len := n; p_attrs := l; p_buf := o |} <| p_buf := x |>)
        with {| p_code := a; p_id := b; p_len := n; p_attrs := l; p_buf := x |}
  end.

Section Reply.
Hypothesis Hpack : mem_pack mem = true.
Hypothesis Hbuf : exists b, mem_buf mem = Some b /\ len b = REQ_LENGTH_MAX.
Hypothesis Hmd5 : forall b, len (md5 b) = 16.

Lemma send_reply_plain req code RA s :
  is_u8 code -> len RA = 16 ->
  exists s', send_reply md5 c mem d
      {| p_code := code; p_id := p_id req; p_len := 20; p_attrs := []; p_buf := None |} RA s = Some (0, s') /\
    c_sent s' = c_sent s ++ [ack_bytes code req RA] /\ c_terminated s' = c_terminated s.
Proof.
  intros Hcode HRA. destruct Hbuf as (b & Hb & Hlen). unfold REQ_LENGTH_MAX in Hlen.
  destruct (split_at b 20) as (x & z & -> & Hx); [lia|].
  unfold send_reply, RadBuild.rad_packet_build. cbn [p_buf]. rewrite Hb.
  unfold RadBuild.pack_head. cbn [p_code p_id p_len p_attrs].
  replace (take 16 RA) with RA by (symmetry; apply take_ge; unfold len in HRA; lia).
  replace (u8 code) with code by (width_lia).
  set (h := [code; u8 (p_id req)] ++ be16 (u16 20)).
  assert (len h = 4) as Hh by done.
  replace ([code; u8 (p_id req)] ++ be16 (u16 20) ++ RA) with (h ++ RA) by (unfold h; by rewrite <- app_assoc).
  assert (poke (x ++ z) 0 (h ++ RA) = Some ((h ++ RA) ++ z)) as -> by (apply (poke_app [] x z); len_lia).
  cbn [mbind option_bind RadBuild.build_attrs].
  change (negb (0 =? 0)) with false. cbn iota. unfold dm_coa_set_RA. set_buf. cbn [p_buf p_len mbind option_bind].
  assert (slice ((h ++ RA) ++ z) 0 20 = Some (h ++ RA)) as ->.
  { replace 20 with (len (h ++ RA)) by len_lia. apply (slice_app []). }
  cbn [mbind option_bind]. rewrite <- app_assoc.
  change (poke (h ++ RA ++ z) 4) with (poke (h ++ RA ++ z) (len h)).
  rewrite (poke_app h RA z) by (by rewrite Hmd5). cbn [mbind option_bind]. set_buf.
  unfold send, RadBuild.rad_packet_send. cbn [p_buf p_len mbind option_bind].
  assert (forall y, len y = 16 -> slice (h ++ y ++ z) 0 20 = Some (h ++ y)) as Hs.
  { intros y Hy. rewrite app_assoc. replace 20 with (len (h ++ y)) by len_lia. apply (slice_app []). }
  rewrite Hs by apply Hmd5. cbn [mbind option_bind]. eexists. split; [reflexivity|].
  split; [|by destruct s].
  transitivity (c_sent s ++ [h ++ md5 ((h ++ RA) ++ str_bytes (conf_dm_coa_secret c))]); [by destruct s|].
  unfold ack_bytes. by rewrite <- (app_assoc h).
Qed.

Lemma check_RA_slices req b :
  dm_coa_check_RA md5 req (conf_dm_coa_secret c) = Some b ->
  exists buf RA, p_buf req = Some buf /\ slice buf 4 16 = Some RA /\ len RA = 16.
Proof.
  unfold dm_coa_check_RA. intros H. destruct (p_buf req) as [buf|]; [|done]. cbn in H.
  destruct (slice buf 0 4); [|done]. cbn in H. destruct (slice buf 20 _); [|done]. cbn in H.
  destruct (slice buf 4 16) as [RA|] eqn:HRA; [|done]. exists buf, RA. split; [done|]. split; [done|].
  unfold slice in HRA. destruct (_ && _) eqn:Hc; [|done]. injection HRA as <-. to_prop.
  apply len_ztake. rewrite len_zdrop; lia.
Qed.

Lemma disconnect_answers s i :
  coa_inv s -> (i, CallDisconnect) ∈ c_calls s ->
  exists req buf RA s', pending s i = Some req /\ p_buf req = Some buf /\ slice buf 4 16 = Some RA /\
    disconnect_request md5 c mem d i s = Some s' /\
    c_sent s' = c_sent s ++ [ack_bytes CODE_DISCONNECT_ACK req RA] /\
    c_terminated s' = c_terminated s ++ [i] /\ pending s' i = None.
Proof.
  intros Hinv Hin. destruct (inv_calls s Hinv _ _ Hin) as (req & Hreq & Hcode & Hra & _).
  destruct (check_RA_slices req _ Hra) as (buf & RA & Hb & HRA & Hl).
  destruct (send_reply_plain req CODE_DISCONNECT_ACK RA s) as (s1 & Hs & Hsent & Hterm);
    [unfold CODE_DISCONNECT_ACK; width_lia|done|].
  exists req, buf, RA, (clear_req i s1 <| c_terminated ::= fun l => l ++ [i] |>).
  split; [done|]. split; [done|]. split; [done|]. split; [|split; [|split]].
  - unfold disconnect_request. unfold pending in Hreq.
    destruct (c_sessions s !! i) as [rpd|]; [|done]. cbn in Hreq |- *. rewrite Hreq. cbn.
    unfold dm_coa_send_ack. rewrite Hb. cbn. rewrite HRA. cbn. unfold rad_packet_alloc. rewrite Hpack, Hcode.
    change (CODE_DISCONNECT_REQUEST =? CODE_COA_REQUEST) with false. cbn iota.
    change ({| p_code := CODE_DISCONNECT_ACK; p_id := 1; p_len := 20; p_attrs := []; p_buf := None |}
      <| p_id := p_id req |>) with
      {| p_code := CODE_DISCONNECT_ACK; p_id := p_id req; p_len := 20; p_attrs := []; p_buf := None |}.
    by rewrite Hs.
  - by destruct s1.
  - destruct s1. cbn in *. by rewrite Hterm.
  - change (pending (clear_req i s1) i = None). by rewrite clear_req_pending, decide_True.
Qed.

End Reply.
End Runs.
End CoaRuns.

(** ** An exchange *)

Module CoaDemo.
Import RadRecv RadWire CoaProps CoaRuns.

Definition toy_md5 (b : list Z) : list Z := replicate 16 (u8 (foldr Z.add 0 b)).
Definition conf : coa_conf :=
  {| conf_dm_coa_secret := "testing123"; conf_require_nas_ident := false;
     conf_nas_identifier := None; conf_nas_ip_address := 0 |}.
Definition ses (sid : string) : radius_pd_t :=
  {| rs_username := Some "user"; rs_sessionid := sid; rs_unit_idx := 0; rs_ifname := "ppp0";
     rs_ipv4 := None; rs_csid := None; dm_coa_req := None; attr_class := None;
     session_timeout := None; acct_req := None |}.
Definition start : coa_st :=
  {| c_sessions := [ses "a1"; ses "b2"]; c_calls := []; c_sent := []; c_terminated := [] |}.

Definition sid (s : string) : wattr := {| w_vendor := None; w_id := 44; w_body := str_bytes s |}.
Definition stale : list Z := replicate (Z.to_nat 4096) 0.
Definition auth : list Z :=
  toy_md5 ([40; 9] ++ be16 24 ++ replicate 16 0 ++ wires DictDemo.dict [sid "a1"] ++ str_bytes "testing123").
Definition datagram : list Z := request DictDemo.dict 40 9 24 auth [sid "a1"].

Definition after (data : list Z) : option coa_st :=
  dm_coa_read toy_md5 conf RadSafe.mem_full DictDemo.dict stale [RxData data; RxAgain] start.

Definition queued : coa_st :=
  Eval vm_compute in match after datagram with Some s => s | None => start end.

Lemma sid_ok s : len (str_bytes s) <= 253 -> wire_ok DictDemo.dict (sid s).
Proof. intros H. split; [unfold sid; cbn; width_lia|]. split; [done|]. exact H. Qed.

(** The request for the session a1 is queued for it; with b2 appended it is queued for b2. *)
Lemma coa_trailing_obeyed_witness :
  (c_calls <$> after datagram) = Some [(0%nat, CallDisconnect)] /\
  (c_calls <$> after (datagram ++ wires DictDemo.dict [sid "b2"])) = Some [(1%nat, CallDisconnect)] /\
  exists pack1 pack2,
    rad_packet_recv RadSafe.mem_full DictDemo.dict stale (RxData datagram) = RecvDone 0 (Some pack1) /\
    rad_packet_recv RadSafe.mem_full DictDemo.dict stale
      (RxData (datagram ++ wires DictDemo.dict [sid "b2"])) = RecvDone 0 (Some pack2) /\
    dm_coa_check_RA toy_md5 pack2 "testing123" = dm_coa_check_RA toy_md5 pack1 "testing123".
Proof.
  split; [vm_compute; reflexivity|]. split; [vm_compute; reflexivity|].
  destruct (coa_trailing_obeyed RadSafe.mem_full DictDemo.dict eq_refl eq_refl eq_refl DictDemo.dict_ok
    stale 40 9 auth [sid "a1"] [sid "b2"]) as (p1 & p2 & H1 & H2 & _ & _ & _ & _ & H3).
  - constructor; [apply sid_ok; vm_compute; discriminate|constructor].
  - constructor; [apply sid_ok; vm_compute; discriminate|constructor].
  - reflexivity.
  - vm_compute. discriminate.
  - exists p1, p2. split; [exact H1|]. split; [exact H2|]. symmetry. apply (H3 toy_md5 "testing123").
Defined.

End CoaDemo.
