(* ===== verification/RadServProps.v ===== *)
(** Theorems about RADIUS servers and requests (RadServ).

    [Admission]: the counters of a server along every run.  [Choice]: which server is
    picked.  [Retry]: when the loop of [rad_req_send] ends. *)

From stdpp Require Import base tactics list numbers option strings relations.
From Stdlib Require Import ZArith Lia.
From S2P Require Import Prelude RadServ.

Open Scope Z_scope.

Module Admission.

(** ** The invariant *)

(** The request occupies a place of server [i]. *)
Definition holds (i : nat) (r : rad_req_t) : bool := q_active r && bool_decide (q_serv r = i).
Definition waits (i : nat) (r : rad_req_t) : Prop := q_queued r = true /\ q_serv r = i.

Fixpoint count (i : nat) (l : list rad_req_t) : Z :=
  match l with
  | [] => 0
  | r :: l => Z.b2z (holds i r) + count i l
  end.

Definition queue (s : rad_server_t) : list nat := s_queue0 s ++ s_queue1 s.

Record server_ok (reqs : list rad_req_t) (i : nat) (s : rad_server_t) : Prop := {
  ok_limit : 0 <= s_req_limit s;
  ok_cnt : s_req_limit s <> 0 -> s_req_cnt s = count i reqs;
  ok_places : count i reqs <= s_req_limit s;
  ok_qcnt : s_queue_cnt s = Z.of_nat (length (queue s));
  ok_nodup : NoDup (queue s);
  ok_queue : forall q, q ∈ queue s <-> exists r, reqs !! q = Some r /\ waits i r;
  ok_full : s_req_limit s = 0 -> queue s = [] }.

Record adm (w : rworld) : Prop := {
  adm_servers : forall i s, w_servs w !! i = Some s -> server_ok (w_reqs w) i s;
  adm_excl : forall q r, w_reqs w !! q = Some r -> q_queued r = true -> q_active r = false;
  adm_serv : forall q r, w_reqs w !! q = Some r -> (q_serv r < length (w_servs w))%nat }.

(** ** Counting *)

Lemma count_nonneg i l : 0 <= count i l.
Proof. induction l as [|r l IH]; cbn; [lia|]. destruct (holds i r); cbn; lia. Qed.

Lemma count_alter i f q l r :
  l !! q = Some r -> count i (alter f q l) = count i l - Z.b2z (holds i r) + Z.b2z (holds i (f r)).
Proof.
  revert q. induction l as [|x l IH]; intros [|q] H; [done..| |].
  - cbn in H. injection H as ->. cbn. lia.
  - cbn in H. cbn. change (list_alter f q l) with (alter f q l). rewrite (IH _ H). lia.
Qed.

Lemma count_app i l1 l2 : count i (l1 ++ l2) = count i l1 + count i l2.
Proof. induction l1 as [|r l1 IH]; cbn; lia. Qed.

Lemma count_pos i q l r : l !! q = Some r -> holds i r = true -> 0 < count i l.
Proof.
  revert q. induction l as [|x l IH]; intros [|q] H Hr; [done..| |]; cbn in *.
  - injection H as ->. rewrite Hr. pose proof (count_nonneg i l). cbn. lia.
  - specialize (IH _ H Hr). destruct (holds i x); cbn; lia.
Qed.

(** ** Looking through updates *)

Lemma lookup_upd_s i f w j :
  w_servs (upd_s i f w) !! j = if decide (i = j) then f <$> w_servs w !! j else w_servs w !! j.
Proof.
  change (w_servs (upd_s i f w)) with (alter f i (w_servs w)). rewrite list_lookup_alter.
  destruct (decide (i = j)) as [->|]; done.
Qed.
Lemma reqs_upd_s i f w : w_reqs (upd_s i f w) = w_reqs w.
Proof. done. Qed.
Lemma servs_upd_q q f w : w_servs (upd_q q f w) = w_servs w.
Proof. done. Qed.
Lemma reqs_upd_q q f w : w_reqs (upd_q q f w) = alter f q (w_reqs w).
Proof. done. Qed.
Lemma now_upd_s i f w : w_now (upd_s i f w) = w_now w.
Proof. done. Qed.
Lemma length_upd_s i f w : length (w_servs (upd_s i f w)) = length (w_servs w).
Proof. change (w_servs (upd_s i f w)) with (alter f i (w_servs w)). apply length_alter. Qed.

(** The fields of a server that the invariant reads. *)
Definition same_s (s s' : rad_server_t) : Prop :=
  s_req_limit s' = s_req_limit s /\ s_req_cnt s' = s_req_cnt s /\ s_queue_cnt s' = s_queue_cnt s /\
  s_queue0 s' = s_queue0 s /\ s_queue1 s' = s_queue1 s.

Lemma server_ok_same reqs i s s' : same_s s s' -> server_ok reqs i s -> server_ok reqs i s'.
Proof.
  intros (H1 & H2 & H3 & H4 & H5) [? ? ? ? ? ? ?].
  assert (queue s' = queue s) as Hq by (unfold queue; by rewrite H4, H5).
  split; rewrite ?H1, ?H2, ?H3, ?Hq; done.
Qed.

Lemma adm_upd_s_same i f w : (forall s, same_s s (f s)) -> adm w -> adm (upd_s i f w).
Proof.
  intros Hf [Hs He Hv]. split.
  - intros j s. rewrite lookup_upd_s. destruct (decide (i = j)) as [->|]; [|apply Hs].
    destruct (w_servs w !! j) as [s0|] eqn:Hj; [|done]. intros [= <-].
    eapply server_ok_same; [apply Hf|by apply Hs].
  - exact He.
  - intros q r Hq. rewrite length_upd_s. by apply (Hv q).
Qed.

(** The fields of a request that the invariant reads. *)
Definition same_q (r r' : rad_req_t) : Prop :=
  q_serv r' = q_serv r /\ q_active r' = q_active r /\ q_queued r' = q_queued r.

Lemma server_ok_alter_q (reqs : list rad_req_t) i s q f r0 :
  reqs !! q = Some r0 -> holds i (f r0) = holds i r0 -> (waits i (f r0) <-> waits i r0) ->
  server_ok reqs i s -> server_ok (alter f q reqs) i s.
Proof.
  intros Hq Hh Hw [H1 H2 H3 H4 H5 H6 H7].
  assert (count i (alter f q reqs) = count i reqs) as Hc by (rewrite (count_alter _ _ _ _ _ Hq), Hh; lia).
  split; rewrite ?Hc; try done. intros x. rewrite H6.
  rewrite list_lookup_alter. destruct (decide (q = x)) as [<-|]; [|done].
  rewrite Hq. cbn. split; intros (r & [= <-] & Hr); eexists; (split; [reflexivity|]); by apply Hw.
Qed.

Lemma adm_upd_q_same q f w : (forall r, same_q r (f r)) -> adm w -> adm (upd_q q f w).
Proof.
  intros Hf [Hs He Hv]. destruct (w_reqs w !! q) as [r0|] eqn:Hq.
  - destruct (Hf r0) as (E1 & E2 & E3). split; rewrite ?reqs_upd_q, ?servs_upd_q.
    + intros i s Hi. apply (server_ok_alter_q _ _ _ _ _ r0); [done|..|by apply Hs].
      * unfold holds. by rewrite E1, E2.
      * unfold waits. by rewrite E1, E3.
    + intros x r. rewrite list_lookup_alter. destruct (decide (q = x)) as [<-|]; [|apply He].
      rewrite Hq. intros [= <-]. rewrite E2, E3. by apply (He q).
    + intros x r. rewrite list_lookup_alter. destruct (decide (q = x)) as [<-|]; [|apply Hv].
      rewrite Hq. intros [= <-]. rewrite E1. by apply (Hv q).
  - assert (upd_q q f w = w) as ->; [|done]. destruct w as [sv rq ca no tr]. unfold upd_q. cbn in *. f_equal.
    apply list_eq. intros j. rewrite list_lookup_alter. destruct (decide (q = j)) as [->|]; [|done]. by rewrite Hq.
Qed.

Lemma adm_trace w w' : w_servs w' = w_servs w -> w_reqs w' = w_reqs w -> adm w -> adm w'.
Proof. intros H1 H2 [? ? ?]. split; rewrite ?H1, ?H2; done. Qed.
Lemma adm_emit x w : adm w -> adm (emit x w).
Proof. by apply adm_trace. Qed.
Lemma adm_call q k w : adm w -> adm (add_call q k w).
Proof. by apply adm_trace. Qed.
Lemma adm_cancel c w : adm w -> adm (cancel_wakeups c w).
Proof. by apply adm_trace. Qed.

#[export] Hint Resolve adm_emit adm_call adm_cancel : bng.

(** ** Changing one server and one request together *)

(** All the steps of admission change the place of one request at one server: the other
    servers see the request at neither, and the server's own books agree with the new list. *)
Lemma adm_pair i q fs fq w s r :
  adm w -> w_servs w !! i = Some s -> w_reqs w !! q = Some r -> q_serv r = i -> q_serv (fq r) = i ->
  (q_queued (fq r) = true -> q_active (fq r) = false) ->
  server_ok (alter fq q (w_reqs w)) i (fs s) -> adm (upd_q q fq (upd_s i fs w)).
Proof.
  intros [Hs He Hv] Hi Hq Hr Hr' Hex Hok. split; rewrite ?reqs_upd_q, ?servs_upd_q, ?reqs_upd_s.
  - intros j s'. rewrite lookup_upd_s. destruct (decide (i = j)) as [<-|Hne].
    + rewrite Hi. intros [= <-]. done.
    + intros Hj. apply (server_ok_alter_q _ _ _ _ _ r); [done|..|by apply Hs].
      * unfold holds. rewrite Hr, Hr'. by rewrite !bool_decide_false, !andb_false_r.
      * unfold waits. rewrite Hr, Hr'. split; intros [_ ?]; done.
  - intros x r'. rewrite list_lookup_alter. destruct (decide (q = x)) as [<-|]; [|apply He].
    rewrite Hq. intros [= <-]. done.
  - intros x r'. rewrite length_upd_s, list_lookup_alter. destruct (decide (q = x)) as [<-|]; [|apply Hv].
    rewrite Hq. intros [= <-]. rewrite Hr'. rewrite <- Hr. by apply (Hv q).
Qed.

(** The list after a request that was not queued, and stays so, changed. *)
Lemma queue_alter_idle (reqs : list rad_req_t) i (q : nat) f r0 :
  reqs !! q = Some r0 -> q_queued r0 = false -> q_queued (f r0) = false ->
  forall x, (exists r, alter f q reqs !! x = Some r /\ waits i r) <-> (exists r, reqs !! x = Some r /\ waits i r).
Proof.
  intros Hq H0 H1 x. rewrite list_lookup_alter. destruct (decide (q = x)) as [<-|]; [|done].
  rewrite Hq. cbn. split; intros (r & [= <-] & Hr & _); congruence.
Qed.

Lemma server_release (reqs : list rad_req_t) i s q r :
  server_ok reqs i s -> reqs !! q = Some r -> q_active r = true -> q_queued r = false -> q_serv r = i ->
  s_req_limit s <> 0 ->
  server_ok (alter (fun r => r <| q_active := false |>) q reqs) i
    (s <| s_req_cnt := if 0 <? s_req_cnt s then s_req_cnt s - 1 else 0 |>) /\
  count i (alter (fun r => r <| q_active := false |>) q reqs) = count i reqs - 1.
Proof.
  intros [H1 H2 H3 H4 H5 H6 H7] Hq Ha Hn Hi Hl.
  assert (count i (alter (fun r => r <| q_active := false |>) q reqs) = count i reqs - 1) as Hc.
  { rewrite (count_alter _ _ _ _ _ Hq). unfold holds. destruct r. cbn in *. subst.
    rewrite bool_decide_true by done. cbn. lia. }
  split; [|done].
  assert (0 < count i reqs) as Hpos.
  { apply (count_pos i q reqs r Hq). unfold holds. by rewrite Ha, bool_decide_true. }
  destruct s as [? ? ? lim cnt qc ? ? q0 q1 ? ? ? ? ? ? ? ? ?]. unfold queue in *. cbn in *. split; cbn; try done.
  - intros _. rewrite Hc, <- (H2 Hl). rewrite (proj2 (Z.ltb_lt 0 cnt)) by (rewrite (H2 Hl); done). done.
  - lia.
  - intros x. rewrite H6. symmetry. apply (queue_alter_idle _ _ _ _ r); [done..|]. by destruct r.
Qed.

Lemma server_take (reqs : list rad_req_t) i s q r :
  server_ok reqs i s -> reqs !! q = Some r -> q_active r = false -> q_queued r = false -> q_serv r = i ->
  s_req_limit s <> 0 -> s_req_cnt s < s_req_limit s ->
  server_ok (alter (fun r => r <| q_active := true |>) q reqs) i (s <| s_req_cnt ::= Z.add 1 |>).
Proof.
  intros [H1 H2 H3 H4 H5 H6 H7] Hq Ha Hn Hi Hl Hlt.
  assert (count i (alter (fun r => r <| q_active := true |>) q reqs) = count i reqs + 1) as Hc.
  { rewrite (count_alter _ _ _ _ _ Hq). unfold holds. destruct r. cbn in *. subst.
    rewrite bool_decide_true by done. cbn. lia. }
  destruct s as [? ? ? lim cnt qc ? ? q0 q1 ? ? ? ? ? ? ? ? ?]. unfold queue in *. cbn in *. split; cbn; try done.
  - intros _. rewrite Hc, (H2 Hl). lia.
  - rewrite Hc, <- (H2 Hl). lia.
  - intros x. rewrite H6. symmetry. apply (queue_alter_idle _ _ _ _ r); [done..|]. by destruct r.
Qed.

(** Giving the place back with a plain decrement, as the failure paths do. *)
Lemma server_untake (reqs : list rad_req_t) i s q r :
  server_ok reqs i s -> reqs !! q = Some r -> q_active r = true -> q_queued r = false -> q_serv r = i ->
  s_req_limit s <> 0 ->
  server_ok (alter (fun r => r <| q_active := false |>) q reqs) i (s <| s_req_cnt ::= Z.add (-1) |>).
Proof.
  intros Hok Hq Ha Hn Hi Hl. destruct (server_release reqs i s q r Hok Hq Ha Hn Hi Hl) as [H _].
  assert (0 < s_req_cnt s) as Hpos.
  { rewrite (ok_cnt _ _ _ Hok Hl). apply (count_pos i q reqs r Hq). unfold holds. by rewrite Ha, bool_decide_true. }
  destruct s. cbn in *. rewrite (proj2 (Z.ltb_lt _ _)) in H by done.
  by rewrite (Z.add_comm (-1)).
Qed.

Lemma queue_add_mem prio q s x : x ∈ queue (queue_add prio q s) <-> x ∈ queue s \/ x = q.
Proof.
  unfold queue, queue_add. destruct s as [? ? ? ? ? ? ? ? q0 q1 ? ? ? ? ? ? ? ? ?].
  destruct (prio =? 0); cbn; rewrite !elem_of_app, list_elem_of_singleton; tauto.
Qed.
Lemma queue_add_nodup prio q s : NoDup (queue s) -> q ∉ queue s -> NoDup (queue (queue_add prio q s)).
Proof.
  intros Hn Hq.
  assert (queue (queue_add prio q s) ≡ₚ q :: queue s) as ->; [|by constructor].
  unfold queue, queue_add. destruct s as [? ? ? ? ? ? ? ? q0 q1 ? ? ? ? ? ? ? ? ?].
  destruct (prio =? 0); cbn; [|solve_Permutation]. solve_Permutation.
Qed.
Lemma queue_add_len prio q s : length (queue (queue_add prio q s)) = S (length (queue s)).
Proof.
  unfold queue, queue_add. destruct s as [? ? ? ? ? ? ? ? q0 q1 ? ? ? ? ? ? ? ? ?].
  destruct (prio =? 0); cbn; rewrite !length_app; cbn; lia.
Qed.

Lemma server_enqueue (reqs : list rad_req_t) i s q r prio :
  server_ok reqs i s -> reqs !! q = Some r -> q_active r = false -> q_queued r = false -> q_serv r = i ->
  s_req_limit s <> 0 ->
  server_ok (alter (fun r => r <| q_queued := true |>) q reqs) i (queue_add prio q s).
Proof.
  intros [H1 H2 H3 H4 H5 H6 H7] Hq Ha Hn Hi Hl.
  assert (count i (alter (fun r => r <| q_queued := true |>) q reqs) = count i reqs) as Hc.
  { rewrite (count_alter _ _ _ _ _ Hq). unfold holds. destruct r. cbn in *. lia. }
  assert (q ∉ queue s) as Hfresh.
  { intros Hin. apply H6 in Hin as (r' & Hr' & Hw & _). congruence. }
  assert (s_req_limit (queue_add prio q s) = s_req_limit s /\ s_req_cnt (queue_add prio q s) = s_req_cnt s /\
    s_queue_cnt (queue_add prio q s) = 1 + s_queue_cnt s) as (F1 & F2 & F3).
  { unfold queue_add. destruct s. by destruct (prio =? 0). }
  split; rewrite ?Hc, ?F1, ?F2, ?F3; try done.
  - rewrite queue_add_len, H4. lia.
  - by apply queue_add_nodup.
  - intros x. rewrite queue_add_mem, H6. rewrite list_lookup_alter. destruct (decide (q = x)) as [<-|Hne].
    + rewrite Hq. cbn. split; [|by auto]. intros _. eexists. split; [reflexivity|]. by destruct r.
    + split; [intros [?|?]; [done|congruence]|by auto].
Qed.

Lemma filter_ne_len (l : list nat) q :
  NoDup l -> q ∈ l -> S (length (filter (fun x => x <> q) l)) = length l.
Proof.
  induction l as [|y l IH]; intros Hn Hq; [by apply not_elem_of_nil in Hq|].
  apply NoDup_cons in Hn as [Hy Hn]. rewrite filter_cons. destruct (decide (y <> q)) as [Hne|He].
  - cbn. f_equal. apply IH; [done|]. apply elem_of_cons in Hq as [->|]; [done|done].
  - assert (y = q) as -> by (by destruct (decide (y = q))). cbn. f_equal.
    clear IH Hq He. induction l as [|z l IH]; [done|]. apply not_elem_of_cons in Hy as [Hz Hy].
    rewrite filter_cons, decide_True by done. cbn. f_equal. apply IH; [done|]. by apply NoDup_cons in Hn as [_ Hn].
Qed.

Lemma queue_del_queue q s : queue (queue_del q s) = filter (fun x => x <> q) (queue s).
Proof. unfold queue, queue_del. destruct s. cbn. by rewrite filter_app. Qed.

(** A queued request leaves the queue; it may take a place at once. *)
Lemma server_dequeue (reqs : list rad_req_t) i s q r (act : bool) :
  server_ok reqs i s -> reqs !! q = Some r -> q_active r = false -> q_queued r = true -> q_serv r = i ->
  (act = true -> count i reqs < s_req_limit s) ->
  server_ok (alter (fun r => r <| q_queued := false |> <| q_active := act |>) q reqs) i
    (if act then queue_del q s <| s_req_cnt ::= Z.add 1 |> else queue_del q s).
Proof.
  intros [H1 H2 H3 H4 H5 H6 H7] Hq Ha Hn Hi Hlt.
  assert (count i (alter (fun r => r <| q_queued := false |> <| q_active := act |>) q reqs) =
    count i reqs + Z.b2z act) as Hc.
  { rewrite (count_alter _ _ _ _ _ Hq). unfold holds. destruct r. cbn in *. subst.
    rewrite bool_decide_true by done. destruct act; cbn; lia. }
  assert (q ∈ queue s) as Hin by (apply H6; exists r; by split).
  set (s' := if act then _ else _).
  assert (queue s' = filter (fun x => x <> q) (queue s) /\ s_req_limit s' = s_req_limit s /\
    s_req_cnt s' = s_req_cnt s + Z.b2z act /\ s_queue_cnt s' = s_queue_cnt s - 1) as (F0 & F1 & F2 & F3).
  { unfold s'. rewrite <- queue_del_queue. destruct s, act; cbn; repeat split; lia. }
  split; rewrite ?Hc, ?F0, ?F1, ?F2, ?F3.
  - done.
  - intros Hl. rewrite (H2 Hl). done.
  - destruct act; [specialize (Hlt eq_refl)|]; cbn; lia.
  - pose proof (filter_ne_len _ _ H5 Hin). lia.
  - by apply NoDup_filter.
  - intros x. rewrite list_elem_of_filter, H6. rewrite list_lookup_alter. destruct (decide (q = x)) as [<-|Hne].
    + rewrite Hq. cbn. split; [by intros [? _]|]. intros (r' & [= <-] & Hw & _). by destruct r.
    + split; [by intros [_ ?]|]. intros H. split; [by intros ->|done].
  - intros Hl. by rewrite (H7 Hl).
Qed.

(** ** The operations keep the invariant *)

Lemma upd_comm i f q g w : upd_s i f (upd_q q g w) = upd_q q g (upd_s i f w).
Proof. by destruct w. Qed.

(** The request is neither in flight nor queued. *)
Definition idle (q : nat) (w : rworld) : Prop :=
  exists r, w_reqs w !! q = Some r /\ q_active r = false /\ q_queued r = false.

Definition same_len (w w' : rworld) : Prop :=
  length (w_servs w') = length (w_servs w) /\ length (w_reqs w') = length (w_reqs w).

Lemma inactive_unlimited w q r s :
  adm w -> w_reqs w !! q = Some r -> w_servs w !! q_serv r = Some s -> s_req_limit s = 0 -> q_active r = false.
Proof.
  intros Hw Hq Hs Hl. destruct (q_active r) eqn:Ha; [|done].
  assert (0 < count (q_serv r) (w_reqs w)).
  { apply (count_pos _ q _ r Hq). unfold holds. by rewrite Ha, bool_decide_true. }
  pose proof (ok_places _ _ _ (adm_servers w Hw _ _ Hs)). lia.
Qed.

Lemma next_queued_mem s n : next_queued s = Some n -> n ∈ queue s.
Proof.
  unfold next_queued, queue. destruct (s_queue0 s) as [|x l].
  - destruct (s_queue1 s) as [|y l']; [done|]. intros [= <-]. apply elem_of_app. right. constructor.
  - intros [= <-]. apply elem_of_app. left. constructor.
Qed.

Lemma exit_adm q w :
  adm w -> adm (rad_server_req_exit q w) /\
  (forall r, w_reqs w !! q = Some r -> q_queued r = false -> idle q (rad_server_req_exit q w)).
Proof.
  intros Hw. unfold rad_server_req_exit.
  destruct (w_reqs w !! q) as [r|] eqn:Hq; [|by split].
  destruct (lookup_lt_is_Some_2 _ _ (adm_serv w Hw q r Hq)) as [s Hs]. rewrite Hs.
  destruct (s_req_limit s =? 0) eqn:Hl; to_prop.
  { split; [done|]. intros r' [= <-] Hn. exists r. split; [done|]. split; [by eapply inactive_unlimited|done]. }
  destruct (q_active r) eqn:Ha; cbn [negb].
  2:{ split; [done|]. intros r' [= <-] Hn. by exists r. }
  assert (q_queued r = false) as Hn.
  { destruct (q_queued r) eqn:E; [|done]. by rewrite (adm_excl w Hw q r Hq E) in Ha. }
  destruct (server_release (w_reqs w) (q_serv r) s q r) as [Hok Hc]; [by apply adm_servers|done..|].
  set (s1 := s <| s_req_cnt := _ |>) in *.
  set (w1 := upd_s (q_serv r) (fun _ => s1) (upd_q q (fun r => r <| q_active := false |>) w)).
  assert (adm w1) as Hw1.
  { unfold w1. rewrite upd_comm. apply (adm_pair _ _ _ _ _ s r); try done; by destruct r. }
  assert (idle q w1) as Hidle.
  { exists (r <| q_active := false |>). unfold w1. rewrite reqs_upd_s, reqs_upd_q, list_lookup_alter_eq, Hq. by destruct r. }
  destruct (s_req_cnt s1 <? s_req_limit s1) eqn:Hlt; [|by split]. to_prop.
  destruct (next_queued s1) as [n|] eqn:Hnext; [|by split].
  assert (w_servs w1 !! q_serv r = Some s1) as Hs1.
  { unfold w1. rewrite lookup_upd_s, decide_True, servs_upd_q, Hs by done. done. }
  assert (s_req_limit s1 <> 0) as Hl1 by (by destruct s).
  destruct (proj1 (ok_queue _ _ _ (adm_servers w1 Hw1 _ _ Hs1) n)) as (rn & Hrn & Hwait & Hsn); [by apply next_queued_mem|].
  pose proof (adm_excl w1 Hw1 n rn Hrn Hwait) as Han.
  assert (n <> q) as Hnq by (intros ->; destruct Hidle as (rq & Hrq & _ & Hnq); congruence).
  split.
  - apply adm_call.
    apply (adm_pair (q_serv r) n (fun s => queue_del n s <| s_req_cnt ::= Z.add 1 |>)
      (fun r => r <| q_queued := false |> <| q_active := true |>) w1 s1 rn); try done.
    apply (server_dequeue (w_reqs w1) (q_serv r) s1 n rn true); [by apply adm_servers|done..|].
    intros _. rewrite <- (ok_cnt _ _ _ (adm_servers w1 Hw1 _ _ Hs1) Hl1). done.
  - intros _ _ _. destruct Hidle as (rq & Hrq & Hi). exists rq. split; [|done].
    change (alter (fun r => r <| q_queued := false |> <| q_active := true |>) n (w_reqs w1) !! q = Some rq).
    by rewrite list_lookup_alter_ne.
Qed.

(** Emptying the queues: nobody waits for server [i] any more. *)
Lemma fail_queue_reqs l w :
  w_servs (fail_queue l w) = w_servs w /\ w_now (fail_queue l w) = w_now w /\
  length (w_reqs (fail_queue l w)) = length (w_reqs w) /\
  forall x, w_reqs (fail_queue l w) !! x =
    (fun r => if decide (x ∈ l) then r <| q_queued := false |> else r) <$> w_reqs w !! x.
Proof.
  unfold fail_queue. revert w. induction l as [|q l IH]; intros w; cbn [foldl].
  { split; [done|]. split; [done|]. split; [done|]. intros x.
    destruct (w_reqs w !! x); [|done]. cbn. by rewrite decide_False by apply not_elem_of_nil. }
  destruct (IH (add_call q ReqWakeupFailed (upd_q q (fun r => r <| q_queued := false |>) w))) as (H1 & H2 & H3 & H4).
  split; [by rewrite H1|]. split; [by rewrite H2|]. split.
  { rewrite H3. change (length (alter (fun r => r <| q_queued := false |>) q (w_reqs w)) = length (w_reqs w)).
    apply length_alter. }
  intros x. rewrite H4.
  change (w_reqs (add_call q ReqWakeupFailed (upd_q q (fun r => r <| q_queued := false |>) w)))
    with (alter (fun r => r <| q_queued := false |>) q (w_reqs w)).
  rewrite list_lookup_alter. destruct (decide (q = x)) as [<-|Hne].
  - destruct (w_reqs w !! q) as [r|]; [|done]. cbn. f_equal.
    rewrite (decide_True (P := q ∈ q :: l)) by constructor. destruct (decide (q ∈ l)); [by destruct r|done].
  - destruct (w_reqs w !! x) as [r|]; [|done]. cbn. f_equal.
    destruct (decide (x ∈ l)) as [Hin|Hout].
    + by rewrite (decide_True (P := x ∈ q :: l)) by (by constructor).
    + rewrite (decide_False (P := x ∈ q :: l)); [done|]. intros H. apply elem_of_cons in H as [->|]; done.
Qed.

Lemma count_ext i l l' :
  length l' = length l -> (forall x r, l !! x = Some r -> exists r', l' !! x = Some r' /\ holds i r' = holds i r) ->
  count i l' = count i l.
Proof.
  revert l'. induction l as [|r l IH]; intros [|r' l'] Hl H; [done..|]. cbn.
  destruct (H 0%nat r eq_refl) as (r1 & [= <-] & ->). f_equal. apply IH; [by injection Hl|].
  intros x y Hx. exact (H (S x) y Hx).
Qed.

Lemma server_flush reqs reqs' i s s' :
  server_ok reqs i s -> s_req_limit s' = s_req_limit s -> s_req_cnt s' = s_req_cnt s -> s_queue_cnt s' = 0 ->
  queue s' = [] -> count i reqs' = count i reqs -> (forall x r, reqs' !! x = Some r -> ~ waits i r) ->
  server_ok reqs' i s'.
Proof.
  intros [H1 H2 H3 H4 H5 H6 H7] E1 E2 E3 E4 E5 Hnone. split; rewrite ?E1, ?E2, ?E3, ?E4, ?E5; try done.
  - constructor.
  - intros x. split; [intros H; by apply not_elem_of_nil in H|]. intros (r & Hr & Hw). by destruct (Hnone x r).
Qed.

Lemma fail_adm i w :
  adm w -> adm (rad_server_fail i w) /\ (forall q, idle q w -> idle q (rad_server_fail i w)).
Proof.
  intros Hw. unfold rad_server_fail. destruct (w_servs w !! i) as [s|] eqn:Hs; [|by split].
  set (ft := fun s : rad_server_t => if s_fail_time s <=? w_now w then _ else s).
  assert (adm (upd_s i ft w)) as Hw1.
  { apply adm_upd_s_same; [|done]. intros x. unfold ft, same_s. destruct x. by destruct (_ <=? _). }
  set (w1 := upd_s i ft w) in *.
  assert (exists s1, w_servs w1 !! i = Some s1 /\ same_s s s1) as (s1 & Hs1 & Hsame).
  { unfold w1. rewrite lookup_upd_s, decide_True, Hs by done. eexists. split; [reflexivity|].
    unfold ft, same_s. destruct s. by destruct (_ <=? _). }
  destruct (fail_queue_reqs (s_queue0 s) w1) as (A1 & A2 & A3 & A4).
  destruct (fail_queue_reqs (s_queue1 s) (fail_queue (s_queue0 s) w1)) as (B1 & B2 & B3 & B4).
  set (w2 := fail_queue (s_queue1 s) (fail_queue (s_queue0 s) w1)) in *.
  assert (forall x, w_reqs w2 !! x =
    (fun r => if decide (x ∈ queue s) then r <| q_queued := false |> else r) <$> w_reqs w1 !! x) as Hreq.
  { intros x. rewrite B4, A4. destruct (w_reqs w1 !! x) as [r|]; [|done]. cbn. f_equal. unfold queue.
    destruct (decide (x ∈ s_queue0 s)) as [H0|H0], (decide (x ∈ s_queue1 s)) as [H1|H1];
      destruct (decide (x ∈ s_queue0 s ++ s_queue1 s)) as [H2|H2]; try by destruct r.
    all: rewrite elem_of_app in H2; exfalso; tauto. }
  assert (w_servs w2 = w_servs w1) as Hserv by (by rewrite B1, A1).
  assert (length (w_reqs w2) = length (w_reqs w1)) as Hlen by (by rewrite B3, A3).
  assert (forall x r, w_reqs w1 !! x = Some r -> exists r', w_reqs w2 !! x = Some r' /\
    q_active r' = q_active r /\ q_serv r' = q_serv r /\
    (q_queued r' = if decide (x ∈ queue s) then false else q_queued r)) as Hr.
  { intros x r Hx. rewrite Hreq, Hx. eexists. split; [reflexivity|]. destruct (decide (x ∈ queue s)); by destruct r. }
  assert (forall j, count j (w_reqs w2) = count j (w_reqs w1)) as Hcount.
  { intros j. apply count_ext; [done|]. intros x r Hx. destruct (Hr x r Hx) as (r' & Hr' & H1 & H2 & _).
    exists r'. split; [done|]. unfold holds. by rewrite H1, H2. }
  pose proof (adm_servers w1 Hw1 i s1 Hs1) as Hok1.
  assert (queue s1 = queue s) as Hq1 by (unfold queue; destruct Hsame as (_ & _ & _ & -> & ->); done).
  assert (forall x r', w_reqs w2 !! x = Some r' -> exists r, w_reqs w1 !! x = Some r /\
    q_active r' = q_active r /\ q_serv r' = q_serv r /\
    (q_queued r' = if decide (x ∈ queue s) then false else q_queued r)) as Hback.
  { intros x r' Hx. assert (is_Some (w_reqs w1 !! x)) as [r Hx1].
    { rewrite Hreq in Hx. destruct (w_reqs w1 !! x); [eauto|done]. }
    destruct (Hr x r Hx1) as (r'' & Hr'' & H). exists r. rewrite Hx in Hr''. injection Hr'' as <-. done. }
  split.
  - split.
    + intros j sj. rewrite reqs_upd_s, lookup_upd_s, Hserv. destruct (decide (i = j)) as [<-|Hne].
      * rewrite Hs1. intros [= <-]. apply (server_flush (w_reqs w1) _ i s1); try (by destruct s1); [done..|].
        intros x r' Hx (Hw' & Hsv). destruct (Hback x r' Hx) as (r & Hx1 & _ & E2 & E3). rewrite E3 in Hw'.
        destruct (decide (x ∈ queue s)) as [|Hnot]; [done|]. destruct Hnot. rewrite <- Hq1.
        apply (ok_queue _ _ _ Hok1). exists r. split; [done|]. split; [done|congruence].
      * intros Hj. destruct (adm_servers w1 Hw1 j sj Hj) as [H1 H2 H3 H4 H5 H6 H7].
        split; rewrite ?Hcount; try done. intros x. rewrite H6. split.
        -- intros (r & Hx & Hq & Hsv). destruct (Hr x r Hx) as (r' & Hr' & _ & E2 & E3). exists r'.
           split; [done|]. split; [|congruence]. rewrite E3. destruct (decide (x ∈ queue s)) as [Hin|]; [|done].
           rewrite <- Hq1 in Hin. apply (ok_queue _ _ _ Hok1) in Hin as (r2 & Hr2 & _ & Hsv2). congruence.
        -- intros (r' & Hx & Hq & Hsv). destruct (Hback x r' Hx) as (r & Hx1 & _ & E2 & E3). exists r.
           split; [done|]. split; [|congruence]. rewrite E3 in Hq. by destruct (decide (x ∈ queue s)).
    + intros x r'. rewrite reqs_upd_s. intros Hx Hq. destruct (Hback x r' Hx) as (r & Hx1 & -> & _ & E3).
      rewrite E3 in Hq. destruct (decide (x ∈ queue s)); [done|]. by apply (adm_excl w1 Hw1 x).
    + intros x r'. rewrite reqs_upd_s, length_upd_s, Hserv. intros Hx.
      destruct (Hback x r' Hx) as (r & Hx1 & _ & -> & _). by apply (adm_serv w1 Hw1 x).
  - intros x (r & Hx & Ha & Hn). assert (w_reqs w1 !! x = Some r) as Hx1 by done.
    destruct (Hr x r Hx1) as (r' & Hr' & E1 & _ & E3). exists r'. rewrite reqs_upd_s. split; [done|].
    split; [congruence|]. rewrite E3. by destruct (decide (x ∈ queue s)).
Qed.

Section Ops.
Context (e : rad_env).

(** Sending touches the socket of the request and the trace only. *)
Lemma send_now_frame q async w :
  w_servs (req_send_now e q async w).2 = w_servs w /\
  (forall x, exists f, w_reqs (req_send_now e q async w).2 !! x = f <$> w_reqs w !! x /\ forall r, same_q r (f r)) /\
  (adm w -> adm (req_send_now e q async w).2).
Proof.
  assert (forall b x, exists f, w_reqs (upd_q q (fun r => r <| q_fd := b |>) w) !! x = f <$> w_reqs w !! x /\
    forall r, same_q r (f r)) as Hupd.
  { intros b x. rewrite reqs_upd_q, list_lookup_alter. destruct (decide (q = x)) as [<-|].
    - eexists. split; [reflexivity|]. intros r. by destruct r.
    - exists id. split; [by destruct (w_reqs w !! x)|]. by intros r. }
  assert (forall b, adm w -> adm (upd_q q (fun r => r <| q_fd := b |>) w)) as Hadm.
  { intros b. apply adm_upd_q_same. intros r. by destruct r. }
  assert (forall x, exists f, w_reqs w !! x = f <$> w_reqs w !! x /\ forall r, same_q r (f r)) as Hid.
  { intros x. exists id. split; [by destruct (w_reqs w !! x)|]. by intros r. }
  unfold req_send_now. destruct (w_reqs w !! q) as [r|]; [|done].
  destruct (negb (q_fd r) && negb (e_sock e (q_serv r))); [done|].
  destruct (negb (e_prepare e q)); cbn [snd].
  - destruct async; (split; [done|]); (split; [apply Hupd|]); auto with bng.
  - split; [done|]. split; [apply Hupd|]. auto with bng.
Qed.

Lemma send_now_idle q async w x : idle x w -> idle x (req_send_now e q async w).2.
Proof.
  intros (r & Hr & Ha & Hn). destruct (send_now_frame q async w) as (_ & Hf & _).
  destruct (Hf x) as (f & Hx & Hsame). rewrite Hr in Hx. destruct (Hsame r) as (_ & E1 & E2).
  exists (f r). split; [done|]. split; congruence.
Qed.

Lemma enter_adm q w :
  adm w -> idle q w ->
  adm (rad_server_req_enter e q w).2 /\
  ((rad_server_req_enter e q w).1 < 0 -> idle q (rad_server_req_enter e q w).2).
Proof.
  intros Hw Hidle. pose proof Hidle as (r & Hr & Ha & Hn). unfold rad_server_req_enter. rewrite Hr.
  destruct (lookup_lt_is_Some_2 _ _ (adm_serv w Hw q r Hr)) as [s Hs]. rewrite Hs.
  pose proof (adm_servers w Hw _ _ Hs) as Hok.
  destruct (s_need_free s); [by split|]. destruct (w_now w <? s_fail_time s); [by split|].
  destruct (s_req_limit s =? 0) eqn:Hl; to_prop.
  { destruct (q_send r); [|by split]. split; [by apply send_now_frame|]. intros _. by apply send_now_idle. }
  rewrite Ha, Hn. cbn [orb].
  destruct (s_req_limit s <=? s_req_cnt s) eqn:Hfull; to_prop.
  { destruct (q_send r); [|by split]. cbn [fst snd]. split; [|lia].
    apply (adm_pair _ _ _ _ _ s r); try done. by apply (server_enqueue _ _ _ _ r). }
  set (w1 := upd_q q (fun r => r <| q_active := true |>) (upd_s (q_serv r) (fun s => s <| s_req_cnt ::= Z.add 1 |>) w)).
  assert (adm w1) as Hw1.
  { apply (adm_pair _ _ _ _ _ s r); try done; [|by apply (server_take _ _ _ _ r)].
    destruct r. cbn in *. congruence. }
  destruct (q_send r); cbn [negb]; [|split; [done|cbn; lia]].
  assert (exists r1, w_reqs w1 !! q = Some r1 /\ q_active r1 = true /\ q_queued r1 = false /\ q_serv r1 = q_serv r)
    as (r1 & Hr1 & Ha1 & Hn1 & Hs1).
  { unfold w1. rewrite reqs_upd_q, reqs_upd_s, list_lookup_alter_eq, Hr. eexists. split; [reflexivity|]. by destruct r. }
  destruct (send_now_frame q false w1) as (Hserv & Hf & Hadm). specialize (Hadm Hw1). destruct (Hf q) as (f & Hq2 & Hsame).
  destruct (req_send_now e q false w1) as [res w2]. cbn [snd] in *.
  rewrite Hr1 in Hq2. cbn in Hq2. destruct (Hsame r1) as (E1 & E2 & E3).
  destruct (res =? 0); [split; [done|cbn; lia]|].
  destruct (res =? -2) eqn:Hres; to_prop; cbn [fst snd].
  - set (w3 := upd_s (q_serv r) (fun s => s <| s_req_cnt ::= Z.add (-1) |>) (upd_q q (fun r => r <| q_active := false |>) w2)).
    destruct (lookup_lt_is_Some_2 _ _ (adm_serv w2 Hadm q (f r1) Hq2)) as [s2 Hs2].
    rewrite E1, Hs1 in Hs2.
    assert (s_req_limit s2 <> 0) as Hl2.
    { rewrite Hserv in Hs2. unfold w1 in Hs2. rewrite servs_upd_q, lookup_upd_s, decide_True, Hs in Hs2 by done.
      injection Hs2 as <-. by destruct s. }
    assert (adm w3) as Hw3.
    { unfold w3. rewrite upd_comm. apply (adm_pair _ _ _ _ _ s2 (f r1)); try done.
      - by rewrite E1.
      - destruct (f r1). cbn in *. congruence.
      - apply (server_untake _ _ _ _ (f r1)); try done; try congruence. by apply adm_servers. }
    assert (idle q w3) as Hi3.
    { exists ((f r1) <| q_active := false |>). unfold w3. rewrite reqs_upd_s, reqs_upd_q, list_lookup_alter_eq, Hq2.
      split; [done|]. destruct (f r1). cbn in *. split; [done|congruence]. }
    destruct (fail_adm (q_serv r) w3 Hw3) as [H1 H2]. split; [done|]. intros _. by apply H2.
  - destruct (exit_adm q w2 Hadm) as [H1 H2]. split; [done|]. intros _. apply (H2 (f r1)); [done|congruence].
Qed.

Lemma pick_lt l i type now ex addr port s0 s1 k :
  (forall p, s0 = Some p -> (p.1 < i)%nat) -> (forall p, s1 = Some p -> (p.1 < i)%nat) ->
  pick l i type now ex addr port s0 s1 = Some k -> (k < i + length l)%nat.
Proof.
  revert i s0 s1. induction l as [|s l IH]; intros i s0 s1 H0 H1 H; cbn [pick length] in *.
  { destruct s1 as [[k1 x]|].
    - injection H as <-. specialize (H1 _ eq_refl). cbn in H1. lia.
    - destruct s0 as [[k0 x]|]; [|done]. injection H as <-. specialize (H0 _ eq_refl). cbn in H0. lia. }
  rewrite <- Nat.add_succ_comm.
  assert (forall (o : option (nat * rad_server_t)), (forall p, o = Some p -> (p.1 < i)%nat) ->
    forall p, o = Some p -> (p.1 < S i)%nat) as Hup by (intros o Ho p Hp; specialize (Ho p Hp); lia).
  destruct (negb (eligible type now ex i s)); [exact (IH _ _ _ (Hup _ H0) (Hup _ H1) H)|].
  match type of H with context [pick _ _ _ _ _ _ _ _ ?x] => set (s1' := x) in * end.
  assert (forall p, s1' = Some p -> (p.1 < S i)%nat) as H1'.
  { intros p. unfold s1'. repeat case_match; intros; simplify_eq; cbn; try lia; specialize (H1 _ eq_refl); lia. }
  destruct s0 as [[k0 b]|].
  - refine (IH _ _ _ _ H1' H). intros p. case_match; intros; simplify_eq; cbn; [lia|].
    specialize (H0 _ eq_refl). cbn in H0. lia.
  - refine (IH _ _ _ _ H1' H). intros p [= <-]. cbn. lia.
Qed.

Lemma same_s_client type n s : same_s s (add_client type n s).
Proof. unfold add_client, same_s. destruct s. by destruct (type =? RAD_SERV_AUTH). Qed.

Lemma put_adm i type w :
  adm w -> adm (rad_server_put i type w) /\ w_reqs (rad_server_put i type w) = w_reqs w /\
  length (w_servs (rad_server_put i type w)) = length (w_servs w).
Proof.
  intros Hw. unfold rad_server_put. pose proof (adm_upd_s_same i (add_client type (-1)) w (same_s_client _ _) Hw) as H1.
  destruct (w_servs _ !! i) as [s|]; [|split; [done|split; [done|apply length_upd_s]]].
  destruct (_ && _); (split; [auto with bng|]); (split; [done|apply length_upd_s]).
Qed.

Lemma realloc_adm q w :
  adm w -> idle q w -> adm (rad_server_realloc q w).2 /\ idle q (rad_server_realloc q w).2.
Proof.
  intros Hw Hidle. pose proof Hidle as (r & Hr & Ha & Hn). unfold rad_server_realloc. rewrite Hr.
  unfold __rad_server_get. destruct (pick _ _ _ _ _ _ _ _ _) as [i|] eqn:Hp; [|by split].
  apply pick_lt in Hp; [|done..].
  pose proof (adm_upd_s_same i (add_client (q_type r) 1) w (same_s_client _ _) Hw) as H1.
  destruct (put_adm (q_serv r) (q_type r) _ H1) as (H2 & Hreqs & Hlen).
  set (w2 := rad_server_put (q_serv r) (q_type r) (upd_s i (add_client (q_type r) 1) w)) in *. cbn [snd].
  rewrite reqs_upd_s in Hreqs. rewrite length_upd_s in Hlen.
  set (f := fun r => r <| q_serv := i |> <| q_fd := false |>).
  assert (idle q (upd_q q f w2)) as Hi2.
  { exists (f r). rewrite reqs_upd_q, Hreqs, list_lookup_alter_eq, Hr. by destruct r. }
  split; [|done]. split; rewrite ?reqs_upd_q, ?servs_upd_q.
  - intros j s Hj. apply (server_ok_alter_q _ _ _ _ _ r); [by rewrite Hreqs|..|by apply adm_servers].
    + unfold holds, f. destruct r. cbn in *. by subst.
    + unfold waits, f. destruct r. cbn in *. split; intros [? _]; congruence.
  - intros x r'. rewrite list_lookup_alter. destruct (decide (q = x)) as [<-|]; [|apply (adm_excl w2 H2)].
    rewrite Hreqs, Hr. intros [= <-]. unfold f. destruct r. cbn in *. congruence.
  - intros x r'. rewrite list_lookup_alter. destruct (decide (q = x)) as [<-|]; [|apply (adm_serv w2 H2)].
    rewrite Hreqs, Hr. intros [= <-]. unfold f. destruct r. cbn in *. lia.
Qed.

Lemma enter_loop_adm fuel q w res w' :
  adm w -> idle q w -> enter_loop e fuel q w = Some (res, w') -> adm w'.
Proof.
  revert w. induction fuel as [|fuel IH]; intros w Hw Hi H; [done|]. cbn [enter_loop] in H.
  destruct (enter_adm q w Hw Hi) as [H1 H2]. destruct (rad_server_req_enter e q w) as [r w1]. cbn [fst snd] in *.
  destruct (0 <=? r) eqn:Hr; [by injection H as _ <-|]. to_prop. specialize (H2 ltac:(lia)).
  destruct (realloc_adm q w1 H1 H2) as [H3 H4]. destruct (rad_server_realloc q w1) as [r2 w2]. cbn [snd] in *.
  destruct (negb (r2 =? 0)); [by injection H as _ <-|]. by apply (IH w2).
Qed.
End Ops.

(** ** Runs *)

Lemma cancel_adm q full w : adm w -> adm (rad_server_req_cancel q full w).2.
Proof.
  intros Hw. unfold rad_server_req_cancel. destruct (w_reqs w !! q) as [r|] eqn:Hq; [|done].
  destruct (lookup_lt_is_Some_2 _ _ (adm_serv w Hw q r Hq)) as [s Hs].
  destruct (q_queued r) eqn:Hn.
  - pose proof (adm_excl w Hw q r Hq Hn) as Ha.
    set (w1 := upd_q q _ _).
    assert (adm w1) as Hw1.
    { unfold w1. apply (adm_pair _ _ _ _ _ s r); try done.
      pose proof (server_dequeue (w_reqs w) (q_serv r) s q r false) as H. cbn in H.
      assert (alter (fun r => r <| q_queued := false |>) q (w_reqs w) =
        alter (fun r => r <| q_queued := false |> <| q_active := false |>) q (w_reqs w)) as ->.
      { apply list_eq. intros x. rewrite !list_lookup_alter. destruct (decide (q = x)) as [<-|]; [|done].
        rewrite Hq. cbn. f_equal. destruct r. cbn in *. by subst. }
      apply H; try done. by apply adm_servers. }
    destruct full; cbn [negb snd]; [|auto with bng]. rewrite Ha. auto with bng.
  - destruct full; cbn [negb snd]; [|auto with bng]. destruct (q_active r); [|auto with bng].
    apply exit_adm. auto with bng.
Qed.

Lemma send_adm e fuel q w r res w' :
  adm w -> w_reqs w !! q = Some r -> q_queued r = false ->
  rad_req_send e fuel q w = Some (res, w') -> adm w'.
Proof.
  intros Hw Hq Hn H. unfold rad_req_send in H. rewrite Hq in H.
  set (f := fun r => r <| q_send := true |> <| q_try ::= Z.add 1 |>) in H.
  set (w1 := upd_q q f w) in H.
  assert (adm w1) as Hw1 by (apply adm_upd_q_same; [intros x; by destruct x|done]).
  assert (w_reqs w1 !! q = Some (f r)) as Hq1 by (unfold w1; rewrite reqs_upd_q, list_lookup_alter_eq, Hq; done).
  assert (q_active (f r) = q_active r /\ q_queued (f r) = false) as [Ea En] by (by destruct r).
  assert (forall w2, adm w2 -> (exists r2, w_reqs w2 !! q = Some r2 /\ q_queued r2 = false) ->
    match w_reqs w2 !! q with
    | None => None
    | Some r => if negb (q_active r) then enter_loop e fuel q w2 else Some (req_send_now e q false w2)
    end = Some (res, w') -> adm w') as Htail.
  { intros w2 Hw2 (r2 & Hr2 & Hn2) H2. rewrite Hr2 in H2. destruct (q_active r2) eqn:Ha2; cbn [negb] in H2.
    - injection H2 as E. destruct (send_now_frame e q false w2) as (_ & _ & Hadm). rewrite E in Hadm. by apply Hadm.
    - eapply enter_loop_adm; [exact Hw2| |exact H2]. by exists r2. }
  destruct (q_try r =? conf_max_try e).
  - set (w2 := if q_active r then rad_server_req_exit q w1 else w1) in H.
    assert (adm w2 /\ idle q w2) as [Hw2 Hi2].
    { unfold w2. destruct (q_active r) eqn:Ha.
      - destruct (exit_adm q w1 Hw1) as [H1 H2]. split; [done|]. by eapply H2.
      - split; [done|]. exists (f r). split; [done|]. split; congruence. }
    destruct (realloc_adm q w2 Hw2 Hi2) as [H3 H4].
    destruct (rad_server_realloc q w2) as [x w3]. cbn [snd] in *.
    destruct (x =? 0); cbn [negb] in H; [|by injection H as _ <-].
    apply (Htail (upd_q q (fun r => r <| q_try := 1 |>) w3)); [|..|done].
    + apply adm_upd_q_same; [intros y; by destruct y|done].
    + destruct H4 as (r3 & Hr3 & _ & Hn3). exists (r3 <| q_try := 1 |>).
      rewrite reqs_upd_q, list_lookup_alter_eq, Hr3. by destruct r3.
  - apply (Htail w1); [done|by exists (f r)|done].
Qed.

Lemma send_failed_adm e fuel q w r w' :
  adm w -> w_reqs w !! q = Some r -> q_queued r = false -> req_send_failed e fuel q w = Some w' -> adm w'.
Proof.
  intros Hw Hq Hn H. unfold req_send_failed in H. rewrite Hq in H.
  set (w1 := if q_active r then _ else w) in H.
  assert (adm w1 /\ exists r1, w_reqs w1 !! q = Some r1 /\ q_queued r1 = false) as [Hw1 (r1 & Hr1 & Hn1)].
  { unfold w1. destruct (q_active r); [|by eauto]. split.
    - apply adm_upd_q_same; [intros x; by destruct x|done].
    - rewrite reqs_upd_q, list_lookup_alter_eq, Hq. eexists. split; [reflexivity|]. by destruct r. }
  destruct (rad_req_send e fuel q w1) as [[res w2]|] eqn:Hs; [|done]. cbn in H. injection H as <-.
  pose proof (send_adm e fuel q w1 r1 res w2 Hw1 Hr1 Hn1 Hs) as Hw2.
  destruct (negb (res =? 0)); [by apply adm_emit|done].
Qed.

Lemma wakeup_adm e fuel q w w' : adm w -> req_wakeup e fuel q w = Some w' -> adm w'.
Proof.
  intros Hw H. unfold req_wakeup in H. destruct (w_reqs w !! q) as [r|] eqn:Hq; [|done].
  destruct (q_active r) eqn:Ha; cbn [negb] in H; [|by injection H as <-].
  assert (q_queued r = false) as Hn.
  { destruct (q_queued r) eqn:E; [|done]. by rewrite (adm_excl w Hw q r Hq E) in Ha. }
  destruct (w_servs w !! q_serv r) as [s|] eqn:Hs; [|done].
  destruct (_ || _).
  - rewrite upd_comm in H. assert (s_req_limit s <> 0) as Hl.
    { intros Hl. by rewrite (inactive_unlimited w q r s Hw Hq Hs Hl) in Ha. }
    eapply (send_failed_adm e fuel q _ (r <| q_active := false |>)); [| |by destruct r|exact H].
    + apply (adm_pair _ _ _ _ _ s r); try done. apply (server_untake _ _ _ _ r); try done. by apply adm_servers.
    + rewrite reqs_upd_q, reqs_upd_s, list_lookup_alter_eq, Hq. done.
  - injection H as <-. by apply send_now_frame.
Qed.

Lemma reply_adm i w : adm w -> adm (rad_server_reply i w).
Proof. apply adm_upd_s_same. intros s. by destruct s. Qed.

Lemma read_adm q w : adm w -> adm (rad_req_read q w).
Proof.
  intros Hw. unfold rad_req_read. destruct (w_reqs w !! q) as [r|]; [|done].
  destruct (q_active r); [apply exit_adm|apply cancel_adm]; by apply reply_adm.
Qed.

Lemma timeout_adm i w : adm w -> adm (rad_server_timeout i w).
Proof.
  intros Hw. unfold rad_server_timeout. destruct (w_servs w !! i) as [s|]; [|done].
  destruct (_ =? 0); [done|]. assert (adm (upd_s i (fun s => s <| s_timeout_cnt ::= Z.add 1 |>) w)) as H.
  { apply adm_upd_s_same; [|done]. intros x. by destruct x. }
  destruct (_ <=? _); [by apply fail_adm|done].
Qed.

(** A new request at the server that [rad_server_get] gives it. *)
Definition new_req (type prio : Z) (ctx i : nat) : rad_req_t :=
  {| q_serv := i; q_type := type; q_prio := prio; q_try := 0; q_active := false; q_queued := false;
     q_send := false; q_fd := false; q_ctx := ctx |}.

Lemma new_adm type prio ctx addr port i w w' :
  adm w -> __rad_server_get type None addr port w = (Some i, w') ->
  adm (w' <| w_reqs ::= fun l => l ++ [new_req type prio ctx i] |>).
Proof.
  intros Hw Hg. unfold __rad_server_get in Hg. destruct (pick _ _ _ _ _ _ _ _ _) as [k|] eqn:Hp; [|done].
  injection Hg as <- <-. apply pick_lt in Hp; [|done..].
  pose proof (adm_upd_s_same k (add_client type 1) w (same_s_client _ _) Hw) as [H1 H2 H3].
  set (w1 := upd_s k (add_client type 1) w) in *.
  change (w_reqs (w1 <| w_reqs ::= fun l => l ++ [new_req type prio ctx k] |>)) with (w_reqs w1 ++ [new_req type prio ctx k]).
  assert (forall x r, (w_reqs w1 ++ [new_req type prio ctx k]) !! x = Some r ->
    w_reqs w1 !! x = Some r \/ r = new_req type prio ctx k) as Hx.
  { intros x r Hx. apply lookup_app_Some in Hx as [Hx|[_ Hx]]; [by left|].
    right. destruct (x - length (w_reqs w1))%nat; [by injection Hx|done]. }
  split; change (w_reqs (w1 <| w_reqs ::= fun l => l ++ [new_req type prio ctx k] |>)) with (w_reqs w1 ++ [new_req type prio ctx k]);
    change (w_servs (w1 <| w_reqs ::= fun l => l ++ [new_req type prio ctx k] |>)) with (w_servs w1).
  - intros j s Hj. destruct (H1 j s Hj) as [K1 K2 K3 K4 K5 K6 K7].
    assert (count j (w_reqs w1 ++ [new_req type prio ctx k]) = count j (w_reqs w1)) as Hc
      by (rewrite count_app; cbn; lia).
    split; rewrite ?Hc; try done. intros x. rewrite K6. split; intros (r & Hr & Hwt).
    + exists r. split; [by apply lookup_app_l_Some|done].
    + destruct (Hx x r Hr) as [Hr'| ->]; [by exists r|]. by destruct Hwt.
  - intros x r Hr. destruct (Hx x r Hr) as [Hr'| ->]; [by apply (H2 x)|done].
  - intros x r Hr. destruct (Hx x r Hr) as [Hr'| ->]; [by apply (H3 x)|]. unfold w1. rewrite length_upd_s. cbn. lia.
Qed.

Inductive rad_step : rworld -> rworld -> Prop :=
  | st_new type prio ctx addr port i w w' :
      __rad_server_get type None addr port w = (Some i, w') ->
      rad_step w (w' <| w_reqs ::= fun l => l ++ [new_req type prio ctx i] |>)
  | st_send e fuel q r res w w' :
      w_reqs w !! q = Some r -> q_queued r = false -> rad_req_send e fuel q w = Some (res, w') -> rad_step w w'
  | st_wake e fuel q l1 l2 w w' :
      w_calls w = l1 ++ (q, ReqWakeup) :: l2 ->
      req_wakeup e fuel q (w <| w_calls := l1 ++ l2 |>) = Some w' -> rad_step w w'
  | st_wake_failed e fuel q r l1 l2 w w' :
      w_calls w = l1 ++ (q, ReqWakeupFailed) :: l2 -> w_reqs w !! q = Some r -> q_queued r = false ->
      req_wakeup_failed e fuel q (w <| w_calls := l1 ++ l2 |>) = Some w' -> rad_step w w'
  | st_read q w : rad_step w (rad_req_read q w)
  | st_exit q w : rad_step w (rad_server_req_exit q w)
  | st_timeout i w : rad_step w (rad_server_timeout i w)
  | st_cancel q full w : rad_step w (rad_server_req_cancel q full w).2
  | st_put i type w : rad_step w (rad_server_put i type w)
  | st_tick n w : rad_step w (w <| w_now := n |>).

Lemma step_adm w w' : adm w -> rad_step w w' -> adm w'.
Proof.
  intros Hw H. destruct H as [type prio ctx addr port i w w' Hg|e fuel q r res w w' Hq Hn H
    |e fuel q l1 l2 w w' Hc H|e fuel q r l1 l2 w w' Hc Hq Hn H|q w|q w|i w|q full w|i type w|n w].
  - by eapply new_adm.
  - by eapply send_adm.
  - eapply wakeup_adm; [|exact H]. by apply (adm_trace w).
  - apply (send_failed_adm e fuel q (w <| w_calls := l1 ++ l2 |>) r); [by apply (adm_trace w)|exact Hq|exact Hn|exact H].
  - by apply read_adm.
  - by apply exit_adm.
  - by apply timeout_adm.
  - by apply cancel_adm.
  - by apply put_adm.
  - by apply (adm_trace w).
Qed.

(** The daemon starts without requests, with empty queues. *)
Definition fresh (w : rworld) : Prop :=
  w_reqs w = [] /\
  forall i s, w_servs w !! i = Some s ->
    0 <= s_req_limit s /\ s_req_cnt s = 0 /\ s_queue_cnt s = 0 /\ s_queue0 s = [] /\ s_queue1 s = [].

Lemma fresh_adm w : fresh w -> adm w.
Proof.
  intros [Hr Hs]. split; rewrite ?Hr; [|done..].
  intros i s Hi. destruct (Hs i s Hi) as (H1 & H2 & H3 & H4 & H5).
  assert (queue s = []) as Hq by (unfold queue; by rewrite H4, H5).
  split; rewrite ?Hq, ?H3; try done.
  - constructor.
  - intros q. split; [intros H; by apply not_elem_of_nil in H|]. intros (r & Hr' & _). done.
Qed.

End Admission.

Module Retry.
Import Admission.

(** ** When the retry loop ends *)

(** The servers that are not marked as failed. *)
Fixpoint up (now : Z) (l : list rad_server_t) : nat :=
  match l with
  | [] => 0
  | s :: l => (if s_fail_time s <=? now then 1 else 0) + up now l
  end.

(** A failure of this server is remembered. *)
Definition remembers (s : rad_server_t) : Prop :=
  s_req_limit s <> 0 /\ 0 < s_fail_timeout s /\ s_need_free s = false.

(** What the loop may change about a server besides its failure time. *)
Definition same_conf (s s' : rad_server_t) : Prop :=
  s_req_limit s' = s_req_limit s /\ s_fail_timeout s' = s_fail_timeout s /\ s_need_free s' = s_need_free s.

Lemma up_alter now i g l s :
  l !! i = Some s -> (s_fail_time s <=? now) = true -> (s_fail_time (g s) <=? now) = false ->
  S (up now (alter g i l)) = up now l.
Proof.
  revert i. induction l as [|x l IH]; intros [|i] H Hs Hg; [done..| |]; cbn in *.
  - injection H as ->. rewrite Hs, Hg. lia.
  - change (list_alter g i l) with (alter g i l). rewrite <- (IH i H Hs Hg). lia.
Qed.

Lemma up_alter_same now i g l : (forall s, s_fail_time (g s) = s_fail_time s) -> up now (alter g i l) = up now l.
Proof.
  intros Hg. revert i. induction l as [|x l IH]; intros [|i]; [done..| |]; cbn.
  - by rewrite Hg.
  - change (list_alter g i l) with (alter g i l). by rewrite IH.
Qed.

Lemma Forall_remembers_alter i g (l : list rad_server_t) :
  (forall s, same_conf s (g s)) -> Forall remembers l -> Forall remembers (alter g i l).
Proof.
  intros Hg Hl. apply Forall_alter; [done|]. intros x _ (H1 & H2 & H3). destruct (Hg x) as (E1 & E2 & E3).
  split; [congruence|]. split; congruence.
Qed.

Lemma alter_alter {A} (f g : A -> A) i (l : list A) : alter f i (alter g i l) = alter (f ∘ g) i l.
Proof.
  apply list_eq. intros j. rewrite !list_lookup_alter. destruct (decide (i = j)) as [<-|]; [|done].
  rewrite decide_True by done. by destruct (l !! i).
Qed.

(** The picked server is one of the eligible ones, and there is one when any is eligible. *)
Lemma pick_eligible L i type now ex addr port s0 s1 k :
  let good p := L !! p.1 = Some p.2 /\ eligible type now ex p.1 p.2 = true in
  (forall p, s0 = Some p -> good p) -> (forall p, s1 = Some p -> good p) ->
  pick (drop i L) i type now ex addr port s0 s1 = Some k ->
  exists s, L !! k = Some s /\ eligible type now ex k s = true.
Proof.
  intros good. remember (drop i L) as l eqn:Hl. revert i s0 s1 Hl.
  induction l as [|s l IH]; intros i s0 s1 Hl H0 H1 H; cbn [pick] in H.
  { destruct s1 as [[k1 x]|].
    - injection H as <-. destruct (H1 _ eq_refl) as [? ?]. eauto.
    - destruct s0 as [[k0 x]|]; [|done]. injection H as <-. destruct (H0 _ eq_refl) as [? ?]. eauto. }
  assert (L !! i = Some s /\ l = drop (S i) L) as [Hi Hl'].
  { assert (L !! i = Some s) as Hi by (rewrite <- (Nat.add_0_r i), <- lookup_drop, <- Hl; done).
    split; [done|]. rewrite (drop_S _ _ _ Hi) in Hl. by injection Hl. }
  destruct (eligible type now ex i s) eqn:He; cbn [negb] in H; [|exact (IH (S i) _ _ Hl' H0 H1 H)].
  match type of H with context [pick _ _ _ _ _ _ _ _ ?x] => set (s1' := x) in * end.
  assert (forall p, s1' = Some p -> good p) as H1'.
  { intros p. unfold s1'. repeat case_match; intros; simplify_eq; try (by split); by apply H1. }
  destruct s0 as [[k0 b]|].
  - eapply (IH (S i)); [done| |exact H1'|exact H]. intros p. case_match; intros; simplify_eq; [by split|by apply H0].
  - eapply (IH (S i)); [done| |exact H1'|exact H]. intros p [= <-]. by split.
Qed.

Lemma pick_None L i type now ex addr port s0 s1 :
  pick (drop i L) i type now ex addr port s0 s1 = None ->
  s0 = None /\ forall k s, (i <= k)%nat -> L !! k = Some s -> eligible type now ex k s = false.
Proof.
  remember (drop i L) as l eqn:Hl. revert i s0 s1 Hl.
  induction l as [|s l IH]; intros i s0 s1 Hl H; cbn [pick] in H.
  { destruct s1 as [[k1 x]|]; [done|]. destruct s0; [done|]. split; [done|]. intros k s Hk Hs.
    apply lookup_lt_Some in Hs. symmetry in Hl. apply (f_equal length) in Hl. rewrite length_drop in Hl. cbn in Hl. lia. }
  assert (L !! i = Some s /\ l = drop (S i) L) as [Hi Hl'].
  { assert (L !! i = Some s) as Hi by (rewrite <- (Nat.add_0_r i), <- lookup_drop, <- Hl; done).
    split; [done|]. rewrite (drop_S _ _ _ Hi) in Hl. by injection Hl. }
  destruct (eligible type now ex i s) eqn:He; cbn [negb] in H.
  - destruct s0 as [[k0 b]|]; destruct (IH (S i) _ _ Hl' H) as [Hs _]; [|done]. by destruct (better s b).
  - destruct (IH (S i) _ _ Hl' H) as [Hs H']. clear H. rename H' into H. split; [done|]. intros k x Hk Hx.
    destruct (decide (k = i)) as [->|]; [congruence|]. apply H; [lia|done].
Qed.

Section Retry.
Context (e : rad_env).

(** A request that is neither in flight nor queued, at server [i]. *)
Definition idle_at (q i : nat) (w : rworld) : Prop :=
  exists r, w_reqs w !! q = Some r /\ q_active r = false /\ q_queued r = false /\ q_serv r = i.

(** The failure of a server, seen from its list. *)
Lemma fail_servs i w s :
  w_servs w !! i = Some s -> exists g, w_servs (rad_server_fail i w) = alter g i (w_servs w) /\
    (forall s, same_conf s (g s)) /\ w_now (rad_server_fail i w) = w_now w /\
    (s_fail_time s <= w_now w -> s_fail_time (g s) = w_now w + s_fail_timeout s).
Proof.
  intros Hs. unfold rad_server_fail. rewrite Hs.
  set (ft := fun s : rad_server_t => if s_fail_time s <=? w_now w then _ else s).
  set (fl := fun s : rad_server_t => _ <| s_stat_fail_cnt ::= Z.add 1 |>).
  destruct (fail_queue_reqs (s_queue0 s) (upd_s i ft w)) as (A1 & A2 & _).
  destruct (fail_queue_reqs (s_queue1 s) (fail_queue (s_queue0 s) (upd_s i ft w))) as (B1 & B2 & _).
  exists (fl ∘ ft). split; [|split; [|split]].
  - change (w_servs (upd_s i fl (fail_queue (s_queue1 s) (fail_queue (s_queue0 s) (upd_s i ft w)))))
      with (alter fl i (w_servs (fail_queue (s_queue1 s) (fail_queue (s_queue0 s) (upd_s i ft w))))).
    rewrite B1, A1. change (w_servs (upd_s i ft w)) with (alter ft i (w_servs w)).
    apply alter_alter.
  - intros x. unfold same_conf, fl, ft. cbn. destruct x. cbn. by destruct (_ <=? _).
  - change (w_now (upd_s i fl (fail_queue (s_queue1 s) (fail_queue (s_queue0 s) (upd_s i ft w)))))
      with (w_now (fail_queue (s_queue1 s) (fail_queue (s_queue0 s) (upd_s i ft w)))).
    by rewrite B2, A2.
  - intros Hft. unfold fl, ft. cbn. rewrite (proj2 (Z.leb_le _ _)) by done. by destruct s.
Qed.

Lemma fail_idle_at q i j w : idle_at q i w -> idle_at q i (rad_server_fail j w).
Proof.
  intros (r & Hr & Ha & Hn & Hi). unfold rad_server_fail. destruct (w_servs w !! j) as [s|]; [|by exists r].
  set (w1 := upd_s j _ w).
  destruct (fail_queue_reqs (s_queue0 s) w1) as (_ & _ & _ & A).
  destruct (fail_queue_reqs (s_queue1 s) (fail_queue (s_queue0 s) w1)) as (_ & _ & _ & B).
  unfold idle_at. rewrite reqs_upd_s, B, A. change (w_reqs w1) with (w_reqs w). rewrite Hr. cbn.
  eexists. split; [reflexivity|]. destruct (decide (q ∈ s_queue1 s)), (decide (q ∈ s_queue0 s)); by destruct r.
Qed.

Lemma enter_up q i s w :
  idle_at q i w -> w_servs w !! i = Some s -> remembers s -> s_fail_time s <= w_now w -> e_prepare e q = true ->
  let '(res, w') := rad_server_req_enter e q w in
  0 <= res \/
  (idle_at q i w' /\ w_now w' = w_now w /\ exists g, w_servs w' = alter g i (w_servs w) /\
    (forall s, same_conf s (g s)) /\ s_fail_time (g s) = w_now w + s_fail_timeout s).
Proof.
  intros (r & Hr & Ha & Hn & Hi) Hs (Hl & Ht & Hf) Hup Hprep.
  unfold rad_server_req_enter. rewrite Hr, Hi, Hs, Hf.
  rewrite (proj2 (Z.ltb_ge _ _)) by done. rewrite (proj2 (Z.eqb_neq _ _)) by done. rewrite Ha, Hn. cbn [orb].
  destruct (s_req_limit s <=? s_req_cnt s); [destruct (q_send r); left; lia|].
  destruct (negb (q_send r)); [left; lia|].
  set (w1 := upd_q q (fun r => r <| q_active := true |>) (upd_s i (fun s => s <| s_req_cnt ::= Z.add 1 |>) w)).
  assert (w_reqs w1 !! q = Some (r <| q_active := true |>)) as Hr1
    by (unfold w1; rewrite reqs_upd_q, reqs_upd_s, list_lookup_alter_eq, Hr; done).
  unfold req_send_now. rewrite Hr1, Hprep.
  destruct (negb (q_fd (r <| q_active := true |>)) && negb (e_sock e (q_serv (r <| q_active := true |>))));
    cbn [negb]; [|left; cbn; lia].
  change (-2 =? 0) with false. change (-2 =? -2) with true. cbn iota. right.
  set (w2 := upd_s i (fun s => s <| s_req_cnt ::= Z.add (-1) |>) (upd_q q (fun r => r <| q_active := false |>) w1)).
  assert (w_servs w2 = alter ((fun s => s <| s_req_cnt ::= Z.add (-1) |>) ∘ (fun s => s <| s_req_cnt ::= Z.add 1 |>)) i (w_servs w))
    as Hs2 by (apply alter_alter).
  set (h := (fun s => s <| s_req_cnt ::= Z.add (-1) |>) ∘ _) in Hs2.
  assert (forall s, same_conf s (h s) /\ s_fail_time (h s) = s_fail_time s) as Hh by (intros x; by destruct x).
  assert (w_servs w2 !! i = Some (h s)) as Hsi by (rewrite Hs2, list_lookup_alter_eq, Hs; done).
  destruct (fail_servs i w2 (h s) Hsi) as (g & Hg1 & Hg2 & Hg3 & Hg4).
  assert (w_now w2 = w_now w) as Hnow by done.
  split; [|split; [by rewrite Hg3|]].
  - apply fail_idle_at. exists ((r <| q_active := true |>) <| q_active := false |>).
    unfold w2. rewrite reqs_upd_s, reqs_upd_q, list_lookup_alter_eq, Hr1. by destruct r.
  - exists (g ∘ h). split; [by rewrite Hg1, Hs2, alter_alter|]. split.
    + intros x. destruct (Hg2 (h x)) as (E1 & E2 & E3). destruct (Hh x) as [(F1 & F2 & F3) _].
      unfold same_conf, compose. split; [congruence|]. split; congruence.
    + unfold compose. destruct (Hh s) as [(F1 & F2 & F3) F4]. rewrite Hg4, Hnow, F2; [done|]. by rewrite F4, Hnow.
Qed.

Lemma same_conf_client type n s : same_conf s (add_client type n s) /\ s_fail_time (add_client type n s) = s_fail_time s.
Proof. unfold add_client, same_conf. destruct s. by destruct (type =? RAD_SERV_AUTH). Qed.

Lemma put_servs i type w :
  w_servs (rad_server_put i type w) = alter (add_client type (-1)) i (w_servs w) /\
  w_reqs (rad_server_put i type w) = w_reqs w /\ w_now (rad_server_put i type w) = w_now w.
Proof.
  unfold rad_server_put. destruct (w_servs _ !! i) as [s|]; [|done]. by destruct (_ && _).
Qed.

(** A successful change of server: only client counts move, and the new server is eligible. *)
Lemma realloc_servs q i w :
  idle_at q i w ->
  match rad_server_realloc q w with
  | (res, w') => res <> 0 \/
      exists j sj, idle_at q j w' /\ w_now w' = w_now w /\ w_servs w !! j = Some sj /\
        (exists r, w_reqs w !! q = Some r /\ eligible (q_type r) (w_now w) (Some i) j sj = true) /\
        exists t, w_servs w' = alter (add_client t (-1)) i (alter (add_client t 1) j (w_servs w))
  end.
Proof.
  intros (r & Hr & Ha & Hn & Hi). unfold rad_server_realloc, __rad_server_get. rewrite Hr, Hi.
  destruct (pick _ _ _ _ _ _ _ _ _) as [j|] eqn:Hp; [|by left]. right.
  change (w_servs w) with (drop 0 (w_servs w)) in Hp.
  apply pick_eligible in Hp as (sj & Hj & He); [|done..]. exists j, sj.
  destruct (put_servs i (q_type r) (upd_s j (add_client (q_type r) 1) w)) as (P1 & P2 & P3).
  set (w2 := rad_server_put i (q_type r) (upd_s j (add_client (q_type r) 1) w)) in *.
  split; [|split; [exact P3|split; [done|split; [by eauto|]]]].
  - exists (r <| q_serv := j |> <| q_fd := false |>). rewrite reqs_upd_q, P2, reqs_upd_s, list_lookup_alter_eq, Hr.
    by destruct r.
  - exists (q_type r). rewrite servs_upd_q, P1. done.
Qed.

Lemma loop_returns_up fuel q i s w :
  idle_at q i w -> w_servs w !! i = Some s -> s_fail_time s <= w_now w -> 0 <= w_now w ->
  Forall remembers (w_servs w) -> e_prepare e q = true -> (up (w_now w) (w_servs w) <= fuel)%nat ->
  exists res w', enter_loop e fuel q w = Some (res, w').
Proof.
  revert i s w. induction fuel as [|fuel IH]; intros i s w Hidle Hs Hup Hnow Hall Hprep Hf.
  { exfalso. assert (exists n, up (w_now w) (w_servs w) = S n) as [n Hn]; [|lia].
    exists (up (w_now w) (alter (fun s => s <| s_fail_time := w_now w + 1 |>) i (w_servs w))).
    symmetry. apply (up_alter _ _ _ _ s Hs); [by apply Z.leb_le|]. apply Z.leb_gt. destruct s. cbn. lia. }
  cbn [enter_loop].
  assert (remembers s) as Hrem by (by apply (Forall_lookup_1 _ _ _ _ Hall Hs)).
  pose proof (enter_up q i s w Hidle Hs Hrem Hup Hprep) as He.
  destruct (rad_server_req_enter e q w) as [res w1].
  destruct (0 <=? res) eqn:Hres; [by eauto|]. to_prop. destruct He as [He|(Hid1 & Hn1 & g & Hg & Hc & Hft)]; [lia|].
  pose proof (realloc_servs q i w1 Hid1) as Hr. destruct (rad_server_realloc q w1) as [r2 w2].
  destruct (r2 =? 0) eqn:Hr2; to_prop; cbn [negb]; [|by eauto].
  destruct Hr as [Hr|(j & sj & Hid2 & Hn2 & Hj & (rq & Hrq & Hel) & t & Ht)]; [done|].
  assert (exists sj', w_servs w2 !! j = Some sj' /\ s_fail_time sj' = s_fail_time sj) as (sj' & Hj' & Hft').
  { rewrite Ht, list_lookup_alter, list_lookup_alter_eq, Hj. destruct (decide (i = j)) as [->|]; cbn.
    - rewrite list_lookup_alter_eq, Hj. eexists. split; [reflexivity|]. by rewrite !(proj2 (same_conf_client _ _ _)).
    - eexists. split; [reflexivity|]. by rewrite (proj2 (same_conf_client _ _ _)). }
  apply (IH j sj' w2); [done|done| | | |done|].
  - rewrite Hft', Hn2, Hn1. unfold eligible in Hel. rewrite Hn1 in Hel. to_prop.
    apply andb_false_iff in H2 as [H2|H2]; to_prop; lia.
  - by rewrite Hn2, Hn1.
  - rewrite Ht. apply Forall_remembers_alter; [intros x; apply same_conf_client|].
    apply Forall_remembers_alter; [intros x; apply same_conf_client|]. rewrite Hg. by apply Forall_remembers_alter.
  - rewrite Ht, Hn2, Hn1. rewrite !up_alter_same by (intros x; apply same_conf_client). rewrite Hg.
    enough (S (up (w_now w) (alter g i (w_servs w))) = up (w_now w) (w_servs w)) by lia.
    apply (up_alter _ _ _ _ s Hs); [by apply Z.leb_le|]. apply Z.leb_gt. rewrite Hft.
    destruct Hrem as (_ & Ht' & _). lia.
Qed.

(** A server whose failures are not remembered: no request limit, so that a request that
    cannot be sent is not held against the server; it can be asked for. *)
Definition forgetful (type : Z) (now : Z) (s : rad_server_t) : Prop :=
  s_req_limit s = 0 /\ s_need_free s = false /\ s_need_close s = false /\ s_fail_time s <= now /\
  (type = RAD_SERV_AUTH -> s_auth_port s <> 0) /\ (type = RAD_SERV_ACCT -> s_acct_port s <> 0).

Lemma forgetful_alter type now t n i (l : list rad_server_t) :
  Forall (forgetful type now) l -> Forall (forgetful type now) (alter (add_client t n) i l).
Proof.
  intros Hl. apply Forall_alter; [done|]. intros x _. unfold forgetful, add_client. destruct x.
  by destruct (t =? RAD_SERV_AUTH).
Qed.

Lemma loop_spins fuel q r w :
  w_reqs w !! q = Some r -> q_active r = false -> q_queued r = false -> q_send r = true -> q_fd r = false ->
  (q_serv r < length (w_servs w))%nat -> (2 <= length (w_servs w))%nat -> 0 <= w_now w ->
  Forall (forgetful (q_type r) (w_now w)) (w_servs w) -> (forall s, e_sock e s = false) ->
  enter_loop e fuel q w = None.
Proof.
  revert r w. induction fuel as [|fuel IH]; intros r w Hr Ha Hn Hse Hfd Hlt Hlen Hnow Hall Hsock; [done|].
  cbn [enter_loop].
  destruct (lookup_lt_is_Some_2 _ _ Hlt) as [s Hs].
  assert (forgetful (q_type r) (w_now w) s) as (Hl & Hf & Hc & Hft & _) by (by apply (Forall_lookup_1 _ _ _ _ Hall Hs)).
  assert (rad_server_req_enter e q w = (-2, w)) as ->.
  { unfold rad_server_req_enter. rewrite Hr, Hs, Hf, (proj2 (Z.ltb_ge _ _)), Hl by done. cbn. rewrite Hse.
    unfold req_send_now. by rewrite Hr, Hfd, Hsock. }
  change (0 <=? -2) with false. cbn iota.
  assert (forall j sj, w_servs w !! j = Some sj -> j <> q_serv r ->
    eligible (q_type r) (w_now w) (Some (q_serv r)) j sj = true) as Hel.
  { intros j sj Hj Hne.
    assert (forgetful (q_type r) (w_now w) sj) as (_ & _ & _ & Hft' & H1 & H2) by (by apply (Forall_lookup_1 _ _ _ _ Hall Hj)).
    unfold eligible. rewrite bool_decide_false by congruence.
    rewrite (proj2 (Z.ltb_ge (w_now w) _)), andb_false_r by done. cbn.
    destruct (q_type r =? RAD_SERV_AUTH) eqn:E1, (q_type r =? RAD_SERV_ACCT) eqn:E2; to_prop; cbn;
      rewrite ?(proj2 (Z.eqb_neq _ _)) by auto; done. }
  assert (exists j sj, w_servs w !! j = Some sj /\ j <> q_serv r) as (j0 & sj0 & Hj0 & Hne0).
  { destruct (q_serv r) as [|k] eqn:Hk.
    - destruct (lookup_lt_is_Some_2 (w_servs w) 1) as [x Hx]; [lia|]. by exists 1%nat, x.
    - destruct (lookup_lt_is_Some_2 (w_servs w) 0) as [x Hx]; [lia|]. by exists 0%nat, x. }
  unfold rad_server_realloc, __rad_server_get. rewrite Hr.
  destruct (pick (w_servs w) _ _ _ _ _ _ _ _) as [j|] eqn:Hp.
  2:{ change (w_servs w) with (drop 0 (w_servs w)) in Hp. apply pick_None in Hp as [_ Hp].
      specialize (Hp j0 sj0 ltac:(lia) Hj0). by rewrite (Hel j0 sj0) in Hp. }
  apply pick_lt in Hp; [|done..]. change (negb (0 =? 0)) with false. cbn iota.
  destruct (put_servs (q_serv r) (q_type r) (upd_s j (add_client (q_type r) 1) w)) as (P1 & P2 & P3).
  set (w2 := rad_server_put (q_serv r) (q_type r) (upd_s j (add_client (q_type r) 1) w)) in *.
  apply (IH (r <| q_serv := j |> <| q_fd := false |>)).
  - rewrite reqs_upd_q, P2, reqs_upd_s, list_lookup_alter_eq, Hr. done.
  - by destruct r.
  - by destruct r.
  - by destruct r.
  - by destruct r.
  - rewrite servs_upd_q, P1, length_alter, length_upd_s. destruct r. cbn in *. lia.
  - rewrite servs_upd_q, P1, length_alter, length_upd_s. done.
  - change (w_now (upd_q q (fun r => r <| q_serv := j |> <| q_fd := false |>) w2)) with (w_now w2). by rewrite P3.
  - change (w_now (upd_q q (fun r => r <| q_serv := j |> <| q_fd := false |>) w2)) with (w_now w2).
    rewrite servs_upd_q, P1, P3. change (w_now (upd_s j (add_client (q_type r) 1) w)) with (w_now w).
    replace (q_type (r <| q_serv := j |> <| q_fd := false |>)) with (q_type r) by (by destruct r).
    apply forgetful_alter.
    change (w_servs (upd_s j (add_client (q_type r) 1) w)) with (alter (add_client (q_type r) 1) j (w_servs w)).
    by apply forgetful_alter.
  - done.
Qed.

(** The loop in which [rad_req_send] looks for a server that takes a request ends
    exactly when failures are remembered.  If every server has a request limit and a
    failure timeout, a server whose socket cannot be made is marked as failed, and the loop
    ends within one turn per server that was still up, whatever the network answers.  With
    the default configuration (no request limit) nothing is remembered: as soon as two
    servers are configured and neither can be connected to, for instance for want of a
    route, the loop moves the request from one to the other for ever. *)
Theorem retry_loop_ends q r w :
  w_reqs w !! q = Some r -> q_active r = false -> q_queued r = false ->
  (q_serv r < length (w_servs w))%nat -> 0 <= w_now w ->
  (forall s, w_servs w !! q_serv r = Some s -> s_fail_time s <= w_now w) ->
  (Forall remembers (w_servs w) -> e_prepare e q = true ->
   exists res w', enter_loop e (up (w_now w) (w_servs w)) q w = Some (res, w')) /\
  (Forall (forgetful (q_type r) (w_now w)) (w_servs w) -> (2 <= length (w_servs w))%nat ->
   q_send r = true -> q_fd r = false -> (forall s, e_sock e s = false) ->
   forall fuel, enter_loop e fuel q w = None).
Proof.
  intros Hr Ha Hn Hlt Hnow Hup. split.
  - intros Hall Hprep. destruct (lookup_lt_is_Some_2 _ _ Hlt) as [s Hs].
    apply (loop_returns_up _ q (q_serv r) s); try done; [by exists r|by apply Hup].
  - intros Hall Hlen Hse Hfd Hsock fuel. by apply (loop_spins fuel q r).
Qed.
End Retry.
End Retry.

(** ** Examples *)

Module ServDemo.
Import Admission Retry.

Definition server (limit timeout : Z) : rad_server_t :=
  {| s_addr := 16777343; s_auth_port := 1812; s_acct_port := 1813; s_req_limit := limit; s_req_cnt := 0;
     s_queue_cnt := 0; s_fail_timeout := timeout; s_max_fail := 3; s_queue0 := []; s_queue1 := [];
     s_clients0 := 0; s_clients1 := 0; s_fail_time := 0; s_timeout_cnt := 0; s_weight := 1;
     s_backup := false; s_need_free := false; s_need_close := false; s_stat_fail_cnt := 0 |}.
Definition world (l : list rad_server_t) : rworld :=
  {| w_servs := l; w_reqs := []; w_calls := []; w_now := 100; w_trace := [] |}.

Definition reachable : rad_env := {| e_sock := fun _ => true; e_prepare := fun _ => true; conf_max_try := 3 |}.
Definition unreachable : rad_env := {| e_sock := fun _ => false; e_prepare := fun _ => true; conf_max_try := 3 |}.

Definition start : rworld := world [server 1 5].
Definition with_new (w : rworld) : rworld :=
  (__rad_server_get 0 None 0 0 w).2 <| w_reqs ::= fun l => l ++ [new_req 0 0 7 0] |>.
Definition sent (q : nat) (w : rworld) : rworld :=
  match rad_req_send reachable 1 q w with Some (_, w') => w' | None => w end.
Definition w1 : rworld := Eval vm_compute in with_new start.
Definition w2 : rworld := Eval vm_compute in with_new w1.
Definition w3 : rworld := Eval vm_compute in sent 0 w2.
Definition w4 : rworld := Eval vm_compute in sent 1 w3.

Lemma serv_demo_run : rtc rad_step start w4.
Proof.
  refine (rtc_l _ _ w1 _ (st_new 0 0 7 0 0 0 start _ eq_refl) _).
  refine (rtc_l _ _ w2 _ (st_new 0 0 7 0 0 0 w1 _ eq_refl) _).
  refine (rtc_l _ _ w3 _ (st_send reachable 1 0 _ 0 w2 w3 eq_refl eq_refl eq_refl) _).
  exact (rtc_once _ _ (st_send reachable 1 1 _ 0 w3 w4 eq_refl eq_refl eq_refl)).
Qed.


(** Two servers that remember failures, and two that do not. *)
Definition careful : rworld := Eval vm_compute in with_new (world [server 1 5; server 1 5]).
Definition careless : rworld :=
  Eval vm_compute in upd_q 0 (fun r => r <| q_send := true |>) (with_new (world [server 0 0; server 0 0])).

Definition ready : rad_req_t := Eval vm_compute in (new_req 0 0 7 0) <| q_send := true |>.

Lemma retry_loop_ends_witness :
  (exists res w', enter_loop unreachable 2 0 careful = Some (res, w')) /\
  forall fuel, enter_loop unreachable fuel 0 careless = None.
Proof.
  split.
  - apply (proj1 (retry_loop_ends unreachable 0 (new_req 0 0 7 0) careful eq_refl eq_refl eq_refl
      ltac:(cbn; lia) ltac:(cbn; lia) ltac:(intros s [= <-]; cbn; lia))); [|reflexivity].
    assert (forall c, remembers ((server 1 5) <| s_clients0 := c |>)) as Hr
      by (intros c; split; [discriminate|split; [cbn; lia|reflexivity]]).
    constructor; [exact (Hr 1)|constructor; [exact (Hr 0)|constructor]].
  - apply (proj2 (retry_loop_ends unreachable 0 ready careless eq_refl eq_refl eq_refl
      ltac:(cbn; lia) ltac:(cbn; lia) ltac:(intros s [= <-]; cbn; lia))); [|cbn; lia|reflexivity|reflexivity|intros s; reflexivity].
    assert (forall c, forgetful 0 100 ((server 0 0) <| s_clients0 := c |>)) as Hr
      by (intros c; do 3 (split; [reflexivity|]); split; [cbn; lia|split; discriminate]).
    constructor; [exact (Hr 1)|constructor; [exact (Hr 0)|constructor]].
Defined.
End ServDemo.
