(* ===== verification/IpPoolProps.v ===== *)
(** Theorems about the address pools of [IpPool].

    [Gen]: the generators, and that the shuffling one ends and is the plain one on a
    permutation of the range; [Lease]: sessions that take and give back addresses. *)

From stdpp Require Import base tactics list numbers option strings relations.
From Stdlib Require Import ZArith Lia Ascii.
From S2P Require Import Prelude CLib IpPool.

Open Scope Z_scope.

Module Gen.

Lemma next_in_elem l x y : next_in l x = Some y -> y ∈ l.
Proof.
  induction l as [|z l IH]; cbn; [done|]. case_match; [|set_solver].
  destruct l; [done|]. cbn. intros [= ->]. set_solver.
Qed.

Lemma next_in_ne l x : NoDup l -> next_in l x <> Some x.
Proof.
  induction 1 as [|z l Hz Hl IH]; cbn; [done|]. case_match eqn:E; [|done].
  apply Nat.eqb_eq in E as ->. destruct l; [done|]. cbn. intros [= ->]. set_solver.
Qed.

(** A position is the list head or a node of the list. *)
Definition at_pos (l : list nat) (p : option nat) : Prop := forall x, p = Some x -> x ∈ l.

Lemma nxt_at l p : at_pos l (nxt l p).
Proof.
  intros y. destruct p; cbn; [apply next_in_elem|]. destruct l; [done|]. cbn. intros [= ->]. set_solver.
Qed.

Lemma prv_at l p : at_pos l (prv l p).
Proof.
  intros y. destruct p; cbn; [intros H%next_in_elem; by apply elem_of_reverse|]. apply last_Some_elem_of.
Qed.

Lemma nxt_ne l x : NoDup l -> nxt l (Some x) <> Some x.
Proof. apply next_in_ne. Qed.

Lemma prv_ne l x : NoDup l -> prv l (Some x) <> Some x.
Proof. intros H. apply next_in_ne. by rewrite reverse_Permutation. Qed.

Lemma at_removed l p x : at_pos l p -> p <> Some x -> at_pos (filter (fun y => y <> x) l) p.
Proof. intros H Hp y ->. apply list_elem_of_filter. split; [congruence|]. by apply H. Qed.

(** The position kept after node [x] is removed, by either neighbour function. *)
Lemma fixup_at (step : list nat -> option nat -> option nat) l p x :
  (forall p, at_pos l (step l p)) -> step l (Some x) <> Some x -> at_pos l p ->
  at_pos (filter (fun y => y <> x) l) (if bool_decide (p = Some x) then step l p else p).
Proof.
  intros Hs Hne Hp. case_bool_decide as E; [subst p|]; by apply at_removed.
Qed.

Lemma skip_nxt l p : l <> [] -> at_pos l p -> exists x, skip_head nxt l p = Some x /\ x ∈ l.
Proof.
  intros Hl Hp. destruct p as [x|]; cbn; [eauto|]. destruct l as [|y l]; [done|]. exists y. set_solver.
Qed.

Lemma skip_prv l p : l <> [] -> at_pos l p -> exists x, skip_head prv l p = Some x /\ x ∈ l.
Proof.
  intros Hl Hp. destruct p as [x|]; cbn; [eauto|]. destruct (last l) as [y|] eqn:E.
  - exists y. split; [done|]. by apply last_Some_elem_of.
  - by apply last_None in E.
Qed.

(** What a turn of the shuffle can do: discard the draw, at most ten times in a row, or take
    a node of the list; the positions stay in the list. *)
Lemma shuffle_turn_ok l pos1 pos2 t rnd :
  NoDup l -> l <> [] -> at_pos l pos1 -> at_pos l pos2 -> 0 <= t <= 10 -> 0 <= rnd ->
  exists taken p1 p2 l' t', shuffle_turn l pos1 pos2 t rnd = Some (taken, p1, p2, l', t') /\
    at_pos l' p1 /\ at_pos l' p2 /\
    match taken with
    | None => l' = l /\ t < 10 /\ t' = t + 1
    | Some x => x ∈ l /\ l' = filter (fun y => y <> x) l /\ t' = 0
    end.
Proof.
  intros Hnd Hl H1 H2 Ht Hr. unfold shuffle_turn.
  destruct (skip_nxt l pos1 Hl H1) as (a & -> & Ha). destruct (skip_prv l pos2 Hl H2) as (b & -> & Hb).
  set (r := if t <? 10 then rnd else rnd mod 64).
  destruct (64 <=? r) eqn:E.
  - eexists None, _, _, _, _. split; [reflexivity|]. split; [apply nxt_at|]. split; [apply prv_at|].
    split; [done|]. apply Z.leb_le in E. unfold r in E. destruct (t <? 10) eqn:E10.
    + apply Z.ltb_lt in E10. split; [done|]. unfold u8. apply Z.mod_small. lia.
    + pose proof (Z.mod_pos_bound rnd 64). lia.
  - set (x := if r <? 32 then a else b).
    assert (Hx : (if r <? 32 then Some a else Some b) = Some x) by (unfold x; by case_match).
    rewrite Hx. eexists (Some x), _, _, _, _. split; [reflexivity|].
    split; [apply fixup_at; [apply nxt_at|by apply nxt_ne|apply nxt_at]|].
    split; [apply fixup_at; [apply prv_at|by apply prv_ne|apply prv_at]|].
    split; [unfold x; by case_match|done].
Qed.

Lemma filter_absent (l : list nat) x : x ∉ l -> filter (fun y => y <> x) l = l.
Proof.
  induction l as [|z l IH]; [done|]. intros H. rewrite filter_cons_True by set_solver. rewrite IH; set_solver.
Qed.

Lemma removed_perm (l : list nat) x : NoDup l -> x ∈ l -> l ≡ₚ x :: filter (fun y => y <> x) l.
Proof.
  induction 1 as [|z l Hz Hl IH]; [set_solver|]. intros [->|Hx]%elem_of_cons.
  - rewrite filter_cons_False by tauto. by rewrite filter_absent.
  - rewrite filter_cons_True by set_solver. rewrite (IH Hx) at 1. apply Permutation_swap.
Qed.

(** The shuffled generator, from any point of its loop. *)
Lemma shuffled_is_plain fuel g addr rnd k l pos1 pos2 t gw :
  NoDup l -> at_pos l pos1 -> at_pos l pos2 -> 0 <= t <= 10 -> (forall k, 0 <= rnd k) ->
  11 * Z.of_nat (length l) <= Z.of_nat fuel + t ->
  exists m order, p2p_shuffled fuel g addr rnd k l pos1 pos2 t gw = Some m /\ Permutation order l /\
    m.1 = (p2p_plain g (addr <$> order) gw).1 /\ m.2.2 = (p2p_plain g (addr <$> order) gw).2.2.
Proof.
  revert k l pos1 pos2 t gw. induction fuel as [|fuel IH]; intros k l pos1 pos2 t gw Hnd H1 H2 Ht Hr Hf.
  { destruct l; [|cbn in Hf; lia]. exists ([], ([], gw)), []. done. }
  destruct (decide (l = [])) as [->|Hl]. { exists ([], ([], gw)), []. done. }
  destruct (shuffle_turn_ok l pos1 pos2 t (rnd k) Hnd Hl H1 H2 Ht (Hr k))
    as (taken & p1 & p2 & l' & t' & E & Hp1 & Hp2 & Htk).
  assert (Hu : p2p_shuffled (S fuel) g addr rnd k l pos1 pos2 t gw =
    match taken with
    | None => p2p_shuffled fuel g addr rnd (S k) l' p1 p2 t' gw
    | Some x => match take_peer g (addr x) gw with
        | inl true => p2p_shuffled fuel g addr rnd (S k) l' p1 p2 t' gw
        | inl false => Some ([], (addr <$> l', gw))
        | inr (a, gw) => made_cons (a, addr x) <$> p2p_shuffled fuel g addr rnd (S k) l' p1 p2 t' gw
        end
    end).
  { destruct l; [done|]. cbn [p2p_shuffled]. by rewrite E. }
  rewrite Hu. clear Hu. destruct taken as [x|].
  - destruct Htk as (Hx & -> & ->). pose proof (removed_perm l x Hnd Hx) as Hperm.
    pose proof (Permutation_length Hperm) as Hlen. cbn in Hlen.
    assert (Hnd' : NoDup (filter (fun y => y <> x) l)) by by apply NoDup_filter.
    assert (Hrec : forall gw, exists m order,
      p2p_shuffled fuel g addr rnd (S k) (filter (fun y => y <> x) l) p1 p2 0 gw = Some m /\
      order ≡ₚ filter (fun y => y <> x) l /\
      m.1 = (p2p_plain g (addr <$> order) gw).1 /\ m.2.2 = (p2p_plain g (addr <$> order) gw).2.2)
      by (intros gw'; apply IH; auto; lia).
    destruct (take_peer g (addr x) gw) as [[]|[a gw']] eqn:Etp.
    + destruct (Hrec gw) as (m & o & Em & Ho & Hm1 & Hm2). exists m, (x :: o). split; [done|].
      split; [by rewrite Hperm, Ho|]. cbn. by rewrite Etp.
    + eexists _, (x :: filter (fun y => y <> x) l). split; [reflexivity|]. split; [by symmetry|].
      cbn. by rewrite Etp.
    + destruct (Hrec gw') as (m & o & Em & Ho & Hm1 & Hm2). exists (made_cons (a, addr x) m), (x :: o).
      rewrite Em. split; [done|]. split; [by rewrite Hperm, Ho|]. cbn. rewrite Etp. cbn. by rewrite Hm1.
  - destruct Htk as (-> & Hlt & ->). apply IH; auto; lia.
Qed.

Lemma nodes_addrs (l : list Z) : (fun x => List.nth x l 0) <$> List.seq 0 (length l) = l.
Proof.
  induction l as [|a l IH]; [done|]. cbn [length List.seq fmap list_fmap List.nth]. f_equal.
  rewrite <- seq_shift, <- IH at 1. rewrite <- list_fmap_compose.
  rewrite length_fmap, length_seq. done.
Qed.

(** The generator with shuffling gives what the plain one gives on a permutation of the
    range, for all random bytes. *)
Lemma p2p_ordered shuffle rnd g p :
  (forall k, 0 <= rnd k) ->
  exists m order, generate_pool_p2p shuffle rnd g p = Some m /\ Permutation order (pl_tunnel p) /\
    m.1 = (p2p_plain g order (pl_gw p)).1 /\ m.2.2 = (p2p_plain g order (pl_gw p)).2.2.
Proof.
  intros Hr. unfold generate_pool_p2p. destruct shuffle.
  - set (nodes := List.seq 0 (length (pl_tunnel p))).
    destruct (shuffled_is_plain (shuffle_fuel (pl_tunnel p)) g (fun x => List.nth x (pl_tunnel p) 0) rnd 0
      nodes (head nodes) (last nodes) 0 (pl_gw p)) as (m & o & E & Ho & H1 & H2); auto.
    + apply NoDup_ListNoDup, seq_NoDup.
    + apply (nxt_at nodes None).
    + apply (prv_at nodes None).
    + lia.
    + unfold nodes, shuffle_fuel. rewrite length_seq. lia.
    + exists m, ((fun x => List.nth x (pl_tunnel p) 0) <$> o). split; [done|].
      split; [|done]. rewrite Ho. unfold nodes. by rewrite nodes_addrs.
  - by exists (p2p_plain g (pl_tunnel p) (pl_gw p)), (pl_tunnel p).
Qed.

Lemma plain_gateway g tunnel gw :
  g <> 0 -> (p2p_plain g tunnel gw).1 = pair g <$> filter (fun a => a <> g) tunnel.
Proof.
  intros Hg. induction tunnel as [|a l IH]; [done|]. cbn [p2p_plain]. unfold take_peer.
  apply Z.eqb_neq in Hg as ->. destruct (g =? a) eqn:E.
  - apply Z.eqb_eq in E as <-. rewrite filter_cons_False by tauto. done.
  - apply Z.eqb_neq in E. rewrite filter_cons_True by done. cbn. by rewrite IH.
Qed.

Lemma plain_gw_list tunnel gw : (p2p_plain 0 tunnel gw).1 = zip gw tunnel.
Proof.
  revert gw. induction tunnel as [|a l IH]; intros [|b gw]; try done. cbn. by rewrite IH.
Qed.

(** The point-to-point generator always finishes, whatever the random bytes, and hands
    out the configured range: with a gateway address, exactly one item for every address of
    the range that is not the gateway's, all with the gateway as local address; without one,
    the addresses of the gateway list paired with as many addresses of the range.  Without
    shuffling the order is that of the configuration. *)
Theorem p2p_hands_out_range shuffle rnd g p :
  (forall k, 0 <= rnd k < 256) ->
  exists m order, generate_pool_p2p shuffle rnd g p = Some m /\ Permutation order (pl_tunnel p) /\
    (shuffle = false -> order = pl_tunnel p) /\
    (g <> 0 -> m.1 = pair g <$> filter (fun a => a <> g) order) /\
    (g = 0 -> m.1 = zip (pl_gw p) order).
Proof.
  intros Hr. destruct shuffle.
  - destruct (p2p_ordered true rnd g p) as (m & o & E & Ho & Hm & _); [intros k; apply Hr|].
    exists m, o. do 3 (split; [done|]). rewrite Hm.
    split; [apply plain_gateway|intros ->; apply plain_gw_list].
  - exists (p2p_plain g (pl_tunnel p) (pl_gw p)), (pl_tunnel p).
    do 3 (split; [done|]). split; [apply plain_gateway|intros ->; apply plain_gw_list].
Qed.

(** The peer addresses a generator gives are among those of the range, each as often. *)
Lemma plain_peers g tunnel gw : (p2p_plain g tunnel gw).1.*2 ⊆+ tunnel.
Proof.
  revert gw. induction tunnel as [|a l IH]; intros gw; [done|]. cbn.
  destruct (take_peer g a gw) as [[]|[b gw']]; cbn.
  - by apply submseteq_cons.
  - apply submseteq_nil_l.
  - by apply submseteq_skip.
Qed.

Lemma net30_peers tunnel : (net30 tunnel).*2 ⊆+ tunnel.
Proof.
  revert tunnel. fix IH 1. intros [|a [|b [|c [|d l]]]]; cbn; try apply submseteq_nil_l.
  - apply submseteq_cons, submseteq_cons. done.
  - apply submseteq_cons, submseteq_cons, submseteq_skip, submseteq_cons, IH.
Qed.

End Gen.

Module Lease.

(** ** Where the items are *)

(** The items in the free lists of the pools. *)
Definition free (s : pools) : list nat := concat (pl_items <$> ps_pools s).

(** Every item is in the free list of one pool, once, or with a session. *)
Definition placed (s : pools) (held : list nat) : Prop :=
  free s ++ held ≡ₚ List.seq 0 (length (ps_items s)) /\
  forall it x, ps_items s !! it = Some x -> (it_pool x < length (ps_pools s))%nat.

(** The peer addresses of the items; they never change. *)
Definition peers (s : pools) : list Z := it_peer_addr <$> ps_items s.

Lemma fmap_alter_same {A B} (f : A -> B) g i (l : list A) :
  (forall x, f (g x) = f x) -> f <$> alter g i l = f <$> l.
Proof.
  intros H. revert i. induction l as [|x l IH]; intros [|i]; cbn; [done|done|by rewrite H|].
  by rewrite <- (IH i).
Qed.

Lemma concat_alter_cons (l : list ippool_t) i p it rest :
  l !! i = Some p -> pl_items p = it :: rest ->
  concat (pl_items <$> l) ≡ₚ it :: concat (pl_items <$> alter (fun p => p <| pl_items := rest |>) i l).
Proof.
  revert i. induction l as [|q l IH]; intros [|i] Hi Hp; cbn in *; [done|done| |].
  - injection Hi as ->. rewrite Hp. by destruct p.
  - rewrite (IH i Hi Hp). cbn. symmetry. apply Permutation_middle.
Qed.

Lemma concat_alter_app (l : list ippool_t) i f new :
  (i < length l)%nat -> (forall p, pl_items (f p) = pl_items p ++ new) ->
  concat (pl_items <$> alter f i l) ≡ₚ concat (pl_items <$> l) ++ new.
Proof.
  intros Hi Hf. revert i Hi. induction l as [|q l IH]; intros [|i] Hi; cbn in *; [lia|lia| |].
  - rewrite Hf, <- !app_assoc. f_equiv. apply Permutation_app_comm.
  - rewrite IH by lia. by rewrite app_assoc.
Qed.

(** Taking an item out of its pool and into a session. *)
Lemma get_from_placed fuel ppp start i s r s' held :
  placed s held -> get_from fuel ppp start i s = Some (r, s') ->
  placed s' (match r with Some it => it :: held | None => held end) /\
  peers s' = peers s /\ (r = None -> s' = s).
Proof.
  intros Hpl. revert i. induction fuel as [|fuel IH]; intros i; [done|]. cbn.
  destruct (ps_pools s !! i) as [p|] eqn:Ei; [|done]. cbn.
  destruct (pl_items p) as [|it rest] eqn:Ep.
  - destruct (pl_next p) as [n|]; [|by intros [= <- <-]].
    destruct (n =? start)%nat; [by intros [= <- <-]|apply IH].
  - intros [= <- <-]. destruct Hpl as [Hperm Hpool]. destruct s as [ps h gw sh]. cbn in *.
    split; [|split; [|done]].
    + split; cbn.
      * unfold free in *. cbn in *. rewrite length_alter, <- Hperm, (concat_alter_cons ps i p it rest Ei Ep).
        symmetry. apply Permutation_middle.
      * intros j x. rewrite list_lookup_alter. rewrite length_alter. case_decide; [|by apply Hpool].
        intros (y & Ej & ->)%fmap_Some. apply Hpool in Ej. by destruct y.
    + unfold peers. cbn. apply fmap_alter_same. by intros [].
Qed.

Lemma get_ip_placed name ppp s r s' held :
  placed s held -> get_ip name ppp s = Some (r, s') ->
  placed s' (match r with Some it => it :: held | None => held end) /\
  peers s' = peers s /\ (r = None -> s' = s).
Proof.
  intros Hpl. unfold get_ip. case_match; [by apply get_from_placed|by intros [= <- <-]].
Qed.

(** Giving an item back. *)
Lemma put_ip_placed it s held1 held2 :
  placed s (held1 ++ it :: held2) -> placed (put_ip it s) (held1 ++ held2) /\ peers (put_ip it s) = peers s.
Proof.
  intros [Hperm Hpool]. unfold put_ip.
  assert (Hit : it ∈ List.seq 0 (length (ps_items s))) by (rewrite <- Hperm; set_solver).
  apply list_elem_of_In, in_seq in Hit.
  destruct (lookup_lt_is_Some_2 (ps_items s) it) as [x Hx]; [lia|]. rewrite Hx.
  specialize (Hpool it x Hx) as Hlt. destruct s as [ps h gw sh]. cbn in *. split; [|done]. split.
  - unfold free in *. cbn in *. rewrite <- Hperm.
    rewrite (concat_alter_app ps (it_pool x) _ [it]); [|done|by intros []].
    rewrite <- app_assoc. f_equiv. cbn. apply Permutation_middle.
  - cbn. intros j y Hj. rewrite length_alter. by apply Hpool in Hj.
Qed.

(** ** What the configuration gives *)

Lemma push_items_placed i m s :
  (i < length (ps_pools s))%nat -> placed s [] ->
  placed (push_items i m s) [] /\ peers (push_items i m s) = peers s ++ m.1.*2.
Proof.
  intros Hi [Hperm Hpool]. destruct s as [ps h gw sh]. unfold placed, peers, free in *. cbn in *.
  rewrite app_nil_r in *. split; [split|].
  - rewrite (concat_alter_app ps i _ (List.seq (length h) (length m.1))); [|done|by intros []].
    rewrite Hperm, length_app, length_fmap, <- seq_app. done.
  - intros it x [Hl|[Hl Hx]]%lookup_app_Some; rewrite length_alter; [by apply Hpool in Hl|].
    apply list_lookup_fmap_Some in Hx as ([a b] & -> & _). done.
  - rewrite fmap_app, <- list_fmap_compose. f_equal. apply list_fmap_ext. by intros ? [].
Qed.

Definition tunnels (s : pools) : list Z := concat (pl_tunnel <$> ps_pools s).

(** The configured addresses of pool [i]. *)
Definition tun (s : pools) (i : nat) : list Z := default [] (pl_tunnel <$> ps_pools s !! i).

Lemma tunnels_tun s : tunnels s = concat (tun s <$> List.seq 0 (length (ps_pools s))).
Proof.
  unfold tunnels, tun. generalize (ps_pools s). intros l. f_equal. apply list_eq. intros i.
  rewrite !list_lookup_fmap. destruct (l !! i) as [p|] eqn:E; cbn.
  - rewrite lookup_seq_lt by by apply lookup_lt_Some in E. cbn. by rewrite E.
  - rewrite lookup_seq_ge by by apply lookup_ge_None in E. done.
Qed.

Lemma push_tun i j m s : i <> j -> tun (push_items i m s) j = tun s j.
Proof. intros H. unfold tun. destruct s. cbn. by rewrite list_lookup_alter_ne. Qed.

Lemma push_length i m s : length (ps_pools (push_items i m s)) = length (ps_pools s).
Proof. destruct s. cbn. by rewrite length_alter. Qed.

Section Generators.
Context (rnd : nat -> nat -> Z) (rnd_pos : forall i k, 0 <= rnd i k).

(** A generator gives its pool items for addresses of the pool, each at most as often. *)
Lemma generate_ok i s :
  (i < length (ps_pools s))%nat -> placed s [] ->
  exists s' new, generate rnd i s = Some s' /\ placed s' [] /\ peers s' = peers s ++ new /\
    new ⊆+ tun s i /\ length (ps_pools s') = length (ps_pools s) /\ (forall j, i <> j -> tun s' j = tun s j).
Proof.
  intros Hi Hpl. destruct (lookup_lt_is_Some_2 _ _ Hi) as [p Hp]. unfold generate, tun at 1. rewrite Hp. cbn.
  assert (Hpush : forall m : made, exists s' new, Some (push_items i m s) = Some s' /\ placed s' [] /\
    peers s' = peers s ++ new /\ new = m.1.*2 /\ length (ps_pools s') = length (ps_pools s) /\
    (forall j, i <> j -> tun s' j = tun s j)).
  { intros m. destruct (push_items_placed i m s Hi Hpl) as [H1 H2]. eexists _, _.
    split; [reflexivity|]. split; [done|]. split; [done|]. split; [done|]. split; [apply push_length|].
    intros j. apply push_tun. }
  destruct (pl_generate p) as [[]|].
  - destruct (Gen.p2p_ordered (conf_shuffle s) (rnd i) (conf_gw_ip_address s) p) as (m & o & -> & Ho & Hm & _);
      [apply rnd_pos|]. cbn. destruct (Hpush m) as (s' & new & H1 & H2 & H3 & -> & H5).
    exists s', m.1.*2. split; [done|]. split; [done|]. split; [done|]. split; [|done].
    rewrite Hm, <- Ho. apply Gen.plain_peers.
  - destruct (Hpush (generate_pool_net30 p)) as (s' & new & H1 & H2 & H3 & -> & H5).
    eexists s', _. split; [done|]. split; [done|]. split; [done|]. split; [|done]. apply Gen.net30_peers.
  - exists s, []. rewrite app_nil_r. split; [done|]. split; [done|]. split; [done|].
    split; [apply submseteq_nil_l|done].
Qed.

Lemma generate_all_ok l s :
  NoDup l -> Forall (fun i => i < length (ps_pools s))%nat l -> placed s [] ->
  exists s' new, generate_all rnd l s = Some s' /\ placed s' [] /\ peers s' = peers s ++ new /\
    new ⊆+ concat (tun s <$> l).
Proof.
  intros Hnd. revert s. induction Hnd as [|i l Hil Hl IH]; intros s Hlt Hpl; cbn.
  { exists s, []. by rewrite app_nil_r. }
  apply Forall_cons in Hlt as [Hi Hlt].
  destruct (generate_ok i s Hi Hpl) as (s1 & n1 & -> & Hp1 & Hpe1 & Hn1 & Hlen & Htun). cbn.
  destruct (IH s1) as (s2 & n2 & -> & Hp2 & Hpe2 & Hn2); [by rewrite Hlen|done|].
  exists s2, (n1 ++ n2). split; [done|]. split; [done|]. split; [by rewrite Hpe2, Hpe1, app_assoc|].
  apply submseteq_app; [done|]. rewrite Hn2. f_equiv.
  assert (Heq : tun s1 <$> l = tun s <$> l)
    by (apply list_fmap_ext; intros k j Hj; apply Htun; intros ->; apply Hil; by eapply list_elem_of_lookup_2).
  by rewrite Heq.
Qed.

End Generators.

(** No option makes items. *)
Definition fresh (s : pools) : Prop := ps_items s = [] /\ Forall (fun p => pl_items p = []) (ps_pools s).

Lemma fresh_alter f i s :
  (forall p, pl_items (f p) = pl_items p) -> fresh s -> fresh (s <| ps_pools ::= alter f i |>).
Proof.
  intros Hf [H1 H2]. destruct s as [ps h g sh]. cbn in *. split; [done|]. cbn. apply Forall_alter; [done|].
  intros p _ Hp. by rewrite Hf.
Qed.

Lemma fresh_find n s : fresh s -> fresh (find_pool n true s).2.
Proof.
  intros [H1 H2]. unfold find_pool. case_match; [done|]. destruct s. cbn in *. split; [done|]. cbn.
  apply Forall_app. split; [done|]. by constructor.
Qed.

Lemma fresh_opt_pool opt s : fresh s -> fresh (opt_pool opt s).2.
Proof.
  intros H. unfold opt_pool.
  assert (Hn : forall n, fresh (let '(i, s) := find_pool n true s in (default 0%nat i, s)).2)
    by (intros n; pose proof (fresh_find n s H); by destruct (find_pool n true s)).
  destruct (after ",name=" opt); [done|]. destruct (after "," opt) as [n|]; [|done].
  by destruct (after "=" n).
Qed.

Lemma fresh_parse_options opt s r s' : fresh s -> parse_options opt s = Some (r, s') -> fresh s'.
Proof.
  intros H. unfold parse_options. destruct (opt_pool opt s) as [pool s1] eqn:E1.
  pose proof (fresh_opt_pool opt s H) as H1. rewrite E1 in H1. cbn in H1.
  destruct (opt_allocator opt); [|by intros [= <- <-]].
  destruct (after ",next=" opt) as [n|]; [|by intros [= <- <-]].
  destruct (strncpy_token n) as [t []]; [|done].
  pose proof (fresh_find t s1 H1). destruct (find_pool t true s1). by intros [= <- <-].
Qed.

Lemma fresh_add_range i l t gen s s' : fresh s -> add_range i l t gen s = Some (Some s') -> fresh s'.
Proof.
  intros H. unfold add_range. destruct (parse_range t) as [[a b]|]; [|done].
  destruct (range a b); [|done]. cbn. intros [= <-]. apply fresh_alter; [|done]. intros []. by destruct l.
Qed.

Lemma fresh_set_next pool next s : fresh s -> fresh (set_next pool next s).
Proof. intros H. destruct next; [|done]. cbn. apply fresh_alter; [by intros []|done]. Qed.

Lemma fresh_load_option o s s' : fresh s -> load_option o s = Some (Some s') -> fresh s'.
Proof.
  intros H. unfold load_option. case_bool_decide.
  { unfold parse_gw_ip_address. destruct s. repeat case_match; cbn; intros E; by simplify_eq. }
  case_bool_decide. { destruct s, (o_val o); cbn; intros E; by simplify_eq. }
  destruct (parse_options (o_raw o) s) as [[r s1]|] eqn:E; [|done]. cbn.
  apply fresh_parse_options in E; [|done]. destruct r as [[[pool gen] next]|]; [|by intros [= <-]].
  unfold opt_add_range. destruct (opt_range o) as [[[l t]|]|]; cbn; [| |done].
  - destruct (add_range pool l t gen s1) as [[s2|]|] eqn:E2; cbn; try done. intros [= <-].
    by eapply fresh_set_next, fresh_add_range.
  - intros [= <-]. by apply fresh_set_next.
Qed.

Lemma configured_fresh opts c : configured opts = Some (Some c) -> fresh c.
Proof.
  unfold configured. assert (H : fresh (create_pool None no_pools).2) by (split; [done|by constructor]).
  revert H. generalize (create_pool None no_pools).2. induction opts as [|o opts IH]; intros s H; cbn.
  { by intros [= <-]. }
  destruct (load_option o s) as [[s1|]|] eqn:E; cbn; try done. apply IH. by eapply fresh_load_option.
Qed.

Lemma fresh_placed s : fresh s -> placed s [] /\ peers s = [].
Proof.
  intros [H1 H2]. unfold placed, peers, free. rewrite H1. split; [|done]. split; [|done].
  induction H2 as [|p l Hp Hl IH]; [done|]. cbn. by rewrite Hp.
Qed.

(** ** Sessions *)

(** The sessions' calls: [held] are the items sessions have. *)
Inductive lease_step : pools * list nat -> pools * list nat -> Prop :=
| lease_get name ppp s s' it held :
    get_ip name ppp s = Some (Some it, s') -> lease_step (s, held) (s', it :: held)
| lease_refused name ppp s s' held :
    get_ip name ppp s = Some (None, s') -> lease_step (s, held) (s', held)
| lease_put it s held1 held2 :
    lease_step (s, held1 ++ it :: held2) (put_ip it s, held1 ++ held2).

Lemma lease_step_placed x y :
  lease_step x y -> placed x.1 x.2 -> placed y.1 y.2 /\ peers y.1 = peers x.1.
Proof.
  intros [name ppp s s' it held E|name ppp s s' held E|it s h1 h2] Hpl; cbn in *.
  - by destruct (get_ip_placed _ _ _ _ _ _ Hpl E) as (? & ? & _).
  - by destruct (get_ip_placed _ _ _ _ _ _ Hpl E) as (? & ? & _).
  - by apply put_ip_placed.
Qed.

Lemma lease_run_placed x y :
  rtc lease_step x y -> placed x.1 x.2 -> placed y.1 y.2 /\ peers y.1 = peers x.1.
Proof.
  induction 1 as [|x y z Hs _ IH]; intros Hpl; [done|].
  destruct (lease_step_placed x y Hs Hpl) as [H1 H2]. destruct (IH H1) as [H3 H4]. by rewrite H4, H2.
Qed.

(** The peer address of an item. *)
Definition peer_of (s : pools) (it : nat) : Z := List.nth it (peers s) 0.

Lemma held_peers s held :
  placed s held -> NoDup (peers s) -> NoDup (peer_of s <$> held) /\ Forall (fun a => a ∈ peers s) (peer_of s <$> held).
Proof.
  intros [Hperm _] Hnd. assert (Hsub : held ⊆+ List.seq 0 (length (peers s))).
  { unfold peers. rewrite length_fmap, <- Hperm. apply submseteq_inserts_l. done. }
  apply (fmap_submseteq (peer_of s)) in Hsub. unfold peer_of in Hsub at 2. rewrite Gen.nodes_addrs in Hsub.
  split.
  - destruct (submseteq_Permutation _ _ Hsub) as [k Hk]. rewrite Hk in Hnd. by apply NoDup_app in Hnd as [? _].
  - apply Forall_forall. intros a Ha. by eapply elem_of_submseteq.
Qed.

(** C13: for every configuration that loads, the pools come up, for all random bytes, and if
    no address is in the configured ranges twice then, after any sequence of calls of
    [get_ip] and [put_ip] by sessions, no two sessions have the same item or the same peer
    address, every address in use is one of the configured ones, and every item is either
    free in a pool or with one session: none is lost. *)
Theorem addresses_exclusive opts c rnd :
  configured opts = Some (Some c) -> NoDup (tunnels c) -> (forall i k, 0 <= rnd i k < 256) ->
  exists s0, ippool_init2 rnd opts = Some (Some s0) /\
    forall s held, rtc lease_step (s0, []) (s, held) ->
      NoDup held /\ NoDup (peer_of s <$> held) /\ Forall (fun a => a ∈ tunnels c) (peer_of s <$> held) /\
      free s ++ held ≡ₚ List.seq 0 (length (ps_items s0)).
Proof.
  intros Hc Hnd Hr. unfold ippool_init2. rewrite Hc. cbn.
  destruct (fresh_placed c (configured_fresh opts c Hc)) as [Hpl Hpe].
  destruct (generate_all_ok rnd (fun i k => proj1 (Hr i k)) (List.seq 0 (length (ps_pools c))) c)
    as (s0 & new & -> & Hp0 & Hpe0 & Hnew); [apply NoDup_ListNoDup, seq_NoDup| |done|].
  { apply Forall_forall. intros i Hi. apply list_elem_of_In, in_seq in Hi. lia. }
  rewrite <- tunnels_tun in Hnew. rewrite Hpe in Hpe0. cbn in Hpe0.
  exists s0. split; [done|]. intros s held Hrun.
  destruct (lease_run_placed _ _ Hrun Hp0) as [Hp Hpeers]. cbn in *.
  assert (Hsub : peers s ⊆+ tunnels c) by (by rewrite Hpeers, Hpe0).
  assert (Hnd' : NoDup (peers s)).
  { destruct (submseteq_Permutation _ _ Hsub) as [k Hk]. rewrite Hk in Hnd. by apply NoDup_app in Hnd as [? _]. }
  destruct (held_peers s held Hp Hnd') as [H1 H2]. destruct Hp as [Hperm _].
  assert (Hlen : length (ps_items s) = length (ps_items s0)).
  { apply (f_equal length) in Hpeers. unfold peers in Hpeers. by rewrite !length_fmap in Hpeers. }
  rewrite Hlen in Hperm. split; [|split; [done|split; [|done]]].
  - assert (Hn : NoDup (free s ++ held)) by (rewrite Hperm; apply NoDup_ListNoDup, seq_NoDup).
    by apply NoDup_app in Hn as (_ & _ & ?).
  - eapply Forall_impl; [exact H2|]. intros a Ha. exact (elem_of_submseteq _ _ _ Ha Hsub).
Qed.

End Lease.

Module Chain.

Section Chain.
Context (ppp : bool) (start : nat) (s : pools).

(** The pools [get_ip] looks into, in turn, when it starts from pool [i]. *)
Inductive chain : nat -> nat -> Prop :=
| chain_here i : chain i i
| chain_next i p n j :
    ps_pools s !! i = Some p -> pl_next p = Some n -> n <> start -> chain n j -> chain i j.

Definition get (fuel i : nat) := get_from fuel ppp start i s.

Lemma get_more fuel i r : get fuel i = Some r -> get (S fuel) i = Some r.
Proof.
  unfold get. revert i. induction fuel as [|fuel IH]; intros i; [done|].
  intros H. cbn [get_from] in H |- *. destruct (ps_pools s !! i) as [p|]; [|done]. cbn in *.
  destruct (pl_items p); [|done]. destruct (pl_next p) as [n|]; [|done].
  destruct (n =? start)%nat; [done|]. by apply IH.
Qed.

Lemma get_le fuel fuel' i r : (fuel <= fuel')%nat -> get fuel i = Some r -> get fuel' i = Some r.
Proof. induction 1 as [|m _ IH]; [done|]. intros H. by apply get_more, IH. Qed.

(** A chain that ends visits distinct pools. *)
Lemma minimal_path fuel i r :
  get (S fuel) i = Some r -> get fuel i = None ->
  exists vs, length vs = S fuel /\ NoDup vs /\
    Forall (fun v => (v < length (ps_pools s))%nat /\ get (S fuel) v <> None) vs.
Proof.
  revert i. induction fuel as [|fuel IH]; intros i H1 H0.
  - exists [i]. split; [done|]. split; [apply NoDup_singleton|]. constructor; [|done].
    split; [|congruence]. unfold get in H1. cbn in H1. destruct (ps_pools s !! i) eqn:E; [|done].
    by apply lookup_lt_Some in E.
  - assert (Hn : exists n, (i < length (ps_pools s))%nat /\ get (S fuel) n = Some r /\ get fuel n = None).
    { unfold get in *. cbn [get_from] in H1, H0. destruct (ps_pools s !! i) as [p|] eqn:E; [|done]. cbn in *.
      apply lookup_lt_Some in E. destruct (pl_items p); [|done]. destruct (pl_next p) as [n|]; [|done].
      destruct (n =? start)%nat; [done|]. by exists n. }
    destruct Hn as (n & Hi & Hn1 & Hn0). destruct (IH n Hn1 Hn0) as (vs & Hlen & Hnd & Hvs).
    exists (i :: vs). split; [cbn; congruence|]. split.
    + constructor; [|done]. intros Hin. rewrite List.Forall_forall in Hvs.
      apply list_elem_of_In, Hvs in Hin as [_ Hin]. done.
    + constructor; [split; [done|congruence]|]. eapply Forall_impl; [exact Hvs|].
      intros v [Hv Hg]. split; [done|]. destruct (get (S fuel) v) eqn:E; [|done].
      apply get_more in E. congruence.
Qed.

(** As many pools as there are is enough. *)
Lemma get_enough fuel i r : get fuel i = Some r -> get (length (ps_pools s)) i = Some r.
Proof.
  induction fuel as [|fuel IH]; [done|]. intros H. destruct (get fuel i) as [r'|] eqn:E.
  - pose proof (get_more _ _ _ E) as E'. rewrite H in E'. injection E' as <-. by apply IH.
  - destruct (minimal_path fuel i r H E) as (vs & Hlen & Hnd & Hvs). eapply get_le; [|exact H].
    rewrite <- Hlen, <- (length_seq (length (ps_pools s)) 0).
    apply NoDup_incl_length; [by apply NoDup_ListNoDup|]. intros v Hv.
    rewrite List.Forall_forall in Hvs. apply Hvs in Hv as [Hv _]. apply in_seq. lia.
Qed.

Lemma chain_served i j p :
  chain i j -> ps_pools s !! j = Some p -> pl_items p <> [] ->
  exists fuel it s', get fuel i = Some (Some it, s').
Proof.
  induction 1 as [i|i q n j Hi Hn Hns Hc IH]; intros Hp Hne.
  - exists 1%nat. unfold get. cbn. rewrite Hp. cbn. destruct (pl_items p) as [|it rest]; [done|]. eauto.
  - destruct (pl_items q) as [|it rest] eqn:Eq.
    + destruct (IH Hp Hne) as (fuel & it & s' & Hg). exists (S fuel), it, s'. unfold get in *. cbn.
      rewrite Hi. cbn. rewrite Eq, Hn. apply Nat.eqb_neq in Hns as ->. done.
    + exists 1%nat. unfold get. cbn. rewrite Hi. cbn. rewrite Eq. eauto.
Qed.

Lemma refused_same fuel i s' : get fuel i = Some (None, s') -> s' = s.
Proof.
  unfold get. revert i. induction fuel as [|fuel IH]; intros i; [done|].
  cbn. destruct (ps_pools s !! i) as [p|]; [|done]. cbn. destruct (pl_items p); [|done].
  destruct (pl_next p) as [n|]; [|by intros [= <-]]. destruct (n =? start)%nat; [by intros [= <-]|apply IH].
Qed.

Lemma refused_empty fuel i s' j p :
  get fuel i = Some (None, s') -> chain i j -> ps_pools s !! j = Some p -> pl_items p = [].
Proof.
  intros Hg Hc Hp. destruct (pl_items p) eqn:E; [done|].
  destruct (chain_served i j p Hc Hp) as (f & it & s2 & Hs); [by rewrite E|].
  apply (get_le _ (f + fuel)) in Hs, Hg; [congruence|lia|lia].
Qed.

End Chain.

(** The pool a session's addresses come from first. *)
Definition first_pool (name : option string) (s : pools) : option nat :=
  match name with Some n => (find_pool n false s).1 | None => def_pool s end.

(** A session whose pool, or any pool in the chain of next pools behind it, has a free
    address gets one, and it is refused only when the pool does not exist or all those pools
    are empty. *)
Theorem get_ip_serves name ppp s :
  (forall i j p, first_pool name s = Some i -> chain i s i j -> ps_pools s !! j = Some p -> pl_items p <> [] ->
     exists it s', get_ip name ppp s = Some (Some it, s')) /\
  (forall s', get_ip name ppp s = Some (None, s') ->
     s' = s /\ forall i j p, first_pool name s = Some i -> chain i s i j -> ps_pools s !! j = Some p ->
       pl_items p = []).
Proof.
  unfold get_ip. fold (first_pool name s). destruct (first_pool name s) as [i|]; cbn.
  - split.
    + intros i' j p [= <-] Hc Hp Hne. destruct (chain_served ppp i s i j p Hc Hp Hne) as (f & it & s' & Hg).
      exists it, s'. by apply (get_enough ppp i s) in Hg.
    + intros s' Hg. split.
      * by eapply (refused_same ppp i s).
      * intros i' j p [= <-] Hc Hp. by apply (refused_empty ppp i s _ i s' j p Hg).
  - split; [done|]. intros s' [= <-]. done.
Qed.

End Chain.

Module PoolDemo.

Definition opt (name : string) (val : option string) (raw : string) : conf_option :=
  {| o_name := name; o_val := val; o_raw := raw |}.

(** The section
<<
gw-ip-address=10.0.0.1
shuffle=1
10.0.0.1-5,next=more
10.0.1.0/30,name=more
>> *)
Definition opts : list conf_option :=
  [opt "gw-ip-address" (Some "10.0.0.1") "gw-ip-address=10.0.0.1"; opt "shuffle" (Some "1") "shuffle=1";
   opt "10.0.0.1-5,next" (Some "more") "10.0.0.1-5,next=more";
   opt "10.0.1.0/30,name" (Some "more") "10.0.1.0/30,name=more"].

Definition conf : pools := Eval vm_compute in
  match configured opts with Some (Some c) => c | _ => no_pools end.

Definition rnd (i k : nat) : Z := (Z.of_nat i * 77 + Z.of_nat k * 91) mod 256.

Lemma rnd_byte i k : 0 <= rnd i k < 256.
Proof. apply Z.mod_pos_bound. lia. Qed.

(** With these bytes the two pools come up as 4 and 4 items, in a shuffled order. *)
Lemma shuffled_pools :
  (match ippool_init2 rnd opts with Some (Some s) => pl_items <$> ps_pools s | _ => [] end) =
    [[0; 1; 2; 3]; [4; 5; 6; 7]]%nat /\
  (match ippool_init2 rnd opts with Some (Some s) => Lease.peers s | _ => [] end) <>
    (167772161 + 1 :: 167772161 + 2 :: 167772161 + 3 :: 167772161 + 4 :: Lease.tun conf 1).
Proof. split; vm_compute; [reflexivity|discriminate]. Qed.

Lemma addresses_exclusive_witness :
  NoDup (Lease.tunnels conf) /\
  exists s0, ippool_init2 rnd opts = Some (Some s0) /\
    forall s held, rtc Lease.lease_step (s0, []) (s, held) ->
      NoDup held /\ NoDup (Lease.peer_of s <$> held) /\
      Forall (fun a => a ∈ Lease.tunnels conf) (Lease.peer_of s <$> held) /\
      Lease.free s ++ held ≡ₚ List.seq 0 (length (ps_items s0)).
Proof.
  assert (H : NoDup (Lease.tunnels conf)) by (apply (bool_decide_unpack _); vm_compute; exact I).
  split; [exact H|]. apply (Lease.addresses_exclusive opts conf rnd); [vm_compute; reflexivity|exact H|apply rnd_byte].
Defined.

Definition pool : ippool_t := (new_pool None) <| pl_tunnel := [5; 6; 7; 8] |> <| pl_gw := [1; 2; 3] |>.

Lemma p2p_hands_out_range_witness :
  exists m order, generate_pool_p2p true (rnd 0) 0 pool = Some m /\ Permutation order (pl_tunnel pool) /\
    (true = false -> order = pl_tunnel pool) /\
    (0 <> 0 -> m.1 = pair 0 <$> filter (fun a => a <> 0) order) /\
    (0 = 0 -> m.1 = zip (pl_gw pool) order).
Proof. apply (Gen.p2p_hands_out_range true (rnd 0) 0 pool). apply rnd_byte. Defined.

(** An option after [allocator=] makes the whole line an error, although the allocator is a
    known one: the copy of its name takes the comma with it. *)
Lemma allocator_then_option :
  exists s', parse_options "10.0.0.0/24,allocator=p2p,name=x" conf = Some (None, s') /\
    parse_options "10.0.0.0/24,name=x,allocator=p2p" conf = Some (Some (2%nat, P2P, None), s').
Proof. eexists. vm_compute. split; reflexivity. Qed.

(** Three pools whose chain runs into a circle without its start: when they are empty
    [get_ip] never returns. *)
Definition circle : pools :=
  no_pools <| ps_pools := [(new_pool None) <| pl_next := Some 1%nat |>;
    (new_pool (Some "a"%string)) <| pl_next := Some 2%nat |>;
    (new_pool (Some "b"%string)) <| pl_next := Some 1%nat |>] |>.

Lemma circle_never_returns fuel ppp : get_from fuel ppp 0 0 circle = None.
Proof.
  destruct (get_from fuel ppp 0 0 circle) as [r|] eqn:E; [|done].
  by apply (Chain.get_enough ppp 0 circle fuel 0 r) in E.
Qed.

(** What the generator for /30 pairs sets as local address is not what the session gets. *)
Definition pair30 : pools :=
  no_pools <| ps_pools := [(new_pool None) <| pl_tunnel := [8; 9; 10; 11] |> <| pl_generate := Some NET30 |>] |>.

Lemma net30_local_lost :
  exists s, generate rnd 0 pair30 = Some s /\ (it_addr <$> ps_items s) = [9] /\
    exists s', get_ip None true s = Some (Some 0%nat, s') /\ (it_addr <$> ps_items s') = [0].
Proof. eexists. split; [vm_compute; reflexivity|]. split; [reflexivity|]. eexists. vm_compute. done. Qed.

End PoolDemo.
