(* ===== verification/Hash.v ===== *)
(** The hash functions of crypto/: md4.c, md5.c, sha1.c and the macro [HASH_PROCESS] of
    tomcrypt_hash.h, in the configuration of tomcrypt_custom.h ([LTC_SMALL_CODE],
    [LTC_NO_ASM]).

    [Stream] is what the three share: a context that collects input into blocks of 64 bytes
    and compresses each, and the padding at the end.  Its theorem is that the digest depends
    on the bytes hashed alone, not on how they are cut into calls, and is the iteration of
    the compression function over the padded message; [md5_test], [md4_test] and [sha1_test]
    are the self tests of the sources, with the vectors of the standards. *)

From stdpp Require Import base tactics list numbers option strings.
From Stdlib Require Import ZArith Lia Ascii.
From S2P Require Import Prelude CLib.

Open Scope Z_scope.

(** ** Words and bytes *)

Definition CRYPT_OK : Z := 0.
Definition CRYPT_FAIL_TESTVECTOR : Z := 5.
Definition CRYPT_INVALID_ARG : Z := 16.

(** [ROL], [ROR]: the rotations of tomcrypt_macros.h, on 32-bit words. *)
Definition ROL (x n : Z) : Z :=
  Z.land (Z.lor (Z.shiftl x (Z.land n 31)) (Z.shiftr (Z.land x 4294967295) (32 - Z.land n 31))) 4294967295.
Definition ROR (x n : Z) : Z :=
  Z.land (Z.lor (Z.shiftr (Z.land x 4294967295) (Z.land n 31)) (Z.shiftl x (32 - Z.land n 31))) 4294967295.

Definition byte_of (x n : Z) : Z := Z.land (Z.shiftr x n) 255.
Definition STORE32L (x : Z) : list Z := [byte_of x 0; byte_of x 8; byte_of x 16; byte_of x 24].
Definition STORE32H (x : Z) : list Z := [byte_of x 24; byte_of x 16; byte_of x 8; byte_of x 0].
Definition STORE64L (x : Z) : list Z :=
  [byte_of x 0; byte_of x 8; byte_of x 16; byte_of x 24; byte_of x 32; byte_of x 40; byte_of x 48; byte_of x 56].
Definition STORE64H (x : Z) : list Z := rev (STORE64L x).

Definition LOAD32L (b : list Z) (i : nat) : Z :=
  let y k := Z.land (List.nth (i + k) b 0) 255 in
  Z.lor (Z.lor (Z.lor (Z.shiftl (y 3%nat) 24) (Z.shiftl (y 2%nat) 16)) (Z.shiftl (y 1%nat) 8)) (y 0%nat).
Definition LOAD32H (b : list Z) (i : nat) : Z :=
  let y k := Z.land (List.nth (i + k) b 0) 255 in
  Z.lor (Z.lor (Z.lor (Z.shiftl (y 0%nat) 24) (Z.shiftl (y 1%nat) 16)) (Z.shiftl (y 2%nat) 8)) (y 3%nat).

Definition words (load : list Z -> nat -> Z) (buf : list Z) : list Z :=
  (fun i => load buf (4 * i)%nat) <$> List.seq 0 16.

Definition word (w : list Z) (i : Z) : Z := List.nth (Z.to_nat i) w 0.
Definition not32 (z : Z) : Z := Z.lxor z 4294967295.

(** ** MD5 *)

Module Md5.

Definition F (x y z : Z) : Z := Z.lxor z (Z.land x (Z.lxor y z)).
Definition G (x y z : Z) : Z := Z.lxor y (Z.land z (Z.lxor y x)).
Definition H (x y z : Z) : Z := Z.lxor (Z.lxor x y) z.
Definition I (x y z : Z) : Z := Z.lxor y (Z.lor x (not32 z)).

Definition Worder : list Z :=
  [0; 1; 2; 3; 4; 5; 6; 7; 8; 9; 10; 11; 12; 13; 14; 15;
   1; 6; 11; 0; 5; 10; 15; 4; 9; 14; 3; 8; 13; 2; 7; 12;
   5; 8; 11; 14; 1; 4; 7; 10; 13; 0; 3; 6; 9; 12; 15; 2;
   0; 7; 14; 5; 12; 3; 10; 1; 8; 15; 6; 13; 4; 11; 2; 9].

Definition Rorder : list Z :=
  [7; 12; 17; 22; 7; 12; 17; 22; 7; 12; 17; 22; 7; 12; 17; 22;
   5; 9; 14; 20; 5; 9; 14; 20; 5; 9; 14; 20; 5; 9; 14; 20;
   4; 11; 16; 23; 4; 11; 16; 23; 4; 11; 16; 23; 4; 11; 16; 23;
   6; 10; 15; 21; 6; 10; 15; 21; 6; 10; 15; 21; 6; 10; 15; 21].

Definition Korder : list Z :=
  [0xd76aa478; 0xe8c7b756; 0x242070db; 0xc1bdceee; 0xf57c0faf; 0x4787c62a; 0xa8304613; 0xfd469501;
   0x698098d8; 0x8b44f7af; 0xffff5bb1; 0x895cd7be; 0x6b901122; 0xfd987193; 0xa679438e; 0x49b40821;
   0xf61e2562; 0xc040b340; 0x265e5a51; 0xe9b6c7aa; 0xd62f105d; 0x02441453; 0xd8a1e681; 0xe7d3fbc8;
   0x21e1cde6; 0xc33707d6; 0xf4d50d87; 0x455a14ed; 0xa9e3e905; 0xfcefa3f8; 0x676f02d9; 0x8d2a4c8a;
   0xfffa3942; 0x8771f681; 0x6d9d6122; 0xfde5380c; 0xa4beea44; 0x4bdecfa9; 0xf6bb4b60; 0xbebfbc70;
   0x289b7ec6; 0xeaa127fa; 0xd4ef3085; 0x04881d05; 0xd9d4d039; 0xe6db99e5; 0x1fa27cf8; 0xc4ac5665;
   0xf4292244; 0x432aff97; 0xab9423a7; 0xfc93a039; 0x655b59c3; 0x8f0ccc92; 0xffeff47d; 0x85845dd1;
   0x6fa87e4f; 0xfe2ce6e0; 0xa3014314; 0x4e0811a1; 0xf7537e82; 0xbd3af235; 0x2ad7d2bb; 0xeb86d391].

(** One step of a loop: [FF], [GG], [HH] or [II] by the function, then the exchange of the
    four variables. *)
Definition turn (fn : Z -> Z -> Z -> Z) (W : list Z) (v : Z * Z * Z * Z) (i : nat) : Z * Z * Z * Z :=
  let '(a, b, c, d) := v in
  let a := u32 (a + fn b c d + word W (List.nth i Worder 0) + List.nth i Korder 0) in
  let a := u32 (ROL a (List.nth i Rorder 0) + b) in
  (d, a, b, c).

Definition md5_compress (st buf : list Z) : list Z :=
  let W := words LOAD32L buf in
  let v := (word st 0, word st 1, word st 2, word st 3) in
  let v := fold_left (turn F W) (List.seq 0 16) v in
  let v := fold_left (turn G W) (List.seq 16 16) v in
  let v := fold_left (turn H W) (List.seq 32 16) v in
  let '(a, b, c, d) := fold_left (turn I W) (List.seq 48 16) v in
  [u32 (word st 0 + a); u32 (word st 1 + b); u32 (word st 2 + c); u32 (word st 3 + d)].

Definition md5_start : list Z := [0x67452301; 0xefcdab89; 0x98badcfe; 0x10325476].

End Md5.

(** ** MD4 *)

Module Md4.

Definition F (x y z : Z) : Z := Z.lxor z (Z.land x (Z.lxor y z)).
Definition G (x y z : Z) : Z := Z.lor (Z.land x y) (Z.land z (Z.lor x y)).
Definition H (x y z : Z) : Z := Z.lxor (Z.lxor x y) z.

(** [FF], [GG], [HH] by function and constant: the variable named first is replaced; the
    next line of the round names the variables one place further. *)
Definition line (fn : Z -> Z -> Z -> Z) (k : Z) (x : list Z) (v : Z * Z * Z * Z) (xs : Z * Z) : Z * Z * Z * Z :=
  let '(a, b, c, d) := v in
  let a := u32 (a + (fn b c d + word x xs.1 + k)) in
  (d, ROL a xs.2, b, c).

Definition round1 : list (Z * Z) :=
  [(0, 3); (1, 7); (2, 11); (3, 19); (4, 3); (5, 7); (6, 11); (7, 19);
   (8, 3); (9, 7); (10, 11); (11, 19); (12, 3); (13, 7); (14, 11); (15, 19)].
Definition round2 : list (Z * Z) :=
  [(0, 3); (4, 5); (8, 9); (12, 13); (1, 3); (5, 5); (9, 9); (13, 13);
   (2, 3); (6, 5); (10, 9); (14, 13); (3, 3); (7, 5); (11, 9); (15, 13)].
Definition round3 : list (Z * Z) :=
  [(0, 3); (8, 9); (4, 11); (12, 15); (2, 3); (10, 9); (6, 11); (14, 15);
   (1, 3); (9, 9); (5, 11); (13, 15); (3, 3); (11, 9); (7, 11); (15, 15)].

Definition md4_compress (st buf : list Z) : list Z :=
  let x := words LOAD32L buf in
  let v := (word st 0, word st 1, word st 2, word st 3) in
  let v := fold_left (line F 0 x) round1 v in
  let v := fold_left (line G 0x5a827999 x) round2 v in
  let '(a, b, c, d) := fold_left (line H 0x6ed9eba1 x) round3 v in
  [u32 (word st 0 + a); u32 (word st 1 + b); u32 (word st 2 + c); u32 (word st 3 + d)].

Definition md4_start : list Z := [0x67452301; 0xefcdab89; 0x98badcfe; 0x10325476].

End Md4.

(** ** SHA-1 *)

Module Sha1.

Definition F0 (x y z : Z) : Z := Z.lxor z (Z.land x (Z.lxor y z)).
Definition F1 (x y z : Z) : Z := Z.lxor (Z.lxor x y) z.
Definition F2 (x y z : Z) : Z := Z.lor (Z.land x y) (Z.land z (Z.lor x y)).
Definition F3 (x y z : Z) : Z := Z.lxor (Z.lxor x y) z.

(** The expansion of the sixteen words into eighty, and a step of the loops. *)
Definition expand (W : list Z) (i : nat) : list Z :=
  let w k := List.nth (i - k)%nat W 0 in
  W ++ [ROL (Z.lxor (Z.lxor (Z.lxor (w 3%nat) (w 8%nat)) (w 14%nat)) (w 16%nat)) 1].

Definition turn (fn : Z -> Z -> Z -> Z) (k : Z) (W : list Z) (v : Z * Z * Z * Z * Z) (i : nat) :
    Z * Z * Z * Z * Z :=
  let '(a, b, c, d, e) := v in
  let e := u32 (ROL a 5 + fn b c d + e + List.nth i W 0 + k) in
  let b := ROL b 30 in
  (e, a, b, c, d).

Definition sha1_compress (st buf : list Z) : list Z :=
  let W := fold_left expand (List.seq 16 64) (words LOAD32H buf) in
  let v := (word st 0, word st 1, word st 2, word st 3, word st 4) in
  let v := fold_left (turn F0 0x5a827999 W) (List.seq 0 20) v in
  let v := fold_left (turn F1 0x6ed9eba1 W) (List.seq 20 20) v in
  let v := fold_left (turn F2 0x8f1bbcdc W) (List.seq 40 20) v in
  let '(a, b, c, d, e) := fold_left (turn F3 0xca62c1d6 W) (List.seq 60 20) v in
  [u32 (word st 0 + a); u32 (word st 1 + b); u32 (word st 2 + c); u32 (word st 3 + d); u32 (word st 4 + e)].

Definition sha1_start : list Z := [0x67452301; 0xefcdab89; 0x98badcfe; 0x10325476; 0xc3d2e1f0].

End Sha1.

(** ** The context *)

Record hash_state := {
  h_length : Z;
  h_buf : list Z;
  h_curlen : Z;
  h_state : list Z }.

(** A hash: the compression function, the initial state, how the length and the words of the
    digest are stored. *)
Record hash_alg := {
  compress : list Z -> list Z -> list Z;
  start : list Z;
  store64 : Z -> list Z;
  store32 : Z -> list Z }.

Definition md5 : hash_alg :=
  {| compress := Md5.md5_compress; start := Md5.md5_start; store64 := STORE64L; store32 := STORE32L |}.
Definition md4 : hash_alg :=
  {| compress := Md4.md4_compress; start := Md4.md4_start; store64 := STORE64L; store32 := STORE32L |}.
Definition sha1 : hash_alg :=
  {| compress := Sha1.sha1_compress; start := Sha1.sha1_start; store64 := STORE64H; store32 := STORE32H |}.

Module Stream.

Section Alg.
Context (A : hash_alg).

(** [md5_init], [md4_init], [sha1_init] on a context with [buf] in its memory. *)
Definition hash_init (buf : list Z) : hash_state :=
  {| h_length := 0; h_buf := buf; h_curlen := 0; h_state := start A |}.

(** [memcpy(buf + at, in, n)] *)
Definition copy_at (buf : list Z) (at_ : Z) (bs : list Z) : list Z :=
  take (Z.to_nat at_) buf ++ bs ++ drop (Z.to_nat at_ + length bs) buf.

(** A turn of the loop of [HASH_PROCESS]: the context and the input that is left. *)
Definition process_turn (md : hash_state) (inp : list Z) : hash_state * list Z :=
  let inlen := Z.of_nat (length inp) in
  if (h_curlen md =? 0) && (64 <=? inlen) then
    (md <| h_state := compress A (h_state md) (take 64 inp) |> <| h_length ::= fun l => u64 (l + 64 * 8) |>,
     drop 64 inp)
  else
    let n := Z.min inlen (64 - h_curlen md) in
    let md := md <| h_buf := copy_at (h_buf md) (h_curlen md) (take (Z.to_nat n) inp) |>
                 <| h_curlen := h_curlen md + n |> in
    let inp := drop (Z.to_nat n) inp in
    if h_curlen md =? 64 then
      (md <| h_state := compress A (h_state md) (h_buf md) |> <| h_length ::= fun l => u64 (l + 8 * 64) |>
          <| h_curlen := 0 |>, inp)
    else (md, inp).

(** [HASH_PROCESS]; [None] is that the loop has not ended after [fuel] turns. *)
Fixpoint process_loop (fuel : nat) (md : hash_state) (inp : list Z) : option (Z * hash_state) :=
  match inp, fuel with
  | [], _ => Some (CRYPT_OK, md)
  | _, O => None
  | _, S fuel => let '(md, inp) := process_turn md inp in process_loop fuel md inp
  end.

Definition hash_process (md : hash_state) (inp : list Z) : option (Z * hash_state) :=
  if 64 <? h_curlen md then Some (CRYPT_INVALID_ARG, md) else process_loop (length inp) md inp.

(** The final padding: a one bit, zeros up to the length field, the length in bits. *)
Definition zero_to (n : Z) (md : hash_state) : hash_state :=
  md <| h_buf := copy_at (h_buf md) (h_curlen md) (replicate (Z.to_nat (n - h_curlen md)) 0) |>
     <| h_curlen := Z.max n (h_curlen md) |>.

Definition compress_buf (md : hash_state) : hash_state := md <| h_state := compress A (h_state md) (h_buf md) |>.

Definition hash_done (md : hash_state) : Z * list Z :=
  if 64 <=? h_curlen md then (CRYPT_INVALID_ARG, [])
  else
    let md := md <| h_length := u64 (h_length md + h_curlen md * 8) |> in
    let md := md <| h_buf := copy_at (h_buf md) (h_curlen md) [128] |> <| h_curlen := h_curlen md + 1 |> in
    let md := if 56 <? h_curlen md then (compress_buf (zero_to 64 md)) <| h_curlen := 0 |> else md in
    let md := zero_to 56 md in
    let md := md <| h_buf := copy_at (h_buf md) 56 (store64 A (h_length md)) |> in
    let md := compress_buf md in
    (CRYPT_OK, concat (store32 A <$> h_state md)).

(** [X_Init], any number of [X_Update], [X_Final]. *)
Fixpoint updates (md : hash_state) (l : list (list Z)) : option hash_state :=
  match l with
  | [] => Some md
  | c :: l => '(_, md) ← hash_process md c; updates md l
  end.

Definition hash_all (buf : list Z) (l : list (list Z)) : option (Z * list Z) :=
  hash_done <$> updates (hash_init buf) l.

(** *** The reference *)

(** The message with its padding, cut into blocks, folded with the compression function. *)
Definition pad (msg : list Z) : list Z :=
  msg ++ [128] ++ replicate (Z.to_nat ((55 - Z.of_nat (length msg)) mod 64)) 0 ++
  store64 A (u64 (8 * Z.of_nat (length msg))).

Definition blocks (l : list Z) : list (list Z) :=
  (fun i => take 64 (drop (64 * i) l)) <$> List.seq 0 (length l / 64).

Definition digest (msg : list Z) : list Z :=
  concat (store32 A <$> fold_left (compress A) (blocks (pad msg)) (start A)).

End Alg.

(** ** The self tests of the sources *)

Fixpoint ascii_bytes (s : string) : list Z :=
  match s with EmptyString => [] | String c s => code c :: ascii_bytes s end.

Definition vector_ok (A : hash_alg) (t : string * list Z) : bool :=
  match hash_all A (replicate 64 0) [ascii_bytes t.1] with
  | Some (_, out) => bool_decide (out = t.2)
  | None => false
  end.

Definition run_tests (A : hash_alg) (l : list (string * list Z)) : Z :=
  if forallb (vector_ok A) l then CRYPT_OK else CRYPT_FAIL_TESTVECTOR.

Definition letters : string := "abcdefghijklmnopqrstuvwxyz".
Definition alnum : string := "ABCDEFGHIJKLMNOPQRSTUVWXYZabcdefghijklmnopqrstuvwxyz0123456789".
Definition digits80 : string :=
  "12345678901234567890123456789012345678901234567890123456789012345678901234567890".

Definition md5_test : Z := run_tests md5
  [("", [0xd4; 0x1d; 0x8c; 0xd9; 0x8f; 0x00; 0xb2; 0x04; 0xe9; 0x80; 0x09; 0x98; 0xec; 0xf8; 0x42; 0x7e]);
   ("a", [0x0c; 0xc1; 0x75; 0xb9; 0xc0; 0xf1; 0xb6; 0xa8; 0x31; 0xc3; 0x99; 0xe2; 0x69; 0x77; 0x26; 0x61]);
   ("abc", [0x90; 0x01; 0x50; 0x98; 0x3c; 0xd2; 0x4f; 0xb0; 0xd6; 0x96; 0x3f; 0x7d; 0x28; 0xe1; 0x7f; 0x72]);
   ("message digest",
    [0xf9; 0x6b; 0x69; 0x7d; 0x7c; 0xb7; 0x93; 0x8d; 0x52; 0x5a; 0x2f; 0x31; 0xaa; 0xf1; 0x61; 0xd0]);
   (letters, [0xc3; 0xfc; 0xd3; 0xd7; 0x61; 0x92; 0xe4; 0x00; 0x7d; 0xfb; 0x49; 0x6c; 0xca; 0x67; 0xe1; 0x3b]);
   (alnum, [0xd1; 0x74; 0xab; 0x98; 0xd2; 0x77; 0xd9; 0xf5; 0xa5; 0x61; 0x1c; 0x2c; 0x9f; 0x41; 0x9d; 0x9f]);
   (digits80, [0x57; 0xed; 0xf4; 0xa2; 0x2b; 0xe3; 0xc9; 0x55; 0xac; 0x49; 0xda; 0x2e; 0x21; 0x07; 0xb6; 0x7a])].

Definition md4_test : Z := run_tests md4
  [("", [0x31; 0xd6; 0xcf; 0xe0; 0xd1; 0x6a; 0xe9; 0x31; 0xb7; 0x3c; 0x59; 0xd7; 0xe0; 0xc0; 0x89; 0xc0]);
   ("a", [0xbd; 0xe5; 0x2c; 0xb3; 0x1d; 0xe3; 0x3e; 0x46; 0x24; 0x5e; 0x05; 0xfb; 0xdb; 0xd6; 0xfb; 0x24]);
   ("abc", [0xa4; 0x48; 0x01; 0x7a; 0xaf; 0x21; 0xd8; 0x52; 0x5f; 0xc1; 0x0a; 0xe8; 0x7a; 0xa6; 0x72; 0x9d]);
   ("message digest",
    [0xd9; 0x13; 0x0a; 0x81; 0x64; 0x54; 0x9f; 0xe8; 0x18; 0x87; 0x48; 0x06; 0xe1; 0xc7; 0x01; 0x4b]);
   (letters, [0xd7; 0x9e; 0x1c; 0x30; 0x8a; 0xa5; 0xbb; 0xcd; 0xee; 0xa8; 0xed; 0x63; 0xdf; 0x41; 0x2d; 0xa9]);
   (alnum, [0x04; 0x3f; 0x85; 0x82; 0xf2; 0x41; 0xdb; 0x35; 0x1c; 0xe6; 0x27; 0xe1; 0x53; 0xe7; 0xf0; 0xe4]);
   (digits80, [0xe3; 0x3b; 0x4d; 0xdc; 0x9c; 0x38; 0xf2; 0x19; 0x9c; 0x3e; 0x7b; 0x16; 0x4f; 0xcc; 0x05; 0x36])].

Definition sha1_test : Z := run_tests sha1
  [("abc", [0xa9; 0x99; 0x3e; 0x36; 0x47; 0x06; 0x81; 0x6a; 0xba; 0x3e; 0x25; 0x71; 0x78; 0x50; 0xc2; 0x6c;
            0x9c; 0xd0; 0xd8; 0x9d]);
   ("abcdbcdecdefdefgefghfghighijhijkijkljklmklmnlmnomnopnopq",
    [0x84; 0x98; 0x3E; 0x44; 0x1C; 0x3B; 0xD2; 0x6E; 0xBA; 0xAE; 0x4A; 0xA1; 0xF9; 0x51; 0x29; 0xE5;
     0xE5; 0x46; 0x70; 0xF1])].

End Stream.

(** ** Streaming *)

Module StreamProps.
Import Stream.

#[local] Arguments blocks : simpl never.
#[local] Arguments copy_at : simpl never.

Section Alg.
Context (A : hash_alg) (store64_len : forall x, length (store64 A x) = 8%nat).

Lemma blocks_cons b l : length b = 64%nat -> blocks (b ++ l) = b :: blocks l.
Proof.
  intros Hb. unfold blocks. rewrite length_app, Hb.
  replace ((64 + length l) / 64)%nat with (S (length l / 64))
    by (replace (64 + length l)%nat with (length l + 1 * 64)%nat by lia; rewrite Nat.div_add; lia).
  cbn [List.seq fmap list_fmap]. f_equal.
  - rewrite Nat.mul_0_r, drop_0, take_app_le by lia. rewrite take_ge by lia. done.
  - rewrite <- seq_shift, <- list_fmap_compose. apply list_fmap_ext. intros i j _. unfold compose.
    rewrite drop_app_ge by lia. do 2 f_equal. lia.
Qed.

Lemma blocks_app k l1 l2 : length l1 = (64 * k)%nat -> blocks (l1 ++ l2) = blocks l1 ++ blocks l2.
Proof.
  revert l1. induction k as [|k IH]; intros l1 Hl.
  - destruct l1; [done|]. cbn in Hl. lia.
  - rewrite <- (take_drop 64 l1), <- !app_assoc.
    assert (H64 : length (take 64 l1) = 64%nat) by (rewrite length_take; lia).
    rewrite !(blocks_cons (take 64 l1)) by done. cbn [app]. f_equal. apply IH. rewrite length_drop. lia.
Qed.

Lemma blocks_snoc k l b : length l = (64 * k)%nat -> length b = 64%nat -> blocks (l ++ b) = blocks l ++ [b].
Proof.
  intros Hl Hb. rewrite (blocks_app k) by done. f_equal. rewrite <- (app_nil_r b) at 1. by rewrite blocks_cons.
Qed.

(** The context after the bytes [msg]: whole blocks compressed, the rest in the buffer. *)
Definition absorbed (md : hash_state) (msg : list Z) : Prop :=
  exists k full tail, msg = full ++ tail /\ length full = (64 * k)%nat /\ (length tail < 64)%nat /\
    h_curlen md = Z.of_nat (length tail) /\ length (h_buf md) = 64%nat /\ take (length tail) (h_buf md) = tail /\
    h_state md = fold_left (compress A) (blocks full) (start A) /\
    h_length md = u64 (8 * Z.of_nat (length full)).

Lemma copy_at_length buf (n : nat) bs :
  (n + length bs <= length buf)%nat -> length (copy_at buf (Z.of_nat n) bs) = length buf.
Proof. intros H. unfold copy_at. rewrite Nat2Z.id, !length_app, length_take, length_drop. lia. Qed.

Lemma copy_at_take buf (n : nat) bs :
  (n + length bs <= length buf)%nat ->
  take (n + length bs) (copy_at buf (Z.of_nat n) bs) = take n buf ++ bs.
Proof.
  intros H. unfold copy_at. rewrite Nat2Z.id, app_assoc, take_app_le.
  - apply take_ge. rewrite length_app, length_take. lia.
  - rewrite length_app, length_take. lia.
Qed.

Lemma u64_add a b : u64 (u64 a + b) = u64 (a + b).
Proof. unfold u64. apply Zplus_mod_idemp_l. Qed.

(** A turn of the loop takes some of the input and absorbs it. *)
Lemma turn_absorbs md msg inp :
  absorbed md msg -> inp <> [] ->
  exists taken, inp = taken ++ (process_turn A md inp).2 /\ taken <> [] /\
    absorbed (process_turn A md inp).1 (msg ++ taken).
Proof.
  intros (k & full & tail & -> & Hfull & Htl & Hcur & Hbuf & Htake & Hst & Hlen) Hinp.
  unfold process_turn. destruct ((h_curlen md =? 0) && (64 <=? Z.of_nat (length inp))) eqn:E.
  - to_prop. destruct tail; [|cbn in Hcur; lia].
    exists (take 64 inp). cbn. rewrite take_drop. split; [done|].
    split; [destruct inp; [done|done]|].
    assert (H64 : length (take 64 inp) = 64%nat) by (rewrite length_take; lia).
    exists (S k), (full ++ take 64 inp), []. destruct md as [ml mb mc ms]. cbn in *.
    rewrite !app_nil_r, (blocks_snoc k), fold_left_app, length_app, H64 by done. cbn. subst.
    split; [done|]. split; [lia|]. split; [lia|]. do 3 (split; [done|]). split; [done|].
    rewrite u64_add. f_equal. lia.
  - clear E. set (n := Z.to_nat (Z.min (Z.of_nat (length inp)) (64 - h_curlen md))).
    assert (Hn : (n <= length inp /\ n + length tail <= 64 /\ 0 < n)%nat) by (destruct inp; [done|cbn in *; lia]).
    assert (Hlt : length (take n inp) = n) by (rewrite length_take; lia).
    assert (Hcl : length (copy_at (h_buf md) (h_curlen md) (take n inp)) = 64%nat)
      by (rewrite Hcur, copy_at_length; lia).
    assert (Hct : take (length tail + n) (copy_at (h_buf md) (h_curlen md) (take n inp)) = tail ++ take n inp).
    { rewrite Hcur. rewrite <- Hlt at 1. rewrite copy_at_take by lia. by rewrite Htake. }
    assert (Hnn : h_curlen md + Z.min (Z.of_nat (length inp)) (64 - h_curlen md) = Z.of_nat (length tail + n)) by lia.
    exists (take n inp). destruct md as [ml mb mc ms]. cbn in *. fold n. rewrite Hnn.
    destruct (Z.of_nat (length tail + n) =? 64) eqn:E; to_prop; cbn; rewrite take_drop.
    + split; [done|]. split; [destruct inp; [done|destruct n; [lia|done]]|].
      assert (Hfb : copy_at mb mc (take n inp) = tail ++ take n inp)
        by (rewrite <- Hct; symmetry; apply take_ge; lia).
      exists (S k), (full ++ (tail ++ take n inp)), []. cbn.
      rewrite app_nil_r, app_assoc, Hfb, <- app_assoc, (blocks_snoc k), fold_left_app, length_app, <- Hfb, Hcl by
        (try done; rewrite <- Hfb; done).
      cbn. subst. split; [done|]. split; [lia|]. split; [lia|]. do 3 (split; [done|]). split; [done|].
      rewrite u64_add. f_equal. lia.
    + split; [done|]. split; [destruct inp; [done|destruct n; [lia|done]]|].
      exists k, full, (tail ++ take n inp). cbn. rewrite length_app, Hlt, app_assoc.
      do 2 (split; [done|]). split; [lia|]. split; [done|]. split; [done|]. split; [done|]. done.
Qed.

Lemma process_absorbs md msg inp :
  absorbed md msg -> exists md', hash_process A md inp = Some (CRYPT_OK, md') /\ absorbed md' (msg ++ inp).
Proof.
  intros Hab. unfold hash_process.
  destruct (64 <? h_curlen md) eqn:E.
  { destruct Hab as (k & full & tail & _ & _ & Htl & Hcur & _). to_prop. lia. }
  clear E. assert (Hf : (length inp <= length inp)%nat) by done. revert Hf. generalize (length inp) at 2 3.
  intros fuel. revert md msg inp Hab. induction fuel as [|fuel IH]; intros md msg inp Hab Hf.
  - destruct inp; [|cbn in Hf; lia]. exists md. by rewrite app_nil_r.
  - destruct (decide (inp = [])) as [->|Hne]. { exists md. by rewrite app_nil_r. }
    destruct (turn_absorbs md msg inp Hab Hne) as (taken & Hinp & Hnt & Hab').
    destruct (process_turn A md inp) as [md1 inp1] eqn:E1. cbn in *.
    destruct (IH md1 (msg ++ taken) inp1 Hab') as (md2 & H2 & Hab2).
    { rewrite Hinp, length_app in Hf. destruct taken; [done|]. cbn in Hf. lia. }
    exists md2. split; [|by rewrite Hinp, app_assoc].
    destruct inp as [|x inp]; [done|]. cbn [process_loop]. by rewrite E1.
Qed.

Lemma updates_absorb md msg l :
  absorbed md msg -> exists md', updates A md l = Some md' /\ absorbed md' (msg ++ concat l).
Proof.
  revert md msg. induction l as [|c l IH]; intros md msg Hab; cbn.
  - exists md. by rewrite app_nil_r.
  - destruct (process_absorbs md msg c Hab) as (md1 & -> & H1). cbn.
    destruct (IH md1 (msg ++ c) H1) as (md2 & H2 & Hab2). exists md2. by rewrite app_assoc.
Qed.

(** Filling the buffer from [h_curlen] on. *)
Lemma zero_to_fill md (n : nat) t :
  h_curlen md = Z.of_nat (length t) -> (length t <= n <= 64)%nat -> length (h_buf md) = 64%nat ->
  take (length t) (h_buf md) = t ->
  take n (h_buf (zero_to (Z.of_nat n) md)) = t ++ replicate (n - length t) 0 /\
  length (h_buf (zero_to (Z.of_nat n) md)) = 64%nat /\ h_curlen (zero_to (Z.of_nat n) md) = Z.of_nat n /\
  h_state (zero_to (Z.of_nat n) md) = h_state md /\ h_length (zero_to (Z.of_nat n) md) = h_length md.
Proof.
  intros Hc Hn Hb Ht. destruct md as [ml mb mc ms]. cbn in *. subst mc.
  replace (Z.to_nat (Z.of_nat n - Z.of_nat (length t))) with (n - length t)%nat by lia.
  split; [|split; [rewrite copy_at_length; [done|rewrite length_replicate; lia]|split; [lia|done]]].
  pose proof (copy_at_take mb (length t) (replicate (n - length t) 0)) as H.
  rewrite length_replicate, Ht in H. replace (length t + (n - length t))%nat with n in H by lia. apply H. lia.
Qed.

Lemma store_last buf t bs :
  length buf = 64%nat -> length t = 56%nat -> take 56 buf = t -> length bs = 8%nat -> copy_at buf 56 bs = t ++ bs.
Proof.
  intros Hb Ht Hk Hs. pose proof (copy_at_take buf 56 bs) as H. rewrite Hk, Hs in H. rewrite <- H by lia.
  symmetry. apply take_ge. rewrite (copy_at_length buf 56); lia.
Qed.

Lemma pad_split k full tail :
  length full = (64 * k)%nat -> (length tail < 64)%nat ->
  pad A (full ++ tail) = full ++ (tail ++ [128]) ++
    (if (56 <? length tail + 1)%nat then replicate (64 - (length tail + 1)) 0 ++ replicate 56 0
     else replicate (56 - (length tail + 1)) 0) ++ store64 A (u64 (8 * Z.of_nat (length full) + Z.of_nat (length tail) * 8)).
Proof.
  intros Hf Ht. unfold pad. rewrite length_app, <- !app_assoc.
  replace (8 * Z.of_nat (length full + length tail)) with (8 * Z.of_nat (length full) + Z.of_nat (length tail) * 8) by lia.
  do 3 f_equal.
  assert (Hm : (55 - Z.of_nat (length full + length tail)) mod 64 = (55 - Z.of_nat (length tail)) mod 64).
  { rewrite Hf. replace (55 - Z.of_nat (64 * k + length tail)) with (55 - Z.of_nat (length tail) + (- Z.of_nat k) * 64) by lia.
    apply Z_mod_plus_full. }
  rewrite Hm. destruct (56 <? length tail + 1)%nat eqn:E; [apply Nat.ltb_lt in E|apply Nat.ltb_ge in E].
  - rewrite <- replicate_add. do 2 f_equal. Z.div_mod_to_equations. lia.
  - do 2 f_equal. Z.div_mod_to_equations. lia.
Qed.

(** The last block. *)
Lemma last_block md t :
  h_curlen md = Z.of_nat (length t) -> (length t <= 56)%nat -> length (h_buf md) = 64%nat ->
  take (length t) (h_buf md) = t ->
  h_state (compress_buf A ((zero_to 56 md) <| h_buf ::= fun b => copy_at b 56 (store64 A (h_length (zero_to 56 md))) |>)) =
    compress A (h_state md) (t ++ replicate (56 - length t) 0 ++ store64 A (h_length md)).
Proof.
  intros Hc Hn Hb Ht. destruct (zero_to_fill md 56 t Hc) as (H1 & H2 & H3 & H4 & H5); [lia|done|done|].
  change (Z.of_nat 56) with 56 in *. destruct (zero_to 56 md) as [ml mb mc ms]. cbn [h_state h_buf h_length h_curlen] in *.
  cbn. rewrite (store_last mb (t ++ replicate (56 - length t) 0)); [by subst; rewrite <- app_assoc|done| |done|done].
  rewrite length_app, length_replicate. lia.
Qed.

Lemma done_digest md msg : absorbed md msg -> hash_done A md = (CRYPT_OK, digest A msg).
Proof.
  intros (k & full & tail & -> & Hf & Htl & Hcur & Hbuf & Htake & Hst & Hlen). unfold hash_done, digest.
  replace (64 <=? h_curlen md) with false by (symmetry; apply Z.leb_gt; lia).
  set (md1 := _ <| h_curlen := _ |>).
  assert (H1 : h_curlen md1 = Z.of_nat (length (tail ++ [128])) /\ length (h_buf md1) = 64%nat /\
    take (length (tail ++ [128])) (h_buf md1) = tail ++ [128] /\ h_state md1 = h_state md /\
    h_length md1 = u64 (8 * Z.of_nat (length full) + Z.of_nat (length tail) * 8)).
  { subst md1. destruct md as [ml mb mc ms]. cbn in *. subst mc. rewrite length_app. cbn.
    split; [lia|]. split; [rewrite copy_at_length; cbn; lia|]. split; [|split; [done|by rewrite Hlen, u64_add]].
    pose proof (copy_at_take mb (length tail) [128]) as Hk. cbn [length] in Hk. rewrite Hk by lia. by rewrite Htake. }
  clearbody md1. destruct H1 as (Hc1 & Hb1 & Ht1 & Hs1 & Hl1).
  rewrite (pad_split k full tail Hf Htl), (blocks_app k), fold_left_app, <- Hst, <- Hs1, <- Hl1 by done.
  assert (Hlt : length (tail ++ [128]) = (length tail + 1)%nat) by by rewrite length_app.
  rewrite Hc1, Hlt. replace (56 <? Z.of_nat (length tail + 1)) with (56 <? length tail + 1)%nat
    by (destruct (56 <? length tail + 1)%nat eqn:E; [apply Nat.ltb_lt in E|apply Nat.ltb_ge in E]; symmetry;
        [apply Z.ltb_lt|apply Z.ltb_ge]; lia).
  destruct (56 <? length tail + 1)%nat eqn:E; [apply Nat.ltb_lt in E|apply Nat.ltb_ge in E].
  - destruct (zero_to_fill md1 64 (tail ++ [128])) as (Hz1 & Hz2 & Hz3 & Hz4 & Hz5); [done|lia|done|done|].
    change (Z.of_nat 64) with 64 in *. rewrite take_ge, Hlt in Hz1 by lia.
    set (md2 := _ <| h_curlen := 0 |>).
    assert (H2 : h_curlen md2 = 0 /\ length (h_buf md2) = 64%nat /\ h_length md2 = h_length md1 /\
      h_state md2 = compress A (h_state md1) ((tail ++ [128]) ++ replicate (64 - (length tail + 1)) 0)).
    { subst md2. rewrite <- Hz1, <- Hz4, <- Hz5. destruct (zero_to 64 md1). cbn in *. by rewrite Hz2. }
    clearbody md2. destruct H2 as (Hc2 & Hb2 & Hl2 & Hs2).
    pose proof (last_block md2 [] Hc2 ltac:(cbn; lia) Hb2 eq_refl) as Hlast. cbn [length Nat.sub app] in Hlast.
    rewrite Hs2, Hl2 in Hlast. f_equal. do 2 f_equal. rewrite <- !app_assoc, !(app_assoc tail), (app_assoc (tail ++ [128])).
    rewrite blocks_cons by (rewrite length_app, length_replicate; lia).
    rewrite <- (app_nil_r (replicate 56 0 ++ _)), blocks_cons by (rewrite length_app, length_replicate, store64_len; lia).
    cbn [fold_left blocks]. exact Hlast.
  - pose proof (last_block md1 (tail ++ [128]) Hc1 ltac:(lia) Hb1 Ht1) as Hlast. rewrite Hlt in Hlast.
    f_equal. do 2 f_equal.
    rewrite <- (app_nil_r ((tail ++ [128]) ++ _)), blocks_cons
      by (rewrite !length_app, length_replicate, store64_len; cbn; lia).
    exact Hlast.
Qed.

Lemma hash_all_digest buf l :
  length buf = 64%nat -> hash_all A buf l = Some (CRYPT_OK, digest A (concat l)).
Proof.
  intros Hb. assert (H0 : absorbed (hash_init A buf) []).
  { exists 0%nat, [], []. cbn. repeat (split; [done || lia|]). done. }
  destruct (updates_absorb (hash_init A buf) [] l H0) as (md & Hu & Hab).
  unfold hash_all. rewrite Hu. cbn. by rewrite (done_digest md (concat l) Hab).
Qed.

End Alg.


End StreamProps.

(** * Digests as their users see them *)

Module Digests.
Import Stream.

(** [MD5_Init], [MD5_Update] for each piece, [MD5_Final]; what the context holds before does
    not matter. *)
Definition MD5 (pieces : list (list Z)) : list Z :=
  match hash_all md5 (replicate 64 0) pieces with
  | Some (_, out) => out
  | None => []
  end.

Lemma byte_of_ok x n : is_u8 (byte_of x n).
Proof.
  unfold byte_of, is_u8. change 255 with (Z.ones 8). rewrite Z.land_ones by lia. by apply Z.mod_pos_bound.
Qed.

Lemma MD5_digest pieces : MD5 pieces = digest md5 (concat pieces).
Proof. unfold MD5. by rewrite StreamProps.hash_all_digest. Qed.

Lemma STORE32L_ok x : bytes_ok (STORE32L x).
Proof. repeat (constructor; [apply byte_of_ok|]). constructor. Qed.

Lemma fold_length {A B} (f : list A -> B -> list A) n l st :
  (forall st b, length (f st b) = n) -> length st = n -> length (fold_left f l st) = n.
Proof. intros Hf. revert st. induction l as [|b l IH]; intros st Hst; [done|]. cbn [fold_left]. by apply IH. Qed.

Lemma md5_compress_length st b : length (Md5.md5_compress st b) = 4%nat.
Proof.
  unfold Md5.md5_compress. cbv zeta. generalize (words LOAD32L b). intros W.
  match goal with |- context [fold_left (Md5.turn Md5.I W) ?l ?v] => generalize v; intros v0 end.
  generalize (fold_left (Md5.turn Md5.I W) (List.seq 48 16) v0). by intros [[[? ?] ?] ?].
Qed.

Lemma MD5_block pieces : length (MD5 pieces) = 16%nat /\ bytes_ok (MD5 pieces).
Proof.
  rewrite MD5_digest. unfold digest. cbn [store32 compress start md5].
  pose proof (fold_length _ 4 (blocks (pad md5 (concat pieces))) Md5.md5_start md5_compress_length eq_refl) as H. revert H.
  generalize (fold_left Md5.md5_compress (blocks (pad md5 (concat pieces))) Md5.md5_start). intros st H.
  destruct st as [|a [|b [|c [|d [|? ?]]]]]; try discriminate. split; [done|].
  cbn [fmap list_fmap concat]. unfold bytes_ok. rewrite !Forall_app. repeat (split; [apply STORE32L_ok|]). constructor.
Qed.

Lemma MD5_length pieces : length (MD5 pieces) = 16%nat.
Proof. apply MD5_block. Qed.
Lemma MD5_bytes pieces : bytes_ok (MD5 pieces).
Proof. apply MD5_block. Qed.

#[export] Hint Resolve MD5_length MD5_bytes : bng.

End Digests.
