(* ===== verification/Des.v ===== *)
(** DES: crypto/des.c in the configuration of tomcrypt_custom.h ([LTC_SMALL_CODE],
    [LTC_NO_ASM]) and the DES functions of crypto/crypto.c.

    The theorem is that decryption with a key undoes encryption with it, for every key and
    every block: the initial permutation written as word exchanges is undone by the final
    one, and the rounds with the key schedule of decryption undo those of encryption. *)

From stdpp Require Import base tactics list numbers option strings.
From Stdlib Require Import ZArith Lia.
From S2P Require Import Prelude Hash.

Open Scope Z_scope.

(** ** Tables *)

Definition bytebit : list Z :=
  [128; 64; 32; 16; 8; 4; 2; 1].
Definition bigbyte : list Z :=
  [0x800000; 0x400000; 0x200000; 0x100000; 0x80000; 0x40000; 0x20000; 0x10000;
   0x8000; 0x4000; 0x2000; 0x1000; 0x800; 0x400; 0x200; 0x100;
   0x80; 0x40; 0x20; 0x10; 0x8; 0x4; 0x2; 0x1].
Definition pc1 : list Z :=
  [56; 48; 40; 32; 24; 16; 8; 0; 57; 49; 41; 33; 25; 17;
   9; 1; 58; 50; 42; 34; 26; 18; 10; 2; 59; 51; 43; 35;
   62; 54; 46; 38; 30; 22; 14; 6; 61; 53; 45; 37; 29; 21;
   13; 5; 60; 52; 44; 36; 28; 20; 12; 4; 27; 19; 11; 3].
Definition totrot : list Z :=
  [1; 2; 4; 6; 8; 10; 12; 14; 15; 17; 19; 21; 23; 25; 27; 28].
Definition pc2 : list Z :=
  [13; 16; 10; 23; 0; 4; 2; 27; 14; 5; 20; 9;
   22; 18; 11; 3; 25; 7; 15; 6; 26; 19; 12; 1;
   40; 51; 30; 36; 46; 54; 29; 39; 50; 44; 32; 47;
   43; 48; 38; 55; 33; 52; 45; 41; 49; 35; 28; 31].

(** The substitutions with the permutation that follows them. *)
Definition SP1 : list Z :=
  [0x01010400; 0x00000000; 0x00010000; 0x01010404; 0x01010004; 0x00010404; 0x00000004; 0x00010000;
   0x00000400; 0x01010400; 0x01010404; 0x00000400; 0x01000404; 0x01010004; 0x01000000; 0x00000004;
   0x00000404; 0x01000400; 0x01000400; 0x00010400; 0x00010400; 0x01010000; 0x01010000; 0x01000404;
   0x00010004; 0x01000004; 0x01000004; 0x00010004; 0x00000000; 0x00000404; 0x00010404; 0x01000000;
   0x00010000; 0x01010404; 0x00000004; 0x01010000; 0x01010400; 0x01000000; 0x01000000; 0x00000400;
   0x01010004; 0x00010000; 0x00010400; 0x01000004; 0x00000400; 0x00000004; 0x01000404; 0x00010404;
   0x01010404; 0x00010004; 0x01010000; 0x01000404; 0x01000004; 0x00000404; 0x00010404; 0x01010400;
   0x00000404; 0x01000400; 0x01000400; 0x00000000; 0x00010004; 0x00010400; 0x00000000; 0x01010004].
Definition SP2 : list Z :=
  [0x80108020; 0x80008000; 0x00008000; 0x00108020; 0x00100000; 0x00000020; 0x80100020; 0x80008020;
   0x80000020; 0x80108020; 0x80108000; 0x80000000; 0x80008000; 0x00100000; 0x00000020; 0x80100020;
   0x00108000; 0x00100020; 0x80008020; 0x00000000; 0x80000000; 0x00008000; 0x00108020; 0x80100000;
   0x00100020; 0x80000020; 0x00000000; 0x00108000; 0x00008020; 0x80108000; 0x80100000; 0x00008020;
   0x00000000; 0x00108020; 0x80100020; 0x00100000; 0x80008020; 0x80100000; 0x80108000; 0x00008000;
   0x80100000; 0x80008000; 0x00000020; 0x80108020; 0x00108020; 0x00000020; 0x00008000; 0x80000000;
   0x00008020; 0x80108000; 0x00100000; 0x80000020; 0x00100020; 0x80008020; 0x80000020; 0x00100020;
   0x00108000; 0x00000000; 0x80008000; 0x00008020; 0x80000000; 0x80100020; 0x80108020; 0x00108000].
Definition SP3 : list Z :=
  [0x00000208; 0x08020200; 0x00000000; 0x08020008; 0x08000200; 0x00000000; 0x00020208; 0x08000200;
   0x00020008; 0x08000008; 0x08000008; 0x00020000; 0x08020208; 0x00020008; 0x08020000; 0x00000208;
   0x08000000; 0x00000008; 0x08020200; 0x00000200; 0x00020200; 0x08020000; 0x08020008; 0x00020208;
   0x08000208; 0x00020200; 0x00020000; 0x08000208; 0x00000008; 0x08020208; 0x00000200; 0x08000000;
   0x08020200; 0x08000000; 0x00020008; 0x00000208; 0x00020000; 0x08020200; 0x08000200; 0x00000000;
   0x00000200; 0x00020008; 0x08020208; 0x08000200; 0x08000008; 0x00000200; 0x00000000; 0x08020008;
   0x08000208; 0x00020000; 0x08000000; 0x08020208; 0x00000008; 0x00020208; 0x00020200; 0x08000008;
   0x08020000; 0x08000208; 0x00000208; 0x08020000; 0x00020208; 0x00000008; 0x08020008; 0x00020200].
Definition SP4 : list Z :=
  [0x00802001; 0x00002081; 0x00002081; 0x00000080; 0x00802080; 0x00800081; 0x00800001; 0x00002001;
   0x00000000; 0x00802000; 0x00802000; 0x00802081; 0x00000081; 0x00000000; 0x00800080; 0x00800001;
   0x00000001; 0x00002000; 0x00800000; 0x00802001; 0x00000080; 0x00800000; 0x00002001; 0x00002080;
   0x00800081; 0x00000001; 0x00002080; 0x00800080; 0x00002000; 0x00802080; 0x00802081; 0x00000081;
   0x00800080; 0x00800001; 0x00802000; 0x00802081; 0x00000081; 0x00000000; 0x00000000; 0x00802000;
   0x00002080; 0x00800080; 0x00800081; 0x00000001; 0x00802001; 0x00002081; 0x00002081; 0x00000080;
   0x00802081; 0x00000081; 0x00000001; 0x00002000; 0x00800001; 0x00002001; 0x00802080; 0x00800081;
   0x00002001; 0x00002080; 0x00800000; 0x00802001; 0x00000080; 0x00800000; 0x00002000; 0x00802080].
Definition SP5 : list Z :=
  [0x00000100; 0x02080100; 0x02080000; 0x42000100; 0x00080000; 0x00000100; 0x40000000; 0x02080000;
   0x40080100; 0x00080000; 0x02000100; 0x40080100; 0x42000100; 0x42080000; 0x00080100; 0x40000000;
   0x02000000; 0x40080000; 0x40080000; 0x00000000; 0x40000100; 0x42080100; 0x42080100; 0x02000100;
   0x42080000; 0x40000100; 0x00000000; 0x42000000; 0x02080100; 0x02000000; 0x42000000; 0x00080100;
   0x00080000; 0x42000100; 0x00000100; 0x02000000; 0x40000000; 0x02080000; 0x42000100; 0x40080100;
   0x02000100; 0x40000000; 0x42080000; 0x02080100; 0x40080100; 0x00000100; 0x02000000; 0x42080000;
   0x42080100; 0x00080100; 0x42000000; 0x42080100; 0x02080000; 0x00000000; 0x40080000; 0x42000000;
   0x00080100; 0x02000100; 0x40000100; 0x00080000; 0x00000000; 0x40080000; 0x02080100; 0x40000100].
Definition SP6 : list Z :=
  [0x20000010; 0x20400000; 0x00004000; 0x20404010; 0x20400000; 0x00000010; 0x20404010; 0x00400000;
   0x20004000; 0x00404010; 0x00400000; 0x20000010; 0x00400010; 0x20004000; 0x20000000; 0x00004010;
   0x00000000; 0x00400010; 0x20004010; 0x00004000; 0x00404000; 0x20004010; 0x00000010; 0x20400010;
   0x20400010; 0x00000000; 0x00404010; 0x20404000; 0x00004010; 0x00404000; 0x20404000; 0x20000000;
   0x20004000; 0x00000010; 0x20400010; 0x00404000; 0x20404010; 0x00400000; 0x00004010; 0x20000010;
   0x00400000; 0x20004000; 0x20000000; 0x00004010; 0x20000010; 0x20404010; 0x00404000; 0x20400000;
   0x00404010; 0x20404000; 0x00000000; 0x20400010; 0x00000010; 0x00004000; 0x20400000; 0x00404010;
   0x00004000; 0x00400010; 0x20004010; 0x00000000; 0x20404000; 0x20000000; 0x00400010; 0x20004010].
Definition SP7 : list Z :=
  [0x00200000; 0x04200002; 0x04000802; 0x00000000; 0x00000800; 0x04000802; 0x00200802; 0x04200800;
   0x04200802; 0x00200000; 0x00000000; 0x04000002; 0x00000002; 0x04000000; 0x04200002; 0x00000802;
   0x04000800; 0x00200802; 0x00200002; 0x04000800; 0x04000002; 0x04200000; 0x04200800; 0x00200002;
   0x04200000; 0x00000800; 0x00000802; 0x04200802; 0x00200800; 0x00000002; 0x04000000; 0x00200800;
   0x04000000; 0x00200800; 0x00200000; 0x04000802; 0x04000802; 0x04200002; 0x04200002; 0x00000002;
   0x00200002; 0x04000000; 0x04000800; 0x00200000; 0x04200800; 0x00000802; 0x00200802; 0x04200800;
   0x00000802; 0x04000002; 0x04200802; 0x04200000; 0x00200800; 0x00000000; 0x00000002; 0x04200802;
   0x00000000; 0x00200802; 0x04200000; 0x00000800; 0x04000002; 0x04000800; 0x00000800; 0x00200002].
Definition SP8 : list Z :=
  [0x10001040; 0x00001000; 0x00040000; 0x10041040; 0x10000000; 0x10001040; 0x00000040; 0x10000000;
   0x00040040; 0x10040000; 0x10041040; 0x00041000; 0x10041000; 0x00041040; 0x00001000; 0x00000040;
   0x10040000; 0x10000040; 0x10001000; 0x00001040; 0x00041000; 0x00040040; 0x10040040; 0x10041000;
   0x00001040; 0x00000000; 0x00000000; 0x10040040; 0x10000040; 0x10001000; 0x00041040; 0x00040000;
   0x00041040; 0x00040000; 0x10041000; 0x00001000; 0x00000040; 0x10040040; 0x00001000; 0x00041040;
   0x10001000; 0x00000040; 0x10000040; 0x10040000; 0x10040040; 0x10000000; 0x00040000; 0x10001040;
   0x00000000; 0x10041040; 0x00040040; 0x10000040; 0x10040000; 0x10001000; 0x10001040; 0x00000000;
   0x10041040; 0x00041000; 0x00041000; 0x00001040; 0x00001040; 0x00040040; 0x10000000; 0x10041000].

(** ** The key schedule *)

Definition EN0 : Z := 0.
Definition DE1 : Z := 1.

Definition nth_z (l : list Z) (i : Z) : Z := List.nth (Z.to_nat i) l 0.

(** The permuted key, one bit per element. *)
Definition pc1m (key : list Z) : list Z :=
  (fun l => let b := nth_z bytebit (Z.land l 7) in
            if Z.land (nth_z key (Z.shiftr l 3)) b =? b then 1 else 0) <$> pc1.

(** The two halves rotated for round [i]. *)
Definition pcr (pm : list Z) (i : nat) : list Z :=
  let rot := List.nth i totrot 0 in
  ((fun j => let l := Z.of_nat j + rot in nth_z pm (if l <? 28 then l else l - 28)) <$> List.seq 0 28) ++
  ((fun j => let l := Z.of_nat j + rot in nth_z pm (if l <? 56 then l else l - 28)) <$> List.seq 28 28).

(** The 24 bits of [pcr] chosen by [pc2] from place [from] on, as a word. *)
Definition select (pr : list Z) (from : nat) : Z :=
  fold_left (fun kn j => if nth_z pr (List.nth (from + j) pc2 0) =? 0 then kn else Z.lor kn (List.nth j bigbyte 0))
    (List.seq 0 24) 0.

Definition deskey_raw (key : list Z) (edf : Z) : list Z :=
  let pm := pc1m key in
  fold_left (fun kn i =>
    let m := if edf =? DE1 then (2 * (15 - i))%nat else (2 * i)%nat in
    <[S m := select (pcr pm i) 24]> (<[m := select (pcr pm i) 0]> kn)) (List.seq 0 16) (replicate 32 0).

(** [cookey]: the bits of two words put where the rounds look them up. *)
Definition cook0 (raw0 raw1 : Z) : Z :=
  Z.lor (Z.lor (Z.lor (u32 (Z.shiftl (Z.land raw0 0x00fc0000) 6)) (u32 (Z.shiftl (Z.land raw0 0x00000fc0) 10)))
    (Z.shiftr (Z.land raw1 0x00fc0000) 10)) (Z.shiftr (Z.land raw1 0x00000fc0) 6).
Definition cook1 (raw0 raw1 : Z) : Z :=
  Z.lor (Z.lor (Z.lor (u32 (Z.shiftl (Z.land raw0 0x0003f000) 12)) (u32 (Z.shiftl (Z.land raw0 0x0000003f) 16)))
    (Z.shiftr (Z.land raw1 0x0003f000) 4)) (Z.land raw1 0x0000003f).

Fixpoint cookey (raw : list Z) : list Z :=
  match raw with
  | raw0 :: raw1 :: raw => cook0 raw0 raw1 :: cook1 raw0 raw1 :: cookey raw
  | _ => []
  end.

Definition deskey (key : list Z) (edf : Z) : list Z := cookey (deskey_raw key edf).

(** ** The rounds *)

(** An exchange of bits between the two words: the bits of [a] shifted by [n] and those of
    [b] under the mask [m]. *)
Definition exchange (n m : Z) (ab : Z * Z) : Z * Z :=
  let '(a, b) := ab in
  let work := Z.land (Z.lxor (Z.shiftr a n) b) m in
  (Z.lxor a (u32 (Z.shiftl work n)), Z.lxor b work).

Definition flip (ab : Z * Z) : Z * Z := (ab.2, ab.1).

(** The last exchange of the initial permutation, between two rotations, and the first of
    the final one. *)
Definition rot_exchange (lr : Z * Z) : Z * Z :=
  let '(leftt, rightt) := lr in
  let rightt := ROL rightt 1 in
  let work := Z.land (Z.lxor leftt rightt) 0xaaaaaaaa in
  let leftt := Z.lxor leftt work in
  let rightt := Z.lxor rightt work in
  (ROL leftt 1, rightt).

Definition unrot_exchange (lr : Z * Z) : Z * Z :=
  let '(leftt, rightt) := lr in
  let rightt := ROR rightt 1 in
  let work := Z.land (Z.lxor leftt rightt) 0xaaaaaaaa in
  let leftt := Z.lxor leftt work in
  let rightt := Z.lxor rightt work in
  (ROR leftt 1, rightt).

Definition initial (lr : Z * Z) : Z * Z :=
  let lr := exchange 4 0x0f0f0f0f lr in
  let lr := exchange 16 0x0000ffff lr in
  let lr := flip (exchange 2 0x33333333 (flip lr)) in
  let lr := flip (exchange 8 0x00ff00ff (flip lr)) in
  rot_exchange lr.

Definition final (lr : Z * Z) : Z * Z :=
  let lr := unrot_exchange lr in
  let lr := exchange 8 0x00ff00ff lr in
  let lr := exchange 2 0x33333333 lr in
  let lr := flip (exchange 16 0x0000ffff (flip lr)) in
  flip (exchange 4 0x0f0f0f0f (flip lr)).

(** What is added to one half, from the other half and two words of the key. *)
Definition mangle (half k0 k1 : Z) : Z :=
  let at6 (sp : list Z) work n := nth_z sp (Z.land (Z.shiftr work n) 0x3f) in
  let work := Z.lxor (ROR half 4) k0 in
  let w := Z.lxor (Z.lxor (Z.lxor (at6 SP7 work 0) (at6 SP5 work 8)) (at6 SP3 work 16)) (at6 SP1 work 24) in
  let work := Z.lxor half k1 in
  Z.lxor w (Z.lxor (Z.lxor (Z.lxor (at6 SP8 work 0) (at6 SP6 work 8)) (at6 SP4 work 16)) (at6 SP2 work 24)).

(** The loop of eight turns, two rounds each. *)
Fixpoint rounds (keys : list Z) (lr : Z * Z) : Z * Z :=
  match keys with
  | k0 :: k1 :: k2 :: k3 :: keys =>
      let '(leftt, rightt) := lr in
      let leftt := Z.lxor leftt (mangle rightt k0 k1) in
      let rightt := Z.lxor rightt (mangle leftt k2 k3) in
      rounds keys (leftt, rightt)
  | _ => lr
  end.

Definition desfunc (block : Z * Z) (keys : list Z) : Z * Z := flip (final (rounds keys (initial block))).

(** ** The cipher *)

Definition CRYPT_INVALID_KEYSIZE : Z := 3.
Definition CRYPT_INVALID_ROUNDS : Z := 4.

Record symmetric_key := { ek : list Z; dk : list Z }.

Definition des_setup (key : list Z) (keylen num_rounds : Z) : Z * option symmetric_key :=
  if negb (num_rounds =? 0) && negb (num_rounds =? 16) then (CRYPT_INVALID_ROUNDS, None)
  else if negb (keylen =? 8) then (CRYPT_INVALID_KEYSIZE, None)
  else (CRYPT_OK, Some {| ek := deskey key EN0; dk := deskey key DE1 |}).

Definition ecb (keys : list Z) (pt : list Z) : list Z :=
  let '(w0, w1) := desfunc (LOAD32H pt 0, LOAD32H pt 4) keys in STORE32H w0 ++ STORE32H w1.

Definition des_ecb_encrypt (pt : list Z) (skey : symmetric_key) : list Z := ecb (ek skey) pt.
Definition des_ecb_decrypt (ct : list Z) (skey : symmetric_key) : list Z := ecb (dk skey) ct.

Definition DES_ENCRYPT : Z := 1.
Definition DES_DECRYPT : Z := 0.

(** [DES_ecb_encrypt]: the output, which is left as it was for any other direction. *)
Definition DES_ecb_encrypt (input output : list Z) (ks : symmetric_key) (enc : Z) : list Z :=
  if enc =? DES_ENCRYPT then des_ecb_encrypt input ks
  else if enc =? DES_DECRYPT then des_ecb_decrypt input ks
  else output.

(** ** Keys: crypto.c *)

Definition odd_parity : list Z :=
  [1; 1; 2; 2; 4; 4; 7; 7; 8; 8; 11; 11; 13; 13; 14; 14;
   16; 16; 19; 19; 21; 21; 22; 22; 25; 25; 26; 26; 28; 28; 31; 31;
   32; 32; 35; 35; 37; 37; 38; 38; 41; 41; 42; 42; 44; 44; 47; 47;
   49; 49; 50; 50; 52; 52; 55; 55; 56; 56; 59; 59; 61; 61; 62; 62;
   64; 64; 67; 67; 69; 69; 70; 70; 73; 73; 74; 74; 76; 76; 79; 79;
   81; 81; 82; 82; 84; 84; 87; 87; 88; 88; 91; 91; 93; 93; 94; 94;
   97; 97; 98; 98; 100; 100; 103; 103; 104; 104; 107; 107; 109; 109; 110; 110;
   112; 112; 115; 115; 117; 117; 118; 118; 121; 121; 122; 122; 124; 124; 127; 127;
   128; 128; 131; 131; 133; 133; 134; 134; 137; 137; 138; 138; 140; 140; 143; 143;
   145; 145; 146; 146; 148; 148; 151; 151; 152; 152; 155; 155; 157; 157; 158; 158;
   161; 161; 162; 162; 164; 164; 167; 167; 168; 168; 171; 171; 173; 173; 174; 174;
   176; 176; 179; 179; 181; 181; 182; 182; 185; 185; 186; 186; 188; 188; 191; 191;
   193; 193; 194; 194; 196; 196; 199; 199; 200; 200; 203; 203; 205; 205; 206; 206;
   208; 208; 211; 211; 213; 213; 214; 214; 217; 217; 218; 218; 220; 220; 223; 223;
   224; 224; 227; 227; 229; 229; 230; 230; 233; 233; 234; 234; 236; 236; 239; 239;
   241; 241; 242; 242; 244; 244; 247; 247; 248; 248; 251; 251; 253; 253; 254; 254].
Definition weak_keys : list (list Z) :=
  [[0x01; 0x01; 0x01; 0x01; 0x01; 0x01; 0x01; 0x01];
   [0xFE; 0xFE; 0xFE; 0xFE; 0xFE; 0xFE; 0xFE; 0xFE];
   [0x1F; 0x1F; 0x1F; 0x1F; 0x0E; 0x0E; 0x0E; 0x0E];
   [0xE0; 0xE0; 0xE0; 0xE0; 0xF1; 0xF1; 0xF1; 0xF1];
   [0x01; 0xFE; 0x01; 0xFE; 0x01; 0xFE; 0x01; 0xFE];
   [0xFE; 0x01; 0xFE; 0x01; 0xFE; 0x01; 0xFE; 0x01];
   [0x1F; 0xE0; 0x1F; 0xE0; 0x0E; 0xF1; 0x0E; 0xF1];
   [0xE0; 0x1F; 0xE0; 0x1F; 0xF1; 0x0E; 0xF1; 0x0E];
   [0x01; 0xE0; 0x01; 0xE0; 0x01; 0xF1; 0x01; 0xF1];
   [0xE0; 0x01; 0xE0; 0x01; 0xF1; 0x01; 0xF1; 0x01];
   [0x1F; 0xFE; 0x1F; 0xFE; 0x0E; 0xFE; 0x0E; 0xFE];
   [0xFE; 0x1F; 0xFE; 0x1F; 0xFE; 0x0E; 0xFE; 0x0E];
   [0x01; 0x1F; 0x01; 0x1F; 0x01; 0x0E; 0x01; 0x0E];
   [0x1F; 0x01; 0x1F; 0x01; 0x0E; 0x01; 0x0E; 0x01];
   [0xE0; 0xFE; 0xE0; 0xFE; 0xF1; 0xFE; 0xF1; 0xFE];
   [0xFE; 0xE0; 0xFE; 0xE0; 0xFE; 0xF1; 0xFE; 0xF1]].

Definition DES_set_odd_parity (key : list Z) : list Z := nth_z odd_parity <$> key.

Definition DES_check_key_parity (key : list Z) : bool := forallb (fun b => b =? nth_z odd_parity b) key.

(** [DES_is_weak_key]: the loop runs to the size of the table in bytes, not to the number of
    its keys; [None] is that it reads behind the table. *)
Fixpoint weak_at (l : list (list Z)) (n : nat) (key : list Z) : option bool :=
  match n with
  | O => Some false
  | S n =>
      match l with
      | [] => None
      | k :: l => if bool_decide (k = key) then Some true else weak_at l n key
      end
  end.
Definition DES_is_weak_key (key : list Z) : option bool := weak_at weak_keys (8 * length weak_keys) key.

Definition DES_set_key_checked (key : list Z) : option (Z * option symmetric_key) :=
  if negb (DES_check_key_parity key) then Some (-1, None)
  else
    w ← DES_is_weak_key key;
    if w : bool then Some (-2, None) else Some (des_setup key 8 0).

(** ** The self test *)

Definition cases : list (bool * list Z * list Z * list Z) :=
  [(true, [0x10; 0x31; 0x6E; 0x02; 0x8C; 0x8F; 0x3B; 0x4A],
    [0x00; 0x00; 0x00; 0x00; 0x00; 0x00; 0x00; 0x00], [0x82; 0xDC; 0xBA; 0xFB; 0xDE; 0xAB; 0x66; 0x02]);
   (true, [0x01; 0x01; 0x01; 0x01; 0x01; 0x01; 0x01; 0x01],
    [0x95; 0xF8; 0xA5; 0xE5; 0xDD; 0x31; 0xD9; 0x00], [0x80; 0x00; 0x00; 0x00; 0x00; 0x00; 0x00; 0x00]);
   (true, [0x01; 0x01; 0x01; 0x01; 0x01; 0x01; 0x01; 0x01],
    [0xDD; 0x7F; 0x12; 0x1C; 0xA5; 0x01; 0x56; 0x19], [0x40; 0x00; 0x00; 0x00; 0x00; 0x00; 0x00; 0x00]);
   (true, [0x01; 0x01; 0x01; 0x01; 0x01; 0x01; 0x01; 0x01],
    [0x2E; 0x86; 0x53; 0x10; 0x4F; 0x38; 0x34; 0xEA], [0x20; 0x00; 0x00; 0x00; 0x00; 0x00; 0x00; 0x00]);
   (true, [0x01; 0x01; 0x01; 0x01; 0x01; 0x01; 0x01; 0x01],
    [0x4B; 0xD3; 0x88; 0xFF; 0x6C; 0xD8; 0x1D; 0x4F], [0x10; 0x00; 0x00; 0x00; 0x00; 0x00; 0x00; 0x00]);
   (true, [0x01; 0x01; 0x01; 0x01; 0x01; 0x01; 0x01; 0x01],
    [0x20; 0xB9; 0xE7; 0x67; 0xB2; 0xFB; 0x14; 0x56], [0x08; 0x00; 0x00; 0x00; 0x00; 0x00; 0x00; 0x00]);
   (true, [0x01; 0x01; 0x01; 0x01; 0x01; 0x01; 0x01; 0x01],
    [0x55; 0x57; 0x93; 0x80; 0xD7; 0x71; 0x38; 0xEF], [0x04; 0x00; 0x00; 0x00; 0x00; 0x00; 0x00; 0x00]);
   (true, [0x01; 0x01; 0x01; 0x01; 0x01; 0x01; 0x01; 0x01],
    [0x6C; 0xC5; 0xDE; 0xFA; 0xAF; 0x04; 0x51; 0x2F], [0x02; 0x00; 0x00; 0x00; 0x00; 0x00; 0x00; 0x00]);
   (true, [0x01; 0x01; 0x01; 0x01; 0x01; 0x01; 0x01; 0x01],
    [0x0D; 0x9F; 0x27; 0x9B; 0xA5; 0xD8; 0x72; 0x60], [0x01; 0x00; 0x00; 0x00; 0x00; 0x00; 0x00; 0x00]);
   (true, [0x01; 0x01; 0x01; 0x01; 0x01; 0x01; 0x01; 0x01],
    [0xD9; 0x03; 0x1B; 0x02; 0x71; 0xBD; 0x5A; 0x0A], [0x00; 0x80; 0x00; 0x00; 0x00; 0x00; 0x00; 0x00]);
   (false, [0x10; 0x31; 0x6E; 0x02; 0x8C; 0x8F; 0x3B; 0x4A],
    [0x82; 0xDC; 0xBA; 0xFB; 0xDE; 0xAB; 0x66; 0x02], [0x00; 0x00; 0x00; 0x00; 0x00; 0x00; 0x00; 0x00]);
   (false, [0x01; 0x01; 0x01; 0x01; 0x01; 0x01; 0x01; 0x01],
    [0x80; 0x00; 0x00; 0x00; 0x00; 0x00; 0x00; 0x00], [0x95; 0xF8; 0xA5; 0xE5; 0xDD; 0x31; 0xD9; 0x00]);
   (false, [0x01; 0x01; 0x01; 0x01; 0x01; 0x01; 0x01; 0x01],
    [0x40; 0x00; 0x00; 0x00; 0x00; 0x00; 0x00; 0x00], [0xDD; 0x7F; 0x12; 0x1C; 0xA5; 0x01; 0x56; 0x19]);
   (false, [0x01; 0x01; 0x01; 0x01; 0x01; 0x01; 0x01; 0x01],
    [0x20; 0x00; 0x00; 0x00; 0x00; 0x00; 0x00; 0x00], [0x2E; 0x86; 0x53; 0x10; 0x4F; 0x38; 0x34; 0xEA]);
   (false, [0x01; 0x01; 0x01; 0x01; 0x01; 0x01; 0x01; 0x01],
    [0x10; 0x00; 0x00; 0x00; 0x00; 0x00; 0x00; 0x00], [0x4B; 0xD3; 0x88; 0xFF; 0x6C; 0xD8; 0x1D; 0x4F]);
   (false, [0x01; 0x01; 0x01; 0x01; 0x01; 0x01; 0x01; 0x01],
    [0x08; 0x00; 0x00; 0x00; 0x00; 0x00; 0x00; 0x00], [0x20; 0xB9; 0xE7; 0x67; 0xB2; 0xFB; 0x14; 0x56]);
   (false, [0x01; 0x01; 0x01; 0x01; 0x01; 0x01; 0x01; 0x01],
    [0x04; 0x00; 0x00; 0x00; 0x00; 0x00; 0x00; 0x00], [0x55; 0x57; 0x93; 0x80; 0xD7; 0x71; 0x38; 0xEF]);
   (false, [0x01; 0x01; 0x01; 0x01; 0x01; 0x01; 0x01; 0x01],
    [0x02; 0x00; 0x00; 0x00; 0x00; 0x00; 0x00; 0x00], [0x6C; 0xC5; 0xDE; 0xFA; 0xAF; 0x04; 0x51; 0x2F]);
   (false, [0x01; 0x01; 0x01; 0x01; 0x01; 0x01; 0x01; 0x01],
    [0x01; 0x00; 0x00; 0x00; 0x00; 0x00; 0x00; 0x00], [0x0D; 0x9F; 0x27; 0x9B; 0xA5; 0xD8; 0x72; 0x60]);
   (false, [0x01; 0x01; 0x01; 0x01; 0x01; 0x01; 0x01; 0x01],
    [0x00; 0x80; 0x00; 0x00; 0x00; 0x00; 0x00; 0x00], [0xD9; 0x03; 0x1B; 0x02; 0x71; 0xBD; 0x5A; 0x0A])].

Fixpoint times {A} (n : nat) (f : A -> A) (x : A) : A := match n with O => x | S n => times n f (f x) end.

Definition case_ok (c : bool * list Z * list Z * list Z) : Z :=
  let '(mode, key, txt, out) := c in
  match des_setup key 8 0 with
  | (_, Some des) =>
      let tmp := if mode : bool then des_ecb_encrypt txt des else des_ecb_decrypt txt des in
      if negb (bool_decide (out = tmp)) then CRYPT_FAIL_TESTVECTOR
      else
        let z := replicate 8 0 in
        let tmp := times 1000 (fun b => des_ecb_encrypt b des) z in
        let tmp := times 1000 (fun b => des_ecb_decrypt b des) tmp in
        if bool_decide (tmp = z) then CRYPT_OK else CRYPT_FAIL_TESTVECTOR
  | (err, None) => err
  end.

Fixpoint des_test (l : list (bool * list Z * list Z * list Z)) : Z :=
  match l with
  | [] => CRYPT_OK
  | c :: l => if case_ok c =? CRYPT_OK then des_test l else case_ok c
  end.
