(* ===== verification/DesProps.v ===== *)
(** Decryption undoes encryption: the theorem about [Des].

    [Bits] has the word exchanges and rotations, [Feistel] the rounds and the key schedules,
    [Blocks] the bytes of a block and the theorem. *)

From stdpp Require Import base tactics list numbers option strings.
From Stdlib Require Import ZArith Lia.
From S2P Require Import Prelude Hash Des.

Open Scope Z_scope.

Module Bits.

Lemma u32_bits z : 0 <= z -> (forall i, 32 <= i -> Z.testbit z i = false) -> is_u32 z.
Proof.
  intros Hz Hb. split; [done|]. destruct (decide (z = 0)) as [->|Hne]; [done|].
  apply Z.log2_lt_pow2; [lia|]. destruct (decide (32 <= Z.log2 z)) as [H|H]; [|lia].
  specialize (Hb _ H). rewrite Z.bit_log2 in Hb by lia. done.
Qed.

Lemma bits_u32 z i : is_u32 z -> 32 <= i -> Z.testbit z i = false.
Proof.
  intros [H0 H1] Hi. destruct (decide (z = 0)) as [->|Hne]; [apply Z.testbit_0_l|].
  apply Z.bits_above_log2; [done|]. apply Z.log2_lt_pow2; [lia|].
  eapply Z.lt_le_trans; [exact H1|]. apply Z.pow_le_mono_r; lia.
Qed.

Lemma lxor_u32 a b : is_u32 a -> is_u32 b -> is_u32 (Z.lxor a b).
Proof.
  intros Ha Hb. apply u32_bits; [apply Z.lxor_nonneg; destruct Ha, Hb; lia|].
  intros i Hi. by rewrite Z.lxor_spec, !bits_u32.
Qed.

Lemma land_u32 a m : is_u32 m -> is_u32 (Z.land a m).
Proof.
  intros Hm. apply u32_bits; [apply Z.land_nonneg; right; apply Hm|].
  intros i Hi. by rewrite Z.land_spec, (bits_u32 m), andb_false_r.
Qed.

Lemma lxor_cancel a b : Z.lxor (Z.lxor a b) b = a.
Proof. by rewrite Z.lxor_assoc, Z.lxor_nilpotent, Z.lxor_0_r. Qed.

(** A value under the mask [m], shifted, keeps within the word when the shifted mask does. *)
Lemma masked_shift x m n : 0 <= n -> is_u32 (Z.shiftl m n) -> 0 <= m -> is_u32 (Z.shiftl (Z.land x m) n).
Proof.
  intros Hn Hm Hm0. rewrite Z.shiftl_land. by apply land_u32.
Qed.

Lemma exchange_twice n m a b :
  0 <= n -> 0 <= m -> is_u32 (Z.shiftl m n) -> exchange n m (exchange n m (a, b)) = (a, b).
Proof.
  intros Hn Hm Hs. unfold exchange. rewrite !u32_small by (by apply masked_shift).
  set (w := Z.land (Z.lxor (Z.shiftr a n) b) m).
  assert (Hw : Z.land (Z.lxor (Z.shiftr (Z.lxor a (Z.shiftl w n)) n) (Z.lxor b w)) m = w).
  { rewrite Z.shiftr_lxor, Z.shiftr_shiftl_l, Z.sub_diag, Z.shiftl_0_r by lia.
    rewrite (Z.lxor_comm b w), Z.lxor_assoc, <- (Z.lxor_assoc w w b), Z.lxor_nilpotent, Z.lxor_0_l. done. }
  rewrite Hw. by rewrite !lxor_cancel.
Qed.

Definition is_pair (ab : Z * Z) : Prop := is_u32 ab.1 /\ is_u32 ab.2.

Lemma exchange_pair n m ab : is_u32 m -> is_pair ab -> is_pair (exchange n m ab).
Proof.
  intros Hm [Ha Hb]. destruct ab as [a b]. split; cbn; apply lxor_u32; try done; [apply u32_range|by apply land_u32].
Qed.

Lemma flip_pair ab : is_pair ab -> is_pair (flip ab).
Proof. intros [Ha Hb]. by split. Qed.

Lemma flip_flip ab : flip (flip ab) = ab.
Proof. by destruct ab. Qed.

(** Rotations by one place. *)
Lemma mask_bit i : 0 <= i -> Z.testbit 4294967295 i = (i <? 32).
Proof. intros Hi. change 4294967295 with (Z.ones 32). apply Z.testbit_ones_nonneg; lia. Qed.

Lemma ROL1_bit x i : is_u32 x -> 0 <= i < 32 -> Z.testbit (ROL x 1) i = Z.testbit x ((i - 1) mod 32).
Proof.
  intros Hx Hi. unfold ROL. change (Z.land 1 31) with 1. change (32 - 1) with 31.
  rewrite Z.land_spec, Z.lor_spec, Z.shiftr_spec, Z.land_spec, !mask_bit, Z.shiftl_spec by lia.
  replace (i <? 32) with true by (symmetry; apply Z.ltb_lt; lia). rewrite andb_true_r.
  destruct (decide (i = 0)) as [->|Hne].
  - change ((0 - 1) mod 32) with 31. rewrite (Z.testbit_neg_r x (0 - 1)) by lia. cbn. by rewrite andb_true_r.
  - rewrite (Z.mod_small (i - 1)) by lia. replace (i + 31 <? 32) with false by (symmetry; apply Z.ltb_ge; lia).
    by rewrite andb_false_r, orb_false_r.
Qed.

Lemma ROR1_bit x i : is_u32 x -> 0 <= i < 32 -> Z.testbit (ROR x 1) i = Z.testbit x ((i + 1) mod 32).
Proof.
  intros Hx Hi. unfold ROR. change (Z.land 1 31) with 1. change (32 - 1) with 31.
  rewrite Z.land_spec, Z.lor_spec, Z.shiftr_spec, Z.land_spec, !mask_bit, Z.shiftl_spec by lia.
  replace (i <? 32) with true by (symmetry; apply Z.ltb_lt; lia). rewrite andb_true_r.
  destruct (decide (i = 31)) as [->|Hne].
  - change ((31 + 1) mod 32) with 0. change (31 + 1 <? 32) with false. change (31 - 31) with 0. by rewrite andb_false_r.
  - rewrite (Z.mod_small (i + 1)) by lia. replace (i + 1 <? 32) with true by (symmetry; apply Z.ltb_lt; lia).
    rewrite (Z.testbit_neg_r x (i - 31)) by lia. by rewrite andb_true_r, orb_false_r.
Qed.

Lemma ROL_u32 x n : is_u32 (ROL x n).
Proof. by apply land_u32. Qed.
Lemma ROR_u32 x n : is_u32 (ROR x n).
Proof. by apply land_u32. Qed.

Lemma same_bits x y : is_u32 x -> is_u32 y -> (forall i, 0 <= i < 32 -> Z.testbit x i = Z.testbit y i) -> x = y.
Proof.
  intros Hx Hy H. apply Z.bits_inj'. intros i Hi. destruct (decide (i < 32)); [apply H; lia|].
  rewrite !bits_u32 by (done || lia). done.
Qed.

Lemma ROR_ROL1 x : is_u32 x -> ROR (ROL x 1) 1 = x.
Proof.
  intros Hx. apply same_bits; [apply ROR_u32|done|]. intros i Hi.
  rewrite ROR1_bit by (done || apply ROL_u32). pose proof (Z.mod_pos_bound (i + 1) 32).
  rewrite ROL1_bit by (done || lia). f_equal. Z.div_mod_to_equations. lia.
Qed.

Lemma ROL_ROR1 x : is_u32 x -> ROL (ROR x 1) 1 = x.
Proof.
  intros Hx. apply same_bits; [apply ROL_u32|done|]. intros i Hi.
  rewrite ROL1_bit by (done || apply ROR_u32). pose proof (Z.mod_pos_bound (i - 1) 32).
  rewrite ROR1_bit by (done || lia). f_equal. Z.div_mod_to_equations. lia.
Qed.

Lemma xor_masked a b m :
  Z.land (Z.lxor (Z.lxor a (Z.land (Z.lxor a b) m)) (Z.lxor b (Z.land (Z.lxor a b) m))) m = Z.land (Z.lxor a b) m.
Proof.
  f_equal. set (w := Z.land _ m). rewrite (Z.lxor_comm b w), Z.lxor_assoc, <- (Z.lxor_assoc w w b).
  by rewrite Z.lxor_nilpotent, Z.lxor_0_l.
Qed.

(** The rotated exchange of the final permutation undoes the one of the initial one, on the
    halves in the other order. *)
Lemma unrot_rot lr : is_pair lr -> unrot_exchange (flip (rot_exchange lr)) = flip lr.
Proof.
  intros [Hl Hr]. destruct lr as [l r]. unfold rot_exchange, unrot_exchange, flip. cbn [fst snd].
  set (w := Z.land (Z.lxor l (ROL r 1)) 0xaaaaaaaa).
  assert (Hw : is_u32 w) by by apply land_u32.
  rewrite ROR_ROL1 by (by apply lxor_u32).
  rewrite (Z.lxor_comm (Z.lxor (ROL r 1) w) (Z.lxor l w)). subst w. rewrite xor_masked, !lxor_cancel.
  by rewrite ROR_ROL1.
Qed.

Lemma rot_unrot lr : is_pair lr -> rot_exchange (flip (unrot_exchange lr)) = flip lr.
Proof.
  intros [Hl Hr]. destruct lr as [l r]. unfold rot_exchange, unrot_exchange, flip. cbn [fst snd].
  set (w := Z.land (Z.lxor l (ROR r 1)) 0xaaaaaaaa).
  assert (Hw : is_u32 w) by by apply land_u32.
  rewrite ROL_ROR1 by (by apply lxor_u32).
  rewrite (Z.lxor_comm (Z.lxor (ROR r 1) w) (Z.lxor l w)). subst w. rewrite xor_masked, !lxor_cancel.
  by rewrite ROL_ROR1.
Qed.

Lemma rot_pair lr : is_pair lr -> is_pair (rot_exchange lr).
Proof.
  intros [Hl Hr]. destruct lr as [l r]. split; cbn; [apply ROL_u32|]. apply lxor_u32; [apply ROL_u32|by apply land_u32].
Qed.

Lemma unrot_pair lr : is_pair lr -> is_pair (unrot_exchange lr).
Proof.
  intros [Hl Hr]. destruct lr as [l r]. split; cbn; [apply ROR_u32|]. apply lxor_u32; [apply ROR_u32|by apply land_u32].
Qed.

End Bits.

Module Feistel.
Import Bits.

Lemma exchange_back n m ab :
  0 <= n -> 0 <= m -> is_u32 (Z.shiftl m n) -> exchange n m (exchange n m ab) = ab.
Proof. destruct ab. apply exchange_twice. Qed.

Ltac pairs := repeat first [apply rot_pair | apply unrot_pair | apply flip_pair | apply exchange_pair; [done|] | done].

Lemma initial_pair lr : is_pair lr -> is_pair (initial lr).
Proof. intros H. unfold initial. pairs. Qed.

Lemma final_pair lr : is_pair lr -> is_pair (final lr).
Proof. intros H. unfold final. pairs. Qed.

Lemma final_initial lr : is_pair lr -> final (flip (initial lr)) = flip lr.
Proof.
  intros H. unfold final, initial. rewrite unrot_rot by pairs.
  rewrite !flip_flip, (exchange_back 8), (exchange_back 2), !flip_flip, (exchange_back 16), (exchange_back 4) by done.
  done.
Qed.

Lemma initial_final lr : is_pair lr -> initial (flip (final lr)) = flip lr.
Proof.
  intros H. unfold final, initial. rewrite !flip_flip, (exchange_back 4), (exchange_back 16) by done.
  rewrite !flip_flip, (exchange_back 2), (exchange_back 8), rot_unrot by done. done.
Qed.

(** ** The rounds *)

Definition quad : Type := Z * Z * Z * Z.
Definition flat (q : quad) : list Z := let '(k0, k1, k2, k3) := q in [k0; k1; k2; k3].
Definition back (q : quad) : quad := let '(k0, k1, k2, k3) := q in (k2, k3, k0, k1).
Definition keys_of (l : list quad) : list Z := concat (flat <$> l).

Definition turn (q : quad) (lr : Z * Z) : Z * Z := rounds (flat q) lr.

Lemma rounds_cons q l lr : rounds (keys_of (q :: l)) lr = rounds (keys_of l) (turn q lr).
Proof. by destruct q as [[[k0 k1] k2] k3], lr. Qed.

Lemma rounds_snoc l q lr : rounds (keys_of (l ++ [q])) lr = turn q (rounds (keys_of l) lr).
Proof.
  revert lr. induction l as [|p l IH]; intros lr.
  - by destruct q as [[[k0 k1] k2] k3], lr.
  - cbn [app]. rewrite !rounds_cons. apply IH.
Qed.

Lemma turn_back q lr : turn (back q) (flip (turn q lr)) = flip lr.
Proof.
  destruct q as [[[k0 k1] k2] k3], lr as [l r]. unfold turn, flat, back, flip. cbn [rounds fst snd].
  by rewrite !lxor_cancel.
Qed.

Lemma rounds_back l lr : rounds (keys_of (rev (back <$> l))) (flip (rounds (keys_of l) lr)) = flip lr.
Proof.
  revert lr. induction l as [|q l IH]; intros lr; [done|].
  cbn [fmap list_fmap rev]. rewrite rounds_snoc, rounds_cons. change (list_fmap _ _ back l) with (back <$> l).
  rewrite IH. apply turn_back.
Qed.

(** Every entry of the tables is a word. *)
Lemma sp_u32 i : Forall (fun sp => is_u32 (nth_z sp i)) [SP1; SP2; SP3; SP4; SP5; SP6; SP7; SP8].
Proof.
  assert (H : forall sp, forallb (fun z => (0 <=? z) && (z <? 2 ^ 32)) sp = true -> is_u32 (nth_z sp i)).
  { intros sp Hsp. unfold nth_z. destruct (nth_in_or_default (Z.to_nat i) sp 0) as [Hin| ->]; [|done].
    rewrite forallb_forall in Hsp. apply Hsp in Hin. to_prop. done. }
  repeat constructor; apply H; vm_compute; reflexivity.
Qed.

Lemma mangle_u32 half k0 k1 : is_u32 (mangle half k0 k1).
Proof.
  unfold mangle. repeat apply lxor_u32;
    match goal with |- is_u32 (nth_z _ ?i) => pose proof (sp_u32 i) as H end;
    repeat (apply Forall_cons in H as [? H]); done.
Qed.

Lemma rounds_pair l lr : is_pair lr -> is_pair (rounds (keys_of l) lr).
Proof.
  revert lr. induction l as [|q l IH]; intros lr H; [done|]. rewrite rounds_cons. apply IH.
  destruct q as [[[k0 k1] k2] k3], lr as [a b], H as [Ha Hb]. unfold turn, flat. cbn [rounds].
  split; cbn; apply lxor_u32; try done; apply mangle_u32.
Qed.

(** ** The key schedules *)

(** The words of rounds [2 i] and [2 i + 1]. *)
Definition quad_of (a b : nat -> Z) (i : nat) : quad :=
  (a (2 * i)%nat, b (2 * i)%nat, a (S (2 * i)), b (S (2 * i))).

Definition word0 (key : list Z) (i : nat) : Z := cook0 (select (pcr (pc1m key) i) 0) (select (pcr (pc1m key) i) 24).
Definition word1 (key : list Z) (i : nat) : Z := cook1 (select (pcr (pc1m key) i) 0) (select (pcr (pc1m key) i) 24).

Definition schedule (key : list Z) : list quad := quad_of (word0 key) (word1 key) <$> List.seq 0 8.

(** The stores into the array of raw words put the pairs in order, or in the opposite order. *)
Lemma raw_enc (f g : nat -> Z) :
  fold_left (fun kn i => <[S (2 * i)%nat := g i]> (<[(2 * i)%nat := f i]> kn)) (List.seq 0 16) (replicate 32 0) =
  concat ((fun i => [f i; g i]) <$> List.seq 0 16).
Proof. reflexivity. Qed.

Lemma raw_dec (f g : nat -> Z) :
  fold_left (fun kn i => <[S (2 * (15 - i))%nat := g i]> (<[(2 * (15 - i))%nat := f i]> kn)) (List.seq 0 16)
    (replicate 32 0) =
  concat ((fun i => [f i; g i]) <$> rev (List.seq 0 16)).
Proof. reflexivity. Qed.

Lemma cookey_pairs (f g : nat -> Z) l :
  cookey (concat ((fun i => [f i; g i]) <$> l)) = concat ((fun i => [cook0 (f i) (g i); cook1 (f i) (g i)]) <$> l).
Proof. induction l as [|i l IH]; [done|]. cbn [fmap list_fmap concat app cookey]. by rewrite <- IH. Qed.

Lemma quads_enc (a b : nat -> Z) :
  concat ((fun i => [a i; b i]) <$> List.seq 0 16) = keys_of (quad_of a b <$> List.seq 0 8).
Proof. reflexivity. Qed.

Lemma quads_dec (a b : nat -> Z) :
  concat ((fun i => [a i; b i]) <$> rev (List.seq 0 16)) = keys_of (rev (back <$> (quad_of a b <$> List.seq 0 8))).
Proof. reflexivity. Qed.

#[local] Opaque cook0 cook1 select pcr pc1m.

Lemma enc_schedule key : deskey key EN0 = keys_of (schedule key).
Proof.
  unfold deskey, deskey_raw. change (EN0 =? DE1) with false. cbv beta iota zeta.
  rewrite raw_enc, cookey_pairs. exact (quads_enc (word0 key) (word1 key)).
Qed.

Lemma dec_schedule key : deskey key DE1 = keys_of (rev (back <$> schedule key)).
Proof.
  unfold deskey, deskey_raw. change (DE1 =? DE1) with true. cbv beta iota zeta.
  rewrite raw_dec, cookey_pairs. exact (quads_dec (word0 key) (word1 key)).
Qed.

#[local] Transparent cook0 cook1 select pcr pc1m.

Lemma back_back q : back (back q) = q.
Proof. by destruct q as [[[k0 k1] k2] k3]. Qed.

Lemma desfunc_back l lr :
  is_pair lr -> desfunc (desfunc lr (keys_of l)) (keys_of (rev (back <$> l))) = lr.
Proof.
  intros H. unfold desfunc. rewrite initial_final by (apply rounds_pair, initial_pair, H).
  rewrite rounds_back, final_initial, flip_flip by done. done.
Qed.

Lemma desfunc_pair l lr : is_pair lr -> is_pair (desfunc lr (keys_of l)).
Proof. intros H. unfold desfunc. by apply flip_pair, final_pair, rounds_pair, initial_pair. Qed.

End Feistel.

Module Blocks.
Import Bits Feistel.

Lemma byte_of_u8 x n : 0 <= n -> byte_of x n = u8 (Z.shiftr x n).
Proof. intros Hn. unfold byte_of, u8. change 255 with (Z.ones 8). apply Z.land_ones. lia. Qed.

Lemma STORE32H_be32 x : STORE32H x = be32 x.
Proof. unfold STORE32H, be32. by rewrite !byte_of_u8, Z.shiftr_0_r by lia. Qed.

Lemma lor_shift a b n : 0 <= n -> 0 <= b < 2 ^ n -> Z.lor (Z.shiftl a n) b = a * 2 ^ n + b.
Proof.
  intros Hn Hb. rewrite <- Z.shiftl_mul_pow2 by done. pose proof (Z.add_lor_land (Z.shiftl a n) b) as H.
  assert (H0 : Z.land (Z.shiftl a n) b = 0).
  { apply Z.bits_inj'. intros i Hi. rewrite Z.land_spec, Z.testbit_0_l, Z.shiftl_spec by done.
    destruct (decide (i < n)); [by rewrite (Z.testbit_neg_r a) by lia|].
    destruct (decide (b = 0)) as [->|Hb0]; [by rewrite Z.testbit_0_l, andb_false_r|].
    rewrite (Z.bits_above_log2 b i), andb_false_r; [done|lia|]. apply Z.log2_lt_pow2; [lia|].
    eapply Z.lt_le_trans; [apply Hb|]. apply Z.pow_le_mono_r; lia. }
  lia.
Qed.

Lemma load_bytes a b c d :
  is_u8 a -> is_u8 b -> is_u8 c -> is_u8 d ->
  Z.lor (Z.lor (Z.lor (Z.shiftl a 24) (Z.shiftl b 16)) (Z.shiftl c 8)) d = of_be32 a b c d.
Proof.
  unfold is_u8. change (2 ^ 8) with 256. intros Ha Hb Hc Hd.
  replace (Z.shiftl a 24) with (Z.shiftl (Z.shiftl (Z.shiftl a 8) 8) 8) by (rewrite !Z.shiftl_shiftl by lia; done).
  replace (Z.shiftl b 16) with (Z.shiftl (Z.shiftl b 8) 8) by (rewrite !Z.shiftl_shiftl by lia; done).
  rewrite <- Z.shiftl_lor, <- (Z.shiftl_lor (Z.shiftl a 8)), <- Z.shiftl_lor.
  rewrite !lor_shift by lia. unfold of_be32. lia.
Qed.

Lemma byte_land b : is_u8 b -> Z.land b 255 = b.
Proof. intros H. change 255 with (Z.ones 8). rewrite Z.land_ones by lia. apply Z.mod_small. apply H. Qed.

Lemma be32_of_be32 a b c d :
  is_u8 a -> is_u8 b -> is_u8 c -> is_u8 d -> be32 (of_be32 a b c d) = [a; b; c; d].
Proof. intros. be_unfold. repeat f_equal; Z.div_mod_to_equations; lia. Qed.

(** A block of eight bytes as two words, and back. *)
Definition is_block (b : list Z) : Prop := length b = 8%nat /\ bytes_ok b.
Definition to_words (b : list Z) : Z * Z := (LOAD32H b 0, LOAD32H b 4).
Definition of_words (ab : Z * Z) : list Z := STORE32H ab.1 ++ STORE32H ab.2.

Ltac block b :=
  destruct b as [|? [|? [|? [|? [|? [|? [|? [|? [|? ?]]]]]]]]]; try discriminate.

Lemma to_words_pair b : is_block b -> is_pair (to_words b).
Proof.
  intros [Hl Hb]. block b. unfold bytes_ok in Hb. rewrite !Forall_cons in Hb. destruct_and! Hb.
  split; cbn [to_words fst snd]; unfold LOAD32H; cbn [Nat.add List.nth];
    rewrite !byte_land, load_bytes by done; by apply of_be32_range.
Qed.

Lemma words_roundtrip b : is_block b -> of_words (to_words b) = b.
Proof.
  intros [Hl Hb]. block b. unfold bytes_ok in Hb. rewrite !Forall_cons in Hb. destruct_and! Hb.
  unfold of_words. rewrite !STORE32H_be32. cbn [to_words fst snd]. unfold LOAD32H. cbn [Nat.add List.nth].
  rewrite !byte_land, !load_bytes by done. by rewrite !be32_of_be32.
Qed.

Lemma block_roundtrip ab : is_pair ab -> to_words (of_words ab) = ab /\ is_block (of_words ab).
Proof.
  intros [Ha Hb]. destruct ab as [a b]. unfold of_words, to_words. cbn [fst snd] in *. rewrite !STORE32H_be32.
  split; [|split; [done|apply Forall_app; split; apply be32_ok]].
  unfold LOAD32H. cbn [Nat.add List.nth app be32]. rewrite !byte_land, !load_bytes by apply u8_range.
  f_equal; [pose proof (of_be32_be32 a) as H|pose proof (of_be32_be32 b) as H]; by apply H.
Qed.

Lemma ecb_words keys pt : is_block pt -> ecb keys pt = of_words (desfunc (to_words pt) keys).
Proof. intros _. unfold ecb, of_words, to_words. by destruct (desfunc _ _). Qed.

Lemma ecb_back l pt :
  is_block pt -> is_block (ecb (keys_of l) pt) /\ ecb (keys_of (rev (back <$> l))) (ecb (keys_of l) pt) = pt.
Proof.
  intros Hb. pose proof (to_words_pair pt Hb) as Hp. rewrite (ecb_words _ pt Hb).
  destruct (block_roundtrip (desfunc (to_words pt) (keys_of l))) as [H1 H2]; [by apply desfunc_pair|].
  split; [done|]. rewrite ecb_words, H1, desfunc_back by done. by apply words_roundtrip.
Qed.

Lemma back_schedule l : rev (back <$> rev (back <$> l)) = l.
Proof.
  induction l as [|q l IH]; [done|]. cbn [fmap list_fmap rev]. change (list_fmap _ _ back l) with (back <$> l).
  rewrite fmap_app, rev_app_distr. cbn [fmap list_fmap rev app]. rewrite back_back. f_equal. exact IH.
Qed.

Lemma decrypt_encrypt key ks pt :
  des_setup key 8 0 = (CRYPT_OK, Some ks) -> is_block pt ->
  is_block (des_ecb_encrypt pt ks) /\ des_ecb_decrypt (des_ecb_encrypt pt ks) ks = pt.
Proof.
  intros [= <-] Hb. unfold des_ecb_decrypt, des_ecb_encrypt. cbn [ek dk]. rewrite enc_schedule, dec_schedule.
  by apply ecb_back.
Qed.

Lemma encrypt_decrypt key ks ct :
  des_setup key 8 0 = (CRYPT_OK, Some ks) -> is_block ct ->
  is_block (des_ecb_decrypt ct ks) /\ des_ecb_encrypt (des_ecb_decrypt ct ks) ks = ct.
Proof.
  intros [= <-] Hb. unfold des_ecb_decrypt, des_ecb_encrypt. cbn [ek dk]. rewrite enc_schedule, dec_schedule.
  rewrite <- (back_schedule (schedule key)) at 3. by apply ecb_back.
Qed.

(** ** The self test *)

Lemma times_block n f x : (forall y, is_block y -> is_block (f y)) -> is_block x -> is_block (times n f x).
Proof. intros Hf. revert x. induction n as [|n IH]; intros x Hx; [done|]. by apply IH, Hf. Qed.

Lemma times_S {A} n (f : A -> A) x : times (S n) f x = f (times n f x).
Proof. revert x. induction n as [|n IH]; intros x; [done|]. cbn [times] in *. by rewrite IH. Qed.

Lemma times_back n f g x :
  (forall y, is_block y -> is_block (f y) /\ g (f y) = y) -> is_block x -> times n g (times n f x) = x.
Proof.
  intros Hfg. revert x. induction n as [|n IH]; intros x Hx; [done|].
  rewrite times_S. cbn [times]. rewrite IH by (by apply Hfg). by apply Hfg.
Qed.

Definition vector_ok (c : bool * list Z * list Z * list Z) : bool :=
  let '(mode, key, txt, out) := c in
  match (des_setup key 8 0).2 with
  | Some des => bool_decide (out = if mode : bool then des_ecb_encrypt txt des else des_ecb_decrypt txt des)
  | None => false
  end.

Lemma setup8 key : des_setup key 8 0 = (CRYPT_OK, Some {| ek := deskey key EN0; dk := deskey key DE1 |}).
Proof. reflexivity. Qed.

Lemma vector_case c : vector_ok c = true -> case_ok c = CRYPT_OK.
Proof.
  destruct c as [[[mode key] txt] out]. unfold vector_ok, case_ok. pose proof (setup8 key) as Hks. revert Hks.
  generalize {| ek := deskey key EN0; dk := deskey key DE1 |}. intros ks Hks. rewrite Hks. cbn [snd]. intros ->. cbn [negb].
  rewrite times_back; [by rewrite bool_decide_true| |].
  - intros y Hy. by apply (decrypt_encrypt key).
  - split; [done|]. by repeat constructor.
Qed.

Lemma vectors_test l : forallb vector_ok l = true -> des_test l = CRYPT_OK.
Proof.
  induction l as [|c l IH]; [done|]. cbn [forallb des_test]. intros [H1 H2]%andb_true_iff.
  rewrite (vector_case c H1). cbn. by apply IH.
Qed.

(** C19: with any key, DES decryption undoes encryption and encryption undoes decryption, on
    every block, and the cipher passes its self test, whose vectors are those of the
    standard. *)
Theorem des_exact :
  (forall key ks b, des_setup key 8 0 = (CRYPT_OK, Some ks) -> length b = 8%nat -> bytes_ok b ->
     des_ecb_decrypt (des_ecb_encrypt b ks) ks = b /\ des_ecb_encrypt (des_ecb_decrypt b ks) ks = b) /\
  des_test cases = CRYPT_OK.
Proof.
  split; [|apply vectors_test; vm_compute; reflexivity].
  intros key ks b Hks Hl Hb. split; [by apply (decrypt_encrypt key)|by apply (encrypt_decrypt key)].
Qed.

(** ** Keys *)

(** The table gives every byte odd parity and changes its lowest bit only. *)
Lemma odd_parity_byte b :
  is_u8 b -> nth_z odd_parity (nth_z odd_parity b) = nth_z odd_parity b /\ Z.shiftr (nth_z odd_parity b) 1 = Z.shiftr b 1.
Proof.
  intros Hb. assert (H : forallb (fun i => let b := Z.of_nat i in
    (nth_z odd_parity (nth_z odd_parity b) =? nth_z odd_parity b) &&
    (Z.shiftr (nth_z odd_parity b) 1 =? Z.shiftr b 1)) (List.seq 0 256) = true) by (vm_compute; reflexivity).
  rewrite forallb_forall in H. specialize (H (Z.to_nat b)). rewrite Z2Nat.id in H by apply Hb.
  assert (Hin : In (Z.to_nat b) (List.seq 0 256)) by (apply in_seq; destruct Hb; width_lia).
  apply H in Hin. apply andb_true_iff in Hin as [H1%Z.eqb_eq H2%Z.eqb_eq]. done.
Qed.

Lemma set_odd_parity_checked key : bytes_ok key -> DES_check_key_parity (DES_set_odd_parity key) = true.
Proof.
  intros Hk. apply forallb_forall. intros b Hb. apply list_elem_of_In, list_elem_of_fmap in Hb as (c & -> & Hc).
  apply Z.eqb_eq. symmetry. apply odd_parity_byte. unfold bytes_ok in Hk. rewrite Forall_forall in Hk. by apply Hk.
Qed.

(** The check for a weak key reads behind its table for every key that is not weak, and so
    does [DES_set_key_checked] for every key it means to accept. *)
Lemma weak_key_overread key :
  DES_check_key_parity key = true -> key ∉ weak_keys -> DES_set_key_checked key = None.
Proof.
  intros Hp Hk. unfold DES_set_key_checked. rewrite Hp. cbn [negb]. unfold DES_is_weak_key.
  assert (H : forall l n, (length l < n)%nat -> key ∉ l -> weak_at l n key = None).
  { induction l as [|k l IH]; intros [|n] Hn Hl; cbn in *; try lia; [done|].
    apply not_elem_of_cons in Hl as [Hk' Hl]. rewrite bool_decide_false by congruence. apply IH; [lia|done]. }
  rewrite H by (done || (cbn; lia)). done.
Qed.

End Blocks.
