(* ===== verification/PppoeDisc.v ===== *)
(** PPPoE discovery (ctrl/pppoe/pppoe.c, ctrl/pppoe/disc.c): the definitions.

    The packets of the discovery phase and the connections it makes: the walk over the
    tags of a packet, the cookie of a PADO, the packets the server builds in its stack
    buffers, the limit on PADIs, the handlers of PADI, PADR and PADT, the search for a
    session id, and a connection from its allocation to [disconnect].  [None] is undefined
    behaviour: a read or a write outside an array, a null or a freed pointer.  The theorems
    are in PppoeProps.v. *)

From stdpp Require Import base tactics list numbers option strings gmap.
From Stdlib Require Import ZArith Lia.
From S2P Require Import Prelude CLib PppChan Hash Des.

Open Scope Z_scope.

Module PppoeDisc.
Import PppChan Digests.

(** * Constants (pppoe.h, pppoe.c) *)

Definition CODE_PADI : Z := 9.
Definition CODE_PADO : Z := 7.
Definition CODE_PADR : Z := 25.   (* 0x19 *)
Definition CODE_PADS : Z := 101.  (* 0x65 *)
Definition CODE_PADT : Z := 167.  (* 0xa7 *)
Definition CODE_SESS : Z := 0.

Definition TAG_END_OF_LIST : Z := 0.
Definition TAG_SERVICE_NAME : Z := 257.       (* 0x0101 *)
Definition TAG_AC_NAME : Z := 258.            (* 0x0102 *)
Definition TAG_HOST_UNIQ : Z := 259.          (* 0x0103 *)
Definition TAG_AC_COOKIE : Z := 260.          (* 0x0104 *)
Definition TAG_VENDOR_SPECIFIC : Z := 261.    (* 0x0105 *)
Definition TAG_RELAY_SESSION_ID : Z := 272.   (* 0x0110 *)
Definition TAG_PPP_MAX_PAYLOAD : Z := 288.    (* 0x0120 *)
Definition TAG_SERVICE_NAME_ERROR : Z := 513. (* 0x0201 *)
Definition TAG_AC_SYSTEM_ERROR : Z := 514.    (* 0x0202 *)
Definition VENDOR_ADSL_FORUM : Z := 3561.     (* 0xde9 *)

Definition SECRET_LENGTH : nat := 16.
Definition COOKIE_LENGTH : nat := 24.
Definition SID_MAX : Z := 65536.
Definition ETH_P_PPP_DISC : Z := 34915.       (* 0x8863 *)
Definition ETH_DATA_LEN : Z := 1500.
Definition IFNAMSIZ : nat := 16.

Definition bc_addr : list Z := repeat 255 ETH_ALEN.

(** * Tags *)

(** [struct pppoe_tag], with the data its length covers. *)
Record pppoe_tag := mk_tag { tag_type : Z; tag_data : list Z }.

Definition tag_len (t : pppoe_tag) : Z := Z.of_nat (length (tag_data t)).
Definition tag_bytes (t : pppoe_tag) : list Z := be16 (tag_type t) ++ be16 (tag_len t) ++ tag_data t.

(** The header and the fields of a received packet [f], the bytes behind [pack + 4]. *)
Definition h_dest (f : list Z) : list Z := take ETH_ALEN f.
Definition h_source (f : list Z) : list Z := take ETH_ALEN (drop ETH_ALEN f).
Definition hdr_code (f : list Z) : Z := byte_at f (ETH_HLEN + 1).
Definition hdr_sid (f : list Z) : Z := of_be16 (byte_at f (ETH_HLEN + 2)) (byte_at f (ETH_HLEN + 3)).
Definition hdr_length (f : list Z) : Z := of_be16 (byte_at f (ETH_HLEN + 4)) (byte_at f (ETH_HLEN + 5)).

(** The two bytes at [pack + 20 + n + off]; [None] is a read behind what was received. *)
Definition tag_u16 (f : list Z) (n off : Z) : option Z :=
  let p := Z.to_nat (20 + n + off) in
  a ← f !! p; b ← f !! S p; Some (of_be16 a b).

(** The loop over the tags of PADI and PADR: [None] is a read outside the packet or a loop
    that has not ended, [Some None] a packet that is discarded. *)
Fixpoint walk_tags {A} (handle : pppoe_tag -> A -> A) (fuel : nat) (f : list Z) (len n : Z) (a : A) :
    option (option A) :=
  if len <=? n then Some (Some a)
  else if len <? n + 4 then Some None
  else
    match fuel with
    | O => None
    | S fuel =>
        type ← tag_u16 f n 0;
        tlen ← tag_u16 f n 2;
        if len <? n + 4 + tlen then Some None
        else if type =? TAG_END_OF_LIST then Some (Some a)
        else
          let data := take (Z.to_nat tlen) (drop (Z.to_nat (20 + n + 4)) f) in
          if negb (Z.of_nat (length data) =? tlen) then None
          else walk_tags handle fuel f len (n + 4 + tlen) (handle (mk_tag type data) a)
    end.

Definition over_tags {A} (handle : pppoe_tag -> A -> A) (f : list Z) (a : A) : option (option A) :=
  walk_tags handle (length f) f (hdr_length f) 0 a.

(** * The server *)

Record delayed_pado_t := mk_pado {
  pado_addr : list Z;
  pado_host_uniq : option pppoe_tag;
  pado_relay_sid : option pppoe_tag;
  pado_service_name : option pppoe_tag;
  pado_ppp_max_payload : Z;
  pado_expire_sec : Z;
  pado_expire_usec : Z;
}.

Record timespec := mk_ts { tv_sec : Z; tv_nsec : Z }.

Record padi_t := mk_padi { padi_ts : timespec; padi_addr : list Z }.

(** [struct pppoe_serv_t]; the two tables hold the numbers of connections. *)
Record pppoe_serv_t := mk_serv {
  hwaddr : list Z;
  ifname : string;
  mtu : Z;
  serv_vid : Z;
  secret : list Z;
  des_ks : symmetric_key;
  conn_cnt : Z;
  cookie_2_conn : gmap (list Z) nat;
  mac_sessid_2_conn : gmap Z nat;
  pado_list : list delayed_pado_t;
  padi_list : list padi_t;
  padi_cnt : Z;
  padi_limit : Z;
  last_padi_limit_warn : Z;
  serv_timer : bool;
  stopping : bool;
  vlan_mon : bool;
}.

Record pppoe_interface_config_t := mk_iconf {
  ic_ifname : string;
  ic_service_name : list (list Z);
  ic_accept_any_service : bool;
  ic_accept_blank_service : bool;
}.

Inductive called_sid := CSID_MAC | CSID_IFNAME | CSID_IFNAME_MAC.

(** The configuration of the module. *)
Record pppoe_conf := mk_conf {
  conf_verbose : bool;
  conf_service_name : list (list Z);
  conf_accept_any_service : bool;
  conf_accept_blank_service : bool;
  conf_ac_name : list Z;
  conf_ifname_in_sid : Z;
  conf_tr101 : bool;
  conf_padi_limit : Z;
  conf_sid_uppercase : bool;
  conf_called_sid : called_sid;
  conf_cookie_timeout : Z;
  conf_interface_config : list pppoe_interface_config_t;
  conf_interface_pado_delay : list (string * Z);
  conf_max_starting : Z;
  conf_max_sessions : Z;
  conf_vlan_timeout : Z;
  conf_session_timeout : Z;
  conf_ip_pool : option string;
  conf_ipv6_pool : option string;
  conf_dpv6_pool : option string;
  conf_ifname : option string;
  test_parameter : Z;
}.

(** * The cookie *)

(** [DES_set_key]: [des_setup] with a key of eight bytes. *)
Definition DES_set_key (key : list Z) : symmetric_key := default {| ek := []; dk := [] |} (des_setup key 8 0).2.

Definition cookie_key (serv : pppoe_serv_t) (src : list Z) : list Z :=
  take 6 (hwaddr serv) ++ [byte_at src 4; byte_at src 5].

(** The three blocks of a cookie through the cipher. *)
Definition des_blocks (raw : list Z) (ks : symmetric_key) (enc : Z) : list Z :=
  DES_ecb_encrypt (take 8 raw) [] ks enc ++ DES_ecb_encrypt (take 8 (drop 8 raw)) [] ks enc ++
  DES_ecb_encrypt (take 8 (drop 16 raw)) [] ks enc.

Definition cookie_digest (serv : pppoe_serv_t) (src : list Z) (relay_sid : option pppoe_tag) : list Z :=
  MD5 ([secret serv; hwaddr serv; src] ++ match relay_sid with Some t => [tag_data t] | None => [] end).

(** The four bytes that stand for the Host-Uniq tag. *)
Definition host_uniq_hash (serv : pppoe_serv_t) (host_uniq : option pppoe_tag) : list Z :=
  match host_uniq with
  | Some t =>
      let buf := MD5 [secret serv; tag_data t] in
      (fun i => Z.lxor (Z.lxor (Z.lxor (byte_at buf i) (byte_at buf (i + 4))) (byte_at buf (i + 8)))
                  (byte_at buf (i + 12))) <$> [0; 1; 2; 3]%nat
  | None => replicate 4 0
  end.

Definition generate_cookie (timeout : Z) (now : Z) (serv : pppoe_serv_t) (src : list Z)
    (host_uniq relay_sid : option pppoe_tag) : list Z :=
  let ks := DES_set_key (cookie_key serv src) in
  let u1 := cookie_digest serv src relay_sid ++ host_uniq_hash serv host_uniq ++ STORE32L (u32 (now + timeout)) in
  let u2 := des_blocks u1 ks DES_ENCRYPT in
  des_blocks u2 (des_ks serv) DES_ENCRYPT.

(** [check_cookie]: [true] is a cookie that is refused. *)
Definition check_cookie (now : Z) (serv : pppoe_serv_t) (src cookie : list Z) (relay_sid : option pppoe_tag) : bool :=
  let ks := DES_set_key (cookie_key serv src) in
  let u1 := take 24 cookie in
  let u2 := des_blocks u1 (des_ks serv) DES_DECRYPT in
  let u1 := des_blocks u2 ks DES_DECRYPT in
  if LOAD32L u1 20 <? now then true
  else negb (bool_decide (take 16 u1 = take 16 (cookie_digest serv src relay_sid))).

(** * The packets the server sends *)

(** A packet under construction: the header up to the length field and the bytes of the
    tags, which are as many as the length field says. *)
Record pack := mk_pack { pk_head : list Z; pk_tags : list Z }.

Definition pk_length (p : pack) : Z := Z.of_nat (length (pk_tags p)).
Definition sizeof_pack : Z := Z.of_nat ETHER_MAX_LEN.

Definition setup_header (src dst : list Z) (code sid : Z) : pack :=
  mk_pack (dst ++ src ++ be16 ETH_P_PPP_DISC ++ [17; u8 code] ++ be16 sid) [].

(** [add_tag]: the value the function returns and the packet. *)
Definition add_tag (pack_size type : Z) (data : list Z) (p : pack) : Z * pack :=
  let len := Z.of_nat (length data) in
  if pack_size <=? 20 + pk_length p + 4 + len then (-1, p)
  else (0, p <| pk_tags ::= fun l => l ++ be16 type ++ be16 len ++ data |>).

(** [add_tag2]: the bound leaves out the four bytes of the tag's header; [None] is that the
    copy runs over the end of the buffer. *)
Definition add_tag2 (pack_size : Z) (t : pppoe_tag) (p : pack) : option (Z * pack) :=
  if pack_size <=? 20 + pk_length p + tag_len t then Some (-1, p)
  else if pack_size <? 20 + pk_length p + 4 + tag_len t then None
  else Some (0, p <| pk_tags ::= fun l => l ++ tag_bytes t |>).

(** The calls, whose results nobody looks at. *)
Definition put_tag (type : Z) (data : list Z) (p : pack) : pack := (add_tag sizeof_pack type data p).2.
Definition put_tag2 (t : pppoe_tag) (p : pack) : option pack :=
  match add_tag2 sizeof_pack t p with Some r => Some r.2 | None => None end.
Definition put_opt_tag2 (t : option pppoe_tag) (p : pack) : option pack :=
  match t with Some t => put_tag2 t p | None => Some p end.

(** [pppoe_send]: the bytes handed to [sendto]. *)
Definition pppoe_send (p : pack) : list Z := pk_head p ++ be16 (pk_length p) ++ pk_tags p.

Definition PADO_pack (cf : pppoe_conf) (now : Z) (serv : pppoe_serv_t) (addr : list Z)
    (host_uniq relay_sid service_name : option pppoe_tag) (ppp_max_payload : Z) : option pack :=
  let p := setup_header (hwaddr serv) addr CODE_PADO 0 in
  let p := put_tag TAG_AC_NAME (conf_ac_name cf) p in
  p ← put_opt_tag2 service_name p;
  let cookie := generate_cookie (conf_cookie_timeout cf) now serv addr host_uniq relay_sid in
  let p := put_tag TAG_AC_COOKIE cookie p in
  p ← put_opt_tag2 host_uniq p;
  p ← put_opt_tag2 relay_sid p;
  Some (if ppp_max_payload =? 0 then p else put_tag TAG_PPP_MAX_PAYLOAD (be16 ppp_max_payload) p).

Definition err_pack (cf : pppoe_conf) (serv : pppoe_serv_t) (addr : list Z) (host_uniq relay_sid : option pppoe_tag)
    (code type : Z) : option pack :=
  let p := setup_header (hwaddr serv) addr code 0 in
  let p := put_tag TAG_AC_NAME (conf_ac_name cf) p in
  let p := put_tag type [] p in
  p ← put_opt_tag2 host_uniq p;
  put_opt_tag2 relay_sid p.

(** * Connections *)

(** [struct pppoe_conn_t] with what the module sets of its [ctrl], [ppp] and [ses].
    [linked] is [ses.state != 0], [username] that a user name is set; both are changed by the
    session layer. *)
Record pppoe_conn_t := mk_conn {
  sid : Z;
  addr : list Z;
  ppp_started : bool;
  session_started : Z;
  relay_sid : option pppoe_tag;
  host_uniq : option pppoe_tag;
  service_name : pppoe_tag;
  tr101 : option pppoe_tag;
  cookie : list Z;
  max_mtu : Z;
  called_station_id : string;
  calling_station_id : string;
  ctrl_service_name : list Z;
  ppp_vid : Z;
  ipv4_pool_name : option string;
  ipv6_pool_name : option string;
  dpv6_pool_name : option string;
  ifname_rename : option string;
  session_timeout : Z;
  radius_plugin : bool;
  pppoe_sid : Z;
  client_mac : list Z;
  linked : bool;
  username : bool;
  live : bool;
}.

(** The calls queued on the context of a connection, and on that of the server. *)
Inductive conn_call := Call_connect | Call_disconnect.
#[export] Instance conn_call_eq_dec : EqDecision conn_call.
Proof. solve_decision. Defined.

Inductive serv_call := Call_server_free | Call_start_timer.

Record pppoe_st := mk_st {
  serv : pppoe_serv_t;
  conns : list pppoe_conn_t;
  sid_map : list Z;
  sid_idx : Z;
  stat_starting : Z;
  stat_session_active : Z;
  stat_active : Z;
  stat_delayed_pado : Z;
  stat_PADI_recv : Z;
  stat_PADI_drop : Z;
  stat_PADO_sent : Z;
  stat_PADR_recv : Z;
  stat_PADR_dup_recv : Z;
  stat_PADS_sent : Z;
  total_padi_cnt : Z;
  ap_starting : Z;
  ap_active : Z;
  ap_incoming : Z;
  calls : list (nat * conn_call);
  serv_calls : list serv_call;
  sent : list (list Z);
}.

(** What a handler finds around it: the clock, the shutdown flag, the current PADO delay,
    whether the pools have memory, and the answer of [connlimit_check] when that module is
    loaded. *)
Record pppoe_env := mk_env {
  now : timespec;
  ap_shutdown : bool;
  pado_delay : Z;
  mem_ok : bool;
  connlimit : list Z -> bool;
}.

Definition send_pack (s : pppoe_st) (p : pack) : pppoe_st := s <| sent ::= fun l => l ++ [pppoe_send p] |>.

(** [conns[i]], for a connection that has not been freed. *)
Definition get_conn (s : pppoe_st) (i : nat) : option pppoe_conn_t :=
  c ← conns s !! i; if live c then Some c else None.
Definition put_conn (i : nat) (c : pppoe_conn_t) (s : pppoe_st) : pppoe_st := s <| conns ::= <[i := c]> |>.

(** ** PADO *)

Definition pppoe_send_PADO (cf : pppoe_conf) (e : pppoe_env) (dst : list Z)
    (hu rs sn : option pppoe_tag) (ppp_max_payload : Z) (s : pppoe_st) : option pppoe_st :=
  p ← PADO_pack cf (tv_sec (now e)) (serv s) dst hu rs sn ppp_max_payload;
  Some (send_pack (s <| stat_PADO_sent ::= fun n => u64 (n + 1) |>) p).

Definition pppoe_send_err (cf : pppoe_conf) (dst : list Z) (hu rs : option pppoe_tag) (code type : Z)
    (s : pppoe_st) : option pppoe_st :=
  p ← err_pack cf (serv s) dst hu rs code type; Some (send_pack s p).

(** [pado_timer] for the delayed PADO at place [k] of the list, and [free_delayed_pado]. *)
Definition free_delayed_pado (k : nat) (s : pppoe_st) : pppoe_st :=
  s <| stat_delayed_pado ::= fun n => u32 (n - 1) |>
    <| serv ::= fun v => v <| pado_list ::= fun l => delete k l |> |>.

Definition pado_timer (cf : pppoe_conf) (e : pppoe_env) (k : nat) (s : pppoe_st) : option pppoe_st :=
  d ← pado_list (serv s) !! k;
  s ← (if ap_shutdown e then Some s
       else pppoe_send_PADO cf e (pado_addr d) (pado_host_uniq d) (pado_relay_sid d) (pado_service_name d)
              (pado_ppp_max_payload d) s);
  Some (free_delayed_pado k s).

(** ** The limit on PADIs *)

Definition padi_old (t : timespec) (p : padi_t) : bool :=
  1000 <? (tv_sec t - tv_sec (padi_ts p)) * 1000 + Z.quot (tv_nsec t - tv_nsec (padi_ts p)) 1000000.

(** The entries the loop at the top drops from the front of the list. *)
Fixpoint drop_old (t : timespec) (l : list padi_t) : nat * list padi_t :=
  match l with
  | [] => (0%nat, [])
  | p :: l' => if padi_old t p then let '(k, r) := drop_old t l' in (S k, r) else (0%nat, l)
  end.

Definition expire_padis (t : timespec) (s : pppoe_st) : pppoe_st :=
  let '(k, l) := drop_old t (padi_list (serv s)) in
  s <| serv ::= fun v => v <| padi_list := l |> <| padi_cnt ::= fun n => n - Z.of_nat k |> |>
    <| total_padi_cnt ::= fun n => u32 (n - Z.of_nat k) |>.

Definition add_padi (t : timespec) (a : list Z) (s : pppoe_st) : pppoe_st :=
  s <| serv ::= fun v => v <| padi_list ::= fun l => l ++ [mk_padi t a] |> <| padi_cnt ::= fun n => n + 1 |> |>
    <| total_padi_cnt ::= fun n => u32 (n + 1) |>.

(** [check_padi_limit]: [true] is a PADI over the limit. *)
Definition check_padi_limit (cf : pppoe_conf) (e : pppoe_env) (a : list Z) (s : pppoe_st) : bool * pppoe_st :=
  if padi_limit (serv s) =? 0 then (connlimit e a, s)
  else
    let s := expire_padis (now e) s in
    if padi_cnt (serv s) =? padi_limit (serv s) then (true, s)
    else if negb (conf_padi_limit cf =? 0) && (u32 (conf_padi_limit cf) <=? total_padi_cnt s) then (true, s)
    else if existsb (fun p => bool_decide (padi_addr p = a)) (padi_list (serv s)) then (true, s)
    else if negb (mem_ok e) then (true, s)
    else (connlimit e a, add_padi (now e) a s).

(** ** PADI *)

Definition find_iface (cf : pppoe_conf) (name : string) : option pppoe_interface_config_t :=
  List.find (fun c => bool_decide (ic_ifname c = name)) (conf_interface_config cf).

(** [obj_hashtable_ts_get] in the table of the delays. *)
Definition find_delay (cf : pppoe_conf) (name : string) : Z :=
  match List.find (fun d => bool_decide (d.1 = name)) (conf_interface_pado_delay cf) with
  | Some d => d.2
  | None => 0
  end.

(** The loop over the configured service names. *)
Definition service_known (names : list (list Z)) (t : pppoe_tag) : bool :=
  existsb (fun n => bool_decide (tag_data t = n)) names.

Definition empty {A} (l : list A) : bool := match l with [] => true | _ => false end.

Record found := mk_found {
  f_host_uniq : option pppoe_tag;
  f_relay_sid : option pppoe_tag;
  f_service_name : option pppoe_tag;
  f_ac_cookie : option pppoe_tag;
  f_tr101 : option pppoe_tag;
  f_service_match : bool;
  f_ppp_max_payload : Z;
}.

Definition nothing (service_match : bool) : found := mk_found None None None None None service_match 0.

Definition max_payload_of (t : pppoe_tag) (old : Z) : Z :=
  if tag_len t =? 2 then of_be16 (byte_at (tag_data t) 0) (byte_at (tag_data t) 1) else old.

(** The Service-Name case of the switch. *)
Definition padi_service (cf : pppoe_conf) (ic : option pppoe_interface_config_t) (t : pppoe_tag) (m : bool) : bool :=
  match ic with
  | Some ic =>
      let m := empty (ic_service_name ic) in
      if (tag_len t =? 0) && ic_accept_blank_service ic then true
      else m || service_known (ic_service_name ic) t
  | None =>
      if (tag_len t =? 0) && conf_accept_blank_service cf then true
      else m || service_known (conf_service_name cf) t
  end.

Definition padi_tag (cf : pppoe_conf) (ic : option pppoe_interface_config_t) (t : pppoe_tag) (a : found) : found :=
  let ty := tag_type t in
  if ty =? TAG_SERVICE_NAME then
    a <| f_service_name := Some t |> <| f_service_match ::= padi_service cf ic t |>
  else if ty =? TAG_HOST_UNIQ then a <| f_host_uniq := Some t |>
  else if ty =? TAG_RELAY_SESSION_ID then a <| f_relay_sid := Some t |>
  else if ty =? TAG_PPP_MAX_PAYLOAD then a <| f_ppp_max_payload ::= max_payload_of t |>
  else a.

Definition accept_any (cf : pppoe_conf) (ic : option pppoe_interface_config_t) : bool :=
  match ic with Some ic => ic_accept_any_service ic | None => conf_accept_any_service cf end.

(** The limits on sessions that PADI and PADR share. *)
Definition too_many (cf : pppoe_conf) (s : pppoe_st) : bool :=
  (negb (conf_max_starting cf =? 0) && (u32 (conf_max_starting cf) <=? ap_starting s)) ||
  (negb (conf_max_sessions cf =? 0) && (u32 (conf_max_sessions cf) <=? u32 (ap_active s + ap_starting s))).

Definition test_limit (cf : pppoe_conf) (s : pppoe_st) : bool :=
  negb (test_parameter cf =? 0) && (u32 (test_parameter cf) <=? u32 (ap_active s + ap_starting s)).

Definition warn_padi (cf : pppoe_conf) (e : pppoe_env) (s : pppoe_st) : pppoe_st :=
  if conf_verbose cf && (last_padi_limit_warn (serv s) <=? tv_sec (now e) - 60)
  then s <| serv ::= fun v => v <| last_padi_limit_warn := tv_sec (now e) |> |> else s.

(** The end of [pppoe_recv_PADI]: the PADO now or later. *)
Definition answer_padi (cf : pppoe_conf) (e : pppoe_env) (delay : Z) (src : list Z) (a : found) (s : pppoe_st) :
    option pppoe_st :=
  let mp := f_ppp_max_payload a in
  let mp := if mtu (serv s) - 8 <? mp then u16 (mtu (serv s) - 8) else mp in
  let delay := if (delay =? 0) && negb (pado_delay e =? 0) then pado_delay e else delay in
  if delay =? 0 then
    pppoe_send_PADO cf e src (f_host_uniq a) (f_relay_sid a) (f_service_name a) mp s
  else if existsb (fun d => bool_decide (pado_addr d = src)) (pado_list (serv s)) then Some s
  else if negb (mem_ok e) then None
  else
    let d := mk_pado src (f_host_uniq a) (f_relay_sid a) (f_service_name a) mp (Z.quot delay 1000)
               (Z.rem delay 1000 * 1000) in
    Some (s <| serv ::= fun v => v <| pado_list ::= fun l => l ++ [d] |> |>
            <| stat_delayed_pado ::= fun n => u32 (n + 1) |>).

Definition pppoe_recv_PADI (cf : pppoe_conf) (e : pppoe_env) (f : list Z) (s : pppoe_st) : option pppoe_st :=
  let s := s <| stat_PADI_recv ::= fun n => u64 (n + 1) |> in
  let delay := find_delay cf (ifname (serv s)) in
  if delay =? -1 then Some s
  else if ap_shutdown e || (pado_delay e =? -1) then Some s
  else if too_many cf s then Some s
  else
    let '(over, s) := check_padi_limit cf e (h_source f) s in
    if over : bool then Some (warn_padi cf e (s <| stat_PADI_drop ::= fun n => u64 (n + 1) |>))
    else if negb (hdr_sid f =? 0) then Some s
    else
      let ic := find_iface cf (ifname (serv s)) in
      if test_limit cf s then Some s
      else
        r ← over_tags (padi_tag cf ic) f (nothing (empty (conf_service_name cf)));
        match r with
        | None => Some s
        | Some a =>
            if negb (f_service_match a) && negb (accept_any cf ic) then Some s
            else answer_padi cf e delay (h_source f) a s
        end.

(** ** Session ids

    The map has a bit for each id, set while the id is free, in words of 64 bits. *)

Definition SID_WORDS : Z := SID_MAX / 8 / 8.

(** [memset(ptr, 0xff, ..)] and the two ids that are never handed out. *)
Definition sid_map_init : list Z :=
  (2 ^ 64 - 2) :: replicate (Z.to_nat (SID_WORDS - 2)) (2 ^ 64 - 1) ++ [2 ^ 63 - 1].

(** [ffsl(w) - 1], if a bit is set. *)
Definition ffsl (w : Z) : option Z := List.find (Z.testbit w) (Z.of_nat <$> List.seq 0 64).

(** The loop of [allocate_channel]: the id, 0 if there is none, the map and the place the
    next search starts at; [None] is a loop that has not ended or an index outside the map. *)
Fixpoint find_sid (fuel : nat) (start : Z) (map : list Z) (idx : Z) : option (Z * list Z * Z) :=
  match fuel with
  | O => None
  | S fuel =>
      w ← map !! Z.to_nat idx;
      let next := if idx + 1 =? SID_WORDS then 0 else idx + 1 in
      match ffsl w with
      | Some bit => Some (u16 (idx * 64 + bit), <[Z.to_nat idx := Z.clearbit w bit]> map, next)
      | None => if next =? start then Some (0, map, next) else find_sid fuel start map next
      end
  end.

Definition take_sid (s : pppoe_st) : option (Z * pppoe_st) :=
  '(id, map, idx) ← find_sid (Z.to_nat SID_WORDS) (sid_idx s) (sid_map s) (sid_idx s);
  Some (id, s <| sid_map := map |> <| sid_idx := idx |>).

(** [sid_map[sid / 64] |= 1 << (sid % 64)]: the constant is an [int], so that the shift is
    undefined from 31 on. *)
Definition put_sid (id : Z) (map : list Z) : option (list Z) :=
  w ← map !! Z.to_nat (id / 64);
  if 31 <=? id mod 64 then None
  else Some (<[Z.to_nat (id / 64) := Z.lor w (Z.shiftl 1 (id mod 64))]> map).

(** ** Names *)

Definition hex_digit (upper : bool) (d : Z) : Ascii.ascii :=
  Ascii.ascii_of_N (Z.to_N (if d <? 10 then 48 + d else if upper then 55 + d else 87 + d)).
Definition hex2 (upper : bool) (b : Z) : string :=
  String (hex_digit upper (b / 16)) (String (hex_digit upper (b mod 16)) EmptyString).

(** [%02x:%02x:%02x:%02x:%02x:%02x] *)
Fixpoint mac_string (upper : bool) (a : list Z) : string :=
  match a with
  | [] => EmptyString
  | [b] => hex2 upper b
  | b :: a => hex2 upper b +:+ ":" +:+ mac_string upper a
  end.

Definition name_mac (with_name : bool) (cf : pppoe_conf) (v : pppoe_serv_t) (a : list Z) : string :=
  (if with_name then ifname v +:+ ":" else EmptyString) +:+ mac_string (conf_sid_uppercase cf) (take 6 a).

Definition called_id (cf : pppoe_conf) (v : pppoe_serv_t) : string :=
  match conf_called_sid cf with
  | CSID_IFNAME => ifname v
  | CSID_IFNAME_MAC => name_mac true cf v (hwaddr v)
  | CSID_MAC => name_mac ((conf_ifname_in_sid cf =? 2) || (conf_ifname_in_sid cf =? 3)) cf v (hwaddr v)
  end.

Definition calling_id (cf : pppoe_conf) (v : pppoe_serv_t) (a : list Z) : string :=
  name_mac ((conf_ifname_in_sid cf =? 1) || (conf_ifname_in_sid cf =? 3)) cf v a.

(** The name of the service in a block of 256 zero bytes. *)
Definition service_block (t : pppoe_tag) : list Z :=
  if (tag_len t <? 256) && (0 <? tag_len t) then tag_data t ++ replicate (256 - length (tag_data t)) 0
  else replicate 256 0.

(** [strstr(name, sub) != NULL] *)
Fixpoint contains (sub name : string) : bool :=
  String.prefix sub name || match name with EmptyString => false | String _ name => contains sub name end.

Definition vid_of (v : pppoe_serv_t) : Z :=
  if contains "-c" (ifname v) && String.prefix "vlan" (ifname v)
  then s32 (atoi (sdrop 4 (ifname v)) * 10000 + serv_vid v)
  else serv_vid v.

Definition mtu_of (v : pppoe_serv_t) (ppp_max_payload : Z) : Z :=
  if ETH_DATA_LEN - 8 <? ppp_max_payload then Z.min ppp_max_payload (mtu v - 8)
  else Z.min ETH_DATA_LEN (mtu v) - 8.

(** ** Tables *)

(** The table keeps the value it has for a key: the two tables have no function to free one. *)
Definition table_insert `{Countable K} (k : K) (i : nat) (t : gmap K nat) : gmap K nat :=
  match t !! k with Some _ => t | None => <[k := i]> t end.

Fixpoint le_of (l : list Z) : Z := match l with [] => 0 | b :: l => b + 256 * le_of l end.

(** [key64]: eight bytes are read at the address, the two behind it are shifted out. *)
Definition key64 (a behind : list Z) (id : Z) : Z :=
  Z.lor (Z.ldiff (u64 (Z.shiftl (le_of (take 6 a ++ behind)) 16)) 65535) id.

Definition conn_flags (c : pppoe_conn_t) : list Z :=
  [(if ppp_started c then 1 else 0) + 2 * session_started c; 0].

(** ** A connection *)

Definition new_conn (cf : pppoe_conf) (v : pppoe_serv_t) (id : Z) (a : list Z) (hu rs : option pppoe_tag)
    (sn : pppoe_tag) (tr : option pppoe_tag) (ck : list Z) (mp : Z) : pppoe_conn_t :=
  {| sid := id; addr := a; ppp_started := false; session_started := 0; relay_sid := rs; host_uniq := hu;
     service_name := sn; tr101 := tr; cookie := take (COOKIE_LENGTH - 4) ck; max_mtu := mtu_of v mp;
     called_station_id := called_id cf v; calling_station_id := calling_id cf v a;
     ctrl_service_name := service_block sn; ppp_vid := vid_of v; ipv4_pool_name := conf_ip_pool cf;
     ipv6_pool_name := conf_ipv6_pool cf; dpv6_pool_name := conf_dpv6_pool cf; ifname_rename := conf_ifname cf;
     session_timeout := conf_session_timeout cf; radius_plugin := false; pppoe_sid := 0;
     client_mac := replicate 6 0; linked := false; username := false; live := true |}.

(** [allocate_channel]: the number of the connection, if there is one; a PADR without a
    Service-Name tag ends in a null pointer. *)
Definition allocate_channel (cf : pppoe_conf) (e : pppoe_env) (a : list Z) (hu rs sn tr : option pppoe_tag)
    (ck : list Z) (mp : Z) (s : pppoe_st) : option (option nat * pppoe_st) :=
  if negb (mem_ok e) then Some (None, s)
  else
    '(id, s) ← take_sid s;
    if id =? 0 then Some (None, s)
    else
      sn ← sn;
      let c := new_conn cf (serv s) id a hu rs sn tr ck mp in
      let i := length (conns s) in
      Some (Some i,
        s <| conns ::= fun l => l ++ [c] |>
          <| serv ::= fun v => v <| cookie_2_conn ::= table_insert (cookie c) i |>
                                 <| mac_sessid_2_conn ::= table_insert (key64 a (conn_flags c) id) i |>
                                 <| serv_timer := false |>
                                 <| conn_cnt ::= fun n => u32 (n + 1) |> |>).

Definition PADS_pack (cf : pppoe_conf) (v : pppoe_serv_t) (c : pppoe_conn_t) : option pack :=
  let p := setup_header (hwaddr v) (addr c) CODE_PADS (sid c) in
  let p := put_tag TAG_AC_NAME (conf_ac_name cf) p in
  p ← put_tag2 (service_name c) p;
  p ← put_opt_tag2 (host_uniq c) p;
  p ← put_opt_tag2 (relay_sid c) p;
  Some (if ETH_DATA_LEN - 8 <? max_mtu c then put_tag TAG_PPP_MAX_PAYLOAD (be16 (max_mtu c)) p else p).

Definition pppoe_send_PADS (cf : pppoe_conf) (i : nat) (s : pppoe_st) : option pppoe_st :=
  c ← get_conn s i;
  p ← PADS_pack cf (serv s) c;
  let s := put_conn i (c <| pppoe_sid := sid c |> <| client_mac := addr c |>) s in
  Some (send_pack (s <| stat_PADS_sent ::= fun n => u64 (n + 1) |>) p).

Definition PADT_pack (cf : pppoe_conf) (v : pppoe_serv_t) (c : pppoe_conn_t) : option pack :=
  let p := setup_header (hwaddr v) (addr c) CODE_PADT (sid c) in
  let p := put_tag TAG_AC_NAME (conf_ac_name cf) p in
  p ← put_tag2 (service_name c) p;
  put_opt_tag2 (relay_sid c) p.

Definition pppoe_send_PADT (cf : pppoe_conf) (i : nat) (s : pppoe_st) : option pppoe_st :=
  c ← get_conn s i; p ← PADT_pack cf (serv s) c; Some (send_pack s p).

(** ** PADR *)

Definition padr_service (cf : pppoe_conf) (ic : option pppoe_interface_config_t) (t : pppoe_tag) (m : bool) : bool :=
  let names := match ic with Some ic => ic_service_name ic | None => conf_service_name cf end in
  if tag_len t =? 0 then true else m || empty names || service_known names t.

Definition vendor_id (t : pppoe_tag) : Z :=
  let d := tag_data t in s32 (of_be32 (byte_at d 0) (byte_at d 1) (byte_at d 2) (byte_at d 3)).

Definition padr_tag (cf : pppoe_conf) (ic : option pppoe_interface_config_t) (t : pppoe_tag) (a : found) : found :=
  let ty := tag_type t in
  if ty =? TAG_SERVICE_NAME then
    a <| f_service_name := Some t |> <| f_service_match ::= padr_service cf ic t |>
  else if ty =? TAG_HOST_UNIQ then a <| f_host_uniq := Some t |>
  else if ty =? TAG_AC_COOKIE then a <| f_ac_cookie := Some t |>
  else if ty =? TAG_RELAY_SESSION_ID then a <| f_relay_sid := Some t |>
  else if ty =? TAG_VENDOR_SPECIFIC then
    if (4 <=? tag_len t) && (vendor_id t =? VENDOR_ADSL_FORUM) && conf_tr101 cf then a <| f_tr101 := Some t |> else a
  else if ty =? TAG_PPP_MAX_PAYLOAD then a <| f_ppp_max_payload ::= max_payload_of t |>
  else a.

(** The rest of [pppoe_recv_PADR] for a cookie that was accepted and no connection has. *)
Definition open_channel (cf : pppoe_conf) (e : pppoe_env) (src ck : list Z) (a : found) (s : pppoe_st) : option pppoe_st :=
  if negb (conf_max_starting cf =? 0) && (u32 (conf_max_starting cf) <=? ap_incoming s) then Some s
  else
    let s := s <| ap_incoming ::= fun n => u32 (n + 1) |> in
    '(r, s) ← allocate_channel cf e src (f_host_uniq a) (f_relay_sid a) (f_service_name a) (f_tr101 a) ck
                (f_ppp_max_payload a) s;
    match r with
    | None =>
        let s := if 0 <? ap_incoming s then s <| ap_incoming ::= fun n => u32 (n - 1) |> else s in
        pppoe_send_err cf src (f_host_uniq a) (f_relay_sid a) CODE_PADS TAG_AC_SYSTEM_ERROR s
    | Some i =>
        s ← pppoe_send_PADS cf i s;
        Some (s <| calls ::= fun l => l ++ [(i, Call_connect)] |>)
    end.

Definition known_channel (cf : pppoe_conf) (i : nat) (s : pppoe_st) : option pppoe_st :=
  c ← get_conn s i;
  if username c then Some s
  else pppoe_send_PADS cf i (s <| stat_PADR_dup_recv ::= fun n => u64 (n + 1) |>).

Definition answer_padr (cf : pppoe_conf) (e : pppoe_env) (ic : option pppoe_interface_config_t) (src : list Z) (a : found)
    (s : pppoe_st) : option pppoe_st :=
  match f_ac_cookie a with
  | None => Some s
  | Some t =>
      let ck := tag_data t in
      if negb (tag_len t =? Z.of_nat COOKIE_LENGTH) then Some s
      else if check_cookie (tv_sec (now e)) (serv s) src ck (f_relay_sid a) then Some s
      else if negb (f_service_match a) && negb (accept_any cf ic) then
        pppoe_send_err cf src (f_host_uniq a) (f_relay_sid a) CODE_PADS TAG_SERVICE_NAME_ERROR s
      else
        match cookie_2_conn (serv s) !! take (COOKIE_LENGTH - 4) ck with
        | Some i => known_channel cf i s
        | None => open_channel cf e src ck a s
        end
  end.

Definition pppoe_recv_PADR (cf : pppoe_conf) (e : pppoe_env) (f : list Z) (s : pppoe_st) : option pppoe_st :=
  let s := s <| stat_PADR_recv ::= fun n => u64 (n + 1) |> in
  if ap_shutdown e then Some s
  else if too_many cf s then Some s
  else if bool_decide (h_dest f = bc_addr) then Some s
  else if negb (hdr_sid f =? 0) then Some s
  else
    let ic := find_iface cf (ifname (serv s)) in
    if test_limit cf s then Some s
    else
      r ← over_tags (padr_tag cf ic) f (nothing false);
      match r with
      | None => Some s
      | Some a => answer_padr cf e ic (h_source f) a s
      end.

(** ** PADT *)

(** What is read behind the source address is the protocol of the frame. *)
Definition frame_key (f : list Z) : Z := key64 (h_source f) (take 2 (drop 12 f)) (hdr_sid f).

Definition pppoe_recv_PADT (f : list Z) (s : pppoe_st) : option pppoe_st :=
  if bool_decide (h_dest f = bc_addr) then Some s
  else
    match mac_sessid_2_conn (serv s) !! frame_key f with
    | Some i => _ ← get_conn s i; Some (s <| calls ::= fun l => l ++ [(i, Call_disconnect)] |>)
    | None => Some s
    end.

(** ** The life of a connection *)

(** The part [disconnect] and [ppp_finished] share. *)
Definition leave_stats (i : nat) (c : pppoe_conn_t) (s : pppoe_st) : pppoe_st :=
  if session_started c =? 1 then
    put_conn i (c <| session_started := 2 |>) (s <| stat_session_active ::= fun n => u32 (n - 1) |>)
  else if session_started c =? 0 then
    put_conn i (c <| session_started := 2 |>) (s <| stat_starting ::= fun n => u32 (n - 1) |>)
  else put_conn i c s.

Definition started_cb (i : nat) (s : pppoe_st) : option pppoe_st :=
  c ← get_conn s i;
  Some (put_conn i (c <| session_started := 1 |>)
    (s <| stat_starting ::= fun n => u32 (n - 1) |> <| stat_session_active ::= fun n => u32 (n + 1) |>)).

Definition finished_cb (i : nat) (s : pppoe_st) : option pppoe_st :=
  c ← get_conn s i;
  let '(c, s) :=
    if ppp_started c then
      (c <| ppp_started := false |>,
       s <| stat_active ::= fun n => u32 (n - 1) |> <| calls ::= fun l => l ++ [(i, Call_disconnect)] |>)
    else (c, s) in
  Some (leave_stats i c s).

(** The counter of connections, and what the last one makes the server do. *)
Definition leave_serv (s : pppoe_st) : pppoe_st :=
  let n := u32 (conn_cnt (serv s) - 1) in
  let s := s <| serv ::= fun v => v <| conn_cnt := n |> |> in
  if n =? 0 then
    if stopping (serv s) then s <| serv_calls ::= fun l => l ++ [Call_server_free] |>
    else if vlan_mon (serv s) then s <| serv_calls ::= fun l => l ++ [Call_start_timer] |>
    else s
  else s.

(** [disconnect]; [fin] is whether the hard termination of the session reports its end
    through [ppp_finished].  Unregistering the context drops the calls queued on it. *)
Definition disconnect (fin : bool) (cf : pppoe_conf) (i : nat) (s : pppoe_st) : option pppoe_st :=
  c ← get_conn s i;
  let s := if negb (linked c) && (0 <? ap_incoming s) then s <| ap_incoming ::= fun n => u32 (n - 1) |> else s in
  let s := s <| serv ::= fun v => v <| cookie_2_conn ::= delete (cookie c) |>
                                    <| mac_sessid_2_conn ::= delete (key64 (addr c) (conn_flags c) (sid c)) |> |> in
  s ← (if ppp_started c then
         let s := put_conn i (c <| ppp_started := false |>) (s <| stat_active ::= fun n => u32 (n - 1) |>) in
         if fin then finished_cb i s else Some s
       else Some s);
  c ← get_conn s i;
  let s := leave_stats i c s in
  s ← pppoe_send_PADT cf i s;
  let s := leave_serv s in
  m ← put_sid (sid c) (sid_map s);
  c ← get_conn s i;
  Some (put_conn i (c <| live := false |>)
    (s <| sid_map := m |> <| calls ::= filter (fun x => x.1 <> i) |>)).

(** [connect_channel], run from the queue of the connection; [ok] is whether
    [establish_ppp] succeeds, [radius] whether that module is loaded. *)
Definition connect_channel (ok radius : bool) (cf : pppoe_conf) (i : nat) (s : pppoe_st) : option pppoe_st :=
  let s := s <| stat_starting ::= fun n => u32 (n + 1) |> in
  if negb ok then disconnect false cf i s
  else
    c ← get_conn s i;
    Some (put_conn i (c <| radius_plugin := bool_decide (is_Some (tr101 c)) && radius |> <| ppp_started := true |>)
            (s <| stat_active ::= fun n => u32 (n + 1) |>)).

(** [pppoe_conn_close]: a session that runs is asked to terminate, which reports back later. *)
Definition pppoe_conn_close (cf : pppoe_conf) (i : nat) (s : pppoe_st) : option pppoe_st :=
  c ← get_conn s i;
  if ppp_started c then Some s else disconnect false cf i s.

(** [pppoe_serv_read]: the packet goes to the handler of its code. *)
Definition pppoe_serv_read (cf : pppoe_conf) (e : pppoe_env) (f : list Z) (s : pppoe_st) : option pppoe_st :=
  if hdr_code f =? CODE_PADI then pppoe_recv_PADI cf e f s
  else if hdr_code f =? CODE_PADR then pppoe_recv_PADR cf e f s
  else if hdr_code f =? CODE_PADT then pppoe_recv_PADT f s
  else Some s.

(** [disc_read]: the checks on a frame before it is queued on the server; they are those
    of [ppp_ses_read]. *)
Definition disc_frame_ok (mac_filtered : list Z -> bool) (f : list Z) : bool := ses_frame_ok mac_filtered f.

End PppoeDisc.
