(* ===== verification/PppoeProps.v ===== *)
(** PPPoE discovery: the theorems.

    [Cookie]: exactly which cookies are accepted.  [Tags]: the walk over the tags of a
    packet stays inside it and ends.  [Frames]: the packets the server builds, and the one
    that overruns its buffer.  [Sids]: the map of session ids.  [Conns]: the invariant of the
    connections along every run, and the handshake. *)

From stdpp Require Import base tactics list numbers option strings gmap relations.
From Stdlib Require Import ZArith Lia.
From S2P Require Import Prelude CLib PppChan Hash Des DesProps PppoeDisc.

Open Scope Z_scope.

Module Cookie.
Import PppChan PppoeDisc Digests DesProps.Blocks.

#[local] Opaque des_ecb_encrypt des_ecb_decrypt.

(** ** Four bytes in the order of the host *)

Lemma STORE32L_le x : STORE32L x = rev (be32 x).
Proof. by rewrite <- STORE32H_be32. Qed.

Lemma LOAD32L_at l a b c d :
  bytes_ok [a; b; c; d] -> LOAD32L (l ++ [a; b; c; d]) (length l) = of_be32 d c b a.
Proof.
  unfold bytes_ok. rewrite !Forall_cons. intros (Ha & Hb & Hc & Hd & _). unfold LOAD32L.
  rewrite !app_nth2 by lia. rewrite !Nat.add_sub_swap, !Nat.sub_diag by lia. cbn [Nat.add List.nth].
  rewrite !byte_land by done. by apply load_bytes.
Qed.

Lemma store_load l x : is_u32 x -> LOAD32L (l ++ STORE32L x) (length l) = x.
Proof.
  intros Hx. rewrite STORE32L_le. cbn [rev be32 app]. rewrite LOAD32L_at by (repeat constructor; apply u8_range).
  by apply of_be32_be32.
Qed.

Lemma load_store l t : length t = 4%nat -> bytes_ok t -> STORE32L (LOAD32L (l ++ t) (length l)) = t /\ is_u32 (LOAD32L (l ++ t) (length l)).
Proof.
  intros Hl Hb. destruct t as [|a [|b [|c [|d [|? ?]]]]]; try discriminate. rewrite LOAD32L_at by done.
  unfold bytes_ok in Hb. rewrite !Forall_cons in Hb. destruct_and! Hb.
  rewrite STORE32L_le, be32_of_be32 by done. split; [done|]. by apply of_be32_range.
Qed.

(** ** Digests and blocks *)

Definition raw24 (b : list Z) : Prop := length b = 24%nat /\ bytes_ok b.

Lemma raw24_split b : raw24 b -> is_block (take 8 b) /\ is_block (take 8 (drop 8 b)) /\ is_block (take 8 (drop 16 b)).
Proof.
  intros [Hl Hb]. unfold is_block. rewrite !length_take, !length_drop. unfold bytes_ok in *.
  repeat split; try lia; apply Forall_take; try apply Forall_drop; done.
Qed.

Lemma raw24_join a b c : is_block a -> is_block b -> is_block c -> raw24 (a ++ b ++ c).
Proof. intros [? ?] [? ?] [? ?]. split; [rewrite !length_app; lia|]. unfold bytes_ok in *. rewrite !Forall_app. done. Qed.

Lemma take_join a b c :
  is_block a -> is_block b -> is_block c ->
  take 8 (a ++ b ++ c) = a /\ take 8 (drop 8 (a ++ b ++ c)) = b /\ take 8 (drop 16 (a ++ b ++ c)) = c.
Proof.
  intros [Ha _] [Hb _] [Hc _]. rewrite drop_app_length' by done. replace 16%nat with (8 + 8)%nat by done.
  rewrite <- drop_drop, drop_app_length' by done. rewrite drop_app_length' by done.
  rewrite !take_app_length' by done. by rewrite take_ge by lia.
Qed.

Lemma split_join b : raw24 b -> take 8 b ++ take 8 (drop 8 b) ++ take 8 (drop 16 b) = b.
Proof.
  intros [Hl _]. rewrite (take_ge (drop 16 b)) by (rewrite length_drop; lia).
  replace 16%nat with (8 + 8)%nat by done. rewrite <- drop_drop. by rewrite !take_drop.
Qed.

Lemma key_set key : des_setup key 8 0 = (CRYPT_OK, Some (DES_set_key key)).
Proof. reflexivity. Qed.

Lemma blocks_back raw key :
  raw24 raw ->
  let ks := DES_set_key key in
  (raw24 (des_blocks raw ks DES_ENCRYPT) /\ des_blocks (des_blocks raw ks DES_ENCRYPT) ks DES_DECRYPT = raw) /\
  (raw24 (des_blocks raw ks DES_DECRYPT) /\ des_blocks (des_blocks raw ks DES_DECRYPT) ks DES_ENCRYPT = raw).
Proof.
  intros Hr ks. destruct (raw24_split raw Hr) as (H1 & H2 & H3).
  assert (E : forall b, is_block b -> is_block (des_ecb_encrypt b ks) /\ des_ecb_decrypt (des_ecb_encrypt b ks) ks = b)
    by (intros b Hb; by apply (decrypt_encrypt key)).
  assert (D : forall b, is_block b -> is_block (des_ecb_decrypt b ks) /\ des_ecb_encrypt (des_ecb_decrypt b ks) ks = b)
    by (intros b Hb; by apply (encrypt_decrypt key)).
  clearbody ks. unfold des_blocks, DES_ecb_encrypt. cbn [Z.eqb DES_ENCRYPT DES_DECRYPT Pos.eqb].
  split; (split; [apply raw24_join; (apply (E _ H1) || apply (E _ H2) || apply (E _ H3) ||
                                     apply (D _ H1) || apply (D _ H2) || apply (D _ H3))|]).
  - destruct (take_join _ _ _ (proj1 (E _ H1)) (proj1 (E _ H2)) (proj1 (E _ H3))) as (-> & -> & ->).
    rewrite (proj2 (E _ H1)), (proj2 (E _ H2)), (proj2 (E _ H3)). by apply split_join.
  - destruct (take_join _ _ _ (proj1 (D _ H1)) (proj1 (D _ H2)) (proj1 (D _ H3))) as (-> & -> & ->).
    rewrite (proj2 (D _ H1)), (proj2 (D _ H2)), (proj2 (D _ H3)). by apply split_join.
Qed.

#[local] Opaque des_blocks DES_set_key MD5 STORE32L LOAD32L.

(** ** What is accepted *)

(** The server's second key is set by [init_secret] and never changed. *)
Definition keyed (v : pppoe_serv_t) : Prop := exists key, des_ks v = DES_set_key key.

(** A cookie with a given content. *)
Definition seal (v : pppoe_serv_t) (src raw : list Z) : list Z :=
  des_blocks (des_blocks raw (DES_set_key (cookie_key v src)) DES_ENCRYPT) (des_ks v) DES_ENCRYPT.
Definition unseal (v : pppoe_serv_t) (src ck : list Z) : list Z :=
  des_blocks (des_blocks ck (des_ks v) DES_DECRYPT) (DES_set_key (cookie_key v src)) DES_DECRYPT.

Lemma unseal_seal v src raw : keyed v -> raw24 raw -> unseal v src (seal v src raw) = raw /\ raw24 (seal v src raw).
Proof.
  intros [key Hk] Hr. unfold unseal, seal. rewrite Hk.
  destruct (blocks_back raw (cookie_key v src) Hr) as [[H1 H2] _].
  destruct (blocks_back _ key H1) as [[H3 H4] _]. rewrite H4, H2. exact (conj eq_refl H3).
Qed.

Lemma seal_unseal v src ck : keyed v -> raw24 ck -> seal v src (unseal v src ck) = ck /\ raw24 (unseal v src ck).
Proof.
  intros [key Hk] Hr. unfold unseal, seal. rewrite Hk.
  destruct (blocks_back ck key Hr) as [_ [H1 H2]].
  destruct (blocks_back _ (cookie_key v src) H1) as [_ [H3 H4]]. rewrite H4, H2. exact (conj eq_refl H3).
Qed.

Lemma digest_block v src rs : length (cookie_digest v src rs) = 16%nat /\ bytes_ok (cookie_digest v src rs).
Proof. apply MD5_block. Qed.

Lemma lxor_byte a b : is_u8 a -> is_u8 b -> is_u8 (Z.lxor a b).
Proof.
  intros Ha Hb. unfold is_u8 in *. assert (0 <= Z.lxor a b) by (apply Z.lxor_nonneg; lia). split; [done|].
  destruct (decide (Z.lxor a b = 0)) as [->|]; [lia|]. apply Z.log2_lt_pow2; [lia|].
  eapply Z.le_lt_trans; [apply Z.log2_lxor; lia|]. apply Z.max_lub_lt.
  - destruct (decide (a = 0)) as [->|]; [done|]. apply Z.log2_lt_pow2; lia.
  - destruct (decide (b = 0)) as [->|]; [done|]. apply Z.log2_lt_pow2; lia.
Qed.

Lemma byte_at_ok l i : bytes_ok l -> is_u8 (byte_at l i).
Proof.
  intros Hl. unfold byte_at. destruct (nth_in_or_default i l 0) as [Hi| ->]; [|done].
  apply (proj1 (Forall_forall _ _) Hl). by apply list_elem_of_In.
Qed.

Lemma host_uniq_ok v hu : length (host_uniq_hash v hu) = 4%nat /\ bytes_ok (host_uniq_hash v hu).
Proof.
  destruct hu as [t|]; [|split; [done|by repeat constructor]]. cbn [host_uniq_hash].
  pose proof (MD5_block [secret v; tag_data t]) as [_ Hb]. split; [done|].
  repeat constructor; repeat apply lxor_byte; by apply byte_at_ok.
Qed.

Lemma content_ok (a b c : list Z) :
  length a = 16%nat -> bytes_ok a -> length b = 4%nat -> bytes_ok b -> length c = 4%nat -> bytes_ok c -> raw24 (a ++ b ++ c).
Proof. intros. split; [rewrite !length_app; lia|]. unfold bytes_ok in *. by rewrite !Forall_app. Qed.

(** The check on the content of a cookie. *)
Lemma check_unsealed t v src ck rs :
  length ck = 24%nat ->
  check_cookie t v src ck rs = false <->
  t <= LOAD32L (unseal v src ck) 20 /\ take 16 (unseal v src ck) = cookie_digest v src rs.
Proof.
  intros Hl. unfold check_cookie. rewrite (take_ge ck) by lia. fold (unseal v src ck).
  rewrite (take_ge (cookie_digest v src rs)) by (rewrite (proj1 (digest_block v src rs)); lia).
  destruct (_ <? _) eqn:E; to_prop; [split; [done|lia]|].
  rewrite negb_false_iff, bool_decide_eq_true. intuition.
Qed.

Lemma check_sealed t v src hu e rs rs' :
  keyed v -> length hu = 4%nat -> bytes_ok hu -> is_u32 e ->
  check_cookie t v src (seal v src (cookie_digest v src rs ++ hu ++ STORE32L e)) rs' = false <->
  t <= e /\ cookie_digest v src rs = cookie_digest v src rs'.
Proof.
  intros Hv Hl Hb He. destruct (digest_block v src rs) as [Hd Hd'].
  assert (Hr : raw24 (cookie_digest v src rs ++ hu ++ STORE32L e)) by (by apply content_ok; try apply STORE32L_ok).
  destruct (unseal_seal v src _ Hv Hr) as [Hu [Hs _]]. rewrite check_unsealed, Hu by done.
  rewrite take_app_length' by done. rewrite app_assoc.
  replace 20%nat with (length (cookie_digest v src rs ++ hu)) by (rewrite length_app; lia).
  by rewrite store_load.
Qed.

(** C18: the cookie of a PADO is a proof that the client was sent it.  A cookie is accepted
    exactly if, under the two keys of the server and the source address, it decrypts to the
    digest of the secret, both addresses and the relay's session id, followed by four bytes
    for the Host-Uniq tag and a time that has not passed; in particular the cookie made for a
    source is accepted from that source, with the relay id it was made for, until the time
    configured has passed and no longer. *)
Theorem cookie_exact v src :
  keyed v ->
  (forall t rs ck, length ck = 24%nat -> bytes_ok ck ->
     check_cookie t v src ck rs = false <->
     exists hu e, length hu = 4%nat /\ bytes_ok hu /\ is_u32 e /\ t <= e /\
       ck = seal v src (cookie_digest v src rs ++ hu ++ STORE32L e)) /\
  (forall timeout t t' hu rs rs',
     check_cookie t' v src (generate_cookie timeout t v src hu rs) rs' = false <->
     t' <= u32 (t + timeout) /\ cookie_digest v src rs = cookie_digest v src rs').
Proof.
  intros Hv. split.
  - intros t rs ck Hl Hb. split.
    + destruct (seal_unseal v src ck Hv (conj Hl Hb)) as [Hs [Hl' Hb']]. rewrite check_unsealed by done. intros [Ht Hd].
      pose proof (take_drop 16 (unseal v src ck)) as E1. pose proof (take_drop 4 (drop 16 (unseal v src ck))) as E2.
      rewrite drop_drop in E2. cbn [Nat.add] in E2.
      revert Hs Hl' Hb' Ht Hd E1 E2. generalize (unseal v src ck). intros c Hs Hl' Hb' Ht Hd E1 E2.
      destruct (load_store (take 20 c) (drop 20 c)) as [H1 H2];
        [rewrite length_drop; lia|by apply Forall_drop|].
      rewrite take_drop, length_take, Nat.min_l in H1, H2 by lia.
      exists (take 4 (drop 16 c)), (LOAD32L c 20).
      split; [rewrite length_take, length_drop; lia|]. split; [by apply Forall_take, Forall_drop|].
      split; [exact H2|]. split; [exact Ht|]. rewrite H1, E2, <- Hd, E1. symmetry. exact Hs.
    + intros (hu & e & H1 & H2 & H3 & H4 & ->). by apply check_sealed.
  - intros timeout t t' hu rs rs'. destruct (host_uniq_ok v hu) as [H1 H2].
    unfold generate_cookie. fold (seal v src (cookie_digest v src rs ++ host_uniq_hash v hu ++ STORE32L (u32 (t + timeout)))).
    apply check_sealed; auto with bng.
Qed.

End Cookie.

Module Tags.
Import PppChan PppoeDisc.

Definition tag_ok (t : pppoe_tag) : Prop := is_u16 (tag_type t) /\ is_u16 (tag_len t) /\ bytes_ok (tag_data t).

Lemma lookup_ok f (i : nat) b : bytes_ok f -> f !! i = Some b -> is_u8 b.
Proof. intros Hf Hi. eapply Forall_lookup_1 in Hf; done. Qed.

(** A field of a tag that lies inside the packet is read. *)
Lemma tag_u16_some f n off :
  bytes_ok f -> 0 <= n -> 0 <= off -> 20 + n + off + 2 <= Z.of_nat (length f) ->
  exists x, tag_u16 f n off = Some x /\ is_u16 x.
Proof.
  intros Hf Hn Ho Hl. unfold tag_u16.
  destruct (lookup_lt_is_Some_2 f (Z.to_nat (20 + n + off))) as [a Ha]; [lia|].
  destruct (lookup_lt_is_Some_2 f (S (Z.to_nat (20 + n + off)))) as [b Hb]; [lia|].
  rewrite Ha. cbn. rewrite Hb. cbn. eexists. split; [done|]. apply of_be16_range; by eapply lookup_ok.
Qed.

Section Walk.
Context {A : Type} (handle : pppoe_tag -> A -> A).

(** The walk ends inside the packet, and what it returns was built from tags that follow
    each other in it. *)
Lemma walk_ind (P : Z -> A -> Prop) f len fuel n a :
  bytes_ok f -> 20 + len <= Z.of_nat (length f) -> 0 <= n -> len - n <= 4 * Z.of_nat fuel -> P n a ->
  (forall n t a, 0 <= n -> n + 4 + tag_len t <= len -> tag_ok t -> P n a -> P (n + 4 + tag_len t) (handle t a)) ->
  exists r, walk_tags handle fuel f len n a = Some r /\
    (forall a', r = Some a' -> exists n', n' <= Z.max n len /\ P n' a').
Proof.
  intros Hf Hl Hn Hfuel H0 Hstep. revert n a Hn Hfuel H0. induction fuel as [|fuel IH]; intros n a Hn Hfuel H0; cbn [walk_tags].
  { rewrite (proj2 (Z.leb_le len n)) by lia. eexists. split; [done|]. intros ? [= <-]. exists n. split; [lia|done]. }
  destruct (len <=? n) eqn:E1; to_prop.
  { eexists. split; [done|]. intros ? [= <-]. exists n. split; [lia|done]. }
  destruct (len <? n + 4) eqn:E2; to_prop; [by eexists|].
  destruct (tag_u16_some f n 0) as (ty & -> & Hty); try (done || lia).
  destruct (tag_u16_some f n 2) as (tl & -> & Htl); try (done || lia). cbn [mbind option_bind].
  destruct (len <? n + 4 + tl) eqn:E3; to_prop; [by eexists|].
  destruct (ty =? TAG_END_OF_LIST).
  { eexists. split; [done|]. intros ? [= <-]. exists n. split; [lia|done]. }
  assert (0 <= tl) by (unfold is_u16 in Htl; lia).
  assert (Hd : Z.of_nat (length (take (Z.to_nat tl) (drop (Z.to_nat (20 + n + 4)) f))) = tl).
  { rewrite length_take, length_drop. lia. }
  rewrite (proj2 (Z.eqb_eq _ _) Hd). cbn [negb].
  set (t := mk_tag ty _). assert (Ht : tag_len t = tl) by done.
  destruct (IH (n + 4 + tl) (handle t a)) as (r & -> & Hr); [lia|lia| |].
  { rewrite <- Ht. apply Hstep; [done|lia| |done]. split; [done|]. split; [by rewrite Ht|]. by apply Forall_take, Forall_drop. }
  exists r. split; [done|]. intros a' Ha. destruct (Hr a' Ha) as (n' & Hn' & HP). exists n'. split; [lia|done].
Qed.

(** The fields of a tag behind [pre]. *)
Lemma tag_fields f pre t rest :
  drop 20 f = pre ++ tag_bytes t ++ rest -> tag_ok t ->
  let n := Z.of_nat (length pre) in
  tag_u16 f n 0 = Some (tag_type t) /\ tag_u16 f n 2 = Some (tag_len t) /\
  take (Z.to_nat (tag_len t)) (drop (Z.to_nat (20 + n + 4)) f) = tag_data t.
Proof.
  intros Hf (Hty & Htl & Hb) n.
  assert (Hd : drop 20 f = pre ++ be16 (tag_type t) ++ be16 (tag_len t) ++ tag_data t ++ rest).
  { rewrite Hf. unfold tag_bytes at 1. by rewrite <- !app_assoc. }
  assert (Hlk : forall k, f !! (20 + length pre + k)%nat =
     (be16 (tag_type t) ++ be16 (tag_len t) ++ tag_data t ++ rest) !! k).
  { intros k. rewrite <- Nat.add_assoc, <- lookup_drop, Hd. rewrite lookup_app_r by lia.
    by replace (length pre + k - length pre)%nat with k by lia. }
  unfold tag_u16. subst n. replace (Z.to_nat (_ + 0)) with (20 + length pre + 0)%nat by lia.
  replace (Z.to_nat (_ + 2)) with (20 + length pre + 2)%nat by lia. rewrite <- !Nat.add_succ_r, !Hlk. cbn [lookup list_lookup be16 app mbind option_bind].
  split_and!; [f_equal; by apply of_be16_be16|f_equal; by apply of_be16_be16|].
  replace (Z.to_nat (20 + _ + 4)) with (20 + (length pre + 4))%nat by lia. rewrite <- drop_drop, Hd.
  rewrite <- drop_drop, drop_app_length. cbn [be16 app drop].
  unfold tag_len. rewrite Nat2Z.id, drop_0. by rewrite take_app_length.
Qed.

Lemma tag_bytes_length t : Z.of_nat (length (tag_bytes t)) = 4 + tag_len t.
Proof. unfold tag_bytes, tag_len. cbn [be16 app length]. lia. Qed.

(** A packet that is a sequence of tags. *)
Lemma walk_tags_app f pre ts len fuel a :
  drop 20 f = pre ++ concat (tag_bytes <$> ts) -> Forall tag_ok ts -> Forall (fun t => tag_type t <> TAG_END_OF_LIST) ts ->
  len = Z.of_nat (length pre + length (concat (tag_bytes <$> ts))) -> (length ts <= fuel)%nat ->
  walk_tags handle fuel f len (Z.of_nat (length pre)) a = Some (Some (fold_left (fun a t => handle t a) ts a)).
Proof.
  revert pre fuel a. induction ts as [|t ts IH]; intros pre fuel a Hf Hok Hend Hlen Hfuel.
  { cbn [fmap list_fmap concat length] in *. rewrite Nat.add_0_r in Hlen. subst len.
    destruct fuel; cbn [walk_tags]; by rewrite Z.leb_refl. }
  destruct fuel as [|fuel]; [cbn in Hfuel; lia|]. cbn [fmap list_fmap concat] in *.
  apply Forall_cons in Hok as [Ht Hok]. apply Forall_cons in Hend as [Hne Hend].
  rewrite length_app in Hlen. pose proof (tag_bytes_length t) as Hb.
  destruct (tag_fields f pre t _ Hf Ht) as (T1 & T2 & T3). cbn [walk_tags].
  destruct (_ <=? _) eqn:E1; to_prop; [unfold tag_len in *; lia|].
  destruct (_ <? _) eqn:E2; to_prop; [unfold tag_len in *; lia|].
  rewrite T1, T2. cbn [mbind option_bind].
  destruct (_ <? _) eqn:E3; to_prop; [unfold tag_len in *; lia|].
  rewrite (proj2 (Z.eqb_neq _ _) Hne), T3. fold (tag_len t). rewrite Z.eqb_refl. cbn [negb fold_left].
  replace (Z.of_nat (length pre) + 4 + tag_len t) with (Z.of_nat (length (pre ++ tag_bytes t))) by (rewrite length_app; lia).
  destruct t as [ty data]. cbn [tag_type tag_data]. apply IH; try done.
  - by rewrite Hf, app_assoc.
  - rewrite length_app. unfold tag_len in *. lia.
  - cbn in Hfuel. lia.
Qed.

End Walk.

End Tags.

Module Frames.
Import PppChan PppoeDisc Tags.

Definition opt_size (t : option pppoe_tag) : Z := match t with Some t => 4 + tag_len t | None => 0 end.
Definition opt_tags (t : option pppoe_tag) : list pppoe_tag := match t with Some t => [t] | None => [] end.
Definition size_of (ts : list pppoe_tag) : Z := Z.of_nat (length (concat (tag_bytes <$> ts))).

Lemma size_of_app a b : size_of (a ++ b) = size_of a + size_of b.
Proof. unfold size_of. rewrite fmap_app, concat_app, length_app. lia. Qed.
Lemma size_of_one t : size_of [t] = 4 + tag_len t.
Proof. unfold size_of. cbn [fmap list_fmap concat]. rewrite app_nil_r. apply tag_bytes_length. Qed.
Lemma size_of_opt t : size_of (opt_tags t) = opt_size t.
Proof. destruct t; [apply size_of_one|done]. Qed.
Lemma opt_size_nonneg t : 0 <= opt_size t.
Proof. destruct t; cbn; unfold tag_len; lia. Qed.

(** A packet that holds a list of tags. *)
Definition holds (p : pack) (head : list Z) (ts : list pppoe_tag) : Prop :=
  pk_head p = head /\ pk_tags p = concat (tag_bytes <$> ts).

Lemma holds_length p h ts : holds p h ts -> pk_length p = size_of ts.
Proof. intros [_ H]. unfold pk_length, size_of. by rewrite H. Qed.

Lemma holds_snoc h ts t : holds (mk_pack h (concat (tag_bytes <$> ts) ++ tag_bytes t)) h (ts ++ [t]).
Proof. split; [done|]. cbn [pk_tags]. rewrite fmap_app, concat_app. cbn [fmap list_fmap concat]. by rewrite app_nil_r. Qed.

Lemma put_tag_holds p h ts ty data :
  holds p h ts -> 20 + size_of ts + 4 + Z.of_nat (length data) < sizeof_pack ->
  holds (put_tag ty data p) h (ts ++ [mk_tag ty data]).
Proof.
  intros Hp Hs. unfold put_tag, add_tag. rewrite (holds_length p h ts Hp).
  rewrite (proj2 (Z.leb_gt _ _)) by lia. destruct p as [ph pt], Hp as [Hh Ht]. cbn in Hh, Ht. subst.
  exact (holds_snoc _ _ (mk_tag ty data)).
Qed.

Lemma put_tag2_holds p h ts t :
  holds p h ts -> 20 + size_of ts + 4 + tag_len t <= sizeof_pack ->
  exists p', put_tag2 t p = Some p' /\ holds p' h (ts ++ [t]).
Proof.
  intros Hp Hs. unfold put_tag2, add_tag2. rewrite (holds_length p h ts Hp).
  rewrite (proj2 (Z.leb_gt _ _)), (proj2 (Z.ltb_ge _ _)) by lia. destruct p as [ph pt], Hp as [Hh Ht]. cbn in Hh, Ht. subst.
  eexists. split; [reflexivity|exact (holds_snoc _ _ t)].
Qed.

Lemma put_opt_holds p h ts t :
  holds p h ts -> 20 + size_of ts + opt_size t <= sizeof_pack ->
  exists p', put_opt_tag2 t p = Some p' /\ holds p' h (ts ++ opt_tags t).
Proof.
  intros Hp Hs. destruct t as [t|]; cbn [opt_size opt_tags put_opt_tag2] in *.
  - apply put_tag2_holds; [done|lia].
  - eexists. split; [done|]. by rewrite app_nil_r.
Qed.

(** The copy of a tag runs over the end exactly for the three sizes the bound forgets. *)
Lemma put_tag2_overrun p t :
  put_tag2 t p = None <-> sizeof_pack - 4 < 20 + pk_length p + tag_len t < sizeof_pack.
Proof.
  unfold put_tag2, add_tag2. destruct (_ <=? _) eqn:E1; to_prop; [split; [done|lia]|].
  destruct (_ <? _) eqn:E2; to_prop; split; (done || lia).
Qed.

(** The tags of a PADO. *)
Definition PADO_tags (cf : pppoe_conf) (t : Z) (v : pppoe_serv_t) (a : list Z) (hu rs sn : option pppoe_tag) (mp : Z) :
    list pppoe_tag :=
  [mk_tag TAG_AC_NAME (conf_ac_name cf)] ++ opt_tags sn ++
  [mk_tag TAG_AC_COOKIE (generate_cookie (conf_cookie_timeout cf) t v a hu rs)] ++ opt_tags hu ++ opt_tags rs ++
  (if mp =? 0 then [] else [mk_tag TAG_PPP_MAX_PAYLOAD (be16 mp)]).

Lemma cookie_length timeout t v a hu rs : Cookie.keyed v -> length (generate_cookie timeout t v a hu rs) = 24%nat.
Proof.
  intros Hv. destruct (Cookie.host_uniq_ok v hu) as [H1 H2]. destruct (Cookie.digest_block v a rs) as [H3 H4].
  apply (Cookie.unseal_seal v a (cookie_digest v a rs ++ host_uniq_hash v hu ++ STORE32L (u32 (t + timeout))) Hv).
  apply Cookie.content_ok; try done. apply Digests.STORE32L_ok.
Qed.

Definition room (cf : pppoe_conf) (hu rs sn : option pppoe_tag) : Z :=
  20 + (4 + Z.of_nat (length (conf_ac_name cf))) + opt_size sn + 28 + opt_size hu + opt_size rs.

Lemma PADO_builds cf t v a hu rs sn mp :
  Cookie.keyed v -> room cf hu rs sn + 6 < sizeof_pack ->
  exists p, PADO_pack cf t v a hu rs sn mp = Some p /\
    holds p (pk_head (setup_header (hwaddr v) a CODE_PADO 0)) (PADO_tags cf t v a hu rs sn mp).
Proof.
  intros Hv. unfold room. pose proof (opt_size_nonneg sn) as N1. pose proof (opt_size_nonneg hu) as N2. pose proof (opt_size_nonneg rs) as N3.
  intros Hr. unfold PADO_pack, PADO_tags. cbv zeta.
  pose proof (cookie_length (conf_cookie_timeout cf) t v a hu rs Hv) as Hck.
  set (ck := generate_cookie _ _ _ _ _ _) in *. clearbody ck. set (h := pk_head _).
  assert (H0 : holds (setup_header (hwaddr v) a CODE_PADO 0) h []) by done.
  apply (put_tag_holds _ _ _ TAG_AC_NAME (conf_ac_name cf)) in H0; [|unfold size_of; cbn; lia]. cbn [app] in H0.
  assert (S1 : size_of [mk_tag TAG_AC_NAME (conf_ac_name cf)] = 4 + Z.of_nat (length (conf_ac_name cf))) by apply size_of_one.
  destruct (put_opt_holds _ _ _ sn H0) as (p1 & -> & H1); [lia|]. cbn [mbind option_bind].
  apply (put_tag_holds _ _ _ TAG_AC_COOKIE ck) in H1; [|rewrite size_of_app, size_of_opt; lia].
  assert (S2 : size_of [mk_tag TAG_AC_COOKIE ck] = 28) by (rewrite size_of_one; unfold tag_len; cbn [tag_data]; lia).
  destruct (put_opt_holds _ _ _ hu H1) as (p2 & -> & H2); [rewrite !size_of_app, size_of_opt; lia|]. cbn [mbind option_bind].
  destruct (put_opt_holds _ _ _ rs H2) as (p3 & -> & H3); [rewrite !size_of_app, !size_of_opt; lia|]. cbn [mbind option_bind].
  eexists. split; [reflexivity|]. rewrite !app_assoc. destruct (mp =? 0); [by rewrite app_nil_r|].
  apply put_tag_holds; [done|]. cbn [be16 length]. rewrite !size_of_app, !size_of_opt. lia.
Qed.

End Frames.

Module Padi.
Import PppChan PppoeDisc Tags Frames.

(** The bytes the echoed tags take. *)
Definition echo_size (a : found) : Z := opt_size (f_host_uniq a) + opt_size (f_relay_sid a) + opt_size (f_service_name a).

Lemma tag_echo cf ic t a :
  echo_size (padi_tag cf ic t a) <= echo_size a + (4 + tag_len t) /\
  echo_size (padr_tag cf ic t a) <= echo_size a + (4 + tag_len t).
Proof.
  assert (0 <= tag_len t) by (unfold tag_len; lia).
  pose proof (opt_size_nonneg (f_host_uniq a)). pose proof (opt_size_nonneg (f_relay_sid a)).
  pose proof (opt_size_nonneg (f_service_name a)). destruct a as [hu rs sn ck tr m mp].
  unfold padi_tag, padr_tag, echo_size in *. cbn [f_host_uniq f_relay_sid f_service_name] in *.
  split; repeat match goal with |- context [if ?b then _ else _] => destruct b end; cbn; lia.
Qed.

Lemma frame_room mf f : bytes_ok f -> disc_frame_ok mf f = true -> 0 <= hdr_length f /\ 20 + hdr_length f <= Z.of_nat (length f).
Proof.
  intros Hb Hf. apply PppChanProps.ses_frame_ok_len in Hf; [|done].
  assert (0 <= hdr_length f).
  { apply of_be16_range; by apply Cookie.byte_at_ok. }
  split; [done|]. unfold PppChanProps.frame_len in Hf. unfold hdr_length in *. cbn [ETH_HLEN sizeof_pppoe_hdr Nat.add] in *. lia.
Qed.

(** The walk over an accepted frame returns, and the tags it keeps fit into the frame. *)
Lemma over_tags_echo mf f (h : pppoe_tag -> found -> found) a :
  bytes_ok f -> disc_frame_ok mf f = true -> echo_size a = 0 ->
  (forall t a, echo_size (h t a) <= echo_size a + (4 + tag_len t)) ->
  exists r, over_tags h f a = Some r /\ (forall a', r = Some a' -> echo_size a' <= hdr_length f).
Proof.
  intros Hb Hf Ha Hh. destruct (frame_room mf f Hb Hf) as [H1 H2].
  destruct (walk_ind h (fun n a => echo_size a <= n) f (hdr_length f) (length f) 0 a) as (r & Hr & HP); try (done || lia).
  { intros n t a0 Hn Hle Ht Hs. specialize (Hh t a0). lia. }
  exists r. split; [done|]. intros a' Ha'. destruct (HP a' Ha') as (n' & Hn' & Hs). lia.
Qed.

Lemma echo_room cf a : room cf (f_host_uniq a) (f_relay_sid a) (f_service_name a) =
  20 + (4 + Z.of_nat (length (conf_ac_name cf))) + 28 + echo_size a.
Proof. unfold room, echo_size. lia. Qed.

Lemma check_padi_serv cf e a s :
  let s' := (check_padi_limit cf e a s).2 in
  des_ks (serv s') = des_ks (serv s) /\ hwaddr (serv s') = hwaddr (serv s) /\ pado_list (serv s') = pado_list (serv s).
Proof.
  unfold check_padi_limit. destruct (_ =? 0); [done|]. unfold expire_padis.
  destruct (drop_old _ _) as [k l]. cbv zeta. destruct s as [v]; destruct v. cbn.
  repeat match goal with |- context [if ?b then _ else _] => destruct b end; done.
Qed.

Lemma answer_padi_safe cf e d src a s :
  Cookie.keyed (serv s) -> mem_ok e = true -> 20 + (4 + Z.of_nat (length (conf_ac_name cf))) + 28 + echo_size a + 6 < sizeof_pack ->
  is_Some (answer_padi cf e d src a s).
Proof.
  intros Hv Hm Hr. unfold answer_padi. cbv zeta. rewrite Hm. cbn [negb].
  destruct (_ =? 0); [|by destruct (existsb _ _); eexists].
  unfold pppoe_send_PADO. rewrite <- echo_room in Hr.
  destruct (PADO_builds cf (tv_sec (now e)) (serv s) src (f_host_uniq a) (f_relay_sid a) (f_service_name a)
    (if mtu (serv s) - 8 <? f_ppp_max_payload a then u16 (mtu (serv s) - 8) else f_ppp_max_payload a) Hv) as (p & -> & _); [lia|].
  by eexists.
Qed.

(** A Host-Uniq tag alone whose copy ends one to three bytes behind the buffer. *)
Lemma answer_padi_overrun cf e src a t s :
  Cookie.keyed (serv s) -> pado_delay e = 0 -> f_host_uniq a = Some t -> f_service_name a = None ->
  20 + (4 + Z.of_nat (length (conf_ac_name cf))) + 28 < sizeof_pack ->
  sizeof_pack - 4 < 20 + (4 + Z.of_nat (length (conf_ac_name cf))) + 28 + tag_len t < sizeof_pack ->
  answer_padi cf e 0 src a s = None.
Proof.
  intros Hv Hd Ht Hs Hroom Hlen. unfold answer_padi. rewrite Hd, Ht, Hs. cbn [Z.eqb negb andb]. cbv zeta.
  unfold pppoe_send_PADO, PADO_pack. cbv zeta. cbn [put_opt_tag2 mbind option_bind].
  pose proof (cookie_length (conf_cookie_timeout cf) (tv_sec (now e)) (serv s) src (Some t) (f_relay_sid a) Hv) as Hck.
  set (ck := generate_cookie _ _ _ _ _ _) in *. clearbody ck. set (h := pk_head (setup_header (hwaddr (serv s)) src CODE_PADO 0)).
  assert (H0 : holds (setup_header (hwaddr (serv s)) src CODE_PADO 0) h []) by done.
  apply (put_tag_holds _ _ _ TAG_AC_NAME (conf_ac_name cf)) in H0; [|unfold size_of; cbn; lia].
  assert (S1 : size_of [mk_tag TAG_AC_NAME (conf_ac_name cf)] = 4 + Z.of_nat (length (conf_ac_name cf))) by apply size_of_one.
  apply (put_tag_holds _ _ _ TAG_AC_COOKIE ck) in H0; [|cbn [app]; lia].
  apply holds_length in H0. rewrite size_of_app in H0. cbn [app] in H0. rewrite S1, size_of_one in H0.
  unfold tag_len in H0 at 1. cbn [tag_data] in H0.
  rewrite (proj2 (put_tag2_overrun _ _)); [done|]. rewrite H0, Hck. lia.
Qed.

(** C40: a PADI that passes the checks of [disc_read] is handled inside the buffers as long
    as the AC name, the cookie and the tags of the frame together leave room in the buffer of
    the PADO; but a Host-Uniq tag that ends one to three bytes behind the buffer is
    copied over its end, because the bound in [add_tag2] leaves out the header of the tag. *)
Theorem padi_memory cf e s f mf :
  Cookie.keyed (serv s) -> mem_ok e = true -> bytes_ok f -> disc_frame_ok mf f = true ->
  let fixed := 20 + (4 + Z.of_nat (length (conf_ac_name cf))) + 28 in
  (fixed + hdr_length f + 6 < sizeof_pack -> is_Some (pppoe_recv_PADI cf e f s)) /\
  (forall src a t, pado_delay e = 0 -> f_host_uniq a = Some t -> f_service_name a = None ->
     fixed < sizeof_pack -> sizeof_pack - 4 < fixed + tag_len t < sizeof_pack ->
     answer_padi cf e 0 src a s = None).
Proof.
  intros Hv Hm Hb Hf fixed. split; [|intros; by eapply answer_padi_overrun].
  intros Hroom. unfold pppoe_recv_PADI. cbv zeta.
  set (s0 := s <| stat_PADI_recv ::= _ |>). pose proof (check_padi_serv cf e (h_source f) s0) as (Hk & _).
  assert (Hv0 : Cookie.keyed (serv (check_padi_limit cf e (h_source f) s0).2)).
  { destruct Hv as [k Hv]. exists k. by rewrite Hk. }
  destruct (_ =? -1); [by eexists|]. destruct (_ || _); [by eexists|]. destruct (too_many _ _); [by eexists|].
  destruct (check_padi_limit cf e (h_source f) s0) as [over s1]. cbn [snd] in *.
  destruct over; [by eexists|]. destruct (negb _); [by eexists|]. destruct (test_limit _ _); [by eexists|].
  set (ic := find_iface _ _). destruct (over_tags_echo mf f (padi_tag cf ic) (nothing (empty (conf_service_name cf))) Hb Hf)
    as (r & -> & Hr); [done|intros; apply tag_echo|]. cbn [mbind option_bind].
  destruct r as [a|]; [|by eexists]. destruct (_ && _); [by eexists|]. specialize (Hr a eq_refl).
  apply answer_padi_safe; [done|done|lia].
Qed.

End Padi.
