(* ===== verification/PppoeConns.v ===== *)
(** PPPoE connections: the theorems on session ids and on the life of a connection.

    [Sids]: the search for a free session id ends, finds one if there is one, and the map is
    kept exactly; what the shift by an [int] does to it.  [Conns]: the steps of the module, the
    invariant that ties the connections, the two tables, the map and the counters
    together, and the handshake. *)

From stdpp Require Import base tactics list numbers option strings gmap relations.
From Stdlib Require Import ZArith Lia.
From S2P Require Import Prelude CLib PppChan Hash Des DesProps PppoeDisc PppoeProps.

Open Scope Z_scope.

Module Sids.
Import PppoeDisc.

(** The bit of an id. *)
Definition sid_free (map : list Z) (id : Z) : bool :=
  match map !! Z.to_nat (id / 64) with Some w => Z.testbit w (id mod 64) | None => false end.

Definition map_wf (map : list Z) : Prop := Z.of_nat (length map) = SID_WORDS.

Lemma ffsl_some w b : ffsl w = Some b -> 0 <= b < 64 /\ Z.testbit w b = true.
Proof.
  intros H. apply List.find_some in H as [Hin Hb]. apply list_elem_of_In, list_elem_of_fmap in Hin as (i & -> & Hi).
  apply list_elem_of_In, in_seq in Hi. split; [lia|done].
Qed.

Lemma ffsl_none w b : ffsl w = None -> 0 <= b < 64 -> Z.testbit w b = false.
Proof.
  intros H Hb. eapply List.find_none in H; [exact H|]. apply list_elem_of_In, list_elem_of_fmap.
  exists (Z.to_nat b). split; [lia|]. apply list_elem_of_In, in_seq. lia.
Qed.

Lemma id_split i b : 0 <= b < 64 -> (i * 64 + b) / 64 = i /\ (i * 64 + b) mod 64 = b.
Proof. intros. Z.div_mod_to_equations. lia. Qed.

Lemma sid_word map id : 0 <= id < SID_MAX -> map_wf map -> exists w, map !! Z.to_nat (id / 64) = Some w.
Proof.
  intros Hid Hm. apply lookup_lt_is_Some_2. unfold map_wf, SID_WORDS, SID_MAX in *. change (65536 / 8 / 8) with 1024 in Hm.
  Z.div_mod_to_equations. lia.
Qed.

(** A word changed in one bit changes one id. *)
Lemma insert_bit map id w w' b j :
  0 <= id -> 0 <= j -> map !! Z.to_nat (id / 64) = Some w ->
  (forall k, 0 <= k < 64 -> Z.testbit w' k = if k =? id mod 64 then b else Z.testbit w k) ->
  sid_free (<[Z.to_nat (id / 64) := w']> map) j = if j =? id then b else sid_free map j.
Proof.
  intros Hid Hj Hw Hbits. unfold sid_free. pose proof (Z.mod_pos_bound j 64 ltac:(lia)) as Hm.
  destruct (decide (j / 64 = id / 64)) as [E|E].
  - rewrite E, list_lookup_insert_eq by (by eapply lookup_lt_Some). rewrite Hw, Hbits by done.
    destruct (j =? id) eqn:E1; to_prop; [subst j; by rewrite Z.eqb_refl|].
    destruct (_ =? _) eqn:E2; to_prop; [|done]. pose proof (Z.div_mod j 64). pose proof (Z.div_mod id 64). lia.
  - rewrite list_lookup_insert_ne.
    + destruct (j =? id) eqn:E1; to_prop; [by subst|done].
    + pose proof (Z.div_pos id 64). pose proof (Z.div_pos j 64). lia.
Qed.

Definition dist (start idx : Z) : Z := (start - idx - 1) mod SID_WORDS + 1.

(** What the search returns. *)
Definition found_sid (map : list Z) (start idx : Z) (r : Z * list Z * Z) : Prop :=
  let '(id, map', idx') := r in
  0 <= idx' < SID_WORDS /\
  ((0 <= id < SID_MAX /\ sid_free map id = true /\ map_wf map' /\
    (forall j, 0 <= j -> sid_free map' j = if j =? id then false else sid_free map j)) \/
   (id = 0 /\ map' = map /\
    forall k b, 0 <= k < dist start idx -> 0 <= b < 64 -> sid_free map ((idx + k) mod SID_WORDS * 64 + b) = false)).

Lemma find_sid_found fuel start map idx :
  map_wf map -> 0 <= start < SID_WORDS -> 0 <= idx < SID_WORDS -> dist start idx <= Z.of_nat fuel ->
  exists r, find_sid fuel start map idx = Some r /\ found_sid map start idx r.
Proof.
  intros Hm Hs. revert idx. induction fuel as [|fuel IH]; intros idx Hi Hd.
  { unfold dist in Hd. pose proof (Z.mod_pos_bound (start - idx - 1) SID_WORDS ltac:(done)). lia. }
  cbn [find_sid]. assert (exists w, map !! Z.to_nat idx = Some w) as [w Hw].
  { apply lookup_lt_is_Some_2. unfold map_wf in Hm. lia. }
  rewrite Hw. cbn [mbind option_bind].
  set (next := if idx + 1 =? SID_WORDS then 0 else idx + 1).
  assert (Hnext : 0 <= next < SID_WORDS) by (subst next; destruct (_ =? _) eqn:E; to_prop; [done|lia]).
  assert (Hmod : next = (idx + 1) mod SID_WORDS).
  { subst next. destruct (_ =? _) eqn:E; to_prop; [by rewrite E, Z_mod_same_full|rewrite Z.mod_small; lia]. }
  destruct (ffsl w) as [b|] eqn:Hb.
  - apply ffsl_some in Hb as [Hb Hbit]. destruct (id_split idx b Hb) as [D1 D2].
    assert (Hid : 0 <= idx * 64 + b < SID_MAX) by (unfold SID_WORDS, SID_MAX in *; change (65536 / 8 / 8) with 1024 in *; lia).
    eexists. split; [reflexivity|]. rewrite u16_small by apply Hid. split; [done|]. left. split_and!; [lia|lia| | |].
    + unfold sid_free. by rewrite D1, D2, Hw.
    + unfold map_wf. by rewrite length_insert.
    + intros j Hj. rewrite <- D1 at 1. apply insert_bit with w; [lia|done|by rewrite D1|]. intros k Hk. rewrite D2.
      destruct (k =? b) eqn:E; to_prop; [subst k; apply Z.clearbit_eq|apply Z.clearbit_neq; lia].
  - assert (Hempty : forall b, 0 <= b < 64 -> sid_free map (idx * 64 + b) = false).
    { intros b' Hb'. destruct (id_split idx b' Hb') as [D1 D2]. unfold sid_free. rewrite D1, D2, Hw. by apply ffsl_none. }
    assert (Hidx : (idx + 0) mod SID_WORDS = idx) by (rewrite Z.add_0_r; by apply Z.mod_small).
    destruct (next =? start) eqn:E; to_prop.
    + eexists. split; [reflexivity|]. split; [done|]. right. split_and!; [done|done|]. intros k b Hk.
      assert (dist start idx = 1) as Hd1.
      { unfold dist. rewrite <- E, Hmod. rewrite <- Zminus_mod_idemp_l. rewrite Zminus_mod_idemp_l.
        replace ((idx + 1) mod SID_WORDS - idx - 1) with ((idx + 1) mod SID_WORDS - (idx + 1)) by lia.
        rewrite Zminus_mod_idemp_l, Z.sub_diag. done. }
      assert (k = 0) as -> by lia. rewrite Hidx. by apply Hempty.
    + assert (Hdn : dist start idx = dist start next + 1).
      { unfold dist. rewrite Hmod. clear -Hs Hi E Hmod. rewrite Hmod in E. revert E. clear Hmod.
        unfold SID_WORDS, SID_MAX in *. change (65536 / 8 / 8) with 1024 in *. Z.div_mod_to_equations. lia. }
      destruct (IH next Hnext ltac:(lia)) as ([[id map'] idx'] & Hr & Hi' & Hf). eexists. split; [exact Hr|].
      split; [done|]. destruct Hf as [Hf|(H1 & H2 & H3)]; [by left|right]. split_and!; [done|done|].
      intros k b Hk Hb'. destruct (decide (k = 0)) as [->|Hk0]; [rewrite Hidx; by apply Hempty|].
      specialize (H3 (k - 1) b ltac:(lia) Hb'). rewrite Hmod, Zplus_mod_idemp_l in H3.
      by replace (idx + 1 + (k - 1)) with (idx + k) in H3 by lia.
Qed.

Lemma take_sid_found s :
  map_wf (sid_map s) -> 0 <= sid_idx s < SID_WORDS ->
  exists id s', take_sid s = Some (id, s') /\ 0 <= sid_idx s' < SID_WORDS /\ map_wf (sid_map s') /\
    s' = s <| sid_map := sid_map s' |> <| sid_idx := sid_idx s' |> /\
    ((0 <= id < SID_MAX /\ sid_free (sid_map s) id = true /\
      forall j, 0 <= j -> sid_free (sid_map s') j = if j =? id then false else sid_free (sid_map s) j) \/
     (id = 0 /\ sid_map s' = sid_map s /\ forall j, 0 <= j < SID_MAX -> sid_free (sid_map s) j = false)).
Proof.
  intros Hm Hi. unfold take_sid.
  destruct (find_sid_found (Z.to_nat SID_WORDS) (sid_idx s) (sid_map s) (sid_idx s)) as ([[id m] idx] & -> & Hidx & Hf);
    [done|done|done| |].
  { unfold dist. replace (_ - _ - 1) with (-1) by lia. done. }
  cbn [mbind option_bind]. eexists id, _. split; [reflexivity|]. destruct s. cbn in *. split; [done|].
  destruct Hf as [(H1 & H2 & H3 & H4)|(-> & -> & H3)]; (split; [done|]); (split; [done|]); [left|right]; (split; [done|]).
  - done.
  - split; [done|]. intros j Hj.
    assert (Hk : 0 <= (j / 64 - sid_idx0) mod SID_WORDS < dist sid_idx0 sid_idx0).
    { unfold dist. replace (_ - _ - 1) with (-1) by lia. apply Z.mod_pos_bound. done. }
    specialize (H3 _ (j mod 64) Hk (Z.mod_pos_bound j 64 ltac:(lia))).
    rewrite Zplus_mod_idemp_r in H3. replace (sid_idx0 + (j / 64 - sid_idx0)) with (j / 64) in H3 by lia.
    rewrite (Z.mod_small (j / 64)) in H3.
    + rewrite Z.mul_comm, <- Z.div_mod in H3 by lia. exact H3.
    + unfold SID_WORDS, SID_MAX in *. change (65536 / 8 / 8) with 1024. Z.div_mod_to_equations. lia.
Qed.

(** Giving an id back, where the shift is defined. *)
Lemma put_sid_frees id map map' :
  map_wf map -> 0 <= id < SID_MAX -> put_sid id map = Some map' ->
  map_wf map' /\ forall j, 0 <= j -> sid_free map' j = if j =? id then true else sid_free map j.
Proof.
  intros Hm Hid. unfold put_sid. destruct (sid_word map id Hid Hm) as [w Hw]. rewrite Hw. cbn [mbind option_bind].
  destruct (31 <=? _) eqn:E; [done|]. to_prop. intros [= <-]. split; [unfold map_wf; by rewrite length_insert|].
  intros j Hj. apply insert_bit with w; [lia|done|done|]. intros k Hk.
  rewrite Z.lor_spec, Z.shiftl_spec by lia. pose proof (Z.mod_pos_bound id 64 ltac:(lia)).
  destruct (k =? id mod 64) eqn:E1; to_prop; [subst k; rewrite Z.sub_diag; apply orb_true_r|].
  destruct (decide (k < id mod 64)); [by rewrite (Z.testbit_neg_r 1), orb_false_r by lia|].
  rewrite (Z.bits_above_log2 1), orb_false_r; [done|lia|cbn; lia].
Qed.

Lemma put_sid_defined id map :
  map_wf map -> 0 <= id < SID_MAX -> is_Some (put_sid id map) <-> id mod 64 < 31.
Proof.
  intros Hm Hid. unfold put_sid. destruct (sid_word map id Hid Hm) as [w ->]. cbn [mbind option_bind].
  destruct (31 <=? _) eqn:E; to_prop; split; try (intros [? [=]]; fail); [lia|done|by eexists].
Qed.

Lemma init_map : map_wf sid_map_init /\ sid_free sid_map_init 0 = false.
Proof. by vm_compute. Qed.

(** What the shift gives on x86-64: the tally is taken modulo 32, and the [int] is extended
    with its sign. *)
Definition shl_x86 (n : Z) : Z := if n mod 32 =? 31 then 2 ^ 64 - 2 ^ 31 else Z.shiftl 1 (n mod 32).
Definition put_sid_x86 (id : Z) (map : list Z) : option (list Z) :=
  w ← map !! Z.to_nat (id / 64); Some (<[Z.to_nat (id / 64) := Z.lor w (shl_x86 (id mod 64))]> map).

Lemma ones_bits k : 0 <= k < 64 -> Z.testbit (2 ^ 64 - 2 ^ 31) k = (31 <=? k).
Proof.
  intros Hk. replace (2 ^ 64 - 2 ^ 31) with (Z.shiftl (Z.ones 33) 31) by done.
  rewrite Z.shiftl_spec by lia. destruct (31 <=? k) eqn:E; to_prop; [apply Z.ones_spec_low; lia|by apply Z.testbit_neg_r; lia].
Qed.

Lemma one_bit n k : 0 <= n -> 0 <= k -> Z.testbit (Z.shiftl 1 n) k = (k =? n).
Proof.
  intros Hn Hk. rewrite Z.shiftl_spec by done. destruct (k =? n) eqn:E; to_prop; [subst; by rewrite Z.sub_diag|].
  destruct (decide (k < n)); [by apply Z.testbit_neg_r; lia|]. apply Z.bits_above_log2; [lia|cbn; lia].
Qed.

(** [disconnect] gives the session id back with a shift of an [int].  For the ids whose
    remainder by 64 is below 31 the map is then exact; for the others the C standard does
    not define the shift.  On x86-64 it frees the id 32 below, which another session may
    hold, and loses the id itself; for the remainders 31 and 63 it frees all 33 ids from the
    31st of the word on. *)
Theorem sid_release id map :
  map_wf map -> 0 <= id < SID_MAX ->
  (is_Some (put_sid id map) <-> id mod 64 < 31) /\
  (forall map', put_sid id map = Some map' ->
     forall j, 0 <= j -> sid_free map' j = if j =? id then true else sid_free map j) /\
  exists map', put_sid_x86 id map = Some map' /\
    (32 <= id mod 64 < 63 -> forall j, 0 <= j -> sid_free map' j = if j =? id - 32 then true else sid_free map j) /\
    (id mod 64 = 31 \/ id mod 64 = 63 -> forall j, 0 <= j -> j / 64 = id / 64 ->
       sid_free map' j = (31 <=? j mod 64) || sid_free map j).
Proof.
  intros Hm Hid. split; [by apply put_sid_defined|]. split; [intros map' H; by apply put_sid_frees|].
  unfold put_sid_x86. destruct (sid_word map id Hid Hm) as [w Hw]. rewrite Hw. cbn [mbind option_bind].
  eexists. split; [reflexivity|]. split.
  - intros Hr j Hj. assert (D : id / 64 = (id - 32) / 64) by (Z.div_mod_to_equations; lia). rewrite D in *.
    apply insert_bit with w; [Z.div_mod_to_equations; lia|done|done|]. intros k Hk. rewrite Z.lor_spec. unfold shl_x86.
    assert (M : (id mod 64) mod 32 = (id - 32) mod 64) by (Z.div_mod_to_equations; lia). rewrite M.
    rewrite (proj2 (Z.eqb_neq _ 31)) by (Z.div_mod_to_equations; lia).
    rewrite one_bit by (Z.div_mod_to_equations; lia). destruct (k =? _); [apply orb_true_r|apply orb_false_r].
  - intros Hr j Hj D. unfold sid_free. rewrite D, list_lookup_insert_eq by (by eapply lookup_lt_Some). rewrite Hw, Z.lor_spec.
    unfold shl_x86. rewrite (proj2 (Z.eqb_eq ((id mod 64) mod 32) 31)) by (by destruct Hr as [-> | ->]).
    rewrite ones_bits by (apply Z.mod_pos_bound; lia). apply orb_comm.
Qed.

End Sids.

(** * The registry of connections

    What the module promises about its connections does not depend on the packets.  [reg] is
    the part of the state it is about, [rstep] what may happen to it, and [inv] the
    invariant. *)

Module Registry.
Import PppoeDisc Sids.

Record rconn := mk_rconn {
  r_sid : Z; r_addr : list Z; r_cookie : list Z; r_ppp : bool; r_ss : Z; r_live : bool }.

Record reg := mk_reg {
  r_conns : list rconn;
  r_map : list Z;
  r_idx : Z;
  r_starting : Z;
  r_session : Z;
  r_active : Z;
  r_calls : list (nat * conn_call);
  r_cnt : Z;
  r_cookies : gmap (list Z) nat;
  r_macs : gmap Z nat;
}.

Definition rget (r : reg) (i : nat) : option rconn := c ← r_conns r !! i; if r_live c then Some c else None.

Definition mac_key (c : rconn) : Z := key64 (r_addr c) [] (r_sid c).

(** A connection as the allocation leaves it. *)
Definition r_open (c : rconn) (map : list Z) (idx : Z) (r : reg) : reg :=
  let i := length (r_conns r) in
  r <| r_conns ::= fun l => l ++ [c] |> <| r_map := map |> <| r_idx := idx |>
    <| r_calls ::= fun l => l ++ [(i, Call_connect)] |> <| r_cnt ::= fun n => u32 (n + 1) |>
    <| r_cookies ::= table_insert (r_cookie c) i |> <| r_macs ::= table_insert (mac_key c) i |>.

Definition r_put (i : nat) (c : rconn) (r : reg) : reg := r <| r_conns ::= <[i := c]> |>.

(** Leaving the counter of sessions that start or run. *)
Definition r_leave (c : rconn) (r : reg) : reg :=
  if r_ss c =? 1 then r <| r_session ::= fun n => u32 (n - 1) |>
  else if r_ss c =? 0 then r <| r_starting ::= fun n => u32 (n - 1) |>
  else r.

Definition r_disconnect (i : nat) (c : rconn) (map : list Z) (r : reg) : reg :=
  let r := if r_ppp c then r <| r_active ::= fun n => u32 (n - 1) |> else r in
  let r := r_leave c r in
  (r_put i (c <| r_ppp := false |> <| r_ss := 2 |> <| r_live := false |>) r)
    <| r_map := map |> <| r_cookies ::= delete (r_cookie c) |> <| r_macs ::= delete (mac_key c) |>
    <| r_cnt ::= fun n => u32 (n - 1) |> <| r_calls ::= filter (fun x => x.1 <> i) |>.

Definition r_connect (i : nat) (c : rconn) (r : reg) : reg :=
  (r_put i (c <| r_ppp := true |>) r) <| r_active ::= fun n => u32 (n + 1) |>.

Definition r_finish (i : nat) (c : rconn) (r : reg) : reg :=
  (r_put i (c <| r_ppp := false |> <| r_ss := 2 |>) (r_leave c r))
    <| r_active ::= fun n => u32 (n - 1) |> <| r_calls ::= fun l => l ++ [(i, Call_disconnect)] |>.

Definition r_start (i : nat) (c : rconn) (r : reg) : reg :=
  (r_put i (c <| r_ss := 1 |>) r) <| r_starting ::= fun n => u32 (n - 1) |> <| r_session ::= fun n => u32 (n + 1) |>.

(** The next call of connection [i] is taken from the queue. *)
Definition dequeue (i : nat) (x : conn_call) (l l' : list (nat * conn_call)) : Prop :=
  exists l1 l2, l = l1 ++ (i, x) :: l2 /\ l' = l1 ++ l2 /\ Forall (fun y => y.1 <> i) l1.

Inductive rstep : reg -> reg -> Prop :=
| R_open r c map idx :
    r_ppp c = false -> r_ss c = 0 -> r_live c = true -> 0 < r_sid c < SID_MAX -> length (r_addr c) = 6%nat ->
    sid_free (r_map r) (r_sid c) = true -> map_wf map -> 0 <= idx < SID_WORDS ->
    (forall j, 0 <= j -> sid_free map j = if j =? r_sid c then false else sid_free (r_map r) j) ->
    r_cookies r !! r_cookie c = None ->
    rstep r (r_open c map idx r)
| R_idx r idx : 0 <= idx < SID_WORDS -> rstep r (r <| r_idx := idx |>)
| R_padt r i : is_Some (rget r i) -> rstep r (r <| r_calls ::= fun l => l ++ [(i, Call_disconnect)] |>)
| R_connect r i c l :
    rget r i = Some c -> dequeue i Call_connect (r_calls r) l ->
    rstep r (r_connect i c (r <| r_calls := l |> <| r_starting ::= fun n => u32 (n + 1) |>))
| R_connect_fails r i c l map :
    rget r i = Some c -> dequeue i Call_connect (r_calls r) l -> put_sid (r_sid c) (r_map r) = Some map ->
    rstep r (r_disconnect i c map (r <| r_calls := l |> <| r_starting ::= fun n => u32 (n + 1) |>))
| R_disconnect r i c l map :
    rget r i = Some c -> dequeue i Call_disconnect (r_calls r) l -> put_sid (r_sid c) (r_map r) = Some map ->
    rstep r (r_disconnect i c map (r <| r_calls := l |>))
| R_close r i c map :
    rget r i = Some c -> r_ppp c = false -> (i, Call_connect) ∉ r_calls r -> put_sid (r_sid c) (r_map r) = Some map ->
    rstep r (r_disconnect i c map r)
| R_started r i c : rget r i = Some c -> r_ppp c = true -> r_ss c = 0 -> rstep r (r_start i c r)
| R_finished r i c : rget r i = Some c -> r_ppp c = true -> rstep r (r_finish i c r).

(** ** The invariant *)

Definition at_ (l : list rconn) (p : rconn -> bool) (i : nat) : bool :=
  match l !! i with Some c => r_live c && p c | None => false end.
Definition pending (calls : list (nat * conn_call)) (i : nat) : bool := bool_decide ((i, Call_connect) ∈ calls).
Definition total (r : reg) (p : nat -> rconn -> bool) : Z :=
  tally (fun i => at_ (r_conns r) (p i) i) (length (r_conns r)).
Definition queue_of (i : nat) (calls : list (nat * conn_call)) : list (nat * conn_call) := filter (fun y => y.1 = i) calls.

Record inv (r : reg) : Prop := {
  v_map : map_wf (r_map r) /\ 0 <= r_idx r < SID_WORDS /\ sid_free (r_map r) 0 = false;
  v_sid : forall i c, rget r i = Some c -> 0 < r_sid c < SID_MAX /\ sid_free (r_map r) (r_sid c) = false /\ length (r_addr c) = 6%nat;
  v_inj : forall i j c d, rget r i = Some c -> rget r j = Some d -> r_sid c = r_sid d -> i = j;
  v_cookie : forall k i, r_cookies r !! k = Some i <-> exists c, rget r i = Some c /\ r_cookie c = k;
  v_mac : forall k i, r_macs r !! k = Some i <-> exists c, rget r i = Some c /\ mac_key c = k;
  v_calls : forall i x, (i, x) ∈ r_calls r -> is_Some (rget r i);
  v_queue : forall i, (i, Call_connect) ∉ tail (queue_of i (r_calls r));
  v_pend : forall i c, (i, Call_connect) ∈ r_calls r -> rget r i = Some c -> r_ppp c = false /\ r_ss c = 0;
  v_ss : forall i c, rget r i = Some c -> r_ss c = 0 \/ r_ss c = 1 \/ r_ss c = 2;
  v_cnt : r_cnt r = total r (fun _ _ => true);
  v_act : r_active r = total r (fun _ => r_ppp);
  v_ses : r_session r = total r (fun _ c => r_ss c =? 1);
  v_start : r_starting r = total r (fun i c => (r_ss c =? 0) && negb (pending (r_calls r) i));
}.

Lemma at_rget r p i : at_ (r_conns r) p i = match rget r i with Some c => p c | None => false end.
Proof. unfold at_, rget. destruct (_ !! i) as [c|]; [|done]. cbn. by destruct (r_live c). Qed.

(** Every counter is far from wrapping. *)
Lemma total_range r p : inv r -> 0 <= total r p <= SID_MAX.
Proof.
  intros Hi. split; [apply tally_nonneg|].
  transitivity (tally (fun i => at_ (r_conns r) (fun _ => true) i) (length (r_conns r))).
  { apply tally_mono. intros i. rewrite !at_rget. by destruct (rget r i). }
  apply (tally_bound _ _ (fun i => match rget r i with Some c => r_sid c | None => 0 end)); [done| |].
  - intros i. rewrite at_rget. destruct (rget r i) as [c|] eqn:E; [|done]. intros _. by apply (v_sid r Hi i).
  - intros i j. rewrite !at_rget. destruct (rget r i) as [c|] eqn:E1; [|done]. destruct (rget r j) as [d|] eqn:E2; [|done].
    intros _ _. by apply (v_inj r Hi).
Qed.

Lemma u32_count r p : inv r -> u32 (total r p + 1) = total r p + 1.
Proof. intros Hi. pose proof (total_range r p Hi). unfold SID_MAX in *. apply u32_small. width_lia. Qed.

Lemma u32_pred r p i c :
  inv r -> rget r i = Some c -> p i c = true -> u32 (total r p - 1) = total r p - 1.
Proof.
  intros Hi Hc Hp. pose proof (total_range r p Hi) as Hr. apply u32_small.
  assert (1 <= total r p); [|unfold SID_MAX in *; width_lia].
  assert (Hlt : (i < length (r_conns r))%nat).
  { unfold rget in Hc. destruct (r_conns r !! i) eqn:E; [|done]. by eapply lookup_lt_Some. }
  assert (Hat : at_ (r_conns r) (p i) i = true) by by rewrite at_rget, Hc.
  by apply (tally_pos _ i).
Qed.

(** ** Changing one connection *)

Lemma rget_lt r i c : rget r i = Some c -> (i < length (r_conns r))%nat.
Proof. unfold rget. destruct (r_conns r !! i) eqn:E; [|done]. intros _. by eapply lookup_lt_Some. Qed.
Lemma rget_live r i c : rget r i = Some c -> r_live c = true.
Proof. unfold rget. destruct (r_conns r !! i) as [d|]; [|done]. cbn. destruct (r_live d) eqn:E; [|done]. by intros [= <-]. Qed.

Lemma rget_put r i c c' j conns :
  rget r i = Some c -> conns = <[i := c']> (r_conns r) ->
  (d ← conns !! j; if r_live d then Some d else None) =
  if decide (j = i) then if r_live c' then Some c' else None else rget r j.
Proof.
  intros Hc ->. destruct (decide (j = i)) as [->|Hne].
  - rewrite list_lookup_insert_eq by (by eapply rget_lt). done.
  - by rewrite list_lookup_insert_ne by done.
Qed.

Lemma total_put r r' p p' i c c' :
  rget r i = Some c -> r_conns r' = <[i := c']> (r_conns r) ->
  (forall j d, j <> i -> rget r j = Some d -> p' j d = p j d) ->
  total r' p' = total r p - Z.b2z (p i c) + Z.b2z (r_live c' && p' i c').
Proof.
  intros Hc Hr Hp. unfold total. rewrite Hr, length_insert. pose proof (rget_lt r i c Hc) as Hlt.
  rewrite (tally_upd (fun i => at_ (r_conns r) (p i) i) _ i) by
    (done || (intros j Hj; unfold at_; rewrite list_lookup_insert_ne by done; pose proof (Hp j) as Hpj;
      unfold rget in Hpj; destruct (r_conns r !! j) as [d|]; [|done]; cbn in Hpj;
      destruct (r_live d) eqn:E; [|done]; cbn; symmetry; by apply Hpj)).
  rewrite at_rget, Hc. unfold at_. rewrite list_lookup_insert_eq by done. done.
Qed.

(** ** The queue *)

Lemma dequeue_queue i x l l' :
  dequeue i x l l' -> queue_of i l = (i, x) :: queue_of i l' /\ forall j, j <> i -> queue_of j l = queue_of j l'.
Proof.
  intros (l1 & l2 & -> & -> & Hf). unfold queue_of. split.
  - rewrite !filter_app, filter_cons_True by done.
    assert (filter (fun y : nat * conn_call => y.1 = i) l1 = []) as ->; [|done].
    clear -Hf. induction Hf as [|y l Hy _ IH]; [done|]. by rewrite filter_cons_False.
  - intros j Hj. rewrite !filter_app, filter_cons_False by (cbn; congruence). done.
Qed.

Lemma in_queue i x l : (i, x) ∈ l <-> (i, x) ∈ queue_of i l.
Proof. unfold queue_of. rewrite list_elem_of_filter. cbn. intuition. Qed.

Lemma dequeue_in i x l l' j y : dequeue i x l l' -> (j, y) ∈ l' -> (j, y) ∈ l.
Proof. intros (l1 & l2 & -> & -> & _). rewrite !elem_of_app, elem_of_cons. intuition. Qed.

Lemma dequeue_pending i x l l' j :
  (forall j, (j, Call_connect) ∉ tail (queue_of j l)) -> dequeue i x l l' ->
  pending l' j = if decide (j = i) then false else pending l j.
Proof.
  intros Hq Hd. destruct (dequeue_queue i x l l' Hd) as [H1 H2]. unfold pending. destruct (decide (j = i)) as [->|Hj].
  - apply bool_decide_eq_false. rewrite in_queue. specialize (Hq i). by rewrite H1 in Hq.
  - apply bool_decide_ext. by rewrite in_queue, (in_queue j _ l), H2.
Qed.

Lemma dequeue_tail i x l l' :
  (forall j, (j, Call_connect) ∉ tail (queue_of j l)) -> dequeue i x l l' ->
  forall j, (j, Call_connect) ∉ tail (queue_of j l').
Proof.
  intros Hq Hd j. destruct (dequeue_queue i x l l' Hd) as [H1 H2]. destruct (decide (j = i)) as [->|Hj].
  - specialize (Hq i). rewrite H1 in Hq. cbn in Hq. intros Hin. apply Hq. by destruct (queue_of i l'); [|right].
  - by rewrite <- H2.
Qed.

Lemma tail_filter i l j :
  (forall j, (j, Call_connect) ∉ tail (queue_of j l)) ->
  (j, Call_connect) ∉ tail (queue_of j (filter (fun x : nat * conn_call => x.1 <> i) l)).
Proof.
  intros Hq. unfold queue_of. destruct (decide (j = i)) as [->|Hj].
  - intros Hin. assert ((i, Call_connect) ∈ filter (fun x : nat * conn_call => x.1 <> i) l) as Hl.
    { apply in_queue. unfold queue_of. destruct (filter _ (filter _ l)); [done|by right]. }
    apply list_elem_of_filter in Hl as [Hl _]. done.
  - rewrite list_filter_filter. rewrite (list_filter_iff _ (fun y : nat * conn_call => y.1 = j)) by (intros [k y]; cbn; naive_solver).
    apply Hq.
Qed.

(** ** The keys of the second table *)

Lemma key64_sum a b id :
  is_u16 id -> exists y, key64 a b id = y * 65536 + id /\ ((6 <= length a)%nat -> y = u64 (le_of (take 6 a) * 65536) / 65536).
Proof.
  intros Hid. unfold key64. change 65535 with (Z.ones 16). rewrite Z.ldiff_ones_r by lia.
  rewrite DesProps.Blocks.lor_shift by (lia || apply Hid). eexists. split; [reflexivity|]. intros Ha.
  rewrite Z.shiftr_div_pow2 by lia. change (2 ^ 16) with 65536. f_equal. rewrite Z.shiftl_mul_pow2 by lia.
  assert (Hle : forall l m, le_of (l ++ m) = le_of l + 256 ^ Z.of_nat (length l) * le_of m).
  { induction l as [|x l IH]; intros m; [cbn; lia|]. cbn [app le_of length]. rewrite IH, Nat2Z.inj_succ, Z.pow_succ_r by lia. lia. }
  rewrite Hle, length_take, Nat.min_l by lia. unfold u64. change (2 ^ 16) with 65536. change (256 ^ Z.of_nat 6) with (2 ^ 48).
  replace ((le_of (take 6 a) + 2 ^ 48 * le_of b) * 65536) with (le_of (take 6 a) * 65536 + le_of b * 2 ^ 64) by lia.
  apply Z_mod_plus_full.
Qed.

(** What lies behind the address does not matter. *)
Lemma key64_behind a b b' id : is_u16 id -> (6 <= length a)%nat -> key64 a b id = key64 a b' id.
Proof.
  intros Hid Ha. destruct (key64_sum a b id Hid) as (y & -> & Hy). destruct (key64_sum a b' id Hid) as (y' & -> & Hy').
  by rewrite Hy, Hy'.
Qed.

Lemma mac_key_sid c d : is_u16 (r_sid c) -> is_u16 (r_sid d) -> mac_key c = mac_key d -> r_sid c = r_sid d.
Proof.
  intros Hc Hd. unfold mac_key. destruct (key64_sum (r_addr c) [] (r_sid c) Hc) as (y & -> & _).
  destruct (key64_sum (r_addr d) [] (r_sid d) Hd) as (y' & -> & _). width_lia.
Qed.

(** ** The steps keep the invariant *)

Lemma rget_conns r r' : r_conns r' = r_conns r -> forall i, rget r' i = rget r i.
Proof. intros H i. unfold rget. by rewrite H. Qed.

(** A live connection changed in its flags. *)
Lemma conns_upd r r' i c c' :
  inv r -> rget r i = Some c -> r_conns r' = <[i := c']> (r_conns r) ->
  r_live c' = true -> r_sid c' = r_sid c -> r_addr c' = r_addr c -> r_cookie c' = r_cookie c ->
  r_map r' = r_map r -> r_idx r' = r_idx r -> r_cookies r' = r_cookies r -> r_macs r' = r_macs r -> r_cnt r' = r_cnt r ->
  (r_ss c' = 0 \/ r_ss c' = 1 \/ r_ss c' = 2) ->
  (forall j x, (j, x) ∈ r_calls r' -> (j, x) ∈ r_calls r \/ j = i) ->
  (forall j, (j, Call_connect) ∉ tail (queue_of j (r_calls r'))) ->
  (forall j, pending (r_calls r') j = if decide (j = i) then false else pending (r_calls r) j) ->
  r_active r' = r_active r - Z.b2z (r_ppp c) + Z.b2z (r_ppp c') ->
  r_session r' = r_session r - Z.b2z (r_ss c =? 1) + Z.b2z (r_ss c' =? 1) ->
  r_starting r' = r_starting r - Z.b2z ((r_ss c =? 0) && negb (pending (r_calls r) i)) + Z.b2z (r_ss c' =? 0) ->
  inv r'.
Proof.
  intros Hi Hc Hconns Hlive Hsid Haddr Hck Hmap Hidx Hcks Hmacs Hcnt Hss Hcalls Hq Hpend Ha Hs Hst.
  assert (Hg : forall j, rget r' j = if decide (j = i) then Some c' else rget r j).
  { intros j. unfold rget at 1. rewrite (rget_put r i c c' j _ Hc Hconns), Hlive. done. }
  assert (Hkey : mac_key c' = mac_key c) by (unfold mac_key; by rewrite Haddr, Hsid).
  assert (Hold : forall j d, rget r' j = Some d -> exists d', rget r j = Some d' /\ r_sid d = r_sid d' /\
    r_addr d = r_addr d' /\ r_cookie d = r_cookie d' /\ mac_key d = mac_key d').
  { intros j d. rewrite Hg. destruct (decide (j = i)) as [->|]; [intros [= <-]; by exists c|intros Hd; by exists d]. }
  assert (Hnew : forall j d, rget r j = Some d -> exists d', rget r' j = Some d' /\ r_cookie d' = r_cookie d /\ mac_key d' = mac_key d).
  { intros j d Hd. rewrite Hg. destruct (decide (j = i)) as [->|]; [exists c'; simplify_eq; done|by exists d]. }
  split; rewrite ?Hmap, ?Hidx, ?Hcks, ?Hmacs, ?Hcnt.
  - apply (v_map r Hi).
  - intros j d Hd. destruct (Hold j d Hd) as (d' & H1 & -> & -> & _). by apply (v_sid r Hi j).
  - intros j k d e Hd He. destruct (Hold j d Hd) as (d' & H1 & -> & _). destruct (Hold k e He) as (e' & H2 & -> & _). by apply (v_inj r Hi).
  - intros k j. rewrite (v_cookie r Hi). split.
    + intros (d & Hd & <-). destruct (Hnew j d Hd) as (d' & ? & ? & _). by exists d'.
    + intros (d & Hd & <-). destruct (Hold j d Hd) as (d' & ? & _ & _ & ? & _). by exists d'.
  - intros k j. rewrite (v_mac r Hi). split.
    + intros (d & Hd & <-). destruct (Hnew j d Hd) as (d' & ? & _ & ?). by exists d'.
    + intros (d & Hd & <-). destruct (Hold j d Hd) as (d' & ? & _ & _ & _ & ?). by exists d'.
  - intros j x Hx. rewrite Hg. destruct (decide (j = i)); [done|]. destruct (Hcalls j x Hx) as [?|?]; [by eapply v_calls|done].
  - done.
  - intros j d Hx. rewrite Hg. specialize (Hpend j). rewrite <- (bool_decide_eq_true ((j, Call_connect) ∈ r_calls r')) in Hx.
    unfold pending in Hpend. rewrite Hx in Hpend. destruct (decide (j = i)); [done|]. symmetry in Hpend.
    apply bool_decide_eq_true in Hpend. by apply (v_pend r Hi).
  - intros j d. rewrite Hg. destruct (decide (j = i)); [by intros [= <-]|apply (v_ss r Hi)].
  - rewrite (total_put r r' (fun _ _ => true) _ i c c' Hc Hconns), Hlive by done. cbn. rewrite (v_cnt r Hi). lia.
  - rewrite (total_put r r' (fun _ => r_ppp) _ i c c' Hc Hconns), Hlive by done. cbn [andb]. rewrite Ha, (v_act r Hi). lia.
  - rewrite (total_put r r' (fun _ c => r_ss c =? 1) _ i c c' Hc Hconns), Hlive by done. cbn [andb]. rewrite Hs, (v_ses r Hi). lia.
  - rewrite (total_put r r' (fun i c => (r_ss c =? 0) && negb (pending (r_calls r) i)) _ i c c' Hc Hconns), Hlive.
    + cbn [andb]. rewrite Hpend, decide_True by done. cbn [negb]. rewrite andb_true_r, Hst, (v_start r Hi). lia.
    + intros j d Hj Hd. by rewrite Hpend, decide_False.
Qed.

(** A connection that is freed. *)
Lemma conns_gone r r' i c c' :
  inv r -> rget r i = Some c -> r_conns r' = <[i := c']> (r_conns r) -> r_live c' = false ->
  put_sid (r_sid c) (r_map r) = Some (r_map r') -> r_idx r' = r_idx r ->
  r_cookies r' = delete (r_cookie c) (r_cookies r) -> r_macs r' = delete (mac_key c) (r_macs r) ->
  (forall j x, (j, x) ∈ r_calls r' -> (j, x) ∈ r_calls r /\ j <> i) ->
  (forall j, (j, Call_connect) ∉ tail (queue_of j (r_calls r'))) ->
  (forall j, j <> i -> pending (r_calls r') j = pending (r_calls r) j) ->
  r_cnt r' = r_cnt r - 1 -> r_active r' = r_active r - Z.b2z (r_ppp c) ->
  r_session r' = r_session r - Z.b2z (r_ss c =? 1) ->
  r_starting r' = r_starting r - Z.b2z ((r_ss c =? 0) && negb (pending (r_calls r) i)) ->
  inv r'.
Proof.
  intros Hi Hc Hconns Hlive Hmap Hidx Hcks Hmacs Hcalls Hq Hpend Hcnt Ha Hs Hst.
  destruct (v_map r Hi) as (Hm & Hix & H0). destruct (v_sid r Hi i c Hc) as (Hsid & _ & _).
  destruct (put_sid_frees (r_sid c) (r_map r) (r_map r') Hm ltac:(lia) Hmap) as [Hm' Hfree].
  assert (Hg : forall j d, rget r' j = Some d <-> j <> i /\ rget r j = Some d).
  { intros j d. unfold rget at 1. rewrite (rget_put r i c c' j _ Hc Hconns), Hlive. destruct (decide (j = i)); naive_solver. }
  split; rewrite ?Hidx, ?Hcks, ?Hmacs.
  - split_and!; [done|lia|lia|]. rewrite Hfree by lia. by rewrite (proj2 (Z.eqb_neq 0 (r_sid c))) by lia.
  - intros j d [Hj Hd]%Hg. destruct (v_sid r Hi j d Hd) as (H1 & H2 & H3). split_and!; [lia|lia| |done].
    rewrite Hfree by lia. destruct (Z.eqb_spec (r_sid d) (r_sid c)) as [E|E]; [|exact H2]. by destruct (Hj (v_inj r Hi j i d c Hd Hc E)).
  - intros j k d e [_ Hd]%Hg [_ He]%Hg. by apply (v_inj r Hi).
  - intros k j. rewrite lookup_delete_Some, (v_cookie r Hi). split.
    + intros [Hk (d & Hd & <-)]. exists d. split; [|done]. apply Hg. split; [|done]. intros ->. by simplify_eq.
    + intros (d & [Hj Hd]%Hg & <-). split; [|by exists d]. intros E. apply Hj.
      assert (H1 : r_cookies r !! r_cookie d = Some j) by (apply (v_cookie r Hi); by exists d).
      assert (H2 : r_cookies r !! r_cookie d = Some i) by (apply (v_cookie r Hi); by exists c). congruence.
  - intros k j. rewrite lookup_delete_Some, (v_mac r Hi). split.
    + intros [Hk (d & Hd & <-)]. exists d. split; [|done]. apply Hg. split; [|done]. intros ->. by simplify_eq.
    + intros (d & [Hj Hd]%Hg & <-). split; [|by exists d]. intros E. apply Hj.
      assert (H1 : r_macs r !! mac_key d = Some j) by (apply (v_mac r Hi); by exists d).
      assert (H2 : r_macs r !! mac_key d = Some i) by (apply (v_mac r Hi); by exists c). congruence.
  - intros j x Hx. destruct (Hcalls j x Hx) as [H1 H2]. destruct (v_calls r Hi j x H1) as [d Hd]. exists d. by apply Hg.
  - done.
  - intros j d Hx [Hj Hd]%Hg. destruct (Hcalls j _ Hx) as [H1 _]. by apply (v_pend r Hi j).
  - intros j d [_ Hd]%Hg. by apply (v_ss r Hi j).
  - rewrite (total_put r r' (fun _ _ => true) _ i c c' Hc Hconns), Hlive, Hcnt, (v_cnt r Hi) by done. cbn. lia.
  - rewrite (total_put r r' (fun _ => r_ppp) _ i c c' Hc Hconns), Hlive, Ha, (v_act r Hi) by done. cbn. lia.
  - rewrite (total_put r r' (fun _ c => r_ss c =? 1) _ i c c' Hc Hconns), Hlive, Hs, (v_ses r Hi) by done. cbn. lia.
  - rewrite (total_put r r' (fun i c => (r_ss c =? 0) && negb (pending (r_calls r) i)) _ i c c' Hc Hconns), Hlive, Hst, (v_start r Hi).
    + cbn. lia.
    + intros j d Hj Hd. by rewrite Hpend.
Qed.

Lemma total_snoc r r' p p' c :
  r_conns r' = r_conns r ++ [c] -> r_live c = true ->
  (forall j d, rget r j = Some d -> p' j d = p j d) ->
  total r' p' = total r p + Z.b2z (p' (length (r_conns r)) c).
Proof.
  intros Hc Hl Hp. unfold total. rewrite Hc, length_app. cbn [length]. rewrite Nat.add_1_r. cbn [tally].
  unfold at_ at 1. rewrite lookup_app_r, Nat.sub_diag by lia. cbn. rewrite Hl. cbn.
  rewrite (tally_ext _ (fun i => at_ (r_conns r) (p i) i)); [lia|]. intros i Hi. unfold at_.
  rewrite lookup_app_l by done. pose proof (Hp i) as Hpi. unfold rget in Hpi. destruct (r_conns r !! i) as [d|]; [|done].
  cbn in Hpi. destruct (r_live d); [|done]. cbn. by apply Hpi.
Qed.

Lemma table_snoc `{Countable K} (t : gmap K nat) (key : rconn -> K) (g g' : nat -> option rconn) n c :
  (forall k i, t !! k = Some i <-> exists d, g i = Some d /\ key d = k) -> t !! key c = None ->
  (forall i d, g' i = Some d <-> (i = n /\ d = c) \/ g i = Some d) -> g n = None ->
  forall k i, table_insert (key c) n t !! k = Some i <-> exists d, g' i = Some d /\ key d = k.
Proof.
  intros Ht Hk Hg Hn k i. unfold table_insert. rewrite Hk. rewrite lookup_insert_Some, Ht. split.
  - intros [[<- <-]|[Hne (d & Hd & <-)]]; [exists c; split; [apply Hg; by left|done]|exists d; split; [apply Hg; by right|done]].
  - intros (d & Hd & <-). apply Hg in Hd as [[-> ->]|Hd]; [by left|right]. split; [|by exists d].
    intros E. rewrite E in Hk. assert (t !! key d = Some i) by (apply Ht; by exists d). congruence.
Qed.

Lemma inv_open r c map idx :
  inv r -> r_ppp c = false -> r_ss c = 0 -> r_live c = true -> 0 < r_sid c < SID_MAX -> length (r_addr c) = 6%nat ->
  sid_free (r_map r) (r_sid c) = true -> map_wf map -> 0 <= idx < SID_WORDS ->
  (forall j, 0 <= j -> sid_free map j = if j =? r_sid c then false else sid_free (r_map r) j) ->
  r_cookies r !! r_cookie c = None -> inv (r_open c map idx r).
Proof.
  intros Hi Hppp Hss Hlive Hsid Haddr Hfree Hwf Hidx Hmap Hck. destruct (v_map r Hi) as (_ & _ & H0).
  set (r' := r_open c map idx r). set (n := length (r_conns r)).
  assert (Hconns : r_conns r' = r_conns r ++ [c]) by done.
  assert (Hn : rget r n = None) by (unfold rget; rewrite lookup_ge_None_2; [done|lia]).
  assert (Hg : forall j d, rget r' j = Some d <-> (j = n /\ d = c) \/ rget r j = Some d).
  { intros j d. unfold rget at 1. rewrite Hconns. destruct (decide (j < n)%nat) as [Hj|Hj].
    - rewrite lookup_app_l by done. fold (rget r j). naive_solver lia.
    - unfold rget. rewrite lookup_app_r, (lookup_ge_None_2 (r_conns r) j) by lia. fold n.
      destruct (decide (j = n)) as [->|]; [rewrite Nat.sub_diag; cbn; rewrite Hlive; naive_solver|].
      rewrite lookup_ge_None_2 by (cbn; lia). cbn. naive_solver. }
  assert (Hlt : forall j x, (j, x) ∈ r_calls r -> j <> n).
  { intros j x Hx ->. destruct (v_calls r Hi n x Hx) as [d Hd]. congruence. }
  assert (Hmac : r_macs r !! mac_key c = None).
  { destruct (r_macs r !! mac_key c) as [j|] eqn:E; [|done]. apply (v_mac r Hi) in E as (d & Hd & Hkey).
    destruct (v_sid r Hi j d Hd) as (H1 & H2 & _). unfold SID_MAX in *.
    apply mac_key_sid in Hkey; [congruence|unfold is_u16; lia|unfold is_u16; lia]. }
  assert (Hp : forall j, pending (r_calls r') j = if decide (j = n) then true else pending (r_calls r) j).
  { intros j. unfold pending. change (r_calls r') with (r_calls r ++ [(n, Call_connect)]). destruct (decide (j = n)) as [->|Hj].
    - apply bool_decide_eq_true. apply elem_of_app. right. by constructor.
    - apply bool_decide_ext. rewrite elem_of_app, list_elem_of_singleton. naive_solver. }
  split.
  - split_and!; [done|apply Hidx|apply Hidx|]. change (r_map r') with map. rewrite Hmap by lia.
    by rewrite (proj2 (Z.eqb_neq 0 (r_sid c))) by lia.
  - intros j d [[-> ->]|Hd]%Hg; change (r_map r') with map; rewrite Hmap by (apply (v_sid r Hi) in Hd || idtac; lia).
    + by rewrite Z.eqb_refl.
    + destruct (v_sid r Hi j d Hd) as (H1 & H2 & H3). destruct (_ =? _); done.
  - assert (Hx : forall j d, rget r j = Some d -> r_sid d <> r_sid c).
    { intros j d Hd E. destruct (v_sid r Hi j d Hd) as (_ & H2 & _). congruence. }
    intros j k d e [[-> ->]|Hd]%Hg [[-> ->]|He]%Hg E; [done| | |by apply (v_inj r Hi j k d e)].
    + by destruct (Hx k e He).
    + by destruct (Hx j d Hd).
  - apply (table_snoc (r_cookies r) r_cookie (rget r) (rget r') n c (v_cookie r Hi) Hck Hg Hn).
  - apply (table_snoc (r_macs r) mac_key (rget r) (rget r') n c (v_mac r Hi) Hmac Hg Hn).
  - intros j x Hx. apply elem_of_app in Hx as [Hx|Hx].
    + destruct (v_calls r Hi j x Hx) as [d Hd]. exists d. apply Hg. by right.
    + apply list_elem_of_singleton in Hx as [= -> ->]. exists c. apply Hg. by left.
  - intros j. change (r_calls r') with (r_calls r ++ [(n, Call_connect)]). unfold queue_of. rewrite filter_app.
    destruct (decide (j = n)) as [->|Hj].
    + fold (queue_of n (r_calls r)). assert (queue_of n (r_calls r) = []) as ->.
      { destruct (queue_of n (r_calls r)) as [|[k y] l] eqn:E; [done|]. exfalso.
        assert (Hin : (k, y) ∈ queue_of n (r_calls r)) by (rewrite E; by left).
        apply list_elem_of_filter in Hin as [E1 Hin]. cbn in E1. by destruct (Hlt k y Hin). }
      rewrite filter_cons_True by done. cbn. apply not_elem_of_nil.
    + rewrite filter_cons_False by (cbn; congruence). rewrite app_nil_r. apply (v_queue r Hi).
  - intros j d Hx [[-> ->]|Hd]%Hg; [done|]. apply elem_of_app in Hx as [Hx|Hx]; [by apply (v_pend r Hi j)|].
    apply list_elem_of_singleton in Hx as [= ->]. fold n in Hd. congruence.
  - intros j d [[-> ->]|Hd]%Hg; [lia|by apply (v_ss r Hi j)].
  - rewrite (total_snoc r r' (fun _ _ => true) _ c Hconns Hlive) by done.
    change (r_cnt r') with (u32 (r_cnt r + 1)). rewrite (v_cnt r Hi). by apply u32_count.
  - rewrite (total_snoc r r' (fun _ => r_ppp) _ c Hconns Hlive), Hppp by done.
    change (r_active r') with (r_active r). rewrite (v_act r Hi). cbn [Z.b2z]. lia.
  - rewrite (total_snoc r r' (fun _ c => r_ss c =? 1) _ c Hconns Hlive), Hss by done.
    change (r_session r') with (r_session r). rewrite (v_ses r Hi). cbn [Z.b2z Z.eqb]. lia.
  - rewrite (total_snoc r r' (fun i c => (r_ss c =? 0) && negb (pending (r_calls r) i)) _ c Hconns Hlive).
    + fold n. rewrite Hp, decide_True by done. cbn [negb]. rewrite andb_false_r.
      change (r_starting r') with (r_starting r). rewrite (v_start r Hi). cbn [Z.b2z]. lia.
    + intros j d Hd. rewrite Hp, decide_False; [done|]. intros ->. congruence.
Qed.

Lemma tail_snoc {A} (l : list A) x y : x ∈ tail (l ++ [y]) -> x ∈ tail l \/ (x = y /\ l <> []).
Proof. destruct l as [|z l]; cbn; [by intros ?%elem_of_nil|]. rewrite elem_of_app, list_elem_of_singleton. intros [?| ->]; [by left|by right]. Qed.

(** A disconnect queued behind the other calls. *)
Lemma queue_padt i l :
  (forall j, (j, Call_connect) ∉ tail (queue_of j l)) ->
  (forall j, (j, Call_connect) ∉ tail (queue_of j (l ++ [(i, Call_disconnect)]))) /\
  (forall j, pending (l ++ [(i, Call_disconnect)]) j = pending l j).
Proof.
  intros Hq. split; intros j.
  - unfold queue_of. rewrite filter_app. destruct (decide (j = i)) as [->|Hj].
    + rewrite filter_cons_True by done. intros [Hin|[? _]]%tail_snoc; [by apply (Hq i)|done].
    + rewrite filter_cons_False by (cbn; congruence). rewrite app_nil_r. apply Hq.
  - apply bool_decide_ext. rewrite elem_of_app, list_elem_of_singleton. naive_solver.
Qed.

Lemma inv_padt r i : inv r -> is_Some (rget r i) -> inv (r <| r_calls ::= fun l => l ++ [(i, Call_disconnect)] |>).
Proof.
  intros Hi Hc. destruct (queue_padt i (r_calls r) (v_queue r Hi)) as [Hq Hp].
  set (r' := r <| r_calls ::= _ |>). assert (Hg : forall j, rget r' j = rget r j) by done.
  assert (Hin : forall j, (j, Call_connect) ∈ r_calls r' -> (j, Call_connect) ∈ r_calls r).
  { intros j Hj. specialize (Hp j). unfold pending in Hp. change (r_calls r ++ [(i, Call_disconnect)]) with (r_calls r') in Hp.
    rewrite bool_decide_true in Hp by done. by symmetry in Hp; apply bool_decide_eq_true in Hp. }
  destruct Hi as [V1 V2 V3 V4 V5 V6 V7 V8 V9 V10 V11 V12 V13]. split; try done.
  - intros j x Hx. rewrite Hg. apply elem_of_app in Hx as [Hx|Hx]; [by eapply V6|].
    by apply list_elem_of_singleton in Hx as [= -> ->].
  - intros j c Hx. rewrite Hg. by apply V8, Hin.
  - change (r_starting r') with (r_starting r). rewrite V13. apply tally_ext. intros j _. unfold at_.
    change (r_conns r') with (r_conns r). destruct (r_conns r !! j); [|done]. by rewrite <- Hp.
Qed.

Lemma inv_idx r idx : inv r -> 0 <= idx < SID_WORDS -> inv (r <| r_idx := idx |>).
Proof. intros [V1 V2 V3 V4 V5 V6 V7 V8 V9 V10 V11 V12 V13] Hidx. split; try done. by destruct V1 as (? & _ & ?). Qed.

Lemma gone_calls i l :
  (forall j, (j, Call_connect) ∉ tail (queue_of j l)) ->
  let l' := filter (fun x : nat * conn_call => x.1 <> i) l in
  (forall j x, (j, x) ∈ l' -> (j, x) ∈ l /\ j <> i) /\ (forall j, (j, Call_connect) ∉ tail (queue_of j l')) /\
  (forall j, j <> i -> pending l' j = pending l j).
Proof.
  intros Hq l'. split_and!.
  - intros j x [Hj Hx]%list_elem_of_filter. done.
  - intros j. by apply tail_filter.
  - intros j Hj. apply bool_decide_ext. unfold l'. rewrite list_elem_of_filter. cbn. naive_solver.
Qed.

(** The counters when a connection leaves. *)
Lemma u32_leave r p i c : inv r -> rget r i = Some c -> p i c = true -> u32 (total r p - 1) = total r p - Z.b2z (p i c).
Proof. intros Hi Hc Hp. rewrite (u32_pred r p i c) by done. by rewrite Hp. Qed.

Lemma disconnect_fields i c map r :
  let r' := r_disconnect i c map r in
  r_conns r' = <[i := c <| r_ppp := false |> <| r_ss := 2 |> <| r_live := false |>]> (r_conns r) /\ r_map r' = map /\
  r_idx r' = r_idx r /\ r_cookies r' = delete (r_cookie c) (r_cookies r) /\ r_macs r' = delete (mac_key c) (r_macs r) /\
  r_cnt r' = u32 (r_cnt r - 1) /\ r_calls r' = filter (fun x => x.1 <> i) (r_calls r) /\
  r_active r' = (if r_ppp c then u32 (r_active r - 1) else r_active r) /\
  r_session r' = (if r_ss c =? 1 then u32 (r_session r - 1) else r_session r) /\
  r_starting r' = (if r_ss c =? 1 then r_starting r else if r_ss c =? 0 then u32 (r_starting r - 1) else r_starting r).
Proof. unfold r_disconnect, r_leave. destruct (r_ppp c), (r_ss c =? 1), (r_ss c =? 0); done. Qed.

(** [disconnect] from a queue [l] that has no connect of this connection left. *)
Lemma inv_disconnect r i c map l r0 :
  inv r -> rget r i = Some c -> put_sid (r_sid c) (r_map r) = Some map ->
  (forall j x, (j, x) ∈ l -> (j, x) ∈ r_calls r) -> (forall j, (j, Call_connect) ∉ tail (queue_of j l)) ->
  (forall j, j <> i -> pending l j = pending (r_calls r) j) ->
  r0 = r <| r_calls := l |> /\ pending (r_calls r) i = false \/
  r0 = r <| r_calls := l |> <| r_starting ::= fun n => u32 (n + 1) |> /\ pending (r_calls r) i = true ->
  inv (r_disconnect i c map r0).
Proof.
  intros Hi Hc Hmap Hl Hq Hp Hr0. destruct (gone_calls i l Hq) as (G1 & G2 & G3).
  pose proof (v_ss r Hi i c Hc) as Hss.
  pose proof (u32_leave r (fun _ _ => true) i c Hi Hc eq_refl) as L1. rewrite <- (v_cnt r Hi) in L1. cbn [Z.b2z] in L1.
  assert (L2 : r_ppp c = true -> u32 (r_active r - 1) = r_active r - 1).
  { intros H. rewrite (v_act r Hi). by apply (u32_pred r (fun _ => r_ppp) i c). }
  assert (L3 : r_ss c = 1 -> u32 (r_session r - 1) = r_session r - 1).
  { intros H. rewrite (v_ses r Hi). apply (u32_pred r (fun _ c => r_ss c =? 1) i c); [done|done|by rewrite H]. }
  assert (L4 : r_ss c = 0 -> pending (r_calls r) i = false -> u32 (r_starting r - 1) = r_starting r - 1).
  { intros H Hpd. rewrite (v_start r Hi). apply (u32_pred r (fun i c => (r_ss c =? 0) && negb (pending (r_calls r) i)) i c); [done|done|].
    by rewrite H, Hpd. }
  assert (L5 : u32 (u32 (r_starting r + 1) - 1) = r_starting r).
  { rewrite (v_start r Hi). rewrite u32_count by done. pose proof (total_range r (fun i c => (r_ss c =? 0) && negb (pending (r_calls r) i)) Hi).
    unfold SID_MAX in *. rewrite u32_small; [lia|width_lia]. }
  assert (L6 : pending (r_calls r) i = true -> r_ppp c = false /\ r_ss c = 0).
  { intros H. apply bool_decide_eq_true in H. by apply (v_pend r Hi i c). }
  destruct (disconnect_fields i c map r0) as (F1 & F2 & F3 & F4 & F5 & F6 & F7 & F8 & F9 & F10).
  set (r' := r_disconnect i c map r0) in *. clearbody r'.
  assert (E : r_conns r0 = r_conns r /\ r_idx r0 = r_idx r /\ r_cookies r0 = r_cookies r /\ r_macs r0 = r_macs r /\
    r_cnt r0 = r_cnt r /\ r_calls r0 = l /\ r_active r0 = r_active r /\ r_session r0 = r_session r)
    by (destruct Hr0 as [[-> _]|[-> _]]; done).
  destruct E as (E1 & E2 & E3 & E4 & E5 & E6 & E7 & E8). rewrite E1, E2, E3, E4, E5, E6, E7, E8 in *.
  apply (conns_gone r r' i c (c <| r_ppp := false |> <| r_ss := 2 |> <| r_live := false |>)); rewrite ?F7; try done.
  - by rewrite F2.
  - intros j x Hx. destruct (G1 j x Hx). split; [by apply Hl|done].
  - intros j Hj. rewrite G3, Hp by done. done.
  - by rewrite F6.
  - rewrite F8. destruct (r_ppp c); [by rewrite L2|cbn; lia].
  - rewrite F9. destruct (r_ss c =? 1) eqn:E; to_prop; [by rewrite L3|cbn; lia].
  - rewrite F10. destruct Hr0 as [[-> Hpd]|[-> Hpd]]; rewrite Hpd; cbn [negb r_starting].
    + change (r_starting (r <| r_calls := l |>)) with (r_starting r). rewrite andb_true_r. destruct (r_ss c =? 1) eqn:Es1; to_prop; [rewrite Es1; cbn; lia|].
      destruct (r_ss c =? 0) eqn:Es0; to_prop; [by rewrite L4|cbn; lia].
    + destruct (L6 Hpd) as [_ ->]. cbn [Z.eqb andb Z.b2z].
      change (r_starting (_ <| r_starting ::= _ |>)) with (u32 (r_starting r + 1)). rewrite L5. lia.
Qed.

Lemma start_leave r i c :
  inv r -> rget r i = Some c -> r_ss c = 0 -> pending (r_calls r) i = false -> u32 (r_starting r - 1) = r_starting r - 1.
Proof.
  intros Hi Hc Hs Hp. rewrite (v_start r Hi).
  apply (u32_pred r (fun i c => (r_ss c =? 0) && negb (pending (r_calls r) i)) i c); [done|done|]. by rewrite Hs, Hp.
Qed.

Lemma not_pending r i c : inv r -> rget r i = Some c -> r_ppp c = true -> pending (r_calls r) i = false.
Proof.
  intros Hi Hc Hp. apply bool_decide_eq_false. intros Hin. destruct (v_pend r Hi i c Hin Hc). congruence.
Qed.

Lemma inv_connect r i c l :
  inv r -> rget r i = Some c -> dequeue i Call_connect (r_calls r) l ->
  inv (r_connect i c (r <| r_calls := l |> <| r_starting ::= fun n => u32 (n + 1) |>)).
Proof.
  intros Hi Hc Hd. pose proof (dequeue_pending _ _ _ _ i (v_queue r Hi) Hd) as Hpi.
  assert (Hin : (i, Call_connect) ∈ r_calls r) by (destruct Hd as (l1 & l2 & -> & _); apply elem_of_app; right; by left).
  destruct (v_pend r Hi i c Hin Hc) as [Hppp Hss]. set (c' := c <| r_ppp := true |>).
  assert (Hss' : r_ss c' = 0) by exact Hss.
  apply (conns_upd r _ i c c'); try done; try (exact (rget_live r i c Hc)); try (left; exact Hss).
  - intros j x Hx. left. by eapply dequeue_in.
  - by eapply dequeue_tail; [apply (v_queue r Hi)|].
  - intros j. exact (dequeue_pending _ _ _ _ j (v_queue r Hi) Hd).
  - rewrite Hppp. change (r_active (r_connect _ _ _)) with (u32 (r_active r + 1)). rewrite (v_act r Hi), u32_count by done. cbn. lia.
  - rewrite Hss, Hss'. change (r_session (r_connect _ _ _)) with (r_session r). cbn [Z.eqb Z.b2z]. lia.
  - rewrite Hss, Hss'. change (r_starting (r_connect _ _ _)) with (u32 (r_starting r + 1)).
    rewrite (v_start r Hi), u32_count by done. unfold pending. rewrite bool_decide_true by done. cbn. lia.
Qed.

Lemma inv_started r i c : inv r -> rget r i = Some c -> r_ppp c = true -> r_ss c = 0 -> inv (r_start i c r).
Proof.
  intros Hi Hc Hppp Hss. pose proof (not_pending r i c Hi Hc Hppp) as Hp. set (c' := c <| r_ss := 1 |>).
  pose proof (u32_count r (fun _ c => r_ss c =? 1) Hi) as Hu. rewrite <- (v_ses r Hi) in Hu.
  pose proof (start_leave r i c Hi Hc Hss Hp) as Hl.
  apply (conns_upd r _ i c c'); try done; try (exact (rget_live r i c Hc)); try (by right; left).
  - intros j x Hx. by left.
  - apply (v_queue r Hi).
  - intros j. destruct (decide (j = i)) as [->|]; done.
  - change (r_active (r_start i c r)) with (r_active r). change (r_ppp c') with (r_ppp c). lia.
  - change (r_session (r_start i c r)) with (u32 (r_session r + 1)). rewrite Hss, Hu. cbn [Z.eqb Z.b2z]. change (r_ss c') with 1. cbn [Z.eqb Pos.eqb Z.b2z]. lia.
  - change (r_starting (r_start i c r)) with (u32 (r_starting r - 1)). rewrite Hss, Hp, Hl. change (r_ss c') with 1. cbn [Z.eqb negb andb Z.b2z]. lia.
Qed.

Lemma finish_fields i c r :
  let r' := r_finish i c r in
  r_conns r' = <[i := c <| r_ppp := false |> <| r_ss := 2 |>]> (r_conns r) /\ r_map r' = r_map r /\
  r_idx r' = r_idx r /\ r_cookies r' = r_cookies r /\ r_macs r' = r_macs r /\ r_cnt r' = r_cnt r /\
  r_calls r' = r_calls r ++ [(i, Call_disconnect)] /\ r_active r' = u32 (r_active r - 1) /\
  r_session r' = (if r_ss c =? 1 then u32 (r_session r - 1) else r_session r) /\
  r_starting r' = (if r_ss c =? 1 then r_starting r else if r_ss c =? 0 then u32 (r_starting r - 1) else r_starting r).
Proof. unfold r_finish, r_leave. destruct (r_ss c =? 1), (r_ss c =? 0); done. Qed.

Lemma inv_finished r i c : inv r -> rget r i = Some c -> r_ppp c = true -> inv (r_finish i c r).
Proof.
  intros Hi Hc Hppp. pose proof (not_pending r i c Hi Hc Hppp) as Hp.
  destruct (queue_padt i (r_calls r) (v_queue r Hi)) as [Hq Hpd].
  assert (L2 : u32 (r_active r - 1) = r_active r - 1).
  { rewrite (v_act r Hi). by apply (u32_pred r (fun _ => r_ppp) i c). }
  assert (L3 : r_ss c = 1 -> u32 (r_session r - 1) = r_session r - 1).
  { intros H. rewrite (v_ses r Hi). apply (u32_pred r (fun _ c => r_ss c =? 1) i c); [done|done|by rewrite H]. }
  destruct (finish_fields i c r) as (F1 & F2 & F3 & F4 & F5 & F6 & F7 & F8 & F9 & F10).
  set (r' := r_finish i c r) in *. clearbody r'.
  apply (conns_upd r r' i c (c <| r_ppp := false |> <| r_ss := 2 |>)); rewrite ?F7; try done;
    try (exact (rget_live r i c Hc)); try (by right; right).
  - intros j x Hx. apply elem_of_app in Hx as [Hx|Hx]; [by left|right]. by apply list_elem_of_singleton in Hx as [= -> ->].
  - intros j. rewrite Hpd. destruct (decide (j = i)) as [->|]; done.
  - rewrite F8, Hppp, L2. cbn. lia.
  - rewrite F9. destruct (r_ss c =? 1) eqn:E; to_prop; [rewrite L3 by done|]; cbn; lia.
  - rewrite F10, Hp. cbn [negb]. rewrite andb_true_r. destruct (r_ss c =? 1) eqn:E1; to_prop; [rewrite E1; cbn; lia|].
    destruct (r_ss c =? 0) eqn:E0; to_prop; [rewrite (start_leave r i c) by done|]; cbn; lia.
Qed.

Lemma rstep_inv r r' : inv r -> rstep r r' -> inv r'.
Proof.
  intros Hi Hs. revert Hi.
  destruct Hs as [r c map idx|r idx|r i|r i c l|r i c l map Hc Hd|r i c l map Hc Hd|r i c map|r i c|r i c]; intros Hi.
  - by apply inv_open.
  - by apply inv_idx.
  - by apply inv_padt.
  - by apply inv_connect.
  - eapply (inv_disconnect r i c map l); [done|done|done|intros j x; by eapply dequeue_in| | |right; split; [reflexivity|]].
    + by eapply dequeue_tail; [apply (v_queue r Hi)|].
    + intros j Hj. rewrite (dequeue_pending _ _ _ _ j (v_queue r Hi) Hd). by rewrite decide_False.
    + apply bool_decide_eq_true. destruct Hd as (l1 & l2 & -> & _). apply elem_of_app. right. by left.
  - eapply (inv_disconnect r i c map l); [done|done|done|intros j x; by eapply dequeue_in| | |left; split; [reflexivity|]].
    + by eapply dequeue_tail; [apply (v_queue r Hi)|].
    + intros j Hj. rewrite (dequeue_pending _ _ _ _ j (v_queue r Hi) Hd). by rewrite decide_False.
    + destruct (dequeue_queue _ _ _ _ Hd) as [Hq _]. apply bool_decide_eq_false. rewrite in_queue, Hq.
      pose proof (v_queue r Hi i) as Ht. rewrite Hq in Ht. cbn in Ht. by intros [?|?]%elem_of_cons.
  - eapply (inv_disconnect r i c map (r_calls r)); try done; [apply (v_queue r Hi)|]. left. split; [by destruct r|].
    by apply bool_decide_eq_false.
  - by apply inv_started.
  - by apply inv_finished.
Qed.

End Registry.
