(* ===== verification/PppoeRun.v ===== *)
(** PPPoE discovery: every run of the module, and the handshake.

    [Runs]: the steps of the module, that each of them is a step of the registry of
    PppoeConns.v or leaves it as it is, and what follows for every state the module reaches.
    [Handshake]: a PADI, the PADO it is answered with and the PADR that returns the cookie
    open a connection.  [Demo]: the theorems at concrete inputs. *)

From stdpp Require Import base tactics list numbers option strings gmap relations.
From Stdlib Require Import ZArith Lia.
From S2P Require Import Prelude CLib PppChan Hash Des DesProps PppoeDisc PppoeProps PppoeConns.

Open Scope Z_scope.

Module Runs.
Import PppChan PppoeDisc Tags Frames Padi Sids Registry.

Definition core (c : pppoe_conn_t) : rconn :=
  mk_rconn (sid c) (addr c) (cookie c) (ppp_started c) (session_started c) (live c).

Definition view (s : pppoe_st) : reg :=
  mk_reg (core <$> conns s) (sid_map s) (sid_idx s) (stat_starting s) (stat_session_active s) (stat_active s) (calls s)
    (conn_cnt (serv s)) (cookie_2_conn (serv s)) (mac_sessid_2_conn (serv s)).

(** What may happen: a frame, a delayed PADO, the calls queued on a connection, the closing
    of its context, the reports of the session layer, and whatever that layer does to the
    fields it owns.  The context of a connection is not closed before its first call has
    run. *)
Inductive step (cf : pppoe_conf) (mf : list Z -> bool) : pppoe_st -> pppoe_st -> Prop :=
| S_frame e f s s' :
    bytes_ok f -> disc_frame_ok mf f = true -> pppoe_serv_read cf e f s = Some s' -> step cf mf s s'
| S_pado e k s s' : pado_timer cf e k s = Some s' -> step cf mf s s'
| S_connect i ok radius l s s' :
    dequeue i Call_connect (calls s) l -> connect_channel ok radius cf i (s <| calls := l |>) = Some s' -> step cf mf s s'
| S_disconnect i fin l s s' :
    dequeue i Call_disconnect (calls s) l -> disconnect fin cf i (s <| calls := l |>) = Some s' -> step cf mf s s'
| S_close i s s' : (i, Call_connect) ∉ calls s -> pppoe_conn_close cf i s = Some s' -> step cf mf s s'
| S_started i c s s' :
    get_conn s i = Some c -> ppp_started c = true -> session_started c = 0 -> started_cb i s = Some s' -> step cf mf s s'
| S_finished i c s s' :
    get_conn s i = Some c -> ppp_started c = true -> finished_cb i s = Some s' -> step cf mf s s'
| S_session i c s linked' username' :
    get_conn s i = Some c -> step cf mf s (put_conn i (c <| linked := linked' |> <| username := username' |>) s)
| S_stat s a b n : step cf mf s (s <| ap_starting := a |> <| ap_active := b |> <| ap_incoming := n |>).

(** ** Looking at a connection *)

Lemma view_get s i : rget (view s) i = core <$> get_conn s i.
Proof.
  unfold rget, get_conn. cbn [view r_conns]. rewrite list_lookup_fmap. destruct (conns s !! i) as [c|]; [|done].
  cbn. by destruct (live c).
Qed.

Lemma get_view s i c : get_conn s i = Some c -> rget (view s) i = Some (core c).
Proof. intros H. by rewrite view_get, H. Qed.

Lemma get_lt s i c : get_conn s i = Some c -> (i < length (conns s))%nat.
Proof. unfold get_conn. destruct (conns s !! i) eqn:E; [|done]. intros _. by eapply lookup_lt_Some. Qed.

Lemma get_lookup s i c : get_conn s i = Some c -> conns s !! i = Some c /\ live c = true.
Proof. unfold get_conn. destruct (conns s !! i) as [d|]; [|done]. cbn. destruct (live d) eqn:E; [|done]. by intros [= <-]. Qed.

Lemma put_same s i c c' : get_conn s i = Some c -> core c' = core c -> view (put_conn i c' s) = view s.
Proof.
  intros Hc Hcore. destruct (get_lookup s i c Hc) as [Hl _]. unfold view, put_conn. cbn [conns].
  f_equal. cbn. rewrite list_fmap_insert, Hcore. apply list_insert_id. by rewrite list_lookup_fmap, Hl.
Qed.

Lemma get_put s i c c' : get_conn s i = Some c -> live c' = true -> get_conn (put_conn i c' s) i = Some c'.
Proof.
  intros Hc Hl. unfold get_conn, put_conn. cbn. rewrite list_lookup_insert_eq by (by eapply get_lt). cbn. by rewrite Hl.
Qed.

(** ** Handlers that leave the registry as it is *)

Ltac peel := repeat match goal with
  | H : mbind _ _ = Some _ |- _ => apply bind_Some in H; destruct H as (? & ? & H)
  | H : Some _ = Some _ |- _ => injection H as <-
  | H : None = Some _ |- _ => discriminate H
  | H : (if ?b then _ else _) = Some _ |- _ => destruct b eqn:?
  end.

Lemma PADO_view cf e a hu rs sn mp s s' : pppoe_send_PADO cf e a hu rs sn mp s = Some s' -> view s' = view s.
Proof. unfold pppoe_send_PADO. intros H. peel. done. Qed.
Lemma err_view cf a hu rs code ty s s' : pppoe_send_err cf a hu rs code ty s = Some s' -> view s' = view s.
Proof. unfold pppoe_send_err. intros H. peel. done. Qed.
Lemma PADT_view cf i s s' : pppoe_send_PADT cf i s = Some s' -> view s' = view s /\ conns s' = conns s.
Proof. unfold pppoe_send_PADT. intros H. peel. done. Qed.

Lemma PADS_view cf i s s' : pppoe_send_PADS cf i s = Some s' -> view s' = view s.
Proof.
  unfold pppoe_send_PADS. intros H. apply bind_Some in H as (c & Hc & H). peel.
  change (view (put_conn i (c <| pppoe_sid := sid c |> <| client_mac := addr c |>) s) = view s). by apply (put_same s i c).
Qed.

Lemma pado_timer_view cf e k s s' : pado_timer cf e k s = Some s' -> view s' = view s.
Proof. unfold pado_timer. intros H. peel; [done|]. etrans; [|by eapply PADO_view]. done. Qed.

Lemma check_padi_view cf e a s : view (check_padi_limit cf e a s).2 = view s.
Proof.
  unfold check_padi_limit. destruct (_ =? 0); [done|]. unfold expire_padis. destruct (drop_old _ _) as [k l]. cbv zeta.
  repeat match goal with |- context [if ?b then _ else _] => destruct b end; done.
Qed.

Lemma answer_padi_view cf e d src a s s' : answer_padi cf e d src a s = Some s' -> view s' = view s.
Proof. unfold answer_padi. cbv zeta. intros H. peel; try done; by eapply PADO_view. Qed.

Lemma PADI_view cf e f s s' : pppoe_recv_PADI cf e f s = Some s' -> view s' = view s.
Proof.
  unfold pppoe_recv_PADI. cbv zeta. intros H. pose proof (check_padi_view cf e (h_source f) (s <| stat_PADI_recv ::= fun n => u64 (n + 1) |>)) as Hv.
  destruct (check_padi_limit _ _ _ _) as [over s1]. cbn [snd] in Hv. change (view (s <| stat_PADI_recv ::= _ |>)) with (view s) in Hv.
  destruct (_ =? -1); [by injection H as <-|]. destruct (_ || _); [by injection H as <-|].
  destruct (too_many _ _); [by injection H as <-|].
  destruct over; [injection H as <-; unfold warn_padi; by destruct (_ && _)|].
  destruct (negb _); [by injection H as <-|]. destruct (test_limit _ _); [by injection H as <-|].
  apply bind_Some in H as (r & _ & H). destruct r as [a|]; [|by injection H as <-].
  destruct (_ && _); [by injection H as <-|]. apply answer_padi_view in H. by rewrite H.
Qed.

Lemma known_view cf i s s' : known_channel cf i s = Some s' -> view s' = view s.
Proof. unfold known_channel. intros H. peel; [done|]. apply PADS_view in H. by rewrite H. Qed.

(** ** Handlers that are steps of the registry *)

Definition sim (s s' : pppoe_st) : Prop := view s' = view s \/ rstep (view s) (view s').

Lemma view_calls s g : view (s <| calls ::= g |>) = (view s) <| r_calls ::= g |>.
Proof. done. Qed.

(** A connection allocated, and its PADS sent. *)
Lemma open_view cf s s1 s2 id a hu rs sn tr ck mp :
  is_u16 id -> length a = 6%nat -> s1 = s <| sid_map := sid_map s1 |> <| sid_idx := sid_idx s1 |> ->
  let c := new_conn cf (serv s1) id a hu rs sn tr ck mp in
  let i := length (conns s1) in
  view s2 = view (s1 <| conns ::= fun l => l ++ [c] |>
          <| serv ::= fun v => v <| cookie_2_conn ::= table_insert (cookie c) i |>
                                 <| mac_sessid_2_conn ::= table_insert (key64 a (conn_flags c) id) i |>
                                 <| serv_timer := false |>
                                 <| conn_cnt ::= fun n => u32 (n + 1) |> |>) ->
  view (s2 <| calls ::= fun l => l ++ [(i, Call_connect)] |>) = r_open (core c) (sid_map s1) (sid_idx s1) (view s).
Proof.
  intros Hid Ha Hs1 c i Hv. rewrite view_calls, Hv. unfold r_open. cbn [view r_conns]. rewrite length_fmap.
  assert (Hc : conns s1 = conns s) by (by rewrite Hs1). subst i. rewrite Hc. unfold mac_key. cbn [core r_addr r_sid r_cookie].
  assert (Hk : key64 a (conn_flags c) id = key64 (addr c) [] (sid c)) by (apply (key64_behind a); [done|by rewrite Ha]).
  rewrite <- Hk.
  rewrite Hs1. unfold view. cbn. by rewrite fmap_app.
Qed.

Lemma open_sim cf e src ck a s s' :
  inv (view s) -> length src = 6%nat -> cookie_2_conn (serv s) !! take (COOKIE_LENGTH - 4) ck = None ->
  open_channel cf e src ck a s = Some s' -> sim s s'.
Proof.
  intros Hi Hsrc Hck. unfold open_channel. destruct (_ && _); [intros [= <-]; by left|]. cbv zeta.
  set (s0 := s <| ap_incoming ::= _ |>). assert (Hv0 : view s0 = view s) by done. unfold allocate_channel.
  destruct (negb (mem_ok e)).
  { cbn [mbind option_bind]. intros H%err_view. left. rewrite H. by destruct (_ <? _). }
  destruct (v_map _ Hi) as (Hm & Hidx & H0).
  destruct (take_sid_found s0 Hm Hidx) as (id & s1 & -> & Hidx1 & Hm1 & Hs1 & Hcase). cbn [mbind option_bind].
  assert (Hzero : id = 0 -> sid_map s1 = sid_map s0).
  { intros ->. destruct Hcase as [(_ & Hf & _)|(_ & ? & _)]; [|done]. cbn in H0. change (sid_map s0) with (sid_map s) in Hf. congruence. }
  destruct (id =? 0) eqn:Eid; to_prop.
  { cbn [mbind option_bind]. intros H%err_view. right.
    assert (Hv : view s' = (view s) <| r_idx := sid_idx s1 |>).
    { rewrite H. transitivity (view s1); [by destruct (_ <? _)|]. rewrite Hs1 at 1. unfold view. cbn. by rewrite (Hzero Eid). }
    rewrite Hv. by apply R_idx. }
  destruct Hcase as [(Hid & Hfree & Hmap)|(-> & _)]; [|done].
  destruct (f_service_name a) as [sn|]; [|done]. cbn [mbind option_bind]. intros H. apply bind_Some in H as (s2 & H2 & H).
  injection H as <-. apply PADS_view in H2. right.
  assert (Hu : is_u16 id) by (unfold is_u16, SID_MAX in *; lia).
  pose proof (open_view cf s0 s1 s2 id src _ _ sn _ ck _ Hu Hsrc Hs1 H2) as Hov. cbv zeta in Hov.
  match goal with |- rstep _ ?v => match type of Hov with _ = ?w => assert (E : v = w) by exact Hov; rewrite E; clear E end end.
  rewrite Hv0.
  apply R_open; try done; cbn [core r_sid r_addr r_cookie new_conn sid addr cookie]; try done. unfold SID_MAX in *. lia.
Qed.

Lemma source_length f : (20 <= length f)%nat -> length (h_source f) = 6%nat.
Proof. intros H. unfold h_source, ETH_ALEN. rewrite length_take, length_drop. lia. Qed.

Lemma PADR_sim cf e mf f s s' :
  inv (view s) -> bytes_ok f -> disc_frame_ok mf f = true -> pppoe_recv_PADR cf e f s = Some s' -> sim s s'.
Proof.
  intros Hi Hb Hf. destruct (frame_room mf f Hb Hf) as [Hl0 Hl]. unfold pppoe_recv_PADR. cbv zeta.
  set (s0 := s <| stat_PADR_recv ::= _ |>). change (sim s s') with (sim s0 s'). change (view s) with (view s0) in Hi. clearbody s0.
  intros H. peel; try (by left). rename x into r. destruct r as [a|]; [|injection H as <-; by left].
  unfold answer_padr in H. destruct (f_ac_cookie a) as [t|]; [|injection H as <-; by left].
  peel; [by left|by left|left; by eapply err_view|]. destruct (cookie_2_conn _ !! _) as [i|] eqn:Eck.
  - left. by eapply known_view.
  - eapply open_sim; [done| |exact Eck|exact H]. apply source_length. lia.
Qed.

Lemma PADT_sim f s s' : pppoe_recv_PADT f s = Some s' -> sim s s'.
Proof.
  unfold pppoe_recv_PADT. intros H. peel; [by left|]. destruct (mac_sessid_2_conn _ !! _) as [i|]; [|injection H as <-; by left].
  apply bind_Some in H as (c & Hc & H). injection H as <-. right.
  change (rstep (view s) ((view s) <| r_calls ::= fun l => l ++ [(i, Call_disconnect)] |>)). apply R_padt. by rewrite view_get, Hc.
Qed.

(** ** The end of a connection *)

Lemma leave_view i c s :
  get_conn s i = Some c -> session_started c = 0 \/ session_started c = 1 \/ session_started c = 2 ->
  view (leave_stats i c s) = r_put i ((core c) <| r_ss := 2 |>) (r_leave (core c) (view s)) /\
  get_conn (leave_stats i c s) i = Some (c <| session_started := 2 |>).
Proof.
  intros Hc Hss. pose proof (get_lt s i c Hc) as Hlt. destruct (get_lookup s i c Hc) as [_ Hl].
  unfold leave_stats, r_leave. cbn [core r_ss].
  destruct Hss as [Hs|[Hs|Hs]]; rewrite Hs; cbn [Z.eqb Pos.eqb].
  - split; [unfold view; cbn; by rewrite list_fmap_insert|]. by apply (get_put _ i c).
  - split; [unfold view; cbn; by rewrite list_fmap_insert|]. by apply (get_put _ i c).
  - assert (c <| session_started := 2 |> = c) as E by (destruct c; cbn in *; by subst).
    split; [unfold view; cbn; rewrite list_fmap_insert; by destruct c; cbn in *; subst|]. rewrite E. by apply (get_put _ i c).
Qed.

Lemma put_put i c c' r : r_put i c (r_put i c' r) = r_put i c r.
Proof. unfold r_put. destruct r. cbn. by rewrite list_insert_insert_eq. Qed.
Lemma leave_put i c c' r : r_leave c (r_put i c' r) = r_put i c' (r_leave c r).
Proof. unfold r_leave. by destruct (r_ss c =? 1), (r_ss c =? 0). Qed.

(** The part of [disconnect] that ends the session. *)
Definition end_session (fin : bool) (i : nat) (c : pppoe_conn_t) (s : pppoe_st) : option pppoe_st :=
  if ppp_started c then
    let s := put_conn i (c <| ppp_started := false |>) (s <| stat_active ::= fun n => u32 (n - 1) |>) in
    if fin then finished_cb i s else Some s
  else Some s.

Lemma end_view fin i c s s2 :
  get_conn s i = Some c -> session_started c = 0 \/ session_started c = 1 \/ session_started c = 2 ->
  end_session fin i c s = Some s2 ->
  exists c2, get_conn s2 i = Some c2 /\ core c2 = (core c) <| r_ppp := false |> <| r_ss := r_ss (core c2) |> /\
    get_conn (leave_stats i c2 s2) i = Some (c2 <| session_started := 2 |>) /\
    view (leave_stats i c2 s2) =
      r_put i ((core c) <| r_ppp := false |> <| r_ss := 2 |>)
        (r_leave (core c) (if r_ppp (core c) then (view s) <| r_active ::= fun n => u32 (n - 1) |> else view s)).
Proof.
  intros Hc Hss. unfold end_session. cbn [core r_ppp]. destruct (ppp_started c) eqn:Ep.
  - set (c' := c <| ppp_started := false |>). set (s1 := put_conn i c' _).
    assert (Hg : get_conn s1 i = Some c') by (apply (get_put _ i c); [done|by apply (get_lookup s i c)]).
    assert (Hv : view s1 = r_put i (core c') ((view s) <| r_active ::= fun n => u32 (n - 1) |>)).
    { unfold view. subst s1. cbn. by rewrite list_fmap_insert. }
    destruct (leave_view i c' s1 Hg Hss) as [V1 G1].
    assert (Hend : view (leave_stats i c' s1) = r_put i ((core c) <| r_ppp := false |> <| r_ss := 2 |>)
      (r_leave (core c) ((view s) <| r_active ::= fun n => u32 (n - 1) |>))).
    { rewrite V1, Hv, leave_put, put_put. done. }
    destruct fin.
    + unfold finished_cb. rewrite Hg. cbn [mbind option_bind]. change (ppp_started c') with false. cbv iota. intros [= <-].
      exists (c' <| session_started := 2 |>). split; [exact G1|]. split; [done|].
      destruct (leave_view i (c' <| session_started := 2 |>) (leave_stats i c' s1) G1) as [V2 G2]; [by right; right|].
      assert (L : forall r, r_leave (core (c' <| session_started := 2 |>)) r = r) by done.
      split; [exact G2|]. rewrite V2, L, Hend, put_put. done.
    + intros [= <-]. exists c'. split; [exact Hg|]. split; [done|]. split; [exact G1|exact Hend].
  - intros [= <-]. exists c. destruct (leave_view i c s Hc Hss) as [V1 G1].
    assert (E : (core c) <| r_ppp := false |> = core c) by (unfold core; by rewrite Ep).
    split; [done|]. split; [rewrite E; by destruct c|]. split; [exact G1|]. by rewrite V1, E.
Qed.

Lemma leave_serv_view s : view (leave_serv s) = (view s) <| r_cnt ::= fun n => u32 (n - 1) |> /\ conns (leave_serv s) = conns s.
Proof. unfold leave_serv. cbv zeta. destruct (_ =? 0); [|done]. destruct (stopping _); [done|]. by destruct (vlan_mon _). Qed.

Lemma disconnect_view fin cf i c s s' :
  get_conn s i = Some c -> session_started c = 0 \/ session_started c = 1 \/ session_started c = 2 ->
  is_u16 (sid c) -> length (addr c) = 6%nat -> disconnect fin cf i s = Some s' ->
  exists map, put_sid (sid c) (sid_map s) = Some map /\ view s' = r_disconnect i (core c) map (view s).
Proof.
  intros Hc Hss Hsid Ha. unfold disconnect. rewrite Hc. cbn [mbind option_bind]. cbv zeta.
  set (s0 := if negb (linked c) && _ then _ else s). assert (Hv0 : view s0 = view s /\ conns s0 = conns s).
  { subst s0. by destruct (_ && _). } clearbody s0. destruct Hv0 as [Hv0 Hc0].
  set (s1 := s0 <| serv ::= _ |>).
  assert (Hv1 : view s1 = (view s0) <| r_cookies ::= delete (cookie c) |> <| r_macs ::= delete (mac_key (core c)) |>).
  { unfold mac_key. cbn [core r_addr r_sid]. rewrite (key64_behind (addr c) [] (conn_flags c) (sid c)) by (done || lia). done. }
  assert (Hg1 : get_conn s1 i = Some c) by (unfold get_conn in *; change (conns s1) with (conns s0); by rewrite Hc0).
  intros H. apply bind_Some in H as (s2 & H2 & H). change (end_session fin i c s1 = Some s2) in H2.
  destruct (end_view fin i c s1 s2 Hg1 Hss H2) as (c2 & Hg2 & Hcore & Hg3 & Hv3). rewrite Hg2 in H. cbn [mbind option_bind] in H.
  apply bind_Some in H as (s4 & H4 & H). apply PADT_view in H4 as [Hv4 Hc4].
  destruct (leave_serv_view s4) as [Hv5 Hc5]. set (s5 := leave_serv s4) in *.
  apply bind_Some in H as (map & Hmap & H). apply bind_Some in H as (c5 & Hg5 & H). injection H as <-.
  assert (Hsid2 : sid c2 = sid c) by (pose proof (f_equal r_sid Hcore) as E; done).
  assert (Hc53 : conns s5 = conns (leave_stats i c2 s2)) by congruence.
  assert (c5 = c2 <| session_started := 2 |>) as ->.
  { unfold get_conn in Hg5, Hg3. rewrite Hc53, Hg3 in Hg5. by injection Hg5. }
  assert (Hfin : view s5 = (r_put i ((core c) <| r_ppp := false |> <| r_ss := 2 |>)
        (r_leave (core c) (if r_ppp (core c) then (view s1) <| r_active ::= fun n => u32 (n - 1) |> else view s1)))
        <| r_cnt ::= fun n => u32 (n - 1) |>) by (rewrite Hv5, Hv4; by rewrite Hv3).
  assert (Hmaps : sid_map s5 = sid_map s).
  { change (r_map (view s5) = r_map (view s)). rewrite Hfin. unfold r_leave. rewrite Hv1, Hv0.
    destruct (r_ppp (core c)), (r_ss (core c) =? 1), (r_ss (core c) =? 0); done. }
  rewrite Hsid2, Hmaps in Hmap. exists map. split; [done|].
  assert (Hlast : core ((c2 <| session_started := 2 |>) <| live := false |>) =
    (core c) <| r_ppp := false |> <| r_ss := 2 |> <| r_live := false |>).
  { change (core ((c2 <| session_started := 2 |>) <| live := false |>)) with ((core c2) <| r_ss := 2 |> <| r_live := false |>). by rewrite Hcore. }
  transitivity ((r_put i ((core c) <| r_ppp := false |> <| r_ss := 2 |> <| r_live := false |>) (view s5))
    <| r_map := map |> <| r_calls ::= filter (fun x => x.1 <> i) |>).
  { rewrite <- Hlast. unfold view, put_conn. cbn. by rewrite list_fmap_insert. }
  rewrite Hfin, Hv1, Hv0. unfold r_disconnect, r_leave. cbv zeta.
  destruct (r_ppp (core c)), (r_ss (core c) =? 1), (r_ss (core c) =? 0); unfold r_put, view; cbn; rewrite ?list_insert_insert_eq; done.
Qed.

(** ** Every step *)

Lemma inv_conn s i c :
  inv (view s) -> get_conn s i = Some c ->
  (session_started c = 0 \/ session_started c = 1 \/ session_started c = 2) /\ is_u16 (sid c) /\ length (addr c) = 6%nat.
Proof.
  intros Hi Hc. apply get_view in Hc. split; [exact (v_ss _ Hi i _ Hc)|]. destruct (v_sid _ Hi i _ Hc) as (H1 & _ & H3).
  split; [|exact H3]. unfold is_u16, SID_MAX in *. cbn in *. lia.
Qed.

Lemma connect_sim ok radius cf i l s s' :
  inv (view s) -> dequeue i Call_connect (calls s) l -> connect_channel ok radius cf i (s <| calls := l |>) = Some s' ->
  rstep (view s) (view s').
Proof.
  intros Hi Hd. unfold connect_channel. cbv zeta. set (s1 := (s <| calls := l |>) <| stat_starting ::= _ |>).
  assert (Hv1 : view s1 = (view s) <| r_calls := l |> <| r_starting ::= fun n => u32 (n + 1) |>) by done.
  assert (Hg : get_conn s1 i = get_conn s i) by done. destruct (negb ok) eqn:Eok.
  - intros H. assert (exists c, get_conn s i = Some c) as [c Hc].
    { unfold disconnect in H. apply bind_Some in H as (c & Hc & _). exists c. by rewrite <- Hg. }
    destruct (inv_conn s i c Hi Hc) as (H1 & H2 & H3).
    destruct (disconnect_view false cf i c s1 s') as (map & Hmap & ->); try done. rewrite Hv1.
    by apply (R_connect_fails (view s) i (core c) l map); [apply get_view| |].
  - intros H. apply bind_Some in H as (c & Hc & H). injection H as <-. rewrite Hg in Hc.
    match goal with |- rstep _ ?v => assert (E : v =
      r_connect i (core c) ((view s) <| r_calls := l |> <| r_starting ::= fun n => u32 (n + 1) |>)) end.
    { unfold view, put_conn, r_connect, r_put. cbn. by rewrite list_fmap_insert. }
    rewrite E.
    by apply (R_connect (view s) i (core c) l); [apply get_view|].
Qed.

Lemma started_sim i c s s' :
  get_conn s i = Some c -> ppp_started c = true -> session_started c = 0 -> started_cb i s = Some s' -> rstep (view s) (view s').
Proof.
  intros Hc Hp Hs. unfold started_cb. rewrite Hc. cbn [mbind option_bind]. intros [= <-].
  match goal with |- rstep _ ?v => assert (E : v = r_start i (core c) (view s)) end.
  { unfold view, put_conn, r_start, r_put. cbn. by rewrite list_fmap_insert. }
  rewrite E. by apply R_started; [apply get_view| |].
Qed.

Lemma finished_sim i c s s' :
  inv (view s) -> get_conn s i = Some c -> ppp_started c = true -> finished_cb i s = Some s' -> rstep (view s) (view s').
Proof.
  intros Hi Hc Hp. destruct (inv_conn s i c Hi Hc) as (Hss & _). unfold finished_cb. rewrite Hc. cbn [mbind option_bind]. rewrite Hp.
  intros H%(inj Some). destruct (get_lookup s i c Hc) as [_ Hl].
  assert (E : view s' = r_finish i (core c) (view s)).
  { rewrite <- H. unfold leave_stats, r_finish, r_leave. change (session_started (c <| ppp_started := false |>)) with (session_started c).
    cbn [core r_ss]. destruct Hss as [Es|[Es|Es]]; rewrite Es; cbn [Z.eqb Pos.eqb]; unfold view, put_conn, r_put; cbn;
      rewrite list_fmap_insert; destruct c; cbn in *; subst; done. }
  rewrite E. by apply R_finished; [apply get_view|].
Qed.

Lemma step_sim cf mf s s' : inv (view s) -> step cf mf s s' -> sim s s'.
Proof.
  intros Hi Hs. revert Hi.
  destruct Hs as [e f s s' Hb Hf H|e k s s' H|i ok radius l s s' Hd H|i fin l s s' Hd H|i s s' Hin H|i c s s' Hc Hp Hz H|
    i c s s' Hc Hp H|i c s b1 b2 Hc|s a b n]; intros Hi.
  - unfold pppoe_serv_read in H. destruct (_ =? CODE_PADI); [left; by eapply PADI_view|].
    destruct (_ =? CODE_PADR); [by eapply PADR_sim|]. destruct (_ =? CODE_PADT); [by eapply PADT_sim|].
    injection H as <-. by left.
  - left. by eapply pado_timer_view.
  - right. by eapply connect_sim.
  - right. assert (exists c, get_conn s i = Some c) as [c Hc].
    { unfold disconnect in H. apply bind_Some in H as (c & Hc & _). by exists c. }
    destruct (inv_conn s i c Hi Hc) as (H1 & H2 & H3).
    destruct (disconnect_view fin cf i c (s <| calls := l |>) s') as (map & Hmap & ->); try done.
    by apply (R_disconnect (view s) i (core c) l map); [apply get_view| |].
  - unfold pppoe_conn_close in H. apply bind_Some in H as (c & Hc & H). destruct (ppp_started c) eqn:Ep; [injection H as <-; by left|].
    destruct (inv_conn s i c Hi Hc) as (H1 & H2 & H3). right.
    destruct (disconnect_view false cf i c s s') as (map & Hmap & ->); try done.
    by apply (R_close (view s) i (core c) map); [apply get_view| | |].
  - right. by eapply started_sim.
  - right. by eapply finished_sim.
  - left. by apply (put_same s i c).
  - by left.
Qed.

(** ** Every run *)

Definition empty_reg : reg := mk_reg [] sid_map_init 0 0 0 0 [] 0 ∅ ∅.

Lemma empty_inv : inv empty_reg.
Proof.
  assert (Hg : forall i, rget empty_reg i = None) by done.
  split; try (intros *; rewrite ?Hg; done).
  - intros k i. cbn [r_cookies empty_reg]. rewrite lookup_empty. split; [done|intros (c & Hc & _); by rewrite Hg in Hc].
  - intros k i. cbn [r_macs empty_reg]. rewrite lookup_empty. split; [done|intros (c & Hc & _); by rewrite Hg in Hc].
  - intros i x Hx. by apply not_elem_of_nil in Hx.
  - intros i. cbn. apply not_elem_of_nil.
Qed.

Lemma run_sim cf mf s s' : inv (view s) -> rtc (step cf mf) s s' -> inv (view s') /\ rtc rstep (view s) (view s').
Proof.
  intros Hi Hs. revert Hi. induction Hs as [s|s s1 s' H1 _ IH]; intros Hi; [by split|].
  destruct (step_sim cf mf s s1 Hi H1) as [E|Hr]; [rewrite <- E; apply IH; by rewrite E|].
  destruct (IH (rstep_inv _ _ Hi Hr)) as [H2 H3]. split; [done|]. by eapply rtc_l.
Qed.


End Runs.

Module Handshake.
Import PppChan PppoeDisc Tags Frames Padi Sids Registry Runs.

(** A frame of the client with a list of tags. *)
Definition client_frame (dst src : list Z) (code : Z) (ts : list pppoe_tag) : list Z :=
  pppoe_send (mk_pack (pk_head (setup_header src dst code 0)) (concat (tag_bytes <$> ts))).

Lemma client_frame_eq dst src code ts :
  client_frame dst src code ts =
  dst ++ src ++ [136; 99; 17; u8 code; 0; 0; u8 (Z.shiftr (size_of ts) 8); u8 (size_of ts)] ++ concat (tag_bytes <$> ts).
Proof.
  unfold client_frame, pppoe_send, setup_header, pk_length, size_of. cbn [pk_head pk_tags]. rewrite <- !app_assoc. done.
Qed.

Lemma six_bytes (l : list Z) : length l = 6%nat -> exists a b c d e f, l = [a; b; c; d; e; f].
Proof. destruct l as [|a [|b [|c [|d [|e [|f [|? ?]]]]]]]; try discriminate. intros _. by eexists _, _, _, _, _, _. Qed.

Lemma frame_fields dst src code ts :
  length dst = 6%nat -> length src = 6%nat -> is_u16 (size_of ts) ->
  let f := client_frame dst src code ts in
  h_dest f = dst /\ h_source f = src /\ hdr_sid f = 0 /\ hdr_length f = size_of ts /\ hdr_code f = u8 code /\
  drop 20 f = concat (tag_bytes <$> ts) /\ length f = (20 + length (concat (tag_bytes <$> ts)))%nat.
Proof.
  intros Hd Hs Hl f. destruct (six_bytes dst Hd) as (d0 & d1 & d2 & d3 & d4 & d5 & ->).
  destruct (six_bytes src Hs) as (b0 & b1 & b2 & b3 & b4 & b5 & ->). subst f. rewrite client_frame_eq.
  cbn [app]. split_and!; try done. unfold hdr_length. cbn. by apply of_be16_be16.
Qed.

Lemma over_frame {A} (h : pppoe_tag -> A -> A) dst src code ts a :
  length dst = 6%nat -> length src = 6%nat -> is_u16 (size_of ts) ->
  Forall tag_ok ts -> Forall (fun t => tag_type t <> TAG_END_OF_LIST) ts ->
  over_tags h (client_frame dst src code ts) a = Some (Some (fold_left (fun a t => h t a) ts a)).
Proof.
  intros Hd Hs Hl Hok Hend. destruct (frame_fields dst src code ts Hd Hs Hl) as (_ & _ & _ & Hlen & _ & Hdrop & Hf).
  unfold over_tags. rewrite Hlen. apply (walk_tags_app h _ [] ts); try done. rewrite Hf.
  clear. assert (length ts <= length (concat (tag_bytes <$> ts)))%nat; [|lia].
  induction ts as [|t ts IH]; [done|]. cbn [fmap list_fmap concat]. rewrite length_app.
  unfold tag_bytes at 1. cbn [be16 app length]. lia.
Qed.

(** ** What a client sends *)

Record client := mk_client {
  cl_src : list Z; cl_service : pppoe_tag; cl_host_uniq : option pppoe_tag; cl_relay : option pppoe_tag }.

Definition client_ok (c : client) : Prop :=
  length (cl_src c) = 6%nat /\ (tag_ok (cl_service c) /\ tag_type (cl_service c) = TAG_SERVICE_NAME) /\
  (forall t, cl_host_uniq c = Some t -> tag_ok t /\ tag_type t = TAG_HOST_UNIQ) /\
  (forall t, cl_relay c = Some t -> tag_ok t /\ tag_type t = TAG_RELAY_SESSION_ID).

Definition cl_tags (c : client) : list pppoe_tag := [cl_service c] ++ opt_tags (cl_host_uniq c) ++ opt_tags (cl_relay c).
Definition padi_frame (c : client) : list Z := client_frame bc_addr (cl_src c) CODE_PADI (cl_tags c).
Definition padr_frame (c : client) (dst ck : list Z) : list Z :=
  client_frame dst (cl_src c) CODE_PADR (cl_tags c ++ [mk_tag TAG_AC_COOKIE ck]).

Lemma cl_tags_ok c :
  client_ok c -> Forall tag_ok (cl_tags c) /\ Forall (fun t => tag_type t <> TAG_END_OF_LIST) (cl_tags c).
Proof.
  intros (_ & [H1 H2] & H3 & H4). unfold cl_tags.
  split; (apply Forall_app; split; [constructor; [|constructor]|apply Forall_app; split]); try done; try (by rewrite H2).
  - destruct (cl_host_uniq c); constructor; [by apply H3|constructor].
  - destruct (cl_relay c); constructor; [by apply H4|constructor].
  - destruct (cl_host_uniq c) as [t|]; constructor; [by rewrite (proj2 (H3 t eq_refl))|constructor].
  - destruct (cl_relay c) as [t|]; constructor; [by rewrite (proj2 (H4 t eq_refl))|constructor].
Qed.

Lemma padi_tag_cases cf ic t a :
  (tag_type t = TAG_SERVICE_NAME -> padi_tag cf ic t a = a <| f_service_name := Some t |> <| f_service_match ::= padi_service cf ic t |>) /\
  (tag_type t = TAG_HOST_UNIQ -> padi_tag cf ic t a = a <| f_host_uniq := Some t |>) /\
  (tag_type t = TAG_RELAY_SESSION_ID -> padi_tag cf ic t a = a <| f_relay_sid := Some t |>).
Proof. unfold padi_tag. split_and!; intros ->; done. Qed.

Lemma padr_tag_cases cf ic t a :
  (tag_type t = TAG_SERVICE_NAME -> padr_tag cf ic t a = a <| f_service_name := Some t |> <| f_service_match ::= padr_service cf ic t |>) /\
  (tag_type t = TAG_HOST_UNIQ -> padr_tag cf ic t a = a <| f_host_uniq := Some t |>) /\
  (tag_type t = TAG_RELAY_SESSION_ID -> padr_tag cf ic t a = a <| f_relay_sid := Some t |>) /\
  (tag_type t = TAG_AC_COOKIE -> padr_tag cf ic t a = a <| f_ac_cookie := Some t |>).
Proof. unfold padr_tag. split_and!; intros ->; done. Qed.

Lemma padi_found cf ic c m :
  client_ok c ->
  fold_left (fun a t => padi_tag cf ic t a) (cl_tags c) (nothing m) =
  mk_found (cl_host_uniq c) (cl_relay c) (Some (cl_service c)) None None (padi_service cf ic (cl_service c) m) 0.
Proof.
  intros (_ & [_ H2] & H3 & H4). unfold cl_tags. rewrite !fold_left_app. cbn [fold_left].
  rewrite (proj1 (padi_tag_cases cf ic (cl_service c) _) H2).
  destruct (cl_host_uniq c) as [hu|]; cbn [opt_tags fold_left];
    [rewrite (proj1 (proj2 (padi_tag_cases cf ic hu _)) (proj2 (H3 hu eq_refl)))|];
  (destruct (cl_relay c) as [rs|]; cbn [opt_tags fold_left];
    [rewrite (proj2 (proj2 (padi_tag_cases cf ic rs _)) (proj2 (H4 rs eq_refl)))|]); done.
Qed.

Lemma padr_found cf ic c ck :
  client_ok c ->
  fold_left (fun a t => padr_tag cf ic t a) (cl_tags c ++ [mk_tag TAG_AC_COOKIE ck]) (nothing false) =
  mk_found (cl_host_uniq c) (cl_relay c) (Some (cl_service c)) (Some (mk_tag TAG_AC_COOKIE ck)) None
    (padr_service cf ic (cl_service c) false) 0.
Proof.
  intros (_ & [_ H2] & H3 & H4). unfold cl_tags. rewrite !fold_left_app. cbn [fold_left].
  rewrite (proj1 (padr_tag_cases cf ic (cl_service c) _) H2).
  rewrite (proj2 (proj2 (proj2 (padr_tag_cases cf ic (mk_tag TAG_AC_COOKIE ck) _))) eq_refl).
  destruct (cl_host_uniq c) as [hu|]; cbn [opt_tags fold_left];
    [rewrite (proj1 (proj2 (padr_tag_cases cf ic hu _)) (proj2 (H3 hu eq_refl)))|];
  (destruct (cl_relay c) as [rs|]; cbn [opt_tags fold_left];
    [rewrite (proj1 (proj2 (proj2 (padr_tag_cases cf ic rs _))) (proj2 (H4 rs eq_refl)))|]); done.
Qed.

(** ** The two halves *)

(** No limit of the server is reached, and it serves the client. *)
Definition ready (cf : pppoe_conf) (e : pppoe_env) (s : pppoe_st) : Prop :=
  ap_shutdown e = false /\ pado_delay e = 0 /\ find_delay cf (ifname (serv s)) = 0 /\ too_many cf s = false /\
  test_limit cf s = false /\ mem_ok e = true /\ 8 <= mtu (serv s).

Definition served (cf : pppoe_conf) (s : pppoe_st) (c : client) : Prop :=
  let ic := find_iface cf (ifname (serv s)) in
  padi_service cf ic (cl_service c) (empty (conf_service_name cf)) || accept_any cf ic = true /\
  padr_service cf ic (cl_service c) false || accept_any cf ic = true.

Definition fits (cf : pppoe_conf) (c : client) : Prop :=
  room cf (cl_host_uniq c) (cl_relay c) (Some (cl_service c)) + 6 < sizeof_pack.

Lemma cl_size c : size_of (cl_tags c) = 4 + tag_len (cl_service c) + opt_size (cl_host_uniq c) + opt_size (cl_relay c).
Proof. unfold cl_tags. rewrite !size_of_app, size_of_one, !size_of_opt. lia. Qed.

Lemma fits_sizes cf c : fits cf c -> is_u16 (size_of (cl_tags c)) /\ size_of (cl_tags c) + 58 < sizeof_pack.
Proof.
  unfold fits, room. rewrite cl_size. cbn [opt_size]. pose proof (opt_size_nonneg (cl_host_uniq c)).
  pose proof (opt_size_nonneg (cl_relay c)). assert (0 <= tag_len (cl_service c)) by (unfold tag_len; lia).
  change sizeof_pack with 1518. intros Hr. split; [unfold is_u16; lia|lia].
Qed.

Lemma accept_cases (a b : bool) : a || b = true -> negb a && negb b = false.
Proof. by destruct a, b. Qed.

Lemma padi_answered cf e s c :
  Cookie.keyed (serv s) -> client_ok c -> ready cf e s -> served cf s c -> fits cf c ->
  padi_limit (serv s) = 0 -> connlimit e (cl_src c) = false ->
  exists p s', pppoe_recv_PADI cf e (padi_frame c) s = Some s' /\ sent s' = sent s ++ [pppoe_send p] /\
    holds p (pk_head (setup_header (hwaddr (serv s)) (cl_src c) CODE_PADO 0))
      (PADO_tags cf (tv_sec (now e)) (serv s) (cl_src c) (cl_host_uniq c) (cl_relay c) (Some (cl_service c)) 0).
Proof.
  intros Hv Hc (R1 & R2 & R3 & R4 & R5 & R6 & R7) [Hsv _] Hfit Hlim Hcl. pose proof Hc as (Hsrc & _).
  destruct (fits_sizes cf c Hfit) as [Hsz _]. destruct (cl_tags_ok c Hc) as [Hok Hend].
  destruct (frame_fields bc_addr (cl_src c) CODE_PADI (cl_tags c) eq_refl Hsrc Hsz) as (_ & F2 & F3 & _).
  unfold pppoe_recv_PADI, padi_frame. cbv zeta. rewrite F2, F3.
  set (s0 := s <| stat_PADI_recv ::= _ |>). change (serv s0) with (serv s).
  change (too_many cf s0) with (too_many cf s). rewrite R1, R2, R3, R4. cbn [Z.eqb orb].
  unfold check_padi_limit. change (serv s0) with (serv s). rewrite Hlim, Hcl. cbn [Z.eqb negb]. change (serv s0) with (serv s).
  change (test_limit cf s0) with (test_limit cf s). rewrite R5.
  rewrite over_frame, (padi_found cf _ c) by done. cbn [mbind option_bind f_service_match].
  rewrite (accept_cases _ _ Hsv). unfold answer_padi. cbn [f_ppp_max_payload f_host_uniq f_relay_sid f_service_name].
  change (serv s0) with (serv s). rewrite (proj2 (Z.ltb_ge _ _)) by lia. rewrite R2. cbn [Z.eqb negb andb].
  unfold pppoe_send_PADO. change (serv s0) with (serv s).
  destruct (PADO_builds cf (tv_sec (now e)) (serv s) (cl_src c) (cl_host_uniq c) (cl_relay c) (Some (cl_service c)) 0 Hv Hfit) as (p & -> & Hp).
  cbn [mbind option_bind]. eexists p, _. split; [reflexivity|]. split; [done|done].
Qed.

Lemma PADS_builds cf v c :
  20 + (4 + Z.of_nat (length (conf_ac_name cf))) + (4 + tag_len (service_name c)) + opt_size (host_uniq c) + opt_size (relay_sid c) < sizeof_pack ->
  max_mtu c <= ETH_DATA_LEN - 8 ->
  exists p, PADS_pack cf v c = Some p /\
    holds p (pk_head (setup_header (hwaddr v) (addr c) CODE_PADS (sid c)))
      ([mk_tag TAG_AC_NAME (conf_ac_name cf)] ++ [service_name c] ++ opt_tags (host_uniq c) ++ opt_tags (relay_sid c)).
Proof.
  pose proof (opt_size_nonneg (host_uniq c)) as N2. pose proof (opt_size_nonneg (relay_sid c)) as N3.
  assert (N1 : 0 <= tag_len (service_name c)) by (unfold tag_len; lia). intros Hr Hm. unfold PADS_pack. cbv zeta.
  set (h := pk_head _). assert (H0 : holds (setup_header (hwaddr v) (addr c) CODE_PADS (sid c)) h []) by done.
  apply (put_tag_holds _ _ _ TAG_AC_NAME (conf_ac_name cf)) in H0; [|unfold size_of; cbn; lia]. cbn [app] in H0.
  assert (S1 : size_of [mk_tag TAG_AC_NAME (conf_ac_name cf)] = 4 + Z.of_nat (length (conf_ac_name cf))) by apply size_of_one.
  destruct (put_tag2_holds _ _ _ (service_name c) H0) as (p1 & -> & H1); [lia|]. cbn [mbind option_bind].
  destruct (put_opt_holds _ _ _ (host_uniq c) H1) as (p2 & -> & H2); [rewrite size_of_app, S1, size_of_one; lia|]. cbn [mbind option_bind].
  destruct (put_opt_holds _ _ _ (relay_sid c) H2) as (p3 & -> & H3); [rewrite !size_of_app, S1, size_of_one, size_of_opt; lia|].
  cbn [mbind option_bind]. rewrite (proj2 (Z.ltb_ge _ _)) by lia. exists p3. split; [done|]. by rewrite <- !app_assoc in H3.
Qed.

(** The server can take one more connection. *)
Definition has_room (cf : pppoe_conf) (s : pppoe_st) : Prop :=
  negb (conf_max_starting cf =? 0) && (u32 (conf_max_starting cf) <=? ap_incoming s) = false /\
  exists id, 0 <= id < SID_MAX /\ sid_free (sid_map s) id = true.

(** A connection opened: it is new, it has an id nobody had, and the client is told. *)
Definition opened (cf : pppoe_conf) (c : client) (s s' : pppoe_st) : Prop :=
  exists d p, conns s' = conns s ++ [d] /\ live d = true /\ addr d = cl_src c /\ service_name d = cl_service c /\
    0 < sid d < SID_MAX /\ sid_free (sid_map s) (sid d) = true /\
    sent s' = sent s ++ [pppoe_send p] /\
    holds p (pk_head (setup_header (hwaddr (serv s)) (cl_src c) CODE_PADS (sid d)))
      ([mk_tag TAG_AC_NAME (conf_ac_name cf)] ++ [cl_service c] ++ opt_tags (cl_host_uniq c) ++ opt_tags (cl_relay c)) /\
    calls s' = calls s ++ [(length (conns s), Call_connect)].

Lemma open_opens cf e c ck s m :
  inv (view s) -> has_room cf s -> mem_ok e = true -> 8 <= mtu (serv s) -> fits cf c ->
  exists s', open_channel cf e (cl_src c) ck
    (mk_found (cl_host_uniq c) (cl_relay c) (Some (cl_service c)) (Some (mk_tag TAG_AC_COOKIE ck)) None m 0) s = Some s' /\
    opened cf c s s'.
Proof.
  intros Hi [Hlim (id0 & Hid0 & Hfree0)] Hm Hmtu Hfit. unfold open_channel. rewrite Hlim. cbv zeta.
  set (s0 := s <| ap_incoming ::= _ |>). unfold allocate_channel. rewrite Hm. cbn [negb].
  cbn [f_host_uniq f_relay_sid f_service_name f_tr101 f_ppp_max_payload].
  destruct (v_map _ Hi) as (Hwf & Hidx & H0).
  destruct (take_sid_found s0 Hwf Hidx) as (id & s1 & -> & _ & _ & Hs1 & Hcase). cbn [mbind option_bind].
  destruct Hcase as [(Hid & Hfree & _)|(_ & _ & Hnone)].
  2: { pose proof (Hnone id0 Hid0) as Hn. change (sid_map s0) with (sid_map s) in Hn. congruence. }
  assert (Hid1 : id <> 0) by (intros ->; cbn in H0; change (sid_map s0) with (sid_map s) in Hfree; congruence).
  rewrite (proj2 (Z.eqb_neq _ _) Hid1). cbn [mbind option_bind].
  assert (Hsv : serv s1 = serv s) by (by rewrite Hs1). assert (Hcn : conns s1 = conns s) by (by rewrite Hs1).
  assert (Hst : sent s1 = sent s) by (by rewrite Hs1). assert (Hcl : calls s1 = calls s) by (by rewrite Hs1). rewrite Hsv, Hcn.
  set (d := new_conn cf (serv s) id (cl_src c) _ _ _ _ ck 0). set (s2 := s1 <| conns ::= _ |> <| serv ::= _ |>).
  assert (Hg : get_conn s2 (length (conns s)) = Some d).
  { unfold get_conn. change (conns s2) with (conns s1 ++ [d]). rewrite Hcn, lookup_app_r, Nat.sub_diag by lia. done. }
  unfold pppoe_send_PADS. rewrite Hg. cbn [mbind option_bind].
  destruct (PADS_builds cf (serv s2) d) as (p & -> & Hp).
  { pose proof Hfit as Hf. unfold fits, room in Hf. cbn [opt_size] in Hf. cbn [service_name host_uniq relay_sid d new_conn]. lia. }
  { change (max_mtu d) with (Z.min ETH_DATA_LEN (mtu (serv s)) - 8). lia. }
  cbn [mbind option_bind]. eexists. split; [reflexivity|]. exists (d <| pppoe_sid := sid d |> <| client_mac := addr d |>), p.
  split_and!; try done; try lia.
  - change (<[length (conns s) := d <| pppoe_sid := sid d |> <| client_mac := addr d |>]> (conns s1 ++ [d]) =
      conns s ++ [d <| pppoe_sid := sid d |> <| client_mac := addr d |>]). rewrite Hcn, insert_app_r_alt by lia.
    by rewrite Nat.sub_diag.
  - change (0 < id). lia.
  - change (id < SID_MAX). lia.
  - change (sent s1 ++ [pppoe_send p] = sent s ++ [pppoe_send p]). by rewrite Hst.
  - change (hwaddr (serv s2)) with (hwaddr (serv s1)) in Hp. by rewrite Hsv in Hp.
  - change (calls s1 ++ [(length (conns s), Call_connect)] = calls s ++ [(length (conns s), Call_connect)]). by rewrite Hcl.
Qed.

Lemma padr_accepted cf e s c dst ck :
  inv (view s) -> client_ok c -> ready cf e s -> served cf s c -> fits cf c -> has_room cf s ->
  length dst = 6%nat -> dst <> bc_addr -> length ck = 24%nat -> bytes_ok ck ->
  check_cookie (tv_sec (now e)) (serv s) (cl_src c) ck (cl_relay c) = false ->
  cookie_2_conn (serv s) !! take (COOKIE_LENGTH - 4) ck = None ->
  exists s', pppoe_recv_PADR cf e (padr_frame c dst ck) s = Some s' /\ opened cf c s s'.
Proof.
  intros Hi Hc (R1 & R2 & R3 & R4 & R5 & R6 & R7) [_ Hsv] Hfit Hroom Hdst Hbc Hlck Hbck Hck Htab. pose proof Hc as (Hsrc & _).
  destruct (fits_sizes cf c Hfit) as [Hsz Hsz']. destruct (cl_tags_ok c Hc) as [Hok Hend].
  set (ts := cl_tags c ++ [mk_tag TAG_AC_COOKIE ck]).
  assert (Hts : is_u16 (size_of ts)).
  { unfold ts. rewrite size_of_app, size_of_one. unfold tag_len. cbn [tag_data]. change sizeof_pack with 1518 in Hsz'.
    unfold is_u16 in *. lia. }
  assert (Hok' : Forall tag_ok ts).
  { apply Forall_app; split; [done|]. constructor; [|constructor]. split; [done|]. split; [|done]. unfold tag_len. cbn [tag_data]. by rewrite Hlck. }
  assert (Hend' : Forall (fun t => tag_type t <> TAG_END_OF_LIST) ts) by (apply Forall_app; split; [done|by repeat constructor]).
  destruct (frame_fields dst (cl_src c) CODE_PADR ts Hdst Hsrc Hts) as (F1 & F2 & F3 & _).
  unfold pppoe_recv_PADR, padr_frame. fold ts. cbv zeta. rewrite F1, F2, F3.
  set (s0 := s <| stat_PADR_recv ::= _ |>). change (serv s0) with (serv s). change (too_many cf s0) with (too_many cf s).
  change (test_limit cf s0) with (test_limit cf s). rewrite R1, R4, R5, (bool_decide_false _ Hbc). cbn [Z.eqb negb].
  rewrite over_frame by done. unfold ts. rewrite (padr_found cf _ c ck) by done. cbn [mbind option_bind].
  unfold answer_padr. cbn [f_ac_cookie]. change (tag_data (mk_tag TAG_AC_COOKIE ck)) with ck.
  assert (tag_len (mk_tag TAG_AC_COOKIE ck) = 24) as -> by (unfold tag_len; cbn [tag_data]; lia). cbn [Z.eqb Z.of_nat COOKIE_LENGTH Pos.eqb negb].
  change (serv s0) with (serv s). cbn [f_relay_sid f_service_match]. rewrite Hck, (accept_cases _ _ Hsv), Htab.
  assert (Hi0 : inv (view s0)) by done.
  destruct (open_opens cf e c ck s0 (padr_service cf (find_iface cf (ifname (serv s))) (cl_service c) false)) as (s' & -> & Ho); try done.
  exists s'. split; [done|]. done.
Qed.


End Handshake.

Module PppoeDemo.
Import PppChan PppoeDisc Tags Frames Padi Sids Registry Runs Handshake.

Definition demo_serv : pppoe_serv_t :=
  {| hwaddr := [2; 0; 0; 0; 0; 1]; ifname := "eth0"; mtu := 1500; serv_vid := 0;
     secret := [1; 2; 3; 4; 5; 6; 7; 8; 9; 10; 11; 12; 13; 14; 15; 16];
     des_ks := DES_set_key [1; 35; 69; 103; 137; 171; 205; 239]; conn_cnt := 0; cookie_2_conn := ∅; mac_sessid_2_conn := ∅;
     pado_list := []; padi_list := []; padi_cnt := 0; padi_limit := 0; last_padi_limit_warn := 0; serv_timer := false;
     stopping := false; vlan_mon := false |}.

Definition demo_conf : pppoe_conf :=
  {| conf_verbose := false; conf_service_name := []; conf_accept_any_service := false; conf_accept_blank_service := false;
     conf_ac_name := [98; 110; 103]; conf_ifname_in_sid := 0; conf_tr101 := true; conf_padi_limit := 0;
     conf_sid_uppercase := false; conf_called_sid := CSID_MAC; conf_cookie_timeout := 5; conf_interface_config := [];
     conf_interface_pado_delay := []; conf_max_starting := 0; conf_max_sessions := 0; conf_vlan_timeout := 0;
     conf_session_timeout := 0; conf_ip_pool := None; conf_ipv6_pool := None; conf_dpv6_pool := None; conf_ifname := None;
     test_parameter := 0 |}.

Definition demo_st : pppoe_st :=
  {| serv := demo_serv; conns := []; sid_map := sid_map_init; sid_idx := 0; stat_starting := 0; stat_session_active := 0;
     stat_active := 0; stat_delayed_pado := 0; stat_PADI_recv := 0; stat_PADI_drop := 0; stat_PADO_sent := 0;
     stat_PADR_recv := 0; stat_PADR_dup_recv := 0; stat_PADS_sent := 0; total_padi_cnt := 0; ap_starting := 0;
     ap_active := 0; ap_incoming := 0; calls := []; serv_calls := []; sent := [] |}.

Definition demo_env (t : Z) : pppoe_env :=
  {| now := mk_ts t 0; ap_shutdown := false; pado_delay := 0; mem_ok := true; connlimit := fun _ => false |}.

Definition demo_client : client :=
  mk_client [2; 0; 0; 0; 0; 9] (mk_tag TAG_SERVICE_NAME []) (Some (mk_tag TAG_HOST_UNIQ [1; 2; 3; 4])) None.

Definition demo_cookie : list Z :=
  generate_cookie 5 100 demo_serv (cl_src demo_client) (cl_host_uniq demo_client) (cl_relay demo_client).

Definition no_filter (_ : list Z) : bool := false.

(** The client's PADI and PADR, the first call of the connection, its PADT, and the end. *)
Definition then_ (o : option pppoe_st) : pppoe_st := default demo_st o.
Definition run1 : pppoe_st := then_ (pppoe_serv_read demo_conf (demo_env 100) (padi_frame demo_client) demo_st).
Definition run2 : pppoe_st :=
  then_ (pppoe_serv_read demo_conf (demo_env 103) (padr_frame demo_client (hwaddr demo_serv) demo_cookie) run1).
Definition run3 : pppoe_st := then_ (connect_channel true false demo_conf 0 (run2 <| calls := [] |>)).
Definition padt_frame : list Z := pppoe_send (setup_header (cl_src demo_client) (hwaddr demo_serv) CODE_PADT 1).
Definition run4 : pppoe_st := then_ (pppoe_serv_read demo_conf (demo_env 104) padt_frame run3).
Definition run5 : pppoe_st := then_ (disconnect true demo_conf 0 (run4 <| calls := [] |>)).

Lemma demo_bytes : bytes_ok (padi_frame demo_client) /\ bytes_ok (padr_frame demo_client (hwaddr demo_serv) demo_cookie) /\ bytes_ok padt_frame.
Proof.
  split_and!; apply Forall_forall; intros b Hb;
    (assert (Hall : forallb (fun b => (0 <=? b) && (b <? 256)) (padi_frame demo_client ++ padr_frame demo_client (hwaddr demo_serv) demo_cookie ++ padt_frame) = true)
      by (vm_compute; reflexivity));
    rewrite forallb_forall in Hall; specialize (Hall b);
    (assert (Hin : In b (padi_frame demo_client ++ padr_frame demo_client (hwaddr demo_serv) demo_cookie ++ padt_frame))
      by (rewrite !in_app_iff; apply list_elem_of_In in Hb; tauto));
    specialize (Hall Hin); to_prop; unfold is_u8; lia.
Qed.

Lemma pppoe_demo_run : rtc (step demo_conf no_filter) demo_st run5.
Proof.
  destruct demo_bytes as (B1 & B2 & B3).
  apply rtc_l with run1; [apply (S_frame _ _ (demo_env 100) (padi_frame demo_client)); [exact B1|by vm_compute|by vm_compute]|].
  apply rtc_l with run2; [apply (S_frame _ _ (demo_env 103) (padr_frame demo_client (hwaddr demo_serv) demo_cookie)); [exact B2|by vm_compute|by vm_compute]|].
  apply rtc_l with run3; [apply (S_connect _ _ 0 true false []); [by exists [], []|by vm_compute]|].
  apply rtc_l with run4; [apply (S_frame _ _ (demo_env 104) padt_frame); [exact B3|by vm_compute|by vm_compute]|].
  apply rtc_l with run5; [apply (S_disconnect _ _ 0 true []); [by exists [], []|by vm_compute]|]. apply rtc_refl.
Qed.

Lemma demo_counts : (stat_active run3, conn_cnt (serv run3), stat_active run5, conn_cnt (serv run5), length (sent run5)) = (1, 1, 0, 0, 3%nat).
Proof. by vm_compute. Qed.


Lemma cookie_exact_witness :
  Cookie.keyed demo_serv /\ check_cookie 105 demo_serv (cl_src demo_client) demo_cookie None = false.
Proof.
  assert (Hk : Cookie.keyed demo_serv) by (exists [1; 35; 69; 103; 137; 171; 205; 239]; reflexivity).
  split; [exact Hk|]. apply (proj2 (Cookie.cookie_exact demo_serv (cl_src demo_client) Hk)). split; [vm_compute; discriminate|reflexivity].
Defined.

(** A PADI of one Host-Uniq tag that overruns the buffer of the PADO by three bytes, and one
    that does not. *)
Definition long_padi (n : nat) : list Z :=
  client_frame bc_addr [2; 0; 0; 0; 0; 9] CODE_PADI [mk_tag TAG_SERVICE_NAME []; mk_tag TAG_HOST_UNIQ (replicate n 7)].

Lemma long_padi_overruns :
  (disc_frame_ok no_filter (long_padi 1458), pppoe_recv_PADI demo_conf (demo_env 100) (long_padi 1458) demo_st) = (true, None).
Proof. by vm_compute. Qed.

Lemma padi_memory_witness :
  bytes_ok (padi_frame demo_client) /\ is_Some (pppoe_recv_PADI demo_conf (demo_env 100) (padi_frame demo_client) demo_st).
Proof.
  split; [exact (proj1 demo_bytes)|].
  apply (proj1 (padi_memory demo_conf (demo_env 100) demo_st (padi_frame demo_client) no_filter
    (ex_intro _ [1; 35; 69; 103; 137; 171; 205; 239] eq_refl) eq_refl (proj1 demo_bytes) eq_refl)). vm_compute. reflexivity.
Defined.

(** With [accept-any-service], a PADR without a Service-Name tag ends in a null pointer. *)
Lemma padr_null_service :
  pppoe_recv_PADR (demo_conf <| conf_accept_any_service := true |>) (demo_env 103)
    (client_frame (hwaddr demo_serv) (cl_src demo_client) CODE_PADR [mk_tag TAG_AC_COOKIE demo_cookie]) demo_st = None.
Proof. by vm_compute. Qed.

Lemma sid_release_witness :
  map_wf sid_map_init /\ 0 <= 33 < SID_MAX /\ (exists map', put_sid_x86 33 sid_map_init = Some map' /\ sid_free map' 1 = true).
Proof.
  assert (H33 : 0 <= 33 < SID_MAX) by (split; [discriminate|reflexivity]).
  split; [reflexivity|]. split; [exact H33|].
  destruct (proj2 (proj2 (sid_release 33 sid_map_init eq_refl H33))) as (m & H1 & H2 & _).
  exists m. split; [exact H1|]. rewrite H2; [reflexivity|split; [discriminate|reflexivity]|discriminate].
Defined.

Lemma demo_client_ok : client_ok demo_client.
Proof.
  split; [reflexivity|]. split; [split; [|reflexivity]|split].
  - split; [by vm_compute|]. split; [by vm_compute|constructor].
  - intros t [= <-]. split; [|reflexivity]. split; [by vm_compute|]. split; [by vm_compute|by repeat constructor].
  - intros t [=].
Qed.

Lemma demo_ready t : ready demo_conf (demo_env t) demo_st.
Proof. split_and!; done. Qed.

Lemma demo_room : has_room demo_conf demo_st.
Proof. split; [reflexivity|]. exists 1. split; [split; [discriminate|reflexivity]|reflexivity]. Qed.


End PppoeDemo.
