(* ===== verification/L2tpPacket.v ===== *)
(** L2TP control messages: ctrl/l2tp/packet.c, with the structures of l2tp.h and l2tp_prot.h.

    A message is a header and a list of attributes (AVPs); an attribute points to its entry of
    the dictionary (L2tpDict).  The union [l2tp_value_t] holds a number, with the bytes it has
    in memory, or a pointer to a block.  The pooled buffer of a message is the list of its
    [L2TP_MAX_PACKET_SIZE] bytes; a read or a write outside of it is the outcome [Crash].
    Hidden attributes are ciphered with the digests of Hash.  Random bytes are an argument:
    [rnd k n] is what the [k]-th call of [u_randbuf] gives for [n] bytes. *)

From stdpp Require Import base tactics list numbers option strings.
From Stdlib Require Import ZArith Lia.
From S2P Require Import Prelude CLib Bytes Hash.

Open Scope Z_scope.

Module L2tpPacket.
Import Digests.

(** * The structures *)

Definition L2TP_FLAG_T : Z := 0x8000.
Definition L2TP_FLAG_L : Z := 0x4000.
Definition L2TP_FLAG_S : Z := 0x0800.
Definition L2TP_FLAG_O : Z := 0x0200.
Definition L2TP_VER_MASK : Z := 0x000f.
Definition L2TP_AVP_FLAG_M : Z := 0x8000.
Definition L2TP_AVP_FLAG_H : Z := 0x4000.
Definition L2TP_AVP_LEN_MASK : Z := 0x03ff.
Definition L2TP_MAX_PACKET_SIZE : Z := 65536.
Definition MD5_DIGEST_LENGTH : nat := 16.
Definition sizeof_hdr : Z := 12.
Definition sizeof_avp : Z := 6.

Definition Message_Type : Z := 0.
Definition Random_Vector : Z := 36.

Inductive attr_type :=
  ATTR_TYPE_NONE | ATTR_TYPE_INT16 | ATTR_TYPE_INT32 | ATTR_TYPE_INT64 | ATTR_TYPE_OCTETS | ATTR_TYPE_STRING.

#[export] Instance attr_type_dec : EqDecision attr_type.
Proof. solve_decision. Defined.

(** The union: its eight bytes as a number, or a pointer to a block. *)
Inductive l2tp_value_t := VNum (z : Z) | VPtr (b : list Z).

Definition val_num (v : l2tp_value_t) : option Z := match v with VNum z => Some z | VPtr _ => None end.
Definition val_uint16 (v : l2tp_value_t) : option Z := u16 <$> val_num v.
Definition val_uint32 (v : l2tp_value_t) : option Z := u32 <$> val_num v.
(** The first [n] bytes of the block; the null pointer is good for no byte. *)
Definition val_octets (v : l2tp_value_t) (n : Z) : option (list Z) :=
  match v with VPtr b => slice b 0 n | VNum z => if (z =? 0) && (n =? 0) then Some [] else None end.

Record l2tp_dict_value_t := mk_dvalue { dv_name : string; dv_val : l2tp_value_t }.

Record l2tp_dict_attr_t := mk_dattr {
  da_name : string;
  da_id : Z;
  da_type : attr_type;
  da_M : Z;
  da_H : Z;
  da_values : list l2tp_dict_value_t;
}.

Definition l2tp_dict := list l2tp_dict_attr_t.

Definition l2tp_dict_find_attr_by_id (d : l2tp_dict) (i : Z) : option l2tp_dict_attr_t :=
  List.find (fun a => da_id a =? i) d.

Record l2tp_attr_t := mk_attr {
  attr : l2tp_dict_attr_t;
  attr_M : bool;
  attr_H : bool;
  attr_length : Z;
  attr_val : l2tp_value_t;
}.

(** The header, its fields as numbers of the host. *)
Record l2tp_hdr_t := mk_hdr {
  h_flags : Z;
  h_length : Z;
  h_tid : Z;
  h_sid : Z;
  h_Ns : Z;
  h_Nr : Z;
}.

Record l2tp_packet_t := mk_packet {
  hdr : l2tp_hdr_t;
  attrs : list l2tp_attr_t;
  last_RV : option (list Z);
  p_secret : option (list Z);
  hide_avps : bool;
}.

Definition l2tp_packet_is_ZLB (pack : l2tp_packet_t) : bool :=
  match attrs pack with [] => true | _ => false end.

(** What a function of the C code comes to: undefined behaviour, its error return, a result. *)
Inductive outcome (A : Type) := Crash | Error | Ret (a : A).
#[global] Arguments Crash {_}. #[global] Arguments Error {_}. #[global] Arguments Ret {_} _.

#[export] Instance outcome_ret : MRet outcome := fun A a => Ret a.
#[export] Instance outcome_bind : MBind outcome := fun A B k m =>
  match m with Crash => Crash | Error => Error | Ret a => k a end.

(** An access to memory. *)
Definition mem {A} (o : option A) : outcome A := match o with Some a => Ret a | None => Crash end.
Definition guard_ok (b : bool) : outcome unit := if b then Ret tt else Error.

(** * [memxor] *)

(** A word in the byte order of the host, and back. *)
Fixpoint le_word (l : list Z) : Z := match l with [] => 0 | b :: l => b + 256 * le_word l end.
Fixpoint le_bytes (n : nat) (w : Z) : list Z :=
  match n with O => [] | S n => u8 w :: le_bytes n (w / 256) end.

(** The word of [n] bytes at [dst + off] is xored with the one at [src + off]. *)
Definition xor_word (n : nat) (dst src : list Z) (off : nat) : list Z :=
  take off dst ++
  le_bytes n (Z.lxor (le_word (take n (drop off dst))) (le_word (take n (drop off src)))) ++
  drop (off + n) dst.

Fixpoint memxor_tail (fuel : nat) (dst src : list Z) (off left : nat) : list Z :=
  match fuel with
  | O => dst
  | S fuel =>
      if (left =? 0)%nat then dst
      else
        let n := if (4 <=? left)%nat then 4%nat else if (2 <=? left)%nat then 2%nat else 1%nat in
        memxor_tail fuel (xor_word n dst src off) src (off + n) (left - n)
  end.

Definition memxor (dst src : list Z) (sz : nat) : list Z :=
  let dst := fold_left (fun d i => xor_word 8 d src (8 * i)) (List.seq 0 (sz / 8)) dst in
  memxor_tail (sz mod 8) dst src (sz - sz mod 8) (sz mod 8).

(** [memxor(v + off, src, n)]. *)
Definition memxor_at (v : list Z) (off : nat) (src : list Z) (n : nat) : list Z :=
  take off v ++ memxor (drop off v) src n.

(** * Hidden attributes *)

(** The digest of the secret and of the 16 bytes at [off]. *)
Definition block_key (secret v : list Z) (off : nat) : list Z :=
  MD5 [secret; take MD5_DIGEST_LENGTH (drop off v)].

(** The blocks after the first, deciphered from the last one on: [prev_block] goes down from
    [16 * (k - 1)]. *)
Fixpoint decode_blocks (secret : list Z) (k : nat) (v : list Z) : list Z :=
  match k with
  | O => v
  | S k' => decode_blocks secret k' (memxor_at v (16 * k) (block_key secret v (16 * k')) MD5_DIGEST_LENGTH)
  end.

(** [decode_avp] on the [attr_len] bytes of the attribute, of type [typ]. *)
Definition decode_avp (typ : Z) (RV secret v : list Z) : option (list Z) :=
  let attr_len := Z.of_nat (length v) in
  if attr_len <? 2 then None
  else
    let p1 := MD5 [be16 typ; secret; RV] in
    if attr_len <=? 16 then Some (memxor v p1 (length v))
    else
      let p1 := memxor p1 v MD5_DIGEST_LENGTH in
      let orig_attr_len := of_be16 (nth 0 p1 0) (nth 1 p1 0) in
      if orig_attr_len <=? 14 then Some (p1 ++ drop 16 v)
      else if attr_len - 2 <? orig_attr_len then None
      else
        let bytes_left := Z.to_nat (u16 (orig_attr_len + 2 - 16)) in
        let last_block_len := (bytes_left mod 16)%nat in
        let blocks_left := (bytes_left / 16)%nat in
        let v :=
          if (last_block_len =? 0)%nat then v
          else memxor_at v (16 * blocks_left + 16) (block_key secret v (16 * blocks_left)) last_block_len in
        let v := decode_blocks secret blocks_left v in
        Some (p1 ++ drop 16 v).

(** The blocks after the first, ciphered one after the other: [u8_ptr] goes up from [off]. *)
Fixpoint encode_blocks (secret : list Z) (k off : nat) (v : list Z) : list Z :=
  match k with
  | O => v
  | S k => encode_blocks secret k (off + 16) (memxor_at v (off + 16) (block_key secret v off) MD5_DIGEST_LENGTH)
  end.

(** The cipher of [encode_attr]. *)
Definition encode_octets (typ : Z) (RV secret v : list Z) : list Z :=
  let md5 := MD5 [be16 typ; secret; RV] in
  if (length v <=? 16)%nat then memxor v md5 (length v)
  else
    let v := memxor v md5 MD5_DIGEST_LENGTH in
    let blocks_left := (length v / 16 - 1)%nat in
    let last_block_len := (length v mod 16)%nat in
    let v := encode_blocks secret blocks_left 0 v in
    if (last_block_len =? 0)%nat then v
    else memxor_at v (16 * blocks_left + 16) (block_key secret v (16 * blocks_left)) last_block_len.

(** * Building a message *)

(** Code that draws random bytes and may fail: the number of draws is the state. *)
Definition bld (A : Type) : Type := nat -> option A * nat.

#[export] Instance bld_ret : MRet bld := fun A a k => (Some a, k).
#[export] Instance bld_bind : MBind bld := fun A B f m k =>
  match m k with (Some a, k) => f a k | (None, k) => (None, k) end.

Definition lift {A} (o : option A) : bld A := fun k => (o, k).

Section Build.
Context (rnd : nat -> Z -> option (list Z)) (d : l2tp_dict).

Definition u_randbuf (n : Z) : bld (list Z) := fun k => (rnd k n, S k).
Definition u_rand16 : bld Z := b ← u_randbuf 2; mret (nth 0 b 0 + 256 * nth 1 b 0).

Definition no_secret (s : option (list Z)) : bool :=
  match s with None | Some [] => true | _ => false end.

Definition encode_attr (pack : l2tp_packet_t) (a : l2tp_attr_t) (v : list Z) : bld l2tp_attr_t :=
  if no_secret (p_secret pack) then lift None
  else
    RV ← lift (last_RV pack);
    secret ← lift (p_secret pack);
    pad_len ← u_rand16;
    let pad_len := Z.land pad_len 0x7f + 16 in
    pad ← u_randbuf pad_len;
    let val_len := u16 (Z.of_nat (length v)) in
    mret (a <| attr_length := 2 + val_len + pad_len |>
            <| attr_val := VPtr (encode_octets (da_id (attr a)) RV secret (be16 val_len ++ take (Z.to_nat val_len) v ++ pad)) |>).

Definition attr_alloc (i : Z) (M H : bool) : option l2tp_attr_t :=
  da ← l2tp_dict_find_attr_by_id d i;
  Some (mk_attr da
    (if da_M da =? -1 then M else negb (da_M da =? 0))
    (if da_H da =? -1 then H else negb (da_H da =? 0)) 0 (VNum 0)).

Definition add_attr (a : l2tp_attr_t) (pack : l2tp_packet_t) : l2tp_packet_t :=
  pack <| attrs ::= fun l => l ++ [a] |>.

Definition l2tp_packet_add_random_vector (pack : l2tp_packet_t) : bld l2tp_packet_t :=
  a ← lift (attr_alloc Random_Vector true false);
  ranvec_len ← u_rand16;
  let ranvec_len := Z.land ranvec_len 0x7f + 16 in
  v ← u_randbuf ranvec_len;
  mret (add_attr (a <| attr_length := ranvec_len |> <| attr_val := VPtr v |>) pack <| last_RV := Some v |>).

(** The branch of the [l2tp_packet_add_*] functions that hides the value [v]. *)
Definition add_hidden (a : l2tp_attr_t) (v : list Z) (pack : l2tp_packet_t) : bld l2tp_packet_t :=
  pack ← match last_RV pack with None => l2tp_packet_add_random_vector pack | Some _ => mret pack end;
  a ← encode_attr pack a v;
  mret (add_attr a pack).

(** [l2tp_packet_add_int16], [_int32] and [_int64]: a number of [n] bytes. *)
Definition be_bytes (n : nat) (z : Z) : list Z := rev (le_bytes n z).

Definition l2tp_packet_add_num (n : nat) (pack : l2tp_packet_t) (i z : Z) (M : bool) : bld l2tp_packet_t :=
  a ← lift (attr_alloc i M (hide_avps pack));
  if attr_H a then add_hidden a (be_bytes n z) pack
  else mret (add_attr (a <| attr_length := Z.of_nat n |> <| attr_val := VNum (z mod 256 ^ Z.of_nat n) |>) pack).

Definition l2tp_packet_add_int16 := l2tp_packet_add_num 2.
Definition l2tp_packet_add_int32 := l2tp_packet_add_num 4.
Definition l2tp_packet_add_int64 := l2tp_packet_add_num 8.

Definition l2tp_packet_add_string (pack : l2tp_packet_t) (i : Z) (v : list Z) (M : bool) : bld l2tp_packet_t :=
  a ← lift (attr_alloc i M (hide_avps pack));
  if attr_H a then add_hidden a v pack
  else mret (add_attr (a <| attr_length := Z.of_nat (length v) |> <| attr_val := VPtr (v ++ [0]) |>) pack).

Definition l2tp_packet_add_octets (pack : l2tp_packet_t) (i : Z) (v : list Z) (M : bool) : bld l2tp_packet_t :=
  a ← lift (attr_alloc i M (hide_avps pack));
  if (length v =? 0)%nat then mret (add_attr a pack)
  else if attr_H a then add_hidden a v pack
  else mret (add_attr (a <| attr_length := Z.of_nat (length v) |> <| attr_val := VPtr v |>) pack).

(** [l2tp_packet_alloc]; the address of the peer is that of the tunnel. *)
Definition l2tp_packet_alloc (ver msg_type : Z) (H : bool) (secret : option (list Z)) : bld l2tp_packet_t :=
  let flags := Z.lor (Z.lor (Z.lor L2TP_FLAG_T L2TP_FLAG_L) L2TP_FLAG_S) (Z.land ver L2TP_VER_MASK) in
  let pack := mk_packet (mk_hdr flags 0 0 0 0 0) [] None secret H in
  if msg_type =? 0 then mret pack
  else l2tp_packet_add_int16 pack Message_Type msg_type true.

End Build.

(** * Sending *)

(** The value of an attribute as [l2tp_packet_send] writes it. *)
Definition send_value (a : l2tp_attr_t) : option (list Z) :=
  if attr_H a then val_octets (attr_val a) (attr_length a)
  else
    match da_type (attr a) with
    | ATTR_TYPE_NONE => Some []
    | ATTR_TYPE_INT16 => be_bytes 2 <$> val_num (attr_val a)
    | ATTR_TYPE_INT32 => be_bytes 4 <$> val_num (attr_val a)
    | ATTR_TYPE_INT64 => be_bytes 8 <$> val_num (attr_val a)
    | ATTR_TYPE_OCTETS | ATTR_TYPE_STRING => val_octets (attr_val a) (attr_length a)
    end.

Definition avp_flags (a : l2tp_attr_t) : Z :=
  Z.lor (Z.lor (if attr_M a then L2TP_AVP_FLAG_M else 0) (if attr_H a then L2TP_AVP_FLAG_H else 0))
        (Z.land (sizeof_avp + attr_length a) L2TP_AVP_LEN_MASK).

Fixpoint send_attrs (l : list l2tp_attr_t) (ptr : Z) (buf : list Z) : outcome (Z * list Z) :=
  match l with
  | [] => Ret (ptr, buf)
  | a :: l =>
      if L2TP_MAX_PACKET_SIZE <=? ptr + sizeof_avp + attr_length a then Error
      else
        v ← mem (send_value a);
        buf ← mem (poke buf ptr (be16 (avp_flags a) ++ [0; 0] ++ be16 (u16 (da_id (attr a)))));
        buf ← mem (poke buf (ptr + sizeof_avp) v);
        send_attrs l (ptr + sizeof_avp + attr_length a) buf
  end.

Definition hdr_bytes (h : l2tp_hdr_t) : list Z :=
  be16 (h_flags h) ++ be16 (h_length h) ++ be16 (h_tid h) ++ be16 (h_sid h) ++ be16 (h_Ns h) ++ be16 (h_Nr h).

(** [l2tp_packet_send]: the bytes given to [sendto]. *)
Definition l2tp_packet_send (pack : l2tp_packet_t) : outcome (list Z) :=
  '(len, buf) ← send_attrs (attrs pack) sizeof_hdr (replicate (Z.to_nat L2TP_MAX_PACKET_SIZE) 0);
  buf ← mem (poke buf 0 (hdr_bytes ((hdr pack) <| h_length := len |>)));
  mem (slice buf 0 len).

(** * Receiving *)

Definition peek64 (m : list Z) (off : Z) : option Z :=
  a ← peek32 m off; b ← peek32 m (off + 4); Some (a * 2 ^ 32 + b).

Section Recv.
Context (d : l2tp_dict) (conf_avp_permissive : bool) (malloc_ok : Z -> bool) (secret : option (list Z)).

(** [_malloc] of an [int], which becomes a [size_t]: no block is as large as a negative one. *)
Definition malloc (n : Z) : bool := (0 <=? n) && malloc_ok n.

(** The value of an attribute of type [t] and length [n]; its bytes are at [off]. *)
Definition recv_value (t : attr_type) (n off : Z) (buf : list Z) : outcome l2tp_value_t :=
  match t with
  | ATTR_TYPE_NONE => Ret (VNum 0)
  | ATTR_TYPE_INT16 => guard_ok (n =? 2) ;; mem (VNum <$> peek16 buf off)
  | ATTR_TYPE_INT32 => guard_ok (n =? 4) ;; mem (VNum <$> peek32 buf off)
  | ATTR_TYPE_INT64 => guard_ok (n =? 8) ;; mem (VNum <$> peek64 buf off)
  | ATTR_TYPE_OCTETS => guard_ok (malloc n) ;; mem (VPtr <$> slice buf off n)
  | ATTR_TYPE_STRING => guard_ok (malloc (n + 1)) ;; mem ((fun b => VPtr (b ++ [0])) <$> slice buf off n)
  end.

(** [da->M != -1 && !da->M != !(avp->flags & L2TP_AVP_FLAG_M)], and the same for [H]. *)
Definition flag_wrong (must : Z) (has : bool) : bool :=
  negb (must =? -1) && negb (Bool.eqb (must =? 0) (negb has)).

(** The octets of a received Random Vector, the key of the attributes behind it. *)
Definition rv_octets (a : l2tp_attr_t) : outcome (list Z) := mem (val_octets (attr_val a) (attr_length a)).

(** One attribute, of the dictionary entry [da]: the attribute, and the buffer, in which a
    hidden attribute is deciphered in place. *)
Definition recv_avp (da : l2tp_dict_attr_t) (flags avp_len ptr : Z) (RV : option l2tp_attr_t) (buf : list Z) :
    outcome (l2tp_attr_t * list Z) :=
  let M := negb (Z.land flags L2TP_AVP_FLAG_M =? 0) in
  let H := negb (Z.land flags L2TP_AVP_FLAG_H =? 0) in
  guard_ok (negb (flag_wrong (da_M da) M && negb conf_avp_permissive)) ;;
  guard_ok (negb (flag_wrong (da_H da) H && negb conf_avp_permissive)) ;;
  '(orig_avp_len, orig_avp_val, buf) ←
    (if H then
       RV ← (match RV with Some RV => Ret RV | None => Error end);
       guard_ok (negb (no_secret secret)) ;;
       RV ← rv_octets RV;
       v ← mem (slice buf (ptr + sizeof_avp) (avp_len - sizeof_avp));
       v ← (match decode_avp (da_id da) RV (default [] secret) v with Some v => Ret v | None => Error end);
       buf ← mem (poke buf (ptr + sizeof_avp) v);
       n ← mem (peek16 buf (ptr + sizeof_avp));
       Ret (u16 (n + sizeof_avp), ptr + sizeof_avp + 2, buf)
     else Ret (avp_len, ptr + sizeof_avp, buf));
  let n := orig_avp_len - sizeof_avp in
  v ← recv_value (da_type da) n orig_avp_val buf;
  Ret (mk_attr da M false n v, buf).

Fixpoint recv_avps (fuel : nat) (ptr length : Z) (RV : option l2tp_attr_t) (buf : list Z) (acc : list l2tp_attr_t) :
    outcome (list l2tp_attr_t) :=
  if length <=? 0 then Ret acc
  else
    match fuel with
    | O => Crash
    | S fuel =>
        if length <? sizeof_avp then Error
        else
          flags ← mem (peek16 buf ptr);
          let avp_len := Z.land flags L2TP_AVP_LEN_MASK in
          if avp_len <? sizeof_avp then Error
          else if length <? avp_len then Error
          else
            vendor ← mem (peek16 buf (ptr + 2));
            typ ← mem (peek16 buf (ptr + 4));
            let skip buf RV acc := recv_avps fuel (ptr + avp_len) (length - avp_len) RV buf acc in
            if negb (vendor =? 0) then skip buf RV acc
            else
              match l2tp_dict_find_attr_by_id d typ with
              | None =>
                  if negb (Z.land flags L2TP_AVP_FLAG_M =? 0) && negb conf_avp_permissive then Error
                  else skip buf RV acc
              | Some da =>
                  '(a, buf) ← recv_avp da flags avp_len ptr RV buf;
                  skip buf (if da_id da =? Random_Vector then Some a else RV) (acc ++ [a])
              end
    end.

(** [l2tp_recv] of a datagram, into a buffer with the contents [old].  The code turns the
    flags of the header and of each attribute into host order in the buffer, where they are
    not read again. *)
Definition l2tp_recv (old data : list Z) : outcome l2tp_packet_t :=
  let n := Z.of_nat (length data) in
  let buf := data ++ drop (length data) old in
  if n <? sizeof_hdr then Error
  else
    flags ← mem (peek16 buf 0);
    guard_ok (negb (Z.land flags L2TP_FLAG_T =? 0)) ;;
    guard_ok (negb (Z.land flags L2TP_FLAG_L =? 0)) ;;
    guard_ok (negb (Z.land flags L2TP_FLAG_S =? 0)) ;;
    let ver := Z.land flags L2TP_VER_MASK in
    guard_ok (if ver =? 2 then Z.land flags L2TP_FLAG_O =? 0 else ver =? 3) ;;
    length ← mem (peek16 buf 2);
    guard_ok (negb (length <? sizeof_hdr)) ;;
    guard_ok (negb (n <? length)) ;;
    tid ← mem (peek16 buf 4);
    sid ← mem (peek16 buf 6);
    Ns ← mem (peek16 buf 8);
    Nr ← mem (peek16 buf 10);
    l ← recv_avps (Z.to_nat length) sizeof_hdr (length - sizeof_hdr) None buf [];
    Ret (mk_packet (mk_hdr flags length tid sid Ns Nr) l None None false).

End Recv.

End L2tpPacket.
