(* ===== verification/L2tpDict.v ===== *)
(** The dictionary of the L2TP attributes: ctrl/l2tp/dict.c, the files of ctrl/l2tp/dict and
    the numbers of ctrl/l2tp/attr_defs.h.

    [dict_load] reads a file line by line; [fs] gives the lines [fgets] returns for a file
    name, [None] when [fopen] fails; [None] as its result is undefined behaviour (an overlong
    path, a file that includes itself without end).  The dictionary is read once, at start-up,
    where the allocation of memory succeeds.  The helpers that cut a line into words and find
    the directory of a path are those of the RADIUS dictionary: the two C files share their
    text.

    The theorems: a loaded dictionary is well formed, the lookup by number returns the entry
    that was read first, and the files shipped with the daemon load and agree with the numbers
    compiled into it. *)

From stdpp Require Import base tactics list numbers option strings.
From Stdlib Require Import ZArith Lia Ascii.
From S2P Require Import Prelude CLib Bytes RadDict Hash L2tpPacket.

Open Scope Z_scope.

Module L2tpDict.
Import L2tpPacket.

(** * Lookups *)

Definition l2tp_dict_find_attr_by_name (d : l2tp_dict) (name : string) : option l2tp_dict_attr_t :=
  List.find (fun a => bool_decide (da_name a = name)) d.

Definition l2tp_dict_find_value (a : l2tp_dict_attr_t) (v : l2tp_value_t) : option l2tp_dict_value_t :=
  match da_type a with
  | ATTR_TYPE_INT16 => List.find (fun x => bool_decide (val_uint16 (dv_val x) = val_uint16 v)) (da_values a)
  | ATTR_TYPE_INT32 => List.find (fun x => bool_decide (val_uint32 (dv_val x) = val_uint32 v)) (da_values a)
  | _ => None
  end.

(** * Loading *)

(** [split]: the first word of a line and up to six arguments. *)
Definition l2tp_split (buf : string) : string * list string := split_words 6 buf.

Definition attr_type_of (s : string) : option attr_type :=
  if bool_decide (s = "none") then Some ATTR_TYPE_NONE
  else if bool_decide (s = "int16") then Some ATTR_TYPE_INT16
  else if bool_decide (s = "int32") then Some ATTR_TYPE_INT32
  else if bool_decide (s = "int64") then Some ATTR_TYPE_INT64
  else if bool_decide (s = "octets") then Some ATTR_TYPE_OCTETS
  else if bool_decide (s = "string") then Some ATTR_TYPE_STRING
  else None.

(** The static variables [dict] and [path]. *)
Record glob := mk_glob { dict : l2tp_dict; path : string }.

Inductive line_res := Next (g : glob) | Failed (g : glob).

(** The words [M=0], [M=1], [H=0] and [H=1] behind the type. *)
Fixpoint attr_flags (ws : list string) (a : l2tp_dict_attr_t) : l2tp_dict_attr_t * bool :=
  match ws with
  | [] => (a, true)
  | w :: ws =>
      if bool_decide (w = "M=0") then attr_flags ws (a <| da_M := 0 |>)
      else if bool_decide (w = "M=1") then attr_flags ws (a <| da_M := 1 |>)
      else if bool_decide (w = "H=0") then attr_flags ws (a <| da_H := 0 |>)
      else if bool_decide (w = "H=1") then attr_flags ws (a <| da_H := 1 |>)
      else (a, false)
  end.

(** The [ATTRIBUTE] line: the entry is linked before it is filled in. *)
Definition load_attribute (name id ty : string) (ws : list string) (g : glob) : line_res :=
  let '(v, n) := strtol id in
  let a := mk_dattr name (s32 v) ATTR_TYPE_NONE 0 0 [] in
  let add a := g <| dict ::= fun d => d ++ [a] |> in
  if negb (at_end id n) then Failed (add a)
  else
    match attr_type_of ty with
    | None => Failed (add a)
    | Some t =>
        let '(a, ok) := attr_flags ws (a <| da_type := t |> <| da_M := -1 |> <| da_H := -1 |>) in
        if ok then Next (add a) else Failed (add a)
    end.

(** The entry the lookup by name returns, changed in place. *)
Fixpoint update_by_name (name : string) (f : l2tp_dict_attr_t -> l2tp_dict_attr_t) (d : l2tp_dict) : l2tp_dict :=
  match d with
  | [] => []
  | a :: d => if bool_decide (da_name a = name) then f a :: d else a :: update_by_name name f d
  end.

(** The value of a [VALUE] line: for both widths the code writes the 16 bit member of the
    union, which it has cleared before. *)
Definition value_text (t : attr_type) (s : string) : l2tp_value_t * bool :=
  match t with
  | ATTR_TYPE_INT16 | ATTR_TYPE_INT32 => let '(v, n) := strtol s in (VNum (u16 v), at_end s n)
  | ATTR_TYPE_STRING => (VPtr (str_bytes s ++ [0]), true)
  | _ => (VNum 0, true)
  end.

Definition load_value (aname vname s : string) (g : glob) : line_res :=
  match l2tp_dict_find_attr_by_name (dict g) aname with
  | None => Failed g
  | Some a =>
      let '(v, ok) := value_text (da_type a) s in
      let g := g <| dict ::= update_by_name aname (fun a => a <| da_values ::= fun t => t ++ [mk_dvalue vname v] |>) |> in
      if ok then Next g else Failed g
  end.

Definition load_line (include : string -> glob -> option (Z * glob)) (buf : string) (g : glob) : option line_res :=
  let '(cmd, args) := l2tp_split buf in
  if bool_decide (cmd = "$INCLUDE") then
    match args with
    | [name] =>
        let dir := dir_path (path g) in
        let g := g <| path := dir |> in
        if (PATH_MAX <=? String.length dir + String.length name)%nat then None
        else '(r, g) ← include (dir +:+ name) g; Some (if r =? 0 then Next g else Failed g)
    | _ => Some (Failed g)
    end
  else if bool_decide (cmd = "ATTRIBUTE") then
    match args with
    | name :: id :: ty :: ws => Some (load_attribute name id ty ws g)
    | _ => Some (Failed g)
    end
  else if bool_decide (cmd = "VALUE") then
    match args with
    | [aname; vname; s] => Some (load_value aname vname s g)
    | _ => Some (Failed g)
    end
  else Some (Failed g).

Fixpoint load_lines (include : string -> glob -> option (Z * glob)) (lines : list string) (g : glob) : option (Z * glob) :=
  match lines with
  | [] => Some (0, g)
  | buf :: lines =>
      if skip_line buf then load_lines include lines g
      else
        match load_line include buf g with
        | None => None
        | Some (Failed g) => Some (-1, g)
        | Some (Next g) => load_lines include lines g
        end
  end.

(** [depth] bounds the nesting of includes. *)
Fixpoint dict_load (fs : string -> option (list string)) (depth : nat) (fname : string) (g : glob) : option (Z * glob) :=
  match depth with
  | O => None
  | S depth => match fs fname with None => Some (-1, g) | Some lines => load_lines (dict_load fs depth) lines g end
  end.

Definition l2tp_dict_load (fs : string -> option (list string)) (depth : nat) (fname : string) : option (Z * l2tp_dict) :=
  if (PATH_MAX <=? String.length fname)%nat then None
  else '(r, g) ← dict_load fs depth fname (mk_glob [] fname); Some (r, dict g).

(** [dict_init]: [None] when the daemon exits.  [DICTIONARY] comes from the build. *)
Definition dict_init (fs : string -> option (list string)) (depth : nat) (DICTIONARY : string) (opt : option string) : option l2tp_dict :=
  '(r, d) ← l2tp_dict_load fs depth (default DICTIONARY opt); if r =? 0 then Some d else None.

(** * The files shipped with the daemon *)

Definition line (s : string) : string := s +:+ String (ascii_of_nat 10) EmptyString.

Definition dictionary : list string := [
  line "$INCLUDE dictionary.rfc2661";
  line "$INCLUDE dictionary.rfc3931"].

Definition dictionary_rfc2661 : list string := [
  line "ATTRIBUTE     Message-Type                0     int16     H=0";
  line "ATTRIBUTE     Random-Vector              36     octets    M=1 H=0";
  line "ATTRIBUTE     Result-Code                 1     octets    M=1 H=0";
  line "ATTRIBUTE     Protocol-Version            2     int16     M=1 H=0";
  line "ATTRIBUTE     Framing-Capabilities        3     int32     M=1";
  line "ATTRIBUTE     Bearer-Capabilities         4     int32     M=1";
  line "ATTRIBUTE     Tie-Breaker                 5     int64     M=0 H=0";
  line "ATTRIBUTE     Firmware-Revision           6     int16     M=0";
  line "ATTRIBUTE     Host-Name                   7     string    M=1 H=0";
  line "ATTRIBUTE     Vendor-Name                 8     string    M=0";
  line "ATTRIBUTE     Assigned-Tunnel-ID          9     int16     M=1";
  line "ATTRIBUTE     Recv-Window-Size           10     int16     M=1 H=0";
  line "ATTRIBUTE     Challenge                  11     octets    M=1";
  line "ATTRIBUTE     Challenge-Response         13     octets    M=1";
  line "ATTRIBUTE     Cause-Code                 12     octets    M=1 H=0";
  line "ATTRIBUTE     Assigned-Session-ID        14     int16     M=1";
  line "ATTRIBUTE     Call-Serial-Number         15     int32     M=1";
  line "ATTRIBUTE     Minimum-BPS                16     int32     M=1";
  line "ATTRIBUTE     Maximum-BPS                17     int32     M=1";
  line "ATTRIBUTE     Bearer-Type                18     int32     M=1";
  line "ATTRIBUTE     Framing-Type               19     int32     M=1";
  line "ATTRIBUTE     Called-Number              21     string    M=1";
  line "ATTRIBUTE     Calling-Number             22     string    M=1";
  line "ATTRIBUTE     Sub-Address                23     string    M=1";
  line "ATTRIBUTE     TX-Speed                   24     int32     M=1";
  line "ATTRIBUTE     RX-Speed                   38     int32     M=0";
  line "ATTRIBUTE     Physical-Channel-ID        25     int32     M=0";
  line "ATTRIBUTE     Private-Group-ID           37     octets    M=0";
  line "ATTRIBUTE     Sequencing-Required        39     none      M=1 H=0";
  line "ATTRIBUTE     Init-Recv-LCP              26     octets    M=0";
  line "ATTRIBUTE     Last-Sent-LCP              27     octets    M=0";
  line "ATTRIBUTE     Last-Recv-LCP              28     octets    M=0";
  line "ATTRIBUTE     Proxy-Authen-Type          29     int16     M=0";
  line "ATTRIBUTE     Proxy-Authen-Name          30     string    M=0";
  line "ATTRIBUTE     Proxy-Authen-Challenge     31     octets    M=0";
  line "ATTRIBUTE     Proxy-Authen-ID            32     int16     M=0";
  line "ATTRIBUTE     Proxy-Authen-Response      33     octets    M=0";
  line "ATTRIBUTE     Call-Errors                34     octets    M=1";
  line "ATTRIBUTE     ACCM                       35     octets    M=1";
  line "";
  line "VALUE     Message-Type     Start-Ctrl-Conn-Request     1";
  line "VALUE     Message-Type     Start-Ctrl-Conn-Reply       2";
  line "VALUE     Message-Type     Start-Ctrl-Conn-Connected   3";
  line "VALUE     Message-Type     Stop-Ctrl-Conn-Notify       4";
  line "VALUE     Message-Type     Hello                       6";
  line "VALUE     Message-Type     Outgoing-Call-Request       7";
  line "VALUE     Message-Type     Outgoing-Call-Reply         8";
  line "VALUE     Message-Type     Outgoing-Call-Connected     9";
  line "VALUE     Message-Type     Incoming-Call-Request      10";
  line "VALUE     Message-Type     Incoming-Call-Reply        11";
  line "VALUE     Message-Type     Incoming-Call-Connected    12";
  line "VALUE     Message-Type     Call-Disconnect-Notify     14";
  line "VALUE     Message-Type     WAN-Error-Notify           15";
  line "VALUE     Message-Type     Set-Link-Info              16"].

Definition dictionary_rfc3931 : list string := [
  line "ATTRIBUTE     Message-Digest               59      octets     H=0";
  line "ATTRIBUTE     Ctrl-Message-Auth-Nonce      73      octets     H=0";
  line "ATTRIBUTE     Router-ID                    60      int32      H=0";
  line "ATTRIBUTE     Assigned-Connection-ID       61      int32";
  line "ATTRIBUTE     Pseudowire-Capabilities      62      octets";
  line "ATTRIBUTE     Prefered-Language            72      octets";
  line "ATTRIBUTE     Local-Session-ID             63      int32";
  line "ATTRIBUTE     Remote-Session-ID            64      int32";
  line "ATTRIBUTE     Assigned-Cookie              65      octets";
  line "ATTRIBUTE     Remote-End-ID                66      octets";
  line "ATTRIBUTE     Pseudowire-Type              68      int16";
  line "ATTRIBUTE     L2-Specific-Sublayer         69      int16";
  line "ATTRIBUTE     Data-Sequencing              70      int16";
  line "ATTRIBUTE     TX-Connect-Speed             74      int64";
  line "ATTRIBUTE     RX-Connect-Speed             75      int64";
  line "ATTRIBUTE     Circuit-Status               71      int16";
  line "";
  line "VALUE     Message-Type     Explicit-Ack               20"].

Definition shipped (fname : string) : option (list string) :=
  if bool_decide (fname = "/l2tp/dictionary") then Some dictionary
  else if bool_decide (fname = "/l2tp/dictionary.rfc2661") then Some dictionary_rfc2661
  else if bool_decide (fname = "/l2tp/dictionary.rfc3931") then Some dictionary_rfc3931
  else None.

Definition l2tp_dictionary : l2tp_dict := Eval vm_compute in default [] (dict_init shipped 2 "/l2tp/dictionary" None).

(** The numbers of attr_defs.h, which the rest of the code is compiled with. *)
Definition attr_defs : list (string * Z) := [
  ("Message_Type", 0); ("Result_Code", 1); ("Protocol_Version", 2); ("Framing_Capabilities", 3);
  ("Bearer_Capabilities", 4); ("Tie_Breaker", 5); ("Firmware_Revision", 6); ("Host_Name", 7);
  ("Vendor_Name", 8); ("Assigned_Tunnel_ID", 9); ("Recv_Window_Size", 10); ("Challenge", 11);
  ("Challenge_Response", 13); ("Cause_Code", 12); ("Assigned_Session_ID", 14); ("Call_Serial_Number", 15);
  ("Minimum_BPS", 16); ("Maximum_BPS", 17); ("Bearer_Type", 18); ("Framing_Type", 19); ("Called_Number", 21);
  ("Calling_Number", 22); ("Sub_Address", 23); ("TX_Speed", 24); ("Physical_Channel_ID", 25);
  ("Init_Recv_LCP", 26); ("Last_Sent_LCP", 27); ("Last_Recv_LCP", 28); ("Proxy_Authen_Type", 29);
  ("Proxy_Authen_Name", 30); ("Proxy_Authen_Challenge", 31); ("Proxy_Authen_ID", 32);
  ("Proxy_Authen_Response", 33); ("Call_Errors", 34); ("ACCM", 35); ("Random_Vector", 36);
  ("Private_Group_ID", 37); ("RX_Speed", 38); ("Sequencing_Required", 39); ("Message_Digest", 59);
  ("Router_ID", 60); ("Assigned_Connection_ID", 61); ("Pseudowire_Capabilities", 62);
  ("Local_Session_ID", 63); ("Remote_Session_ID", 64); ("Assigned_Cookie", 65); ("Remote_End_ID", 66);
  ("Pseudowire_Type", 68); ("L2_Specific_Sublayer", 69); ("Data_Sequencing", 70); ("Circuit_Status", 71);
  ("Prefered_Language", 72); ("Ctrl_Message_Auth_Nonce", 73); ("TX_Connect_Speed", 74);
  ("RX_Connect_Speed", 75)].

Definition message_types : list (string * Z) := [
  ("Start_Ctrl_Conn_Request", 1); ("Start_Ctrl_Conn_Reply", 2); ("Start_Ctrl_Conn_Connected", 3);
  ("Stop_Ctrl_Conn_Notify", 4); ("Hello", 6); ("Outgoing_Call_Request", 7); ("Outgoing_Call_Reply", 8);
  ("Outgoing_Call_Connected", 9); ("Incoming_Call_Request", 10); ("Incoming_Call_Reply", 11);
  ("Incoming_Call_Connected", 12); ("Call_Disconnect_Notify", 14); ("WAN_Error_Notify", 15);
  ("Set_Link_Info", 16); ("Explicit_Ack", 20)].

(** The name of a C macro for a name of the dictionary (dict2c.py). *)
Fixpoint c_name (s : string) : string :=
  match s with
  | EmptyString => EmptyString
  | String c s => String (if code c =? 45 then "_"%char else c) (c_name s)
  end.

(** * Loaded dictionaries *)

Definition flag_ok (z : Z) : Prop := z = -1 \/ z = 0 \/ z = 1.

Definition dvalue_ok (t : attr_type) (v : l2tp_dict_value_t) : Prop :=
  match t with
  | ATTR_TYPE_INT16 | ATTR_TYPE_INT32 => exists z, dv_val v = VNum z /\ is_u16 z
  | ATTR_TYPE_STRING => exists b, dv_val v = VPtr (b ++ [0]) /\ bytes_ok b
  | _ => dv_val v = VNum 0
  end.

Record dattr_wf (a : l2tp_dict_attr_t) : Prop := {
  wf_id : is_s32 (da_id a);
  wf_M : flag_ok (da_M a);
  wf_H : flag_ok (da_H a);
  wf_values : Forall (dvalue_ok (da_type a)) (da_values a) }.

Abbreviation dict_wf := (Forall dattr_wf).

Definition res_dict (r : line_res) : l2tp_dict := match r with Next g | Failed g => dict g end.

Lemma attr_flags_wf ws a :
  dattr_wf a -> dattr_wf (attr_flags ws a).1.
Proof.
  revert a. induction ws as [|w ws IH]; intros a Ha; [done|]. cbn [attr_flags].
  destruct Ha. repeat case_bool_decide; try apply IH; try (split; cbn; unfold flag_ok; auto; done).
Qed.

Lemma load_attribute_typed name id ty ws g : dict_wf (dict g) -> dict_wf (res_dict (load_attribute name id ty ws g)).
Proof.
  intros Hg. unfold load_attribute. destruct (strtol id) as [v n].
  assert (Hadd : forall a, dattr_wf a -> dict_wf (dict (g <| dict ::= fun d => d ++ [a] |>))).
  { intros a Ha. destruct g; cbn in *. apply Forall_app. split; [done|by constructor]. }
  assert (Hbase : forall t M H, flag_ok M -> flag_ok H -> dattr_wf (mk_dattr name (s32 v) t M H [])).
  { intros. split; cbn; [apply s32_range|done..|constructor]. }
  assert (H0 : flag_ok 0) by (unfold flag_ok; auto). assert (H1 : flag_ok (-1)) by (unfold flag_ok; auto).
  destruct (negb (at_end id n)); [by apply Hadd, Hbase|]. destruct (attr_type_of ty) as [t|]; [|by apply Hadd, Hbase].
  pose proof (attr_flags_wf ws (mk_dattr name (s32 v) t (-1) (-1) []) (Hbase t (-1) (-1) H1 H1)) as Hf.
  cbn -[attr_flags s32]. destruct (attr_flags ws _) as [a ok]. destruct ok; by apply Hadd.
Qed.

Lemma update_by_name_wf name f (d : l2tp_dict) a :
  l2tp_dict_find_attr_by_name d name = Some a -> (dattr_wf a -> dattr_wf (f a)) -> dict_wf d -> dict_wf (update_by_name name f d).
Proof.
  intros Hf Ha Hd. unfold l2tp_dict_find_attr_by_name in Hf. induction Hd as [|x d Hx Hd IH]; [done|]. cbn in *.
  case_bool_decide; [injection Hf as <-; constructor; auto|]. constructor; auto.
Qed.

Lemma value_text_ok t s name : dvalue_ok t (mk_dvalue name (value_text t s).1).
Proof.
  destruct t; cbn; try done; try (destruct (strtol s) as [v n]; cbn; eexists; split; [done|apply u16_range]).
  eexists. split; [done|apply str_bytes_ok].
Qed.

Lemma load_value_typed aname vname s g : dict_wf (dict g) -> dict_wf (res_dict (load_value aname vname s g)).
Proof.
  intros Hg. unfold load_value. destruct (l2tp_dict_find_attr_by_name (dict g) aname) as [a|] eqn:E; [|done].
  pose proof (value_text_ok (da_type a) s vname) as Hv. destruct (value_text (da_type a) s) as [v ok]. cbn [fst] in Hv.
  assert (dict_wf (update_by_name aname (fun a => a <| da_values ::= fun t => t ++ [mk_dvalue vname v] |>) (dict g))) as H.
  { apply (update_by_name_wf _ _ _ a); [done| |done]. destruct a. intros [H1 H2 H3 H4]. cbn in *. split; cbn; [done..|].
    apply Forall_app. split; [done|by constructor]. }
  destruct g. by destruct ok.
Qed.

Lemma load_lines_typed include lines g r g' :
  (forall f g r g', include f g = Some (r, g') -> dict_wf (dict g) -> dict_wf (dict g')) ->
  load_lines include lines g = Some (r, g') -> dict_wf (dict g) -> dict_wf (dict g').
Proof.
  intros Hinc. revert g. induction lines as [|buf lines IH]; intros g H Hg; cbn [load_lines] in H; [by injection H as _ <-|].
  destruct (skip_line buf); [by apply (IH g)|].
  assert (Hl : forall res, load_line include buf g = Some res -> dict_wf (res_dict res)).
  { intros res. unfold load_line. destruct (l2tp_split buf) as [cmd args]. repeat case_bool_decide.
    - destruct args as [|name [|]]; [by intros [= <-]| |by intros [= <-]].
      destruct (_ <=? _)%nat; [done|]. destruct (include _ _) as [[r1 g1]|] eqn:E; [|done]. cbn [mbind option_bind].
      assert (dict_wf (dict g1)) by (apply (Hinc _ _ _ _ E); by destruct g). destruct (r1 =? 0); by intros [= <-].
    - destruct args as [|? [|? [|? ?]]]; intros [= <-]; try done. by apply load_attribute_typed.
    - destruct args as [|? [|? [|? [|]]]]; intros [= <-]; try done. by apply load_value_typed.
    - by intros [= <-]. }
  destruct (load_line include buf g) as [[g1|g1]|]; [|injection H as _ <-; by apply (Hl (Failed g1))|done].
  apply (IH g1 H). by apply (Hl (Next g1)).
Qed.

Lemma dict_load_typed fs depth fname g r g' :
  dict_load fs depth fname g = Some (r, g') -> dict_wf (dict g) -> dict_wf (dict g').
Proof.
  revert fname g r g'. induction depth as [|depth IH]; intros fname g r g' H Hg; [done|]. cbn [dict_load] in H.
  destruct (fs fname) as [lines|]; [|by injection H as _ <-]. eapply load_lines_typed; [|exact H|exact Hg]. exact IH.
Qed.

(** Whatever the files hold, the entries of the dictionary are well formed. *)
Lemma loaded_wf fs depth fname r d : l2tp_dict_load fs depth fname = Some (r, d) -> dict_wf d.
Proof.
  unfold l2tp_dict_load. destruct (_ <=? _)%nat; [done|]. destruct (dict_load _ _ _ _) as [[r1 g1]|] eqn:E; [|done].
  intros [= <- <-]. apply (dict_load_typed _ _ _ _ _ _ E). constructor.
Qed.

(** The dictionary files shipped with the daemon load without an error, and they agree
    with the numbers compiled into the code: looking a number of attr_defs.h up gives the entry
    of that name, and the message types are the values of Message-Type.  No number and no name
    is declared twice, and every number fits the 16 bits it has on the wire. *)
Theorem shipped_dictionary :
  dict_init shipped 2 "/l2tp/dictionary" None = Some l2tp_dictionary /\
  length l2tp_dictionary = 55%nat /\
  NoDup (da_id <$> l2tp_dictionary) /\ NoDup (da_name <$> l2tp_dictionary) /\
  Forall (fun a => is_u16 (da_id a)) l2tp_dictionary /\
  Forall (fun '(name, i) => c_name ∘ da_name <$> l2tp_dict_find_attr_by_id l2tp_dictionary i = Some name) attr_defs /\
  length attr_defs = 55%nat /\
  Forall (fun '(name, t) =>
    (a ← l2tp_dict_find_attr_by_id l2tp_dictionary Message_Type; c_name ∘ dv_name <$> l2tp_dict_find_value a (VNum t)) = Some name)
    message_types.
Proof.
  split; [by vm_compute|]. split; [done|]. split; [by apply (bool_decide_unpack _); vm_compute|].
  split; [by apply (bool_decide_unpack _); vm_compute|]. split; [repeat constructor; vm_compute; try done|].
  split; [repeat constructor|]. split; [done|repeat constructor].
Qed.

End L2tpDict.
