(* ===== verification/L2tpWire.v ===== *)
(** L2TP control messages: the theorems.

    [Xor]: the word-wise [memxor] is a byte-wise exclusive or.  [Hide]: deciphering undoes the
    cipher of hidden attributes, for every secret, random vector and padding.  [Wire]: the
    layout of a message, and what the receiver reads from the bytes the sender wrote.
    [RecvSafe]: the receiver stays inside of its buffer unless an attribute is hidden, and how
    a hidden attribute leads it out. *)

From stdpp Require Import base tactics list numbers option strings.
From Stdlib Require Import ZArith Lia.
From S2P Require Import Prelude CLib Bytes RadDict Hash L2tpPacket L2tpDict.

Open Scope Z_scope.

Module Xor.
Import L2tpPacket.

Definition xr (a b : list Z) : list Z := zip_with Z.lxor a b.

Lemma u8_lxor a b : u8 (Z.lxor a b) = Z.lxor (u8 a) (u8 b).
Proof.
  unfold u8. rewrite <- !Z.land_ones by lia. apply Z.bits_inj'. intros n Hn.
  rewrite !Z.land_spec, !Z.lxor_spec, !Z.land_spec. destruct (Z.testbit a n), (Z.testbit b n), (Z.testbit _ n); done.
Qed.

Lemma lxor_u8 a b : is_u8 a -> is_u8 b -> is_u8 (Z.lxor a b).
Proof. intros Ha Hb. rewrite <- (u8_small a Ha), <- (u8_small b Hb), <- u8_lxor. apply u8_range. Qed.

Lemma lxor_twice a b : Z.lxor (Z.lxor a b) b = a.
Proof. by rewrite Z.lxor_assoc, Z.lxor_nilpotent, Z.lxor_0_r. Qed.

Lemma le_word_xor a b :
  length a = length b -> bytes_ok a -> bytes_ok b -> le_bytes (length a) (Z.lxor (le_word a) (le_word b)) = xr a b.
Proof.
  unfold bytes_ok. revert b. induction a as [|x a IH]; intros [|y b] Hl Ha Hb; try discriminate Hl; [done|].
  injection Hl as Hl. inversion Ha as [|?? Hx Ha']. inversion Hb as [|?? Hy Hb']. subst.
  unfold xr. cbn [le_word le_bytes length zip_with]. f_equal.
  - rewrite u8_lxor. f_equal; width_lia.
  - change 256 with (2 ^ 8). rewrite <- Z.shiftr_div_pow2, Z.shiftr_lxor, !Z.shiftr_div_pow2 by lia.
    fold (xr a b). rewrite <- (IH b) by done. f_equal. f_equal; width_lia.
Qed.

Lemma xr_length a b : length (xr a b) = Nat.min (length a) (length b).
Proof. apply length_zip_with. Qed.

Lemma xr_bytes a b : bytes_ok a -> bytes_ok b -> bytes_ok (xr a b).
Proof. intros Ha Hb. unfold bytes_ok, xr in *. revert b Hb. induction Ha; intros [|y b] Hb; constructor; inversion Hb; subst; auto using lxor_u8. Qed.

Lemma xr_cancel a b : (length a <= length b)%nat -> xr (xr a b) b = a.
Proof.
  revert b. induction a as [|x a IH]; intros [|y b] Hl; cbn in Hl; try lia; [done..|].
  unfold xr in *. cbn [zip_with]. rewrite lxor_twice. f_equal. apply IH. lia.
Qed.

Lemma xr_comm a b : xr a b = xr b a.
Proof. revert b. induction a as [|x a IH]; intros [|y b]; [done..|]. unfold xr in *. cbn. by rewrite Z.lxor_comm, IH. Qed.

Lemma xr_take n a b : xr (take n a) (take n b) = take n (xr a b).
Proof. revert a b. induction n as [|n IH]; intros [|x a] [|y b]; [done..|]. unfold xr in *. cbn. by rewrite IH. Qed.

Lemma xr_take_l n a b : (n <= length b)%nat -> xr (take n a) b = take n (xr a b).
Proof.
  revert a b. induction n as [|n IH]; intros [|x a] [|y b] H; cbn in H; try lia; [done..|]. unfold xr in *. cbn.
  by rewrite IH by lia.
Qed.

(** The first [n] bytes xored. *)
Definition front (dst src : list Z) (n : nat) : list Z := xr (take n dst) (take n src) ++ drop n dst.

Lemma front_step n k dst src :
  bytes_ok dst -> bytes_ok src -> (k + n <= length dst)%nat -> (k + n <= length src)%nat ->
  xor_word n (front dst src k) src k = front dst src (k + n).
Proof.
  intros Hd Hs Ld Ls. unfold xor_word, front.
  assert (Hk : length (xr (take k dst) (take k src)) = k) by (rewrite xr_length, !length_take; lia).
  rewrite take_app_length' by done. rewrite drop_app_length' by done.
  rewrite drop_app_ge, Hk by lia. rewrite drop_drop. replace (k + (k + n - k))%nat with (k + n)%nat by lia.
  pose proof (le_word_xor (take n (drop k dst)) (take n (drop k src))) as E.
  rewrite !length_take, !length_drop in E. replace (Nat.min n (length dst - k)) with n in E by lia.
  rewrite E by (try lia; apply Forall_take, Forall_drop; done). rewrite app_assoc. f_equal.
  rewrite <- !(take_take_drop _ k n). unfold xr. rewrite zip_with_app by (rewrite !length_take; lia). done.
Qed.

Lemma memxor_tail_spec fuel k left dst src :
  bytes_ok dst -> bytes_ok src -> (k + left <= length dst)%nat -> (k + left <= length src)%nat -> (left <= fuel)%nat ->
  memxor_tail fuel (front dst src k) src k left = front dst src (k + left).
Proof.
  intros Hd Hs. revert k left. induction fuel as [|fuel IH]; intros k left Ld Ls Hf.
  - replace left with 0%nat by lia. by rewrite Nat.add_0_r.
  - cbn [memxor_tail]. destruct (Nat.eqb_spec left 0) as [->|Hl]; [by rewrite Nat.add_0_r|].
    set (n := if (4 <=? left)%nat then 4%nat else _).
    assert (1 <= n <= left)%nat as Hn.
    { subst n. destruct (Nat.leb_spec 4 left); [lia|]. destruct (Nat.leb_spec 2 left); lia. }
    rewrite front_step by (done || lia). rewrite IH by lia. f_equal. lia.
Qed.

Lemma memxor_words_spec m dst src :
  bytes_ok dst -> bytes_ok src -> (8 * m <= length dst)%nat -> (8 * m <= length src)%nat ->
  fold_left (fun d i => xor_word 8 d src (8 * i)) (List.seq 0 m) dst = front dst src (8 * m).
Proof.
  intros Hd Hs. induction m as [|m IH]; intros Ld Ls; [unfold front; done|].
  rewrite List.seq_S, fold_left_app, IH by lia. cbn [fold_left Nat.add].
  rewrite front_step by (done || lia). f_equal. lia.
Qed.

(** The routine that works word by word is the byte-wise exclusive or of a prefix. *)
Lemma memxor_spec dst src n :
  bytes_ok dst -> bytes_ok src -> (n <= length dst)%nat -> (n <= length src)%nat ->
  memxor dst src n = xr (take n dst) (take n src) ++ drop n dst.
Proof.
  intros Hd Hs Ld Ls. unfold memxor. pose proof (Nat.div_mod_eq n 8) as E.
  rewrite memxor_words_spec by (done || lia). replace (n - n mod 8)%nat with (8 * (n / 8))%nat by lia.
  rewrite memxor_tail_spec by (done || lia). unfold front. by rewrite <- E.
Qed.

Lemma memxor_at_spec v off src n :
  bytes_ok v -> bytes_ok src -> (off + n <= length v)%nat -> (n <= length src)%nat ->
  memxor_at v off src n = take off v ++ xr (take n (drop off v)) (take n src) ++ drop (off + n) v.
Proof.
  intros Hv Hs Lv Ls. unfold memxor_at. rewrite memxor_spec; try done.
  - by rewrite drop_drop.
  - by apply Forall_drop.
  - rewrite length_drop. lia.
Qed.

End Xor.

Module Hide.
Import L2tpPacket Digests Xor.

#[local] Opaque MD5.

Definition blk (j : nat) (v : list Z) : list Z := take 16 (drop (16 * j) v).

Lemma blk_bytes j v : bytes_ok v -> bytes_ok (blk j v).
Proof. intros H. by apply Forall_take, Forall_drop. Qed.

Lemma blk_length j v : length (blk j v) = Nat.min 16 (length v - 16 * j).
Proof. unfold blk. by rewrite length_take, length_drop. Qed.

Lemma memxor_at_bytes v off src n :
  bytes_ok v -> bytes_ok src -> (off + n <= length v)%nat -> (n <= length src)%nat ->
  bytes_ok (memxor_at v off src n) /\ length (memxor_at v off src n) = length v.
Proof.
  intros Hv Hs Lv Ls. rewrite memxor_at_spec by done. unfold bytes_ok. rewrite !Forall_app. split.
  - split; [by apply Forall_take|]. split; [|by apply Forall_drop].
    apply xr_bytes; apply Forall_take; [by apply Forall_drop|done].
  - rewrite !length_app, xr_length, !length_take, !length_drop. lia.
Qed.

(** An exclusive or at the beginning of a block changes this block only. *)
Lemma blk_memxor_at v i j src n :
  bytes_ok v -> bytes_ok src -> (16 * i + n <= length v)%nat -> (n <= 16)%nat -> (n <= length src)%nat ->
  blk j (memxor_at v (16 * i) src n) =
    if decide (j = i) then xr (take n (blk i v)) (take n src) ++ drop n (blk i v) else blk j v.
Proof.
  intros Hv Hs Lv Hn Ls. rewrite memxor_at_spec by done. unfold blk.
  assert (Hx : length (xr (take n (drop (16 * i) v)) (take n src)) = n)
    by (rewrite xr_length, !length_take, length_drop; lia).
  assert (Ht : length (take (16 * i) v) = (16 * i)%nat) by (rewrite length_take; lia).
  case_decide as E; [subst j|].
  - rewrite drop_app_length' by done. rewrite take_app_ge, Hx by lia.
    rewrite take_take, (Nat.min_l n 16) by lia. by rewrite skipn_firstn_comm, drop_drop.
  - destruct (decide (j < i)%nat) as [Hlt|Hge].
    + rewrite drop_app_le by lia. rewrite take_app_le by (rewrite length_drop; lia).
      rewrite skipn_firstn_comm, take_take. f_equal. lia.
    + rewrite app_assoc, drop_app_ge by (rewrite length_app; lia). rewrite drop_drop, length_app, Ht, Hx. do 2 f_equal. lia.
Qed.

Lemma blk_memxor_full v i j src :
  bytes_ok v -> bytes_ok src -> (16 * i + 16 <= length v)%nat -> length src = 16%nat ->
  blk j (memxor_at v (16 * i) src 16) = if decide (j = i) then xr (blk i v) src else blk j v.
Proof.
  intros Hv Hs Lv Ls. rewrite blk_memxor_at by (done || lia). case_decide; [|done].
  pose proof (blk_length i v). rewrite !take_ge, drop_ge, app_nil_r by lia. done.
Qed.

(** Lists that agree block by block agree. *)
Lemma take_blocks m r a b :
  (r <= 16)%nat -> (forall j, (j < m)%nat -> blk j a = blk j b) -> take r (blk m a) = take r (blk m b) ->
  take (16 * m + r) a = take (16 * m + r) b.
Proof.
  intros Hr Hj Hm. unfold blk in Hm. rewrite !take_take, !(Nat.min_l r 16) in Hm by done.
  rewrite <- !(take_take_drop _ (16 * m) r), Hm. f_equal. clear Hm.
  induction m as [|m IH]; [done|]. replace (16 * S m)%nat with (16 * m + 16)%nat by lia.
  rewrite <- !(take_take_drop _ (16 * m) 16), IH by auto with lia. f_equal. apply (Hj m). lia.
Qed.

Lemma block_key_blk secret v i : block_key secret v (16 * i) = MD5 [secret; blk i v].
Proof. done. Qed.

Section Cipher.
Context (secret : list Z).

Lemma encode_blocks_spec k i v :
  bytes_ok v -> (16 * (i + k) + 16 <= length v)%nat ->
  let w := encode_blocks secret k (16 * i) v in
  bytes_ok w /\ length w = length v /\
  forall j, blk j w = if decide (i < j <= i + k)%nat then xr (blk j v) (MD5 [secret; blk (j - 1) w]) else blk j v.
Proof.
  revert i v. induction k as [|k IH]; intros i v Hv Lv w.
  - subst w. cbn [encode_blocks]. split; [done|]. split; [done|]. intros j. case_decide; [lia|done].
  - subst w. cbn [encode_blocks]. replace (16 * i + 16)%nat with (16 * S i)%nat by lia. rewrite block_key_blk.
    unfold MD5_DIGEST_LENGTH. set (v1 := memxor_at v (16 * S i) (MD5 [secret; blk i v]) 16).
    assert (H1 : bytes_ok v1 /\ length v1 = length v)
      by (apply memxor_at_bytes; [done|apply MD5_bytes|lia|rewrite MD5_length; lia]).
    destruct H1 as [Hb1 Hl1].
    assert (Hblk : forall j, blk j v1 = if decide (j = S i) then xr (blk (S i) v) (MD5 [secret; blk i v]) else blk j v)
      by (intros j; apply blk_memxor_full; [done|apply MD5_bytes|lia|apply MD5_length]).
    destruct (IH (S i) v1 Hb1 ltac:(lia)) as (Hb & Hl & Hw). split; [done|]. split; [lia|].
    intros j. rewrite Hw, Hblk. destruct (decide (j = S i)) as [->|Hn].
    + rewrite decide_False, decide_True by lia. replace (S i - 1)%nat with i by lia. f_equal.
      f_equal. f_equal. f_equal. rewrite Hw, decide_False, Hblk, decide_False by lia. done.
    + case_decide; case_decide; try lia; done.
Qed.

Lemma decode_blocks_spec k v :
  bytes_ok v -> (16 * k + 16 <= length v)%nat ->
  let w := decode_blocks secret k v in
  bytes_ok w /\ length w = length v /\
  forall j, blk j w = if decide (0 < j <= k)%nat then xr (blk j v) (MD5 [secret; blk (j - 1) v]) else blk j v.
Proof.
  revert v. induction k as [|k IH]; intros v Hv Lv w.
  - subst w. cbn [decode_blocks]. split; [done|]. split; [done|]. intros j. case_decide; [lia|done].
  - subst w. cbn [decode_blocks]. rewrite block_key_blk. unfold MD5_DIGEST_LENGTH.
    set (v1 := memxor_at v (16 * S k) (MD5 [secret; blk k v]) 16).
    assert (H1 : bytes_ok v1 /\ length v1 = length v)
      by (apply memxor_at_bytes; [done|apply MD5_bytes|lia|rewrite MD5_length; lia]).
    destruct H1 as [Hb1 Hl1].
    assert (Hblk : forall j, blk j v1 = if decide (j = S k) then xr (blk (S k) v) (MD5 [secret; blk k v]) else blk j v)
      by (intros j; apply blk_memxor_full; [done|apply MD5_bytes|lia|apply MD5_length]).
    destruct (IH v1 Hb1 ltac:(lia)) as (Hb & Hl & Hw). split; [done|]. split; [lia|].
    intros j. rewrite Hw. case_decide as E1.
    + rewrite decide_True by lia. rewrite !Hblk, !decide_False by lia. done.
    + rewrite Hblk. case_decide as E2; [subst j; rewrite decide_True by lia; by replace (S k - 1)%nat with k by lia|].
      rewrite decide_False by lia. done.
Qed.

Context (typ : Z) (RV : list Z).
Let key := MD5 [be16 typ; secret; RV].

Lemma key_length : length key = 16%nat.
Proof. apply MD5_length. Qed.
Lemma key_bytes : bytes_ok key.
Proof. apply MD5_bytes. Qed.

(** The cipher: the first block with the key of the attribute, every further one with a
    digest of the secret and the ciphered block before it. *)
Definition ciphered (p c : list Z) : Prop :=
  bytes_ok c /\ length c = length p /\ blk 0 c = xr (blk 0 p) key /\
  forall j, (0 < j)%nat -> blk j c = xr (blk j p) (MD5 [secret; blk (j - 1) c]).

Lemma xr_nil_l b : xr [] b = [].
Proof. done. Qed.

Lemma blk_end j v : (length v <= 16 * j)%nat -> blk j v = [].
Proof. intros H. unfold blk. by rewrite drop_ge by lia. Qed.

Lemma memxor_first v :
  bytes_ok v -> (16 <= length v)%nat ->
  bytes_ok (memxor v key 16) /\ length (memxor v key 16) = length v /\
  blk 0 (memxor v key 16) = xr (blk 0 v) key /\ forall j, (0 < j)%nat -> blk j (memxor v key 16) = blk j v.
Proof.
  intros Hv Lv. change (memxor v key 16) with (memxor_at v (16 * 0) key 16). pose proof key_length. pose proof key_bytes.
  destruct (memxor_at_bytes v (16 * 0) key 16) as [Hb Hl]; [done|done|lia|lia|]. split; [done|]. split; [done|].
  split; [|intros j Hj]; rewrite blk_memxor_full by (done || lia); [by rewrite decide_True|by rewrite decide_False by lia].
Qed.

Lemma encode_octets_long p : bytes_ok p -> (16 < length p)%nat -> ciphered p (encode_octets typ RV secret p).
Proof.
  intros Hp Lp. unfold encode_octets. fold key. destruct (Nat.leb_spec (length p) 16) as [|_]; [lia|].
  destruct (memxor_first p Hp ltac:(lia)) as (Hb1 & Hl1 & H01 & Hj1). unfold MD5_DIGEST_LENGTH.
  set (v1 := memxor p key 16) in *. rewrite Hl1. pose proof (Nat.div_mod_eq (length p) 16) as E.
  pose proof (Nat.mod_upper_bound (length p) 16 ltac:(lia)) as Hmod.
  set (K := (length p / 16 - 1)%nat). set (r := (length p mod 16)%nat) in *.
  assert (HK : length p = (16 * K + 16 + r)%nat).
  { subst K. assert (1 <= length p / 16)%nat by (apply (Nat.div_le_lower_bound (length p) 16 1); lia). lia. }
  destruct (encode_blocks_spec K 0 v1 Hb1 ltac:(lia)) as (Hb2 & Hl2 & Hj2).
  change (16 * 0)%nat with 0%nat in *. set (v2 := encode_blocks secret K 0 v1) in *.
  assert (H2 : forall j, (0 < j <= K)%nat -> blk j v2 = xr (blk j p) (MD5 [secret; blk (j - 1) v2])).
  { intros j Hj. rewrite Hj2, decide_True by lia. by rewrite Hj1 by lia. }
  assert (H02 : blk 0 v2 = xr (blk 0 p) key) by (rewrite Hj2, decide_False by lia; done).
  destruct (Nat.eqb_spec r 0) as [Hr|Hr].
  - split; [done|]. split; [lia|]. split; [done|]. intros j Hj.
    destruct (decide (j <= K)%nat); [apply H2; lia|]. by rewrite !blk_end, xr_nil_l by lia.
  - replace (16 * K + 16)%nat with (16 * S K)%nat by lia. rewrite block_key_blk.
    destruct (memxor_at_bytes v2 (16 * S K) (MD5 [secret; blk K v2]) r) as [Hb3 Hl3];
      [done|apply MD5_bytes|lia|rewrite MD5_length; lia|].
    assert (Hblk : forall j, blk j (memxor_at v2 (16 * S K) (MD5 [secret; blk K v2]) r) =
        if decide (j = S K) then xr (blk (S K) p) (MD5 [secret; blk K v2]) else blk j v2).
    { intros j. rewrite blk_memxor_at by (done || apply MD5_bytes || rewrite ?MD5_length; lia). case_decide; [|done].
      pose proof (blk_length (S K) v2) as Hbl. rewrite take_ge, drop_ge, app_nil_r by lia.
      rewrite Hj2, decide_False, Hj1 by lia. rewrite xr_comm, xr_take_l, xr_comm, take_ge; [done|..].
      - rewrite xr_length, blk_length. lia.
      - rewrite blk_length. lia. }
    split; [done|]. split; [lia|]. split; [by rewrite Hblk, decide_False by lia|]. intros j Hj. rewrite !Hblk.
    destruct (decide (j = S K)) as [->|Hn].
    + rewrite decide_False by lia. by replace (S K - 1)%nat with K by lia.
    + destruct (decide (j <= K)%nat); [rewrite decide_False by lia; apply H2; lia|]. by rewrite (blk_end j v2), (blk_end j p), xr_nil_l by lia.
Qed.

(** The first block deciphered is the first block of the plain text. *)
Lemma first_block p c : ciphered p c -> bytes_ok p -> (16 <= length p)%nat -> memxor key c 16 = blk 0 p.
Proof.
  intros (Hb & Hl & H0 & _) Hp Lp. pose proof key_length as Hk. pose proof key_bytes.
  rewrite memxor_spec by (done || lia). rewrite drop_ge, app_nil_r, take_ge by lia.
  change (take 16 c) with (blk 0 c). rewrite H0, xr_comm. apply xr_cancel. rewrite blk_length. lia.
Qed.

Lemma plain_head n val pad :
  is_u16 n -> (16 <= length (be16 n ++ val ++ pad))%nat ->
  of_be16 (nth 0 (blk 0 (be16 n ++ val ++ pad)) 0) (nth 1 (blk 0 (be16 n ++ val ++ pad)) 0) = n.
Proof. intros Hn _. cbn. by apply of_be16_be16. Qed.

(** The blocks in front of [orig_attr_len + 2], deciphered. *)
Lemma decode_long p c m r :
  ciphered p c -> bytes_ok p -> (r < 16)%nat -> (16 * m + 16 + r <= length p)%nat ->
  let v := if (r =? 0)%nat then c else memxor_at c (16 * m + 16) (block_key secret c (16 * m)) r in
  take (16 * m + 16 + r) (blk 0 p ++ drop 16 (decode_blocks secret m v)) = take (16 * m + 16 + r) p.
Proof.
  intros (Hb & Hl & H0 & Hj) Hp Hr Lp v. replace (16 * m + 16)%nat with (16 * S m)%nat in * by lia.
  assert (Hv : bytes_ok v /\ length v = length c /\ (forall j, (j <= m)%nat -> blk j v = blk j c) /\
    take r (blk (S m) v) = take r (blk (S m) p)).
  { subst v. destruct (Nat.eqb_spec r 0) as [->|Hr0]; [done|]. rewrite block_key_blk.
    replace (16 * m + 16)%nat with (16 * S m)%nat by lia.
    destruct (memxor_at_bytes c (16 * S m) (MD5 [secret; blk m c]) r) as [Hb3 Hl3];
      [done|apply MD5_bytes|lia|rewrite MD5_length; lia|]. split; [done|]. split; [lia|]. split.
    - intros j Hjm. rewrite blk_memxor_at by (done || apply MD5_bytes || rewrite ?MD5_length; lia).
      by rewrite decide_False by lia.
    - rewrite blk_memxor_at by (done || apply MD5_bytes || rewrite ?MD5_length; lia). rewrite decide_True by done.
      rewrite take_app_le by (rewrite xr_length, !length_take, MD5_length, blk_length; lia).
      rewrite Hj by lia. replace (S m - 1)%nat with m by lia.
      rewrite xr_take, take_take, Nat.min_id. rewrite xr_cancel; [done|]. rewrite blk_length, MD5_length. lia. }
  destruct Hv as (Hvb & Hvl & Hvj & Hvr).
  destruct (decode_blocks_spec m v Hvb ltac:(lia)) as (Hwb & Hwl & Hw). set (w := decode_blocks secret m v) in *.
  assert (H0p : length (blk 0 p) = 16%nat) by (rewrite blk_length; lia).
  assert (Hblk : forall j, blk j (blk 0 p ++ drop 16 w) = if decide (j = 0%nat) then blk 0 p else blk j w).
  { intros j. unfold blk at 1. case_decide; [subst j; change (16 * 0)%nat with 0%nat; by rewrite drop_0, take_app_length'|].
    rewrite drop_app_ge, H0p, drop_drop by lia. unfold blk. do 2 f_equal. lia. }
  apply take_blocks; [lia| |].
  - intros j Hjm. rewrite Hblk. case_decide; [by subst j|]. rewrite Hw, decide_True, !Hvj by lia.
    rewrite Hj by lia. apply xr_cancel. rewrite blk_length, MD5_length. lia.
  - rewrite Hblk, decide_False, Hw, decide_False by lia. done.
Qed.

Lemma encode_octets_short p :
  bytes_ok p -> (length p <= 16)%nat ->
  encode_octets typ RV secret p = xr p key /\ bytes_ok (xr p key) /\ length (xr p key) = length p.
Proof.
  intros Hp Lp. unfold encode_octets. fold key. pose proof key_length. pose proof key_bytes.
  rewrite (proj2 (Nat.leb_le _ _)) by done. rewrite memxor_spec by (done || lia).
  rewrite drop_ge, app_nil_r, take_ge by lia. split; [|split; [by apply xr_bytes|rewrite xr_length; lia]].
  rewrite xr_comm, xr_take_l by lia. rewrite xr_comm, take_ge; [done|rewrite xr_length; lia].
Qed.

Lemma decode_short v :
  bytes_ok v -> (2 <= length v <= 16)%nat -> decode_avp typ RV secret v = Some (xr v key).
Proof.
  intros Hv Lv. unfold decode_avp. fold key. rewrite (proj2 (Z.ltb_ge _ _)), (proj2 (Z.leb_le _ _)) by lia.
  destruct (encode_octets_short v Hv ltac:(lia)) as (E & _). unfold encode_octets in E. fold key in E.
  rewrite (proj2 (Nat.leb_le _ _)) in E by lia. by rewrite E.
Qed.

Lemma decode_encode n val pad :
  bytes_ok val -> bytes_ok pad -> n = Z.of_nat (length val) -> is_u16 n ->
  exists w, decode_avp typ RV secret (encode_octets typ RV secret (be16 n ++ val ++ pad)) = Some w /\
    take (2 + length val) w = be16 n ++ val /\ length w = (2 + length val + length pad)%nat.
Proof.
  intros Hv Hpad -> Hn. set (n := Z.of_nat (length val)) in *. set (p := be16 n ++ val ++ pad).
  assert (Hp : bytes_ok p) by (apply Forall_app; split; [apply be16_ok|by apply Forall_app]).
  assert (Lp : length p = (2 + length val + length pad)%nat) by (unfold p; rewrite !length_app; cbn; lia).
  assert (Htp : take (2 + length val) p = be16 n ++ val).
  { unfold p. rewrite app_assoc, take_app_le by (rewrite length_app; cbn; lia). apply take_ge. rewrite length_app. cbn. lia. }
  destruct (decide (length p <= 16)%nat) as [Hs|Hl].
  { destruct (encode_octets_short p Hp Hs) as (-> & Hb & Hln). exists p. rewrite decode_short by (done || lia).
    rewrite xr_cancel by (rewrite key_length; lia). done. }
  destruct (encode_octets_long p Hp ltac:(lia)) as (Hc & Hcl & H0 & Hj). set (c := encode_octets typ RV secret p) in *.
  unfold decode_avp. fold key. rewrite (proj2 (Z.ltb_ge _ _)), (proj2 (Z.leb_gt _ _)) by lia.
  unfold MD5_DIGEST_LENGTH. rewrite (first_block p c) by (done || lia).
  assert (Ho : of_be16 (nth 0 (blk 0 p) 0) (nth 1 (blk 0 p) 0) = n) by (apply plain_head; [done|fold p; lia]). rewrite Ho.
  assert (H0p : length (blk 0 p) = 16%nat) by (rewrite blk_length; lia).
  destruct (Z.leb_spec n 14) as [Hsm|Hbig].
  { eexists. split; [reflexivity|]. rewrite take_app_le by lia. split.
    - rewrite <- Htp. unfold blk. change (16 * 0)%nat with 0%nat. rewrite drop_0, take_take. f_equal. lia.
    - rewrite length_app, length_drop. lia. }
  rewrite (proj2 (Z.ltb_ge _ _)) by lia. eexists. split; [reflexivity|].
  set (bl := Z.to_nat (u16 (n + 2 - 16))).
  assert (Hbl : (2 + length val = 16 + bl)%nat) by (subst bl; rewrite u16_small by width_lia; lia).
  pose proof (Nat.div_mod_eq bl 16) as E. pose proof (Nat.mod_upper_bound bl 16 ltac:(lia)) as Hm.
  replace (2 + length val)%nat with (16 * (bl / 16) + 16 + bl mod 16)%nat in * by lia.
  rewrite decode_long by (done || lia). split; [done|].
  rewrite length_app, length_drop. match goal with |- context [decode_blocks _ _ ?x] => set (v := x) end.
  assert (Hvl : bytes_ok v /\ length v = length c).
  { subst v. destruct (_ =? 0)%nat; [done|].
    apply memxor_at_bytes; [done|apply MD5_bytes|lia|]. unfold block_key. rewrite MD5_length. lia. }
  destruct (decode_blocks_spec (bl / 16) v) as (_ & Hwl & _); [apply Hvl|lia|]. lia.
Qed.

(** The length a deciphered attribute states is bounded by the attribute if this is longer
    than a block, and by nothing otherwise. *)
Lemma decode_bound v w :
  bytes_ok v -> (16 < length v)%nat -> decode_avp typ RV secret v = Some w ->
  of_be16 (nth 0 w 0) (nth 1 w 0) + 2 <= Z.of_nat (length v) /\ length w = length v.
Proof.
  intros Hv Lv. unfold decode_avp. fold key. pose proof key_length as Hk. pose proof key_bytes as Hkb.
  rewrite (proj2 (Z.ltb_ge _ _)), (proj2 (Z.leb_gt _ _)) by lia. unfold MD5_DIGEST_LENGTH.
  assert (Hp : length (memxor key v 16) = 16%nat).
  { rewrite memxor_spec by (done || lia). rewrite length_app, xr_length, !length_take, length_drop. lia. }
  set (p1 := memxor key v 16) in *. destruct p1 as [|a [|b p1]]; try discriminate Hp. cbn [nth].
  destruct (Z.leb_spec (of_be16 a b) 14) as [|Hb]; [intros [= <-]; cbn [nth app length] in *; rewrite length_app, length_drop; lia|].
  destruct (Z.ltb_spec (Z.of_nat (length v) - 2) (of_be16 a b)) as [|Hle]; [done|].
  set (bl := Z.to_nat (u16 (of_be16 a b + 2 - 16))). pose proof (Nat.div_mod_eq bl 16) as E.
  pose proof (Nat.mod_upper_bound bl 16 ltac:(lia)) as Hm.
  assert (Hbl : (16 + bl <= length v)%nat) by (subst bl; width_lia).
  set (v1 := if (bl mod 16 =? 0)%nat then v else _).
  assert (Hv1 : bytes_ok v1 /\ length v1 = length v).
  { subst v1. destruct (_ =? 0)%nat; [done|]. apply memxor_at_bytes; [done|apply MD5_bytes|lia|]. unfold block_key. rewrite MD5_length. lia. }
  destruct (decode_blocks_spec (bl / 16) v1) as (_ & Hwl & _); [apply Hv1|lia|].
  destruct Hv1 as [_ Hvl]. intros H%(inj Some). subst w. split; [cbn [app nth]; lia|]. rewrite length_app, length_drop. lia.
Qed.

Lemma short_length_free n : is_u16 n -> exists v, length v = 2%nat /\ bytes_ok v /\ decode_avp typ RV secret v = Some (be16 n).
Proof.
  intros Hn. pose proof key_length as Hk. pose proof key_bytes as Hkb. exists (xr (be16 n) key).
  assert (bytes_ok (xr (be16 n) key)) by (apply xr_bytes; [apply be16_ok|done]).
  assert (length (xr (be16 n) key) = 2%nat) by (rewrite xr_length; change (length (be16 n)) with 2%nat; lia).
  split; [done|]. split; [done|]. rewrite decode_short by (done || lia). rewrite xr_cancel; [done|change (length (be16 n)) with 2%nat; lia].
Qed.

Lemma encode_length p : bytes_ok p -> length (encode_octets typ RV secret p) = length p /\ bytes_ok (encode_octets typ RV secret p).
Proof.
  intros Hp. destruct (decide (length p <= 16)%nat) as [Hs|Hl].
  - destruct (encode_octets_short p Hp Hs) as (-> & Hb & Hln). done.
  - destruct (encode_octets_long p Hp ltac:(lia)) as (Hb & Hln & _). done.
Qed.

(** Hidden attributes.  Deciphering what the sender enciphered gives back the length and
    the value, for every secret, random vector and padding.  An attribute of more than 16 bytes
    is deciphered only when the length inside of it fits; of a shorter one it is not looked at,
    so that for every length there is an attribute of two bytes that claims it. *)
Theorem hide_cipher :
  (forall n val pad, bytes_ok val -> bytes_ok pad -> n = Z.of_nat (length val) -> is_u16 n ->
    exists w, decode_avp typ RV secret (encode_octets typ RV secret (be16 n ++ val ++ pad)) = Some w /\
      take (2 + length val) w = be16 n ++ val) /\
  (forall v w, bytes_ok v -> (16 < length v)%nat -> decode_avp typ RV secret v = Some w ->
    of_be16 (nth 0 w 0) (nth 1 w 0) + 2 <= Z.of_nat (length v) /\ length w = length v) /\
  (forall n, is_u16 n -> exists v, length v = 2%nat /\ decode_avp typ RV secret v = Some (be16 n)).
Proof.
  split; [|split].
  - intros n val pad Hv Hp Hn Hu. destruct (decode_encode n val pad Hv Hp Hn Hu) as (w & E & Hw & _). by exists w.
  - apply decode_bound.
  - intros n Hn. destruct (short_length_free n Hn) as (v & Hl & _ & E). by exists v.
Qed.

End Cipher.

End Hide.

Module Wire.
Import L2tpPacket Digests Xor Hide.

#[local] Opaque MD5.

(** ** The flags of an attribute *)

Definition flags_of (M H : bool) (n : Z) : Z :=
  Z.lor (Z.lor (if M then L2TP_AVP_FLAG_M else 0) (if H then L2TP_AVP_FLAG_H else 0)) (Z.land n L2TP_AVP_LEN_MASK).

Definition flags_check (M H : bool) (n : Z) : bool :=
  let f := flags_of M H n in
  (Z.land f L2TP_AVP_LEN_MASK =? n) && Bool.eqb (negb (Z.land f L2TP_AVP_FLAG_M =? 0)) M &&
  Bool.eqb (negb (Z.land f L2TP_AVP_FLAG_H =? 0)) H && (0 <=? f) && (f <? 65536).

Lemma flags_all : forallb (fun n => forallb (fun M => forallb (fun H => flags_check M H (Z.of_nat n)) [true; false]) [true; false])
  (List.seq 0 1024) = true.
Proof. vm_compute. reflexivity. Qed.

Lemma flags_read M H n :
  0 <= n < 1024 ->
  Z.land (flags_of M H n) L2TP_AVP_LEN_MASK = n /\ negb (Z.land (flags_of M H n) L2TP_AVP_FLAG_M =? 0) = M /\
  negb (Z.land (flags_of M H n) L2TP_AVP_FLAG_H =? 0) = H /\ is_u16 (flags_of M H n).
Proof.
  intros Hn. pose proof flags_all as A. rewrite forallb_forall in A.
  specialize (A (Z.to_nat n) ltac:(apply in_seq; lia)). rewrite forallb_forall in A.
  specialize (A M ltac:(destruct M; cbn; auto)). rewrite forallb_forall in A.
  specialize (A H ltac:(destruct H; cbn; auto)). rewrite Z2Nat.id in A by lia. unfold flags_check in A. to_prop.
  repeat match goal with E : Bool.eqb _ _ = true |- _ => apply Bool.eqb_prop in E end.
  split; [done|]. split; [done|]. split; [done|]. width_lia.
Qed.

(** ** The layout of a message *)

Definition avp_head (a : l2tp_attr_t) : list Z := be16 (avp_flags a) ++ [0; 0] ++ be16 (u16 (da_id (attr a))).
Definition wire (a : l2tp_attr_t) (v : list Z) : list Z := avp_head a ++ v.

(** An attribute with the value [v] on the wire. *)
Definition sends (a : l2tp_attr_t) (v : list Z) : Prop :=
  send_value a = Some v /\ len v = attr_length a /\ len v <= 1017.

Lemma len_avp_head a : len (avp_head a) = sizeof_avp.
Proof. done. Qed.

Definition wires (l : list (l2tp_attr_t * list Z)) : list Z := concat ((fun x => wire x.1 x.2) <$> l).

Lemma len_wire a v : len (wire a v) = sizeof_avp + len v.
Proof. unfold wire. by rewrite len_app, len_avp_head. Qed.

Lemma poke_over pre x post y off :
  off = len pre -> len x = len y -> poke (pre ++ x ++ post) off y = Some (pre ++ y ++ post).
Proof. intros -> H. by apply poke_app. Qed.

(** The sender lays the attributes out one after the other. *)
Lemma send_attrs_wires l pre post :
  Forall (fun x => sends x.1 x.2) l -> len pre + len (wires l) <= len (pre ++ post) ->
  len pre + len (wires l) < L2TP_MAX_PACKET_SIZE ->
  exists post', send_attrs (l.*1) (len pre) (pre ++ post) =
    Ret (len pre + len (wires l), pre ++ wires l ++ post') /\ len (wires l ++ post') = len post.
Proof.
  intros Hl. revert pre post. induction Hl as [|[a v] l (Hv & Hn & Hb) Hl IH]; intros pre post Hp Hmax.
  { exists post. cbn. by rewrite Z.add_0_r. }
  cbn [fst snd] in *. change (wires ((a, v) :: l)) with (wire a v ++ wires l) in *.
  pose proof (len_nonneg v). pose proof (len_nonneg (wires l)). rewrite !len_app, len_wire in *.
  assert (sizeof_avp = 6) as E6 by done. rewrite E6 in *.
  destruct (split_at post 6) as (x & r & -> & Hx); [lia|]. rewrite len_app in Hp.
  destruct (split_at r (len v)) as (y & z & -> & Hy); [lia|]. rewrite len_app in Hp.
  cbn [fmap list_fmap fst send_attrs]. rewrite E6, <- Hn, (proj2 (Z.leb_gt _ _)) by lia.
  rewrite Hv. cbn [mem mbind outcome_bind]. fold (avp_head a).
  rewrite (poke_over pre x (y ++ z) (avp_head a)) by (rewrite ?len_avp_head; lia). cbn [mem mbind outcome_bind].
  rewrite app_assoc, (poke_over (pre ++ avp_head a) y z v) by (rewrite ?len_app, ?len_avp_head; lia).
  cbn [mem mbind outcome_bind]. specialize (IH (pre ++ wire a v) z).
  replace (len pre + 6 + len v) with (len (pre ++ wire a v)) by (rewrite len_app, len_wire, E6; lia).
  replace ((pre ++ avp_head a) ++ v ++ z) with ((pre ++ wire a v) ++ z) by (unfold wire; by rewrite <- !app_assoc).
  destruct IH as (post' & -> & Hlen); [rewrite !len_app, len_wire, E6; lia..|].
  exists post'. split; [|rewrite <- app_assoc, !len_app, len_wire, E6 in *; lia].
  f_equal. f_equal; [rewrite len_app, len_wire, E6; lia|by rewrite <- !app_assoc].
Qed.

(** ** What the receiver makes of it *)

(** The value that the bytes [v] have for a type. *)
Definition value_of (t : attr_type) (v : list Z) : option l2tp_value_t :=
  match t, v with
  | ATTR_TYPE_NONE, _ => Some (VNum 0)
  | ATTR_TYPE_INT16, [a; b] => Some (VNum (of_be16 a b))
  | ATTR_TYPE_INT32, [a; b; c; e] => Some (VNum (of_be32 a b c e))
  | ATTR_TYPE_INT64, [a; b; c; e; f; g; h; i] => Some (VNum (of_be32 a b c e * 2 ^ 32 + of_be32 f g h i))
  | ATTR_TYPE_OCTETS, v => Some (VPtr v)
  | ATTR_TYPE_STRING, v => Some (VPtr (v ++ [0]))
  | _, _ => None
  end.

Section Recv.
Context (d : l2tp_dict) (perm : bool) (malloc_ok : Z -> bool) (secret : option (list Z)).
Hypothesis malloc_always : forall n, malloc_ok n = true.

Lemma malloc_len n : 0 <= n -> malloc malloc_ok n = true.
Proof. intros Hn. unfold malloc. by rewrite (proj2 (Z.leb_le _ _)), malloc_always by done. Qed.

Lemma peek64_app pre a b c e f g h i post :
  peek64 (pre ++ a :: b :: c :: e :: f :: g :: h :: i :: post) (len pre) =
    Some (of_be32 a b c e * 2 ^ 32 + of_be32 f g h i).
Proof.
  unfold peek64. rewrite peek32_app. cbn [mbind option_bind].
  change (a :: b :: c :: e :: f :: g :: h :: i :: post) with ([a; b; c; e] ++ f :: g :: h :: i :: post).
  rewrite app_assoc. replace (len pre + 4) with (len (pre ++ [a; b; c; e])) by len_lia. by rewrite peek32_app.
Qed.

Lemma recv_value_wire t v val pre post :
  value_of t v = Some val -> recv_value malloc_ok t (len v) (len pre) (pre ++ v ++ post) = Ret val.
Proof.
  intros H. pose proof (len_nonneg v). unfold recv_value. destruct t; cbn [value_of] in H.
  - injection H as <-. done.
  - destruct v as [|a [|b [|]]]; try discriminate H. injection H as <-.
    change (pre ++ [a; b] ++ post) with (pre ++ a :: b :: post). by rewrite peek16_app.
  - destruct v as [|a [|b [|c [|e [|]]]]]; try discriminate H. injection H as <-.
    change (pre ++ [a; b; c; e] ++ post) with (pre ++ a :: b :: c :: e :: post). by rewrite peek32_app.
  - destruct v as [|a [|b [|c [|e [|f [|g [|h [|i [|]]]]]]]]]; try discriminate H. injection H as <-.
    change (pre ++ [a; b; c; e; f; g; h; i] ++ post) with (pre ++ a :: b :: c :: e :: f :: g :: h :: i :: post).
    by rewrite peek64_app.
  - injection H as <-. rewrite malloc_len by done. by rewrite slice_app.
  - injection H as <-. rewrite malloc_len by lia. by rewrite slice_app.
Qed.

(** The flags of an attribute as [attr_alloc] sets them. *)
Definition flags_fit (a : l2tp_attr_t) : Prop :=
  flag_wrong (da_M (attr a)) (attr_M a) = false /\ flag_wrong (da_H (attr a)) (attr_H a) = false.

Definition received (a : l2tp_attr_t) (n : Z) (val : l2tp_value_t) : l2tp_attr_t := mk_attr (attr a) (attr_M a) false n val.

Lemma flags_of_avp a v : sends a v -> avp_flags a = flags_of (attr_M a) (attr_H a) (sizeof_avp + len v) /\ 0 <= sizeof_avp + len v < 1024.
Proof.
  intros (_ & Hn & Hb). unfold avp_flags, flags_of. rewrite Hn. split; [done|]. pose proof (len_nonneg v).
  change sizeof_avp with 6. rewrite Hn in *. lia.
Qed.

Lemma recv_avp_flags da RV ptr buf a v :
  sends a v -> da = attr a -> flags_fit a ->
  recv_avp perm malloc_ok secret da (avp_flags a) (sizeof_avp + len v) ptr RV buf =
  ('(orig_avp_len, orig_avp_val, buf) ←
    (if attr_H a then
       RV ← (match RV with Some RV => Ret RV | None => Error end);
       guard_ok (negb (no_secret secret)) ;;
       RV ← rv_octets RV;
       v ← mem (slice buf (ptr + sizeof_avp) (sizeof_avp + len v - sizeof_avp));
       v ← (match decode_avp (da_id da) RV (default [] secret) v with Some v => Ret v | None => Error end);
       buf ← mem (poke buf (ptr + sizeof_avp) v);
       n ← mem (peek16 buf (ptr + sizeof_avp));
       Ret (u16 (n + sizeof_avp), ptr + sizeof_avp + 2, buf)
     else Ret (sizeof_avp + len v, ptr + sizeof_avp, buf));
   let n := orig_avp_len - sizeof_avp in
   val ← recv_value malloc_ok (da_type da) n orig_avp_val buf;
   Ret (mk_attr da (attr_M a) false n val, buf)).
Proof.
  intros Hs -> [HM HH]. destruct (flags_of_avp a v Hs) as [-> Hn].
  destruct (flags_read (attr_M a) (attr_H a) _ Hn) as (_ & E1 & E2 & _).
  unfold recv_avp. rewrite E1, E2, HM, HH. reflexivity.
Qed.

Lemma recv_plain a v val RV pre post :
  sends a v -> flags_fit a -> attr_H a = false -> value_of (da_type (attr a)) v = Some val ->
  recv_avp perm malloc_ok secret (attr a) (avp_flags a) (sizeof_avp + len v) (len pre) RV (pre ++ wire a v ++ post) =
    Ret (received a (len v) val, pre ++ (avp_head a ++ v) ++ post).
Proof.
  intros Hs Hf HH Hv. rewrite (recv_avp_flags _ _ _ _ a v) by done. rewrite HH. cbn [mbind outcome_bind].
  replace (sizeof_avp + len v - sizeof_avp) with (len v) by lia. unfold wire.
  replace (pre ++ (avp_head a ++ v) ++ post) with ((pre ++ avp_head a) ++ v ++ post) by (by rewrite <- !app_assoc).
  replace (len pre + sizeof_avp) with (len (pre ++ avp_head a)) by (by rewrite len_app, len_avp_head).
  by rewrite (recv_value_wire _ _ _ _ _ Hv).
Qed.

Lemma recv_hidden a x pad val rv rvb s pre post :
  let n := len x in
  let v := encode_octets (da_id (attr a)) rvb s (be16 n ++ x ++ pad) in
  sends a v -> flags_fit a -> attr_H a = true -> value_of (da_type (attr a)) x = Some val ->
  secret = Some s -> s <> [] -> val_octets (attr_val rv) (attr_length rv) = Some rvb ->
  bytes_ok x -> bytes_ok pad ->
  exists w, len w = len v /\
  recv_avp perm malloc_ok secret (attr a) (avp_flags a) (sizeof_avp + len v) (len pre) (Some rv) (pre ++ wire a v ++ post) =
    Ret (received a n val, pre ++ (avp_head a ++ w) ++ post).
Proof.
  intros n v Hs Hf HH Hval Hsec Hne Hrv Hx Hpad.
  assert (Hp : bytes_ok (be16 n ++ x ++ pad)) by (apply Forall_app; split; [apply be16_ok|by apply Forall_app]).
  destruct (encode_length s (da_id (attr a)) rvb _ Hp) as [Hlv Hbv]. fold v in Hlv, Hbv.
  assert (Hlen : len v = 2 + n + len pad) by (unfold n, len in *; rewrite Hlv, !length_app; cbn [length be16]; lia).
  assert (Hn : is_u16 n).
  { destruct Hs as (_ & _ & Hb). pose proof (len_nonneg x). pose proof (len_nonneg pad). subst n. width_lia. }
  destruct (decode_encode s (da_id (attr a)) rvb n x pad Hx Hpad eq_refl Hn) as (w & Hdec & Htk & Hlw). fold v in Hdec.
  assert (Hw : w = be16 n ++ x ++ drop (2 + length x) w) by (rewrite app_assoc, <- Htk; symmetry; apply take_drop).
  set (rest := drop (2 + length x) w) in Hw. exists w.
  assert (Hwv : len w = len v) by (unfold len at 1; unfold n, len in *; lia). split; [done|].
  rewrite (recv_avp_flags _ _ _ _ a v) by done. rewrite HH. cbn [mbind outcome_bind]. unfold guard_ok.
  assert (no_secret secret = false) as -> by (rewrite Hsec; by destruct s). cbn [negb mbind outcome_bind].
  unfold rv_octets. rewrite Hrv. cbn [mem mbind outcome_bind].
  replace (sizeof_avp + len v - sizeof_avp) with (len v) by lia.
  replace (len pre + sizeof_avp) with (len (pre ++ avp_head a)) by (by rewrite len_app, len_avp_head).
  replace (pre ++ wire a v ++ post) with ((pre ++ avp_head a) ++ v ++ post) by (unfold wire; by rewrite <- !app_assoc).
  rewrite slice_app. cbn [mem mbind outcome_bind]. rewrite Hsec. cbn [default from_option id]. rewrite Hdec.
  cbn [mbind outcome_bind]. rewrite (poke_over _ v post w) by done. cbn [mem mbind outcome_bind].
  rewrite Hw at 1. rewrite <- !(app_assoc (be16 n)), peek16_be16 by done. cbn [mem mbind outcome_bind].
  assert (Hu : u16 (n + sizeof_avp) - sizeof_avp = n).
  { destruct Hs as (_ & _ & Hb). pose proof (len_nonneg pad). change sizeof_avp with 6 in *. subst n. width_lia. }
  rewrite Hu. rewrite Hw at 1 2.
  replace (len (pre ++ avp_head a) + 2) with (len ((pre ++ avp_head a) ++ be16 n)) by len_lia.
  replace ((pre ++ avp_head a) ++ (be16 n ++ x ++ rest) ++ post) with (((pre ++ avp_head a) ++ be16 n) ++ x ++ rest ++ post)
    by (by rewrite <- !app_assoc).
  unfold n. rewrite (recv_value_wire _ _ _ _ _ Hval). cbn [mbind outcome_bind]. unfold received. do 2 f_equal.
  fold n. rewrite <- !app_assoc. do 2 f_equal. rewrite Hw at 1. by rewrite <- !app_assoc.
Qed.

(** The receiver reads [a'] where the sender wrote the attribute [a] with the bytes [v]. *)
Definition carried (RV : option l2tp_attr_t) (a : l2tp_attr_t) (v : list Z) (a' : l2tp_attr_t) : Prop :=
  sends a v /\ is_u16 (da_id (attr a)) /\ l2tp_dict_find_attr_by_id d (da_id (attr a)) = Some (attr a) /\ attr a' = attr a /\
  forall pre post, exists w, len w = len v /\
    recv_avp perm malloc_ok secret (attr a) (avp_flags a) (sizeof_avp + len v) (len pre) RV (pre ++ wire a v ++ post) =
      Ret (a', pre ++ (avp_head a ++ w) ++ post).

Inductive all_carried : option l2tp_attr_t -> list (l2tp_attr_t * list Z) -> list l2tp_attr_t -> Prop :=
| carried_nil RV : all_carried RV [] []
| carried_cons RV a v a' l l' :
    carried RV a v a' -> all_carried (if da_id (attr a) =? Random_Vector then Some a' else RV) l l' ->
    all_carried RV ((a, v) :: l) (a' :: l').

Lemma recv_step fuel RV a v a' rest pre post acc :
  carried RV a v a' -> 0 <= rest ->
  exists w, len w = len v /\
    recv_avps d perm malloc_ok secret (S fuel) (len pre) (len (wire a v) + rest) RV (pre ++ wire a v ++ post) acc =
    recv_avps d perm malloc_ok secret fuel (len (pre ++ wire a w)) rest
      (if da_id (attr a) =? Random_Vector then Some a' else RV) ((pre ++ wire a w) ++ post) (acc ++ [a']).
Proof.
  intros (Hs & Hid & Hfind & _ & Hrecv) Hrest. destruct (Hrecv pre post) as (w & Hw & E). exists w. split; [done|].
  destruct (flags_of_avp a v Hs) as [Hfl Hn]. destruct (flags_read (attr_M a) (attr_H a) _ Hn) as (E1 & _ & _ & Hu).
  rewrite <- Hfl in E1, Hu. pose proof (len_nonneg v). rewrite !len_wire in *. change sizeof_avp with 6 in *.
  cbn [recv_avps]. rewrite (proj2 (Z.leb_gt _ _)) by lia. rewrite (proj2 (Z.ltb_ge _ _)) by (change sizeof_avp with 6; lia).
  assert (Hflags : peek16 (pre ++ wire a v ++ post) (len pre) = Some (avp_flags a)).
  { unfold wire, avp_head. rewrite <- !app_assoc. by apply peek16_be16. }
  assert (Hvend : peek16 (pre ++ wire a v ++ post) (len pre + 2) = Some 0).
  { replace (len pre + 2) with (len (pre ++ be16 (avp_flags a))) by len_lia. unfold wire, avp_head.
    rewrite <- !app_assoc, (app_assoc pre). cbn [app]. by rewrite peek16_app. }
  assert (Htyp : peek16 (pre ++ wire a v ++ post) (len pre + 4) = Some (da_id (attr a))).
  { replace (len pre + 4) with (len ((pre ++ be16 (avp_flags a)) ++ [0; 0])) by len_lia. unfold wire, avp_head.
    replace (pre ++ ((be16 (avp_flags a) ++ [0; 0] ++ be16 (u16 (da_id (attr a)))) ++ v) ++ post)
      with (((pre ++ be16 (avp_flags a)) ++ [0; 0]) ++ be16 (u16 (da_id (attr a))) ++ v ++ post) by (by rewrite <- !app_assoc).
    rewrite u16_small by done. by apply peek16_be16. }
  rewrite Hflags. cbn [mem mbind outcome_bind]. rewrite E1. change sizeof_avp with 6.
  rewrite !(proj2 (Z.ltb_ge _ _)) by lia. rewrite Hvend. cbn [mem mbind outcome_bind]. rewrite Htyp. cbn [mem mbind outcome_bind].
  change (negb (0 =? 0)) with false. cbn match. rewrite Hfind. rewrite E. cbn [mbind outcome_bind].
  replace (len (pre ++ wire a w)) with (len pre + (6 + len v)) by (rewrite len_app, len_wire; change sizeof_avp with 6; lia).
  replace (6 + len v + rest - (6 + len v)) with rest by lia. f_equal. unfold wire. by rewrite <- !app_assoc.
Qed.

Lemma len_wires l : 0 <= len (wires l) /\ (length l <= Z.to_nat (len (wires l)))%nat.
Proof.
  split; [apply len_nonneg|]. induction l as [|[a v] l IH]; [done|].
  change (wires ((a, v) :: l)) with (wire a v ++ wires l). rewrite len_app, len_wire. pose proof (len_nonneg v).
  pose proof (len_nonneg (wires l)). change sizeof_avp with 6. cbn [length]. lia.
Qed.

Lemma recv_all RV l l' fuel pre post acc :
  all_carried RV l l' -> (length l <= fuel)%nat ->
  recv_avps d perm malloc_ok secret fuel (len pre) (len (wires l)) RV (pre ++ wires l ++ post) acc = Ret (acc ++ l').
Proof.
  intros H. revert fuel pre acc. induction H as [RV|RV a v a' l l' Hc Hl IH]; intros fuel pre acc Hf.
  { rewrite app_nil_r. by destruct fuel. }
  destruct fuel as [|fuel]; [cbn in Hf; lia|]. change (wires ((a, v) :: l)) with (wire a v ++ wires l).
  rewrite len_app. destruct (recv_step fuel RV a v a' (len (wires l)) pre (wires l ++ post) acc Hc (len_nonneg _)) as (w & _ & E).
  rewrite <- app_assoc, E. cbn [length] in Hf. rewrite IH by lia. by rewrite <- app_assoc.
Qed.

(** ** A message *)

Definition ctl_flags (f : Z) : Prop :=
  is_u16 f /\ Z.land f L2TP_FLAG_T <> 0 /\ Z.land f L2TP_FLAG_L <> 0 /\ Z.land f L2TP_FLAG_S <> 0 /\
  Z.land f L2TP_VER_MASK = 2 /\ Z.land f L2TP_FLAG_O = 0.

Definition hdr_ok (h : l2tp_hdr_t) : Prop :=
  ctl_flags (h_flags h) /\ is_u16 (h_tid h) /\ is_u16 (h_sid h) /\ is_u16 (h_Ns h) /\ is_u16 (h_Nr h).

Lemma len_hdr h : len (hdr_bytes h) = sizeof_hdr.
Proof. done. Qed.

Lemma send_recv pack l l' old :
  hdr_ok (hdr pack) -> attrs pack = l.*1 -> all_carried None l l' -> sizeof_hdr + len (wires l) < L2TP_MAX_PACKET_SIZE ->
  let h := (hdr pack) <| h_length := sizeof_hdr + len (wires l) |> in
  l2tp_packet_send pack = Ret (hdr_bytes h ++ wires l) /\
  l2tp_recv d perm malloc_ok secret old (hdr_bytes h ++ wires l) = Ret (mk_packet h l' None None false).
Proof.
  intros ((Hfl & HT & HL & HS & HV & HO) & Htid & Hsid & HNs & HNr) Hl Hc Hmax h.
  assert (Hsends : Forall (fun x => sends x.1 x.2) l).
  { clear -Hc. induction Hc as [|RV a v a' l l' Hx _ IH]; constructor; [apply Hx|done]. }
  change sizeof_hdr with 12 in *. change L2TP_MAX_PACKET_SIZE with 65536 in *. pose proof (len_nonneg (wires l)). split.
  - unfold l2tp_packet_send. rewrite Hl. set (buf := replicate (Z.to_nat L2TP_MAX_PACKET_SIZE) 0).
    assert (Hbuf : len buf = 65536) by (unfold len, buf; rewrite length_replicate; done).
    destruct (split_at buf 12) as (pre & post & -> & Hpre); [lia|]. rewrite len_app in Hbuf.
    destruct (send_attrs_wires l pre post Hsends) as (post' & E & Hpost); [rewrite len_app; lia|change L2TP_MAX_PACKET_SIZE with 65536; lia|].
    change sizeof_hdr with 12. rewrite Hpre in E. rewrite E. cbn [mbind outcome_bind]. fold h.
    assert (poke (pre ++ wires l ++ post') 0 (hdr_bytes h) = Some (hdr_bytes h ++ wires l ++ post')) as ->
      by (apply (poke_app [] pre); rewrite Hpre; done).
    cbn [mem mbind outcome_bind]. rewrite app_assoc, slice_front; [done|]. rewrite len_app, len_hdr. done.
  - unfold l2tp_recv. set (data := hdr_bytes h ++ wires l).
    assert (Hdata : Z.of_nat (length data) = 12 + len (wires l)) by (change (len data = 12 + len (wires l)); unfold data; by rewrite len_app).
    rewrite Hdata. change sizeof_hdr with 12. rewrite (proj2 (Z.ltb_ge _ _)) by lia.
    set (buf := data ++ drop (length data) old).
    assert (Hb : forall pre z post, hdr_bytes h = pre ++ be16 z ++ post -> is_u16 z -> peek16 buf (len pre) = Some z).
    { intros pre z post E Hz. unfold buf, data. rewrite E, <- !app_assoc. by apply peek16_be16. }
    assert (Hlen : is_u16 (h_length h)) by (cbn; width_lia).
    rewrite (Hb [] (h_flags h) _ eq_refl Hfl : peek16 buf 0 = _). cbn [mem mbind outcome_bind]. change (h_flags h) with (h_flags (hdr pack)).
    unfold guard_ok. rewrite (proj2 (Z.eqb_neq _ _) HT), (proj2 (Z.eqb_neq _ _) HL), (proj2 (Z.eqb_neq _ _) HS). cbn [negb mbind outcome_bind]. rewrite HV, HO.
    cbn [Z.eqb Pos.eqb mbind outcome_bind].
    rewrite (Hb (be16 (h_flags h)) (h_length h) _ eq_refl Hlen : peek16 buf 2 = _). cbn [mem mbind outcome_bind].
    change (h_length h) with (12 + len (wires l)). rewrite !(proj2 (Z.ltb_ge _ _)) by lia. cbn [negb mbind outcome_bind].
    rewrite (Hb (be16 (h_flags h) ++ be16 (h_length h)) (h_tid h) _ eq_refl Htid : peek16 buf 4 = _). cbn [mem mbind outcome_bind].
    rewrite (Hb (be16 (h_flags h) ++ be16 (h_length h) ++ be16 (h_tid h)) (h_sid h) _ eq_refl Hsid : peek16 buf 6 = _). cbn [mem mbind outcome_bind].
    rewrite (Hb (be16 (h_flags h) ++ be16 (h_length h) ++ be16 (h_tid h) ++ be16 (h_sid h)) (h_Ns h) _ eq_refl HNs : peek16 buf 8 = _).
    cbn [mem mbind outcome_bind].
    rewrite (Hb (be16 (h_flags h) ++ be16 (h_length h) ++ be16 (h_tid h) ++ be16 (h_sid h) ++ be16 (h_Ns h)) (h_Nr h) [] eq_refl HNr : peek16 buf 10 = _).
    cbn [mem mbind outcome_bind]. replace (12 + len (wires l) - 12) with (len (wires l)) by lia.
    replace buf with (hdr_bytes h ++ wires l ++ drop (length data) old) by (unfold buf, data; by rewrite <- app_assoc).
    pose proof (len_wires l) as [_ Hw].
    pose proof (recv_all None l l' (Z.to_nat (12 + len (wires l))) (hdr_bytes h) (drop (length data) old) [] Hc ltac:(lia)) as E.
    change (len (hdr_bytes h)) with 12 in E. rewrite E. done.
Qed.

End Recv.

(** ** Messages built by calls *)

Inductive l2tp_op :=
| OpNum (n : nat) (i z : Z) (M : bool)
| OpString (i : Z) (v : list Z) (M : bool)
| OpOctets (i : Z) (v : list Z) (M : bool).

Definition op_id (op : l2tp_op) : Z := match op with OpNum _ i _ _ | OpString i _ _ | OpOctets i _ _ => i end.
Definition op_bytes (op : l2tp_op) : list Z :=
  match op with OpNum n _ z _ => be_bytes n z | OpString _ v _ | OpOctets _ v _ => v end.

Definition op_value (t : attr_type) (op : l2tp_op) : l2tp_value_t :=
  match t, op with
  | ATTR_TYPE_NONE, _ => VNum 0
  | _, OpNum n _ z _ => VNum (z mod 256 ^ Z.of_nat n)
  | _, OpString _ v _ => VPtr (v ++ [0])
  | _, OpOctets _ v _ => VPtr v
  end.

Definition op_hidden (hide : bool) (da : l2tp_dict_attr_t) : bool := if da_H da =? -1 then hide else negb (da_H da =? 0).

(** The call is for a type it is meant for, and the value fits into an attribute. *)
Definition op_fits (d : l2tp_dict) (hide : bool) (secret : option (list Z)) (op : l2tp_op) : Prop :=
  exists da, l2tp_dict_find_attr_by_id d (op_id op) = Some da /\ is_u16 (op_id op) /\ op_id op <> Random_Vector /\
  (op_hidden hide da = true -> no_secret secret = false) /\
  match op with
  | OpNum n _ _ _ =>
      (n = 2%nat /\ da_type da = ATTR_TYPE_INT16) \/ (n = 4%nat /\ da_type da = ATTR_TYPE_INT32) \/
      (n = 8%nat /\ da_type da = ATTR_TYPE_INT64)
  | OpString _ v _ => da_type da = ATTR_TYPE_STRING /\ bytes_ok v /\ len v <= 872
  | OpOctets _ v _ =>
      bytes_ok v /\ len v <= 872 /\ (v = [] -> op_hidden hide da = false) /\
      (da_type da = ATTR_TYPE_OCTETS \/ da_type da = ATTR_TYPE_NONE /\ v = [])
  end.

(** The attribute received for a call. *)
Definition op_received (d : l2tp_dict) (op : l2tp_op) (a : l2tp_attr_t) : Prop :=
  l2tp_dict_find_attr_by_id d (op_id op) = Some (attr a) /\ attr_H a = false /\
  attr_length a = len (op_bytes op) /\ attr_val a = op_value (da_type (attr a)) op.

Definition is_rv (a : l2tp_attr_t) : bool := da_id (attr a) =? Random_Vector.

Lemma find_id d i da : l2tp_dict_find_attr_by_id d i = Some da -> da_id da = i.
Proof. intros H. apply List.find_some in H as [_ H]. by apply Z.eqb_eq. Qed.

Lemma be_bytes_2 z : be_bytes 2 z = [u8 (z / 256); u8 z].
Proof. done. Qed.
Lemma be_bytes_4 z : be_bytes 4 z = [u8 (z / 256 / 256 / 256); u8 (z / 256 / 256); u8 (z / 256); u8 z].
Proof. done. Qed.
Lemma be_bytes_8 z : be_bytes 8 z = be_bytes 4 (z / 256 / 256 / 256 / 256) ++ be_bytes 4 z.
Proof. done. Qed.
Lemma of_be_bytes_2 z : of_be16 (u8 (z / 256)) (u8 z) = z mod 65536.
Proof. be_unfold. Z.div_mod_to_equations. lia. Qed.
Lemma of_be_bytes_4 z : of_be32 (u8 (z / 256 / 256 / 256)) (u8 (z / 256 / 256)) (u8 (z / 256)) (u8 z) = z mod 4294967296.
Proof. be_unfold. Z.div_mod_to_equations. lia. Qed.

Lemma le_bytes_ok n z : bytes_ok (le_bytes n z) /\ length (le_bytes n z) = n.
Proof.
  revert z. induction n as [|n IH]; intros z; [by split; [constructor|]|]. cbn [le_bytes length].
  destruct (IH (z / 256)) as [Hb Hl]. split; [constructor; [apply u8_range|done]|lia].
Qed.
Lemma be_bytes_ok n z : bytes_ok (be_bytes n z) /\ len (be_bytes n z) = Z.of_nat n.
Proof.
  destruct (le_bytes_ok n z) as [Hb Hl]. unfold be_bytes. split; [by apply Forall_rev|]. unfold len. by rewrite length_rev, Hl.
Qed.

(** What is written for a call is read as its value. *)
Lemma op_value_of d hide secret op da :
  op_fits d hide secret op -> l2tp_dict_find_attr_by_id d (op_id op) = Some da ->
  value_of (da_type da) (op_bytes op) = Some (op_value (da_type da) op) /\ bytes_ok (op_bytes op) /\ len (op_bytes op) <= 872.
Proof.
  intros (da' & Hf & _ & _ & _ & H) E. rewrite E in Hf. injection Hf as <-. destruct op as [n i z M|i v M|i v M]; cbn [op_bytes] in *.
  - pose proof (be_bytes_ok n z) as [Hb Hl]. destruct H as [[-> ->]|[[-> ->]|[-> ->]]]; cbn [op_value]; (split; [|split; [done|lia]]).
    + rewrite be_bytes_2. cbn [value_of]. by rewrite of_be_bytes_2.
    + rewrite be_bytes_4. cbn [value_of]. by rewrite of_be_bytes_4.
    + rewrite be_bytes_8, !be_bytes_4. cbn [value_of app]. rewrite !of_be_bytes_4. do 2 f_equal.
      change (256 ^ Z.of_nat 8) with 18446744073709551616. change (2 ^ 32) with 4294967296. Z.div_mod_to_equations. lia.
  - destruct H as (-> & Hb & Hl). done.
  - destruct H as (Hb & Hl & _ & [-> | [-> ->]]); done.
Qed.

Section Ops.
Context (rnd : nat -> Z -> option (list Z)) (d : l2tp_dict) (perm : bool) (malloc_ok : Z -> bool).
Context (secret : option (list Z)) (hide : bool).
Hypothesis malloc_always : forall n, malloc_ok n = true.
Hypothesis rnd_ok : forall k n, 0 <= n -> exists b, rnd k n = Some b /\ len b = n /\ bytes_ok b.
(** The entry of the Random Vector in the dictionary. *)
Hypothesis rv_entry : exists da, l2tp_dict_find_attr_by_id d Random_Vector = Some da /\
  da_type da = ATTR_TYPE_OCTETS /\ op_hidden false da = false.

Definition add_op (op : l2tp_op) (pack : l2tp_packet_t) : bld l2tp_packet_t :=
  match op with
  | OpNum n i z M => l2tp_packet_add_num rnd d n pack i z M
  | OpString i v M => l2tp_packet_add_string rnd d pack i v M
  | OpOctets i v M => l2tp_packet_add_octets rnd d pack i v M
  end.

Fixpoint adds (ops : list l2tp_op) (pack : l2tp_packet_t) : bld l2tp_packet_t :=
  match ops with [] => mret pack | op :: ops => pack ← add_op op pack; adds ops pack end.

Lemma u_rand16_ok k : exists z, u_rand16 rnd k = (Some z, S k).
Proof.
  unfold u_rand16, u_randbuf, mbind, bld_bind. destruct (rnd_ok k 2 ltac:(lia)) as (b & -> & _). eexists. reflexivity.
Qed.

Lemma pad_range z : 16 <= Z.land z 0x7f + 16 <= 143.
Proof. change 0x7f with (Z.ones 7). rewrite Z.land_ones by lia. pose proof (Z.mod_pos_bound z (2 ^ 7) ltac:(lia)). lia. Qed.

(** The Random Vector in force behind the attributes [l]. *)
Definition rv_after (RV : option l2tp_attr_t) (l : list l2tp_attr_t) : option l2tp_attr_t :=
  fold_left (fun r a => if is_rv a then Some a else r) l RV.

Abbreviation carried' := (carried d perm malloc_ok secret).
Abbreviation all_carried' := (all_carried d perm malloc_ok secret).

Lemma all_carried_app RV l1 l1' l2 l2' :
  all_carried' RV l1 l1' -> all_carried' (rv_after RV l1') l2 l2' -> all_carried' RV (l1 ++ l2) (l1' ++ l2').
Proof.
  intros H1 H2. induction H1 as [|RV a v a' l l' Hc Hl IH]; [done|]. cbn [app]. constructor; [done|].
  apply IH. destruct Hc as (_ & _ & _ & E & _).
  assert (E' : is_rv a' = (da_id (attr a) =? Random_Vector)) by (unfold is_rv; by rewrite E).
  revert H2. unfold rv_after. cbn [fold_left]. by rewrite E'.
Qed.

Lemma all_carried_one RV a v a' : carried' RV a v a' -> all_carried' RV [(a, v)] [a'].
Proof. intros H. constructor; [done|constructor]. Qed.

Lemma attr_alloc_flags i M H a da :
  attr_alloc d i M H = Some a -> l2tp_dict_find_attr_by_id d i = Some da ->
  attr a = da /\ flags_fit a /\ attr_H a = op_hidden H da.
Proof.
  unfold attr_alloc, op_hidden. intros Ha Hd. rewrite Hd in Ha. cbn in Ha. injection Ha as <-. split; [done|].
  unfold flags_fit, flag_wrong. cbn [attr attr_M attr_H]. split; [|done].
  destruct (da_M da =? -1), (da_H da =? -1), (da_M da =? 0), (da_H da =? 0); done.
Qed.

Lemma attr_alloc_Some i M H da : l2tp_dict_find_attr_by_id d i = Some da -> exists a, attr_alloc d i M H = Some a.
Proof. intros E. unfold attr_alloc. rewrite E. eexists. reflexivity. Qed.

(** A pack as far as the operations change it. *)
Definition same_pack (p p' : l2tp_packet_t) : Prop :=
  hdr p' = hdr p /\ p_secret p' = p_secret p /\ hide_avps p' = hide_avps p.

(** The receiver knows the Random Vector the sender uses. *)
Definition rv_known (RV : option l2tp_attr_t) (p : l2tp_packet_t) : Prop :=
  forall b, last_RV p = Some b -> exists a, RV = Some a /\ val_octets (attr_val a) (attr_length a) = Some b.

Lemma add_rv_spec pack RV k :
  exists pack' v a a' k', l2tp_packet_add_random_vector rnd d pack k = (Some pack', k') /\ same_pack pack pack' /\
    attrs pack' = attrs pack ++ [a] /\ last_RV pack' = Some v /\ carried' RV a v a' /\ is_rv a' = true /\
    len (wire a v) <= 149 /\ val_octets (attr_val a') (attr_length a') = Some v.
Proof.
  destruct rv_entry as (da & Hda & Hty & Hh). destruct (attr_alloc_Some Random_Vector true false da Hda) as [a0 Ha0].
  destruct (attr_alloc_flags _ _ _ _ _ Ha0 Hda) as (Ea & Hf & HH). rewrite Hh in HH.
  unfold l2tp_packet_add_random_vector, mbind, bld_bind, lift. rewrite Ha0.
  destruct (u_rand16_ok k) as [z ->]. pose proof (pad_range z) as Hr. unfold u_randbuf.
  destruct (rnd_ok (S k) (Z.land z 0x7f + 16) ltac:(lia)) as (v & -> & Hlv & Hbv).
  set (a := a0 <| attr_length := _ |> <| attr_val := _ |>). exists (add_attr a pack <| last_RV := Some v |>), v, a, (received a (len v) (VPtr v)), (S (S k)).
  assert (Hs : sends a v).
  { unfold sends, send_value. change (attr_H a) with (attr_H a0). rewrite HH. change (attr a) with (attr a0). rewrite Ea, Hty.
    change (attr_val a) with (VPtr v). change (attr_length a) with (Z.land z 0x7f + 16). cbn [val_octets]. rewrite slice_whole by done. split; [done|lia]. }
  split; [done|]. split; [done|]. split; [done|]. split; [done|]. split.
  { split; [done|]. change (attr a) with (attr a0). rewrite Ea, (find_id _ _ _ Hda). split; [by unfold Random_Vector; width_lia|]. split; [done|].
    split; [done|]. intros pre post. exists v. split; [done|]. rewrite <- Ea. change (attr a0) with (attr a).
    apply recv_plain; [done|done|done|done|]. change (attr a) with (attr a0). by rewrite Ea, Hty. }
  split; [|split].
  - unfold is_rv. cbn [received attr]. change (attr a) with (attr a0). rewrite Ea. rewrite (find_id _ _ _ Hda). done.
  - rewrite len_wire. change sizeof_avp with 6. lia.
  - cbn [received attr_val attr_length val_octets]. by apply slice_whole.
Qed.

(** An operation that does not hide. *)
Definition plain_attr (op : l2tp_op) (a : l2tp_attr_t) : l2tp_attr_t :=
  match op with
  | OpNum n _ z _ => a <| attr_length := Z.of_nat n |> <| attr_val := VNum (z mod 256 ^ Z.of_nat n) |>
  | OpString _ v _ => a <| attr_length := Z.of_nat (length v) |> <| attr_val := VPtr (v ++ [0]) |>
  | OpOctets _ [] _ => a
  | OpOctets _ v _ => a <| attr_length := Z.of_nat (length v) |> <| attr_val := VPtr v |>
  end.

Lemma le_bytes_mod n z : le_bytes n (z mod 256 ^ Z.of_nat n) = le_bytes n z.
Proof.
  revert z. induction n as [|n IH]; intros z; [done|]. cbn [le_bytes].
  replace (256 ^ Z.of_nat (S n)) with (256 * 256 ^ Z.of_nat n) by (rewrite Nat2Z.inj_succ, Z.pow_succ_r by lia; done).
  assert (0 < 256 ^ Z.of_nat n) by (apply Z.pow_pos_nonneg; lia). rewrite Z.rem_mul_r by lia. f_equal.
  - unfold u8. change (2 ^ 8) with 256. rewrite Z.mul_comm, Z.mod_add by lia. by rewrite Z.mod_mod.
  - rewrite Z.mul_comm, Z.div_add, Z.div_small, Z.add_0_l by (try lia; apply Z.mod_pos_bound; lia). apply IH.
Qed.

Lemma plain_sends op da a :
  op_fits d hide secret op -> l2tp_dict_find_attr_by_id d (op_id op) = Some da ->
  attr a = da -> attr_H a = false -> attr_length a = 0 -> attr_val a = VNum 0 ->
  sends (plain_attr op a) (op_bytes op) /\ attr (plain_attr op a) = da /\ attr_H (plain_attr op a) = false /\
  attr_M (plain_attr op a) = attr_M a.
Proof.
  intros Hfit Hda Ea HH Hl0 Hv0. destruct (op_value_of _ _ _ _ _ Hfit Hda) as (_ & _ & Hlen).
  destruct Hfit as (da' & E & _ & _ & _ & H). rewrite Hda in E. injection E as <-.
  assert (Hx : attr (plain_attr op a) = da /\ attr_H (plain_attr op a) = false /\ attr_M (plain_attr op a) = attr_M a).
  { destruct op as [| |i [|] M]; cbn; done. }
  split; [|done]. destruct Hx as (Ex & HHx & _). unfold sends, send_value. rewrite HHx, Ex.
  destruct op as [n i z M|i v M|i v M]; cbn [op_bytes plain_attr] in *.
  - destruct (be_bytes_ok n z) as [_ Hn]. cbn -[be_bytes Z.pow Z.modulo len].
    assert (E : be_bytes n (z mod 256 ^ Z.of_nat n) = be_bytes n z) by (unfold be_bytes; by rewrite le_bytes_mod).
    split; [|lia]. destruct H as [[-> ->]|[[-> ->]|[-> ->]]]; by rewrite E.
  - destruct H as (-> & _). cbn -[slice len]. split; [by apply slice_front|]. split; [done|lia].
  - destruct H as (_ & _ & _ & Hty). destruct v as [|x v].
    + rewrite Hl0, Hv0. destruct Hty as [-> | [-> _]]; cbn; split; (done || lia).
    + destruct Hty as [-> | [_ ?]]; [|done]. cbn -[slice len]. split; [by apply slice_whole|]. split; [done|lia].
Qed.

Definition op_M (op : l2tp_op) : bool := match op with OpNum _ _ _ M | OpString _ _ M | OpOctets _ _ M => M end.
Definition is_empty (op : l2tp_op) : bool := match op with OpOctets _ [] _ => true | _ => false end.

Lemma add_op_eq op pack k :
  add_op op pack k =
  match attr_alloc d (op_id op) (op_M op) (hide_avps pack) with
  | None => (None, k)
  | Some a =>
      if attr_H a && negb (is_empty op) then add_hidden rnd d a (op_bytes op) pack k
      else (Some (add_attr (plain_attr op a) pack), k)
  end.
Proof.
  destruct op as [n i z M|i v M|i [|x v] M]; cbn [add_op op_id op_M is_empty negb op_bytes plain_attr];
    unfold l2tp_packet_add_num, l2tp_packet_add_string, l2tp_packet_add_octets, mbind, bld_bind, lift;
    (destruct (attr_alloc _ _ _ _) as [a|]; [|done]); rewrite ?andb_true_r, ?andb_false_r; cbn [length Nat.eqb]; try done;
    by destruct (attr_H a).
Qed.

(** What an operation adds: attributes [l], received as [l'], of which one is the one asked
    for and the others are Random Vectors. *)
Definition op_added (RV : option l2tp_attr_t) (op : l2tp_op) (pack pack' : l2tp_packet_t) : Prop :=
  exists l l', same_pack pack pack' /\ attrs pack' = attrs pack ++ l.*1 /\ all_carried' RV l l' /\
    (exists a, List.filter (fun a => negb (is_rv a)) l' = [a] /\ op_received d op a) /\
    rv_known (rv_after RV l') pack' /\ len (wires l) <= 1172.

Lemma wires_one a v : wires [(a, v)] = wire a v.
Proof. unfold wires. cbn. by rewrite app_nil_r. Qed.

Lemma not_rv op da a : op_fits d hide secret op -> l2tp_dict_find_attr_by_id d (op_id op) = Some da -> attr a = da -> is_rv a = false.
Proof.
  intros (? & _ & _ & Hne & _) Hda Ea. unfold is_rv. rewrite Ea, (find_id _ _ _ Hda). by apply Z.eqb_neq.
Qed.

Lemma add_plain_spec op pack RV da a :
  op_fits d hide secret op -> l2tp_dict_find_attr_by_id d (op_id op) = Some da ->
  attr_alloc d (op_id op) (op_M op) (hide_avps pack) = Some a -> attr_H a = false -> rv_known RV pack ->
  op_added RV op pack (add_attr (plain_attr op a) pack).
Proof.
  intros Hfit Hda Ha HH Hrv. destruct (attr_alloc_flags _ _ _ _ _ Ha Hda) as (Ea & [HfM HfH] & _).
  assert (attr_length a = 0 /\ attr_val a = VNum 0) as [Hl0 Hv0].
  { unfold attr_alloc in Ha. rewrite Hda in Ha. cbn in Ha. by injection Ha as <-. }
  destruct (plain_sends op da a Hfit Hda Ea HH Hl0 Hv0) as (Hs & Eb & HHb & HMb). set (b := plain_attr op a) in *.
  destruct (op_value_of _ _ _ _ _ Hfit Hda) as (Hval & _ & Hlen). pose proof (find_id _ _ _ Hda) as Hid.
  set (b' := received b (len (op_bytes op)) (op_value (da_type da) op)).
  assert (Hb' : is_rv b' = false) by (eapply not_rv; [done|done|exact Eb]).
  exists [(b, op_bytes op)], [b']. split; [done|]. split; [done|]. split; [|split; [|split]].
  - apply all_carried_one. split; [done|]. rewrite Eb, Hid. destruct Hfit as (_ & _ & Hu & _). split; [done|]. split; [done|]. split; [done|].
    intros pre post. exists (op_bytes op). split; [done|]. rewrite <- Eb at 1. rewrite Ea in HfM, HfH. rewrite HH in HfH.
    apply recv_plain; [done|done|unfold flags_fit; by rewrite Eb, HMb, HHb|done|by rewrite Eb].
  - exists b'. cbn [List.filter]. rewrite Hb'. split; [done|]. unfold op_received. cbn [b' received attr attr_H attr_length attr_val].
    by rewrite Eb.
  - unfold rv_after. cbn [fold_left]. by rewrite Hb'.
  - rewrite wires_one, len_wire. change sizeof_avp with 6. lia.
Qed.

Lemma encode_attr_spec pack a x rvb s k :
  last_RV pack = Some rvb -> p_secret pack = Some s -> s <> [] -> bytes_ok x -> len x <= 872 ->
  exists pad k', bytes_ok pad /\ 16 <= len pad <= 143 /\ encode_attr rnd pack a x k =
    (Some (a <| attr_length := 2 + len x + len pad |>
             <| attr_val := VPtr (encode_octets (da_id (attr a)) rvb s (be16 (len x) ++ x ++ pad)) |>), k').
Proof.
  intros Hrv Hs Hne Hx Hl. unfold encode_attr. assert (no_secret (p_secret pack) = false) as -> by (rewrite Hs; by destruct s).
  unfold mbind, bld_bind, lift. rewrite Hrv, Hs. destruct (u_rand16_ok k) as [z ->]. pose proof (pad_range z) as Hr. unfold u_randbuf.
  destruct (rnd_ok (S k) (Z.land z 0x7f + 16) ltac:(lia)) as (pad & -> & Hlp & Hbp). exists pad, (S (S k)).
  split; [done|]. split; [lia|]. pose proof (len_nonneg x). change (Z.of_nat (length x)) with (len x).
  rewrite u16_small by width_lia. rewrite Hlp. unfold mret, bld_ret. do 5 f_equal. rewrite take_ge by (unfold len; lia). done.
Qed.

(** A message has a Random Vector before its first hidden attribute. *)
Lemma ensure_rv pack RV k :
  rv_known RV pack ->
  exists pack1 rv rvb l l' k1,
    (match last_RV pack with None => l2tp_packet_add_random_vector rnd d pack | Some _ => mret pack end) k = (Some pack1, k1) /\
    same_pack pack pack1 /\ attrs pack1 = attrs pack ++ l.*1 /\ all_carried' RV l l' /\
    List.filter (fun a => negb (is_rv a)) l' = [] /\ rv_after RV l' = Some rv /\
    last_RV pack1 = Some rvb /\ val_octets (attr_val rv) (attr_length rv) = Some rvb /\ len (wires l) <= 149.
Proof.
  intros Hrv. destruct (last_RV pack) as [rvb|] eqn:El.
  - destruct (Hrv rvb El) as (rv & -> & Hrvb). exists pack, rv, rvb, [], [], k.
    split; [done|]. split; [done|]. split; [by rewrite app_nil_r|]. split; [constructor|]. done.
  - destruct (add_rv_spec pack RV k) as (pack1 & v & b & b' & k1 & E & Hsame & Hat & Hlr & Hc & Hisrv & Hlw & Hv).
    exists pack1, b', v, [(b, v)], [b'], k1. split; [done|]. split; [done|]. split; [done|].
    split; [by apply all_carried_one|]. cbn [List.filter]. rewrite Hisrv. split; [done|]. unfold rv_after. cbn [fold_left]. rewrite Hisrv.
    rewrite wires_one. done.
Qed.

Lemma hidden_carried op a da rv rvb s pad RV :
  let n := len (op_bytes op) in
  let v := encode_octets (da_id (attr a)) rvb s (be16 n ++ op_bytes op ++ pad) in
  let b := a <| attr_length := 2 + n + len pad |> <| attr_val := VPtr v |> in
  op_fits d hide secret op -> l2tp_dict_find_attr_by_id d (op_id op) = Some da -> attr a = da -> flags_fit a -> attr_H a = true ->
  secret = Some s -> s <> [] -> RV = Some rv -> val_octets (attr_val rv) (attr_length rv) = Some rvb ->
  bytes_ok pad -> len pad <= 143 -> carried' RV b v (received b n (op_value (da_type da) op)) /\ len v <= 1017.
Proof.
  intros n v b Hfit Hda Ea Hf HH Hsec Hne -> Hvo Hpad Hpl.
  destruct (op_value_of _ _ _ _ _ Hfit Hda) as (Hval & Hbytes & Hlen). pose proof (find_id _ _ _ Hda) as Hid. fold n in Hlen.
  assert (Hp0 : bytes_ok (be16 n ++ op_bytes op ++ pad)) by (apply Forall_app; split; [apply be16_ok|by apply Forall_app]).
  destruct (encode_length s (da_id (attr a)) rvb _ Hp0) as [Hlv _]. fold v in Hlv.
  assert (Hlv' : len v = 2 + n + len pad) by (unfold n, len in *; rewrite Hlv, !length_app; cbn [length be16]; lia).
  assert (Hs : sends b v).
  { unfold sends, send_value. change (attr_H b) with (attr_H a). rewrite HH. change (attr_val b) with (VPtr v).
    change (attr_length b) with (2 + n + len pad). cbn [val_octets]. rewrite slice_whole by done. split; [done|]. lia. }
  split; [|lia]. split; [done|]. change (attr b) with (attr a). rewrite Ea, Hid. destruct Hfit as (? & _ & Hu & _).
  split; [done|]. split; [done|]. split; [done|]. intros pre post.
  destruct (recv_hidden perm malloc_ok secret malloc_always b (op_bytes op) pad (op_value (da_type da) op) rv rvb s pre post) as (w & Hw & E);
    try done; [change (attr b) with (attr a); by rewrite Ea|].
  exists w. split; [done|]. rewrite <- Ea at 1. exact E.
Qed.

Lemma add_hidden_spec op pack RV da a k :
  op_fits d hide secret op -> l2tp_dict_find_attr_by_id d (op_id op) = Some da ->
  attr_alloc d (op_id op) (op_M op) (hide_avps pack) = Some a -> attr_H a = true -> rv_known RV pack ->
  p_secret pack = secret -> no_secret secret = false ->
  exists pack' k', add_hidden rnd d a (op_bytes op) pack k = (Some pack', k') /\ op_added RV op pack pack'.
Proof.
  intros Hfit Hda Ha HH Hrv Hsec Hns. destruct (attr_alloc_flags _ _ _ _ _ Ha Hda) as (Ea & Hf & _).
  assert (exists s, secret = Some s /\ s <> []) as (s & Es & Hne) by (destruct secret as [[|x s]|]; try done; by eexists).
  destruct (op_value_of _ _ _ _ _ Hfit Hda) as (_ & Hbytes & Hlen).
  destruct (ensure_rv pack RV k Hrv) as (pack1 & rv & rvb & l1 & l1' & k1 & E & (Hh & Hp & Hhd) & Hat & Hc1 & Hf1 & Hrv1 & Hlr & Hvo & Hlw).
  destruct (encode_attr_spec pack1 a (op_bytes op) rvb s k1 Hlr ltac:(congruence) Hne Hbytes Hlen) as (pad & k2 & Hpad & Hpl & Henc).
  unfold add_hidden, mbind, bld_bind. rewrite E, Henc. clear E Henc.
  destruct (hidden_carried op a da rv rvb s pad _ Hfit Hda Ea Hf HH Es Hne Hrv1 Hvo Hpad ltac:(lia)) as [Hc Hlv].
  match type of Hc with carried _ _ _ _ _ ?x ?y ?z => set (b := x) in *; set (v := y) in *; set (b' := z) in * end.
  assert (Hb' : is_rv b' = false) by (eapply not_rv; [done|done|exact Ea]).
  exists (add_attr b pack1), k2. split; [done|]. exists (l1 ++ [(b, v)]), (l1' ++ [b']).
  split; [done|]. split; [change (attrs (add_attr b pack1)) with (attrs pack1 ++ [b]); by rewrite Hat, fmap_app, <- app_assoc|]. split; [|split; [|split]].
  - apply all_carried_app; [done|]. by apply all_carried_one.
  - exists b'. rewrite List.filter_app, Hf1. cbn [List.filter]. rewrite Hb'. split; [done|].
    unfold op_received. change (attr b') with (attr a). by rewrite Ea.
  - unfold rv_after in *. rewrite fold_left_app, Hrv1. cbn [fold_left]. rewrite Hb'. intros x Hx. exists rv. split; [done|].
    change (last_RV (add_attr b pack1)) with (last_RV pack1) in Hx. congruence.
  - unfold wires in *. rewrite fmap_app, concat_app, len_app. cbn [fmap list_fmap concat fst snd]. rewrite app_nil_r, len_wire.
    change sizeof_avp with 6. lia.
Qed.

Lemma add_op_spec op pack RV k :
  op_fits d hide secret op -> rv_known RV pack -> p_secret pack = secret -> hide_avps pack = hide ->
  exists pack' k', add_op op pack k = (Some pack', k') /\ op_added RV op pack pack'.
Proof.
  intros Hfit Hrv Hsec Hhide. destruct Hfit as (da & Hda & Hrest). assert (Hfit : op_fits d hide secret op) by (by exists da).
  destruct Hrest as (_ & _ & Hns & Hop). destruct (attr_alloc_Some (op_id op) (op_M op) hide da Hda) as [a Ha].
  destruct (attr_alloc_flags _ _ _ _ _ Ha Hda) as (_ & _ & HH). rewrite add_op_eq, Hhide, Ha.
  destruct (attr_H a) eqn:EH; cbn [andb].
  - assert (is_empty op = false) as ->.
    { destruct op as [| |i [|] M]; [done..| |done]. destruct Hop as (_ & _ & Hempty & _). specialize (Hempty eq_refl). congruence. }
    cbn [negb]. apply (add_hidden_spec op pack RV da); try done; [by rewrite Hhide|]. apply Hns. congruence.
  - do 2 eexists. split; [reflexivity|]. apply (add_plain_spec op pack RV da); try done. by rewrite Hhide.
Qed.

Lemma adds_spec ops pack RV k :
  Forall (op_fits d hide secret) ops -> rv_known RV pack -> p_secret pack = secret -> hide_avps pack = hide ->
  exists pack' k' l l', adds ops pack k = (Some pack', k') /\ same_pack pack pack' /\ attrs pack' = attrs pack ++ l.*1 /\
    all_carried' RV l l' /\ Forall2 (op_received d) ops (List.filter (fun a => negb (is_rv a)) l') /\
    len (wires l) <= 1172 * Z.of_nat (length ops).
Proof.
  intros Hops. revert pack RV k. induction Hops as [|op ops Hop Hops IH]; intros pack RV k Hrv Hsec Hhide.
  { exists pack, k, [], []. split; [done|]. split; [done|]. split; [by rewrite app_nil_r|]. split; [constructor|]. by split; [constructor|]. }
  destruct (add_op_spec op pack RV k Hop Hrv Hsec Hhide) as (pack1 & k1 & E & l1 & l1' & (Hh & Hp & Hhd) & Hat & Hc & (a & Hf & Ha) & Hrv1 & Hw).
  destruct (IH pack1 (rv_after RV l1') k1 Hrv1 ltac:(congruence) ltac:(congruence)) as (pack2 & k2 & l2 & l2' & E2 & (Hh2 & Hp2 & Hhd2) & Hat2 & Hc2 & Hf2 & Hw2).
  exists pack2, k2, (l1 ++ l2), (l1' ++ l2'). cbn [adds]. unfold mbind, bld_bind. rewrite E. split; [done|].
  split; [split; [congruence|split; congruence]|]. split; [by rewrite Hat2, Hat, fmap_app, app_assoc|].
  split; [by apply all_carried_app|]. split.
  - rewrite List.filter_app, Hf. by constructor.
  - unfold wires in *. rewrite fmap_app, concat_app, len_app. cbn [length]. lia.
Qed.

(** A message: its type, then the operations. *)
Definition build (msg_type : Z) (ops : list l2tp_op) : bld l2tp_packet_t :=
  pack ← l2tp_packet_alloc rnd d 2 msg_type hide secret; adds ops pack.

Definition addressed (tid sid Ns Nr : Z) (pack : l2tp_packet_t) : l2tp_packet_t :=
  pack <| hdr ::= fun h => h <| h_tid := tid |> <| h_sid := sid |> <| h_Ns := Ns |> <| h_Nr := Nr |> |>.

Lemma build_adds msg_type ops k :
  msg_type <> 0 ->
  build msg_type ops k = adds (OpNum 2 Message_Type msg_type true :: ops)
    (mk_packet (mk_hdr 0xc802 0 0 0 0 0) [] None secret hide) k.
Proof.
  intros Hm. unfold build, l2tp_packet_alloc. cbn [adds add_op]. unfold mbind, bld_bind. apply Z.eqb_neq in Hm. by rewrite Hm.
Qed.

Lemma ctl_flags_const : ctl_flags 0xc802.
Proof. unfold ctl_flags. split; [width_lia|]. repeat split; try discriminate. Qed.

(** C16: a control message built by the calls of the daemon arrives as it was built.  For every
    list of attributes that fit, hidden or not, every source of random bytes and every secret,
    the message is built and sent within the packet buffer, and the receiver that shares the
    dictionary and the secret gets the same header and, Random Vectors left aside, exactly the
    attributes asked for, deciphered, in their order, the message type first. *)
Theorem message_roundtrip msg_type ops tid sid Ns Nr k old :
  msg_type <> 0 -> op_fits d hide secret (OpNum 2 Message_Type msg_type true) ->
  Forall (op_fits d hide secret) ops -> (length ops <= 50)%nat ->
  is_u16 tid -> is_u16 sid -> is_u16 Ns -> is_u16 Nr ->
  exists pack k' data h l,
    build msg_type ops k = (Some pack, k') /\ l2tp_packet_send (addressed tid sid Ns Nr pack) = Ret data /\
    l2tp_recv d perm malloc_ok secret old data = Ret (mk_packet h l None None false) /\
    h_tid h = tid /\ h_sid h = sid /\ h_Ns h = Ns /\ h_Nr h = Nr /\
    Forall2 (op_received d) (OpNum 2 Message_Type msg_type true :: ops) (List.filter (fun a => negb (is_rv a)) l).
Proof.
  intros Hm Hfm Hops Hlen Htid Hsid HNs HNr. rewrite build_adds by done.
  set (p0 := mk_packet _ _ _ _ _).
  destruct (adds_spec (OpNum 2 Message_Type msg_type true :: ops) p0 None k) as (pack & k' & l & l' & E & (Hh & _ & _) & Hat & Hc & Hf & Hw);
    [by constructor|by intros b Hb|done|done|].
  cbn [length] in Hw. rewrite Nat2Z.inj_succ in Hw.
  destruct (send_recv d perm malloc_ok secret (addressed tid sid Ns Nr pack) l l' old) as [Hs Hr].
  - destruct pack; cbn in Hh |- *; subst. split; [apply ctl_flags_const|done].
  - destruct pack; cbn in Hat |- *; done.
  - done.
  - change sizeof_hdr with 12. change L2TP_MAX_PACKET_SIZE with 65536. lia.
  - exists pack, k'. do 3 eexists. split; [done|]. split; [exact Hs|]. split; [exact Hr|]. done.
Qed.

End Ops.

End Wire.

(** ** Memory safety of the receiver *)

Module RecvSafe.
Import L2tpPacket.

Section Safe.
Variables (d : l2tp_dict) (perm : bool) (malloc_ok : Z -> bool) (secret : option (list Z)).

(** No attribute of the message is hidden. *)
Fixpoint all_plain (fuel : nat) (ptr length : Z) (buf : list Z) : bool :=
  match fuel with
  | O => true
  | S fuel =>
      match peek16 buf ptr with
      | Some flags =>
          let avp_len := Z.land flags L2TP_AVP_LEN_MASK in
          if (length <? sizeof_avp) || (avp_len <? sizeof_avp) || (length <? avp_len) then true
          else (Z.land flags L2TP_AVP_FLAG_H =? 0) && all_plain fuel (ptr + avp_len) (length - avp_len) buf
      | None => true
      end
  end.

Definition plain_message (old data : list Z) : bool :=
  let buf := data ++ drop (length data) old in
  let n := default 0 (peek16 buf 2) in all_plain (Z.to_nat n) sizeof_hdr (n - sizeof_hdr) buf.

(** The value of an attribute has the form its dictionary type says. *)
Definition value_ok (a : l2tp_attr_t) : Prop :=
  match da_type (attr a), attr_val a with
  | ATTR_TYPE_NONE, VNum v => v = 0
  | ATTR_TYPE_INT16, VNum _ => attr_length a = 2
  | ATTR_TYPE_INT32, VNum _ => attr_length a = 4
  | ATTR_TYPE_INT64, VNum _ => attr_length a = 8
  | ATTR_TYPE_OCTETS, VPtr b => len b = attr_length a
  | ATTR_TYPE_STRING, VPtr b => exists s, b = s ++ [0] /\ len s = attr_length a
  | _, _ => False
  end.

(** What a read inside of the buffer returns. *)
Definition safe {A} (P : A -> Prop) (o : outcome A) : Prop :=
  match o with Crash => False | Error => True | Ret a => P a end.

Lemma safe_guard {A} (P : A -> Prop) (b : bool) (o : outcome A) :
  (b = true -> safe P o) -> safe P (guard_ok b ;; o).
Proof. destruct b; cbn; auto. Qed.

Lemma safe_mem {A B} (P : B -> Prop) (x : option A) a (o : A -> outcome B) :
  x = Some a -> safe P (o a) -> safe P (a ← mem x; o a).
Proof. by intros ->. Qed.

Lemma recv_bind_safe {A B} (Q : A -> Prop) (P : B -> Prop) (x : outcome A) (o : A -> outcome B) :
  safe Q x -> (forall a, Q a -> safe P (o a)) -> safe P (a ← x; o a).
Proof. destruct x; cbn; auto. Qed.

Lemma avp_value_safe da M n off buf :
  0 <= n -> 0 <= off -> off + n <= len buf ->
  safe (fun v => value_ok (mk_attr da M false n v)) (recv_value malloc_ok (da_type da) n off buf).
Proof.
  intros Hn Ho Hb. unfold recv_value, value_ok. cbn [attr attr_val attr_length].
  destruct (da_type da); [done|apply safe_guard; intros Hg..].
  - to_prop. destruct (peek16_Some buf off) as [b ->]; [lia..|]. done.
  - to_prop. destruct (peek32_Some buf off) as [b ->]; [lia..|]. done.
  - to_prop. unfold peek64. destruct (peek32_Some buf off) as [b ->]; [lia..|]. cbn [mbind option_bind].
    destruct (peek32_Some buf (off + 4)) as [b' ->]; [lia..|]. done.
  - destruct (slice_Some buf off n) as (b & -> & Hl); [lia..|]. done.
  - destruct (slice_Some buf off n) as (b & -> & Hl); [lia..|]. cbn. by exists b.
Qed.

Lemma recv_avp_safe da flags avp_len ptr RV buf :
  no_secret secret = true \/ Z.land flags L2TP_AVP_FLAG_H = 0 ->
  sizeof_avp <= avp_len -> 0 <= ptr -> ptr + avp_len <= len buf ->
  safe (fun x => attr x.1 = da /\ value_ok x.1 /\ x.2 = buf) (recv_avp perm malloc_ok secret da flags avp_len ptr RV buf).
Proof.
  intros Hh Ha Hp Hb. change sizeof_avp with 6 in *. unfold recv_avp. do 2 (apply safe_guard; intros _).
  destruct (negb (Z.land flags L2TP_AVP_FLAG_H =? 0)) eqn:EH.
  - destruct Hh as [Hs|Hh]; [|to_prop; lia]. destruct RV; [|done]. rewrite Hs. done.
  - cbn [mbind outcome_bind]. change sizeof_avp with 6.
    eapply recv_bind_safe; [apply (avp_value_safe da (negb (Z.land flags L2TP_AVP_FLAG_M =? 0))); lia|]. done.
Qed.

Lemma recv_avps_safe fuel ptr n RV buf acc :
  no_secret secret = true \/ all_plain fuel ptr n buf = true ->
  0 <= ptr -> ptr + n <= len buf -> n < Z.of_nat fuel -> Forall value_ok acc ->
  safe (Forall value_ok) (recv_avps d perm malloc_ok secret fuel ptr n RV buf acc).
Proof.
  revert ptr n RV acc. induction fuel as [|fuel IH]; intros ptr n RV acc Hh Hp Hb Hf Hacc; cbn [recv_avps].
  { rewrite (proj2 (Z.leb_le _ _)) by lia. done. }
  change sizeof_avp with 6. destruct (n <=? 0) eqn:E0; [done|]. destruct (n <? 6) eqn:E1; [done|]. to_prop. to_prop.
  cbn [all_plain] in Hh. destruct (peek16_Some buf ptr) as [flags Hfl]; [lia..|]. rewrite Hfl in *.
  apply (safe_mem _ _ flags); [done|]. set (al := Z.land flags L2TP_AVP_LEN_MASK) in *. change sizeof_avp with 6 in *.
  destruct (al <? 6) eqn:E2; [done|]. destruct (n <? al) eqn:E3; [done|]. rewrite (proj2 (Z.ltb_ge n 6)) in Hh by lia.
  to_prop. to_prop.
  assert (Hrec : no_secret secret = true \/ all_plain fuel (ptr + al) (n - al) buf = true).
  { destruct Hh as [?|Hh]; [by left|right]. cbn [orb] in Hh. by apply andb_prop in Hh as [_ ?]. }
  destruct (peek16_Some buf (ptr + 2)) as [vendor Hv]; [lia..|]. apply (safe_mem _ _ vendor); [done|].
  destruct (peek16_Some buf (ptr + 4)) as [typ Ht]; [lia..|]. apply (safe_mem _ _ typ); [done|].
  assert (Hskip : forall RV acc, Forall value_ok acc ->
            safe (Forall value_ok) (recv_avps d perm malloc_ok secret fuel (ptr + al) (n - al) RV buf acc)).
  { intros RV' acc' Hacc'. apply IH; [done|lia..|done]. }
  destruct (negb (vendor =? 0)); [by apply Hskip|]. destruct (l2tp_dict_find_attr_by_id d typ) as [da|].
  - eapply recv_bind_safe; [apply recv_avp_safe; change sizeof_avp with 6; try lia|].
    + destruct Hh as [?|Hh]; [by left|right]. cbn [orb] in Hh. apply andb_prop in Hh as [Hz _]. by to_prop.
    + intros [a b] (_ & Hok & Eb). cbn [fst snd] in Eb, Hok. subst b. apply Hskip. apply Forall_app. split; [done|by constructor].
  - destruct (negb (Z.land flags L2TP_AVP_FLAG_M =? 0) && negb perm); [exact I|]. by apply Hskip.
Qed.

(** C28: on a tunnel without a secret, or for a datagram without hidden attributes, the
    receiver neither leaves its buffer nor runs on, whatever the datagram: it rejects it or
    returns a packet each of whose attributes has a value of its dictionary type and length. *)
Theorem recv_memory_safe old data :
  no_secret secret = true \/ plain_message old data = true -> len data <= len old ->
  match l2tp_recv d perm malloc_ok secret old data with
  | Crash => False
  | Error => True
  | Ret pack => Forall value_ok (attrs pack)
  end.
Proof.
  intros Hh Hl. change (safe (fun pack => Forall value_ok (attrs pack)) (l2tp_recv d perm malloc_ok secret old data)).
  unfold plain_message in Hh. unfold l2tp_recv. fold (len data). set (buf := data ++ drop (length data) old) in *.
  assert (Hbuf : len data <= len buf) by (unfold buf; rewrite len_app; pose proof (len_nonneg (drop (length data) old)); lia).
  change sizeof_hdr with 12 in *. destruct (len data <? 12) eqn:E0; [done|]. to_prop.
  destruct (peek16_Some buf 0) as [flags Hf]; [lia..|]. apply (safe_mem _ _ flags); [done|].
  do 4 (apply safe_guard; intros _). destruct (peek16_Some buf 2) as [n Hn]; [lia..|]. apply (safe_mem _ _ n); [done|].
  rewrite Hn in Hh. cbn [default from_option id] in Hh.
  apply safe_guard; intros E1. apply safe_guard; intros E2. to_prop. to_prop.
  destruct (peek16_Some buf 4) as [tid ?]; [lia..|]. apply (safe_mem _ _ tid); [done|].
  destruct (peek16_Some buf 6) as [sid ?]; [lia..|]. apply (safe_mem _ _ sid); [done|].
  destruct (peek16_Some buf 8) as [Ns ?]; [lia..|]. apply (safe_mem _ _ Ns); [done|].
  destruct (peek16_Some buf 10) as [Nr ?]; [lia..|]. apply (safe_mem _ _ Nr); [done|].
  eapply recv_bind_safe; [|intros l Hok; exact Hok]. apply recv_avps_safe; [done|lia..|constructor].
Qed.

End Safe.
End RecvSafe.

(** ** On concrete messages *)

Module WireDemo.
Import L2tpPacket L2tpDict Wire RecvSafe.

Definition rnd (k : nat) (n : Z) : option (list Z) := Some (replicate (Z.to_nat n) (Z.of_nat k mod 256)).
Definition secret : option (list Z) := Some [115; 51; 99].

Lemma rnd_fits k n : 0 <= n -> exists b, rnd k n = Some b /\ len b = n /\ bytes_ok b.
Proof.
  intros Hn. eexists. split; [reflexivity|]. split; [unfold len; rewrite length_replicate; lia|].
  apply Forall_replicate. unfold is_u8. apply Z.mod_pos_bound. lia.
Qed.

(** An SCCRP with the secret tunnel id and challenge hidden. *)
Definition ops : list l2tp_op :=
  [OpNum 2 2 256 true; OpString 7 [98; 110; 103] true; OpNum 4 3 3 true; OpNum 2 9 4711 true; OpOctets 11 (replicate 40 9) true].

Ltac fits := eexists; split; [vm_compute; reflexivity|]; split; [by cbn|]; split; [done|]; split; [done|]; cbn.

Lemma ops_fit : Forall (op_fits l2tp_dictionary true secret) ops.
Proof.
  unfold ops. rewrite !Forall_cons. split_and!; [..|constructor].
  - fits. by left.
  - fits. split; [done|]. split; [repeat constructor; width_lia|done].
  - fits. right. by left.
  - fits. by left.
  - fits. split; [repeat constructor; width_lia|]. split; [done|]. split; [done|by left].
Qed.

Lemma sccrp_fits : op_fits l2tp_dictionary true secret (OpNum 2 Message_Type 2 true).
Proof. fits. by left. Qed.

Lemma message_roundtrip_witness :
  exists pack k' data h l,
    build rnd l2tp_dictionary secret true 2 ops 0%nat = (Some pack, k') /\
    l2tp_packet_send (addressed 17 0 0 1 pack) = Ret data /\
    l2tp_recv l2tp_dictionary false (fun _ => true) secret (replicate (Z.to_nat 65536) 0) data = Ret (mk_packet h l None None false) /\
    h_tid h = 17 /\ h_sid h = 0 /\ h_Ns h = 0 /\ h_Nr h = 1 /\
    Forall2 (op_received l2tp_dictionary) (OpNum 2 Message_Type 2 true :: ops) (List.filter (fun a => negb (is_rv a)) l).
Proof.
  apply (message_roundtrip rnd l2tp_dictionary false (fun _ => true) secret true); try done.
  - exact rnd_fits.
  - eexists. split; [vm_compute; reflexivity|]. done.
  - exact sccrp_fits.
  - exact ops_fit.
  - cbn. lia.
Defined.

(** The answer to a tunnel without a secret, and a datagram of noise. *)
Lemma recv_memory_safe_witness :
  match l2tp_recv l2tp_dictionary false (fun _ => true) None (replicate 100 0) (0xc8 :: 0x02 :: 0 :: 20 :: replicate 60 255) with
  | Crash => False
  | Error => True
  | Ret pack => Forall value_ok (attrs pack)
  end.
Proof. apply (recv_memory_safe l2tp_dictionary false (fun _ => true) None); [left; reflexivity|done]. Defined.

(** A hidden attribute of two bytes that claims 65529: the receiver copies them from behind its
    buffer. *)
Definition overread_avps (s : list Z) : list Z :=
  be16 (0x8000 + 8) ++ be16 0 ++ be16 Random_Vector ++ [1; 2] ++
  be16 (0xc000 + 8) ++ be16 0 ++ be16 11 ++ encode_octets 11 [1; 2] s (be16 65529).

Lemma hidden_overread :
  l2tp_recv l2tp_dictionary false (fun _ => true) secret (replicate (Z.to_nat 65536) 0)
    (hdr_bytes (mk_hdr 0xc802 28 1 0 0 0) ++ overread_avps (default [] secret)) = Crash.
Proof. vm_compute. reflexivity. Qed.

End WireDemo.
