(* ===== verification/L2tpChan.v ===== *)
(** The sequence numbers of an L2TP control channel: the part of struct l2tp_conn_t of
    ctrl/l2tp/l2tp.c that numbers, acknowledges and orders messages.

    [chan M R] has the queue of messages of type [M] not yet sent, the queue of those sent and
    not yet acknowledged, each with the number in its header, and the ring of messages of type
    [R] received and not yet handled.  The functions are the steps of the C functions on these
    fields: [store_msg] of l2tp_tunnel_store_msg, [clean_rtmsqueue] of
    l2tp_tunnel_clean_rtmsqueue, [push_next] and [push_sent] of the loop of
    l2tp_tunnel_push_sendqueue, [take_at] and [advance] of the loop of l2tp_tunnel_reply.
    L2tpTunnel.v uses them in the handlers of a tunnel, L2tpDelivery.v composes two of them
    over a network that loses, repeats and reorders.

    The lemmas: [nsnr_cmp] compares the positions of two messages in the stream as long as
    they are less than 32768 apart. *)

From stdpp Require Import base tactics list numbers option.
From Stdlib Require Import ZArith Lia.
From S2P Require Import Prelude.

Open Scope Z_scope.

Module L2tpChan.

Definition RECV_WINDOW_SIZE_MAX : Z := 32768.
Definition DEFAULT_PEER_RECV_WINDOW_SIZE : Z := 4.

Definition nsnr_cmp (ns nr : Z) : Z :=
  let sub_nsnr := u16 (ns - nr) in
  let ref := u16 (-32767) in
  Z.b2z (negb (sub_nsnr =? 0) && (sub_nsnr <? ref)) - Z.b2z (ref <=? sub_nsnr).

Record chan (M R : Type) := mk_chan {
  Ns : Z;
  Nr : Z;
  peer_Nr : Z;
  peer_rcv_wnd_sz : Z;
  send_queue : list M;
  rtms_queue : list (Z * M);
  recv_queue : list (option R);
  recv_queue_offt : Z;
}.
#[global] Arguments mk_chan {_ _} _ _ _ _ _ _ _ _.
#[global] Arguments Ns {_ _} _. #[global] Arguments Nr {_ _} _. #[global] Arguments peer_Nr {_ _} _.
#[global] Arguments peer_rcv_wnd_sz {_ _} _. #[global] Arguments send_queue {_ _} _.
#[global] Arguments rtms_queue {_ _} _. #[global] Arguments recv_queue {_ _} _.
#[global] Arguments recv_queue_offt {_ _} _.

Section Chan.
Context {M R : Type}.
Implicit Types c : chan M R.

(** The array has [recv_queue_sz] slots. *)
Definition recv_queue_sz c : Z := Z.of_nat (length (recv_queue c)).

Definition set_Ns (v : Z) c : chan M R :=
  mk_chan v (Nr c) (peer_Nr c) (peer_rcv_wnd_sz c) (send_queue c) (rtms_queue c) (recv_queue c) (recv_queue_offt c).
Definition set_Nr (v : Z) c : chan M R :=
  mk_chan (Ns c) v (peer_Nr c) (peer_rcv_wnd_sz c) (send_queue c) (rtms_queue c) (recv_queue c) (recv_queue_offt c).
Definition set_peer_Nr (v : Z) c : chan M R :=
  mk_chan (Ns c) (Nr c) v (peer_rcv_wnd_sz c) (send_queue c) (rtms_queue c) (recv_queue c) (recv_queue_offt c).
Definition set_wnd (v : Z) c : chan M R :=
  mk_chan (Ns c) (Nr c) (peer_Nr c) v (send_queue c) (rtms_queue c) (recv_queue c) (recv_queue_offt c).
Definition set_send (q : list M) c : chan M R :=
  mk_chan (Ns c) (Nr c) (peer_Nr c) (peer_rcv_wnd_sz c) q (rtms_queue c) (recv_queue c) (recv_queue_offt c).
Definition set_rtms (q : list (Z * M)) c : chan M R :=
  mk_chan (Ns c) (Nr c) (peer_Nr c) (peer_rcv_wnd_sz c) (send_queue c) q (recv_queue c) (recv_queue_offt c).
Definition set_recv (q : list (option R)) c : chan M R :=
  mk_chan (Ns c) (Nr c) (peer_Nr c) (peer_rcv_wnd_sz c) (send_queue c) (rtms_queue c) q (recv_queue_offt c).
Definition set_offt (v : Z) c : chan M R :=
  mk_chan (Ns c) (Nr c) (peer_Nr c) (peer_rcv_wnd_sz c) (send_queue c) (rtms_queue c) (recv_queue c) v.

(** ** Sending *)

(** The loop condition of l2tp_tunnel_push_sendqueue: the next message, when the window of
    the peer is open. *)
Definition push_next c : option M :=
  match send_queue c with
  | [] => None
  | m :: _ => if 0 <=? nsnr_cmp (Ns c) (u16 (peer_Nr c + peer_rcv_wnd_sz c)) then None else Some m
  end.

(** The message, sent with the number [Ns], moves to the retransmission queue. *)
Definition push_sent (m : M) c : chan M R :=
  set_Ns (u16 (Ns c + 1)) (set_rtms (rtms_queue c ++ [(Ns c, m)]) (set_send (tail (send_queue c)) c)).

(** Messages acknowledged by the peer leave the retransmission queue. *)
Fixpoint drop_acked (nr : Z) (q : list (Z * M)) : list (Z * M) :=
  match q with
  | [] => []
  | (n, m) :: q' => if 0 <=? nsnr_cmp n nr then q else drop_acked nr q'
  end.

Definition clean_rtmsqueue c : chan M R := set_rtms (drop_acked (peer_Nr c) (rtms_queue c)) c.

(** ** Receiving *)

(** l2tp_tunnel_store_msg: [body] is [None] for a message without attributes (ZLB).  The
    result, whether [need_ack] is set, and the channel. *)
Definition store_msg (pack_Ns pack_Nr : Z) (body : option R) c : bool * bool * chan M R :=
  if nsnr_cmp (Ns c) pack_Nr <? 0 then (false, false, c)
  else
    let c := if 0 <? nsnr_cmp pack_Nr (peer_Nr c) then set_peer_Nr pack_Nr c else c in
    match body with
    | None => (false, false, c)
    | Some m =>
        if nsnr_cmp pack_Ns (Nr c) <? 0 then (false, true, c)
        else
          let indx := u16 (pack_Ns - Nr c) in
          if recv_queue_sz c <=? indx then (false, true, c)
          else
            let indx := u16 ((indx + recv_queue_offt c) mod recv_queue_sz c) in
            match recv_queue c !! Z.to_nat indx with
            | Some None => (true, true, set_recv (<[Z.to_nat indx := Some m]> (recv_queue c)) c)
            | _ => (false, true, c)
            end
    end.

(** One turn of the loop of l2tp_tunnel_reply: the message in the slot [id], which is
    acknowledged from now on, and the next slot. *)
Definition take_at (id : Z) c : option (R * Z * chan M R) :=
  match recv_queue c !! Z.to_nat id with
  | Some (Some m) =>
      Some (m, u16 ((id + 1) mod recv_queue_sz c),
            set_Nr (u16 (Nr c + 1)) (set_recv (<[Z.to_nat id := None]> (recv_queue c)) c))
  | _ => None
  end.

(** Behind the loop: [pkt_count] messages were taken. *)
Definition advance (pkt_count : Z) c : chan M R :=
  set_offt (u16 ((recv_queue_offt c + pkt_count) mod recv_queue_sz c)) c.

Definition clear_recvqueue c : chan M R := set_offt 0 (set_recv (replicate (length (recv_queue c)) None) c).
Definition clear_sendqueue c : chan M R := set_send [] c.

End Chan.

(** ** Comparing sequence numbers *)

(** The numbers of the messages at the positions [i] and [j] of a stream. *)
Lemma nsnr_cmp_pos i j :
  -32767 <= i - j <= 32768 -> nsnr_cmp (u16 i) (u16 j) = (if i =? j then 0 else if j <? i then 1 else -1).
Proof.
  intros H. unfold nsnr_cmp. change (u16 (-32767)) with 32769.
  assert (Hsub : u16 (u16 i - u16 j) = if j <=? i then i - j else i - j + 65536).
  { destruct (Z.leb_spec j i); width_lia. }
  rewrite Hsub. destruct (Z.leb_spec j i) as [Hle|Hlt].
  - rewrite (proj2 (Z.leb_gt 32769 _)) by lia. rewrite (proj2 (Z.ltb_lt _ 32769)) by lia.
    destruct (Z.eqb_spec i j) as [->|Hne]; [by rewrite Z.sub_diag|].
    rewrite (proj2 (Z.eqb_neq (i - j) 0)) by lia. by rewrite (proj2 (Z.ltb_lt _ _)) by lia.
  - rewrite (proj2 (Z.leb_le 32769 _)) by lia. rewrite (proj2 (Z.ltb_ge _ 32769)) by lia. rewrite andb_false_r.
    rewrite (proj2 (Z.eqb_neq i j)) by lia. by rewrite (proj2 (Z.ltb_ge j i)) by lia.
Qed.

Lemma nsnr_cmp_lt i j : -32767 <= i - j <= 32768 -> (nsnr_cmp (u16 i) (u16 j) <? 0) = (i <? j).
Proof.
  intros H. rewrite nsnr_cmp_pos by done. destruct (Z.eqb_spec i j) as [->|]; [by rewrite !Z.ltb_irrefl|].
  destruct (Z.ltb_spec j i); destruct (Z.ltb_spec i j); lia || done.
Qed.

Lemma nsnr_cmp_gt i j : -32767 <= i - j <= 32768 -> (0 <? nsnr_cmp (u16 i) (u16 j)) = (j <? i).
Proof.
  intros H. rewrite nsnr_cmp_pos by done. destruct (Z.eqb_spec i j) as [->|]; [by rewrite !Z.ltb_irrefl|].
  by destruct (Z.ltb_spec j i).
Qed.

Lemma nsnr_cmp_ge i j : -32767 <= i - j <= 32768 -> (0 <=? nsnr_cmp (u16 i) (u16 j)) = (j <=? i).
Proof.
  intros H. rewrite nsnr_cmp_pos by done. destruct (Z.eqb_spec i j) as [->|]; [by rewrite !Z.leb_refl|].
  destruct (Z.ltb_spec j i); destruct (Z.leb_spec j i); lia || done.
Qed.

(** Exactly at a distance of 32768 the comparison is not antisymmetric: both numbers are
    larger than the other. *)
Lemma nsnr_cmp_half i : nsnr_cmp (u16 i) (u16 (i + 32768)) = 1 /\ nsnr_cmp (u16 (i + 32768)) (u16 i) = 1.
Proof.
  unfold nsnr_cmp. change (u16 (-32767)) with 32769.
  assert (u16 (u16 i - u16 (i + 32768)) = 32768) as -> by width_lia.
  assert (u16 (u16 (i + 32768) - u16 i) = 32768) as -> by width_lia. done.
Qed.

End L2tpChan.
