(* ===== verification/L2tpDelivery.v ===== *)
(** Reliable delivery of L2TP control messages.

    Two tunnels, each with the channel of L2tpChan.v, exchange packets over a network that may
    lose, repeat and reorder them: a packet that was sent stays in [net] and may be received at
    any time, any number of times or never.  A side appends messages to its send queue and
    drops unsent ones as it likes, learns a window, sends what the window allows, retransmits
    the oldest message that is not acknowledged, acknowledges, stores what it receives, and
    takes messages out of its receive queue as l2tp_conn_read and the timers of l2tp.c do.
    [sent] and [got] are histories: the messages a side has numbered, and those it has handed
    to its handlers.

    The theorems: under a bound on the age of packets, which 16 bit numbers need, what a side
    handles is at any time a prefix of what the other has sent, in order and without
    repetition; a retransmission and its acknowledgement make progress; a peer that announces
    the largest window the code accepts is never sent anything. *)

From stdpp Require Import base tactics list numbers option relations.
From Stdlib Require Import ZArith Lia.
From S2P Require Import Prelude L2tpChan.

Open Scope Z_scope.

Module L2tpDelivery.
Import L2tpChan.

Section Delivery.
Context {M : Type}.

Abbreviation size l := (Z.of_nat (length l)).

(** A packet of the network: the positions in the stream of its own number and of the message
    it acknowledges up to, and its message. *)
Record pkt := mk_pkt { pos : Z; ack : Z; body : option M }.

Record side := mk_side { ch : chan M M; sent : list M; got : list M }.

Record sys := mk_sys { side_of : bool -> side; net : bool -> list pkt }.

Definition upd {A} (f : bool -> A) (x : bool) (a : A) : bool -> A := fun y => if Bool.eqb x y then a else f y.

Definition on (x : bool) (s : sys) (sd : side) (ps : list pkt) : sys :=
  mk_sys (upd (side_of s) x sd) (upd (net s) x (net s x ++ ps)).

(** The position up to which the peer has acknowledged. *)
Definition acked (sd : side) : Z := size (sent sd) - u16 (Ns (ch sd) - peer_Nr (ch sd)).

(** The age of a packet that the numbers can tell: a message is not received again after 65536
    less the window, an acknowledgement not after 32767 further ones. *)
Definition fresh (sd : side) (p : pkt) : Prop :=
  size (got sd) <= pos p + 65536 - recv_queue_sz (ch sd) /\ acked sd <= ack p + 32767.

Definition with_ch (f : chan M M -> chan M M) (sd : side) : side := mk_side (f (ch sd)) (sent sd) (got sd).

Inductive step (s : sys) : sys -> Prop :=
| submit x m :
    step s (on x s (with_ch (fun c => set_send (send_queue c ++ [m]) c) (side_of s x)) [])
| discard x q :
    q `sublist_of` send_queue (ch (side_of s x)) ->
    step s (on x s (with_ch (set_send q) (side_of s x)) [])
| window x w :
    0 < w < RECV_WINDOW_SIZE_MAX -> step s (on x s (with_ch (set_wnd w) (side_of s x)) [])
| push x m :
    let sd := side_of s x in
    clean_rtmsqueue (ch sd) = ch sd -> push_next (ch sd) = Some m ->
    step s (on x s (mk_side (push_sent m (ch sd)) (sent sd ++ [m]) (got sd)) [mk_pkt (size (sent sd)) (size (got sd)) (Some m)])
| retransmit x n m q :
    let sd := side_of s x in
    rtms_queue (ch sd) = (n, m) :: q ->
    step s (on x s sd [mk_pkt (size (sent sd) - size (rtms_queue (ch sd))) (size (got sd)) (Some m)])
| zlb x :
    let sd := side_of s x in step s (on x s sd [mk_pkt (size (sent sd)) (size (got sd)) None])
| receive x p :
    let sd := side_of s x in
    p ∈ net s (negb x) -> fresh sd p ->
    step s (on x s (with_ch (fun c => (store_msg (u16 (pos p)) (u16 (ack p)) (body p) c).2) sd) [])
| clean x :
    step s (on x s (with_ch clean_rtmsqueue (side_of s x)) [])
| take x m i c :
    let sd := side_of s x in
    take_at (recv_queue_offt (ch sd)) (ch sd) = Some (m, i, c) ->
    step s (on x s (mk_side (advance 1 c) (sent sd) (got sd ++ [m])) []).

(** * The invariant *)

Fixpoint numbered (i : Z) (l : list M) : list (Z * M) :=
  match l with [] => [] | m :: l => (u16 i, m) :: numbered (i + 1) l end.

Definition from (i : Z) (l : list M) : list M := drop (Z.to_nat i) l.
Definition at_pos (i : Z) (l : list M) : option M := if i <? 0 then None else l !! Z.to_nat i.

(** The sender [tx] and the receiver [rx]; [a] is the position acknowledged, [q] the position
    of the oldest message in the retransmission queue. *)
Record tx_ok (c : chan M M) (sn : list M) (r a q : Z) : Prop := {
  tx_Ns : Ns c = u16 (size sn);
  tx_peer : peer_Nr c = u16 a;
  tx_wnd : 0 < peer_rcv_wnd_sz c < RECV_WINDOW_SIZE_MAX;
  tx_rtms : rtms_queue c = numbered q (from q sn);
  tx_order : 0 <= q <= a /\ a <= r <= size sn;
  tx_bound : size sn - q <= 32767 }.

Record rx_ok (c : chan M M) (sn gt : list M) : Prop := {
  rx_Nr : Nr c = u16 (size gt);
  rx_got : gt `prefix_of` sn;
  rx_sz : 0 < recv_queue_sz c <= RECV_WINDOW_SIZE_MAX;
  rx_offt : 0 <= recv_queue_offt c < recv_queue_sz c;
  rx_slot : forall j, 0 <= j < recv_queue_sz c ->
    exists o, recv_queue c !! Z.to_nat ((j + recv_queue_offt c) mod recv_queue_sz c) = Some o /\
      forall m, o = Some m -> at_pos (size gt + j) sn = Some m }.

Definition net_ok (sn gt : list M) (ps : list pkt) : Prop :=
  Forall (fun p => 0 <= pos p <= size sn /\ 0 <= ack p <= size gt /\
                   forall m, body p = Some m -> at_pos (pos p) sn = Some m) ps.

Definition dir_ok (tx rx : side) (ps : list pkt) : Prop :=
  (exists a q, tx_ok (ch tx) (sent tx) (size (got rx)) a q) /\
  rx_ok (ch rx) (sent tx) (got rx) /\ net_ok (sent tx) (got tx) ps.

Definition sys_ok (s : sys) : Prop := forall x, dir_ok (side_of s x) (side_of s (negb x)) (net s x).

(** * Lemmas on streams *)

Lemma numbered_app i l m : numbered i (l ++ [m]) = numbered i l ++ [(u16 (i + size l), m)].
Proof.
  revert i. induction l as [|x l IH]; intros i; cbn [app numbered length]; [by rewrite Z.add_0_r|].
  rewrite IH. do 5 f_equal. lia.
Qed.

Lemma numbered_length i l : length (numbered i l) = length l.
Proof. revert i. induction l as [|x l IH]; intros i; [done|]. cbn. by rewrite IH. Qed.

Lemma numbered_elem l q i m : l !! Z.to_nat (i - q) = Some m -> q <= i -> (u16 i, m) ∈ numbered q l.
Proof.
  revert q. induction l as [|y l IH]; intros q Hf Hq; [done|]. cbn [numbered]. destruct (decide (i = q)) as [->|Hne].
  - rewrite Z.sub_diag in Hf. injection Hf as ->. left.
  - right. apply IH; [|lia]. replace (Z.to_nat (i - q)) with (S (Z.to_nat (i - (q + 1)))) in Hf by lia. done.
Qed.

Lemma drop_acked_numbered a i l :
  i <= a <= i + size l -> a - i <= 32767 -> size l <= 32767 ->
  drop_acked (u16 a) (numbered i l) = numbered a (drop (Z.to_nat (a - i)) l).
Proof.
  revert i. induction l as [|x l IH]; intros i Ha Hd Hl; cbn [length] in *.
  { by rewrite drop_nil. }
  cbn [numbered drop_acked]. rewrite nsnr_cmp_ge by lia. destruct (Z.leb_spec a i) as [Hle|Hlt].
  - assert (a = i) as -> by lia. by rewrite Z.sub_diag.
  - rewrite IH by lia. replace (Z.to_nat (a - i)) with (S (Z.to_nat (a - (i + 1)))) by lia. done.
Qed.

Lemma from_app i (l : list M) m : 0 <= i <= size l -> from i (l ++ [m]) = from i l ++ [m].
Proof. intros Hi. unfold from. apply drop_app_le. lia. Qed.

Lemma from_length i (l : list M) : 0 <= i <= size l -> size (from i l) = size l - i.
Proof. intros Hi. unfold from. rewrite length_drop. lia. Qed.

Lemma at_pos_app i (l : list M) m x : at_pos i l = Some x -> at_pos i (l ++ [m]) = Some x.
Proof. unfold at_pos. destruct (i <? 0); [done|]. apply lookup_app_l_Some. Qed.

Lemma at_pos_lt i (l : list M) m : at_pos i l = Some m -> 0 <= i < size l.
Proof.
  unfold at_pos. destruct (Z.ltb_spec i 0); [done|]. intros Hm%lookup_lt_Some. lia.
Qed.

Lemma at_pos_end (l : list M) m : at_pos (size l) (l ++ [m]) = Some m.
Proof. unfold at_pos. rewrite (proj2 (Z.ltb_ge _ _)) by lia. rewrite Nat2Z.id. apply list_lookup_middle. done. Qed.

Lemma prefix_snoc (gt sn : list M) m : gt `prefix_of` sn -> at_pos (size gt) sn = Some m -> (gt ++ [m]) `prefix_of` sn.
Proof.
  intros [k ->] Hm. unfold at_pos in Hm. rewrite (proj2 (Z.ltb_ge _ _)), Nat2Z.id in Hm by lia.
  rewrite lookup_app_r, Nat.sub_diag in Hm by done. destruct k as [|x k]; [done|]. injection Hm as ->.
  exists k. by rewrite <- app_assoc.
Qed.

(** * Sending *)

Lemma tx_acked sd r a q : tx_ok (ch sd) (sent sd) r a q -> acked sd = a.
Proof.
  intros [HN HP _ _ Ho Hb]. unfold acked. rewrite HN, HP.
  assert (u16 (u16 (size (sent sd)) - u16 a) = size (sent sd) - a) as -> by width_lia. lia.
Qed.

Lemma tx_mono c sn r r' a q : tx_ok c sn r a q -> r <= r' <= size sn -> tx_ok c sn r' a q.
Proof. intros [] Hr. split; try done. lia. Qed.

(** Only these fields matter to the sender. *)
Lemma tx_frame c c' sn r a q :
  tx_ok c sn r a q -> Ns c' = Ns c -> peer_Nr c' = peer_Nr c -> peer_rcv_wnd_sz c' = peer_rcv_wnd_sz c -> rtms_queue c' = rtms_queue c ->
  tx_ok c' sn r a q.
Proof. intros [] E1 E2 E3 E4. split; congruence. Qed.

Lemma tx_push c sn r a q m :
  tx_ok c sn r a q -> clean_rtmsqueue c = c -> push_next c = Some m ->
  tx_ok (push_sent m c) (sn ++ [m]) r a q /\ q = a.
Proof.
  intros [HN HP HW HR Ho Hb] Hc Hp. unfold RECV_WINDOW_SIZE_MAX in *.
  assert (Hqa : q = a).
  { apply (f_equal rtms_queue) in Hc. cbn in Hc. rewrite HR, HP in Hc.
    pose proof (from_length q sn ltac:(lia)) as Hl. rewrite drop_acked_numbered in Hc by lia.
    apply (f_equal length) in Hc. rewrite !numbered_length, length_drop in Hc. lia. }
  assert (Hwnd : size sn - a < peer_rcv_wnd_sz c).
  { unfold push_next in Hp. destruct (send_queue c); [done|]. rewrite HN, HP in Hp.
    replace (u16 (u16 a + peer_rcv_wnd_sz c)) with (u16 (a + peer_rcv_wnd_sz c)) in Hp by width_lia.
    rewrite nsnr_cmp_ge in Hp by lia. destruct (Z.leb_spec (a + peer_rcv_wnd_sz c) (size sn)); [done|lia]. }
  split; [|done]. split; cbn; try done.
  - rewrite HN, length_app. cbn. width_lia.
  - rewrite from_app, numbered_app, HR, HN by lia. rewrite from_length by lia. do 4 f_equal. lia.
  - rewrite length_app. cbn. lia.
  - rewrite length_app. cbn. lia.
Qed.

Lemma tx_clean c sn r a q : tx_ok c sn r a q -> tx_ok (clean_rtmsqueue c) sn r a a.
Proof.
  intros [HN HP HW HR Ho Hb]. split; cbn; try done; try lia.
  rewrite HR, HP. pose proof (from_length q sn ltac:(lia)). rewrite drop_acked_numbered by lia. unfold from.
  rewrite drop_drop. do 2 f_equal. lia.
Qed.

(** A packet, not too old, that acknowledges up to [k]. *)
Lemma tx_store c sn r a q i k b :
  tx_ok c sn r a q -> 0 <= k <= r -> a <= k + 32767 ->
  exists a', a <= a' /\ tx_ok (store_msg i (u16 k) b c).2 sn r a' q.
Proof.
  intros Ht Hk Hf. pose proof Ht as [HN HP HW HR Ho Hb]. unfold store_msg.
  destruct (nsnr_cmp (Ns c) (u16 k) <? 0) eqn:E; [by exists a|].
  assert (Hn : size sn - k <= 32768).
  { destruct (Z.le_gt_cases (size sn - k) 32768) as [|Hgt]; [done|]. exfalso. apply Z.ltb_ge in E.
    rewrite HN in E. unfold nsnr_cmp in E. change (u16 (-32767)) with 32769 in E.
    assert (u16 (u16 (size sn) - u16 k) = size sn - k) as Hs by width_lia. rewrite Hs in E.
    rewrite (proj2 (Z.leb_le 32769 _)) in E by lia. rewrite (proj2 (Z.ltb_ge _ 32769)), andb_false_r in E by lia. cbn in E. lia. }
  set (c1 := if 0 <? nsnr_cmp (u16 k) (peer_Nr c) then set_peer_Nr (u16 k) c else c).
  assert (Hc1 : exists a', a <= a' /\ tx_ok c1 sn r a' q).
  { unfold c1. rewrite HP, nsnr_cmp_gt by lia. destruct (Z.ltb_spec a k) as [Hlt|]; [|by exists a].
    exists k. split; [lia|]. split; cbn; try done; lia. }
  destruct Hc1 as (a' & Ha & Ht1). exists a'. split; [done|]. clearbody c1.
  destruct b as [m|]; [|exact Ht1]. destruct (nsnr_cmp i (Nr c1) <? 0); [exact Ht1|].
  destruct (recv_queue_sz c1 <=? u16 (i - Nr c1)); [exact Ht1|].
  destruct (recv_queue c1 !! _) as [[?|]|]; [exact Ht1| |exact Ht1]. by eapply tx_frame.
Qed.

(** * Receiving *)

Lemma rx_frame c c' sn gt :
  rx_ok c sn gt -> Nr c' = Nr c -> recv_queue c' = recv_queue c -> recv_queue_offt c' = recv_queue_offt c -> rx_ok c' sn gt.
Proof.
  intros [H1 H2 H3 H4 H5] E1 E2 E3. unfold recv_queue_sz in *.
  split; unfold recv_queue_sz; rewrite ?E1, ?E2, ?E3; done.
Qed.

Lemma rx_sent c sn gt m : rx_ok c sn gt -> rx_ok c (sn ++ [m]) gt.
Proof.
  intros [H1 H2 H3 H4 H5]. split; try done; [by apply prefix_app_r|].
  intros j Hj. destruct (H5 j Hj) as (o & E & Ho). exists o. split; [done|]. intros x Hx. by apply at_pos_app, Ho.
Qed.

(** Two different places of the window are in two different slots of the ring. *)
Lemma slot_inj sz o i j :
  0 < sz -> 0 <= i < sz -> 0 <= j < sz -> (i + o) mod sz = (j + o) mod sz -> i = j.
Proof.
  intros Hsz Hi Hj E.
  assert (D : forall a b, 0 <= b <= a -> a < sz -> (a + o) mod sz = (b + o) mod sz -> a = b).
  { intros a b Hb Ha Eab. assert ((a - b) mod sz = 0) as D.
    { replace (a - b) with (a + o - (b + o)) by lia. rewrite Zminus_mod, Eab, Z.sub_diag. apply Z.mod_0_l. lia. }
    rewrite Z.mod_small in D by lia. lia. }
  destruct (Z.le_ge_cases j i); [apply D; (lia || done)|]. symmetry. apply D; (lia || done).
Qed.

Lemma rx_fill c sn gt j0 m :
  rx_ok c sn gt -> 0 <= j0 < recv_queue_sz c -> at_pos (size gt + j0) sn = Some m ->
  rx_ok (set_recv (<[Z.to_nat ((j0 + recv_queue_offt c) mod recv_queue_sz c) := Some m]> (recv_queue c)) c) sn gt.
Proof.
  intros [H1 H2 H3 H4 H5] Hj Hm. unfold recv_queue_sz in *. split; unfold recv_queue_sz; cbn; rewrite ?length_insert; try done.
  set (sz := size (recv_queue c)) in *. intros j Hj'. destruct (decide (j = j0)) as [->|Hne].
  - exists (Some m). split; [|by intros ? [= <-]]. apply list_lookup_insert_eq.
    pose proof (Z.mod_pos_bound (j0 + recv_queue_offt c) sz). lia.
  - destruct (H5 j Hj') as (o & E & Ho). exists o. split; [|done]. rewrite list_lookup_insert_ne; [done|].
    intros Heq. apply Hne. symmetry. apply (slot_inj sz (recv_queue_offt c)); [lia..|].
    pose proof (Z.mod_pos_bound (j0 + recv_queue_offt c) sz). pose proof (Z.mod_pos_bound (j + recv_queue_offt c) sz). lia.
Qed.

(** A message at the position [i], not too old. *)
Lemma rx_store c sn gt i k b :
  rx_ok c sn gt -> (forall m, b = Some m -> at_pos i sn = Some m) ->
  size gt <= i + 65536 - recv_queue_sz c -> size sn <= size gt + 32767 ->
  rx_ok (store_msg (u16 i) k b c).2 sn gt.
Proof.
  intros Hr Hb Hold Hnew. unfold store_msg. destruct (nsnr_cmp (Ns c) k <? 0); [done|].
  set (c1 := if 0 <? nsnr_cmp k (peer_Nr c) then set_peer_Nr k c else c).
  assert (Hr1 : rx_ok c1 sn gt) by (unfold c1; destruct (_ <? _); [by eapply rx_frame|done]).
  assert (Hsz : recv_queue_sz c1 = recv_queue_sz c) by (unfold c1; by destruct (_ <? _)). rewrite <- Hsz in Hold.
  clearbody c1. clear Hr Hsz c. pose proof Hr1 as [HN Hp Hs Ho _]. unfold RECV_WINDOW_SIZE_MAX in *.
  destruct b as [m|]; [|done]. specialize (Hb m eq_refl). pose proof (at_pos_lt _ _ _ Hb) as Hi. rewrite HN.
  destruct (nsnr_cmp (u16 i) (u16 (size gt)) <? 0) eqn:E; [done|].
  destruct (Z.leb_spec (recv_queue_sz c1) (u16 (u16 i - u16 (size gt)))) as [|Hlt]; [done|].
  assert (Hge : size gt <= i).
  { destruct (Z.le_gt_cases (size gt) i) as [|Hgt]; [done|]. exfalso.
    destruct (Z.le_gt_cases (size gt - i) 32767).
    - rewrite nsnr_cmp_lt in E by lia. apply Z.ltb_ge in E. lia.
    - assert (u16 (u16 i - u16 (size gt)) = 65536 - (size gt - i)) by width_lia. lia. }
  assert (Hj : u16 (u16 i - u16 (size gt)) = i - size gt) by width_lia. rewrite Hj in *.
  pose proof (Z.mod_pos_bound (i - size gt + recv_queue_offt c1) (recv_queue_sz c1) ltac:(lia)) as Hm.
  rewrite u16_small by (width_unfold; lia).
  destruct (recv_queue c1 !! _) as [[?|]|]; [done| |done]. cbn [snd].
  apply rx_fill; [done|lia|]. by replace (size gt + (i - size gt)) with i by lia.
Qed.

Lemma rx_take c sn gt m i c' :
  rx_ok c sn gt -> take_at (recv_queue_offt c) c = Some (m, i, c') ->
  rx_ok (advance 1 c') sn (gt ++ [m]) /\ at_pos (size gt) sn = Some m.
Proof.
  intros [HN Hp Hs Ho H5] Ht. unfold take_at in Ht. unfold recv_queue_sz, RECV_WINDOW_SIZE_MAX in *.
  set (sz := size (recv_queue c)) in *.
  destruct (recv_queue c !! Z.to_nat (recv_queue_offt c)) as [[x|]|] eqn:E; [|done..]. injection Ht as -> <- <-.
  assert (Hm : at_pos (size gt) sn = Some m).
  { destruct (H5 0 ltac:(lia)) as (o & E0 & Hm). rewrite Z.add_0_l, Z.mod_small, E in E0 by lia. injection E0 as <-.
    specialize (Hm m eq_refl). by rewrite Z.add_0_r in Hm. }
  split; [|done]. split; unfold advance, recv_queue_sz; cbn; rewrite ?length_insert; fold sz.
  - rewrite HN, length_app. cbn. width_lia.
  - by apply prefix_snoc.
  - done.
  - pose proof (Z.mod_pos_bound (recv_queue_offt c + 1) sz ltac:(lia)). rewrite u16_small by (width_unfold; lia). lia.
  - intros j Hj. pose proof (Z.mod_pos_bound (recv_queue_offt c + 1) sz ltac:(lia)). rewrite u16_small by (width_unfold; lia).
    rewrite length_app. cbn [length]. rewrite Zplus_mod_idemp_r.
    destruct (decide (j = sz - 1)) as [->|Hne].
    + exists None. split; [|done]. replace ((sz - 1 + (recv_queue_offt c + 1)) mod sz) with (recv_queue_offt c).
      * apply list_lookup_insert_eq. lia.
      * replace (sz - 1 + (recv_queue_offt c + 1)) with (recv_queue_offt c + 1 * sz) by lia.
        rewrite Z.mod_add, Z.mod_small; lia.
    + destruct (H5 (j + 1) ltac:(lia)) as (o & E1 & Hm1).
      replace (j + (recv_queue_offt c + 1)) with (j + 1 + recv_queue_offt c) by lia. exists o. split.
      * rewrite list_lookup_insert_ne; [done|]. intros Heq.
        assert (0 = j + 1); [|lia]. apply (slot_inj sz (recv_queue_offt c)); [lia..|].
        rewrite Z.add_0_l, (Z.mod_small (recv_queue_offt c)) by lia.
        pose proof (Z.mod_pos_bound (j + 1 + recv_queue_offt c) sz ltac:(lia)). lia.
      * intros x Hx. replace (Z.of_nat (length gt + 1) + j) with (size gt + (j + 1)) by lia. by apply Hm1.
Qed.

(** * Steps *)

Lemma upd_same {A} (f : bool -> A) x a : upd f x a x = a.
Proof. unfold upd. by rewrite eqb_reflx. Qed.
Lemma upd_other {A} (f : bool -> A) x a : upd f x a (negb x) = f (negb x).
Proof. unfold upd. by destruct x. Qed.

(** What a step at the side [x] has to keep: as the sender to the other side, and as its
    receiver. *)
Lemma on_ok s x sd ps :
  dir_ok sd (side_of s (negb x)) (net s x ++ ps) -> dir_ok (side_of s (negb x)) sd (net s (negb x)) -> sys_ok (on x s sd ps).
Proof.
  intros H1 H2 y. unfold on. cbn [side_of net]. destruct (decide (y = x)) as [->|Hne].
  - rewrite !upd_same, upd_other. done.
  - assert (y = negb x) as -> by (by destruct x, y). rewrite negb_involutive, !upd_other, upd_same. done.
Qed.

(** A step that changes neither what was sent or received nor the packets. *)
Lemma local_ok s x f :
  sys_ok s ->
  (forall sn gt r a q, tx_ok (ch (side_of s x)) sn r a q -> rx_ok (ch (side_of s x)) (sent (side_of s (negb x))) gt ->
    (exists a' q', tx_ok (f (ch (side_of s x))) sn r a' q') /\ rx_ok (f (ch (side_of s x))) (sent (side_of s (negb x))) gt) ->
  sys_ok (on x s (with_ch f (side_of s x)) []).
Proof.
  intros Hs Hf. pose proof (Hs x) as ((a & q & Ht) & Hr & Hn). pose proof (Hs (negb x)) as (Ht' & Hr' & Hn').
  rewrite negb_involutive in *. destruct (Hf _ _ _ _ _ Ht Hr') as [H1 H2].
  apply on_ok; split; cbn; rewrite ?app_nil_r; done.
Qed.

Lemma frame_ok s x f :
  sys_ok s ->
  (forall c, Ns (f c) = Ns c /\ Nr (f c) = Nr c /\ peer_Nr (f c) = peer_Nr c /\ peer_rcv_wnd_sz (f c) = peer_rcv_wnd_sz c /\
    rtms_queue (f c) = rtms_queue c /\ recv_queue (f c) = recv_queue c /\ recv_queue_offt (f c) = recv_queue_offt c) ->
  sys_ok (on x s (with_ch f (side_of s x)) []).
Proof.
  intros Hs Hf. apply local_ok; [done|]. intros sn gt r a q Ht Hr. destruct (Hf (ch (side_of s x))) as (?&?&?&?&?&?&?).
  split; [|by eapply rx_frame]. exists a, q. by eapply tx_frame.
Qed.

Lemma net_more sn gt ps p :
  net_ok sn gt ps -> 0 <= pos p <= size sn -> 0 <= ack p <= size gt -> (forall m, body p = Some m -> at_pos (pos p) sn = Some m) ->
  net_ok sn gt (ps ++ [p]).
Proof. intros H1 H2 H3 H4. apply Forall_app. split; [done|]. by constructor. Qed.

Lemma net_sent sn gt ps m : net_ok sn gt ps -> net_ok (sn ++ [m]) gt ps.
Proof.
  intros H. eapply List.Forall_impl; [|exact H]. intros p (H1 & H2 & H3). rewrite length_app. split; [cbn; lia|]. split; [done|].
  intros x Hx. by apply at_pos_app, H3.
Qed.

Lemma net_got sn gt ps m : net_ok sn gt ps -> net_ok sn (gt ++ [m]) ps.
Proof.
  intros H. eapply List.Forall_impl; [|exact H]. intros p (H1 & H2 & H3). rewrite length_app. split; [done|]. split; [cbn; lia|done].
Qed.

(** A packet that is sent without any other change. *)
Lemma emit_ok s x p :
  sys_ok s -> 0 <= pos p <= size (sent (side_of s x)) -> 0 <= ack p <= size (got (side_of s x)) ->
  (forall m, body p = Some m -> at_pos (pos p) (sent (side_of s x)) = Some m) ->
  sys_ok (on x s (side_of s x) [p]).
Proof.
  intros Hs H1 H2 H3. pose proof (Hs x) as (Ht & Hr & Hn). pose proof (Hs (negb x)) as Hs'. rewrite negb_involutive in Hs'.
  apply on_ok; [|done]. split; [done|]. split; [done|]. by apply net_more.
Qed.

Lemma push_ok s x m :
  let sd := side_of s x in
  sys_ok s -> clean_rtmsqueue (ch sd) = ch sd -> push_next (ch sd) = Some m ->
  sys_ok (on x s (mk_side (push_sent m (ch sd)) (sent sd ++ [m]) (got sd)) [mk_pkt (size (sent sd)) (size (got sd)) (Some m)]).
Proof.
  intros sd Hs Hc Hp. pose proof (Hs x) as ((a & q & Ht) & Hr & Hn). pose proof (Hs (negb x)) as (Ht' & Hr' & Hn').
  rewrite negb_involutive in *. fold sd in Ht, Hr, Hn, Hr', Ht'. apply on_ok.
  - split; [exists a, q; by apply (tx_push _ _ _ _ _ m Ht)|]. split; [by apply rx_sent|]. cbn [sent got].
    apply net_more; [by apply net_sent|..]; cbn; rewrite ?length_app; [lia..|]. intros ? [= <-]. apply at_pos_end.
  - split; [done|]. split; [|done]. by eapply rx_frame.
Qed.

Lemma retransmit_ok s x n m q0 :
  let sd := side_of s x in
  sys_ok s -> rtms_queue (ch sd) = (n, m) :: q0 ->
  sys_ok (on x s sd [mk_pkt (size (sent sd) - size (rtms_queue (ch sd))) (size (got sd)) (Some m)]).
Proof.
  intros sd Hs Hq. pose proof (Hs x) as ((a & q & Ht) & _). fold sd in Ht. pose proof Ht as [HN HP HW HR Ho Hb].
  assert (Hl : size (sent sd) - size (rtms_queue (ch sd)) = q) by (rewrite HR, numbered_length, from_length; lia).
  assert (Hm : at_pos q (sent sd) = Some m).
  { rewrite HR in Hq. unfold from, at_pos in *. rewrite (proj2 (Z.ltb_ge _ _)) by lia.
    destruct (drop (Z.to_nat q) (sent sd)) as [|y l] eqn:E; [done|]. injection Hq as _ -> _.
    rewrite <- (Nat.add_0_r (Z.to_nat q)), <- lookup_drop, E. done. }
  rewrite Hl. apply emit_ok; cbn [pos ack body]; [done|apply at_pos_lt in Hm; fold sd; lia|fold sd; lia|by intros ? [= <-]].
Qed.

Lemma receive_ok s x p :
  let sd := side_of s x in
  sys_ok s -> p ∈ net s (negb x) -> fresh sd p ->
  sys_ok (on x s (with_ch (fun c => (store_msg (u16 (pos p)) (u16 (ack p)) (body p) c).2) sd) []).
Proof.
  intros sd Hs Hp [Hf1 Hf2]. pose proof (Hs x) as ((a & q & Ht) & Hr & Hn). pose proof (Hs (negb x)) as ((a' & q' & Ht') & Hr' & Hn').
  rewrite negb_involutive in *. fold sd in Ht, Hr, Hn, Hr', Ht'. rewrite (tx_acked _ _ _ _ Ht) in Hf2.
  destruct (proj1 (Forall_forall _ _) Hn' p Hp) as (Hp1 & Hp2 & Hp3).
  apply on_ok; split; cbn [ch with_ch sent got].
  - destruct (tx_store _ _ _ _ _ (u16 (pos p)) (ack p) (body p) Ht Hp2 Hf2) as (a1 & _ & Ht1). by exists a1, q.
  - rewrite app_nil_r. done.
  - by exists a', q'.
  - split; [|done]. apply rx_store; try done. destruct Ht'. lia.
Qed.

Lemma take_ok s x m i c :
  let sd := side_of s x in
  sys_ok s -> take_at (recv_queue_offt (ch sd)) (ch sd) = Some (m, i, c) ->
  sys_ok (on x s (mk_side (advance 1 c) (sent sd) (got sd ++ [m])) []).
Proof.
  intros sd Hs Hk. pose proof (Hs x) as ((a & q & Ht) & Hr & Hn). pose proof (Hs (negb x)) as ((a' & q' & Ht') & Hr' & Hn').
  rewrite negb_involutive in *. fold sd in Ht, Hr, Hn, Hr', Ht'. destruct (rx_take _ _ _ _ _ _ Hr' Hk) as [Hr1 Hm].
  assert (Hc : Ns c = Ns (ch sd) /\ peer_Nr c = peer_Nr (ch sd) /\ peer_rcv_wnd_sz c = peer_rcv_wnd_sz (ch sd) /\ rtms_queue c = rtms_queue (ch sd)).
  { unfold take_at in Hk. destruct (recv_queue (ch sd) !! _) as [[?|]|]; [|done..]. by injection Hk as <- <- <-. }
  destruct Hc as (E1 & E2 & E3 & E4). apply on_ok; split; cbn [ch sent got].
  - exists a, q. by eapply tx_frame.
  - rewrite app_nil_r. split; [done|]. by apply net_got.
  - exists a', q'. apply (tx_mono _ _ (size (got sd))); [done|]. apply at_pos_lt in Hm. rewrite length_app. cbn. lia.
  - split; done.
Qed.

Lemma step_ok s s' : sys_ok s -> step s s' -> sys_ok s'.
Proof.
  intros Hs Hst. destruct Hst as [x m|x q _|x w Hw|x m sd Hc Hp|x n m q sd Hq|x sd|x p sd Hp Hf|x|x m i c sd Hk].
  - by apply frame_ok.
  - by apply frame_ok.
  - apply local_ok; [done|]. intros sn gt r a q [] Hr. split; [|by eapply rx_frame]. exists a, q. by split.
  - by apply push_ok.
  - by eapply retransmit_ok.
  - apply emit_ok; cbn; [done|fold sd; lia..|done].
  - by apply receive_ok.
  - apply local_ok; [done|]. intros sn gt r a q Ht Hr. split; [|by eapply rx_frame]. exists a, a. by eapply tx_clean.
  - by eapply take_ok.
Qed.

(** * The theorems *)

(** A channel as l2tp_tunnel_alloc leaves it, with a receive window of [sz]. *)
Definition fresh_chan (sz : nat) : chan M M := mk_chan 0 0 0 DEFAULT_PEER_RECV_WINDOW_SIZE [] [] (replicate sz None) 0.

(** The side [true] has sent its SCCRQ [m], and the other side has set up a tunnel for it. *)
Definition started (sz sz' : nat) (m : M) : sys :=
  mk_sys (fun x => if x then mk_side (push_sent m (set_send [m] (fresh_chan sz))) [m] []
                   else mk_side (set_Nr 1 (fresh_chan sz')) [] [m])
         (fun x => if x then [mk_pkt 0 0 (Some m)] else []).

Definition window_ok (sz : nat) : Prop := 0 < Z.of_nat sz <= RECV_WINDOW_SIZE_MAX.

Lemma fresh_slots sz c : window_ok sz -> recv_queue c = replicate sz None -> recv_queue_offt c = 0 -> forall (sn gt : list M),
  Nr c = u16 (size gt) -> gt `prefix_of` sn -> rx_ok c sn gt.
Proof.
  intros Hsz Hq Ho sn gt HN Hp. assert (recv_queue_sz c = Z.of_nat sz) as E by (unfold recv_queue_sz; by rewrite Hq, length_replicate).
  unfold window_ok in Hsz. split; rewrite ?E, ?Ho; try done; [lia|]. intros j Hj. exists None. split; [|done].
  rewrite Hq. apply lookup_replicate_2. rewrite Z.add_0_r, Z.mod_small by lia. lia.
Qed.

Lemma started_ok sz sz' m : window_ok sz -> window_ok sz' -> sys_ok (started sz sz' m).
Proof.
  intros H1 H2 [|]; split; cbn [side_of started negb net sent got ch].
  - exists 0, 0. split; cbn; try done; lia.
  - split; [|by repeat constructor]. by apply (fresh_slots sz').
  - exists 0, 0. split; cbn; try done; lia.
  - split; [|by constructor]. by apply (fresh_slots sz).
Qed.

Lemma reachable_ok sz sz' m s : window_ok sz -> window_ok sz' -> rtc step (started sz sz' m) s -> sys_ok s.
Proof.
  intros H1 H2 Hr. assert (H : forall a b, rtc step a b -> sys_ok a -> sys_ok b).
  { induction 1 as [|? ? ? Hst _ IH]; [done|]. intros Ha. apply IH. by eapply step_ok. }
  by eapply H, started_ok.
Qed.

(** C5: exactly once, in order.  Whatever the network loses, repeats or reorders, what one
    side has handled is a prefix of what the other has sent; and every message that was sent
    and is not handled yet is still in the retransmission queue of its sender, with its
    number. *)
Theorem delivery_exactly_once sz sz' m s x :
  window_ok sz -> window_ok sz' -> rtc step (started sz sz' m) s ->
  let tx := side_of s x in let rx := side_of s (negb x) in
  got rx `prefix_of` sent tx /\
  forall i, size (got rx) <= i < size (sent tx) ->
    exists msg, at_pos i (sent tx) = Some msg /\ (u16 i, msg) ∈ rtms_queue (ch tx).
Proof.
  intros H1 H2 Hr tx rx. pose proof (reachable_ok _ _ _ _ H1 H2 Hr x) as ((a & q & Ht) & Hrx & _).
  fold tx rx in Ht, Hrx. split; [apply Hrx|]. intros i Hi. destruct Ht as [_ _ _ HR Ho _]. rewrite HR.
  unfold at_pos. rewrite (proj2 (Z.ltb_ge _ _)) by lia.
  destruct (lookup_lt_is_Some_2 (sent tx) (Z.to_nat i)) as [msg Hm]; [lia|]. exists msg. split; [done|].
  assert (Hf : from q (sent tx) !! Z.to_nat (i - q) = Some msg).
  { unfold from. rewrite lookup_drop. by replace (Z.to_nat q + Z.to_nat (i - q))%nat with (Z.to_nat i) by lia. }
  apply numbered_elem; [done|lia].
Qed.

(** * Progress *)

Lemma ok_back s x : sys_ok s -> dir_ok (side_of s (negb x)) (side_of s x) (net s (negb x)).
Proof. intros Hs. pose proof (Hs (negb x)) as H. by rewrite negb_involutive in H. Qed.

Lemma on_same s x sd ps : side_of (on x s sd ps) x = sd.
Proof. apply upd_same. Qed.
Lemma on_other s x sd ps : side_of (on x s sd ps) (negb x) = side_of s (negb x).
Proof. apply upd_other. Qed.
Lemma on_back s x sd ps : side_of (on (negb x) s sd ps) x = side_of s x.
Proof. by destruct x. Qed.
Lemma on_net s x sd p : p ∈ net (on x s sd [p]) x.
Proof. unfold on. cbn. rewrite upd_same. apply elem_of_app. right. by left. Qed.

(** An acknowledgement of all that was handled. *)
Lemma tx_store_ack c sn r a q k i :
  tx_ok c sn r a q -> a <= k <= r -> tx_ok (store_msg i (u16 k) None c).2 sn r k q.
Proof.
  intros [HN HP HW HR Ho Hb] Hk. unfold store_msg. rewrite HN, nsnr_cmp_lt by lia. rewrite (proj2 (Z.ltb_ge _ _)) by lia.
  rewrite HP, nsnr_cmp_gt by lia. cbn [snd]. destruct (Z.ltb_spec a k); [|assert (a = k) as <- by lia]; split; cbn; try done; lia.
Qed.

Lemma ack_progress s x :
  sys_ok s -> let q := size (sent (side_of s x)) - size (rtms_queue (ch (side_of s x))) in
  q < size (got (side_of s (negb x))) ->
  exists s', rtc step s s' /\ sent (side_of s' x) = sent (side_of s x) /\ got (side_of s' (negb x)) = got (side_of s (negb x)) /\
    (length (rtms_queue (ch (side_of s' x))) < length (rtms_queue (ch (side_of s x))))%nat.
Proof.
  intros Hs q Hq. pose proof (Hs x) as ((a & q' & Ht) & Hr & Hn). pose proof (ok_back s x Hs) as (_ & Hr' & _).
  set (y := negb x) in *. set (sy := side_of s y) in *. set (sx := side_of s x) in *.
  set (p := mk_pkt (size (sent sy)) (size (got sy)) (@None M)). set (s1 := on y s sy [p]).
  assert (Hx1 : side_of s1 x = sx) by (apply on_back).
  set (s2 := on x s1 (with_ch (fun c => (store_msg (u16 (pos p)) (u16 (ack p)) (body p) c).2) (side_of s1 x)) []).
  set (s3 := on x s2 (with_ch clean_rtmsqueue (side_of s2 x)) []).
  exists s3. pose proof (tx_store_ack _ _ _ _ _ (ack p) (u16 (pos p)) Ht) as Ht2.
  pose proof Ht as [_ _ _ HR Ho Hb]. cbn [ack p] in Ht2. specialize (Ht2 ltac:(lia)).
  assert (Hlen : size (rtms_queue (ch sx)) = size (sent sx) - q') by (rewrite HR, numbered_length, from_length; lia).
  split; [|split; [|split]].
  - eapply rtc_l; [apply (zlb s y)|]. eapply rtc_l; [|eapply rtc_l; [apply (clean s2 x)|constructor]].
    apply (receive s1 x p); [apply on_net|]. rewrite Hx1. split.
    + destruct Hr' as [_ [k Hk] Hsz _ _]. cbn [pos p]. rewrite Hk, length_app. unfold RECV_WINDOW_SIZE_MAX in Hsz. lia.
    + rewrite (tx_acked _ _ _ _ Ht). cbn [ack p]. lia.
  - unfold s3. rewrite on_same. cbn [with_ch sent]. unfold s2. rewrite on_same, Hx1. done.
  - unfold s3, s2. unfold y at 1. rewrite !on_other. fold y. unfold s1. by rewrite on_same.
  - unfold s3. rewrite on_same. unfold s2 at 1. rewrite on_same, Hx1. pose proof (tx_clean _ _ _ _ _ Ht2) as [_ _ _ HR2 Ho2 _].
    cbn [with_ch ch]. rewrite (HR2 : rtms_queue (clean_rtmsqueue (store_msg (u16 (pos p)) (u16 (ack p)) (body p) (ch sx)).2) = _).
    rewrite HR, !numbered_length. pose proof (from_length q' (sent sx) ltac:(lia)).
    pose proof (from_length (size (got sy)) (sent sx) ltac:(lia)). lia.
Qed.

(** The message the receiver waits for, when a packet brings it. *)
Lemma store_next c sn gt r a q sn' k m :
  rx_ok c sn gt -> tx_ok c sn' r a q -> at_pos (size gt) sn = Some m -> a <= k <= r ->
  exists i c', let c1 := (store_msg (u16 (size gt)) (u16 k) (Some m) c).2 in take_at (recv_queue_offt c1) c1 = Some (m, i, c').
Proof.
  intros Hr Ht Hm Hk. pose proof Hr as [HN _ Hs Ho Hslot]. pose proof Ht as [HNs HP _ _ Hord Hb].
  unfold store_msg. rewrite HNs, nsnr_cmp_lt by lia. rewrite (proj2 (Z.ltb_ge _ _)) by lia.
  set (c0 := if 0 <? nsnr_cmp (u16 k) (peer_Nr c) then set_peer_Nr (u16 k) c else c).
  assert (H0 : Nr c0 = Nr c /\ recv_queue c0 = recv_queue c /\ recv_queue_offt c0 = recv_queue_offt c) by (unfold c0; by destruct (_ <? _)).
  destruct H0 as (E1 & E2 & E3). clearbody c0. unfold recv_queue_sz in *. rewrite E1, E2, E3, HN. rewrite nsnr_cmp_lt by lia. rewrite Z.ltb_irrefl.
  rewrite Z.sub_diag. change (u16 0) with 0. rewrite (proj2 (Z.leb_gt _ _)) by lia.
  destruct (Hslot 0 ltac:(lia)) as (o & Eo & Hom). rewrite Z.add_0_l, Z.mod_small in * by lia.
  rewrite u16_small by (unfold RECV_WINDOW_SIZE_MAX in *; width_unfold; lia). rewrite Eo. unfold take_at, recv_queue_sz.
  destruct o as [m'|]; cbn [snd].
  - specialize (Hom m' eq_refl). rewrite Z.add_0_r, Hm in Hom. injection Hom as <-. rewrite E2, E3, Eo. eauto.
  - cbn [recv_queue recv_queue_offt set_recv]. rewrite E3. rewrite list_lookup_insert_eq by lia. eauto.
Qed.

(** C33: as long as something is not acknowledged, progress is possible from every state: the
    oldest message is retransmitted, received, handled and acknowledged, and leaves the
    retransmission queue. *)
Theorem retransmission_progress sz sz' m0 s x :
  window_ok sz -> window_ok sz' -> rtc step (started sz sz' m0) s ->
  rtms_queue (ch (side_of s x)) <> [] ->
  exists s', rtc step s s' /\ sent (side_of s' x) = sent (side_of s x) /\
    (length (rtms_queue (ch (side_of s' x))) < length (rtms_queue (ch (side_of s x))))%nat /\
    size (sent (side_of s x)) - size (rtms_queue (ch (side_of s x))) < size (got (side_of s' (negb x))).
Proof.
  intros H1 H2 Hreach Hne. pose proof (reachable_ok _ _ _ _ H1 H2 Hreach) as Hs. set (sx := side_of s x) in *. set (y := negb x).
  set (q := size (sent sx) - size (rtms_queue (ch sx))).
  destruct (Z.lt_ge_cases q (size (got (side_of s y)))) as [Hlt|Hge].
  { destruct (ack_progress s x Hs Hlt) as (s' & Hst & E1 & E2 & E3). exists s'. split_and!; [done..|]. rewrite (E2 : got (side_of s' y) = _). exact Hlt. }
  destruct (rtms_queue (ch sx)) as [|[n m] q0] eqn:Eq; [done|].
  set (s1 := on x s sx [mk_pkt q (size (got sx)) (Some m)]).
  assert (Hst1 : step s s1) by (unfold s1, q; rewrite <- Eq; by apply (retransmit s x n m q0)).
  pose proof (step_ok _ _ Hs Hst1) as Hs1. pose proof (Hs x) as ((a & q' & Ht) & Hr & _). fold sx y in Ht, Hr.
  pose proof (ok_back s x Hs) as ((b & qb & Htb) & Hrb & _). fold y sx in Htb, Hrb.
  pose proof Ht as [_ _ _ HR Ho Hb]. assert (Hq : q = q').
  { unfold q. rewrite <- Eq, HR, numbered_length, from_length; lia. }
  assert (Hqg : size (got (side_of s y)) = q) by lia.
  assert (Hm : at_pos q (sent sx) = Some m).
  { pose proof (Hs1 x) as (_ & _ & Hn). unfold s1 in Hn. rewrite on_same in Hn. unfold on in Hn. cbn [net] in Hn. rewrite upd_same in Hn.
    apply Forall_app in Hn as [_ Hn]. apply Forall_cons in Hn as [(_ & _ & Hn) _]. by apply Hn. }
  set (s2 := on y s1 (with_ch (fun c => (store_msg (u16 q) (u16 (size (got sx))) (Some m) c).2) (side_of s1 y)) []).
  assert (Hy1 : side_of s1 y = side_of s y) by (unfold s1, y; apply on_other).
  assert (Hst2 : step s1 s2).
  { apply (receive s1 y (mk_pkt q (size (got sx)) (Some m))); [unfold y; rewrite negb_involutive; apply on_net|]. rewrite Hy1. split; cbn [pos ack].
    - pose proof (rx_sz _ _ _ Hr) as Hz. unfold RECV_WINDOW_SIZE_MAX in Hz. lia.
    - rewrite (tx_acked _ _ _ _ Htb). destruct Htb as [_ _ _ _ Hob _]. lia. }
  destruct (store_next (ch (side_of s y)) (sent sx) (got (side_of s y)) (size (got sx)) b qb (sent (side_of s y)) (size (got sx)) m) as (i & c' & Hk);
    [done..|by rewrite Hqg|destruct Htb as [_ _ _ _ Hob _]; lia|]. rewrite Hqg in Hk.
  set (s3 := on y s2 (mk_side (advance 1 c') (sent (side_of s2 y)) (got (side_of s2 y) ++ [m])) []).
  assert (Hst3 : step s2 s3) by (apply (take s2 y m i c'); unfold s2; rewrite on_same; cbn [with_ch ch]; rewrite Hy1; exact Hk).
  pose proof (step_ok _ _ (step_ok _ _ Hs1 Hst2) Hst3) as Hs3.
  assert (Hx3 : side_of s3 x = sx) by (unfold s3, s2, s1, y; rewrite !on_back; apply on_same).
  assert (Hy3 : got (side_of s3 y) = got (side_of s y) ++ [m]) by (unfold s3; rewrite on_same; cbn [got]; unfold s2; rewrite on_same; cbn [got with_ch]; by rewrite Hy1).
  destruct (ack_progress s3 x Hs3) as (s' & Hst & E1 & E2 & E3).
  { fold y. rewrite Hx3, Hy3, Eq, length_app. fold q. cbn [length] in *. lia. }
  rewrite Hx3 in E1, E3. exists s'. split; [|split; [done|split; [by rewrite <- Eq|]]].
  - eapply rtc_l; [exact Hst1|]. eapply rtc_l; [exact Hst2|]. eapply rtc_l; [exact Hst3|exact Hst].
  - fold y in E2 |- *. rewrite E2, Hy3, length_app. cbn [length] in *. fold q. lia.
Qed.

(** The window of an idle channel.  For every window a peer may announce and the code
    accepts, the first message is sent, except for the largest one: with 32768, which the
    acceptance test lets pass, the comparison of the sequence numbers says that the window is
    full, and nothing is ever sent. *)
Theorem idle_window c m q w :
  is_u16 (Ns c) -> peer_Nr c = Ns c -> 0 < w <= RECV_WINDOW_SIZE_MAX ->
  push_next (M := M) (R := M) (set_send (m :: q) (set_wnd w c)) = (if w =? RECV_WINDOW_SIZE_MAX then None else Some m).
Proof.
  intros HN HP Hw. unfold push_next. cbn. rewrite HP. unfold RECV_WINDOW_SIZE_MAX in *.
  rewrite <- (u16_small (Ns c)) at 1 by done. destruct (Z.eqb_spec w 32768) as [->|Hne].
  - by destruct (nsnr_cmp_half (Ns c)) as [-> _].
  - rewrite nsnr_cmp_ge by lia. by rewrite (proj2 (Z.leb_gt _ _)) by lia.
Qed.

End Delivery.

(** ** A run *)

Module DeliveryDemo.

(** The other side answers, the answer is lost, sent again and received twice. *)
Definition s0 : sys := started 4 4 100%nat.
Definition s1 : sys := on false s0 (with_ch (fun c => set_send (send_queue c ++ [200%nat]) c) (side_of s0 false)) [].
Definition s2 : sys :=
  let sd := side_of s1 false in
  on false s1 (mk_side (push_sent 200%nat (ch sd)) (sent sd ++ [200%nat]) (got sd)) [mk_pkt 0 1 (Some 200%nat)].
Definition s3 : sys := on false s2 (side_of s2 false) [mk_pkt 0 1 (Some 200%nat)].
Definition recv (s : sys) : sys := on true s (with_ch (fun c => (store_msg (u16 0) (u16 1) (Some 200%nat) c).2) (side_of s true)) [].
Definition s5 : sys := recv (recv s3).
Definition s6 : sys :=
  let sd := side_of s5 true in
  on true s5 (mk_side (advance 1 (set_Nr (u16 (Nr (ch sd) + 1)) (set_recv (<[0%nat := None]> (recv_queue (ch sd))) (ch sd)))) (sent sd) (got sd ++ [200%nat])) [].

Lemma run : rtc step s0 s6.
Proof.
  eapply rtc_l; [apply (submit s0 false 200%nat)|]. eapply rtc_l; [apply (push s1 false 200%nat); reflexivity|].
  eapply rtc_l; [apply (retransmit s2 false 0 200%nat []); reflexivity|].
  eapply rtc_l; [apply (receive s3 true (mk_pkt 0 1 (Some 200%nat))); [by left|split; vm_compute; discriminate]|].
  eapply rtc_l; [apply (receive (recv s3) true (mk_pkt 0 1 (Some 200%nat))); [by left|split; vm_compute; discriminate]|].
  eapply rtc_l; [eapply (take s5 true 200%nat 1); reflexivity|]. constructor.
Qed.

Lemma delivery_exactly_once_witness :
  got (side_of s6 true) = [200%nat] /\ got (side_of s6 true) `prefix_of` sent (side_of s6 false).
Proof.
  split; [reflexivity|]. apply (delivery_exactly_once 4 4 100%nat s6 false); [unfold window_ok; done|unfold window_ok; done|exact run].
Defined.

Lemma retransmission_progress_witness :
  exists s', rtc step s6 s' /\ (length (rtms_queue (ch (side_of s' false))) < 1)%nat.
Proof.
  destruct (retransmission_progress 4 4 100%nat s6 false) as (s' & Hr & _ & Hl & _);
    [unfold window_ok; done|unfold window_ok; done|exact run|vm_compute; discriminate|]. exists s'. split; [exact Hr|exact Hl].
Defined.

Lemma idle_window_witness : push_next (M := nat) (R := nat) (set_send [7%nat] (set_wnd 32768 (fresh_chan 4))) = None.
Proof. apply (idle_window (fresh_chan 4) 7%nat [] 32768); [by vm_compute|reflexivity|done]. Defined.

End DeliveryDemo.

End L2tpDelivery.
