(* ===== verification/L2tpTunnel.v ===== *)
(** An L2TP tunnel and its sessions: ctrl/l2tp/l2tp.c.

    [world] holds one tunnel ([conn]), the sessions allocated in it ([heap], addressed by
    their position), the nine global counters, whether the table of tunnels points to it, what
    was sent, and the events fired.  The tunnel's context and the data channel contexts of the
    sessions have their queues of calls ([c_calls], [s_calls]).  The functions have the names
    of the C code and are composed in the state monad as the code composes them; an [int] that
    is negative for an error is a [bool] that is false.

    Calls that may fail draw their outcome from [sys], random bytes from [rnd], the limits on
    new sessions from [adm]: all three depend on the number of draws before, so that a
    function of them stands for any behaviour of the system.  Every access to the tunnel or to
    a session checks that it was not freed; [uaf] records an access to freed memory, [dfree] a
    block that is freed twice, [ub] other undefined behaviour (a crash while a packet is put
    together, a recursion deeper than the code can have).

    Messages are built, sent and received as in L2tpPacket.v and numbered as in L2tpChan.v.
    Addresses and ports, the strings of a session and the messages to the log are left out. *)

From stdpp Require Import base tactics list numbers option strings.
From Stdlib Require Import ZArith Lia.
From S2P Require Import Prelude CLib Bytes RadDict Hash L2tpPacket L2tpChan.

Open Scope Z_scope.

Module L2tpTunnel.
Import L2tpPacket L2tpChan Digests.

(** * Data *)

Inductive st_t :=
  STATE_INIT | STATE_WAIT_SCCRP | STATE_WAIT_SCCCN | STATE_WAIT_ICRP | STATE_WAIT_ICCN | STATE_WAIT_OCRP | STATE_WAIT_OCCN
| STATE_ESTB | STATE_FIN | STATE_FIN_WAIT | STATE_CLOSE.
#[export] Instance st_t_dec : EqDecision st_t. Proof. solve_decision. Defined.
Definition is_st (s t : st_t) : bool := bool_decide (s = t).

(** [APSTATE_NONE]: the memory of a new session is cleared. *)
Inductive ap_t := APSTATE_NONE | APSTATE_INIT | APSTATE_STARTING | APSTATE_STARTED | APSTATE_FINISHING.
#[export] Instance ap_t_dec : EqDecision ap_t. Proof. solve_decision. Defined.
Definition is_ap (s t : ap_t) : bool := bool_decide (s = t).

Definition Result_Code : Z := 1.
Definition Protocol_Version : Z := 2.
Definition Framing_Capabilities : Z := 3.
Definition Bearer_Capabilities : Z := 4.
Definition Firmware_Revision : Z := 6.
Definition Host_Name : Z := 7.
Definition Vendor_Name : Z := 8.
Definition Assigned_Tunnel_ID : Z := 9.
Definition Recv_Window_Size : Z := 10.
Definition Challenge : Z := 11.
Definition Challenge_Response : Z := 13.
Definition Assigned_Session_ID : Z := 14.
Definition Call_Serial_Number : Z := 15.
Definition Minimum_BPS : Z := 16.
Definition Maximum_BPS : Z := 17.
Definition Bearer_Type : Z := 18.
Definition Framing_Type : Z := 19.
Definition Called_Number : Z := 21.
Definition Calling_Number : Z := 22.
Definition Sub_Address : Z := 23.
Definition TX_Speed : Z := 24.
Definition Physical_Channel_ID : Z := 25.
Definition Private_Group_ID : Z := 37.
Definition RX_Speed : Z := 38.
Definition Sequencing_Required : Z := 39.
Definition Message_Digest : Z := 59.
Definition Router_ID : Z := 60.
Definition Assigned_Connection_ID : Z := 61.

Definition SCCRQ : Z := 1.
Definition SCCRP : Z := 2.
Definition SCCCN : Z := 3.
Definition StopCCN : Z := 4.
Definition HELLO : Z := 6.
Definition OCRQ : Z := 7.
Definition OCRP : Z := 8.
Definition OCCN : Z := 9.
Definition ICRQ : Z := 10.
Definition ICRP : Z := 11.
Definition ICCN : Z := 12.
Definition CDN : Z := 14.
Definition WEN : Z := 15.
Definition SLI : Z := 16.

Definition L2TP_V2_PROTOCOL_VERSION : Z := 256.
Definition L2TP_DATASEQ_ALLOW : Z := -1.
Definition L2TP_DATASEQ_DENY : Z := 0.
Definition L2TP_DATASEQ_PREFER : Z := 1.
Definition L2TP_DATASEQ_REQUIRE : Z := 2.

(** A timer: [tpd] is not null, and the period in milliseconds. *)
Record tm := mk_tm { tm_on : bool; tm_period : Z }.

(** A message in the send queue; [q_sess] is the session whose own list has it too
    ([sess_entry]). *)
Record qpack := mk_q { q_pack : l2tp_packet_t; q_sess : option nat }.

(** The calls queued for the context of a data channel, and for that of the tunnel. *)
Inductive apcall := ApStart | ApStop | ApDestroy.
Inductive ccall := SendSCCRQ | SendSCCRP | ApFinished (sid : Z) | CreateSession.

Record l2tp_sess_t := mk_sess {
  sid : Z;
  peer_sid : Z;
  s_ref_count : Z;
  state1 : st_t;
  s_lns_mode : bool;
  s_hide_avps : bool;
  send_seq : bool;
  recv_seq : bool;
  s_timeout : bool;
  s_fd : bool;
  apses_on : bool;
  apses_state : ap_t;
  s_calls : list apcall;
  s_freed : bool;
}.

Record l2tp_conn_t := mk_conn {
  tid : Z;
  peer_tid : Z;
  framing_cap : Z;
  lns_mode : bool;
  c_hide_avps : bool;
  port_set : bool;
  challenge : option (list Z);
  secret : option (list Z);
  timeout_timer : tm;
  rtimeout_timer : tm;
  hello_timer : tm;
  fin_expire : bool;
  rtimeout : Z;
  rtimeout_cap : Z;
  max_retransmit : Z;
  c_retransmit : Z;
  chn : chan qpack l2tp_packet_t;
  send_queue_len : Z;
  sessions : list nat;
  sess_count : Z;
  ref_count : Z;
  state : st_t;
  hnd_on : bool;
  ctx_on : bool;
  c_calls : list ccall;
  c_freed : bool;
}.

Inductive ctr :=
  stat_conn_starting | stat_conn_active | stat_conn_finishing
| stat_sess_starting | stat_sess_active | stat_sess_finishing
| stat_starting | stat_active | stat_finishing.
#[export] Instance ctr_dec : EqDecision ctr. Proof. solve_decision. Defined.

Inductive event := Sent (data : list Z) | CtrlStarted (a : nat) | CtrlFinished (a : nat).

Record world := mk_world {
  conn : l2tp_conn_t;
  heap : list l2tp_sess_t;
  stat : ctr -> Z;
  in_table : bool;
  out : list event;
  draw : nat;
  uaf : bool;
  dfree : bool;
  ub : bool;
}.

(** What the limits on new sessions look at. *)
Record admission := mk_adm {
  ap_shutdown : bool;
  conf_max_starting : Z;
  starting : Z;
  conf_max_sessions : Z;
  active : Z;
  connlimit_reached : bool;
}.

Record config := mk_conf {
  conf_recv_window : Z;
  conf_host_name : list Z;
  conf_timeout : Z;
  conf_rtimeout : Z;
  conf_rtimeout_cap : Z;
  conf_retransmit : Z;
  conf_hello_interval : Z;
  conf_dir300_quirk : bool;
  conf_secret : option (list Z);
  conf_hide_avps : bool;
  conf_avp_permissive : bool;
  conf_dataseq : Z;
  conf_reorder_timeout : Z;
  conf_ip_pool : bool;
  conf_ipv6_pool : bool;
  conf_dpv6_pool : bool;
}.

Abbreviation M := (st world).

(** ** Access to memory *)

Definition cget {A} (f : l2tp_conn_t -> A) : M A := fun w =>
  (f (conn w), if c_freed (conn w) then w <| uaf := true |> else w).
Definition cset (f : l2tp_conn_t -> l2tp_conn_t) : M unit := fun w =>
  (tt, (if c_freed (conn w) then w <| uaf := true |> else w) <| conn ::= f |>).

Definition no_sess : l2tp_sess_t := mk_sess 0 0 0 STATE_INIT false false false false false false false APSTATE_NONE [] true.
Definition sess_at (a : nat) (w : world) : l2tp_sess_t := default no_sess (heap w !! a).
Definition sget {A} (a : nat) (f : l2tp_sess_t -> A) : M A := fun w =>
  (f (sess_at a w), if s_freed (sess_at a w) then w <| uaf := true |> else w).
Definition sset (a : nat) (f : l2tp_sess_t -> l2tp_sess_t) : M unit := fun w =>
  (tt, (if s_freed (sess_at a w) then w <| uaf := true |> else w) <| heap ::= alter f a |>).

Definition bad_free : M unit := modify (fun w => w <| dfree := true |>).
Definition undefined : M unit := modify (fun w => w <| ub := true |>).
Definition emit (e : event) : M unit := modify (fun w => w <| out ::= fun l => l ++ [e] |>).

Definition set_ctr (f : ctr -> Z) (i : ctr) (v : Z) : ctr -> Z := fun j => if bool_decide (i = j) then v else f j.
Definition stat_add (i : ctr) : M unit := modify (fun w => w <| stat ::= fun f => set_ctr f i (u32 (f i + 1)) |>).
Definition stat_sub (i : ctr) : M unit := modify (fun w => w <| stat ::= fun f => set_ctr f i (u32 (f i - 1)) |>).
Definition stat_move (i j : ctr) : M unit := stat_sub i ;; stat_add j.

(** The attributes a handler picks: the last one of its number. *)
Definition attr_num (a : l2tp_attr_t) : Z := da_id (attr a).
Definition last_attr (i : Z) (l : list l2tp_attr_t) : option l2tp_attr_t := last (filter (fun a => attr_num a = i) l).
(** The last mandatory attribute whose number is none of [known]. *)
Definition unknown_attr (known : list Z) (l : list l2tp_attr_t) : option l2tp_attr_t :=
  last (filter (fun a => (attr_num a ∉ known) /\ attr_M a = true) l).

Definition comp_chap_md5 (ident : Z) (secret chall : list Z) : list Z := MD5 [[u8 ident]; secret; chall].

Section Tunnel.
Context (d : l2tp_dict) (rnd : nat -> Z -> option (list Z)) (sys : nat -> bool) (adm : nat -> admission) (malloc_ok : Z -> bool)
        (cf : config).

(** A call that may fail. *)
Definition ok : M bool := fun (w : world) => (sys (draw w), w <| draw ::= S |>).
(** So many of them in a row, the first failure ends it. *)
Fixpoint oks (n : nat) : M bool :=
  match n with O => mret true | S n => b ← ok; if (b : bool) then oks n else mret false end.
(** A function of packet.c; its allocation of memory may fail. *)
Definition run_bld {A} (b : bld A) : M (option A) := fun (w : world) => let '(r, k) := b (draw w) in (r, w <| draw := k |>).
Definition build {A} (b : bld A) : M (option A) := m ← ok; if negb m then mret None else run_bld b.
Definition adding (p : option l2tp_packet_t) (f : l2tp_packet_t -> bld l2tp_packet_t) : M (option l2tp_packet_t) :=
  match p with None => mret None | Some p => build (f p) end.

(** ** Challenges *)

Definition set_challenge (c : option (list Z)) : M unit := cset (fun x => x <| challenge := c |>).
Definition challenge_len (c : option (list Z)) : Z := match c with Some b => len b | None => 0 end.

(** The packet with the challenge, [None] for an error. *)
Definition l2tp_tunnel_genchall (chall_len : Z) (pack : l2tp_packet_t) : M (option l2tp_packet_t) :=
  s ← cget secret;
  if (chall_len =? 0) || no_secret s then set_challenge None ;; mret (Some pack)
  else
    ch ← cget challenge;
    b ← (if challenge_len ch =? chall_len then mret true else ok);
    if negb b then set_challenge None ;; mret None
    else
      r ← run_bld (u_randbuf rnd chall_len);
      match r with
      | None => set_challenge None ;; mret None
      | Some bytes =>
          set_challenge (Some bytes) ;;
          p ← build (l2tp_packet_add_octets rnd d pack Challenge bytes true);
          match p with
          | None => set_challenge None ;; mret None
          | Some p => mret (Some p)
          end
      end.

(** [_realloc] to size 0 frees the block and returns a null pointer, which the code takes for
    a failure: it frees the block again. *)
Definition l2tp_tunnel_storechall (chall : option l2tp_attr_t) : M bool :=
  match chall with
  | None => set_challenge None ;; mret true
  | Some a =>
      s ← cget secret;
      if no_secret s then set_challenge None ;; mret false
      else
        ch ← cget challenge;
        b ← (if challenge_len ch =? attr_length a then mret true
             else if attr_length a =? 0 then bad_free ;; mret false
             else ok);
        if negb b then set_challenge None ;; mret false
        else
          match val_octets (attr_val a) (attr_length a) with
          | None => undefined ;; mret false
          | Some [] => mret true
          | Some bytes => set_challenge (Some bytes) ;; mret true
          end
  end.

Definition l2tp_tunnel_genchallresp (msgident : Z) (pack : l2tp_packet_t) : M (option l2tp_packet_t) :=
  ch ← cget challenge;
  s ← cget secret;
  match ch with
  | None => mret (Some pack)
  | Some ch =>
      if no_secret s then mret None
      else build (l2tp_packet_add_octets rnd d pack Challenge_Response (comp_chap_md5 msgident (default [] s) ch) true)
  end.

Definition l2tp_tunnel_checkchallresp (msgident : Z) (challresp : option l2tp_attr_t) : M bool :=
  s ← cget secret;
  ch ← cget challenge;
  if no_secret s then mret true
  else
    match ch, challresp with
    | None, _ => mret false
    | _, None => mret false
    | Some ch, Some a =>
        if negb (attr_length a =? Z.of_nat MD5_DIGEST_LENGTH) then mret false
        else
          match val_octets (attr_val a) (Z.of_nat MD5_DIGEST_LENGTH) with
          | None => undefined ;; mret false
          | Some b => mret (bool_decide (comp_chap_md5 msgident (default [] s) ch = b))
          end
    end.

(** ** Queues *)

Definition on_chn (f : chan qpack l2tp_packet_t -> chan qpack l2tp_packet_t) : M unit := cset (fun c => c <| chn ::= f |>).

Definition l2tp_tunnel_clear_recvqueue : M unit := on_chn clear_recvqueue.

Definition l2tp_tunnel_clear_sendqueue : M unit := on_chn clear_sendqueue ;; cset (fun c => c <| send_queue_len := 0 |>).

Definition of_sess (a : nat) (q : qpack) : bool := bool_decide (q_sess q = Some a).

(** The packets of the session leave both lists. *)
Definition l2tp_session_clear_sendqueue (a : nat) : M unit :=
  sget a (fun _ => tt) ;;
  c ← cget chn;
  let gone := List.filter (of_sess a) (send_queue c) in
  on_chn (fun c => set_send (List.filter (fun q => negb (of_sess a q)) (send_queue c)) c) ;;
  cset (fun c => c <| send_queue_len ::= fun n => u32 (n - Z.of_nat (length gone)) |>).

(** [__l2tp_tunnel_send]: the packet goes out with the current [Nr]; a full socket buffer loses
    it, any other error of [sendto] is reported. *)
Definition l2tp_tunnel_send_now (pack : l2tp_packet_t) : M bool :=
  c ← cget chn;
  b ← ok;
  if negb b then mret false
  else
    match l2tp_packet_send (pack <| hdr ::= fun h => h <| h_Nr := Nr c |> |>) with
    | Crash => undefined ;; mret false
    | Error => mret false
    | Ret data =>
        b ← ok;
        if (b : bool) then emit (Sent data) ;; mret true else (eagain ← ok; mret eagain)
    end.

Definition timer_add (get : l2tp_conn_t -> tm) (set : tm -> l2tp_conn_t -> l2tp_conn_t) : M bool :=
  t ← cget get; b ← ok; if (b : bool) then cset (set (t <| tm_on := true |>)) ;; mret true else mret false.
Definition timer_del (get : l2tp_conn_t -> tm) (set : tm -> l2tp_conn_t -> l2tp_conn_t) : M unit :=
  t ← cget get; cset (set (t <| tm_on := false |>)).
Definition set_timeout (t : tm) (c : l2tp_conn_t) : l2tp_conn_t := c <| timeout_timer := t |>.
Definition set_rtimeout (t : tm) (c : l2tp_conn_t) : l2tp_conn_t := c <| rtimeout_timer := t |>.
Definition set_hello (t : tm) (c : l2tp_conn_t) : l2tp_conn_t := c <| hello_timer := t |>.

Definition l2tp_tunnel_clean_rtmsqueue : M bool :=
  c ← cget chn;
  on_chn clean_rtmsqueue ;;
  c' ← cget chn;
  if (length (rtms_queue c) =? length (rtms_queue c'))%nat then mret true
  else
    cset (fun c => c <| c_retransmit := 0 |>) ;;
    t ← cget rtimeout_timer;
    match rtms_queue c' with
    | [] => (if tm_on t then timer_del rtimeout_timer set_rtimeout else skip) ;; mret true
    | _ =>
        cset (fun c => c <| rtimeout_timer ::= fun t => t <| tm_period := rtimeout c |> |>) ;;
        if tm_on t then ok else timer_add rtimeout_timer set_rtimeout
    end.

(** The loop of [l2tp_tunnel_push_sendqueue]: the number of packets sent, [None] when one was
    not. *)
Fixpoint push_loop (fuel : nat) (pkt_sent : Z) : M (option Z) :=
  match fuel with
  | O => mret (Some pkt_sent)
  | S fuel =>
      c ← cget chn;
      match push_next c with
      | None => mret (Some pkt_sent)
      | Some q =>
          b ← l2tp_tunnel_send_now ((q_pack q) <| hdr ::= fun h => h <| h_Ns := Ns c |> |>);
          if negb b then mret None
          else
            on_chn (push_sent (q <| q_sess := None |>)) ;;
            cset (fun c => c <| send_queue_len ::= fun n => u32 (n - 1) |>) ;;
            push_loop fuel (pkt_sent + 1)
      end
  end.

(** The result is that of the C function: -1, 0 or 1. *)
Definition l2tp_tunnel_push_sendqueue : M Z :=
  c ← cget chn;
  r ← push_loop (length (send_queue c)) 0;
  match r with
  | None => mret (-1)
  | Some n =>
      if n =? 0 then mret 0
      else
        t ← cget rtimeout_timer;
        if tm_on t then mret 1
        else
          cset (fun c => c <| rtimeout_timer ::= fun t => t <| tm_period := rtimeout c |> |>) ;;
          b ← timer_add rtimeout_timer set_rtimeout;
          mret (if b : bool then 1 else -1)
  end.

Definition closing (s : st_t) : bool := is_st s STATE_FIN || is_st s STATE_FIN_WAIT || is_st s STATE_CLOSE.

(** The packet, linked to the session [a] when there is one. *)
Definition tunnel_send_for (a : option nat) (pack : l2tp_packet_t) : M bool :=
  s ← cget state;
  if closing s then mret false
  else
    t ← cget peer_tid;
    on_chn (fun c => set_send (send_queue c ++ [mk_q (pack <| hdr ::= fun h => h <| h_tid := t |> |>) a]) c) ;;
    cset (fun c => c <| send_queue_len ::= fun n => u32 (n + 1) |>) ;;
    mret true.

Definition l2tp_tunnel_send (pack : l2tp_packet_t) : M bool := tunnel_send_for None pack.

Definition l2tp_session_send (a : nat) (pack : l2tp_packet_t) : M bool :=
  s ← sget a state1;
  if is_st s STATE_CLOSE then mret false
  else
    p ← sget a peer_sid;
    tunnel_send_for (Some a) (pack <| hdr ::= fun h => h <| h_sid := p |> |>).

Definition l2tp_session_try_send (a : nat) (pack : l2tp_packet_t) : M bool :=
  n ← cget send_queue_len;
  c ← cget chn;
  if peer_rcv_wnd_sz c <=? n then mret false else l2tp_session_send a pack ;; mret true.

(** ** Messages *)

Definition new_pack (msg_type : Z) (H : bool) : M (option l2tp_packet_t) :=
  s ← cget secret; build (l2tp_packet_alloc rnd d 2 msg_type H s).

Definition add_int16 (i v : Z) (p : option l2tp_packet_t) : M (option l2tp_packet_t) :=
  adding p (fun p => l2tp_packet_add_int16 rnd d p i v true).
Definition add_int32 (i v : Z) (p : option l2tp_packet_t) : M (option l2tp_packet_t) :=
  adding p (fun p => l2tp_packet_add_int32 rnd d p i v true).
Definition add_octets (i : Z) (v : list Z) (p : option l2tp_packet_t) : M (option l2tp_packet_t) :=
  adding p (fun p => l2tp_packet_add_octets rnd d p i v true).
Definition add_string (i : Z) (v : list Z) (m : bool) (p : option l2tp_packet_t) : M (option l2tp_packet_t) :=
  adding p (fun p => l2tp_packet_add_string rnd d p i v m).

Definition result_code (res err : Z) : list Z := be16 res ++ be16 err.

Definition l2tp_send_StopCCN (res err : Z) : M bool :=
  h ← cget c_hide_avps;
  t ← cget tid;
  p ← new_pack StopCCN h;
  p ← add_int16 Assigned_Tunnel_ID t p;
  p ← add_octets Result_Code (result_code res err) p;
  match p with
  | None => mret false
  | Some p => l2tp_tunnel_send p ;; mret true
  end.

Definition l2tp_send_CDN (a : nat) (res err : Z) : M bool :=
  h ← sget a s_hide_avps;
  i ← sget a sid;
  p ← new_pack CDN h;
  p ← add_int16 Assigned_Session_ID i p;
  p ← add_octets Result_Code (result_code res err) p;
  match p with
  | None => mret false
  | Some p => l2tp_session_send a p ;; mret true
  end.

Definition l2tp_tunnel_send_CDN (i peer res err : Z) : M bool :=
  h ← cget c_hide_avps;
  p ← new_pack CDN h;
  p ← add_int16 Assigned_Session_ID i p;
  p ← add_octets Result_Code (result_code res err) p;
  match p with
  | None => mret false
  | Some p => l2tp_tunnel_send (p <| hdr ::= fun h => h <| h_sid := peer |> |>) ;; mret true
  end.

(** ** The end of tunnels and sessions *)

(** [__tunnel_destroy] frees the tunnel. *)
Definition tunnel_destroy : M unit := cset (fun c => c <| c_freed := true |>) ;; stat_sub stat_conn_finishing.

Definition tunnel_put : M unit :=
  cset (fun c => c <| ref_count ::= fun n => u32 (n - 1) |>) ;;
  n ← cget ref_count;
  if n =? 0 then tunnel_destroy else skip.
Definition tunnel_hold : M unit := cset (fun c => c <| ref_count ::= fun n => u32 (n + 1) |>).

Definition session_destroy (a : nat) : M unit :=
  sset a (fun s => s <| s_fd := false |> <| s_freed := true |>) ;;
  stat_sub stat_sess_finishing ;;
  tunnel_put.

Definition session_put (a : nat) : M unit :=
  sset a (fun s => s <| s_ref_count ::= fun n => u32 (n - 1) |>) ;;
  n ← sget a s_ref_count;
  if n =? 0 then session_destroy a else skip.
Definition session_hold (a : nat) : M unit := sset a (fun s => s <| s_ref_count ::= fun n => u32 (n + 1) |>).

(** [triton_context_call] to a data channel, and to the tunnel. *)
Definition call_apses (a : nat) (f : apcall) : M bool :=
  b ← ok; if negb b then mret false else sset a (fun s => s <| s_calls ::= fun l => l ++ [f] |>) ;; mret true.
Definition call_conn (f : ccall) : M bool :=
  b ← ok; if negb b then mret false else cset (fun c => c <| c_calls ::= fun l => l ++ [f] |>) ;; mret true.

(** The sessions that the lists of the send queue no longer belong to. *)
Definition unlink (a : nat) (q : qpack) : qpack := if of_sess a q then q <| q_sess := None |> else q.

(** The counters of a session that ends; false when there is nothing to do. *)
Definition session_leave (a : nat) : M bool :=
  s ← sget a state1;
  match s with
  | STATE_INIT | STATE_WAIT_ICRP | STATE_WAIT_ICCN | STATE_WAIT_OCRP | STATE_WAIT_OCCN =>
      stat_move stat_sess_starting stat_sess_finishing ;; mret true
  | STATE_ESTB =>
      emit (CtrlFinished a) ;;
      stat_move stat_sess_active stat_sess_finishing ;;
      b ← sget a apses_on;
      (if b : bool then call_apses a ApStop ;; skip else skip) ;;
      mret true
  | _ => mret false
  end.

Definition drop_empty (disconnect : M unit) (a : nat) : M unit :=
  sget a (fun _ => tt) ;;
  cset (fun c => c <| sess_count ::= fun n => u32 (n - 1) |>) ;;
  n ← cget sess_count;
  if negb (n =? 0) then skip
  else
    s ← cget state;
    if is_st s STATE_ESTB then disconnect else skip.

(** [l2tp_session_free]; [disconnect] is [l2tp_tunnel_disconnect_push], for which see below. *)
Definition session_free_with (disconnect : M unit) (a : nat) : M unit :=
  go ← session_leave a;
  if negb go then skip
  else
    sset a (fun s => s <| state1 := STATE_CLOSE |> <| s_timeout := false |>) ;;
    on_chn (fun c => set_send (unlink a <$> send_queue c) c) ;;
    l ← cget sessions;
    if (negb (length l =? 0)%nat) && negb (bool_decide (a ∈ l)) then skip
    else
      cset (fun c => c <| sessions ::= filter (fun b => b <> a) |>) ;;
      session_put a ;;
      drop_empty disconnect a ;;
      session_put a.

(** [tdestroy]: the sessions are freed while the tunnel has none. *)
Definition free_sessions_with (session_free : nat -> M unit) : M unit :=
  l ← cget sessions;
  cset (fun c => c <| sessions := [] |>) ;;
  iter_st l session_free.

(** The counters of a tunnel that ends. *)
Definition conn_leave (s : st_t) : M unit :=
  match s with
  | STATE_INIT | STATE_WAIT_SCCRP | STATE_WAIT_SCCCN => stat_move stat_conn_starting stat_conn_finishing
  | STATE_ESTB => stat_move stat_conn_active stat_conn_finishing
  | _ => skip
  end.

Definition del_timers (r : bool) : M unit :=
  t ← cget timeout_timer;
  (if tm_on t then timer_del timeout_timer set_timeout else skip) ;;
  (if r then t ← cget rtimeout_timer; (if tm_on t then timer_del rtimeout_timer set_rtimeout else skip) else skip) ;;
  t ← cget hello_timer;
  if tm_on t then timer_del hello_timer set_hello else skip.

Definition tunnel_free_with (session_free : nat -> M unit) : M unit :=
  s ← cget state;
  match s with
  | STATE_INIT | STATE_WAIT_SCCRP | STATE_WAIT_SCCCN | STATE_ESTB | STATE_FIN | STATE_FIN_WAIT =>
      conn_leave s ;;
      cset (fun c => c <| state := STATE_CLOSE |>) ;;
      modify (fun w => w <| in_table := false |>) ;;
      cset (fun c => c <| hnd_on := false |>) ;;
      del_timers true ;;
      on_chn (set_rtms []) ;;
      l2tp_tunnel_clear_sendqueue ;;
      l2tp_tunnel_clear_recvqueue ;;
      free_sessions_with session_free ;;
      cset (fun c => c <| ctx_on := false |> <| c_calls := [] |>) ;;
      tunnel_put
  | _ => skip
  end.

Definition disconnect_with (session_free : nat -> M unit) (res err : Z) : M bool :=
  s ← cget state;
  match s with
  | STATE_INIT | STATE_WAIT_SCCRP | STATE_WAIT_SCCCN | STATE_ESTB =>
      conn_leave s ;;
      l2tp_tunnel_clear_sendqueue ;;
      b ← l2tp_send_StopCCN res err;
      cset (fun c => c <| state := STATE_FIN |>) ;;
      if negb b then tunnel_free_with session_free ;; mret false
      else
        del_timers false ;;
        free_sessions_with session_free ;;
        mret true
  | _ => mret true
  end.

Definition disconnect_push_with (session_free : nat -> M unit) (res err : Z) : M bool :=
  b ← disconnect_with session_free res err;
  if negb b then mret false
  else
    r ← l2tp_tunnel_push_sendqueue;
    if r <? 0 then tunnel_free_with session_free ;; mret false else mret true.

(** The functions call each other: a session that leaves an empty tunnel disconnects it, which
    frees its sessions.  The tunnel is closing by then, so that a session freed on the way
    does not disconnect it again; [undefined] marks the call that does not happen. *)
Definition session_free_closing : nat -> M unit := session_free_with undefined.
Definition l2tp_tunnel_free : M unit := tunnel_free_with session_free_closing.
Definition l2tp_tunnel_free_sessions : M unit := free_sessions_with session_free_closing.
Definition l2tp_tunnel_disconnect (res err : Z) : M bool := disconnect_with session_free_closing res err.
Definition l2tp_tunnel_disconnect_push (res err : Z) : M bool := disconnect_push_with session_free_closing res err.
Definition l2tp_session_free : nat -> M unit := session_free_with (l2tp_tunnel_disconnect_push 1 0 ;; skip).

Definition l2tp_session_disconnect (a : nat) (res err : Z) : M unit :=
  l2tp_session_clear_sendqueue a ;;
  l2tp_send_CDN a res err ;;
  l2tp_session_free a.

Definition l2tp_session_disconnect_push (a : nat) (res err : Z) : M unit :=
  b ← l2tp_send_CDN a res err;
  (if b : bool then l2tp_tunnel_push_sendqueue ;; skip else skip) ;;
  l2tp_session_free a.

(** ** The data channel of a session *)

(** Called in the context of the tunnel. *)
Definition l2tp_tunnel_get_session (i : Z) : M (option nat) :=
  l ← cget sessions;
  gets (fun w => List.find (fun a => sid (sess_at a w) =? i) l).

Definition l2tp_session_apses_finished (i : Z) : M unit :=
  r ← l2tp_tunnel_get_session i;
  match r with
  | None => skip
  | Some a =>
      s ← sget a state1;
      if is_st s STATE_ESTB then l2tp_session_disconnect_push a 2 0 else skip
  end.

(** [__apses_destroy]: the calls still queued are dropped with the context. *)
Definition apses_destroy (a : nat) : M unit :=
  sset a (fun s => s <| apses_on := false |> <| s_calls := [] |>) ;;
  stat_sub stat_finishing ;;
  session_put a.

(** The tunnel is told, when it still has its context. *)
Definition tell_tunnel (a : nat) : M unit :=
  i ← sget a sid;
  b ← cget ctx_on;
  if b : bool then call_conn (ApFinished i) ;; skip else skip.

Definition apses_leave (s : ap_t) : M unit :=
  match s with
  | APSTATE_STARTING => stat_move stat_starting stat_finishing
  | APSTATE_STARTED => stat_move stat_active stat_finishing
  | _ => skip
  end.

Definition apses_finished (a : nat) : M unit :=
  s ← sget a apses_state;
  match s with
  | APSTATE_STARTING | APSTATE_STARTED | APSTATE_FINISHING =>
      apses_leave s ;;
      sset a (fun s => s <| apses_state := APSTATE_FINISHING |>) ;;
      tell_tunnel a ;;
      call_apses a ApDestroy ;;
      skip
  | _ => skip
  end.

(** [ap_session_terminate] hands the end of the session to the PPP layer, which may report it
    to [apses_finished] before it returns. *)
Definition ap_session_terminate (a : nat) : M unit :=
  b ← ok; if b : bool then apses_finished a else skip.

Definition apses_stop (a : nat) : M unit :=
  s ← sget a apses_state;
  match s with
  | APSTATE_NONE => skip
  | _ =>
      (match s with APSTATE_INIT => stat_move stat_starting stat_finishing | s => apses_leave s end) ;;
      (match s with
       | APSTATE_STARTING | APSTATE_STARTED =>
           sset a (fun s => s <| apses_state := APSTATE_FINISHING |>) ;; ap_session_terminate a
       | _ => tell_tunnel a
       end) ;;
      apses_destroy a
  end.

Definition apses_ctx_stop : nat -> M unit := apses_stop.

Definition apses_started (a : nat) : M unit :=
  s ← sget a apses_state;
  if negb (is_ap s APSTATE_STARTING) then skip
  else
    stat_move stat_starting stat_active ;;
    sset a (fun s => s <| apses_state := APSTATE_STARTED |>).

Definition apses_start (a : nat) : M unit :=
  s ← sget a apses_state;
  if negb (is_ap s APSTATE_INIT) then skip
  else
    establish_ppp ← ok;
    if negb establish_ppp then apses_stop a else sset a (fun s => s <| apses_state := APSTATE_STARTING |>).

(** The context of the data channel runs its next call. *)
Definition run_apses (a : nat) : M unit :=
  l ← sget a s_calls;
  match l with
  | [] => skip
  | f :: l =>
      sset a (fun s => s <| s_calls := l |>) ;;
      match f with ApStart => apses_start a | ApStop => apses_stop a | ApDestroy => apses_destroy a end
  end.

(** ** New sessions *)

Definition l2tp_session_timeout (a : nat) : M unit :=
  sset a (fun s => s <| s_timeout := false |>) ;;
  l2tp_session_disconnect_push a 10 0.

(** The loop that looks for a session id no session of the tunnel has; [read] of the random
    device may fail. *)
Fixpoint new_sid (count : nat) (used : Z -> bool) : M (option Z) :=
  match count with
  | O => mret None
  | S count =>
      r ← run_bld (u_rand16 rnd);
      match r with
      | None => mret None
      | Some i => if (i =? 0) || used i then new_sid count used else mret (Some i)
      end
  end.

Definition UINT16_MAX : nat := Z.to_nat 65535.

(** Memory for 2^31 sessions at a time does not exist. *)
Definition memory_left : M bool :=
  gets (fun w => Z.of_nat (length (List.filter (fun s => negb (s_freed s)) (heap w))) <? 2 ^ 31).

(** [l2tp_tunnel_new_session] and [l2tp_tunnel_alloc_session]. *)
Definition l2tp_tunnel_alloc_session : M (option nat) :=
  b ← ok;
  m ← memory_left;
  if negb (b && m) then mret None
  else
    l ← cget sessions;
    h ← gets heap;
    let used i := existsb (fun a => sid (default no_sess (h !! a)) =? i) l in
    r ← new_sid UINT16_MAX used;
    match r with
    | None => mret None
    | Some i =>
        let a := length h in
        lns ← cget lns_mode;
        hide ← cget c_hide_avps;
        let q := conf_dataseq cf in
        modify (fun w => w <| heap ::= fun h => h ++ [mk_sess i 0 0 STATE_INIT lns hide
          ((q =? L2TP_DATASEQ_PREFER) || (q =? L2TP_DATASEQ_REQUIRE)) (q =? L2TP_DATASEQ_REQUIRE)
          false false false APSTATE_NONE [] false] |>) ;;
        cset (fun c => c <| sessions ::= fun l => l ++ [a] |> <| sess_count ::= fun n => u32 (n + 1) |>) ;;
        session_hold a ;;
        tunnel_hold ;;
        session_hold a ;;
        stat_add stat_sess_starting ;;
        mret (Some a)
    end.

(** [l2tp_session_start_data_channel]: the strings are allocated, the context is registered and
    the start of the session queued. *)
Definition l2tp_session_start_data_channel (a : nat) : M bool :=
  let strings := (2 + Nat.b2n (conf_ip_pool cf) + Nat.b2n (conf_ipv6_pool cf) + Nat.b2n (conf_dpv6_pool cf))%nat in
  b ← oks strings;
  if negb b then mret false
  else
    sset a (fun s => s <| apses_state := APSTATE_INIT |>) ;;
    session_hold a ;;
    b ← ok;
    if negb b then session_put a ;; mret false
    else
      sset a (fun s => s <| apses_on := true |>) ;;
      b ← call_apses a ApStart;
      if negb b then
        sset a (fun s => s <| apses_on := false |> <| s_calls := [] |>) ;; session_put a ;; mret false
      else stat_add stat_starting ;; mret true.

(** [l2tp_session_connect]: the socket, its two flags, the connection, the options, the name of
    the channel. *)
Definition l2tp_session_connect (a : nat) : M bool :=
  sset a (fun s => s <| s_timeout := false |>) ;;
  b ← ok;
  if negb b then mret false
  else
    sset a (fun s => s <| s_fd := true |>) ;;
    ss ← sget a send_seq;
    rs ← sget a recv_seq;
    b ← oks (4 + Nat.b2n ss + Nat.b2n rs + Nat.b2n (negb (conf_reorder_timeout cf =? 0)%Z) + 1)%nat;
    if negb b then sset a (fun s => s <| s_fd := false |>) ;; mret false
    else
      emit (CtrlStarted a) ;;
      stat_move stat_sess_starting stat_sess_active ;;
      sset a (fun s => s <| state1 := STATE_ESTB |>) ;;
      b ← l2tp_session_start_data_channel a;
      if negb b then sset a (fun s => s <| s_fd := false |>) ;; mret false else mret true.

(** ** New tunnels *)

Definition DEFAULT_TIMER : tm := mk_tm false 0.

(** The memory of a tunnel before it is allocated. *)
Definition no_conn : l2tp_conn_t :=
  mk_conn 0 0 0 false false false None None DEFAULT_TIMER DEFAULT_TIMER DEFAULT_TIMER false 0 0 0 0
    (mk_chan 0 0 0 0 [] [] [] 0) 0 [] 0 0 STATE_CLOSE false false [] true.

(** [l2tp_tunnel_alloc]: the socket and its options, the receive queue, a tunnel id that is not
    in [used]. *)
Definition l2tp_tunnel_alloc (used : Z -> bool) (framing : Z) (lns pset hide : bool) : M bool :=
  b ← oks 12;
  if negb b then mret false
  else
    r ← new_sid UINT16_MAX used;
    match r with
    | None => mret false
    | Some t =>
        modify (fun w => w <| conn := mk_conn t 0 framing lns hide pset None None
          (mk_tm false (conf_timeout cf * 1000)) (mk_tm false (conf_rtimeout cf * 1000))
          (mk_tm false (conf_hello_interval cf * 1000)) false
          (conf_rtimeout cf * 1000) (conf_rtimeout_cap cf * 1000) (conf_retransmit cf) 0
          (mk_chan 0 0 0 DEFAULT_PEER_RECV_WINDOW_SIZE [] [] (replicate (Z.to_nat (conf_recv_window cf)) None) 0)
          0 [] 0 0 STATE_INIT false false [] false |> <| in_table := true |>) ;;
        tunnel_hold ;;
        stat_add stat_conn_starting ;;
        mret true
    end.

(** [l2tp_tunnel_start]: the context, the handler of the socket, the establishment timer, and
    the call that sends the first message. *)
Definition l2tp_tunnel_start (f : ccall) : M bool :=
  b ← ok;
  if negb b then mret false
  else
    cset (fun c => c <| ctx_on := true |> <| hnd_on := true |>) ;;
    b ← ok;
    if negb b then cset (fun c => c <| hnd_on := false |> <| ctx_on := false |>) ;; mret false
    else
      b ← timer_add timeout_timer set_timeout;
      if negb b then cset (fun c => c <| hnd_on := false |> <| ctx_on := false |>) ;; mret false
      else
        b ← call_conn f;
        if negb b then
          timer_del timeout_timer set_timeout ;; cset (fun c => c <| hnd_on := false |> <| ctx_on := false |>) ;; mret false
        else mret true.

Definition l2tp_conn_close : M unit := l2tp_tunnel_disconnect_push 0 0 ;; skip.

(** [l2tp_tunnel_connect]: the socket that tells the kernel of the tunnel. *)
Definition l2tp_tunnel_connect : M bool :=
  t ← cget timeout_timer;
  (if tm_on t then timer_del timeout_timer set_timeout else skip) ;;
  b ← oks 4;
  if negb b then mret false
  else
    b ← (if conf_hello_interval cf =? 0 then mret true else timer_add hello_timer set_hello);
    if negb b then mret false
    else
      stat_move stat_conn_starting stat_conn_active ;;
      cset (fun c => c <| state := STATE_ESTB |>) ;;
      mret true.

(** ** Timers *)

(** The first message of the retransmission queue is sent again, with its number. *)
Definition l2tp_rtimeout : M unit :=
  c ← cget chn;
  match rtms_queue c with
  | [] => skip
  | (n, q) :: _ =>
      let err := timer_del rtimeout_timer set_rtimeout ;; l2tp_tunnel_free in
      cset (fun c => c <| c_retransmit ::= fun r => s32 (r + 1) |>) ;;
      r ← cget c_retransmit;
      m ← cget max_retransmit;
      if m <? r then err
      else
        b ← l2tp_tunnel_send_now ((q_pack q) <| hdr ::= fun h => h <| h_Ns := n |> |>);
        if negb b then err
        else
          cset (fun c => c <| rtimeout_timer ::= fun t => t <| tm_period := Z.min (s32 (tm_period t * 2)) (rtimeout_cap c) |> |>) ;;
          b ← ok;
          if negb b then err else skip
  end.

Definition l2tp_tunnel_timeout : M unit :=
  timer_del timeout_timer set_timeout ;; l2tp_tunnel_disconnect_push 1 0 ;; skip.

(** A message without attributes, sent at once and not numbered. *)
Definition l2tp_send_ZLB : M bool :=
  p ← build (l2tp_packet_alloc rnd d 2 0 false None);
  match p with
  | None => mret false
  | Some p =>
      t ← cget peer_tid;
      c ← cget chn;
      l2tp_tunnel_send_now (p <| hdr ::= fun h => h <| h_tid := t |> <| h_Ns := Ns c |> |>)
  end.

Definition l2tp_send_HELLO : M unit :=
  h ← cget c_hide_avps;
  p ← new_pack HELLO h;
  match p with
  | None => l2tp_tunnel_free
  | Some p =>
      l2tp_tunnel_send p ;;
      r ← l2tp_tunnel_push_sendqueue;
      if r <? 0 then l2tp_tunnel_free else skip
  end.

(** ** The messages of the tunnel *)

Definition vendor_name : list Z := str_bytes "micro-bng".

(** The attributes SCCRQ and SCCRP share. *)
Definition start_attrs (p : option l2tp_packet_t) : M (option l2tp_packet_t) :=
  f ← cget framing_cap;
  t ← cget tid;
  c ← cget chn;
  p ← add_int16 Protocol_Version L2TP_V2_PROTOCOL_VERSION p;
  p ← add_string Host_Name (conf_host_name cf) true p;
  p ← add_int32 Framing_Capabilities f p;
  p ← add_int16 Assigned_Tunnel_ID t p;
  p ← add_string Vendor_Name vendor_name false p;
  add_int16 Recv_Window_Size (recv_queue_sz c) p.

(** A challenge of 16 to 143 bytes. *)
Definition add_challenge (p : option l2tp_packet_t) : M (option l2tp_packet_t) :=
  match p with
  | None => mret None
  | Some p =>
      r ← run_bld (u_rand16 rnd);
      match r with
      | None => mret None
      | Some n => l2tp_tunnel_genchall (Z.land n 0x7f + Z.of_nat MD5_DIGEST_LENGTH) p
      end
  end.

Definition send_start (p : option l2tp_packet_t) (next : st_t) : M unit :=
  match p with
  | None => l2tp_tunnel_free
  | Some p =>
      l2tp_tunnel_send p ;;
      r ← l2tp_tunnel_push_sendqueue;
      if r <? 0 then l2tp_tunnel_free else cset (fun c => c <| state := next |>)
  end.

Definition l2tp_send_SCCRQ : M unit :=
  h ← cget c_hide_avps;
  p ← new_pack SCCRQ h;
  p ← start_attrs p;
  p ← add_challenge p;
  send_start p STATE_WAIT_SCCRP.

Definition l2tp_send_SCCRP : M unit :=
  h ← cget c_hide_avps;
  p ← new_pack SCCRP h;
  p ← start_attrs p;
  p ← (match p with None => mret None | Some p => l2tp_tunnel_genchallresp SCCRP p end);
  p ← add_challenge p;
  send_start p STATE_WAIT_SCCCN.

Definition l2tp_send_SCCCN : M bool :=
  h ← cget c_hide_avps;
  p ← new_pack SCCCN h;
  p ← (match p with None => mret None | Some p => l2tp_tunnel_genchallresp SCCCN p end);
  match p with
  | None => mret false
  | Some p => l2tp_tunnel_storechall None ;; l2tp_tunnel_send p ;; mret true
  end.

(** ** The messages of a session *)

Definition sess_pack (a : nat) (msg_type : Z) : M (option l2tp_packet_t) := h ← sget a s_hide_avps; new_pack msg_type h.

Definition session_sends (a : nat) (p : option l2tp_packet_t) : M bool :=
  match p with None => mret false | Some p => l2tp_session_send a p ;; mret true end.
Definition session_tries (a : nat) (p : option l2tp_packet_t) : M bool :=
  match p with None => mret false | Some p => l2tp_session_try_send a p end.

Definition l2tp_send_ICRQ (a : nat) : M bool :=
  i ← sget a sid;
  p ← sess_pack a ICRQ;
  p ← add_int16 Assigned_Session_ID i p;
  p ← add_int32 Call_Serial_Number 0 p;
  session_tries a p.

Definition l2tp_send_ICRP (a : nat) : M bool :=
  i ← sget a sid;
  p ← sess_pack a ICRP;
  p ← add_int16 Assigned_Session_ID i p;
  session_sends a p.

(** What ICCN and OCCN share. *)
Definition send_connected (a : nat) (msg_type : Z) : M bool :=
  s ← sget a send_seq;
  p ← sess_pack a msg_type;
  p ← add_int32 TX_Speed 1000 p;
  p ← add_int32 Framing_Type 3 p;
  p ← (if s : bool then add_octets Sequencing_Required [] p else mret p);
  session_sends a p.
Definition l2tp_send_ICCN (a : nat) : M bool := send_connected a ICCN.
Definition l2tp_send_OCCN (a : nat) : M bool := send_connected a OCCN.

Definition l2tp_send_OCRQ (a : nat) : M bool :=
  i ← sget a sid;
  p ← sess_pack a OCRQ;
  p ← add_int16 Assigned_Session_ID i p;
  p ← add_int32 Call_Serial_Number 0 p;
  p ← add_int32 Minimum_BPS 100 p;
  p ← add_int32 Maximum_BPS 100000 p;
  p ← add_int32 Bearer_Type 3 p;
  p ← add_int32 Framing_Type 3 p;
  p ← add_string Called_Number [] true p;
  session_tries a p.

Definition l2tp_send_OCRP (a : nat) : M bool :=
  i ← sget a sid;
  p ← sess_pack a OCRP;
  p ← add_int16 Assigned_Session_ID i p;
  session_sends a p.

(** ** The peer closes the tunnel *)

(** The time of a full cycle of retransmissions. *)
Fixpoint retransmission_cycle (n : nat) (rtimeout cap period : Z) : Z :=
  match n with
  | O => period
  | S n => retransmission_cycle n (Z.min (s32 (rtimeout * 2)) cap) cap (s32 (period + rtimeout))
  end.

Definition l2tp_tunnel_finwait_timeout : M unit := timer_del timeout_timer set_timeout ;; l2tp_tunnel_free.

Definition l2tp_tunnel_finwait : M unit :=
  s ← cget state;
  match s with
  | STATE_WAIT_SCCRP | STATE_WAIT_SCCCN | STATE_ESTB | STATE_FIN =>
      conn_leave s ;;
      cset (fun c => c <| state := STATE_FIN_WAIT |>) ;;
      del_timers false ;;
      l2tp_tunnel_clear_sendqueue ;;
      l2tp_tunnel_free_sessions ;;
      cset (fun c => c <| timeout_timer ::= fun t => t <| tm_period :=
        retransmission_cycle (Z.to_nat (max_retransmit c)) (rtimeout c) (rtimeout_cap c) 0 |> |> <| fin_expire := true |>) ;;
      b ← timer_add timeout_timer set_timeout;
      if negb b then l2tp_send_ZLB ;; l2tp_tunnel_free else skip
  | _ => skip
  end.

(** ** Received messages of the tunnel *)

Definition uint16_of (a : l2tp_attr_t) : Z := default 0 (val_uint16 (attr_val a)).
Definition uint32_of (a : l2tp_attr_t) : Z := default 0 (val_uint32 (attr_val a)).

Definition window_valid (w : Z) : bool := negb (w =? 0) && (w <=? RECV_WINDOW_SIZE_MAX).

Definition SCCRP_known : list Z :=
  [Message_Type; Random_Vector; Host_Name; Bearer_Capabilities; Firmware_Revision; Vendor_Name; Protocol_Version;
   Framing_Capabilities; Assigned_Tunnel_ID; Recv_Window_Size; Challenge; Challenge_Response].

Definition disconnect (res err : Z) : M unit := l2tp_tunnel_disconnect res err ;; skip.

(** The window of the peer, when it sends one. *)
Definition accept_window (a : option l2tp_attr_t) : M bool :=
  match a with
  | None => mret true
  | Some a =>
      if window_valid (uint16_of a) then on_chn (set_wnd (uint16_of a)) ;; mret true
      else on_chn (set_wnd DEFAULT_PEER_RECV_WINDOW_SIZE) ;; mret false
  end.

Definition l2tp_recv_SCCRP (l : list l2tp_attr_t) : M unit :=
  s ← cget state;
  if negb (is_st s STATE_WAIT_SCCRP) then skip
  else
    match last_attr Assigned_Tunnel_ID l with
    | None => disconnect 2 0
    | Some t =>
        cset (fun c => c <| peer_tid := uint16_of t |>) ;;
        match unknown_attr SCCRP_known l, last_attr Framing_Capabilities l, last_attr Protocol_Version l with
        | Some _, _, _ => disconnect 2 8
        | None, None, _ => disconnect 2 0
        | None, Some _, None => disconnect 2 0
        | None, Some _, Some v =>
            if negb (uint16_of v =? L2TP_V2_PROTOCOL_VERSION) then disconnect 5 0
            else
              b ← accept_window (last_attr Recv_Window_Size l);
              if negb b then disconnect 2 3
              else
                b ← l2tp_tunnel_checkchallresp SCCRP (last_attr Challenge_Response l);
                if negb b then disconnect 4 0
                else
                  b ← l2tp_tunnel_storechall (last_attr Challenge l);
                  if negb b then disconnect 2 4
                  else
                    b ← l2tp_send_SCCCN;
                    if negb b then disconnect 2 0
                    else
                      b ← l2tp_tunnel_connect;
                      if negb b then disconnect 2 0 else skip
        end
    end.

Definition SCCCN_known : list Z :=
  [Message_Type; Host_Name; Vendor_Name; Bearer_Capabilities; Recv_Window_Size; Protocol_Version; Framing_Capabilities;
   Assigned_Tunnel_ID; Random_Vector; Challenge_Response].

Definition l2tp_recv_SCCCN (l : list l2tp_attr_t) : M unit :=
  s ← cget state;
  if negb (is_st s STATE_WAIT_SCCCN) then skip
  else
    match unknown_attr SCCCN_known l with
    | Some _ => disconnect 2 8
    | None =>
        b ← l2tp_tunnel_checkchallresp SCCCN (last_attr Challenge_Response l);
        if negb b then disconnect 4 0
        else
          l2tp_tunnel_storechall None ;;
          b ← l2tp_tunnel_connect;
          if negb b then disconnect 2 0 else skip
    end.

(** The result, the error and the message of a Result Code attribute, which the code logs. *)
Definition rescode_get_data (a : l2tp_attr_t) : option (Z * option (Z * list Z)) :=
  let n := attr_length a in
  if negb (n =? 2) && (n <? 4) then None
  else
    b ← val_octets (attr_val a) n;
    res ← peek16 b 0;
    if n =? 2 then Some (res, None) else (err ← peek16 b 2; Some (res, Some (err, zdrop 4 b))).

Definition l2tp_recv_StopCCN (l : list l2tp_attr_t) : M unit :=
  s ← cget state;
  if is_st s STATE_CLOSE || is_st s STATE_FIN_WAIT then skip
  else
    (match last_attr Assigned_Tunnel_ID l with
     | Some t => cset (fun c => if peer_tid c =? 0 then c <| peer_tid := uint16_of t |> else c)
     | None => skip
     end) ;;
    l2tp_tunnel_finwait.

Definition l2tp_recv_HELLO : M unit :=
  s ← cget state;
  if negb (is_st s STATE_ESTB) then skip
  else
    t ← cget hello_timer;
    if tm_on t then ok ;; skip else skip.

(** ** Received messages of sessions *)

(** Shutdown, the limits on sessions, and the limit on connections turn a call away. *)
Definition refused : M bool := fun (w : world) =>
  let a := adm (draw w) in
  (ap_shutdown a ||
   (negb (conf_max_starting a =? 0) && (conf_max_starting a <=? starting a)) ||
   (negb (conf_max_sessions a =? 0) && (conf_max_sessions a <=? active a + starting a)) ||
   connlimit_reached a, w <| draw ::= S |>).

Definition start_sess_timer (a : nat) : M bool :=
  b ← ok; if negb b then mret false else sset a (fun s => s <| s_timeout := true |>) ;; mret true.
Definition del_sess_timer (a : nat) : M unit := sset a (fun s => s <| s_timeout := false |>).

Definition l2tp_session_incall_reply (a : nat) : M bool :=
  b ← start_sess_timer a;
  if negb b then mret false
  else
    b ← l2tp_send_ICRP a;
    if negb b then del_sess_timer a ;; mret false
    else sset a (fun s => s <| state1 := STATE_WAIT_ICCN |>) ;; mret true.

Definition l2tp_session_outcall_reply (a : nat) : M bool :=
  b ← start_sess_timer a;
  if negb b then mret false
  else
    b ← l2tp_send_OCRP a;
    if negb b then del_sess_timer a ;; mret false
    else
      b ← l2tp_send_OCCN a;
      if negb b then del_sess_timer a ;; mret false
      else
        b ← l2tp_session_connect a;
        if negb b then del_sess_timer a ;; mret false else mret true.

(** What ICRQ and OCRQ share: a session for the call, which [reply] answers, or a CDN. *)
Definition recv_call (known : list Z) (reply : nat -> M bool) (l : list l2tp_attr_t) : M unit :=
  b ← refused;
  if (b : bool) then skip
  else
    match last_attr Assigned_Session_ID l with
    | None => l2tp_tunnel_send_CDN 0 0 2 6 ;; skip
    | Some p =>
        let peer := uint16_of p in
        r ← l2tp_tunnel_alloc_session;
        match r with
        | None => l2tp_tunnel_send_CDN 0 peer 2 4 ;; skip
        | Some a =>
            sset a (fun s => s <| peer_sid := peer |>) ;;
            i ← sget a sid;
            match unknown_attr known l with
            | Some _ => l2tp_tunnel_send_CDN i peer 2 8 ;; l2tp_session_free a
            | None =>
                b ← reply a;
                if negb b then l2tp_tunnel_send_CDN i peer 2 4 ;; l2tp_session_free a else skip
            end
        end
    end.

Definition ICRQ_known : list Z :=
  [Assigned_Session_ID; Message_Type; Random_Vector; Call_Serial_Number; Bearer_Type; Calling_Number; Called_Number;
   Sub_Address; Physical_Channel_ID].
Definition OCRQ_known : list Z :=
  [Message_Type; Random_Vector; Call_Serial_Number; Minimum_BPS; Maximum_BPS; Bearer_Type; Framing_Type; Called_Number;
   Sub_Address; Assigned_Session_ID].

Definition l2tp_recv_ICRQ (l : list l2tp_attr_t) : M unit :=
  s ← cget state;
  lns ← cget lns_mode;
  if negb (is_st s STATE_ESTB) && lns then skip else recv_call ICRQ_known l2tp_session_incall_reply l.

Definition l2tp_recv_OCRQ (l : list l2tp_attr_t) : M unit :=
  s ← cget state;
  lns ← cget lns_mode;
  if negb (is_st s STATE_ESTB) && negb lns then skip else recv_call OCRQ_known l2tp_session_outcall_reply l.

Definition reply_known : list Z := [Message_Type; Random_Vector; Assigned_Session_ID].

Definition l2tp_recv_ICRP (a : nat) (l : list l2tp_attr_t) : M unit :=
  s ← sget a state1;
  if negb (is_st s STATE_WAIT_ICRP) then skip
  else
    match last_attr Assigned_Session_ID l with
    | None => l2tp_session_disconnect a 2 6
    | Some p =>
        sset a (fun s => s <| peer_sid := uint16_of p |>) ;;
        match unknown_attr reply_known l with
        | Some _ => l2tp_session_disconnect a 2 8
        | None =>
            b ← l2tp_send_ICCN a;
            if negb b then l2tp_session_disconnect a 2 6
            else
              b ← l2tp_session_connect a;
              if negb b then l2tp_session_disconnect a 2 6 else skip
        end
    end.

Definition l2tp_recv_OCRP (a : nat) (l : list l2tp_attr_t) : M unit :=
  s ← sget a state1;
  if negb (is_st s STATE_WAIT_OCRP) then skip
  else
    match last_attr Assigned_Session_ID l with
    | None => l2tp_session_disconnect a 2 6
    | Some p =>
        sset a (fun s => s <| peer_sid := uint16_of p |>) ;;
        match unknown_attr reply_known l with
        | Some _ => l2tp_session_disconnect a 2 8
        | None => sset a (fun s => s <| state1 := STATE_WAIT_OCCN |>)
        end
    end.

(** What ICCN and OCCN share. *)
Definition recv_connected (waits : st_t) (known : list Z) (a : nat) (l : list l2tp_attr_t) : M unit :=
  s ← sget a state1;
  if negb (is_st s waits) then skip
  else
    (match last_attr Sequencing_Required l with
     | Some _ => if conf_dataseq cf =? L2TP_DATASEQ_DENY then skip else sset a (fun s => s <| send_seq := true |>)
     | None => skip
     end) ;;
    match unknown_attr known l with
    | Some _ => l2tp_session_disconnect a 2 8
    | None =>
        b ← l2tp_session_connect a;
        if negb b then l2tp_session_disconnect a 2 6 else skip
    end.

Definition ICCN_known : list Z :=
  [Message_Type; Random_Vector; TX_Speed; Framing_Type; 26; 27; 28; 29; 30; 31; 32; 33; Private_Group_ID; RX_Speed; Sequencing_Required].
Definition OCCN_known : list Z := [Message_Type; Random_Vector; TX_Speed; Framing_Type; Sequencing_Required].

Definition l2tp_recv_ICCN : nat -> list l2tp_attr_t -> M unit := recv_connected STATE_WAIT_ICCN ICCN_known.
Definition l2tp_recv_OCCN : nat -> list l2tp_attr_t -> M unit := recv_connected STATE_WAIT_OCCN OCCN_known.

Definition l2tp_recv_CDN (a : nat) (l : list l2tp_attr_t) : M unit :=
  s ← sget a state1;
  if is_st s STATE_CLOSE then skip
  else
    (match last_attr Assigned_Session_ID l with
     | Some p => sset a (fun s => if peer_sid s =? 0 then s <| peer_sid := uint16_of p |> else s)
     | None => skip
     end) ;;
    l2tp_session_clear_sendqueue a ;;
    l2tp_session_free a.

(** ** Calls placed from the command line *)

Definition l2tp_session_place_call (a : nat) : M bool :=
  b ← start_sess_timer a;
  if negb b then mret false
  else
    lns ← sget a s_lns_mode;
    b ← (if lns : bool then l2tp_send_OCRQ a else l2tp_send_ICRQ a);
    if negb b then del_sess_timer a ;; mret false
    else sset a (fun s => s <| state1 := if lns : bool then STATE_WAIT_OCRP else STATE_WAIT_ICRP |>) ;; mret true.

Definition l2tp_tunnel_create_session : M unit :=
  s ← cget state;
  if negb (is_st s STATE_ESTB) then skip
  else
    r ← l2tp_tunnel_alloc_session;
    match r with
    | None => skip
    | Some a =>
        b ← l2tp_session_place_call a;
        if negb b then l2tp_session_free a
        else
          r ← l2tp_tunnel_push_sendqueue;
          if r <? 0 then l2tp_session_free a else skip
    end.

(** ** Dispatch *)

Definition known_message (t : Z) : bool := bool_decide (t ∈ [SCCRQ; SCCRP; SCCCN; StopCCN; HELLO; OCRQ; OCRP; OCCN; ICRQ; ICRP; ICCN; CDN; WEN; SLI]).

(** WEN and SLI are looked at and ignored. *)
Definition l2tp_session_recv (a : nat) (l : list l2tp_attr_t) (msg_type : Z) (mandatory : bool) : M unit :=
  if msg_type =? OCRP then l2tp_recv_OCRP a l
  else if msg_type =? OCCN then l2tp_recv_OCCN a l
  else if msg_type =? ICRP then l2tp_recv_ICRP a l
  else if msg_type =? ICCN then l2tp_recv_ICCN a l
  else if msg_type =? CDN then l2tp_recv_CDN a l
  else if known_message msg_type then sget a (fun _ => tt)
  else if mandatory then l2tp_session_disconnect a 2 8
  else skip.

Definition l2tp_tunnel_recv (l : list l2tp_attr_t) (msg_type : Z) (mandatory : bool) : M unit :=
  if msg_type =? SCCRP then l2tp_recv_SCCRP l
  else if msg_type =? SCCCN then l2tp_recv_SCCCN l
  else if msg_type =? StopCCN then l2tp_recv_StopCCN l
  else if msg_type =? HELLO then l2tp_recv_HELLO
  else if msg_type =? OCRQ then l2tp_recv_OCRQ l
  else if msg_type =? ICRQ then l2tp_recv_ICRQ l
  else if known_message msg_type then skip
  else if mandatory then disconnect 2 8
  else skip.

(** ** Reading *)

Definition l2tp_tunnel_store_msg (pack : l2tp_packet_t) : M (bool * bool) :=
  c ← cget chn;
  let h := hdr pack in
  let '(stored, need_ack, c) := store_msg (h_Ns h) (h_Nr h) (if l2tp_packet_is_ZLB pack then None else Some pack) c in
  on_chn (fun _ => c) ;;
  mret (stored, need_ack).

(** One message out of the receive queue. *)
Definition handle_msg (pack : l2tp_packet_t) : M unit :=
  s ← cget state;
  if is_st s STATE_FIN || is_st s STATE_FIN_WAIT then skip
  else
    match attrs pack with
    | [] => undefined
    | a :: _ =>
        if negb (attr_num a =? Message_Type) then skip
        else
          let msg_type := uint16_of a in
          if negb (h_sid (hdr pack) =? 0) then
            r ← l2tp_tunnel_get_session (h_sid (hdr pack));
            match r with
            | None => skip
            | Some s => l2tp_session_recv s (attrs pack) msg_type (attr_M a)
            end
          else l2tp_tunnel_recv (attrs pack) msg_type (attr_M a)
    end.

(** The loop of [l2tp_tunnel_reply]: the number of messages taken. *)
Fixpoint reply_loop (fuel : nat) (id pkt_count : Z) : M Z :=
  match fuel with
  | O => mret pkt_count
  | S fuel =>
      c ← cget chn;
      s ← cget state;
      if is_st s STATE_CLOSE then mret pkt_count
      else
        match take_at id c with
        | None => mret pkt_count
        | Some (pack, id, c') =>
            on_chn (fun _ => c') ;;
            handle_msg pack ;;
            c ← cget chn;
            if id =? recv_queue_offt c then mret (pkt_count + 1) else reply_loop fuel id (pkt_count + 1)
        end
  end.

Definition l2tp_tunnel_reply (need_ack : bool) : M Z :=
  c ← cget chn;
  n ← reply_loop (S (length (recv_queue c))) (recv_queue_offt c) 0;
  on_chn (advance n) ;;
  r ← l2tp_tunnel_push_sendqueue;
  if (r =? 0) && need_ack then (b ← l2tp_send_ZLB; mret (if b : bool then 0 else -1)) else mret r.

(** What the socket has: datagrams, or errors the reader goes on after ([RNone]). *)
Inductive rx := RData (old data : list Z) | RNone.

(** The first datagram of a tunnel the daemon has initiated sets the port of the peer. *)
Definition learn_port : M bool :=
  p ← cget port_set;
  if (p : bool) then mret true
  else b ← ok; if negb b then mret false else cset (fun c => c <| port_set := true |>) ;; mret true.

Definition wrong_tid (t : Z) (c : l2tp_conn_t) : bool := negb (t =? tid c) && (negb (t =? 0) || negb (conf_dir300_quirk cf)).

(** The loop of [l2tp_conn_read]: [need_ack], or [None] when the port could not be set. *)
Fixpoint read_loop (ins : list rx) (need_ack : bool) : M (option bool) :=
  match ins with
  | [] => mret (Some need_ack)
  | RNone :: ins => read_loop ins need_ack
  | RData old data :: ins =>
      s ← cget secret;
      match l2tp_recv d (conf_avp_permissive cf) malloc_ok s old data with
      | Crash => undefined ;; mret None
      | Error => read_loop ins need_ack
      | Ret pack =>
          b ← learn_port;
          if negb b then mret None
          else
            w ← cget (wrong_tid (h_tid (hdr pack)));
            if (w : bool) then read_loop ins need_ack
            else
              '(_, ack) ← l2tp_tunnel_store_msg pack;
              read_loop ins (need_ack || ack)
      end
  end.

(** [refused] is the end of the input with a connection the peer refuses. *)
Definition l2tp_conn_read (ins : list rx) (peer_unreachable : bool) : M unit :=
  tunnel_hold ;;
  r ← read_loop ins false;
  match r with
  | None => l2tp_tunnel_free ;; tunnel_put
  | Some need_ack =>
      if peer_unreachable then l2tp_tunnel_free ;; tunnel_put
      else
        b ← l2tp_tunnel_clean_rtmsqueue;
        if negb b then l2tp_tunnel_free ;; tunnel_put
        else
          r ← l2tp_tunnel_reply need_ack;
          if r <? 0 then l2tp_tunnel_free ;; tunnel_put
          else
            s ← cget state;
            c ← cget chn;
            if is_st s STATE_FIN && (length (send_queue c) =? 0)%nat && (length (rtms_queue c) =? 0)%nat
            then l2tp_tunnel_free ;; tunnel_put
            else tunnel_put
  end.

(** The context of the tunnel runs its next call. *)
Definition run_conn : M unit :=
  l ← cget c_calls;
  match l with
  | [] => skip
  | f :: l =>
      cset (fun c => c <| c_calls := l |>) ;;
      match f with
      | SendSCCRQ => l2tp_send_SCCRQ
      | SendSCCRP => l2tp_send_SCCRP
      | ApFinished i => l2tp_session_apses_finished i
      | CreateSession => l2tp_tunnel_create_session
      end
  end.

(** ** A tunnel is set up *)

(** The rest of [l2tp_recv_SCCRQ] once the request is found to be good. *)
Definition accept_SCCRQ (used : Z -> bool) (l : list l2tp_attr_t) (t framing : Z) : M bool :=
  b ← l2tp_tunnel_alloc used framing true true (conf_hide_avps cf);
  if negb b then mret false
  else
    let wnd := match last_attr Recv_Window_Size l with Some a => uint16_of a | None => DEFAULT_PEER_RECV_WINDOW_SIZE end in
    on_chn (set_wnd wnd) ;;
    if negb (window_valid wnd) then l2tp_tunnel_free ;; mret false
    else
      b ← (match conf_secret cf with None => mret true | Some _ => ok end);
      if negb b then l2tp_tunnel_free ;; mret false
      else
        cset (fun c => c <| secret := conf_secret cf |>) ;;
        b ← l2tp_tunnel_storechall (last_attr Challenge l);
        if negb b then l2tp_tunnel_free ;; mret false
        else
          cset (fun c => c <| peer_tid := t |> <| port_set := true |>) ;;
          on_chn (set_Nr 1) ;;
          b ← l2tp_tunnel_start SendSCCRP;
          if negb b then l2tp_tunnel_free ;; mret false else mret true.

Definition l2tp_recv_SCCRQ (used : Z -> bool) (l : list l2tp_attr_t) : M bool :=
  b ← refused;
  if (b : bool) then mret true
  else
    match last_attr Message_Digest l, last_attr Assigned_Tunnel_ID l, last_attr Protocol_Version l, last_attr Framing_Capabilities l with
    | None, Some t, Some v, Some f =>
        if negb (uint16_of v =? L2TP_V2_PROTOCOL_VERSION) then mret false else accept_SCCRQ used l (uint16_of t) (uint32_of f)
    | _, _, _, _ => mret false
    end.

(** A datagram to the server: [client_ok] is the answer of the iprange module. *)
Definition l2tp_udp_read1 (used : Z -> bool) (client_ok : bool) (old data : list Z) : M unit :=
  match l2tp_recv d (conf_avp_permissive cf) malloc_ok (conf_secret cf) old data with
  | Crash => undefined
  | Error => skip
  | Ret pack =>
      if negb client_ok || negb (h_tid (hdr pack) =? 0) then skip
      else
        match attrs pack with
        | [] => skip
        | a :: _ =>
            if (attr_num a =? Message_Type) && (uint16_of a =? SCCRQ) then l2tp_recv_SCCRQ used (attrs pack) ;; skip else skip
        end
  end.

(** The end of [l2tp_create_tunnel_exec], behind its arguments. *)
Definition create_tunnel (used : Z -> bool) (lns hide : bool) (sec : option (list Z)) : M bool :=
  b ← l2tp_tunnel_alloc used 3 lns false hide;
  if negb b then mret false
  else
    b ← (match sec with None => mret true | Some _ => ok end);
    if negb b then l2tp_tunnel_free ;; mret false
    else
      cset (fun c => c <| secret := sec |>) ;;
      b ← l2tp_tunnel_start SendSCCRQ;
      if negb b then l2tp_tunnel_free ;; mret false else mret true.

(** [l2tp_create_session_exec] for this tunnel. *)
Definition create_session : M bool := call_conn CreateSession.

End Tunnel.

End L2tpTunnel.
