(* ===== verification/L2tpView.v ===== *)
(** What the life of L2TP tunnels and sessions is about: reference counts, memory, counters.

    [view] keeps of a world of L2tpTunnel.v what the reference counts and the global counters
    depend on; the functions that leave the view alone, but for the messages in the send
    queue, are [quiet].  L2tpLife.v has the invariant, L2tpSafe.v the theorems. *)

From stdpp Require Import base tactics list sets numbers option strings.
From Stdlib Require Import ZArith Lia.
From S2P Require Import Prelude CLib Bytes RadDict Hash L2tpPacket L2tpChan L2tpTunnel.

Open Scope Z_scope.

(** ** Weakest preconditions *)

Module Wp.

Definition wp {S A} (m : st S A) (Q : A -> S -> Prop) (s : S) : Prop := Q (val m s) (exec m s).

Lemma wp_bind {S A B} (m : st S A) (k : A -> st S B) Q s : wp m (fun a => wp (k a) Q) s -> wp (m ≫= k) Q s.
Proof. unfold wp. by rewrite exec_bind, val_bind. Qed.
Lemma wp_ret {S A} (a : A) (Q : A -> S -> Prop) s : Q a s -> wp (mret a) Q s.
Proof. done. Qed.
Lemma wp_mono {S A} (m : st S A) (P Q : A -> S -> Prop) s : wp m P s -> (forall a s', P a s' -> Q a s') -> wp m Q s.
Proof. unfold wp. auto. Qed.
Lemma wp_skip {S} (Q : unit -> S -> Prop) s : Q tt s -> wp skip Q s.
Proof. done. Qed.
Lemma wp_gets {S A} (f : S -> A) (Q : A -> S -> Prop) s : Q (f s) s -> wp (gets f) Q s.
Proof. done. Qed.
Lemma wp_if {S A} (b : bool) (m n : st S A) Q s :
  (b = true -> wp m Q s) -> (b = false -> wp n Q s) -> wp (if b then m else n) Q s.
Proof. destruct b; auto. Qed.

End Wp.

(** ** What the invariant is about *)

Module View.
Import L2tpPacket L2tpChan L2tpTunnel Wp.

Inductive cls := Starting | Active | Finishing | Closed | Odd.
#[export] Instance cls_dec : EqDecision cls. Proof. solve_decision. Defined.

Definition sess_cls (s : st_t) : cls :=
  match s with
  | STATE_INIT | STATE_WAIT_ICRP | STATE_WAIT_ICCN | STATE_WAIT_OCRP | STATE_WAIT_OCCN => Starting
  | STATE_ESTB => Active
  | STATE_CLOSE => Closed
  | _ => Odd
  end.

Definition conn_cls (s : st_t) : cls :=
  match s with
  | STATE_INIT | STATE_WAIT_SCCRP | STATE_WAIT_SCCCN => Starting
  | STATE_ESTB => Active
  | STATE_FIN | STATE_FIN_WAIT => Finishing
  | STATE_CLOSE => Closed
  | _ => Odd
  end.

Record sv := mk_sv { v_sid : Z; v_cls : cls; v_ref : Z; v_on : bool; v_ap : ap_t; v_calls : list apcall; v_gone : bool; v_tmr : bool }.

Definition sview (s : l2tp_sess_t) : sv :=
  mk_sv (sid s) (sess_cls (state1 s)) (s_ref_count s) (apses_on s) (apses_state s) (s_calls s) (s_freed s) (s_timeout s).

Record view := mk_view {
  v_state : st_t;
  v_tree : list nat;
  v_count : Z;
  v_refs : Z;
  v_dead : bool;
  v_ctx : bool;
  v_heap : list sv;
  v_links : list nat;
  v_stat : ctr -> Z;
  v_table : bool;
  v_uaf : bool;
}.

Definition links (c : l2tp_conn_t) : list nat := omap q_sess (send_queue (chn c)).

Definition view_of (w : world) : view :=
  let c := conn w in
  mk_view (state c) (sessions c) (sess_count c) (ref_count c) (c_freed c) (ctx_on c) (sview <$> heap w) (links c)
    (stat w) (in_table w) (uaf w).

Definition set_links (l : list nat) (v : view) : view :=
  mk_view (v_state v) (v_tree v) (v_count v) (v_refs v) (v_dead v) (v_ctx v) (v_heap v) l (v_stat v) (v_table v) (v_uaf v).

Definition gone (v : view) (a : nat) : bool := match v_heap v !! a with Some s => v_gone s | None => true end.

Definition usable (L : list nat) (w : world) : Prop :=
  c_freed (conn w) = false /\ forall a, a ∈ L -> gone (view_of w) a = false.

(** [w'] differs from [w] in nothing the view has, except that messages have left the send
    queue or came to it for the sessions [L]. *)
Definition frame (L : list nat) (w w' : world) : Prop :=
  exists l, l ⊆ v_links (view_of w) ++ L /\ view_of w' = set_links l (view_of w).

Definition quiet {A} (L : list nat) (m : M A) : Prop := forall w, usable L w -> frame L w (exec m w).

Lemma gone_freed a w : s_freed (sess_at a w) = gone (view_of w) a.
Proof.
  unfold gone, sess_at, view_of. cbn. rewrite list_lookup_fmap. by destruct (heap w !! a).
Qed.

Lemma frame_refl L w : frame L w w.
Proof. exists (v_links (view_of w)). split; [set_solver|]. by destruct (view_of w). Qed.

Lemma frame_trans L w1 w2 w3 : frame L w1 w2 -> frame L w2 w3 -> frame L w1 w3.
Proof.
  intros (l1 & H1 & E1) (l2 & H2 & E2). exists l2. rewrite E1 in H2, E2. cbn in *. split; [set_solver|done].
Qed.

Lemma frame_usable L w w' : frame L w w' -> usable L w -> usable L w'.
Proof.
  intros (l & _ & E) [H1 H2]. split.
  - change (v_dead (view_of w') = false). rewrite E. exact H1.
  - intros a Ha. rewrite E. by apply H2.
Qed.

Lemma quiet_bind {A B} L (m : M A) (k : A -> M B) : quiet L m -> (forall a, quiet L (k a)) -> quiet L (m ≫= k).
Proof.
  intros Hm Hk w Hw. rewrite exec_bind. eapply frame_trans; [by apply Hm|]. apply Hk. eapply frame_usable; [by apply Hm|done].
Qed.

Lemma quiet_ret {A} L (a : A) : quiet L (mret a).
Proof. intros w _. apply frame_refl. Qed.
Lemma quiet_skip L : quiet L (skip : M unit).
Proof. apply quiet_ret. Qed.
Lemma quiet_gets {A} L (f : world -> A) : quiet L (gets f).
Proof. intros w _. apply frame_refl. Qed.
Lemma quiet_cget {A} L (f : l2tp_conn_t -> A) : quiet L (cget f).
Proof. intros w [H _]. unfold cget, exec. cbn. rewrite H. apply frame_refl. Qed.
Lemma quiet_sget {A} L a (f : l2tp_sess_t -> A) : a ∈ L -> quiet L (sget a f).
Proof. intros Ha w [_ H]. unfold sget, exec. cbn. rewrite gone_freed, H by done. apply frame_refl. Qed.

(** A step that changes nothing the view has. *)
Lemma same_view L w w' : view_of w' = view_of w -> frame L w w'.
Proof. intros E. exists (v_links (view_of w)). split; [set_solver|]. rewrite E. by destruct (view_of w). Qed.

Lemma quiet_modify L f : (forall w, view_of (f w) = view_of w) -> quiet L (modify f).
Proof. intros Hf w _. apply same_view, Hf. Qed.

Definition core (c : l2tp_conn_t) : st_t * list nat * Z * Z * bool * bool :=
  (state c, sessions c, sess_count c, ref_count c, c_freed c, ctx_on c).

Lemma quiet_cset L f : (forall c, core (f c) = core c) -> (forall c, links (f c) ⊆ links c ++ L) -> quiet L (cset f).
Proof.
  intros Hc Hl w [H _]. unfold cset, exec. cbn [snd]. rewrite H. exists (links (f (conn w))). split; [apply Hl|].
  specialize (Hc (conn w)). unfold core in Hc. injection Hc as E1 E2 E3 E4 E5 E6.
  unfold view_of. destruct w. cbn in *. rewrite E1, E2, E3, E4, E5, E6. done.
Qed.

Lemma sview_alter f (a : nat) (h : list l2tp_sess_t) : (forall s, sview (f s) = sview s) -> sview <$> alter f a h = sview <$> h.
Proof.
  intros Hf. apply list_eq. intros i. rewrite !list_lookup_fmap. destruct (decide (i = a)) as [->|Hne].
  - rewrite list_lookup_alter_eq. destruct (h !! a); [|done]. cbn. by rewrite Hf.
  - by rewrite list_lookup_alter_ne.
Qed.

Lemma quiet_sset L a f : a ∈ L -> (forall s, sview (f s) = sview s) -> quiet L (sset a f).
Proof.
  intros Ha Hf w [_ H]. unfold sset, exec. cbn [snd]. rewrite gone_freed, H by done. apply same_view.
  unfold view_of. destruct w. cbn. by rewrite sview_alter.
Qed.

Lemma quiet_if {A} L (b : bool) (m n : M A) : quiet L m -> quiet L n -> quiet L (if b then m else n).
Proof. by destruct b. Qed.

End View.

(** ** The quiet functions *)

Module Quiet.
Import L2tpPacket L2tpChan L2tpTunnel Wp View.

Create HintDb quiet discriminated.
#[export] Hint Constants Opaque : quiet.

(** One step of a proof that a function is quiet, by the form of the function. *)
Ltac quiet1 :=
  lazymatch goal with
  | |- quiet _ (mret _) => apply quiet_ret
  | |- quiet _ skip => apply quiet_skip
  | |- quiet _ (gets _) => apply quiet_gets
  | |- quiet _ (cget _) => apply quiet_cget
  | |- quiet _ (sget _ _) => apply quiet_sget; solve [assumption]
  | |- quiet _ (sset _ _) => apply quiet_sset; [solve [assumption]|intros []; reflexivity]
  | |- quiet _ (cset _) =>
      first [solve [eauto 2 with quiet] | apply quiet_cset; [intros []; reflexivity|intros []; cbn; clear; set_solver]]
  | |- quiet _ (modify _) => apply quiet_modify; intros []; reflexivity
  | |- quiet _ (_ ≫= _) => apply quiet_bind; [|intros ?]
  | |- quiet _ (match ?x with _ => _ end) => destruct x
  | |- quiet _ _ => solve [eauto 2 with quiet]
  end.
Ltac quiet := repeat quiet1.

#[global] Arguments links : simpl never.

Lemma links_chn c f : links (c <| chn ::= f |>) = omap q_sess (send_queue (f (chn c))).
Proof. by destruct c. Qed.

Lemma quiet_chn L f :
  (forall c, omap q_sess (send_queue (f c)) ⊆ omap q_sess (send_queue c) ++ L) -> quiet L (on_chn f).
Proof. intros Hf. apply quiet_cset; [by intros []|]. intros c. rewrite links_chn. apply Hf. Qed.

Lemma quiet_chn_same L f : (forall c, send_queue (f c) = send_queue c) -> quiet L (on_chn f).
Proof. intros Hf. apply quiet_chn. intros c. rewrite Hf. set_solver. Qed.

Lemma omap_filter_sub (p : qpack -> bool) l : omap q_sess (List.filter p l) ⊆ omap q_sess l.
Proof.
  induction l as [|q l IH]; [done|]. cbn. destruct (p q); cbn; destruct (q_sess q); set_solver.
Qed.

Section Ops.
Set Default Proof Using "Type".
Context (d : l2tp_dict) (rnd : nat -> Z -> option (list Z)) (sys : nat -> bool) (adm : nat -> admission) (malloc_ok : Z -> bool)
        (cf : config) (L : list nat).

Lemma quiet_ok : quiet L (ok sys).
Proof. intros w _. by apply same_view. Qed.
Lemma quiet_run_bld {A} (b : bld A) : quiet L (run_bld b).
Proof. intros w _. unfold run_bld, exec. destruct (b (draw w)). by apply same_view. Qed.
Hint Resolve quiet_ok quiet_run_bld : quiet.

Lemma quiet_oks n : quiet L (oks sys n).
Proof. induction n as [|n IH]; cbn [oks]; quiet. Qed.
Lemma quiet_build {A} (b : bld A) : quiet L (build sys b).
Proof. unfold build. quiet. Qed.
Lemma quiet_emit e : quiet L (emit e).
Proof. unfold emit. quiet. Qed.
Lemma quiet_undefined : quiet L undefined.
Proof. unfold undefined. quiet. Qed.
Lemma quiet_bad_free : quiet L bad_free.
Proof. unfold bad_free. quiet. Qed.
Hint Resolve quiet_oks quiet_build quiet_emit quiet_undefined quiet_bad_free : quiet.

Lemma quiet_adding p f : quiet L (adding sys p f).
Proof. unfold adding. quiet. Qed.
Hint Resolve quiet_adding : quiet.

Lemma quiet_genchall n p : quiet L (l2tp_tunnel_genchall d rnd sys n p).
Proof. unfold l2tp_tunnel_genchall, set_challenge. quiet. Qed.
Lemma quiet_storechall a : quiet L (l2tp_tunnel_storechall sys a).
Proof. unfold l2tp_tunnel_storechall, set_challenge. quiet. Qed.
Lemma quiet_genchallresp i p : quiet L (l2tp_tunnel_genchallresp d rnd sys i p).
Proof. unfold l2tp_tunnel_genchallresp. quiet. Qed.
Lemma quiet_checkchallresp i a : quiet L (l2tp_tunnel_checkchallresp i a).
Proof. unfold l2tp_tunnel_checkchallresp. quiet. Qed.
Hint Resolve quiet_genchall quiet_storechall quiet_genchallresp quiet_checkchallresp : quiet.

Lemma quiet_clear_recvqueue : quiet L l2tp_tunnel_clear_recvqueue.
Proof. by apply quiet_chn_same. Qed.
Lemma quiet_clear_sendqueue : quiet L l2tp_tunnel_clear_sendqueue.
Proof. unfold l2tp_tunnel_clear_sendqueue. apply quiet_bind; [apply quiet_chn; intros c; cbn; clear; set_solver|intros _]. quiet. Qed.
Lemma quiet_session_clear_sendqueue a : a ∈ L -> quiet L (l2tp_session_clear_sendqueue a).
Proof.
  intros Ha. unfold l2tp_session_clear_sendqueue. quiet. apply quiet_chn. intros c. cbn.
  pose proof (omap_filter_sub (fun q => negb (of_sess a q)) (send_queue c)) as E. clear -E. set_solver.
Qed.
Lemma quiet_send_now p : quiet L (l2tp_tunnel_send_now sys p).
Proof. unfold l2tp_tunnel_send_now. quiet. Qed.
Hint Resolve quiet_clear_recvqueue quiet_clear_sendqueue quiet_session_clear_sendqueue quiet_send_now : quiet.

Definition plain_set (set : tm -> l2tp_conn_t -> l2tp_conn_t) : Prop :=
  forall t c, core (set t c) = core c /\ links (set t c) = links c.
Lemma plain_timeout : plain_set set_timeout.
Proof. by intros t []. Qed.
Lemma plain_rtimeout : plain_set set_rtimeout.
Proof. by intros t []. Qed.
Lemma plain_hello : plain_set set_hello.
Proof. by intros t []. Qed.
Hint Resolve plain_timeout plain_rtimeout plain_hello : quiet.

Lemma quiet_plain_set set t : plain_set set -> quiet L (cset (set t)).
Proof. intros Hs. apply quiet_cset; [intros c; apply Hs|]. intros c. rewrite (proj2 (Hs t c)). clear; set_solver. Qed.
Hint Resolve quiet_plain_set : quiet.
Lemma quiet_timer_add get set : plain_set set -> quiet L (timer_add sys get set).
Proof. intros Hs. unfold timer_add. quiet. Qed.
Lemma quiet_timer_del get set : plain_set set -> quiet L (timer_del get set).
Proof. intros Hs. unfold timer_del. quiet. Qed.
Hint Resolve quiet_timer_add quiet_timer_del : quiet.

Lemma quiet_clean : quiet L (l2tp_tunnel_clean_rtmsqueue sys).
Proof. unfold l2tp_tunnel_clean_rtmsqueue. quiet. by apply quiet_chn_same. Qed.

Lemma quiet_push_sent q : quiet L (on_chn (push_sent q)).
Proof. apply quiet_chn. intros c. cbn. destruct (send_queue c) as [|x l]; cbn; [clear; set_solver|]. destruct (q_sess x); clear; set_solver. Qed.
Hint Resolve quiet_clean quiet_push_sent : quiet.
Lemma quiet_push_loop fuel n : quiet L (push_loop sys fuel n).
Proof. revert n. induction fuel as [|fuel IH]; intros n; cbn [push_loop]; quiet. Qed.
Hint Resolve quiet_push_loop : quiet.
Lemma quiet_push : quiet L (l2tp_tunnel_push_sendqueue sys).
Proof. unfold l2tp_tunnel_push_sendqueue. quiet. Qed.
Hint Resolve quiet_push : quiet.

Lemma quiet_send_for o p : (forall a, o = Some a -> a ∈ L) -> quiet L (tunnel_send_for o p).
Proof.
  intros Ho. unfold tunnel_send_for. quiet. apply quiet_chn. intros c. cbn. rewrite omap_app. cbn.
  destruct o as [b|]; [|clear; set_solver]. specialize (Ho b eq_refl). clear -Ho. set_solver.
Qed.
Lemma quiet_send p : quiet L (l2tp_tunnel_send p).
Proof. by apply quiet_send_for. Qed.
Lemma quiet_send_some a p : a ∈ L -> quiet L (tunnel_send_for (Some a) p).
Proof. intros Ha. apply quiet_send_for. by intros ? [= <-]. Qed.
Hint Resolve quiet_send_some : quiet.
Lemma quiet_session_send a p : a ∈ L -> quiet L (l2tp_session_send a p).
Proof. intros Ha. unfold l2tp_session_send. quiet. Qed.
Hint Resolve quiet_send quiet_session_send : quiet.
Lemma quiet_try_send a p : a ∈ L -> quiet L (l2tp_session_try_send a p).
Proof. intros Ha. unfold l2tp_session_try_send. quiet. Qed.
Hint Resolve quiet_try_send : quiet.

Lemma quiet_new_pack t h : quiet L (new_pack d rnd sys t h).
Proof. unfold new_pack. quiet. Qed.
Lemma quiet_add_int16 i v p : quiet L (add_int16 d rnd sys i v p).
Proof. apply quiet_adding. Qed.
Lemma quiet_add_int32 i v p : quiet L (add_int32 d rnd sys i v p).
Proof. apply quiet_adding. Qed.
Lemma quiet_add_octets i v p : quiet L (add_octets d rnd sys i v p).
Proof. apply quiet_adding. Qed.
Lemma quiet_add_string i v m p : quiet L (add_string d rnd sys i v m p).
Proof. apply quiet_adding. Qed.
Hint Resolve quiet_new_pack quiet_add_int16 quiet_add_int32 quiet_add_octets quiet_add_string : quiet.

Lemma quiet_StopCCN r e : quiet L (l2tp_send_StopCCN d rnd sys r e).
Proof. unfold l2tp_send_StopCCN. quiet. Qed.
Lemma quiet_CDN a r e : a ∈ L -> quiet L (l2tp_send_CDN d rnd sys a r e).
Proof. intros Ha. unfold l2tp_send_CDN. quiet. Qed.
Lemma quiet_tunnel_CDN i p r e : quiet L (l2tp_tunnel_send_CDN d rnd sys i p r e).
Proof. unfold l2tp_tunnel_send_CDN. quiet. Qed.
Lemma quiet_del_timers b : quiet L (del_timers b).
Proof. unfold del_timers. quiet. Qed.
Lemma quiet_ZLB : quiet L (l2tp_send_ZLB d rnd sys).
Proof. unfold l2tp_send_ZLB. quiet. Qed.
Lemma quiet_start_attrs p : quiet L (start_attrs d rnd sys cf p).
Proof. unfold start_attrs. quiet. Qed.
Lemma quiet_add_challenge p : quiet L (add_challenge d rnd sys p).
Proof. unfold add_challenge. quiet. Qed.
Lemma quiet_SCCCN : quiet L (l2tp_send_SCCCN d rnd sys).
Proof. unfold l2tp_send_SCCCN. quiet. Qed.
Hint Resolve quiet_StopCCN quiet_CDN quiet_tunnel_CDN quiet_del_timers quiet_ZLB quiet_start_attrs quiet_add_challenge quiet_SCCCN : quiet.

Lemma quiet_sess_pack a t : a ∈ L -> quiet L (sess_pack d rnd sys a t).
Proof. intros Ha. unfold sess_pack. quiet. Qed.
Lemma quiet_session_sends a p : a ∈ L -> quiet L (session_sends a p).
Proof. intros Ha. unfold session_sends. quiet. Qed.
Lemma quiet_session_tries a p : a ∈ L -> quiet L (session_tries a p).
Proof. intros Ha. unfold session_tries. quiet. Qed.
Hint Resolve quiet_sess_pack quiet_session_sends quiet_session_tries : quiet.

Lemma quiet_ICRQ a : a ∈ L -> quiet L (l2tp_send_ICRQ d rnd sys a).
Proof. intros Ha. unfold l2tp_send_ICRQ. quiet. Qed.
Lemma quiet_ICRP a : a ∈ L -> quiet L (l2tp_send_ICRP d rnd sys a).
Proof. intros Ha. unfold l2tp_send_ICRP. quiet. Qed.
Lemma quiet_connected a t : a ∈ L -> quiet L (send_connected d rnd sys a t).
Proof. intros Ha. unfold send_connected. quiet. Qed.
Lemma quiet_OCRQ a : a ∈ L -> quiet L (l2tp_send_OCRQ d rnd sys a).
Proof. intros Ha. unfold l2tp_send_OCRQ. quiet. Qed.
Lemma quiet_OCRP a : a ∈ L -> quiet L (l2tp_send_OCRP d rnd sys a).
Proof. intros Ha. unfold l2tp_send_OCRP. quiet. Qed.
Lemma quiet_accept_window a : quiet L (accept_window a).
Proof. unfold accept_window. quiet; by apply quiet_chn_same. Qed.
Lemma quiet_HELLO : quiet L (l2tp_recv_HELLO sys).
Proof. unfold l2tp_recv_HELLO. quiet. Qed.
Lemma quiet_refused : quiet L (refused adm).
Proof. intros w _. by apply same_view. Qed.
Lemma quiet_get_session i : quiet L (l2tp_tunnel_get_session i).
Proof. unfold l2tp_tunnel_get_session. quiet. Qed.
Lemma quiet_learn_port : quiet L (learn_port sys).
Proof. unfold learn_port. quiet. Qed.
Lemma quiet_new_sid n u : quiet L (new_sid rnd n u).
Proof. induction n as [|n IH]; cbn [new_sid]; quiet. Qed.
Lemma quiet_memory : quiet L memory_left.
Proof. apply quiet_gets. Qed.

(** The received packet only goes to the receive queue. *)
Lemma store_msg_send_queue i k b (c : chan qpack l2tp_packet_t) : send_queue (store_msg i k b c).2 = send_queue c.
Proof.
  unfold store_msg. destruct (_ <? 0); [done|]. cbv zeta. set (c1 := if 0 <? nsnr_cmp k (peer_Nr c) then set_peer_Nr k c else c).
  assert (E : send_queue c1 = send_queue c) by (unfold c1; by destruct (_ <? _)). rewrite <- E. clearbody c1.
  destruct b; [|done]. destruct (_ <? 0); [done|]. destruct (recv_queue_sz c1 <=? _); [done|].
  by destruct (recv_queue c1 !! _) as [[]|].
Qed.

Lemma quiet_store_msg p : quiet L (l2tp_tunnel_store_msg p).
Proof.
  intros w [H _]. unfold l2tp_tunnel_store_msg, exec, mbind, st_bind, cget. rewrite H.
  pose proof (store_msg_send_queue (h_Ns (hdr p)) (h_Nr (hdr p)) (if l2tp_packet_is_ZLB p then None else Some p) (chn (conn w))) as E.
  destruct (store_msg _ _ _ _) as [[b1 b2] c]. cbn [snd] in E. unfold on_chn, cset. rewrite H. cbn [snd mret st_ret].
  apply same_view. destruct w as [[]]. cbn in E. unfold view_of, links. cbn. by rewrite E.
Qed.
Hint Resolve quiet_learn_port quiet_store_msg : quiet.

Lemma quiet_read_loop ins b : quiet L (read_loop d sys malloc_ok cf ins b).
Proof. revert b. induction ins as [|[old data|] ins IH]; intros b; cbn [read_loop]; quiet. Qed.

End Ops.

#[export] Hint Resolve quiet_ok quiet_run_bld quiet_oks quiet_build quiet_emit quiet_undefined quiet_bad_free quiet_adding
  quiet_genchall quiet_storechall quiet_genchallresp quiet_checkchallresp quiet_clear_recvqueue quiet_clear_sendqueue
  quiet_session_clear_sendqueue quiet_send_now plain_timeout plain_rtimeout plain_hello quiet_plain_set quiet_timer_add
  quiet_timer_del quiet_clean quiet_push_sent quiet_push_loop quiet_push quiet_send quiet_session_send quiet_try_send
  quiet_new_pack quiet_add_int16 quiet_add_int32 quiet_add_octets quiet_add_string quiet_StopCCN quiet_CDN quiet_tunnel_CDN
  quiet_del_timers quiet_ZLB quiet_start_attrs quiet_add_challenge quiet_SCCCN quiet_sess_pack quiet_session_sends
  quiet_session_tries quiet_ICRQ quiet_ICRP quiet_connected quiet_OCRQ quiet_OCRP
  quiet_accept_window quiet_HELLO quiet_refused quiet_get_session quiet_learn_port quiet_new_sid quiet_memory quiet_store_msg
  quiet_read_loop : quiet.

End Quiet.
