(* ===== verification/L2tpLife.v ===== *)
(** The life of L2TP tunnels and sessions: reference counts, memory and counters.

    A tunnel and its sessions are freed when the last reference is dropped: the tunnel holds
    its sessions, every session holds itself until it is closed, its data channel holds it
    too, and every session holds the tunnel.  [view] keeps of a world what this is about; the
    functions that leave the view alone are [quiet].  The invariant [inv] says what each
    counter counts; its ghost parameters account for the references a running function holds
    and for the sessions it has taken out of the tunnel.

    The theorems: whatever happens in whatever order, no function touches a tunnel or a session
    that was freed, the reference counts and the global counters are exact, and a tunnel that
    is closed is freed with its last session. *)

From stdpp Require Import base tactics list sets numbers option strings.
From Stdlib Require Import ZArith Lia.
From S2P Require Import Prelude CLib Bytes RadDict Hash L2tpPacket L2tpChan L2tpTunnel L2tpView.

Open Scope Z_scope.

(** ** The invariant *)

Module Inv.
Import L2tpPacket L2tpChan L2tpTunnel Wp View.

(** What running functions hold: [g_h] references to the tunnel, the sessions [g_det] taken
    out of it to be freed, one reference to a session for each place in [g_ext], [g_dc]
    sessions that left and are still counted; [g_cl]: the tunnel is being freed. *)
Record ghost := mk_g { g_h : Z; g_det : list nat; g_ext : list nat; g_dc : Z; g_cl : bool }.
Definition idle : ghost := mk_g 0 [] [] 0 false.

Definition cnt (f : sv -> bool) (h : list sv) : Z := Z.of_nat (length (List.filter f h)).
Definition alive (s : sv) : bool := negb (v_gone s).
Definition is_cls (k : cls) (s : sv) : bool := bool_decide (v_cls s = k).
Definition ending (s : sv) : bool := is_cls Closed s && alive s.
Definition data_in (l : list ap_t) (s : sv) : bool := v_on s && bool_decide (v_ap s ∈ l).

Definition is_open (v : view) : bool := negb (is_st (v_state v) STATE_CLOSE).

(** What the tunnel adds to each of the global counters. *)
Definition contrib (v : view) (i : ctr) : Z :=
  match i with
  | stat_conn_starting => Z.b2z (bool_decide (conn_cls (v_state v) = Starting))
  | stat_conn_active => Z.b2z (bool_decide (conn_cls (v_state v) = Active))
  | stat_conn_finishing =>
      Z.b2z (bool_decide (conn_cls (v_state v) = Finishing) || bool_decide (conn_cls (v_state v) = Closed) && negb (v_dead v))
  | stat_sess_starting => cnt (is_cls Starting) (v_heap v)
  | stat_sess_active => cnt (is_cls Active) (v_heap v)
  | stat_sess_finishing => cnt ending (v_heap v)
  | stat_starting => cnt (data_in [APSTATE_INIT; APSTATE_STARTING]) (v_heap v)
  | stat_active => cnt (data_in [APSTATE_STARTED]) (v_heap v)
  | stat_finishing => cnt (data_in [APSTATE_FINISHING]) (v_heap v)
  end.

Definition times (a : nat) (l : list nat) : Z := Z.of_nat (length (List.filter (Nat.eqb a) l)).

Record sess_ok (intree : bool) (n : Z) (s : sv) : Prop := {
  s_cls : v_cls s = Starting \/ v_cls s = Active \/ v_cls s = Closed;
  s_tree : intree = negb (is_cls Closed s);
  s_refs : v_ref s = 2 * Z.b2z intree + Z.b2z (v_on s) + n;
  s_gone : v_gone s = (v_ref s =? 0);
  s_on : v_on s = true -> v_cls s <> Starting /\ v_ap s <> APSTATE_NONE;
  s_nocalls : v_on s = false -> v_calls s = [];
  s_destroy : ApDestroy ∈ v_calls s -> v_ap s = APSTATE_FINISHING;
  s_tmr : v_tmr s = true -> v_cls s = Starting }.

Definition held (g : ghost) (v : view) : list nat := v_tree v ++ g_det g.

Record inv (base : ctr -> Z) (g : ghost) (v : view) : Prop := {
  i_uaf : v_uaf v = false;
  i_nodup : NoDup (held g v);
  i_in : forall a, a ∈ held g v -> (a < length (v_heap v))%nat;
  i_sids : forall a b s t, a ∈ held g v -> b ∈ held g v -> v_heap v !! a = Some s -> v_heap v !! b = Some t ->
    v_sid s = v_sid t -> a = b;
  i_sid0 : forall a s, a ∈ held g v -> v_heap v !! a = Some s -> v_sid s <> 0;
  i_sess : forall a s, v_heap v !! a = Some s -> sess_ok (bool_decide (a ∈ held g v)) (times a (g_ext g)) s;
  i_ext : forall a, a ∈ g_ext g -> (a < length (v_heap v))%nat;
  i_small : Z.of_nat (length (g_ext g)) <= 2 ^ 20;
  i_count : v_count v = u32 (Z.of_nat (length (held g v)) + g_dc g);
  i_live : cnt alive (v_heap v) <= 2 ^ 31;
  i_h : 0 <= g_h g <= 2 ^ 20;
  i_ref : v_refs v = Z.b2z (is_open v) + cnt alive (v_heap v) + g_h g;
  i_dead : v_dead v = (v_refs v =? 0);
  i_state : conn_cls (v_state v) <> Odd;
  i_links : v_links v ⊆ held g v;
  i_table : v_table v = is_open v;
  i_ctx : v_ctx v = true -> is_open v = true \/ g_cl g = true;
  i_stat : forall i, v_stat v i = u32 (base i + contrib v i) }.

(** *** Counting *)

Lemma cnt_nonneg f h : 0 <= cnt f h.
Proof. unfold cnt. lia. Qed.

Lemma cnt_alter f g a h s :
  h !! a = Some s -> cnt f (alter g a h) = cnt f h - Z.b2z (f s) + Z.b2z (f (g s)).
Proof.
  revert a. unfold cnt. induction h as [|x h IH]; intros a Ha; [done|]. destruct a as [|a].
  - injection Ha as ->. cbn. destruct (f s), (f (g s)); cbn [length Z.b2z]; lia.
  - cbn in Ha. cbn [alter list_alter]. change (list_alter g a h) with (alter g a h). cbn [List.filter].
    specialize (IH a Ha). destruct (f x); cbn [length]; lia.
Qed.

Lemma cnt_app f h s : cnt f (h ++ [s]) = cnt f h + Z.b2z (f s).
Proof. unfold cnt. rewrite List.filter_app, length_app. cbn. destruct (f s); cbn; lia. Qed.

Lemma times_cons a b l : times a (b :: l) = times a l + Z.b2z (a =? b)%nat.
Proof. unfold times. cbn. destruct (Nat.eqb_spec a b); cbn [length Z.b2z]; lia. Qed.
Lemma times_nonneg a l : 0 <= times a l.
Proof. unfold times. lia. Qed.
Lemma times_le a l : times a l <= Z.of_nat (length l).
Proof. unfold times. pose proof (List.filter_length_le (Nat.eqb a) l). lia. Qed.
Lemma times_elem a l : a ∈ l -> 1 <= times a l.
Proof.
  unfold times. induction l as [|b l IH]; [by intros ?%elem_of_nil|]. cbn. destruct (Nat.eqb_spec a b) as [->|Hne]; cbn [length]; [lia|].
  rewrite elem_of_cons. intros [->|H]; [done|]. by apply IH.
Qed.

Lemma alive_pos h a s : h !! a = Some s -> alive s = true -> 1 <= cnt alive h.
Proof.
  revert a. unfold cnt. induction h as [|x h IH]; intros a Ha Hs; [done|]. destruct a as [|a]; cbn in *.
  - injection Ha as ->. rewrite Hs. cbn [length]. lia.
  - specialize (IH a Ha Hs). destruct (alive x); cbn [length]; lia.
Qed.

(** *** Consequences *)

Section Facts.
Context (base : ctr -> Z) (g : ghost) (v : view).
Hypothesis Hv : inv base g v.

Lemma inv_lookup a : a ∈ held g v \/ a ∈ g_ext g -> exists s, v_heap v !! a = Some s.
Proof. intros H. apply lookup_lt_is_Some_2. destruct H as [H|H]; [by apply (i_in _ _ _ Hv)|by apply (i_ext _ _ _ Hv)]. Qed.

Lemma inv_alive a s : v_heap v !! a = Some s -> (a ∈ held g v \/ a ∈ g_ext g \/ v_on s = true) -> v_gone s = false.
Proof.
  intros Hs Ha. pose proof (i_sess _ _ _ Hv a s Hs) as [_ _ Hr Hg _ _ _ _]. rewrite Hg. apply Z.eqb_neq. rewrite Hr.
  pose proof (times_nonneg a (g_ext g)). destruct Ha as [Ha|[Ha|Ha]].
  - rewrite bool_decide_true by done. cbn [Z.b2z]. destruct (v_on s); cbn; lia.
  - pose proof (times_elem _ _ Ha). destruct (bool_decide _), (v_on s); cbn; lia.
  - rewrite Ha. destruct (bool_decide _); cbn; lia.
Qed.

Lemma inv_gone a : a ∈ held g v \/ a ∈ g_ext g -> gone v a = false.
Proof.
  intros Ha. destruct (inv_lookup a Ha) as [s Hs]. unfold gone. rewrite Hs. apply (inv_alive a s Hs). tauto.
Qed.

Lemma inv_not_dead : 0 < g_h g \/ is_open v = true \/ 1 <= cnt alive (v_heap v) -> v_dead v = false.
Proof.
  intros H. rewrite (i_dead _ _ _ Hv), (i_ref _ _ _ Hv). apply Z.eqb_neq. pose proof (i_h _ _ _ Hv). pose proof (cnt_nonneg alive (v_heap v)).
  destruct H as [H|[H|H]]; [|rewrite H; cbn [Z.b2z]|]; destruct (is_open v); cbn [Z.b2z]; lia.
Qed.

Lemma inv_held_not_dead a : a ∈ held g v \/ a ∈ g_ext g -> v_dead v = false.
Proof.
  intros Ha. apply inv_not_dead. right. right. destruct (inv_lookup a Ha) as [s Hs]. apply (alive_pos _ a s Hs).
  unfold alive. by rewrite (inv_alive a s Hs) by tauto.
Qed.

Lemma inv_links_sub L l : l ⊆ v_links v ++ L -> L ⊆ held g v -> inv base g (set_links l v).
Proof.
  intros Hl HL. destruct Hv as [? ? ? ? ? ? ? ? ? ? ? ? ? ? Hlk ? ? ?]. split; try done. cbn. unfold held in *. cbn. set_solver.
Qed.

End Facts.

(** *** Counters *)

Definition ctr_is (i j : ctr) : Z := Z.b2z (bool_decide (i = j)).

Lemma stat_sub_ok base c c' f i :
  (forall j, f j = u32 (base j + c j)) -> (forall j, c' j = c j - ctr_is i j) ->
  forall j, set_ctr f i (u32 (f i - 1)) j = u32 (base j + c' j).
Proof.
  intros Hf Hc j. unfold set_ctr. specialize (Hc j). unfold ctr_is in Hc. case_bool_decide; [subst j|].
  - rewrite Hf, Hc. cbn [Z.b2z]. width_lia.
  - rewrite Hf, Hc. cbn [Z.b2z]. do 2 f_equal. lia.
Qed.

Lemma stat_add_ok base c c' f i :
  (forall j, f j = u32 (base j + c j)) -> (forall j, c' j = c j + ctr_is i j) ->
  forall j, set_ctr f i (u32 (f i + 1)) j = u32 (base j + c' j).
Proof.
  intros Hf Hc j. unfold set_ctr. specialize (Hc j). unfold ctr_is in Hc. case_bool_decide; [subst j|].
  - rewrite Hf, Hc. cbn [Z.b2z]. width_lia.
  - rewrite Hf, Hc. cbn [Z.b2z]. do 2 f_equal. lia.
Qed.

Definition down (i : ctr) (v : view) : view := v <| v_stat ::= fun f => set_ctr f i (u32 (f i - 1)) |>.
Definition up (i : ctr) (v : view) : view := v <| v_stat ::= fun f => set_ctr f i (u32 (f i + 1)) |>.
Definition change (F : sv -> sv) (a : nat) (v : view) : view := v <| v_heap ::= alter F a |>.
Definition set_state (s : st_t) (v : view) : view := v <| v_state := s |>.

(** What changing the session [a] from [s] to [F s] does to the counters. *)
Definition swing (s s' : sv) (i : ctr) : Z :=
  let diff f := Z.b2z (f s') - Z.b2z (f s) in
  match i with
  | stat_sess_starting => diff (is_cls Starting)
  | stat_sess_active => diff (is_cls Active)
  | stat_sess_finishing => diff ending
  | stat_starting => diff (data_in [APSTATE_INIT; APSTATE_STARTING])
  | stat_active => diff (data_in [APSTATE_STARTED])
  | stat_finishing => diff (data_in [APSTATE_FINISHING])
  | _ => 0
  end.

Lemma swing_same s s' i :
  v_cls s' = v_cls s -> v_on s' = v_on s -> v_ap s' = v_ap s -> v_gone s' = v_gone s -> swing s s' i = 0.
Proof.
  intros E1 E2 E3 E4. unfold swing, is_cls, ending, alive, data_in, is_cls. rewrite E1, E2, E3, E4. destruct i; lia.
Qed.

Lemma contrib_change F a v s i :
  v_heap v !! a = Some s -> contrib (change F a v) i = contrib v i + swing s (F s) i.
Proof.
  intros Hs. destruct v. cbn in Hs. unfold contrib, change, swing. cbn.
  destruct i; try rewrite (cnt_alter _ _ a _ s Hs); lia.
Qed.

(** A session changes; the references to others stay. *)
Lemma inv_change base g g' v a s F st :
  inv base g v -> v_heap v !! a = Some s ->
  v_sid (F s) = v_sid s -> Z.b2z (alive (F s)) <= Z.b2z (alive s) ->
  g_h g' = g_h g + Z.b2z (alive s) - Z.b2z (alive (F s)) -> g_h g' <= 2 ^ 20 -> g_det g' = g_det g -> g_dc g' = g_dc g -> g_cl g' = g_cl g ->
  (forall b, b <> a -> times b (g_ext g') = times b (g_ext g)) -> g_ext g' ⊆ a :: g_ext g -> Z.of_nat (length (g_ext g')) <= 2 ^ 20 ->
  sess_ok (bool_decide (a ∈ held g v)) (times a (g_ext g')) (F s) ->
  (forall i, st i = u32 (base i + (contrib v i + swing s (F s) i))) ->
  inv base g' (change F a v <| v_stat := st |>).
Proof.
  intros Hv Hs Hsid Hal Eh Hh Ed Edc Ecl Ht Hsub Hlen Hok Hst.
  assert (Hheld : held g' (change F a v <| v_stat := st |>) = held g v) by (unfold held; rewrite Ed; by destruct v).
  assert (Hl : forall b, v_heap (change F a v <| v_stat := st |>) !! b = if decide (b = a) then Some (F s) else v_heap v !! b).
  { intros b. destruct v. cbn in *. destruct (decide (b = a)) as [->|Hne]; [by rewrite list_lookup_alter_eq, Hs|by rewrite list_lookup_alter_ne]. }
  assert (Hlenh : length (v_heap (change F a v <| v_stat := st |>)) = length (v_heap v)) by (destruct v; apply length_alter).
  assert (Hcnt : cnt alive (v_heap (change F a v <| v_stat := st |>)) = cnt alive (v_heap v) - Z.b2z (alive s) + Z.b2z (alive (F s))).
  { destruct v. cbn in *. by rewrite (cnt_alter _ _ a _ s Hs). }
  assert (Hop : is_open (change F a v <| v_stat := st |>) = is_open v) by (by destruct v).
  assert (Hold : forall b t, v_heap (change F a v <| v_stat := st |>) !! b = Some t -> exists t0, v_heap v !! b = Some t0 /\ v_sid t = v_sid t0).
  { intros b t. rewrite Hl. destruct (decide (b = a)) as [->|]; [|by exists t]. intros [= <-]. by exists s. }
  destruct Hv as [H1 H2 H3 H4 H4' H5 H6 H7 H8 H9 H10 H11 H12 H13 H14 H15 H17 H16].
  split; rewrite ?Hheld, ?Hlenh, ?Hcnt, ?Hop, ?Eh, ?Edc, ?Ecl; try done; try (destruct v; done); try lia.
  - intros b c t u Hb Hc Et Eu E. destruct (Hold _ _ Et) as (t0 & Et0 & E1), (Hold _ _ Eu) as (u0 & Eu0 & E2).
    apply (H4 b c t0 u0); congruence.
  - intros b t Hb Et. destruct (Hold _ _ Et) as (t0 & Et0 & E1). rewrite E1. by apply (H4' b t0).
  - intros b t. rewrite Hl. destruct (decide (b = a)) as [->|Hne]; [by intros [= <-]|]. rewrite Ht by done. apply H5.
  - intros b Hb. apply Hsub, elem_of_cons in Hb as [->|Hb]; [by apply lookup_lt_Some in Hs|by apply H6].
  - change (v_refs (change F a v <| v_stat := st |>)) with (v_refs v). lia.
  - intros i. cbn. rewrite Hst, <- (contrib_change F a v s i Hs). done.
Qed.

Lemma stat_same (v : view) : v <| v_stat := v_stat v |> = v.
Proof. by destruct v. Qed.

(** A change that no counter sees. *)
Lemma inv_change0 base g g' v a s F :
  inv base g v -> v_heap v !! a = Some s ->
  v_sid (F s) = v_sid s -> alive (F s) = alive s ->
  g_h g' = g_h g -> g_det g' = g_det g -> g_dc g' = g_dc g -> g_cl g' = g_cl g ->
  (forall b, b <> a -> times b (g_ext g') = times b (g_ext g)) -> g_ext g' ⊆ a :: g_ext g -> Z.of_nat (length (g_ext g')) <= 2 ^ 20 ->
  sess_ok (bool_decide (a ∈ held g v)) (times a (g_ext g')) (F s) ->
  (forall i, swing s (F s) i = 0) ->
  inv base g' (change F a v).
Proof.
  intros Hv Hs Hsid Hal Eh Ed Edc Ecl Ht Hsub Hlen Hok Hsw. rewrite <- (stat_same (change F a v)).
  apply (inv_change base g g' v a s F); try done; [rewrite Hal; lia|rewrite Hal, Eh; lia|rewrite Eh; apply (i_h _ _ _ Hv)|].
  intros i. rewrite Hsw, Z.add_0_r. destruct v. apply (i_stat _ _ _ Hv i).
Qed.

(** *** References *)

Definition add_ref (n : Z) (s : sv) : sv := s <| v_ref ::= fun r => u32 (r + n) |>.
Definition vhold (a : nat) (v : view) : view := change (add_ref 1) a v.

Definition with_ext (l : list nat) (g : ghost) : ghost := mk_g (g_h g) (g_det g) l (g_dc g) (g_cl g).
Definition with_h (h : Z) (g : ghost) : ghost := mk_g h (g_det g) (g_ext g) (g_dc g) (g_cl g).
Definition hold_g (a : nat) (g : ghost) : ghost := with_ext (a :: g_ext g) g.

Lemma sess_refs_small b n s : sess_ok b n s -> 0 <= n <= 2 ^ 20 -> 0 <= v_ref s <= 2 ^ 20 + 3.
Proof. intros [_ _ Hr _ _ _ _ _] Hn. rewrite Hr. destruct b, (v_on s); cbn [Z.b2z]; lia. Qed.

Lemma times_small base g v a : inv base g v -> 0 <= times a (g_ext g) <= 2 ^ 20.
Proof. intros Hv. pose proof (times_nonneg a (g_ext g)). pose proof (times_le a (g_ext g)). pose proof (i_small _ _ _ Hv). lia. Qed.

Lemma times_other a b l : b <> a -> times b (a :: l) = times b l.
Proof. intros H. rewrite times_cons. rewrite (proj2 (Nat.eqb_neq b a)) by done. cbn. lia. Qed.
Lemma times_self a l : times a (a :: l) = times a l + 1.
Proof. by rewrite times_cons, Nat.eqb_refl. Qed.

Lemma inv_hold base g v a s :
  inv base g v -> v_heap v !! a = Some s -> v_gone s = false -> Z.of_nat (length (g_ext g)) < 2 ^ 20 ->
  inv base (hold_g a g) (vhold a v).
Proof.
  intros Hv Hs Hg Hl. pose proof (i_sess _ _ _ Hv a s Hs) as Hok. pose proof (times_small _ _ _ a Hv) as Hn.
  pose proof (sess_refs_small _ _ _ Hok Hn) as Hr. pose proof Hok as [K1 K2 K3 K4 K5 K6 K7 K8].
  assert (Er : u32 (v_ref s + 1) = v_ref s + 1) by (apply u32_small; width_unfold; lia).
  apply (inv_change0 base g (hold_g a g) v a s); try done; cbn [g_ext hold_g with_ext length].
  - intros b Hb. by apply times_other.
  - lia.
  - rewrite times_self. destruct s as [i k r o p cl gn tm]. cbn in *. split; cbn; try done; rewrite ?Er; [lia|].
    rewrite Hg in K4. subst gn. symmetry. apply Z.eqb_neq. lia.
  - intros i. by apply swing_same.
Qed.

Definition vhold_conn (v : view) : view := v <| v_refs ::= fun n => u32 (n + 1) |>.

Lemma inv_hold_conn base g v : inv base g v -> v_dead v = false -> g_h g < 2 ^ 20 -> inv base (with_h (g_h g + 1) g) (vhold_conn v).
Proof.
  intros [H1 H2 H3 H4 H4' H5 H6 H7 H8 H9 H10 H11 H12 H13 H14 H15 H17 H16] Hd Hh. pose proof (cnt_nonneg alive (v_heap v)) as Hc.
  assert (Er : v_refs (vhold_conn v) = v_refs v + 1).
  { change (u32 (v_refs v + 1) = v_refs v + 1). apply u32_small. width_unfold. rewrite H11. destruct (is_open v); cbn [Z.b2z]; lia. }
  split; rewrite ?Er; try done; cbn [g_h with_h]; [lia| |].
  - change (is_open (vhold_conn v)) with (is_open v). change (v_heap (vhold_conn v)) with (v_heap v). lia.
  - rewrite (Hd : v_dead (vhold_conn v) = _). symmetry. apply Z.eqb_neq. destruct (is_open v); cbn [Z.b2z] in *; lia.
Qed.

Definition vput_conn (v : view) : view :=
  let v := v <| v_refs ::= fun n => u32 (n - 1) |> in
  if v_refs v =? 0 then down stat_conn_finishing (v <| v_dead := true |>) else v.

Lemma inv_put_conn base g v : inv base (with_h (g_h g + 1) g) v -> 0 <= g_h g -> inv base g (vput_conn v).
Proof.
  intros [H1 H2 H3 H4 H4' H5 H6 H7 H8 H9 H10 H11 H12 H13 H14 H15 H17 H16] Hh.
  pose proof (cnt_nonneg alive (v_heap v)) as Hc. cbn [g_h with_h] in *.
  assert (Er : u32 (v_refs v - 1) = v_refs v - 1) by (apply u32_small; width_unfold; destruct (is_open v); cbn [Z.b2z] in *; lia).
  assert (Hd : v_dead v = false) by (rewrite H12; apply Z.eqb_neq; destruct (is_open v); cbn [Z.b2z] in *; lia).
  unfold vput_conn. destruct v as [st tr ct rf dd cx hp lk sa tb uf]. cbn in *. rewrite Er. clear H12. subst dd.
  destruct (rf - 1 =? 0) eqn:E.
  - to_prop. assert (Hop : is_open (mk_view st tr ct rf false cx hp lk sa tb uf) = false) by (destruct (is_open _); cbn [Z.b2z] in *; [lia|done]).
    split; cbn; try done; try lia.
    + unfold is_open in *. cbn in *. rewrite Hop in *. cbn [Z.b2z] in *. lia.
    + apply (stat_sub_ok _ _ _ _ _ H16). intros j. unfold is_open in Hop. cbn in Hop. apply negb_false_iff, bool_decide_eq_true in Hop. subst st.
      destruct j; first [reflexivity | symmetry; apply Z.sub_0_r].
  - split; cbn; try done; try lia.
    + unfold is_open in *. cbn in *. lia.
Qed.

Definition mark_gone (s : sv) : sv := s <| v_gone := true |>.
Definition ref_of (a : nat) (v : view) : Z := match v_heap v !! a with Some s => v_ref s | None => 0 end.

Definition vput (a : nat) (v : view) : view :=
  let v := change (add_ref (-1)) a v in
  if ref_of a v =? 0 then vput_conn (down stat_sess_finishing (change mark_gone a v)) else v.

Lemma lookup_change F a b v :
  v_heap (change F a v) !! b = if decide (b = a) then F <$> v_heap v !! b else v_heap v !! b.
Proof.
  unfold change. destruct v. cbn. destruct (decide (b = a)) as [->|]; [by rewrite list_lookup_alter_eq|by rewrite list_lookup_alter_ne].
Qed.

Lemma change_change F G a v : change G a (change F a v) = change (G ∘ F) a v.
Proof.
  unfold change. destruct v as [? ? ? ? ? ? h]. cbn. f_equal. apply list_eq. intros i. destruct (decide (i = a)) as [->|Hne].
  - rewrite !list_lookup_alter_eq. by destruct (h !! a).
  - by rewrite !list_lookup_alter_ne.
Qed.

Lemma down_change i F a v : down i (change F a v) = change F a v <| v_stat := set_ctr (v_stat v) i (u32 (v_stat v i - 1)) |>.
Proof. by destruct v. Qed.

Lemma swing_gone n s j :
  v_cls s = Closed -> v_on s = false -> v_gone s = false ->
  swing s (mark_gone (add_ref n s)) j = - ctr_is stat_sess_finishing j.
Proof. destruct s. cbn. intros -> -> ->. by destruct j. Qed.

Lemma inv_put base g v a : inv base (hold_g a g) v -> g_h g < 2 ^ 20 -> inv base g (vput a v).
Proof.
  intros Hv Hh. destruct (inv_lookup _ _ _ Hv a) as [s Hs]; [right; by left|].
  pose proof (i_sess _ _ _ Hv a s Hs) as Hok. pose proof (times_small _ _ _ a Hv) as Hn. pose proof (i_small _ _ _ Hv) as Hsm.
  pose proof (sess_refs_small _ _ _ Hok Hn) as Hr. pose proof Hok as [K1 K2 K3 K4 K5 K6 K7 K8].
  cbn [g_ext hold_g with_ext length] in *. rewrite times_self in *. pose proof (times_nonneg a (g_ext g)) as Ht0.
  assert (Er : u32 (v_ref s + -1) = v_ref s - 1).
  { rewrite u32_small; [lia|]. width_unfold. destruct (bool_decide _), (v_on s); cbn [Z.b2z] in *; lia. }
  assert (Href : ref_of a (change (add_ref (-1)) a v) = v_ref s - 1).
  { unfold ref_of. rewrite lookup_change, decide_True, Hs by done. exact Er. }
  assert (Hgn : v_gone s = false) by (apply (inv_alive _ _ _ Hv a s Hs); right; left; by left).
  unfold vput. rewrite Href. destruct (v_ref s - 1 =? 0) eqn:E; to_prop.
  - rewrite change_change. apply inv_put_conn; [|apply (i_h _ _ _ Hv)].
    assert (Hin : bool_decide (a ∈ held g v) = false /\ v_on s = false).
    { change (held (hold_g a g) v) with (held g v) in *. destruct (bool_decide _), (v_on s); cbn [Z.b2z] in *; done || lia. }
    destruct Hin as [Hin Hon]. change (held (hold_g a g) v) with (held g v) in *. rewrite Hin in *. rewrite Hon in *. cbn [Z.b2z] in K3.
    rewrite down_change.
    eapply (inv_change base (hold_g a g) (with_h (g_h g + 1) g) v a s (mark_gone ∘ add_ref (-1))); try done; cbn [g_ext g_h with_h].
    + cbn. destruct (alive s); done.
    + unfold alive. rewrite Hgn. cbn. lia.
    + lia.
    + intros b Hb. symmetry. by apply times_other.
    + cbn. set_solver.
    + lia.
    + change (held (hold_g a g) v) with (held g v). rewrite Hin. destruct s as [i k r o p cl gn tm]. cbn in *. subst o gn.
      split; cbn; try done; rewrite Er; [lia|]. symmetry. apply Z.eqb_eq. lia.
    + apply (stat_sub_ok _ _ _ _ _ (i_stat _ _ _ Hv)). intros j.
      assert (Hc : v_cls s = Closed) by (symmetry in K2; by apply negb_false_iff, bool_decide_eq_true in K2).
      rewrite (swing_gone (-1) s j Hc Hon Hgn : swing s ((mark_gone ∘ add_ref (-1)) s) j = _). lia.
  - assert (Hlen : Z.of_nat (length (g_ext g)) <= 2 ^ 20) by lia.
    apply (inv_change0 base (hold_g a g) g v a s); try done.
    + intros b Hb. symmetry. by apply times_other.
    + cbn. set_solver.
    + change (held (hold_g a g) v) with (held g v) in *. destruct s as [i k r o p cl gn tm]. cbn in *.
      split; cbn; try done; rewrite ?Er; [lia|]. rewrite Hgn. symmetry. apply Z.eqb_neq. lia.
    + intros i. by apply swing_same.
Qed.

(** *** Changes of one session, of the state and of the counters

    The counters are changed before or after what they count: in between the invariant holds
    for another [base]. *)

Lemma inv_restat base base' g v st :
  inv base g v -> (forall i, st i = u32 (base' i + contrib v i)) -> inv base' g (v <| v_stat := st |>).
Proof. intros [H1 H2 H3 H4 H4' H5 H6 H7 H8 H9 H10 H11 H12 H13 H14 H15 H17 H16] Hst. split; done. Qed.

Lemma inv_upd_ext base base' g l v a s F :
  inv base g v -> v_heap v !! a = Some s -> v_sid (F s) = v_sid s -> v_gone (F s) = v_gone s ->
  (forall b, b <> a -> times b l = times b (g_ext g)) -> l ⊆ a :: g_ext g -> Z.of_nat (length l) <= 2 ^ 20 ->
  (sess_ok (bool_decide (a ∈ held g v)) (times a (g_ext g)) s -> sess_ok (bool_decide (a ∈ held g v)) (times a l) (F s)) ->
  (forall i, base i = base' i + swing s (F s) i) ->
  inv base' (with_ext l g) (change F a v).
Proof.
  intros Hv Hs Hsid Hg Ht Hl Hlen Hok Hb. assert (Hal : alive (F s) = alive s) by (unfold alive; by rewrite Hg).
  set (st := fun i => u32 (base i + (contrib v i + swing s (F s) i))).
  assert (E : change F a v = (change F a (v <| v_stat := st |>)) <| v_stat := v_stat v |>) by (by destruct v).
  rewrite E. apply (inv_restat base).
  - apply (inv_change base g (with_ext l g) v a s F); try done; rewrite ?Hal; cbn; try lia; [apply (i_h _ _ _ Hv)|].
    apply Hok, (i_sess _ _ _ Hv a s Hs).
  - intros i. change (contrib (change F a (v <| v_stat := st |>)) i) with (contrib (change F a v) i).
    rewrite (i_stat _ _ _ Hv i), Hb, (contrib_change F a v s i Hs). f_equal. lia.
Qed.

Lemma with_ext_id g : with_ext (g_ext g) g = g.
Proof. by destruct g. Qed.

Lemma inv_upd base base' g v a s F :
  inv base g v -> v_heap v !! a = Some s -> v_sid (F s) = v_sid s -> v_gone (F s) = v_gone s ->
  (sess_ok (bool_decide (a ∈ held g v)) (times a (g_ext g)) s -> sess_ok (bool_decide (a ∈ held g v)) (times a (g_ext g)) (F s)) ->
  (forall i, base i = base' i + swing s (F s) i) ->
  inv base' g (change F a v).
Proof.
  intros Hv Hs Hsid Hg Hok Hb. rewrite <- (with_ext_id g). apply (inv_upd_ext base base' g _ v a s F); try done; [set_solver|apply (i_small _ _ _ Hv)].
Qed.

(** *** The data channel of a session *)

(** What a data channel in state [p] adds to the counters. *)
Definition data_part (p : ap_t) (i : ctr) : Z :=
  match p with
  | APSTATE_NONE => 0
  | APSTATE_INIT | APSTATE_STARTING => ctr_is stat_starting i
  | APSTATE_STARTED => ctr_is stat_active i
  | APSTATE_FINISHING => ctr_is stat_finishing i
  end.

Definition off (s : sv) : sv := s <| v_on := false |> <| v_calls := [] |>.
Definition on (s : sv) : sv := s <| v_on := true |>.
Definition set_ap (p : ap_t) (s : sv) : sv := s <| v_ap := p |>.
Definition set_calls (l : list apcall) (s : sv) : sv := s <| v_calls := l |>.
Definition set_tmr (b : bool) (s : sv) : sv := s <| v_tmr := b |>.
Definition set_cls (k : cls) (s : sv) : sv := s <| v_cls := k |>.

Lemma swing_off s i : v_on s = true -> swing s (off s) i = - data_part (v_ap s) i.
Proof. destruct s as [? k ? ? p ? gn ?]. cbn. intros ->. destruct i, p; first [reflexivity | exact (Z.sub_diag _)]. Qed.
Lemma swing_on s i : v_on s = false -> swing s (on s) i = data_part (v_ap s) i.
Proof. destruct s as [? k ? ? p ? gn ?]. cbn. intros ->. destruct i, p; first [reflexivity | exact (Z.sub_diag _)]. Qed.
Lemma swing_ap p s i : v_on s = true -> swing s (set_ap p s) i = data_part p i - data_part (v_ap s) i.
Proof. destruct s as [? k ? ? q ? gn ?]. cbn. intros ->. destruct i, p, q; first [reflexivity | exact (Z.sub_diag _)]. Qed.
Lemma swing_ap_off p s i : v_on s = false -> swing s (set_ap p s) i = 0.
Proof. destruct s as [? k ? ? q ? gn ?]. cbn. intros ->. destruct i; first [reflexivity | exact (Z.sub_diag _)]. Qed.
Lemma swing_active s i : v_cls s = Starting -> swing s (set_cls Active s) i = ctr_is stat_sess_active i - ctr_is stat_sess_starting i.
Proof. destruct s as [? k ? ? q ? gn ?]. cbn. intros ->. destruct i; first [reflexivity | exact (Z.sub_diag _)]. Qed.

Lemma inv_off base base' g v a s :
  inv base g v -> v_heap v !! a = Some s -> v_on s = true -> Z.of_nat (length (g_ext g)) < 2 ^ 20 ->
  (forall i, base i + data_part (v_ap s) i = base' i) -> inv base' (hold_g a g) (change off a v).
Proof.
  intros Hv Hs Ho Hl Hb. apply (inv_upd_ext base base' g (a :: g_ext g) v a s); try done; cbn [length]; [by intros; apply times_other|lia| |].
  - rewrite times_self. intros [K1 K2 K3 K4 K5 K6 K7 K8]. destruct s as [i k r o p cl gn tm]. cbn in *. subst o. cbn [Z.b2z] in K3.
    split; cbn; try done; [lia|by intros ?%elem_of_nil].
  - intros i. rewrite swing_off by done. rewrite <- Hb. lia.
Qed.

Lemma inv_on base base' g v a s :
  inv base (hold_g a g) v -> v_heap v !! a = Some s -> v_on s = false -> v_cls s <> Starting -> v_ap s <> APSTATE_NONE ->
  (forall i, base i = base' i + data_part (v_ap s) i) -> inv base' g (change on a v).
Proof.
  intros Hv Hs Ho Hk Hp Hb. pose proof (i_small _ _ _ Hv) as Hl. cbn [hold_g with_ext g_ext length] in Hl.
  rewrite <- (with_ext_id g). change (with_ext (g_ext g) g) with (with_ext (g_ext g) (hold_g a g)).
  apply (inv_upd_ext base base' (hold_g a g) (g_ext g) v a s); try done; cbn [hold_g with_ext g_ext].
  - intros b Hb'. symmetry. by apply times_other.
  - set_solver.
  - lia.
  - rewrite times_self. intros [K1 K2 K3 K4 K5 K6 K7 K8]. destruct s as [i k r o p cl gn tm]. cbn in *. subst o. cbn [Z.b2z] in K3.
    split; cbn; try done. lia.
  - intros i. rewrite swing_on by done. apply Hb.
Qed.

Definition bump (i : ctr) (n : Z) (base : ctr -> Z) (j : ctr) : Z := base j + n * ctr_is i j.

Lemma inv_down base g v i : inv base g v -> inv (bump i (-1) base) g (down i v).
Proof.
  intros Hv. apply (inv_restat base); [done|]. intros j. pose proof (i_stat _ _ _ Hv) as Hst.
  unfold set_ctr, bump, ctr_is. case_bool_decide; subst; rewrite Hst; cbn [Z.b2z]; [width_lia|do 2 f_equal; lia].
Qed.
Lemma inv_up base g v i : inv base g v -> inv (bump i 1 base) g (up i v).
Proof.
  intros Hv. apply (inv_restat base); [done|]. intros j. pose proof (i_stat _ _ _ Hv) as Hst.
  unfold set_ctr, bump, ctr_is. case_bool_decide; subst; rewrite Hst; cbn [Z.b2z]; [width_lia|do 2 f_equal; lia].
Qed.

Lemma inv_base base base' g v : (forall i, base i = base' i) -> inv base g v -> inv base' g v.
Proof.
  intros Hb [H1 H2 H3 H4 H4' H5 H6 H7 H8 H9 H10 H11 H12 H13 H14 H15 H17 H16]. split; try done. intros i. by rewrite <- Hb.
Qed.

(** What a tunnel in state [s] that is not freed adds to the counters of tunnels. *)
Definition conn_part (s : st_t) (i : ctr) : Z :=
  match conn_cls s with
  | Starting => ctr_is stat_conn_starting i
  | Active => ctr_is stat_conn_active i
  | Finishing | Closed => ctr_is stat_conn_finishing i
  | Odd => 0
  end.

Lemma contrib_state s v i :
  v_dead v = false -> contrib (set_state s v) i = contrib v i - conn_part (v_state v) i + conn_part s i.
Proof.
  destruct v as [st tr ct rf dd cx hp lk sa tb uf]. cbn. intros ->.
  destruct i, st, s; first [reflexivity | symmetry; etransitivity; [apply Z.add_0_r|apply Z.sub_0_r]].
Qed.

Lemma inv_state base base' g v s :
  inv base g v -> v_dead v = false -> conn_cls s <> Odd -> is_st s STATE_CLOSE = is_st (v_state v) STATE_CLOSE ->
  (forall i, base i + conn_part (v_state v) i = base' i + conn_part s i) ->
  inv base' g (set_state s v).
Proof.
  intros [H1 H2 H3 H4 H4' H5 H6 H7 H8 H9 H10 H11 H12 H13 H14 H15 H17 H16] Hd Hs Ho Hb.
  assert (Hop : is_open (set_state s v) = is_open v) by (destruct v; cbn in *; unfold is_open; cbn; by rewrite Ho).
  split; rewrite ?Hop; try done. intros i. rewrite (contrib_state s v i Hd).
  rewrite (H16 i : v_stat (set_state s v) i = _). f_equal. specialize (Hb i). lia.
Qed.

(** *** A tunnel is freed *)

Definition cl_g (g : ghost) : ghost := mk_g (g_h g + 1) (g_det g) (g_ext g) (g_dc g) true.
Definition vclosing (v : view) : view := set_state STATE_CLOSE v <| v_table := false |>.

Lemma inv_closing base base' g v :
  inv base g v -> v_dead v = false -> is_open v = true -> g_h g < 2 ^ 20 ->
  (forall i, base i + conn_part (v_state v) i = base' i + conn_part STATE_CLOSE i) ->
  inv base' (cl_g g) (vclosing v).
Proof.
  intros [H1 H2 H3 H4 H4' H5 H6 H7 H8 H9 H10 H11 H12 H13 H14 H15 H17 H16] Hd Hop Hh Hb.
  assert (Hop' : is_open (vclosing v) = false) by (by destruct v).
  split; rewrite ?Hop'; try done; cbn [g_h cl_g]; [lia| | |].
  - rewrite (H11 : v_refs (vclosing v) = _), Hop. change (v_heap (vclosing v)) with (v_heap v). cbn [Z.b2z]. lia.
  - by right.
  - intros i. rewrite (contrib_state STATE_CLOSE v i Hd : contrib (vclosing v) i = _).
    rewrite (H16 i : v_stat (vclosing v) i = _). f_equal. specialize (Hb i). lia.
Qed.

Definition no_ctx (v : view) : view := v <| v_ctx := false |>.
Definition uncl_g (g : ghost) : ghost := mk_g (g_h g) (g_det g) (g_ext g) (g_dc g) false.

Lemma inv_no_ctx base g v : inv base g v -> inv base (uncl_g g) (no_ctx v).
Proof. intros [H1 H2 H3 H4 H4' H5 H6 H7 H8 H9 H10 H11 H12 H13 H14 H15 H17 H16]. split; try done. Qed.

Definition det_g (l : list nat) (g : ghost) : ghost := mk_g (g_h g) l (g_ext g) (g_dc g) (g_cl g).
Definition set_tree (l : list nat) (v : view) : view := v <| v_tree := l |>.

Lemma inv_detach base g v : inv base g v -> g_det g = [] -> inv base (det_g (v_tree v) g) (set_tree [] v).
Proof.
  intros [H1 H2 H3 H4 H4' H5 H6 H7 H8 H9 H10 H11 H12 H13 H14 H15 H17 H16] Hd.
  assert (E : held (det_g (v_tree v) g) (set_tree [] v) = held g v) by (unfold held; rewrite Hd, app_nil_r; by destruct v).
  split; rewrite ?E; done.
Qed.

(** *** A session is closed

    It leaves the tunnel; the two references that kept it become the closing function's. *)

Definition without (a : nat) (l : list nat) : list nat := filter (fun b => b <> a) l.

Lemma elem_of_without a b l : b ∈ without a l <-> b <> a /\ b ∈ l.
Proof. unfold without. by rewrite list_elem_of_filter. Qed.
Lemma without_id a l : a ∉ l -> without a l = l.
Proof.
  unfold without. induction l as [|b l IH]; intros H; [done|]. rewrite not_elem_of_cons in H.
  rewrite filter_cons_True by (intros ->; tauto). f_equal. tauto.
Qed.
Lemma length_without a l : NoDup l -> a ∈ l -> Z.of_nat (length (without a l)) = Z.of_nat (length l) - 1.
Proof.
  induction l as [|b l IH]; intros Hn Ha; [by apply elem_of_nil in Ha|].
  apply NoDup_cons in Hn as [Hb Hn]. destruct (decide (b = a)) as [->|Hne].
  - unfold without at 1. rewrite filter_cons_False by (intros H; by apply H). fold (without a l). rewrite without_id by done. cbn [length]. lia.
  - apply elem_of_cons in Ha as [?|Ha]; [done|]. unfold without at 1. rewrite filter_cons_True by done.
    fold (without a l). cbn [length]. specialize (IH Hn Ha). lia.
Qed.

Definition leave_g (a : nat) (g : ghost) : ghost := mk_g (g_h g) (without a (g_det g)) (a :: a :: g_ext g) (g_dc g + 1) (g_cl g).
Definition shut (s : sv) : sv := s <| v_cls := Closed |> <| v_tmr := false |>.
Definition vleave (a : nat) (v : view) : view := set_links [] (set_tree (without a (v_tree v)) (change shut a v)).

Lemma shut_ok n s : sess_ok true n s -> sess_ok false (n + 2) (shut s).
Proof.
  intros [K1 K2 K3 K4 K5 K6 K7 K8]. destruct s as [i k r o p cl gn tm]. cbn in *. split; cbn; try done; auto.
  - lia.
  - intros H. split; [done|]. by apply K5.
Qed.

Lemma inv_leave base base' g v a s :
  inv base g v -> a ∈ held g v -> v_heap v !! a = Some s ->
  Z.of_nat (length (g_ext g)) < 2 ^ 20 - 1 ->
  (forall i, base i = base' i + swing s (shut s) i) -> inv base' (leave_g a g) (vleave a v).
Proof.
  intros Hv Ha Hs Hlen Hb.
  assert (E : held (leave_g a g) (vleave a v) = without a (held g v)) by (unfold held, without; rewrite filter_app; by destruct v).
  assert (Hlk : forall b, v_heap (vleave a v) !! b = if decide (b = a) then Some (shut s) else v_heap v !! b).
  { intros b. rewrite (lookup_change shut a b v : v_heap (vleave a v) !! b = _). destruct (decide (b = a)) as [->|]; [by rewrite Hs|done]. }
  assert (Hold : forall b t, v_heap (vleave a v) !! b = Some t -> exists t0, v_heap v !! b = Some t0 /\ v_sid t = v_sid t0).
  { intros b t. rewrite Hlk. destruct (decide (b = a)) as [->|]; [|by exists t]. intros [= <-]. by exists s. }
  assert (Hlen' : length (v_heap (vleave a v)) = length (v_heap v)) by (destruct v; apply length_alter).
  assert (Hcnt : cnt alive (v_heap (vleave a v)) = cnt alive (v_heap v)).
  { destruct v. cbn in *. rewrite (cnt_alter _ _ a _ s Hs). change (alive (shut s)) with (alive s). lia. }
  pose proof (i_sess _ _ _ Hv a s Hs) as Hok. rewrite bool_decide_true in Hok by done.
  destruct Hv as [H1 H2 H3 H4 H4' H5 H6 H7 H8 H9 H10 H11 H12 H13 H14 H15 H17 H16].
  split; rewrite ?E, ?Hlen', ?Hcnt; try done.
  - by apply NoDup_filter.
  - intros b Hb'. apply elem_of_without in Hb' as [_ Hb']. by apply H3.
  - intros b c t u Hb1 Hc Et Eu Eq. apply elem_of_without in Hb1 as [_ Hb1], Hc as [_ Hc].
    destruct (Hold _ _ Et) as (t0 & Et0 & E1), (Hold _ _ Eu) as (u0 & Eu0 & E2). apply (H4 b c t0 u0); congruence.
  - intros b t Hb1 Et. apply elem_of_without in Hb1 as [_ Hb1]. destruct (Hold _ _ Et) as (t0 & Et0 & E1). rewrite E1. by apply (H4' b t0).
  - intros b t. rewrite Hlk. cbn [g_ext leave_g]. destruct (decide (b = a)) as [->|Hne].
    + intros [= <-]. rewrite bool_decide_false by (rewrite elem_of_without; tauto). rewrite !times_self.
      replace (times a (g_ext g) + 1 + 1) with (times a (g_ext g) + 2) by lia. by apply shut_ok.
    + rewrite !times_other by done. intros Et. specialize (H5 b t Et).
      rewrite (bool_decide_ext _ (b ∈ held g v)); [done|]. rewrite elem_of_without. tauto.
  - intros b Hb1. cbn in Hb1. apply elem_of_cons in Hb1 as [->|Hb1]; [by apply lookup_lt_Some in Hs|].
    apply elem_of_cons in Hb1 as [->|Hb1]; [by apply lookup_lt_Some in Hs|by apply H6].
  - cbn [g_ext leave_g length]. lia.
  - rewrite (H8 : v_count (vleave a v) = _), (length_without a (held g v) H2 Ha). cbn [g_dc leave_g]. f_equal. lia.
  - cbn. set_solver.
  - intros i. rewrite (contrib_change shut a v s i Hs : contrib (vleave a v) i = _).
    rewrite (H16 i : v_stat (vleave a v) i = _), Hb. f_equal. lia.
Qed.

Definition dc_g (g : ghost) : ghost := mk_g (g_h g) (g_det g) (g_ext g) (g_dc g + 1) (g_cl g).
Definition uncount (v : view) : view := v <| v_count ::= fun n => u32 (n - 1) |>.

Lemma inv_uncount base g v : inv base (dc_g g) v -> inv base g (uncount v).
Proof.
  intros [H1 H2 H3 H4 H4' H5 H6 H7 H8 H9 H10 H11 H12 H13 H14 H15 H17 H16]. split; try done.
  change (u32 (v_count v - 1) = u32 (Z.of_nat (length (held (dc_g g) v)) + g_dc g)). rewrite H8. cbn [g_dc dc_g]. width_lia.
Qed.

(** *** A new session *)

Definition new_sv (i : Z) : sv := mk_sv i Starting 2 false APSTATE_NONE [] false false.
Definition valloc (i : Z) (v : view) : view :=
  up stat_sess_starting (v <| v_heap ::= fun h => h ++ [new_sv i] |> <| v_tree ::= fun l => l ++ [length (v_heap v)] |>
    <| v_count ::= fun n => u32 (n + 1) |> <| v_refs ::= fun n => u32 (n + 1) |>).

Lemma times_none a l : a ∉ l -> times a l = 0.
Proof.
  unfold times. induction l as [|b l IH]; intros H; [done|]. rewrite not_elem_of_cons in H. cbn.
  rewrite (proj2 (Nat.eqb_neq a b)) by tauto. apply IH. tauto.
Qed.

Lemma lookup_new {A} (h : list A) (x : A) b y : (h ++ [x]) !! b = Some y -> h !! b = Some y \/ b = length h /\ y = x.
Proof.
  intros H. apply lookup_app_Some in H as [H|[Hb H]]; [by left|]. right. apply list_lookup_singleton_Some in H as [E <-].
  split; [lia|done].
Qed.

Lemma contrib_alloc i v j : contrib (valloc i v) j = contrib v j + ctr_is stat_sess_starting j.
Proof.
  destruct v as [st tr ct rf dd cx hp lk sa tb uf]. destruct j; try exact (cnt_app _ hp (new_sv i)); symmetry; apply Z.add_0_r.
Qed.

Section Alloc.
Context (base : ctr -> Z) (g : ghost) (v : view) (i : Z).
Hypothesis Hv : inv base g v.
Hypothesis Hdet : g_det g = [].
Hypothesis Hdead : v_dead v = false.
Hypothesis Hi : i <> 0.
Hypothesis Hused : forall a s, a ∈ held g v -> v_heap v !! a = Some s -> v_sid s <> i.
Hypothesis Hmem : cnt alive (v_heap v) < 2 ^ 31.

Lemma alloc_held : held g (valloc i v) = held g v ++ [length (v_heap v)].
Proof using Hdet. unfold held. by rewrite Hdet, !app_nil_r. Qed.

Lemma alloc_lookup a s : v_heap (valloc i v) !! a = Some s ->
  v_heap v !! a = Some s /\ a <> length (v_heap v) \/ a = length (v_heap v) /\ s = new_sv i.
Proof using.
  intros H. change ((v_heap v ++ [new_sv i]) !! a = Some s) in H. apply lookup_new in H as [H|H]; [|by right]. left. split; [done|]. apply lookup_lt_Some in H. lia.
Qed.

Lemma alloc_in a : a ∈ held g (valloc i v) <-> a ∈ held g v \/ a = length (v_heap v).
Proof using Hdet. rewrite alloc_held, elem_of_app, list_elem_of_singleton. done. Qed.

Lemma alloc_held_old a : a ∈ held g v -> a <> length (v_heap v).
Proof using Hv. intros Ha. apply (i_in _ _ _ Hv) in Ha. lia. Qed.

Lemma inv_alloc : inv base g (valloc i v).
Proof using All.
  pose proof alloc_lookup as HL. pose proof alloc_in as HI. pose proof alloc_held_old as HO. pose proof alloc_held as HH.
  assert (Hlen : length (v_heap (valloc i v)) = S (length (v_heap v))) by (change (length (v_heap v ++ [new_sv i]) = S (length (v_heap v))); rewrite length_app; cbn; lia).
  assert (Hcnt : cnt alive (v_heap (valloc i v)) = cnt alive (v_heap v) + 1) by (exact (cnt_app alive (v_heap v) (new_sv i))).
  assert (Hop : is_open (valloc i v) = is_open v) by done.
  pose proof (cnt_nonneg alive (v_heap v)) as Hc0. destruct Hv as [H1 H2 H3 H4 H4' H5 H6 H7 H8 H9 H10 H11 H12 H13 H14 H15 H17 H16].
  assert (Hr : v_refs (valloc i v) = v_refs v + 1).
  { change (u32 (v_refs v + 1) = v_refs v + 1). apply u32_small. width_unfold. rewrite H11. destruct (is_open v); cbn [Z.b2z]; lia. }
  split; rewrite ?Hlen, ?Hcnt, ?Hop, ?Hr; try done; try lia.
  - rewrite HH. apply NoDup_app. split; [done|]. split; [|apply NoDup_singleton]. intros a Ha ->%list_elem_of_singleton. by apply (HO _ Ha).
  - intros a [Ha| ->]%HI; [apply H3 in Ha|]; lia.
  - intros a b s t Ha Hb Es Et E. apply HI in Ha, Hb.
    destruct (HL _ _ Es) as [[Es' ?]|[-> ->]], (HL _ _ Et) as [[Et' ?]|[-> ->]]; try done.
    + apply (H4 a b s t); tauto.
    + destruct Ha as [Ha|]; [|done]. by destruct (Hused a s Ha Es').
    + destruct Hb as [Hb|]; [|done]. by destruct (Hused b t Hb Et').
  - intros a s Ha Es. apply HI in Ha. destruct (HL _ _ Es) as [[Es' ?]|[-> ->]]; [|done]. apply (H4' a s); tauto.
  - intros a s Es. destruct (HL _ _ Es) as [[Es' Hne]|[-> ->]].
    + rewrite (bool_decide_ext _ (a ∈ held g v)) by (rewrite HI; tauto). by apply H5.
    + rewrite bool_decide_true by (rewrite HI; tauto). rewrite times_none by (intros Ha; apply H6 in Ha; lia). split; try done; [by left|by intros ?%elem_of_nil].
  - intros a Ha. apply H6 in Ha. lia.
  - rewrite (eq_refl : v_count (valloc i v) = u32 (v_count v + 1)), H8, HH, length_app. cbn [length]. width_lia.
  - rewrite (eq_refl : v_dead (valloc i v) = v_dead v), Hdead. symmetry. apply Z.eqb_neq. rewrite H11. destruct (is_open v); cbn [Z.b2z]; lia.
  - intros a Ha. apply HI. left. by apply H14.
  - apply (stat_add_ok _ _ _ _ _ H16). intros j. apply contrib_alloc.
Qed.

End Alloc.

(** *** The end *)

Lemma cnt_zero f h : (forall a s, h !! a = Some s -> f s = false) -> cnt f h = 0.
Proof.
  unfold cnt. induction h as [|s h IH]; intros H; [done|]. cbn. rewrite (H 0%nat s eq_refl). apply IH. intros a t Ht. by apply (H (S a)).
Qed.

Lemma all_gone h : cnt alive h = 0 -> forall a s, h !! a = Some s -> v_gone s = true.
Proof.
  intros H a s Hs. destruct (v_gone s) eqn:E; [done|]. assert (Ha : alive s = true) by (unfold alive; by rewrite E).
  pose proof (alive_pos h a s Hs Ha). lia.
Qed.

Lemma gone_sess b s : sess_ok b 0 s -> v_gone s = true -> b = false /\ v_on s = false /\ v_cls s = Closed.
Proof.
  intros [K1 K2 K3 K4 _ _ _ _] Hg. rewrite Hg in K4. symmetry in K4. to_prop. rewrite K4 in K3. destruct b, (v_on s); cbn [Z.b2z] in K3; try lia.
  split; [done|]. split; [done|]. symmetry in K2. by apply negb_false_iff, bool_decide_eq_true in K2.
Qed.

Lemma dead_closed base v : inv base idle v -> (v_dead v = true <-> is_open v = false /\ cnt alive (v_heap v) = 0).
Proof.
  intros Hi. rewrite (i_dead _ _ _ Hi), (i_ref _ _ _ Hi). pose proof (cnt_nonneg alive (v_heap v)). cbn [idle g_h].
  destruct (is_open v); cbn [Z.b2z]; rewrite Z.eqb_eq; split; try lia; try (intros [? ?]; lia); try (intros ?; split; [done|lia]).
Qed.

Lemma contrib_dead base v i : inv base idle v -> v_dead v = true -> contrib v i = 0.
Proof.
  intros Hi Hd. destruct (proj1 (dead_closed _ _ Hi) Hd) as [Ho Hc]. apply negb_false_iff, bool_decide_eq_true in Ho.
  assert (Hall : forall a s, v_heap v !! a = Some s -> v_gone s = true /\ v_on s = false /\ v_cls s = Closed).
  { intros a s Hs. pose proof (all_gone _ Hc a s Hs) as Hg. destruct (gone_sess _ _ (i_sess _ _ _ Hi a s Hs) Hg). tauto. }
  destruct i; cbn [contrib]; rewrite ?Ho, ?Hd; try done; apply cnt_zero; intros a s Hs; destruct (Hall a s Hs) as (E1 & E2 & E3);
    unfold is_cls, ending, is_cls, data_in, alive; rewrite ?E1, ?E2, ?E3; done.
Qed.

End Inv.
