(* ===== verification/L2tpSafe.v ===== *)
(** The theorems on the life of L2TP tunnels and sessions.

    [At base g v w]: the world [w] has the view [v], up to the messages in the send queue, and
    [v] satisfies the invariant of L2tpLife.v.  The functions of L2tpTunnel.v are shown to
    lead from one such world to another; [step] puts them together: the events of a tunnel
    and of the data channels of its sessions, in any order. *)

From stdpp Require Import base tactics list sets numbers option strings.
From Stdlib Require Import ZArith Lia.
From S2P Require Import Prelude CLib Bytes RadDict Hash L2tpPacket L2tpChan L2tpTunnel L2tpView L2tpLife.

Open Scope Z_scope.

Module At.
Import L2tpPacket L2tpChan L2tpTunnel Wp View Quiet Inv.

Record At (base : ctr -> Z) (g : ghost) (v : view) (w : world) : Prop := {
  at_inv : inv base g v;
  at_links : v_links (view_of w) ⊆ held g v;
  at_view : view_of w = set_links (v_links (view_of w)) v }.

Lemma sview_alter_map f F (a : nat) (h : list l2tp_sess_t) :
  (forall s, sview (f s) = F (sview s)) -> sview <$> alter f a h = alter F a (sview <$> h).
Proof.
  intros Hf. apply list_eq. intros i. rewrite list_lookup_fmap. destruct (decide (i = a)) as [->|Hne].
  - rewrite !list_lookup_alter_eq, list_lookup_fmap. destruct (h !! a); [|done]. cbn. by rewrite Hf.
  - by rewrite !list_lookup_alter_ne, list_lookup_fmap.
Qed.

Lemma view_sset w a f F :
  (forall s, sview (f s) = F (sview s)) -> s_freed (sess_at a w) = false -> view_of (exec (sset a f) w) = change F a (view_of w).
Proof. intros Hf Hg. unfold exec, sset. cbn. rewrite Hg. destruct w. cbn. unfold view_of, change. cbn. by rewrite (sview_alter_map f F). Qed.

Section Rules.
Context {base : ctr -> Z} {g : ghost} {v : view} {w : world}.
Hypothesis HA : At base g v w.

Lemma at_freed : c_freed (conn w) = v_dead v.
Proof using HA. change (v_dead (view_of w) = v_dead v). by rewrite (at_view _ _ _ _ HA). Qed.
Lemma at_state : state (conn w) = v_state v.
Proof using HA. change (v_state (view_of w) = v_state v). by rewrite (at_view _ _ _ _ HA). Qed.
Lemma at_tree : sessions (conn w) = v_tree v.
Proof using HA. change (v_tree (view_of w) = v_tree v). by rewrite (at_view _ _ _ _ HA). Qed.
Lemma at_count : sess_count (conn w) = v_count v.
Proof using HA. change (v_count (view_of w) = v_count v). by rewrite (at_view _ _ _ _ HA). Qed.
Lemma at_ctx : ctx_on (conn w) = v_ctx v.
Proof using HA. change (v_ctx (view_of w) = v_ctx v). by rewrite (at_view _ _ _ _ HA). Qed.
Lemma at_heap : sview <$> heap w = v_heap v.
Proof using HA. change (v_heap (view_of w) = v_heap v). by rewrite (at_view _ _ _ _ HA). Qed.
Lemma at_sess a s : v_heap v !! a = Some s -> sview (sess_at a w) = s.
Proof using HA.
  rewrite <- at_heap, list_lookup_fmap. unfold sess_at. destruct (heap w !! a); [|done]. by intros [= <-].
Qed.
Lemma at_gone a : s_freed (sess_at a w) = gone v a.
Proof using HA. rewrite gone_freed, (at_view _ _ _ _ HA). done. Qed.

Lemma wp_cget {A} (f : l2tp_conn_t -> A) Q : v_dead v = false -> Q (f (conn w)) w -> wp (cget f) Q w.
Proof using HA. intros Hd HQ. unfold wp, val, exec, cget. cbn. rewrite at_freed, Hd. exact HQ. Qed.
Lemma wp_sget {A} a (f : l2tp_sess_t -> A) Q : gone v a = false -> Q (f (sess_at a w)) w -> wp (sget a f) Q w.
Proof using HA. intros Hd HQ. unfold wp, val, exec, sget. cbn. rewrite at_gone, Hd. exact HQ. Qed.

(** A quiet function stays at the view. *)
Lemma wp_quiet_val {A} L (m : M A) Q :
  quiet L m -> v_dead v = false -> L ⊆ held g v -> (forall w', At base g v w' -> Q (val m w) w') -> wp m Q w.
Proof using HA.
  intros Hm Hd HL HQ. apply HQ. destruct (Hm w) as (l & Hl & E).
  - split; [by rewrite at_freed|]. intros a Ha. rewrite <- gone_freed, at_gone.
    apply (inv_gone base g v (at_inv _ _ _ _ HA)). left. by apply HL.
  - split; [apply HA| |].
    + rewrite E. cbn. pose proof (at_links _ _ _ _ HA). set_solver.
    + rewrite E. cbn. rewrite (at_view _ _ _ _ HA). done.
Qed.

Lemma wp_quiet {A} L (m : M A) Q :
  quiet L m -> v_dead v = false -> L ⊆ held g v -> (forall r w', At base g v w' -> Q r w') -> wp m Q w.
Proof using HA. intros Hm Hd HL HQ. eapply wp_quiet_val; eauto. Qed.

(** A function that changes the view as [F] does. *)
Lemma at_map base' g' F w' :
  view_of w' = F (view_of w) -> (forall l, F (set_links l v) = set_links l (F v)) ->
  inv base' g' (F v) -> held g v ⊆ held g' (F v) -> At base' g' (F v) w'.
Proof using HA.
  intros E HF Hi Hh. rewrite (at_view _ _ _ _ HA), HF in E. split; [done| |].
  - rewrite E. cbn. pose proof (at_links _ _ _ _ HA). set_solver.
  - rewrite E. done.
Qed.

Lemma wp_cset base' g' f F Q :
  v_dead v = false -> (forall c, view_of (w <| conn := c |> <| conn ::= f |>) = F (view_of (w <| conn := c |>))) ->
  (forall l, F (set_links l v) = set_links l (F v)) -> inv base' g' (F v) -> held g v ⊆ held g' (F v) ->
  (forall w', At base' g' (F v) w' -> Q tt w') -> wp (cset f) Q w.
Proof using HA.
  intros Hd Hf HF Hi Hh HQ. unfold wp. change (val (cset f) w) with tt. apply HQ. eapply at_map; try done.
  unfold exec, cset. cbn. rewrite at_freed, Hd. specialize (Hf (conn w)). by destruct w.
Qed.

Lemma wp_sset base' g' a f F Q :
  gone v a = false -> (forall s, sview (f s) = F (sview s)) -> inv base' g' (change F a v) -> held g v ⊆ held g' v ->
  (forall w', At base' g' (change F a v) w' -> Q tt w') -> wp (sset a f) Q w.
Proof using HA.
  intros Hg Hf Hi Hh HQ. unfold wp. change (val (sset a f) w) with tt. apply HQ. apply at_map; try done.
  apply view_sset; [done|]. by rewrite at_gone.
Qed.

Lemma wp_add i Q : (forall w', At (bump i 1 base) g (up i v) w' -> Q tt w') -> wp (stat_add i) Q w.
Proof using HA. intros HQ. unfold wp. change (val (stat_add i) w) with tt. apply HQ. apply at_map; try done. by apply inv_up, HA. Qed.
Lemma wp_sub i Q : (forall w', At (bump i (-1) base) g (down i v) w' -> Q tt w') -> wp (stat_sub i) Q w.
Proof using HA. intros HQ. unfold wp. change (val (stat_sub i) w) with tt. apply HQ. apply at_map; try done. by apply inv_down, HA. Qed.

End Rules.

Lemma wp_move {base g v w} (HA : At base g v w) i j Q :
  (forall w', At (bump j 1 (bump i (-1) base)) g (up j (down i v)) w' -> Q tt w') -> wp (stat_move i j) Q w.
Proof. intros HQ. apply wp_bind, (wp_sub HA). intros w1 H1. by apply (wp_add H1). Qed.

(** *** References *)

Lemma view_tunnel_put w : c_freed (conn w) = false -> view_of (exec tunnel_put w) = vput_conn (view_of w).
Proof.
  intros H. unfold tunnel_put, tunnel_destroy, stat_sub, cset, cget, modify, skip, exec, mbind, st_bind, mret, st_ret. cbn.
  rewrite H. destruct w as [[] h st tb o dr uf df u]. cbn in *. subst. unfold vput_conn, view_of. cbn.
  destruct (u32 _ =? 0); reflexivity.
Qed.

Lemma exec_cset w f : c_freed (conn w) = false -> exec (cset f) w = w <| conn ::= f |>.
Proof. intros H. unfold exec, cset. cbn. by rewrite H. Qed.
Lemma exec_sset w a f : s_freed (sess_at a w) = false -> exec (sset a f) w = w <| heap ::= alter f a |>.
Proof. intros H. unfold exec, sset. cbn. by rewrite H. Qed.
Lemma exec_sget {A} w a (f : l2tp_sess_t -> A) : s_freed (sess_at a w) = false -> exec (sget a f) w = w.
Proof. intros H. unfold exec, sget. cbn. by rewrite H. Qed.

Lemma view_session_put w a :
  c_freed (conn w) = false -> gone (view_of w) a = false -> view_of (exec (session_put a) w) = vput a (view_of w).
Proof.
  intros Hc Hg. unfold session_put. rewrite exec_bind. set (f := fun s : l2tp_sess_t => s <| s_ref_count ::= fun n => u32 (n - 1) |>).
  assert (E : view_of (exec (sset a f) w) = change (add_ref (-1)) a (view_of w)).
  { apply view_sset; [by intros []|]. by rewrite gone_freed. }
  set (w1 := exec (sset a f) w) in *. clearbody w1.
  assert (Hg1 : gone (view_of w1) a = false).
  { rewrite E. unfold gone in *. rewrite lookup_change, decide_True by done. by destruct (v_heap (view_of w) !! a). }
  assert (Hc1 : c_freed (conn w1) = false) by (change (v_dead (view_of w1) = false); by rewrite E).
  rewrite exec_bind, exec_sget by (by rewrite gone_freed). change (val (sget a s_ref_count) w1) with (s_ref_count (sess_at a w1)).
  assert (Er : s_ref_count (sess_at a w1) = ref_of a (change (add_ref (-1)) a (view_of w))).
  { rewrite <- E. unfold ref_of, sess_at, view_of. cbn. rewrite list_lookup_fmap. unfold gone, view_of in Hg1. cbn in Hg1.
    rewrite list_lookup_fmap in Hg1. by destruct (heap w1 !! a). }
  rewrite Er. unfold vput. destruct (_ =? 0); [|exact E]. unfold session_destroy. rewrite !exec_bind.
  rewrite view_tunnel_put.
  - f_equal. etransitivity; [|apply (f_equal (fun v => down stat_sess_finishing (change mark_gone a v)) E)].
    change (down stat_sess_finishing (view_of (exec (sset a (fun s => s <| s_fd := false |> <| s_freed := true |>)) w1))
            = down stat_sess_finishing (change mark_gone a (view_of w1))).
    f_equal. apply view_sset; [by intros []|]. by rewrite gone_freed.
  - unfold exec, sset, stat_sub, modify. cbn. rewrite gone_freed, Hg1. done.
Qed.

Lemma wp_tunnel_put {base g v w} (HA : At base (with_h (g_h g + 1) g) v w) Q :
  0 <= g_h g -> (forall w', At base g (vput_conn v) w' -> Q tt w') -> wp tunnel_put Q w.
Proof.
  intros Hh HQ. assert (Hd : v_dead v = false) by (apply (inv_not_dead _ _ _ (at_inv _ _ _ _ HA)); left; cbn; lia).
  unfold wp. destruct (val tunnel_put w). apply HQ. apply (at_map HA).
  - apply view_tunnel_put. by rewrite (at_freed HA).
  - intros l. destruct v. unfold vput_conn. cbn. by destruct (_ =? 0).
  - by apply inv_put_conn; [apply HA|].
  - assert (E : v_tree (vput_conn v) = v_tree v) by (unfold vput_conn; by destruct (_ =? 0)). unfold held. rewrite E. done.
Qed.

Lemma vput_tree a v : v_tree (vput a v) = v_tree v.
Proof. unfold vput, vput_conn. destruct (_ =? 0); [|done]. by destruct (_ =? 0). Qed.
Lemma vput_state a v : v_state (vput a v) = v_state v.
Proof. unfold vput, vput_conn. destruct (_ =? 0); [|done]. by destruct (_ =? 0). Qed.
Lemma vput_ctx a v : v_ctx (vput a v) = v_ctx v.
Proof. unfold vput, vput_conn. destruct (_ =? 0); [|done]. by destruct (_ =? 0). Qed.

Lemma wp_session_put {base g v w a} (HA : At base (hold_g a g) v w) Q :
  g_h g < 2 ^ 20 -> (forall w', At base g (vput a v) w' -> Q tt w') -> wp (session_put a) Q w.
Proof.
  intros Hh HQ. assert (Ha : a ∈ held (hold_g a g) v \/ a ∈ g_ext (hold_g a g)) by (right; by left).
  pose proof (inv_held_not_dead _ _ _ (at_inv _ _ _ _ HA) a Ha) as Hd. pose proof (inv_gone _ _ _ (at_inv _ _ _ _ HA) a Ha) as Hg.
  unfold wp. destruct (val _ w). apply HQ. apply (at_map HA).
  - apply view_session_put; [by rewrite (at_freed HA)|]. by rewrite <- gone_freed, (at_gone HA).
  - intros l. destruct v. unfold vput, vput_conn, ref_of. cbn. destruct (match _ with Some _ => _ | None => _ end =? 0); [|done]. by destruct (_ =? 0).
  - by apply inv_put; [apply HA|].
  - unfold held. rewrite vput_tree. done.
Qed.

Lemma wp_tunnel_hold {base g v w} (HA : At base g v w) Q :
  v_dead v = false -> g_h g < 2 ^ 20 -> (forall w', At base (with_h (g_h g + 1) g) (vhold_conn v) w' -> Q tt w') -> wp tunnel_hold Q w.
Proof.
  intros Hd Hh HQ. eapply (wp_cset HA base (with_h (g_h g + 1) g) _ vhold_conn); [done|by intros []|done| |done|exact HQ]. apply inv_hold_conn; [apply HA|done..].
Qed.

Lemma wp_session_hold {base g v w a s} (HA : At base g v w) Q :
  v_heap v !! a = Some s -> v_gone s = false -> Z.of_nat (length (g_ext g)) < 2 ^ 20 ->
  (forall w', At base (hold_g a g) (vhold a v) w' -> Q tt w') -> wp (session_hold a) Q w.
Proof.
  intros Hs Hg Hl HQ. eapply (wp_sset HA base (hold_g a g) a _ (add_ref 1)); [|by intros []| |done|exact HQ].
  - unfold gone. by rewrite Hs.
  - apply (inv_hold base g v a s); [apply HA|done..].
Qed.

End At.

(** ** Sessions and tunnels are freed *)

Module Free.
Import L2tpPacket L2tpChan L2tpTunnel Wp View Quiet Inv At.

Definition push_call (f : apcall) (s : sv) : sv := s <| v_calls ::= fun l => l ++ [f] |>.

Lemma sess_push_ok b n s f : sess_ok b n s -> v_on s = true -> (f = ApDestroy -> v_ap s = APSTATE_FINISHING) -> sess_ok b n (push_call f s).
Proof.
  intros [K1 K2 K3 K4 K5 K6 K7 K8] Ho Hf. destruct s. cbn in *. split; cbn; try done.
  - rewrite Ho. done.
  - intros H. apply elem_of_app in H as [H|H]; [by apply K7|]. apply list_elem_of_singleton in H. by apply Hf.
Qed.

(** Queued messages lose the session. *)
Lemma unlink_links a l : omap q_sess (unlink a <$> l) = without a (omap q_sess l).
Proof.
  unfold without. induction l as [|q l IH]; [done|]. cbn. rewrite IH. unfold unlink, of_sess. destruct (q_sess q) as [b|] eqn:E.
  - case_bool_decide as Hb; cbn.
    + injection Hb as ->. rewrite decide_False by (intros H; by apply H). done.
    + rewrite E, decide_True by congruence. done.
  - rewrite bool_decide_false by done. by rewrite E.
Qed.

(** The session is closed and taken out of the tunnel. *)
Definition close (a : nat) (K : M unit) : M unit :=
  sset a (fun s => s <| state1 := STATE_CLOSE |> <| s_timeout := false |>) ;;
  on_chn (fun c => set_send (unlink a <$> send_queue c) c) ;;
  l ← cget sessions;
  if (negb (length l =? 0)%nat) && negb (bool_decide (a ∈ l)) then skip
  else cset (fun c => c <| sessions ::= filter (fun b => b <> a) |>) ;; K.

Lemma wp_close {base0 base g v w a s} (HA : At base0 g v w) K Q :
  a ∈ held g v -> v_heap v !! a = Some s -> v_tree v = [] \/ a ∈ v_tree v -> Z.of_nat (length (g_ext g)) < 2 ^ 20 - 1 ->
  (forall i, base0 i = base i + swing s (shut s) i) ->
  (forall w', At base (leave_g a g) (vleave a v) w' -> wp K Q w') -> wp (close a K) Q w.
Proof.
  intros Ha Hs Ht Hl Hb HQ. pose proof (inv_gone _ _ _ (at_inv _ _ _ _ HA) a (or_introl Ha)) as Hg.
  pose proof (inv_held_not_dead _ _ _ (at_inv _ _ _ _ HA) a (or_introl Ha)) as Hd.
  apply wp_bind. set (f := fun s0 : l2tp_sess_t => s0 <| state1 := STATE_CLOSE |> <| s_timeout := false |>).
  assert (E : view_of (exec (sset a f) w) = change shut a (view_of w)) by (apply view_sset; [by intros []|by rewrite (at_gone HA)]).
  unfold wp at 1. set (w1 := exec (sset a f) w) in *. clearbody w1. rewrite (at_view _ _ _ _ HA) in E.
  assert (Hc1 : c_freed (conn w1) = false) by (change (v_dead (view_of w1) = false); by rewrite E).
  assert (Ht1 : sessions (conn w1) = v_tree v) by (change (v_tree (view_of w1) = v_tree v); by rewrite E).
  assert (Hk1 : links (conn w1) = v_links (view_of w)) by (change (v_links (view_of w1) = v_links (view_of w)); by rewrite E).
  assert (Hx : (negb (length (v_tree v) =? 0)%nat) && negb (bool_decide (a ∈ v_tree v)) = false).
  { destruct Ht as [->|Ht]; [done|]. rewrite bool_decide_true by done. by rewrite andb_false_r. }
  set (f1 := fun c : l2tp_conn_t => c <| chn ::= fun c => set_send (unlink a <$> send_queue c) c |>).
  set (f2 := fun c : l2tp_conn_t => c <| sessions ::= filter (fun b => b <> a) |>).
  assert (Hfin : wp K Q (w1 <| conn := f2 (f1 (conn w1)) |>)).
  { apply HQ. split; [by apply (inv_leave base0 base g v a s); [apply HA|..]| |].
    - assert (El : links (f1 (conn w1)) = without a (links (conn w1))) by apply unlink_links.
      intros b Hin. assert (Hin' : b ∈ without a (links (conn w1))) by (rewrite <- El; by destruct w1 as [[]]).
      rewrite Hk1 in Hin'. apply elem_of_without in Hin' as [Hne Hin']. pose proof (at_links _ _ _ _ HA b Hin') as Hh. unfold held in *. cbn.
      apply elem_of_app in Hh. rewrite elem_of_app, !elem_of_without. tauto.
    - set (l := v_links _). assert (E2 : view_of (w1 <| conn := f2 (f1 (conn w1)) |>) = set_links l (set_tree (without a (v_tree (view_of w1))) (view_of w1)))
        by (by destruct w1 as [[]]).
      rewrite E2, E. by destruct v. }
  revert Hfin. unfold wp, on_chn, cset, cget, val, exec, mbind, st_bind. destruct w1 as [[]]. cbn in *. subst. rewrite Hx. cbn. done.
Qed.

Section Sys.
Context (sys : nat -> bool).

Lemma wp_call_apses {base g v w a s} (HA : At base g v w) f Q :
  v_heap v !! a = Some s -> v_on s = true -> (f = ApDestroy -> v_ap s = APSTATE_FINISHING) ->
  (forall r w' v', v' = v \/ v' = change (push_call f) a v -> At base g v' w' -> Q r w') -> wp (call_apses sys a f) Q w.
Proof.
  intros Hs Ho Hf HQ. pose proof (at_inv _ _ _ _ HA) as Hi. pose proof (inv_alive _ _ _ Hi a s Hs) as Hg.
  assert (Hd : v_dead v = false).
  { apply (inv_not_dead _ _ _ Hi). right. right. apply (alive_pos _ a s Hs). unfold alive. rewrite Hg by tauto. done. }
  unfold call_apses. apply wp_bind, (wp_quiet HA [] (ok sys)); [apply quiet_ok|done|set_solver|]. intros b w1 H1.
  destruct b; cbn [negb]; [|by apply wp_ret, (HQ _ _ v); [left|]].
  apply wp_bind. eapply (wp_sset H1 base g a _ (push_call f)); [|by intros []| |done|].
  - unfold gone. rewrite Hs. tauto.
  - apply (inv_upd base base g v a s); try done; [intros Hok; by apply sess_push_ok|]. intros i. rewrite swing_same by done. lia.
  - intros w2 H2. apply wp_ret, (HQ _ _ _ (or_intror eq_refl) H2).
Qed.

Lemma held_cls base g v a s : inv base g v -> a ∈ held g v -> v_heap v !! a = Some s -> v_cls s = Starting \/ v_cls s = Active.
Proof.
  intros Hi Ha Hs. destruct (i_sess _ _ _ Hi a s Hs) as [K1 K2 _ _ _ _ _ _]. rewrite bool_decide_true in K2 by done.
  destruct K1 as [?|[?|K1]]; [by left|by right|]. unfold is_cls in K2. rewrite K1 in K2. done.
Qed.

Lemma swing_shut s i : v_gone s = false ->
  swing s (shut s) i = match v_cls s with
    | Starting => ctr_is stat_sess_finishing i - ctr_is stat_sess_starting i
    | Active => ctr_is stat_sess_finishing i - ctr_is stat_sess_active i
    | Closed => 0
    | _ => ctr_is stat_sess_finishing i
    end.
Proof. destruct s as [? k ? o p ? gn ?]. cbn. intros ->. destruct i, k; first [reflexivity | exact (Z.sub_diag _)]. Qed.

Lemma wp_session_leave {base g v w a s} (HA : At base g v w) Q :
  a ∈ held g v -> v_heap v !! a = Some s ->
  (forall base1 v1 s1 w1, At base1 g v1 w1 -> v_heap v1 !! a = Some s1 -> (forall i, base1 i = base i + swing s1 (shut s1) i) ->
    v_tree v1 = v_tree v -> v_state v1 = v_state v -> v_ctx v1 = v_ctx v -> Q true w1) ->
  wp (session_leave sys a) Q w.
Proof.
  intros Ha Hs HQ. pose proof (at_inv _ _ _ _ HA) as Hi. pose proof (inv_gone _ _ _ Hi a (or_introl Ha)) as Hg.
  pose proof (inv_alive _ _ _ Hi a s Hs (or_introl Ha)) as Hg'.
  pose proof (inv_held_not_dead _ _ _ Hi a (or_introl Ha)) as Hd.
  unfold session_leave. apply wp_bind, (wp_sget HA); [done|].
  assert (Hc : sess_cls (state1 (sess_at a w)) = v_cls s) by (by rewrite <- (at_sess HA a s Hs)).
  destruct (held_cls _ _ _ _ _ Hi Ha Hs) as [Ek|Ek]; rewrite Ek in Hc; destruct (state1 (sess_at a w)); try done.
  1-5: apply wp_bind, (wp_move HA); intros w1 H1; apply wp_ret; eapply (HQ _ _ s w1 H1); try done;
    intros i; rewrite (swing_shut s i Hg'), Ek; unfold bump; lia.
  apply wp_bind, (wp_quiet HA [] (emit _)); [apply quiet_emit|done|set_solver|]. intros _ w0 H0.
  apply wp_bind, (wp_move H0). intros w1 H1. apply wp_bind, (wp_sget H1); [done|].
  assert (Eb : forall i, bump stat_sess_finishing 1 (bump stat_sess_active (-1) base) i = base i + swing s (shut s) i)
    by (intros i; rewrite (swing_shut s i Hg'), Ek; unfold bump; lia).
  assert (Eo : apses_on (sess_at a w1) = v_on s) by (by rewrite <- (at_sess H1 a s Hs)). rewrite Eo.
  destruct (v_on s) eqn:Eon; [|by apply wp_bind, wp_skip, wp_ret, (HQ _ _ s w1 H1)].
  apply wp_bind, wp_bind, (wp_call_apses H1 ApStop _ Hs); [done..|]. intros r w2 v2 [->| ->] H2; apply wp_skip, wp_ret; [by apply (HQ _ _ s w2 H2)|].
  eapply (HQ _ _ (push_call ApStop s) w2 H2); try done.
  rewrite lookup_change, decide_True by done. by rewrite (Hs : v_heap (up _ (down _ v)) !! a = Some s).
Qed.

Definition out_g (a : nat) (g : ghost) : ghost := mk_g (g_h g) (without a (g_det g)) (g_ext g) (g_dc g) (g_cl g).

(** What a run says of the tunnel at its end. *)
Definition ends (base : ctr -> Z) (g : ghost) (R : st_t -> list nat -> bool -> Prop) (w : world) : Prop :=
  exists v, At base g v w /\ R (v_state v) (v_tree v) (v_ctx v).

Lemma ends_at base g R v w : At base g v w -> R (v_state v) (v_tree v) (v_ctx v) -> ends base g R w.
Proof. intros H1 H2. by exists v. Qed.

Lemma wp_last_put {base g R a w} : ends base (hold_g a g) R w -> g_h g < 2 ^ 20 -> wp (session_put a) (fun _ => ends base g R) w.
Proof.
  intros (v & HA & HR) Hh. apply (wp_session_put HA); [done|]. intros w' H'. exists (vput a v). by rewrite vput_state, vput_tree, vput_ctx.
Qed.

Lemma wp_drop_empty {base g v w a} (HA : At base (hold_g a (dc_g g)) v w) disc R :
  (v_state v = STATE_ESTB -> forall v1 w1, At base (hold_g a g) v1 w1 ->
    v_state v1 = v_state v -> v_tree v1 = v_tree v -> v_ctx v1 = v_ctx v -> wp disc (fun _ => ends base (hold_g a g) R) w1) ->
  R (v_state v) (v_tree v) (v_ctx v) -> wp (drop_empty disc a) (fun _ => ends base (hold_g a g) R) w.
Proof.
  intros Hdisc HR. assert (Ha : a ∈ held (hold_g a (dc_g g)) v \/ a ∈ g_ext (hold_g a (dc_g g))) by (right; by left).
  pose proof (inv_held_not_dead _ _ _ (at_inv _ _ _ _ HA) a Ha) as Hd. pose proof (inv_gone _ _ _ (at_inv _ _ _ _ HA) a Ha) as Hg.
  unfold drop_empty. apply wp_bind, (wp_sget HA); [done|].
  apply wp_bind. eapply (wp_cset HA base (hold_g a g) _ uncount); [done|by intros []|done|by apply inv_uncount, HA|done|]. intros w1 H1.
  apply wp_bind, (wp_cget H1); [done|]. destruct (negb _); [by apply wp_skip, (ends_at _ _ _ _ _ H1)|].
  apply wp_bind, (wp_cget H1); [done|]. rewrite (at_state H1). unfold is_st. case_bool_decide as Es; [|by apply wp_skip, (ends_at _ _ _ _ _ H1)].
  by apply (Hdisc Es _ _ H1).
Qed.

Lemma wp_session_free_with {base g v w a} (HA : At base g v w) disc R :
  a ∈ held g v -> v_tree v = [] \/ a ∈ v_tree v -> g_h g < 2 ^ 20 -> Z.of_nat (length (g_ext g)) < 2 ^ 20 - 1 ->
  (v_state v = STATE_ESTB -> forall v1 w1, At base (hold_g a (out_g a g)) v1 w1 ->
    v_state v1 = v_state v -> v_tree v1 = without a (v_tree v) -> v_ctx v1 = v_ctx v ->
    wp disc (fun _ => ends base (hold_g a (out_g a g)) R) w1) ->
  R (v_state v) (without a (v_tree v)) (v_ctx v) ->
  wp (session_free_with sys disc a) (fun _ => ends base (out_g a g) R) w.
Proof.
  intros Ha Ht Hh Hl Hdisc HR. destruct (inv_lookup _ _ _ (at_inv _ _ _ _ HA) a (or_introl Ha)) as [s Hs].
  unfold session_free_with. apply wp_bind, (wp_session_leave HA _ Ha Hs). intros base1 v1 s1 w1 H1 Hs1 Hb1 Et Es Ec. cbn [negb].
  eapply (wp_close H1 (a := a)); [unfold held; by rewrite Et|exact Hs1|by rewrite Et|done|exact Hb1|]. intros w2 H2.
  change (leave_g a g) with (hold_g a (hold_g a (dc_g (out_g a g)))) in H2.
  apply wp_bind, (wp_session_put H2); [done|]. intros w3 H3. set (v3 := vput a (vleave a v1)) in *.
  assert (E3 : v_state v3 = v_state v /\ v_tree v3 = without a (v_tree v) /\ v_ctx v3 = v_ctx v).
  { unfold v3. rewrite vput_state, vput_tree, vput_ctx, <- Et, <- Es, <- Ec. done. }
  destruct E3 as (E1 & E2 & E3). clearbody v3. rewrite <- E1, <- E2, <- E3 in HR.
  apply wp_bind. eapply wp_mono; [apply (wp_drop_empty H3 disc R); [|done]|].
  - intros Ee v4 w4 H4 F1 F2 F3. apply (Hdisc (eq_trans (eq_sym E1) Ee) v4 w4 H4); congruence.
  - intros r w4 H4. by apply wp_last_put.
Qed.

(** Room for more references. *)
Definition room (n : Z) (g : ghost) : Prop := g_h g + n <= 2 ^ 20 /\ Z.of_nat (length (g_ext g)) + n <= 2 ^ 20.

(** Something keeps the tunnel. *)
Definition kept (g : ghost) (v : view) : Prop := 0 < g_h g \/ g_ext g <> [] \/ v_state v <> STATE_CLOSE.

Lemma at_kept {base g v w} (HA : At base g v w) : kept g v -> v_dead v = false.
Proof.
  pose proof (at_inv _ _ _ _ HA) as Hi. intros [H|[H|H]].
  - apply (inv_not_dead _ _ _ Hi). by left.
  - destruct (g_ext g) as [|a l] eqn:E; [done|]. apply (inv_held_not_dead _ _ _ Hi a). right. rewrite E. by left.
  - apply (inv_not_dead _ _ _ Hi). right. left. unfold is_open, is_st. by rewrite bool_decide_false.
Qed.

Lemma wp_session_free_closing {base g v w a} (HA : At base g v w) :
  a ∈ held g v -> v_tree v = [] -> v_state v <> STATE_ESTB -> room 2 g ->
  wp (session_free_closing sys a) (fun _ => ends base (out_g a g) (fun st tr cx => st = v_state v /\ tr = [] /\ cx = v_ctx v)) w.
Proof.
  intros Ha Ht Hs [Hr1 Hr2]. apply (wp_session_free_with HA); [done|by left|lia|lia|done|]. by rewrite Ht.
Qed.

Lemma wp_free_loop base g l : room 2 g -> forall v w, At base (det_g l g) v w -> v_tree v = [] -> v_state v <> STATE_ESTB ->
  wp (iter_st l (session_free_closing sys)) (fun _ => ends base (det_g [] g) (fun st tr cx => st = v_state v /\ tr = [] /\ cx = v_ctx v)) w.
Proof.
  intros Hr. induction l as [|a l IH]; intros v w HA Ht Hs; cbn [iter_st].
  - apply wp_ret. by exists v.
  - assert (Hn : NoDup (held (det_g (a :: l) g) v)) by apply HA.
    assert (E : out_g a (det_g (a :: l) g) = det_g l g).
    { unfold out_g, det_g. cbn -[without]. f_equal. unfold held in Hn. rewrite Ht in Hn. cbn in Hn. apply NoDup_cons in Hn as [Hn _].
      unfold without. rewrite filter_cons_False by (intros H; by apply H). by apply without_id. }
    apply wp_bind. eapply wp_mono; [apply (wp_session_free_closing HA); try done|].
    + unfold held. rewrite Ht. by left.
    + rewrite E. intros r w1 (v1 & H1 & E1 & E2 & E3). rewrite <- E1, <- E3. apply IH; try done. congruence.
Qed.

Lemma det_nil g : g_det g = [] -> det_g [] g = g.
Proof. destruct g. cbn. by intros ->. Qed.

Lemma wp_free_sessions {base g v w} (HA : At base g v w) :
  g_det g = [] -> v_dead v = false -> v_state v <> STATE_ESTB -> room 2 g ->
  wp (l2tp_tunnel_free_sessions sys) (fun _ => ends base g (fun st tr cx => st = v_state v /\ tr = [] /\ cx = v_ctx v)) w.
Proof.
  intros Hg Hd Hs Hr. unfold l2tp_tunnel_free_sessions, free_sessions_with. apply wp_bind, (wp_cget HA); [done|].
  rewrite (at_tree HA). apply wp_bind.
  eapply (wp_cset HA base (det_g (v_tree v) g) _ (set_tree [])); [done|by intros []|done|by apply inv_detach; [apply HA|]| |].
  - unfold held. rewrite Hg, app_nil_r. done.
  - intros w1 H1. rewrite <- (det_nil g Hg). by apply (wp_free_loop base g (v_tree v) Hr (set_tree [] v) w1 H1).
Qed.

Lemma wp_conn_leave {base g v w} (HA : At base g v w) s Q :
  conn_cls s = Starting \/ conn_cls s = Active \/ conn_cls s = Finishing ->
  (forall base1 v1 w1, At base1 g v1 w1 -> (forall i, base1 i + conn_part s i = base i + ctr_is stat_conn_finishing i) ->
    v_dead v1 = v_dead v -> v_state v1 = v_state v -> v_tree v1 = v_tree v -> v_ctx v1 = v_ctx v -> Q tt w1) ->
  wp (conn_leave s) Q w.
Proof.
  intros Hs HQ. destruct s; cbn [conn_leave]; try (exfalso; cbn in Hs; naive_solver).
  1-4: apply (wp_move HA); intros w1 H1; eapply (HQ _ _ w1 H1); try done; intros i; unfold bump, conn_part; cbn [conn_cls]; lia.
  all: apply wp_skip; eapply (HQ _ _ w HA); try done; intros i; unfold conn_part; cbn [conn_cls]; lia.
Qed.

Lemma wp_closing {base base' g v w} (HA : At base g v w) (K : M unit) Q :
  v_dead v = false -> is_open v = true -> g_h g < 2 ^ 20 ->
  (forall i, base i + conn_part (v_state v) i = base' i + ctr_is stat_conn_finishing i) ->
  (forall w', At base' (cl_g g) (vclosing v) w' -> wp K Q w') ->
  wp (cset (fun c => c <| state := STATE_CLOSE |>) ;; modify (fun w => w <| in_table := false |>) ;; K) Q w.
Proof.
  intros Hd Ho Hh Hb HQ. apply wp_bind. unfold wp at 1. apply wp_bind. unfold wp at 1. apply HQ.
  apply (at_map HA base' (cl_g g) vclosing); [|done|exact (inv_closing base base' g v (at_inv _ _ _ _ HA) Hd Ho Hh Hb)|done].
  rewrite exec_cset by (by rewrite (at_freed HA)). by destruct w as [[]].
Qed.

Definition closed (st : st_t) (tr : list nat) (cx : bool) : Prop := st = STATE_CLOSE.

Lemma wp_tunnel_free {base g v w} (HA : At base g v w) :
  g_det g = [] -> g_cl g = false -> v_dead v = false -> room 3 g -> wp (l2tp_tunnel_free sys) (fun _ => ends base g closed) w.
Proof.
  intros Hg Hcl Hd [Hr1 Hr2]. pose proof (at_inv _ _ _ _ HA) as Hi. unfold l2tp_tunnel_free, tunnel_free_with.
  apply wp_bind, (wp_cget HA); [done|]. rewrite (at_state HA).
  destruct (decide (v_state v = STATE_CLOSE)) as [E|Ho]; [rewrite E; by apply wp_skip, (ends_at _ _ _ v)|].
  pose proof (i_state _ _ _ Hi) as Hst.
  assert (Hop : is_open v = true) by (unfold is_open, is_st; by rewrite bool_decide_false).
  assert (Hc : conn_cls (v_state v) = Starting \/ conn_cls (v_state v) = Active \/ conn_cls (v_state v) = Finishing)
    by (destruct (v_state v); cbn in *; tauto).
  match goal with |- wp (match _ with STATE_INIT => ?m | _ => _ end) _ _ => assert (Hm : wp m (fun _ => ends base g closed) w) end.
  2:{ destruct (v_state v); try done; by destruct Hst. }
  apply wp_bind, (wp_conn_leave HA _ _ Hc). intros base1 v1 w1 H1 Hb1 Ed1 Es1 Et1 Ec1.
  apply (wp_closing (base' := base) H1); [congruence|unfold is_open; by rewrite Es1|lia|by rewrite Es1|]. intros w2 H2.
  assert (Hk : kept (cl_g g) (vclosing v1)) by (left; cbn; pose proof (i_h _ _ _ Hi); lia).
  pose proof (at_kept H2 Hk) as Hd2.
  apply wp_bind, (wp_quiet H2 []); [quiet|done|set_solver|]. intros _ w3 H3.
  apply wp_bind, (wp_quiet H3 []); [quiet|done|set_solver|]. intros _ w4 H4.
  apply wp_bind, (wp_quiet H4 []); [by apply quiet_chn_same|done|set_solver|]. intros _ w5 H5.
  apply wp_bind, (wp_quiet H5 []); [quiet|done|set_solver|]. intros _ w6 H6.
  apply wp_bind, (wp_quiet H6 []); [quiet|done|set_solver|]. intros _ w7 H7.
  apply wp_bind. eapply wp_mono; [apply (wp_free_sessions H7); try done; split; cbn; lia|].
  intros _ w8 (v8 & H8 & E8 & _). assert (Hk8 : kept (cl_g g) v8) by (left; cbn; pose proof (i_h _ _ _ Hi); lia).
  apply wp_bind. eapply (wp_cset H8 base (uncl_g (cl_g g)) _ no_ctx); [by apply (at_kept H8)|by intros []|done|apply inv_no_ctx, H8|done|]. intros w9 H9.
  assert (Eg : uncl_g (cl_g g) = with_h (g_h g + 1) g) by (destruct g; cbn in *; by subst). rewrite Eg in H9.
  apply (wp_tunnel_put H9); [apply Hi|]. intros w10 H10. exists (vput_conn (no_ctx v8)). split; [done|].
  unfold closed, vput_conn. by destruct (_ =? 0).
Qed.

Context (d : l2tp_dict) (rnd : nat -> Z -> option (list Z)).

Definition anyhow (st : st_t) (tr : list nat) (cx : bool) : Prop := True.

Lemma ends_mono base g (R R' : st_t -> list nat -> bool -> Prop) w : ends base g R w -> (forall st tr cx, R st tr cx -> R' st tr cx) -> ends base g R' w.
Proof. intros (v & HA & HR) H. exists v. auto. Qed.

Lemma ends_any base g R w : ends base g R w -> ends base g anyhow w.
Proof. intros H. by eapply ends_mono. Qed.

(** The tunnel is not closed by a disconnection that succeeds. *)
Definition unless_closed (r : bool) (s : st_t) (st : st_t) (tr : list nat) (cx : bool) : Prop := r = true -> st = STATE_CLOSE -> s = STATE_CLOSE.

Lemma wp_disconnect {base g v w} (HA : At base g v w) res err :
  g_det g = [] -> g_cl g = false -> v_dead v = false -> room 3 g ->
  wp (l2tp_tunnel_disconnect d rnd sys res err) (fun r => ends base g (unless_closed r (v_state v))) w.
Proof.
  intros Hg Hcl Hd Hr. pose proof (at_inv _ _ _ _ HA) as Hi. unfold l2tp_tunnel_disconnect, disconnect_with.
  apply wp_bind, (wp_cget HA); [done|]. rewrite (at_state HA).
  destruct (decide (conn_cls (v_state v) = Starting \/ conn_cls (v_state v) = Active)) as [Hc|Hc].
  2:{ assert (wp (mret true) (fun r => ends base g (unless_closed r (v_state v))) w) by (apply wp_ret; exists v; split; [done|]; by intros ? ?).
      destruct (v_state v); cbn in Hc; first [done|tauto]. }
  assert (Hc' : conn_cls (v_state v) = Starting \/ conn_cls (v_state v) = Active \/ conn_cls (v_state v) = Finishing) by tauto.
  match goal with |- wp (match _ with STATE_INIT => ?m | _ => _ end) ?q _ => assert (Hm : wp m q w) end.
  2:{ destruct (v_state v); cbn in Hc; first [exact Hm|naive_solver]. }
  apply wp_bind, (wp_conn_leave HA _ _ Hc'). intros base1 v1 w1 H1 Hb1 Ed1 Es1 Et1 Ec1. rewrite Hd in Ed1.
  apply wp_bind, (wp_quiet H1 []); [quiet|done|set_solver|]. intros _ w2 H2.
  apply wp_bind, (wp_quiet H2 []); [quiet|done|set_solver|]. intros b w3 H3.
  apply wp_bind. eapply (wp_cset H3 base g _ (set_state STATE_FIN)); [done|by intros []|done| |done|].
  { apply (inv_state base1); try done; [apply H3| |by rewrite Es1]. rewrite Es1. destruct (v_state v); cbn in Hc; first [done|naive_solver]. }
  intros w4 H4. destruct b; cbn [negb].
  - apply wp_bind, (wp_quiet H4 []); [quiet|done|set_solver|]. intros _ w5 H5.
    apply wp_bind. eapply wp_mono; [apply (wp_free_sessions H5); try done; split; destruct Hr; lia|].
    intros _ w6 (v6 & H6 & E6 & _). apply wp_ret. exists v6. split; [done|]. intros _. rewrite E6. done.
  - apply wp_bind. eapply wp_mono; [apply (wp_tunnel_free H4); done|]. intros ? w5 H5. apply wp_ret.
    eapply ends_mono; [exact H5|]. done.
Qed.

Lemma wp_disconnect_push {base g v w} (HA : At base g v w) res err :
  g_det g = [] -> g_cl g = false -> kept g v -> room 3 g ->
  wp (l2tp_tunnel_disconnect_push d rnd sys res err) (fun _ => ends base g anyhow) w.
Proof.
  intros Hg Hcl Hk Hr. pose proof (at_kept HA Hk) as Hd. unfold l2tp_tunnel_disconnect_push, disconnect_push_with. apply wp_bind.
  eapply wp_mono; [by apply (wp_disconnect HA)|]. intros r w1 (v1 & H1 & E1). destruct r; cbn [negb]; [|by apply wp_ret, (ends_at _ _ _ v1)].
  assert (Hk1 : kept g v1) by (unfold kept in *; specialize (E1 eq_refl); tauto). pose proof (at_kept H1 Hk1) as Hd1.
  apply wp_bind, (wp_quiet H1 []); [quiet|done|set_solver|]. intros n w2 H2. destruct (n <? 0); [|by apply wp_ret, (ends_at _ _ _ v1)].
  apply wp_bind. eapply wp_mono; [by apply (wp_tunnel_free H2)|]. intros ? w3 H3. apply wp_ret. eapply ends_any; exact H3.
Qed.

Lemma out_nil a g : g_det g = [] -> out_g a g = g.
Proof. destruct g. unfold out_g. cbn. by intros ->. Qed.

Lemma wp_session_free {base g v w a} (HA : At base g v w) :
  g_det g = [] -> g_cl g = false -> a ∈ v_tree v -> room 4 g -> wp (l2tp_session_free d rnd sys a) (fun _ => ends base g anyhow) w.
Proof.
  intros Hg Hcl Ha [Hr1 Hr2]. unfold l2tp_session_free. rewrite <- (out_nil a g Hg). apply (wp_session_free_with HA); try done; try lia.
  - unfold held. set_solver.
  - by right.
  - intros Es v1 w1 H1 E1 E2 E3. apply wp_bind. eapply wp_mono; [apply (wp_disconnect_push H1); try done|].
    + cbn. by rewrite Hg.
    + by right; left.
    + split; cbn; lia.
    + intros r w2 H2. by apply wp_skip.
Qed.

End Sys.

End Free.
