(* ===== verification/L2tpRun.v ===== *)
(** The events of an L2TP tunnel and of its sessions, in any order.

    The functions of L2tpTunnel.v are followed from the world an event finds to the one it
    leaves, with the rules of L2tpSafe.v; [step] is the relation of the events, and the
    theorems at the end are about every run. *)

From stdpp Require Import base tactics list sets numbers option strings.
From Stdlib Require Import ZArith Lia.
From S2P Require Import Prelude CLib Bytes RadDict Hash L2tpPacket L2tpChan L2tpTunnel L2tpView L2tpLife L2tpSafe.

Open Scope Z_scope.

(** ** The data channel of a session *)

Module DataChan.
Import L2tpPacket L2tpChan L2tpTunnel Wp View Quiet Inv At Free.

(** A session with a data channel: it is not freed, nor is the tunnel. *)
Lemma on_alive {base g v w} (HA : At base g v w) a s :
  v_heap v !! a = Some s -> v_on s = true -> gone v a = false /\ v_dead v = false.
Proof.
  intros Hs Ho. pose proof (at_inv _ _ _ _ HA) as Hi. assert (Hg : v_gone s = false) by (apply (inv_alive _ _ _ Hi a s Hs); tauto).
  split; [unfold gone; by rewrite Hs|]. apply (inv_not_dead _ _ _ Hi). right. right. apply (alive_pos _ a s Hs). unfold alive. by rewrite Hg.
Qed.

Lemma wp_apses_destroy {base0 base g v w} (HA : At base0 g v w) a s :
  v_heap v !! a = Some s -> v_on s = true -> (forall i, base0 i + data_part (v_ap s) i = base i + ctr_is stat_finishing i) -> room 1 g ->
  wp (apses_destroy a) (fun _ => ends base g anyhow) w.
Proof.
  intros Hs Ho Hb [Hr1 Hr2]. destruct (on_alive HA a s Hs Ho) as [Hg Hd]. unfold apses_destroy. apply wp_bind.
  eapply (wp_sset HA (bump stat_finishing 1 base) (hold_g a g) a _ off); [done|by intros []| |done|].
  { apply (inv_off base0 _ g v a s); try done; [apply HA|lia|]. intros i. rewrite Hb. unfold bump. lia. }
  intros w1 H1. apply wp_bind, (wp_sub H1). intros w2 H2. apply (wp_last_put (R := anyhow)); [|lia].
  exists (down stat_finishing (change off a v)). split; [|done]. destruct H2 as [X1 X2 X3]. split; try done.
  eapply inv_base; [|exact X1]. intros i. unfold bump. lia.
Qed.

Lemma wp_apses_leave {base g v w} (HA : At base g v w) p Q :
  p = APSTATE_STARTING \/ p = APSTATE_STARTED \/ p = APSTATE_FINISHING ->
  (forall base1 v1 w1, At base1 g v1 w1 -> (forall i, base1 i + data_part p i = base i + ctr_is stat_finishing i) -> v_heap v1 = v_heap v -> Q tt w1) ->
  wp (apses_leave p) Q w.
Proof.
  intros Hp HQ. destruct Hp as [->|[->| ->]]; cbn [apses_leave].
  1-2: apply (wp_move HA); intros w1 H1; eapply (HQ _ _ w1 H1); [intros i; unfold bump; cbn [data_part]; lia|done].
  apply wp_skip. by eapply (HQ _ _ w HA).
Qed.

(** The state of a data channel changes. *)
Lemma wp_set_ap {base0 base g v w} (HA : At base0 g v w) a s p f Q :
  v_heap v !! a = Some s -> v_on s = true -> p <> APSTATE_NONE -> (ApDestroy ∈ v_calls s -> p = APSTATE_FINISHING) ->
  (forall x, sview (f x) = set_ap p (sview x)) ->
  (forall i, base0 i + data_part (v_ap s) i = base i + data_part p i) ->
  (forall w', At base g (change (set_ap p) a v) w' -> Q tt w') -> wp (sset a f) Q w.
Proof.
  intros Hs Ho Hp Hc Hf Hb HQ. destruct (on_alive HA a s Hs Ho) as [Hg _].
  eapply (wp_sset HA base g a _ (set_ap p)); try done.
  apply (inv_upd base0 base g v a s); try done; [apply HA| |].
  - intros [K1 K2 K3 K4 K5 K6 K7 K8]. destruct s. cbn in *. split; cbn; try done. intros H. split; [by apply K5|done].
  - intros i. rewrite swing_ap by done. specialize (Hb i). lia.
Qed.

Lemma lookup_change_eq F a v s : v_heap v !! a = Some s -> v_heap (change F a v) !! a = Some (F s).
Proof. intros H. by rewrite lookup_change, decide_True, H by done. Qed.

(** The end of the session is known: its data channel is finishing. *)
Definition finishing (base : ctr -> Z) (g : ghost) (a : nat) (w : world) : Prop :=
  exists v s, At base g v w /\ v_heap v !! a = Some s /\ v_on s = true /\ v_ap s = APSTATE_FINISHING.

Lemma wp_set_finishing {base0 base g v w} (HA : At base0 g v w) a s Q :
  v_heap v !! a = Some s -> v_on s = true -> (forall i, base0 i + data_part (v_ap s) i = base i + ctr_is stat_finishing i) ->
  (forall w', finishing base g a w' -> Q tt w') -> wp (sset a (fun s => s <| apses_state := APSTATE_FINISHING |>)) Q w.
Proof.
  intros Hs Ho Hb HQ. eapply (wp_set_ap (base := base) HA a s APSTATE_FINISHING); try done. intros w2 H2. apply HQ.
  exists (change (set_ap APSTATE_FINISHING) a v), (set_ap APSTATE_FINISHING s). split; [done|]. split; [by apply lookup_change_eq|]. by destruct s.
Qed.

Lemma wp_sget_ap {base g v w} (HA : At base g v w) a s Q :
  v_heap v !! a = Some s -> v_on s = true -> Q (v_ap s) w -> wp (sget a apses_state) Q w.
Proof.
  intros Hs Ho HQ. destruct (on_alive HA a s Hs Ho) as [Hg _]. apply (wp_sget HA); [done|].
  by rewrite <- (at_sess HA a s Hs) in HQ.
Qed.

Lemma ap_cases p : p <> APSTATE_NONE -> p = APSTATE_INIT \/ p = APSTATE_STARTING \/ p = APSTATE_STARTED \/ p = APSTATE_FINISHING.
Proof. destruct p; tauto. Qed.

Lemma on_ap {base g v w} (HA : At base g v w) a s : v_heap v !! a = Some s -> v_on s = true -> v_ap s <> APSTATE_NONE.
Proof. intros Hs Ho. by apply (i_sess _ _ _ (at_inv _ _ _ _ HA) a s Hs). Qed.

Lemma wp_finishing_destroy {base g a w} : finishing base g a w -> room 1 g -> wp (apses_destroy a) (fun _ => ends base g anyhow) w.
Proof. intros (v & s & HA & Hs & Ho & Hp) Hr. apply (wp_apses_destroy HA a s); try done. intros i. by rewrite Hp. Qed.

Lemma wp_apses_started {base g v w} (HA : At base g v w) a s :
  v_heap v !! a = Some s -> v_on s = true -> wp (apses_started a) (fun _ => ends base g anyhow) w.
Proof.
  intros Hs Ho. unfold apses_started. apply wp_bind, (wp_sget_ap HA a s); try done. unfold is_ap. case_bool_decide as E; cbn [negb].
  2: by apply wp_skip, (ends_at _ _ _ v).
  apply wp_bind, (wp_move HA). intros w1 H1. eapply (wp_set_ap (base := base) H1 a s APSTATE_STARTED); try done.
  - intros H. apply (i_sess _ _ _ (at_inv _ _ _ _ HA) a s Hs) in H. congruence.
  - intros i. rewrite E. unfold bump. cbn [data_part]. lia.
  - intros w2 H2. by apply (ends_at _ _ _ _ _ H2).
Qed.

Section Sys.
Context (sys : nat -> bool).

Lemma wp_tell_tunnel {base g v w} (HA : At base g v w) a s Q :
  v_heap v !! a = Some s -> v_on s = true -> (forall w', At base g v w' -> Q tt w') -> wp (tell_tunnel sys a) Q w.
Proof.
  intros Hs Ho HQ. destruct (on_alive HA a s Hs Ho) as [Hg Hd]. unfold tell_tunnel.
  apply wp_bind, (wp_sget HA); [done|]. apply wp_bind, (wp_cget HA); [done|]. destruct (ctx_on _); [|by apply wp_skip, HQ].
  apply wp_bind, (wp_quiet HA []); [unfold call_conn; quiet|done|set_solver|]. intros r w1 H1. by apply wp_skip, HQ.
Qed.

Lemma wp_call_destroy {base g a w} Q :
  finishing base g a w -> (forall r w', finishing base g a w' -> Q r w') -> wp (call_apses sys a ApDestroy) Q w.
Proof.
  intros (v & s & HA & Hs & Ho & Hp) HQ. apply (wp_call_apses sys HA ApDestroy Q Hs Ho); [done|]. intros r w' v' [->| ->] H'; apply HQ.
  - by exists v, s.
  - exists (change (push_call ApDestroy) a v), (push_call ApDestroy s). split; [done|]. split; [by apply lookup_change_eq|]. by destruct s.
Qed.

Lemma wp_finishing_tell {base g a w} Q :
  finishing base g a w -> (forall w', finishing base g a w' -> Q tt w') -> wp (tell_tunnel sys a) Q w.
Proof. intros (v & s & HA & Hs & Ho & Hp) HQ. apply (wp_tell_tunnel HA a s); try done. intros w' H'. apply HQ. by exists v, s. Qed.

Lemma wp_apses_finished {base g v w} (HA : At base g v w) a s Q :
  v_heap v !! a = Some s -> v_on s = true -> Q tt w -> (forall w', finishing base g a w' -> Q tt w') -> wp (apses_finished sys a) Q w.
Proof.
  intros Hs Ho HQ0 HQ. unfold apses_finished. apply wp_bind, (wp_sget_ap HA a s); try done.
  assert (Hgo : v_ap s = APSTATE_STARTING \/ v_ap s = APSTATE_STARTED \/ v_ap s = APSTATE_FINISHING ->
    wp (apses_leave (v_ap s) ;; sset a (fun s => s <| apses_state := APSTATE_FINISHING |>) ;; tell_tunnel sys a ;; call_apses sys a ApDestroy ;; skip) Q w).
  { intros Hp. apply wp_bind, (wp_apses_leave HA _ _ Hp). intros base1 v1 w0 H0 Hb Eh. rewrite <- Eh in Hs.
    apply wp_bind, (wp_set_finishing (base := base) H0 a s); try done. intros w1 H1. apply wp_bind, (wp_finishing_tell _ H1). intros w2 H2.
    apply wp_bind, (wp_call_destroy _ H2). intros r w3 H3. by apply wp_skip, HQ. }
  destruct (v_ap s); try (apply Hgo; tauto); by apply wp_skip.
Qed.

Lemma wp_terminate {base g a w} Q :
  finishing base g a w -> (forall w', finishing base g a w' -> Q tt w') -> wp (ap_session_terminate sys a) Q w.
Proof.
  intros (v & s & HA & Hs & Ho & Hp) HQ. destruct (on_alive HA a s Hs Ho) as [Hg Hd]. unfold ap_session_terminate.
  apply wp_bind, (wp_quiet HA []); [quiet|done|set_solver|]. intros b w1 H1.
  assert (Hf : finishing base g a w1) by (by exists v, s).
  destruct b; [|by apply wp_skip, HQ]. by apply (wp_apses_finished H1 a s); [..|apply HQ|].
Qed.

Lemma wp_stop_running {base g v w} (HA : At base g v w) a s :
  v_heap v !! a = Some s -> v_on s = true -> v_ap s = APSTATE_STARTING \/ v_ap s = APSTATE_STARTED -> room 1 g ->
  wp (apses_leave (v_ap s) ;; (sset a (fun s => s <| apses_state := APSTATE_FINISHING |>) ;; ap_session_terminate sys a) ;; apses_destroy a)
    (fun _ => ends base g anyhow) w.
Proof.
  intros Hs Ho Hp Hr. apply wp_bind, (wp_apses_leave HA); [tauto|]. intros base1 v1 w1 H1 Hb Eh. rewrite <- Eh in Hs.
  apply wp_bind, wp_bind, (wp_set_finishing (base := base) H1 a s); try done. intros w2 H2. apply (wp_terminate _ H2). intros w3 H3.
  by apply wp_finishing_destroy.
Qed.

Lemma wp_apses_stop {base g v w} (HA : At base g v w) a s :
  v_heap v !! a = Some s -> v_on s = true -> room 1 g -> wp (apses_stop sys a) (fun _ => ends base g anyhow) w.
Proof.
  intros Hs Ho Hr. unfold apses_stop. apply wp_bind, (wp_sget_ap HA a s); try done. pose proof (wp_stop_running HA a s Hs Ho) as Hrun.
  destruct (ap_cases _ (on_ap HA a s Hs Ho)) as [E|[E|[E|E]]]; rewrite E in *; [|apply Hrun; tauto..|].
  - apply wp_bind, (wp_move HA). intros w1 H1. apply wp_bind, (wp_tell_tunnel H1 a s); try done. intros w2 H2.
    apply (wp_apses_destroy H2 a s); try done. intros i. rewrite E. unfold bump. cbn [data_part]. lia.
  - apply wp_bind, wp_skip, wp_bind. apply (wp_tell_tunnel HA a s); try done. intros w2 H2.
    apply (wp_apses_destroy H2 a s); try done. intros i. by rewrite E.
Qed.

Lemma wp_apses_start {base g v w} (HA : At base g v w) a s :
  v_heap v !! a = Some s -> v_on s = true -> room 1 g -> wp (apses_start sys a) (fun _ => ends base g anyhow) w.
Proof.
  intros Hs Ho Hr. destruct (on_alive HA a s Hs Ho) as [Hg Hd].
  unfold apses_start. apply wp_bind, (wp_sget_ap HA a s); try done. unfold is_ap. case_bool_decide as E; cbn [negb].
  2: by apply wp_skip, (ends_at _ _ _ v).
  apply wp_bind, (wp_quiet HA []); [quiet|done|set_solver|]. intros b w1 H1. destruct b; cbn [negb]; [|by apply (wp_apses_stop H1 a s)].
  eapply (wp_set_ap (base := base) H1 a s APSTATE_STARTING); try done.
  - intros H. apply (i_sess _ _ _ (at_inv _ _ _ _ HA) a s Hs) in H. congruence.
  - intros i. by rewrite E.
  - intros w2 H2. by apply (ends_at _ _ _ _ _ H2).
Qed.

Lemma wp_run_apses {base g v w} (HA : At base g v w) a s :
  v_heap v !! a = Some s -> v_on s = true -> room 1 g -> wp (run_apses sys a) (fun _ => ends base g anyhow) w.
Proof.
  intros Hs Ho Hr. destruct (on_alive HA a s Hs Ho) as [Hg Hd]. unfold run_apses. apply wp_bind, (wp_sget HA); [done|].
  assert (Ec : s_calls (sess_at a w) = v_calls s) by (by rewrite <- (at_sess HA a s Hs)). rewrite Ec.
  destruct (v_calls s) as [|f l] eqn:El; [by apply wp_skip, (ends_at _ _ _ v)|].
  pose proof (i_sess _ _ _ (at_inv _ _ _ _ HA) a s Hs) as Hok.
  apply wp_bind. eapply (wp_sset HA base g a _ (set_calls l)); [done|by intros []| |done|].
  { apply (inv_upd base base g v a s); try done; [apply HA| |].
    - intros [K1 K2 K3 K4 K5 K6 K7 K8]. destruct s. cbn in *. subst. split; cbn; try done. intros H. apply K7. by right.
    - intros i. rewrite swing_same by done. lia. }
  intros w1 H1. pose proof (lookup_change_eq (set_calls l) a v s Hs) as Hs1. destruct f.
  - by apply (wp_apses_start H1 a (set_calls l s)).
  - by apply (wp_apses_stop H1 a (set_calls l s)).
  - apply wp_finishing_destroy; [|done]. exists (change (set_calls l) a v), (set_calls l s). split; [done|]. split; [done|]. split; [done|].
    apply (s_destroy _ _ _ Hok). rewrite El. by left.
Qed.

End Sys.

End DataChan.

(** ** New sessions *)

Module Alloc.
Import L2tpPacket L2tpChan L2tpTunnel Wp View Quiet Inv At Free DataChan.

Lemma alter_new {A} (f : A -> A) (h : list A) x : alter f (length h) (h ++ [x]) = h ++ [f x].
Proof. induction h as [|y h IH]; [done|]. exact (f_equal (cons y) IH). Qed.

Lemma sess_at_new w (h : list l2tp_sess_t) x : heap w = h ++ [x] -> sess_at (length h) w = x.
Proof. intros E. unfold sess_at. rewrite E, lookup_app_r, Nat.sub_diag by lia. done. Qed.

(** The code that adds the session [x] to the tunnel. *)
Definition add_session (x : l2tp_sess_t) (a : nat) : M (option nat) :=
  modify (fun w => w <| heap ::= fun h => h ++ [x] |>) ;;
  cset (fun c => c <| sessions ::= fun l => l ++ [a] |> <| sess_count ::= fun n => u32 (n + 1) |>) ;;
  session_hold a ;;
  tunnel_hold ;;
  session_hold a ;;
  stat_add stat_sess_starting ;;
  mret (Some a).

Lemma hold_n (x : l2tp_sess_t) n : s_ref_count x = n -> x <| s_ref_count ::= fun n => u32 (n + 1) |> = x <| s_ref_count := u32 (n + 1) |>.
Proof. destruct x. cbn. by intros ->. Qed.

Lemma view_add_session w x :
  c_freed (conn w) = false -> s_freed x = false -> s_ref_count x = 0 -> sview (x <| s_ref_count := 2 |>) = new_sv (sid x) ->
  view_of (exec (add_session x (length (heap w))) w) = valloc (sid x) (view_of w).
Proof.
  intros Hc Hx Hr Ex. unfold add_session, session_hold, tunnel_hold. rewrite exec_bind. set (w1 := exec _ w).
  assert (E1 : heap w1 = heap w ++ [x] /\ conn w1 = conn w) by done. destruct E1 as [E1 Ec1].
  rewrite exec_bind, exec_cset by (by rewrite Ec1). set (w2 := w1 <| conn ::= _ |>).
  assert (E2 : heap w2 = heap w ++ [x]) by done. assert (Ec2 : c_freed (conn w2) = false) by done.
  rewrite exec_bind, exec_sset by (by rewrite (sess_at_new w2 (heap w) x E2)).
  set (w3 := w2 <| heap ::= _ |>). assert (E3 : heap w3 = heap w ++ [x <| s_ref_count := 1 |>]).
  { change (heap w3) with (alter (fun s => s <| s_ref_count ::= fun n => u32 (n + 1) |>) (length (heap w)) (heap w2)).
    rewrite E2, alter_new. by rewrite (hold_n x 0 Hr). }
  rewrite exec_bind, exec_cset by done. set (w4 := w3 <| conn ::= _ |>).
  assert (E4 : heap w4 = heap w ++ [x <| s_ref_count := 1 |>]) by done.
  rewrite exec_bind, exec_sset by (by rewrite (sess_at_new w4 (heap w) _ E4)).
  set (w5 := w4 <| heap ::= _ |>). assert (E5 : heap w5 = heap w ++ [x <| s_ref_count := 2 |>]).
  { change (heap w5) with (alter (fun s => s <| s_ref_count ::= fun n => u32 (n + 1) |>) (length (heap w)) (heap w4)).
    rewrite E4, alter_new. by rewrite (hold_n _ 1). }
  assert (Ev : v_heap (view_of w5) = v_heap (view_of w) ++ [new_sv (sid x)]).
  { change (v_heap (view_of w5)) with (sview <$> heap w5). rewrite E5, fmap_app. cbn [fmap list_fmap]. by rewrite Ex. }
  change (view_of (exec (stat_add stat_sess_starting ;; mret (Some (length (heap w)))) w5)) with (up stat_sess_starting (view_of w5)).
  unfold valloc. f_equal. unfold view_of at 1. change (sview <$> heap w5) with (v_heap (view_of w5)). rewrite Ev.
  destruct w as [[]]. cbn in *. unfold view_of. cbn. by rewrite length_fmap.
Qed.

Section Sys.
Context (rnd : nat -> Z -> option (list Z)) (sys : nat -> bool) (cf : config).
#[local] Opaque UINT16_MAX.

Lemma val_new_sid n used w i : val (new_sid rnd n used) w = Some i -> i <> 0 /\ used i = false.
Proof.
  revert w. induction n as [|n IH]; intros w; cbn [new_sid]; [done|]. rewrite val_bind.
  destruct (val (run_bld (u_rand16 rnd)) w) as [j|]; [|done]. destruct (_ || _) eqn:E; [apply IH|].
  intros [= <-]. apply orb_false_iff in E as [E1 E2]. split; [by apply Z.eqb_neq|done].
Qed.

Lemma cnt_alive h : cnt alive (sview <$> h) = Z.of_nat (length (List.filter (fun s => negb (s_freed s)) h)).
Proof. unfold cnt. induction h as [|s h IH]; [done|]. cbn. unfold alive at 1. cbn. destruct (s_freed s); cbn [negb length]; [exact IH|]. lia. Qed.

(** A new session is in the tunnel, and starting. *)
Definition fresh_in (a : nat) (v : view) : Prop :=
  a ∈ v_tree v /\ exists s, v_heap v !! a = Some s /\ v_cls s = Starting /\ v_on s = false.

Lemma fresh_valloc i v : fresh_in (length (v_heap v)) (valloc i v).
Proof.
  split; [apply elem_of_app; right; by apply list_elem_of_singleton|]. exists (new_sv i). split; [|done].
  change ((v_heap v ++ [new_sv i]) !! length (v_heap v) = Some (new_sv i)). rewrite lookup_app_r, Nat.sub_diag by lia. done.
Qed.

Lemma wp_alloc_session {base g v w} (HA : At base g v w) Q :
  g_det g = [] -> v_dead v = false -> (forall w', At base g v w' -> Q None w') ->
  (forall a w' v', At base g v' w' -> v_state v' = v_state v -> fresh_in a v' -> Q (Some a) w') ->
  wp (l2tp_tunnel_alloc_session rnd sys cf) Q w.
Proof.
  intros Hg Hd HN HS. unfold l2tp_tunnel_alloc_session.
  apply wp_bind, (wp_quiet HA []); [quiet|done|set_solver|]. intros b w1 H1. apply wp_bind, wp_gets.
  rewrite <- cnt_alive, (at_heap H1). destruct (_ <? _) eqn:Em; [|rewrite andb_false_r; by apply wp_ret, HN]. to_prop.
  destruct b; [|by apply wp_ret, HN]. cbn [andb negb].
  apply wp_bind, (wp_cget H1); [done|]. apply wp_bind, wp_gets. rewrite (at_tree H1). apply wp_bind.
  set (used := fun i => _). assert (Hm := val_new_sid UINT16_MAX used w1).
  apply (wp_quiet_val H1 []); [apply quiet_new_sid|done|set_solver|]. intros w2 H2. destruct (val _ w1) as [i|]; [|by apply wp_ret, HN].
  destruct (Hm i eq_refl) as [Hi Hu]. apply wp_bind, (wp_cget H2); [done|]. apply wp_bind, (wp_cget H2); [done|].
  set (x := mk_sess _ _ _ _ _ _ _ _ _ _ _ _ _ _).
  assert (El : length (heap w1) = length (v_heap v)) by (by rewrite <- (at_heap H1), length_fmap).
  assert (El2 : length (heap w2) = length (v_heap v)) by (by rewrite <- (at_heap H2), length_fmap).
  assert (H3 : At base g (valloc i v) (exec (add_session x (length (heap w1))) w2)).
  { apply (at_map H2).
    - rewrite El, <- El2. apply (view_add_session w2 x); try done. by rewrite (at_freed H2).
    - done.
    - apply inv_alloc; try done; [apply H2|]. intros a s Ha Hs E. unfold held in Ha. rewrite Hg, app_nil_r in Ha.
      assert (Hx : used i = true); [|congruence]. apply existsb_exists. exists a. split; [by apply list_elem_of_In|].
      apply Z.eqb_eq. rewrite <- E. by rewrite <- (at_sess H1 a s Hs).
    - unfold held. rewrite Hg, !app_nil_r. set_solver. }
  change (Q (Some (length (heap w1))) (exec (add_session x (length (heap w1))) w2)). apply (HS _ _ _ H3); [done|]. rewrite El. apply fresh_valloc.
Qed.

End Sys.

End Alloc.

(** ** Sessions are set up and closed *)

Module Calls.
Import L2tpPacket L2tpChan L2tpTunnel Wp View Quiet Inv At Free DataChan Alloc.

(** Nothing else is going on. *)
Definition clean (g : ghost) : Prop := g_det g = [] /\ g_cl g = false /\ room 10 g.

(** The tunnel has the session [a]; it is starting. *)
Definition has (base : ctr -> Z) (g : ghost) (a : nat) (w : world) : Prop := exists v, At base g v w /\ a ∈ v_tree v.
Definition starts (base : ctr -> Z) (g : ghost) (a : nat) (w : world) : Prop := exists v, At base g v w /\ fresh_in a v.

Lemma starts_has base g a w : starts base g a w -> has base g a w.
Proof. intros (v & HA & Hf & _). by exists v. Qed.

Lemma tree_alive {base g v w} (HA : At base g v w) a : a ∈ v_tree v -> gone v a = false /\ v_dead v = false /\ [a] ⊆ held g v.
Proof.
  intros Ha. assert (Hh : a ∈ held g v) by (unfold held; set_solver). pose proof (at_inv _ _ _ _ HA) as Hi.
  split; [by apply (inv_gone _ _ _ Hi); left|]. split; [by apply (inv_held_not_dead _ _ _ Hi a); left|]. set_solver.
Qed.

Lemma wp_has {A base g a w} (m : M A) Q : has base g a w -> quiet [a] m -> (forall r w', has base g a w' -> Q r w') -> wp m Q w.
Proof.
  intros (v & HA & Ha) Hm HQ. destruct (tree_alive HA a Ha) as (Hg & Hd & Hs). apply (wp_quiet HA [a]); try done.
  intros r w' H'. apply HQ. by exists v.
Qed.
Lemma wp_starts {A base g a w} (m : M A) Q : starts base g a w -> quiet [a] m -> (forall r w', starts base g a w' -> Q r w') -> wp m Q w.
Proof.
  intros (v & HA & Hf) Hm HQ. destruct (tree_alive HA a (proj1 Hf)) as (Hg & Hd & Hs). apply (wp_quiet HA [a]); try done.
  intros r w' H'. apply HQ. by exists v.
Qed.

(** A change of a starting session that keeps it starting. *)
Lemma wp_starts_set {base g a w} f F Q :
  starts base g a w -> (forall s, sview (f s) = F (sview s)) ->
  (forall s, v_cls s = Starting -> v_on s = false -> v_cls (F s) = Starting /\ v_on (F s) = false /\ v_sid (F s) = v_sid s /\
    v_gone (F s) = v_gone s /\ v_ref (F s) = v_ref s /\ v_calls (F s) = v_calls s) ->
  (forall w', starts base g a w' -> Q tt w') -> wp (sset a f) Q w.
Proof.
  intros (v & HA & Ha & s & Hs & Hc & Ho) Hf HF HQ. destruct (tree_alive HA a Ha) as (Hg & Hd & _).
  destruct (HF s Hc Ho) as (F1 & F2 & F3 & F4 & F5 & F6).
  eapply (wp_sset HA base g a _ F); [done|done| |done|].
  - apply (inv_upd base base g v a s); try done; [apply HA| |].
    + intros [K1 K2 K3 K4 K5 K6 K7 K8]. split; rewrite ?F1, ?F2, ?F4, ?F5, ?F6; try done; try (by left).
      * rewrite K2. unfold is_cls. by rewrite Hc, F1.
      * by rewrite K3, Ho.
      * intros _. by apply K6.
      * rewrite (K6 Ho). by intros ?%elem_of_nil.
    + intros i. unfold swing, is_cls, ending, data_in, is_cls, alive. rewrite F1, F2, F4, Hc, Ho. destruct i; cbn; lia.
  - intros w' H'. apply HQ. exists (change F a v). split; [done|]. split; [done|]. exists (F s). split; [by apply lookup_change_eq|done].
Qed.

Section Sys.
Context (d : l2tp_dict) (rnd : nat -> Z -> option (list Z)) (sys : nat -> bool) (cf : config) (base : ctr -> Z) (g : ghost).
Hypothesis Hg : clean g.

Lemma wp_free a w : has base g a w -> wp (l2tp_session_free d rnd sys a) (fun _ => ends base g anyhow) w.
Proof using Hg. intros (v & HA & Ha). destruct Hg as (G1 & G2 & G3 & G4). apply (wp_session_free sys d rnd HA); try done. split; lia. Qed.

Lemma wp_session_disconnect a res err w : has base g a w -> wp (l2tp_session_disconnect d rnd sys a res err) (fun _ => ends base g anyhow) w.
Proof using Hg.
  intros Ha. unfold l2tp_session_disconnect. apply wp_bind, (wp_has _ _ Ha); [apply quiet_session_clear_sendqueue; by left|]. intros _ w1 H1.
  apply wp_bind, (wp_has _ _ H1); [apply quiet_CDN; by left|]. intros r w2 H2. by apply wp_free.
Qed.

Lemma wp_session_disconnect_push a res err w :
  has base g a w -> wp (l2tp_session_disconnect_push d rnd sys a res err) (fun _ => ends base g anyhow) w.
Proof using Hg.
  intros Ha. unfold l2tp_session_disconnect_push. apply wp_bind, (wp_has _ _ Ha); [apply quiet_CDN; by left|]. intros r w1 H1.
  apply wp_bind. destruct r.
  - apply wp_bind, (wp_has _ _ H1); [quiet|]. intros n w2 H2. by apply wp_skip, wp_free.
  - by apply wp_skip, wp_free.
Qed.

Lemma wp_start_timer a w Q : starts base g a w -> (forall r w', starts base g a w' -> Q r w') -> wp (start_sess_timer sys a) Q w.
Proof using.
  intros Ha HQ. unfold start_sess_timer. apply wp_bind, (wp_starts _ _ Ha); [quiet|]. intros b w1 H1. destruct b; cbn [negb]; [|by apply wp_ret, HQ].
  apply wp_bind, (wp_starts_set _ (set_tmr true) _ H1); [by intros []|by intros []|]. intros w2 H2. by apply wp_ret, HQ.
Qed.
Lemma wp_del_timer a w Q : starts base g a w -> (forall w', starts base g a w' -> Q tt w') -> wp (del_sess_timer a) Q w.
Proof using. intros Ha HQ. by apply (wp_starts_set _ (set_tmr false) _ Ha); [intros []|intros []|]. Qed.

(** The session [a] of the tunnel is established and has no data channel. *)
Definition ready (a : nat) (v : view) (s : sv) : Prop := a ∈ v_tree v /\ v_heap v !! a = Some s /\ v_cls s = Active /\ v_on s = false.

Lemma wp_put_has a v w Q : At base (hold_g a g) v w -> a ∈ v_tree v -> (forall w', has base g a w' -> Q tt w') -> wp (session_put a) Q w.
Proof using Hg.
  intros HA Ha HQ. destruct Hg as (_ & _ & G3 & G4). apply (wp_session_put HA); [lia|]. intros w' H'. apply HQ. exists (vput a v). by rewrite vput_tree.
Qed.

(** The rest of [l2tp_session_start_data_channel], behind the reference to the session. *)
Lemma wp_channel_on a v s w Q :
  At base (hold_g a g) v w -> ready a v s -> v_ap s = APSTATE_INIT -> (forall r w', has base g a w' -> Q r w') ->
  wp (sset a (fun s => s <| apses_on := true |>) ;;
      b ← call_apses sys a ApStart;
      if negb b then
        sset a (fun s => s <| apses_on := false |> <| s_calls := [] |>) ;; session_put a ;; mret false
      else stat_add stat_starting ;; mret true) Q w.
Proof using Hg.
  intros HA (Ha & Hs & Hc & Ho) Hp HQ. pose proof Hg as (_ & _ & G3 & G4).
  assert (Hgn : gone v a = false) by (apply (inv_gone _ _ _ (at_inv _ _ _ _ HA)); right; by left).
  set (base1 := bump stat_starting (-1) base).
  apply wp_bind. eapply (wp_sset HA base1 g a _ on); [done|by intros []| |done|].
  { apply (inv_on base base1 g v a s); try done; [apply HA|by rewrite Hc|by rewrite Hp|]. intros i. rewrite Hp. unfold base1, bump. cbn [data_part]. lia. }
  intros w1 H1. pose proof (lookup_change_eq on a v s Hs) as Hs1.
  apply wp_bind, (wp_call_apses sys H1 ApStart _ Hs1); [by destruct s|done|]. intros r w2 v2 Hv2 H2.
  assert (Hx : exists s2, v_heap v2 !! a = Some s2 /\ v_on s2 = true /\ v_ap s2 = APSTATE_INIT /\ a ∈ v_tree v2).
  { destruct Hv2 as [->| ->]; [exists (on s); by destruct s|]. exists (push_call ApStart (on s)). split; [by apply lookup_change_eq|]. by destruct s. }
  clear Hv2. destruct Hx as (s2 & Hs2 & Ho2 & Hp2 & Ha2). destruct r; cbn [negb].
  - apply wp_bind, (wp_add H2). intros w3 H3. apply wp_ret, HQ. exists (up stat_starting v2). split; [|done].
    destruct H3 as [X1 X2 X3]. split; try done. eapply inv_base; [|exact X1]. intros i. unfold base1, bump. lia.
  - destruct (on_alive H2 a s2 Hs2 Ho2) as [Hgn2 _].
    apply wp_bind. eapply (wp_sset H2 base (hold_g a g) a _ off); [done|by intros []| |done|].
    { apply (inv_off base1 base g v2 a s2); try done; [apply H2|lia|]. intros i. rewrite Hp2. unfold base1, bump. cbn [data_part]. lia. }
    intros w3 H3. apply wp_bind, (wp_put_has a _ _ _ H3); [done|]. intros w4 H4. by apply wp_ret, HQ.
Qed.

Lemma wp_start_data_channel a v s w Q :
  At base g v w -> ready a v s -> (forall r w', has base g a w' -> Q r w') -> wp (l2tp_session_start_data_channel sys cf a) Q w.
Proof using Hg.
  intros HA Hr HQ. pose proof Hr as (Ha & Hs & Hc & Ho). destruct (tree_alive HA a Ha) as (Hgn & Hd & _). pose proof Hg as (_ & _ & G3 & G4).
  unfold l2tp_session_start_data_channel. apply wp_bind, (wp_quiet HA []); [quiet|done|set_solver|]. intros b w1 H1.
  destruct b; cbn [negb]; [|apply wp_ret, HQ; by exists v].
  apply wp_bind. eapply (wp_sset H1 base g a _ (set_ap APSTATE_INIT)); [done|by intros []| |done|].
  { apply (inv_upd base base g v a s); try done; [apply HA| |].
    - intros [K1 K2 K3 K4 K5 K6 K7 K8]. destruct s. cbn in *. subst. split; cbn; try done. rewrite (K6 eq_refl). by intros ?%elem_of_nil.
    - intros i. rewrite swing_ap_off by done. lia. }
  intros w2 H2. pose proof (lookup_change_eq (set_ap APSTATE_INIT) a v s Hs) as Hs2.
  apply wp_bind, (wp_session_hold H2 _ Hs2); [|lia|].
  { unfold gone in Hgn. rewrite Hs in Hgn. by destruct s. }
  intros w3 H3. set (v3 := vhold a _) in *.
  assert (Hr3 : ready a v3 (add_ref 1 (set_ap APSTATE_INIT s))) by (split; [done|]; split; [by apply lookup_change_eq|by destruct s]).
  assert (Hd3 : v_dead v3 = false) by done.
  apply wp_bind, (wp_quiet H3 []); [quiet|done|set_solver|]. intros b w4 H4. destruct b; cbn [negb].
  - by apply (wp_channel_on a v3 (add_ref 1 (set_ap APSTATE_INIT s)) w4); [..|by destruct s|].
  - apply wp_bind, (wp_put_has a _ _ _ H4); [done|]. intros w5 H5. by apply wp_ret, HQ.
Qed.

Lemma wp_session_connect a w Q :
  starts base g a w -> (forall r w', has base g a w' -> Q r w') -> wp (l2tp_session_connect sys cf a) Q w.
Proof using Hg.
  intros (v & HA & Ha & s & Hs & Hc & Ho) HQ. destruct (tree_alive HA a Ha) as (Hgn & Hd & Hsub). unfold l2tp_session_connect.
  apply wp_bind. eapply (wp_sset HA base g a _ (set_tmr false)); [done|by intros []| |done|].
  { apply (inv_upd base base g v a s); try done; [apply HA| |].
    - intros [K1 K2 K3 K4 K5 K6 K7 K8]. by destruct s; split.
    - intros i. rewrite swing_same by done. lia. }
  intros w1 H1. pose proof (lookup_change_eq (set_tmr false) a v s Hs) as Hs1. set (v1 := change (set_tmr false) a v) in *. set (s1 := set_tmr false s) in *.
  assert (Hh : forall w', At base g v1 w' -> has base g a w') by (intros w' H'; by exists v1).
  assert (E1 : v_cls s1 = Starting /\ v_on s1 = false /\ v_tmr s1 = false) by (by destruct s). destruct E1 as (Hc1 & Ho1 & Ht1).
  assert (Hin : a ∈ [a]) by (by left). destruct (tree_alive H1 a Ha) as (Hgn1 & Hd1 & Hsub1).
  assert (Ha1 : a ∈ v_tree v1) by done. clearbody v1 s1. clear HA Hs Hc Ho v s Hd Hgn Hsub Ha.
  apply wp_bind, (wp_quiet H1 [a]); [quiet|done..|]. intros b w2 H2. destruct b; cbn [negb]; [|by apply wp_ret, HQ, Hh].
  apply wp_bind, (wp_quiet H2 [a]); [quiet|done..|]. intros _ w3 H3.
  apply wp_bind, (wp_quiet H3 [a]); [quiet|done..|]. intros ss w4 H4.
  apply wp_bind, (wp_quiet H4 [a]); [quiet|done..|]. intros rs w5 H5.
  apply wp_bind, (wp_quiet H5 [a]); [apply quiet_oks|done..|]. intros b w6 H6. destruct b; cbn [negb].
  2:{ apply wp_bind, (wp_quiet H6 [a]); [quiet|done..|]. intros _ w7 H7. by apply wp_ret, HQ, Hh. }
  apply wp_bind, (wp_quiet H6 [a]); [quiet|done..|]. intros _ w7 H7.
  apply wp_bind, (wp_move H7). intros w8 H8.
  apply wp_bind. eapply (wp_sset H8 base g a _ (set_cls Active)); [done|by intros []| |done|].
  { eapply (inv_upd _ base g _ a s1); [apply H8|done..| |].
    - intros [K1 K2 K3 K4 K5 K6 K7 K8]. destruct s1 as [i k r o p cl gn tm]. cbn in *. subst. split; cbn; try done; [by right; left].
    - intros i. rewrite swing_active by done. unfold bump. lia. }
  intros w9 H9. apply wp_bind. eapply (wp_start_data_channel a _ (set_cls Active s1)); [exact H9| |].
  { split; [done|]. split; [|by destruct s1]. by apply lookup_change_eq. }
  intros b w10 H10. destruct b; cbn [negb]; [by apply wp_ret, HQ|].
  apply wp_bind, (wp_has _ _ H10); [quiet|]. intros _ w11 H11. by apply wp_ret, HQ.
Qed.

End Sys.

End Calls.

(** ** Received messages *)

Module Msgs.
Import L2tpPacket L2tpChan L2tpTunnel Wp View Quiet Inv At Free DataChan Alloc Calls.

Section Sess.
Context (d : l2tp_dict) (rnd : nat -> Z -> option (list Z)) (sys : nat -> bool) (adm : nat -> admission) (cf : config) (base : ctr -> Z) (g : ghost).
Hypothesis Hg : clean g.

Lemma has_ends a w : has base g a w -> ends base g anyhow w.
Proof using. intros (v & HA & _). by exists v. Qed.

Lemma wp_state1 a w Q :
  has base g a w -> (forall st, (sess_cls st = Starting -> starts base g a w) -> Q st w) -> wp (sget a state1) Q w.
Proof using.
  intros (v & HA & Ha) HQ. destruct (tree_alive HA a Ha) as (Hgn & Hd & _). apply (wp_sget HA); [done|]. apply HQ. intros Hc.
  unfold gone in Hgn. destruct (v_heap v !! a) as [s|] eqn:Hs; [|done].
  assert (Hc' : v_cls s = Starting) by (by rewrite <- (at_sess HA a s Hs)).
  exists v. split; [done|]. split; [done|]. exists s. split; [done|]. split; [done|].
  destruct (v_on s) eqn:Ho; [|done]. by destruct (s_on _ _ _ (i_sess _ _ _ (at_inv _ _ _ _ HA) a s Hs) Ho) as [? _].
Qed.

Lemma wp_has_untimer a w Q : has base g a w -> (forall w', has base g a w' -> Q tt w') -> wp (del_sess_timer a) Q w.
Proof using.
  intros (v & HA & Ha) HQ. destruct (tree_alive HA a Ha) as (Hgn & Hd & _).
  destruct (v_heap v !! a) as [s|] eqn:Hs; [|unfold gone in Hgn; by rewrite Hs in Hgn].
  eapply (wp_sset HA base g a _ (set_tmr false)); [done|by intros []| |done|].
  - apply (inv_upd base base g v a s); try done; [apply HA| |].
    + intros [K1 K2 K3 K4 K5 K6 K7 K8]. by destruct s; split.
    + intros i. rewrite swing_same by done. lia.
  - intros w' H'. apply HQ. by exists (change (set_tmr false) a v).
Qed.

(** A starting session waits for another message. *)
Lemma wp_wait a st w Q :
  sess_cls st = Starting -> starts base g a w -> (forall w', starts base g a w' -> Q tt w') -> wp (sset a (fun s => s <| state1 := st |>)) Q w.
Proof using.
  intros Hst Ha HQ. apply (wp_starts_set _ (set_cls Starting) _ Ha); [|by intros []|done]. intros []. cbn. unfold sview. cbn. by rewrite Hst.
Qed.

Lemma wp_incall_reply a w Q : starts base g a w -> (forall r w', has base g a w' -> Q r w') -> wp (l2tp_session_incall_reply d rnd sys a) Q w.
Proof using.
  intros Ha HQ. assert (Hin : a ∈ [a]) by (by left). unfold l2tp_session_incall_reply. apply wp_bind, (wp_start_timer sys _ _ _ _ _ Ha). intros b w1 H1.
  destruct b; cbn [negb]; [|by apply wp_ret, HQ, starts_has].
  apply wp_bind, (wp_starts _ _ H1); [by apply quiet_ICRP|]. intros b w2 H2. destruct b; cbn [negb].
  - apply wp_bind, (wp_wait a STATE_WAIT_ICCN _ _ eq_refl H2). intros w3 H3. by apply wp_ret, HQ, starts_has.
  - apply wp_bind, (wp_del_timer _ _ _ _ _ H2). intros w3 H3. by apply wp_ret, HQ, starts_has.
Qed.

Lemma wp_outcall_reply a w Q : starts base g a w -> (forall r w', has base g a w' -> Q r w') -> wp (l2tp_session_outcall_reply d rnd sys cf a) Q w.
Proof using Hg.
  intros Ha HQ. assert (Hin : a ∈ [a]) by (by left). unfold l2tp_session_outcall_reply. apply wp_bind, (wp_start_timer sys _ _ _ _ _ Ha). intros b w1 H1.
  assert (Hdel : forall w, has base g a w -> wp (del_sess_timer a ;; mret false) Q w).
  { intros w0 H0. apply wp_bind, (wp_has_untimer _ _ _ H0). intros w0' H0'. by apply wp_ret, HQ. }
  destruct b; cbn [negb]; [|by apply wp_ret, HQ, starts_has].
  apply wp_bind, (wp_starts _ _ H1); [by apply quiet_OCRP|]. intros b w2 H2. destruct b; cbn [negb]; [|by apply Hdel, starts_has].
  apply wp_bind, (wp_starts _ _ H2); [by apply quiet_connected|]. intros b w3 H3. destruct b; cbn [negb]; [|by apply Hdel, starts_has].
  apply wp_bind, (wp_session_connect sys cf base g Hg a w3 _ H3). intros b w4 H4. destruct b; cbn [negb]; [by apply wp_ret, HQ|by apply Hdel].
Qed.

Definition done_ (w : world) : Prop := ends base g anyhow w.

Lemma wp_recv_call v w known reply l :
  At base g v w -> v_dead v = false ->
  (forall a w Q, starts base g a w -> (forall r w', has base g a w' -> Q r w') -> wp (reply a) Q w) ->
  wp (recv_call d rnd sys adm cf known reply l) (fun _ => done_) w.
Proof using Hg.
  intros HA Hd Hreply. unfold recv_call. apply wp_bind, (wp_quiet HA []); [quiet|done|clear; set_solver|]. intros b w1 H1.
  destruct b; [apply wp_skip; by exists v|]. destruct (last_attr Assigned_Session_ID l) as [p|].
  2:{ apply wp_bind, (wp_quiet H1 []); [quiet|done|clear; set_solver|]. intros r w2 H2. apply wp_skip. by exists v. }
  apply wp_bind, (wp_alloc_session rnd sys cf H1); [apply Hg|done| |].
  { intros w2 H2. apply wp_bind, (wp_quiet H2 []); [quiet|done|clear; set_solver|]. intros r w3 H3. apply wp_skip. by exists v. }
  intros a w2 v2 H2 _ Hf. assert (S2 : starts base g a w2) by (by exists v2). assert (Hin : a ∈ [a]) by (by left).
  assert (Hrej : forall i q e w, has base g a w -> wp (l2tp_tunnel_send_CDN d rnd sys i (uint16_of p) q e ;; l2tp_session_free d rnd sys a) (fun _ => done_) w).
  { intros i q e w' Hw'. apply wp_bind, (wp_has _ _ Hw'); [quiet|]. intros r w3 H3. by apply wp_free. }
  apply wp_bind, (wp_starts _ _ S2); [quiet|]. intros _ w3 H3. apply wp_bind, (wp_starts _ _ H3); [quiet|]. intros i w4 H4.
  destruct (unknown_attr known l); [by apply Hrej, starts_has|]. apply wp_bind, (Hreply a w4 _ H4). intros b w5 H5.
  destruct b; cbn [negb]; [by apply wp_skip, (has_ends a)|by apply Hrej].
Qed.

Lemma wp_disc a w res err : has base g a w -> wp (l2tp_session_disconnect d rnd sys a res err) (fun _ => done_) w.
Proof using Hg. by apply wp_session_disconnect. Qed.

Lemma wp_recv_ICRP a l w : has base g a w -> wp (l2tp_recv_ICRP d rnd sys cf a l) (fun _ => done_) w.
Proof using Hg.
  intros Ha. assert (Hin : a ∈ [a]) by (by left). unfold l2tp_recv_ICRP. apply wp_bind, (wp_state1 _ _ _ Ha). intros st Hst.
  unfold is_st. case_bool_decide as E; cbn [negb]; [subst st; specialize (Hst eq_refl)|by apply wp_skip, (has_ends a)].
  destruct (last_attr Assigned_Session_ID l) as [p|]; [|by apply wp_disc].
  apply wp_bind, (wp_starts _ _ Hst); [quiet|]. intros _ w1 H1. destruct (unknown_attr _ _); [by apply wp_disc, starts_has|].
  apply wp_bind, (wp_starts _ _ H1); [by apply quiet_connected|]. intros b w2 H2. destruct b; cbn [negb]; [|by apply wp_disc, starts_has].
  apply wp_bind, (wp_session_connect sys cf base g Hg a w2 _ H2). intros b w3 H3. destruct b; cbn [negb]; [by apply wp_skip, (has_ends a)|by apply wp_disc].
Qed.

Lemma wp_recv_OCRP a l w : has base g a w -> wp (l2tp_recv_OCRP d rnd sys a l) (fun _ => done_) w.
Proof using Hg.
  intros Ha. assert (Hin : a ∈ [a]) by (by left). unfold l2tp_recv_OCRP. apply wp_bind, (wp_state1 _ _ _ Ha). intros st Hst.
  unfold is_st. case_bool_decide as E; cbn [negb]; [subst st; specialize (Hst eq_refl)|by apply wp_skip, (has_ends a)].
  destruct (last_attr Assigned_Session_ID l) as [p|]; [|by apply wp_disc].
  apply wp_bind, (wp_starts _ _ Hst); [quiet|]. intros _ w1 H1. destruct (unknown_attr _ _); [by apply wp_disc, starts_has|].
  apply (wp_wait _ STATE_WAIT_OCCN _ _ eq_refl H1). intros w2 H2. by apply (has_ends a), starts_has.
Qed.

Lemma wp_recv_connected waits known a l w :
  sess_cls waits = Starting -> has base g a w -> wp (recv_connected d rnd sys cf waits known a l) (fun _ => done_) w.
Proof using Hg.
  intros Hw Ha. assert (Hin : a ∈ [a]) by (by left). unfold recv_connected. apply wp_bind, (wp_state1 _ _ _ Ha). intros st Hst.
  unfold is_st. case_bool_decide as E; cbn [negb]; [subst st; specialize (Hst Hw)|by apply wp_skip, (has_ends a)].
  apply wp_bind, (wp_starts _ _ Hst); [quiet|]. intros _ w1 H1. destruct (unknown_attr _ _); [by apply wp_disc, starts_has|].
  apply wp_bind, (wp_session_connect sys cf base g Hg a w1 _ H1). intros b w2 H2. destruct b; cbn [negb]; [by apply wp_skip, (has_ends a)|by apply wp_disc].
Qed.

Lemma wp_recv_CDN a l w : has base g a w -> wp (l2tp_recv_CDN d rnd sys a l) (fun _ => done_) w.
Proof using Hg.
  intros Ha. assert (Hin : a ∈ [a]) by (by left). unfold l2tp_recv_CDN. apply wp_bind, (wp_state1 _ _ _ Ha). intros st _.
  destruct (is_st _ _); [by apply wp_skip, (has_ends a)|].
  apply wp_bind, (wp_has _ _ Ha). { destruct (last_attr _ _); [|quiet]. apply quiet_sset; [done|]. intros []. cbn. by destruct (_ =? 0). }
  intros _ w1 H1. apply wp_bind, (wp_has _ _ H1); [by apply quiet_session_clear_sendqueue|]. intros _ w2 H2. by apply wp_free.
Qed.

Lemma wp_session_recv a l t m w : has base g a w -> wp (l2tp_session_recv d rnd sys cf a l t m) (fun _ => done_) w.
Proof using Hg.
  intros Ha. assert (Hin : a ∈ [a]) by (by left). unfold l2tp_session_recv. destruct (_ =? _); [by apply wp_recv_OCRP|]. destruct (_ =? _); [by apply wp_recv_connected|].
  destruct (_ =? _); [by apply wp_recv_ICRP|]. destruct (_ =? _); [by apply wp_recv_connected|]. destruct (_ =? _); [by apply wp_recv_CDN|].
  destruct (known_message t); [|destruct m; [by apply wp_disc|by apply wp_skip, (has_ends a)]].
  apply (wp_has _ _ Ha); [quiet|]. intros _ w1 H1. by apply (has_ends a).
Qed.

(** *** Messages to the tunnel *)

Lemma wp_disconnected v w res err : At base g v w -> v_dead v = false -> wp (disconnect d rnd sys res err) (fun _ => done_) w.
Proof using Hg.
  intros HA Hd. destruct Hg as (G1 & G2 & G3 & G4). unfold disconnect. apply wp_bind.
  eapply wp_mono; [apply (wp_disconnect sys d rnd HA); try done; split; lia|]. intros r w1 H1. apply wp_skip. eapply ends_any. exact H1.
Qed.

Lemma wp_freed v w : At base g v w -> v_dead v = false -> wp (l2tp_tunnel_free sys) (fun _ => done_) w.
Proof using Hg.
  intros HA Hd. destruct Hg as (G1 & G2 & G3 & G4). eapply wp_mono; [apply (wp_tunnel_free sys HA); try done; split; lia|].
  intros r w1 H1. eapply ends_any. exact H1.
Qed.

Lemma wp_tunnel_connect v w Q :
  At base g v w -> v_dead v = false -> conn_cls (v_state v) = Starting ->
  (forall w', At base g v w' -> Q false w') -> (forall w', done_ w' -> Q true w') -> wp (l2tp_tunnel_connect sys cf) Q w.
Proof using.
  intros HA Hd Hc HF HT. unfold l2tp_tunnel_connect. apply wp_bind, (wp_quiet HA []); [quiet|done|clear; set_solver|]. intros t w1 H1.
  apply wp_bind, (wp_quiet H1 []); [quiet|done|clear; set_solver|]. intros _ w2 H2.
  apply wp_bind, (wp_quiet H2 []); [quiet|done|clear; set_solver|]. intros b w3 H3. destruct b; cbn [negb]; [|by apply wp_ret, HF].
  apply wp_bind, (wp_quiet H3 []); [quiet|done|clear; set_solver|]. intros b w4 H4. destruct b; cbn [negb]; [|by apply wp_ret, HF].
  apply wp_bind, (wp_move H4). intros w5 H5. apply wp_bind.
  eapply (wp_cset H5 base g _ (set_state STATE_ESTB)); [done|by intros []|done| |done|].
  - eapply inv_state; [apply H5|done..| |].
    + clear -Hc. revert Hc. change (v_state (up _ (down _ v))) with (v_state v). by destruct (v_state v).
    + intros i. change (v_state (up _ (down _ v))) with (v_state v). unfold bump, conn_part. rewrite Hc. cbn [conn_cls]. lia.
  - intros w6 H6. apply wp_ret, HT. by apply (ends_at _ _ _ _ _ H6).
Qed.

Lemma wp_connect_or v w res err :
  At base g v w -> v_dead v = false -> conn_cls (v_state v) = Starting ->
  wp (b ← l2tp_tunnel_connect sys cf; if negb b then disconnect d rnd sys res err else skip) (fun _ => done_) w.
Proof using Hg.
  intros HA Hd Hc. apply wp_bind, (wp_tunnel_connect v); try done; cbn [negb].
  intros w1 H1. by apply (wp_disconnected v).
Qed.

Lemma wp_recv_SCCRP v w l : At base g v w -> v_dead v = false -> wp (l2tp_recv_SCCRP d rnd sys cf l) (fun _ => done_) w.
Proof using Hg.
  intros HA Hd. unfold l2tp_recv_SCCRP. apply wp_bind, (wp_cget HA); [done|]. rewrite (at_state HA). unfold is_st.
  case_bool_decide as Es; cbn [negb]; [|apply wp_skip; by exists v].
  assert (D : forall res err w, At base g v w -> wp (disconnect d rnd sys res err) (fun _ => done_) w) by (intros; by apply (wp_disconnected v)).
  destruct (last_attr Assigned_Tunnel_ID l); [|by apply D].
  apply wp_bind, (wp_quiet HA []); [quiet|done|clear; set_solver|]. intros _ w1 H1.
  destruct (unknown_attr SCCRP_known l); [by apply D|]. destruct (last_attr Framing_Capabilities l); [|by apply D].
  destruct (last_attr Protocol_Version l); [|by apply D]. destruct (negb _); [by apply D|].
  apply wp_bind, (wp_quiet H1 []); [quiet|done|clear; set_solver|]. intros b w2 H2. destruct b; cbn [negb]; [|by apply D].
  apply wp_bind, (wp_quiet H2 []); [quiet|done|clear; set_solver|]. intros b w3 H3. destruct b; cbn [negb]; [|by apply D].
  apply wp_bind, (wp_quiet H3 []); [quiet|done|clear; set_solver|]. intros b w4 H4. destruct b; cbn [negb]; [|by apply D].
  apply wp_bind, (wp_quiet H4 []); [quiet|done|clear; set_solver|]. intros b w5 H5. destruct b; cbn [negb]; [|by apply D].
  apply (wp_connect_or v); try done. by rewrite Es.
Qed.

Lemma wp_recv_SCCCN v w l : At base g v w -> v_dead v = false -> wp (l2tp_recv_SCCCN d rnd sys cf l) (fun _ => done_) w.
Proof using Hg.
  intros HA Hd. unfold l2tp_recv_SCCCN. apply wp_bind, (wp_cget HA); [done|]. rewrite (at_state HA). unfold is_st.
  case_bool_decide as Es; cbn [negb]; [|apply wp_skip; by exists v]. destruct (unknown_attr _ l); [by apply (wp_disconnected v)|].
  apply wp_bind, (wp_quiet HA []); [quiet|done|clear; set_solver|]. intros b w1 H1. destruct b; cbn [negb]; [|by apply (wp_disconnected v)].
  apply wp_bind, (wp_quiet H1 []); [quiet|done|clear; set_solver|]. intros b w2 H2.
  apply (wp_connect_or v); try done. by rewrite Es.
Qed.

Lemma wp_finwait v w : At base g v w -> v_dead v = false -> wp (l2tp_tunnel_finwait d rnd sys) (fun _ => done_) w.
Proof using Hg.
  intros HA Hd. pose proof Hg as (G1 & G2 & G3 & G4). unfold l2tp_tunnel_finwait. apply wp_bind, (wp_cget HA); [done|]. rewrite (at_state HA).
  set (go := v_state v = STATE_WAIT_SCCRP \/ v_state v = STATE_WAIT_SCCCN \/ v_state v = STATE_ESTB \/ v_state v = STATE_FIN).
  assert (Hskip : wp skip (fun _ => done_) w) by (apply wp_skip; by exists v).
  match goal with |- wp (match _ with STATE_WAIT_SCCRP => ?m | _ => _ end) ?q _ => assert (Hm : go -> wp m q w) end.
  2:{ unfold go in Hm. destruct (v_state v); first [exact Hskip | apply Hm; tauto]. }
  intros Hgo. assert (Hc : conn_cls (v_state v) = Starting \/ conn_cls (v_state v) = Active \/ conn_cls (v_state v) = Finishing)
    by (destruct Hgo as [E|[E|[E|E]]]; rewrite E; cbn; tauto).
  assert (Ho : is_st (v_state v) STATE_CLOSE = false) by (by destruct Hgo as [E|[E|[E|E]]]; rewrite E). clear Hskip Hgo go.
  apply wp_bind, (wp_conn_leave HA _ _ Hc). intros base1 v1 w1 H1 Hb1 Ed1 Es1 Et1 Ec1. rewrite Hd in Ed1.
  apply wp_bind. eapply (wp_cset H1 base g _ (set_state STATE_FIN_WAIT)); [done|by intros []|done| |done|].
  { eapply inv_state; [apply H1|done..|by rewrite Es1, Ho|]. by rewrite Es1. }
  intros w2 H2. set (v2 := set_state STATE_FIN_WAIT v1) in *. assert (Hd2 : v_dead v2 = false) by done.
  apply wp_bind, (wp_quiet H2 []); [quiet|done|clear; set_solver|]. intros _ w3 H3.
  apply wp_bind, (wp_quiet H3 []); [quiet|done|clear; set_solver|]. intros _ w4 H4.
  apply wp_bind. eapply wp_mono; [apply (wp_free_sessions sys H4); try done; split; lia|]. intros r w5 (v5 & H5 & E5 & _).
  assert (Hd5 : v_dead v5 = false) by (apply (at_kept H5); right; right; by rewrite E5).
  apply wp_bind, (wp_quiet H5 []); [quiet|done|clear; set_solver|]. intros _ w6 H6.
  apply wp_bind, (wp_quiet H6 []); [quiet|done|clear; set_solver|]. intros b w7 H7. destruct b; cbn [negb]; [apply wp_skip; by exists v5|].
  apply wp_bind, (wp_quiet H7 []); [quiet|done|clear; set_solver|]. intros b w8 H8. by apply (wp_freed v5).
Qed.

Lemma wp_recv_StopCCN v w l : At base g v w -> v_dead v = false -> wp (l2tp_recv_StopCCN d rnd sys l) (fun _ => done_) w.
Proof using Hg.
  intros HA Hd. unfold l2tp_recv_StopCCN. apply wp_bind, (wp_cget HA); [done|]. destruct (_ || _); [apply wp_skip; by exists v|].
  apply wp_bind, (wp_quiet HA []); [|done|clear; set_solver|intros _ w1 H1; by apply (wp_finwait v)].
  destruct (last_attr _ _); [|quiet]. apply quiet_cset; intros c; destruct (_ =? 0); try done; try (by destruct c). 
  all: rewrite app_nil_r; by destruct c.
Qed.

Lemma wp_tunnel_recv v w l t m : At base g v w -> v_dead v = false -> wp (l2tp_tunnel_recv d rnd sys adm cf l t m) (fun _ => done_) w.
Proof using Hg.
  intros HA Hd. assert (Hskip : wp skip (fun _ => done_) w) by (apply wp_skip; by exists v).
  unfold l2tp_tunnel_recv. destruct (_ =? _); [by apply (wp_recv_SCCRP v)|]. destruct (_ =? _); [by apply (wp_recv_SCCCN v)|].
  destruct (_ =? _); [by apply (wp_recv_StopCCN v)|].
  destruct (_ =? _). { apply (wp_quiet HA []); [quiet|done|clear; set_solver|]. intros r w1 H1. by exists v. }
  destruct (_ =? _).
  { unfold l2tp_recv_OCRQ. apply wp_bind, (wp_cget HA); [done|]. apply wp_bind, (wp_cget HA); [done|]. destruct (_ && _); [done|].
    apply (wp_recv_call v); try done. intros a w' Q. apply wp_outcall_reply. }
  destruct (_ =? _).
  { unfold l2tp_recv_ICRQ. apply wp_bind, (wp_cget HA); [done|]. apply wp_bind, (wp_cget HA); [done|]. destruct (_ && _); [done|].
    apply (wp_recv_call v); try done. intros a w' Q. apply wp_incall_reply. }
  destruct (known_message t); [done|]. destruct m; [|done]. by apply (wp_disconnected v).
Qed.

Lemma wp_get_session v w i Q :
  At base g v w -> v_dead v = false -> (forall r, (forall a, r = Some a -> a ∈ v_tree v) -> Q r w) -> wp (l2tp_tunnel_get_session i) Q w.
Proof using.
  intros HA Hd HQ. unfold l2tp_tunnel_get_session. apply wp_bind, (wp_cget HA); [done|]. rewrite (at_tree HA). apply wp_gets, HQ.
  intros a Ha. apply List.find_some in Ha as [Ha _]. by apply list_elem_of_In.
Qed.

Lemma wp_handle_msg v w p : At base g v w -> v_dead v = false -> wp (handle_msg d rnd sys adm cf p) (fun _ => done_) w.
Proof using Hg.
  intros HA Hd. assert (Hskip : wp skip (fun _ => done_) w) by (apply wp_skip; by exists v).
  unfold handle_msg. apply wp_bind, (wp_cget HA); [done|]. destruct (_ || _); [done|]. destruct (attrs p) as [|a l].
  { apply (wp_quiet HA []); [quiet|done|clear; set_solver|]. intros r w1 H1. by exists v. }
  destruct (negb _); [done|]. destruct (negb _); [|by apply (wp_tunnel_recv v)].
  apply wp_bind, (wp_get_session v); try done. intros [b|] Hb; [|done]. apply wp_session_recv. exists v. split; [done|]. by apply Hb.
Qed.

(** *** Reading: the reader holds the tunnel *)

Hypothesis Hh : 0 < g_h g.

Lemma held_dead v w : At base g v w -> v_dead v = false.
Proof using Hh. intros HA. apply (at_kept HA). by left. Qed.

Lemma wp_done {A} (m : M A) Q w : done_ w -> quiet [] m -> (forall r w', done_ w' -> Q r w') -> wp m Q w.
Proof using Hh.
  intros (v & HA & _) Hm HQ. apply (wp_quiet HA []); [done|by apply (held_dead v w)|clear; set_solver|]. intros r w' H'. apply HQ. by exists v.
Qed.

Lemma wp_take v w c' Q :
  At base g v w -> send_queue c' = send_queue (chn (conn w)) -> (forall w', At base g v w' -> Q tt w') -> wp (on_chn (fun _ => c')) Q w.
Proof using Hh.
  intros HA E HQ. pose proof (held_dead v w HA) as Hd. unfold wp. change (val (on_chn (fun _ => c')) w) with tt. apply HQ.
  assert (Ev : view_of (exec (on_chn (fun _ => c')) w) = view_of w).
  { unfold on_chn. rewrite exec_cset by (by rewrite (at_freed HA)). clear -E. destruct w as [[]]. cbn in *. unfold view_of, links. cbn. by rewrite E. }
  destruct HA as [X1 X2 X3]. split; rewrite ?Ev; done.
Qed.

Lemma take_send id (c c' : chan qpack l2tp_packet_t) p i : take_at id c = Some (p, i, c') -> send_queue c' = send_queue c.
Proof using. unfold take_at. destruct (recv_queue c !! _) as [[x|]|]; try done. by intros [= <- <- <-]. Qed.

Lemma wp_reply_loop fuel id n w Q : done_ w -> (forall r w', done_ w' -> Q r w') -> wp (reply_loop d rnd sys adm cf fuel id n) Q w.
Proof using Hg Hh.
  revert id n w. induction fuel as [|fuel IH]; intros id n w Hw HQ; cbn [reply_loop]; [by apply wp_ret, HQ|].
  destruct Hw as (v & HA & _). pose proof (held_dead v w HA) as Hd.
  apply wp_bind, (wp_cget HA); [done|]. apply wp_bind, (wp_cget HA); [done|]. destruct (is_st _ _); [apply wp_ret, HQ; by exists v|].
  destruct (take_at id (chn (conn w))) as [[[p i] c']|] eqn:Et; [|apply wp_ret, HQ; by exists v].
  apply wp_bind, (wp_take v); [done|by apply (take_send _ _ _ _ _ Et)|]. intros w1 H1.
  apply wp_bind. eapply wp_mono; [by apply (wp_handle_msg v)|]. intros r w2 H2.
  apply wp_bind, (wp_done _ _ _ H2); [apply quiet_cget|]. intros c w3 H3. destruct (_ =? _); [by apply wp_ret, HQ|]. by apply IH.
Qed.

Lemma wp_reply b w Q : done_ w -> (forall r w', done_ w' -> Q r w') -> wp (l2tp_tunnel_reply d rnd sys adm cf b) Q w.
Proof using Hg Hh.
  intros Hw HQ. unfold l2tp_tunnel_reply. apply wp_bind, (wp_done _ _ _ Hw); [apply quiet_cget|]. intros c w1 H1.
  apply wp_bind, wp_reply_loop; [done|]. intros n w2 H2.
  apply wp_bind, (wp_done _ _ _ H2); [by apply quiet_chn_same|]. intros _ w3 H3.
  apply wp_bind, (wp_done _ _ _ H3); [quiet|]. intros n' w4 H4. destruct (_ && _); [|by apply wp_ret, HQ].
  apply wp_bind, (wp_done _ _ _ H4); [quiet|]. intros b' w5 H5. by apply wp_ret, HQ.
Qed.

Lemma wp_done_free w Q : done_ w -> (forall w', done_ w' -> Q tt w') -> wp (l2tp_tunnel_free sys) Q w.
Proof using Hg Hh.
  intros (v & HA & _) HQ. eapply wp_mono; [apply (wp_freed v); [done|by apply (held_dead v w)]|]. intros [] w' H'. by apply HQ.
Qed.

End Sess.

End Msgs.

(** ** The events of a tunnel *)

Module Events.
Import L2tpPacket L2tpChan L2tpTunnel Wp View Quiet Inv At Free DataChan Alloc Calls Msgs.

Section Sys.
Context (d : l2tp_dict) (rnd : nat -> Z -> option (list Z)) (sys : nat -> bool) (adm : nat -> admission) (malloc_ok : Z -> bool) (cf : config).
Context (base : ctr -> Z).

Definition fine (w : world) : Prop := ends base idle anyhow w.

Lemma clean_idle : clean idle.
Proof using. repeat split; cbn; lia. Qed.

Lemma wp_conn_read v w ins pu :
  At base idle v w -> v_dead v = false -> wp (l2tp_conn_read d rnd sys adm malloc_ok cf ins pu) (fun _ => fine) w.
Proof using.
  intros HA Hd. unfold l2tp_conn_read. apply wp_bind, (wp_tunnel_hold HA); [done|done|]. set (g := with_h _ idle). intros w1 H1.
  assert (Hg : clean g) by (repeat split; cbn; lia). assert (Hh : 0 < g_h g) by done.
  assert (W1 : done_ base g w1) by (by exists (vhold_conn v)).
  assert (Put : forall w, done_ base g w -> wp tunnel_put (fun _ => fine) w).
  { intros w' (v' & HA' & _). apply (wp_tunnel_put (g := idle) HA'); [done|]. intros w2 H2. by exists (vput_conn v'). }
  assert (Free : forall w, done_ base g w -> wp (l2tp_tunnel_free sys ;; tunnel_put) (fun _ => fine) w).
  { intros w' H'. apply wp_bind, (wp_done_free sys base g Hg Hh w' _ H'). intros w2 H2. by apply Put. }
  apply wp_bind, (wp_done base g Hh _ _ _ W1); [quiet|]. intros [b|] w2 H2; [|by apply Free]. destruct pu; [by apply Free|].
  apply wp_bind, (wp_done base g Hh _ _ _ H2); [quiet|]. intros c w3 H3. destruct c; cbn [negb]; [|by apply Free].
  apply wp_bind, (wp_reply d rnd sys adm cf base g Hg Hh b w3 _ H3). intros r w4 H4. destruct (r <? 0); [by apply Free|].
  apply wp_bind, (wp_done base g Hh _ _ _ H4); [apply quiet_cget|]. intros st w5 H5.
  apply wp_bind, (wp_done base g Hh _ _ _ H5); [apply quiet_cget|]. intros c w6 H6. destruct (_ && _); [by apply Free|by apply Put].
Qed.

Lemma wp_rtimeout v w : At base idle v w -> v_dead v = false -> wp (l2tp_rtimeout sys) (fun _ => fine) w.
Proof using.
  intros HA Hd. unfold l2tp_rtimeout. apply wp_bind, (wp_cget HA); [done|].
  assert (Err : forall w, At base idle v w -> wp (timer_del rtimeout_timer set_rtimeout ;; l2tp_tunnel_free sys) (fun _ => fine) w).
  { intros w' H'. apply wp_bind, (wp_quiet H' []); [quiet|done|clear; set_solver|]. intros _ w2 H2. by apply (wp_freed sys base idle clean_idle v). }
  destruct (rtms_queue _) as [|[n q] l]; [apply wp_skip; by exists v|].
  apply wp_bind, (wp_quiet HA []); [quiet|done|clear; set_solver|]. intros _ w1 H1.
  apply wp_bind, (wp_quiet H1 []); [quiet|done|clear; set_solver|]. intros r w2 H2.
  apply wp_bind, (wp_quiet H2 []); [quiet|done|clear; set_solver|]. intros m w3 H3. destruct (m <? r); [by apply Err|].
  apply wp_bind, (wp_quiet H3 []); [quiet|done|clear; set_solver|]. intros b w4 H4. destruct b; cbn [negb]; [|by apply Err].
  apply wp_bind, (wp_quiet H4 []); [quiet|done|clear; set_solver|]. intros _ w5 H5.
  apply wp_bind, (wp_quiet H5 []); [quiet|done|clear; set_solver|]. intros b w6 H6. destruct b; cbn [negb]; [apply wp_skip; by exists v|by apply Err].
Qed.

Lemma wp_disc_push v w res err : At base idle v w -> v_state v <> STATE_CLOSE ->
  wp (l2tp_tunnel_disconnect_push d rnd sys res err ;; skip) (fun _ => fine) w.
Proof using.
  intros HA Ho. apply wp_bind. eapply wp_mono; [apply (wp_disconnect_push sys d rnd HA); try done; by right; right|].
  intros r w1 H1. by apply wp_skip.
Qed.

Lemma wp_tunnel_timeout v w : At base idle v w -> v_state v <> STATE_CLOSE -> wp (l2tp_tunnel_timeout d rnd sys) (fun _ => fine) w.
Proof using.
  intros HA Ho. assert (Hd : v_dead v = false) by (apply (at_kept HA); by right; right). unfold l2tp_tunnel_timeout.
  apply wp_bind, (wp_quiet HA []); [quiet|done|clear; set_solver|]. intros _ w1 H1. by apply (wp_disc_push v).
Qed.

Lemma wp_finwait_timeout v w : At base idle v w -> v_dead v = false -> wp (l2tp_tunnel_finwait_timeout sys) (fun _ => fine) w.
Proof using.
  intros HA Hd. unfold l2tp_tunnel_finwait_timeout. apply wp_bind, (wp_quiet HA []); [quiet|done|clear; set_solver|]. intros _ w1 H1.
  by apply (wp_freed sys base idle clean_idle v).
Qed.

Lemma wp_send_HELLO v w : At base idle v w -> v_dead v = false -> wp (l2tp_send_HELLO d rnd sys) (fun _ => fine) w.
Proof using.
  intros HA Hd. unfold l2tp_send_HELLO. apply wp_bind, (wp_cget HA); [done|].
  apply wp_bind, (wp_quiet HA []); [quiet|done|clear; set_solver|]. intros [p|] w1 H1; [|by apply (wp_freed sys base idle clean_idle v)].
  apply wp_bind, (wp_quiet H1 []); [quiet|done|clear; set_solver|]. intros _ w2 H2.
  apply wp_bind, (wp_quiet H2 []); [quiet|done|clear; set_solver|]. intros r w3 H3.
  destruct (r <? 0); [by apply (wp_freed sys base idle clean_idle v)|apply wp_skip; by exists v].
Qed.

Lemma wp_send_start v w p next :
  At base idle v w -> v_state v = STATE_INIT -> next = STATE_WAIT_SCCRP \/ next = STATE_WAIT_SCCCN ->
  wp (send_start sys p next) (fun _ => fine) w.
Proof using.
  intros HA Hs Hn. assert (Hd : v_dead v = false) by (apply (at_kept HA); right; right; by rewrite Hs).
  unfold send_start. destruct p as [p|]; [|by apply (wp_freed sys base idle clean_idle v)].
  apply wp_bind, (wp_quiet HA []); [quiet|done|clear; set_solver|]. intros _ w1 H1.
  apply wp_bind, (wp_quiet H1 []); [quiet|done|clear; set_solver|]. intros r w2 H2. destruct (r <? 0); [by apply (wp_freed sys base idle clean_idle v)|].
  eapply (wp_cset H2 base idle _ (set_state next)); [done|by intros []|done| |done|].
  - eapply inv_state; [apply H2|done|..]; destruct Hn as [->| ->]; rewrite ?Hs; done.
  - intros w3 H3. by apply (ends_at _ _ _ _ _ H3).
Qed.

Lemma wp_send_SCCRQ v w : At base idle v w -> v_state v = STATE_INIT -> wp (l2tp_send_SCCRQ d rnd sys cf) (fun _ => fine) w.
Proof using.
  intros HA Hs. assert (Hd : v_dead v = false) by (apply (at_kept HA); right; right; by rewrite Hs). unfold l2tp_send_SCCRQ.
  apply wp_bind, (wp_cget HA); [done|].
  apply wp_bind, (wp_quiet HA []); [quiet|done|clear; set_solver|]. intros p1 w1 H1.
  apply wp_bind, (wp_quiet H1 []); [quiet|done|clear; set_solver|]. intros p2 w2 H2.
  apply wp_bind, (wp_quiet H2 []); [quiet|done|clear; set_solver|]. intros p3 w3 H3. apply (wp_send_start v); tauto.
Qed.

Lemma wp_send_SCCRP v w : At base idle v w -> v_state v = STATE_INIT -> wp (l2tp_send_SCCRP d rnd sys cf) (fun _ => fine) w.
Proof using.
  intros HA Hs. assert (Hd : v_dead v = false) by (apply (at_kept HA); right; right; by rewrite Hs). unfold l2tp_send_SCCRP.
  apply wp_bind, (wp_cget HA); [done|].
  apply wp_bind, (wp_quiet HA []); [quiet|done|clear; set_solver|]. intros p1 w1 H1.
  apply wp_bind, (wp_quiet H1 []); [quiet|done|clear; set_solver|]. intros p2 w2 H2.
  apply wp_bind, (wp_quiet H2 []); [quiet|done|clear; set_solver|]. intros p3 w3 H3.
  apply wp_bind, (wp_quiet H3 []); [quiet|done|clear; set_solver|]. intros p4 w4 H4. apply (wp_send_start v); tauto.
Qed.

Lemma wp_ap_finished v w i : At base idle v w -> v_dead v = false -> wp (l2tp_session_apses_finished d rnd sys i) (fun _ => fine) w.
Proof using.
  intros HA Hd. unfold l2tp_session_apses_finished. apply wp_bind, (wp_get_session base idle v); try done.
  intros [a|] Ha; [|apply wp_skip; by exists v]. assert (Hx : has base idle a w) by (exists v; split; [done|by apply Ha]).
  apply wp_bind, (wp_state1 base idle a w _ Hx). intros st _. destruct (is_st _ _); [|apply wp_skip; by exists v].
  by apply (wp_session_disconnect_push d rnd sys base idle clean_idle).
Qed.

Lemma wp_place_call a w Q : starts base idle a w -> (forall r w', has base idle a w' -> Q r w') -> wp (l2tp_session_place_call d rnd sys a) Q w.
Proof using.
  intros Ha HQ. assert (Hin : a ∈ [a]) by (by left). unfold l2tp_session_place_call. apply wp_bind, (wp_start_timer sys base idle a w _ Ha). intros b w1 H1.
  destruct b; cbn [negb]; [|by apply wp_ret, HQ, starts_has].
  apply wp_bind, (wp_starts _ _ H1); [quiet|]. intros lns w2 H2.
  apply wp_bind, (wp_starts _ _ H2); [destruct lns; [by apply quiet_OCRQ|by apply quiet_ICRQ]|]. intros b w3 H3. destruct b; cbn [negb].
  - apply wp_bind, (wp_wait base idle a (if lns : bool then STATE_WAIT_OCRP else STATE_WAIT_ICRP)); [by destruct lns|done|]. intros w4 H4. by apply wp_ret, HQ, starts_has.
  - apply wp_bind, (wp_del_timer base idle a w3 _ H3). intros w4 H4. by apply wp_ret, HQ, starts_has.
Qed.

Lemma wp_create_session v w : At base idle v w -> v_dead v = false -> wp (l2tp_tunnel_create_session d rnd sys cf) (fun _ => fine) w.
Proof using.
  intros HA Hd. unfold l2tp_tunnel_create_session. apply wp_bind, (wp_cget HA); [done|]. destruct (negb _); [apply wp_skip; by exists v|].
  apply wp_bind, (wp_alloc_session rnd sys cf HA); [done|done|intros w1 H1; apply wp_skip; by exists v|]. intros a w1 v1 H1 _ Hf.
  assert (S1 : starts base idle a w1) by (by exists v1).
  apply wp_bind, (wp_place_call a w1 _ S1). intros b w2 H2. destruct b; cbn [negb]; [|by apply (wp_free d rnd sys base idle clean_idle)].
  apply wp_bind, (wp_has _ _ H2); [quiet|]. intros r w3 H3. destruct (r <? 0); [by apply (wp_free d rnd sys base idle clean_idle)|].
  apply wp_skip. destruct H3 as (v3 & H3 & _). by exists v3.
Qed.

Lemma wp_session_timeout a w : has base idle a w -> wp (l2tp_session_timeout d rnd sys a) (fun _ => fine) w.
Proof using.
  intros Ha. unfold l2tp_session_timeout. apply wp_bind, (wp_has_untimer base idle a w _ Ha). intros w1 H1.
  by apply (wp_session_disconnect_push d rnd sys base idle clean_idle).
Qed.

(** The message the queue starts with is sent before anything happens to the tunnel. *)
Definition start_first (w : world) : Prop :=
  match c_calls (conn w) with
  | (SendSCCRQ | SendSCCRP) :: _ => state (conn w) = STATE_INIT
  | _ => True
  end.

Lemma wp_run_conn v w : At base idle v w -> v_dead v = false -> start_first w -> wp (run_conn d rnd sys cf) (fun _ => fine) w.
Proof using.
  intros HA Hd Hf. unfold run_conn. apply wp_bind, (wp_cget HA); [done|]. unfold start_first in Hf. rewrite (at_state HA) in Hf.
  destruct (c_calls (conn w)) as [|f l]; [apply wp_skip; by exists v|].
  apply wp_bind, (wp_quiet HA []); [quiet|done|clear; set_solver|]. intros _ w1 H1. destruct f.
  - by apply (wp_send_SCCRQ v).
  - by apply (wp_send_SCCRP v).
  - by apply (wp_ap_finished v).
  - by apply (wp_create_session v).
Qed.

End Sys.

End Events.

(** ** A tunnel is set up *)

Module Setup.
Import L2tpPacket L2tpChan L2tpTunnel Wp View Quiet Inv At Free DataChan Alloc Calls Msgs Events.

Lemma view_oks sys n w : view_of (exec (oks sys n) w) = view_of w.
Proof.
  revert w. induction n as [|n IH]; intros w; cbn [oks]; [done|]. rewrite exec_bind. destruct (val (ok sys) w); [|done]. by rewrite IH.
Qed.

Lemma view_run_bld {A} (b : bld A) w : view_of (exec (run_bld b) w) = view_of w.
Proof. unfold run_bld, exec. by destruct (b (draw w)). Qed.

Lemma view_new_sid rnd n used w : view_of (exec (new_sid rnd n used) w) = view_of w.
Proof.
  revert w. induction n as [|n IH]; intros w; cbn [new_sid]; [done|]. rewrite exec_bind. rewrite <- (view_run_bld (u_rand16 rnd) w).
  destruct (val (run_bld (u_rand16 rnd)) w); [|done]. destruct (_ || _); [apply IH|done].
Qed.

Lemma at_same base g v w w' : At base g v w -> view_of w' = view_of w -> At base g v w'.
Proof. intros [X1 X2 X3] E. split; by rewrite ?E. Qed.

(** There is no tunnel. *)
Definition blank (v : view) : Prop := v_state v = STATE_CLOSE /\ v_dead v = true /\ v_heap v = [].

Definition vnew (v : view) : view :=
  up stat_conn_starting (mk_view STATE_INIT [] 0 1 false false (v_heap v) [] (v_stat v) true (v_uaf v)).

Lemma inv_new base v : inv base idle v -> blank v -> inv base idle (vnew v).
Proof.
  intros Hi (Hs & Hd & Hh). pose proof (i_uaf _ _ _ Hi) as Hu. pose proof (i_stat _ _ _ Hi) as Hst.
  destruct v as [st tr ct rf dd cx hp lk sa tb uf]. cbn in *. subst.
  split; cbn; try done; try (by apply NoDup_nil); try (by intros ? ?%elem_of_nil); try (by intros ? ? ? ? ?%elem_of_nil); try (by intros ? ? ?%elem_of_nil); try lia.
  - apply (stat_add_ok _ _ _ _ _ Hst). intros []; done.
Qed.

Lemma wp_tunnel_alloc rnd sys cf base v w used fr lns ps hide Q :
  At base idle v w -> blank v -> (forall w', At base idle v w' -> Q false w') ->
  (forall w' v', At base idle v' w' -> v_state v' = STATE_INIT -> Q true w') ->
  wp (l2tp_tunnel_alloc rnd sys cf used fr lns ps hide) Q w.
Proof.
  intros HA Hb HF HT. unfold l2tp_tunnel_alloc. apply wp_bind. unfold wp at 1.
  pose proof (at_same _ _ _ _ _ HA (view_oks sys 12 w)) as H1. set (w1 := exec (oks sys 12) w) in *. destruct (val (oks sys 12) w); cbn [negb]; [|by apply wp_ret, HF].
  apply wp_bind. unfold wp at 1. pose proof (at_same _ _ _ _ _ H1 (view_new_sid rnd UINT16_MAX used w1)) as H2. set (w2 := exec (new_sid _ _ _) w1) in *.
  destruct (val (new_sid rnd UINT16_MAX used) w1) as [t|]; [|by apply wp_ret, HF].
  apply wp_bind. unfold wp at 1. apply wp_bind. unfold wp at 1. apply wp_bind. unfold wp at 1. apply wp_ret. eapply (HT _ (vnew v)); [|done].
  match goal with |- At _ _ _ ?x => assert (E : view_of x = vnew (view_of w2)) end.
  { unfold tunnel_hold. rewrite exec_cset by done. by destruct w2. }
  rewrite (at_view _ _ _ _ H2) in E. split; [by apply inv_new; [apply HA|]|by rewrite E|by rewrite E].
Qed.

Definition set_ctx (b : bool) (v : view) : view := v <| v_ctx := b |>.

Lemma inv_ctx base g v b : inv base g v -> is_open v = true -> inv base g (set_ctx b v).
Proof.
  intros [H1 H2 H3 H4 H4' H5 H6 H7 H8 H9 H10 H11 H12 H13 H14 H15 H17 H16] Ho. split; try done. intros _. by left.
Qed.

Section Sys.
Context (d : l2tp_dict) (rnd : nat -> Z -> option (list Z)) (sys : nat -> bool) (adm : nat -> admission) (malloc_ok : Z -> bool) (cf : config).
Context (base : ctr -> Z).

(** The tunnel exists and is not closed. *)
Definition opened (w : world) : Prop := exists v, At base idle v w /\ v_state v <> STATE_CLOSE.

Lemma opened_dead v w : At base idle v w -> v_state v <> STATE_CLOSE -> v_dead v = false /\ is_open v = true.
Proof using. intros HA Hs. split; [apply (at_kept HA); by right; right|]. unfold is_open, is_st. by rewrite bool_decide_false. Qed.

Lemma wp_opened {A} (m : M A) Q w : opened w -> quiet [] m -> (forall r w', opened w' -> Q r w') -> wp m Q w.
Proof using.
  intros (v & HA & Hs) Hm HQ. destruct (opened_dead v w HA Hs) as [Hd _].
  apply (wp_quiet HA []); [done|done|clear; set_solver|]. intros r w' H'. apply HQ. by exists v.
Qed.

Lemma wp_ctx b f Q w :
  opened w -> (forall c, view_of (w <| conn := c |> <| conn ::= f |>) = set_ctx b (view_of (w <| conn := c |>))) ->
  (forall w', opened w' -> Q tt w') -> wp (cset f) Q w.
Proof using.
  intros (v & HA & Hs) Hf HQ. destruct (opened_dead v w HA Hs) as [Hd Ho].
  apply (wp_cset HA base idle f (set_ctx b)); try done; [by apply inv_ctx; [apply HA|]|]. intros w' H'. apply HQ. by exists (set_ctx b v).
Qed.

Lemma wp_tunnel_start f w Q : opened w -> (forall r w', opened w' -> Q r w') -> wp (l2tp_tunnel_start sys f) Q w.
Proof using.
  intros Hw HQ. unfold l2tp_tunnel_start.
  assert (Off : forall w, opened w -> wp (cset (fun c => c <| hnd_on := false |> <| ctx_on := false |>) ;; mret false) Q w).
  { intros w' H'. apply wp_bind, (wp_ctx false _ _ _ H'); [by intros []|]. intros w2 H2. by apply wp_ret, HQ. }
  apply wp_bind, (wp_opened _ _ _ Hw); [quiet|]. intros b w1 H1. destruct b; cbn [negb]; [|by apply wp_ret, HQ].
  apply wp_bind, (wp_ctx true _ _ _ H1); [by intros []|]. intros w2 H2.
  apply wp_bind, (wp_opened _ _ _ H2); [quiet|]. intros b w3 H3. destruct b; cbn [negb]; [|by apply Off].
  apply wp_bind, (wp_opened _ _ _ H3); [quiet|]. intros b w4 H4. destruct b; cbn [negb]; [|by apply Off].
  apply wp_bind, (wp_opened _ _ _ H4); [unfold call_conn; quiet|]. intros b w5 H5. destruct b; cbn [negb]; [by apply wp_ret, HQ|].
  apply wp_bind, (wp_opened _ _ _ H5); [quiet|]. intros _ w6 H6. by apply Off.
Qed.

Lemma opened_fine w : opened w -> fine base w.
Proof using. intros (v & HA & _). by exists v. Qed.

Lemma wp_opened_free w : opened w -> wp (l2tp_tunnel_free sys ;; mret false) (fun _ => fine base) w.
Proof using.
  intros (v & HA & Hs). destruct (opened_dead v w HA Hs) as [Hd _]. apply wp_bind.
  eapply wp_mono; [by apply (wp_freed sys base idle clean_idle v)|]. intros r w1 H1. by apply wp_ret.
Qed.

Lemma wp_accept_SCCRQ v w used l t fr : At base idle v w -> blank v -> wp (accept_SCCRQ rnd sys cf used l t fr) (fun _ => fine base) w.
Proof using.
  intros HA Hb. unfold accept_SCCRQ. apply wp_bind, (wp_tunnel_alloc rnd sys cf base v); try done; cbn [negb]; [intros w1 H1; apply wp_ret; by exists v|].
  intros w1 v1 H1 Hs1. assert (O1 : opened w1) by (exists v1; by rewrite Hs1). clear v1 H1 Hs1.
  apply wp_bind, (wp_opened _ _ _ O1); [by apply quiet_chn_same|]. intros _ w2 H2. destruct (negb _); [by apply wp_opened_free|].
  apply wp_bind, (wp_opened _ _ _ H2); [quiet|]. intros b w3 H3. destruct b; cbn [negb]; [|by apply wp_opened_free].
  apply wp_bind, (wp_opened _ _ _ H3); [quiet|]. intros _ w4 H4.
  apply wp_bind, (wp_opened _ _ _ H4); [quiet|]. intros b w5 H5. destruct b; cbn [negb]; [|by apply wp_opened_free].
  apply wp_bind, (wp_opened _ _ _ H5); [quiet|]. intros _ w6 H6.
  apply wp_bind, (wp_opened _ _ _ H6); [by apply quiet_chn_same|]. intros _ w7 H7.
  apply wp_bind, (wp_tunnel_start SendSCCRP w7 _ H7). intros b w8 H8. destruct b; cbn [negb]; [by apply wp_ret, opened_fine|by apply wp_opened_free].
Qed.

Lemma wp_create_tunnel v w used lns hide sec : At base idle v w -> blank v -> wp (create_tunnel rnd sys cf used lns hide sec) (fun _ => fine base) w.
Proof using.
  intros HA Hb. unfold create_tunnel. apply wp_bind, (wp_tunnel_alloc rnd sys cf base v); try done; cbn [negb]; [intros w1 H1; apply wp_ret; by exists v|].
  intros w1 v1 H1 Hs1. assert (O1 : opened w1) by (exists v1; by rewrite Hs1). clear v1 H1 Hs1.
  apply wp_bind, (wp_opened _ _ _ O1); [quiet|]. intros b w2 H2. destruct b; cbn [negb]; [|by apply wp_opened_free].
  apply wp_bind, (wp_opened _ _ _ H2); [quiet|]. intros _ w3 H3.
  apply wp_bind, (wp_tunnel_start SendSCCRQ w3 _ H3). intros b w4 H4. destruct b; cbn [negb]; [by apply wp_ret, opened_fine|by apply wp_opened_free].
Qed.

Lemma wp_udp_read v w used ok_ old data :
  At base idle v w -> blank v -> wp (l2tp_udp_read1 d rnd sys adm malloc_ok cf used ok_ old data) (fun _ => fine base) w.
Proof using.
  intros HA Hb. assert (Same : forall w', view_of w' = view_of w -> fine base w') by (intros w' E; exists v; split; [by apply (at_same _ _ _ w)|done]).
  unfold l2tp_udp_read1. destruct (l2tp_recv _ _ _ _ _ _) as [| |p]; [by apply Same|by apply Same|].
  destruct (_ || _); [by apply Same|]. destruct (attrs p) as [|a l]; [by apply Same|]. destruct (_ && _); [|by apply Same].
  apply wp_bind. unfold l2tp_recv_SCCRQ. apply wp_bind. unfold wp at 1. destruct (val (refused adm) w); [by apply wp_ret, wp_skip, Same|].
  pose proof (at_same _ _ _ _ (exec (refused adm) w) HA eq_refl) as H1.
  destruct (last_attr Message_Digest _); [by apply wp_ret, wp_skip, Same|]. destruct (last_attr Assigned_Tunnel_ID _); [|by apply wp_ret, wp_skip, Same].
  destruct (last_attr Protocol_Version _); [|by apply wp_ret, wp_skip, Same]. destruct (last_attr Framing_Capabilities _); [|by apply wp_ret, wp_skip, Same].
  destruct (negb _); [by apply wp_ret, wp_skip, Same|]. eapply wp_mono; [by apply (wp_accept_SCCRQ v)|]. intros r w2 H2. by apply wp_skip.
Qed.

End Sys.

End Setup.
