(* ===== verification/L2tpSteps.v ===== *)
(** Every run of an L2TP tunnel: the theorems on its life.

    A tunnel is opened by the SCCRQ of a peer or by the operator; then datagrams arrive, timers
    expire, queued calls are run, data channels start and finish, in any order and any number,
    with any outcome of the calls that may fail.  [enabled] is what the contexts of the daemon
    allow: an event of a context comes while it is registered, a timer that runs expires. *)

From stdpp Require Import base tactics list sets numbers option strings.
From Stdlib Require Import ZArith Lia.
From S2P Require Import Prelude CLib Bytes RadDict Hash L2tpPacket L2tpDict L2tpWire L2tpChan L2tpTunnel L2tpView L2tpLife L2tpSafe L2tpRun.

Open Scope Z_scope.

Module L2tpSteps.
Import L2tpPacket L2tpChan L2tpTunnel Wp View Quiet Inv At Free DataChan Alloc Calls Msgs Events Setup.

Inductive opening :=
| FromPeer (used : Z -> bool) (client_ok : bool) (old data : list Z)
| FromOperator (used : Z -> bool) (lns hide : bool) (sec : option (list Z)).

Inductive ev :=
| Datagrams (ins : list rx) (peer_unreachable : bool)
| Call
| RTimeout
| Timeout
| Hello
| CloseTunnel
| SessTimeout (a : nat)
| CreateSess
| ApRun (a : nat)
| ApCtxStop (a : nat)
| ApStarted (a : nat)
| ApFinish (a : nat).

(** The message that opens the tunnel goes out before anything happens to the tunnel. *)
Definition start_ok (w : world) : bool :=
  match c_calls (conn w) with
  | (SendSCCRQ | SendSCCRP) :: _ => is_st (state (conn w)) STATE_INIT
  | _ => true
  end.

Definition enabled (e : ev) (w : world) : bool :=
  match e with
  | Datagrams _ _ | CloseTunnel => ctx_on (conn w)
  | Call => ctx_on (conn w) && start_ok w
  | RTimeout => ctx_on (conn w) && tm_on (rtimeout_timer (conn w))
  | Timeout => ctx_on (conn w) && tm_on (timeout_timer (conn w))
  | Hello => ctx_on (conn w) && tm_on (hello_timer (conn w))
  | SessTimeout a => ctx_on (conn w) && s_timeout (sess_at a w)
  | CreateSess => in_table w
  | ApRun a | ApCtxStop a | ApStarted a | ApFinish a => apses_on (sess_at a w)
  end.

Section Steps.
Context (d : l2tp_dict) (rnd : nat -> Z -> option (list Z)) (sys : nat -> bool) (adm : nat -> admission) (malloc_ok : Z -> bool) (cf : config).

Definition open_tunnel (o : opening) : M unit :=
  match o with
  | FromPeer used client_ok old data => l2tp_udp_read1 d rnd sys adm malloc_ok cf used client_ok old data
  | FromOperator used lns hide sec => create_tunnel rnd sys cf used lns hide sec ;; skip
  end.

(** The timer of the tunnel has another function once the peer has closed it. *)
Definition l2tp_timeout : M unit :=
  f ← cget fin_expire; if (f : bool) then l2tp_tunnel_finwait_timeout sys else l2tp_tunnel_timeout d rnd sys.

Definition handle (e : ev) : M unit :=
  match e with
  | Datagrams ins pu => l2tp_conn_read d rnd sys adm malloc_ok cf ins pu
  | Call => run_conn d rnd sys cf
  | RTimeout => l2tp_rtimeout sys
  | Timeout => l2tp_timeout
  | Hello => l2tp_send_HELLO d rnd sys
  | CloseTunnel => l2tp_conn_close d rnd sys
  | SessTimeout a => l2tp_session_timeout d rnd sys a
  | CreateSess => create_session sys ;; skip
  | ApRun a => run_apses sys a
  | ApCtxStop a => apses_ctx_stop sys a
  | ApStarted a => apses_started a
  | ApFinish a => apses_finished sys a
  end.

Fixpoint run (l : list ev) (w : world) : option world :=
  match l with
  | [] => Some w
  | e :: l => if enabled e w then run l (exec (handle e) w) else None
  end.

(** Before a tunnel is opened. *)
Definition no_tunnel (w : world) : Prop :=
  conn w = no_conn /\ heap w = [] /\ in_table w = false /\ uaf w = false /\ forall i, 0 <= stat w i < 2 ^ 32.

Lemma no_tunnel_at w : no_tunnel w -> At (stat w) idle (view_of w) w /\ blank (view_of w).
Proof using.
  intros (Hc & Hh & Ht & Hu & Hs). destruct w as [c h st tb o dr uf df u]. cbn in *. subst. split; [|done]. split; [|done..].
  split; cbn; try done; try (by apply NoDup_nil); try (by intros ? ?%elem_of_nil); try (by intros ? ? ? ? ?%elem_of_nil); try (by intros ? ? ?%elem_of_nil); try lia.
  intros i. rewrite <- (u32_small (st i)) at 1 by (width_unfold; apply Hs). f_equal. symmetry. destruct i; apply Z.add_0_r.
Qed.

Section Base.
Context (base : ctr -> Z).

Lemma ctx_open v w : At base idle v w -> ctx_on (conn w) = true -> v_state v <> STATE_CLOSE /\ v_dead v = false.
Proof using.
  intros HA Hc. rewrite (at_ctx HA) in Hc. destruct (i_ctx _ _ _ (at_inv _ _ _ _ HA) Hc) as [Ho|]; [|done].
  assert (Hs : v_state v <> STATE_CLOSE) by (unfold is_open, is_st in Ho; case_bool_decide; [done|congruence]).
  split; [done|]. by apply (opened_dead base v w).
Qed.

Lemma at_some {v w} (HA : At base idle v w) (p : l2tp_sess_t -> bool) a :
  p no_sess = false -> p (sess_at a w) = true -> exists s, v_heap v !! a = Some s /\ sview (sess_at a w) = s.
Proof using.
  intros Hn Hp. unfold sess_at in *. rewrite <- (at_heap HA), list_lookup_fmap. destruct (heap w !! a) as [x|]; [|cbn in Hp; congruence]. by exists (sview x).
Qed.

Lemma on_some {v w} (HA : At base idle v w) a : apses_on (sess_at a w) = true -> exists s, v_heap v !! a = Some s /\ v_on s = true.
Proof using. intros Ho. destruct (at_some HA apses_on a eq_refl Ho) as (s & Hs & <-). by eauto. Qed.

Lemma timer_has {v w} (HA : At base idle v w) a : s_timeout (sess_at a w) = true -> has base idle a w.
Proof using.
  intros Ht. destruct (at_some HA s_timeout a eq_refl Ht) as (s & Hs & Es). exists v. split; [done|].
  destruct (i_sess _ _ _ (at_inv _ _ _ _ HA) a s Hs) as [_ K2 _ _ _ _ _ K8]. assert (Hc : v_cls s = Starting) by (apply K8; by rewrite <- Es).
  unfold is_cls in K2. rewrite Hc in K2. apply bool_decide_eq_true in K2. unfold held in K2. by rewrite app_nil_r in K2.
Qed.

Lemma handle_fine e w : fine base w -> enabled e w = true -> fine base (exec (handle e) w).
Proof using.
  intros (v & HA & _) He. change (wp (handle e) (fun _ => fine base) w).
  assert (R1 : room 1 idle) by (split; cbn; lia).
  destruct e; cbn [enabled handle] in *; try (apply andb_true_iff in He as [Hc He']; destruct (ctx_open v w HA Hc) as [Hs Hd]);
    try (destruct (on_some HA a He) as (s & Hs & Ho)).
  - destruct (ctx_open v w HA He). by apply (wp_conn_read _ _ _ _ _ _ _ v).
  - apply (wp_run_conn _ _ _ _ _ v); try done. unfold start_ok in He'. unfold start_first. destruct (c_calls _) as [|[] ?]; try done; by apply bool_decide_eq_true in He'.
  - by apply (wp_rtimeout _ _ v).
  - unfold l2tp_timeout. apply wp_bind, (wp_cget HA); [done|]. destruct (fin_expire _); [by apply (wp_finwait_timeout _ _ v)|by apply (wp_tunnel_timeout _ _ _ _ v)].
  - by apply (wp_send_HELLO _ _ _ _ v).
  - destruct (ctx_open v w HA He). by apply (wp_disc_push _ _ _ _ v).
  - apply wp_session_timeout. by apply (timer_has HA).
  - assert (Ho : is_open v = true).
    { rewrite <- (i_table _ _ _ (at_inv _ _ _ _ HA)). change (in_table w) with (v_table (view_of w)) in He. by rewrite (at_view _ _ _ _ HA) in He. }
    assert (Hd : v_dead v = false) by (apply (inv_not_dead _ _ _ (at_inv _ _ _ _ HA)); tauto).
    apply wp_bind, (wp_quiet HA []); [unfold create_session, call_conn; quiet|done|clear; set_solver|]. intros r w1 H1. apply wp_skip. by exists v.
  - by apply (wp_run_apses sys HA a s).
  - by apply (wp_apses_stop sys HA a s).
  - by apply (wp_apses_started HA a s).
  - apply (wp_apses_finished sys HA a s); try done; [by exists v|]. intros w' (v' & s' & H' & _). by exists v'.
Qed.

Lemma run_fine l w w' : fine base w -> run l w = Some w' -> fine base w'.
Proof using.
  revert w. induction l as [|e l IH]; intros w Hw; cbn [run]; [by intros [= <-]|]. destruct (enabled e w) eqn:E; [|done].
  apply IH. by apply handle_fine.
Qed.

End Base.

Lemma open_fine o w : no_tunnel w -> fine (stat w) (exec (open_tunnel o) w).
Proof using.
  intros Hw. destruct (no_tunnel_at w Hw) as [HA Hb]. change (wp (open_tunnel o) (fun _ => fine (stat w)) w). destruct o; cbn [open_tunnel].
  - by apply (wp_udp_read d rnd sys adm malloc_ok cf _ (view_of w)).
  - apply wp_bind. eapply wp_mono; [by apply (wp_create_tunnel rnd sys cf (stat w) (view_of w))|]. intros r w1 H1. by apply wp_skip.
Qed.

(** *** What the theorems speak of *)

Definition live (s : l2tp_sess_t) : bool := negb (s_freed s).
Definition number (p : l2tp_sess_t -> bool) (w : world) : Z := Z.of_nat (length (List.filter p (heap w))).
Definition state_in (l : list st_t) (s : st_t) : bool := bool_decide (s ∈ l).
Definition channel_in (l : list ap_t) (s : l2tp_sess_t) : bool := apses_on s && bool_decide (apses_state s ∈ l).

Definition session_starting : list st_t := [STATE_INIT; STATE_WAIT_ICRP; STATE_WAIT_ICCN; STATE_WAIT_OCRP; STATE_WAIT_OCCN].

(** The share of the tunnel and its sessions in the global counters. *)
Definition share (w : world) (i : ctr) : Z :=
  let c := conn w in
  match i with
  | stat_conn_starting => Z.b2z (state_in [STATE_INIT; STATE_WAIT_SCCRP; STATE_WAIT_SCCCN] (state c))
  | stat_conn_active => Z.b2z (is_st (state c) STATE_ESTB)
  | stat_conn_finishing => Z.b2z (state_in [STATE_FIN; STATE_FIN_WAIT] (state c) || is_st (state c) STATE_CLOSE && negb (c_freed c))
  | stat_sess_starting => number (fun s => state_in session_starting (state1 s)) w
  | stat_sess_active => number (fun s => is_st (state1 s) STATE_ESTB) w
  | stat_sess_finishing => number (fun s => is_st (state1 s) STATE_CLOSE && live s) w
  | stat_starting => number (channel_in [APSTATE_INIT; APSTATE_STARTING]) w
  | stat_active => number (channel_in [APSTATE_STARTED]) w
  | stat_finishing => number (channel_in [APSTATE_FINISHING]) w
  end.

Lemma number_cnt (p : l2tp_sess_t -> bool) (q : sv -> bool) w : (forall s, p s = q (sview s)) -> number p w = cnt q (sview <$> heap w).
Proof using.
  intros H. unfold number, cnt. f_equal. induction (heap w) as [|s h IH]; [done|]. cbn. rewrite H. destruct (q (sview s)); cbn [length]; by rewrite IH.
Qed.

Lemma share_contrib w i : share w i = contrib (view_of w) i.
Proof using.
  destruct i; cbn [share contrib].
  1-3: change (v_state (view_of w)) with (state (conn w)); change (v_dead (view_of w)) with (c_freed (conn w)); by destruct (state (conn w)).
  all: apply number_cnt; intros s; try done.
  all: unfold is_cls, ending, is_cls; change (v_cls (sview s)) with (sess_cls (state1 s)); by destruct (state1 s).
Qed.

(** *** The theorems *)

Section Runs.
Context (o : opening) (l : list ev) (w0 w : world).
Hypothesis Hw0 : no_tunnel w0.
Hypothesis Hrun : run l (exec (open_tunnel o) w0) = Some w.

Lemma run_at : exists v, At (stat w0) idle v w.
Proof using Hw0 Hrun.
  destruct (run_fine (stat w0) l _ _ (open_fine o w0 Hw0) Hrun) as (v & HA & _). by exists v.
Qed.

Lemma steps_invariant : inv (stat w0) idle (view_of w).
Proof using Hw0 Hrun.
  destruct run_at as [v [X1 X2 X3]]. rewrite X3. eapply (inv_links_sub _ _ _ X1 (v_links (view_of w))); [set_solver|done].
Qed.


Lemma all_freed : cnt alive (v_heap (view_of w)) = 0 <-> forall a s, heap w !! a = Some s -> s_freed s = true.
Proof using.
  change (v_heap (view_of w)) with (sview <$> heap w). split.
  - intros H a s Hs. apply (all_gone _ H a (sview s)). by rewrite list_lookup_fmap, Hs.
  - intros H. apply cnt_zero. intros a s Hs. rewrite list_lookup_fmap in Hs. destruct (heap w !! a) as [x|] eqn:E; [|done]. injection Hs as <-.
    unfold alive. by rewrite (H a x E : v_gone (sview x) = true).
Qed.

(** C10: the reference counts are exact.  The tunnel counts itself while it is open and its
    sessions that are not freed; a session counts twice while the tunnel has it, and once
    for its data channel; each is freed just when its count is 0.  The tunnel has the
    sessions that are not closed, under distinct identifiers that are not 0, and the table
    has the tunnel while it is open. *)
Theorem references_exact :
  let c := conn w in
  ref_count c = Z.b2z (negb (is_st (state c) STATE_CLOSE)) + number live w /\
  (c_freed c = true <-> state c = STATE_CLOSE /\ forall a s, heap w !! a = Some s -> s_freed s = true) /\
  in_table w = negb (is_st (state c) STATE_CLOSE) /\
  NoDup (sessions c) /\ sess_count c = u32 (Z.of_nat (length (sessions c))) /\
  (forall a s, heap w !! a = Some s ->
    s_ref_count s = 2 * Z.b2z (bool_decide (a ∈ sessions c)) + Z.b2z (apses_on s) /\
    (s_freed s = true <-> (a ∉ sessions c) /\ apses_on s = false) /\
    (a ∈ sessions c <-> state1 s <> STATE_CLOSE) /\
    (a ∈ sessions c -> sid s <> 0 /\ forall b t, b ∈ sessions c -> heap w !! b = Some t -> sid t = sid s -> b = a)).
Proof using Hw0 Hrun.
  pose proof steps_invariant as Hi. assert (Eh : held idle (view_of w) = sessions (conn w)) by apply app_nil_r.
  pose proof (dead_closed _ _ Hi) as Hdead. rewrite all_freed in Hdead.
  assert (Ho : is_open (view_of w) = false <-> state (conn w) = STATE_CLOSE) by (unfold is_open; rewrite negb_false_iff; apply bool_decide_eq_true).
  destruct Hi as [H1 H2 H3 H4 H4' H5 H6 H7 H8 H9 H10 H11 H12 H13 H14 H15 H17 H16]. rewrite Eh in *.
  assert (Hlk : forall a s, heap w !! a = Some s -> v_heap (view_of w) !! a = Some (sview s)) by (intros a s Hs; change (v_heap (view_of w)) with (sview <$> heap w); by rewrite list_lookup_fmap, Hs).
  split; [|split; [|split; [|split; [|split]]]]; try done.
  - rewrite (number_cnt live alive) by done. etransitivity; [apply H11|]. cbn [idle g_h]. rewrite Z.add_0_r. done.
  - rewrite <- Ho. exact Hdead.
  - rewrite (H8 : sess_count (conn w) = _). cbn [idle g_dc]. by rewrite Z.add_0_r.
  - intros a s Hs. pose proof (H5 a (sview s) (Hlk a s Hs)) as Hok. cbn [idle g_ext] in Hok. change (times a []) with 0 in Hok.
    pose proof (gone_sess _ _ Hok) as Hgone. destruct Hok as [K1 K2 K3 K4 K5 K6 K7 K8]. rewrite Z.add_0_r in K3.
    split; [exact K3|]. split; [|split].
    + split.
      * intros Hf. destruct (Hgone Hf) as (E1 & E2 & _). by apply bool_decide_eq_false in E1.
      * intros [E1 E2]. rewrite (K4 : s_freed s = _). apply Z.eqb_eq. rewrite K3, bool_decide_false by done. by rewrite (E2 : v_on (sview s) = false).
    + unfold is_cls in K2. change (v_cls (sview s)) with (sess_cls (state1 s)) in *. split.
      * intros Hin E. rewrite bool_decide_true in K2 by done. by rewrite E in K2.
      * intros Hne. assert (Hc : sess_cls (state1 s) <> Closed) by (by destruct (state1 s)).
        rewrite (bool_decide_false (sess_cls (state1 s) = Closed)) in K2 by done. by apply bool_decide_eq_true in K2.
    + intros Hin. split; [by apply (H4' a (sview s) Hin (Hlk a s Hs))|]. intros b t Hb Ht E.
      by apply (H4 b a (sview t) (sview s) Hb Hin (Hlk b t Ht) (Hlk a s Hs)).
Qed.

(** *** Retransmission *)

Lemma conn_send_now p x : conn (exec (l2tp_tunnel_send_now sys p) x) = conn x.
Proof using.
  assert (Hq : forall A (m : M A) (k : A -> M bool), (forall x, conn (exec m x) = conn x) -> (forall a x, conn (exec (k a) x) = conn x) -> forall x, conn (exec (m ≫= k) x) = conn x)
    by (intros A m k Hm Hk y; by rewrite exec_bind, Hk).
  unfold l2tp_tunnel_send_now. apply Hq; [intros y; unfold exec, cget; cbn; by destruct (c_freed _)|]. intros c. apply Hq; [done|]. intros b.
  destruct (negb b); [done|]. destruct (l2tp_packet_send _); [apply Hq; done|done|]. apply Hq; [done|]. intros b'. destruct b'; [apply Hq; done|apply Hq; done].
Qed.

Lemma at_quiet {A} base v x (m : M A) : At base idle v x -> v_dead v = false -> quiet [] m -> At base idle v (exec m x).
Proof using. intros HA Hd Hm. change (wp m (fun _ x' => At base idle v x') x). apply (wp_quiet HA []); try done. clear. set_solver. Qed.

Lemma wp_cset_at base v x f Q :
  At base idle v x -> v_dead v = false -> quiet [] (cset f) -> (forall x', At base idle v x' -> conn x' = f (conn x) -> Q tt x') -> wp (cset f) Q x.
Proof using.
  intros HA Hd Hm HQ. unfold wp. change (val (cset f) x) with tt. apply HQ; [by apply at_quiet|].
  rewrite exec_cset by (by rewrite (at_freed HA)). by destruct x.
Qed.

Lemma wp_conn_at {A} base v x (m : M A) Q :
  At base idle v x -> v_dead v = false -> quiet [] m -> conn (exec m x) = conn x -> (forall r x', At base idle v x' -> conn x' = conn x -> Q r x') -> wp m Q x.
Proof using. intros HA Hd Hm E HQ. unfold wp. apply HQ; [by apply at_quiet|done]. Qed.

Lemma rtimeout_err base v x :
  At base idle v x -> v_dead v = false -> wp (timer_del rtimeout_timer set_rtimeout ;; l2tp_tunnel_free sys) (fun _ x' => state (conn x') = STATE_CLOSE) x.
Proof using.
  intros HA Hd. apply wp_bind, (wp_quiet HA []); [quiet|done|clear; set_solver|]. intros _ x1 H1.
  eapply wp_mono; [apply (wp_tunnel_free sys H1); try done; split; cbn; lia|]. intros r x2 (v2 & H2 & E2). by rewrite (at_state H2).
Qed.

(** One more turn of the retransmission timer, or the end of the tunnel. *)
Lemma rtimeout_turn base v x q t :
  At base idle v x -> v_state v <> STATE_CLOSE -> rtms_queue (chn (conn x)) = q :: t -> 0 <= c_retransmit (conn x) < 2 ^ 31 - 1 ->
  wp (l2tp_rtimeout sys) (fun _ x' => state (conn x') = STATE_CLOSE \/
    (At base idle v x' /\ rtms_queue (chn (conn x')) = q :: t /\ max_retransmit (conn x') = max_retransmit (conn x) /\
     c_retransmit (conn x') = c_retransmit (conn x) + 1 /\ c_retransmit (conn x') <= max_retransmit (conn x))) x.
Proof using.
  intros HA Ho Hq Hr. destruct (opened_dead base v x HA Ho) as [Hd _].
  assert (Err : forall x Q, At base idle v x -> (forall x' : world, state (conn x') = STATE_CLOSE -> Q x') -> wp (timer_del rtimeout_timer set_rtimeout ;; l2tp_tunnel_free sys) (fun _ => Q) x).
  { intros y Q H HQ. eapply wp_mono; [by apply (rtimeout_err base v)|]. intros r y'. apply HQ. }
  unfold l2tp_rtimeout. apply wp_bind, (wp_cget HA); [done|]. rewrite Hq. destruct q as [n q].
  apply wp_bind, (wp_cset_at base v); [done|done|quiet|]. intros x1 H1 E1.
  apply wp_bind, (wp_cget H1); [done|]. apply wp_bind, (wp_cget H1); [done|].
  assert (F1 : c_retransmit (conn x1) = c_retransmit (conn x) + 1 /\ max_retransmit (conn x1) = max_retransmit (conn x) /\ rtms_queue (chn (conn x1)) = (n, q) :: t).
  { rewrite E1, <- Hq. destruct (conn x). cbn in *. rewrite s32_small by (width_unfold; lia). done. }
  destruct F1 as (F1 & F2 & F3). destruct (_ <? _) eqn:El; to_prop; [apply (Err x1); [done|]; intros x' E; by left|].
  apply wp_bind, (wp_conn_at base v); [done|done|quiet|apply conn_send_now|]. intros b x2 H2 E2. destruct b; cbn [negb]; [|apply (Err x2); [done|]; intros x' E; by left].
  apply wp_bind, (wp_cset_at base v); [done|done|quiet|]. intros x3 H3 E3.
  apply wp_bind, (wp_conn_at base v); [done|done|quiet|done|]. intros b x4 H4 E4. destruct b; cbn [negb]; [|apply (Err x4); [done|]; intros x' E; by left].
  apply wp_skip. right. split; [done|]. rewrite E4, E3, E2. destruct (conn x1). cbn in *. split; [done|]. split; [done|]. split; [done|]. lia.
Qed.

(** C34: a message that is never acknowledged is sent again at most [max_retransmit] times;
    then the tunnel is closed. *)
Theorem retransmission_gives_up :
  state (conn w) <> STATE_CLOSE -> rtms_queue (chn (conn w)) <> [] -> 0 <= c_retransmit (conn w) <= max_retransmit (conn w) ->
  max_retransmit (conn w) < 2 ^ 31 - 1 ->
  exists n, Z.of_nat n <= max_retransmit (conn w) - c_retransmit (conn w) + 1 /\
    state (conn (Nat.iter n (exec (l2tp_rtimeout sys)) w)) = STATE_CLOSE.
Proof using Hw0 Hrun.
  destruct run_at as [v HA]. rewrite (at_state HA). intros Ho. destruct (rtms_queue (chn (conn w))) as [|q t] eqn:Hq; [done|]. intros _. clear Hrun.
  remember (Z.to_nat (max_retransmit (conn w) - c_retransmit (conn w))) as k eqn:Ek. revert w HA Hq Ek. induction k as [|k IH]; intros x HA Hq Ek Hr Hm.
  - destruct (rtimeout_turn _ v x q t HA Ho Hq) as [E|(_ & _ & _ & E1 & E2)]; [lia| |lia]. exists 1%nat. split; [lia|exact E].
  - destruct (rtimeout_turn _ v x q t HA Ho Hq) as [E|(H1 & Q1 & M1 & E1 & E2)]; [lia|exists 1%nat; split; [lia|exact E]|].
    destruct (IH _ H1 Q1) as (n & Hn & E); [lia..|]. exists (S n). split; [lia|]. by rewrite Nat.iter_succ_r.
Qed.

End Runs.

(** C2: no function touches a tunnel or a session that was freed, whatever the events and
    their order. *)
Theorem no_use_after_free o l w0 w :
  no_tunnel w0 -> run l (exec (open_tunnel o) w0) = Some w -> uaf w = false.
Proof using. intros Hw0 Hrun. apply (i_uaf _ _ _ (steps_invariant o l w0 w Hw0 Hrun)). Qed.

End Steps.

(** ** A call from its beginning to its end *)

Module Demo.
Import L2tpDict.

Definition rnd (k : nat) (n : Z) : option (list Z) :=
  Some (map (fun i => Z.of_nat (k * 7 + i) mod 256) (List.seq 1 (Z.to_nat n))).
Definition sys (k : nat) : bool := true.
Definition adm (k : nat) : admission := mk_adm false 0 0 0 0 false.
Definition conf (quirk : bool) (secret : option (list Z)) : config :=
  mk_conf 16 [98; 110; 103] 60 1 16 5 60 quirk secret false false (-1) 0 false false false.
Definition cf : config := conf false None.
Definition w0 : world := mk_world no_conn [] (fun _ => 0) false [] 0%nat false false false.

(** A message of the peer: tunnel, session, its number and the next one it expects. *)
Definition msg (t tid sid ns nr : Z) (ops : list Wire.l2tp_op) : list Z :=
  match Wire.build rnd l2tp_dictionary None false t ops 0%nat with
  | (Some p, _) => match l2tp_packet_send (Wire.addressed tid sid ns nr p) with Ret b => b | _ => [] end
  | _ => []
  end.
Definition from_peer (data : list Z) : rx := RData (replicate 2000 0) data.

Definition sccrq : list Z :=
  msg SCCRQ 0 0 0 0 [Wire.OpNum 2 Protocol_Version 256 true; Wire.OpString Host_Name [97] true; Wire.OpNum 4 Framing_Capabilities 3 true;
    Wire.OpNum 2 Assigned_Tunnel_ID 77 true; Wire.OpNum 2 Recv_Window_Size 8 true].
Definition opening_ (d : list Z) : opening := FromPeer (fun _ => false) true (replicate 2000 0) d.

(** The identifiers the daemon draws. *)
Definition T : Z := 23900.
Definition S_ : Z := 4882.

Definition call : list ev :=
  [Call;
   Datagrams [from_peer (msg SCCCN T 0 1 1 [])] false;
   Datagrams [from_peer (msg ICRQ T 0 2 1 [Wire.OpNum 2 Assigned_Session_ID 5 true; Wire.OpNum 4 Call_Serial_Number 0 true])] false;
   Datagrams [from_peer (msg ICCN T S_ 3 2 [Wire.OpNum 4 TX_Speed 1000 true; Wire.OpNum 4 Framing_Type 3 true])] false;
   ApRun 0%nat; ApStarted 0%nat].
Definition hangup : list ev :=
  [Datagrams [from_peer (msg CDN T S_ 4 2 [Wire.OpNum 2 Assigned_Session_ID 5 true; Wire.OpOctets Result_Code [0; 1; 0; 0] true])] false;
   ApRun 0%nat;
   Datagrams [from_peer (msg HELLO T 0 5 3 [])] false].

Definition yes (n : Z) : bool := true.
Abbreviation ran l := (run l2tp_dictionary rnd sys adm yes cf l (exec (open_tunnel l2tp_dictionary rnd sys adm yes cf (opening_ sccrq)) w0)).
Definition after (l : list ev) : world := default w0 (ran l).

Lemma no_tunnel_w0 : no_tunnel w0.
Proof. repeat split; try done. Qed.

Lemma ran_after l : bool_decide (is_Some (ran l)) = true -> ran l = Some (after l).
Proof. unfold after. destruct (ran l); [done|]. by intros [? ?]%bool_decide_eq_true. Qed.

Lemma call_ran : ran call = Some (after call).
Proof. apply ran_after. vm_compute. reflexivity. Qed.
Lemma hangup_ran : ran (call ++ hangup) = Some (after (call ++ hangup)).
Proof. apply ran_after. vm_compute. reflexivity. Qed.

Lemma call_up : map state1 (heap (after call)) = [STATE_ESTB] /\ stat (after call) stat_active = 1 /\ ref_count (conn (after call)) = 2.
Proof. vm_compute. done. Qed.

Lemma no_use_after_free_witness : uaf (after (call ++ hangup)) = false.
Proof. exact (no_use_after_free l2tp_dictionary rnd sys adm yes cf (opening_ sccrq) (call ++ hangup) w0 _ no_tunnel_w0 hangup_ran). Defined.


Lemma references_exact_witness :
  ref_count (conn (after call)) = Z.b2z (negb (is_st (state (conn (after call))) STATE_CLOSE)) + number live (after call).
Proof. exact (proj1 (references_exact l2tp_dictionary rnd sys adm yes cf (opening_ sccrq) call w0 _ no_tunnel_w0 call_ran)). Defined.

Lemma first_ran : ran [Call] = Some (after [Call]).
Proof. apply ran_after. vm_compute. reflexivity. Qed.

Lemma retransmission_gives_up_witness :
  exists n, Z.of_nat n <= max_retransmit (conn (after [Call])) - c_retransmit (conn (after [Call])) + 1 /\
    state (conn (Nat.iter n (exec (l2tp_rtimeout sys)) (after [Call]))) = STATE_CLOSE.
Proof.
  apply (retransmission_gives_up l2tp_dictionary rnd sys adm yes cf (opening_ sccrq) [Call] w0 _ no_tunnel_w0 first_ran); vm_compute.
  - discriminate.
  - discriminate.
  - split; discriminate.
  - reflexivity.
Defined.

(** The call is over: everything is freed. *)
Lemma call_freed : c_freed (conn (after (call ++ hangup))) = true /\ map s_freed (heap (after (call ++ hangup))) = [true].
Proof. vm_compute. done. Qed.

End Demo.

End L2tpSteps.
