(* ===== verification/L2tpAuth.v ===== *)
(** L2TP tunnels are established by authenticated peers.

    With a secret, a tunnel is established only when a message arrives that answers the
    challenge the daemon has drawn and sent with the MD5 of the message type, the secret and
    the challenge (RFC 2661, 5.1.1).  [calm] functions leave the secret, the challenge and the
    received messages alone and change the state of the tunnel only to one of its end, where
    the challenge does not matter; all
    functions but those that send or take a challenge or establish the tunnel are calm. *)

From stdpp Require Import base tactics list sets numbers option strings.
From Stdlib Require Import ZArith Lia.
From S2P Require Import Prelude CLib Bytes RadDict Hash L2tpPacket L2tpDict L2tpWire L2tpChan L2tpTunnel L2tpView L2tpSteps.

Open Scope Z_scope.

Module Calm.
Import L2tpPacket L2tpChan L2tpTunnel L2tpSteps Wp.

(** The messages received and not handled yet. *)
Definition inbox (c : chan qpack l2tp_packet_t) : list l2tp_packet_t := omap id (recv_queue c).

Record calm (c c' : l2tp_conn_t) : Prop := {
  cm_challenge : challenge c' = challenge c \/ closing (state c') = true;
  cm_secret : secret c' = secret c;
  cm_state : state c' = state c \/ closing (state c') = true;
  cm_inbox : inbox (chn c') ⊆ inbox (chn c) }.

Lemma calm_refl c : calm c c.
Proof. split; try done; by left. Qed.
Lemma calm_trans c1 c2 c3 : calm c1 c2 -> calm c2 c3 -> calm c1 c3.
Proof.
  intros [A1 A2 A3 A4] [B1 B2 B3 B4]. split; try congruence; [| |set_solver].
  - destruct B1 as [->|]; [|by right]. destruct A1 as [->|A1]; [by left|]. right. destruct B3 as [->|]; done.
  - destruct B3 as [->|]; [done|by right].
Qed.

Definition calm_m {A} (m : M A) : Prop := forall w, calm (conn w) (conn (exec m w)).

Lemma calm_bind {A B} (m : M A) (k : A -> M B) : calm_m m -> (forall a, calm_m (k a)) -> calm_m (m ≫= k).
Proof. intros Hm Hk w. rewrite exec_bind. eapply calm_trans; [apply Hm|apply Hk]. Qed.
Lemma calm_ret {A} (a : A) : calm_m (mret a).
Proof. intros w. apply calm_refl. Qed.
Lemma calm_same {A} (m : M A) : (forall w, conn (exec m w) = conn w) -> calm_m m.
Proof. intros H w. rewrite H. apply calm_refl. Qed.
Lemma calm_gets {A} (f : world -> A) : calm_m (gets f).
Proof. by apply calm_same. Qed.
Lemma calm_cget {A} (f : l2tp_conn_t -> A) : calm_m (cget f).
Proof. apply calm_same. intros w. unfold exec, cget. cbn. by destruct (c_freed _). Qed.
Lemma calm_sget {A} a (f : l2tp_sess_t -> A) : calm_m (sget a f).
Proof. apply calm_same. intros w. unfold exec, sget. cbn. by destruct (s_freed _). Qed.
Lemma calm_sset a f : calm_m (sset a f).
Proof. apply calm_same. intros w. unfold exec, sset. cbn. by destruct (s_freed _). Qed.
Lemma calm_cset f : (forall c, calm c (f c)) -> calm_m (cset f).
Proof. intros H w. unfold exec, cset. cbn. destruct (c_freed _); apply H. Qed.
Lemma calm_chn f : (forall c, inbox (f c) ⊆ inbox c) -> calm_m (on_chn f).
Proof. intros H. apply calm_cset. intros []. split; cbn; [by left|done|by left|apply H]. Qed.
Lemma calm_iter {A} (l : list A) (f : A -> M unit) : (forall a, calm_m (f a)) -> calm_m (iter_st l f).
Proof. intros H. induction l as [|a l IH]; cbn [iter_st]; [apply calm_ret|]. apply calm_bind; [apply H|done]. Qed.

Lemma inbox_replicate n : omap id (replicate n None) = ([] : list l2tp_packet_t).
Proof. induction n as [|n IH]; [done|]. cbn. exact IH. Qed.

Create HintDb calm discriminated.
#[export] Hint Constants Opaque : calm.

(** A field is set that is none of the four. *)
Ltac calm_set := apply calm_cset; intros []; split; cbn; first [reflexivity | by left | by right | done].

Ltac calm1 :=
  lazymatch goal with
  | |- calm_m (mret _) => apply calm_ret
  | |- calm_m skip => apply calm_ret
  | |- calm_m (gets _) => apply calm_gets
  | |- calm_m (cget _) => apply calm_cget
  | |- calm_m (sget _ _) => apply calm_sget
  | |- calm_m (sset _ _) => apply calm_sset
  | |- calm_m (cset _) => first [solve [eauto 2 with calm] | calm_set]
  | |- calm_m (modify _) => apply calm_same; intros []; reflexivity
  | |- calm_m (on_chn _) => first [solve [eauto 2 with calm] | apply calm_chn; intros []; done]
  | |- calm_m (_ ≫= _) => apply calm_bind; [|intros ?]
  | |- calm_m (match ?x with _ => _ end) => destruct x
  | |- calm_m _ => solve [eauto 2 with calm]
  end.
Ltac calm := repeat calm1.

Section Ops.
Set Default Proof Using "Type".
Context (d : l2tp_dict) (rnd : nat -> Z -> option (list Z)) (sys : nat -> bool) (adm : nat -> admission) (malloc_ok : Z -> bool) (cf : config).

Lemma calm_ok : calm_m (ok sys).
Proof. by apply calm_same. Qed.
Lemma calm_run_bld {A} (b : bld A) : calm_m (run_bld b).
Proof. apply calm_same. intros w. unfold run_bld, exec. by destruct (b (draw w)). Qed.
Lemma calm_undefined : calm_m undefined.
Proof. by apply calm_same. Qed.
Lemma calm_emit e : calm_m (emit e).
Proof. by apply calm_same. Qed.
Lemma calm_refused : calm_m (refused adm).
Proof. by apply calm_same. Qed.
Lemma calm_add i : calm_m (stat_add i).
Proof. by apply calm_same. Qed.
Lemma calm_sub i : calm_m (stat_sub i).
Proof. by apply calm_same. Qed.
Hint Resolve calm_ok calm_run_bld calm_undefined calm_emit calm_refused calm_add calm_sub : calm.

Lemma calm_move i j : calm_m (stat_move i j).
Proof. unfold stat_move. calm. Qed.
Lemma calm_oks n : calm_m (oks sys n).
Proof. induction n as [|n IH]; cbn [oks]; calm. Qed.
Lemma calm_build {A} (b : bld A) : calm_m (build sys b).
Proof. unfold build. calm. Qed.
Hint Resolve calm_move calm_oks calm_build : calm.
Lemma calm_adding p f : calm_m (adding sys p f).
Proof. unfold adding. calm. Qed.
Hint Resolve calm_adding : calm.

Lemma calm_checkchallresp i a : calm_m (l2tp_tunnel_checkchallresp i a).
Proof. unfold l2tp_tunnel_checkchallresp. calm. Qed.
Lemma calm_genchallresp i p : calm_m (l2tp_tunnel_genchallresp d rnd sys i p).
Proof. unfold l2tp_tunnel_genchallresp. calm. Qed.
Lemma calm_clear_recvqueue : calm_m l2tp_tunnel_clear_recvqueue.
Proof. apply calm_chn. intros c. unfold inbox. cbn. rewrite inbox_replicate. apply list_subseteq_nil. Qed.
Lemma calm_clear_sendqueue : calm_m l2tp_tunnel_clear_sendqueue.
Proof. unfold l2tp_tunnel_clear_sendqueue. calm. Qed.
Lemma calm_session_clear_sendqueue a : calm_m (l2tp_session_clear_sendqueue a).
Proof. unfold l2tp_session_clear_sendqueue. calm. Qed.
Lemma calm_send_now p : calm_m (l2tp_tunnel_send_now sys p).
Proof. unfold l2tp_tunnel_send_now. calm. Qed.
Hint Resolve calm_checkchallresp calm_genchallresp calm_clear_recvqueue calm_clear_sendqueue calm_session_clear_sendqueue calm_send_now : calm.

Definition plain (set : tm -> l2tp_conn_t -> l2tp_conn_t) : Prop := forall t c, calm c (set t c).
Lemma calm_timeout : plain set_timeout.
Proof. intros t []. split; try done; by left. Qed.
Lemma calm_rtimeout : plain set_rtimeout.
Proof. intros t []. split; try done; by left. Qed.
Lemma calm_hello : plain set_hello.
Proof. intros t []. split; try done; by left. Qed.
Lemma calm_plain set t : plain set -> calm_m (cset (set t)).
Proof. intros H. apply calm_cset. apply H. Qed.
Hint Resolve calm_timeout calm_rtimeout calm_hello calm_plain : calm.
Lemma calm_timer_add get set : plain set -> calm_m (timer_add sys get set).
Proof. intros H. unfold timer_add. calm. Qed.
Lemma calm_timer_del get set : plain set -> calm_m (timer_del get set).
Proof. intros H. unfold timer_del. calm. Qed.
Hint Resolve calm_timer_add calm_timer_del : calm.

Lemma calm_clean : calm_m (l2tp_tunnel_clean_rtmsqueue sys).
Proof. unfold l2tp_tunnel_clean_rtmsqueue. calm. Qed.
Lemma calm_push_loop fuel n : calm_m (push_loop sys fuel n).
Proof. revert n. induction fuel as [|fuel IH]; intros n; cbn [push_loop]; calm. Qed.
Hint Resolve calm_clean calm_push_loop : calm.
Lemma calm_push : calm_m (l2tp_tunnel_push_sendqueue sys).
Proof. unfold l2tp_tunnel_push_sendqueue. calm. Qed.
Lemma calm_send_for o p : calm_m (tunnel_send_for o p).
Proof. unfold tunnel_send_for. calm. Qed.
Lemma calm_send p : calm_m (l2tp_tunnel_send p).
Proof. apply calm_send_for. Qed.
Hint Resolve calm_push calm_send_for calm_send : calm.
Lemma calm_session_send a p : calm_m (l2tp_session_send a p).
Proof. unfold l2tp_session_send. calm. Qed.
Hint Resolve calm_session_send : calm.
Lemma calm_try_send a p : calm_m (l2tp_session_try_send a p).
Proof. unfold l2tp_session_try_send. calm. Qed.
Lemma calm_new_pack t h : calm_m (new_pack d rnd sys t h).
Proof. unfold new_pack. calm. Qed.
Lemma calm_add_int16 i v p : calm_m (add_int16 d rnd sys i v p).
Proof. apply calm_adding. Qed.
Lemma calm_add_int32 i v p : calm_m (add_int32 d rnd sys i v p).
Proof. apply calm_adding. Qed.
Lemma calm_add_octets i v p : calm_m (add_octets d rnd sys i v p).
Proof. apply calm_adding. Qed.
Lemma calm_add_string i v m p : calm_m (add_string d rnd sys i v m p).
Proof. apply calm_adding. Qed.
Hint Resolve calm_try_send calm_new_pack calm_add_int16 calm_add_int32 calm_add_octets calm_add_string : calm.

Lemma calm_StopCCN r e : calm_m (l2tp_send_StopCCN d rnd sys r e).
Proof. unfold l2tp_send_StopCCN. calm. Qed.
Lemma calm_CDN a r e : calm_m (l2tp_send_CDN d rnd sys a r e).
Proof. unfold l2tp_send_CDN. calm. Qed.
Lemma calm_tunnel_CDN i p r e : calm_m (l2tp_tunnel_send_CDN d rnd sys i p r e).
Proof. unfold l2tp_tunnel_send_CDN. calm. Qed.
Lemma calm_del_timers b : calm_m (del_timers b).
Proof. unfold del_timers. calm. Qed.
Lemma calm_ZLB : calm_m (l2tp_send_ZLB d rnd sys).
Proof. unfold l2tp_send_ZLB. calm. Qed.
Lemma calm_start_attrs p : calm_m (start_attrs d rnd sys cf p).
Proof. unfold start_attrs. calm. Qed.
Hint Resolve calm_StopCCN calm_CDN calm_tunnel_CDN calm_del_timers calm_ZLB calm_start_attrs : calm.

(** *** The ends *)

Lemma calm_tunnel_put : calm_m tunnel_put.
Proof. unfold tunnel_put, tunnel_destroy. calm. Qed.
Lemma calm_tunnel_hold : calm_m tunnel_hold.
Proof. unfold tunnel_hold. calm. Qed.
Hint Resolve calm_tunnel_put calm_tunnel_hold : calm.
Lemma calm_session_put a : calm_m (session_put a).
Proof. unfold session_put, session_destroy. calm. Qed.
Lemma calm_session_hold a : calm_m (session_hold a).
Proof. unfold session_hold. calm. Qed.
Lemma calm_call_apses a f : calm_m (call_apses sys a f).
Proof. unfold call_apses. calm. Qed.
Lemma calm_call_conn f : calm_m (call_conn sys f).
Proof. unfold call_conn. calm. Qed.
Hint Resolve calm_session_put calm_session_hold calm_call_apses calm_call_conn : calm.
Lemma calm_session_leave a : calm_m (session_leave sys a).
Proof. unfold session_leave. calm. Qed.
Hint Resolve calm_session_leave : calm.
Lemma calm_session_free_with disc a : calm_m disc -> calm_m (session_free_with sys disc a).
Proof. intros H. unfold session_free_with, drop_empty. calm; done. Qed.
Lemma calm_session_free_closing a : calm_m (session_free_closing sys a).
Proof. apply calm_session_free_with. calm. Qed.
Lemma calm_conn_leave s : calm_m (conn_leave s).
Proof. unfold conn_leave. calm. Qed.
Hint Resolve calm_session_free_closing calm_conn_leave : calm.
Lemma calm_free_sessions : calm_m (l2tp_tunnel_free_sessions sys).
Proof. unfold l2tp_tunnel_free_sessions, free_sessions_with. calm. apply calm_iter. intros ?. calm. Qed.
Lemma calm_free_sessions_with : calm_m (free_sessions_with (session_free_closing sys)).
Proof. exact calm_free_sessions. Qed.
Hint Resolve calm_free_sessions calm_free_sessions_with : calm.
Lemma calm_tunnel_free : calm_m (l2tp_tunnel_free sys).
Proof. unfold l2tp_tunnel_free, tunnel_free_with. calm. Qed.
Lemma calm_tunnel_free_with : calm_m (tunnel_free_with (session_free_closing sys)).
Proof. exact calm_tunnel_free. Qed.
Hint Resolve calm_tunnel_free calm_tunnel_free_with : calm.
Lemma calm_disconnect res err : calm_m (l2tp_tunnel_disconnect d rnd sys res err).
Proof. unfold l2tp_tunnel_disconnect, disconnect_with. calm. Qed.
Lemma calm_disconnect_with res err : calm_m (disconnect_with d rnd sys (session_free_closing sys) res err).
Proof. apply calm_disconnect. Qed.
Hint Resolve calm_disconnect calm_disconnect_with : calm.
Lemma calm_disconnect_push res err : calm_m (l2tp_tunnel_disconnect_push d rnd sys res err).
Proof. unfold l2tp_tunnel_disconnect_push, disconnect_push_with. calm. Qed.
Lemma calm_disconnect0 res err : calm_m (disconnect d rnd sys res err).
Proof. unfold disconnect. calm. Qed.
Hint Resolve calm_disconnect_push calm_disconnect0 : calm.
Lemma calm_session_free a : calm_m (l2tp_session_free d rnd sys a).
Proof. apply calm_session_free_with. calm. Qed.
Hint Resolve calm_session_free : calm.
Lemma calm_session_disconnect a res err : calm_m (l2tp_session_disconnect d rnd sys a res err).
Proof. unfold l2tp_session_disconnect. calm. Qed.
Lemma calm_session_disconnect_push a res err : calm_m (l2tp_session_disconnect_push d rnd sys a res err).
Proof. unfold l2tp_session_disconnect_push. calm. Qed.
Hint Resolve calm_session_disconnect calm_session_disconnect_push : calm.

(** *** Sessions *)

Lemma calm_get_session i : calm_m (l2tp_tunnel_get_session i).
Proof. unfold l2tp_tunnel_get_session. calm. Qed.
Hint Resolve calm_get_session : calm.
Lemma calm_ap_finished i : calm_m (l2tp_session_apses_finished d rnd sys i).
Proof. unfold l2tp_session_apses_finished. calm. Qed.
Lemma calm_apses_destroy a : calm_m (apses_destroy a).
Proof. unfold apses_destroy. calm. Qed.
Lemma calm_tell_tunnel a : calm_m (tell_tunnel sys a).
Proof. unfold tell_tunnel. calm. Qed.
Lemma calm_apses_leave p : calm_m (apses_leave p).
Proof. unfold apses_leave. calm. Qed.
Hint Resolve calm_ap_finished calm_apses_destroy calm_tell_tunnel calm_apses_leave : calm.
Lemma calm_apses_finished a : calm_m (apses_finished sys a).
Proof. unfold apses_finished. calm. Qed.
Hint Resolve calm_apses_finished : calm.
Lemma calm_terminate a : calm_m (ap_session_terminate sys a).
Proof. unfold ap_session_terminate. calm. Qed.
Hint Resolve calm_terminate : calm.
Lemma calm_apses_stop a : calm_m (apses_stop sys a).
Proof. unfold apses_stop. calm. Qed.
Hint Resolve calm_apses_stop : calm.
Lemma calm_apses_started a : calm_m (apses_started a).
Proof. unfold apses_started. calm. Qed.
Lemma calm_apses_start a : calm_m (apses_start sys a).
Proof. unfold apses_start. calm. Qed.
Hint Resolve calm_apses_started calm_apses_start : calm.
Lemma calm_run_apses a : calm_m (run_apses sys a).
Proof. unfold run_apses. calm. Qed.

Lemma calm_new_sid n u : calm_m (new_sid rnd n u).
Proof. induction n as [|n IH]; cbn [new_sid]; calm. Qed.
Hint Resolve calm_new_sid : calm.
Lemma calm_alloc_session : calm_m (l2tp_tunnel_alloc_session rnd sys cf).
Proof. unfold l2tp_tunnel_alloc_session, memory_left. calm. Qed.
Lemma calm_start_data_channel a : calm_m (l2tp_session_start_data_channel sys cf a).
Proof. unfold l2tp_session_start_data_channel. calm. Qed.
Hint Resolve calm_run_apses calm_alloc_session calm_start_data_channel : calm.
Lemma calm_session_connect a : calm_m (l2tp_session_connect sys cf a).
Proof. unfold l2tp_session_connect. calm. Qed.
Lemma calm_sess_pack a t : calm_m (sess_pack d rnd sys a t).
Proof. unfold sess_pack. calm. Qed.
Lemma calm_session_sends a p : calm_m (session_sends a p).
Proof. unfold session_sends. calm. Qed.
Lemma calm_session_tries a p : calm_m (session_tries a p).
Proof. unfold session_tries. calm. Qed.
Lemma calm_start_timer a : calm_m (start_sess_timer sys a).
Proof. unfold start_sess_timer. calm. Qed.
Lemma calm_del_timer a : calm_m (del_sess_timer a).
Proof. apply calm_sset. Qed.
Hint Resolve calm_session_connect calm_sess_pack calm_session_sends calm_session_tries calm_start_timer calm_del_timer : calm.
Lemma calm_session_timeout a : calm_m (l2tp_session_timeout d rnd sys a).
Proof. unfold l2tp_session_timeout. calm. Qed.
Lemma calm_ICRQ a : calm_m (l2tp_send_ICRQ d rnd sys a).
Proof. unfold l2tp_send_ICRQ. calm. Qed.
Lemma calm_ICRP a : calm_m (l2tp_send_ICRP d rnd sys a).
Proof. unfold l2tp_send_ICRP. calm. Qed.
Lemma calm_connected a t : calm_m (send_connected d rnd sys a t).
Proof. unfold send_connected. calm. Qed.
Lemma calm_ICCN a : calm_m (l2tp_send_ICCN d rnd sys a).
Proof. apply calm_connected. Qed.
Lemma calm_OCCN a : calm_m (l2tp_send_OCCN d rnd sys a).
Proof. apply calm_connected. Qed.
Lemma calm_OCRQ a : calm_m (l2tp_send_OCRQ d rnd sys a).
Proof. unfold l2tp_send_OCRQ. calm. Qed.
Lemma calm_OCRP a : calm_m (l2tp_send_OCRP d rnd sys a).
Proof. unfold l2tp_send_OCRP. calm. Qed.
Hint Resolve calm_session_timeout calm_ICRQ calm_ICRP calm_ICCN calm_OCCN calm_OCRQ calm_OCRP : calm.
Lemma calm_incall_reply a : calm_m (l2tp_session_incall_reply d rnd sys a).
Proof. unfold l2tp_session_incall_reply. calm. Qed.
Lemma calm_outcall_reply a : calm_m (l2tp_session_outcall_reply d rnd sys cf a).
Proof. unfold l2tp_session_outcall_reply. calm. Qed.
Lemma calm_place_call a : calm_m (l2tp_session_place_call d rnd sys a).
Proof. unfold l2tp_session_place_call. calm. Qed.
Hint Resolve calm_incall_reply calm_outcall_reply calm_place_call : calm.
Lemma calm_recv_call known reply l : (forall a, calm_m (reply a)) -> calm_m (recv_call d rnd sys adm cf known reply l).
Proof. intros H. unfold recv_call. calm. Qed.
Lemma calm_recv_ICRQ l : calm_m (l2tp_recv_ICRQ d rnd sys adm cf l).
Proof. unfold l2tp_recv_ICRQ. calm. apply calm_recv_call. intros ?. calm. Qed.
Lemma calm_recv_OCRQ l : calm_m (l2tp_recv_OCRQ d rnd sys adm cf l).
Proof. unfold l2tp_recv_OCRQ. calm. apply calm_recv_call. intros ?. calm. Qed.
Lemma calm_session_recv a l t m : calm_m (l2tp_session_recv d rnd sys cf a l t m).
Proof.
  unfold l2tp_session_recv, l2tp_recv_OCRP, l2tp_recv_OCCN, l2tp_recv_ICRP, l2tp_recv_ICCN, l2tp_recv_CDN, recv_connected. calm.
Qed.
Lemma calm_create_session : calm_m (l2tp_tunnel_create_session d rnd sys cf).
Proof. unfold l2tp_tunnel_create_session. calm. Qed.
Hint Resolve calm_recv_ICRQ calm_recv_OCRQ calm_session_recv calm_create_session : calm.

(** *** The tunnel *)

Lemma calm_finwait : calm_m (l2tp_tunnel_finwait d rnd sys).
Proof. unfold l2tp_tunnel_finwait. calm. Qed.
Hint Resolve calm_finwait : calm.
Lemma calm_recv_StopCCN l : calm_m (l2tp_recv_StopCCN d rnd sys l).
Proof.
  unfold l2tp_recv_StopCCN. calm. apply calm_cset. intros []. cbn. destruct (_ =? 0); split; try done; by left.
Qed.
Lemma calm_recv_HELLO : calm_m (l2tp_recv_HELLO sys).
Proof. unfold l2tp_recv_HELLO. calm. Qed.
Lemma calm_rtimeout_ : calm_m (l2tp_rtimeout sys).
Proof. unfold l2tp_rtimeout. calm. Qed.
Lemma calm_tunnel_timeout : calm_m (l2tp_tunnel_timeout d rnd sys).
Proof. unfold l2tp_tunnel_timeout. calm. Qed.
Lemma calm_finwait_timeout : calm_m (l2tp_tunnel_finwait_timeout sys).
Proof. unfold l2tp_tunnel_finwait_timeout. calm. Qed.
Lemma calm_send_HELLO : calm_m (l2tp_send_HELLO d rnd sys).
Proof. unfold l2tp_send_HELLO. calm. Qed.
Lemma calm_learn_port : calm_m (learn_port sys).
Proof. unfold learn_port. calm. Qed.
Hint Resolve calm_recv_StopCCN calm_recv_HELLO calm_rtimeout_ calm_tunnel_timeout calm_finwait_timeout calm_send_HELLO calm_learn_port : calm.

(** *** Functions that may change the challenge, but not the state *)

Record mild (c c' : l2tp_conn_t) : Prop := {
  ml_secret : secret c' = secret c;
  ml_state : state c' = state c;
  ml_inbox : inbox (chn c') ⊆ inbox (chn c) }.

Lemma mild_refl c : mild c c.
Proof using. by split. Qed.
Lemma mild_trans c1 c2 c3 : mild c1 c2 -> mild c2 c3 -> mild c1 c3.
Proof using. intros [A1 A2 A3] [B1 B2 B3]. split; [congruence..|]. clear -A3 B3. set_solver. Qed.

Definition mild_m {A} (m : M A) : Prop := forall w, mild (conn w) (conn (exec m w)).
Lemma mild_bind {A B} (m : M A) (k : A -> M B) : mild_m m -> (forall a, mild_m (k a)) -> mild_m (m ≫= k).
Proof using. intros Hm Hk w. rewrite exec_bind. eapply mild_trans; [apply Hm|apply Hk]. Qed.
Lemma mild_same {A} (m : M A) : (forall w, conn (exec m w) = conn w) -> mild_m m.
Proof using. intros H w. rewrite H. apply mild_refl. Qed.
Lemma mild_ret {A} (a : A) : mild_m (mret a).
Proof using. by apply mild_same. Qed.
Lemma mild_cget {A} (f : l2tp_conn_t -> A) : mild_m (cget f).
Proof using. apply mild_same. intros w. unfold exec, cget. cbn. by destruct (c_freed _). Qed.
Lemma mild_cset f : (forall c, mild c (f c)) -> mild_m (cset f).
Proof using. intros H w. unfold exec, cset. cbn. destruct (c_freed _); apply H. Qed.
Lemma mild_run_bld {A} (b : bld A) : mild_m (run_bld b).
Proof using. apply mild_same. intros w. unfold run_bld, exec. by destruct (b (draw w)). Qed.
Lemma mild_plain set t : plain set -> (forall t c, state (set t c) = state c) -> mild_m (cset (set t)).
Proof using. intros H Hs. apply mild_cset. intros c. destruct (H t c). by split. Qed.

Ltac mild1 :=
  lazymatch goal with
  | |- mild_m (_ ≫= _) => apply mild_bind; [|intros ?]
  | |- mild_m (match ?x with _ => _ end) => destruct x
  | |- mild_m (mret _) => apply mild_ret
  | |- mild_m skip => apply mild_ret
  | |- mild_m (cget _) => apply mild_cget
  | |- mild_m (run_bld _) => apply mild_run_bld
  | |- mild_m (cset _) => apply mild_cset; intros []; by split
  | |- mild_m (on_chn _) => apply mild_cset; intros []; by split
  | |- mild_m (set_challenge _) => apply mild_cset; intros []; by split
  | |- mild_m (ok _) => by apply mild_same
  | |- mild_m undefined => by apply mild_same
  | |- mild_m bad_free => by apply mild_same
  | |- mild_m (emit _) => by apply mild_same
  | |- mild_m _ => solve [eauto 2 with calm]
  end.
Ltac mild := repeat mild1.

Lemma mild_build {A} (b : bld A) : mild_m (build sys b).
Proof using. unfold build. mild. Qed.
Hint Resolve mild_build : calm.
Lemma mild_adding p f : mild_m (adding sys p f).
Proof using. unfold adding. mild. Qed.
Hint Resolve mild_adding : calm.
Lemma mild_genchall n p : mild_m (l2tp_tunnel_genchall d rnd sys n p).
Proof using. unfold l2tp_tunnel_genchall. mild. Qed.
Lemma mild_storechall a : mild_m (l2tp_tunnel_storechall sys a).
Proof using. unfold l2tp_tunnel_storechall. mild. Qed.
Lemma mild_genchallresp i p : mild_m (l2tp_tunnel_genchallresp d rnd sys i p).
Proof using. unfold l2tp_tunnel_genchallresp. mild. Qed.
Hint Resolve mild_genchall mild_storechall mild_genchallresp : calm.
Lemma mild_add_challenge p : mild_m (add_challenge d rnd sys p).
Proof using. unfold add_challenge. mild. Qed.
Lemma mild_new_pack t h : mild_m (new_pack d rnd sys t h).
Proof using. unfold new_pack. mild. Qed.
Lemma mild_send p : mild_m (l2tp_tunnel_send p).
Proof using. unfold l2tp_tunnel_send, tunnel_send_for. mild. Qed.
Hint Resolve mild_add_challenge mild_new_pack mild_send : calm.
Lemma mild_SCCCN : mild_m (l2tp_send_SCCCN d rnd sys).
Proof using. unfold l2tp_send_SCCCN. mild. Qed.
Lemma mild_accept_window a : mild_m (accept_window a).
Proof using. unfold accept_window. mild. Qed.
Lemma mild_oks n : mild_m (oks sys n).
Proof using. induction n as [|n IH]; cbn [oks]; mild. Qed.
Lemma mild_timer_add get set : plain set -> (forall t c, state (set t c) = state c) -> mild_m (timer_add sys get set).
Proof using. intros H Hs. unfold timer_add. mild1; [mild|]. mild1; [mild|]. mild1; [|mild]. mild1; [by apply mild_plain|mild]. Qed.
Lemma mild_timer_del get set : plain set -> (forall t c, state (set t c) = state c) -> mild_m (timer_del get set).
Proof using. intros H Hs. unfold timer_del. mild1; [mild|]. by apply mild_plain. Qed.

Lemma wp_calm {A} (m : M A) Q w : calm_m m -> (forall r w', calm (conn w) (conn w') -> Q r w') -> wp m Q w.
Proof using. intros Hm HQ. apply HQ, Hm. Qed.
Lemma wp_mild {A} (m : M A) Q w : mild_m m -> (forall r w', mild (conn w) (conn w') -> Q r w') -> wp m Q w.
Proof using. intros Hm HQ. apply HQ, Hm. Qed.
Lemma auth_cget {A} (f : l2tp_conn_t -> A) Q w : (forall w', conn w' = conn w -> Q (f (conn w)) w') -> wp (cget f) Q w.
Proof using. intros HQ. unfold wp. apply HQ. unfold exec, cget. cbn. by destruct (c_freed _). Qed.
Lemma auth_cset f Q w : (forall w', conn w' = f (conn w) -> Q tt w') -> wp (cset f) Q w.
Proof using. intros HQ. unfold wp. apply HQ. unfold exec, cset. cbn. by destruct (c_freed _). Qed.

(** A disconnection ends the tunnel. *)
Lemma disconnect_ends res err w :
  state (conn w) = STATE_INIT \/ state (conn w) = STATE_WAIT_SCCRP \/ state (conn w) = STATE_WAIT_SCCCN \/ state (conn w) = STATE_ESTB ->
  wp (disconnect d rnd sys res err) (fun _ w' => closing (state (conn w')) = true) w.
Proof using.
  intros Hs. unfold disconnect, l2tp_tunnel_disconnect, disconnect_with. apply wp_bind, wp_bind, auth_cget. intros w1 E1.
  assert (Hx : forall s, wp (conn_leave s ;; l2tp_tunnel_clear_sendqueue ;; b ← l2tp_send_StopCCN d rnd sys res err;
     cset (fun c => c <| state := STATE_FIN |>) ;;
     if negb b then tunnel_free_with (session_free_closing sys) ;; mret false
     else del_timers false ;; free_sessions_with (session_free_closing sys) ;; mret true)
     (fun _ w' => wp (skip : M unit) (fun _ w'' => closing (state (conn w'')) = true) w') w1).
  { intros s. apply wp_bind, wp_calm; [calm|]. intros _ w2 _. apply wp_bind, wp_calm; [calm|]. intros _ w3 _.
    apply wp_bind, wp_calm; [calm|]. intros b w4 _. apply wp_bind, auth_cset. intros w5 E5.
    apply wp_calm; [calm|]. intros r w6 C6. apply wp_skip. destruct (cm_state _ _ C6) as [E|]; [|done]. rewrite E, E5. by destruct (conn w4). }
  destruct Hs as [->|[->|[->| ->]]]; apply Hx.
Qed.

Lemma ends_calm c c1 c2 : mild c c1 -> calm c1 c2 -> closing (state c2) = true -> calm c c2.
Proof using.
  intros [A1 A2 A3] [B1 B2 B3 B4] Hc. split; [by right|congruence|by right|]. clear -A3 B4. set_solver.
Qed.

(** *** Who answers the challenge *)

(** The attributes [l] of a message have the answer to the challenge [ch] under the secret. *)
Definition answers (sec : option (list Z)) (ch : list Z) (l : list l2tp_attr_t) : Prop :=
  exists ty a, (ty = SCCRP \/ ty = SCCCN) /\ last_attr Challenge_Response l = Some a /\ attr_length a = 16 /\
    val_octets (attr_val a) 16 = Some (comp_chap_md5 ty (default [] sec) ch).

Definition authentic (c : l2tp_conn_t) (l : list l2tp_attr_t) : Prop :=
  no_secret (secret c) = true \/ exists ch, challenge c = Some ch /\ answers (secret c) ch l.

Lemma wp_check ty l w Q :
  ty = SCCRP \/ ty = SCCCN ->
  (forall w', conn w' = conn w -> authentic (conn w) l -> Q true w') -> (forall w', conn w' = conn w -> Q false w') ->
  wp (l2tp_tunnel_checkchallresp ty (last_attr Challenge_Response l)) Q w.
Proof using.
  intros Hty HT HF. unfold l2tp_tunnel_checkchallresp. apply wp_bind, auth_cget. intros w1 E1. apply wp_bind, auth_cget. intros w2 E2.
  assert (E : conn w2 = conn w) by congruence. rewrite E1.
  destruct (no_secret (secret (conn w))) eqn:Es; [apply wp_ret, HT; [done|by left]|].
  destruct (challenge (conn w)) as [ch|] eqn:Ec; [|by apply wp_ret, HF].
  destruct (last_attr Challenge_Response l) as [a|] eqn:El; [|by apply wp_ret, HF].
  destruct (attr_length a =? Z.of_nat MD5_DIGEST_LENGTH) eqn:En; cbn [negb]; [|by apply wp_ret, HF]. to_prop.
  destruct (val_octets (attr_val a) (Z.of_nat MD5_DIGEST_LENGTH)) as [b|] eqn:Eb; [|apply wp_bind; unfold wp at 1; by apply wp_ret, HF].
  apply wp_ret. case_bool_decide as Em; [|by apply HF]. apply HT; [done|]. right. exists ch. split; [done|]. exists ty, a.
  rewrite Em. by rewrite <- Eb.
Qed.

(** The tunnel was established, or nothing but the usual happened. *)
Definition established (l : list l2tp_attr_t) (c c' : l2tp_conn_t) : Prop :=
  calm c c' \/ ((state c = STATE_WAIT_SCCRP \/ state c = STATE_WAIT_SCCCN) /\ authentic c l /\ state c' = STATE_ESTB).

Lemma wp_connect w Q :
  (forall w', mild (conn w) (conn w') -> Q false w') ->
  (forall w', state (conn w') = STATE_ESTB -> Q true w') -> wp (l2tp_tunnel_connect sys cf) Q w.
Proof using.
  intros HF HT. unfold l2tp_tunnel_connect. apply wp_bind, wp_mild; [mild|]. intros t w1 C1.
  apply wp_bind, wp_mild; [destruct (tm_on t); [apply mild_timer_del; [apply calm_timeout|by intros ? []]|mild]|]. intros _ w2 C2.
  pose proof (mild_trans _ _ _ C1 C2) as C. apply wp_bind, wp_mild; [apply mild_oks|]. intros b w3 C3. pose proof (mild_trans _ _ _ C C3) as C'.
  destruct b; cbn [negb]; [|by apply wp_ret, HF].
  apply wp_bind, wp_mild; [destruct (_ =? 0); [mild|apply mild_timer_add; [apply calm_hello|by intros ? []]]|]. intros b w4 C4.
  pose proof (mild_trans _ _ _ C' C4) as C''. destruct b; cbn [negb]; [|by apply wp_ret, HF].
  apply wp_bind, wp_mild; [by apply mild_same|]. intros _ w5 C5. apply wp_bind, auth_cset. intros w6 E6.
  apply wp_ret, HT. rewrite E6. by destruct (conn w5).
Qed.

(** A message that is handled while the tunnel waits: all ends but success disconnect. *)
Section Handler.
Context (l : list l2tp_attr_t) (c0 : l2tp_conn_t).
Hypothesis Hst : state c0 = STATE_WAIT_SCCRP \/ state c0 = STATE_WAIT_SCCCN.

Lemma auth_disconnected res err w : mild c0 (conn w) -> wp (disconnect d rnd sys res err) (fun _ w' => established l c0 (conn w')) w.
Proof using Hst.
  intros Hm. assert (He : closing (state (conn (exec (disconnect d rnd sys res err) w))) = true).
  { apply (disconnect_ends res err w). rewrite (ml_state _ _ Hm). destruct Hst as [->| ->]; [by right; left|by right; right; left]. }
  left. apply (ends_calm _ _ _ Hm); [apply calm_disconnect0|exact He].
Qed.

Lemma auth_connect_or res err w :
  mild c0 (conn w) -> authentic c0 l ->
  wp (b ← l2tp_tunnel_connect sys cf; if negb b then disconnect d rnd sys res err else skip) (fun _ w' => established l c0 (conn w')) w.
Proof using Hst.
  intros Hm Ha. apply wp_bind, wp_connect; cbn [negb].
  - intros w1 H1. apply auth_disconnected. by eapply mild_trans.
  - intros w1 E1. apply wp_skip. by right.
Qed.

End Handler.

(** [c'] has the same challenge. *)
Lemma authentic_same c c' l : challenge c' = challenge c -> secret c' = secret c -> authentic c' l -> authentic c l.
Proof using. unfold authentic. by intros -> ->. Qed.

Lemma accept_challenge a w : challenge (conn (exec (accept_window a) w)) = challenge (conn w).
Proof using.
  destruct a as [a|]; [|done]. unfold accept_window. destruct (window_valid (uint16_of a)); destruct w as [[] h st tb o dr uf df u]; unfold exec; cbn; by destruct c_freed0.
Qed.

Lemma wp_SCCRP l w : wp (l2tp_recv_SCCRP d rnd sys cf l) (fun _ w' => established l (conn w) (conn w')) w.
Proof using.
  unfold l2tp_recv_SCCRP. apply wp_bind, auth_cget. intros w1 E1. unfold is_st.
  case_bool_decide as Es; cbn [negb]; [|apply wp_skip; left; rewrite E1; apply calm_refl].
  assert (Hst : state (conn w) = STATE_WAIT_SCCRP \/ state (conn w) = STATE_WAIT_SCCCN) by (by left).
  pose proof (fun res err w' => auth_disconnected l (conn w) Hst res err w') as D. pose proof (mild_refl (conn w)) as M1. rewrite <- E1 in M1 at 2.
  destruct (last_attr Assigned_Tunnel_ID l); [|by apply D].
  apply wp_bind, auth_cset. intros w2 E2.
  assert (C2 : mild (conn w1) (conn w2) /\ challenge (conn w2) = challenge (conn w1)) by (rewrite E2; destruct (conn w1); by split; [split|]).
  pose proof (mild_trans _ _ _ M1 (proj1 C2)) as M2. rewrite E1 in C2.
  destruct (unknown_attr SCCRP_known l); [by apply D|]. destruct (last_attr Framing_Capabilities l); [|by apply D].
  destruct (last_attr Protocol_Version l); [|by apply D]. destruct (negb _); [by apply D|].
  apply wp_bind. unfold wp at 1. pose proof (mild_accept_window (last_attr Recv_Window_Size l) w2) as M3'.
  pose proof (accept_challenge (last_attr Recv_Window_Size l) w2) as C3.
  pose proof (mild_trans _ _ _ M2 M3') as M3. destruct (val (accept_window _) w2); cbn [negb]; [|by apply D]. set (w3 := exec _ w2) in *. clearbody w3.
  apply wp_bind, (wp_check SCCRP l); [by left| |intros w4 E4; cbn [negb]; apply D; by rewrite E4]. cbn [negb]. intros w4 E4 Ha. rewrite <- E4 in M3.
  assert (Ha' : authentic (conn w) l) by (apply (authentic_same _ (conn w3)); [destruct C2; congruence|rewrite <- E4; apply M3|done]).
  apply wp_bind, wp_mild; [mild|]. intros b w5 M5. pose proof (mild_trans _ _ _ M3 M5) as M5'. destruct b; cbn [negb]; [|by apply D].
  apply wp_bind, wp_mild; [apply mild_SCCCN|]. intros b w6 M6. pose proof (mild_trans _ _ _ M5' M6) as M6'. destruct b; cbn [negb]; [|by apply D].
  by apply auth_connect_or.
Qed.

Lemma wp_SCCCN l w : wp (l2tp_recv_SCCCN d rnd sys cf l) (fun _ w' => established l (conn w) (conn w')) w.
Proof using.
  unfold l2tp_recv_SCCCN. apply wp_bind, auth_cget. intros w1 E1. unfold is_st.
  case_bool_decide as Es; cbn [negb]; [|apply wp_skip; left; rewrite E1; apply calm_refl].
  assert (Hst : state (conn w) = STATE_WAIT_SCCRP \/ state (conn w) = STATE_WAIT_SCCCN) by (by right).
  pose proof (fun res err w' => auth_disconnected l (conn w) Hst res err w') as D. pose proof (mild_refl (conn w)) as M1. rewrite <- E1 in M1 at 2.
  destruct (unknown_attr SCCCN_known l); [by apply D|].
  apply wp_bind, (wp_check SCCCN l); [by right| |intros w2 E2; cbn [negb]; apply D; by rewrite E2]. cbn [negb]. intros w2 E2 Ha. rewrite <- E2 in M1. rewrite E1 in Ha.
  apply wp_bind, wp_mild; [mild|]. intros b w3 M3. pose proof (mild_trans _ _ _ M1 M3) as M3'. by apply auth_connect_or.
Qed.

Lemma auth_handle_msg p w : wp (handle_msg d rnd sys adm cf p) (fun _ w' => established (attrs p) (conn w) (conn w')) w.
Proof using.
  unfold handle_msg. apply wp_bind, auth_cget. intros w1 E1. rewrite <- E1.
  assert (Hc : forall A (m : M A), calm_m m -> wp m (fun _ w' => established (attrs p) (conn w1) (conn w')) w1) by (intros A m Hm; apply wp_calm; [done|]; intros r w' C; by left).
  destruct (_ || _); [by apply Hc, calm_ret|]. destruct (attrs p) as [|a l] eqn:El; [apply Hc; calm|]. rewrite <- El in *.
  destruct (negb _); [by apply Hc, calm_ret|]. destruct (negb _); [apply Hc; calm|].
  unfold l2tp_tunnel_recv. destruct (_ =? _); [apply wp_SCCRP|]. destruct (_ =? _); [apply wp_SCCCN|].
  destruct (_ =? _); [apply Hc; calm|]. destruct (_ =? _); [apply Hc; calm|]. destruct (_ =? _); [apply Hc; calm|]. destruct (_ =? _); [apply Hc; calm|].
  apply Hc. calm.
Qed.

(** *** The messages of an event *)

(** [c] comes from [c0] by calm functions and reading messages of [S]. *)
Record calmS (S : l2tp_packet_t -> Prop) (c0 c : l2tp_conn_t) : Prop := {
  cs_challenge : challenge c = challenge c0 \/ closing (state c) = true;
  cs_secret : secret c = secret c0;
  cs_state : state c = state c0 \/ closing (state c) = true;
  cs_inbox : forall p, p ∈ inbox (chn c) -> S p }.

Lemma calmS_calm S c0 c c' : calmS S c0 c -> calm c c' -> calmS S c0 c'.
Proof using.
  intros [A1 A2 A3 A4] [B1 B2 B3 B4]. split; try congruence.
  - destruct B1 as [->|]; [|by right]. destruct A1 as [->|A1]; [by left|]. right. destruct B3 as [->|]; done.
  - destruct B3 as [->|]; [done|by right].
  - intros p Hp. by apply A4, B4.
Qed.

Lemma insert_inv {A} (l : list A) i x y : x ∈ <[i := y]> l -> x = y \/ x ∈ l.
Proof using.
  rewrite list_elem_of_lookup. intros (j & Hj). destruct (decide (i = j)) as [->|Hne].
  - left. apply list_lookup_insert_Some in Hj as [(_ & -> & _)|(Hx & _)]; done.
  - right. rewrite list_lookup_insert_ne in Hj by done. by apply list_elem_of_lookup_2 in Hj.
Qed.

Lemma inbox_store i k b (c : chan qpack l2tp_packet_t) p : p ∈ inbox (store_msg i k b c).2 -> p ∈ inbox c \/ b = Some p.
Proof using.
  unfold store_msg. destruct (_ <? 0); [by left|]. cbv zeta. set (c1 := if 0 <? nsnr_cmp k (peer_Nr c) then set_peer_Nr k c else c).
  assert (E : inbox c1 = inbox c) by (unfold c1; by destruct (_ <? _)). rewrite <- E. clearbody c1.
  destruct b as [q|]; [|by left]. destruct (_ <? 0); [by left|]. destruct (recv_queue_sz c1 <=? _); [by left|].
  destruct (recv_queue c1 !! _) as [[]|] eqn:El; try (by left). unfold inbox. cbn. rewrite !list_elem_of_omap. intros (x & Hx & Ex).
  apply insert_inv in Hx as [->|Hx]; [by right|]. left. by exists x.
Qed.

Lemma inbox_take id (c c' : chan qpack l2tp_packet_t) p i : take_at id c = Some (p, i, c') -> p ∈ inbox c /\ inbox c' ⊆ inbox c.
Proof using.
  unfold take_at. destruct (recv_queue c !! Z.to_nat id) as [[m|]|] eqn:El; try done. intros [= <- <- <-]. unfold inbox. cbn. split.
  - apply list_elem_of_omap. exists (Some m). split; [by eapply list_elem_of_lookup_2|done].
  - intros q Hq. apply list_elem_of_omap in Hq as (x & Hx & Ex). apply insert_inv in Hx as [->|Hx]; [done|]. apply list_elem_of_omap. by exists x.
Qed.

Lemma inbox_advance n (c : chan qpack l2tp_packet_t) : inbox (advance n c) = inbox c.
Proof using. done. Qed.

(** The tunnel is past its establishment. *)
Definition past (c : l2tp_conn_t) : Prop := state c = STATE_ESTB \/ closing (state c) = true.
Lemma past_calm c c' : past c -> calm c c' -> past c'.
Proof using. intros Hp [_ _ [E|E] _]; [|by right]. unfold past. by rewrite E. Qed.

(** What an event leads to: nothing but the usual, or one of its messages answers the
    challenge. *)
Definition waits (c : l2tp_conn_t) : Prop := state c = STATE_WAIT_SCCRP \/ state c = STATE_WAIT_SCCCN.
Definition outcome_ (S : l2tp_packet_t -> Prop) (c0 c : l2tp_conn_t) : Prop :=
  calmS S c0 c \/ (waits c0 /\ (exists p, S p /\ authentic c0 (attrs p)) /\ past c).

Lemma outcome_calm S c0 c c' : outcome_ S c0 c -> calm c c' -> outcome_ S c0 c'.
Proof using.
  intros [Hw|(H1 & H2 & H3)] C; [left; by eapply calmS_calm|]. right. split; [done|]. split; [done|]. by eapply past_calm.
Qed.

Lemma outcome_msg S c0 c p c' : outcome_ S c0 c -> (calmS S c0 c -> S p) -> established (attrs p) c c' -> outcome_ S c0 c'.
Proof using.
  intros Hw HS [C|(Hst & Ha & He)]; [by eapply outcome_calm|].
  assert (Hns : closing (state c) = false) by (by destruct Hst as [->| ->]).
  destruct Hw as [Hw|(_ & _ & [Hp|Hp])]; [|destruct Hst; congruence|congruence].
  right. destruct (cs_state _ _ _ Hw) as [Es|]; [|congruence]. unfold waits. rewrite <- Es. split; [done|]. split; [|by left].
  exists p. split; [by apply HS|]. apply (authentic_same _ c); [|apply Hw|done]. destruct (cs_challenge _ _ _ Hw); congruence.
Qed.

Lemma auth_reply_loop S c0 fuel id n w :
  outcome_ S c0 (conn w) -> wp (reply_loop d rnd sys adm cf fuel id n) (fun _ w' => outcome_ S c0 (conn w')) w.
Proof using.
  revert id n w. induction fuel as [|fuel IH]; intros id n w Hw; cbn [reply_loop]; [by apply wp_ret|].
  apply wp_bind, auth_cget. intros w1 E1. apply wp_bind, auth_cget. intros w2 E2. assert (E : conn w2 = conn w) by congruence. rewrite <- E in *.
  destruct (is_st _ _); [by apply wp_ret|]. destruct (take_at id (chn (conn w2))) as [[[p i] c']|] eqn:Et; [|by apply wp_ret].
  destruct (inbox_take _ _ _ _ _ Et) as [Hp Hi]. apply wp_bind, auth_cset. intros w3 E3.
  assert (C3 : calm (conn w2) (conn w3)) by (rewrite E3; destruct (conn w2); split; cbn in *; try done; by left).
  pose proof (outcome_calm _ _ _ _ Hw C3) as H3. apply wp_bind. eapply wp_mono; [apply auth_handle_msg|]. intros r w4 H4.
  assert (H4' : outcome_ S c0 (conn w4)).
  { destruct Hw as [Hw|Hw].
    - eapply outcome_msg; [left; by eapply calmS_calm| |exact H4]. intros _. by apply (cs_inbox _ _ _ Hw).
    - destruct H4 as [C4|(Hst & _ & _)]; [by eapply outcome_calm|]. destruct Hw as (_ & _ & Hw).
      destruct (past_calm _ _ Hw C3) as [Ex|Ex]; destruct Hst as [Hst|Hst]; rewrite Hst in Ex; done. }
  apply wp_bind, auth_cget. intros w5 E5. rewrite <- E5 in H4'. destruct (_ =? _); [by apply wp_ret|]. by apply IH.
Qed.

(** A calm function at the end of an event. *)
Lemma wp_out {A} (m : M A) S c0 w : calm_m m -> outcome_ S c0 (conn w) -> wp m (fun _ w' => outcome_ S c0 (conn w')) w.
Proof using. intros Hm Hw. apply wp_calm; [done|]. intros r w' C. by eapply outcome_calm. Qed.

Lemma calm_advance n : calm_m (on_chn (advance n)).
Proof using. apply calm_chn. done. Qed.
Hint Resolve calm_advance : calm.

Lemma auth_reply S c0 b w :
  calmS S c0 (conn w) -> wp (l2tp_tunnel_reply d rnd sys adm cf b) (fun _ w' => outcome_ S c0 (conn w')) w.
Proof using.
  intros Hw. unfold l2tp_tunnel_reply. apply wp_bind, auth_cget. intros w1 E1. rewrite <- E1 in Hw.
  apply wp_bind. eapply wp_mono; [apply (auth_reply_loop S c0); by left|]. intros n w2 H2. apply wp_out; [calm|done].
Qed.

Definition decoded (sec : option (list Z)) (ins : list rx) (p : l2tp_packet_t) : Prop :=
  exists old data, RData old data ∈ ins /\ l2tp_recv d (conf_avp_permissive cf) malloc_ok sec old data = Ret p.

Lemma wp_read_loop S c0 ins b w Q :
  calmS S c0 (conn w) -> (forall p, decoded (secret c0) ins p -> S p) ->
  (forall r w', calmS S c0 (conn w') -> Q r w') -> wp (read_loop d sys malloc_ok cf ins b) Q w.
Proof using.
  revert b w. induction ins as [|[old data|] ins IH]; intros b w Hw HS HQ; cbn [read_loop]; [by apply wp_ret, HQ| |].
  2:{ apply IH; try done. intros p (o & x & Hin & Hp). apply HS. exists o, x. split; [by right|done]. }
  assert (HS' : forall p, decoded (secret c0) ins p -> S p) by (intros p (o & x & Hin & Hp); apply HS; exists o, x; split; [by right|done]).
  apply wp_bind, auth_cget. intros w1 E1. rewrite <- E1 in Hw. rewrite <- E1.
  destruct (l2tp_recv _ _ _ _ _ _) as [| |p] eqn:Er.
  - apply wp_bind, wp_calm; [calm|]. intros _ w2 C2. apply wp_ret, HQ. by eapply calmS_calm.
  - by apply IH.
  - assert (Hp : S p) by (apply HS; exists old, data; split; [by left|]; by rewrite <- (cs_secret _ _ _ Hw)).
    apply wp_bind, wp_calm; [calm|]. intros c w2 C2. pose proof (calmS_calm _ _ _ _ Hw C2) as H2. destruct c; cbn [negb]; [|by apply wp_ret, HQ].
    apply wp_bind, auth_cget. intros w3 E3. rewrite <- E3 in H2. destruct (wrong_tid _ _ _); [by apply IH|].
    unfold l2tp_tunnel_store_msg. apply wp_bind, wp_bind, auth_cget. intros w4 E4. rewrite <- E4 in H2. rewrite <- E4.
    set (body := if l2tp_packet_is_ZLB p then None else Some p). pose proof (inbox_store (h_Ns (hdr p)) (h_Nr (hdr p)) body (chn (conn w4))) as Hin.
    destruct (store_msg _ _ _ _) as [[b1 b2] c']. apply wp_bind, auth_cset. intros w5 E5. apply wp_ret. apply IH; try done.
    destruct H2 as [A1 A2 A3 A4]. rewrite E5. destruct (conn w4). cbn in *. split; try done. cbn. intros q Hq. apply Hin in Hq as [Hq|Hq]; [by apply A4|].
    unfold body in Hq. destruct (l2tp_packet_is_ZLB p); [done|]. by injection Hq as <-.
Qed.

Lemma auth_conn_read S c0 ins pu w :
  calmS S c0 (conn w) -> (forall p, decoded (secret c0) ins p -> S p) ->
  wp (l2tp_conn_read d rnd sys adm malloc_ok cf ins pu) (fun _ w' => outcome_ S c0 (conn w')) w.
Proof using.
  intros Hw HS. unfold l2tp_conn_read. apply wp_bind, wp_calm; [calm|]. intros _ w1 C1. pose proof (calmS_calm _ _ _ _ Hw C1) as H1.
  apply wp_bind, (wp_read_loop S c0 ins false w1 _ H1 HS). intros [b|] w2 H2; [|apply wp_out; [calm|by left]].
  destruct pu; [apply wp_out; [calm|by left]|]. apply wp_bind, wp_calm; [calm|]. intros c w3 C3. pose proof (calmS_calm _ _ _ _ H2 C3) as H3.
  destruct c; cbn [negb]; [|apply wp_out; [calm|by left]].
  apply wp_bind. eapply wp_mono; [apply (auth_reply S c0 b w3 H3)|]. intros r w4 H4. apply wp_out; [calm|done].
Qed.

(** *** The challenge of a waiting tunnel was drawn at random *)

Definition drawn (ch : list Z) : Prop := exists k n, 16 <= n <= 143 /\ rnd k n = Some ch.

Definition good (c : l2tp_conn_t) : Prop :=
  no_secret (secret c) = false -> waits c -> exists ch, challenge c = Some ch /\ drawn ch.

Lemma good_not c : ~ waits c -> good c.
Proof using. intros H _ Hw. by destruct H. Qed.
Lemma past_not c : past c -> ~ waits c.
Proof using. intros [E|E] [H|H]; rewrite H in E; done. Qed.

Lemma good_calmS S c0 c : good c0 -> calmS S c0 c -> good c.
Proof using.
  intros Hg [A1 A2 A3 _] Hs Hw. assert (Hns : closing (state c) = false) by (by destruct Hw as [->| ->]).
  destruct A1 as [->|]; [|congruence]. destruct A3 as [E|]; [|congruence]. apply Hg; [congruence|]. unfold waits in *. by rewrite <- E.
Qed.

Lemma good_calm c c' : good c -> calm c c' -> good c'.
Proof using.
  intros Hg C. apply (good_calmS (fun _ => True) c); [done|]. eapply calmS_calm; [|exact C]. split; try done; by left.
Qed.

Lemma land_7f n : 0 <= Z.land n 0x7f <= 127.
Proof using. assert (E : Z.land n 127 = n mod 128) by exact (Z.land_ones n 7 ltac:(lia)). rewrite E. pose proof (Z.mod_pos_bound n 128 eq_refl). lia. Qed.

Lemma wp_genchall n p w Q :
  16 <= n <= 143 ->
  (forall r w', mild (conn w) (conn w') -> (r <> None -> no_secret (secret (conn w')) = false -> exists ch, challenge (conn w') = Some ch /\ drawn ch) -> Q r w') ->
  wp (l2tp_tunnel_genchall d rnd sys n p) Q w.
Proof using.
  intros Hn HQ. unfold wp. apply HQ; [apply mild_genchall|]. revert Hn. clear.
  intros Hn. change (wp (l2tp_tunnel_genchall d rnd sys n p) (fun r w' => r <> None -> no_secret (secret (conn w')) = false -> exists ch, challenge (conn w') = Some ch /\ drawn ch) w).
  unfold l2tp_tunnel_genchall. apply wp_bind, auth_cget. intros w1 E1. rewrite (proj2 (Z.eqb_neq n 0)) by lia. cbn [orb].
  destruct (no_secret (secret (conn w))) eqn:Es.
  { apply wp_bind, auth_cset. intros w2 E2. apply wp_ret. intros _. rewrite E2, E1. destruct (conn w). cbn in *. congruence. }
  assert (Hnone : forall w1, wp (set_challenge None ;; mret None) (fun (r : option l2tp_packet_t) w' => r <> None -> no_secret (secret (conn w')) = false -> exists ch, challenge (conn w') = Some ch /\ drawn ch) w1)
    by (intros w'; apply wp_bind, auth_cset; intros w'' _; apply wp_ret; intros H; by destruct H).
  apply wp_bind, auth_cget. intros w2 E2. apply wp_bind. unfold wp at 1. destruct (val _ w2); cbn [negb]; [|apply Hnone]. set (w3 := exec _ w2). clearbody w3.
  apply wp_bind. unfold wp at 1. destruct (val (run_bld (u_randbuf rnd n)) w3) as [bytes|] eqn:Eb; [|apply Hnone].
  assert (Hd : drawn bytes) by (exists (draw w3), n; split; [done|exact Eb]). set (w4 := exec _ w3). clearbody w4.
  apply wp_bind, auth_cset. intros w5 E5. apply wp_bind. unfold build. apply wp_bind. unfold wp at 1. set (w6 := exec (ok sys) w5). assert (E6 : conn w6 = conn w5) by done. clearbody w6.
  destruct (val (ok sys) w5); cbn [negb]; [|apply wp_ret, Hnone]. unfold wp at 1.
  set (w7 := exec (run_bld _) w6). assert (E7 : conn w7 = conn w6) by (unfold w7, run_bld, exec; by destruct (l2tp_packet_add_octets _ _ _ _ _ _ _)). clearbody w7.
  destruct (val (run_bld _) w6); [|apply Hnone]. apply wp_ret. intros _ _. exists bytes. split; [|done]. rewrite E7, E6, E5. by destruct (conn w4).
Qed.

Lemma mild_send_now p : mild_m (l2tp_tunnel_send_now sys p).
Proof using. unfold l2tp_tunnel_send_now. mild. Qed.
Hint Resolve mild_send_now : calm.
Lemma mild_push_loop fuel n : mild_m (push_loop sys fuel n).
Proof using. revert n. induction fuel as [|fuel IH]; intros n; cbn [push_loop]; mild. Qed.
Lemma mild_rtimeout : mild_m (timer_add sys rtimeout_timer set_rtimeout).
Proof using. apply mild_timer_add; [apply calm_rtimeout|by intros ? []]. Qed.
Hint Resolve mild_push_loop mild_rtimeout : calm.
Lemma mild_push : mild_m (l2tp_tunnel_push_sendqueue sys).
Proof using. unfold l2tp_tunnel_push_sendqueue. mild. Qed.
Lemma mild_start_attrs p : mild_m (start_attrs d rnd sys cf p).
Proof using. unfold start_attrs, add_int16, add_int32, add_string. mild. Qed.
Hint Resolve mild_push mild_start_attrs : calm.

(** What is known after the first message was sent. *)
Definition begun (c : l2tp_conn_t) : Prop := good c /\ state c <> STATE_ESTB.

Lemma begun_calm c c' : state c = STATE_INIT -> calm c c' -> begun c'.
Proof using.
  intros Hs C. destruct (cm_state _ _ C) as [E|E].
  - split; [|congruence]. apply good_not. intros [H|H]; congruence.
  - split; [apply good_not, past_not; by right|]. intros H. by rewrite H in E.
Qed.

(** A function that is both leaves the challenge of an opening tunnel alone. *)
Lemma keeps_challenge c c' : mild c c' -> calm c c' -> state c = STATE_INIT -> challenge c' = challenge c.
Proof using. intros [_ E _] C Hs. destruct (cm_challenge _ _ C) as [|H]; [done|]. rewrite E, Hs in H. done. Qed.

Lemma auth_send_start p next w :
  state (conn w) = STATE_INIT -> waits ((conn w) <| state := next |>) ->
  (p <> None -> no_secret (secret (conn w)) = false -> exists ch, challenge (conn w) = Some ch /\ drawn ch) ->
  wp (send_start sys p next) (fun _ w' => begun (conn w')) w.
Proof using.
  intros Hs Hw Hc. unfold send_start. destruct p as [p|]; [|apply wp_calm; [calm|]; intros r w' C; by apply (begun_calm (conn w))].
  apply wp_bind. unfold wp at 1. pose proof (mild_send p w) as M1. pose proof (calm_send p w) as C1. set (w1 := exec _ w) in *. clearbody w1.
  apply wp_bind. unfold wp at 1. pose proof (mild_push w1) as M2. pose proof (calm_push w1) as C2. set (w2 := exec _ w1) in *. clearbody w2.
  pose proof (mild_trans _ _ _ M1 M2) as M. pose proof (calm_trans _ _ _ C1 C2) as C. pose proof (keeps_challenge _ _ M C Hs) as Ec.
  destruct (_ <? 0).
  - apply wp_calm; [calm|]. intros r w' C'. apply (begun_calm (conn w2)); [by rewrite (ml_state _ _ M)|done].
  - apply auth_cset. intros w3 E3. assert (E : secret (conn w3) = secret (conn w) /\ challenge (conn w3) = challenge (conn w) /\ state (conn w3) = next).
    { rewrite E3, <- Ec, <- (ml_secret _ _ M). by destruct (conn w2). }
    destruct E as (E4 & E5 & E6). split.
    + intros Hn _. rewrite E4 in Hn. rewrite E5. by apply Hc.
    + rewrite E6. destruct (conn w). cbn in Hw. destruct Hw as [Hw|Hw]; cbn in Hw; congruence.
Qed.

Lemma wp_add_challenge p w Q :
  (forall r w', mild (conn w) (conn w') -> (r <> None -> no_secret (secret (conn w')) = false -> exists ch, challenge (conn w') = Some ch /\ drawn ch) -> Q r w') ->
  wp (add_challenge d rnd sys p) Q w.
Proof using.
  intros HQ. unfold add_challenge. destruct p as [p|]; [|apply wp_ret, HQ; [apply mild_refl|intros H; by destruct H]].
  apply wp_bind, wp_mild; [mild|]. intros [n|] w1 M1; [|apply wp_ret, HQ; [done|intros H; by destruct H]].
  apply wp_genchall; [pose proof (land_7f n); change (Z.of_nat MD5_DIGEST_LENGTH) with 16; lia|]. intros r w2 M2 H2. apply HQ; [by eapply mild_trans|done].
Qed.

Lemma auth_send_SCCRQ w : state (conn w) = STATE_INIT -> wp (l2tp_send_SCCRQ d rnd sys cf) (fun _ w' => begun (conn w')) w.
Proof using.
  intros Hs. unfold l2tp_send_SCCRQ. apply wp_bind, wp_mild; [mild|]. intros h w1 M1. apply wp_bind, wp_mild; [mild|]. intros p2 w2 M2.
  apply wp_bind, wp_mild; [mild|]. intros p3 w3 M3. apply wp_bind, wp_add_challenge. intros p4 w4 M4 H4.
  apply auth_send_start; [|destruct (conn w4); by left|done].
  by rewrite (ml_state _ _ M4), (ml_state _ _ M3), (ml_state _ _ M2), (ml_state _ _ M1).
Qed.

Lemma auth_send_SCCRP w : state (conn w) = STATE_INIT -> wp (l2tp_send_SCCRP d rnd sys cf) (fun _ w' => begun (conn w')) w.
Proof using.
  intros Hs. unfold l2tp_send_SCCRP. apply wp_bind, wp_mild; [mild|]. intros h w1 M1. apply wp_bind, wp_mild; [mild|]. intros p2 w2 M2.
  apply wp_bind, wp_mild; [mild|]. intros p3 w3 M3. apply wp_bind, wp_mild; [mild|]. intros p4 w4 M4. apply wp_bind, wp_add_challenge. intros p5 w5 M5 H5.
  apply auth_send_start; [|destruct (conn w5); by right|done].
  by rewrite (ml_state _ _ M5), (ml_state _ _ M4), (ml_state _ _ M3), (ml_state _ _ M2), (ml_state _ _ M1).
Qed.

(** *** Events *)

Abbreviation handle_ := (handle d rnd sys adm malloc_ok cf).

(** The messages an event may handle. *)
Definition messages (e : ev) (c : l2tp_conn_t) (p : l2tp_packet_t) : Prop :=
  p ∈ inbox (chn c) \/ exists ins pu, e = Datagrams ins pu /\ decoded (secret c) ins p.

Lemma calmS_start (S : l2tp_packet_t -> Prop) c : (forall p, p ∈ inbox (chn c) -> S p) -> calmS S c c.
Proof using. intros H. split; try done; by left. Qed.

Lemma handle_event e w :
  enabled e w = true ->
  outcome_ (messages e (conn w)) (conn w) (conn (exec (handle_ e) w)) \/ begun (conn (exec (handle_ e) w)).
Proof using.
  intros He. assert (Hs : calmS (messages e (conn w)) (conn w) (conn w)) by (apply calmS_start; intros p Hp; by left).
  assert (Hc : calm_m (handle_ e) -> outcome_ (messages e (conn w)) (conn w) (conn (exec (handle_ e) w)))
    by (intros Hm; left; eapply calmS_calm; [exact Hs|apply Hm]).
  destruct e; cbn [handle] in *; try (left; apply Hc; unfold l2tp_timeout, l2tp_conn_close, create_session, apses_ctx_stop; calm; fail).
  - left. apply (auth_conn_read (messages (Datagrams ins peer_unreachable) (conn w)) (conn w) ins peer_unreachable w Hs).
    intros p Hp. right. by exists ins, peer_unreachable.
  - apply andb_true_iff in He as [_ He]. unfold start_ok in He. unfold run_conn in *.
    change (wp (l ← cget c_calls; match l with [] => skip | f :: l => cset (fun c => c <| c_calls := l |>) ;;
      match f with SendSCCRQ => l2tp_send_SCCRQ d rnd sys cf | SendSCCRP => l2tp_send_SCCRP d rnd sys cf
      | ApFinished i => l2tp_session_apses_finished d rnd sys i | CreateSession => l2tp_tunnel_create_session d rnd sys cf end end)
      (fun _ w' => outcome_ (messages Call (conn w)) (conn w) (conn w') \/ begun (conn w')) w).
    apply wp_bind, auth_cget. intros w1 E1. destruct (c_calls (conn w)) as [|f l]; [apply wp_skip; left; left; by rewrite E1|].
    apply wp_bind, auth_cset. intros w2 E2.
    assert (C2 : calm (conn w) (conn w2)) by (rewrite E2, E1; destruct (conn w); split; try done; by left).
    assert (Hi : is_st (state (conn w)) STATE_INIT = true -> state (conn w2) = STATE_INIT) by (rewrite E2, E1; destruct (conn w); cbn; by intros ?%bool_decide_eq_true).
    destruct f.
    + eapply wp_mono; [apply auth_send_SCCRQ; by apply Hi|]. intros r w3 H3. by right.
    + eapply wp_mono; [apply auth_send_SCCRP; by apply Hi|]. intros r w3 H3. by right.
    + apply wp_calm; [calm|]. intros r w3 C3. left. left. eapply calmS_calm; [exact Hs|]. by eapply calm_trans.
    + apply wp_calm; [calm|]. intros r w3 C3. left. left. eapply calmS_calm; [exact Hs|]. by eapply calm_trans.
Qed.

(** *** Opening *)

Definition early (c : l2tp_conn_t) : Prop := state c = STATE_INIT \/ closing (state c) = true.
Lemma early_not c : early c -> ~ waits c /\ state c <> STATE_ESTB.
Proof using. intros [E|E]; (split; [intros [H|H]|intros H]); rewrite H in E; done. Qed.
Lemma early_calm c c' : early c -> calm c c' -> early c'.
Proof using. intros He [_ _ [E|E] _]; [|by right]. unfold early. by rewrite E. Qed.
Lemma early_mild c c' : early c -> mild c c' -> early c'.
Proof using. intros He [_ E _]. unfold early. by rewrite E. Qed.

Definition early_m {A} (m : M A) : Prop := forall w, early (conn w) -> early (conn (exec m w)).
Lemma early_bind {A B} (m : M A) (k : A -> M B) : early_m m -> (forall a, early_m (k a)) -> early_m (m ≫= k).
Proof using. intros Hm Hk w Hw. rewrite exec_bind. apply Hk, Hm, Hw. Qed.
Lemma calm_early {A} (m : M A) : calm_m m -> early_m m.
Proof using. intros H w Hw. by eapply early_calm. Qed.
Lemma mild_early {A} (m : M A) : mild_m m -> early_m m.
Proof using. intros H w Hw. by eapply early_mild. Qed.
Lemma early_cset f : (forall c, early c -> early (f c)) -> early_m (cset f).
Proof using. intros H w Hw. unfold exec, cset. cbn. destruct (c_freed _); by apply H. Qed.

Ltac early1 :=
  lazymatch goal with
  | |- early_m (_ ≫= _) => apply early_bind; [|intros ?]
  | |- early_m (match ?x with _ => _ end) => destruct x
  | |- early_m (cset _) => apply early_cset; intros [] ?; done
  | |- early_m _ => first [apply calm_early; solve [calm] | apply mild_early; solve [mild]]
  end.

Lemma early_alloc used fr lns ps hide : early_m (l2tp_tunnel_alloc rnd sys cf used fr lns ps hide).
Proof using.
  unfold l2tp_tunnel_alloc. repeat early1. intros w _. by left.
Qed.
Lemma early_start f : early_m (l2tp_tunnel_start sys f).
Proof using. unfold l2tp_tunnel_start. repeat early1. Qed.

Ltac early2 := first [apply early_alloc | apply early_start | early1].

Lemma early_open o : early_m (open_tunnel d rnd sys adm malloc_ok cf o).
Proof using.
  destruct o; cbn [open_tunnel]; unfold l2tp_udp_read1, l2tp_recv_SCCRQ, accept_SCCRQ, create_tunnel; repeat early2.
Qed.

Lemma good_run l w w' : good (conn w) -> run d rnd sys adm malloc_ok cf l w = Some w' -> good (conn w').
Proof using.
  revert w. induction l as [|e l IH]; intros w Hg; cbn [run]; [by intros [= <-]|]. destruct (enabled e w) eqn:E; [|done]. apply IH.
  destruct (handle_event e w E) as [[H|(_ & _ & H)]|[H _]]; [by eapply good_calmS|by apply good_not, past_not|done].
Qed.

(** C12: with a secret, a tunnel is established only by a message that was just received and
    answers the challenge the tunnel waits with: an MD5 over the message type, the secret and
    the challenge, which are at least 16 bytes the daemon drew at random. *)
Theorem establishment_authenticated o l w0 w e :
  no_tunnel w0 -> run d rnd sys adm malloc_ok cf l (exec (open_tunnel d rnd sys adm malloc_ok cf o) w0) = Some w ->
  enabled e w = true -> no_secret (secret (conn w)) = false ->
  state (conn w) <> STATE_ESTB -> state (conn (exec (handle_ e) w)) = STATE_ESTB ->
  exists p ch, messages e (conn w) p /\ challenge (conn w) = Some ch /\ drawn ch /\ answers (secret (conn w)) ch (attrs p).
Proof using.
  intros (Hc & _) Hrun He Hsec Hne Hest.
  assert (Hg : good (conn w)).
  { eapply good_run; [|exact Hrun]. apply good_not, early_not, early_open. rewrite Hc. by right. }
  destruct (handle_event e w He) as [[H|(Hw & (p & Hp & Ha) & _)]|[_ H]]; [| |done].
  - destruct (cs_state _ _ _ H) as [E|E]; [congruence|]. by rewrite Hest in E.
  - destruct (Hg Hsec Hw) as (ch & Ech & Hd). destruct Ha as [Ha|(ch' & Ech' & Ha)]; [congruence|].
    exists p, ch. split; [done|]. split; [done|]. split; [done|]. congruence.
Qed.

End Ops.

End Calm.

(** ** Examples *)

Module AuthDemo.
Import L2tpPacket L2tpDict L2tpChan L2tpTunnel L2tpSteps Demo Calm.

Definition secret_ : list Z := [115; 101; 99; 114; 101; 116].
Definition cfs : config := conf false (Some secret_).
Abbreviation ran_ l := (run l2tp_dictionary rnd sys adm yes cfs l (exec (open_tunnel l2tp_dictionary rnd sys adm yes cfs (opening_ sccrq)) w0)).

(** The tunnel waits for the answer to its challenge. *)
Definition waiting : world := default w0 (ran_ [Call]).
Definition chall : list Z := default [] (challenge (conn waiting)).
Definition good_answer : ev :=
  Datagrams [from_peer (msg SCCCN T 0 1 1 [Wire.OpOctets Challenge_Response (comp_chap_md5 SCCCN secret_ chall) true])] false.
Definition bad_answer : ev :=
  Datagrams [from_peer (msg SCCCN T 0 1 1 [Wire.OpOctets Challenge_Response (comp_chap_md5 SCCCN secret_ (rev chall)) true])] false.
Definition does (e : ev) : world := exec (handle l2tp_dictionary rnd sys adm yes cfs e) waiting.

Lemma waiting_ran : ran_ [Call] = Some waiting.
Proof.
  assert (H : bool_decide (is_Some (ran_ [Call])) = true) by (vm_compute; reflexivity).
  unfold waiting. destruct (ran_ [Call]); [done|]. by apply bool_decide_eq_true in H as [? ?].
Qed.

Lemma establishment_authenticated_witness :
  exists p ch, messages l2tp_dictionary yes cfs good_answer (conn waiting) p /\ challenge (conn waiting) = Some ch /\ drawn rnd ch /\
    answers (secret (conn waiting)) ch (attrs p).
Proof.
  apply (establishment_authenticated l2tp_dictionary rnd sys adm yes cfs (opening_ sccrq) [Call] w0 waiting good_answer no_tunnel_w0 waiting_ran).
  - vm_compute. reflexivity.
  - vm_compute. reflexivity.
  - vm_compute. discriminate.
  - vm_compute. reflexivity.
Defined.

Lemma bad_answer_ends : state (conn (does bad_answer)) = STATE_FIN.
Proof. vm_compute. reflexivity. Qed.

(** A tunnel with a secret whose peer has not answered the challenge sets up the session
    of an outgoing call: [l2tp_recv_OCRQ] looks at the state of the tunnel only when the
    daemon is not the LNS, where it means to look at it when it is. *)
Theorem call_before_authentication :
  let w := does (Datagrams [from_peer (msg OCRQ T 0 1 1 [Wire.OpNum 2 Assigned_Session_ID 5 true; Wire.OpNum 4 Call_Serial_Number 0 true])] false) in
  no_secret (secret (conn w)) = false /\ state (conn w) = STATE_WAIT_SCCCN /\ map state1 (heap w) = [STATE_ESTB] /\ map apses_on (heap w) = [true].
Proof. vm_compute. done. Qed.

(** *** A tunnel that was closed before its first message *)

Definition cfq : config := conf true None.
Definition opened_ : world := exec (open_tunnel l2tp_dictionary rnd sys adm yes cfq (opening_ sccrq)) w0.
(** A message of an unknown type that asks to be understood, with the tunnel identifier 0. *)
Definition closed_ : world :=
  exec (handle l2tp_dictionary rnd sys adm yes cfq (Datagrams [from_peer (msg 40 0 0 1 0 [])] false)) opened_.
Definition raised : world := exec (run_conn l2tp_dictionary rnd sys cfq) closed_.
Definition stopped : world :=
  exec (handle l2tp_dictionary rnd sys adm yes cfq
    (Datagrams [from_peer (msg StopCCN T 0 2 1 [Wire.OpNum 2 Assigned_Tunnel_ID 77 true; Wire.OpOctets Result_Code [0; 1; 0; 0] true])] false)) raised.

(** A message read before the queued call that sends the SCCRP is run closes the tunnel,
    and the call opens it again: [l2tp_send_SCCRP] sets the state of the tunnel whatever it
    is.  The tunnel waits without a timer, and the counter of the starting tunnels goes below
    zero when it ends. *)
Theorem closed_tunnel_raised :
  state (conn closed_) = STATE_FIN /\ start_ok closed_ = false /\
  state (conn raised) = STATE_WAIT_SCCCN /\ tm_on (timeout_timer (conn raised)) = false /\
  state (conn stopped) = STATE_FIN_WAIT /\ stat stopped stat_conn_starting = 2 ^ 32 - 1.
Proof. vm_compute. done. Qed.

(** *** A peer that sends an empty challenge *)

Definition initiated : world :=
  exec (handle l2tp_dictionary rnd sys adm yes cfs Call)
    (exec (open_tunnel l2tp_dictionary rnd sys adm yes cfs (FromOperator (fun _ => false) false false (Some secret_))) w0).
Definition sccrp : list Z :=
  msg SCCRP (tid (conn initiated)) 0 0 1
    [Wire.OpNum 2 Protocol_Version 256 true; Wire.OpString Host_Name [97] true; Wire.OpNum 4 Framing_Capabilities 3 true;
     Wire.OpNum 2 Assigned_Tunnel_ID 77 true; Wire.OpOctets Challenge [] true;
     Wire.OpOctets Challenge_Response (comp_chap_md5 SCCRP secret_ (default [] (challenge (conn initiated)))) true].
Definition answered : world := exec (handle l2tp_dictionary rnd sys adm yes cfs (Datagrams [from_peer sccrp] false)) initiated.

(** An empty Challenge in the SCCRP of a peer that knows the secret makes the daemon free
    its own challenge twice: [realloc] to the size 0 frees the block and returns a null
    pointer, which [l2tp_tunnel_storechall] takes for a failure. *)
Theorem empty_challenge_freed_twice :
  state (conn initiated) = STATE_WAIT_SCCRP /\ dfree initiated = false /\ dfree answered = true.
Proof. vm_compute. done. Qed.

End AuthDemo.
