(* ===== verification/Triton.v ===== *)
(** * The event loop: contexts, worker threads, timers and descriptors

    [triton/triton.c], [triton/md.c] and [triton/timer.c].  A context owns timers, descriptor
    handlers and a queue of calls; worker threads take contexts from queues and run what is
    pending; two further threads wait in epoll and make timers and handlers pending; any
    thread, and any handler, may call a context, wake it, put its own context to sleep.

    The state holds the objects by address.  A step of the machine is one section of code
    between two lock operations, so that the sections of all threads interleave in any order;
    [doing] is where a thread stands inside of a function of the library.  An access to an
    object that was freed sets [uaf]. *)

From stdpp Require Import base tactics list numbers option gmap.
From S2P Require Import Prelude.

Module Triton.

Local Open Scope Z_scope.

Definition CTX_PRIO_MAX : nat := 4.
Definition EPOLLIN : Z := 1.
Definition EPOLLOUT : Z := 4.
Definition EPOLLERR : Z := 8.
Definition EPOLLHUP : Z := 16.
Definition EPOLLONESHOT : Z := 2 ^ 30.
Definition EPOLLET : Z := 2 ^ 31.
Definition MD_MODE_READ : Z := 1.
Definition MD_MODE_WRITE : Z := 2.

(** A call: the function and its argument. *)
Record _triton_ctx_call_t := mk_call { func : nat; arg : nat }.

(** ** Objects *)

(** The code that is left of a handler when it is entered, or put to sleep. *)
Inductive hnd :=
| KTimer
| KRead (h : nat) (events : Z)
| KWrite (h : nat)
| KCall
| KClose.

(** A context.  [entry2] says whether it is in a queue of contexts ([entry2.next] is not NULL);
    [uc] is the stack saved by [triton_context_schedule].  [accepted], [ran] and [cut] are the
    calls accepted so far, those that were run, and whether calls were taken back; [base] is
    the reference the registration holds, [leaked] the ones nobody gives back. *)
Record _triton_context_t := mk_ctx {
  ud : nat;
  refs : Z;
  thread : option nat;
  entry2 : bool;
  handlers : list nat;
  timers : list nat;
  pending_handlers : list nat;
  pending_timers : list nat;
  pending_calls : list _triton_ctx_call_t;
  init : bool;
  queued : bool;
  wakeup : bool;
  asleep : bool;
  need_close : bool;
  need_free : bool;
  pending : bool;
  priority : nat;
  uc : option hnd;
  accepted : list _triton_ctx_call_t;
  ran : list _triton_ctx_call_t;
  cut : bool;
  base : bool;
  leaked : Z
}.

(** A descriptor handler ([_triton_md_handler_t]) or a timer ([_triton_timer_t]). *)
Inductive kind := Md | Timer.
#[export] Instance kind_eq_dec : EqDecision kind.
Proof. solve_decision. Defined.

Record source := mk_source {
  s_kind : kind;
  s_ctx : nat;
  s_ud : bool;
  s_pending : bool;
  trig_epoll_events : Z;
  epoll_events : Z;
  trig_level : bool;
  armed : bool;
  mod_ : bool
}.

(** Where a worker stands in [triton_thread] and [ctx_thread]. *)
Inductive pc :=
| PTop
| PReload
| PSleep
| PWait
| PWoken
| PRun
| PCtx
| PTimer (t : nat)
| PMdRead (h : nat) (events : Z)
| PMdWrite (h : nat) (events : Z)
| PRearm (h : nat)
| PHnd (k : hnd)
| PSched (k : hnd)
| PClose
| PClosed
| PAfter
| PRel (need_free : bool)
| PClear
| PExit.

Record _triton_thread_t := mk_thread {
  t_pc : pc;
  t_ctx : option nat;
  t_sig : bool;
  wakeup_list : nat -> list nat
}.

(** Where an agent stands in a function of the library. *)
Inductive op :=
| CallAdd (c : nat) (k : _triton_ctx_call_t)
| Cancel (c f : nat)
| Wake (c : nat)
| WakeInit (c : nat)
| WakeUp (c : nat)
| Signal (t c : nat)
| Release (c : nat)
| Unlist (c : nat)
| FreeLater (s : nat)
| Reloading.

Definition holds (o : op) : option nat :=
  match o with
  | CallAdd c _ | Cancel c _ | Wake c | WakeInit c | WakeUp c | Signal _ c | Release c => Some c
  | Unlist _ | FreeLater _ | Reloading => None
  end.

(** Where the threads of [md.c] and [timer.c] stand. *)
Inductive epc := EWait | EBatch (l : list (nat * Z)) | ESig (s : nat) (l : list (nat * Z)) | EFree.

Record event_thread := mk_event { e_pc : epc; freed_list : list nat; freed_list2 : list nat }.

Record state := mk_state {
  ctxs : gmap nat _triton_context_t;
  srcs : gmap nat source;
  thrs : gmap nat _triton_thread_t;
  threads : list nat;
  sleep_threads : list nat;
  ctx_queue : nat -> list nat;
  ctx_list : list nat;
  tpd : gmap nat nat;
  terminate : bool;
  need_terminate : bool;
  need_config_reload : bool;
  thread_active : Z;
  context_count : Z;
  doing : gmap nat op;
  epoll : kind -> gmap nat Z;
  events : kind -> event_thread;
  uaf : bool
}.

(** ** Access *)

Definition fn_upd {A} (f : nat -> A) (i : nat) (v : A) : nat -> A := fun j => if (j =? i)%nat then v else f j.
Definition kind_eqb (a b : kind) : bool := bool_decide (a = b).

Definition bad (s : state) : state := s <| uaf := true |>.

Definition ctx_upd (c : nat) (f : _triton_context_t -> _triton_context_t) (s : state) : state :=
  match ctxs s !! c with Some x => s <| ctxs ::= <[c := f x]> |> | None => bad s end.
Definition src_upd (a : nat) (f : source -> source) (s : state) : state :=
  match srcs s !! a with Some x => s <| srcs ::= <[a := f x]> |> | None => bad s end.
Definition thr_upd (t : nat) (f : _triton_thread_t -> _triton_thread_t) (s : state) : state :=
  match thrs s !! t with Some y => s <| thrs ::= <[t := f y]> |> | None => s end.
Definition ev_upd (k : kind) (f : event_thread -> event_thread) (s : state) : state :=
  s <| events ::= fun e j => if kind_eqb j k then f (e j) else e j |>.
Definition goto (t : nat) (p : pc) (s : state) : state := thr_upd t (fun y => y <| t_pc := p |>) s.
Definition does (a : nat) (o : op) (s : state) : state := s <| doing ::= <[a := o]> |>.
Definition done_ (a : nat) (s : state) : state := s <| doing ::= delete a |>.

(** [list_del] from a queue the element is known to be in. *)
Definition list_del (x : nat) (l : list nat) : list nat := filter (fun y => y <> x) l.

(** [pthread_kill(thread, SIGUSR1)]. *)
Definition triton_thread_wakeup (t : nat) (s : state) : state := thr_upd t (fun y => y <| t_sig := true |>) s.
Definition wakeup_all (s : state) : state := fold_right triton_thread_wakeup s (threads s).

(** ** Contexts *)

Definition triton_context_release (c : nat) (s : state) : state :=
  match ctxs s !! c with
  | None => bad s
  | Some x => if refs x - 1 =? 0 then s <| ctxs ::= delete c |> else s <| ctxs ::= <[c := x <| refs := refs x - 1 |>]> |>
  end.

(** [triton_queue_ctx]: the thread that has to be woken, if the context was given to one. *)
Definition triton_queue_ctx (c : nat) (s : state) : option nat * state :=
  match ctxs s !! c with
  | None => (None, bad s)
  | Some x =>
      let put f s := s <| ctxs ::= <[c := f (x <| pending := true |>)]> |> in
      if bool_decide (is_Some (thread x)) || entry2 x || need_free x || init x then (None, put id s)
      else
        match sleep_threads s, need_config_reload s with
        | t :: l, false =>
            (Some t, thr_upd t (fun y => y <| t_ctx := Some c |>)
                       (put (fun x => x <| thread := Some t |>) s <| sleep_threads := l |>))
        | _, _ =>
            (None, put (fun x => x <| queued := true |> <| entry2 := true |>) s
                     <| ctx_queue ::= fun q => fn_upd q (priority x) (q (priority x) ++ [c]) |>)
        end
  end.

(** [triton_context_get_live] *)
Definition triton_context_get_live (u : nat) (s : state) : option nat :=
  c ← tpd s !! u;
  x ← ctxs s !! c;
  if bool_decide (c ∈ ctx_list s) && (ud x =? u)%nat && negb (need_free x) then Some c else None.

Definition new_ctx (u : nat) : _triton_context_t :=
  mk_ctx u 1 None false [] [] [] [] [] true false false false false false false 1 None [] [] false true 0.

(** [triton_context_register], with the address [mempool_alloc] returns. *)
Definition triton_context_register (u c : nat) (s : state) : state :=
  s <| ctxs ::= <[c := new_ctx u]> |> <| tpd ::= <[u := c]> |> <| ctx_list ::= fun l => l ++ [c] |>
    <| context_count ::= Z.add 1 |>.

(** The first part of [triton_context_unregister]; false when there is still a handler or a
    timer, and the calls are lost all the same. *)
Definition triton_context_unregister (u c : nat) (s : state) : bool * state :=
  match ctxs s !! c with
  | None => (false, bad s)
  | Some x =>
      let x := x <| pending_calls := [] |> <| cut := true |> in
      match handlers x, pending_handlers x, timers x, pending_timers x with
      | [], [], [], [] => (true, s <| ctxs ::= <[c := x <| need_free := true |>]> |> <| tpd ::= delete u |>)
      | _, _, _, _ => (false, s <| ctxs ::= <[c := x]> |>)
      end
  end.

(** The second part, with [ctx_list_lock]. *)
Definition ctx_unlist (c : nat) (s : state) : state :=
  let s := ctx_upd c id s <| ctx_list ::= list_del c |> <| context_count ::= fun n => n - 1 |> in
  let s := if (context_count s =? 1) && need_terminate s then s <| terminate := true |> else s in
  if terminate s then wakeup_all s else s.

Definition triton_context_set_priority (c p : nat) (s : state) : state :=
  if (p <? CTX_PRIO_MAX)%nat then ctx_upd c (fun x => x <| priority := p |>) s else s.

(** ** Sources of events *)

Definition has (mask bits : Z) : bool := negb (Z.land mask bits =? 0).

(** A call of [epoll_ctl], which succeeds for a registered descriptor. *)
Inductive epoll_op := Keep | Set_ (mask : Z) | Del.

Definition epoll_ctl (k : kind) (a : nat) (o : epoll_op) (s : state) : state :=
  let f := match o with Keep => id | Set_ m => <[a := m]> | Del => delete a end in
  s <| epoll ::= fun e j => if kind_eqb j k then f (e j) else e j |>.

Definition triton_md_enable_handler (mode : Z) (h : source) : source * epoll_op :=
  let events := epoll_events h in
  let e := if has mode MD_MODE_READ then Z.lor events EPOLLIN else events in
  let e := if has mode MD_MODE_WRITE then Z.lor e EPOLLOUT else e in
  let e := Z.lor e (if trig_level h then EPOLLONESHOT else EPOLLET) in
  let h := h <| epoll_events := e |> in
  if events =? e then (h, Keep)
  else if negb (events =? 0) then (if armed h then (h, Set_ e) else (h <| mod_ := true |>, Keep))
  else (h, Set_ e).

Definition triton_md_disable_handler (mode : Z) (h : source) : source * epoll_op :=
  let events := epoll_events h in
  if events =? 0 then (h, Keep)
  else
    let e := if has mode MD_MODE_READ then Z.ldiff events EPOLLIN else events in
    let e := if has mode MD_MODE_WRITE then Z.ldiff e EPOLLOUT else e in
    let e := if has e (Z.lor EPOLLIN EPOLLOUT) then e else 0 in
    let h := h <| epoll_events := e |> in
    if events =? e then (h, Keep)
    else if negb (e =? 0) then (if armed h then (h, Set_ e) else (h <| mod_ := true |>, Keep))
    else (h <| mod_ := false |>, Del).

Definition triton_md_set_trig (level : bool) (h : source) : source * epoll_op := (h <| trig_level := level |>, Keep).

Definition md_rearm (h : source) : source * epoll_op :=
  if negb (s_ud h) then (h, Keep)
  else if mod_ h then (h <| mod_ := false |> <| armed := true |>, Set_ (epoll_events h))
  else (h <| armed := true |>, Keep).

(** A function on a descriptor handler. *)
Definition md_upd (a : nat) (f : source -> source * epoll_op) (s : state) : state :=
  match srcs s !! a with
  | None => bad s
  | Some h => let '(h, o) := f h in epoll_ctl Md a o (s <| srcs ::= <[a := h]> |>)
  end.

(** [triton_md_register_handler] and [triton_timer_add], for the context [c] of the caller. *)
Definition new_source (k : kind) (c : nat) : source :=
  match k with
  | Md => mk_source Md c true false 0 0 false false false
  | Timer => mk_source Timer c true false 0 (Z.lor EPOLLIN EPOLLET) false false false
  end.

Definition add_source (k : kind) (a : nat) (x : _triton_context_t) : _triton_context_t :=
  match k with Md => x <| handlers ::= fun l => l ++ [a] |> | Timer => x <| timers ::= fun l => l ++ [a] |> end.
Definition add_pending (k : kind) (a : nat) (x : _triton_context_t) : _triton_context_t :=
  match k with Md => x <| pending_handlers ::= fun l => l ++ [a] |> | Timer => x <| pending_timers ::= fun l => l ++ [a] |> end.
Definition del_source (k : kind) (a : nat) (x : _triton_context_t) : _triton_context_t :=
  match k with Md => x <| handlers ::= list_del a |> | Timer => x <| timers ::= list_del a |> end.
Definition del_pending (k : kind) (a : nat) (x : _triton_context_t) : _triton_context_t :=
  match k with Md => x <| pending_handlers ::= list_del a |> | Timer => x <| pending_timers ::= list_del a |> end.

Definition source_add (k : kind) (c a : nat) (s : state) : state :=
  let h := new_source k c in
  epoll_ctl k a (match k with Md => Keep | Timer => Set_ (epoll_events h) end)
    (ctx_upd c (fun x => add_source k a (x <| refs ::= Z.add 1 |>)) (s <| srcs ::= <[a := h]> |>)).

(** The failure of [triton_timer_mod] or [epoll_ctl] in [triton_timer_add]: the timer is freed,
    the reference to the context is not given back. *)
Definition timer_add_fails (c : nat) (s : state) : state :=
  ctx_upd c (fun x => x <| refs ::= Z.add 1 |> <| leaked ::= Z.add 1 |>) s.

(** [triton_md_unregister_handler] and [triton_timer_del], up to the list of freed objects. *)
Definition source_del (a : nat) (s : state) : state :=
  match srcs s !! a with
  | None => bad s
  | Some h =>
      let s := match s_kind h with Md => md_upd a (triton_md_disable_handler (Z.lor MD_MODE_READ MD_MODE_WRITE)) s | Timer => s end in
      let s := src_upd a (fun h => h <| s_ud := false |>) s in
      let s := ctx_upd (s_ctx h) (del_source (s_kind h) a) s in
      if s_pending h then ctx_upd (s_ctx h) (del_pending (s_kind h) a) s else s
  end.

(** ** The worker threads *)

(** [check_ctx_queue_empty]: whether the context is in the wakeup list, its priority, the
    context. *)
Definition check_ctx_queue_empty (y : _triton_thread_t) (q : nat -> list nat) : option (bool * nat * nat) :=
  let fix go i n :=
    match n with
    | O => None
    | S n =>
        match wakeup_list y i, q i with
        | c :: _, _ => Some (true, i, c)
        | [], c :: _ => Some (false, i, c)
        | [], [] => go (S i) n
        end
    end in
  go 0%nat CTX_PRIO_MAX.

(** [list_del(&thread->ctx->entry2)] *)
Definition unqueue (t c : nat) (w : bool) (i : nat) (s : state) : state :=
  let s := ctx_upd c (fun x => x <| entry2 := false |>) s in
  if w then thr_upd t (fun y => y <| wakeup_list ::= fun f => fn_upd f i (list_del c (f i)) |>) s
  else s <| ctx_queue ::= fun q => fn_upd q i (list_del c (q i)) |>.

(** The head of the loop of [triton_thread]. *)
Definition thread_top (t : nat) (y : _triton_thread_t) (s : state) : state :=
  match need_config_reload s, check_ctx_queue_empty y (ctx_queue s) with
  | false, Some (w, i, c) =>
      match ctxs s !! c with
      | None => bad s
      | Some x =>
          let s := thr_upd t (fun y => y <| t_ctx := Some c |>) (unqueue t c w i s) in
          if asleep x && wakeup x then
            match uc x with Some k => goto t (PSched k) s | None => bad s end
          else goto t PRun (ctx_upd c (fun x => x <| thread := Some t |> <| queued := false |>) s)
      end
  | _, _ =>
      let s := if terminate s then s else s <| sleep_threads ::= cons t |> in
      let s := s <| thread_active ::= fun n => n - 1 |> in
      goto t (if (thread_active s =? 0) && need_config_reload s then PReload else PSleep) s
  end.

(** The end of [__config_reload]. *)
Definition config_reloaded (s : state) : state := wakeup_all (s <| need_config_reload := false |>).

Definition thread_woken (t : nat) (y : _triton_thread_t) (s : state) : state :=
  let s := s <| thread_active ::= Z.add 1 |> in
  match t_ctx y with
  | None => goto t PTop (s <| sleep_threads ::= list_del t |>)
  | Some _ => goto t PRun s
  end.

(** The section of [ctx_thread] that takes what is pending. *)
Definition ctx_next (t c : nat) (s : state) : state :=
  match ctxs s !! c with
  | None => bad s
  | Some x =>
      match pending_timers x, pending_handlers x, pending_calls x with
      | a :: l, _, _ =>
          goto t (PTimer a) (src_upd a (fun h => h <| s_pending := false |>) (ctx_upd c (fun x => x <| pending_timers := l |>) s))
      | [], a :: l, _ =>
          match srcs s !! a with
          | None => bad s
          | Some h =>
              goto t (PMdRead a (trig_epoll_events h))
                (src_upd a (fun h => h <| s_pending := false |> <| trig_epoll_events := 0 |> <| armed := false |>)
                  (ctx_upd c (fun x => x <| pending_handlers := l |>) s))
          end
      | [], [], k :: l => goto t (PHnd KCall) (ctx_upd c (fun x => x <| pending_calls := l |> <| ran ::= fun r => r ++ [k] |>) s)
      | [], [], [] => goto t PClose (ctx_upd c (fun x => x <| pending := false |>) s)
      end
  end.

Definition ctx_close (t c : nat) (s : state) : state :=
  match ctxs s !! c with
  | None => bad s
  | Some x => goto t (if need_close x && negb (need_free x) then PHnd KClose else PAfter) s
  end.

(** The end of the inner loop of [triton_thread]: the worker that runs an unregistered context
    gives the reference of the registration back. *)
Definition thread_after (t c : nat) (s : state) : state :=
  match ctxs s !! c with
  | None => bad s
  | Some x =>
      if negb (pending x) || need_free x then goto t (PRel (need_free x)) (ctx_upd c (fun x => x <| thread := None |> <| base ::= andb (negb (need_free x)) |>) s)
      else goto t PCtx s
  end.

(** The section of [triton_context_schedule], also when the saved stack is resumed. *)
Definition ctx_sleep (t c : nat) (k : hnd) (s : state) : state :=
  match ctxs s !! c with
  | None => bad s
  | Some x =>
      if wakeup x then goto t (PHnd k) (ctx_upd c (fun x => x <| asleep := false |> <| wakeup := false |> <| uc := None |>) s)
      else goto t PTop (thr_upd t (fun y => y <| t_ctx := None |>) (ctx_upd c (fun x => x <| uc := Some k |> <| asleep := true |>) s))
  end.

(** One source of events: an unregistered one is left out. *)
Definition src_run (t a : nat) (f : source -> pc) (s : state) : state :=
  match srcs s !! a with None => bad s | Some h => goto t (f h) s end.

Definition wants (bits mode events : Z) (h : source) : bool :=
  has events (Z.lor bits (Z.lor EPOLLERR EPOLLHUP)) && has (epoll_events h) mode && s_ud h.

(** What a worker does next; [None] when it waits for a signal, or runs a handler. *)
Definition worker (t : nat) (s : state) : option state :=
  match thrs s !! t with
  | None => None
  | Some y =>
      match t_pc y, t_ctx y with
      | PTop, _ => Some (thread_top t y s)
      | PReload, _ => Some (goto t PSleep (config_reloaded s))
      | PSleep, _ => Some (if terminate s then goto t PExit (s <| threads ::= list_del t |>) else goto t PWait s)
      | PWait, _ => if t_sig y then Some (goto t PWoken (thr_upd t (fun y => y <| t_sig := false |>) s)) else None
      | PWoken, _ => Some (thread_woken t y s)
      | PRun, Some c => Some (goto t PCtx (ctx_upd c id s))
      | PCtx, Some c => Some (ctx_next t c s)
      | PTimer a, _ => Some (src_run t a (fun h => if s_ud h then PHnd KTimer else PCtx) s)
      | PMdRead a ev, _ => Some (src_run t a (fun h => if wants EPOLLIN EPOLLIN ev h then PHnd (KRead a ev) else PMdWrite a ev) s)
      | PMdWrite a ev, _ => Some (src_run t a (fun h => if wants EPOLLOUT EPOLLOUT ev h then PHnd (KWrite a) else PRearm a) s)
      | PRearm a, _ => Some (goto t PCtx (md_upd a md_rearm s))
      | PSched k, Some c => Some (ctx_sleep t c k s)
      | PClose, Some c => Some (ctx_close t c s)
      | PClosed, Some c => Some (goto t PAfter (ctx_upd c (fun x => x <| need_close := false |>) s))
      | PAfter, Some c => Some (thread_after t c s)
      | PRel nf, Some c => Some (goto t PClear (if nf : bool then triton_context_release c s else s))
      | PClear, _ => Some (goto t PTop (thr_upd t (fun y => y <| t_ctx := None |>) s))
      | _, _ => None
      end
  end.

(** A handler returns.  One that unregistered its descriptor has to say so, with a result
    other than 0: otherwise the library goes on with the descriptor. *)
Definition finish (t : nat) (r : bool) (s : state) : option state :=
  match thrs s !! t, doing s !! t with
  | Some y, None =>
      let next a p := if r then Some (goto t PCtx s)
                      else h ← srcs s !! a;
                           if s_ud h && kind_eqb (s_kind h) Md && bool_decide (t_ctx y = Some (s_ctx h)) then Some (goto t p s) else None in
      match t_pc y with
      | PHnd KTimer | PHnd KCall => Some (goto t PCtx s)
      | PHnd (KRead a ev) => next a (PMdWrite a ev)
      | PHnd (KWrite a) => next a (PRearm a)
      | PHnd KClose => Some (goto t PClosed s)
      | _ => None
      end
  | _, _ => None
  end.

(** ** Functions of the library *)

Inductive req :=
| RRegister (u c : nat)
| RUnregister (u : nat)
| RPriority (u p : nat)
| RCall (u : nat) (k : _triton_ctx_call_t)
| RCancel (u f : nat)
| RWakeup (u : nat)
| RSchedule
| RReload
| RTerminate
| RClose (c : nat)
| RAdd (k : kind) (u a : nat)
| RAddFails (u : nat)
| RDel (a : nat)
| REnable (a : nat) (mode : Z)
| RDisable (a : nat) (mode : Z)
| RTrig (a : nat) (level : bool).

(** Handlers call the library, and threads that are no workers. *)
Definition may_call (a : nat) (s : state) : bool :=
  bool_decide (doing s !! a = None) &&
  match thrs s !! a with None => true | Some y => match t_pc y with PHnd _ => true | _ => false end end.

(** The rule for the users of the library: timers, handlers and contexts are taken down by the
    context they belong to, or while it is idle. *)
Definition owns (a c : nat) (s : state) : bool :=
  match ctxs s !! c with
  | None => false
  | Some x =>
      match thread x with
      | None => negb (entry2 x)
      | Some t => (t =? a)%nat && match thrs s !! a with Some y => bool_decide (t_ctx y = Some c) | None => false end
      end
  end.

(** Functions that begin with [triton_context_get_live]. *)
Definition with_live (a u : nat) (f : nat -> op) (s : state) : state :=
  match triton_context_get_live u s with
  | None => s
  | Some c => does a (f c) (ctx_upd c (fun x => x <| refs ::= Z.add 1 |>) s)
  end.

Definition on_source (a : nat) (f : source -> source * epoll_op) (s : state) : option state :=
  h ← srcs s !! a; if s_ud h && kind_eqb (s_kind h) Md then Some (md_upd a f s) else None.

(** [triton_context_schedule] up to its section.  The stack [alloc_context] saves belongs to the
    context's own thread; it is the [uc] of [ctx_sleep]. *)
Definition triton_context_schedule (t : nat) (s : state) : option state :=
  y ← thrs s !! t;
  c ← t_ctx y;
  x ← ctxs s !! c;
  match t_pc y with
  | PHnd k => if need_free x then Some s else Some (goto t (PSched k) s)
  | _ => None
  end.

Definition triton_conf_reload (a : nat) (s : state) : state :=
  let s := s <| need_config_reload := true |> in
  if thread_active s =? 0 then does a Reloading s else s.

(** One turn of the loop of [triton_terminate]. *)
Definition ask_close (c : nat) (s : state) : state :=
  let '(r, s) := triton_queue_ctx c (ctx_upd c (fun x => x <| need_close := true |>) s) in
  match r with Some t => triton_thread_wakeup t s | None => s end.

Definition api (a : nat) (r : req) (s : state) : option state :=
  if negb (may_call a s) then None
  else
    match r with
    | RRegister u c => if bool_decide (ctxs s !! c = None /\ tpd s !! u = None) then Some (triton_context_register u c s) else None
    | RUnregister u =>
        match tpd s !! u with
        | None => Some s
        | Some c =>
            if negb (owns a c s) then None
            else let '(go, s) := triton_context_unregister u c s in Some (if go : bool then does a (Unlist c) s else s)
        end
    | RPriority u p => match tpd s !! u with None => Some s | Some c => Some (triton_context_set_priority c p s) end
    | RCall u k => Some (with_live a u (fun c => CallAdd c k) s)
    | RCancel u f => Some (with_live a u (fun c => Cancel c f) s)
    | RWakeup u => Some (with_live a u Wake s)
    | RSchedule => triton_context_schedule a s
    | RReload => Some (triton_conf_reload a s)
    | RTerminate => Some (s <| need_terminate := true |>)
    | RClose c => if bool_decide (c ∈ ctx_list s) then Some (ask_close c s) else None
    | RAdd k u a' =>
        match tpd s !! u with
        | None => Some s
        | Some c => if bool_decide (srcs s !! a' = None) then Some (source_add k c a' s) else None
        end
    | RAddFails u => match tpd s !! u with None => Some s | Some c => Some (timer_add_fails c s) end
    | RDel a' =>
        h ← srcs s !! a';
        if s_ud h && owns a (s_ctx h) s then Some (does a (FreeLater a') (source_del a' s)) else None
    | REnable a' mode => on_source a' (triton_md_enable_handler mode) s
    | RDisable a' mode => on_source a' (triton_md_disable_handler mode) s
    | RTrig a' level => on_source a' (triton_md_set_trig level) s
    end.

(** What is left after [triton_queue_ctx]: the signal, then the reference. *)
Definition signal (a c : nat) (r : option nat * state) : state :=
  match r with (Some t, s) => does a (Signal t c) s | (None, s) => does a (Release c) s end.

(** The other branch of [triton_context_wakeup]. *)
Definition wake_up (a c : nat) (s : state) : state :=
  match ctxs s !! c with
  | None => bad s
  | Some x =>
      if wakeup x then does a (Release c) s
      else
        match asleep x, thread x with
        | true, Some t =>
            match thrs s !! t with
            | None => bad s
            | Some y =>
                let s := ctx_upd c (fun x => x <| wakeup := true |> <| entry2 := true |>) s in
                let s := thr_upd t (fun y => y <| wakeup_list ::= fun f => fn_upd f (priority x) (f (priority x) ++ [c]) |>) s in
                match t_ctx y with None => does a (Signal t c) s | Some _ => does a (Release c) s end
            end
        | _, _ => does a (Release c) (ctx_upd c (fun x => x <| wakeup := true |>) s)
        end
  end.

(** An agent goes on inside of a function; [ok] says whether memory was found. *)
Definition continue (a : nat) (ok : bool) (s : state) : option state :=
  o ← doing s !! a;
  Some
    match o with
    | CallAdd c k =>
        if ok then
          signal a c (triton_queue_ctx c (ctx_upd c (fun x => x <| pending_calls ::= fun l => l ++ [k] |> <| accepted ::= fun l => l ++ [k] |>) s))
        else does a (Release c) s
    | Cancel c f => does a (Release c) (ctx_upd c (fun x => x <| pending_calls ::= filter (fun k => func k <> f) |> <| cut := true |>) s)
    | Wake c =>
        match ctxs s !! c with
        | None => bad s
        | Some x => does a (if init x then WakeInit c else WakeUp c) s
        end
    | WakeInit c =>
        let s := ctx_upd c (fun x => x <| init := false |>) s in
        match ctxs s !! c with
        | Some x => if pending x then signal a c (triton_queue_ctx c s) else does a (Release c) s
        | None => s
        end
    | WakeUp c => wake_up a c s
    | Signal t c => does a (Release c) (triton_thread_wakeup t s)
    | Release c => done_ a (triton_context_release c s)
    | Unlist c => done_ a (ctx_unlist c s)
    | FreeLater a' =>
        match srcs s !! a' with
        | None => bad s
        | Some h => done_ a (ev_upd (s_kind h) (fun e => e <| freed_list ::= fun l => l ++ [a'] |>) s)
        end
    | Reloading => done_ a (config_reloaded s)
    end.

(** ** The threads that wait in epoll *)

Definition epoll_wait (k : kind) (l : list (nat * Z)) (s : state) : option state :=
  match e_pc (events s k) with
  | EWait =>
      if forallb (fun '(a, _) => bool_decide (is_Some (epoll s k !! a))) l
      then Some (ev_upd k (fun e => e <| e_pc := EBatch l |>) s) else None
  | _ => None
  end.

(** Timers have no events of their own. *)
Definition trig (k : kind) (ev t : Z) : Z := match k with Md => Z.lor t ev | Timer => t end.

Definition event_one (k : kind) (a : nat) (ev : Z) (l : list (nat * Z)) (s : state) : state :=
  match srcs s !! a with
  | None => bad s
  | Some h =>
      let next p := ev_upd k (fun e => e <| e_pc := p |>) in
      if negb (s_ud h) then next (EBatch l) s
      else
        let s := src_upd a (fun h => h <| trig_epoll_events ::= trig k ev |> <| s_pending := true |>) s in
        if s_pending h then next (EBatch l) s
        else
          let '(r, s) := triton_queue_ctx (s_ctx h) (ctx_upd (s_ctx h) (add_pending k a) s) in
          next (match r with Some _ => ESig a l | None => EBatch l end) s
  end.

Definition event_signal (k : kind) (a : nat) (l : list (nat * Z)) (s : state) : state :=
  match srcs s !! a with
  | None => bad s
  | Some h =>
      match ctxs s !! s_ctx h with
      | None => bad s
      | Some x =>
          let s := match thread x with Some t => triton_thread_wakeup t s | None => s end in
          ev_upd k (fun e => e <| e_pc := EBatch l |>) s
      end
  end.

Definition event_free (k : kind) (s : state) : state :=
  match freed_list2 (events s k) with
  | [] => ev_upd k (fun e => mk_event EWait [] (freed_list e)) s
  | a :: l =>
      match srcs s !! a with
      | None => bad s
      | Some h =>
          let s := match k with Md => s | Timer => epoll_ctl k a Del s end in
          ev_upd k (fun e => e <| freed_list2 := l |>) (triton_context_release (s_ctx h) s <| srcs ::= delete a |>)
      end
  end.

Definition event_step (k : kind) (s : state) : option state :=
  match e_pc (events s k) with
  | EWait => None
  | EBatch [] => Some (ev_upd k (fun e => e <| e_pc := EFree |>) s)
  | EBatch ((a, ev) :: l) => Some (event_one k a ev l s)
  | ESig a l => Some (event_signal k a l s)
  | EFree => Some (event_free k s)
  end.

(** ** Steps *)

Inductive action :=
| Worker (t : nat)
| Finish (t : nat) (r : bool)
| Api (a : nat) (r : req)
| Continue (a : nat) (ok : bool)
| Epoll (k : kind) (l : list (nat * Z))
| Event (k : kind).

Definition act (x : action) (s : state) : option state :=
  match x with
  | Worker t => worker t s
  | Finish t r => finish t r s
  | Api a r => api a r s
  | Continue a ok => continue a ok s
  | Epoll k l => epoll_wait k l s
  | Event k => event_step k s
  end.

Fixpoint run (l : list action) (s : state) : option state :=
  match l with [] => Some s | x :: l => act x s ≫= run l end.

(** [triton_run] has started [n] threads, and nothing is registered. *)
Definition started (n : nat) : state :=
  mk_state ∅ ∅ (list_to_map ((fun t => (t, mk_thread PTop None false (fun _ => []))) <$> List.seq 0 n))
    (List.seq 0 n) [] (fun _ => []) [] ∅ false false false (Z.of_nat n) 0 ∅ (fun _ => ∅) (fun _ => mk_event EWait [] []) false.

End Triton.
