(* ===== verification/TritonSched.v ===== *)
(** * The scheduler of the event loop

    Where a context is: idle, in a queue, held by a worker, asleep on a worker, woken, resumed.
    [coh] says that the lists and the pointers of the workers agree with it, and has a lemma
    for each way a context moves; [sched] adds what the flags of contexts and workers mean.
    It is stated for the components of the state it is about. *)

From stdpp Require Import base tactics list numbers option gmap.
From S2P Require Import Prelude Triton.

Module Sched.
Import Triton.

(** ** Places *)

Inductive place := Idle | Queued | Held (t : nat) | Asleep (t : nat) | Woken (t : nat) | Resumed (t : nat).

Definition place_of (x : _triton_context_t) : place :=
  match thread x with
  | None => if entry2 x then Queued else Idle
  | Some t => if asleep x then (if entry2 x then Woken t else if wakeup x then Resumed t else Asleep t) else Held t
  end.

Definition places (C : gmap nat _triton_context_t) (c : nat) : place := from_option place_of Idle (C !! c).

(** A worker has its context from the moment it is given to it until it lets go of it. *)
Definition has_ctx (p : pc) : bool := match p with PTop | PRel _ | PClear => false | _ => true end.
Definition on (y : _triton_thread_t) : option nat := if has_ctx (t_pc y) then t_ctx y else None.
Definition ons (T : gmap nat _triton_thread_t) (t : nat) : option nat := T !! t ≫= on.
Definition wakes (T : gmap nat _triton_thread_t) (t p : nat) : list nat := from_option (fun y => wakeup_list y p) [] (T !! t).

(** The lists and pointers agree with the places. *)
Record coh (P : nat -> place) (O : nat -> option nat) (Q : nat -> list nat) (W : nat -> nat -> list nat) : Prop := {
  h_on t c : O t = Some c <-> P c = Held t \/ P c = Resumed t;
  h_queue c p : c ∈ Q p -> P c = Queued;
  h_queued c : P c = Queued -> exists p, (p < CTX_PRIO_MAX)%nat /\ c ∈ Q p;
  h_queue1 c p p' : c ∈ Q p -> c ∈ Q p' -> p = p';
  h_wake t c p : c ∈ W t p -> P c = Woken t;
  h_woken t c : P c = Woken t -> exists p, (p < CTX_PRIO_MAX)%nat /\ c ∈ W t p;
  h_wake1 t c p p' : c ∈ W t p -> c ∈ W t p' -> p = p'
}.

Definition fn_upd2 {A} (f : nat -> nat -> A) (i j : nat) (v : A) : nat -> nat -> A := fun i' => if (i' =? i)%nat then fn_upd (f i) j v else f i'.

Lemma fn_upd_eq {A} (f : nat -> A) i v : fn_upd f i v i = v.
Proof. unfold fn_upd. by rewrite Nat.eqb_refl. Qed.
Lemma fn_upd_ne {A} (f : nat -> A) i v j : j <> i -> fn_upd f i v j = f j.
Proof. unfold fn_upd. intros H. by rewrite (proj2 (Nat.eqb_neq _ _) H). Qed.
Lemma fn_upd2_eq {A} (f : nat -> nat -> A) i j v : fn_upd2 f i j v i j = v.
Proof. unfold fn_upd2. rewrite Nat.eqb_refl. apply fn_upd_eq. Qed.
Lemma fn_upd2_ne {A} (f : nat -> nat -> A) i j v i' j' : ~ (i' = i /\ j' = j) -> fn_upd2 f i j v i' j' = f i' j'.
Proof.
  intros H. unfold fn_upd2. destruct (Nat.eqb_spec i' i) as [->|]; [|done]. apply fn_upd_ne. naive_solver.
Qed.

Lemma elem_list_del x y l : x ∈ list_del y l <-> x <> y /\ x ∈ l.
Proof. unfold list_del. by rewrite list_elem_of_filter. Qed.

(** Case analysis on the updates of [P], [O], [Q] and [W]. *)
Ltac upd_cases :=
  repeat match goal with
  | H : context [fn_upd2 _ ?i ?j _ ?i' ?j'] |- _ =>
      destruct (decide (i' = i /\ j' = j)) as [[? ?]|?]; [subst; rewrite fn_upd2_eq in H|rewrite (fn_upd2_ne _ i j _ i' j') in H by done]
  | |- context [fn_upd2 _ ?i ?j _ ?i' ?j'] =>
      destruct (decide (i' = i /\ j' = j)) as [[? ?]|?]; [subst; rewrite fn_upd2_eq|rewrite (fn_upd2_ne _ i j _ i' j') by done]
  | H : context [fn_upd _ ?i _ ?j] |- _ =>
      destruct (decide (j = i)) as [?|?]; [subst; rewrite fn_upd_eq in H|rewrite (fn_upd_ne _ i _ j) in H by done]
  | |- context [fn_upd _ ?i _ ?j] =>
      destruct (decide (j = i)) as [?|?]; [subst; rewrite fn_upd_eq|rewrite (fn_upd_ne _ i _ j) by done]
  end.

Section Moves.
Context {P : nat -> place} {O : nat -> option nat} {Q : nat -> list nat} {W : nat -> nat -> list nat} (H : coh P O Q W).
Set Default Proof Using "Type".

Lemma coh_ext P' O' Q' W' :
  (forall c, P' c = P c) -> (forall t, O' t = O t) -> (forall p, Q' p = Q p) -> (forall t p, W' t p = W t p) -> coh P' O' Q' W'.
Proof using H.
  intros E1 E2 E3 E4. destruct H as [A1 A2 A3 A4 A5 A6 A7].
  split; intros *; rewrite ?E1, ?E2, ?E3, ?E4; eauto.
  - intros Hq. destruct (A3 _ Hq) as (p & Hp & Hc). exists p. by rewrite E3.
  - intros Hq. destruct (A6 _ _ Hq) as (p & Hp & Hc). exists p. by rewrite E4.
Qed.

Lemma coh_queue c p : P c = Idle -> (p < CTX_PRIO_MAX)%nat -> coh (fn_upd P c Queued) O (fn_upd Q p (Q p ++ [c])) W.
Proof using H.
  intros Hc Hp. destruct H as [A1 A2 A3 A4 A5 A6 A7]. split.
  - intros t c'. specialize (A1 t c'). upd_cases; [|done]. rewrite A1, Hc. naive_solver.
  - intros c' p' Hq. upd_cases; try done; try (apply A2 in Hq; congruence).
    apply elem_of_app in Hq as [Hq|Hq%list_elem_of_singleton]; [by eapply A2|done].
  - intros c' Hq. upd_cases; [exists p; rewrite fn_upd_eq; split; [done|set_solver]|].
    destruct (A3 _ Hq) as (p' & Hp' & Hc'). exists p'. split; [done|]. upd_cases; set_solver.
  - assert (Hno : forall q, c ∉ Q q) by (intros q Hq; apply A2 in Hq; congruence).
    intros c' p1 p2 H1 H2. upd_cases; rewrite ?elem_of_app, ?list_elem_of_singleton in *; naive_solver.
  - intros t c' p' Hw. upd_cases; [apply A5 in Hw; congruence|by eapply A5].
  - intros t c' Hw. upd_cases; [done|by apply A6].
  - apply A7.
Qed.

(** The worker [t], which has no context, gets [c] from [Q], from its own list, or an idle one. *)
Lemma coh_hold c t pl :
  O t = None -> (pl = Held t \/ pl = Resumed t) -> (forall t', P c <> Held t' /\ P c <> Resumed t') ->
  (forall p, c ∉ Q p) -> (forall t p, c ∉ W t p) -> P c <> Queued -> (forall t', P c <> Woken t') ->
  coh (fn_upd P c pl) (fn_upd O t (Some c)) Q W.
Proof using H.
  intros Ho Hpl Hc HQ HW H1 H2. destruct H as [A1 A2 A3 A4 A5 A6 A7]. split.
  - intros t' c'. pose proof (A1 t' c') as B. upd_cases; naive_solver.
  - intros c' p Hq. upd_cases; [by apply HQ in Hq|by eapply A2].
  - intros c' Hq. upd_cases; [naive_solver|by apply A3].
  - apply A4.
  - intros t' c' p Hw. upd_cases; [by apply HW in Hw|by eapply A5].
  - intros t' c' Hw. upd_cases; [naive_solver|by apply A6].
  - apply A7.
Qed.

Lemma coh_assign c t : P c = Idle -> O t = None -> coh (fn_upd P c (Held t)) (fn_upd O t (Some c)) Q W.
Proof using H.
  intros Hc Ho. apply coh_hold; try done; try (by left); rewrite ?Hc; try done.
  - intros p Hq. apply (h_queue _ _ _ _ H) in Hq. congruence.
  - intros t' p Hw. apply (h_wake _ _ _ _ H) in Hw. congruence.
Qed.

(** The worker lets go of its context, which becomes idle or falls asleep. *)
Lemma coh_let_go c t pl :
  P c = Held t -> (pl = Idle \/ pl = Asleep t) -> coh (fn_upd P c pl) (fn_upd O t None) Q W.
Proof using H.
  intros Hc Hpl. destruct H as [A1 A2 A3 A4 A5 A6 A7]. split.
  - intros t' c'. pose proof (A1 t' c') as B. pose proof (proj2 (A1 t c) (or_introl Hc)). upd_cases; naive_solver congruence.
  - intros c' p Hq. upd_cases; [apply A2 in Hq; congruence|by eapply A2].
  - intros c' Hq. upd_cases; [naive_solver|by apply A3].
  - apply A4.
  - intros t' c' p Hw. upd_cases; [apply A5 in Hw; congruence|by eapply A5].
  - intros t' c' Hw. upd_cases; [naive_solver|by apply A6].
  - apply A7.
Qed.

Lemma coh_wake c t p : P c = Asleep t -> (p < CTX_PRIO_MAX)%nat -> coh (fn_upd P c (Woken t)) O Q (fn_upd2 W t p (W t p ++ [c])).
Proof using H.
  intros Hc Hp. destruct H as [A1 A2 A3 A4 A5 A6 A7].
  assert (Hno : forall t' q, c ∉ W t' q) by (intros t' q Hq; apply A5 in Hq; congruence). split.
  - intros t' c'. specialize (A1 t' c'). upd_cases; [|done]. rewrite A1, Hc. naive_solver.
  - intros c' p' Hq. upd_cases; [apply A2 in Hq; congruence|by eapply A2].
  - intros c' Hq. upd_cases; [done|by apply A3].
  - apply A4.
  - intros t' c' p' Hw. upd_cases; try done; try (by apply Hno in Hw); try (by eapply A5).
    apply elem_of_app in Hw as [Hw|Hw%list_elem_of_singleton]; [by eapply A5|done].
  - intros t' c' Hw. upd_cases; [injection Hw as <-; exists p; rewrite fn_upd2_eq; split; [done|set_solver]|].
    destruct (A6 _ _ Hw) as (p' & Hp' & Hc'). exists p'. split; [done|]. upd_cases; set_solver.
  - intros t' c' p1 p2 H1 H2. upd_cases; rewrite ?elem_of_app, ?list_elem_of_singleton in *; naive_solver.
Qed.

Lemma coh_awake c t : P c = Resumed t -> coh (fn_upd P c (Held t)) O Q W.
Proof using H.
  intros Hc. destruct H as [A1 A2 A3 A4 A5 A6 A7]. split.
  - intros t' c'. specialize (A1 t' c'). upd_cases; [|done]. rewrite A1, Hc. naive_solver.
  - intros c' p' Hq. upd_cases; [apply A2 in Hq; congruence|by eapply A2].
  - intros c' Hq. upd_cases; [done|by apply A3].
  - apply A4.
  - intros t' c' p' Hw. upd_cases; [apply A5 in Hw; congruence|by eapply A5].
  - intros t' c' Hw. upd_cases; [done|by apply A6].
  - apply A7.
Qed.

End Moves.

(** A context leaves the list it is in: the place is what it was before it came in. *)
Lemma coh_unqueue P O Q W c p pl : coh P O Q W -> c ∈ Q p -> (pl = Idle \/ exists t, pl = Asleep t) ->
  coh (fn_upd P c pl) O (fn_upd Q p (list_del c (Q p))) W.
Proof.
  intros H Hc Hpl. pose proof (h_queue _ _ _ _ H _ _ Hc) as HP. destruct H as [A1 A2 A3 A4 A5 A6 A7].
  assert (Hsub : forall c' p', c' ∈ fn_upd Q p (list_del c (Q p)) p' -> c' ∈ Q p' /\ c' <> c).
  { intros c' p' Hq. destruct (decide (p' = p)) as [->|Hn].
    - by rewrite fn_upd_eq, elem_list_del in Hq; destruct Hq.
    - rewrite fn_upd_ne in Hq by done. split; [done|]. intros ->. by pose proof (A4 _ _ _ Hq Hc). }
  split.
  - intros t' c'. specialize (A1 t' c'). upd_cases; [|done]. rewrite A1, HP. naive_solver.
  - intros c' p' Hq. destruct (Hsub _ _ Hq). rewrite fn_upd_ne by done. eauto.
  - intros c' Hq. upd_cases; [naive_solver|]. destruct (A3 _ Hq) as (p' & Hp' & Hc'). exists p'. split; [done|].
    upd_cases; [|done]. by rewrite elem_list_del.
  - intros c' p1 p2 [H1 _]%Hsub [H2 _]%Hsub. eauto.
  - intros t' c' p' Hw. upd_cases; [apply A5 in Hw; congruence|by eapply A5].
  - intros t' c' Hw. upd_cases; [naive_solver|by apply A6].
  - apply A7.
Qed.

Lemma coh_unwake P O Q W c t p : coh P O Q W -> c ∈ W t p ->
  coh (fn_upd P c (Asleep t)) O Q (fn_upd2 W t p (list_del c (W t p))).
Proof.
  intros H Hc. pose proof (h_wake _ _ _ _ H _ _ _ Hc) as HP. destruct H as [A1 A2 A3 A4 A5 A6 A7].
  assert (Hsub : forall t' c' p', c' ∈ fn_upd2 W t p (list_del c (W t p)) t' p' -> c' ∈ W t' p' /\ c' <> c).
  { intros t' c' p' Hq. destruct (decide (t' = t /\ p' = p)) as [[-> ->]|Hn].
    - by rewrite fn_upd2_eq, elem_list_del in Hq; destruct Hq.
    - rewrite fn_upd2_ne in Hq by done. split; [done|]. intros ->. pose proof (A5 _ _ _ Hq) as E.
      rewrite HP in E. injection E as <-. pose proof (A7 _ _ _ _ Hq Hc). by apply Hn. }
  split.
  - intros t' c'. specialize (A1 t' c'). upd_cases; [|done]. rewrite A1, HP. naive_solver.
  - intros c' p' Hq. upd_cases; [apply A2 in Hq; congruence|by eapply A2].
  - intros c' Hq. upd_cases; [done|by apply A3].
  - apply A4.
  - intros t' c' p' Hw. destruct (Hsub _ _ _ Hw). rewrite fn_upd_ne by done. eauto.
  - intros t' c' Hw. upd_cases; [done|]. destruct (A6 _ _ Hw) as (p' & Hp' & Hc'). exists p'. split; [done|].
    upd_cases; [|done]. by rewrite elem_list_del.
  - intros t' c' p1 p2 [H1 _]%Hsub [H2 _]%Hsub. eauto.
Qed.

(** ** The invariant of the scheduler *)

Definition napping (p : pc) : bool := match p with PReload | PSleep | PWait | PWoken | PExit => true | _ => false end.
Definition running (p : pc) : bool := has_ctx p && negb (napping p).

Record xok (x : _triton_context_t) : Prop := {
  x_entry2 : entry2 x = true -> asleep x = false /\ thread x = None \/ asleep x = true /\ wakeup x = true /\ is_Some (thread x);
  x_asleep : asleep x = true -> is_Some (thread x) /\ is_Some (uc x);
  x_busy : is_Some (thread x) \/ entry2 x = true -> init x = false /\ base x = true;
  x_prio : (priority x < CTX_PRIO_MAX)%nat;
  x_base : base x = false -> need_free x = true
}.

Record yok (y : _triton_thread_t) : Prop := {
  y_top : t_pc y = PTop -> t_ctx y = None;
  y_run : running (t_pc y) = true -> is_Some (t_ctx y);
  y_rel b : t_pc y = PRel b -> is_Some (t_ctx y)
}.

Record sched (C : gmap nat _triton_context_t) (T : gmap nat _triton_thread_t) (Q : nat -> list nat) (S : list nat) : Prop := {
  c_coh : coh (places C) (ons T) Q (wakes T);
  c_xok : map_Forall (fun _ x => xok x) C;
  c_dom c x t : C !! c = Some x -> thread x = Some t -> is_Some (T !! t);
  c_yok : map_Forall (fun _ y => yok y) T;
  c_res t y c : T !! t = Some y -> on y = Some c -> places C c = Resumed t -> exists k, t_pc y = PSched k;
  c_nodup : NoDup S;
  c_sleep t : t ∈ S -> exists y, T !! t = Some y /\ napping (t_pc y) = true /\ t_ctx y = None
}.

Lemma places_insert C c x c' : places (<[c := x]> C) c' = fn_upd (places C) c (place_of x) c'.
Proof. unfold places, fn_upd. destruct (Nat.eqb_spec c' c) as [->|]; [by rewrite lookup_insert_eq|by rewrite lookup_insert_ne]. Qed.
Lemma places_delete C c c' : places (delete c C) c' = fn_upd (places C) c Idle c'.
Proof. unfold places, fn_upd. destruct (Nat.eqb_spec c' c) as [->|]; [by rewrite lookup_delete_eq|by rewrite lookup_delete_ne]. Qed.
Lemma ons_insert T t y t' : ons (<[t := y]> T) t' = fn_upd (ons T) t (on y) t'.
Proof. unfold ons, fn_upd. destruct (Nat.eqb_spec t' t) as [->|]; [by rewrite lookup_insert_eq|by rewrite lookup_insert_ne]. Qed.
Lemma wakes_insert T t y t' p : wakes (<[t := y]> T) t' p = if decide (t' = t) then wakeup_list y p else wakes T t' p.
Proof. unfold wakes. case_decide; subst; [by rewrite lookup_insert_eq|by rewrite lookup_insert_ne]. Qed.

Lemma places_at C c x : C !! c = Some x -> places C c = place_of x.
Proof. unfold places. by intros ->. Qed.
Lemma ons_at T t y : T !! t = Some y -> ons T t = on y.
Proof. unfold ons. by intros ->. Qed.
Lemma wakes_at T t y p : T !! t = Some y -> wakes T t p = wakeup_list y p.
Proof. unfold wakes. by intros ->. Qed.
Lemma fn_upd_id {A} (f : nat -> A) i v j : f i = v -> fn_upd f i v j = f j.
Proof. intros <-. unfold fn_upd. by destruct (Nat.eqb_spec j i) as [->|]. Qed.
Lemma wakes_same T t y y' t' p : T !! t = Some y -> wakeup_list y' = wakeup_list y -> wakes (<[t := y']> T) t' p = wakes T t' p.
Proof. intros Hy E. rewrite wakes_insert. case_decide; [|done]. subst. by rewrite E, (wakes_at _ _ _ _ Hy). Qed.

Lemma place_thread x t : thread x = Some t <-> place_of x = Held t \/ place_of x = Asleep t \/ place_of x = Woken t \/ place_of x = Resumed t.
Proof. unfold place_of. destruct (thread x), (entry2 x), (asleep x), (wakeup x); naive_solver. Qed.
Lemma place_idle x : place_of x = Idle <-> thread x = None /\ entry2 x = false.
Proof. unfold place_of. destruct (thread x), (entry2 x), (asleep x), (wakeup x); naive_solver. Qed.
Lemma place_queued x : place_of x = Queued <-> thread x = None /\ entry2 x = true.
Proof. unfold place_of. destruct (thread x), (entry2 x), (asleep x), (wakeup x); naive_solver. Qed.
Lemma place_held x t : place_of x = Held t <-> thread x = Some t /\ asleep x = false.
Proof. unfold place_of. destruct (thread x), (entry2 x), (asleep x), (wakeup x); naive_solver. Qed.

(** *** One lemma for each kind of step *)

Section Updates.
Context {C : gmap nat _triton_context_t} {T : gmap nat _triton_thread_t} {Q : nat -> list nat} {S : list nat} (H : sched C T Q S).
Set Default Proof Using "Type".

Lemma sched_xok c x : C !! c = Some x -> xok x.
Proof using H. apply (c_xok _ _ _ _ H). Qed.
Lemma sched_yok t y : T !! t = Some y -> yok y.
Proof using H. apply (c_yok _ _ _ _ H). Qed.

Lemma sched_place c x x' :
  C !! c = Some x -> place_of x' = place_of x -> xok x' -> sched (<[c := x']> C) T Q S.
Proof using H.
  intros Hc E Hx. destruct H as [A1 A2 A3 A4 A5 A6 A7]. split; try done.
  - apply (coh_ext A1); try done. intros c'. rewrite places_insert, E. by apply fn_upd_id, places_at.
  - by apply map_Forall_insert_2.
  - intros c' x'' t Hc' Ht. apply lookup_insert_Some in Hc' as [[-> ->]|[_ Hc']]; [|by eapply A3].
    eapply (A3 _ x); [done|]. apply place_thread. rewrite <- E. by apply place_thread.
  - intros t y c' Hy Ho Hp. rewrite places_insert in Hp. rewrite fn_upd_id in Hp by (rewrite E; by apply places_at). by eapply A5.
Qed.

Lemma sched_new c x : C !! c = None -> place_of x = Idle -> xok x -> sched (<[c := x]> C) T Q S.
Proof using H.
  intros Hc E Hx. assert (Ep : places C c = Idle) by (unfold places; by rewrite Hc). destruct H as [A1 A2 A3 A4 A5 A6 A7]. split; try done.
  - apply (coh_ext A1); try done. intros c'. rewrite places_insert, E. by apply fn_upd_id.
  - by apply map_Forall_insert_2.
  - intros c' x'' t Hc' Ht. apply lookup_insert_Some in Hc' as [[-> <-]|[_ Hc']]; [|by eapply A3]. apply place_idle in E as [E _]. congruence.
  - intros t y c' Hy Ho Hp. rewrite places_insert, fn_upd_id in Hp by (by rewrite E). by eapply A5.
Qed.

Lemma sched_del c x : C !! c = Some x -> place_of x = Idle -> sched (delete c C) T Q S.
Proof using H.
  intros Hc E. rewrite <- (places_at _ _ _ Hc) in E. destruct H as [A1 A2 A3 A4 A5 A6 A7]. split; try done.
  - apply (coh_ext A1); try done. intros c'. rewrite places_delete. by apply fn_upd_id.
  - by apply map_Forall_delete.
  - intros c' x'' t [_ Hc']%lookup_delete_Some Ht. by eapply A3.
  - intros t y c' Hy Ho Hp. rewrite places_delete, fn_upd_id in Hp by done. by eapply A5.
Qed.

Lemma sched_thr t y y' :
  T !! t = Some y -> on y' = on y -> wakeup_list y' = wakeup_list y -> yok y' ->
  (t ∈ S -> napping (t_pc y') = true /\ t_ctx y' = None) ->
  (forall c, on y' = Some c -> places C c = Resumed t -> exists k, t_pc y' = PSched k) ->
  sched C (<[t := y']> T) Q S.
Proof using H.
  intros Hy Eo Ew Hok Hs Hr. destruct H as [A1 A2 A3 A4 A5 A6 A7]. split; try done.
  - apply (coh_ext A1); try done.
    + intros t'. rewrite ons_insert, Eo. by apply fn_upd_id, ons_at.
    + intros t' p. by apply (wakes_same _ _ y).
  - intros c x t' Hc Ht. destruct (decide (t' = t)) as [->|]; [by rewrite lookup_insert_eq|rewrite lookup_insert_ne by done; by eapply A3].
  - by apply map_Forall_insert_2.
  - intros t' z c Hz Ho Hp. apply lookup_insert_Some in Hz as [[-> <-]|[_ Hz]]; [by apply (Hr c)|by eapply A5].
  - intros t' Ht. destruct (decide (t' = t)) as [->|]; [rewrite lookup_insert_eq; destruct (Hs Ht); eauto|rewrite lookup_insert_ne by done; by apply A7].
Qed.

Lemma sched_queue c x x' :
  C !! c = Some x -> place_of x = Idle -> place_of x' = Queued -> xok x' ->
  sched (<[c := x']> C) T (fn_upd Q (priority x') (Q (priority x') ++ [c])) S.
Proof using H.
  intros Hc E E' Hx. pose proof (x_prio _ Hx) as Hp. rewrite <- (places_at _ _ _ Hc) in E. destruct H as [A1 A2 A3 A4 A5 A6 A7]. split; try done.
  - eapply coh_ext; [apply (coh_queue A1 c (priority x') E Hp)|..]; try done. intros c'. by rewrite places_insert, E'.
  - by apply map_Forall_insert_2.
  - intros c' x'' t Hc' Ht. apply lookup_insert_Some in Hc' as [[-> <-]|[_ Hc']]; [|by eapply A3]. apply place_queued in E' as [E' _]. congruence.
  - intros t y c' Hy Ho Hr. rewrite places_insert in Hr. upd_cases; [congruence|by eapply A5].
Qed.

(** A sleeping worker is given an idle context. *)
Lemma sched_assign c x x' t y S' :
  S = t :: S' -> C !! c = Some x -> place_of x = Idle -> place_of x' = Held t -> xok x' -> T !! t = Some y ->
  sched (<[c := x']> C) (<[t := y <| t_ctx := Some c |>]> T) Q S'.
Proof using H.
  intros HS Hc E E' Hx Hy. rewrite <- (places_at _ _ _ Hc) in E.
  destruct (c_sleep _ _ _ _ H t) as (y0 & Hy0 & Hn & Hno); [rewrite HS; left|]. rewrite Hy in Hy0. injection Hy0 as <-.
  pose proof (sched_yok _ _ Hy) as [Y1 Y2 Y3]. destruct H as [A1 A2 A3 A4 A5 A6 A7].
  assert (Ho : ons T t = None) by (rewrite (ons_at _ _ _ Hy); unfold on; by destruct (has_ctx _)).
  assert (Hh : has_ctx (t_pc y) = true) by (by destruct (t_pc y)).
  assert (Eo : on (y <| t_ctx := Some c |>) = Some c) by (unfold on; destruct y; cbn in *; by rewrite Hh).
  rewrite HS in A6, A7. apply NoDup_cons in A6 as [Hnt A6]. split; try done.
  - eapply coh_ext; [apply (coh_assign A1 c t E Ho)|..]; try done.
    + intros c'. by rewrite places_insert, E'.
    + intros t'. by rewrite ons_insert, Eo.
    + intros t' p. by apply (wakes_same _ _ y).
  - by apply map_Forall_insert_2.
  - intros c' x'' t' Hc' Ht. destruct (decide (t' = t)) as [->|]; [by rewrite lookup_insert_eq|rewrite lookup_insert_ne by done].
    apply lookup_insert_Some in Hc' as [[-> <-]|[_ Hc']]; [|by eapply A3]. apply place_held in E' as [E' _]. congruence.
  - apply map_Forall_insert_2; [|done]. destruct y; cbn in *. split; cbn; [intros ->; done|by eauto|by eauto].
  - intros t' z c' Hz Hoz Hp. rewrite places_insert in Hp. upd_cases; [congruence|].
    apply lookup_insert_Some in Hz as [[-> <-]|[_ Hz]]; [congruence|by eapply A5].
  - intros t' Ht. destruct (A7 t') as (z & Hz & Hz'); [by right|]. exists z. rewrite lookup_insert_ne by (intros ->; done). done.
Qed.

(** A worker takes a context out of a queue. *)
Lemma sched_take c x x' t y y' p :
  T !! t = Some y -> t_pc y = PTop -> C !! c = Some x -> c ∈ Q p -> place_of x' = Held t -> xok x' ->
  on y' = Some c -> wakeup_list y' = wakeup_list y -> yok y' -> running (t_pc y') = true ->
  sched (<[c := x']> C) (<[t := y']> T) (fn_upd Q p (list_del c (Q p))) S.
Proof using H.
  intros Hy Htop Hc HQ E' Hx Eo Ew Hok Hrun.
  assert (HnS : t ∉ S) by (intros Ht; destruct (c_sleep _ _ _ _ H t Ht) as (z & Hz & Hn & _); rewrite Hy in Hz; injection Hz as <-; by rewrite Htop in Hn).
  destruct H as [A1 A2 A3 A4 A5 A6 A7].
  assert (Ho : ons T t = None) by (rewrite (ons_at _ _ _ Hy); unfold on; by rewrite Htop).
  pose proof (coh_unqueue _ _ _ _ c p Idle A1 HQ (or_introl eq_refl)) as B. split; try done.
  - eapply coh_ext; [apply (coh_assign B c t)|..]; try done; [by rewrite fn_upd_eq|..].
    + intros c'. rewrite places_insert, E'. unfold fn_upd. by destruct (_ =? _)%nat.
    + intros t'. by rewrite ons_insert, Eo.
    + intros t' q. by apply (wakes_same _ _ y).
  - by apply map_Forall_insert_2.
  - intros c' x'' t' Hc' Ht. destruct (decide (t' = t)) as [->|]; [by rewrite lookup_insert_eq|rewrite lookup_insert_ne by done].
    apply lookup_insert_Some in Hc' as [[-> <-]|[_ Hc']]; [|by eapply A3]. apply place_held in E' as [E' _]. congruence.
  - by apply map_Forall_insert_2.
  - intros t' z c' Hz Hoz Hp. rewrite places_insert in Hp. upd_cases; [congruence|].
    apply lookup_insert_Some in Hz as [[-> <-]|[_ Hz]]; [congruence|by eapply A5].
  - intros t' Ht. rewrite lookup_insert_ne by (intros ->; done). by apply A7.
Qed.

(** A worker resumes a context that was woken. *)
Lemma sched_resume c x x' t y y' p :
  T !! t = Some y -> t_pc y = PTop -> C !! c = Some x -> c ∈ wakeup_list y p -> place_of x' = Resumed t -> xok x' ->
  on y' = Some c -> (forall q, wakeup_list y' q = fn_upd (wakeup_list y) p (list_del c (wakeup_list y p)) q) -> yok y' ->
  (exists k, t_pc y' = PSched k) ->
  sched (<[c := x']> C) (<[t := y']> T) Q S.
Proof using H.
  intros Hy Htop Hc HW E' Hx Eo Ew Hok [k Hk].
  assert (HnS : t ∉ S) by (intros Ht; destruct (c_sleep _ _ _ _ H t Ht) as (z & Hz & Hn & _); rewrite Hy in Hz; injection Hz as <-; by rewrite Htop in Hn).
  destruct H as [A1 A2 A3 A4 A5 A6 A7]. rewrite <- (wakes_at _ _ _ p Hy) in HW.
  assert (Ho : ons T t = None) by (rewrite (ons_at _ _ _ Hy); unfold on; by rewrite Htop).
  pose proof (h_wake _ _ _ _ A1 _ _ _ HW) as HP. pose proof (coh_unwake _ _ _ _ c t p A1 HW) as B. split; try done.
  - eapply coh_ext; [apply (coh_hold B c t (Resumed t))|..]; try done; rewrite ?fn_upd_eq; try done; [by right|..].
    + intros q Hq. apply (h_queue _ _ _ _ A1) in Hq. congruence.
    + intros t' q Hq. apply (h_wake _ _ _ _ B) in Hq. rewrite fn_upd_eq in Hq. done.
    + intros c'. rewrite places_insert, E'. unfold fn_upd. by destruct (_ =? _)%nat.
    + intros t'. by rewrite ons_insert, Eo.
    + intros t' q. rewrite wakes_insert. case_decide; [subst; rewrite Ew|].
      * unfold fn_upd2. rewrite Nat.eqb_refl. unfold fn_upd. by rewrite !(wakes_at _ _ _ _ Hy).
      * rewrite fn_upd2_ne by naive_solver. done.
  - by apply map_Forall_insert_2.
  - intros c' x'' t' Hc' Ht. destruct (decide (t' = t)) as [->|Hne]; [by rewrite lookup_insert_eq|rewrite lookup_insert_ne by done].
    apply lookup_insert_Some in Hc' as [[-> <-]|[_ Hc']]; [|by eapply A3]. apply place_thread in Ht. rewrite E' in Ht. naive_solver.
  - by apply map_Forall_insert_2.
  - intros t' z c' Hz Hoz Hp. apply lookup_insert_Some in Hz as [[-> <-]|[Hne Hz]]; [by exists k|].
    rewrite places_insert in Hp. upd_cases; [congruence|by eapply A5].
  - intros t' Ht. rewrite lookup_insert_ne by (intros ->; done). by apply A7.
Qed.

(** A worker lets go of the context it runs. *)
Lemma sched_let_go c x x' t y y' :
  T !! t = Some y -> running (t_pc y) = true -> C !! c = Some x -> t_ctx y = Some c -> asleep x = false ->
  (place_of x' = Idle \/ place_of x' = Asleep t) -> xok x' ->
  on y' = None -> wakeup_list y' = wakeup_list y -> yok y' ->
  sched (<[c := x']> C) (<[t := y']> T) Q S.
Proof using H.
  intros Hy Hrun Hc Ht Ha E' Hx Eo Ew Hok. unfold running in Hrun. apply andb_prop in Hrun as [Hh Hn].
  assert (HnS : t ∉ S) by (intros Hs; destruct (c_sleep _ _ _ _ H t Hs) as (z & Hz & Hz' & _); rewrite Hy in Hz; injection Hz as <-; by rewrite Hz' in Hn).
  assert (Ho : ons T t = Some c) by (rewrite (ons_at _ _ _ Hy); unfold on; by rewrite Hh).
  destruct H as [A1 A2 A3 A4 A5 A6 A7].
  assert (HP : places C c = Held t).
  { apply (h_on _ _ _ _ A1) in Ho as [Ho|Ho]; [done|]. rewrite (places_at _ _ _ Hc) in Ho. unfold place_of in Ho. rewrite Ha in Ho. by destruct (thread x), (entry2 x). }
  split; try done.
  - eapply coh_ext; [apply (coh_let_go A1 c t (place_of x') HP E')|..]; try done.
    + intros c'. apply places_insert.
    + intros t'. by rewrite ons_insert, Eo.
    + intros t' p. by apply (wakes_same _ _ y).
  - by apply map_Forall_insert_2.
  - intros c' x'' t' Hc' Ht'. destruct (decide (t' = t)) as [->|Hne]; [by rewrite lookup_insert_eq|rewrite lookup_insert_ne by done].
    apply lookup_insert_Some in Hc' as [[-> <-]|[_ Hc']]; [|by eapply A3]. apply place_thread in Ht'. naive_solver congruence.
  - by apply map_Forall_insert_2.
  - intros t' z c' Hz Hoz Hp. apply lookup_insert_Some in Hz as [[-> <-]|[Hne Hz]]; [congruence|].
    rewrite places_insert in Hp. upd_cases; [naive_solver congruence|by eapply A5].
  - intros t' Hs. rewrite lookup_insert_ne by (intros ->; done). by apply A7.
Qed.

(** A context that is asleep is put into the list of its worker. *)
Lemma sched_wake c x x' t y y' :
  C !! c = Some x -> place_of x = Asleep t -> place_of x' = Woken t -> xok x' -> T !! t = Some y ->
  t_pc y' = t_pc y -> t_ctx y' = t_ctx y ->
  (forall q, wakeup_list y' q = fn_upd (wakeup_list y) (priority x') (wakeup_list y (priority x') ++ [c]) q) ->
  sched (<[c := x']> C) (<[t := y']> T) Q S.
Proof using H.
  intros Hc E E' Hx Hy Epc Ectx Ew. pose proof (x_prio _ Hx) as Hp. rewrite <- (places_at _ _ _ Hc) in E.
  pose proof (sched_yok _ _ Hy) as [Y1 Y2 Y3]. destruct H as [A1 A2 A3 A4 A5 A6 A7].
  assert (Eo : on y' = on y) by (unfold on; by rewrite Epc, Ectx). split; try done.
  - eapply coh_ext; [apply (coh_wake A1 c t (priority x') E Hp)|..]; try done.
    + intros c'. by rewrite places_insert, E'.
    + intros t'. rewrite ons_insert, Eo. by apply fn_upd_id, ons_at.
    + intros t' q. rewrite wakes_insert. case_decide; [subst; rewrite Ew|rewrite fn_upd2_ne by naive_solver; done].
      unfold fn_upd2. rewrite Nat.eqb_refl. unfold fn_upd. by rewrite !(wakes_at _ _ _ _ Hy).
  - by apply map_Forall_insert_2.
  - intros c' x'' t' Hc' Ht'. destruct (decide (t' = t)) as [->|Hne]; [by rewrite lookup_insert_eq|rewrite lookup_insert_ne by done].
    apply lookup_insert_Some in Hc' as [[-> <-]|[_ Hc']]; [|by eapply A3]. apply place_thread in Ht'. naive_solver congruence.
  - apply map_Forall_insert_2; [|done]. split; rewrite ?Epc, ?Ectx; done.
  - intros t' z c' Hz Hoz Hr. rewrite places_insert in Hr. upd_cases; [congruence|].
    apply lookup_insert_Some in Hz as [[-> <-]|[Hne Hz]]; [|by eapply A5]. rewrite Epc. rewrite Eo in Hoz. by eapply A5.
  - intros t' Hs. destruct (A7 t' Hs) as (z & Hz & Hz'). destruct (decide (t' = t)) as [->|]; [|rewrite lookup_insert_ne by done; eauto].
    rewrite lookup_insert_eq. exists y'. rewrite Hy in Hz. injection Hz as <-. by rewrite Epc, Ectx.
Qed.

(** A context that was resumed is awake. *)
Lemma sched_awake c x x' t y y' :
  C !! c = Some x -> place_of x = Resumed t -> place_of x' = Held t -> xok x' ->
  T !! t = Some y -> on y = Some c -> on y' = Some c -> wakeup_list y' = wakeup_list y -> yok y' -> running (t_pc y) = true ->
  sched (<[c := x']> C) (<[t := y']> T) Q S.
Proof using H.
  intros Hc E E' Hx Hy Eo Eo' Ew Hok Hrun. rewrite <- (places_at _ _ _ Hc) in E.
  assert (HnS : t ∉ S) by (intros Hs; destruct (c_sleep _ _ _ _ H t Hs) as (z & Hz & Hz' & _); rewrite Hy in Hz; injection Hz as <-; unfold running in Hrun; rewrite Hz', andb_false_r in Hrun; done).
  destruct H as [A1 A2 A3 A4 A5 A6 A7]. split; try done.
  - eapply coh_ext; [apply (coh_awake A1 c t E)|..]; try done.
    + intros c'. by rewrite places_insert, E'.
    + intros t'. rewrite ons_insert, Eo', <- Eo. by apply fn_upd_id, ons_at.
    + intros t' p. by apply (wakes_same _ _ y).
  - by apply map_Forall_insert_2.
  - intros c' x'' t' Hc' Ht'. destruct (decide (t' = t)) as [->|Hne]; [by rewrite lookup_insert_eq|rewrite lookup_insert_ne by done].
    apply lookup_insert_Some in Hc' as [[-> <-]|[_ Hc']]; [|by eapply A3]. apply place_thread in Ht'. naive_solver congruence.
  - by apply map_Forall_insert_2.
  - intros t' z c' Hz Hoz Hr. rewrite places_insert in Hr. upd_cases; [congruence|].
    apply lookup_insert_Some in Hz as [[-> <-]|[Hne Hz]]; [congruence|by eapply A5].
  - intros t' Hs. rewrite lookup_insert_ne by (intros ->; done). by apply A7.
Qed.

(** A worker goes to sleep, and wakes with nothing to do. *)
Lemma sched_nap t y y' :
  T !! t = Some y -> t_pc y = PTop -> napping (t_pc y') = true -> t_ctx y' = None -> wakeup_list y' = wakeup_list y ->
  sched C (<[t := y']> T) Q (t :: S) /\ sched C (<[t := y']> T) Q S.
Proof using H.
  intros Hy Htop Hn Hc Ew.
  assert (HnS : t ∉ S) by (intros Ht; destruct (c_sleep _ _ _ _ H t Ht) as (z & Hz & Hz' & _); rewrite Hy in Hz; injection Hz as <-; by rewrite Htop in Hz').
  assert (B : sched C (<[t := y']> T) Q S).
  { apply (sched_thr t y); try done.
    - unfold on. rewrite Htop, Hc. by destruct (has_ctx _).
    - split; [done| |]; [unfold running; by rewrite Hn, andb_false_r|intros b Hb; by rewrite Hb in Hn].
    - intros c Ho. unfold on in Ho. rewrite Hc in Ho. by destruct (has_ctx _). }
  split; [|done]. destruct B as [A1 A2 A3 A4 A5 A6 A7]. split; try done.
  - by apply NoDup_cons.
  - intros t' [->|Ht]%elem_of_cons; [rewrite lookup_insert_eq; eauto|by apply A7].
Qed.

Lemma sched_rise t y y' :
  T !! t = Some y -> napping (t_pc y) = true -> t_ctx y = None -> t_pc y' = PTop -> t_ctx y' = None -> wakeup_list y' = wakeup_list y ->
  sched C (<[t := y']> T) Q (list_del t S).
Proof using H.
  intros Hy Hn Hc Htop Hc' Ew.
  assert (B : sched C T Q (list_del t S)).
  { destruct H as [A1 A2 A3 A4 A5 A6 A7]. split; try done; [by apply NoDup_filter|]. intros t' [_ Ht]%elem_list_del. by apply A7. }
  destruct B as [A1 A2 A3 A4 A5 A6 A7]. split; try done.
  - apply (coh_ext A1); try done.
    + intros t'. rewrite ons_insert. apply fn_upd_id. rewrite (ons_at _ _ _ Hy). unfold on. rewrite Hc, Hc'. by destruct (has_ctx _), (has_ctx _).
    + intros t' p. by apply (wakes_same _ _ y).
  - intros c x t' Hcx Ht. destruct (decide (t' = t)) as [->|]; [by rewrite lookup_insert_eq|rewrite lookup_insert_ne by done; by eapply A3].
  - apply map_Forall_insert_2; [|done]. split; rewrite Htop; done.
  - intros t' z c Hz Ho Hp. apply lookup_insert_Some in Hz as [[-> <-]|[_ Hz]]; [unfold on in Ho; by rewrite Htop in Ho|by eapply A5].
  - intros t' Ht. pose proof Ht as [Hne _]%elem_list_del. rewrite lookup_insert_ne by done. by apply A7.
Qed.

End Updates.

End Sched.
