(* ===== verification/TritonMem.v ===== *)
(** * The memory of the event loop

    Contexts are counted references: the registration, every timer and handler until the
    thread of its kind has freed it, every function of the library that uses the context, and
    the worker that ends it each have one.  Timers and handlers are freed by the thread that
    waits for them, after the events it has already got.  [mem] is the invariant; [ex] is a
    reference that is just changing hands. *)

From stdpp Require Import base tactics list numbers option gmap.
From S2P Require Import Prelude Triton TritonSched.

Module Mem.
Import Triton Sched.

Local Open Scope Z_scope.

(** ** Counting *)

Section Count.
Context {A : Type}.
Implicit Types (p : A -> bool) (m : gmap nat A).

Definition cnt p m : Z := map_fold (fun _ v n => Z.b2z (p v) + n) 0 m.

Lemma cnt_empty p : cnt p ∅ = 0.
Proof. apply map_fold_empty. Qed.

Lemma cnt_new p m k v : m !! k = None -> cnt p (<[k := v]> m) = cnt p m + Z.b2z (p v).
Proof. intros Hk. unfold cnt. rewrite map_fold_insert_L; [lia| |done]. intros. lia. Qed.

Lemma cnt_delete p m k v : m !! k = Some v -> cnt p (delete k m) = cnt p m - Z.b2z (p v).
Proof.
  intros Hk. rewrite <- (insert_delete_id m k v Hk) at 2. rewrite cnt_new by apply lookup_delete_eq. lia.
Qed.

Lemma cnt_set p m k v v' : m !! k = Some v -> cnt p (<[k := v']> m) = cnt p m - Z.b2z (p v) + Z.b2z (p v').
Proof.
  intros Hk. rewrite <- insert_delete_eq, cnt_new by apply lookup_delete_eq. by rewrite (cnt_delete p m k v).
Qed.

Lemma cnt_at_least_0 p m : 0 <= cnt p m.
Proof.
  induction m as [|k v m Hk IH] using map_ind; [by rewrite cnt_empty|]. rewrite cnt_new by done. destruct (p v); cbn; lia.
Qed.

Lemma cnt_has p m k v : m !! k = Some v -> p v = true -> 1 <= cnt p m.
Proof.
  intros Hk Hp. pose proof (cnt_delete p m k v Hk) as E. pose proof (cnt_at_least_0 p (delete k m)). rewrite Hp in E. cbn in E. lia.
Qed.

Lemma cnt_none p m : (forall k v, m !! k = Some v -> p v = false) -> cnt p m = 0.
Proof.
  induction m as [|k v m Hk IH] using map_ind; [by rewrite cnt_empty|]. intros H. rewrite cnt_new by done.
  rewrite (H k v) by apply lookup_insert_eq. rewrite IH; [done|]. intros j u Hj. apply (H j). rewrite lookup_insert_ne; [done|]. intros ->. congruence.
Qed.

End Count.

(** ** The invariant *)

Definition of_ctx (c : nat) (h : source) : bool := (s_ctx h =? c)%nat.
Definition held_by (c : nat) (o : op) : bool := bool_decide (holds o = Some c).
Definition rel_of (c : nat) (y : _triton_thread_t) : bool :=
  match t_pc y, t_ctx y with PRel true, Some c' => (c' =? c)%nat | _, _ => false end.

Definition busy (x : _triton_context_t) : bool := bool_decide (is_Some (thread x)) || entry2 x.
Definition pend (k : kind) (x : _triton_context_t) : list nat := match k with Md => pending_handlers x | Timer => pending_timers x end.

(** The source a worker is about to use. *)
Definition src_of (p : pc) : option (kind * nat) :=
  match p with
  | PTimer a => Some (Timer, a)
  | PMdRead a _ | PMdWrite a _ | PRearm a => Some (Md, a)
  | _ => None
  end.

Definition batch (e : epc) : list nat := match e with EBatch l => l.*1 | ESig a l => a :: l.*1 | _ => [] end.
Definition freed (e : event_thread) : list nat := freed_list2 e ++ freed_list e.

(** A descriptor without events is not in epoll, and will not be put there again. *)
Definition md_ok (h : source) : Prop :=
  s_kind h = Md -> (s_ud h = false -> epoll_events h = 0) /\ (mod_ h = true -> epoll_events h <> 0).

Record mem (ex : option nat) (C : gmap nat _triton_context_t) (R : gmap nat source) (T : gmap nat _triton_thread_t) (D : gmap nat op)
    (EP : kind -> gmap nat Z) (EV : kind -> event_thread) (L : list nat) (TP : gmap nat nat) : Prop := {
  m_refs c x : C !! c = Some x ->
    refs x = Z.b2z (base x) + cnt (of_ctx c) R + cnt (held_by c) D + cnt (rel_of c) T + leaked x + Z.b2z (bool_decide (ex = Some c)) /\ 0 <= leaked x;
  m_ex c : ex = Some c -> is_Some (C !! c);
  m_src a h : R !! a = Some h -> is_Some (C !! s_ctx h);
  m_doing a o c : D !! a = Some o -> holds o = Some c -> is_Some (C !! c);
  m_rel t y c : T !! t = Some y -> rel_of c y = true -> is_Some (C !! c);
  m_pend k c x a : C !! c = Some x -> a ∈ pend k x -> exists h, R !! a = Some h /\ s_kind h = k /\ s_ctx h = c /\ s_ud h = true /\ s_pending h = true;
  m_pend_nodup k c x : C !! c = Some x -> NoDup (pend k x);
  m_epoll k a : is_Some (EP k !! a) -> exists h, R !! a = Some h /\ s_kind h = k /\ (k = Md -> epoll_events h <> 0);
  m_dead a h : R !! a = Some h -> md_ok h;
  m_batch k a : a ∈ batch (e_pc (EV k)) -> exists h, R !! a = Some h /\ s_kind h = k;
  m_freed k a : a ∈ freed (EV k) -> exists h, R !! a = Some h /\ s_kind h = k /\ s_ud h = false;
  m_freed_nodup k : NoDup (freed (EV k));
  m_later g a : D !! g = Some (FreeLater a) -> exists h, R !! a = Some h /\ s_ud h = false /\ a ∉ freed (EV (s_kind h));
  m_later_one g g' a : D !! g = Some (FreeLater a) -> D !! g' = Some (FreeLater a) -> g = g';
  m_worker t y k a : T !! t = Some y -> src_of (t_pc y) = Some (k, a) ->
    exists h, R !! a = Some h /\ s_kind h = k /\ t_ctx y = Some (s_ctx h) /\ s_ud h = true;
  m_agent a o y : D !! a = Some o -> T !! a = Some y -> exists k, t_pc y = PHnd k;
  m_list c : c ∈ L -> exists x, C !! c = Some x /\ base x = true /\ (need_free x = true -> exists a, D !! a = Some (Unlist c));
  m_tpd u c : TP !! u = Some c -> exists x, C !! c = Some x /\ base x = true /\ need_free x = false /\ ud x = u;
  m_unlist a c : D !! a = Some (Unlist c) ->
    exists x, C !! c = Some x /\ base x = true /\ need_free x = true /\
      (busy x = false \/ exists y k, T !! a = Some y /\ t_pc y = PHnd k /\ t_ctx y = Some c)
}.

(** ** One lemma for each kind of change *)

Lemma held_by_at a D c o : D !! a = Some o -> holds o = Some c -> 1 <= cnt (held_by c) D.
Proof. intros Ho Hc. apply (cnt_has _ _ a o Ho). unfold held_by. by apply bool_decide_true. Qed.

Section Changes.
Context {ex : option nat} {C : gmap nat _triton_context_t} {R : gmap nat source} {T : gmap nat _triton_thread_t} {D : gmap nat op}
  {EP : kind -> gmap nat Z} {EV : kind -> event_thread} {L : list nat} {TP : gmap nat nat}.
Hypothesis H : mem ex C R T D EP EV L TP.
Set Default Proof Using "Type".

(** A context changes in what memory does not depend on. *)
Lemma mem_ctx c x x' :
  C !! c = Some x -> refs x' = refs x -> base x' = base x -> leaked x' = leaked x -> need_free x' = need_free x -> ud x' = ud x ->
  (forall k, pend k x' = pend k x) -> (busy x' = true -> busy x = true \/ need_free x = false) ->
  mem ex (<[c := x']> C) R T D EP EV L TP.
Proof using H.
  intros Hc E1 E2 E3 E4 E5 E6 Hb.
  assert (Hs : forall c', is_Some (C !! c') -> is_Some (<[c := x']> C !! c')).
  { intros c' Hc'. destruct (decide (c' = c)) as [->|]; [by rewrite lookup_insert_eq|by rewrite lookup_insert_ne]. }
  assert (Hl : forall c' z', <[c := x']> C !! c' = Some z' -> exists z, C !! c' = Some z /\ refs z' = refs z /\ base z' = base z /\ leaked z' = leaked z /\ forall k, pend k z' = pend k z).
  { intros c' z' Hz. apply lookup_insert_Some in Hz as [[-> <-]|[_ Hz]]; eauto 10. }
  destruct H. split; eauto.
  - intros c' z' Hz. destruct (Hl _ _ Hz) as (z & Hz0 & -> & -> & -> & _). eauto.
  - intros k c' z' a Hz Ha. destruct (Hl _ _ Hz) as (z & Hz0 & _ & _ & _ & Ez). rewrite Ez in Ha. eauto.
  - intros k c' z' Hz. destruct (Hl _ _ Hz) as (z & Hz0 & _ & _ & _ & Ez). rewrite Ez. eauto.
  - intros c' Hc'. destruct (m_list0 _ Hc') as (z & Hz & Hz'). destruct (decide (c' = c)) as [->|]; [|rewrite lookup_insert_ne by done; eauto].
    rewrite lookup_insert_eq. exists x'. simplify_eq. by rewrite E2, E4.
  - intros u c' Hc'. destruct (m_tpd0 _ _ Hc') as (z & Hz & Hz'). destruct (decide (c' = c)) as [->|]; [|rewrite lookup_insert_ne by done; eauto].
    rewrite lookup_insert_eq. exists x'. simplify_eq. by rewrite E2, E4, E5.
  - intros a c' Hc'. destruct (m_unlist0 _ _ Hc') as (z & Hz & Hz1 & Hz2 & Hz3). destruct (decide (c' = c)) as [->|]; [|rewrite lookup_insert_ne by done; eauto].
    rewrite lookup_insert_eq. exists x'. simplify_eq. rewrite E2, E4. split; [done|]. split; [done|]. split; [done|].
    destruct Hz3 as [Hz3|Hz3]; [|by right]. left. destruct (busy x') eqn:Eb; [|done]. destruct (Hb eq_refl); congruence.
Qed.

(** A worker changes. *)
Lemma mem_thr t y y' :
  T !! t = Some y -> (forall c, rel_of c y' = rel_of c y) ->
  (forall k a, src_of (t_pc y') = Some (k, a) -> exists h, R !! a = Some h /\ s_kind h = k /\ t_ctx y' = Some (s_ctx h) /\ s_ud h = true) ->
  (forall o, D !! t = Some o -> t_pc y' = t_pc y /\ t_ctx y' = t_ctx y) ->
  mem ex C R (<[t := y']> T) D EP EV L TP.
Proof using H.
  intros Hy Hr Hw Hd. destruct H. split; eauto.
  - intros c x Hc. rewrite (cnt_set _ _ _ _ _ Hy), Hr. destruct (m_refs0 _ _ Hc) as [-> ?]. split; [lia|done].
  - intros t' z c Hz Hrel. apply lookup_insert_Some in Hz as [[-> <-]|[_ Hz]]; [rewrite Hr in Hrel|]; eauto.
  - intros t' z k a Hz Hs. apply lookup_insert_Some in Hz as [[-> <-]|[_ Hz]]; eauto.
  - intros a o z Ho Hz. apply lookup_insert_Some in Hz as [[-> <-]|[_ Hz]]; [|eauto]. destruct (Hd o Ho) as [-> _]. eauto.
  - intros a c Ho. destruct (m_unlist0 _ _ Ho) as (x & Hx & H1 & H2 & H3). exists x. split; [done|]. split; [done|]. split; [done|].
    destruct H3 as [H3|(z & k & Hz & Hk & Hz')]; [by left|right]. destruct (decide (a = t)) as [->|]; [|rewrite lookup_insert_ne by done; eauto].
    rewrite lookup_insert_eq. simplify_eq. destruct (Hd _ Ho) as [E1 E2]. exists y', k. by rewrite E1, E2.
Qed.

(** An agent goes on, with the same context. *)
Lemma mem_goes a o o' :
  D !! a = Some o -> holds o' = holds o -> holds o <> None -> mem ex C R T (<[a := o']> D) EP EV L TP.
Proof using H.
  intros Ho Eh Hn.
  assert (Hk : forall a' p, (<[a := o']> D) !! a' = Some p -> exists p', D !! a' = Some p' /\ holds p' = holds p /\ (holds p = None -> p = p')).
  { intros a' p Hp. apply lookup_insert_Some in Hp as [[-> <-]|[_ Hp]]; [exists o; rewrite Eh; naive_solver|eauto]. }
  assert (Hd : forall c, cnt (held_by c) (<[a := o']> D) = cnt (held_by c) D).
  { intros c. rewrite (cnt_set _ _ _ _ _ Ho). unfold held_by. rewrite Eh. lia. }
  assert (Hu : forall a' p, D !! a' = Some p -> holds p = None -> (<[a := o']> D) !! a' = Some p).
  { intros a' p Hp Hn'. rewrite lookup_insert_ne; [done|]. intros <-. congruence. }
  assert (Hb : forall a' p, (<[a := o']> D) !! a' = Some p -> holds p = None -> D !! a' = Some p).
  { intros a' p Hp Hn'. destruct (Hk _ _ Hp) as (p' & Hp' & _ & E). by rewrite <- E in Hp'. }
  destruct H. split; eauto.
  - intros c x Hc. rewrite Hd. eauto.
  - intros a' p c Hp Hc. destruct (Hk _ _ Hp) as (p' & Hp' & E & _). rewrite <- E in Hc. eauto.
  - intros a' p y Hp. destruct (Hk _ _ Hp) as (p' & Hp' & _). eauto.
  - intros c Hc. destruct (m_list0 _ Hc) as (x & Hx & Hb' & Hf). exists x. split; [done|]. split; [done|]. intros Hn'. destruct (Hf Hn') as [g Hg]. eauto.
Qed.

(** A reference is taken. *)
Lemma mem_hold c x x' :
  ex = None -> C !! c = Some x -> x' = x <| refs ::= Z.add 1 |> -> mem (Some c) (<[c := x']> C) R T D EP EV L TP.
Proof using H.
  intros Hex Hc Ex.
  assert (Hs : forall c', is_Some (C !! c') -> is_Some (<[c := x']> C !! c')).
  { intros c' Hc'. destruct (decide (c' = c)) as [->|]; [by rewrite lookup_insert_eq|by rewrite lookup_insert_ne]. }
  assert (Hl : forall c' z, C !! c' = Some z -> exists z', <[c := x']> C !! c' = Some z' /\ base z' = base z /\ need_free z' = need_free z /\ ud z' = ud z /\ busy z' = busy z).
  { intros c' z Hz. destruct (decide (c' = c)) as [->|]; [rewrite lookup_insert_eq; exists x'; by simplify_eq|rewrite lookup_insert_ne by done; by exists z]. }
  destruct H. split; eauto.
  - intros c' z Hz. apply lookup_insert_Some in Hz as [[-> <-]|[Hne Hz]].
    + assert (Er : refs x' = 1 + refs x /\ base x' = base x /\ leaked x' = leaked x) by (by rewrite Ex). destruct Er as (-> & -> & ->).
      destruct (m_refs0 _ _ Hc) as [E Hl0]. rewrite bool_decide_true by done. rewrite bool_decide_false in E by (by rewrite Hex). change (Z.b2z true) with 1. change (Z.b2z false) with 0 in E. split; [lia|done].
    + rewrite bool_decide_false by congruence. destruct (m_refs0 _ _ Hz) as [E Hl0]. rewrite bool_decide_false in E by (rewrite Hex; done). done.
  - intros c' [= <-]. by rewrite lookup_insert_eq.
  - intros k c' z a Hz Ha. apply lookup_insert_Some in Hz as [[-> <-]|[_ Hz]]; [|eauto]. apply (m_pend0 k _ x); [done|]. by rewrite Ex in Ha; destruct k.
  - intros k c' z Hz. apply lookup_insert_Some in Hz as [[-> <-]|[_ Hz]]; [|eauto]. rewrite Ex. pose proof (m_pend_nodup0 k _ _ Hc). by destruct k.
  - intros c' Hc'. destruct (m_list0 _ Hc') as (z & Hz & Hz1 & Hz2). destruct (Hl _ _ Hz) as (z' & Hz' & E1 & E2 & _). exists z'. by rewrite E1, E2.
  - intros u c' Hc'. destruct (m_tpd0 _ _ Hc') as (z & Hz & Hz1 & Hz2 & Hz3). destruct (Hl _ _ Hz) as (z' & Hz' & E1 & E2 & E3 & _). exists z'. by rewrite E1, E2, E3.
  - intros a c' Hc'. destruct (m_unlist0 _ _ Hc') as (z & Hz & Hz1 & Hz2 & Hz3). destruct (Hl _ _ Hz) as (z' & Hz' & E1 & E2 & _ & E4). exists z'. by rewrite E1, E2, E4.
Qed.

(** An agent takes the reference over. *)
Lemma mem_does a o c :
  ex = Some c -> D !! a = None -> holds o = Some c -> (forall y, T !! a = Some y -> exists k, t_pc y = PHnd k) ->
  mem None C R T (<[a := o]> D) EP EV L TP.
Proof using H.
  intros Hex Ha Ho Hy.
  assert (Hb : forall a' p, (<[a := o]> D) !! a' = Some p -> holds p = None -> D !! a' = Some p).
  { intros a' p Hp Hn. apply lookup_insert_Some in Hp as [[-> <-]|[_ Hp]]; [congruence|done]. }
  destruct H. split; eauto; try done.
  - intros c' x Hc. rewrite (cnt_new _ _ _ _ Ha). destruct (m_refs0 _ _ Hc) as [E Hl]. rewrite Hex in E. unfold held_by at 2. rewrite Ho.
    rewrite (bool_decide_false (None = Some c')) by done. change (Z.b2z false) with 0. split; [lia|done].
  - intros a' p c' Hp Hc. apply lookup_insert_Some in Hp as [[-> <-]|[_ Hp]]; [|eauto]. rewrite Ho in Hc. apply m_ex0. congruence.
  - intros a' p y Hp Hy'. apply lookup_insert_Some in Hp as [[-> <-]|[_ Hp]]; eauto.
  - intros c' Hc. destruct (m_list0 _ Hc) as (x & Hx & Hb' & Hf). exists x. split; [done|]. split; [done|]. intros Hn. destruct (Hf Hn) as [g Hg].
    exists g. rewrite lookup_insert_ne; [done|congruence].
Qed.

(** An agent is done with its context. *)
Lemma mem_drop a o c :
  ex = None -> D !! a = Some o -> holds o = Some c -> mem (Some c) C R T (delete a D) EP EV L TP.
Proof using H.
  intros Hex Ha Ho.
  assert (Hb : forall a' p, delete a D !! a' = Some p -> D !! a' = Some p) by (intros a' p [_ Hp]%lookup_delete_Some; done).
  destruct H. split; eauto.
  - intros c' x Hc. rewrite (cnt_delete _ _ _ _ Ha). destruct (m_refs0 _ _ Hc) as [E Hl]. rewrite Hex in E. unfold held_by at 2. rewrite Ho.
    rewrite (bool_decide_false (None = Some c')) in E by done. change (Z.b2z false) with 0 in E. split; [lia|done].
  - intros c' [= <-]. eauto.
  - intros c' Hc. destruct (m_list0 _ Hc) as (x & Hx & Hb' & Hf). exists x. split; [done|]. split; [done|]. intros Hn. destruct (Hf Hn) as [g Hg].
    exists g. rewrite lookup_delete_ne; [done|]. intros ->. rewrite Hg in Ha. injection Ha as <-. done.
Qed.

(** The reference that is changing hands is given back. *)
Lemma release_base c x : ex = Some c -> C !! c = Some x -> refs x - 1 = 0 ->
  base x = false /\ cnt (of_ctx c) R = 0 /\ cnt (held_by c) D = 0 /\ cnt (rel_of c) T = 0.
Proof using H.
  intros Hex Hc Hr. destruct (m_refs _ _ _ _ _ _ _ _ _ H c x Hc) as [E Hl]. rewrite bool_decide_true in E by done. change (Z.b2z true) with 1 in E.
  pose proof (cnt_at_least_0 (of_ctx c) R). pose proof (cnt_at_least_0 (held_by c) D). pose proof (cnt_at_least_0 (rel_of c) T).
  destruct (base x); cbn in E; [lia|]. split; [done|]. lia.
Qed.

Lemma mem_put c x x' : ex = Some c -> C !! c = Some x -> x' = x <| refs := refs x - 1 |> -> mem None (<[c := x']> C) R T D EP EV L TP.
Proof using H.
  intros Hex Hc Ex.
  assert (Hs : forall c', is_Some (C !! c') -> is_Some (<[c := x']> C !! c')).
  { intros c' Hc'. destruct (decide (c' = c)) as [->|]; [by rewrite lookup_insert_eq|by rewrite lookup_insert_ne]. }
  assert (Hl : forall c' z, C !! c' = Some z -> exists z', <[c := x']> C !! c' = Some z' /\ base z' = base z /\ need_free z' = need_free z /\ ud z' = ud z /\ busy z' = busy z).
  { intros c' z Hz. destruct (decide (c' = c)) as [->|]; [rewrite lookup_insert_eq; exists x'; by simplify_eq|rewrite lookup_insert_ne by done; by exists z]. }
  assert (Er : refs x' = refs x - 1 /\ base x' = base x /\ leaked x' = leaked x) by (by rewrite Ex). destruct Er as (Er & Eb & El).
  destruct H. split; eauto; try done.
  - intros c' z Hz. rewrite (bool_decide_false (None = _)) by done. change (Z.b2z false) with 0. apply lookup_insert_Some in Hz as [[-> <-]|[Hne Hz]].
    + destruct (m_refs0 _ _ Hc) as [E Hl0]. rewrite bool_decide_true in E by done. change (Z.b2z true) with 1 in E. rewrite Er, Eb, El. split; [lia|done].
    + destruct (m_refs0 _ _ Hz) as [E Hl0]. rewrite bool_decide_false in E by congruence. done.
  - intros k c' z a Hz Ha. apply lookup_insert_Some in Hz as [[-> <-]|[_ Hz]]; [|eauto]. apply (m_pend0 k _ x); [done|]. by rewrite Ex in Ha; destruct k.
  - intros k c' z Hz. apply lookup_insert_Some in Hz as [[-> <-]|[_ Hz]]; [|eauto]. rewrite Ex. pose proof (m_pend_nodup0 k _ _ Hc). by destruct k.
  - intros c' Hc'. destruct (m_list0 _ Hc') as (z & Hz & Hz1 & Hz2). destruct (Hl _ _ Hz) as (z' & Hz' & E1 & E2 & _). exists z'. by rewrite E1, E2.
  - intros u c' Hc'. destruct (m_tpd0 _ _ Hc') as (z & Hz & Hz1 & Hz2 & Hz3). destruct (Hl _ _ Hz) as (z' & Hz' & E1 & E2 & E3 & _). exists z'. by rewrite E1, E2, E3.
  - intros a c' Hc'. destruct (m_unlist0 _ _ Hc') as (z & Hz & Hz1 & Hz2 & Hz3). destruct (Hl _ _ Hz) as (z' & Hz' & E1 & E2 & _ & E4). exists z'. by rewrite E1, E2, E4.
Qed.

Lemma mem_gone c x : ex = Some c -> C !! c = Some x -> refs x - 1 = 0 -> mem None (delete c C) R T D EP EV L TP.
Proof using H.
  intros Hex Hc Hr. destruct (release_base c x Hex Hc Hr) as (Hb & E1 & E2 & E3).
  assert (Hn : forall c' z, C !! c' = Some z -> base z = true -> delete c C !! c' = Some z).
  { intros c' z Hz Hz'. rewrite lookup_delete_ne; [done|]. intros <-. simplify_eq. congruence. }
  assert (Hk : forall c', is_Some (C !! c') -> c' <> c -> is_Some (delete c C !! c')) by (intros c' Hz Hne; by rewrite lookup_delete_ne).
  destruct H. split; eauto; try done.
  - intros c' z [Hne Hz]%lookup_delete_Some. destruct (m_refs0 _ _ Hz) as [E Hl0]. rewrite bool_decide_false in E by congruence. by rewrite bool_decide_false by done.
  - intros a h Ha. apply Hk; [eauto|]. intros E. pose proof (cnt_has (of_ctx c) R a h Ha) as Hc1. unfold of_ctx in Hc1 at 1. rewrite E, Nat.eqb_refl in Hc1. specialize (Hc1 eq_refl). lia.
  - intros a o c' Ha Ho. apply Hk; [eauto|]. intros ->. pose proof (held_by_at a D c o Ha Ho). lia.
  - intros t y c' Hy Hrel. apply Hk; [eauto|]. intros ->. pose proof (cnt_has _ _ _ _ Hy Hrel). lia.
  - intros k c' z a [_ Hz]%lookup_delete_Some. eauto.
  - intros k c' z [_ Hz]%lookup_delete_Some. eauto.
  - intros c' Hc'. destruct (m_list0 _ Hc') as (z & Hz & Hz1 & Hz2). exists z. auto.
  - intros u c' Hc'. destruct (m_tpd0 _ _ Hc') as (z & Hz & Hz1 & Hz2). exists z. auto.
  - intros a c' Hc'. destruct (m_unlist0 _ _ Hc') as (z & Hz & Hz1 & Hz2). exists z. auto.
Qed.

(** A function on a descriptor. *)
Lemma mem_md a h h' EP' :
  R !! a = Some h -> s_kind h' = s_kind h -> s_ctx h' = s_ctx h -> s_ud h' = s_ud h -> s_pending h' = s_pending h -> s_kind h = Md ->
  md_ok h' -> EP' Timer = EP Timer -> (forall a', a' <> a -> EP' Md !! a' = EP Md !! a') ->
  (is_Some (EP' Md !! a) -> epoll_events h' <> 0) ->
  mem ex C (<[a := h']> R) T D EP' EV L TP.
Proof using H.
  intros Ha E1 E2 E3 E4 Hk Hdead Ht Ho He.
  assert (Hl : forall a' z, R !! a' = Some z -> exists z', <[a := h']> R !! a' = Some z' /\ s_kind z' = s_kind z /\ s_ctx z' = s_ctx z /\ s_ud z' = s_ud z /\ s_pending z' = s_pending z).
  { intros a' z Hz. destruct (decide (a' = a)) as [->|]; [rewrite lookup_insert_eq; exists h'; by simplify_eq|rewrite lookup_insert_ne by done; by exists z]. }
  destruct H. split; eauto.
  - intros c x Hc. rewrite (cnt_set _ _ _ _ _ Ha). unfold of_ctx at 2 3. rewrite E2. destruct (m_refs0 _ _ Hc). split; [lia|done].
  - intros a' z Hz. apply lookup_insert_Some in Hz as [[-> <-]|[_ Hz]]; [rewrite E2|]; eauto.
  - intros k c x a' Hc Hp. destruct (m_pend0 _ _ _ _ Hc Hp) as (z & Hz & Z1 & Z2 & Z3 & Z4). destruct (Hl _ _ Hz) as (z' & Hz' & B1 & B2 & B3 & B4).
    exists z'. by rewrite B1, B2, B3, B4.
  - intros k a' Hp. destruct (decide (a' = a)) as [->|Hne].
    + rewrite lookup_insert_eq. destruct k; [exists h'; rewrite E1; auto|]. rewrite Ht in Hp. destruct (m_epoll0 _ _ Hp) as (z & Hz & Z1 & _). congruence.
    + rewrite lookup_insert_ne by done. apply m_epoll0. destruct k; [by rewrite <- Ho|by rewrite <- Ht].
  - intros a' z Hz. apply lookup_insert_Some in Hz as [[-> <-]|[_ Hz]]; eauto.
  - intros k a' Hb. destruct (m_batch0 _ _ Hb) as (z & Hz & Z1). destruct (Hl _ _ Hz) as (z' & Hz' & B1 & _). exists z'. by rewrite B1.
  - intros k a' Hb. destruct (m_freed0 _ _ Hb) as (z & Hz & Z1 & Z2). destruct (Hl _ _ Hz) as (z' & Hz' & B1 & _ & B3 & _). exists z'. by rewrite B1, B3.
  - intros g a' Hb. destruct (m_later0 _ _ Hb) as (z & Hz & Z1 & Z2). destruct (Hl _ _ Hz) as (z' & Hz' & B1 & _ & B3 & _). exists z'. by rewrite B1, B3.
  - intros t y k a' Hy Hs. destruct (m_worker0 _ _ _ _ Hy Hs) as (z & Hz & Z1 & Z2 & Z3). destruct (Hl _ _ Hz) as (z' & Hz' & B1 & B2 & B3 & _). exists z'. by rewrite B1, B2, B3.
Qed.

End Changes.

(** Fields of a context that memory depends on, except for the lists of what is pending. *)
Definition soft (x x' : _triton_context_t) : Prop :=
  refs x' = refs x /\ base x' = base x /\ leaked x' = leaked x /\ need_free x' = need_free x /\ ud x' = ud x /\ busy x' = busy x.

Section Sources.
Context {ex : option nat} {C : gmap nat _triton_context_t} {R : gmap nat source} {T : gmap nat _triton_thread_t} {D : gmap nat op}
  {EP : kind -> gmap nat Z} {EV : kind -> event_thread} {L : list nat} {TP : gmap nat nat}.
Hypothesis H : mem ex C R T D EP EV L TP.
Set Default Proof Using "Type".

(** A source changes together with the list of its context. *)
Lemma mem_source a h h' x x' EP' :
  let c := s_ctx h in
  R !! a = Some h -> s_kind h' = s_kind h -> s_ctx h' = c -> C !! c = Some x -> soft x x' ->
  (forall k b, b ∈ pend k x' -> (b <> a /\ b ∈ pend k x) \/ (b = a /\ k = s_kind h /\ s_ud h' = true /\ s_pending h' = true)) ->
  (forall k, NoDup (pend k x')) ->
  (s_ud h' = s_ud h \/ s_ud h = true /\ forall t y k, T !! t = Some y -> src_of (t_pc y) <> Some (k, a)) ->
  md_ok h' ->
  (forall k a', a' <> a -> EP' k !! a' = EP k !! a') ->
  (forall k, is_Some (EP' k !! a) -> k = s_kind h /\ (k = Md -> epoll_events h' <> 0)) ->
  mem ex (<[c := x']> C) (<[a := h']> R) T D EP' EV L TP.
Proof using H.
  intros c Ha E1 E2 Hc (F1 & F2 & F3 & F4 & F5 & F6) Hp Hnd Hud Hdead Ho He.
  assert (Hs : forall c', is_Some (C !! c') -> is_Some (<[c := x']> C !! c')).
  { intros c' Hc'. destruct (decide (c' = c)) as [->|]; [by rewrite lookup_insert_eq|by rewrite lookup_insert_ne]. }
  assert (Hl : forall c' z, C !! c' = Some z -> exists z', <[c := x']> C !! c' = Some z' /\ base z' = base z /\ need_free z' = need_free z /\ ud z' = ud z /\ busy z' = busy z).
  { intros c' z Hz. destruct (decide (c' = c)) as [->|]; [rewrite lookup_insert_eq; exists x'; by simplify_eq|rewrite lookup_insert_ne by done; by exists z]. }
  assert (Hdie : s_ud h = false -> s_ud h' = false) by (intros E; destruct Hud as [?|[? _]]; congruence).
  destruct H. split; eauto.
  - intros c' z Hz. rewrite (cnt_set _ _ _ _ _ Ha). unfold of_ctx at 2 3. rewrite E2.
    apply lookup_insert_Some in Hz as [[<- <-]|[_ Hz]]; [rewrite F1, F2, F3; destruct (m_refs0 _ _ Hc)|destruct (m_refs0 _ _ Hz)]; (split; [unfold c in *; lia|done]).
  - intros a' z Hz. apply lookup_insert_Some in Hz as [[-> <-]|[_ Hz]]; [rewrite E2|]; eauto.
  - intros k c' z b Hz Hb. apply lookup_insert_Some in Hz as [[<- <-]|[Hne Hz]].
    + destruct (Hp _ _ Hb) as [[Hb1 Hb2]|(-> & -> & Hb3 & Hb4)].
      * rewrite lookup_insert_ne by done. eauto.
      * rewrite lookup_insert_eq. exists h'. by rewrite E1, E2.
    + destruct (m_pend0 _ _ _ _ Hz Hb) as (z' & Hz' & Z1 & Z2 & Z3 & Z4). rewrite lookup_insert_ne; [by exists z'|]. intros <-. simplify_eq.
  - intros k c' z Hz. apply lookup_insert_Some in Hz as [[<- <-]|[_ Hz]]; eauto.
  - intros k a' Hk. destruct (decide (a' = a)) as [->|Hne].
    + rewrite lookup_insert_eq. exists h'. rewrite E1. destruct (He _ Hk) as [-> ?]. done.
    + rewrite lookup_insert_ne by done. apply m_epoll0. by rewrite <- Ho.
  - intros a' z Hz. apply lookup_insert_Some in Hz as [[-> <-]|[_ Hz]]; eauto.
  - intros k a' Hb. destruct (m_batch0 _ _ Hb) as (z & Hz & Z1). destruct (decide (a' = a)) as [->|]; [rewrite lookup_insert_eq; exists h'; simplify_eq; done|rewrite lookup_insert_ne by done; eauto].
  - intros k a' Hb. destruct (m_freed0 _ _ Hb) as (z & Hz & Z1 & Z2). destruct (decide (a' = a)) as [->|]; [rewrite lookup_insert_eq; exists h'; simplify_eq; auto|rewrite lookup_insert_ne by done; eauto].
  - intros g a' Hb. destruct (m_later0 _ _ Hb) as (z & Hz & Z1 & Z2). destruct (decide (a' = a)) as [->|]; [rewrite lookup_insert_eq; exists h'; simplify_eq; rewrite E1; auto|rewrite lookup_insert_ne by done; eauto].
  - intros t y k a' Hy Hsr. destruct (m_worker0 _ _ _ _ Hy Hsr) as (z & Hz & Z1 & Z2 & Z3).
    destruct (decide (a' = a)) as [->|]; [rewrite lookup_insert_eq; exists h'; simplify_eq|rewrite lookup_insert_ne by done; eauto].
    rewrite E1, E2. destruct Hud as [Hud|[_ Hud]]; [rewrite Hud; done|by eapply Hud in Hsr].
  - intros c' Hc'. destruct (m_list0 _ Hc') as (z & Hz & Hz1 & Hz2). destruct (Hl _ _ Hz) as (z' & Hz' & B1 & B2 & _). exists z'. by rewrite B1, B2.
  - intros u c' Hc'. destruct (m_tpd0 _ _ Hc') as (z & Hz & Hz1 & Hz2 & Hz3). destruct (Hl _ _ Hz) as (z' & Hz' & B1 & B2 & B3 & _). exists z'. by rewrite B1, B2, B3.
  - intros b c' Hc'. destruct (m_unlist0 _ _ Hc') as (z & Hz & Hz1 & Hz2 & Hz3). destruct (Hl _ _ Hz) as (z' & Hz' & B1 & B2 & _ & B4). exists z'. by rewrite B1, B2, B4.
Qed.

(** A source that is not pending is in no list. *)
Lemma src_not_pending a h k c x : R !! a = Some h -> s_pending h = false \/ s_ud h = false -> C !! c = Some x -> a ∉ pend k x.
Proof using H. intros Ha Hp Hc Hk. destruct (m_pend _ _ _ _ _ _ _ _ _ H _ _ _ _ Hc Hk) as (z & Hz & _ & _ & Z1 & Z2). simplify_eq. destruct Hp; congruence. Qed.

(** A new source, which refers to its context. *)
Lemma mem_source_new k c x x' a EP' :
  ex = None -> R !! a = None -> C !! c = Some x -> refs x' = 1 + refs x -> base x' = base x -> leaked x' = leaked x -> need_free x' = need_free x -> ud x' = ud x -> busy x' = busy x ->
  (forall k, pend k x' = pend k x) ->
  (forall k' a', is_Some (EP' k' !! a') -> is_Some (EP k' !! a') \/ a' = a /\ k' = k /\ k = Timer) ->
  mem None (<[c := x']> C) (<[a := new_source k c]> R) T D EP' EV L TP.
Proof using H.
  intros Hex Ha Hc F1 F2 F3 F4 F5 F6 F7 He. subst ex.
  assert (Hs : forall c', is_Some (C !! c') -> is_Some (<[c := x']> C !! c')).
  { intros c' Hc'. destruct (decide (c' = c)) as [->|]; [by rewrite lookup_insert_eq|by rewrite lookup_insert_ne]. }
  assert (Hl : forall c' z, C !! c' = Some z -> exists z', <[c := x']> C !! c' = Some z' /\ base z' = base z /\ need_free z' = need_free z /\ ud z' = ud z /\ busy z' = busy z).
  { intros c' z Hz. destruct (decide (c' = c)) as [->|]; [rewrite lookup_insert_eq; exists x'; by simplify_eq|rewrite lookup_insert_ne by done; by exists z]. }
  assert (Hr : forall b z, R !! b = Some z -> <[a := new_source k c]> R !! b = Some z) by (intros b z Hz; rewrite lookup_insert_ne; [done|congruence]).
  assert (Hn : s_ctx (new_source k c) = c /\ s_ud (new_source k c) = true /\ s_kind (new_source k c) = k) by (by destruct k).
  destruct Hn as (N1 & N2 & N3). destruct H. split; eauto; try done.
  - intros c' z Hz. rewrite (cnt_new _ _ _ _ Ha). unfold of_ctx at 2. rewrite N1.
    apply lookup_insert_Some in Hz as [[<- <-]|[Hne Hz]].
    + rewrite F1, F2, F3, Nat.eqb_refl. destruct (m_refs0 _ _ Hc). change (Z.b2z true) with 1. split; [lia|done].
    + rewrite (proj2 (Nat.eqb_neq c c') Hne). destruct (m_refs0 _ _ Hz) as [E1 E2]. change (Z.b2z false) with 0. split; [lia|done].
  - intros b z Hz. apply lookup_insert_Some in Hz as [[-> <-]|[_ Hz]]; [rewrite N1|]; eauto.
  - intros k' c' z b Hz Hb. apply lookup_insert_Some in Hz as [[<- <-]|[_ Hz]]; [rewrite F7 in Hb|]; destruct (m_pend0 k' _ _ b ltac:(eassumption) Hb) as (h & Hh & ?); eauto.
  - intros k' c' z Hz. apply lookup_insert_Some in Hz as [[<- <-]|[_ Hz]]; [rewrite F7|]; eauto.
  - intros k' b Hb. destruct (He _ _ Hb) as [Hb'|(-> & -> & ->)]; [destruct (m_epoll0 _ _ Hb') as (h & Hh & ?); eauto|].
    rewrite lookup_insert_eq. eexists. split; [done|]. done.
  - intros b z Hz. apply lookup_insert_Some in Hz as [[-> <-]|[_ Hz]]; [|eauto]. intros _. split; [congruence|by destruct k].
  - intros k' b Hb. destruct (m_batch0 _ _ Hb) as (h & Hh & ?); eauto.
  - intros k' b Hb. destruct (m_freed0 _ _ Hb) as (h & Hh & ?); eauto.
  - intros g b Hb. destruct (m_later0 _ _ Hb) as (h & Hh & ?); eauto.
  - intros t y k' b Hy Hsr. destruct (m_worker0 _ _ _ _ Hy Hsr) as (h & Hh & ?); eauto.
  - intros c' Hc'. destruct (m_list0 _ Hc') as (z & Hz & Hz1 & Hz2). destruct (Hl _ _ Hz) as (z' & Hz' & B1 & B2 & _). exists z'. by rewrite B1, B2.
  - intros u c' Hc'. destruct (m_tpd0 _ _ Hc') as (z & Hz & Hz1 & Hz2 & Hz3). destruct (Hl _ _ Hz) as (z' & Hz' & B1 & B2 & B3 & _). exists z'. by rewrite B1, B2, B3.
  - intros b c' Hc'. destruct (m_unlist0 _ _ Hc') as (z & Hz & Hz1 & Hz2 & Hz3). destruct (Hl _ _ Hz) as (z' & Hz' & B1 & B2 & _ & B4). exists z'. by rewrite B1, B2, B4.
Qed.

(** The thread of its kind frees a source; the reference to the context is left. *)
Lemma mem_source_free k a h l EV' EP' :
  ex = None -> R !! a = Some h -> freed_list2 (EV k) = a :: l ->
  (forall k', k' <> k -> EV' k' = EV k') -> freed_list2 (EV' k) = l -> freed_list (EV' k) = freed_list (EV k) -> batch (e_pc (EV' k)) = [] ->
  (forall k' a', is_Some (EP' k' !! a') -> is_Some (EP k' !! a') /\ ~ (a' = a /\ k' = Timer)) ->
  mem (Some (s_ctx h)) C (delete a R) T D EP' EV' L TP.
Proof using H.
  intros Hex Ha Hl Ho E1 E2 E3 He. subst ex. destruct H.
  assert (Hin : a ∈ freed (EV k)) by (unfold freed; rewrite Hl; by left).
  destruct (m_freed0 _ _ Hin) as (h' & Hh' & Hk & Hu). rewrite Ha in Hh'. injection Hh' as <-. subst k.
  pose proof (m_freed_nodup0 (s_kind h)) as Hnd. unfold freed in Hnd. rewrite Hl in Hnd. apply NoDup_cons in Hnd as [Hnot Hnd].
  assert (Hf : forall k' b, b ∈ freed (EV' k') -> b ∈ freed (EV k') /\ b <> a).
  { intros k' b Hb. destruct (decide (k' = s_kind h)) as [->|Hne].
    - unfold freed in Hb. rewrite E1, E2 in Hb. split; [|by intros ->]. unfold freed. rewrite Hl. by right.
    - rewrite Ho in Hb by done. split; [done|]. intros ->. destruct (m_freed0 _ _ Hb) as (z & Hz & Z1 & _). congruence. }
  assert (Hd : forall b z, R !! b = Some z -> b <> a -> delete a R !! b = Some z) by (intros b z Hz Hne; by rewrite lookup_delete_ne).
  split; eauto; try done.
  - intros c x Hc. rewrite (cnt_delete _ _ _ _ Ha). destruct (m_refs0 _ _ Hc) as [E Hlk]. rewrite (bool_decide_false (None = _)) in E by done. change (Z.b2z false) with 0 in E.
    unfold of_ctx at 2. rewrite (bool_decide_ext (Some (s_ctx h) = Some c) (s_ctx h = c)) by (split; congruence).
    destruct (Nat.eqb_spec (s_ctx h) c); [rewrite bool_decide_true by done|rewrite bool_decide_false by done]; (split; [lia|done]).
  - intros c [= <-]. eauto.
  - intros b z [_ Hz]%lookup_delete_Some. eauto.
  - intros k c x b Hc Hb. destruct (m_pend0 _ _ _ _ Hc Hb) as (z & Hz & Z1 & Z2 & Z3 & Z4). exists z. split; [|done]. apply Hd; [done|]. intros ->. congruence.
  - intros k b Hb. destruct (He _ _ Hb) as [Hb' Hn]. destruct (m_epoll0 _ _ Hb') as (z & Hz & Z1 & Z2). exists z. split; [|done]. apply Hd; [done|]. intros ->. simplify_eq.
    destruct (s_kind h) eqn:Ek; [|by apply Hn]. by apply Z2; [|apply (proj1 (m_dead0 a h Ha Ek))].
  - intros b z [_ Hz]%lookup_delete_Some. eauto.
  - intros k b Hb. destruct (decide (k = s_kind h)) as [->|Hne]; [rewrite E3 in Hb; by apply elem_of_nil in Hb|]. rewrite Ho in Hb by done.
    destruct (m_batch0 _ _ Hb) as (z & Hz & Z1). exists z. split; [|done]. apply Hd; [done|]. intros ->. congruence.
  - intros k b Hb. destruct (Hf _ _ Hb) as [Hb' Hne]. destruct (m_freed0 _ _ Hb') as (z & Hz & Z1). eauto.
  - intros k. destruct (decide (k = s_kind h)) as [->|Hne]; [unfold freed; by rewrite E1, E2|by rewrite Ho].
  - intros g b Hb. destruct (m_later0 _ _ Hb) as (z & Hz & Z1 & Z2). exists z.
    assert (b <> a) by (intros ->; simplify_eq; done). split; [by apply Hd|]. split; [done|]. intros Hb'. by apply Hf in Hb' as [? _].
  - intros t y k b Hy Hs. destruct (m_worker0 _ _ _ _ Hy Hs) as (z & Hz & Z1 & Z2 & Z3). exists z. split; [|done]. apply Hd; [done|]. intros ->. congruence.
Qed.

(** The threads that wait go on. *)
Lemma mem_events EV' :
  (forall k a, a ∈ batch (e_pc (EV' k)) -> a ∈ batch (e_pc (EV k)) \/ is_Some (EP k !! a)) -> (forall k, Permutation (freed (EV' k)) (freed (EV k))) ->
  mem ex C R T D EP EV' L TP.
Proof using H.
  intros Hb Hf. destruct H. split; eauto.
  - intros k a [Ha|Ha]%Hb; [eauto|]. destruct (m_epoll0 _ _ Ha) as (h & Hh & Hk & _). eauto.
  - intros k a Ha. rewrite Hf in Ha. eauto.
  - intros k. by rewrite Hf.
  - intros g a Ha. destruct (m_later0 _ _ Ha) as (h & Hh & Hu & Hn). exists h. by rewrite Hf.
Qed.

End Sources.

Section Agents.
Context {C : gmap nat _triton_context_t} {R : gmap nat source} {T : gmap nat _triton_thread_t} {D : gmap nat op}
  {EP : kind -> gmap nat Z} {EV : kind -> event_thread} {L : list nat} {TP : gmap nat nat}.
Hypothesis H : mem None C R T D EP EV L TP.
Set Default Proof Using "Type".

Lemma refs_none c x : C !! c = Some x -> refs x = Z.b2z (base x) + cnt (of_ctx c) R + cnt (held_by c) D + cnt (rel_of c) T + leaked x /\ 0 <= leaked x.
Proof using H.
  intros Hc. destruct (m_refs _ _ _ _ _ _ _ _ _ H c x Hc) as [E Hl]. rewrite bool_decide_false in E by done. change (Z.b2z false) with 0 in E. split; [lia|done].
Qed.

(** The worker that ends an unregistered context takes the reference of the registration. *)
Lemma mem_after t y y' c x x' :
  T !! t = Some y -> C !! c = Some x -> base x = true -> (forall c', rel_of c' y = false) -> t_pc y' = PRel true -> t_ctx y' = Some c -> D !! t = None ->
  refs x' = refs x -> base x' = false -> leaked x' = leaked x -> (forall k, pend k x' = pend k x) ->
  c ∉ L -> (forall u, TP !! u <> Some c) -> (forall a, D !! a <> Some (Unlist c)) ->
  mem None (<[c := x']> C) R (<[t := y']> T) D EP EV L TP.
Proof using H.
  intros Hy Hc Hb Hr Hpc Htc Hd F1 F2 F3 F4 HL HTP HU.
  assert (Hs : forall c', is_Some (C !! c') -> is_Some (<[c := x']> C !! c')).
  { intros c' Hc'. destruct (decide (c' = c)) as [->|]; [by rewrite lookup_insert_eq|by rewrite lookup_insert_ne]. }
  assert (Hrel : forall c', rel_of c' y' = (c =? c')%nat) by (intros c'; unfold rel_of; by rewrite Hpc, Htc).
  pose proof refs_none as Hrefs. destruct H. split; eauto; try done.
  - intros c' z Hz. rewrite (bool_decide_false (None = _)) by done. change (Z.b2z false) with 0. rewrite (cnt_set _ _ _ _ _ Hy), Hr, Hrel. change (Z.b2z false) with 0.
    apply lookup_insert_Some in Hz as [[<- <-]|[Hne Hz]].
    + destruct (Hrefs _ _ Hc) as [E Hl]. rewrite Hb in E. change (Z.b2z true) with 1 in E. rewrite F1, F2, F3, Nat.eqb_refl. change (Z.b2z false) with 0. change (Z.b2z true) with 1. split; [lia|done].
    + destruct (Hrefs _ _ Hz) as [E Hl]. rewrite (proj2 (Nat.eqb_neq c c') Hne). change (Z.b2z false) with 0. split; [lia|done].
  - intros t' z c' Hz Hz'. apply lookup_insert_Some in Hz as [[<- <-]|[_ Hz]]; [|eauto]. rewrite Hrel in Hz'. apply Nat.eqb_eq in Hz' as <-. by rewrite lookup_insert_eq.
  - intros k c' z a Hz Ha. apply lookup_insert_Some in Hz as [[<- <-]|[_ Hz]]; [rewrite F4 in Ha|]; eauto.
  - intros k c' z Hz. apply lookup_insert_Some in Hz as [[<- <-]|[_ Hz]]; [rewrite F4|]; eauto.
  - intros t' z k a Hz Ha. apply lookup_insert_Some in Hz as [[<- <-]|[_ Hz]]; [by rewrite Hpc in Ha|eauto].
  - intros a o z Ha Hz. apply lookup_insert_Some in Hz as [[<- <-]|[_ Hz]]; [congruence|eauto].
  - intros c' Hc'. destruct (m_list0 _ Hc') as (z & Hz). rewrite lookup_insert_ne; [eauto|]. by intros <-.
  - intros u c' Hc'. destruct (m_tpd0 _ _ Hc') as (z & Hz). rewrite lookup_insert_ne; [eauto|]. intros <-. by apply HTP in Hc'.
  - intros a c' Ha. destruct (m_unlist0 _ _ Ha) as (z & Hz & Z1 & Z2 & Z3). rewrite lookup_insert_ne; [|intros <-; by apply HU in Ha].
    exists z. split; [done|]. split; [done|]. split; [done|]. destruct Z3 as [Z3|(w & k & Hw & Hw')]; [by left|right]. exists w, k. split; [|done].
    rewrite lookup_insert_ne; [done|]. intros <-. congruence.
Qed.

(** It gives it back. *)
Lemma mem_rel_done t y y' c :
  T !! t = Some y -> t_pc y = PRel true -> t_ctx y = Some c -> t_pc y' = PClear -> D !! t = None ->
  mem (Some c) C R (<[t := y']> T) D EP EV L TP.
Proof using H.
  intros Hy Hpc Htc Hpc' Hd.
  assert (Hrel : forall c', rel_of c' y = (c =? c')%nat) by (intros c'; unfold rel_of; by rewrite Hpc, Htc).
  assert (Hrel' : forall c', rel_of c' y' = false) by (intros c'; unfold rel_of; by rewrite Hpc').
  pose proof refs_none as Hrefs. destruct H. split; eauto.
  - intros c' z Hz. rewrite (cnt_set _ _ _ _ _ Hy), Hrel, Hrel'. destruct (Hrefs _ _ Hz) as [E Hl].
    rewrite (bool_decide_ext (Some c = Some c') (c = c')) by (split; congruence). change (Z.b2z false) with 0.
    destruct (Nat.eqb_spec c c'); [rewrite bool_decide_true by done|rewrite bool_decide_false by done]; (split; [lia|done]).
  - intros c' [= <-]. apply (m_rel0 t y); [done|]. by rewrite Hrel, Nat.eqb_refl.
  - intros t' z c' Hz Hz'. apply lookup_insert_Some in Hz as [[<- <-]|[_ Hz]]; [by rewrite Hrel' in Hz'|eauto].
  - intros t' z k a Hz Ha. apply lookup_insert_Some in Hz as [[<- <-]|[_ Hz]]; [by rewrite Hpc' in Ha|eauto].
  - intros a o z Ha Hz. apply lookup_insert_Some in Hz as [[<- <-]|[_ Hz]]; [congruence|eauto].
  - intros a c' Ha. destruct (m_unlist0 _ _ Ha) as (z & Hz & Z1 & Z2 & Z3).
    exists z. split; [done|]. split; [done|]. split; [done|]. destruct Z3 as [Z3|(w & k & Hw & Hw')]; [by left|right]. exists w, k. split; [|done].
    rewrite lookup_insert_ne; [done|]. intros <-. congruence.
Qed.

Lemma no_count c : C !! c = None -> cnt (of_ctx c) R = 0 /\ cnt (held_by c) D = 0 /\ cnt (rel_of c) T = 0.
Proof using H.
  intros Hc. destruct H. split; [|split]; apply cnt_none.
  - intros a h Ha. destruct (m_src0 _ _ Ha) as [x Hx]. unfold of_ctx. apply Nat.eqb_neq. congruence.
  - intros a o Ha. unfold held_by. apply bool_decide_false. intros Ho. destruct (m_doing0 _ _ _ Ha Ho). congruence.
  - intros t y Hy. destruct (rel_of c y) eqn:E; [|done]. destruct (m_rel0 _ _ _ Hy E). congruence.
Qed.

Lemma mem_register u c : C !! c = None -> TP !! u = None -> mem None (<[c := new_ctx u]> C) R T D EP EV (L ++ [c]) (<[u := c]> TP).
Proof using H.
  intros Hc Hu. destruct (no_count c Hc) as (E1 & E2 & E3).
  assert (Hs : forall c' z, C !! c' = Some z -> <[c := new_ctx u]> C !! c' = Some z) by (intros c' z Hz; rewrite lookup_insert_ne; [done|congruence]).
  assert (Hs' : forall c', is_Some (C !! c') -> is_Some (<[c := new_ctx u]> C !! c')) by (intros c' [z Hz]; rewrite (Hs _ _ Hz); eauto).
  destruct H. split; eauto; try done.
  - intros c' z Hz. apply lookup_insert_Some in Hz as [[<- <-]|[_ Hz]]; [|eauto]. rewrite E1, E2, E3. done.
  - intros k c' z a Hz Ha. apply lookup_insert_Some in Hz as [[<- <-]|[_ Hz]]; [|eauto]. by destruct k; apply elem_of_nil in Ha.
  - intros k c' z Hz. apply lookup_insert_Some in Hz as [[<- <-]|[_ Hz]]; [|eauto]. destruct k; apply NoDup_nil_2.
  - intros c' [Hc'|E%list_elem_of_singleton]%elem_of_app; [|subst c'].
    + destruct (m_list0 _ Hc') as (z & Hz & Hz'). eauto.
    + rewrite lookup_insert_eq. exists (new_ctx u). done.
  - intros u' c' Hc'. apply lookup_insert_Some in Hc' as [[<- <-]|[_ Hc']]; [rewrite lookup_insert_eq; by exists (new_ctx u)|].
    destruct (m_tpd0 _ _ Hc') as (z & Hz & Hz'). eauto.
  - intros a c' Ha. destruct (m_unlist0 _ _ Ha) as (z & Hz & Hz'). eauto.
Qed.

Lemma mem_unregister a u c x x' :
  D !! a = None -> TP !! u = Some c -> C !! c = Some x -> refs x' = refs x -> base x' = base x -> leaked x' = leaked x -> need_free x' = true -> busy x' = busy x -> (forall k, pend k x' = pend k x) ->
  (busy x = false \/ exists y k, T !! a = Some y /\ t_pc y = PHnd k /\ t_ctx y = Some c) -> (forall y, T !! a = Some y -> exists k, t_pc y = PHnd k) ->
  mem None (<[c := x']> C) R T (<[a := Unlist c]> D) EP EV L (delete u TP).
Proof using H.
  intros Ha Hu Hc F1 F2 F3 F4 F5 F6 Hb Hy.
  assert (Hs : forall c', is_Some (C !! c') -> is_Some (<[c := x']> C !! c')).
  { intros c' Hc'. destruct (decide (c' = c)) as [->|]; [by rewrite lookup_insert_eq|by rewrite lookup_insert_ne]. }
  destruct (m_tpd _ _ _ _ _ _ _ _ _ H _ _ Hu) as (x0 & Hx0 & B1 & B2 & B3). simplify_eq.
  destruct H. split; eauto; try done.
  - intros c' z Hz. rewrite (cnt_new _ _ _ _ Ha). unfold held_by at 2. rewrite (bool_decide_false (holds _ = _)) by done. change (Z.b2z false) with 0.
    apply lookup_insert_Some in Hz as [[<- <-]|[_ Hz]]; [rewrite F1, F2, F3; destruct (m_refs0 _ _ Hc)|destruct (m_refs0 _ _ Hz)]; (split; [lia|done]).
  - intros a' o c' Ho Hh. apply lookup_insert_Some in Ho as [[<- <-]|[_ Ho]]; [done|eauto].
  - intros k c' z b Hz Hb'. apply lookup_insert_Some in Hz as [[<- <-]|[_ Hz]]; [rewrite F6 in Hb'|]; eauto.
  - intros k c' z Hz. apply lookup_insert_Some in Hz as [[<- <-]|[_ Hz]]; [rewrite F6|]; eauto.
  - intros g b Ho. apply lookup_insert_Some in Ho as [[<- ?]|[_ Ho]]; [done|eauto].
  - intros g g' b Ho Ho'. apply lookup_insert_Some in Ho as [[<- ?]|[_ Ho]]; [done|]. apply lookup_insert_Some in Ho' as [[<- ?]|[_ Ho']]; [done|eauto].
  - intros a' o y Ho Hy'. apply lookup_insert_Some in Ho as [[<- <-]|[_ Ho]]; eauto.
  - intros c' Hc'. destruct (m_list0 _ Hc') as (z & Hz & Z1 & Z2). destruct (decide (c' = c)) as [->|Hne].
    + rewrite lookup_insert_eq. exists x'. split; [done|]. split; [congruence|]. intros _. exists a. apply lookup_insert_eq.
    + rewrite lookup_insert_ne by done. exists z. split; [done|]. split; [done|]. intros Hn. destruct (Z2 Hn) as [g Hg]. exists g. rewrite lookup_insert_ne; [done|congruence].
  - intros u' c' [Hne Hc']%lookup_delete_Some. destruct (m_tpd0 _ _ Hc') as (z & Hz & Z1 & Z2 & Z3). rewrite lookup_insert_ne; [eauto|]. intros <-. simplify_eq.
  - intros a' c' Ho. apply lookup_insert_Some in Ho as [[<- [= <-]]|[Hne Ho]].
    + rewrite lookup_insert_eq. exists x'. rewrite F2, F5. auto.
    + destruct (m_unlist0 _ _ Ho) as (z & Hz & Z1 & Z2 & Z3). rewrite lookup_insert_ne; [eauto|]. intros <-. congruence.
Qed.

Lemma mem_unlisted a c : D !! a = Some (Unlist c) -> mem None C R T (delete a D) EP EV (list_del c L) TP.
Proof using H.
  intros Ha.
  assert (Hb : forall a' p, delete a D !! a' = Some p -> D !! a' = Some p) by (intros a' p [_ Hp]%lookup_delete_Some; done).
  destruct H. split; eauto.
  - intros c' x Hc. rewrite (cnt_delete _ _ _ _ Ha). destruct (m_refs0 _ _ Hc) as [E Hl]. unfold held_by at 2. rewrite (bool_decide_false (holds _ = _)) by done. change (Z.b2z false) with 0. split; [lia|done].
  - intros c' [Hne Hc']%elem_list_del. destruct (m_list0 _ Hc') as (x & Hx & Hb' & Hf). exists x. split; [done|]. split; [done|]. intros Hn. destruct (Hf Hn) as [g Hg].
    exists g. rewrite lookup_delete_ne; [done|]. intros <-. congruence.
Qed.

Lemma mem_plain a : D !! a = None -> (forall y, T !! a = Some y -> exists k, t_pc y = PHnd k) -> mem None C R T (<[a := Reloading]> D) EP EV L TP.
Proof using H.
  intros Ha Hy.
  assert (Hb : forall a' p, (<[a := Reloading]> D) !! a' = Some p -> p <> Reloading -> D !! a' = Some p).
  { intros a' p Hp Hn. apply lookup_insert_Some in Hp as [[-> <-]|[_ Hp]]; [congruence|done]. }
  destruct H. split; eauto.
  - intros c' x Hc. rewrite (cnt_new _ _ _ _ Ha). destruct (m_refs0 _ _ Hc) as [E Hl]. unfold held_by at 2. rewrite (bool_decide_false (holds _ = _)) by done. change (Z.b2z false) with 0. split; [lia|done].
  - intros a' p c Hp Hc. apply (m_doing0 a' p); [|done]. apply Hb; [done|]. by intros ->.
  - intros a' p y Hp Hy'. apply lookup_insert_Some in Hp as [[-> <-]|[_ Hp]]; eauto.
  - intros c' Hc. destruct (m_list0 _ Hc) as (x & Hx & Hb' & Hf). exists x. split; [done|]. split; [done|]. intros Hn. destruct (Hf Hn) as [g Hg].
    exists g. rewrite lookup_insert_ne; [done|congruence].
Qed.

Lemma mem_plain_done a : D !! a = Some Reloading -> mem None C R T (delete a D) EP EV L TP.
Proof using H.
  intros Ha.
  assert (Hb : forall a' p, delete a D !! a' = Some p -> D !! a' = Some p) by (intros a' p [_ Hp]%lookup_delete_Some; done).
  destruct H. split; eauto.
  - intros c' x Hc. rewrite (cnt_delete _ _ _ _ Ha). destruct (m_refs0 _ _ Hc) as [E Hl]. unfold held_by at 2. rewrite (bool_decide_false (holds _ = _)) by done. change (Z.b2z false) with 0. split; [lia|done].
  - intros c' Hc'. destruct (m_list0 _ Hc') as (x & Hx & Hb' & Hf). exists x. split; [done|]. split; [done|]. intros Hn. destruct (Hf Hn) as [g Hg].
    exists g. rewrite lookup_delete_ne; [done|]. intros <-. congruence.
Qed.

Lemma mem_later_new g a h :
  D !! g = None -> (forall y, T !! g = Some y -> exists k, t_pc y = PHnd k) -> R !! a = Some h -> s_ud h = false -> a ∉ freed (EV (s_kind h)) ->
  (forall g', D !! g' <> Some (FreeLater a)) -> mem None C R T (<[g := FreeLater a]> D) EP EV L TP.
Proof using H.
  intros Hg Hy Ha Hu Hf Hn.
  assert (Hb : forall a' p, (<[g := FreeLater a]> D) !! a' = Some p -> p <> FreeLater a -> D !! a' = Some p).
  { intros a' p Hp Hn'. apply lookup_insert_Some in Hp as [[-> <-]|[_ Hp]]; [congruence|done]. }
  destruct H. split; eauto.
  - intros c' x Hc. rewrite (cnt_new _ _ _ _ Hg). destruct (m_refs0 _ _ Hc) as [E Hl]. unfold held_by at 2. rewrite (bool_decide_false (holds _ = _)) by done. change (Z.b2z false) with 0. split; [lia|done].
  - intros a' p c Hp Hc. apply (m_doing0 a' p); [|done]. apply Hb; [done|]. by intros ->.
  - intros g' b Hp. apply lookup_insert_Some in Hp as [[-> [= <-]]|[_ Hp]]; eauto.
  - intros g1 g2 b Hp Hp'. apply lookup_insert_Some in Hp as [[-> [= <-]]|[_ Hp]]; apply lookup_insert_Some in Hp' as [[-> E]|[_ Hp']]; try done.
    + by apply Hn in Hp'.
    + injection E as <-. by apply Hn in Hp.
    + eauto.
  - intros a' p y Hp Hy'. apply lookup_insert_Some in Hp as [[-> <-]|[_ Hp]]; eauto.
  - intros c' Hc. destruct (m_list0 _ Hc) as (x & Hx & Hb' & Hf'). exists x. split; [done|]. split; [done|]. intros Hn'. destruct (Hf' Hn') as [g' Hg'].
    exists g'. rewrite lookup_insert_ne; [done|congruence].
Qed.

Lemma mem_later_done g a h EV' :
  D !! g = Some (FreeLater a) -> R !! a = Some h -> (forall k, e_pc (EV' k) = e_pc (EV k)) ->
  freed (EV' (s_kind h)) = freed (EV (s_kind h)) ++ [a] -> (forall k, k <> s_kind h -> EV' k = EV k) ->
  mem None C R T (delete g D) EP EV' L TP.
Proof using H.
  intros Hg Ha He Hf Ho.
  assert (Hb : forall a' p, delete g D !! a' = Some p -> D !! a' = Some p) by (intros a' p [_ Hp]%lookup_delete_Some; done).
  destruct (m_later _ _ _ _ _ _ _ _ _ H _ _ Hg) as (h' & Hh' & Hu & Hn). simplify_eq.
  assert (Hin : forall k b, b ∈ freed (EV' k) -> b ∈ freed (EV k) \/ b = a /\ k = s_kind h).
  { intros k b Hk. destruct (decide (k = s_kind h)) as [->|]; [|rewrite Ho in Hk by done; by left]. rewrite Hf in Hk. apply elem_of_app in Hk as [?|?%list_elem_of_singleton]; auto. }
  destruct H. split; eauto.
  - intros c' x Hc. rewrite (cnt_delete _ _ _ _ Hg). destruct (m_refs0 _ _ Hc) as [E Hl]. unfold held_by at 2. rewrite (bool_decide_false (holds _ = _)) by done. change (Z.b2z false) with 0. split; [lia|done].
  - intros k b. rewrite He. eauto.
  - intros k b [Hk|[-> ->]]%Hin; eauto.
  - intros k. destruct (decide (k = s_kind h)) as [->|]; [|by rewrite Ho]. rewrite Hf. apply NoDup_app. split; [eauto|]. split; [|apply NoDup_singleton]. intros b Hb' E%list_elem_of_singleton. by subst b.
  - intros g' b Hp. destruct (m_later0 _ _ (Hb _ _ Hp)) as (z & Hz & Z1 & Z2). exists z. split; [done|]. split; [done|]. intros [Hk|[-> _]]%Hin; [done|].
    apply lookup_delete_Some in Hp as [Hne Hp]. apply Hne. eauto.
  - intros c' Hc'. destruct (m_list0 _ Hc') as (x & Hx & Hb' & Hf'). exists x. split; [done|]. split; [done|]. intros Hn'. destruct (Hf' Hn') as [g' Hg'].
    exists g'. rewrite lookup_delete_ne; [done|]. intros <-. congruence.
Qed.

Lemma mem_leak c x x' :
  C !! c = Some x -> x' = x <| refs ::= Z.add 1 |> <| leaked ::= Z.add 1 |> -> mem None (<[c := x']> C) R T D EP EV L TP.
Proof using H.
  intros Hc Ex.
  assert (Hl : forall c' z, C !! c' = Some z -> exists z', <[c := x']> C !! c' = Some z' /\ base z' = base z /\ need_free z' = need_free z /\ ud z' = ud z /\ busy z' = busy z).
  { intros c' z Hz. destruct (decide (c' = c)) as [->|]; [rewrite lookup_insert_eq; exists x'; by simplify_eq|rewrite lookup_insert_ne by done; by exists z]. }
  assert (Hs : forall c', is_Some (C !! c') -> is_Some (<[c := x']> C !! c')) by (intros c' [z Hz]; destruct (Hl _ _ Hz) as (z' & -> & _); eauto).
  assert (Er : refs x' = 1 + refs x /\ base x' = base x /\ leaked x' = 1 + leaked x) by (by rewrite Ex). destruct Er as (Er & Eb & El).
  destruct H. split; eauto; try done.
  - intros c' z Hz. apply lookup_insert_Some in Hz as [[<- <-]|[_ Hz]]; [|eauto]. rewrite Er, Eb, El. destruct (m_refs0 _ _ Hc). lia.
  - intros k c' z a Hz Ha. apply lookup_insert_Some in Hz as [[<- <-]|[_ Hz]]; [|eauto]. apply (m_pend0 k _ x); [done|]. by rewrite Ex in Ha; destruct k.
  - intros k c' z Hz. apply lookup_insert_Some in Hz as [[<- <-]|[_ Hz]]; [|eauto]. rewrite Ex. pose proof (m_pend_nodup0 k _ _ Hc). by destruct k.
  - intros c' Hc'. destruct (m_list0 _ Hc') as (z & Hz & Hz1 & Hz2). destruct (Hl _ _ Hz) as (z' & Hz' & E1 & E2 & _). exists z'. by rewrite E1, E2.
  - intros u c' Hc'. destruct (m_tpd0 _ _ Hc') as (z & Hz & Hz1 & Hz2 & Hz3). destruct (Hl _ _ Hz) as (z' & Hz' & E1 & E2 & E3 & _). exists z'. by rewrite E1, E2, E3.
  - intros a c' Hc'. destruct (m_unlist0 _ _ Hc') as (z & Hz & Hz1 & Hz2 & Hz3). destruct (Hl _ _ Hz) as (z' & Hz' & E1 & E2 & _ & E4). exists z'. by rewrite E1, E2, E4.
Qed.

End Agents.

End Mem.
