(* ===== verification/TritonSafe.v ===== *)
(** * The event loop never uses freed memory

    [inv] joins the invariants of the scheduler and of the memory; every action of the machine
    keeps it. *)

From stdpp Require Import base tactics list numbers option gmap.
From S2P Require Import Prelude Triton TritonSched TritonMem.

Module Safe.
Import Triton Sched Mem.

Local Open Scope Z_scope.

Record inv (ex : option nat) (s : state) : Prop := {
  v_sched : sched (ctxs s) (thrs s) (ctx_queue s) (sleep_threads s);
  v_mem : mem ex (ctxs s) (srcs s) (thrs s) (doing s) (epoll s) (events s) (ctx_list s) (tpd s);
  v_uaf : uaf s = false
}.

(** The invariant of a state whose fields are known. *)
Lemma inv_intro ex s C T Q S R D EP EV L TP :
  sched C T Q S -> mem ex C R T D EP EV L TP -> uaf s = false ->
  ctxs s = C -> thrs s = T -> ctx_queue s = Q -> sleep_threads s = S -> srcs s = R -> doing s = D -> epoll s = EP -> events s = EV -> ctx_list s = L -> tpd s = TP ->
  inv ex s.
Proof. intros A1 A2 A3 E1 E2 E3 E4 E5 E6 E7 E8 E9 E10. split; [by rewrite E1, E2, E3, E4|by rewrite E1, E2, E5, E6, E7, E8, E9, E10|done]. Qed.

Tactic Notation "inv_by" uconstr(a) uconstr(b) := eapply inv_intro; [refine a|refine b|try done|reflexivity..].

(** ** Accesses that succeed *)

Lemma ctx_upd_at c f s x : ctxs s !! c = Some x -> ctx_upd c f s = s <| ctxs ::= <[c := f x]> |>.
Proof. unfold ctx_upd. by intros ->. Qed.
Lemma src_upd_at a f s h : srcs s !! a = Some h -> src_upd a f s = s <| srcs ::= <[a := f h]> |>.
Proof. unfold src_upd. by intros ->. Qed.
Lemma thr_upd_at t f s y : thrs s !! t = Some y -> thr_upd t f s = s <| thrs ::= <[t := f y]> |>.
Proof. unfold thr_upd. by intros ->. Qed.
Lemma goto_at t p s y : thrs s !! t = Some y -> goto t p s = s <| thrs ::= <[t := y <| t_pc := p |>]> |>.
Proof. apply thr_upd_at. Qed.

Lemma rel_not c y : has_ctx (t_pc y) = true \/ t_pc y = PTop \/ t_pc y = PClear -> rel_of c y = false.
Proof. unfold rel_of. intros [E|[E|E]]; by destruct (t_pc y). Qed.

(** ** Changes of a context *)

(** Everything the two invariants depend on, except for [xok]. *)
Definition alike (x x' : _triton_context_t) : Prop := soft x x' /\ (forall k, pend k x' = pend k x) /\ place_of x' = place_of x.

Section Keep.
Context {ex : option nat} {s : state} (H : inv ex s).
Set Default Proof Using "Type".

Lemma inv_xok c x : ctxs s !! c = Some x -> xok x.
Proof using H. apply (sched_xok (v_sched _ _ H)). Qed.
Lemma inv_yok t y : thrs s !! t = Some y -> yok y.
Proof using H. apply (sched_yok (v_sched _ _ H)). Qed.

Lemma safe_ctx c x f : ctxs s !! c = Some x -> alike x (f x) -> xok (f x) -> inv ex (ctx_upd c f s).
Proof using H.
  intros Hc ((F1 & F2 & F3 & F4 & F5 & F6) & Fp & Fl) Hx. rewrite (ctx_upd_at _ _ _ _ Hc). destruct H as [A1 A2 A3].
  split; [exact (sched_place A1 c x _ Hc Fl Hx)| |exact A3]. apply (mem_ctx A2 c x); try done. rewrite F6. by left.
Qed.

(** A worker goes from one point with a context to another. *)
Lemma inv_goto t y p :
  thrs s !! t = Some y -> running (t_pc y) = true -> running p = true -> (forall k, t_pc y = PSched k -> False) -> doing s !! t = None ->
  (forall k a, src_of p = Some (k, a) -> exists h, srcs s !! a = Some h /\ s_kind h = k /\ t_ctx y = Some (s_ctx h) /\ s_ud h = true) ->
  inv ex (goto t p s).
Proof using H.
  intros Hy Hr Hp Hn Hd Hs. rewrite (goto_at _ _ _ _ Hy). pose proof (inv_yok _ _ Hy) as [Y1 Y2 Y3].
  pose proof Hr as Hr'. pose proof Hp as Hp'. unfold running in Hr', Hp'. apply andb_prop in Hr' as [R1 R2]. apply andb_prop in Hp' as [P1 P2].
  destruct H as [A1 A2 A3]. split; [|apply (mem_thr A2 t y)|exact A3]; try done.
  - apply (sched_thr A1 t y); try done.
    + unfold on. destruct y; cbn in *. by rewrite R1, P1.
    + destruct y; cbn in *. split; cbn; [intros ->; done|auto|intros b ->; done].
    + intros HS. destruct (c_sleep _ _ _ _ A1 t HS) as (z & Hz & Hz' & _). simplify_eq. by rewrite Hz' in R2.
    + intros c Ho Hpl. destruct (c_res _ _ _ _ A1 t y c Hy) as [k Hk]; [|done|by apply Hn in Hk]. unfold on in *. destruct y; cbn in *. by rewrite R1; rewrite P1 in Ho.
  - intros c. rewrite !rel_not; [done|by left|left]. exact P1.
  - intros o Ho. congruence.
Qed.

(** The context of a worker. *)
Lemma inv_held t y c :
  thrs s !! t = Some y -> running (t_pc y) = true -> t_ctx y = Some c ->
  exists x, ctxs s !! c = Some x /\ thread x = Some t /\ entry2 x = false /\ (asleep x = false \/ asleep x = true /\ wakeup x = true /\ exists k, t_pc y = PSched k).
Proof using H.
  intros Hy Hr Hc. unfold running in Hr. apply andb_prop in Hr as [R1 R2]. destruct H as [A1 A2 A3].
  assert (Ho : ons (thrs s) t = Some c) by (rewrite (ons_at _ _ _ Hy); unfold on; by rewrite R1).
  pose proof (c_res _ _ _ _ A1 t y c Hy) as Hres. rewrite (ons_at _ _ _ Hy) in Ho.
  specialize (Hres Ho). rewrite <- (ons_at _ _ _ Hy) in Ho. apply (h_on _ _ _ _ (c_coh _ _ _ _ A1)) in Ho.
  unfold places in *. destruct (ctxs s !! c) as [x|] eqn:Ex; cbn in *; [|by destruct Ho].
  exists x. split; [done|]. unfold place_of in *. destruct (thread x) as [t'|] eqn:Et; [|by destruct (entry2 x), Ho].
  destruct (asleep x) eqn:Ea, (entry2 x) eqn:Ee, (wakeup x) eqn:Ew; destruct Ho as [[= <-]|[= <-]].
  - split; [done|]. split; [done|]. right. split; [done|]. split; [done|]. by apply Hres.
  - destruct (x_entry2 _ (sched_xok A1 _ _ Ex) Ee) as [[? ?]|(? & ? & ?)]; congruence.
  - destruct (x_entry2 _ (sched_xok A1 _ _ Ex) Ee) as [[? ?]|(? & ? & ?)]; congruence.
  - by split; [|split; [|left]].
  - by split; [|split; [|left]].
Qed.

Lemma inv_awake t y c :
  thrs s !! t = Some y -> running (t_pc y) = true -> t_ctx y = Some c -> (forall k, t_pc y = PSched k -> False) ->
  exists x, ctxs s !! c = Some x /\ thread x = Some t /\ entry2 x = false /\ asleep x = false.
Proof using H.
  intros Hy Hr Hc Hn. destruct (inv_held t y c Hy Hr Hc) as (x & Hx & H1 & H2 & [H3|(_ & _ & k & Hk)]); [eauto|by apply Hn in Hk].
Qed.

End Keep.

(** [triton_queue_ctx] *)
Lemma inv_queue ex s c : inv ex s -> is_Some (ctxs s !! c) -> inv ex (triton_queue_ctx c s).2.
Proof.
  intros H [x Hc]. unfold triton_queue_ctx. rewrite Hc. pose proof (inv_xok H _ _ Hc) as Hx.
  destruct (bool_decide (is_Some (thread x)) || entry2 x || need_free x || init x) eqn:E.
  { cbn [snd]. rewrite <- (ctx_upd_at c (fun x => id (x <| pending := true |>)) s x Hc). apply (safe_ctx H c x); try done. by destruct x, Hx. }
  apply orb_false_elim in E as [E Ei]. apply orb_false_elim in E as [E Ef]. apply orb_false_elim in E as [Et Ee]. apply bool_decide_eq_false in Et.
  assert (Ht : thread x = None) by (destruct (thread x); [by destruct Et|done]).
  assert (Hi : place_of x = Idle) by (by apply place_idle).
  assert (Hb : base x = true) by (destruct (base x) eqn:Eb; [done|]; pose proof (x_base _ Hx Eb); congruence).
  assert (Ha : asleep x = false) by (destruct (asleep x) eqn:Ea; [|done]; destruct (x_asleep _ Hx Ea) as [[? ?] _]; congruence).
  destruct H as [A1 A2 A3].
  assert (Q : inv ex (s <| ctxs ::= <[c := x <| pending := true |> <| queued := true |> <| entry2 := true |>]> |>
                       <| ctx_queue ::= fun q => fn_upd q (priority x) (q (priority x) ++ [c]) |>)).
  { split; [|apply (mem_ctx A2 c x); try done; by right|done].
    assert (P1 : place_of (x <| pending := true |> <| queued := true |> <| entry2 := true |>) = Queued) by (apply place_queued; by destruct x).
    assert (P2 : xok (x <| pending := true |> <| queued := true |> <| entry2 := true |>)) by (destruct x, Hx; cbn in *; split; cbn; auto).
    exact (sched_queue A1 c x _ Hc Hi P1 P2). }
  destruct (sleep_threads s) as [|t l] eqn:Es; [exact Q|]. destruct (need_config_reload s); [exact Q|].
  destruct (c_sleep _ _ _ _ A1 t (list_elem_of_here _ _)) as (y & Hy & Hn & Hyc). cbn [snd].
  rewrite (thr_upd_at t _ _ y) by done.
  assert (A2' : mem ex (<[c := x <| pending := true |> <| thread := Some t |>]> (ctxs s)) (srcs s) (thrs s) (doing s) (epoll s) (events s) (ctx_list s) (tpd s)).
  { apply (mem_ctx A2 c x); try done. by right. }
  assert (P1 : place_of (x <| pending := true |> <| thread := Some t |>) = Held t) by (apply place_held; by destruct x).
  assert (P2 : xok (x <| pending := true |> <| thread := Some t |>)) by (destruct x, Hx; cbn in *; subst; split; cbn; auto; done).
  inv_by (sched_assign A1 c x _ t y l eq_refl Hc Hi P1 P2 Hy) (mem_thr A2' t y (y <| t_ctx := Some c |>) Hy _ _ _).
  - intros c'. rewrite !rel_not; try done; left; change (t_pc (y <| t_ctx := Some c |>)) with (t_pc y); by destruct (t_pc y).
  - intros k a Hs. change (t_pc (y <| t_ctx := Some c |>)) with (t_pc y) in Hs. by destruct (t_pc y).
  - intros o Ho. destruct (m_agent _ _ _ _ _ _ _ _ _ A2 t o y Ho Hy) as [k Hk]. by rewrite Hk in Hn.
Qed.

(** [triton_context_release] *)
Lemma inv_release s c : inv (Some c) s -> inv None (triton_context_release c s).
Proof.
  intros H. destruct (m_ex _ _ _ _ _ _ _ _ _ (v_mem _ _ H) c eq_refl) as [x Hc]. unfold triton_context_release. rewrite Hc.
  pose proof (inv_xok H _ _ Hc) as Hx. destruct H as [A1 A2 A3]. destruct (Z.eqb_spec (refs x - 1) 0) as [E|E].
  - split; [|exact (mem_gone A2 c x eq_refl Hc E)|done]. apply (sched_del A1 c x Hc).
    destruct (release_base A2 c x eq_refl Hc E) as [Hb _]. apply place_idle.
    destruct (thread x) eqn:Et, (entry2 x) eqn:Ee; try done; destruct (x_busy _ Hx) as [_ ?]; try congruence; eauto.
  - split; [|exact (mem_put A2 c x _ eq_refl Hc eq_refl)|done]. apply (sched_place A1 c x); [done|by destruct x|]. by destruct x, Hx.
Qed.

(** ** Changes outside of contexts *)

(** What the invariant does not depend on. *)
Lemma safe_ext ex s s' :
  inv ex s -> ctxs s' = ctxs s -> thrs s' = thrs s -> ctx_queue s' = ctx_queue s -> sleep_threads s' = sleep_threads s -> srcs s' = srcs s ->
  doing s' = doing s -> epoll s' = epoll s -> events s' = events s -> ctx_list s' = ctx_list s -> tpd s' = tpd s -> uaf s' = uaf s -> inv ex s'.
Proof. intros [A1 A2 A3] E1 E2 E3 E4 E5 E6 E7 E8 E9 E10 E11. eapply (inv_intro _ _ _ _ _ _ _ _ _ _ _ _ A1 A2); congruence. Qed.

(** A worker changes in nothing but the signal. *)
Lemma inv_sig ex s t b : inv ex s -> inv ex (thr_upd t (fun y => y <| t_sig := b |>) s).
Proof.
  intros H. unfold thr_upd. destruct (thrs s !! t) as [y|] eqn:Hy; [|done]. pose proof (inv_yok H _ _ Hy) as Hyk. destruct H as [A1 A2 A3].
  split; [apply (sched_thr A1 t y)|apply (mem_thr A2 t y)|]; try done.
  - by destruct y, Hyk.
  - intros HS. destruct (c_sleep _ _ _ _ A1 t HS) as (z & Hz & Hz'). rewrite Hy in Hz. by injection Hz as <-.
  - intros c Ho Hr. exact (c_res _ _ _ _ A1 t y c Hy Ho Hr).
  - intros k a Ha. exact (m_worker _ _ _ _ _ _ _ _ _ A2 t y k a Hy Ha).
Qed.

Lemma inv_wakeup ex s t : inv ex s -> inv ex (triton_thread_wakeup t s).
Proof. apply inv_sig. Qed.

Lemma inv_wakeup_all ex s : inv ex s -> inv ex (wakeup_all s).
Proof. intros H. unfold wakeup_all. induction (threads s); cbn; [done|by apply inv_wakeup]. Qed.

(** ** Functions of the library *)

Lemma may_call_iff a s : may_call a s = true -> doing s !! a = None /\ forall y, thrs s !! a = Some y -> exists k, t_pc y = PHnd k.
Proof.
  unfold may_call. intros [E1 E2]%andb_prop. apply bool_decide_eq_true in E1. split; [done|]. intros y Hy. rewrite Hy in E2. destruct (t_pc y); eauto; done.
Qed.

(** An agent that has a reference goes on. *)
Lemma inv_goes ex s a o o' c : inv ex s -> doing s !! a = Some o -> holds o = Some c -> holds o' = Some c -> inv ex (does a o' s).
Proof. intros [A1 A2 A3] Ha Ho Ho'. split; [done| |done]. apply (mem_goes A2 a o); congruence. Qed.

Lemma doing_ctx ex s a o c : inv ex s -> doing s !! a = Some o -> holds o = Some c -> is_Some (ctxs s !! c).
Proof. intros [A1 A2 A3]. apply (m_doing _ _ _ _ _ _ _ _ _ A2). Qed.

(** A function takes a reference. *)
Lemma inv_with_live s a u f : inv None s -> may_call a s = true -> (forall c, holds (f c) = Some c) -> inv None (with_live a u f s).
Proof.
  intros H [Hd Hp]%may_call_iff Hf. unfold with_live. destruct (triton_context_get_live u s) as [c|] eqn:E; [|done].
  unfold triton_context_get_live in E. destruct (tpd s !! u) as [c'|]; [|done]. cbn in E. destruct (ctxs s !! c') as [x|] eqn:Hc; [|done]. cbn in E.
  destruct (_ && _ && _); [|done]. injection E as <-. rewrite (ctx_upd_at _ _ _ _ Hc).
  pose proof (inv_xok H _ _ Hc) as Hx. destruct H as [A1 A2 A3].
  pose proof (mem_hold A2 c' x _ eq_refl Hc eq_refl) as A2'.
  split; [|exact (mem_does A2' a (f c') c' eq_refl Hd (Hf c') Hp)|done]. apply (sched_place A1 c' x); [done|by destruct x|by destruct x, Hx].
Qed.

(** An agent gives its reference back. *)
Lemma inv_drop s a o c : inv None s -> doing s !! a = Some o -> holds o = Some c -> inv None (done_ a (triton_context_release c s)).
Proof.
  intros H Ha Ho.
  assert (E : done_ a (triton_context_release c s) = triton_context_release c (done_ a s)).
  { unfold triton_context_release. change (ctxs (done_ a s)) with (ctxs s). destruct (ctxs s !! c) as [x|]; [destruct (Z.eqb _ _)|]; reflexivity. }
  rewrite E. apply inv_release. destruct H as [A1 A2 A3]. split; [done|exact (mem_drop A2 a o c eq_refl Ha Ho)|done].
Qed.

(** *** Inside of a function *)

(** A context changes in what the invariants do not depend on, up to [xok]. *)
Ltac alike_ctx := split; [repeat split; done|split; [by intros []|done]].

Lemma ctx_upd_frame c f s : thrs (ctx_upd c f s) = thrs s /\ doing (ctx_upd c f s) = doing s /\ srcs (ctx_upd c f s) = srcs s /\ events (ctx_upd c f s) = events s /\ threads (ctx_upd c f s) = threads s.
Proof. unfold ctx_upd. by destruct (ctxs s !! c). Qed.

Lemma queue_frame c s :
  let s' := (triton_queue_ctx c s).2 in doing s' = doing s /\ srcs s' = srcs s /\ events s' = events s /\ threads s' = threads s /\ forall t, is_Some (thrs s !! t) -> is_Some (thrs s' !! t).
Proof.
  unfold triton_queue_ctx. destruct (ctxs s !! c) as [x|]; [|done]. destruct (_ || _ || _ || _); [done|].
  destruct (sleep_threads s) as [|t l]; [done|]. destruct (need_config_reload s); [done|]. cbn [snd]. unfold thr_upd. cbn [thrs].
  destruct (thrs _ !! t) eqn:E; [|done]. split; [done|]. split; [done|]. split; [done|]. split; [done|]. intros t' Ht. cbn. apply lookup_insert_is_Some'. by right.
Qed.

Lemma inv_signal s a o c r : inv None s -> doing s !! a = Some o -> holds o = Some c -> inv None (signal a c (r, s)).
Proof. intros H Ha Ho. destruct r; cbn; by apply (inv_goes None s a o _ c). Qed.

Lemma inv_signal_queue s a o c : inv None s -> doing s !! a = Some o -> holds o = Some c -> inv None (signal a c (triton_queue_ctx c s)).
Proof.
  intros H Ha Ho. pose proof (inv_queue None s c H (doing_ctx _ _ _ _ _ H Ha Ho)) as Hq. destruct (queue_frame c s) as (Ed & _).
  destruct (triton_queue_ctx c s) as [r s']. apply (inv_signal s' a o c r); [done| |done]. cbn in *. congruence.
Qed.

Lemma inv_call_add s a c k f :
  inv None s -> doing s !! a = Some (CallAdd c k) -> (forall x, alike x (f x)) -> (forall x, xok x -> xok (f x)) -> inv None (signal a c (triton_queue_ctx c (ctx_upd c f s))).
Proof.
  intros H Ha F1 F2. destruct (doing_ctx _ _ _ _ _ H Ha eq_refl) as [x Hc]. destruct (ctx_upd_frame c f s) as (_ & Ed & _).
  apply (inv_signal_queue _ a (CallAdd c k)); [|congruence|done]. apply (safe_ctx H c x); auto. apply F2, (inv_xok H _ _ Hc).
Qed.

Lemma inv_wake_up s a c : inv None s -> doing s !! a = Some (WakeUp c) -> inv None (wake_up a c s).
Proof.
  intros H Ha. destruct (doing_ctx _ _ _ _ _ H Ha eq_refl) as [x Hc]. pose proof (inv_xok H _ _ Hc) as Hx. unfold wake_up. rewrite Hc.
  assert (R : forall s' o, inv None s' -> doing s' = doing s -> holds o = Some c -> inv None (does a o s')).
  { intros s' o H' E Ho. apply (inv_goes None s' a (WakeUp c) o c); [done|congruence|done|done]. }
  destruct (wakeup x) eqn:Ew; [by apply R|].
  destruct (asleep x) eqn:Ea, (thread x) as [t|] eqn:Et; cycle 1.
  1,2,3: apply R; [|by apply ctx_upd_frame|done]; apply (safe_ctx H c x); [done| |destruct x, Hx; cbn in *; subst; split; cbn; auto; naive_solver];
    split; [by repeat split|split; [by intros []|clear -Et Ea; unfold place_of; destruct x; cbn in *; by subst]].
  destruct (c_dom _ _ _ _ (v_sched _ _ H) c x t Hc Et) as [y Hy]. rewrite Hy.
  assert (Ee : entry2 x = false) by (destruct (entry2 x) eqn:E; [|done]; destruct (x_entry2 _ Hx E) as [[? _]|(_ & ? & _)]; congruence).
  pose (x' := x <| wakeup := true |> <| entry2 := true |>). pose (y' := y <| wakeup_list ::= fun f => fn_upd f (priority x) (f (priority x) ++ [c]) |>).
  assert (G : inv None (s <| ctxs ::= <[c := x']> |> <| thrs ::= <[t := y']> |>)).
  { destruct H as [A1 A2 A3].
    assert (A2' : mem None (<[c := x']> (ctxs s)) (srcs s) (thrs s) (doing s) (epoll s) (events s) (ctx_list s) (tpd s)).
    { apply (mem_ctx A2 c x x'); try done. intros _. left. unfold busy. by rewrite Et. }
    split; [|apply (mem_thr A2' t y y'); try done|done].
    - apply (sched_wake A1 c x x' t y y'); try done.
      + unfold place_of. by rewrite Et, Ea, Ee, Ew.
      + clear -Et Ea. unfold place_of, x'. destruct x; cbn in *. by subst.
      + destruct x, Hx; cbn in *; subst; split; cbn; auto; naive_solver.
    - intros k b Hb. exact (m_worker _ _ _ _ _ _ _ _ _ A2 t y k b Hy Hb). }
  assert (E : thr_upd t (fun y => y <| wakeup_list ::= fun f => fn_upd f (priority x) (f (priority x) ++ [c]) |>) (ctx_upd c (fun x => x <| wakeup := true |> <| entry2 := true |>) s)
              = s <| ctxs ::= <[c := x']> |> <| thrs ::= <[t := y']> |>).
  { rewrite (ctx_upd_at _ _ _ _ Hc). by rewrite (thr_upd_at t _ _ y). }
  cbv zeta. rewrite E. destruct (t_ctx y); by apply R.
Qed.

Lemma wakeup_all_done a s : done_ a (wakeup_all s) = wakeup_all (done_ a s).
Proof.
  unfold wakeup_all. change (threads (done_ a s)) with (threads s). induction (threads s) as [|t l IH]; [done|]. cbn [fold_right]. rewrite <- IH.
  generalize (fold_right triton_thread_wakeup s l). intros s'. unfold triton_thread_wakeup, thr_upd. change (thrs (done_ a s')) with (thrs s'). by destruct (thrs s' !! t).
Qed.

Lemma inv_unlist s a c : inv None s -> doing s !! a = Some (Unlist c) -> inv None (done_ a (ctx_unlist c s)).
Proof.
  intros [A1 A2 A3] Ha. destruct (m_unlist _ _ _ _ _ _ _ _ _ A2 a c Ha) as (x & Hc & _).
  assert (G : forall s', ctxs s' = ctxs s -> thrs s' = thrs s -> ctx_queue s' = ctx_queue s -> sleep_threads s' = sleep_threads s -> srcs s' = srcs s -> doing s' = delete a (doing s) ->
    epoll s' = epoll s -> events s' = events s -> ctx_list s' = list_del c (ctx_list s) -> tpd s' = tpd s -> uaf s' = uaf s -> inv None s').
  { intros. eapply (inv_intro _ _ _ _ _ _ _ _ _ _ _ _ A1 (mem_unlisted A2 a c Ha)); congruence. }
  unfold ctx_unlist. rewrite (ctx_upd_at c id _ x) by exact Hc. cbv zeta.
  assert (E : <[c := id x]> (ctxs s) = ctxs s) by (by apply insert_id).
  destruct (_ && _); (destruct (terminate _); [rewrite wakeup_all_done; apply inv_wakeup_all|]); apply G; try done; exact E.
Qed.

Lemma inv_free_later s a b h :
  inv None s -> doing s !! a = Some (FreeLater b) -> srcs s !! b = Some h -> inv None (done_ a (ev_upd (s_kind h) (fun e => e <| freed_list ::= fun l => l ++ [b] |>) s)).
Proof.
  intros [A1 A2 A3] Ha Hb. split; [done|apply (mem_later_done A2 a b h); try done|done]; unfold ev_upd, kind_eqb; cbn.
  - intros k. by destruct (bool_decide (k = s_kind h)).
  - rewrite bool_decide_eq_true_2 by done. unfold freed. cbn. by rewrite app_assoc.
  - intros k Hk. by rewrite bool_decide_eq_false_2.
Qed.

Lemma inv_continue s a ok s' : inv None s -> continue a ok s = Some s' -> inv None s'.
Proof.
  intros H E. unfold continue in E. destruct (doing s !! a) as [o|] eqn:Ha; [|done]. cbn [mbind option_bind] in E. injection E as <-.
  assert (R : forall c o', holds o = Some c -> holds o' = Some c -> inv None (does a o' s)) by (intros c o' Ho Ho'; exact (inv_goes None s a o o' c H Ha Ho Ho')).
  pose proof (fun c => doing_ctx None s a o c H Ha) as Hl. destruct o as [c k|c f|c|c|c|t c|c|c|b|].
  - destruct ok; [|by apply (R c)]. apply (inv_call_add s a c k); [done|done|intros x; alike_ctx|intros x []; by destruct x].
  - destruct (Hl c eq_refl) as [x Hc]. apply (inv_goes None _ a (Cancel c f) _ c); [|by rewrite (proj1 (proj2 (ctx_upd_frame c _ s)))|done|done].
    apply (safe_ctx H c x); [done|alike_ctx|]. destruct (inv_xok H _ _ Hc). by destruct x.
  - destruct (Hl c eq_refl) as [x Hc]. rewrite Hc. apply (R c); [done|]. by destruct (init x).
  - destruct (Hl c eq_refl) as [x Hc]. rewrite (ctx_upd_at _ _ _ _ Hc). cbv zeta.
    replace (ctxs (s <| ctxs ::= _ |>) !! c) with (Some (x <| init := false |>)) by (symmetry; apply lookup_insert_eq).
    assert (G : inv None (s <| ctxs ::= <[c := x <| init := false |>]> |>)).
    { rewrite <- (ctx_upd_at c (fun x => x <| init := false |>) s x Hc). apply (safe_ctx H c x); [done|alike_ctx|]. destruct (inv_xok H _ _ Hc) as [? ? X3 ? ?]. destruct x. cbn in *. split; cbn; try done. intros Q. split; [done|by apply X3]. }
    destruct (pending _); [by apply (inv_signal_queue _ a (WakeInit c))|by apply (inv_goes None _ a (WakeInit c) _ c)].
  - by apply inv_wake_up.
  - apply (inv_goes None _ a (Signal t c) _ c); [by apply inv_wakeup| |done|done]. unfold triton_thread_wakeup, thr_upd. by destruct (thrs s !! t).
  - exact (inv_drop s a (Release c) c H Ha eq_refl).
  - by apply inv_unlist.
  - destruct (m_later _ _ _ _ _ _ _ _ _ (v_mem _ _ H) a b Ha) as (h & Hb & _). rewrite Hb. by apply inv_free_later.
  - unfold config_reloaded. rewrite wakeup_all_done. apply inv_wakeup_all. destruct H as [A1 A2 A3]. split; [done|exact (mem_plain_done A2 a Ha)|done].
Qed.

End Safe.
