(* ===== verification/TritonWork.v ===== *)
(** * The workers keep the invariant

    Each section of [triton_thread] and [ctx_thread], from the choice of a context to the end
    of its run. *)

From stdpp Require Import base tactics list numbers option gmap.
From S2P Require Import Prelude Triton TritonSched TritonMem TritonSafe.

Module Work.
Import Triton Sched Mem Safe.

Local Open Scope Z_scope.

(** What a worker finds, and from which list. *)
Lemma queue_found y q w i c :
  check_ctx_queue_empty y q = Some (w, i, c) -> if w : bool then c ∈ wakeup_list y i else c ∈ q i.
Proof.
  unfold check_ctx_queue_empty. generalize 0%nat. induction CTX_PRIO_MAX as [|n IH]; [done|]. intros j.
  destruct (wakeup_list y j) as [|c1 l1] eqn:E1; [destruct (q j) as [|c2 l2] eqn:E2; [apply IH|]|]; intros [= <- <- <-]; [rewrite E2|rewrite E1]; by left.
Qed.

Section Worker.
Context {s : state} (H : inv None s) {t : nat} {y : _triton_thread_t} (Hy : thrs s !! t = Some y).
Set Default Proof Using "Type".

Lemma worker_free : (forall k, t_pc y <> PHnd k) -> doing s !! t = None.
Proof using H Hy.
  intros Hn. destruct (doing s !! t) as [o|] eqn:E; [|done]. destruct (m_agent _ _ _ _ _ _ _ _ _ (v_mem _ _ H) t o y E Hy) as [k Hk]. by apply Hn in Hk.
Qed.

(** From one wait to another. *)
Lemma inv_nap p : napping (t_pc y) = true -> napping p = true -> inv None (goto t p s).
Proof using H Hy.
  intros Hn Hp. rewrite (goto_at _ _ _ _ Hy). assert (Hd : doing s !! t = None) by (apply worker_free; intros k E; by rewrite E in Hn).
  assert (Hh : has_ctx (t_pc y) = true /\ has_ctx p = true) by (split; [by destruct (t_pc y)|by destruct p]). destruct Hh as [H1 H2].
  destruct H as [A1 A2 A3]. split; [apply (sched_thr A1 t y); try done|apply (mem_thr A2 t y); try done|done].
  - unfold on. change (t_pc (y <| t_pc := p |>)) with p. by rewrite H1, H2.
  - split; change (t_pc (y <| t_pc := p |>)) with p; unfold running; [intros ->|rewrite Hp, andb_false_r|intros b ->]; done.
  - intros HS. destruct (c_sleep _ _ _ _ A1 t HS) as (z & Hz & _ & Hc). rewrite Hy in Hz. by injection Hz as <-.
  - intros c Ho Hr. exfalso. destruct (c_res _ _ _ _ A1 t y c Hy) as [k Hk]; [|done|by rewrite Hk in Hn].
    unfold on in *. change (t_pc (y <| t_pc := p |>)) with p in Ho. by rewrite H1; rewrite H2 in Ho.
  - intros c. rewrite !rel_not; [done|by left|by left].
  - intros k a Ha. change (t_pc (y <| t_pc := p |>)) with p in Ha. by destruct p.
  - congruence.
Qed.

Lemma inv_worker_ctx c : running (t_pc y) = true -> t_ctx y = Some c -> is_Some (ctxs s !! c).
Proof using H Hy. intros Hr Hc. destruct (inv_held H t y c Hy Hr Hc) as (x & Hx & _). eauto. Qed.

(** *** The head of the loop *)

Lemma inv_thread_nap p (s' : state) :
  t_pc y = PTop -> napping p = true ->
  ctxs s' = ctxs s -> thrs s' = <[t := y <| t_pc := p |>]> (thrs s) -> ctx_queue s' = ctx_queue s -> sleep_threads s' = t :: sleep_threads s \/ sleep_threads s' = sleep_threads s ->
  srcs s' = srcs s -> doing s' = doing s -> epoll s' = epoll s -> events s' = events s -> ctx_list s' = ctx_list s -> tpd s' = tpd s -> uaf s' = uaf s -> inv None s'.
Proof using H Hy.
  intros Ht Hp E1 E2 E3 E4 E5 E6 E7 E8 E9 E10 E11. pose proof (y_top _ (inv_yok H _ _ Hy) Ht) as Hn.
  assert (Hd : doing s !! t = None) by (apply worker_free; congruence). destruct H as [A1 A2 A3].
  assert (Hh : has_ctx p = true) by (by destruct p).
  assert (A2' : mem None (ctxs s) (srcs s) (<[t := y <| t_pc := p |>]> (thrs s)) (doing s) (epoll s) (events s) (ctx_list s) (tpd s)).
  { apply (mem_thr A2 t y); try done; [|intros k a Ha; change (t_pc (y <| t_pc := p |>)) with p in Ha; by destruct p|congruence].
    intros c. rewrite !rel_not; [done|by right; left|by left]. }
  destruct (sched_nap A1 t y (y <| t_pc := p |>)) as [B1 B2]; try done.
  destruct E4 as [E4|E4]; [eapply (inv_intro _ _ _ _ _ _ _ _ _ _ _ _ B1 A2')|eapply (inv_intro _ _ _ _ _ _ _ _ _ _ _ _ B2 A2')]; congruence.
Qed.

Lemma inv_take c x i :
  t_pc y = PTop -> c ∈ ctx_queue s i -> ctxs s !! c = Some x ->
  inv None (goto t PRun (ctx_upd c (fun x => x <| thread := Some t |> <| queued := false |>) (thr_upd t (fun y => y <| t_ctx := Some c |>) (unqueue t c false i s)))).
Proof using H Hy.
  intros Ht Hq Hc. pose proof (inv_xok H _ _ Hc) as Hx. assert (Hd : doing s !! t = None) by (apply (worker_free); congruence). destruct H as [A1 A2 A3].
  assert (Hp : place_of x = Queued) by (rewrite <- (places_at _ _ _ Hc); apply (h_queue _ _ _ _ (c_coh _ _ _ _ A1) _ _ Hq)).
  apply place_queued in Hp as [Eth Een]. assert (Ea : asleep x = false) by (destruct (x_entry2 _ Hx Een) as [[? _]|(_ & _ & ? & ?)]; congruence).
  pose (x' := x <| entry2 := false |> <| thread := Some t |> <| queued := false |>). pose (y' := y <| t_ctx := Some c |> <| t_pc := PRun |>).
  assert (A2' : mem None (<[c := x']> (ctxs s)) (srcs s) (thrs s) (doing s) (epoll s) (events s) (ctx_list s) (tpd s)).
  { apply (mem_ctx A2 c x x'); try done. intros _. left. unfold busy. by rewrite Een, orb_true_r. }
  assert (A1' : sched (<[c := x']> (ctxs s)) (<[t := y']> (thrs s)) (fn_upd (ctx_queue s) i (list_del c (ctx_queue s i))) (sleep_threads s)).
  { apply (sched_take A1 c x x' t y y' i); try done.
    - apply place_held. by destruct x.
    - destruct (x_busy _ Hx (or_intror Een)) as [Xi Xb]. destruct Hx. destruct x; cbn in *; subst; split; cbn; auto; done. }
  assert (A2'' : mem None (<[c := x']> (ctxs s)) (srcs s) (<[t := y']> (thrs s)) (doing s) (epoll s) (events s) (ctx_list s) (tpd s)).
  { apply (mem_thr A2' t y y'); try done; [|congruence]. intros c'. rewrite (rel_not c' y) by (by right; left). apply rel_not. by left. }
  unfold unqueue. rewrite (ctx_upd_at c _ s x Hc). rewrite (thr_upd_at t _ _ y) by done. rewrite (ctx_upd_at c _ _ (x <| entry2 := false |>)) by apply lookup_insert_eq.
  rewrite (goto_at t PRun _ (y <| t_ctx := Some c |>)) by apply lookup_insert_eq.
  eapply (inv_intro _ _ _ _ _ _ _ _ _ _ _ _ A1' A2''); try done; apply insert_insert_eq.
Qed.

Lemma inv_resume c x i k :
  t_pc y = PTop -> c ∈ wakeup_list y i -> ctxs s !! c = Some x -> uc x = Some k ->
  inv None (goto t (PSched k) (thr_upd t (fun y => y <| t_ctx := Some c |>) (unqueue t c true i s))).
Proof using H Hy.
  intros Ht Hq Hc Hk. pose proof (inv_xok H _ _ Hc) as Hx. assert (Hd : doing s !! t = None) by (apply (worker_free); congruence). destruct H as [A1 A2 A3].
  assert (Hw : place_of x = Woken t). { rewrite <- (places_at _ _ _ Hc). apply (h_wake _ _ _ _ (c_coh _ _ _ _ A1) t c i). by rewrite (wakes_at _ _ _ _ Hy). }
  assert (Eth : thread x = Some t) by (apply place_thread; auto).
  assert (Ee : entry2 x = true /\ asleep x = true) by (unfold place_of in Hw; rewrite Eth in Hw; by destruct (asleep x), (entry2 x), (wakeup x)).
  destruct Ee as [Ee Ea]. assert (Ew : wakeup x = true) by (destruct (x_entry2 _ Hx Ee) as [[? _]|(_ & ? & _)]; congruence).
  pose (x' := x <| entry2 := false |>). pose (y' := y <| wakeup_list ::= fun f => fn_upd f i (list_del c (f i)) |> <| t_ctx := Some c |> <| t_pc := PSched k |>).
  assert (A2' : mem None (<[c := x']> (ctxs s)) (srcs s) (thrs s) (doing s) (epoll s) (events s) (ctx_list s) (tpd s)).
  { apply (mem_ctx A2 c x x'); try done. intros _. left. unfold busy. by rewrite Ee, orb_true_r. }
  assert (A1' : sched (<[c := x']> (ctxs s)) (<[t := y']> (thrs s)) (ctx_queue s) (sleep_threads s)).
  { apply (sched_resume A1 c x x' t y y' i); try done.
    - clear -Eth Ea Ew. unfold place_of, x'. destruct x; cbn in *. by subst.
    - destruct Hx. destruct x; cbn in *; subst; split; cbn; auto; done.
    - by eexists. }
  assert (A2'' : mem None (<[c := x']> (ctxs s)) (srcs s) (<[t := y']> (thrs s)) (doing s) (epoll s) (events s) (ctx_list s) (tpd s)).
  { apply (mem_thr A2' t y y'); try done; [|congruence]. intros c'. rewrite (rel_not c' y) by (by right; left). apply rel_not. by left. }
  unfold unqueue. rewrite (ctx_upd_at c _ s x Hc). rewrite (thr_upd_at t _ (s <| ctxs ::= <[c := x <| entry2 := false |>]> |>) y) by exact Hy.
  rewrite (thr_upd_at t _ _ (y <| wakeup_list ::= fun f => fn_upd f i (list_del c (f i)) |>)) by apply lookup_insert_eq.
  rewrite (goto_at t _ _ (y <| wakeup_list ::= fun f => fn_upd f i (list_del c (f i)) |> <| t_ctx := Some c |>)) by apply lookup_insert_eq.
  eapply (inv_intro _ _ _ _ _ _ _ _ _ _ _ _ A1' A2''); try done. cbn. by rewrite !insert_insert_eq.
Qed.

Lemma inv_thread_top : t_pc y = PTop -> inv None (thread_top t y s).
Proof using H Hy.
  intros Ht. unfold thread_top.
  assert (N : inv None (let s := if terminate s then s else s <| sleep_threads ::= cons t |> in
                        let s := s <| thread_active ::= fun n => n - 1 |> in
                        goto t (if (thread_active s =? 0) && need_config_reload s then PReload else PSleep) s)).
  { cbv zeta. destruct (terminate s); rewrite (goto_at t _ _ y) by done;
      (apply (inv_thread_nap (if (thread_active s - 1 =? 0) && need_config_reload s then PReload else PSleep)); try done; [by destruct (_ && _)|..]); [by right|by left]. }
  destruct (need_config_reload s) eqn:Er; [exact N|]. destruct (check_ctx_queue_empty y (ctx_queue s)) as [[[w i] c]|] eqn:E; [|exact N]. clear N.
  apply queue_found in E. pose proof (c_coh _ _ _ _ (v_sched _ _ H)) as K. destruct w.
  - assert (Hw : places (ctxs s) c = Woken t) by (apply (h_wake _ _ _ _ K t c i); by rewrite (wakes_at _ _ _ _ Hy)).
    destruct (ctxs s !! c) as [x|] eqn:Hc; [|unfold places in Hw; by rewrite Hc in Hw]. pose proof (inv_xok H _ _ Hc) as Hx. rewrite (places_at _ _ _ Hc) in Hw.
    assert (Ew : entry2 x = true /\ asleep x = true) by (unfold place_of in Hw; by destruct (thread x), (entry2 x), (asleep x), (wakeup x)). destruct Ew as [Ee Ea].
    destruct (x_entry2 _ Hx Ee) as [[? _]|(_ & Ew & _)]; [congruence|]. destruct (x_asleep _ Hx Ea) as [_ [k Hk]]. rewrite Ea, Ew, Hk. by apply (inv_resume c x).
  - pose proof (h_queue _ _ _ _ K c i E) as Hq.
    destruct (ctxs s !! c) as [x|] eqn:Hc; [|unfold places in Hq; by rewrite Hc in Hq]. pose proof (inv_xok H _ _ Hc) as Hx. rewrite (places_at _ _ _ Hc) in Hq.
    apply place_queued in Hq as [Q1 Q2]. destruct (x_entry2 _ Hx Q2) as [[Ea _]|(_ & _ & ? & ?)]; [|congruence]. rewrite Ea. by apply (inv_take c x).
Qed.

Lemma inv_thread_woken : t_pc y = PWoken -> inv None (thread_woken t y s).
Proof using H Hy.
  intros Ht. assert (Hd : doing s !! t = None) by (apply worker_free; congruence). unfold thread_woken. pose proof H as [A1 A2 A3].
  destruct (t_ctx y) as [c|] eqn:Ec; rewrite (goto_at t _ _ y) by done.
  - assert (Ho : on y = Some c) by (unfold on; by rewrite Ht).
    split; [apply (sched_thr A1 t y); try done|apply (mem_thr A2 t y); try done|done].
    + rewrite Ho. exact Ec.
    + intros HS. destruct (c_sleep _ _ _ _ A1 t HS) as (z & Hz & _ & Hz'). congruence.
    + intros c' Ho' Hr. assert (on y = Some c') by (rewrite Ho, <- Ho'; exact (eq_sym Ec)). destruct (c_res _ _ _ _ A1 t y c' Hy) as [k Hk]; congruence.
    + intros c'. rewrite (rel_not c' y) by (left; by rewrite Ht). apply rel_not. by left.
    + congruence.
  - split; [apply (sched_rise A1 t y); try done; by rewrite Ht|apply (mem_thr A2 t y); try done|done].
    + intros c'. rewrite (rel_not c' y) by (left; by rewrite Ht). apply rel_not. by right; left.
    + congruence.
Qed.

(** *** A run of a context *)

Lemma inv_src_run a f :
  running (t_pc y) = true -> (forall k, t_pc y <> PSched k) -> (forall k, t_pc y <> PHnd k) -> forall k, src_of (t_pc y) = Some (k, a) ->
  (forall h, running (f h) = true /\ (src_of (f h) = None \/ src_of (f h) = Some (k, a))) -> inv None (src_run t a f s).
Proof using H Hy.
  intros Hr H1 H2 k Hs Hf. pose proof (m_worker _ _ _ _ _ _ _ _ _ (v_mem _ _ H) t y k a Hy Hs) as (h & Ha & Hk & Hc & Hu). unfold src_run. rewrite Ha.
  apply (inv_goto H t y); [done|done|apply Hf|intros q Hq; by apply H1 in Hq|by apply worker_free|].
  intros k' a' E. destruct (proj2 (Hf h)) as [E'|E']; rewrite E' in E; [done|]. injection E as <- <-. eauto.
Qed.

(** The first of the pending sources is taken. *)
Lemma inv_pop k a l c x x' h h' p :
  running (t_pc y) = true -> (forall k, t_pc y <> PSched k) -> (forall k, t_pc y <> PHnd k) -> t_ctx y = Some c ->
  ctxs s !! c = Some x -> srcs s !! a = Some h -> pend k x = a :: l -> pend k x' = l -> (forall k', k' <> k -> pend k' x' = pend k' x) -> soft x x' -> place_of x' = place_of x -> xok x' ->
  s_kind h' = s_kind h -> s_ctx h' = s_ctx h -> s_ud h' = s_ud h -> epoll_events h' = epoll_events h -> mod_ h' = mod_ h ->
  running p = true -> (src_of p = Some (k, a)) ->
  inv None (goto t p (s <| ctxs ::= <[c := x']> |> <| srcs ::= <[a := h']> |>)).
Proof using H Hy.
  intros Hr Hn1 Hn2 Hc Hx Ha P1 P2 P3 Hs Hpl Hxk F1 F2 F3 F4 F5 Hp Hsrc.
  assert (Hd : doing s !! t = None) by (apply worker_free; done). pose proof H as [A1 A2 A3].
  destruct (m_pend _ _ _ _ _ _ _ _ _ A2 k c x a Hx) as (z & Hz & Z1 & Z2 & Z3 & Z4); [rewrite P1; by left|]. rewrite Ha in Hz. injection Hz as <-.
  pose proof (m_pend_nodup _ _ _ _ _ _ _ _ _ A2 k c x Hx) as Hnd. rewrite P1 in Hnd. apply NoDup_cons in Hnd as [Hna Hnd].
  assert (G : inv None (s <| ctxs ::= <[c := x']> |> <| srcs ::= <[a := h']> |>)).
  { split; [exact (sched_place A1 c x x' Hx Hpl Hxk)| |exact A3]. rewrite <- Z2 in *. apply (mem_source A2 a h h' x x'); try done.
    - intros k' b Hb. left. destruct (decide (k' = k)) as [->|Hne].
      + rewrite P2 in Hb. rewrite P1. split; [by intros ->|by right].
      + rewrite P3 in Hb by done. split; [|done]. intros ->. destruct (m_pend _ _ _ _ _ _ _ _ _ A2 k' (s_ctx h) x a Hx Hb) as (z & Hz & ? & _). congruence.
    - intros k'. destruct (decide (k' = k)) as [->|Hne]; [by rewrite P2|rewrite P3 by done]. apply (m_pend_nodup _ _ _ _ _ _ _ _ _ A2 k' _ x Hx).
    - by left.
    - intros Q. rewrite F1 in Q. rewrite F3, F4, F5. apply (m_dead _ _ _ _ _ _ _ _ _ A2 a h Ha Q).
    - intros k' Hk'. destruct (m_epoll _ _ _ _ _ _ _ _ _ A2 k' a Hk') as (z & Hz & ? & ?). rewrite Ha in Hz. injection Hz as <-. rewrite F4. auto. }
  apply (inv_goto G t y); [done|done|done|intros q Hq; by apply Hn1 in Hq|done|].
  intros k' a' E. rewrite Hsrc in E. injection E as <- <-. exists h'. split; [apply lookup_insert_eq|]. rewrite F1, F2, F3, Z2. done.
Qed.

Lemma inv_ctx_next c : t_pc y = PCtx -> t_ctx y = Some c -> inv None (ctx_next t c s).
Proof using H Hy.
  intros Ht Hc. destruct (inv_awake H t y c Hy) as (x & Hx & _ & _ & _); [by rewrite Ht|done|congruence|]. unfold ctx_next. rewrite Hx.
  pose proof (inv_xok H _ _ Hx) as Hxk. assert (Hr : running (t_pc y) = true) by (by rewrite Ht). assert (Hd : doing s !! t = None) by (apply worker_free; congruence).
  assert (G : forall f p, alike x (f x) -> xok (f x) -> running p = true -> src_of p = None -> inv None (goto t p (ctx_upd c f s))).
  { intros f p F1 F2 Hp Hs. apply (inv_goto (safe_ctx H c x f Hx F1 F2) t y); try done; [by rewrite (proj1 (ctx_upd_frame c f s))|congruence|by rewrite (proj1 (proj2 (ctx_upd_frame c f s)))|congruence]. }
  pose proof (m_pend _ _ _ _ _ _ _ _ _ (v_mem _ _ H)) as Mp.
  destruct (pending_timers x) as [|a l] eqn:Et; [destruct (pending_handlers x) as [|a l] eqn:Eh; [destruct (pending_calls x) as [|k l] eqn:Ec|]|].
  - apply G; [alike_ctx|by destruct x, Hxk|done|done].
  - apply G; [alike_ctx|by destruct x, Hxk|done|done].
  - destruct (Mp Md c x a Hx) as (h & Ha & _); [cbn; rewrite Eh; by left|]. rewrite Ha, (ctx_upd_at _ _ _ _ Hx), (src_upd_at a _ _ h) by done.
    apply (inv_pop Md a l c x _ h); try done; [congruence|congruence|by intros []|by destruct x, Hxk].
  - destruct (Mp Timer c x a Hx) as (h & Ha & _); [cbn; rewrite Et; by left|]. rewrite (ctx_upd_at _ _ _ _ Hx), (src_upd_at a _ _ h) by done.
    apply (inv_pop Timer a l c x _ h); try done; [congruence|congruence|by intros []|by destruct x, Hxk].
Qed.

(** The end of a handler of a descriptor. *)
Lemma inv_rearm a : t_pc y = PRearm a -> inv None (goto t PCtx (md_upd a md_rearm s)).
Proof using H Hy.
  intros Ht. pose proof H as [A1 A2 A3]. pose proof (m_worker _ _ _ _ _ _ _ _ _ A2 t y Md a Hy) as Hw. rewrite Ht in Hw. destruct (Hw eq_refl) as (h & Ha & Hk & Hc & Hu).
  assert (G : inv None (md_upd a md_rearm s)).
  { unfold md_upd. rewrite Ha. destruct (md_rearm h) as [h' o] eqn:E. split; [done| |done]. unfold epoll_ctl. cbn.
    pose proof (m_dead _ _ _ _ _ _ _ _ _ A2 a h Ha Hk) as [M1 M2].
    assert (F : s_kind h' = s_kind h /\ s_ctx h' = s_ctx h /\ s_ud h' = s_ud h /\ s_pending h' = s_pending h /\ epoll_events h' = epoll_events h /\ (mod_ h' = true -> mod_ h = true) /\
                (o = Keep \/ mod_ h = true /\ o = Set_ (epoll_events h))).
    { unfold md_rearm in E. rewrite Hu in E. destruct (mod_ h) eqn:Em; injection E as <- <-; repeat split; auto. intros Q. exact (eq_trans (eq_sym Em) Q). }
    destruct F as (F1 & F2 & F3 & F4 & F5 & F6 & F7). apply (mem_md A2 a h); try done.
    - intros _. rewrite F3, F5. auto.
    - change (kind_eqb Md Md) with true. destruct F7 as [->|[_ ->]]; intros b Hb; [done|]. by rewrite lookup_insert_ne.
    - rewrite F5. destruct F7 as [->|[Em ->]]; [|by intros _; apply M2]. intros Hs. destruct (m_epoll _ _ _ _ _ _ _ _ _ A2 Md a Hs) as (z & Hz & _ & Z2). rewrite Ha in Hz. injection Hz as <-. auto. }
  assert (E : thrs (md_upd a md_rearm s) = thrs s /\ doing (md_upd a md_rearm s) = doing s) by (unfold md_upd; rewrite Ha; by destruct (md_rearm h)).
  destruct E as [E1 E2]. apply (inv_goto G t y); try done; [by rewrite E1|by rewrite Ht|congruence|]. rewrite E2. apply worker_free. congruence.
Qed.

Lemma inv_ctx_sleep c k : t_pc y = PSched k -> t_ctx y = Some c -> inv None (ctx_sleep t c k s).
Proof using H Hy.
  intros Ht Hc. assert (Hr : running (t_pc y) = true) by (by rewrite Ht). destruct (inv_held H t y c Hy Hr Hc) as (x & Hx & Eth & Ee & Ha). pose proof (inv_xok H _ _ Hx) as Hxk.
  assert (Hd : doing s !! t = None) by (apply worker_free; congruence). unfold ctx_sleep. rewrite Hx.
  assert (M : forall x' y', refs x' = refs x -> base x' = base x -> leaked x' = leaked x -> need_free x' = need_free x -> ud x' = ud x -> (forall k, pend k x' = pend k x) -> has_ctx (t_pc y') = true \/ t_pc y' = PTop -> src_of (t_pc y') = None ->
    mem None (<[c := x']> (ctxs s)) (srcs s) (<[t := y']> (thrs s)) (doing s) (epoll s) (events s) (ctx_list s) (tpd s)).
  { intros x' y' F1 F2 F3 F4 F5 F6 G1 G2. destruct H as [A1 A2 A3].
    assert (A2' : mem None (<[c := x']> (ctxs s)) (srcs s) (thrs s) (doing s) (epoll s) (events s) (ctx_list s) (tpd s)) by (apply (mem_ctx A2 c x x'); try done; intros _; left; unfold busy; by rewrite Eth).
    apply (mem_thr A2' t y y'); try done; [|congruence|congruence]. intros c'. rewrite (rel_not c' y) by (left; by rewrite Ht). apply rel_not. tauto. }
  assert (Ho : on y = Some c) by (unfold on; by rewrite Ht). pose proof (v_sched _ _ H) as A1.
  destruct (wakeup x) eqn:Ew.
  - pose (x' := x <| asleep := false |> <| wakeup := false |> <| uc := None |>). pose (y' := y <| t_pc := PHnd k |>).
    assert (A1' : sched (<[c := x']> (ctxs s)) (<[t := y']> (thrs s)) (ctx_queue s) (sleep_threads s)).
    { assert (P1 : place_of x' = Held t) by (apply place_held; by destruct x).
      assert (P2 : xok x') by (clear -Hxk Eth Ee; destruct x, Hxk; cbn in *; subst; split; cbn; auto; done).
      assert (P3 : yok y') by (split; [done|intros _; by exists c|done]).
      destruct Ha as [Ha|(Ha & _)]; [|apply (sched_awake A1 c x x' t y y'); try done; unfold place_of; by rewrite Eth, Ha, Ee, Ew].
      assert (P4 : place_of x = Held t) by (by apply place_held). pose proof (sched_place A1 c x x' Hx (eq_trans P1 (eq_sym P4)) P2) as B.
      apply (sched_thr B t y y'); try done.
      - by rewrite Ho.
      - intros HS. destruct (c_sleep _ _ _ _ A1 t HS) as (z & Hz & Hz' & _). rewrite Hy in Hz. injection Hz as <-. by rewrite Ht in Hz'.
      - intros c' Ho' Hr'. assert (c' = c) as -> by (change (on y') with (t_ctx y) in Ho'; congruence). rewrite (places_at _ c x') in Hr' by apply lookup_insert_eq. congruence. }
    rewrite (ctx_upd_at _ _ _ _ Hx), (goto_at t _ _ y) by done. inv_by A1' (M x' y' eq_refl eq_refl eq_refl eq_refl eq_refl _ _ eq_refl); [by intros []|by left|apply H].
  - destruct Ha as [Ha|(_ & ? & _)]; [|congruence]. pose (x' := x <| uc := Some k |> <| asleep := true |>). pose (y' := y <| t_ctx := None |> <| t_pc := PTop |>).
    assert (A1' : sched (<[c := x']> (ctxs s)) (<[t := y']> (thrs s)) (ctx_queue s) (sleep_threads s)).
    { apply (sched_let_go A1 c x x' t y y'); try done.
      - right. clear -Eth Ee Ew. unfold place_of, x'. destruct x; cbn in *. by subst.
      - clear -Hxk Eth Ee. destruct x, Hxk; cbn in *; subst; split; cbn; auto; done. }
    rewrite (ctx_upd_at _ _ _ _ Hx), (thr_upd_at t _ _ y), (goto_at t _ _ (y <| t_ctx := None |>)) by (done || apply lookup_insert_eq).
    eapply (inv_intro _ _ _ _ _ _ _ _ _ _ _ _ A1' (M x' y' eq_refl eq_refl eq_refl eq_refl eq_refl ltac:(by intros []) ltac:(by right) eq_refl)); try done; [apply H|apply insert_insert_eq].
Qed.

(** A worker runs on with its context. *)
Lemma inv_run p : running (t_pc y) = true -> (forall k, t_pc y <> PSched k) -> doing s !! t = None -> running p = true -> src_of p = None -> inv None (goto t p s).
Proof using H Hy. intros Hr Hn Hd Hp Hs. apply (inv_goto H t y); try done. congruence. Qed.

(** An unregistered context that a worker has is in no table. *)
Lemma unlisted c x :
  running (t_pc y) = true -> (forall k, t_pc y <> PHnd k) -> t_ctx y = Some c -> ctxs s !! c = Some x -> thread x = Some t -> need_free x = true ->
  (c ∉ ctx_list s) /\ (forall u, tpd s !! u <> Some c) /\ (forall a, doing s !! a <> Some (Unlist c)).
Proof using H Hy.
  intros Hr Hn Hc Hx Eth Ef. pose proof H as [A1 A2 A3].
  assert (U : forall a, doing s !! a <> Some (Unlist c)).
  { intros a Ha. destruct (m_unlist _ _ _ _ _ _ _ _ _ A2 a c Ha) as (z & Hz & _ & _ & [Hb|(y' & k & Hy' & Hk & Hc')]); rewrite Hx in Hz; injection Hz as <-.
    - unfold busy in Hb. by rewrite Eth in Hb.
    - destruct (inv_held H a y' c Hy') as (z & Hz & E & _); [by rewrite Hk|done|]. rewrite Hx in Hz. injection Hz as <-. assert (a = t) as -> by congruence. rewrite Hy in Hy'. injection Hy' as <-. by apply Hn in Hk. }
  split; [|split; [|exact U]].
  - intros HL. destruct (m_list _ _ _ _ _ _ _ _ _ A2 c HL) as (z & Hz & _ & Hf). rewrite Hx in Hz. injection Hz as <-. destruct (Hf Ef) as [a Ha]. by apply U in Ha.
  - intros u Hu. destruct (m_tpd _ _ _ _ _ _ _ _ _ A2 u c Hu) as (z & Hz & _ & Hf & _). congruence.
Qed.

Lemma inv_thread_after c : t_pc y = PAfter -> t_ctx y = Some c -> inv None (thread_after t c s).
Proof using H Hy.
  intros Ht Hc. assert (Hr : running (t_pc y) = true) by (by rewrite Ht). destruct (inv_awake H t y c Hy Hr Hc) as (x & Hx & Eth & Ee & Ea); [congruence|].
  assert (Hd : doing s !! t = None) by (apply worker_free; congruence). unfold thread_after. rewrite Hx. pose proof (inv_xok H _ _ Hx) as Hxk.
  destruct (negb (pending x) || need_free x) eqn:E; [|apply inv_run; try done; congruence].
  rewrite (ctx_upd_at _ _ _ _ Hx), (goto_at t _ _ y) by done.
  destruct (x_busy _ Hxk (or_introl (ex_intro _ t Eth))) as [Ei Eb].
  pose (x' := x <| thread := None |> <| base ::= andb (negb (need_free x)) |>). pose (y' := y <| t_pc := PRel (need_free x) |>).
  pose proof H as [A1 A2 A3].
  assert (A1' : sched (<[c := x']> (ctxs s)) (<[t := y']> (thrs s)) (ctx_queue s) (sleep_threads s)).
  { apply (sched_let_go A1 c x x' t y y'); try done.
    - left. apply place_idle. by destruct x.
    - clear -Hxk Eth Ee Ea Eb. destruct x, Hxk; cbn in *; subst; split; cbn; auto; try done; [by intros [[? ?]|?]|by destruct need_free0]. }
  destruct (need_free x) eqn:Ef; [destruct (unlisted c x) as (U1 & U2 & U3); try done; [congruence|]|]; (split; [exact A1'| |done]).
  - apply (mem_after A2 t y y' c x x'); try done. intros c'. apply rel_not. left. by rewrite Ht.
  - assert (A2' : mem None (<[c := x']> (ctxs s)) (srcs s) (thrs s) (doing s) (epoll s) (events s) (ctx_list s) (tpd s)).
    { apply (mem_ctx A2 c x x'); try done. by right. }
    apply (mem_thr A2' t y y'); try done; [|congruence]. intros c'. by rewrite (rel_not c' y) by (left; by rewrite Ht).
Qed.

Lemma inv_rel nf c : t_pc y = PRel nf -> t_ctx y = Some c -> inv None (goto t PClear (if nf : bool then triton_context_release c s else s)).
Proof using H Hy.
  intros Ht Hc. assert (Hd : doing s !! t = None) by (apply worker_free; congruence). pose proof H as [A1 A2 A3].
  pose (y' := y <| t_pc := PClear |>).
  assert (A1' : sched (ctxs s) (<[t := y']> (thrs s)) (ctx_queue s) (sleep_threads s)).
  { apply (sched_thr A1 t y y'); try done; [unfold on; by rewrite Ht|]. intros HS. destruct (c_sleep _ _ _ _ A1 t HS) as (z & Hz & Hz' & _). rewrite Hy in Hz. injection Hz as <-. by rewrite Ht in Hz'. }
  destruct nf.
  - assert (E : goto t PClear (triton_context_release c s) = triton_context_release c (s <| thrs ::= <[t := y']> |>)).
    { unfold triton_context_release. change (ctxs (s <| thrs ::= <[t := y']> |>)) with (ctxs s). destruct (ctxs s !! c) as [x|]; [destruct (Z.eqb _ _)|]; by rewrite (goto_at t _ _ y). }
    rewrite E. apply inv_release. split; [exact A1'| |done]. exact (mem_rel_done A2 t y y' c Hy Ht Hc eq_refl Hd).
  - rewrite (goto_at t _ _ y) by done. split; [exact A1'|apply (mem_thr A2 t y y'); try done|done]; [|congruence].
    intros c'. unfold rel_of. by rewrite Ht.
Qed.

Lemma inv_clear : t_pc y = PClear -> inv None (goto t PTop (thr_upd t (fun y => y <| t_ctx := None |>) s)).
Proof using H Hy.
  intros Ht. assert (Hd : doing s !! t = None) by (apply worker_free; congruence). pose proof H as [A1 A2 A3]. pose (y' := y <| t_ctx := None |> <| t_pc := PTop |>).
  rewrite (thr_upd_at t _ _ y Hy), (goto_at t _ _ (y <| t_ctx := None |>)) by apply lookup_insert_eq.
  assert (A1' : sched (ctxs s) (<[t := y']> (thrs s)) (ctx_queue s) (sleep_threads s)).
  { apply (sched_thr A1 t y y'); try done; [unfold on; by rewrite Ht|]. intros HS. destruct (c_sleep _ _ _ _ A1 t HS) as (z & Hz & Hz' & _). rewrite Hy in Hz. injection Hz as <-. by rewrite Ht in Hz'. }
  assert (A2' : mem None (ctxs s) (srcs s) (<[t := y']> (thrs s)) (doing s) (epoll s) (events s) (ctx_list s) (tpd s)).
  { apply (mem_thr A2 t y y'); try done; [|congruence]. intros c'. unfold rel_of. by rewrite Ht. }
  eapply (inv_intro _ _ _ _ _ _ _ _ _ _ _ _ A1' A2'); try done. apply insert_insert_eq.
Qed.

End Worker.

Lemma wakeup_all_thr s t y : thrs s !! t = Some y -> exists b, thrs (wakeup_all s) !! t = Some (y <| t_sig := b |>).
Proof.
  intros Hy. unfold wakeup_all. assert (Hb : exists b, thrs s !! t = Some (y <| t_sig := b |>)) by (exists (t_sig y); rewrite Hy; by destruct y).
  clear Hy. induction (threads s) as [|u l IH]; [done|]. cbn [fold_right]. destruct IH as [b Eb]. generalize dependent (fold_right triton_thread_wakeup s l).
  intros s' Hs'. unfold triton_thread_wakeup, thr_upd. destruct (decide (u = t)) as [->|Hne].
  - rewrite Hs'. exists true. apply lookup_insert_eq.
  - destruct (thrs s' !! u); [|by exists b]. exists b. cbn. by rewrite lookup_insert_ne.
Qed.

Lemma reloaded_thr s t y : thrs s !! t = Some y -> exists b, thrs (config_reloaded s) !! t = Some (y <| t_sig := b |>).
Proof. intros Hy. unfold config_reloaded. by apply wakeup_all_thr. Qed.

Lemma inv_worker s t s' : inv None s -> worker t s = Some s' -> inv None s'.
Proof.
  intros H E. unfold worker in E. destruct (thrs s !! t) as [y|] eqn:Hy; [|done].
  assert (G : forall p, running (t_pc y) = true -> (forall k, t_pc y <> PSched k) -> (forall k, t_pc y <> PHnd k) -> running p = true -> src_of p = None -> inv None (goto t p s)).
  { intros p P1 P2 P3 P4 P5. apply (inv_run H Hy); try done. by apply (worker_free H Hy). }
  assert (F : forall c f p, running (t_pc y) = true -> (forall k, t_pc y <> PSched k) -> (forall k, t_pc y <> PHnd k) -> t_ctx y = Some c ->
    (forall x, alike x (f x)) -> (forall x, xok x -> xok (f x)) -> running p = true -> src_of p = None -> inv None (goto t p (ctx_upd c f s))).
  { intros c f p P1 P2 P3 P4 P5 P6 P7 P8. destruct (inv_worker_ctx H Hy c P1 P4) as [x Hx]. destruct (ctx_upd_frame c f s) as (E1 & E2 & _).
    apply (fun K => @inv_run _ (safe_ctx H c x f Hx (P5 x) K) t y); try done; [by apply P6, (inv_xok H _ _ Hx)|by rewrite E1|rewrite E2; by apply (worker_free H Hy)]. }
  destruct (t_pc y) eqn:Ep; try (injection E as <-); try (destruct (t_ctx y) as [c|] eqn:Ec; [|done]; injection E as <-).
  - by apply (inv_thread_top H Hy).
  - destruct (reloaded_thr s t y Hy) as [b Hb].
    refine (inv_nap _ Hb PSleep _ eq_refl); [|exact (f_equal napping Ep)]. unfold config_reloaded. apply inv_wakeup_all. by apply (safe_ext None s).
  - destruct (terminate s); [|apply (inv_nap H Hy); by rewrite ?Ep].
    eapply inv_nap; [by apply (safe_ext None s)|exact Hy|by rewrite Ep|done].
  - destruct (t_sig y); [|done]. injection E as <-.
    eapply (inv_nap (inv_sig None s t false H)); [rewrite (thr_upd_at _ _ _ _ Hy); apply lookup_insert_eq|exact (f_equal napping Ep)|done].
  - by apply (inv_thread_woken H Hy).
  - by apply F.
  - by apply (inv_ctx_next H Hy).
  - apply (inv_src_run H Hy) with (k := Timer); rewrite ?Ep; try done. intros z. destruct (s_ud z); auto.
  - apply (inv_src_run H Hy) with (k := Md); rewrite ?Ep; try done. intros z. destruct (wants _ _ _ _); auto.
  - apply (inv_src_run H Hy) with (k := Md); rewrite ?Ep; try done. intros z. destruct (wants _ _ _ _); auto.
  - by apply (inv_rearm H Hy).
  - done.
  - by apply (inv_ctx_sleep H Hy).
  - unfold ctx_close. destruct (inv_worker_ctx H Hy c) as [x Hx]; [by rewrite Ep|done|]. rewrite Hx. apply G; try done; by destruct (_ && _).
  - apply F; try done. intros x []; by destruct x.
  - by apply (inv_thread_after H Hy).
  - by apply (inv_rel H Hy).
  - by apply (inv_clear H Hy).
  - done.
Qed.

Lemma inv_finish s t r s' : inv None s -> finish t r s = Some s' -> inv None s'.
Proof.
  intros H E. unfold finish in E. destruct (thrs s !! t) as [y|] eqn:Hy; [|done]. destruct (doing s !! t) as [o|] eqn:Hd; [done|].
  assert (G : forall p, running (t_pc y) = true -> (forall k, t_pc y <> PSched k) -> running p = true -> src_of p = None -> inv None (goto t p s)) by (intros p P1 P2 P3 P4; by apply (inv_run H Hy)).
  assert (N : forall a p, running (t_pc y) = true -> (forall k, t_pc y <> PSched k) -> running p = true -> src_of p = Some (Md, a) ->
    (if r then Some (goto t PCtx s) else h ← srcs s !! a; if s_ud h && kind_eqb (s_kind h) Md && bool_decide (t_ctx y = Some (s_ctx h)) then Some (goto t p s) else None) = Some s' -> inv None s').
  { intros a p P1 P2 P3 P4 Q. destruct r; [injection Q as <-; by apply G|]. destruct (srcs s !! a) as [h|] eqn:Ha; [|done]. cbn [mbind option_bind] in Q.
    destruct (s_ud h && kind_eqb (s_kind h) Md && bool_decide (t_ctx y = Some (s_ctx h))) eqn:B; [|done]. injection Q as <-.
    apply andb_prop in B as [B B3]. apply andb_prop in B as [B1 B2]. apply bool_decide_eq_true in B2, B3.
    apply (inv_goto H t y); try done. intros k a' Hs. rewrite P4 in Hs. injection Hs as <- <-. eauto. }
  destruct (t_pc y) as [| | | | | | | | | | |k| | | | | | |] eqn:Ep; try done. destruct k; try (injection E as <-; by apply G); [by eapply (N h (PMdWrite h _))|by apply (N h (PRearm h))].
Qed.

End Work.
