(* ===== verification/TritonProps.v ===== *)
(** * The event loop, as it can be used

    The functions of the library and the threads that wait in epoll keep the invariant, so that
    it holds in every state the machine reaches. *)

From stdpp Require Import base tactics list numbers option gmap.
From Stdlib Require Import Btauto.
From S2P Require Import Prelude Triton TritonSched TritonMem TritonSafe TritonWork.

Module Loop.
Import Triton Sched Mem Safe Work.

Local Open Scope Z_scope.

(** ** Descriptors *)

(** What a function on a descriptor may do. *)
Definition md_fine (h h' : source) (o : epoll_op) : Prop :=
  s_kind h' = s_kind h /\ s_ctx h' = s_ctx h /\ s_ud h' = s_ud h /\ s_pending h' = s_pending h /\ (mod_ h' = true -> epoll_events h' <> 0) /\
  match o with Keep => epoll_events h' = 0 -> epoll_events h = 0 | Set_ _ => epoll_events h' <> 0 | Del => True end.

Lemma lor_nonzero a b : b <> 0 -> Z.lor a b <> 0.
Proof. intros Hb [_ E]%Z.lor_eq_0_iff. done. Qed.

Lemma enable_fine mode h : md_ok h -> let '(h', o) := triton_md_enable_handler mode h in md_fine h h' o.
Proof.
  intros Hm. unfold triton_md_enable_handler. set (e := Z.lor _ (if trig_level h then EPOLLONESHOT else EPOLLET)).
  assert (He : e <> 0) by (apply lor_nonzero; by destruct (trig_level h)).
  destruct (epoll_events h =? e) eqn:E1; [apply Z.eqb_eq in E1|destruct (negb (epoll_events h =? 0)); [destruct (armed _)|]]; repeat split; cbn; intros; first [done|by destruct He].
Qed.

Lemma disable_fine mode h : s_kind h = Md -> md_ok h -> let '(h', o) := triton_md_disable_handler mode h in md_fine h h' o.
Proof.
  intros Hk Hm. destruct (Hm Hk) as [_ Hm']. unfold triton_md_disable_handler. destruct (epoll_events h =? 0) eqn:E0; [by repeat split|].
  set (e := if has _ (Z.lor EPOLLIN EPOLLOUT) then _ else 0). apply Z.eqb_neq in E0.
  destruct (epoll_events h =? e) eqn:E1; [apply Z.eqb_eq in E1|destruct (Z.eqb_spec e 0) as [E2|E2]; cbn [negb]; [|destruct (armed _)]].
  - repeat split; cbn; try done; rewrite <- E1; auto.
  - repeat split; cbn; intros; done.
  - repeat split; cbn; intros; first [done|by destruct E2].
  - repeat split; cbn; intros; first [done|by destruct E2].
Qed.

(** [triton_md_unregister_handler] takes both modes away. *)
Lemma disable_all h : s_kind h = Md -> md_ok h ->
  let '(h', o) := triton_md_disable_handler (Z.lor MD_MODE_READ MD_MODE_WRITE) h in
  md_fine h h' o /\ epoll_events h' = 0 /\ mod_ h' = false /\ trig_epoll_events h' = trig_epoll_events h.
Proof.
  intros Hk Hm. pose proof (disable_fine (Z.lor MD_MODE_READ MD_MODE_WRITE) h Hk Hm) as F. destruct (Hm Hk) as [_ Hm'].
  unfold triton_md_disable_handler in *. destruct (Z.eqb_spec (epoll_events h) 0) as [E0|E0].
  { repeat split; try apply F; try done. destruct (mod_ h); [by destruct (Hm' eq_refl)|done]. }
  change (has (Z.lor MD_MODE_READ MD_MODE_WRITE) MD_MODE_READ) with true in *. change (has (Z.lor MD_MODE_READ MD_MODE_WRITE) MD_MODE_WRITE) with true in *.
  assert (E : has (Z.ldiff (Z.ldiff (epoll_events h) EPOLLIN) EPOLLOUT) (Z.lor EPOLLIN EPOLLOUT) = false).
  { unfold has. apply negb_false_iff, Z.eqb_eq, Z.bits_inj'. intros n _. rewrite Z.land_spec, !Z.ldiff_spec, Z.lor_spec, Z.bits_0. btauto. }
  cbv zeta iota beta in F |- *. rewrite E in F |- *. rewrite (proj2 (Z.eqb_neq _ 0) E0) in F |- *. cbn [negb Z.eqb] in F |- *. done.
Qed.

Lemma epoll_at k a o s j :
  epoll (epoll_ctl k a o s) j = if kind_eqb j k then (match o with Keep => id | Set_ m => <[a := m]> | Del => delete a end) (epoll s j) else epoll s j.
Proof. done. Qed.

Lemma inv_md s a h f :
  inv None s -> srcs s !! a = Some h -> s_kind h = Md -> s_ud h = true -> (let '(h', o) := f h in md_fine h h' o) -> inv None (md_upd a f s).
Proof.
  intros [A1 A2 A3] Ha Hk Hu Hf. unfold md_upd. rewrite Ha. destruct (f h) as [h' o]. destruct Hf as (F1 & F2 & F3 & F4 & F5 & F6).
  split; [done| |done]. apply (mem_md A2 a h); try done.
  - intros _. split; [congruence|done].
  - intros b Hb. rewrite epoll_at. change (kind_eqb Md Md) with true. destruct o; [done|by rewrite lookup_insert_ne|by rewrite lookup_delete_ne].
  - rewrite epoll_at. change (kind_eqb Md Md) with true. destruct o; [|done|].
    + intros Hs E. destruct (m_epoll _ _ _ _ _ _ _ _ _ A2 Md a Hs) as (z & Hz & _ & Z2). rewrite Ha in Hz. injection Hz as <-. by apply Z2, F6.
    + cbn. rewrite lookup_delete_eq. by intros [? ?].
Qed.

Lemma inv_on_source s a f s' :
  inv None s -> (forall h, s_kind h = Md -> md_ok h -> let '(h', o) := f h in md_fine h h' o) -> on_source a f s = Some s' -> inv None s'.
Proof.
  intros H Hf E. unfold on_source in E. destruct (srcs s !! a) as [h|] eqn:Ha; [|done]. cbn [mbind option_bind] in E.
  destruct (s_ud h && kind_eqb (s_kind h) Md) eqn:B; [|done]. injection E as <-. apply andb_prop in B as [B1 B2]. apply bool_decide_eq_true in B2.
  apply (inv_md s a h); try done. apply Hf; [done|]. exact (m_dead _ _ _ _ _ _ _ _ _ (v_mem _ _ H) a h Ha).
Qed.

(** ** Functions on contexts *)

Lemma inv_register s u c : inv None s -> ctxs s !! c = None -> tpd s !! u = None -> inv None (triton_context_register u c s).
Proof.
  intros [A1 A2 A3] Hc Hu. split; [|exact (mem_register A2 u c Hc Hu)|done]. apply (sched_new A1 c (new_ctx u) Hc eq_refl).
  split; cbn; try done; [|unfold CTX_PRIO_MAX; lia]. by intros [[? ?]|?].
Qed.

Lemma owns_iff a c s :
  owns a c s = true -> exists x, ctxs s !! c = Some x /\ (busy x = false \/ thread x = Some a /\ exists y, thrs s !! a = Some y /\ t_ctx y = Some c).
Proof.
  unfold owns. destruct (ctxs s !! c) as [x|]; [|done]. intros E. exists x. split; [done|]. unfold busy. destruct (thread x) as [t|].
  - right. apply andb_prop in E as [->%Nat.eqb_eq E]. split; [done|]. destruct (thrs s !! a) as [y|]; [|done]. apply bool_decide_eq_true in E. eauto.
  - left. cbn. by apply negb_true_iff.
Qed.

Lemma inv_unregister s a u c :
  inv None s -> may_call a s = true -> tpd s !! u = Some c -> owns a c s = true ->
  inv None (let '(go, s) := triton_context_unregister u c s in if go : bool then does a (Unlist c) s else s).
Proof.
  intros H [Hd Hp]%may_call_iff Hu (x & Hx & Hb)%owns_iff. unfold triton_context_unregister. rewrite Hx. pose proof (inv_xok H _ _ Hx) as Hxk.
  pose (x0 := x <| pending_calls := [] |> <| cut := true |>). change (x <| pending_calls := [] |> <| cut := true |>) with x0. cbv zeta.
  assert (N : inv None (s <| ctxs ::= <[c := x0]> |>)).
  { assert (G : inv None (ctx_upd c (fun x => x <| pending_calls := [] |> <| cut := true |>) s)) by (apply (safe_ctx H c x _ Hx); [alike_ctx|by destruct x, Hxk]).
    rewrite (ctx_upd_at _ _ _ _ Hx) in G. exact G. }
  destruct (handlers x0), (pending_handlers x0), (timers x0), (pending_timers x0); try exact N.
  pose (x' := x0 <| need_free := true |>). destruct H as [A1 A2 A3].
  assert (B : sched (<[c := x']> (ctxs s)) (thrs s) (ctx_queue s) (sleep_threads s)) by (apply (sched_place A1 c x x'); try done; by destruct x, Hxk).
  split; [exact B| |done]. apply (mem_unregister A2 a u c x x'); try done.
  destruct Hb as [Hb|(_ & y & Hy & Hc)]; [by left|right]. destruct (Hp y Hy) as [k Hk]. eauto.
Qed.

Lemma inv_priority s c x p : inv None s -> ctxs s !! c = Some x -> inv None (triton_context_set_priority c p s).
Proof.
  intros H Hx. unfold triton_context_set_priority. destruct (Nat.ltb_spec p CTX_PRIO_MAX); [|done].
  apply (safe_ctx H c x _ Hx); [alike_ctx|]. destruct (inv_xok H _ _ Hx). by destruct x.
Qed.

Lemma inv_schedule s t s' : inv None s -> may_call t s = true -> triton_context_schedule t s = Some s' -> inv None s'.
Proof.
  intros H [Hd Hp]%may_call_iff E. unfold triton_context_schedule in E. destruct (thrs s !! t) as [y|] eqn:Hy; [|done]. cbn [mbind option_bind] in E.
  destruct (t_ctx y) as [c|]; [|done]. cbn [mbind option_bind] in E. destruct (ctxs s !! c) as [x|]; [|done]. cbn [mbind option_bind] in E.
  destruct (Hp y eq_refl) as [k Hk]. rewrite Hk in E. destruct (need_free x); injection E as <-; [done|]. apply (inv_run H Hy); try done; by rewrite Hk.
Qed.

Lemma inv_reload s a : inv None s -> may_call a s = true -> inv None (triton_conf_reload a s).
Proof.
  intros [A1 A2 A3] [Hd Hp]%may_call_iff. unfold triton_conf_reload. cbv zeta. destruct (_ =? 0); (split; [done| |done]); [exact (mem_plain A2 a Hd Hp)|done].
Qed.

Lemma inv_ask_close s c : inv None s -> c ∈ ctx_list s -> inv None (ask_close c s).
Proof.
  intros H HL. destruct (m_list _ _ _ _ _ _ _ _ _ (v_mem _ _ H) c HL) as (x & Hx & _). unfold ask_close.
  assert (G : inv None (ctx_upd c (fun x => x <| need_close := true |>) s)) by (apply (safe_ctx H c x _ Hx); [alike_ctx|]; destruct (inv_xok H _ _ Hx); by destruct x).
  assert (L : is_Some (ctxs (ctx_upd c (fun x => x <| need_close := true |>) s) !! c)) by (rewrite (ctx_upd_at _ _ _ _ Hx); eexists; apply lookup_insert_eq).
  pose proof (inv_queue _ _ c G L) as Q. destruct (triton_queue_ctx _ _) as [[t|] s']; [by apply inv_wakeup|done].
Qed.

(** ** Sources *)

Lemma inv_source_add s k c x a : inv None s -> ctxs s !! c = Some x -> srcs s !! a = None -> inv None (source_add k c a s).
Proof.
  intros H Hx Ha. pose proof (inv_xok H _ _ Hx) as Hxk. destruct H as [A1 A2 A3]. unfold source_add. rewrite (ctx_upd_at c _ _ x) by done.
  pose (x' := add_source k a (x <| refs ::= Z.add 1 |>)).
  assert (B : sched (<[c := x']> (ctxs s)) (thrs s) (ctx_queue s) (sleep_threads s)) by (apply (sched_place A1 c x x' Hx); destruct k; try done; by destruct x, Hxk).
  split; [exact B| |done]. apply (mem_source_new A2 k c x x' a); try done; try by destruct k.
  intros k' a' Hs. rewrite epoll_at in Hs. unfold kind_eqb in Hs. case_bool_decide as Hk; [subst k'|by left]. destruct k; [by left|]. cbn in Hs.
  destruct (decide (a' = a)) as [->|Hne]; [by right|]. rewrite lookup_insert_ne in Hs by done. by left.
Qed.

Lemma inv_timer_add_fails s c x : inv None s -> ctxs s !! c = Some x -> inv None (timer_add_fails c s).
Proof.
  intros H Hx. pose proof (inv_xok H _ _ Hx) as Hxk. destruct H as [A1 A2 A3]. unfold timer_add_fails. rewrite (ctx_upd_at _ _ _ _ Hx).
  split; [|exact (mem_leak A2 c x _ Hx eq_refl)|done]. apply (sched_place A1 c x); [done|done|by destruct x, Hxk].
Qed.

(** A source is taken out of the lists of its context. *)
Definition source_out (a : nat) (h : source) (s : state) : state :=
  let s := src_upd a (fun h => h <| s_ud := false |>) s in
  let s := ctx_upd (s_ctx h) (del_source (s_kind h) a) s in
  if s_pending h then ctx_upd (s_ctx h) (del_pending (s_kind h) a) s else s.

Lemma inv_source_out s a h x :
  inv None s -> srcs s !! a = Some h -> s_ud h = true -> (s_kind h = Md -> epoll_events h = 0) -> ctxs s !! s_ctx h = Some x ->
  (forall t y k, thrs s !! t = Some y -> src_of (t_pc y) <> Some (k, a)) ->
  inv None (source_out a h s) /\ srcs (source_out a h s) = <[a := h <| s_ud := false |>]> (srcs s) /\
    thrs (source_out a h s) = thrs s /\ doing (source_out a h s) = doing s /\ events (source_out a h s) = events s.
Proof.
  intros H Ha Hu He Hx Hw. pose proof (inv_xok H _ _ Hx) as Hxk. destruct H as [A1 A2 A3].
  pose (h' := h <| s_ud := false |>). pose (x' := let x := del_source (s_kind h) a x in if s_pending h then del_pending (s_kind h) a x else x).
  assert (Sx : soft x x' /\ place_of x' = place_of x /\ xok x' /\ (forall k, pend k x' = if s_pending h && kind_eqb k (s_kind h) then list_del a (pend k x) else pend k x)).
  { unfold x'. destruct (s_pending h), (s_kind h); (split; [done|split; [done|split; [by destruct x, Hxk|by intros []]]]). }
  destruct Sx as (S1 & S2 & S3 & S4).
  assert (Hin : forall k b, b ∈ pend k x' -> b <> a /\ b ∈ pend k x).
  { intros k b. rewrite S4. destruct (s_pending h && kind_eqb k (s_kind h)) eqn:E; [by rewrite elem_list_del|]. intros Hb. split; [|done]. intros ->.
    destruct (m_pend _ _ _ _ _ _ _ _ _ A2 k _ x a Hx Hb) as (z & Hz & Z1 & _ & _ & Z4). rewrite Ha in Hz. injection Hz as <-. rewrite Z4 in E. unfold kind_eqb in E. by rewrite bool_decide_eq_true_2 in E. }
  assert (A2' : mem None (<[s_ctx h := x']> (ctxs s)) (<[a := h']> (srcs s)) (thrs s) (doing s) (epoll s) (events s) (ctx_list s) (tpd s)).
  { apply (mem_source A2 a h h' x x'); try done.
    - intros k b Hb. left. by apply Hin.
    - intros k. rewrite S4. pose proof (m_pend_nodup _ _ _ _ _ _ _ _ _ A2 k _ x Hx). destruct (_ && _); [by apply NoDup_filter|done].
    - by right.
    - intros Hk. split; [intros _; by apply He|]. intros Hm. exfalso. destruct (m_dead _ _ _ _ _ _ _ _ _ A2 a h Ha Hk) as [_ M]. by apply (M Hm), He.
    - intros k Hk. destruct (m_epoll _ _ _ _ _ _ _ _ _ A2 k a Hk) as (z & Hz & <- & ?). rewrite Ha in Hz. by injection Hz as <-. }
  pose proof (sched_place A1 _ x x' Hx S2 S3) as A1'. unfold source_out. rewrite (src_upd_at _ _ _ _ Ha), (ctx_upd_at (s_ctx h) (del_source (s_kind h) a) _ x) by done. cbv zeta.
  assert (K : forall s', ctxs s' = <[s_ctx h := x']> (ctxs s) -> thrs s' = thrs s -> ctx_queue s' = ctx_queue s -> sleep_threads s' = sleep_threads s -> srcs s' = <[a := h']> (srcs s) -> doing s' = doing s -> epoll s' = epoll s ->
    events s' = events s -> ctx_list s' = ctx_list s -> tpd s' = tpd s -> uaf s' = uaf s -> inv None s' /\ srcs s' = <[a := h']> (srcs s) /\ thrs s' = thrs s /\ doing s' = doing s /\ events s' = events s).
  { intros. split; [|done]. eapply (inv_intro _ _ _ _ _ _ _ _ _ _ _ _ A1' A2'); congruence. }
  destruct (s_pending h); apply K; try done; rewrite (ctx_upd_at (s_ctx h) _ _ (del_source (s_kind h) a x)) by apply lookup_insert_eq; try done. apply insert_insert_eq.
Qed.

(** No worker is about to use a source of a context that the caller owns. *)
Lemma owned_unused s g a h t y k :
  inv None s -> may_call g s = true -> srcs s !! a = Some h -> owns g (s_ctx h) s = true -> thrs s !! t = Some y -> src_of (t_pc y) <> Some (k, a).
Proof.
  intros H [Hd Hp]%may_call_iff Ha (x & Hx & Hb)%owns_iff Hy Hs. destruct (m_worker _ _ _ _ _ _ _ _ _ (v_mem _ _ H) t y k a Hy Hs) as (z & Hz & _ & Hc & _).
  rewrite Ha in Hz. injection Hz as <-. assert (Hr : running (t_pc y) = true) by (by destruct (t_pc y)).
  destruct (inv_held H t y _ Hy Hr Hc) as (x' & Hx' & Et & _). rewrite Hx in Hx'. injection Hx' as <-. destruct Hb as [Hb|[Hb _]]; [unfold busy in Hb; by rewrite Et in Hb|].
  assert (g = t) as -> by congruence. destruct (Hp y Hy) as [q Hq]. by rewrite Hq in Hs.
Qed.

Lemma inv_source_del s g a h :
  inv None s -> may_call g s = true -> srcs s !! a = Some h -> s_ud h = true -> owns g (s_ctx h) s = true -> inv None (does g (FreeLater a) (source_del a s)).
Proof.
  intros H Hg Ha Hu Ho. pose proof (fun t y k => owned_unused s g a h t y k H Hg Ha Ho) as Hw. destruct (may_call_iff _ _ Hg) as [Hd Hp].
  assert (E : exists s1 h1, source_del a s = source_out a h1 s1 /\ inv None s1 /\ srcs s1 !! a = Some h1 /\ s_kind h1 = s_kind h /\ s_ctx h1 = s_ctx h /\ s_ud h1 = true /\
    (s_kind h1 = Md -> epoll_events h1 = 0) /\ ctxs s1 = ctxs s /\ thrs s1 = thrs s /\ doing s1 = doing s /\ events s1 = events s).
  { unfold source_del. rewrite Ha. destruct (s_kind h) eqn:Hk; [|exists s, h; unfold source_out; rewrite Hk; by split_and!].
    pose proof (m_dead _ _ _ _ _ _ _ _ _ (v_mem _ _ H) a h Ha) as Md'. pose proof (disable_all h Hk Md') as D.
    pose (f := triton_md_disable_handler (Z.lor MD_MODE_READ MD_MODE_WRITE)). fold f in D |- *.
    assert (G : inv None (md_upd a f s)) by (apply (inv_md s a h); try done; by destruct (f h) as [h1 o], D).
    unfold md_upd in *. rewrite Ha in *. destruct (f h) as [h1 o]. destruct D as ((D1 & D2 & D3 & D4 & _) & D5 & D6 & _).
    eexists _, h1. split; [|split; [exact G|split; [apply lookup_insert_eq|]]]; [unfold source_out; by rewrite <- D4, <- D2, D1, Hk|].
    rewrite D1, D2, D3. by split_and!. }
  destruct E as (s1 & h1 & -> & G & Ha1 & K1 & K2 & K3 & K4 & K5 & K6 & K7 & K8).
  destruct (m_src _ _ _ _ _ _ _ _ _ (v_mem _ _ G) a h1 Ha1) as [x Hx].
  destruct (inv_source_out s1 a h1 x G Ha1 K3 K4 Hx) as (I & E1 & E2 & E3 & E4); [by rewrite K6|]. destruct I as [A1 A2 A3]. pose proof (v_mem _ _ H) as M.
  split; [done| |done]. cbn. apply (mem_later_new A2 g a (h1 <| s_ud := false |>)); try done.
  - by rewrite E3, K7.
  - rewrite E2, K6. done.
  - rewrite E1. apply lookup_insert_eq.
  - rewrite E4, K8. intros Hf. destruct (m_freed _ _ _ _ _ _ _ _ _ M _ a Hf) as (z & Hz & _ & Z). congruence.
  - intros g'. rewrite E3, K7. intros Hf. destruct (m_later _ _ _ _ _ _ _ _ _ M _ a Hf) as (z & Hz & Z & _). congruence.
Qed.

Lemma inv_api s a r s' : inv None s -> api a r s = Some s' -> inv None s'.
Proof.
  intros H E. unfold api in E. destruct (may_call a s) eqn:Hm; [|done]. cbn [negb] in E.
  assert (Hl : forall u c, tpd s !! u = Some c -> exists x, ctxs s !! c = Some x) by (intros u c Hu; destruct (m_tpd _ _ _ _ _ _ _ _ _ (v_mem _ _ H) u c Hu) as (x & Hx & _); eauto).
  destruct r as [u c|u|u p|u k|u f|u| | | |c|k u b|u|b|b mode|b mode|b level].
  - case_bool_decide as B; [|done]. injection E as <-. destruct B. by apply inv_register.
  - destruct (tpd s !! u) as [c|] eqn:Hu; [|by injection E as <-]. destruct (owns a c s) eqn:Ho; [|done]. cbn [negb] in E. pose proof (inv_unregister s a u c H Hm Hu Ho) as G.
    destruct (triton_context_unregister u c s) as [go s1]. by injection E as <-.
  - destruct (tpd s !! u) as [c|] eqn:Hu; injection E as <-; [|done]. destruct (Hl u c Hu) as [x Hx]. by apply (inv_priority s c x).
  - injection E as <-. by apply inv_with_live.
  - injection E as <-. by apply inv_with_live.
  - injection E as <-. by apply inv_with_live.
  - by apply (inv_schedule s a).
  - injection E as <-. by apply inv_reload.
  - injection E as <-. by apply (safe_ext None s).
  - case_bool_decide as B; [|done]. injection E as <-. by apply inv_ask_close.
  - destruct (tpd s !! u) as [c|] eqn:Hu; [|by injection E as <-]. case_bool_decide as B; [|done]. injection E as <-. destruct (Hl u c Hu) as [x Hx]. by apply (inv_source_add s k c x).
  - destruct (tpd s !! u) as [c|] eqn:Hu; injection E as <-; [|done]. destruct (Hl u c Hu) as [x Hx]. by apply (inv_timer_add_fails s c x).
  - destruct (srcs s !! b) as [h|] eqn:Hb; [|done]. cbn [mbind option_bind] in E. destruct (s_ud h && owns a (s_ctx h) s) eqn:B; [|done]. injection E as <-.
    apply andb_prop in B as [B1 B2]. by apply (inv_source_del s a b h).
  - apply (inv_on_source s b _ s' H) in E; [done|]. intros h _. apply enable_fine.
  - apply (inv_on_source s b _ s' H) in E; [done|]. intros h Hk. by apply disable_fine.
  - apply (inv_on_source s b _ s' H) in E; [done|]. intros h Hk Hok. destruct (Hok Hk). by repeat split.
Qed.

(** ** The threads that wait in epoll *)

Lemma events_at k f s j : events (ev_upd k f s) j = if kind_eqb j k then f (events s j) else events s j.
Proof. done. Qed.
Lemma events_same k f s : events (ev_upd k f s) k = f (events s k).
Proof. rewrite events_at. unfold kind_eqb. by rewrite bool_decide_eq_true_2. Qed.

(** The thread of a kind goes on; the batch may only shrink, or come from epoll. *)
Lemma inv_ev s k f :
  inv None s -> (forall a, a ∈ batch (e_pc (f (events s k))) -> a ∈ batch (e_pc (events s k)) \/ is_Some (epoll s k !! a)) ->
  Permutation (freed (f (events s k))) (freed (events s k)) -> inv None (ev_upd k f s).
Proof.
  intros [A1 A2 A3] Hb Hf. split; [done| |done]. apply (mem_events A2); intros j; rewrite events_at; unfold kind_eqb; case_bool_decide; subst; auto.
Qed.

Lemma batch_tail (a : nat) p l : a ∈ batch (EBatch l) -> a ∈ batch (EBatch (p :: l)).
Proof. cbn. by right. Qed.

(** A source becomes pending. *)
Lemma inv_trigger s k a h x ev :
  inv None s -> srcs s !! a = Some h -> s_kind h = k -> s_ud h = true -> ctxs s !! s_ctx h = Some x ->
  let h' := h <| trig_epoll_events ::= trig k ev |> <| s_pending := true |> in
  inv None (s <| srcs ::= <[a := h']> |> <| ctxs ::= <[s_ctx h := if s_pending h then x else add_pending k a x]> |>).
Proof.
  intros H Ha Hk Hu Hx h'. pose proof (inv_xok H _ _ Hx) as Hxk. destruct H as [A1 A2 A3]. pose (x' := if s_pending h then x else add_pending k a x).
  assert (Sx : soft x x' /\ place_of x' = place_of x /\ xok x' /\ (forall j, pend j x' = if negb (s_pending h) && kind_eqb j k then pend j x ++ [a] else pend j x)).
  { unfold x'. destruct (s_pending h), k; (split; [done|split; [done|split; [by destruct x, Hxk|by intros []]]]). }
  destruct Sx as (S1 & S2 & S3 & S4). split; [exact (sched_place A1 _ x x' Hx S2 S3)| |done]. apply (mem_source A2 a h h' x x'); try done.
  - intros j b. rewrite S4. intros Hb. assert (D : b = a /\ j = k \/ b ∈ pend j x).
    { destruct (negb _ && kind_eqb j k) eqn:B; [|by right]. apply andb_prop in B as [_ B]. apply bool_decide_eq_true in B. apply elem_of_app in Hb as [Hb|Hb%list_elem_of_singleton]; auto. }
    destruct D as [[-> ->]|D]; [right; by split_and!|]. destruct (decide (b = a)) as [->|]; [right|by left].
    destruct (m_pend _ _ _ _ _ _ _ _ _ A2 j _ x a Hx D) as (z & Hz & Z & _). rewrite Ha in Hz. injection Hz as <-. by split_and!.
  - intros j. rewrite S4. pose proof (m_pend_nodup _ _ _ _ _ _ _ _ _ A2 j _ x Hx) as N. destruct (negb _ && kind_eqb j k) eqn:B; [|done]. apply andb_prop in B as [B _]. apply negb_true_iff in B.
    apply NoDup_app. split; [done|]. split; [|apply NoDup_singleton]. intros b Hb Hb'%list_elem_of_singleton. subst b. by apply (src_not_pending A2 a h j _ x Ha (or_introl B) Hx).
  - by left.
  - intros Hk'. exact (m_dead _ _ _ _ _ _ _ _ _ A2 a h Ha Hk').
  - intros j Hj. destruct (m_epoll _ _ _ _ _ _ _ _ _ A2 j a Hj) as (z & Hz & Z & Z'). rewrite Ha in Hz. by injection Hz as <-.
Qed.

Lemma inv_event_one s k a ev l : inv None s -> e_pc (events s k) = EBatch ((a, ev) :: l) -> inv None (event_one k a ev l s).
Proof.
  intros H He. assert (Hin : a ∈ batch (e_pc (events s k))) by (rewrite He; by left).
  destruct (m_batch _ _ _ _ _ _ _ _ _ (v_mem _ _ H) k a Hin) as (h & Ha & Hk). unfold event_one. rewrite Ha.
  assert (N : forall s1 p, inv None s1 -> events s1 = events s -> p = EBatch l \/ p = ESig a l -> inv None (ev_upd k (fun e => e <| e_pc := p |>) s1)).
  { intros s1 p G E Hp. apply inv_ev; [done| |done]. rewrite E, He. intros b Hb. left. destruct Hp as [->| ->]; [by apply batch_tail|done]. }
  destruct (s_ud h) eqn:Hu; cbn [negb]; [|apply N; auto]. destruct (m_src _ _ _ _ _ _ _ _ _ (v_mem _ _ H) a h Ha) as [x Hx]. cbv zeta.
  pose proof (inv_trigger s k a h x ev H Ha Hk Hu Hx) as G. cbv zeta in G. rewrite (src_upd_at _ _ _ _ Ha). destruct (s_pending h).
  - apply N; [|done|by left]. apply (safe_ext None _ _ G); try done. symmetry. by apply insert_id.
  - rewrite (ctx_upd_at (s_ctx h) _ _ x) by done.
    match type of G with inv None ?s1 => set (s2 := s1) in * end. destruct (queue_frame (s_ctx h) s2) as (_ & _ & Q & _).
    pose proof (inv_queue None s2 (s_ctx h) G) as G'. destruct (triton_queue_ctx (s_ctx h) s2) as [r s3]. apply N; [apply G'; eexists; apply lookup_insert_eq|done|]. destruct r; auto.
Qed.

Lemma inv_event_signal s k a l : inv None s -> e_pc (events s k) = ESig a l -> inv None (event_signal k a l s).
Proof.
  intros H He. assert (Hin : a ∈ batch (e_pc (events s k))) by (rewrite He; by left).
  destruct (m_batch _ _ _ _ _ _ _ _ _ (v_mem _ _ H) k a Hin) as (h & Ha & Hk). unfold event_signal. rewrite Ha. destruct (m_src _ _ _ _ _ _ _ _ _ (v_mem _ _ H) a h Ha) as [x Hx]. rewrite Hx.
  assert (G : inv None (match thread x with Some t => triton_thread_wakeup t s | None => s end) /\ events (match thread x with Some t => triton_thread_wakeup t s | None => s end) = events s).
  { destruct (thread x) as [t|]; [|done]. split; [by apply inv_wakeup|]. unfold triton_thread_wakeup, thr_upd. by destruct (thrs s !! t). }
  destruct G as [G E]. apply inv_ev; [done| |done]. rewrite E, He. intros b Hb. left. by right.
Qed.

Lemma ev_release k f c s : ev_upd k f (triton_context_release c s) = triton_context_release c (ev_upd k f s).
Proof. unfold triton_context_release. change (ctxs (ev_upd k f s)) with (ctxs s). destruct (ctxs s !! c) as [x|]; [destruct (Z.eqb _ _)|]; reflexivity. Qed.

Lemma inv_event_free s k : inv None s -> e_pc (events s k) = EFree -> inv None (event_free k s).
Proof.
  intros H He. unfold event_free. destruct (freed_list2 (events s k)) as [|a l] eqn:Ef.
  { apply inv_ev; [done|by intros b ?%elem_of_nil|]. unfold freed. cbn. by rewrite Ef, app_nil_r. }
  destruct (m_freed _ _ _ _ _ _ _ _ _ (v_mem _ _ H) k a) as (h & Ha & Hk & _); [unfold freed; rewrite Ef; by left|]. rewrite Ha.
  pose (s1 := ev_upd k (fun e => e <| freed_list2 := l |>) (match k with Md => s | Timer => epoll_ctl k a Del s end <| srcs ::= delete a |>)).
  assert (E : ev_upd k (fun e => e <| freed_list2 := l |>) (triton_context_release (s_ctx h) (match k with Md => s | Timer => epoll_ctl k a Del s end <| srcs ::= delete a |>)) = triton_context_release (s_ctx h) s1).
  { apply ev_release. }
  cbv zeta. rewrite E. apply inv_release. destruct H as [A1 A2 A3].
  assert (F : ctxs s1 = ctxs s /\ thrs s1 = thrs s /\ ctx_queue s1 = ctx_queue s /\ sleep_threads s1 = sleep_threads s /\ doing s1 = doing s /\ ctx_list s1 = ctx_list s /\ tpd s1 = tpd s /\ uaf s1 = uaf s /\ srcs s1 = delete a (srcs s)) by (by destruct k).
  destruct F as (F1 & F2 & F3 & F4 & F5 & F6 & F7 & F8 & F9).
  assert (F10 : forall j, events s1 j = if kind_eqb j k then (events s j) <| freed_list2 := l |> else events s j) by (by destruct k).
  split; [by rewrite F1, F2, F3, F4| |congruence]. rewrite F1, F2, F5, F6, F7, F9. apply (mem_source_free A2 k a h l); try done.
  - intros j Hj. rewrite F10. unfold kind_eqb. by rewrite bool_decide_eq_false_2.
  - rewrite F10. unfold kind_eqb. by rewrite bool_decide_eq_true_2.
  - rewrite F10. unfold kind_eqb. by rewrite bool_decide_eq_true_2.
  - rewrite F10. unfold kind_eqb. rewrite bool_decide_eq_true_2 by done. cbn. change (match events s k with mk_event p _ _ => p end) with (e_pc (events s k)). by rewrite He.
  - intros j b Hb. destruct k.
    + change (epoll s1) with (epoll s) in Hb. split; [done|]. intros [-> ->]. destruct (m_epoll _ _ _ _ _ _ _ _ _ A2 Timer a Hb) as (z & Hz & Z & _). congruence.
    + change (epoll s1) with (epoll (epoll_ctl Timer a Del s)) in Hb. rewrite epoll_at in Hb. unfold kind_eqb in Hb. case_bool_decide as Hj; [|split; [done|by intros [_ ?]]].
      cbn in Hb. destruct (decide (b = a)) as [->|Hne]; [rewrite lookup_delete_eq in Hb; by destruct Hb|]. rewrite lookup_delete_ne in Hb by done. split; [done|by intros [? _]].
Qed.

Lemma inv_epoll_wait s k l s' : inv None s -> epoll_wait k l s = Some s' -> inv None s'.
Proof.
  intros H E. unfold epoll_wait in E. destruct (e_pc (events s k)) eqn:He; try done. destruct (forallb _ l) eqn:B; [|done]. injection E as <-. apply inv_ev; [done| |done].
  intros a Ha. right. cbn in Ha. apply list_elem_of_fmap in Ha as ([b ev] & -> & Hin). rewrite forallb_forall in B. apply list_elem_of_In in Hin. by apply B, bool_decide_eq_true in Hin.
Qed.

(** ** Every state that is reached *)

Lemma inv_act s x s' : inv None s -> act x s = Some s' -> inv None s'.
Proof.
  intros H E. destruct x as [t|t r|a r|a ok|k l|k]; cbn [act] in E.
  - by apply (inv_worker s t).
  - by apply (inv_finish s t r).
  - by apply (inv_api s a r).
  - by apply (inv_continue s a ok).
  - by apply (inv_epoll_wait s k l).
  - unfold event_step in E. destruct (e_pc (events s k)) as [|[|[a ev] l]|a l|] eqn:He; [done| | | |]; injection E as <-.
    + apply inv_ev; [done| |done]. by intros a ?%elem_of_nil.
    + by apply inv_event_one.
    + by apply inv_event_signal.
    + by apply inv_event_free.
Qed.

Lemma started_thr n t y : thrs (started n) !! t = Some y -> y = mk_thread PTop None false (fun _ => []).
Proof.
  cbn. intros Hy%elem_of_list_to_map_2. apply list_elem_of_fmap in Hy as (u & E & _). congruence.
Qed.

(** Workers that have not begun yet, and nothing else. *)
Lemma sched_initial T : (forall t y, T !! t = Some y -> y = mk_thread PTop None false (fun _ => [])) -> sched ∅ T (fun _ => []) [].
Proof.
  intros HT.
  assert (O : forall t, ons T t = None) by (intros t; unfold ons; destruct (T !! t) as [y|] eqn:Hy; [by rewrite (HT _ _ Hy)|done]).
  assert (W : forall t p, wakes T t p = []) by (intros t p; unfold wakes; destruct (T !! t) as [y|] eqn:Hy; [by rewrite (HT _ _ Hy)|done]).
  assert (P : forall c, places ∅ c = Idle) by (intros c; unfold places; by rewrite lookup_empty).
  split; try done.
  - split; intros; rewrite ?P, ?O in *; try done; try (by split; [|intros []]);
      repeat match goal with Hq : _ ∈ wakes T _ _ |- _ => rewrite W in Hq | Hq : _ ∈ [] |- _ => by apply elem_of_nil in Hq end.
  - intros t y Hy. rewrite (HT _ _ Hy). by split.
  - constructor.
  - by intros t ?%elem_of_nil.
Qed.

Lemma mem_initial T :
  (forall t y, T !! t = Some y -> y = mk_thread PTop None false (fun _ => [])) -> mem None ∅ ∅ T ∅ (fun _ => ∅) (fun _ => mk_event EWait [] []) [] ∅.
Proof.
  intros HT. split; intros; repeat match goal with
    | Hq : ∅ !! _ = Some _ |- _ => by rewrite lookup_empty in Hq
    | Hq : is_Some (∅ !! _) |- _ => rewrite lookup_empty in Hq; by destruct Hq
    | Hq : _ ∈ _ |- _ => by apply elem_of_nil in Hq
    | Hq : T !! _ = Some _ |- _ => rewrite (HT _ _ Hq) in *
    end; try done. constructor.
Qed.

Lemma safe_started n : inv None (started n).
Proof. split; [exact (sched_initial _ (started_thr n))|exact (mem_initial _ (started_thr n))|done]. Qed.

Lemma inv_runs l s s' : inv None s -> run l s = Some s' -> inv None s'.
Proof.
  revert s. induction l as [|x l IH]; intros s H E; cbn in E; [by injection E as <-|]. destruct (act x s) as [s1|] eqn:E1; [|done]. apply (IH s1); [|done]. by apply (inv_act s x).
Qed.

Lemma inv_reached n l s : run l (started n) = Some s -> inv None s.
Proof. apply inv_runs, safe_started. Qed.

End Loop.
