(* ===== verification/TritonLive.v ===== *)
(** * The event loop serves its contexts

    [served] is about one context: the calls it accepted are run in order, it is marked pending
    when there is work, and a context with work is not idle.  [live] is about the workers: who
    has to be woken is woken. *)

From stdpp Require Import base tactics list numbers option gmap.
From S2P Require Import Prelude Triton TritonSched TritonMem TritonSafe TritonWork TritonProps.

Module Live.
Import Triton Sched Mem Safe Work Loop.

Local Open Scope Z_scope.

(** ** What a context is due *)

Definition work (x : _triton_context_t) : Prop := pending_timers x <> [] \/ pending_handlers x <> [] \/ pending_calls x <> [].

(** The calls that were run and those that wait, in the order they were accepted. *)
Definition calls_ok (x : _triton_context_t) : Prop :=
  sublist (ran x ++ pending_calls x) (accepted x) /\ (cut x = false -> accepted x = ran x ++ pending_calls x).

Definition due (x : _triton_context_t) : Prop :=
  (work x -> pending x = true) /\ (pending x = true -> init x = false -> need_free x = false -> place_of x <> Idle).

Definition served (x : _triton_context_t) : Prop := calls_ok x /\ due x.
Definition all_served (s : state) : Prop := map_Forall (fun _ => served) (ctxs s).

(** *** Changes that are not about contexts *)

Lemma ctxs_thr t f s : ctxs (thr_upd t f s) = ctxs s.
Proof. unfold thr_upd. by destruct (thrs s !! t). Qed.
Lemma ctxs_goto t p s : ctxs (goto t p s) = ctxs s.
Proof. apply ctxs_thr. Qed.
Lemma ctxs_src a f s : ctxs (src_upd a f s) = ctxs s.
Proof. unfold src_upd. by destruct (srcs s !! a). Qed.
Lemma ctxs_md a f s : ctxs (md_upd a f s) = ctxs s.
Proof. unfold md_upd. destruct (srcs s !! a) as [h|]; [by destruct (f h)|done]. Qed.
Lemma ctxs_wakeup t s : ctxs (triton_thread_wakeup t s) = ctxs s.
Proof. apply ctxs_thr. Qed.
Lemma ctxs_wakeup_all s : ctxs (wakeup_all s) = ctxs s.
Proof. unfold wakeup_all. induction (threads s) as [|t l IH]; [done|]. cbn [fold_right]. by rewrite ctxs_wakeup. Qed.
Lemma ctxs_reloaded s : ctxs (config_reloaded s) = ctxs s.
Proof. unfold config_reloaded. by rewrite ctxs_wakeup_all. Qed.
Lemma ctxs_does a o s : ctxs (does a o s) = ctxs s.
Proof. done. Qed.
Lemma ctxs_done a s : ctxs (done_ a s) = ctxs s.
Proof. done. Qed.
Lemma ctxs_ev k f s : ctxs (ev_upd k f s) = ctxs s.
Proof. done. Qed.
Lemma ctxs_epoll k a o s : ctxs (epoll_ctl k a o s) = ctxs s.
Proof. done. Qed.

Create Rewrite HintDb ctxs_frame.
#[local] Hint Rewrite ctxs_thr ctxs_goto ctxs_src ctxs_md ctxs_wakeup ctxs_wakeup_all ctxs_reloaded ctxs_does ctxs_done ctxs_ev ctxs_epoll : ctxs_frame.

Lemma served_ext s s' : ctxs s' = ctxs s -> all_served s -> all_served s'.
Proof. unfold all_served. by intros ->. Qed.

Ltac frame := unfold all_served; autorewrite with ctxs_frame; match goal with |- map_Forall _ (ctxs ?s) => change (all_served s) end.

(** *** Changes of a context *)

Lemma served_upd c f s : all_served s -> (forall x, ctxs s !! c = Some x -> served x -> served (f x)) -> all_served (ctx_upd c f s).
Proof.
  intros H Hf. unfold ctx_upd. destruct (ctxs s !! c) as [x|] eqn:Hx; [|done]. unfold all_served. cbn. apply map_Forall_insert_2; [|done]. apply Hf; [done|]. by apply (H c).
Qed.

(** A change of fields that [served] does not depend on. *)
Definition plain (x x' : _triton_context_t) : Prop :=
  accepted x' = accepted x /\ ran x' = ran x /\ pending_calls x' = pending_calls x /\ cut x' = cut x /\ pending x' = pending x /\
  (pending_timers x' <> [] -> pending_timers x <> []) /\ (pending_handlers x' <> [] -> pending_handlers x <> []) /\
  init x' = init x /\ (need_free x' = false -> need_free x = false) /\ thread x' = thread x /\ entry2 x' = entry2 x.

Lemma served_plain x x' : plain x x' -> served x -> served x'.
Proof.
  unfold served, calls_ok, due, work. intros (E1 & E2 & E3 & E4 & E5 & E6 & E7 & E8 & E9 & E10 & E11) ((A1 & A2) & A3 & A4). rewrite E1, E2, E3, E4, E5, E8.
  split; [done|]. split; [intros W; apply A3; tauto|]. intros P I F. rewrite place_idle, E10, E11, <- place_idle. auto.
Qed.

Lemma served_soft c f s : all_served s -> (forall x, plain x (f x)) -> all_served (ctx_upd c f s).
Proof. intros H Hf. apply served_upd; [done|]. intros x _. by apply served_plain. Qed.

Ltac plain_ctx := intros ?; unfold plain; split_and!; done.

(** [triton_queue_ctx] gives a context that has work its due. *)
Lemma served_queue c s :
  (forall c' x, ctxs s !! c' = Some x -> c' <> c -> served x) -> (forall x, ctxs s !! c = Some x -> calls_ok x) -> all_served (triton_queue_ctx c s).2.
Proof.
  intros H Hc. unfold triton_queue_ctx. destruct (ctxs s !! c) as [x|] eqn:Hx; [|intros c' x' Hx'; change (ctxs s !! c' = Some x') in Hx'; apply (H c' x' Hx'); congruence].
  assert (K : forall x', calls_ok x' -> (pending x' = true /\ (thread x' <> None \/ entry2 x' = true \/ need_free x' = true \/ init x' = true)) -> map_Forall (fun _ => served) (<[c := x']> (ctxs s))).
  { intros x' C1 (C2 & C3) c' z Hz. apply lookup_insert_Some in Hz as [[<- <-]|[Hne Hz]]; [|by apply (H c')]. split; [done|]. split; [done|]. intros _ I F [I1 I2]%place_idle. naive_solver congruence. }
  destruct (bool_decide (is_Some (thread x)) || entry2 x || need_free x || init x) eqn:E.
  - apply K; [exact (Hc x eq_refl)|]. split; [done|]. rewrite !orb_true_iff in E. destruct E as [[[E|E]|E]|E]; [left|by right; left|by right; right; left|by right; right; right].
    apply bool_decide_eq_true in E as [t Et]. change (thread x <> None). congruence.
  - destruct (sleep_threads s) as [|t l]; [|destruct (need_config_reload s)]; cbn [snd]; unfold all_served; rewrite ?ctxs_thr; (apply K; [exact (Hc x eq_refl)|split; [done|]]); [by right; left|by right; left|by left].
Qed.

Lemma served_queue' c s : all_served s -> all_served (triton_queue_ctx c s).2.
Proof. intros H. apply served_queue; [intros c' x Hx _; by apply (H c')|intros x Hx; by apply (H c)]. Qed.

Lemma served_release c s : all_served s -> all_served (triton_context_release c s).
Proof.
  intros H. unfold triton_context_release. destruct (ctxs s !! c) as [x|] eqn:Hx; [|done]. destruct (_ =? 0); unfold all_served; cbn; [by apply map_Forall_delete|].
  apply map_Forall_insert_2; [|done]. apply (served_plain x); [by unfold plain; split_and!|by apply (H c)].
Qed.

(** *** The workers *)

Lemma list_del_some a l : list_del a l <> [] -> l <> [].
Proof. by intros Hl ->. Qed.

Lemma ctxs_unqueue t c w i s : ctxs (unqueue t c w i s) = ctxs (ctx_upd c (fun x => x <| entry2 := false |>) s).
Proof. unfold unqueue. destruct w; [apply ctxs_thr|done]. Qed.

(** The last of the changes of a context counts. *)
Lemma served_last c f s s1 x0 : all_served s -> ctxs s1 = <[c := x0]> (ctxs s) -> served (f x0) -> all_served (ctx_upd c f s1).
Proof.
  intros A E Hf. unfold ctx_upd. rewrite E, lookup_insert_eq. unfold all_served. cbn. change (match s1 with mk_state c _ _ _ _ _ _ _ _ _ _ _ _ _ _ _ _ => c end) with (ctxs s1).
  rewrite E, insert_insert_eq. by apply map_Forall_insert_2.
Qed.

Lemma served_thread_top s t y : inv None s -> all_served s -> thrs s !! t = Some y -> all_served (thread_top t y s).
Proof.
  intros H A Hy. unfold thread_top.
  assert (N : forall p, all_served (goto t p ((if terminate s then s else s <| sleep_threads ::= cons t |>) <| thread_active ::= fun n => n - 1 |>))) by (intros p; frame; by destruct (terminate s)).
  destruct (need_config_reload s) eqn:Er; [apply N|]. destruct (check_ctx_queue_empty y (ctx_queue s)) as [[[w i] c]|] eqn:E; [|apply N].
  destruct (ctxs s !! c) as [x|] eqn:Hx; [|done]. destruct (A c x Hx) as (C & D1 & D2).
  pose proof (eq_trans (ctxs_unqueue t c w i s) (f_equal ctxs (ctx_upd_at c _ s x Hx))) as E1. cbv zeta. destruct (asleep x && wakeup x) eqn:B.
  - apply andb_prop in B as [B _]. destruct (x_asleep _ (inv_xok H _ _ Hx) B) as [[t' Et] [k Ek]]. rewrite Ek. frame. unfold all_served. rewrite E1. cbn. apply map_Forall_insert_2; [|done].
    split; [done|]. split; [done|]. intros _ _ _ [I _]%place_idle. change (thread x = None) in I. congruence.
  - frame. eapply served_last; [done|by rewrite ctxs_thr, E1|]. split; [done|]. split; [done|]. by intros _ _ _ [I _]%place_idle.
Qed.

Lemma served_ctx_next s t c : inv None s -> all_served s -> all_served (ctx_next t c s).
Proof.
  intros H A. unfold ctx_next. destruct (ctxs s !! c) as [x|] eqn:Hx; [|done].
  destruct (pending_timers x) as [|a l] eqn:Et; [destruct (pending_handlers x) as [|a l] eqn:Eh; [destruct (pending_calls x) as [|k l] eqn:Ec|]|].
  - frame. apply served_upd; [done|]. intros z Hz (C & D1 & D2). rewrite Hx in Hz. injection Hz as <-. split; [done|]. split; [|done].
    intros W. exfalso. unfold work in W. change (pending_timers x <> [] \/ pending_handlers x <> [] \/ pending_calls x <> []) in W. rewrite Et, Eh, Ec in W. tauto.
  - frame. apply served_upd; [done|]. intros z Hz ((C1 & C2) & D1 & D2). rewrite Hx in Hz. injection Hz as <-. rewrite Ec in C1, C2.
    split; [split|split; [|done]].
    + change (sublist ((ran x ++ [k]) ++ l) (accepted x)). by rewrite <- app_assoc.
    + change (cut x = false -> accepted x = (ran x ++ [k]) ++ l). by rewrite <- app_assoc.
    + intros _. apply D1. right. right. by rewrite Ec.
  - destruct (srcs s !! a); [|done]. frame. apply served_upd; [done|]. intros z Hz. rewrite Hx in Hz. injection Hz as <-. apply served_plain. unfold plain. split_and!; try done. intros _. by rewrite Eh.
  - frame. apply served_upd; [done|]. intros z Hz. rewrite Hx in Hz. injection Hz as <-. apply served_plain. unfold plain. split_and!; try done. intros _. by rewrite Et.
Qed.

Lemma served_worker s t s' : inv None s -> all_served s -> worker t s = Some s' -> all_served s'.
Proof.
  intros H A E. unfold worker in E. destruct (thrs s !! t) as [y|] eqn:Hy; [|done].
  destruct (t_pc y) eqn:Ep; try (injection E as <-); try (destruct (t_ctx y) as [c|] eqn:Ec; [|done]; injection E as <-); try done; try (by frame).
  - by apply served_thread_top.
  - by destruct (terminate s); frame.
  - destruct (t_sig y); [|done]. injection E as <-. by frame.
  - unfold thread_woken. by destruct (t_ctx y); frame.
  - frame. apply served_soft; [done|plain_ctx].
  - by apply served_ctx_next.
  - unfold src_run. by destruct (srcs s !! _); [frame|].
  - unfold src_run. by destruct (srcs s !! _); [frame|].
  - unfold src_run. by destruct (srcs s !! _); [frame|].
  - unfold ctx_sleep. destruct (ctxs s !! c) as [x|]; [|done]. destruct (wakeup x); frame; (apply served_soft; [done|plain_ctx]).
  - unfold ctx_close. by destruct (ctxs s !! c) as [x|]; [frame|].
  - frame. apply served_soft; [done|plain_ctx].
  - unfold thread_after. destruct (ctxs s !! c) as [x|] eqn:Hx; [|done]. destruct (negb (pending x) || need_free x) eqn:B; [|by frame].
    frame. apply served_upd; [done|]. intros z Hz (C & D1 & D2). rewrite Hx in Hz. injection Hz as <-. split; [done|]. split; [done|]. intros P _ F.
    change (pending x = true) in P. change (need_free x = false) in F. by rewrite P, F in B.
  - frame. destruct need_free0; [by apply served_release|done].
Qed.

(** *** The library *)

Lemma served_register s u c : all_served s -> all_served (triton_context_register u c s).
Proof.
  intros A. unfold all_served, triton_context_register. cbn. apply map_Forall_insert_2; [|done]. unfold served, calls_ok, due, work. cbn. split; [done|]. split; [|done]. naive_solver.
Qed.

Lemma served_unregister s u c : all_served s -> all_served (triton_context_unregister u c s).2.
Proof.
  intros A. unfold triton_context_unregister. destruct (ctxs s !! c) as [x|] eqn:Hx; [|done]. destruct (A c x Hx) as ((C1 & C2) & D1 & D2).
  assert (K : forall x', ran x' = ran x -> accepted x' = accepted x -> pending_calls x' = [] -> cut x' = true -> pending_timers x' = pending_timers x -> pending_handlers x' = pending_handlers x -> pending x' = pending x ->
    init x' = init x -> (need_free x' = false -> need_free x = false) -> thread x' = thread x -> entry2 x' = entry2 x -> all_served (s <| ctxs ::= <[c := x']> |>)).
  { intros x' E1 E2 E3 E4 E5 E6 E7 E8 E9 E10 E11. unfold all_served. cbn. apply map_Forall_insert_2; [|done]. unfold served, calls_ok, due, work. rewrite E1, E2, E3, E4, E5, E6, E7, E8. split; [split; [|done]|split].
    - etransitivity; [|exact C1]. apply sublist_app; [done|apply sublist_nil_l].
    - unfold work in D1. intros [W|[W|W]]; [..|done]; apply D1; auto.
    - intros P I F. rewrite place_idle, E10, E11, <- place_idle. auto. }
  assert (K1 : all_served (s <| ctxs ::= <[c := x <| pending_calls := [] |> <| cut := true |> <| need_free := true |>]> |>)) by (apply K; done).
  assert (K2 : all_served (s <| ctxs ::= <[c := x <| pending_calls := [] |> <| cut := true |>]> |>)) by (apply K; done). clear K. cbv zeta.
  repeat match goal with |- all_served (match ?e with [] => _ | _ :: _ => _ end).2 => destruct e end; first [exact K2|exact K1].
Qed.

Lemma served_api s a r s' : inv None s -> all_served s -> api a r s = Some s' -> all_served s'.
Proof.
  intros H A E. unfold api in E. destruct (may_call a s); [|done]. cbn [negb] in E.
  assert (L : forall f u, all_served (with_live a u f s)).
  { intros f u. unfold with_live. destruct (triton_context_get_live u s); [|done]. frame. apply served_soft; [done|plain_ctx]. }
  assert (O : forall b f, on_source b f s = Some s' -> all_served s').
  { intros b f Q. unfold on_source in Q. destruct (srcs s !! b) as [h|]; [|done]. cbn [mbind option_bind] in Q. destruct (_ && _); [|done]. injection Q as <-. by frame. }
  destruct r as [u c|u|u p|u k|u f|u| | | |c|k u b|u|b|b mode|b mode|b level].
  - case_bool_decide; [|done]. injection E as <-. by apply served_register.
  - destruct (tpd s !! u) as [c|]; [|by injection E as <-]. destruct (owns a c s); [|done]. cbn [negb] in E. pose proof (served_unregister s u c A) as G.
    destruct (triton_context_unregister u c s) as [go s1]. injection E as <-. destruct go; [by frame|done].
  - destruct (tpd s !! u) as [c|]; injection E as <-; [|done]. unfold triton_context_set_priority. destruct (_ <? _)%nat; [|done]. apply served_soft; [done|plain_ctx].
  - injection E as <-. apply L.
  - injection E as <-. apply L.
  - injection E as <-. apply L.
  - unfold triton_context_schedule in E. destruct (thrs s !! a) as [y|]; [|done]. cbn [mbind option_bind] in E. destruct (t_ctx y) as [c|]; [|done]. cbn [mbind option_bind] in E.
    destruct (ctxs s !! c) as [x|]; [|done]. cbn [mbind option_bind] in E. destruct (t_pc y); try done. destruct (need_free x); injection E as <-; [done|by frame].
  - injection E as <-. unfold triton_conf_reload. cbv zeta. by destruct (_ =? 0).
  - by injection E as <-.
  - case_bool_decide; [|done]. injection E as <-. unfold ask_close.
    assert (G : all_served (ctx_upd c (fun x => x <| need_close := true |>) s)) by (apply served_soft; [done|plain_ctx]).
    pose proof (served_queue' c _ G) as Q. destruct (triton_queue_ctx _ _) as [[t|] s1]; [by frame|done].
  - destruct (tpd s !! u) as [c|]; [|by injection E as <-]. case_bool_decide; [|done]. injection E as <-. unfold source_add. frame. apply served_soft; [done|]. destruct k; plain_ctx.
  - destruct (tpd s !! u) as [c|]; injection E as <-; [|done]. apply served_soft; [done|plain_ctx].
  - destruct (srcs s !! b) as [h|] eqn:Hb; [|done]. cbn [mbind option_bind] in E. destruct (_ && _); [|done]. injection E as <-. frame. unfold source_del. rewrite Hb. cbv zeta.
    assert (G : forall s1, ctxs s1 = ctxs s -> all_served (ctx_upd (s_ctx h) (del_source (s_kind h) b) s1)).
    { intros s1 E1. apply served_soft; [by apply (served_ext s)|]. destruct (s_kind h); plain_ctx. }
    assert (F : ctxs (src_upd b (fun h => h <| s_ud := false |>) (match s_kind h with Md => md_upd b (triton_md_disable_handler (Z.lor MD_MODE_READ MD_MODE_WRITE)) s | Timer => s end)) = ctxs s) by (destruct (s_kind h); by autorewrite with ctxs_frame).
    destruct (s_pending h); [|by apply G]. apply served_soft; [by apply G|]. intros x. unfold plain. destruct (s_kind h); split_and!; try done; apply list_del_some.
  - by apply (O b _ E).
  - by apply (O b _ E).
  - by apply (O b _ E).
Qed.

(** A context gets work and is queued in the same section. *)
Lemma served_put c f s :
  all_served s -> (forall x, calls_ok x -> calls_ok (f x)) -> all_served (triton_queue_ctx c (ctx_upd c f s)).2.
Proof.
  intros A Hf. apply served_queue; unfold ctx_upd; destruct (ctxs s !! c) as [x|] eqn:Hx; cbn.
  - intros c' z Hz Hne. apply lookup_insert_Some in Hz as [[? _]|[_ Hz]]; [congruence|by apply (A c')].
  - intros c' z Hz _. by apply (A c').
  - intros z Hz. rewrite lookup_insert_eq in Hz. injection Hz as <-. apply Hf, (A c x Hx).
  - intros z Hz. change (ctxs s !! c = Some z) in Hz. congruence.
Qed.

Lemma served_signal a c r s : all_served s -> all_served (signal a c (r, s)).
Proof. intros A. by destruct r. Qed.

Lemma calls_add k x : calls_ok x -> calls_ok (x <| pending_calls ::= fun l => l ++ [k] |> <| accepted ::= fun l => l ++ [k] |>).
Proof.
  intros [C1 C2]. split.
  - change (sublist (ran x ++ pending_calls x ++ [k]) (accepted x ++ [k])). rewrite app_assoc. by apply sublist_app.
  - change (cut x = false -> accepted x ++ [k] = ran x ++ pending_calls x ++ [k]). intros Hc. by rewrite app_assoc, <- C2.
Qed.

Lemma served_cancel f x : served x -> served (x <| pending_calls ::= filter (fun k => func k <> f) |> <| cut := true |>).
Proof.
  intros ((C1 & C2) & D1 & D2). split; [split; [|done]|split; [|done]].
  - change (sublist (ran x ++ filter (fun k => func k <> f) (pending_calls x)) (accepted x)). etransitivity; [|exact C1]. apply sublist_app; [done|apply sublist_filter].
  - intros W. apply D1. destruct W as [W|[W|W]]; [by left|by right; left|right; right]. intros E. apply W. change (filter (fun k => func k <> f) (pending_calls x) = []). by rewrite E.
Qed.

Lemma served_wake_up s a c : all_served s -> all_served (wake_up a c s).
Proof.
  intros A. unfold wake_up. destruct (ctxs s !! c) as [x|] eqn:Hx; [|done]. destruct (wakeup x); [by frame|].
  assert (G : all_served (ctx_upd c (fun x => x <| wakeup := true |>) s)) by (apply served_soft; [done|plain_ctx]).
  destruct (asleep x), (thread x) as [t|]; try (by frame). destruct (thrs s !! t) as [y|]; [|done]. cbv zeta.
  assert (F : all_served (ctx_upd c (fun x => x <| wakeup := true |> <| entry2 := true |>) s)).
  { apply served_upd; [done|]. intros z _ (C & D1 & D2). split; [done|]. split; [done|]. by intros _ _ _ [_ I]%place_idle. }
  destruct (t_ctx y); by frame.
Qed.

Lemma served_continue s a ok s' : inv None s -> all_served s -> continue a ok s = Some s' -> all_served s'.
Proof.
  intros H A E. unfold continue in E. destruct (doing s !! a) as [o|] eqn:Ha; [|done]. cbn [mbind option_bind] in E. injection E as <-.
  destruct o as [c k|c f|c|c|c|t c|c|c|b|].
  - destruct ok; [|done]. assert (G : all_served (triton_queue_ctx c (ctx_upd c (fun x => x <| pending_calls ::= fun l => l ++ [k] |> <| accepted ::= fun l => l ++ [k] |>) s)).2) by (apply served_put; [done|apply calls_add]).
    destruct (triton_queue_ctx _ _) as [r s1]. by apply served_signal.
  - frame. apply served_upd; [done|]. intros x _. apply served_cancel.
  - by destruct (ctxs s !! c).
  - cbv zeta. assert (G : all_served (triton_queue_ctx c (ctx_upd c (fun x => x <| init := false |>) s)).2) by (apply served_put; [done|by intros x Hx]).
    destruct (ctxs (ctx_upd c _ s) !! c) as [x|] eqn:Hx.
    + destruct (pending x) eqn:Hp; [destruct (triton_queue_ctx _ _) as [r s1]; by apply served_signal|]. frame. apply served_upd; [done|].
      intros z Hz (C & D1 & D2). rewrite (ctx_upd_at _ _ _ _ Hz) in Hx. cbn in Hx. rewrite lookup_insert_eq in Hx. injection Hx as <-. split; [done|]. split; [done|]. intros P. change (pending z = true) in P. change (pending z = false) in Hp. congruence.
    + apply served_upd; [done|]. intros z Hz. rewrite (ctx_upd_at _ _ _ _ Hz) in Hx. cbn in Hx. by rewrite lookup_insert_eq in Hx.
  - by apply served_wake_up.
  - by frame.
  - frame. by apply served_release.
  - frame. unfold ctx_unlist. cbv zeta. assert (G : all_served (ctx_upd c id (s <| ctx_list ::= list_del c |> <| context_count ::= fun n => n - 1 |>))) by (by apply served_soft; [|plain_ctx]).
    destruct (_ && _); destruct (terminate _); by frame.
  - destruct (srcs s !! b); [by frame|done].
  - by frame.
Qed.

Lemma served_event s k s' : all_served s -> event_step k s = Some s' -> all_served s'.
Proof.
  intros A E. unfold event_step in E. destruct (e_pc (events s k)) as [|[|[a ev] l]|a l|] eqn:He; [done| | | |]; injection E as <-.
  - by frame.
  - unfold event_one. destruct (srcs s !! a) as [h|]; [|done]. destruct (s_ud h); [|by frame]. cbn [negb]. cbv zeta. destruct (s_pending h); [by frame|].
    assert (B : all_served (src_upd a (fun h => h <| trig_epoll_events ::= trig k ev |> <| s_pending := true |>) s)) by (by frame).
    pose proof (served_put (s_ctx h) (add_pending k a) _ B) as G. destruct (triton_queue_ctx _ _) as [r s1]. frame. apply G. by destruct k.
  - unfold event_signal. destruct (srcs s !! a) as [h|]; [|done]. destruct (ctxs s !! s_ctx h) as [x|]; [|done]. destruct (thread x); by frame.
  - unfold event_free. destruct (freed_list2 (events s k)) as [|a l]; [by frame|]. destruct (srcs s !! a) as [h|]; [|done]. frame. apply served_release. apply (served_ext s); [by destruct k|done].
Qed.

Lemma served_act s x s' : inv None s -> all_served s -> act x s = Some s' -> all_served s'.
Proof.
  intros H A E. destruct x as [t|t r|a r|a ok|k l|k]; cbn [act] in E.
  - by apply (served_worker s t).
  - unfold finish in E. destruct (thrs s !! t) as [y|]; [|done]. destruct (doing s !! t); [done|]. apply (served_ext s); [|done].
    destruct (t_pc y) as [| | | | | | | | | | |q| | | | | | |]; try done. destruct q; try (injection E as <-; apply ctxs_goto);
      (destruct r; [injection E as <-; apply ctxs_goto|]); (destruct (srcs s !! _); [|done]); cbn [mbind option_bind] in E; (destruct (_ && _ && _); [|done]); injection E as <-; apply ctxs_goto.
  - by apply (served_api s a r).
  - by apply (served_continue s a ok).
  - unfold epoll_wait in E. destruct (e_pc (events s k)); try done. destruct (forallb _ l); [|done]. by injection E as <-.
  - by apply (served_event s k).
Qed.

Lemma served_reached n l s : run l (started n) = Some s -> all_served s.
Proof.
  assert (G : forall l s s', inv None s -> all_served s -> run l s = Some s' -> all_served s').
  { clear. intros l. induction l as [|x l IH]; intros s s' H A E; cbn in E; [by injection E as <-|]. destruct (act x s) as [s1|] eqn:E1; [|done]. apply (IH s1); [by apply (inv_act s x)|by apply (served_act s x)|done]. }
  apply G; [apply safe_started|]. apply map_Forall_empty.
Qed.

End Live.
