(* ===== verification/TritonWake.v ===== *)
(** * No wakeup is lost

    [live] says who will be woken: a worker that waits with a context was signalled, or will
    be; when contexts are queued the workers that sleep were signalled; a reload that was asked
    for is carried out by somebody.  When nothing is left to do, no context waits. *)

From stdpp Require Import base tactics list numbers option gmap.
From S2P Require Import Prelude Triton TritonSched TritonMem TritonSafe TritonWork TritonProps TritonLive.

Module Wake.
Import Triton Sched Mem Safe Work Loop Live.

Local Open Scope Z_scope.

(** The signal has come, is being sent by an agent, or by a thread that waits in epoll. *)
Definition roused (t : nat) (s : state) : Prop := exists y, thrs s !! t = Some y /\ (t_sig y = true \/ t_pc y = PWoken).
Definition signalled (t : nat) (s : state) : Prop := exists a c, doing s !! a = Some (Signal t c).
Definition ev_signalled (c : nat) (s : state) : Prop := exists k a l h, e_pc (events s k) = ESig a l /\ srcs s !! a = Some h /\ s_ctx h = c.

Definition awake (y : _triton_thread_t) : bool := negb (napping (t_pc y)).

(** [e] is a worker that was just given a context. *)
Record live (e : option nat) (s : state) : Prop := {
  l_given t y c : Some t <> e -> thrs s !! t = Some y -> napping (t_pc y) = true -> t_ctx y = Some c -> roused t s \/ signalled t s \/ ev_signalled c s;
  l_queue p t : ctx_queue s p <> [] -> need_config_reload s = false -> terminate s = false -> t ∈ sleep_threads s -> roused t s;
  l_wake t y p : thrs s !! t = Some y -> napping (t_pc y) = true -> t_ctx y = None -> wakeup_list y p <> [] -> terminate s = false -> roused t s \/ signalled t s \/ need_config_reload s = true;
  l_active : thread_active s = cnt awake (thrs s);
  l_reload : need_config_reload s = true -> 0 < thread_active s \/ (exists t y, thrs s !! t = Some y /\ t_pc y = PReload) \/ (exists a, doing s !! a = Some Reloading);
  l_sleep t y : thrs s !! t = Some y -> napping (t_pc y) = true -> t_ctx y = None -> terminate s = false -> t ∈ sleep_threads s;
  l_exit t y : thrs s !! t = Some y -> t_pc y = PExit -> terminate s = true;
  l_threads t y : thrs s !! t = Some y -> t ∈ threads s \/ t_pc y = PExit
}.

(** ** Changes that keep it *)

Section Changes.
Context {e : option nat} {s : state} (H : live e s).
Set Default Proof Using "Type".

(** Contexts and sources change, and agents that do not signal or reload. *)
Lemma live_ext s' :
  thrs s' = thrs s -> ctx_queue s' = ctx_queue s -> sleep_threads s' = sleep_threads s -> need_config_reload s' = need_config_reload s -> thread_active s' = thread_active s ->
  terminate s' = terminate s -> threads s' = threads s ->
  (forall a o, doing s !! a = Some o -> (exists t c, o = Signal t c) \/ o = Reloading -> doing s' !! a = Some o) ->
  (forall c, ev_signalled c s -> ev_signalled c s') -> live e s'.
Proof using H.
  intros E1 E2 E3 E4 E5 E6 E7 Hd He.
  assert (R : forall t, roused t s -> roused t s') by (unfold roused; by rewrite E1).
  assert (G : forall t, signalled t s -> signalled t s') by (intros t (a & c & Ha); exists a, c; apply Hd; eauto).
  destruct H as [A1 A2 A3 A4 A5 A6 A7 A8]. split; rewrite ?E1, ?E2, ?E3, ?E4, ?E5, ?E6, ?E7; eauto.
  - intros t y c Hn Hy Hp Hc. destruct (A1 t y c Hn Hy Hp Hc) as [?|[?|?]]; auto.
  - intros t y p Hy Hp Hc Hw Ht. destruct (A3 t y p Hy Hp Hc Hw Ht) as [?|[?|?]]; auto.
  - intros Hr. destruct (A5 Hr) as [?|[?|[a Ha]]]; eauto 6.
Qed.

(** A worker that is awake goes on. *)
Lemma live_run s' t y y' :
  thrs s !! t = Some y -> napping (t_pc y) = false -> napping (t_pc y') = false -> thrs s' = <[t := y']> (thrs s) -> (t ∉ sleep_threads s) ->
  (forall p, ctx_queue s p = [] -> ctx_queue s' p = []) -> sleep_threads s' = sleep_threads s -> need_config_reload s' = need_config_reload s -> thread_active s' = thread_active s ->
  terminate s' = terminate s -> threads s' = threads s -> doing s' = doing s -> (forall c, ev_signalled c s -> ev_signalled c s') -> live e s'.
Proof using H.
  intros Hy N1 N2 E1 HS E2 E3 E4 E5 E6 E7 E8 He.
  assert (L : forall u z, <[t := y']> (thrs s) !! u = Some z -> napping (t_pc z) = true -> u <> t /\ thrs s !! u = Some z).
  { intros u z Hz Hp. apply lookup_insert_Some in Hz as [[-> <-]|[? ?]]; [congruence|done]. }
  assert (R : forall u, u <> t -> roused u s -> roused u s') by (intros u Hu (z & Hz & Hr); exists z; by rewrite E1, lookup_insert_ne).
  assert (G : forall u, signalled u s -> signalled u s') by (unfold signalled; by rewrite E8).
  destruct H as [A1 A2 A3 A4 A5 A6 A7 A8]. split; rewrite ?E1, ?E3, ?E4, ?E5, ?E6, ?E7, ?E8.
  - intros u z c Hn Hz Hp Hc. destruct (L u z Hz Hp) as [Hu Hz']. destruct (A1 u z c Hn Hz' Hp Hc) as [?|[?|?]]; auto.
  - intros p u Hq Hr Ht Hu. apply R; [intros ->; done|]. eapply (A2 p); [|done..]. intros Eq. by apply E2 in Eq.
  - intros u z p Hz Hp Hc Hw Ht. destruct (L u z Hz Hp) as [Hu Hz']. destruct (A3 u z p Hz' Hp Hc Hw Ht) as [?|[?|?]]; auto.
  - rewrite (cnt_set _ _ _ _ _ Hy). unfold awake at 2 3. by rewrite N1, N2, A4, Z.sub_add.
  - intros Hr. destruct (A5 Hr) as [?|[(u & z & Hz & Hp)|?]]; auto. right. left. exists u, z. split; [|done]. rewrite lookup_insert_ne; [done|]. intros ->. rewrite Hy in Hz. injection Hz as <-. by rewrite Hp in N1.
  - intros u z Hz Hp Hc. destruct (L u z Hz Hp) as [_ Hz']. eauto.
  - intros u z Hz Hp. destruct (L u z Hz) as [_ Hz']; [by rewrite Hp|]. eauto.
  - intros u z Hz. apply lookup_insert_Some in Hz as [[<- <-]|[_ Hz]]; [|eauto]. destruct (A8 _ _ Hy) as [?|Q]; [by left|]. by rewrite Q in N1.
Qed.

End Changes.

Lemma live_wakeup e s t : live e s -> e = None \/ e = Some t -> live None (triton_thread_wakeup t s).
Proof.
  intros H He. unfold triton_thread_wakeup, thr_upd. destruct (thrs s !! t) as [y|] eqn:Hy.
  2: { destruct H as [A1 A2 A3 A4 A5 A6 A7 A8]. split; try done. intros u z c _ Hz. apply A1; [|done]. destruct He as [->| ->]; [done|]. intros [= ->]. congruence. }
  set (y' := y <| t_sig := true |>).
  assert (L : forall u z, <[t := y']> (thrs s) !! u = Some z -> exists z0, thrs s !! u = Some z0 /\ t_pc z = t_pc z0 /\ t_ctx z = t_ctx z0 /\ wakeup_list z = wakeup_list z0).
  { intros u z Hz. apply lookup_insert_Some in Hz as [[<- <-]|[_ Hz]]; eauto. }
  assert (R : forall u, roused u s -> roused u (s <| thrs ::= <[t := y']> |>)).
  { intros u (z & Hz & Hr). unfold roused. cbn. destruct (decide (u = t)) as [->|]; [rewrite lookup_insert_eq; eauto|rewrite lookup_insert_ne by done; eauto]. }
  assert (Rt : roused t (s <| thrs ::= <[t := y']> |>)) by (exists y'; split; [apply lookup_insert_eq|by left]).
  destruct H as [A1 A2 A3 A4 A5 A6 A7 A8]. split; cbn; try done.
  - intros u z c _ Hz Hp Hc. destruct (decide (u = t)) as [->|Hu]; [by left|]. apply L in Hz as (z0 & Hz & E1 & E2 & _). rewrite E1 in Hp. rewrite E2 in Hc.
    destruct (A1 u z0 c) as [?|[?|?]]; auto. destruct He as [->| ->]; congruence.
  - intros p u Hq Hr Ht Hu. by apply R, (A2 p).
  - intros u z p Hz Hp Hc Hw Ht. apply L in Hz as (z0 & Hz & E1 & E2 & E3). rewrite E1 in Hp. rewrite E2 in Hc. rewrite E3 in Hw. destruct (A3 u z0 p Hz Hp Hc Hw Ht) as [?|[?|?]]; auto.
  - change (thread_active s = cnt awake (<[t := y']> (thrs s))). rewrite (cnt_set _ _ _ _ _ Hy). change (awake y') with (awake y). lia.
  - intros Hr. destruct (A5 Hr) as [?|[(u & z & Hz & Hp)|?]]; auto. right. left. destruct (decide (u = t)) as [->|].
    + exists t, y'. rewrite Hy in Hz. injection Hz as <-. split; [apply lookup_insert_eq|done].
    + exists u, z. by rewrite lookup_insert_ne.
  - intros u z Hz Hp Hc. apply L in Hz as (z0 & Hz & E1 & E2 & _). rewrite E1 in Hp. rewrite E2 in Hc. eauto.
  - intros u z Hz Hp. apply L in Hz as (z0 & Hz & E1 & _). rewrite E1 in Hp. eauto.
  - intros u z Hz. apply L in Hz as (z0 & Hz & E1 & _). rewrite E1. eauto.
Qed.

Lemma live_wakeup_all s : live None s -> live None (wakeup_all s).
Proof. intros H. unfold wakeup_all. induction (threads s) as [|t l IH]; [done|]. cbn [fold_right]. eapply live_wakeup; eauto. Qed.

(** An agent that does not signal or reload goes on. *)
Definition quiet (o : option op) : Prop := match o with Some (Signal _ _) | Some Reloading => False | _ => True end.

Lemma live_does e s a o : live e s -> quiet (doing s !! a) -> live e (does a o s).
Proof.
  intros H Hq. apply (live_ext H); try done. intros b o' Hb Ho. cbn. rewrite lookup_insert_ne; [done|]. intros <-. rewrite Hb in Hq. destruct Ho as [(t & c & ->)| ->]; done.
Qed.

Lemma live_done e s a : live e s -> quiet (doing s !! a) -> live e (done_ a s).
Proof.
  intros H Hq. apply (live_ext H); try done. intros b o' Hb Ho. cbn. rewrite lookup_delete_ne; [done|]. intros <-. rewrite Hb in Hq. destruct Ho as [(t & c & ->)| ->]; done.
Qed.

(** The agent that gave a context to a worker is going to signal it. *)
Lemma live_signal s a t c : live (Some t) s -> quiet (doing s !! a) -> live None (does a (Signal t c) s).
Proof.
  intros H Hq. assert (G : live (Some t) (does a (Signal t c) s)) by (by apply live_does). destruct G as [A1 A2 A3 A4 A5 A6 A7 A8]. split; try done.
  intros u y d _ Hy Hp Hc. destruct (decide (u = t)) as [->|Hu]; [|apply (A1 u y d); [congruence|done..]]. right. left. exists a, c. apply lookup_insert_eq.
Qed.

(** A change of contexts only. *)
Lemma live_ctxs e s s' :
  live e s -> thrs s' = thrs s -> ctx_queue s' = ctx_queue s -> sleep_threads s' = sleep_threads s -> need_config_reload s' = need_config_reload s -> thread_active s' = thread_active s ->
  terminate s' = terminate s -> threads s' = threads s -> doing s' = doing s -> events s' = events s -> srcs s' = srcs s -> live e s'.
Proof. intros H E1 E2 E3 E4 E5 E6 E7 E8 E9 E10. apply (live_ext H); try done; [by rewrite E8|]. unfold ev_signalled. by rewrite E9, E10. Qed.

Lemma live_ctx_upd e c f s : live e s -> live e (ctx_upd c f s).
Proof. intros H. unfold ctx_upd. destruct (ctxs s !! c); by apply (live_ctxs e s). Qed.

Lemma live_release e c s : live e s -> live e (triton_context_release c s).
Proof. intros H. unfold triton_context_release. destruct (ctxs s !! c); [destruct (_ =? 0)|]; by apply (live_ctxs e s). Qed.

(** [triton_queue_ctx]: the worker it returns has the context and is still to be signalled. *)
Lemma live_queue s c x :
  inv None s -> live None s -> ctxs s !! c = Some x ->
  live (triton_queue_ctx c s).1 (triton_queue_ctx c s).2 /\
  (forall t, (triton_queue_ctx c s).1 = Some t -> exists y, thrs (triton_queue_ctx c s).2 !! t = Some y /\ t_ctx y = Some c).
Proof.
  intros I H Hx. unfold triton_queue_ctx. rewrite Hx. destruct (_ || _ || _ || _); [cbn; split; [by apply (live_ctxs None s)|done]|].
  assert (Q : sleep_threads s = [] \/ need_config_reload s = true -> live None (s <| ctxs ::= <[c := x <| pending := true |> <| queued := true |> <| entry2 := true |>]> |>
                       <| ctx_queue ::= fun q => fn_upd q (priority x) (q (priority x) ++ [c]) |>)).
  { intros Hs. destruct H as [A1 A2 A3 A4 A5 A6 A7 A8]. split; try done. intros p t _ Hr _ Ht. change (need_config_reload s = false) in Hr. exfalso. destruct Hs as [Hs|Hs]; [|congruence].
    change (t ∈ sleep_threads s) in Ht. rewrite Hs in Ht. by apply elem_of_nil in Ht. }
  destruct (sleep_threads s) as [|t l] eqn:Es; [split; [apply Q; auto|done]|]. destruct (need_config_reload s) eqn:Er; [split; [apply Q; auto|done]|]. clear Q.
  destruct (c_sleep _ _ _ _ (v_sched _ _ I) t) as (y & Hy & Hn & Hc); [rewrite Es; by left|]. pose proof (c_nodup _ _ _ _ (v_sched _ _ I)) as Nd. rewrite Es in Nd. apply NoDup_cons in Nd as [Hnt _].
  cbn [fst snd]. rewrite (thr_upd_at t _ _ y) by done. set (y' := y <| t_ctx := Some c |>).
  split; [|intros u [= <-]; exists y'; split; [apply lookup_insert_eq|done]].
  assert (L : forall u z, u <> t -> <[t := y']> (thrs s) !! u = Some z -> thrs s !! u = Some z) by (intros u z Hu Hz; by rewrite lookup_insert_ne in Hz).
  assert (R : forall u s', thrs s' = <[t := y']> (thrs s) -> roused u s -> roused u s').
  { intros u s' E (z & Hz & Hr). unfold roused. rewrite E. destruct (decide (u = t)) as [->|]; [rewrite lookup_insert_eq; exists y'|rewrite lookup_insert_ne by done; by exists z].
    rewrite Hy in Hz. injection Hz as <-. done. }
  destruct H as [A1 A2 A3 A4 A5 A6 A7 A8]. split; cbn; try done.
  - intros u z d Hu Hz Hp Hd. assert (Hu' : u <> t) by congruence. apply L in Hz; [|done]. destruct (A1 u z d) as [?|[?|?]]; auto.
  - intros p u Hq Hr Ht Hu. apply (R u); [done|]. apply (A2 p); try done. rewrite Es. by right.
  - intros u z p Hz Hp Hd Hw Ht. destruct (decide (u = t)) as [->|Hu]; [rewrite lookup_insert_eq in Hz; by injection Hz as <-|]. apply L in Hz; [|done].
    destruct (A3 u z p Hz Hp Hd Hw Ht) as [?|[?|?]]; auto.
  - change (thread_active s = cnt awake (<[t := y']> (thrs s))). rewrite (cnt_set _ _ _ _ _ Hy). change (awake y') with (awake y). lia.
  - intros Hr. change (need_config_reload s = true) in Hr. congruence.
  - intros u z Hz Hp Hd Ht. destruct (decide (u = t)) as [->|Hu]; [rewrite lookup_insert_eq in Hz; by injection Hz as <-|]. apply L in Hz; [|done].
    pose proof (A6 u z Hz Hp Hd Ht) as Hin. rewrite Es in Hin. by apply elem_of_cons in Hin as [?|?].
  - intros u z Hz Hp. destruct (decide (u = t)) as [->|Hu]; [rewrite lookup_insert_eq in Hz; injection Hz as <-; by apply (A7 t y)|apply L in Hz; eauto].
  - intros u z Hz. destruct (decide (u = t)) as [->|Hu]; [rewrite lookup_insert_eq in Hz; injection Hz as <-; by apply (A8 t y)|apply L in Hz; eauto].
Qed.

(** ** The workers *)

Lemma queue_none y q p : check_ctx_queue_empty y q = None -> (p < CTX_PRIO_MAX)%nat -> wakeup_list y p = [] /\ q p = [].
Proof.
  unfold check_ctx_queue_empty. intros E Hp.
  assert (G : forall n i, (fix go i n := match n with O => None | S n => match wakeup_list y i, q i with c :: _, _ => Some (true, i, c) | [], c :: _ => Some (false, i, c) | [], [] => go (S i) n end end) i n = None ->
    forall j, (i <= j < i + n)%nat -> wakeup_list y j = [] /\ q j = []).
  { clear. induction n as [|n IH]; intros i E j Hj; [lia|]. destruct (wakeup_list y i) as [|] eqn:E1; [|done]. destruct (q i) as [|] eqn:E2; [|done].
    destruct (decide (j = i)) as [->|]; [done|]. apply (IH (S i) E). lia. }
  apply (G CTX_PRIO_MAX 0%nat E). lia.
Qed.

(** All lists of contexts are below the number of priorities. *)
Lemma queue_bound s p : inv None s -> ctx_queue s p <> [] -> (p < CTX_PRIO_MAX)%nat.
Proof.
  intros [A1 _ _] Hq. destruct (ctx_queue s p) as [|c l] eqn:E; [done|]. pose proof (c_coh _ _ _ _ A1) as K. assert (Hc : c ∈ ctx_queue s p) by (rewrite E; by left).
  destruct (h_queued _ _ _ _ K c (h_queue _ _ _ _ K c p Hc)) as (p' & Hp' & Hc'). by rewrite (h_queue1 _ _ _ _ K c p p' Hc Hc').
Qed.
Lemma wakes_bound s t y p : inv None s -> thrs s !! t = Some y -> wakeup_list y p <> [] -> (p < CTX_PRIO_MAX)%nat.
Proof.
  intros [A1 _ _] Hy Hq. destruct (wakeup_list y p) as [|c l] eqn:E; [done|]. pose proof (c_coh _ _ _ _ A1) as K. assert (Hc : c ∈ wakes (thrs s) t p) by (rewrite (wakes_at _ _ _ _ Hy), E; by left).
  destruct (h_woken _ _ _ _ K t c (h_wake _ _ _ _ K t c p Hc)) as (p' & Hp' & Hc'). by rewrite (h_wake1 _ _ _ _ K t c p p' Hc Hc').
Qed.

Lemma not_sleeping s t y : inv None s -> thrs s !! t = Some y -> napping (t_pc y) = false -> t ∉ sleep_threads s.
Proof. intros [A1 _ _] Hy Hn HS. destruct (c_sleep _ _ _ _ A1 t HS) as (z & Hz & Hz' & _). congruence. Qed.

(** A worker goes to sleep. *)
Lemma live_nap s t y s' (p : pc) :
  inv None s -> live None s -> thrs s !! t = Some y -> t_pc y = PTop -> (need_config_reload s = true \/ check_ctx_queue_empty y (ctx_queue s) = None) ->
  napping p = true -> p <> PExit -> (need_config_reload s = true -> thread_active s - 1 = 0 -> p = PReload) ->
  thrs s' = <[t := y <| t_pc := p |>]> (thrs s) -> ctx_queue s' = ctx_queue s -> sleep_threads s' = (if terminate s then sleep_threads s else t :: sleep_threads s) -> need_config_reload s' = need_config_reload s ->
  thread_active s' = thread_active s - 1 -> terminate s' = terminate s -> threads s' = threads s -> doing s' = doing s -> events s' = events s -> srcs s' = srcs s -> live None s'.
Proof.
  intros I H Hy Ht Hc Hp Hx Hr E1 E2 E3 E4 E5 E6 E7 E8 E9 E10. pose proof (y_top _ (inv_yok I _ _ Hy) Ht) as Hn. set (y' := y <| t_pc := p |>) in *.
  assert (R : forall u, u <> t -> roused u s -> roused u s') by (intros u Hu (z & Hz & Hz'); exists z; by rewrite E1, lookup_insert_ne).
  assert (G : forall u, signalled u s -> signalled u s') by (unfold signalled; by rewrite E8). assert (V : forall c, ev_signalled c s -> ev_signalled c s') by (unfold ev_signalled; by rewrite E9, E10).
  assert (L : forall u z, u <> t -> <[t := y']> (thrs s) !! u = Some z -> thrs s !! u = Some z) by (intros u z Hu Hz; by rewrite lookup_insert_ne in Hz).
  assert (Rs : need_config_reload s = true \/ (forall q, ctx_queue s q = [] /\ wakeup_list y q = [])).
  { destruct Hc as [Hc|Hc]; [by left|right]. intros q. split; [destruct (ctx_queue s q) eqn:Eq|destruct (wakeup_list y q) eqn:Eq]; try done.
    - destruct (queue_none _ _ q Hc) as [_ Q]; [apply (queue_bound s q I); by rewrite Eq|congruence].
    - destruct (queue_none _ _ q Hc) as [Q _]; [apply (wakes_bound s t y q I Hy); by rewrite Eq|congruence]. }
  pose proof (cnt_at_least_0 awake (thrs s')) as Nn. destruct H as [A1 A2 A3 A4 A5 A6 A7 A8].
  assert (Ac : thread_active s' = cnt awake (thrs s')) by (rewrite E5, E1, (cnt_set _ _ _ _ _ Hy), A4; unfold awake at 3 4; change (t_pc y') with p; rewrite Ht, Hp; cbn; lia).
  split; rewrite ?E1, ?E2, ?E3, ?E4, ?E6, ?E7, ?E8.
  - intros u z c _ Hz Hnz Hcz. destruct (decide (u = t)) as [->|Hu]; [rewrite lookup_insert_eq in Hz; injection Hz as <-; change (t_ctx y = Some c) in Hcz; congruence|].
    apply L in Hz; [|done]. destruct (A1 u z c) as [?|[?|?]]; auto.
  - intros q u Hq Hr' Htm Hu. destruct Rs as [Rs|Rs]; [congruence|]. by destruct (Rs q).
  - intros u z q Hz Hnz Hcz Hw Htm. destruct (decide (u = t)) as [->|Hu].
    + rewrite lookup_insert_eq in Hz. injection Hz as <-. destruct Rs as [Rs|Rs]; [auto|]. by destruct (Rs q).
    + apply L in Hz; [|done]. destruct (A3 u z q) as [?|[?|?]]; auto.
  - by rewrite Ac, E1.
  - intros Hr'. destruct (decide (thread_active s - 1 = 0)) as [E0|E0]; [|left; lia]. right. left. exists t, y'. split; [apply lookup_insert_eq|]. exact (Hr Hr' E0).
  - intros u z Hz Hnz Hcz Htm. rewrite Htm. destruct (decide (u = t)) as [->|Hu]; [by left|right]. apply L in Hz; eauto.
  - intros u z Hz Hpz. destruct (decide (u = t)) as [->|Hu]; [rewrite lookup_insert_eq in Hz; injection Hz as <-; done|apply L in Hz; eauto].
  - intros u z Hz. destruct (decide (u = t)) as [->|Hu]; [|apply L in Hz; eauto]. destruct (A8 _ _ Hy) as [?|Q]; [by left|congruence].
Qed.

Lemma list_del_nil a l : l = [] -> list_del a l = [].
Proof. by intros ->. Qed.

Lemma live_thread_top s t y : inv None s -> live None s -> thrs s !! t = Some y -> t_pc y = PTop -> live None (thread_top t y s).
Proof.
  intros I H Hy Ht. unfold thread_top.
  assert (N : need_config_reload s = true \/ check_ctx_queue_empty y (ctx_queue s) = None ->
    live None (let s := if terminate s then s else s <| sleep_threads ::= cons t |> in let s := s <| thread_active ::= fun n => n - 1 |> in
               goto t (if (thread_active s =? 0) && need_config_reload s then PReload else PSleep) s)).
  { intros Hc. cbv zeta. set (s1 := (if terminate s then s else s <| sleep_threads ::= cons t |>) <| thread_active ::= fun n => n - 1 |>).
    assert (F : thrs s1 = thrs s /\ thread_active s1 = thread_active s - 1 /\ need_config_reload s1 = need_config_reload s) by (unfold s1; by destruct (terminate s)). destruct F as (F1 & F2 & F3).
    rewrite (goto_at t _ _ y) by congruence. rewrite F2, F3. set (p := if (thread_active s - 1 =? 0) && need_config_reload s then PReload else PSleep).
    apply (live_nap s t y _ p I H Hy Ht Hc); try (unfold s1; by destruct (terminate s)); [by unfold p; destruct (_ && _)|by unfold p; destruct (_ && _)| |unfold s1; destruct (terminate s) eqn:Et; exact Et].
    intros Hr Ha. unfold p. by rewrite Ha, Hr. }
  destruct (need_config_reload s) eqn:Er; [apply N; auto|]. destruct (check_ctx_queue_empty y (ctx_queue s)) as [[[w i] c]|] eqn:E; [|apply N; auto]. clear N.
  destruct (ctxs s !! c) as [x|] eqn:Hx; [|by apply (live_ctxs None s)]. cbv zeta.
  assert (Hns : t ∉ sleep_threads s) by (apply (not_sleeping s t y); [done|done|by rewrite Ht]).
  assert (G : forall s1 f p, s1 = unqueue t c w i s -> napping p = false -> live None (goto t p (ctx_upd c f (thr_upd t (fun y => y <| t_ctx := Some c |>) s1)))).
  { intros s1 f p Es Hp. subst s1. unfold unqueue. rewrite (ctx_upd_at c _ s x Hx). destruct w.
    - rewrite (thr_upd_at t _ (s <| ctxs ::= <[c := x <| entry2 := false |>]> |>) y) by done.
      rewrite (thr_upd_at t _ _ (y <| wakeup_list ::= fun f => fn_upd f i (list_del c (f i)) |>)) by apply lookup_insert_eq.
      rewrite (ctx_upd_at c _ _ (x <| entry2 := false |>)) by apply lookup_insert_eq.
      rewrite (goto_at t _ _ (y <| wakeup_list ::= fun f => fn_upd f i (list_del c (f i)) |> <| t_ctx := Some c |>)) by apply lookup_insert_eq.
      apply (live_run H _ t y (y <| wakeup_list ::= fun f => fn_upd f i (list_del c (f i)) |> <| t_ctx := Some c |> <| t_pc := p |>)); try done; [by rewrite Ht|]. cbn. by rewrite !insert_insert_eq.
    - rewrite (thr_upd_at t _ _ y) by done. rewrite (ctx_upd_at c _ _ (x <| entry2 := false |>)) by apply lookup_insert_eq.
      rewrite (goto_at t _ _ (y <| t_ctx := Some c |>)) by apply lookup_insert_eq.
      apply (live_run H _ t y (y <| t_ctx := Some c |> <| t_pc := p |>)); try done; [by rewrite Ht|cbn; by rewrite !insert_insert_eq|].
      intros q Hq. cbn. unfold fn_upd. destruct (Nat.eqb_spec q i) as [->|]; [by apply list_del_nil|done]. }
  destruct (asleep x && wakeup x) eqn:B; [|by apply G]. apply andb_prop in B as [B _]. destruct (x_asleep _ (inv_xok I _ _ Hx) B) as [_ [k Hk]]. rewrite Hk.
  assert (E0 : forall s1, ctxs s1 !! c = Some (x <| entry2 := false |>) -> ctx_upd c id s1 = s1).
  { intros s1 Q. rewrite (ctx_upd_at _ _ _ _ Q). destruct s1. cbn. unfold id. cbn in Q. by rewrite insert_id. }
  rewrite <- (E0 (thr_upd t (fun y => y <| t_ctx := Some c |>) (unqueue t c w i s))); [by apply G|].
  rewrite ctxs_thr, ctxs_unqueue, (ctx_upd_at c _ s x Hx). apply lookup_insert_eq.
Qed.

(** A worker that sleeps goes on sleeping. *)
Lemma live_doze e s t y y' s' :
  live e s -> thrs s !! t = Some y -> napping (t_pc y) = true -> napping (t_pc y') = true -> t_ctx y' = t_ctx y -> wakeup_list y' = wakeup_list y ->
  (t_sig y = true \/ t_pc y = PWoken -> t_sig y' = true \/ t_pc y' = PWoken) -> (need_config_reload s = true -> t_pc y <> PReload) -> (t_pc y' = PExit -> terminate s = true) ->
  (forall u, u ∈ threads s -> u ∈ threads s' \/ u = t /\ t_pc y' = PExit) -> t_pc y <> PExit ->
  thrs s' = <[t := y']> (thrs s) -> ctx_queue s' = ctx_queue s -> sleep_threads s' = sleep_threads s -> need_config_reload s' = need_config_reload s ->
  thread_active s' = thread_active s -> terminate s' = terminate s -> doing s' = doing s -> events s' = events s -> srcs s' = srcs s -> live e s'.
Proof.
  intros H Hy N1 N2 F1 F2 F3 F4 F5 F6 F7 E1 E2 E3 E4 E5 E6 E8 E9 E10.
  assert (L : forall u z, <[t := y']> (thrs s) !! u = Some z -> exists z0, thrs s !! u = Some z0 /\ napping (t_pc z) = napping (t_pc z0) /\ t_ctx z = t_ctx z0 /\ wakeup_list z = wakeup_list z0).
  { intros u z Hz. apply lookup_insert_Some in Hz as [[<- <-]|[_ Hz]]; [exists y; by rewrite N1, N2|eauto]. }
  assert (R : forall u, roused u s -> roused u s').
  { intros u (z & Hz & Hr). unfold roused. rewrite E1. destruct (decide (u = t)) as [->|]; [rewrite lookup_insert_eq; exists y'|rewrite lookup_insert_ne by done; by exists z].
    rewrite Hy in Hz. injection Hz as <-. auto. }
  assert (G : forall u, signalled u s -> signalled u s') by (unfold signalled; by rewrite E8). assert (V : forall c, ev_signalled c s -> ev_signalled c s') by (unfold ev_signalled; by rewrite E9, E10).
  destruct H as [A1 A2 A3 A4 A5 A6 A7 A8]. split; rewrite ?E1, ?E2, ?E3, ?E4, ?E5, ?E6, ?E8; eauto.
  - intros u z c Hu Hz Hp Hc. apply L in Hz as (z0 & Hz & Q1 & Q2 & _). rewrite Q1 in Hp. rewrite Q2 in Hc. destruct (A1 u z0 c) as [?|[?|?]]; auto.
  - intros u z p Hz Hp Hc Hw Ht. apply L in Hz as (z0 & Hz & Q1 & Q2 & Q3). rewrite Q1 in Hp. rewrite Q2 in Hc. rewrite Q3 in Hw. destruct (A3 u z0 p Hz Hp Hc Hw Ht) as [?|[?|?]]; auto.
  - rewrite (cnt_set _ _ _ _ _ Hy). unfold awake at 2 3. rewrite N1, N2. lia.
  - intros Hr. destruct (A5 Hr) as [?|[(u & z & Hz & Hp)|?]]; auto. right. left. exists u, z. rewrite lookup_insert_ne; [done|]. intros ->. rewrite Hy in Hz. injection Hz as <-. by apply F4.
  - intros u z Hz Hp Hc. apply L in Hz as (z0 & Hz & Q1 & Q2 & _). rewrite Q1 in Hp. rewrite Q2 in Hc. eauto.
  - intros u z Hz Hp. apply lookup_insert_Some in Hz as [[<- <-]|[_ Hz]]; eauto.
  - intros u z Hz. apply lookup_insert_Some in Hz as [[<- <-]|[Hne Hz]].
    + destruct (A8 _ _ Hy) as [Q|Q]; [|done]. destruct (F6 _ Q) as [?|[_ ?]]; auto.
    + destruct (A8 _ _ Hz) as [Q|Q]; [|by right]. destruct (F6 _ Q) as [?|[-> _]]; [by left|done].
Qed.

(** [__config_reload] wakes everybody. *)
Lemma wakeup_all_roused s t y : thrs s !! t = Some y -> t ∈ threads s -> roused t (wakeup_all s).
Proof.
  intros Hy Ht. unfold wakeup_all. revert Ht. generalize (threads s). intros l. induction l as [|u l IH]; [by intros ?%elem_of_nil|]. intros Hin. cbn [fold_right].
  assert (D : exists z, thrs (fold_right triton_thread_wakeup s l) !! t = Some z).
  { clear -Hy. induction l as [|v l (z & Hz)]; [eauto|]. cbn [fold_right]. unfold triton_thread_wakeup, thr_upd. destruct (thrs _ !! v); [|eauto]. cbn.
    destruct (decide (t = v)) as [->|]; [rewrite lookup_insert_eq; eauto|rewrite lookup_insert_ne by done; eauto]. }
  destruct D as [z Hz]. destruct (decide (u = t)) as [->|Hne].
  - unfold triton_thread_wakeup. rewrite (thr_upd_at _ _ _ _ Hz). eexists. split; [apply lookup_insert_eq|by left].
  - apply elem_of_cons in Hin as [?|Hin]; [congruence|]. destruct (IH Hin) as (z' & Hz' & Hr). unfold triton_thread_wakeup, thr_upd. destruct (thrs _ !! u); [|by exists z'].
    exists z'. cbn. by rewrite lookup_insert_ne.
Qed.

Lemma wakeup_all_flag s b : wakeup_all (s <| need_config_reload := b |>) = (wakeup_all s) <| need_config_reload := b |>.
Proof.
  unfold wakeup_all. change (threads (s <| need_config_reload := b |>)) with (threads s). induction (threads s) as [|t l IH]; [done|]. cbn [fold_right]. rewrite IH.
  generalize (fold_right triton_thread_wakeup s l). intros s'. unfold triton_thread_wakeup, thr_upd. change (thrs (s' <| need_config_reload := b |>)) with (thrs s'). by destruct (thrs s' !! t).
Qed.

Lemma wakeup_all_frame s : threads (wakeup_all s) = threads s /\ terminate (wakeup_all s) = terminate s /\ sleep_threads (wakeup_all s) = sleep_threads s /\ ctx_queue (wakeup_all s) = ctx_queue s /\ doing (wakeup_all s) = doing s.
Proof.
  assert (G : forall l, let s' := fold_right triton_thread_wakeup s l in threads s' = threads s /\ terminate s' = terminate s /\ sleep_threads s' = sleep_threads s /\ ctx_queue s' = ctx_queue s /\ doing s' = doing s); [|apply G].
  intros l. induction l as [|t l IH]; [done|]. cbn [fold_right]. revert IH. generalize (fold_right triton_thread_wakeup s l). intros s' (I1 & I2 & I3 & I4 & I5).
  unfold triton_thread_wakeup, thr_upd. by destruct (thrs s' !! t).
Qed.

Lemma wakeup_all_none s t : thrs s !! t = None -> thrs (wakeup_all s) !! t = None.
Proof.
  intros Hy. unfold wakeup_all. induction (threads s) as [|u l IH]; [done|]. cbn [fold_right]. revert IH. generalize (fold_right triton_thread_wakeup s l). intros s' IH.
  unfold triton_thread_wakeup, thr_upd. destruct (thrs s' !! u) eqn:Q; [|done]. cbn. rewrite lookup_insert_ne; [done|]. congruence.
Qed.

Lemma live_reloaded s : inv None s -> live None s -> live None (config_reloaded s).
Proof.
  intros I H. unfold config_reloaded. rewrite wakeup_all_flag.
  assert (K : forall t z, thrs (wakeup_all s) !! t = Some z -> terminate s = false -> roused t (wakeup_all s)).
  { intros t z Hz Htm. destruct (thrs s !! t) as [y|] eqn:Hy.
    - destruct (l_threads _ _ H t y Hy) as [Q|Q]; [by apply (wakeup_all_roused s t y)|]. pose proof (l_exit _ _ H t y Hy Q). congruence.
    - apply wakeup_all_none in Hy. congruence. }
  pose proof (live_wakeup_all s H) as G. pose proof (inv_wakeup_all _ s I) as J. destruct (wakeup_all_frame s) as (W1 & W2 & W3 & W4 & W5).
  destruct G as [A1 A2 A3 A4 A5 A6 A7 A8]. split; try done.
  - intros p t _ _ Htm Ht. cbn in Ht. destruct (c_sleep _ _ _ _ (v_sched _ _ J) t Ht) as (z & Hz & _). apply (K t z Hz). rewrite <- W2. exact Htm.
  - intros t z p Hz _ _ _ Htm. left. apply (K t z Hz). rewrite <- W2. exact Htm.
Qed.

(** Changes of contexts and sources leave the workers alone. *)
Definition same (s s' : state) : Prop := thrs s' = thrs s /\ sleep_threads s' = sleep_threads s /\ doing s' = doing s /\ (live None s -> live None s').

Lemma same_refl s : same s s.
Proof. done. Qed.
Lemma same_trans s1 s2 s3 : same s1 s2 -> same s2 s3 -> same s1 s3.
Proof. intros (A1 & A2 & A3 & A4) (B1 & B2 & B3 & B4). unfold same. rewrite B1, B2, B3. split_and!; auto. Qed.
Lemma same_ctx c f s : same s (ctx_upd c f s).
Proof. split; [|split; [|split; [|apply live_ctx_upd]]]; unfold ctx_upd; by destruct (ctxs s !! c). Qed.
Lemma same_release c s : same s (triton_context_release c s).
Proof. split; [|split; [|split; [|apply live_release]]]; unfold triton_context_release; (destruct (ctxs s !! c); [|done]); by destruct (_ =? 0). Qed.

Lemma ev_signalled_src s s' a h h' c : srcs s !! a = Some h -> s_ctx h' = s_ctx h -> srcs s' = <[a := h']> (srcs s) -> events s' = events s -> ev_signalled c s -> ev_signalled c s'.
Proof.
  intros Ha Hc E1 E2 (k & b & l & z & He & Hb & Hz). exists k, b, l. rewrite E1, E2. destruct (decide (b = a)) as [->|]; [exists h'; rewrite lookup_insert_eq; by simplify_eq|exists z; by rewrite lookup_insert_ne].
Qed.

Lemma same_src a f s : (forall h, s_ctx (f h) = s_ctx h) -> same s (src_upd a f s).
Proof.
  intros Hf. unfold src_upd. destruct (srcs s !! a) as [h|] eqn:Ha; [|by split_and!; [..|intros H; apply (live_ctxs None s)]].
  split; [done|]. split; [done|]. split; [done|]. intros H. apply (live_ext H); try done. intros c. by apply (ev_signalled_src s _ a h (f h)).
Qed.

Lemma same_md a f s : (forall h, s_ctx (f h).1 = s_ctx h) -> same s (md_upd a f s).
Proof.
  intros Hf. unfold md_upd. destruct (srcs s !! a) as [h|] eqn:Ha; [|by split_and!; [..|intros H; apply (live_ctxs None s)]]. pose proof (Hf h) as Hh. destruct (f h) as [h' o].
  split; [done|]. split; [done|]. split; [done|]. intros H. apply (live_ext H); try done. intros c. by apply (ev_signalled_src s _ a h h').
Qed.

(** A worker that is awake goes on, after such changes. *)
Lemma live_goto s s' t y p :
  inv None s -> live None s -> same s s' -> thrs s !! t = Some y -> napping (t_pc y) = false -> napping p = false -> live None (goto t p s').
Proof.
  intros I H (E1 & E2 & E3 & E4) Hy N1 N2. rewrite (goto_at t _ _ y) by congruence.
  apply (live_run (E4 H) _ t y (y <| t_pc := p |>)); try done; [by rewrite E1|]. rewrite E2. by apply (not_sleeping s t y).
Qed.

Lemma live_clear s s' t y p :
  inv None s -> live None s -> same s s' -> thrs s !! t = Some y -> napping (t_pc y) = false -> napping p = false -> live None (goto t p (thr_upd t (fun y => y <| t_ctx := None |>) s')).
Proof.
  intros I H (E1 & E2 & E3 & E4) Hy N1 N2. rewrite (thr_upd_at t _ _ y), (goto_at t _ _ (y <| t_ctx := None |>)) by (apply lookup_insert_eq || congruence).
  apply (live_run (E4 H) _ t y (y <| t_ctx := None |> <| t_pc := p |>)); try done; [by rewrite E1|apply insert_insert_eq|]. rewrite E2. by apply (not_sleeping s t y).
Qed.

Lemma live_thread_woken s t y : inv None s -> live None s -> thrs s !! t = Some y -> t_pc y = PWoken -> live None (thread_woken t y s).
Proof.
  intros I H Hy Ht.
  assert (G : forall p s', napping p = false -> thrs s' = <[t := y <| t_pc := p |>]> (thrs s) -> ctx_queue s' = ctx_queue s -> (forall u, u ∈ sleep_threads s' <-> u <> t /\ u ∈ sleep_threads s) -> need_config_reload s' = need_config_reload s ->
    thread_active s' = 1 + thread_active s -> terminate s' = terminate s -> threads s' = threads s -> doing s' = doing s -> events s' = events s -> srcs s' = srcs s -> live None s').
  { intros p s' Hp E1 E2 E3 E4 E5 E6 E7 E8 E9 E10. set (y' := y <| t_pc := p |>) in *.
    assert (L : forall u z, <[t := y']> (thrs s) !! u = Some z -> napping (t_pc z) = true -> u <> t /\ thrs s !! u = Some z).
    { intros u z Hz Hn. apply lookup_insert_Some in Hz as [[<- <-]|[? ?]]; [change (napping p = true) in Hn; congruence|auto]. }
    assert (R : forall u, u <> t -> roused u s -> roused u s') by (intros u Hu (z & Hz & Hr); exists z; by rewrite E1, lookup_insert_ne).
    assert (S : forall u, signalled u s -> signalled u s') by (unfold signalled; by rewrite E8). assert (V : forall c, ev_signalled c s -> ev_signalled c s') by (unfold ev_signalled; by rewrite E9, E10).
    pose proof (cnt_at_least_0 awake (thrs s)) as Nn. destruct H as [A1 A2 A3 A4 A5 A6 A7 A8]. split; rewrite ?E1, ?E2, ?E4, ?E5, ?E6, ?E7, ?E8.
    - intros u z c Hu Hz Hn Hc. destruct (L u z Hz Hn) as [Hne Hz']. destruct (A1 u z c Hu Hz' Hn Hc) as [?|[?|?]]; auto.
    - intros q u Hq Hr Htm Hu. apply E3 in Hu as [Hne Hu]. apply R; eauto.
    - intros u z q Hz Hn Hc Hw Htm. destruct (L u z Hz Hn) as [Hne Hz']. destruct (A3 u z q Hz' Hn Hc Hw Htm) as [?|[?|?]]; auto.
    - rewrite (cnt_set _ _ _ _ _ Hy), A4. unfold awake at 3 4. rewrite Ht. change (t_pc y') with p. rewrite Hp. cbn. lia.
    - intros _. left. lia.
    - intros u z Hz Hn Hc Htm. destruct (L u z Hz Hn) as [Hne Hz']. apply E3. eauto.
    - intros u z Hz Hx. destruct (L u z Hz) as [Hne Hz']; [by rewrite Hx|]. eauto.
    - intros u z Hz. apply lookup_insert_Some in Hz as [[<- <-]|[_ Hz]]; [|eauto]. destruct (A8 _ _ Hy) as [?|Q]; [by left|congruence]. }
  unfold thread_woken. destruct (t_ctx y) as [c|] eqn:Hc; rewrite (goto_at t _ _ y) by done; cbv zeta.
  - apply (G PRun); try done. intros u. split; [|by intros [_ ?]]. intros Hu. split; [|done]. intros ->. destruct (c_sleep _ _ _ _ (v_sched _ _ I) t Hu) as (z & Hz & _ & Q). congruence.
  - apply (G PTop); try done. intros u. apply elem_list_del.
Qed.

Lemma live_bad s : live None s -> live None (bad s).
Proof. intros H. by apply (live_ctxs None s). Qed.

Lemma live_ctx_next s t y c : inv None s -> live None s -> thrs s !! t = Some y -> napping (t_pc y) = false -> live None (ctx_next t c s).
Proof.
  intros I H Hy N. unfold ctx_next. destruct (ctxs s !! c) as [x|]; [|by apply live_bad].
  destruct (pending_timers x) as [|a l]; [destruct (pending_handlers x) as [|a l]; [destruct (pending_calls x)|destruct (srcs s !! a); [|by apply live_bad]]|].
  all: apply (live_goto s _ t y); try done; first [apply same_ctx|eapply same_trans; [apply same_ctx|by apply same_src]].
Qed.

Lemma rearm_ctx h : s_ctx (md_rearm h).1 = s_ctx h.
Proof. unfold md_rearm. destruct (negb (s_ud h)); [done|]. by destruct (mod_ h). Qed.
Lemma enable_ctx m h : s_ctx (triton_md_enable_handler m h).1 = s_ctx h.
Proof. unfold triton_md_enable_handler. destruct (_ =? _); [done|]. destruct (negb _); [|done]. by destruct (armed _). Qed.
Lemma disable_ctx m h : s_ctx (triton_md_disable_handler m h).1 = s_ctx h.
Proof. unfold triton_md_disable_handler. destruct (epoll_events h =? 0); [done|]. destruct (epoll_events h =? _); [done|]. destruct (negb _); [by destruct (armed _)|done]. Qed.

Lemma live_worker s t s' : inv None s -> live None s -> worker t s = Some s' -> live None s'.
Proof.
  intros I H E. unfold worker in E. destruct (thrs s !! t) as [y|] eqn:Hy; [|done].
  assert (G : forall p s1, same s s1 -> napping (t_pc y) = false -> napping p = false -> live None (goto t p s1)) by (intros p s1 S N1 N2; by apply (live_goto s s1 t y)).
  assert (Q : forall f a, napping (t_pc y) = false -> (forall h, napping (f h) = false) -> live None (src_run t a f s)).
  { intros f a N1 N2. unfold src_run. destruct (srcs s !! a); [by apply G|by apply live_bad]. }
  destruct (t_pc y) eqn:Ep; try (injection E as <-); try (destruct (t_ctx y) as [c|] eqn:Ec; [|done]; injection E as <-); try done.
  - by apply live_thread_top.
  - destruct (reloaded_thr s t y Hy) as [b Hb]. rewrite (goto_at t _ _ _ Hb).
    apply (live_doze None (config_reloaded s) t (y <| t_sig := b |>) (y <| t_sig := b |> <| t_pc := PSleep |>)); try done.
    + by apply live_reloaded.
    + exact (f_equal napping Ep).
    + intros [?|Z]; [by left|]. change (t_pc y = PWoken) in Z. congruence.
    + intros Z. unfold config_reloaded in Z. by rewrite wakeup_all_flag in Z.
    + intros u Hu. by left.
    + change (t_pc y <> PExit). congruence.
  - destruct (terminate s) eqn:Et; rewrite (goto_at t _ _ y) by done.
    + apply (live_doze None s t y (y <| t_pc := PExit |>)); try done; rewrite ?Ep; try done; [intros [?|?]; [by left|done]|].
      intros u Hu. destruct (decide (u = t)) as [->|]; [by right|left]. by apply elem_list_del.
    + apply (live_doze None s t y (y <| t_pc := PWait |>)); try done; rewrite ?Ep; try done; [intros [?|?]; [by left|done]|]. intros u Hu. by left.
  - destruct (t_sig y) eqn:Es; [|done]. injection E as <-. rewrite (thr_upd_at t _ _ y Hy), (goto_at t _ _ (y <| t_sig := false |>)) by apply lookup_insert_eq.
    apply (live_doze None s t y (y <| t_sig := false |> <| t_pc := PWoken |>)); try done; rewrite ?Ep; try done; [by intros _; right|intros u Hu; by left|]. apply insert_insert_eq.
  - by apply live_thread_woken.
  - apply G; [apply same_ctx|done|done].
  - apply (live_ctx_next s t y); [done|done|done|by rewrite Ep].
  - apply Q; [done|]. intros h. by destruct (s_ud h).
  - apply Q; [done|]. intros z. by destruct (wants _ _ _ _).
  - apply Q; [done|]. intros z. by destruct (wants _ _ _ _).
  - apply G; [apply same_md, rearm_ctx|done|done].
  - unfold ctx_sleep. destruct (ctxs s !! c) as [x|]; [|by apply live_bad]. destruct (wakeup x); [apply G; [apply same_ctx|done|done]|].
    apply (live_clear s _ t y); try done; [apply same_ctx|by rewrite Ep].
  - unfold ctx_close. destruct (ctxs s !! c) as [x|]; [|by apply live_bad]. apply G; [done|done|]. by destruct (_ && _).
  - apply G; [apply same_ctx|done|done].
  - unfold thread_after. destruct (ctxs s !! c) as [x|]; [|by apply live_bad]. destruct (_ || _); apply G; try done. apply same_ctx.
  - apply G; [|done|done]. destruct need_free0; [apply same_release|apply same_refl].
  - apply (live_clear s s t y); try done. by rewrite Ep.
Qed.

Lemma live_finish s t r s' : inv None s -> live None s -> finish t r s = Some s' -> live None s'.
Proof.
  intros I H E. unfold finish in E. destruct (thrs s !! t) as [y|] eqn:Hy; [|done]. destruct (doing s !! t); [done|].
  assert (G : forall p, napping (t_pc y) = false -> napping p = false -> live None (goto t p s)) by (intros p N1 N2; by apply (live_goto s s t y)).
  destruct (t_pc y) as [| | | | | | | | | | |q| | | | | | |]; try done. destruct q; try (injection E as <-; by apply G);
    (destruct r; [injection E as <-; by apply G|]); (destruct (srcs s !! _); [|done]); cbn [mbind option_bind] in E; (destruct (_ && _ && _); [|done]); injection E as <-; by apply G.
Qed.

(** ** The library *)

Lemma live_source_del s b : inv None s -> live None s -> same s (source_del b s).
Proof.
  intros I H. unfold source_del. destruct (srcs s !! b) as [h|] eqn:Hb; [|by split_and!; [..|intros K; apply live_bad]]. cbv zeta.
  assert (G : same s (ctx_upd (s_ctx h) (del_source (s_kind h) b) (src_upd b (fun h => h <| s_ud := false |>)
    (match s_kind h with Md => md_upd b (triton_md_disable_handler (Z.lor MD_MODE_READ MD_MODE_WRITE)) s | Timer => s end)))).
  { refine (same_trans _ _ _ _ (same_ctx _ _ _)). refine (same_trans _ _ _ _ (same_src _ _ _ _)); [|done]. destruct (s_kind h); [apply same_md, disable_ctx|apply same_refl]. }
  destruct (s_pending h); [|done]. eapply same_trans; [exact G|apply same_ctx].
Qed.

(** A worker that was given a context is signalled at once. *)
Lemma live_ask_close s c : inv None s -> live None s -> c ∈ ctx_list s -> live None (ask_close c s).
Proof.
  intros I H HL. destruct (m_list _ _ _ _ _ _ _ _ _ (v_mem _ _ I) c HL) as (x & Hx & _). unfold ask_close.
  assert (J : inv None (ctx_upd c (fun x => x <| need_close := true |>) s)) by (apply (safe_ctx I c x _ Hx); [alike_ctx|]; destruct (inv_xok I _ _ Hx); by destruct x).
  assert (L : ctxs (ctx_upd c (fun x => x <| need_close := true |>) s) !! c = Some (x <| need_close := true |>)) by (rewrite (ctx_upd_at _ _ _ _ Hx); apply lookup_insert_eq).
  destruct (live_queue _ c _ J (live_ctx_upd None _ _ _ H) L) as [Q _]. destruct (triton_queue_ctx _ _) as [[t|] s1]; cbn in Q; [apply (live_wakeup (Some t)); auto|done].
Qed.

Lemma live_api s a r s' : inv None s -> live None s -> api a r s = Some s' -> live None s'.
Proof.
  intros I H E. unfold api in E. destruct (may_call a s) eqn:Hm; [|done]. cbn [negb] in E. destruct (may_call_iff _ _ Hm) as [Hd Hp].
  assert (D : forall s1 o, same s s1 -> live None (does a o s1)) by (intros s1 o (_ & _ & E3 & E4); apply live_does; [by apply E4|by rewrite E3, Hd]).
  assert (L : forall f u, live None (with_live a u f s)).
  { intros f u. unfold with_live. destruct (triton_context_get_live u s); [|done]. apply D, same_ctx. }
  assert (O : forall b f, (forall h, s_ctx (f h).1 = s_ctx h) -> on_source b f s = Some s' -> live None s').
  { intros b f Hf Q. unfold on_source in Q. destruct (srcs s !! b) as [h|]; [|done]. cbn [mbind option_bind] in Q. destruct (_ && _); [|done]. injection Q as <-. by apply same_md. }
  destruct r as [u c|u|u p|u k|u f|u| | | |c|k u b|u|b|b mode|b mode|b level].
  - case_bool_decide; [|done]. injection E as <-. by apply (live_ctxs None s).
  - destruct (tpd s !! u) as [c|]; [|by injection E as <-]. destruct (owns a c s); [|done]. cbn [negb] in E.
    assert (S : same s (triton_context_unregister u c s).2).
    { unfold triton_context_unregister. destruct (ctxs s !! c) as [x|]; [|by split_and!; [..|intros K; apply live_bad]]. cbv zeta.
      repeat match goal with |- same s (match ?e with [] => _ | _ :: _ => _ end).2 => destruct e end; (split; [done|split; [done|split; [done|intros K; by apply (live_ctxs None s)]]]). }
    destruct (triton_context_unregister u c s) as [go s1]. injection E as <-. destruct go; [by apply D|by apply S].
  - destruct (tpd s !! u) as [c|]; injection E as <-; [|done]. unfold triton_context_set_priority. destruct (_ <? _)%nat; [|done]. by apply live_ctx_upd.
  - injection E as <-. apply L.
  - injection E as <-. apply L.
  - injection E as <-. apply L.
  - unfold triton_context_schedule in E. destruct (thrs s !! a) as [y|] eqn:Hy; [|done]. cbn [mbind option_bind] in E. destruct (t_ctx y) as [c|]; [|done]. cbn [mbind option_bind] in E.
    destruct (ctxs s !! c) as [x|]; [|done]. cbn [mbind option_bind] in E. destruct (Hp y eq_refl) as [k Hk]. rewrite Hk in E. destruct (need_free x); injection E as <-; [done|]. apply (live_goto s s a y); try done. by rewrite Hk.
  - injection E as <-. unfold triton_conf_reload. cbv zeta. pose proof (cnt_at_least_0 awake (thrs s)) as Nn. pose proof (l_active _ _ H) as Ac. destruct H as [A1 A2 A3 A4 A5 A6 A7 A8].
    change (thread_active (s <| need_config_reload := true |>)) with (thread_active s). destruct (Z.eqb_spec (thread_active s) 0) as [E0|E0].
    + assert (G : forall u, signalled u s -> signalled u (does a Reloading (s <| need_config_reload := true |>))) by (intros u (b & c & Hb); exists b, c; cbn; rewrite lookup_insert_ne; [done|congruence]).
      split; try done; [|by intros; right; right|intros _; right; right; exists a; apply lookup_insert_eq]. intros u z c Hu Hz Hn Hc. destruct (A1 u z c Hu Hz Hn Hc) as [?|[?|?]]; auto.
    + split; try done; [by intros; right; right|]. intros _. left. change (0 < thread_active s). lia.
  - injection E as <-. by apply (live_ctxs None s).
  - case_bool_decide; [|done]. injection E as <-. by apply live_ask_close.
  - destruct (tpd s !! u) as [c|] eqn:Hu; [|by injection E as <-]. case_bool_decide as B; [|done]. injection E as <-. unfold source_add. cbv zeta.
    destruct (m_tpd _ _ _ _ _ _ _ _ _ (v_mem _ _ I) u c Hu) as (x & Hx & _). rewrite (ctx_upd_at c _ _ x) by done. apply (live_ext H); try done.
    intros d (k' & b' & l & z & He & Hz & Hc). exists k', b', l, z. split; [done|]. split; [|done]. cbn. rewrite lookup_insert_ne; [done|congruence].
  - destruct (tpd s !! u) as [c|]; injection E as <-; [|done]. by apply live_ctx_upd.
  - destruct (srcs s !! b) as [h|] eqn:Hb; [|done]. cbn [mbind option_bind] in E. destruct (_ && _); [|done]. injection E as <-. by apply D, live_source_del.
  - by apply (O b _ (enable_ctx mode) E).
  - by apply (O b _ (disable_ctx mode) E).
  - by apply (O b (triton_md_set_trig level)).
Qed.

(** [triton_queue_ctx], and the signal the agent is going to send. *)
Lemma live_signal_queue s a c x : inv None s -> live None s -> ctxs s !! c = Some x -> quiet (doing s !! a) -> live None (signal a c (triton_queue_ctx c s)).
Proof.
  intros I H Hx Hq. destruct (live_queue s c x I H Hx) as [Q _]. destruct (queue_frame c s) as (Ed & _). destruct (triton_queue_ctx c s) as [[t|] s1]; cbn in *.
  - apply live_signal; [done|]. by rewrite Ed.
  - apply live_does; [done|]. by rewrite Ed.
Qed.

(** A sleeping context is put into the list of its worker. *)
Lemma live_wake_up s a c : inv None s -> live None s -> doing s !! a = Some (WakeUp c) -> live None (wake_up a c s).
Proof.
  intros I H Ha. unfold wake_up. destruct (ctxs s !! c) as [x|] eqn:Hx; [|by apply live_bad].
  assert (D : forall s1 o, same s s1 -> live None (does a o s1)) by (intros s1 o (_ & _ & E3 & E4); apply live_does; [by apply E4|by rewrite E3, Ha]).
  destruct (wakeup x); [by apply D|]. destruct (asleep x), (thread x) as [t|]; try (apply D, same_ctx). destruct (thrs s !! t) as [y|] eqn:Hy; [|by apply live_bad]. cbv zeta.
  rewrite (ctx_upd_at _ _ _ _ Hx), (thr_upd_at t _ _ y) by done. set (y' := y <| wakeup_list ::= fun f => fn_upd f (priority x) (f (priority x) ++ [c]) |>).
  assert (G : forall o s1, thrs s1 = <[t := y']> (thrs s) -> ctx_queue s1 = ctx_queue s -> sleep_threads s1 = sleep_threads s -> need_config_reload s1 = need_config_reload s -> thread_active s1 = thread_active s ->
    terminate s1 = terminate s -> threads s1 = threads s -> doing s1 = <[a := o]> (doing s) -> events s1 = events s -> srcs s1 = srcs s -> (t_ctx y = None -> o = Signal t c) -> live None s1).
  { intros o s1 E1 E2 E3 E4 E5 E6 E7 E8 E9 E10 Ho.
    assert (L : forall u z, <[t := y']> (thrs s) !! u = Some z -> exists z0, thrs s !! u = Some z0 /\ t_pc z = t_pc z0 /\ t_ctx z = t_ctx z0 /\ (u <> t -> wakeup_list z = wakeup_list z0)).
    { intros u z Hz. apply lookup_insert_Some in Hz as [[<- <-]|[_ Hz]]; eauto. exists y. by split_and!. }
    assert (R : forall u, roused u s -> roused u s1).
    { intros u (z & Hz & Hr). unfold roused. rewrite E1. destruct (decide (u = t)) as [->|]; [rewrite lookup_insert_eq; exists y'|rewrite lookup_insert_ne by done; by exists z]. rewrite Hy in Hz. injection Hz as <-. auto. }
    assert (S : forall u, signalled u s -> signalled u s1) by (intros u (b & d & Hb); exists b, d; rewrite E8, lookup_insert_ne; [done|congruence]).
    assert (V : forall d, ev_signalled d s -> ev_signalled d s1) by (unfold ev_signalled; by rewrite E9, E10).
    destruct H as [A1 A2 A3 A4 A5 A6 A7 A8]. split; rewrite ?E1, ?E2, ?E3, ?E4, ?E5, ?E6, ?E7; eauto.
    - intros u z d Hu Hz Hn Hd. apply L in Hz as (z0 & Hz & Q1 & Q2 & _). rewrite Q1 in Hn. rewrite Q2 in Hd. destruct (A1 u z0 d Hu Hz Hn Hd) as [?|[?|?]]; auto.
    - intros u z p Hz Hn Hd Hw Htm. apply L in Hz as (z0 & Hz & Q1 & Q2 & Q3). rewrite Q1 in Hn. rewrite Q2 in Hd. destruct (decide (u = t)) as [->|Hu].
      + rewrite Hy in Hz. injection Hz as <-. right. left. exists a, c. rewrite E8, lookup_insert_eq. f_equal. auto.
      + rewrite Q3 in Hw by done. destruct (A3 u z0 p Hz Hn Hd Hw Htm) as [?|[?|?]]; auto.
    - rewrite (cnt_set _ _ _ _ _ Hy). change (awake y') with (awake y). lia.
    - intros Hr. destruct (A5 Hr) as [?|[(u & z & Hz & Hp)|(b & Hb)]]; auto; right; [left|right].
      + destruct (decide (u = t)) as [->|]; [exists t, y'; rewrite Hy in Hz; injection Hz as <-; split; [apply lookup_insert_eq|done]|exists u, z; by rewrite lookup_insert_ne].
      + exists b. rewrite E8, lookup_insert_ne; [done|congruence].
    - intros u z Hz Hn Hd. apply L in Hz as (z0 & Hz & Q1 & Q2 & _). rewrite Q1 in Hn. rewrite Q2 in Hd. eauto.
    - intros u z Hz Hn. apply L in Hz as (z0 & Hz & Q1 & _). rewrite Q1 in Hn. eauto.
    - intros u z Hz. apply L in Hz as (z0 & Hz & Q1 & _). rewrite Q1. eauto. }
  destruct (t_ctx y) eqn:Ec; [by eapply (G (Release c))|by eapply (G (Signal t c))].
Qed.

Lemma doing_wakeup_all s : doing (wakeup_all s) = doing s.
Proof. apply wakeup_all_frame. Qed.

Lemma wakeup_roused t s y : thrs s !! t = Some y -> roused t (triton_thread_wakeup t s).
Proof. intros Hy. unfold triton_thread_wakeup. rewrite (thr_upd_at _ _ _ _ Hy). eexists. split; [apply lookup_insert_eq|by left]. Qed.

Lemma live_signalled s a t c o : live None s -> doing s !! a = Some (Signal t c) -> live None (does a o (triton_thread_wakeup t s)).
Proof.
  intros H Ha. pose proof (live_wakeup None s t H (or_introl eq_refl)) as G.
  assert (E : doing (triton_thread_wakeup t s) = doing s) by (unfold triton_thread_wakeup, thr_upd; by destruct (thrs s !! t)).
  assert (K : forall u z, thrs (triton_thread_wakeup t s) !! u = Some z -> signalled u (triton_thread_wakeup t s) -> roused u (triton_thread_wakeup t s) \/ signalled u (does a o (triton_thread_wakeup t s))).
  { intros u z Hz (b & d & Hb). destruct (decide (b = a)) as [->|Hne]; [|right; exists b, d; cbn; by rewrite lookup_insert_ne].
    left. rewrite E, Ha in Hb. injection Hb as <- <-. destruct (thrs s !! t) as [y|] eqn:Hy; [by apply (wakeup_roused t s y)|]. unfold triton_thread_wakeup, thr_upd in Hz. rewrite Hy in Hz. congruence. }
  destruct G as [A1 A2 A3 A4 A5 A6 A7 A8]. split; try done.
  - intros u z d Hu Hz Hn Hd. destruct (A1 u z d Hu Hz Hn Hd) as [?|[S|?]]; auto. destruct (K u z Hz S); auto.
  - intros u z p Hz Hn Hd Hw Ht. destruct (A3 u z p Hz Hn Hd Hw Ht) as [?|[S|?]]; auto. destruct (K u z Hz S); auto.
  - intros Hr. destruct (A5 Hr) as [?|[?|(b & Hb)]]; auto. right. right. exists b. cbn. rewrite lookup_insert_ne; [done|]. intros <-. rewrite E, Ha in Hb. done.
Qed.

(** The loop is told to end. *)
Lemma live_terminate s : live None s -> live None (s <| terminate := true |>).
Proof. intros [A1 A2 A3 A4 A5 A6 A7 A8]. by split. Qed.

Lemma live_unlist s a c : live None s -> quiet (doing s !! a) -> live None (done_ a (ctx_unlist c s)).
Proof.
  intros H Hq. unfold ctx_unlist. cbv zeta.
  assert (G : forall s1, live None s1 -> doing s1 = doing s -> live None (done_ a (if terminate s1 then wakeup_all s1 else s1))).
  { intros s1 H1 E. destruct (terminate s1); (apply live_done; [|]); try done; [by apply live_wakeup_all|by rewrite doing_wakeup_all, E|by rewrite E]. }
  assert (K : live None (ctx_upd c id (s <| ctx_list ::= list_del c |> <| context_count ::= fun n => n - 1 |>)) /\ doing (ctx_upd c id (s <| ctx_list ::= list_del c |> <| context_count ::= fun n => n - 1 |>)) = doing s).
  { split; [apply live_ctx_upd; by apply (live_ctxs None s)|]. exact (proj1 (proj2 (ctx_upd_frame c id _))). }
  destruct K as [K1 K2]. destruct (_ && _); apply G; try done. by apply live_terminate.
Qed.

Lemma live_reloading s a : inv None s -> live None s -> doing s !! a = Some Reloading -> live None (done_ a (config_reloaded s)).
Proof.
  intros I H Ha. pose proof (live_reloaded s I H) as G. assert (E : doing (config_reloaded s) = doing s) by (unfold config_reloaded; by rewrite doing_wakeup_all).
  assert (S : forall u, signalled u (config_reloaded s) -> signalled u (done_ a (config_reloaded s))) by (intros u (b & d & Hb); exists b, d; cbn; rewrite lookup_delete_ne; [done|intros <-; rewrite E, Ha in Hb; done]).
  destruct G as [A1 A2 A3 A4 A5 A6 A7 A8]. split; try done.
  - intros u z d Hu Hz Hn Hd. destruct (A1 u z d Hu Hz Hn Hd) as [?|[?|?]]; auto.
  - intros u z p Hz Hn Hd Hw Ht. destruct (A3 u z p Hz Hn Hd Hw Ht) as [?|[?|?]]; auto.
  - intros Hr. exfalso. change (need_config_reload (config_reloaded s) = true) in Hr. unfold config_reloaded in Hr. by rewrite wakeup_all_flag in Hr.
Qed.

Lemma live_continue s a ok s' : inv None s -> live None s -> continue a ok s = Some s' -> live None s'.
Proof.
  intros I H E. unfold continue in E. destruct (doing s !! a) as [o|] eqn:Ha; [|done]. cbn [mbind option_bind] in E. injection E as <-.
  pose proof (fun c => doing_ctx None s a o c I Ha) as Hl.
  assert (D : forall s1 o', quiet (Some o) -> same s s1 -> live None (does a o' s1)) by (intros s1 o' Hq (_ & _ & E3 & E4); apply live_does; [by apply E4|by rewrite E3, Ha]).
  destruct o as [c k|c f|c|c|c|t c|c|c|b|].
  - destruct ok; [|by apply D]. destruct (Hl c eq_refl) as [x Hx]. match goal with |- context [ctx_upd c ?g s] => set (f := g) end.
    assert (J : inv None (ctx_upd c f s)) by (apply (safe_ctx I c x f Hx); [alike_ctx|]; destruct (inv_xok I _ _ Hx); by destruct x).
    apply (live_signal_queue (ctx_upd c f s) a c (f x)); [done|by apply live_ctx_upd|rewrite (ctx_upd_at _ _ _ _ Hx); apply lookup_insert_eq|]. by rewrite (proj1 (proj2 (ctx_upd_frame c f s))), Ha.
  - apply D; [done|apply same_ctx].
  - destruct (Hl c eq_refl) as [x Hx]. rewrite Hx. by apply D.
  - destruct (Hl c eq_refl) as [x Hx]. cbv zeta. match goal with |- context [ctx_upd c ?g s] => set (f := g) end.
    assert (L : ctxs (ctx_upd c f s) !! c = Some (f x)) by (rewrite (ctx_upd_at _ _ _ _ Hx); apply lookup_insert_eq). rewrite L.
    destruct (pending (f x)); [|apply D; [done|apply same_ctx]].
    assert (J : inv None (ctx_upd c f s)).
    { apply (safe_ctx I c x f Hx); [alike_ctx|]. destruct (inv_xok I _ _ Hx) as [? ? X3 ? ?]. destruct x. cbn in *. split; cbn; try done. intros Q. split; [done|by apply X3]. }
    apply (live_signal_queue (ctx_upd c f s) a c (f x)); [done|by apply live_ctx_upd|done|]. by rewrite (proj1 (proj2 (ctx_upd_frame c f s))), Ha.
  - by apply live_wake_up.
  - by apply (live_signalled s a t c).
  - destruct (same_release c s) as (_ & _ & E3 & E4). apply live_done; [by apply E4|by rewrite E3, Ha].
  - apply live_unlist; [done|by rewrite Ha].
  - destruct (srcs s !! b) as [h|]; [|by apply live_bad]. apply live_done; [|change (quiet (doing s !! a)); by rewrite Ha].
    apply (live_ext H); try done. intros c (k & b' & l & z & He & Hz & Hc). exists k, b', l, z. split; [|done]. rewrite events_at. by destruct (kind_eqb k (s_kind h)).
  - by apply live_reloading.
Qed.

(** ** The threads that wait in epoll *)

Lemma live_ev e s k f : live e s -> (forall a l, e_pc (events s k) <> ESig a l) -> live e (ev_upd k f s).
Proof.
  intros H Hn. apply (live_ext H); try done. intros c (j & a & l & h & He & Ha & Hc). exists j, a, l, h. split; [|done]. rewrite events_at. unfold kind_eqb. rewrite bool_decide_eq_false_2; [done|].
  intros ->. by apply Hn in He.
Qed.

(** The thread that gave a context to a worker is going to signal it. *)
Lemma live_ev_signal s k f t y a l h :
  live (Some t) s -> (forall a l, e_pc (events s k) <> ESig a l) -> thrs s !! t = Some y -> srcs s !! a = Some h -> t_ctx y = Some (s_ctx h) -> e_pc (f (events s k)) = ESig a l -> live None (ev_upd k f s).
Proof.
  intros H Hn Hy Ha Hc He. destruct (live_ev _ s k f H Hn) as [A1 A2 A3 A4 A5 A6 A7 A8]. split; try done. intros u z d _ Hz Hp Hd. destruct (decide (u = t)) as [->|Hu]; [|apply (A1 u z d); [congruence|done..]].
  right. right. exists k, a, l, h. rewrite events_same. change (thrs s !! t = Some z) in Hz. rewrite Hy in Hz. injection Hz as <-. split; [done|]. split; [done|]. congruence.
Qed.

Lemma live_event_one s k a ev l : inv None s -> live None s -> e_pc (events s k) = EBatch ((a, ev) :: l) -> live None (event_one k a ev l s).
Proof.
  intros I H He. assert (Hin : a ∈ batch (e_pc (events s k))) by (rewrite He; by left).
  destruct (m_batch _ _ _ _ _ _ _ _ _ (v_mem _ _ I) k a Hin) as (h & Ha & Hk). unfold event_one. rewrite Ha.
  destruct (s_ud h) eqn:Hu; cbn [negb]; [|apply live_ev; [done|congruence]]. cbv zeta.
  destruct (m_src _ _ _ _ _ _ _ _ _ (v_mem _ _ I) a h Ha) as [x Hx].
  pose proof (inv_trigger s k a h x ev I Ha Hk Hu Hx) as G. cbv zeta in G. set (h' := h <| trig_epoll_events ::= trig k ev |> <| s_pending := true |>) in *.
  assert (S : live None (src_upd a (fun h => h <| trig_epoll_events ::= trig k ev |> <| s_pending := true |>) s)) by (by apply same_src).
  rewrite (src_upd_at _ _ _ _ Ha) in S |- *. fold h' in S |- *. destruct (s_pending h).
  - apply live_ev; [done|]. intros b l'. change (e_pc (events s k) <> ESig b l'). congruence.
  - pose proof (live_ctx_upd None (s_ctx h) (add_pending k a) _ S) as S'. rewrite (ctx_upd_at (s_ctx h) _ _ x) in S' |- * by done.
    match type of S' with live None ?s2 => set (s1 := s2) in * end.
    destruct (live_queue s1 (s_ctx h) (add_pending k a x)) as [Q1 Q2]; [exact G|exact S'|apply lookup_insert_eq|].
    destruct (queue_frame (s_ctx h) s1) as (_ & F2 & F3 & _). destruct (triton_queue_ctx (s_ctx h) s1) as [[t|] s2]; cbn [fst snd] in *.
    + destruct (Q2 t eq_refl) as (y & Hy & Hc). apply (live_ev_signal s2 k _ t y a l h'); try done; [intros b l'; rewrite F3; change (e_pc (events s k) <> ESig b l'); congruence|]. rewrite F2. apply lookup_insert_eq.
    + apply live_ev; [done|]. intros b l'. rewrite F3. change (e_pc (events s k) <> ESig b l'). congruence.
Qed.

Lemma live_event_signal s k a l : inv None s -> live None s -> e_pc (events s k) = ESig a l -> live None (event_signal k a l s).
Proof.
  intros I H He. assert (Hin : a ∈ batch (e_pc (events s k))) by (rewrite He; by left).
  destruct (m_batch _ _ _ _ _ _ _ _ _ (v_mem _ _ I) k a Hin) as (h & Ha & Hk). unfold event_signal. rewrite Ha. destruct (m_src _ _ _ _ _ _ _ _ _ (v_mem _ _ I) a h Ha) as [x Hx]. rewrite Hx. cbv zeta.
  set (s1 := match thread x with Some t => triton_thread_wakeup t s | None => s end).
  assert (H1 : live None s1) by (unfold s1; destruct (thread x); [apply (live_wakeup None); auto|done]).
  assert (F : events s1 = events s /\ srcs s1 = srcs s) by (unfold s1; destruct (thread x) as [t|]; [unfold triton_thread_wakeup, thr_upd; by destruct (thrs s !! t)|done]). destruct F as [F1 F2].
  assert (K : forall t y, thrs s1 !! t = Some y -> napping (t_pc y) = true -> t_ctx y = Some (s_ctx h) -> roused t s1).
  { intros t y Hy Hn Hc. assert (E : exists z, thrs s !! t = Some z /\ t_pc z = t_pc y /\ t_ctx z = t_ctx y).
    { unfold s1 in Hy. destruct (thread x) as [u|]; [|eauto]. unfold triton_thread_wakeup, thr_upd in Hy. destruct (thrs s !! u) as [z|] eqn:Hz; [|eauto].
      change (<[u := z <| t_sig := true |>]> (thrs s) !! t = Some y) in Hy. apply lookup_insert_Some in Hy as [[<- <-]|[_ Hy]]; eauto. }
    destruct E as (z & Hz & E1 & E2). assert (Et : thread x = Some t).
    { assert (O : ons (thrs s) t = Some (s_ctx h)) by (rewrite (ons_at _ _ _ Hz); unfold on; rewrite E1, E2; by destruct (t_pc y)).
      apply (h_on _ _ _ _ (c_coh _ _ _ _ (v_sched _ _ I))) in O. rewrite (places_at _ _ _ Hx) in O. apply place_thread. tauto. }
    unfold s1. rewrite Et. by apply (wakeup_roused t s z). }
  destruct H1 as [A1 A2 A3 A4 A5 A6 A7 A8]. split; try done. intros t y c Ht Hy Hn Hc. destruct (A1 t y c Ht Hy Hn Hc) as [?|[?|(j & b & l' & z & Q1 & Q2 & Q3)]]; auto.
  destruct (decide (j = k)) as [->|Hj].
  - rewrite F1, He in Q1. injection Q1 as <- <-. rewrite F2, Ha in Q2. injection Q2 as <-. left. apply (K t y Hy Hn). congruence.
  - right. right. exists j, b, l', z. rewrite events_at. unfold kind_eqb. by rewrite bool_decide_eq_false_2.
Qed.

Lemma live_event_free s k : inv None s -> live None s -> e_pc (events s k) = EFree -> live None (event_free k s).
Proof.
  intros I H He. unfold event_free. destruct (freed_list2 (events s k)) as [|a l] eqn:Ef; [apply live_ev; [done|congruence]|].
  destruct (m_freed _ _ _ _ _ _ _ _ _ (v_mem _ _ I) k a) as (h & Ha & Hk & _); [unfold freed; rewrite Ef; by left|]. rewrite Ha. cbv zeta. rewrite ev_release. apply live_release.
  set (s1 := match k with Md => s | Timer => epoll_ctl k a Del s end <| srcs ::= delete a |>). apply live_ev; [|intros b l'; replace (events s1) with (events s) by (unfold s1; by destruct k); congruence].
  apply (live_ext H); try (unfold s1; by destruct k). intros c (j & b & l' & z & Q1 & Q2 & Q3).
  assert (Hin : b ∈ batch (e_pc (events s j))) by (rewrite Q1; by left). destruct (m_batch _ _ _ _ _ _ _ _ _ (v_mem _ _ I) j b Hin) as (z' & Hz' & Hj).
  assert (b <> a) by (intros ->; assert (j = k) by congruence; subst j; congruence).
  exists j, b, l', z. split; [unfold s1; by destruct k|]. split; [|done]. assert (E : srcs s1 = delete a (srcs s)) by (unfold s1; by destruct k). by rewrite E, lookup_delete_ne.
Qed.

Lemma live_act s x s' : inv None s -> live None s -> act x s = Some s' -> live None s'.
Proof.
  intros I H E. destruct x as [t|t r|a r|a ok|k l|k]; cbn [act] in E.
  - by apply (live_worker s t).
  - by apply (live_finish s t r).
  - by apply (live_api s a r).
  - by apply (live_continue s a ok).
  - unfold epoll_wait in E. destruct (e_pc (events s k)) eqn:He; try done. destruct (forallb _ l); [|done]. injection E as <-. apply live_ev; [done|congruence].
  - unfold event_step in E. destruct (e_pc (events s k)) as [|[|[a ev] l]|a l|] eqn:He; [done| | | |]; injection E as <-.
    + apply live_ev; [done|congruence].
    + by apply live_event_one.
    + by apply live_event_signal.
    + by apply live_event_free.
Qed.

(** ** Every state that is reached *)

Lemma cnt_started (y : _triton_thread_t) l : NoDup l -> awake y = true -> cnt awake (list_to_map ((fun t : nat => (t, y)) <$> l)) = Z.of_nat (length l).
Proof.
  intros Nd Hy. induction Nd as [|t l Ht Nd IH]; [apply cnt_empty|]. rewrite fmap_cons, list_to_map_cons, cnt_new, Hy.
  - rewrite IH. cbn [length]. change (Z.b2z true) with 1. lia.
  - apply not_elem_of_list_to_map_1. rewrite <- list_fmap_compose. intros (u & -> & Hu)%list_elem_of_fmap. done.
Qed.

Lemma live_started n : live None (started n).
Proof.
  pose proof (started_thr n) as T. split; try done.
  - intros t y c _ Hy Hn. by rewrite (T _ _ Hy) in Hn.
  - intros t y p Hy Hn. by rewrite (T _ _ Hy) in Hn.
  - cbn. rewrite cnt_started; [by rewrite length_seq|apply NoDup_seq|done].
  - intros t y Hy Hn. by rewrite (T _ _ Hy) in Hn.
  - intros t y Hy Hn. by rewrite (T _ _ Hy) in Hn.
  - intros t y Hy. left. cbn in *. apply elem_of_list_to_map_2 in Hy. apply list_elem_of_fmap in Hy as (u & [= -> _] & Hu). done.
Qed.

Lemma live_reached n l s : run l (started n) = Some s -> live None s.
Proof.
  assert (G : forall l s s', inv None s -> live None s -> run l s = Some s' -> live None s').
  { clear. intros l. induction l as [|x l IH]; intros s s' I H E; cbn in E; [by injection E as <-|]. destruct (act x s) as [s1|] eqn:E1; [|done]. apply (IH s1); [by apply (inv_act s x)|by apply (live_act s x)|done]. }
  apply G; [apply safe_started|apply live_started].
Qed.

(** *** Workers stay *)

Definition there (t : nat) (s : state) : Prop := is_Some (thrs s !! t).

Lemma there_thr t u f s : there t s -> there t (thr_upd u f s).
Proof. intros [y Hy]. unfold there, thr_upd. destruct (thrs s !! u); [|eauto]. cbn. apply lookup_insert_is_Some'. eauto. Qed.
Lemma there_same t s s' : thrs s' = thrs s -> there t s -> there t s'.
Proof. unfold there. by intros ->. Qed.
Lemma there_goto t u p s : there t s -> there t (goto u p s).
Proof. apply there_thr. Qed.
Lemma there_ctx t c f s : there t s -> there t (ctx_upd c f s).
Proof. apply there_same, ctx_upd_frame. Qed.
Lemma there_src t a f s : there t s -> there t (src_upd a f s).
Proof. apply there_same. unfold src_upd. by destruct (srcs s !! a). Qed.
Lemma there_md t a f s : there t s -> there t (md_upd a f s).
Proof. apply there_same. unfold md_upd. destruct (srcs s !! a) as [h|]; [by destruct (f h)|done]. Qed.
Lemma there_release t c s : there t s -> there t (triton_context_release c s).
Proof. apply there_same. apply same_release. Qed.
Lemma there_wakeup t u s : there t s -> there t (triton_thread_wakeup u s).
Proof. apply there_thr. Qed.
Lemma there_wakeup_all t s : there t s -> there t (wakeup_all s).
Proof. intros H. unfold wakeup_all. induction (threads s); [done|]. by apply there_wakeup. Qed.
Lemma there_reloaded t s : there t s -> there t (config_reloaded s).
Proof. intros H. by apply there_wakeup_all. Qed.
Lemma there_queue t c s : there t s -> there t (triton_queue_ctx c s).2.
Proof. apply queue_frame. Qed.
Lemma there_does t a o s : there t s -> there t (does a o s).
Proof. done. Qed.
Lemma there_done t a s : there t s -> there t (done_ a s).
Proof. done. Qed.
Lemma there_ev t k f s : there t s -> there t (ev_upd k f s).
Proof. done. Qed.
Lemma there_epoll t k a o s : there t s -> there t (epoll_ctl k a o s).
Proof. done. Qed.
Lemma there_bad t s : there t s -> there t (bad s).
Proof. done. Qed.
Lemma there_signal t a c s : there t s -> there t (signal a c (triton_queue_ctx c s)).
Proof. intros H. pose proof (there_queue t c s H) as Q. by destruct (triton_queue_ctx c s) as [[u|] s1]. Qed.

Create HintDb there_db.
#[local] Hint Resolve there_goto there_thr there_ctx there_src there_md there_release there_wakeup there_wakeup_all there_reloaded there_does there_done there_ev there_epoll there_bad there_signal : there_db.

(** Takes the branches of a step apart. *)
Ltac branches E :=
  repeat match type of E with
  | Some _ = Some _ => injection E as <-
  | None = Some _ => discriminate E
  | context [mbind (M := option) _ ?e] => let Q := fresh "Q" in destruct e eqn:Q; cbn [mbind option_bind] in E
  | (match ?e with _ => _ end) = Some _ => destruct e
  end.

Lemma there_unqueue t u c w i s : there t s -> there t (unqueue u c w i s).
Proof. intros H. unfold unqueue. destruct w; [by apply there_thr, there_ctx|]. by apply (there_same t (ctx_upd c (fun x => x <| entry2 := false |>) s)); [|apply there_ctx]. Qed.

Lemma there_thread_top t u y s : there t s -> there t (thread_top u y s).
Proof.
  intros H. assert (N : forall p, there t (goto u p ((if terminate s then s else s <| sleep_threads ::= cons u |>) <| thread_active ::= fun n => n - 1 |>))).
  { intros p. apply there_goto, (there_same t s); [by destruct (terminate s)|done]. }
  unfold thread_top. destruct (need_config_reload s); [apply N|]. destruct (check_ctx_queue_empty y (ctx_queue s)) as [[[w i] c]|]; [|apply N]. clear N.
  destruct (ctxs s !! c) as [x|]; [|done]. cbv zeta. pose proof (there_unqueue t u c w i s H). destruct (_ && _); [destruct (uc x)|]; auto with there_db.
Qed.

Lemma there_source_del t a s : there t s -> there t (source_del a s).
Proof.
  intros H. unfold source_del. destruct (srcs s !! a) as [h|]; [|done]. cbv zeta. destruct (s_pending h), (s_kind h); auto with there_db.
Qed.

Lemma there_unregister t u c s : there t s -> there t (triton_context_unregister u c s).2.
Proof.
  apply there_same. unfold triton_context_unregister. destruct (ctxs s !! c) as [x|]; [|done]. cbv zeta.
  repeat match goal with |- thrs (match ?e with [] => _ | _ :: _ => _ end).2 = _ => destruct e end; done.
Qed.

Lemma there_with_live t a u f s : there t s -> there t (with_live a u f s).
Proof. intros H. unfold with_live. destruct (triton_context_get_live u s); auto with there_db. Qed.

Lemma there_ask_close t c s : there t s -> there t (ask_close c s).
Proof.
  intros H. unfold ask_close. assert (Q : there t (triton_queue_ctx c (ctx_upd c (fun x => x <| need_close := true |>) s)).2) by (by apply there_queue, there_ctx). destruct (triton_queue_ctx c _) as [[u|] s1]; auto with there_db.
Qed.

Lemma there_unlist t c s : there t s -> there t (ctx_unlist c s).
Proof.
  intros H. unfold ctx_unlist. cbv zeta. assert (Q : there t (ctx_upd c id (s <| ctx_list ::= list_del c |> <| context_count ::= fun n => n - 1 |>))) by (by apply there_ctx).
  destruct (_ && _); destruct (terminate _); try apply there_wakeup_all; exact Q.
Qed.

Lemma there_act t s x s' : act x s = Some s' -> there t s -> there t s'.
Proof.
  intros E H. pose proof (there_thread_top t) as T. pose proof (there_source_del t) as D. destruct x as [u|u r|a r|a ok|k l|k]; cbn [act] in E.
  - unfold worker in E. destruct (thrs s !! u) as [y|]; [|done]. destruct (t_pc y); try (destruct (t_ctx y)); branches E; auto with there_db.
    all: unfold thread_woken, ctx_next, src_run, ctx_sleep, ctx_close, thread_after; cbv zeta;
      repeat match goal with |- there _ (match ?e with _ => _ end) => destruct e | |- there _ (goto _ _ (match ?e with _ => _ end)) => destruct e end; auto 8 with there_db.
  - unfold finish in E. branches E; auto with there_db.
  - pose proof (there_with_live t a) as L. pose proof (there_ask_close t) as C. unfold api in E. destruct (may_call a s); [|done]. cbn [negb] in E. destruct r as [u c|u|u p| | | | | | |c|k u b| | | | |].
    2: { destruct (tpd s !! u) as [c|]; [|by injection E as <-]. destruct (owns a c s); [|done]. pose proof (there_unregister t u c s H) as Q. destruct (triton_context_unregister u c s) as [go s1]. injection E as <-. by destruct go. }
    all: unfold on_source, triton_context_schedule, triton_conf_reload, triton_context_set_priority, timer_add_fails, source_add in E; branches E; auto with there_db.
    + destruct (_ <? _)%nat; auto with there_db.
    + by destruct (_ =? 0).
  - pose proof (there_unlist t) as U. unfold continue in E. destruct (doing s !! a) as [o|]; [|done]. cbn [mbind option_bind] in E. injection E as <-. destruct o as [c k|c f|c|c|c|u c|c|c|b|]; auto with there_db.
    + destruct ok; auto with there_db.
    + destruct (ctxs s !! c); auto with there_db.
    + cbv zeta.  destruct (ctxs (ctx_upd c _ s) !! c) as [x|]; [destruct (pending x)|]; auto with there_db.
    + unfold wake_up. destruct (ctxs s !! c) as [x|]; [|done]. destruct (wakeup x); [done|]. destruct (asleep x), (thread x) as [u|]; auto with there_db.
      destruct (thrs s !! u) as [y|]; [|done]. cbv zeta. destruct (t_ctx y); auto with there_db.
    + destruct (srcs s !! b); auto with there_db.
  - unfold epoll_wait in E. branches E; auto with there_db.
  - unfold event_step in E. branches E; auto with there_db.
    + unfold event_one. destruct (srcs s !! _) as [h|]; [|done]. destruct (negb _); [done|]. cbv zeta. destruct (s_pending h); auto with there_db.
      match goal with |- context [triton_queue_ctx ?c ?s0] => assert (Q : there t (triton_queue_ctx c s0).2) by (apply there_queue; auto with there_db); destruct (triton_queue_ctx c s0) as [r s1] end. auto with there_db.
    + unfold event_signal. destruct (srcs s !! _) as [h|]; [|done]. destruct (ctxs s !! _) as [x|]; [|done]. destruct (thread x); auto with there_db.
    + unfold event_free. destruct (freed_list2 _); [done|]. destruct (srcs s !! _) as [h|]; [|done]. cbv zeta. apply there_ev, there_release. by destruct k.
Qed.

Lemma there_reached n l s t : run l (started n) = Some s -> (t < n)%nat -> there t s.
Proof.
  intros E Ht. assert (G : forall l s s', there t s -> run l s = Some s' -> there t s').
  { clear. intros l. induction l as [|x l IH]; intros s s' H E; cbn in E; [by injection E as <-|]. destruct (act x s) as [s1|] eqn:E1; [|done]. apply (IH s1); [by apply (there_act t s x)|done]. }
  apply (G l (started n)); [|done]. exists (mk_thread PTop None false (fun _ => [])). cbn. apply elem_of_list_to_map_1.
  - rewrite <- list_fmap_compose. cbn. rewrite list_fmap_id. apply NoDup_seq.
  - apply list_elem_of_fmap. exists t. split; [done|]. apply elem_of_seq. lia.
Qed.

End Wake.
