(* ===== verification/TritonLeak.v ===== *)
(** * Contexts nobody frees

    The reference of the registration is given back by the worker that runs the context when it
    was unregistered.  A context that no worker has when it is unregistered keeps it. *)

From stdpp Require Import base tactics list numbers option gmap.
From S2P Require Import Prelude Triton TritonSched TritonMem TritonSafe TritonWork TritonProps TritonLive.

Module Leak.
Import Triton Sched Mem Safe Work Loop Live.

Local Open Scope Z_scope.

Definition stuck_ctx (x : _triton_context_t) : Prop := need_free x = true /\ thread x = None /\ entry2 x = false /\ base x = true.
Definition stuck (c : nat) (s : state) : Prop := exists x, ctxs s !! c = Some x /\ stuck_ctx x.

(** ** Changes *)

Lemma stuck_ext c s s' : ctxs s' = ctxs s -> stuck c s -> stuck c s'.
Proof. unfold stuck. by intros ->. Qed.

Lemma stuck_upd c d f s : stuck c s -> (d = c -> forall x, stuck_ctx x -> stuck_ctx (f x)) -> stuck c (ctx_upd d f s).
Proof.
  intros (x & Hx & Hs) Hf. unfold ctx_upd. destruct (ctxs s !! d) as [z|] eqn:Hz; [|by exists x]. unfold stuck. cbn. destruct (decide (d = c)) as [->|Hne].
  - rewrite lookup_insert_eq. rewrite Hx in Hz. injection Hz as <-. eauto.
  - rewrite lookup_insert_ne by done. eauto.
Qed.

Lemma stuck_queue c d s : stuck c s -> stuck c (triton_queue_ctx d s).2.
Proof.
  intros (x & Hx & Hs). unfold triton_queue_ctx. destruct (ctxs s !! d) as [z|] eqn:Hz; [|by exists x]. destruct (decide (d = c)) as [->|Hne].
  - rewrite Hx in Hz. injection Hz as <-. destruct Hs as (S1 & S2 & S3 & S4). rewrite S1, orb_true_r. cbn. exists (x <| pending := true |>). split; [apply lookup_insert_eq|by split_and!].
  - assert (K : forall z', stuck c (s <| ctxs ::= <[d := z']> |>)) by (intros z'; exists x; cbn; by rewrite lookup_insert_ne).
    destruct (_ || _ || _ || _); [apply K|]. destruct (sleep_threads s) as [|t q]; [|destruct (need_config_reload s)]; cbn [snd].
    + apply (stuck_ext c (s <| ctxs ::= <[d := z <| pending := true |> <| queued := true |> <| entry2 := true |>]> |>)); [done|apply K].
    + apply (stuck_ext c (s <| ctxs ::= <[d := z <| pending := true |> <| queued := true |> <| entry2 := true |>]> |>)); [done|apply K].
    + apply (stuck_ext c (s <| ctxs ::= <[d := z <| pending := true |> <| thread := Some t |>]> |>)); [by rewrite ctxs_thr|apply K].
Qed.

(** Whoever gives a reference back leaves the one of the registration. *)
Lemma stuck_release c d s : stuck c s -> (forall x, ctxs s !! d = Some x -> base x = true -> 1 < refs x) -> stuck c (triton_context_release d s).
Proof.
  intros (x & Hx & Hs) Hr. unfold triton_context_release. destruct (ctxs s !! d) as [z|] eqn:Hz; [|by exists x]. destruct (decide (d = c)) as [->|Hne].
  - rewrite Hx in Hz. injection Hz as <-. assert (1 < refs x) by (apply Hr; [done|apply Hs]). rewrite (proj2 (Z.eqb_neq (refs x - 1) 0)) by lia. exists (x <| refs := refs x - 1 |>). split; [apply lookup_insert_eq|done].
  - destruct (_ =? 0); exists x; cbn; [by rewrite lookup_delete_ne|by rewrite lookup_insert_ne].
Qed.

Section Held.
Context {s : state} (I : inv None s).
Set Default Proof Using "Type".

Lemma refs_src a h x : srcs s !! a = Some h -> ctxs s !! s_ctx h = Some x -> base x = true -> 1 < refs x.
Proof using I.
  intros Ha Hx Hb. destruct (refs_none (v_mem _ _ I) _ _ Hx) as [R L]. pose proof (cnt_has (of_ctx (s_ctx h)) (srcs s) a h Ha (Nat.eqb_refl _)).
  pose proof (cnt_at_least_0 (held_by (s_ctx h)) (doing s)). pose proof (cnt_at_least_0 (rel_of (s_ctx h)) (thrs s)). rewrite Hb in R. change (Z.b2z true) with 1 in R. lia.
Qed.
Lemma refs_doing a o c x : doing s !! a = Some o -> holds o = Some c -> ctxs s !! c = Some x -> base x = true -> 1 < refs x.
Proof using I.
  intros Ha Ho Hx Hb. destruct (refs_none (v_mem _ _ I) _ _ Hx) as [R L]. pose proof (held_by_at a (doing s) c o Ha Ho).
  pose proof (cnt_at_least_0 (of_ctx c) (srcs s)). pose proof (cnt_at_least_0 (rel_of c) (thrs s)). rewrite Hb in R. change (Z.b2z true) with 1 in R. lia.
Qed.
Lemma refs_worker t y c x : thrs s !! t = Some y -> rel_of c y = true -> ctxs s !! c = Some x -> base x = true -> 1 < refs x.
Proof using I.
  intros Hy Hr Hx Hb. destruct (refs_none (v_mem _ _ I) _ _ Hx) as [R L]. pose proof (cnt_has (rel_of c) (thrs s) t y Hy Hr).
  pose proof (cnt_at_least_0 (of_ctx c) (srcs s)). pose proof (cnt_at_least_0 (held_by c) (doing s)). rewrite Hb in R. change (Z.b2z true) with 1 in R. lia.
Qed.

(** No worker runs the context. *)
Lemma stuck_not_run c t y d : stuck c s -> thrs s !! t = Some y -> running (t_pc y) = true -> t_ctx y = Some d -> d <> c.
Proof using I. intros (x & Hx & _ & S2 & _) Hy Hr Hd ->. destruct (inv_held I t y c Hy Hr Hd) as (z & Hz & Et & _). congruence. Qed.

Lemma stuck_not_found c t y q w i d : stuck c s -> thrs s !! t = Some y -> q = ctx_queue s -> check_ctx_queue_empty y q = Some (w, i, d) -> d <> c.
Proof using I.
  intros (x & Hx & _ & S2 & S3 & _) Hy -> E%queue_found ->. pose proof (c_coh _ _ _ _ (v_sched _ _ I)) as K. pose proof (places_at _ _ _ Hx) as P. rewrite (proj2 (place_idle x) (conj S2 S3)) in P.
  destruct w; [rewrite <- (wakes_at _ _ _ _ Hy) in E; apply (h_wake _ _ _ _ K) in E|apply (h_queue _ _ _ _ K) in E]; congruence.
Qed.

End Held.

(** ** Every step *)

(** Rewrites the context of a state away from steps that are not about contexts. *)
#[local] Hint Rewrite ctxs_thr ctxs_goto ctxs_src ctxs_md ctxs_wakeup ctxs_wakeup_all ctxs_reloaded ctxs_does ctxs_done ctxs_ev ctxs_epoll : ctxs_frame.
Ltac stuck_frame := unfold stuck; autorewrite with ctxs_frame; match goal with |- exists x, ctxs ?s !! ?c = Some x /\ stuck_ctx x => change (stuck c s) end.
Ltac stuck_keep := intros _ ? (? & ? & ? & ?); by split_and!.

Lemma stuck_worker c s t s' : inv None s -> stuck c s -> worker t s = Some s' -> stuck c s'.
Proof.
  intros I H E. unfold worker in E. destruct (thrs s !! t) as [y|] eqn:Hy; [|done].
  assert (N : forall d f, running (t_pc y) = true -> t_ctx y = Some d -> stuck c (ctx_upd d f s)) by (intros d f Hr Hd; apply stuck_upd; [done|]; intros ->; by destruct (stuck_not_run I c t y c H Hy Hr Hd)).
  destruct (t_pc y) eqn:Ep; try (injection E as <-); try (destruct (t_ctx y) as [d|] eqn:Ed; [|done]; injection E as <-); try done; try (by stuck_frame).
  - unfold thread_top. assert (Z : forall p, stuck c (goto t p ((if terminate s then s else s <| sleep_threads ::= cons t |>) <| thread_active ::= fun n => n - 1 |>))) by (intros p; stuck_frame; by destruct (terminate s)).
    destruct (need_config_reload s); [apply Z|]. destruct (check_ctx_queue_empty y (ctx_queue s)) as [[[w i] d]|] eqn:Q; [|apply Z]. apply (stuck_not_found I c t y _ w i d H Hy eq_refl) in Q.
    assert (K : stuck c (unqueue t d w i s)) by (apply (stuck_ext c (ctx_upd d (fun x => x <| entry2 := false |>) s)); [apply ctxs_unqueue|by apply stuck_upd]).
    destruct (ctxs s !! d) as [x|]; [|done]. cbv zeta. destruct (_ && _); [destruct (uc x); [by stuck_frame|apply (stuck_ext c (unqueue t d w i s)); [apply ctxs_thr|done]]|]. stuck_frame. apply stuck_upd; [by stuck_frame|done].
  - by destruct (terminate s); stuck_frame.
  - destruct (t_sig y); [|done]. injection E as <-. by stuck_frame.
  - unfold thread_woken. by destruct (t_ctx y); stuck_frame.
  - stuck_frame. by apply N.
  - unfold ctx_next. destruct (ctxs s !! d) as [x|]; [|done]. destruct (pending_timers x) as [|a q]; [destruct (pending_handlers x) as [|a q]; [destruct (pending_calls x)|destruct (srcs s !! a); [|done]]|]; stuck_frame; by apply N.
  - unfold src_run. by destruct (srcs s !! _); [stuck_frame|].
  - unfold src_run. by destruct (srcs s !! _); [stuck_frame|].
  - unfold src_run. by destruct (srcs s !! _); [stuck_frame|].
  - unfold ctx_sleep. destruct (ctxs s !! d) as [x|]; [|done]. destruct (wakeup x); stuck_frame; by apply N.
  - unfold ctx_close. by destruct (ctxs s !! d) as [x|]; [stuck_frame|].
  - stuck_frame. by apply N.
  - unfold thread_after. destruct (ctxs s !! d) as [x|]; [|done]. destruct (_ || _); stuck_frame; [by apply N|done].
  - stuck_frame. destruct need_free0; [|done]. apply stuck_release; [done|]. intros x Hx. apply (refs_worker I t y d x Hy); [|done]. unfold rel_of. by rewrite Ep, Ed, Nat.eqb_refl.
Qed.

Lemma stuck_api c s a r s' : inv None s -> stuck c s -> api a r s = Some s' -> stuck c s'.
Proof.
  intros I H E. unfold api in E. destruct (may_call a s); [|done]. cbn [negb] in E.
  assert (P : forall u d, tpd s !! u = Some d -> d <> c) by (intros u d Hu ->; destruct H as (x & Hx & S1 & _); destruct (m_tpd _ _ _ _ _ _ _ _ _ (v_mem _ _ I) u c Hu) as (z & Hz & _ & F & _); congruence).
  assert (L : forall f u, stuck c (with_live a u f s)).
  { intros f u. unfold with_live. destruct (triton_context_get_live u s); [|done]. stuck_frame. apply stuck_upd; [done|stuck_keep]. }
  assert (O : forall b f, on_source b f s = Some s' -> stuck c s').
  { intros b f Q. unfold on_source in Q. destruct (srcs s !! b) as [h|]; [|done]. cbn [mbind option_bind] in Q. destruct (_ && _); [|done]. injection Q as <-. by stuck_frame. }
  destruct r as [u d|u|u p|u k|u f|u| | | |d|k u b|u|b|b mode|b mode|b level].
  - case_bool_decide as B; [|done]. injection E as <-. destruct H as (x & Hx & Hs). exists x. split; [|done]. cbn. rewrite lookup_insert_ne; [done|]. intros ->. destruct B. congruence.
  - destruct (tpd s !! u) as [d|] eqn:Hu; [|by injection E as <-]. destruct (owns a d s); [|done]. cbn [negb] in E. pose proof (P u d Hu) as Hd.
    assert (G : stuck c (triton_context_unregister u d s).2).
    { unfold triton_context_unregister. destruct (ctxs s !! d) as [z|]; [|done]. destruct H as (x & Hx & Hs). exists x. split; [|done]. cbv zeta.
      repeat match goal with |- ctxs (match ?e with [] => _ | _ :: _ => _ end).2 !! c = _ => destruct e end; cbn; by rewrite lookup_insert_ne. }
    destruct (triton_context_unregister u d s) as [go s1]. injection E as <-. destruct go; [by stuck_frame|done].
  - destruct (tpd s !! u) as [d|]; injection E as <-; [|done]. unfold triton_context_set_priority. destruct (_ <? _)%nat; [|done]. apply stuck_upd; [done|stuck_keep].
  - injection E as <-. apply L.
  - injection E as <-. apply L.
  - injection E as <-. apply L.
  - unfold triton_context_schedule in E. destruct (thrs s !! a) as [y|]; [|done]. cbn [mbind option_bind] in E. destruct (t_ctx y) as [d|]; [|done]. cbn [mbind option_bind] in E.
    destruct (ctxs s !! d) as [x|]; [|done]. cbn [mbind option_bind] in E. destruct (t_pc y); try done. destruct (need_free x); injection E as <-; [done|by stuck_frame].
  - injection E as <-. unfold triton_conf_reload. cbv zeta. by destruct (_ =? 0).
  - by injection E as <-.
  - case_bool_decide; [|done]. injection E as <-. unfold ask_close. assert (G : stuck c (ctx_upd d (fun x => x <| need_close := true |>) s)) by (apply stuck_upd; [done|stuck_keep]).
    pose proof (stuck_queue c d _ G) as Q. destruct (triton_queue_ctx _ _) as [[t|] s1]; [by stuck_frame|done].
  - destruct (tpd s !! u) as [d|] eqn:Hu; [|by injection E as <-]. case_bool_decide; [|done]. injection E as <-. unfold source_add. stuck_frame. apply stuck_upd; [done|]. intros ->. by destruct (P u c Hu).
  - destruct (tpd s !! u) as [d|]; injection E as <-; [|done]. apply stuck_upd; [done|stuck_keep].
  - destruct (srcs s !! b) as [h|] eqn:Hb; [|done]. cbn [mbind option_bind] in E. destruct (_ && _); [|done]. injection E as <-. stuck_frame. unfold source_del. rewrite Hb. cbv zeta.
    assert (K : stuck c (src_upd b (fun h => h <| s_ud := false |>) (match s_kind h with Md => md_upd b (triton_md_disable_handler (Z.lor MD_MODE_READ MD_MODE_WRITE)) s | Timer => s end))) by (destruct (s_kind h); by stuck_frame).
    assert (G : stuck c (ctx_upd (s_ctx h) (del_source (s_kind h) b) (src_upd b (fun h => h <| s_ud := false |>) (match s_kind h with Md => md_upd b (triton_md_disable_handler (Z.lor MD_MODE_READ MD_MODE_WRITE)) s | Timer => s end)))).
    { apply stuck_upd; [done|]. destruct (s_kind h); stuck_keep. }
    destruct (s_pending h); [|done]. apply stuck_upd; [done|]. destruct (s_kind h); stuck_keep.
  - by apply (O b _ E).
  - by apply (O b _ E).
  - by apply (O b _ E).
Qed.

Lemma stuck_signal c a d s : stuck c s -> stuck c (signal a d (triton_queue_ctx d s)).
Proof. intros H. pose proof (stuck_queue c d s H) as Q. by destruct (triton_queue_ctx d s) as [[t|] s1]; stuck_frame. Qed.

Lemma stuck_continue c s a ok s' : inv None s -> stuck c s -> continue a ok s = Some s' -> stuck c s'.
Proof.
  intros I H E. unfold continue in E. destruct (doing s !! a) as [o|] eqn:Ha; [|done]. cbn [mbind option_bind] in E. injection E as <-.
  destruct o as [d k|d f|d|d|d|t d|d|d|b|]; try (by stuck_frame).
  - destruct ok; [|by stuck_frame]. apply stuck_signal, stuck_upd; [done|stuck_keep].
  - stuck_frame. apply stuck_upd; [done|stuck_keep].
  - by destruct (ctxs s !! d); [stuck_frame|].
  - cbv zeta. match goal with |- context [ctx_upd d ?g s] => assert (G : stuck c (ctx_upd d g s)) by (apply stuck_upd; [done|stuck_keep]); destruct (ctxs (ctx_upd d g s) !! d) as [x|]; [|done] end.
    destruct (pending x); [by apply stuck_signal|by stuck_frame].
  - unfold wake_up. destruct (ctxs s !! d) as [x|] eqn:Hx; [|done]. destruct (wakeup x); [by stuck_frame|].
    assert (G : stuck c (ctx_upd d (fun x => x <| wakeup := true |>) s)) by (apply stuck_upd; [done|stuck_keep]).
    destruct (asleep x), (thread x) as [t|] eqn:Et; try (by stuck_frame). destruct (thrs s !! t) as [y|]; [|done]. cbv zeta.
    assert (K : stuck c (ctx_upd d (fun x => x <| wakeup := true |> <| entry2 := true |>) s)) by (apply stuck_upd; [done|]; intros ->; destruct H as (z & Hz & _ & S2 & _); congruence).
    destruct (t_ctx y); by stuck_frame.
  - stuck_frame. apply stuck_release; [done|]. intros x Hx. by apply (refs_doing I a (Release d) d x).
  - stuck_frame. unfold ctx_unlist. cbv zeta. assert (G : stuck c (ctx_upd d id (s <| ctx_list ::= list_del d |> <| context_count ::= fun n => n - 1 |>))) by (by apply stuck_upd).
    destruct (_ && _); destruct (terminate _); by stuck_frame.
  - destruct (srcs s !! b); [by stuck_frame|done].
Qed.

Lemma stuck_event c s k s' : inv None s -> stuck c s -> event_step k s = Some s' -> stuck c s'.
Proof.
  intros I H E. unfold event_step in E. destruct (e_pc (events s k)) as [|[|[a ev] l]|a l|] eqn:He; [done| | | |]; injection E as <-.
  - by stuck_frame.
  - unfold event_one. destruct (srcs s !! a) as [h|]; [|done]. destruct (s_ud h); [|by stuck_frame]. cbn [negb]. cbv zeta. destruct (s_pending h); [by stuck_frame|].
    match goal with |- context [triton_queue_ctx ?d ?s0] => assert (Q : stuck c (triton_queue_ctx d s0).2); [|destruct (triton_queue_ctx d s0) as [r s1]; by stuck_frame] end.
    apply stuck_queue, stuck_upd; [by stuck_frame|]. destruct k; stuck_keep.
  - unfold event_signal. destruct (srcs s !! a) as [h|]; [|done]. destruct (ctxs s !! s_ctx h) as [x|]; [|done]. destruct (thread x); by stuck_frame.
  - unfold event_free. destruct (freed_list2 (events s k)) as [|a l]; [by stuck_frame|]. destruct (srcs s !! a) as [h|] eqn:Ha; [|done]. stuck_frame. apply stuck_release; [apply (stuck_ext c s); [by destruct k|done]|].
    intros x Hx. apply (refs_src I a h x Ha). destruct k; exact Hx.
Qed.

Lemma stuck_act c s x s' : inv None s -> stuck c s -> act x s = Some s' -> stuck c s'.
Proof.
  intros I H E. destruct x as [t|t r|a r|a ok|k l|k]; cbn [act] in E.
  - by apply (stuck_worker c s t).
  - unfold finish in E. destruct (thrs s !! t) as [y|]; [|done]. destruct (doing s !! t); [done|]. apply (stuck_ext c s); [|done].
    destruct (t_pc y) as [| | | | | | | | | | |q| | | | | | |]; try done. destruct q; try (injection E as <-; apply ctxs_goto);
      (destruct r; [injection E as <-; apply ctxs_goto|]); (destruct (srcs s !! _); [|done]); cbn [mbind option_bind] in E; (destruct (_ && _ && _); [|done]); injection E as <-; apply ctxs_goto.
  - by apply (stuck_api c s a r).
  - by apply (stuck_continue c s a ok).
  - unfold epoll_wait in E. destruct (e_pc (events s k)); try done. destruct (forallb _ l); [|done]. by injection E as <-.
  - by apply (stuck_event c s k).
Qed.

Lemma stuck_runs c l s s' : inv None s -> stuck c s -> run l s = Some s' -> stuck c s'.
Proof.
  revert s. induction l as [|x l IH]; intros s I H E; cbn in E; [by injection E as <-|]. destruct (act x s) as [s1|] eqn:E1; [|done].
  apply (IH s1); [by apply (inv_act s x)|by apply (stuck_act c s x)|done].
Qed.

End Leak.
