(* ===== verification/TritonThms.v ===== *)
(** * The event loop: theorems

    For every run of the machine, from [n] workers that were started: memory, one worker for
    each context, the order of the calls, and that nothing is left over when the loop rests.
    Runs that show what can go wrong close the file. *)

From stdpp Require Import base tactics list numbers option gmap.
From S2P Require Import Prelude Triton TritonSched TritonMem TritonSafe TritonWork TritonProps TritonLive TritonWake TritonLeak.

Module LoopThms.
Import Triton Sched Mem Safe Work Loop Live Wake Leak.

Local Open Scope Z_scope.

(** C4: whatever the threads, the handlers and the users of the event loop do, no step reads or
    writes a context, a timer or a descriptor handler that was freed. *)
Theorem loop_memory_safe n l s : run l (started n) = Some s -> uaf s = false.
Proof. intros E. apply (v_uaf _ _ (inv_reached n l s E)). Qed.

(** C8: the reference count of a context is the sum of what refers to it: its registration,
    its timers and handlers that are not freed yet, the functions that use it, the worker that
    ends it, and the references that failed calls of [triton_timer_add] left behind. *)
Theorem context_references n l s c x :
  run l (started n) = Some s -> ctxs s !! c = Some x ->
  refs x = Z.b2z (base x) + cnt (of_ctx c) (srcs s) + cnt (held_by c) (doing s) + cnt (rel_of c) (thrs s) + leaked x /\
  (base x = false -> need_free x = true).
Proof.
  intros E Hx. pose proof (inv_reached n l s E) as I. destruct (refs_none (v_mem _ _ I) c x Hx) as [R _]. split; [done|]. apply (x_base _ (inv_xok I _ _ Hx)).
Qed.

(** C7: a context is run by one worker at a time: two workers that are past the choice of a
    context and not asleep never have the same one. *)
Theorem one_worker n l s t t' y y' c :
  run l (started n) = Some s -> thrs s !! t = Some y -> thrs s !! t' = Some y' -> running (t_pc y) = true -> running (t_pc y') = true ->
  t_ctx y = Some c -> t_ctx y' = Some c -> t = t'.
Proof.
  intros E Hy Hy' R R' Hc Hc'. pose proof (inv_reached n l s E) as I. destruct (inv_held I t y c Hy R Hc) as (x & Hx & Et & _).
  destruct (inv_held I t' y' c Hy' R' Hc') as (x' & Hx' & Et' & _). congruence.
Qed.

(** C21: calls are run in the order [triton_context_call] accepted them; as long as none was
    taken back, the calls that were run and those that wait are all that were accepted. *)
Theorem calls_in_order n l s c x :
  run l (started n) = Some s -> ctxs s !! c = Some x ->
  sublist (ran x ++ pending_calls x) (accepted x) /\ (cut x = false -> accepted x = ran x ++ pending_calls x).
Proof. intros E Hx. apply (served_reached n l s E c x Hx). Qed.

(** ** Rest *)

(** Nothing is left to do for the library: no step of a worker, of a function that was begun,
    or of a thread that waits in epoll; and no handler runs. *)
Definition internal (x : action) : bool := match x with Worker _ | Continue _ _ | Event _ => true | _ => false end.
Definition at_rest (s : state) : Prop :=
  (forall x, internal x = true -> act x s = None) /\ (forall t y k, thrs s !! t = Some y -> t_pc y <> PHnd k).

Lemma rest_worker n l s t y :
  run l (started n) = Some s -> at_rest s -> terminate s = false -> thrs s !! t = Some y -> t_pc y = PWait /\ t_sig y = false.
Proof.
  intros E [Rs Rh] Ht Hy. pose proof (inv_reached n l s E) as I. pose proof (live_reached n l s E) as L. pose proof (Rs (Worker t) eq_refl) as W. cbn in W. unfold worker in W. rewrite Hy in W.
  destruct (inv_yok I _ _ Hy) as [_ Y2 Y3]. pose proof (Rh t y) as Rt. destruct (t_pc y) eqn:Ep; try done;
    try (destruct (Y2 eq_refl) as [c Hc]; by rewrite Hc in W); try (destruct (Y3 _ eq_refl) as [c Hc]; by rewrite Hc in W).
  - by destruct (t_sig y).
  - by destruct (Rt k Hy).
  - pose proof (l_exit _ _ L t y Hy Ep). congruence.
Qed.

Lemma rest_quiet n l s t y :
  run l (started n) = Some s -> at_rest s -> terminate s = false -> thrs s !! t = Some y -> ~ roused t s /\ ~ signalled t s /\ (forall c, ~ ev_signalled c s) /\ t_ctx y = None.
Proof.
  intros E R Ht Hy. destruct (rest_worker n l s t y E R Ht Hy) as [Hp Hs].
  assert (N1 : ~ roused t s) by (intros (z & Hz & [?|?]); congruence).
  assert (N2 : ~ signalled t s) by (intros (a & c & Ha); pose proof (proj1 R (Continue a true) eq_refl) as W; cbn in W; unfold continue in W; by rewrite Ha in W).
  assert (N3 : forall c, ~ ev_signalled c s).
  { intros c (k & a & l' & h & He & _). pose proof (proj1 R (Event k) eq_refl) as W. cbn in W. unfold event_step in W. by rewrite He in W. }
  split_and!; try done. destruct (t_ctx y) as [c|] eqn:Hc; [|done]. exfalso.
  destruct (l_given _ _ (live_reached n l s E) t y c) as [?|[?|?]]; try done; [by rewrite Hp|by apply (N3 c)].
Qed.

(** C3: no wakeup is lost.  When the loop rests, a reload that was asked for has been carried
    out, no context is queued, and a context with something pending is one that was not started
    yet, that is being unregistered, or that has put itself to sleep and was not woken. *)
Theorem no_lost_wakeup n l s :
  run l (started n) = Some s -> (0 < n)%nat -> terminate s = false -> at_rest s ->
  need_config_reload s = false /\ (forall p, ctx_queue s p = []) /\
  (forall c x, ctxs s !! c = Some x -> work x -> init x = true \/ need_free x = true \/ (asleep x = true /\ wakeup x = false)).
Proof.
  intros E Hn Ht R. pose proof (inv_reached n l s E) as I. pose proof (live_reached n l s E) as L. pose proof (rest_worker n l s) as W. pose proof (rest_quiet n l s) as Q.
  destruct (there_reached n l s 0%nat E Hn) as [y0 Hy0].
  assert (Hr : need_config_reload s = false).
  { destruct (need_config_reload s) eqn:Er; [|done]. exfalso. destruct (l_reload _ _ L Er) as [Ha|[(t & y & Hy & Hp)|(a & Ha)]].
    - rewrite (l_active _ _ L), cnt_none in Ha; [lia|]. intros t y Hy. destruct (W t y E R Ht Hy) as [Hp _]. unfold awake. by rewrite Hp.
    - destruct (W t y E R Ht Hy) as [Hp' _]. congruence.
    - pose proof (proj1 R (Continue a true) eq_refl) as C. cbn in C. unfold continue in C. by rewrite Ha in C. }
  assert (Hq : forall p, ctx_queue s p = []).
  { intros p. destruct (ctx_queue s p) as [|c q] eqn:Ep; [done|]. exfalso. destruct (W _ _ E R Ht Hy0) as [Hp0 _]. destruct (Q _ _ E R Ht Hy0) as (N1 & _ & _ & Hc0). apply N1, (l_queue _ _ L p); try done; [by rewrite Ep|].
    apply (l_sleep _ _ L 0%nat y0); [done|by rewrite Hp0|done|done]. }
  split_and!; [done|done|]. intros c x Hx Hw. destruct (served_reached n l s E c x Hx) as (_ & D1 & D2). destruct (init x) eqn:Ei; [auto|]. destruct (need_free x) eqn:Ef; [auto|]. right. right.
  specialize (D2 (D1 Hw) eq_refl eq_refl). pose proof (c_coh _ _ _ _ (v_sched _ _ I)) as K.
  assert (Hon : forall t, place_of x <> Held t /\ place_of x <> Resumed t).
  { intros t. rewrite <- (places_at _ _ _ Hx). assert (N : ons (thrs s) t <> Some c); [|rewrite (h_on _ _ _ _ K) in N; tauto].
    unfold ons. destruct (thrs s !! t) as [y|] eqn:Hy; cbn; [|done]. destruct (Q _ _ E R Ht Hy) as (_ & _ & _ & Hc). unfold on. rewrite Hc. by destruct (has_ctx _). }
  destruct (place_of x) as [| |t|t|t|t] eqn:Ep; [done| |by destruct (Hon t)| | |by destruct (Hon t)].
  - exfalso. destruct (h_queued _ _ _ _ K c) as (p & _ & Hin); [by rewrite (places_at _ _ _ Hx)|]. rewrite Hq in Hin. by apply elem_of_nil in Hin.
  - unfold place_of in Ep. destruct (thread x); [|by destruct (entry2 x)]. by destruct (asleep x), (entry2 x), (wakeup x).
  - exfalso. destruct (h_woken _ _ _ _ K t c) as (p & _ & Hin); [by rewrite (places_at _ _ _ Hx)|]. unfold wakes in Hin. destruct (thrs s !! t) as [y|] eqn:Hy; cbn in Hin; [|by apply elem_of_nil in Hin].
    destruct (W _ _ E R Ht Hy) as [Hp _]. destruct (Q _ _ E R Ht Hy) as (N1 & N2 & _ & Hc). destruct (l_wake _ _ L t y p Hy) as [?|[?|?]]; try done; [by rewrite Hp|intros Z; rewrite Z in Hin; by apply elem_of_nil in Hin|congruence].
Qed.

(** A context that no worker has and that is in no queue when it is unregistered is never
    freed: whatever happens later, it is still allocated. *)
Theorem idle_unregistered_stays n l l' s s' c x :
  run l (started n) = Some s -> ctxs s !! c = Some x -> need_free x = true -> thread x = None -> entry2 x = false -> base x = true ->
  run l' s = Some s' -> exists x', ctxs s' !! c = Some x' /\ need_free x' = true.
Proof.
  intros E Hx H1 H2 H3 H4 E'. destruct (stuck_runs c l' s s' (inv_reached n l s E)) as (x' & Hx' & S1 & _); [by exists x|done|]. eauto.
Qed.

(** ** Runs *)

(** The loop rests, decided. *)
Definition resting (y : _triton_thread_t) : bool := match t_pc y with PWait => negb (t_sig y) | PExit => true | _ => false end.
Definition rests (s : state) : bool :=
  forallb (fun '(_, y) => resting y) (map_to_list (thrs s)) && bool_decide (map_to_list (doing s) = []) &&
  forallb (fun k => match e_pc (events s k) with EWait => true | _ => false end) [Md; Timer].

Lemma rests_ok s : rests s = true -> at_rest s.
Proof.
  unfold rests. intros [[R1 R2]%andb_prop R3]%andb_prop. apply bool_decide_eq_true, map_to_list_empty_iff in R2.
  assert (T : forall t y, thrs s !! t = Some y -> resting y = true).
  { intros t y Hy. rewrite forallb_forall in R1. apply (R1 (t, y)). by apply list_elem_of_In, elem_of_map_to_list. }
  split; [|intros t y k Hy Hk; apply T in Hy; unfold resting in Hy; by rewrite Hk in Hy].
  intros [t|t r|a r|a ok|k q|k]; cbn; try done; intros _.
  - unfold worker. destruct (thrs s !! t) as [y|] eqn:Hy; [|done]. apply T in Hy. unfold resting in Hy. destruct (t_pc y); try done. by destruct (t_sig y).
  - unfold continue. by rewrite R2, lookup_empty.
  - unfold event_step. cbn in R3. destruct k; [destruct (e_pc (events s Md))|destruct (e_pc (events s Timer))]; try done; by destruct (e_pc (events s Md)).
Qed.

(** A context is registered, woken, and gets a timer; the workers go to sleep. *)
Definition run_start : list action :=
  [Api 9 (RRegister 1 100); Api 9 (RWakeup 1); Continue 9 true; Continue 9 true; Continue 9 true; Api 9 (RAdd Timer 1 200);
   Worker 0; Worker 0; Worker 1; Worker 1].
(** The timer fires: its handler is entered. *)
Definition run_fire : list action :=
  [Epoll Timer [(200%nat, 1)]; Event Timer; Event Timer; Event Timer; Event Timer; Worker 1; Worker 1; Worker 1; Worker 1; Worker 1].
(** The handler deletes the timer and unregisters the context; the timer and the context are
    freed by the thread of the timers. *)
Definition run_end : list action :=
  [Api 1 (RDel 200); Continue 1 true; Api 1 (RUnregister 1); Continue 1 true; Finish 1 true;
   Worker 1; Worker 1; Worker 1; Worker 1; Worker 1; Worker 1; Worker 1;
   Epoll Timer []; Event Timer; Event Timer; Epoll Timer []; Event Timer; Event Timer; Event Timer].
(** Two calls; the handler of the first puts its context to sleep. *)
Definition run_calls : list action :=
  [Api 9 (RCall 1 (mk_call 5 6)); Continue 9 true; Continue 9 true; Continue 9 true; Api 9 (RCall 1 (mk_call 7 8)); Continue 9 true; Continue 9 true;
   Worker 1; Worker 1; Worker 1; Worker 1; Api 1 RSchedule; Worker 1; Worker 1; Worker 1].

Lemma ran_to {A} l n (f : state -> A) v : option_map f (run l (started n)) = Some v -> exists s, run l (started n) = Some s /\ f s = v.
Proof. destruct (run l (started n)) as [s|]; [|done]. intros [= <-]. eauto. Qed.

Lemma loop_memory_safe_witness :
  exists s, run (run_start ++ run_fire ++ run_end) (started 2) = Some s /\ map_to_list (ctxs s) = [] /\ map_to_list (srcs s) = [] /\ uaf s = false.
Proof.
  destruct (ran_to (run_start ++ run_fire ++ run_end) 2 (fun s => (map_to_list (ctxs s), map_to_list (srcs s))) ([], [])) as (s & E & V); [vm_compute; reflexivity|].
  injection V as V1 V2. exists s. split; [exact E|]. split; [exact V1|]. split; [exact V2|]. exact (loop_memory_safe 2 _ s E).
Defined.

Lemma context_references_witness :
  exists s x, run (run_start ++ run_fire) (started 2) = Some s /\ ctxs s !! 100%nat = Some x /\ refs x = 2 /\ cnt (of_ctx 100) (srcs s) = 1 /\
    refs x = Z.b2z (base x) + cnt (of_ctx 100) (srcs s) + cnt (held_by 100) (doing s) + cnt (rel_of 100) (thrs s) + leaked x.
Proof.
  destruct (ran_to (run_start ++ run_fire) 2 (fun s => (refs <$> ctxs s !! 100%nat, cnt (of_ctx 100) (srcs s))) (Some 2, 1)) as (s & E & V); [vm_compute; reflexivity|].
  injection V as V1 V2. destruct (ctxs s !! 100%nat) as [x|] eqn:Hx; [|discriminate V1]. injection V1 as V1. exists s, x. split; [exact E|]. split; [exact Hx|]. split; [exact V1|]. split; [exact V2|].
  exact (proj1 (context_references 2 _ s 100 x E Hx)).
Defined.

Lemma one_worker_witness :
  exists s t t' y c, run (run_start ++ run_fire) (started 2) = Some s /\ thrs s !! t = Some y /\ running (t_pc y) = true /\ t_ctx y = Some c /\ t = t'.
Proof.
  destruct (ran_to (run_start ++ run_fire) 2 (fun s => (fun y => (running (t_pc y), t_ctx y)) <$> thrs s !! 1%nat) (Some (true, Some 100%nat))) as (s & E & V); [vm_compute; reflexivity|].
  destruct (thrs s !! 1%nat) as [y|] eqn:Hy; [|discriminate V]. injection V as V1 V2. exists s, 1%nat, 1%nat, y, 100%nat. split; [exact E|]. split; [exact Hy|]. split; [exact V1|]. split; [exact V2|].
  exact (one_worker 2 _ s 1 1 y y 100 E Hy Hy V1 V1 V2 V2).
Defined.

Lemma calls_in_order_witness :
  exists s x, run (run_start ++ run_calls) (started 2) = Some s /\ ctxs s !! 100%nat = Some x /\ ran x = [mk_call 5 6] /\ pending_calls x = [mk_call 7 8] /\ accepted x = [mk_call 5 6] ++ [mk_call 7 8].
Proof.
  destruct (ran_to (run_start ++ run_calls) 2 (fun s => (fun x => (ran x, pending_calls x, cut x)) <$> ctxs s !! 100%nat) (Some ([mk_call 5 6], [mk_call 7 8], false))) as (s & E & V); [vm_compute; reflexivity|].
  destruct (ctxs s !! 100%nat) as [x|] eqn:Hx; [|discriminate V]. injection V as V1 V2 V3. exists s, x. split; [exact E|]. split; [exact Hx|]. split; [exact V1|]. split; [exact V2|].
  rewrite <- V1, <- V2. exact (proj2 (calls_in_order 2 _ s 100 x E Hx) V3).
Defined.

Lemma no_lost_wakeup_witness :
  exists s x, run (run_start ++ run_calls) (started 2) = Some s /\ ctxs s !! 100%nat = Some x /\ work x /\ (init x = true \/ need_free x = true \/ asleep x = true /\ wakeup x = false).
Proof.
  destruct (ran_to (run_start ++ run_calls) 2 (fun s => (pending_calls <$> ctxs s !! 100%nat, terminate s, rests s)) (Some [mk_call 7 8], false, true)) as (s & E & V); [vm_compute; reflexivity|].
  injection V as V1 V2 V3. destruct (ctxs s !! 100%nat) as [x|] eqn:Hx; [|discriminate V1]. injection V1 as V1. assert (W : work x) by (right; right; rewrite V1; discriminate).
  exists s, x. split; [exact E|]. split; [exact Hx|]. split; [exact W|]. exact (proj2 (proj2 (no_lost_wakeup 2 _ s E ltac:(lia) V2 (rests_ok s V3))) 100%nat x Hx W).
Defined.

(** A context is registered and unregistered by a thread that is no worker. *)
Definition run_idle : list action := [Api 9 (RRegister 1 100); Api 9 (RUnregister 1); Continue 9 true].

Lemma idle_unregistered_stays_witness :
  exists s s' x', run run_idle (started 1) = Some s /\ run [Worker 0; Worker 0] s = Some s' /\ ctxs s' !! 100%nat = Some x' /\ need_free x' = true.
Proof.
  destruct (ran_to run_idle 1 (fun s => ((fun x => (need_free x, thread x, entry2 x, base x)) <$> ctxs s !! 100%nat, bool_decide (is_Some (run [Worker 0; Worker 0] s)))) (Some (true, None, false, true), true)) as (s & E & V); [vm_compute; reflexivity|].
  injection V as V1 V2. destruct (ctxs s !! 100%nat) as [x|] eqn:Hx; [|discriminate V1]. injection V1 as H1 H2 H3 H4. apply bool_decide_eq_true in V2 as [s' E'].
  destruct (idle_unregistered_stays 1 _ [Worker 0; Worker 0] s s' 100 x E Hx H1 H2 H3 H4 E') as (x' & Hx' & Hn). exists s, s', x'. split; [exact E|]. split; [exact E'|]. split; [exact Hx'|exact Hn].
Defined.

(** A worker is given a context and has not woken up yet, so that no worker counts as active. *)
Definition run_reload : list action :=
  run_start ++ [Api 9 (RCall 1 (mk_call 5 6)); Continue 9 true; Api 8 RReload; Continue 9 true; Continue 9 true; Worker 1; Worker 1; Worker 1; Worker 1].

(** The configuration can be reloaded while a handler runs: [triton_conf_reload] finds no
    active worker, and starts, after a context was given to a worker and before it wakes up. *)
Theorem reload_overlaps :
  exists s t y k, run run_reload (started 2) = Some s /\ doing s !! 8%nat = Some Reloading /\ thrs s !! t = Some y /\ t_pc y = PHnd k.
Proof.
  destruct (ran_to run_reload 2 (fun s => (doing s !! 8%nat, t_pc <$> thrs s !! 1%nat)) (Some Reloading, Some (PHnd KCall))) as (s & E & V); [vm_compute; reflexivity|].
  injection V as V1 V2. destruct (thrs s !! 1%nat) as [y|] eqn:Hy; [|discriminate V2]. injection V2 as V2. exists s, 1%nat, y, KCall. by split_and!.
Qed.

End LoopThms.
